(* ===== verification/_CoqProject ===== *)
-Q . S2P
Prelude.v
GoStrings.v
Ratelimit.v
Json.v
Cwmp.v
Probe.v
Devices.v
Encoding.v
NetGuard.v
Credentials.v
DigestAuth.v
JobModel.v
Policies.v
Regex.v
Protected.v
JobStore.v
Datamodel.v
Adapters.v
Admission.v
AdmissionTheorems.v
JobLaws.v
JobTheorems.v
PayloadTheorems.v
Discovery.v
DiscoveryTheorems.v
ParamCache.v
ParamTheorems.v
Onboarding.v
Lifecycle.v
OnboardingLaws.v
OnboardingTheorems.v
Sessions.v
Render.v
DiagPlan.v
Gateway.v
GatewayLaws.v
GatewayTheorems.v
WifiView.v
ApiWrites.v
Inform.v
InformLaws.v
InformTheorems.v
Usp.v
UspConn.v
UspRequest.v
UspDispatch.v
UspLaws.v
UspDispatchTheorems.v
Subscriptions.v
SubscriptionTheorems.v
UspMtp.v
UspMtpTheorems.v
UspConfig.v
UspHandler.v
UspHandlerTheorems.v
UspReach.v
Server.v
Operators.v
Jwt.v
Routes.v
Api.v
ApiLaws.v
ApiTheorems.v
ApiTenancyTheorems.v
ControlPlane.v
Transfer.v
ApiJobs.v
ApiJobsTheorems.v
Schedules.v
ScheduleTheorems.v
Bss.v
BssAuth.v
BssAdapter.v
BssTheorems.v
BssTenancyTheorems.v
ConnReq.v
ConnReqTheorems.v
Rollout.v
RolloutLaws.v
RolloutTheorems.v
