(* ===== verification/Prelude.v ===== *)
(** * ACS: a verification development of the TR-069/USP auto configuration server

    The program (Go, under [src/backend]) manages customer-premises equipment.
    A device opens a CWMP session with an Inform; the gateway ([cmd/acs])
    records it in the registry, then answers each further POST of the session
    with the next RPC of the device's job queue until nothing is left.  Jobs
    come from operators, from the BSS and from the system itself (discovery,
    onboarding, confirmation reads); a reaper recovers those whose session or
    process died.  Agents that speak USP connect over MQTT or WebSocket to a
    second process ([cmd/uspc]), which serves the same queue.  Operators work
    through an HTTP API ([cmd/api]), whose workers also ask devices to call, and
    the systems that sell services through the BSS adapter ([cmd/bssadapter]),
    which keeps orders in an outbox and calls that API.  State lives in
    PostgreSQL tables; several processes share them.

    ** How the model is built

    A table is a finite map from primary key to row, and a statement of a
    repository is a function from table to table ([update_where], [update_key]
    and [rows] below), with the statement's [now()], the identifiers it draws
    and the rows other transactions have locked as arguments.  A Go function
    that returns an error is a [result]; one that writes to several tables in
    a transaction returns all of them or the old ones.  [time.Duration] is an
    integer of nanoseconds, wrapped to 64 bits where the code multiplies
    ([wrap64]).  Go's [range] over a map takes the visiting order as an
    argument, and the theorems hold for every order.  A handler is one step
    where a transaction, a lock or the single row it writes makes it one, or
    where its theorem is about one request by itself.  Where the code runs
    several statements that nothing holds together and other requests matter,
    what they do in between is part of the model: an argument [rest] applied
    before each statement (the bootstrap exchange, the waves of a rollout),
    or separate steps (the lease transactions, the check and the lease of a USP
    dispatch, the claim, the call and the outcome of an order).  Strings are byte strings;
    case mapping is ASCII, as the inputs the code lowers or raises are.

    ** The files

    - [Prelude]: results, time, tables, tactics ([bool_to_prop],
      [break_match_goal]) and the hint database [acs].
    - [GoStrings], [Encoding], [Json], [Regex]: the parts of [strings],
      [strconv], [encoding/hex], [encoding/base64], [encoding/json] and
      [regexp] the code uses; [Regex] is a derivative matcher proved against
      the language of an expression.
    - [Ratelimit]: [internal/ratelimit]; [NetGuard]: [internal/netguard], the
      addresses the server may dial.
    - [Cwmp]: [internal/cwmp], the device identity, inbound messages and every envelope the server renders.
    - [Probe]: the in-memory probe session of [internal/cwmp/session.go].
    - [Devices]: the registry, [internal/devices], with the links of mesh
      satellites to their gateways ([gateway_link.go]).
    - [Credentials]: [internal/credentials], the versions and states of the
      credentials of a device.
    - [DigestAuth]: [internal/auth], HTTP Digest and Basic with the two replay stores behind one class ([ReplayStore], its laws
      [ReplayLaws]).
    - [JobModel], [Protected], [JobStore]: job types, payloads and rows, the
      protected-parameter rules, and every statement of [internal/jobs].
    - [Policies]: [internal/policy] and [internal/templates].
    - [Adapters]: [internal/devices/adapters], canonical paths and vendor
      catalogs.
    - [Datamodel]: [internal/datamodel], the dictionary of the TR-181 and
      TR-098 documents and the check of a value against it.
    - [DiagPlan]: [internal/diagnostics], what a diagnostic asks of a device.
    - [WifiView]: the Wi-Fi networks of a device
      ([internal/devices/adapters/wifi_networks.go]) and changes to them
      ([cmd/api/wifi_edit.go]).
    - [Admission], [AdmissionTheorems]: what stands before the session handler
      ([cmd/acs/mux.go], [bootstrap_graduation.go]).
    - [JobLaws], [JobTheorems], [PayloadTheorems]: the table
      invariant, [job_step] (one repository call) with its reachable tables,
      lease transactions interleaved as a relation, and the theorems.
    - [Discovery], [DiscoveryTheorems]: the incremental parameter walk of
      [internal/jobs/discovery.go].
    - [ParamCache], [ParamTheorems]: [internal/parameters], the value cache,
      discovery snapshots, evidence and the masking of identifiers.
    - [Onboarding], [Lifecycle], [OnboardingLaws], [OnboardingTheorems]: sales
      ([internal/onboarding]), their reconciler ([cmd/acs/onboarding.go]) and
      what happens to a service afterwards ([internal/lifecycle]).
    - [Sessions]: [internal/sessions] and [internal/secretstore].
    - [Render]: from a leased job to its envelope ([cmd/acs/dispatch.go]).
    - [Gateway], [GatewayLaws], [GatewayTheorems]: the handlers of an open
      session ([cmd/acs]) over all the tables above; [acts_for] is the frame
      every one of them keeps.
    - [Inform], [InformLaws], [InformTheorems]: [handleInform] with policies,
      templates, profiles and recovery.
    - [Usp]: [internal/usp], endpoint identifiers, messages and
      records over an abstract protobuf encoding ([ProtoWire], [ProtoLaws]).
    - [UspConn], [UspRequest], [UspDispatch], [UspLaws], [UspDispatchTheorems]:
      the connection registry, the table of agents, and the dispatcher of
      [cmd/uspc]; [step] is the frame its operations keep.
    - [Subscriptions], [SubscriptionTheorems]: [internal/subscriptions] and the
      reconciliation pass of [cmd/uspc/subscriptions.go].
    - [UspMtp], [UspMtpTheorems]: [internal/usp/mtp] and
      [internal/uspprincipal], who a connection speaks for.
    - [UspConfig]: [cmd/uspc/config.go].
    - [UspHandler], [UspHandlerTheorems], [UspReach]: the
      handler of connections and records, [controller_step] (one thing that
      happens to the controller, a dispatch being two: its check and its lease)
      and its invariant [controller_ok].
    - [Server]: [handleCWMP], from the HTTP request to the handlers.
    - [Operators]: [internal/operators] and [internal/tenancy], accounts, roles,
      the permission matrix, reset links, customers and scopes.
    - [Jwt]: [internal/auth/jwt.go], the tokens of the operator API.
    - [Routes]: the route table of [cmd/api/routes.go], matched the
      way [http.ServeMux] does, and the lists of special routes.
    - [Api], [ApiLaws], [ApiTheorems], [ApiTenancyTheorems]: who may do what in
      [cmd/api]: sessions, revocation, accounts, scopes, the Grafana gate;
      [api_step] is one call served by one of several processes.
    - [Transfer]: [internal/transfer] and the firmware handlers of [cmd/api].
    - [ApiWrites], [ControlPlane], [ApiJobs], [ApiJobsTheorems]: eighteen handlers
      of [cmd/api] that queue jobs, one by one and for a fleet, with the checks of a
      parameter write; groups, templates and policies.
    - [Schedules], [ScheduleTheorems]: [internal/scheduler], its handlers and its
      worker; [run_ops] is a run of ticks of several replicas and of requests.
    - [ConnReq], [ConnReqTheorems]: connection requests ([internal/connreq] and the
      worker of [cmd/api]), as the trace of what a run sends and executes.
    - [Bss], [BssAuth], [BssAdapter]: [internal/bss] (orders, accounts, device
      assignments, idempotency keys, OAuth clients, actions as writes), who may
      call [cmd/bssadapter] for which account, and its handlers, whose calls into
      [cmd/api] are served by [ApiJobs] over the same tables.
    - [BssTheorems], [BssTenancyTheorems]: the outbox as an abstract machine (the
      adapter's own events are [adapter_event]; [outbox_step] adds crashes, the
      other writers of the queue and its retention), which the adapter refines;
      accounts, roles and customers.
    - [Rollout], [RolloutLaws], [RolloutTheorems]: [internal/rollout] and its
      handlers; [rollout_step] is a statement of another request or a call for
      the rollout with such statements between its own.

    ** What the theorems show

    - The queue.  In every table that repository calls can produce, in any
      order: a destructive RPC is sent at most once; a finished job holds no
      secret; leases, timestamps and command keys are consistent.  A lease
      takes the oldest eligible job, interleaved leases never share one, the
      reaper's five statements are one decision per row, a repeated create
      under an idempotency key replays, and a protected write is never queued.
    - The server.  Whatever is posted, the job table moves by repository calls
      ([server_refines_the_job_queue]), so the results on the queue hold for
      the running system; tables change only for an authenticated request, and
      then only rows of one device (the credential's, the certificate's, or with
      a fleet-wide credential the one the message is about), plus the gateway
      link of satellites that waited for it
      ([request_acts_for_the_asserted_device]).
    - Sessions.  An accepted Inform starts a clean session and a refused one
      does nothing; policies and templates reach exactly the devices they are
      for; an RPC is recorded before it is sent; any answer settles the job it
      answers; a sealed secret opens once.
    - Authentication.  A Digest response is accepted once, an honest client is
      authenticated, the bootstrap secret never gets a credential for an
      established device, also when one is established during the exchange, and
      graduates a new one to a credential of its own, and a rotation keeps
      access.  Two theorems exhibit what the guards let through: a header with
      two usernames, and the activation of a revoked credential.
    - The walk.  It terminates within 2 x 512 answers, covers the tree, does
      not depend on map order and bounds the instances of a table.
    - Onboarding.  Sales follow their state machine, reach service only with
      the SIM that was sold and a complete configuration, never take another
      customer's device, and release everything when they end.
    - Parameters.  Cache and history hold no secret, an update records exactly
      what changed, a firmware change withdraws the discovered tree, masking
      shows only the ends of an identifier.
    - Messages and registry.  Distinct devices have distinct natural keys, no
      value adds markup to an envelope, payloads round-trip, an Inform writes
      the one row it claims, reachability is not downgraded.
    - The operator API.  A handler runs only for an established identity that
      satisfies the gate of its route; a revocation is final, for a logout or a
      disabled account at once in the process that served it, and in any case
      everywhere after the 15 seconds of the cache; a login lasts its eight
      hours; scopes confine an operator to their customers' devices; the matrix
      shown is the one enforced; a reset link works once; a superadmin remains.
      Two theorems exhibit what the code lets through: the routes of the
      service token, and a spent Grafana ticket with a line break.
    - Operator jobs and schedules.  Whatever an operator asks of the eighteen
      endpoints, new jobs are for devices of the caller's scope, signed by the
      caller, readable by the gateway and free of protected writes; an accepted
      write is one that discovery, where it has run, and the dictionary, where it
      knows the name, allow; an accepted Wi-Fi change is safe; a fleet action
      reports every device.  A schedule fires at most once per interval whatever
      replicas do, stays with its customer, and is leased when due.
    - The BSS.  The adapter is an outbox ([adapter_refines_the_outbox]): an order
      is queued once whatever is lost or retried, its record is truthful, it only
      moves on, and a due one is attempted (while a batch holds all that are
      due); a role of an account means one
      device, a swap is all or nothing, and a client bound to a customer reaches
      only devices of that customer (with an account id without surrounding
      space, and while operators move nothing).  Two theorems exhibit what the code lets
      through: an account id with a space before it, and the order of another
      account answered to whoever names it.
    - Firmware.  A transfer token opens one resource for one purpose.  Whatever
      other requests do between the statements of its calls, a rollout sends one
      download per device (until retention forgets the job), in waves of the
      configured size, only to devices chosen inside the creator's scope, and a
      failing one is blocked for good and rolled back once, as long as two calls
      for the same rollout do not overlap and their UPDATEs succeed.  Three
      theorems exhibit what happens otherwise: overlapping advances send and roll
      back twice, and a lost link sends twice.
    - Connection requests.  The Digest answer is one the server's own verifier
      accepts, the password goes out in clear only when nothing else is offered,
      an HTTP request stays within the network policy, every run settles its job,
      and success means that the device called.
    - USP.  Whatever connections, records, jobs, sweeps and other processes
      interleave, every outstanding request is for a job of the table and what is
      registered belongs to an open connection ([controller_invariant]); a record acts for one device, in
      production only for the one its certificate is bound to; an answer serves
      the request it answers, a failure the controller classifies fails the job, an operation
      waits for its completion; dispatching terminates; subscriptions converge;
      a notification is recorded once; a connection that ends takes nothing of
      the one that replaced it.  Six theorems exhibit what the code lets
      through: two requests in flight for one device, errors inside a success, a
      sealed write sent empty, a stale answer, an answer of another kind and a
      replacement that stays recorded as connected.
    - Limits.  A key's rate allowance is its own, and no forbidden address is
      dialled.

    Code outside the program is an argument of the definitions: the
    authenticated encryption (only that decryption undoes encryption), MD5,
    SHA-256 and HMAC (what a theorem needs of them it states), the hash of a
    payload, the figures computed from a TR-143 result, the token bucket of
    golang.org/x/time/rate, name resolution, the host of a URL, bcrypt, the
    JSON text of claims, the server's reading of a TIME text, the protobuf
    encoding of USP messages and records (that decoding undoes encoding), the
    recognition of a UUID, the broker's table of clients, the parser of URLs, the
    parsed documents of the dictionary, the hash of a BSS request, the delivery of
    a call between processes, and the order of rows a SELECT leaves open.

    ** Bounds

    Fuel appears where the recursion is not structural, and is enough each
    time: [Itoa] has twenty digits and the hexadecimal printer sixteen, which
    covers every 64-bit value; the loop of [isRuntimeTable] has as many turns as
    the path has segments, and every turn replaces one
    ([DiscoveryTheorems.table_template_replaces_every_number]); reading XML
    references back and scanning Digest parameters take one byte at least per
    turn and have the length of the text; an IPv6 address has at most eight
    groups; dispatching over USP has one round per job of the table
    ([UspDispatchTheorems.dispatch_terminates]); the wait for an Inform has two
    turns a second for the longest wait ([wait_fuel]).  The limits of the walk (512 objects, 50,000 names, 32 skips, 32
    instances), the 15-minute session lease, the ten-minute nonce and the
    24-hour transfer deadline are those of the code.

    ** What is not modelled

    Decompression and XML parsing: a request starts as an HTTP request with a
    parsed body, and a USP connection as what the broker or the WebSocket
    library hands over.  Captures, Wi-Fi samples, audit records, metrics
    and published events change none of the tables of the model; a database
    call that fails for reasons outside the tables is not modelled.

    Not modelled, and why: [internal/stun], [internal/xmpp] and
    [internal/xmppprov] are network clients and servers; of the BSS adapter the
    TMF resources with their orders, events,
    webhooks and incidents, the report that compares orders with the cache, the
    endpoints for secrets and sales, and the sync of pre-provisioned mappings;
    of the operator API the read-only views, the endpoints that rotate
    credentials, set up bulk data, check compatibility, drive the console, request
    uploads or end a service, exports and the pages of the dashboards; [internal/store], [internal/config] and the other
    infrastructure, which is I/O and wiring. *)

From stdpp Require Export gmap strings list fin_maps sorting.
From Stdlib Require Export ZArith Lia Bool Ascii.
From Stdlib Require String.

#[global] Open Scope string_scope.
#[global] Open Scope list_scope.
#[global] Open Scope Z_scope.

(** ** Results of fallible Go functions

    A Go function returning [(T, error)] is modelled by [result T]: either a
    value or an error, whose text is kept because some handlers store it. *)

Inductive result (A : Type) : Type :=
| Ok (a : A)
| Err (e : string).
Arguments Ok {A} a.
Arguments Err {A} e.

Definition is_ok {A} (r : result A) : bool :=
  match r with Ok _ => true | Err _ => false end.

(** [if err := ...; err != nil { return err }] *)
Definition result_bind {A B} (r : result A) (k : A → result B) : result B :=
  match r with Ok a => k a | Err e => Err e end.

Declare Scope acs_scope.
Delimit Scope acs_scope with acs.
Notation "'try' x '<-' r ';' k" := (result_bind r (fun x => k))
  (at level 100, x pattern, r at next level, k at level 200, right associativity) : acs_scope.
#[global] Open Scope acs_scope.

(** ** Time

    Instants and durations are nanoseconds ([time.Duration] is an int64 count
    of nanoseconds; [time.Time] and [timestamptz] are instants on that scale). *)

Abbreviation GoTime := Z (only parsing).
Abbreviation GoDuration := Z (only parsing).
Definition Millisecond : Z := 1000000.
Definition Second : Z := 1000000000.
Definition Minute : Z := 60 * Second.
Definition Hour : Z := 60 * Minute.

(** Two's-complement wrap-around of Go's [int64] (and of [int], 64 bits wide). *)
Definition wrap64 (z : Z) : Z := (z + 2 ^ 63) mod 2 ^ 64 - 2 ^ 63.
Definition min_int64 : Z := - 2 ^ 63.
Definition max_int64 : Z := 2 ^ 63 - 1.
Definition in_int64 (z : Z) : bool := (min_int64 <=? z) && (z <=? max_int64).

Lemma wrap64_bounds z : min_int64 <= wrap64 z <= max_int64.
Proof.
  unfold wrap64, min_int64, max_int64.
  pose proof (Z.mod_pos_bound (z + 2 ^ 63) (2 ^ 64) ltac:(lia)). lia.
Qed.

Lemma wrap64_id z : min_int64 <= z <= max_int64 → wrap64 z = z.
Proof. unfold wrap64, min_int64, max_int64. intros. rewrite Z.mod_small; lia. Qed.

(** ** Automation *)

(** Case split on every [match]/[if] scrutinee of the goal or of a hypothesis. *)
Ltac break_match_goal :=
  match goal with
  | |- context [match ?x with _ => _ end] =>
      lazymatch x with
      | context [match _ with _ => _ end] => fail
      | _ => let E := fresh "E" in destruct x eqn:E
      end
  end.

Ltac break_match_hyp H :=
  match type of H with
  | context [match ?x with _ => _ end] =>
      lazymatch x with
      | context [match _ with _ => _ end] => fail
      | _ => let E := fresh "E" in destruct x eqn:E
      end
  end.

(** Boolean tests of the code turned into the propositions they decide. *)
Ltac bool_to_prop :=
  repeat match goal with
  | H : andb _ _ = true |- _ => apply andb_true_iff in H as [? ?]
  | H : orb _ _ = false |- _ => apply orb_false_iff in H as [? ?]
  | H : andb _ _ = false |- _ => apply andb_false_iff in H
  | H : orb _ _ = true |- _ => apply orb_true_iff in H
  | H : negb _ = true |- _ => apply negb_true_iff in H
  | H : negb _ = false |- _ => apply negb_false_iff in H
  | H : bool_decide _ = true |- _ => apply bool_decide_eq_true in H
  | H : bool_decide _ = false |- _ => apply bool_decide_eq_false in H
  | H : (_ <? _) = true |- _ => apply Z.ltb_lt in H
  | H : (_ <? _) = false |- _ => apply Z.ltb_ge in H
  | H : (_ <=? _) = true |- _ => apply Z.leb_le in H
  | H : (_ <=? _) = false |- _ => apply Z.leb_gt in H
  | H : (_ =? _) = true |- _ => apply Z.eqb_eq in H
  | H : (_ =? _) = false |- _ => apply Z.eqb_neq in H
  | H : String.eqb _ _ = true |- _ => apply String.eqb_eq in H
  | H : String.eqb _ _ = false |- _ => apply String.eqb_neq in H
  end.

Create HintDb acs.
Create Rewrite HintDb acs.

(** ** Options as nullable columns and pointers *)

(** [COALESCE(a, b)] *)
Definition coalesce {A} (o : option A) (d : A) : A :=
  match o with Some a => a | None => d end.

(** A nullable column set once: [COALESCE(col, v)] stored back into [col]. *)
Definition coalesce_set {A} (o : option A) (d : A) : option A :=
  Some (coalesce o d).

Definition is_some {A} (o : option A) : bool :=
  match o with Some _ => true | None => false end.

Lemma is_some_spec {A} (o : option A) : is_some o = true ↔ is_Some o.
Proof. destruct o; simpl; split; try done; by intros [? ?]. Qed.

Lemma existsb_elem {A} (f : A → bool) l : existsb f l = true ↔ ∃ x, x ∈ l ∧ f x = true.
Proof.
  rewrite existsb_exists. split; intros (x & H & Hx); exists x; (split; [|done]);
    by apply list_elem_of_In.
Qed.

Lemma existsb_eqb s l : existsb (String.eqb s) l = true ↔ s ∈ l.
Proof.
  rewrite existsb_elem. split; [|intros H; exists s; split; [done|apply String.eqb_refl]].
  intros (x & Hx & ->%String.eqb_eq). done.
Qed.

(** The first error the elements of a list give, as an early return in a loop. *)
Fixpoint first_error {A E} (f : A → option E) (l : list A) : option E :=
  match l with
  | [] => None
  | x :: r => match f x with Some e => Some e | None => first_error f r end
  end.

Lemma first_error_some {A E} (f : A → option E) l e : first_error f l = Some e → ∃ x, x ∈ l ∧ f x = Some e.
Proof.
  induction l as [|x l IH]; [done|]. cbn. destruct (f x) as [e'|] eqn:E'.
  - intros [= <-]. exists x. split; [apply list_elem_of_here|done].
  - intros (y & Hy & Hf)%IH. exists y. split; [by apply list_elem_of_further|done].
Qed.

Lemma first_error_spec {A E} (f : A → option E) l : first_error f l = None ↔ ∀ x, x ∈ l → f x = None.
Proof.
  induction l as [|x l IH]; cbn; [split; [by intros _ ? ?%not_elem_of_nil|done]|].
  destruct (f x) eqn:E'; [split; [done|intros H; by rewrite H in E' by left]|]. rewrite IH. split.
  - intros H y [->|Hy]%elem_of_cons; eauto.
  - intros H y Hy. apply H. by right.
Qed.

(** ** A least element of a list

    [ORDER BY key ASC LIMIT 1]: a row of least key. Postgres leaves the choice
    among rows of equal key open; this takes the first. *)

Section Oldest.
Context {A : Type} (key : A → Z).

Fixpoint oldest (l : list A) : option A :=
  match l with
  | [] => None
  | x :: l' =>
      match oldest l' with
      | Some y => if key x <=? key y then Some x else Some y
      | None => Some x
      end
  end.

Lemma oldest_elem l x : oldest l = Some x → x ∈ l.
Proof.
  revert x; induction l as [|y l IH]; simpl; intros x; [done|].
  destruct (oldest l) as [z|]; [destruct (key y <=? key z)|];
    intros [= ->]; rewrite elem_of_cons; auto.
Qed.

Lemma oldest_le l x : oldest l = Some x → ∀ y, y ∈ l → key x <= key y.
Proof.
  revert x; induction l as [|y l IH]; simpl; intros x; [done|].
  destruct (oldest l) as [z|] eqn:Ez.
  - intros Hx w [->|Hw]%elem_of_cons;
      destruct (key y <=? key z) eqn:E; simplify_eq; bool_to_prop; try lia.
    + specialize (IH _ eq_refl _ Hw). lia.
    + by apply IH.
  - intros [= ->] w [->|Hw]%elem_of_cons; [lia|].
    destruct l as [|v l]; [by apply elem_of_nil in Hw|].
    simpl in Ez. destruct (oldest l); [destruct (key v <=? key a)|]; done.
Qed.

Lemma oldest_none l : oldest l = None ↔ l = [].
Proof.
  destruct l as [|x l]; simpl; [done|].
  destruct (oldest l); [destruct (key x <=? key a)|]; done.
Qed.
End Oldest.

(** ** Tables

    A database table is a finite map from primary key to row. [UPDATE t SET f
    WHERE p] rewrites the rows that satisfy [p] and reports how many there
    were. *)

Section Table.
Context {Row : Type}.

Definition update_where (p : Row → bool) (f : Row → Row) (t : gmap string Row)
  : gmap string Row * Z :=
  ((λ r, if p r then f r else r) <$> t,
   Z.of_nat (size (filter (λ kr, p kr.2 = true) t))).

(** [UPDATE t SET f WHERE id = k AND p] *)
Definition update_key (k : string) (p : Row → bool) (f : Row → Row) (t : gmap string Row)
  : gmap string Row * Z :=
  match t !! k with
  | Some r => if p r then (<[k := f r]> t, 1) else (t, 0)
  | None => (t, 0)
  end.

Definition rows (t : gmap string Row) : list Row := snd <$> map_to_list t.

Lemma elem_of_rows t r : r ∈ rows t ↔ ∃ k, t !! k = Some r.
Proof.
  unfold rows. rewrite list_elem_of_fmap. split.
  - intros ([k r'] & -> & H%elem_of_map_to_list). eauto.
  - intros (k & H). exists (k, r). by rewrite elem_of_map_to_list.
Qed.

Lemma lookup_update_where p f t k :
  (update_where p f t).1 !! k = (λ r, if p r then f r else r) <$> t !! k.
Proof. apply lookup_fmap. Qed.

Lemma lookup_update_key k p f t k' :
  (update_key k p f t).1 !! k' =
    if decide (k = k') then (λ r, if p r then f r else r) <$> t !! k' else t !! k'.
Proof.
  unfold update_key. destruct (decide (k = k')) as [->|Hne].
  - destruct (t !! k') as [r|] eqn:E; simpl; [|by rewrite E].
    destruct (p r); simpl; [by rewrite lookup_insert_eq|done].
  - destruct (t !! k) as [r|]; simpl; [|done].
    destruct (p r); simpl; [by rewrite lookup_insert_ne|done].
Qed.

Lemma update_key_count k p f t :
  (update_key k p f t).2 = 1 ↔ ∃ r, t !! k = Some r ∧ p r = true.
Proof.
  unfold update_key. destruct (t !! k) as [r|]; [destruct (p r) eqn:E|]; simpl;
    (split; [intros Hc|intros (r' & Hr & Hp)]; simplify_eq/=; eauto; congruence).
Qed.

Lemma update_where_dom p f t : dom (update_where p f t).1 = dom t.
Proof. apply dom_fmap_L. Qed.

Lemma update_key_dom k p f t : dom (update_key k p f t).1 = dom t.
Proof.
  unfold update_key. destruct (t !! k) as [r|] eqn:E; [|done].
  destruct (p r); [|done]. simpl. rewrite dom_insert_lookup_L; eauto.
Qed.

(** An invariant kept by the row update is kept by the statement. *)
Lemma update_where_Forall (I : string → Row → Prop) p f t :
  (∀ k r, t !! k = Some r → I k r → p r = true → I k (f r)) →
  map_Forall I t → map_Forall I (update_where p f t).1.
Proof.
  intros Hf HI k r. rewrite lookup_update_where.
  destruct (t !! k) as [r0|] eqn:E; simpl; [|done].
  specialize (HI _ _ E). intros [= <-]. destruct (p r0) eqn:Ep; eauto.
Qed.

Lemma update_key_Forall (I : string → Row → Prop) k p f t :
  (∀ r, t !! k = Some r → I k r → p r = true → I k (f r)) →
  map_Forall I t → map_Forall I (update_key k p f t).1.
Proof.
  intros Hf HI k' r. rewrite lookup_update_key.
  destruct (decide (k = k')) as [->|]; [|by apply HI].
  destruct (t !! k') as [r0|] eqn:E; simpl; [|done].
  specialize (HI _ _ E). intros [= <-]. destruct (p r0) eqn:Ep; eauto.
Qed.
End Table.

#[export] Hint Resolve update_where_Forall update_key_Forall : acs.
#[export] Hint Rewrite @lookup_update_where @lookup_update_key @update_where_dom @update_key_dom : acs.
