(* ===== verification/GoStrings.v ===== *)
(** * The part of Go's [strings] package the server uses

    A Go string is a sequence of bytes, as is Rocq's [string]. Case mapping is
    modelled on ASCII letters: bytes from 128 on are left alone, where Go maps
    the Unicode letters they encode. *)

From S2P Require Import Prelude.

(** ** Bytes *)

Definition byte_between (lo hi : nat) (c : ascii) : bool :=
  (lo <=? nat_of_ascii c)%nat && (nat_of_ascii c <=? hi)%nat.

Definition is_upper : ascii → bool := byte_between 65 90.
Definition is_lower : ascii → bool := byte_between 97 122.
Definition is_digit : ascii → bool := byte_between 48 57.
Definition is_alpha (c : ascii) : bool := is_upper c || is_lower c.
Definition is_alnum (c : ascii) : bool := is_alpha c || is_digit c.

Definition lower_byte (c : ascii) : ascii :=
  if is_upper c then ascii_of_nat (nat_of_ascii c + 32) else c.

Definition upper_byte (c : ascii) : ascii :=
  if is_lower c then ascii_of_nat (nat_of_ascii c - 32) else c.

(** ASCII white space: tab, newline, vertical tab, form feed, return, space. *)
Definition is_space_byte (c : ascii) : bool :=
  byte_between 9 13 c || (nat_of_ascii c =? 32)%nat.

Fixpoint string_map (f : ascii → ascii) (s : string) : string :=
  match s with
  | EmptyString => EmptyString
  | String c s' => String (f c) (string_map f s')
  end.

(** ** The package's functions *)

Definition ToLower : string → string := string_map lower_byte.
Definition ToUpper : string → string := string_map upper_byte.
Definition EqualFold (s t : string) : bool := String.eqb (ToLower s) (ToLower t).
Definition HasPrefix (s p : string) : bool := String.prefix p s.

Fixpoint drop_bytes (n : nat) (s : string) : string :=
  match n, s with
  | O, _ => s
  | S n', String _ s' => drop_bytes n' s'
  | S _, EmptyString => EmptyString
  end.

Definition HasSuffix (s suf : string) : bool :=
  (String.length suf <=? String.length s)%nat
  && String.eqb (drop_bytes (String.length s - String.length suf) s) suf.

Definition CutPrefix (s p : string) : option string :=
  if HasPrefix s p then Some (drop_bytes (String.length p) s) else None.

Definition TrimPrefix (s p : string) : string :=
  match CutPrefix s p with Some r => r | None => s end.

Fixpoint Contains (s sub : string) : bool :=
  HasPrefix s sub ||
  match s with
  | EmptyString => false
  | String _ s' => Contains s' sub
  end.

Fixpoint byte_in (c : ascii) (s : string) : bool :=
  match s with
  | EmptyString => false
  | String c' s' => Ascii.eqb c c' || byte_in c s'
  end.

Fixpoint ContainsAny (s chars : string) : bool :=
  match s with
  | EmptyString => false
  | String c s' => byte_in c chars || ContainsAny s' chars
  end.

Fixpoint count_byte (c : ascii) (s : string) : Z :=
  match s with
  | EmptyString => 0
  | String c' s' => (if Ascii.eqb c c' then 1 else 0) + count_byte c s'
  end.

Fixpoint forall_bytes (p : ascii → bool) (s : string) : bool :=
  match s with
  | EmptyString => true
  | String c s' => p c && forall_bytes p s'
  end.

Fixpoint TrimLeftSpace (s : string) : string :=
  match s with
  | EmptyString => EmptyString
  | String c s' => if is_space_byte c then TrimLeftSpace s' else s
  end.

Fixpoint TrimRightSpace (s : string) : string :=
  match s with
  | EmptyString => EmptyString
  | String c s' =>
      match TrimRightSpace s' with
      | EmptyString => if is_space_byte c then EmptyString else String c EmptyString
      | r => String c r
      end
  end.

Definition TrimSpace (s : string) : string := TrimRightSpace (TrimLeftSpace s).

(** [strings.Split] on a one-byte separator. *)
Fixpoint Split (s : string) (sep : ascii) : list string :=
  match s with
  | EmptyString => [EmptyString]
  | String c s' =>
      if Ascii.eqb c sep then EmptyString :: Split s' sep
      else match Split s' sep with
           | w :: ws => String c w :: ws
           | [] => [String c EmptyString]
           end
  end.

Fixpoint Join (ws : list string) (sep : string) : string :=
  match ws with
  | [] => EmptyString
  | [w] => w
  | w :: ws' => (w ++ sep ++ Join ws' sep)%string
  end.

(** ** Decimal numbers: [strconv.Itoa], [strconv.Atoi] *)

Definition digit_byte (d : Z) : ascii := ascii_of_nat (Z.to_nat (48 + d)).
Definition digit_value (c : ascii) : Z := Z.of_nat (nat_of_ascii c) - 48.

(** Digits of a non-negative number, most significant first; [fuel] bounds the
    number of digits. *)
Fixpoint digits_go (fuel : nat) (n : Z) (acc : string) : string :=
  match fuel with
  | O => acc
  | S f =>
      let acc' := String (digit_byte (n mod 10)) acc in
      if n <? 10 then acc' else digits_go f (n / 10) acc'
  end.

(** Twenty digits cover every 64-bit value. *)
Definition Itoa (z : Z) : string :=
  if z <? 0 then ("-" ++ digits_go 20 (- z) "")%string else digits_go 20 z "".

Fixpoint digits_value (acc : Z) (s : string) : option Z :=
  match s with
  | EmptyString => Some acc
  | String c s' => if is_digit c then digits_value (10 * acc + digit_value c) s' else None
  end.

Definition Atoi (s : string) : option Z :=
  let body sgn r :=
    match r with
    | EmptyString => None
    | _ => match digits_value 0 r with
           | Some v => if in_int64 (sgn * v) then Some (sgn * v) else None
           | None => None
           end
    end in
  match s with
  | String "-" r => body (-1) r
  | String "+" r => body 1 r
  | _ => body 1 s
  end.

(** ** Sorting: [sort.Strings], [sort.Ints] *)

Definition SortStrings (l : list string) : list string := merge_sort String.le l.
Definition SortInts (l : list Z) : list Z := merge_sort Z.le l.

Lemma SortStrings_Permutation l : SortStrings l ≡ₚ l.
Proof. apply merge_sort_Permutation. Qed.

Lemma elem_of_SortStrings l x : x ∈ SortStrings l ↔ x ∈ l.
Proof. by rewrite SortStrings_Permutation. Qed.

Lemma SortStrings_Sorted l : StronglySorted String.le (SortStrings l).
Proof. apply (StronglySorted_merge_sort String.le). Qed.

#[export] Hint Rewrite elem_of_SortStrings : acs.

(** ** Facts shared by the components *)

Lemma HasPrefix_empty s : HasPrefix s "" = true.
Proof. by destruct s. Qed.

Lemma HasPrefix_cons a s b p :
  HasPrefix (String a s) (String b p) = Ascii.eqb b a && HasPrefix s p.
Proof.
  unfold HasPrefix. simpl. destruct (ascii_dec b a) as [->|Hn].
  - by rewrite Ascii.eqb_refl.
  - by destruct (Ascii.eqb_spec b a).
Qed.

Lemma CutPrefix_cons a s b p :
  CutPrefix (String a s) (String b p) = if Ascii.eqb b a then CutPrefix s p else None.
Proof. unfold CutPrefix. rewrite HasPrefix_cons. by destruct (Ascii.eqb b a). Qed.

Lemma HasPrefix_app p s : HasPrefix (p ++ s) p = true.
Proof.
  unfold HasPrefix. induction p as [|c p IH]; simpl; [by destruct s|].
  destruct (ascii_dec c c); [done|congruence].
Qed.

Lemma HasPrefix_split s p : HasPrefix s p = true → ∃ r, s = (p ++ r)%string.
Proof.
  unfold HasPrefix. revert s; induction p as [|c p IH]; simpl; intros s; [eauto|].
  destruct s as [|c' s]; [done|]. simpl. destruct (ascii_dec c c') as [->|]; [|done].
  intros (r & ->)%IH. by exists r.
Qed.

Lemma drop_bytes_app p s : drop_bytes (String.length p) (p ++ s) = s.
Proof. induction p; simpl; [by destruct s|done]. Qed.

Lemma CutPrefix_app p s : CutPrefix (p ++ s) p = Some s.
Proof. unfold CutPrefix. by rewrite HasPrefix_app, drop_bytes_app. Qed.

Lemma CutPrefix_split s p r : CutPrefix s p = Some r → s = (p ++ r)%string.
Proof.
  unfold CutPrefix. destruct (HasPrefix s p) eqn:E; [|done]. apply HasPrefix_split in E as (t & ->).
  rewrite drop_bytes_app. by intros [= ->].
Qed.

Lemma string_app_cons c (s t : string) : (String c s ++ t)%string = String c (s ++ t).
Proof. done. Qed.

Lemma string_app_assoc (a b c : string) : ((a ++ b) ++ c)%string = (a ++ (b ++ c))%string.
Proof. induction a as [|x a IH]; [done|]. exact (f_equal (String x) IH). Qed.

Lemma string_app_empty_r (s : string) : (s ++ "")%string = s.
Proof. induction s as [|c s IH]; [done|]. by rewrite string_app_cons, IH. Qed.

Lemma prefixes_comparable a b x y :
  (a ++ x)%string = (b ++ y)%string → HasPrefix a b || HasPrefix b a = true.
Proof.
  revert b. induction a as [|c a IH]; intros [|d b].
  - done.
  - intros _. by rewrite HasPrefix_empty, orb_true_r.
  - intros _. by rewrite HasPrefix_empty.
  - rewrite !string_app_cons. intros [= -> H]. rewrite !HasPrefix_cons, !Ascii.eqb_refl. simpl. by apply IH.
Qed.

Lemma Contains_prefix s sub : HasPrefix s sub = true → Contains s sub = true.
Proof. destruct s; simpl; intros ->; done. Qed.

Lemma Contains_app_r a s sub : Contains s sub = true → Contains (a ++ s) sub = true.
Proof.
  induction a as [|x a IH]; [done|]. intros H.
  change (HasPrefix (String x (a ++ s)) sub || Contains (a ++ s) sub = true).
  rewrite IH; auto using orb_true_r.
Qed.

Lemma ToLower_idemp s : ToLower (ToLower s) = ToLower s.
Proof.
  unfold ToLower. induction s as [|c s IH]; simpl; [done|]. f_equal; [|done].
  destruct c as [[] [] [] [] [] [] [] []]; reflexivity.
Qed.

Lemma string_length_app (a b : string) : String.length (a ++ b) = (String.length a + String.length b)%nat.
Proof. induction a as [|c a IH]; [done|]. rewrite string_app_cons. simpl. by rewrite IH. Qed.

Lemma count_byte_app c s t : count_byte c (s ++ t) = count_byte c s + count_byte c t.
Proof. induction s as [|a s IH]; [done|]. rewrite string_app_cons. simpl. rewrite IH. lia. Qed.

Lemma Split_app a b sep : byte_in sep a = false → Split (a ++ String sep b) sep = a :: Split b sep.
Proof.
  induction a as [|c a IH]; intros Ha.
  - change ("" ++ String sep b)%string with (String sep b). cbn [Split]. by rewrite Ascii.eqb_refl.
  - cbn [byte_in] in Ha. apply orb_false_iff in Ha as [Hc Ha]. rewrite string_app_cons. cbn [Split].
    rewrite Ascii.eqb_sym, Hc. by rewrite IH.
Qed.

Lemma Split_nosep s sep : byte_in sep s = false → Split s sep = [s].
Proof.
  induction s as [|c s IH]; simpl; [done|]. intros [Hc Hs]%orb_false_iff.
  by rewrite (IH Hs), Ascii.eqb_sym, Hc.
Qed.

(** ** Decimal texts read back *)

Lemma digit_byte_ok d : 0 <= d < 10 → is_digit (digit_byte d) = true ∧ digit_value (digit_byte d) = d.
Proof.
  intros Hd. assert (d = 0 ∨ d = 1 ∨ d = 2 ∨ d = 3 ∨ d = 4 ∨ d = 5 ∨ d = 6 ∨ d = 7 ∨ d = 8 ∨ d = 9) as Hc by lia.
  by repeat (destruct Hc as [->|Hc]; [split; reflexivity|]); subst.
Qed.

Lemma digits_go_value f n s :
  0 <= n < 10 ^ Z.of_nat f → (0 < f)%nat → digits_value 0 (digits_go f n s) = digits_value n s.
Proof.
  revert n s. induction f as [|f IH]; intros n s Hn Hf; [lia|]. cbn [digits_go].
  destruct (digit_byte_ok (n mod 10)) as [Hd Hv]; [Z.to_euclidean_division_equations; lia|].
  destruct (Z.ltb_spec n 10).
  - cbn [digits_value]. rewrite Hd, Hv. f_equal. rewrite Z.mod_small; lia.
  - assert (Z.of_nat (S f) = Z.of_nat f + 1) as E by lia.
    rewrite E, Z.pow_add_r in Hn by lia.
    assert (f ≠ 0%nat) by (intros ->; simpl in Hn; lia).
    rewrite IH; [|Z.to_euclidean_division_equations; lia|lia].
    cbn [digits_value]. rewrite Hd, Hv. f_equal. Z.to_euclidean_division_equations; lia.
Qed.

Lemma digits_go_digits f n s : 0 <= n → forall_bytes is_digit s = true → forall_bytes is_digit (digits_go f n s) = true.
Proof.
  revert n s. induction f as [|f IH]; intros n s Hn Hs; [done|]. cbn [digits_go].
  destruct (digit_byte_ok (n mod 10)) as [Hd _]; [Z.to_euclidean_division_equations; lia|].
  destruct (n <? 10); [cbn [forall_bytes]; by rewrite Hd|].
  apply IH; [Z.to_euclidean_division_equations; lia|]. cbn [forall_bytes]. by rewrite Hd.
Qed.

Lemma digits_go_nonempty f n s : (0 < f)%nat → digits_go f n s ≠ "".
Proof.
  assert (∀ f n c s, digits_go f n (String c s) ≠ "") as H.
  { clear. induction f as [|f IH]; intros n c s; [done|]. cbn [digits_go]. by destruct (n <? 10). }
  destruct f; [lia|]. intros _. cbn [digits_go]. by destruct (n <? 10).
Qed.

(** A decimal text of a 64-bit number reads back. *)
Lemma Atoi_Itoa z : in_int64 z = true → Atoi (Itoa z) = Some z.
Proof.
  unfold in_int64, min_int64, max_int64. intros Hz. bool_to_prop. unfold Itoa.
  assert (∀ n, 0 <= n < 10 ^ 20 → digits_value 0 (digits_go 20 n "") = Some n) as Hv
    by (intros n Hn; rewrite digits_go_value; [done|change (Z.of_nat 20) with 20; lia|lia]).
  destruct (Z.ltb_spec z 0).
  - change (Atoi ("-" ++ digits_go 20 (- z) "")) with
      (match digits_go 20 (- z) "" with
       | "" => None
       | String _ _ => match digits_value 0 (digits_go 20 (- z) "") with
              | Some v => if in_int64 (-1 * v) then Some (-1 * v) else None | None => None end end).
    pose proof (digits_go_nonempty 20 (- z) "" ltac:(lia)) as Hne.
    rewrite Hv by lia. replace (-1 * - z) with z by lia.
    unfold in_int64, min_int64, max_int64. destruct (Z.leb_spec (- 2 ^ 63) z); [|lia].
    destruct (Z.leb_spec z (2 ^ 63 - 1)); [|lia]. cbn [andb].
    revert Hne. generalize (digits_go 20 (- z) ""). by intros [|].
  - pose proof (digits_go_nonempty 20 z "" ltac:(lia)) as Hne.
    pose proof (digits_go_digits 20 z "" ltac:(lia) eq_refl) as Hd.
    specialize (Hv z ltac:(lia)). destruct (digits_go 20 z "") as [|c r]; [done|].
    assert (∀ b, is_digit b = false → c ≠ b) as Hc.
    { intros b Hb ->. cbn [forall_bytes] in Hd. by rewrite Hb in Hd. }
    assert (Atoi (String c r) = match digits_value 0 (String c r) with
              | Some v => if in_int64 (1 * v) then Some (1 * v) else None | None => None end) as ->.
    { unfold Atoi. destruct c as [[] [] [] [] [] [] [] []]; try reflexivity; cbn [forall_bytes] in Hd; discriminate Hd. }
    rewrite Hv, Z.mul_1_l. unfold in_int64, min_int64, max_int64.
    destruct (Z.leb_spec (- 2 ^ 63) z); [|lia]. destruct (Z.leb_spec z (2 ^ 63 - 1)); [done|lia].
Qed.

(** The bytes of a decimal text: digits and a sign. *)
Lemma Itoa_bytes c z : is_digit c = false → Ascii.eqb c "-" = false → byte_in c (Itoa z) = false.
Proof.
  intros Hc Hm.
  assert (∀ n, 0 <= n → byte_in c (digits_go 20 n "") = false) as H.
  { intros n Hn. pose proof (digits_go_digits 20 n "" Hn eq_refl) as Hd. revert Hd. generalize (digits_go 20 n "").
    intros s. induction s as [|d s IH]; [done|]. cbn [forall_bytes byte_in]. intros [Hd Hs]%andb_true_iff.
    rewrite (IH Hs), orb_false_r. destruct (Ascii.eqb_spec c d) as [->|]; [congruence|done]. }
  unfold Itoa. destruct (Z.ltb_spec z 0); [|apply H; lia].
  change (Ascii.eqb c "-" || byte_in c (digits_go 20 (- z) "") = false). rewrite Hm. apply H. lia.
Qed.

(** ** Fields of a time ([time.Parse]) *)

Definition digit_at (s : string) : option (Z * string) :=
  match s with String c r => if is_digit c then Some (digit_value c, r) else None | _ => None end.

(** [getnum]: one or two digits, two when [fixed]. *)
Definition getnum (s : string) (fixed : bool) : option (Z * string) :=
  match digit_at s with
  | None => None
  | Some (a, r) =>
      match digit_at r with
      | None => if fixed then None else Some (a, r)
      | Some (b, r') => Some (a * 10 + b, r')
      end
  end.
