(* ===== verification/Ratelimit.v ===== *)
(** * Rate limits ([internal/ratelimit])

    One token bucket per key, in memory, with idle buckets evicted by a
    throttled sweep.  The bucket is golang.org/x/time/rate: a type, a full
    bucket, and what [Allow] decides and leaves at an instant. *)

From S2P Require Import Prelude GoStrings.

Definition Millisecond : GoDuration := Second / 1000.

(** The zero [time.Time], 0001-01-01. *)
Definition zero_time : GoTime := - 62135596800 * Second.

Section Limiter.
Context {B : Type} (NewLimiter : B) (bucket_allow : GoTime → B → bool * B).

Record bucket : Type := mkBucket { bk_limiter : B; bk_lastSeen : GoTime }.

Record Limiter : Type := mkLimiter {
  lm_buckets : gmap string bucket;
  lm_idleTTL : GoDuration;
  lm_nextSweep : GoTime
}.

Definition New (idleTTL : GoDuration) : Limiter := mkLimiter ∅ idleTTL zero_time.

Definition evictIdleLocked (now : GoTime) (l : Limiter) : Limiter :=
  if lm_idleTTL l <=? 0 then l
  else mkLimiter (filter (λ kb, ¬ (bk_lastSeen kb.2 < now - lm_idleTTL l)) (lm_buckets l)) (lm_idleTTL l) (lm_nextSweep l).

(** A second, or a quarter of a short idle time, at least a millisecond;
    division truncates. *)
Definition sweepInterval (idleTTL : GoDuration) : GoDuration :=
  if (0 <? idleTTL) && (Z.quot idleTTL 4 <? Second)
  then (if Z.quot idleTTL 4 <? Millisecond then Millisecond else Z.quot idleTTL 4)
  else Second.

Definition sweep (now : GoTime) (l : Limiter) : Limiter :=
  if lm_nextSweep l <=? now
  then let l' := evictIdleLocked now l in mkLimiter (lm_buckets l') (lm_idleTTL l') (now + sweepInterval (lm_idleTTL l))
  else l.

Definition Allow (now : GoTime) (key : string) (l : Limiter) : bool * Limiter :=
  let l1 := sweep now l in
  let b := match lm_buckets l1 !! key with Some b => bk_limiter b | None => NewLimiter end in
  let '(ok, b') := bucket_allow now b in
  (ok, mkLimiter (<[key := mkBucket b' now]> (lm_buckets l1)) (lm_idleTTL l1) (lm_nextSweep l1)).

(** A run of requests, and what each was told. *)
Fixpoint run (requests : list (GoTime * string)) (l : Limiter) : list (string * bool) * Limiter :=
  match requests with
  | [] => ([], l)
  | (t, key) :: rest =>
      let '(ok, l1) := Allow t key l in
      let '(out, l2) := run rest l1 in ((key, ok) :: out, l2)
  end.

(** The reference: a bucket of one's own. *)
Fixpoint alone (times : list GoTime) (b : B) : list bool :=
  match times with
  | [] => []
  | t :: rest => let '(ok, b') := bucket_allow t b in ok :: alone rest b'
  end.

(** ** Laws *)

(** The key's requests come no further apart than the idle time, as long as
    there is one; [last] is the one before. *)
Fixpoint steady (key : string) (ttl : GoDuration) (last : GoTime) (requests : list (GoTime * string)) : Prop :=
  match requests with
  | [] => True
  | (t, k) :: rest =>
      if String.eqb k key then (0 < ttl → t - last <= ttl) ∧ steady key ttl t rest
      else steady key ttl last rest
  end.

(** Time does not run backwards. *)
Fixpoint in_order (now : GoTime) (requests : list (GoTime * string)) : Prop :=
  match requests with
  | [] => True
  | (t, _) :: rest => now <= t ∧ in_order t rest
  end.

Definition times_of (key : string) (requests : list (GoTime * string)) : list GoTime :=
  (List.filter (λ tk, String.eqb tk.2 key) requests).*1.

Definition told (key : string) (out : list (string * bool)) : list bool :=
  (List.filter (λ ko, String.eqb ko.1 key) out).*2.

Lemma sweep_ttl now l : lm_idleTTL (sweep now l) = lm_idleTTL l.
Proof. unfold sweep, evictIdleLocked. by repeat case_match. Qed.

(** A sweep takes a bucket away only when it has been idle too long. *)
Lemma sweep_keeps now l key b :
  lm_buckets l !! key = Some b → (0 < lm_idleTTL l → now - bk_lastSeen b <= lm_idleTTL l) →
  lm_buckets (sweep now l) !! key = Some b.
Proof.
  intros Hb Hi. unfold sweep, evictIdleLocked. destruct (_ <=? now); [|done]. simpl.
  destruct (Z.leb_spec (lm_idleTTL l) 0); [done|]. simpl. apply map_lookup_filter_Some. split; [done|]. simpl. lia.
Qed.

Lemma sweep_adds_nothing now l key : lm_buckets l !! key = None → lm_buckets (sweep now l) !! key = None.
Proof.
  intros Hb. unfold sweep, evictIdleLocked. destruct (_ <=? now); [|done]. simpl.
  destruct (_ <=? 0); [done|]. simpl. apply map_lookup_filter_None. by left.
Qed.

(** The key's next request comes before its bucket would be evicted. *)
Lemma steady_next key ttl last now requests :
  in_order now requests → steady key ttl last requests → times_of key requests ≠ [] → 0 < ttl → now - last <= ttl.
Proof.
  revert last now. induction requests as [|[t k] rest IH]; intros last now; [done|]. simpl.
  unfold times_of. simpl. intros [Ht Ho]. destruct (String.eqb k key).
  - intros [Hs _] _ Hp. specialize (Hs Hp). lia.
  - intros Hs Hn Hp. specialize (IH last t Ho Hs Hn Hp). lia.
Qed.

Lemma run_told_none key requests l : times_of key requests = [] → told key (run requests l).1 = [].
Proof.
  revert l. induction requests as [|[t k] rest IH]; intros l; [done|]. unfold times_of. simpl.
  destruct (String.eqb k key) eqn:Ek; [done|]. intros Hn. destruct (Allow t k l) as [ok l1].
  specialize (IH l1 Hn). destruct (run rest l1) as [out l2]. unfold told in *. simpl. by rewrite Ek.
Qed.

Lemma told_cons key t k rest l :
  told key (run ((t, k) :: rest) l).1
  = (if String.eqb k key then [(Allow t k l).1] else []) ++ told key (run rest (Allow t k l).2).1.
Proof.
  simpl. destruct (Allow t k l) as [ok l1]. simpl. destruct (run rest l1) as [out l2]. unfold told. simpl.
  by destruct (String.eqb k key).
Qed.

Lemma run_alone key requests : ∀ now last l b,
  in_order now requests → steady key (lm_idleTTL l) last requests →
  lm_buckets l !! key = Some (mkBucket b last) →
  told key (run requests l).1 = alone (times_of key requests) b.
Proof.
  induction requests as [|[t k] rest IH]; intros now last l b Ho Hs Hb; [done|].
  destruct (decide (times_of key ((t, k) :: rest) = [])) as [E|E]; [by rewrite E, run_told_none|].
  assert (lm_buckets (sweep t l) !! key = Some (mkBucket b last)) as Hb1.
  { apply sweep_keeps; [done|]. intros Hp. simpl. apply (steady_next key _ _ t ((t, k) :: rest)); try done.
    split; [lia|]. by destruct Ho. }
  destruct Ho as [_ Ho]. rewrite told_cons. unfold times_of. cbn [List.filter snd].
  simpl in Hs. unfold Allow. destruct (String.eqb_spec k key) as [->|Hk].
  - rewrite Hb1. cbn [bk_limiter fmap list_fmap fst alone]. destruct (bucket_allow t b) as [ok b']. simpl. f_equal.
    apply (IH t t); [done|simpl; rewrite sweep_ttl; apply Hs|apply lookup_insert_eq].
  - destruct (bucket_allow t _) as [ok b']. simpl.
    apply (IH t last); [done|simpl; by rewrite sweep_ttl|]. by simpl; rewrite lookup_insert_ne.
Qed.

End Limiter.

(** A key's allowance is its own. However the requests of other keys are
    mixed with it, and whatever sweeps they trigger, a key whose requests come
    no further apart than the idle time is told exactly what a bucket of its
    own would tell it from its first request on; and a sweep leaves no bucket
    that has been idle for longer. *)
Theorem allowance_is_per_key {B} (NewLimiter : B) bucket_allow key t requests (l : Limiter) :
  lm_buckets l !! key = None → in_order t requests → steady key (lm_idleTTL l) t requests →
  told key (run NewLimiter bucket_allow ((t, key) :: requests) l).1
    = alone bucket_allow (t :: times_of key requests) NewLimiter ∧
  (0 < lm_idleTTL l → lm_nextSweep l <= t →
   ∀ k b, lm_buckets (Allow NewLimiter bucket_allow t key l).2 !! k = Some b → t - bk_lastSeen b <= lm_idleTTL l).
Proof.
  intros Hn Ho Hs. split.
  - rewrite told_cons, String.eqb_refl. apply (sweep_adds_nothing t) in Hn. unfold Allow. rewrite Hn. cbn [alone].
    destruct (bucket_allow t NewLimiter) as [ok b']. simpl. f_equal.
    apply (run_alone _ _ _ _ t t); [done|simpl; by rewrite sweep_ttl|apply lookup_insert_eq].
  - intros Hp Hsw k b. unfold Allow. destruct (bucket_allow t _) as [ok b']. simpl. rewrite lookup_insert.
    case_decide; [intros [= <-]; simpl; lia|]. unfold sweep, evictIdleLocked.
    apply Z.leb_le in Hsw as ->. apply Z.lt_nge, Z.leb_nle in Hp. rewrite Hp. simpl.
    intros [_ Hf]%map_lookup_filter_Some. simpl in Hf. lia.
Qed.

(** A bucket of two, never refilled; another key's requests in between. *)
Definition w_allow (t : GoTime) (b : nat) : bool * nat := match b with O => (false, O) | S n => (true, n) end.

Lemma allowance_is_per_key_witness :
  told "a" (run 2%nat w_allow [(0, "a"); (1, "b"); (2, "a"); (3, "b"); (4, "a")] (New Second)).1 = [true; true; false].
Proof.
  destruct (allowance_is_per_key 2%nat w_allow "a" 0 [(1, "b"); (2, "a"); (3, "b"); (4, "a")] (New Second)) as [H _].
  - reflexivity.
  - simpl. lia.
  - cbn. unfold Second. lia.
  - rewrite H. reflexivity.
Defined.
