(* ===== verification/Json.v ===== *)
(** * JSON documents

    Job payloads are stored as [jsonb] and decoded with [encoding/json]. A
    document is a tree; an object is its list of members (a [jsonb] object has
    no duplicate keys; on a list that has them the first wins). Numbers are
    integers: no payload the server stores has another kind. *)

From S2P Require Import Prelude GoStrings.

#[local] Set Warnings "-register-all".

Inductive json : Type :=
| JNull
| JBool (b : bool)
| JNum (z : Z)
| JStr (s : string)
| JArr (l : list json)
| JObj (m : list (string * json)).

(** The induction principle that goes under arrays and objects. *)
Section JsonInd.
Variable P : json → Prop.
Hypothesis HNull : P JNull.
Hypothesis HBool : ∀ b, P (JBool b).
Hypothesis HNum : ∀ z, P (JNum z).
Hypothesis HStr : ∀ s, P (JStr s).
Hypothesis HArr : ∀ l, Forall P l → P (JArr l).
Hypothesis HObj : ∀ m, Forall (λ kv, P kv.2) m → P (JObj m).

Fixpoint json_rect_deep (j : json) : P j :=
  match j with
  | JNull => HNull
  | JBool b => HBool b
  | JNum z => HNum z
  | JStr s => HStr s
  | JArr l =>
      HArr l ((fix go l : Forall P l :=
                 match l with
                 | [] => Forall_nil_2 _
                 | x :: l' => Forall_cons_2 _ _ _ (json_rect_deep x) (go l')
                 end) l)
  | JObj m =>
      HObj m ((fix go m : Forall (λ kv, P kv.2) m :=
                 match m with
                 | [] => Forall_nil_2 _
                 | kv :: m' => Forall_cons_2 _ _ _ (json_rect_deep kv.2) (go m')
                 end) m)
  end.
End JsonInd.

(** ** Members *)

Fixpoint member (k : string) (m : list (string * json)) : option json :=
  match m with
  | [] => None
  | (k', v) :: m' => if String.eqb k k' then Some v else member k m'
  end.

(** Assignment to a [map[string]any] key. *)
Fixpoint set_member (k : string) (v : json) (m : list (string * json)) : list (string * json) :=
  match m with
  | [] => [(k, v)]
  | (k', v') :: m' => if String.eqb k k' then (k, v) :: m' else (k', v') :: set_member k v m'
  end.

Lemma member_set_eq k v m : member k (set_member k v m) = Some v.
Proof.
  induction m as [|[k' v'] m IH]; simpl; [by rewrite String.eqb_refl|].
  destruct (String.eqb k k') eqn:E; simpl; [by rewrite String.eqb_refl|by rewrite E].
Qed.

Lemma member_set_ne k k' v m : k ≠ k' → member k' (set_member k v m) = member k' m.
Proof.
  intros Hne. assert (String.eqb k' k = false) as Hk by (apply String.eqb_neq; congruence).
  induction m as [|[k0 v0] m IH]; simpl; [by rewrite Hk|].
  destruct (String.eqb k k0) eqn:E; simpl.
  - apply String.eqb_eq in E as ->. by rewrite Hk.
  - by rewrite IH.
Qed.

(** ** Decoding into Go values

    A missing or [null] member leaves the Go zero value; a member of another
    JSON kind is an error, which fails the whole [json.Unmarshal]. *)

Definition decode_string (o : option json) : option string :=
  match o with
  | None | Some JNull => Some ""
  | Some (JStr s) => Some s
  | Some _ => None
  end.

Definition decode_bool (o : option json) : option bool :=
  match o with
  | None | Some JNull => Some false
  | Some (JBool b) => Some b
  | Some _ => None
  end.

Definition decode_int (o : option json) : option Z :=
  match o with
  | None | Some JNull => Some 0
  | Some (JNum z) => if in_int64 z then Some z else None
  | Some _ => None
  end.

Definition decode_list {A} (f : option json → option A) (o : option json) : option (list A) :=
  match o with
  | None | Some JNull => Some []
  | Some (JArr l) => mapM (λ j, f (Some j)) l
  | Some _ => None
  end.

Definition decode_strings : option json → option (list string) := decode_list decode_string.

(** A struct: its members are read from an object; [null] leaves it zero. *)
Definition decode_struct {A} (f : list (string * json) → option A) (o : option json) : option A :=
  match o with
  | None | Some JNull => f []
  | Some (JObj m) => f m
  | Some _ => None
  end.

(** A [map[string]bool]. *)
Definition decode_bool_map (o : option json) : option (gmap string bool) :=
  match o with
  | None | Some JNull => Some ∅
  | Some (JObj m) =>
      (λ l, list_to_map l) <$>
        mapM (λ kv : string * json, (λ b, (kv.1, b)) <$> decode_bool (Some kv.2)) m
  | Some _ => None
  end.

(** A [map[string]json.RawMessage]. *)
Definition decode_raw_map (o : option json) : option (gmap string json) :=
  match o with
  | None | Some JNull => Some ∅
  | Some (JObj m) => Some (list_to_map m)
  | Some _ => None
  end.

(** [payload->>'k']: the text of a member, [None] for SQL NULL. The text of an
    array or object is never compared by the server's queries. *)
Definition json_text (j : json) : option string :=
  match j with
  | JNull => None
  | JBool true => Some "true"
  | JBool false => Some "false"
  | JNum z => Some (Itoa z)
  | JStr s => Some s
  | JArr _ => Some "[]"
  | JObj _ => Some "{}"
  end.

Definition arrow_text (j : json) (k : string) : option string :=
  match j with
  | JObj m => match member k m with Some v => json_text v | None => None end
  | _ => None
  end.

(** ** Encoding Go values: [omitempty] drops zero values *)

Definition omit_string (k s : string) : list (string * json) :=
  if String.eqb s "" then [] else [(k, JStr s)].
Definition omit_bool (k : string) (b : bool) : list (string * json) :=
  if b then [(k, JBool true)] else [].
Definition omit_list {A} (k : string) (f : A → json) (l : list A) : list (string * json) :=
  match l with [] => [] | _ => [(k, JArr (f <$> l))] end.
Definition omit_int (k : string) (z : Z) : list (string * json) :=
  if z =? 0 then [] else [(k, JNum z)].
Definition bool_map_json (m : gmap string bool) : json :=
  JObj ((λ kb : string * bool, (kb.1, JBool kb.2)) <$> map_to_list m).
Definition omit_bool_map (k : string) (m : gmap string bool) : list (string * json) :=
  if decide (m = ∅) then [] else [(k, bool_map_json m)].

Definition omit_raw_map (k : string) (m : gmap string json) : list (string * json) :=
  if (size m =? 0)%nat then [] else [(k, JObj (map_to_list m))].

Lemma mapM_encode {A B} (f : B → option A) (g : A → B) l :
  (∀ x, f (g x) = Some x) → mapM f (g <$> l) = Some l.
Proof.
  intros H. apply mapM_Some. rewrite Forall2_fmap_l.
  induction l; constructor; auto.
Qed.

Lemma decode_strings_encode l : decode_strings (Some (JArr (JStr <$> l))) = Some l.
Proof. by apply (mapM_encode (λ j, decode_string (Some j))). Qed.

Lemma decode_bool_map_encode m : decode_bool_map (Some (bool_map_json m)) = Some m.
Proof.
  unfold decode_bool_map, bool_map_json.
  rewrite (mapM_encode _ (λ kb : string * bool, (kb.1, JBool kb.2))) by (by intros []).
  simpl. by rewrite list_to_map_to_list.
Qed.

(** *** Reading an encoded struct back

    The encoder lists the members in order, dropping zero values; reading a
    member skips the others and gives the value back. *)

Lemma member_app k a b :
  member k (a ++ b) = match member k a with Some v => Some v | None => member k b end.
Proof.
  induction a as [|[k' v] a IH]; simpl; [done|]. by destruct (String.eqb k k').
Qed.

Section OmitNe.
Context (k k' : string) (Hne : String.eqb k k' = false) (rest : list (string * json)).

Lemma member_skip v : member k ((k', v) :: rest) = member k rest.
Proof. simpl. by rewrite Hne. Qed.
Lemma member_skip_string s : member k (omit_string k' s ++ rest) = member k rest.
Proof. unfold omit_string. destruct (String.eqb s ""); [done|apply member_skip]. Qed.
Lemma member_skip_bool b : member k (omit_bool k' b ++ rest) = member k rest.
Proof. destruct b; [apply member_skip|done]. Qed.
Lemma member_skip_list {A} (f : A → json) l : member k (omit_list k' f l ++ rest) = member k rest.
Proof. destruct l; [done|apply member_skip]. Qed.
Lemma member_skip_bool_map m : member k (omit_bool_map k' m ++ rest) = member k rest.
Proof. unfold omit_bool_map. case_decide; [done|apply member_skip]. Qed.
Lemma member_skip_raw_map m : member k (omit_raw_map k' m ++ rest) = member k rest.
Proof. unfold omit_raw_map. destruct (size m =? 0)%nat; [done|apply member_skip]. Qed.
End OmitNe.

Section OmitEq.
Context (k : string) (rest : list (string * json)) (Hrest : member k rest = None).

Lemma member_here v : member k ((k, v) :: rest) = Some v.
Proof. simpl. by rewrite String.eqb_refl. Qed.
Lemma decode_omit_string s : decode_string (member k (omit_string k s ++ rest)) = Some s.
Proof.
  unfold omit_string. destruct (String.eqb s "") eqn:E; simpl.
  - apply String.eqb_eq in E as ->. by rewrite Hrest.
  - by rewrite String.eqb_refl.
Qed.
Lemma decode_omit_bool b : decode_bool (member k (omit_bool k b ++ rest)) = Some b.
Proof. destruct b; simpl; [by rewrite String.eqb_refl|by rewrite Hrest]. Qed.
Lemma decode_omit_strings l : decode_strings (member k (omit_list k JStr l ++ rest)) = Some l.
Proof.
  destruct l as [|s l]; [simpl; by rewrite Hrest|].
  change (omit_list k JStr (s :: l) ++ rest) with ((k, JArr (JStr <$> (s :: l))) :: rest).
  rewrite member_here. apply decode_strings_encode.
Qed.
Lemma decode_omit_bool_map m : decode_bool_map (member k (omit_bool_map k m ++ rest)) = Some m.
Proof.
  unfold omit_bool_map. case_decide as Hm.
  - subst m. simpl. by rewrite Hrest.
  - change ([(k, bool_map_json m)] ++ rest) with ((k, bool_map_json m) :: rest).
    rewrite member_here. apply decode_bool_map_encode.
Qed.
Lemma decode_omit_raw_map m : decode_raw_map (member k (omit_raw_map k m ++ rest)) = Some m.
Proof.
  unfold omit_raw_map. destruct (size m =? 0)%nat eqn:Hm; simpl.
  - rewrite Hrest. simpl. by apply Nat.eqb_eq, map_size_empty_inv in Hm as ->.
  - rewrite String.eqb_refl. simpl. by rewrite list_to_map_to_list.
Qed.
End OmitEq.

(** Skip every member that is not the one looked for. *)
Ltac skip_members :=
  repeat first
    [ rewrite member_skip by reflexivity
    | rewrite member_skip_string by reflexivity
    | rewrite member_skip_bool by reflexivity
    | rewrite member_skip_list by reflexivity
    | rewrite member_skip_bool_map by reflexivity
    | rewrite member_skip_raw_map by reflexivity ].

(** The member [e] of an encoded struct decodes to [v]. *)
Ltac decode_member e v :=
  assert (e = Some v) as -> by
    (match e with context [member _ ?m] => unfold m end; skip_members;
     first
       [ apply decode_omit_string | apply decode_omit_bool
       | apply decode_omit_strings | apply decode_omit_bool_map | apply decode_omit_raw_map
       | rewrite member_here; eauto using decode_strings_encode ];
     skip_members; reflexivity);
  cbn [mbind option_bind].

(** ** Redaction of finished jobs

    The trigger of migration 0086 and [parameters.RedactPayloadSecrets] mask
    the value of every object whose name is a secret parameter and every string
    member whose own key is secret-named. *)

Definition SecretRedacted : string := "***REDACTED***".

Definition secret_words : list string :=
  ["password"; "passphrase"; "secret"; "psk"; "presharedkey"; "privatekey"].

Definition IsSecretParameter (name : string) : bool :=
  existsb (Contains (ToLower name)) secret_words.

Definition named_secret (m : list (string * json)) : bool :=
  match member "name" m with Some (JStr n) => IsSecretParameter n | _ => false end.

Definition masked (secret_obj : bool) (k s : string) : bool :=
  negb (String.eqb s "") && negb (String.eqb s SecretRedacted)
  && (IsSecretParameter k || (String.eqb k "value" && secret_obj)).

Definition mask_member (secret_obj : bool) (k : string) (v : json) : json :=
  match v with
  | JStr s => if masked secret_obj k s then JStr SecretRedacted else v
  | _ => v
  end.

Fixpoint redact (j : json) : json :=
  match j with
  | JArr l => JArr (map redact l)
  | JObj m => JObj (map (λ kv, (kv.1, mask_member (named_secret m) kv.1 (redact kv.2))) m)
  | _ => j
  end.

(** What redaction promises: no member anywhere still has to be masked. *)
Definition member_clean (secret_obj : bool) (k : string) (v : json) : bool :=
  match v with JStr s => negb (masked secret_obj k s) | _ => true end.

Fixpoint secret_free (j : json) : bool :=
  match j with
  | JArr l => forallb secret_free l
  | JObj m => forallb (λ kv, member_clean (named_secret m) kv.1 kv.2 && secret_free kv.2) m
  | _ => true
  end.

Lemma member_map (f : string → json → json) k m :
  member k (map (λ kv, (kv.1, f kv.1 kv.2)) m) = f k <$> member k m.
Proof.
  induction m as [|[k' v] m IH]; simpl; [done|].
  destruct (String.eqb k k') eqn:E; [|done]. by apply String.eqb_eq in E as ->.
Qed.

Lemma redact_str v s : redact v = JStr s ↔ v = JStr s.
Proof. destruct v; simpl; naive_solver. Qed.

(** The name of an object is not itself a secret, so it survives. *)
Lemma named_secret_redact b m :
  named_secret (map (λ kv, (kv.1, mask_member b kv.1 (redact kv.2))) m) = named_secret m.
Proof.
  unfold named_secret.
  rewrite (member_map (λ k v, mask_member b k (redact v))).
  destruct (member "name" m) as [v|]; [|done]. destruct v; try done. simpl.
  assert (masked b "name" s = false) as ->; [|done].
  unfold masked. simpl. by rewrite andb_false_r.
Qed.

Lemma mask_member_clean b k v : member_clean b k (mask_member b k v) = true.
Proof.
  destruct v; try done. simpl. destruct (masked b k s) eqn:E; simpl; [done|by rewrite E].
Qed.

Lemma mask_member_free b k v : secret_free v = true → secret_free (mask_member b k v) = true.
Proof. destruct v; simpl; try done. by destruct (masked b k s). Qed.

Lemma redact_secret_free j : secret_free (redact j) = true.
Proof.
  induction j as [| | | |l IH|m IH] using json_rect_deep; try done; simpl.
  - rewrite forallb_forall. intros x (y & <- & Hy)%in_map_iff.
    rewrite Forall_forall in IH. apply IH. by apply list_elem_of_In.
  - rewrite named_secret_redact, forallb_forall.
    intros x (y & <- & Hy)%in_map_iff. simpl.
    rewrite mask_member_clean. rewrite Forall_forall in IH.
    apply mask_member_free, IH. by apply list_elem_of_In.
Qed.

Lemma redact_fixed j : secret_free j = true → redact j = j.
Proof.
  induction j as [| | | |l IH|m IH] using json_rect_deep; try done; simpl; intros Hf; f_equal;
    rewrite forallb_forall in Hf; rewrite Forall_forall in IH.
  - etransitivity; [|apply map_id]. apply map_ext_in. intros x Hx.
    apply IH; [by apply list_elem_of_In|auto].
  - etransitivity; [|apply map_id]. apply map_ext_in. intros [k v] Hx. simpl.
    specialize (Hf _ Hx). simpl in Hf. apply andb_true_iff in Hf as [Hc Hv].
    apply list_elem_of_In in Hx. specialize (IH _ Hx Hv). simpl in IH. rewrite IH. f_equal.
    destruct v; try done. simpl in *. apply negb_true_iff in Hc. by rewrite Hc.
Qed.

Lemma redact_idempotent j : redact (redact j) = redact j.
Proof. apply redact_fixed, redact_secret_free. Qed.

#[export] Hint Resolve redact_secret_free redact_fixed : acs.
