(* ===== verification/Cwmp.v ===== *)
(** * CWMP messages ([internal/cwmp])

    The identity a CPE claims, the messages the gateway reads and the
    envelopes it renders.  Parsing of the XML itself is done by Go's
    [encoding/xml], so an inbound message starts here as the parsed
    [InboundBody]; rendering is by hand in the source and is modelled to the
    byte. *)

From S2P Require Import Prelude GoStrings.

(** ** Device identity ([types.go]) *)

Record DeviceID : Type := mkDeviceID {
  dev_Manufacturer : string;
  dev_OUI : string;
  dev_ProductClass : string;
  dev_SerialNumber : string
}.

(** [strings.ReplaceAll] of one byte by a string. *)
Fixpoint ReplaceByte (c : ascii) (by_ s : string) : string :=
  match s with
  | EmptyString => EmptyString
  | String a s' => (if Ascii.eqb a c then by_ ++ ReplaceByte c by_ s'
                    else String a (ReplaceByte c by_ s'))%string
  end.

(** [strings.NewReplacer(":", "", "-", "", " ", "")] *)
Fixpoint drop_separators (s : string) : string :=
  match s with
  | EmptyString => EmptyString
  | String a s' =>
      if Ascii.eqb a ":" || Ascii.eqb a "-" || Ascii.eqb a " " then drop_separators s'
      else String a (drop_separators s')
  end.

Definition NormalizeOUI (oui : string) : string := drop_separators (ToUpper oui).

Definition Normalized (d : DeviceID) : DeviceID :=
  mkDeviceID (dev_Manufacturer d) (NormalizeOUI (dev_OUI d)) (dev_ProductClass d) (dev_SerialNumber d).

Definition key_escape (s : string) : string :=
  ReplaceByte "+" "\+" (ReplaceByte "\" "\\" s).

Definition NaturalKey (d : DeviceID) : string :=
  let oui := key_escape (NormalizeOUI (dev_OUI d)) in
  if negb (String.eqb (dev_ProductClass d) "")
  then (oui ++ "+" ++ key_escape (dev_ProductClass d) ++ "+" ++ key_escape (dev_SerialNumber d))%string
  else (oui ++ "+" ++ key_escape (dev_SerialNumber d))%string.

(** ** Inbound messages ([envelope.go], [inform.go], [fault.go], [rpc.go]) *)

Record EventStruct : Type := mkEvent { ev_EventCode : string; ev_CommandKey : string }.

Record ParameterValueStruct : Type := mkPV { pv_Name : string; pv_Value : string; pv_Type : string }.

Record ParameterInfoStruct : Type := mkPI { pi_Name : string; pi_Writable : string }.

Record ParameterAttributeStruct : Type := mkPA {
  pa_Name : string; pa_Notification : Z; pa_AccessList : list string }.

Record Inform : Type := mkInform {
  inf_DeviceId : DeviceID;
  inf_Event : list EventStruct;
  inf_MaxEnvelopes : Z;
  inf_CurrentTime : string;
  inf_RetryCount : Z;
  inf_ParameterList : list ParameterValueStruct
}.

Definition EventCodes (i : Inform) : list string := ev_EventCode <$> inf_Event i.

Definition EventDiagnosticsComplete : string := "8".

(** The text before the first space, [strings.Cut(s, " ")]. *)
Definition first_token (s : string) : string :=
  match Split s " " with w :: _ => w | [] => EmptyString end.

Definition events_have_code (events : list EventStruct) (code : string) : bool :=
  existsb (λ e, let token := first_token (TrimSpace (ev_EventCode e)) in
                negb (String.eqb token "") && String.eqb token code) events.

Definition HasEventCode (i : Inform) (code : string) : bool := events_have_code (inf_Event i) code.

Record FaultStruct : Type := mkFaultStruct { fs_FaultCode : string; fs_FaultString : string }.

(** [sf_Detail] is [f.Detail]: a [FaultDetail], which may lack its [Fault]. *)
Record SoapFault : Type := mkSoapFault {
  sf_FaultCode : string;
  sf_FaultString : string;
  sf_Detail : option (option FaultStruct)
}.

Definition CWMPCode (f : SoapFault) : string :=
  match sf_Detail f with Some (Some d) => fs_FaultCode d | _ => EmptyString end.

Definition CWMPMessage (f : SoapFault) : string :=
  match sf_Detail f with
  | Some (Some d) => if negb (String.eqb (fs_FaultString d) "") then fs_FaultString d else sf_FaultString f
  | _ => sf_FaultString f
  end.

Record TransferComplete : Type := mkTransferComplete {
  tc_CommandKey : string;
  tc_FaultStruct : option FaultStruct
}.

Definition IsFault (tc : TransferComplete) : bool :=
  match tc_FaultStruct tc with
  | Some f => negb (String.eqb (fs_FaultCode f) "") && negb (String.eqb (fs_FaultCode f) "0")
  | None => false
  end.

Record TransferResponse : Type := mkTransferResponse {
  tr_Status : Z; tr_StartTime : string; tr_CompleteTime : string }.
Record AddObjectResponse : Type := mkAddObjectResponse { ao_InstanceNumber : Z; ao_Status : Z }.

(** A field of the body is the pointer of the source: [None] when the element
    is absent.  Responses without content are present or absent. *)
Record InboundBody : Type := mkInboundBody {
  ib_Inform : option Inform;
  ib_GetRPCMethodsResponse : option (list string);
  ib_GetParameterNamesResponse : option (list ParameterInfoStruct);
  ib_GetParameterValuesResponse : option (list ParameterValueStruct);
  ib_SetParameterValuesResponse : option Z;
  ib_DownloadResponse : option TransferResponse;
  ib_TransferComplete : option TransferComplete;
  ib_AddObjectResponse : option AddObjectResponse;
  ib_DeleteObjectResponse : option Z;
  ib_RebootResponse : option unit;
  ib_FactoryResetResponse : option unit;
  ib_ScheduleInformResponse : option unit;
  ib_SetParameterAttributesResponse : option unit;
  ib_GetParameterAttributesResponse : option (list ParameterAttributeStruct);
  ib_UploadResponse : option TransferResponse;
  ib_Fault : option SoapFault;
  ib_GetRPCMethods : option unit;
  ib_Unmatched : list string
}.

Definition emptyBody : InboundBody :=
  mkInboundBody None None None None None None None None None None None None None None None None None [].

Definition UnsupportedRequest (b : InboundBody) : string :=
  match List.find (λ l, negb (String.eqb l "") && negb (HasSuffix l "Response")) (ib_Unmatched b) with
  | Some l => l
  | None => EmptyString
  end.

Definition IsEmpty (b : InboundBody) : bool :=
  negb (is_some (ib_Inform b)) && negb (is_some (ib_GetRPCMethodsResponse b))
  && negb (is_some (ib_GetParameterNamesResponse b)) && negb (is_some (ib_GetParameterValuesResponse b))
  && negb (is_some (ib_SetParameterValuesResponse b)) && negb (is_some (ib_DownloadResponse b))
  && negb (is_some (ib_TransferComplete b)) && negb (is_some (ib_AddObjectResponse b))
  && negb (is_some (ib_DeleteObjectResponse b)) && negb (is_some (ib_RebootResponse b))
  && negb (is_some (ib_FactoryResetResponse b)) && negb (is_some (ib_ScheduleInformResponse b))
  && negb (is_some (ib_SetParameterAttributesResponse b))
  && negb (is_some (ib_GetParameterAttributesResponse b)) && negb (is_some (ib_UploadResponse b))
  && negb (is_some (ib_Fault b)) && negb (is_some (ib_GetRPCMethods b))
  && String.eqb (UnsupportedRequest b) "".

(** ** Rendering ([render.go], [rpc.go], [object.go], [download.go], ...) *)

Definition quote_byte : ascii := ascii_of_nat 34.
(** A string with a double quote, written with [~] for it. *)
Fixpoint quoted (s : string) : string :=
  match s with
  | EmptyString => EmptyString
  | String a s' => String (if Ascii.eqb a "~" then quote_byte else a) (quoted s')
  end.

Definition escape_byte (c : ascii) : string :=
  if Ascii.eqb c "&" then "&amp;"
  else if Ascii.eqb c "<" then "&lt;"
  else if Ascii.eqb c ">" then "&gt;"
  else if Ascii.eqb c quote_byte then "&quot;"
  else String c EmptyString.

Fixpoint escapeXML (s : string) : string :=
  match s with
  | EmptyString => EmptyString
  | String c s' => (escape_byte c ++ escapeXML s')%string
  end.

Definition DefaultCWMPNamespace : string := "urn:dslforum-org:cwmp-1-0".

(** [^urn:dslforum-org:cwmp-1-\d+$]: what [cwmpNamespaceRE] matches in full. *)
Definition validCWMPNamespace (ns : string) : bool :=
  match CutPrefix ns "urn:dslforum-org:cwmp-1-" with
  | Some d => negb (String.eqb d "") && forall_bytes is_digit d
  | None => false
  end.

Definition nl : string := String (ascii_of_nat 10) EmptyString.

Definition soapEnvelope (id body ns : string) : string :=
  (quoted "<?xml version=~1.0~ encoding=~UTF-8~?>" ++ nl ++
   quoted "<soap-env:Envelope xmlns:soap-env=~http://schemas.xmlsoap.org/soap/envelope/~ xmlns:soap-enc=~http://schemas.xmlsoap.org/soap/encoding/~ xmlns:xsd=~http://www.w3.org/2001/XMLSchema~ xmlns:xsi=~http://www.w3.org/2001/XMLSchema-instance~ xmlns:cwmp=~"
   ++ ns ++ quoted "~>" ++ nl ++
   "  <soap-env:Header>" ++ nl ++
   quoted "    <cwmp:ID soap-env:mustUnderstand=~1~>" ++ id ++ "</cwmp:ID>" ++ nl ++
   "  </soap-env:Header>" ++ nl ++
   "  <soap-env:Body>" ++ nl ++
   "    " ++ body ++ nl ++
   "  </soap-env:Body>" ++ nl ++
   "</soap-env:Envelope>")%string.

Definition renderEnvelopeNS (id body ns : string) : string :=
  soapEnvelope (escapeXML id) body (if validCWMPNamespace ns then ns else DefaultCWMPNamespace).

Definition renderEnvelope (id body : string) : string := renderEnvelopeNS id body DefaultCWMPNamespace.

(** [bytes.Replace(s, old, new, 1)]: the first occurrence. *)
Fixpoint replace_first (old new s : string) : string :=
  match CutPrefix s old with
  | Some rest => (new ++ rest)%string
  | None => match s with
            | EmptyString => EmptyString
            | String a s' => String a (replace_first old new s')
            end
  end.

Definition RewriteCWMPNamespace (envelope ns : string) : string :=
  if String.eqb envelope "" || String.eqb ns "" || String.eqb ns DefaultCWMPNamespace
     || negb (validCWMPNamespace ns)
  then envelope
  else replace_first (quoted "xmlns:cwmp=~" ++ DefaultCWMPNamespace ++ quoted "~")%string
                     (quoted "xmlns:cwmp=~" ++ ns ++ quoted "~")%string envelope.

(** One element with text content. *)
Definition element (tag content : string) : string :=
  ("<" ++ tag ++ ">" ++ content ++ "</" ++ tag ++ ">")%string.

Definition string_elements (names : list string) : string :=
  foldr (λ n acc, (element "string" n ++ acc)%string) EmptyString names.

Definition RenderInformResponseNS (id ns : string) : string :=
  renderEnvelopeNS id "<cwmp:InformResponse><MaxEnvelopes>1</MaxEnvelopes></cwmp:InformResponse>" ns.

Definition RenderGetRPCMethods (id : string) : string :=
  renderEnvelope id "<cwmp:GetRPCMethods></cwmp:GetRPCMethods>".

Definition ACSSupportedMethods : list string := ["Inform"; "GetRPCMethods"; "TransferComplete"].

Definition RenderGetRPCMethodsResponseNS (id ns : string) : string :=
  renderEnvelopeNS id
    (quoted "<cwmp:GetRPCMethodsResponse><MethodList soap-enc:arrayType=~xsd:string["
     ++ Itoa (Z.of_nat (length ACSSupportedMethods)) ++ quoted "]~>"
     ++ string_elements ACSSupportedMethods ++ "</MethodList></cwmp:GetRPCMethodsResponse>")%string ns.

Definition RenderMethodNotSupportedFaultNS (id ns : string) : string :=
  renderEnvelopeNS id
    ("<soap-env:Fault><faultcode>Server</faultcode><faultstring>CWMP fault</faultstring>"
     ++ "<detail><cwmp:Fault><FaultCode>8000</FaultCode><FaultString>Method not supported</FaultString></cwmp:Fault></detail>"
     ++ "</soap-env:Fault>")%string ns.

Definition RenderGetParameterNames (id path : string) (nextLevel : bool) : string :=
  renderEnvelope id
    ("<cwmp:GetParameterNames>" ++ element "ParameterPath" (escapeXML path)
     ++ element "NextLevel" (if nextLevel then "1" else "0") ++ "</cwmp:GetParameterNames>")%string.

Definition RenderGetParameterValues (id : string) (names : list string) : string :=
  renderEnvelope id
    (quoted "<cwmp:GetParameterValues><ParameterNames soap-enc:arrayType=~xsd:string["
     ++ Itoa (Z.of_nat (length names)) ++ quoted "]~>"
     ++ string_elements (escapeXML <$> names) ++ "</ParameterNames></cwmp:GetParameterValues>")%string.

Definition MaxParameterKeyLength : nat := 32.

Definition ClampParameterKey (key : string) : string :=
  if (MaxParameterKeyLength <? String.length key)%nat then String.substring 0 MaxParameterKeyLength key else key.

Definition xsd_types : list string :=
  ["xsd:string"; "xsd:boolean"; "xsd:int"; "xsd:unsignedInt"; "xsd:long"; "xsd:unsignedLong";
   "xsd:dateTime"; "xsd:base64Binary"; "xsd:hexBinary"].

(** The [xsi:type] a value is sent with. *)
Definition value_type (t : string) : string :=
  let v := if negb (String.eqb t "") && negb (HasPrefix t "xsd:") then ("xsd:" ++ t)%string else t in
  if existsb (String.eqb v) xsd_types then v else "xsd:string".

Definition value_element (p : ParameterValueStruct) : string :=
  ("<ParameterValueStruct><Name>" ++ escapeXML (pv_Name p)
   ++ quoted "</Name><Value xsi:type=~" ++ value_type (pv_Type p) ++ quoted "~>"
   ++ escapeXML (pv_Value p) ++ "</Value></ParameterValueStruct>")%string.

Definition RenderSetParameterValues (id : string) (params : list ParameterValueStruct)
    (parameterKey : string) : string :=
  renderEnvelope id
    (quoted "<cwmp:SetParameterValues><ParameterList soap-enc:arrayType=~cwmp:ParameterValueStruct["
     ++ Itoa (Z.of_nat (length params)) ++ quoted "]~>"
     ++ foldr (λ p acc, (value_element p ++ acc)%string) EmptyString params
     ++ "</ParameterList><ParameterKey>" ++ escapeXML parameterKey
     ++ "</ParameterKey></cwmp:SetParameterValues>")%string.

Definition RenderAddObject (id objectPath parameterKey : string) : string :=
  renderEnvelope id
    ("<cwmp:AddObject>" ++ element "ObjectName" (escapeXML objectPath)
     ++ element "ParameterKey" (escapeXML parameterKey) ++ "</cwmp:AddObject>")%string.

Definition RenderDeleteObject (id objectPath parameterKey : string) : string :=
  renderEnvelope id
    ("<cwmp:DeleteObject>" ++ element "ObjectName" (escapeXML objectPath)
     ++ element "ParameterKey" (escapeXML parameterKey) ++ "</cwmp:DeleteObject>")%string.

Definition RenderDownload (id commandKey fileType url username password : string) (fileSize : Z)
    (targetFilename : string) (delaySeconds : Z) : string :=
  renderEnvelope id
    ("<cwmp:Download>" ++ element "CommandKey" (escapeXML commandKey)
     ++ element "FileType" (escapeXML fileType) ++ element "URL" (escapeXML url)
     ++ element "Username" (escapeXML username) ++ element "Password" (escapeXML password)
     ++ element "FileSize" (Itoa fileSize) ++ element "TargetFileName" (escapeXML targetFilename)
     ++ element "DelaySeconds" (Itoa delaySeconds) ++ element "SuccessURL" "" ++ element "FailureURL" ""
     ++ "</cwmp:Download>")%string.

Definition RenderTransferCompleteResponseNS (id ns : string) : string :=
  renderEnvelopeNS id "<cwmp:TransferCompleteResponse></cwmp:TransferCompleteResponse>" ns.

Definition RenderUpload (id commandKey fileType url username password : string) (delaySeconds : Z) : string :=
  renderEnvelope id
    ("<cwmp:Upload>" ++ element "CommandKey" (escapeXML commandKey)
     ++ element "FileType" (escapeXML fileType) ++ element "URL" (escapeXML url)
     ++ element "Username" (escapeXML username) ++ element "Password" (escapeXML password)
     ++ element "DelaySeconds" (Itoa delaySeconds) ++ "</cwmp:Upload>")%string.

Definition RenderReboot (id commandKey : string) : string :=
  renderEnvelope id
    ("<cwmp:Reboot>" ++ element "CommandKey" (escapeXML commandKey) ++ "</cwmp:Reboot>")%string.

Definition RenderFactoryReset (id : string) : string :=
  renderEnvelope id "<cwmp:FactoryReset></cwmp:FactoryReset>".

Definition RenderScheduleInform (id commandKey : string) (delaySeconds : Z) : string :=
  renderEnvelope id
    ("<cwmp:ScheduleInform>" ++ element "DelaySeconds" (Itoa delaySeconds)
     ++ element "CommandKey" (escapeXML commandKey) ++ "</cwmp:ScheduleInform>")%string.

Definition attribute_element (name : string) (notification : Z) : string :=
  ("<SetParameterAttributesStruct><Name>" ++ escapeXML name
   ++ "</Name><NotificationChange>1</NotificationChange><Notification>" ++ Itoa notification
   ++ quoted "</Notification><AccessListChange>0</AccessListChange><AccessList soap-enc:arrayType=~xsd:string[0]~></AccessList></SetParameterAttributesStruct>")%string.

Definition RenderSetParameterAttributes (id : string) (attrs : list (string * Z)) : string :=
  renderEnvelope id
    (quoted "<cwmp:SetParameterAttributes><ParameterList soap-enc:arrayType=~cwmp:SetParameterAttributesStruct["
     ++ Itoa (Z.of_nat (length attrs)) ++ quoted "]~>"
     ++ foldr (λ a acc, (attribute_element a.1 a.2 ++ acc)%string) EmptyString attrs
     ++ "</ParameterList></cwmp:SetParameterAttributes>")%string.

Definition RenderGetParameterAttributes (id : string) (names : list string) : string :=
  renderEnvelope id
    (quoted "<cwmp:GetParameterAttributes><ParameterNames soap-enc:arrayType=~xsd:string["
     ++ Itoa (Z.of_nat (length names)) ++ quoted "]~>"
     ++ string_elements (escapeXML <$> names) ++ "</ParameterNames></cwmp:GetParameterAttributes>")%string.

(** ** CWMP messages: theorems

    Identities cannot be forged through the natural key, data cannot add
    markup to a rendered envelope and is read back unchanged, and the
    namespace of an envelope is rewritten in one place only. *)

From S2P Require Import Prelude GoStrings.

(** ** Natural keys *)

Lemma string_app_nil_r' (s : string) : (s ++ "")%string = s.
Proof. induction s as [|c s IH]; [done|]. by rewrite string_app_cons, IH. Qed.

(** The two replacements of [esc], as one pass. *)
Fixpoint escape_pass (s : string) : string :=
  match s with
  | EmptyString => EmptyString
  | String a s' =>
      if Ascii.eqb a "\" then String "\" (String "\" (escape_pass s'))
      else if Ascii.eqb a "+" then String "\" (String "+" (escape_pass s'))
      else String a (escape_pass s')
  end.

Lemma ReplaceByte_cons c b a s :
  ReplaceByte c b (String a s) =
  if Ascii.eqb a c then (b ++ ReplaceByte c b s)%string else String a (ReplaceByte c b s).
Proof. done. Qed.

Lemma key_escape_pass s : key_escape s = escape_pass s.
Proof.
  unfold key_escape. induction s as [|a s IH]; [done|].
  rewrite ReplaceByte_cons. simpl escape_pass.
  destruct (Ascii.eqb_spec a "\") as [->|Hb].
  - change ("\\" ++ ReplaceByte "\" "\\" s)%string
      with (String "\" (String "\" (ReplaceByte "\" "\\" s))).
    rewrite !ReplaceByte_cons. simpl. by rewrite IH.
  - rewrite ReplaceByte_cons. destruct (Ascii.eqb_spec a "+") as [->|Hp]; [|by rewrite IH].
    change ("\+" ++ ReplaceByte "+" "\+" (ReplaceByte "\" "\\" s))%string
      with (String "\" (String "+" (ReplaceByte "+" "\+" (ReplaceByte "\" "\\" s)))). by rewrite IH.
Qed.

(** A separator after an escaped component ends it: the text before is the
    component and the text after is the rest. *)
Lemma escape_pass_split s s' t t' :
  (escape_pass s ++ String "+" t)%string = (escape_pass s' ++ String "+" t')%string → s = s' ∧ t = t'.
Proof.
  revert s'. induction s as [|a s IH]; intros [|a' s']; simpl escape_pass.
  - intros [= ->]. done.
  - change ("" ++ String "+" t)%string with (String "+" t).
    destruct (Ascii.eqb_spec a' "\"); [done|]. destruct (Ascii.eqb_spec a' "+"); [done|].
    rewrite string_app_cons. intros [= ? _]. congruence.
  - change ("" ++ String "+" t')%string with (String "+" t').
    destruct (Ascii.eqb_spec a "\"); [done|]. destruct (Ascii.eqb_spec a "+"); [done|].
    rewrite string_app_cons. intros [= ? _]. congruence.
  - destruct (Ascii.eqb_spec a "\") as [->|]; [|destruct (Ascii.eqb_spec a "+") as [->|]];
      (destruct (Ascii.eqb_spec a' "\") as [->|]; [|destruct (Ascii.eqb_spec a' "+") as [->|]]);
      rewrite ?string_app_cons; intros H; simplify_eq;
      match goal with E : (escape_pass _ ++ _)%string = _ |- _ => destruct (IH _ E) as [-> ->] end; done.
Qed.

Lemma escape_pass_inj s s' : escape_pass s = escape_pass s' → s = s'.
Proof.
  intros H. apply (escape_pass_split s s' "" ""). by rewrite H.
Qed.

(** An escaped component never contains an unescaped separator. *)
Lemma escape_pass_no_split s s' t : escape_pass s = (escape_pass s' ++ String "+" t)%string → False.
Proof.
  revert s'. induction s as [|a s IH]; intros [|a' s']; simpl escape_pass.
  - done.
  - destruct (Ascii.eqb a' "\"); [done|]. by destruct (Ascii.eqb a' "+").
  - change ("" ++ String "+" t)%string with (String "+" t).
    destruct (Ascii.eqb_spec a "\"); [done|]. destruct (Ascii.eqb_spec a "+"); [done|].
    intros [= ? _]. congruence.
  - destruct (Ascii.eqb_spec a "\") as [->|]; [|destruct (Ascii.eqb_spec a "+") as [->|]];
      (destruct (Ascii.eqb_spec a' "\") as [->|]; [|destruct (Ascii.eqb_spec a' "+") as [->|]]);
      rewrite ?string_app_cons; intros H; simplify_eq; eauto.
Qed.

Lemma NaturalKey_eq d :
  NaturalKey d =
  (escape_pass (NormalizeOUI (dev_OUI d)) ++ String "+"
     (if negb (String.eqb (dev_ProductClass d) "")
      then escape_pass (dev_ProductClass d) ++ String "+" (escape_pass (dev_SerialNumber d))
      else escape_pass (dev_SerialNumber d)))%string.
Proof.
  unfold NaturalKey. rewrite !key_escape_pass.
  destruct (String.eqb (dev_ProductClass d) ""); simpl negb; cbn iota; done.
Qed.

(** Two claimed identities have the same natural key only if they agree on
    the serial number, the product class and the OUI up to case and separators:
    no choice of the fields lets a CPE claim another device's row. *)
Theorem natural_key_identifies_the_device d d' :
  NaturalKey d = NaturalKey d' ↔
  NormalizeOUI (dev_OUI d) = NormalizeOUI (dev_OUI d') ∧
  dev_ProductClass d = dev_ProductClass d' ∧ dev_SerialNumber d = dev_SerialNumber d'.
Proof.
  rewrite !NaturalKey_eq. split.
  - intros [Ho Ht]%escape_pass_split. split; [done|].
    destruct (String.eqb_spec (dev_ProductClass d) "") as [E|],
      (String.eqb_spec (dev_ProductClass d') "") as [E'|]; simpl in Ht.
    + split; [congruence|by apply escape_pass_inj].
    + by apply escape_pass_no_split in Ht.
    + by symmetry in Ht; apply escape_pass_no_split in Ht.
    + apply escape_pass_split in Ht as [? ?%escape_pass_inj]. done.
  - by intros (-> & -> & ->).
Qed.

(** ** Escaping *)

(** What an XML parser makes of the references [escapeXML] writes. *)
Definition entities : list (string * ascii) :=
  [("&amp;", "&"%char); ("&lt;", "<"%char); ("&gt;", ">"%char); ("&quot;", quote_byte)].

Fixpoint entity_of (l : list (string * ascii)) (s : string) : option (ascii * string) :=
  match l with
  | [] => None
  | (e, c) :: l' => match CutPrefix s e with Some r => Some (c, r) | None => entity_of l' s end
  end.

(** Expansion of the references in a text; [fuel] is the number of bytes left. *)
Fixpoint expand (fuel : nat) (s : string) : string :=
  match fuel with
  | O => EmptyString
  | S f =>
      match entity_of entities s with
      | Some (c, r) => String c (expand f r)
      | None => match s with
                | EmptyString => EmptyString
                | String a s' => String a (expand f s')
                end
      end
  end.

Lemma CutPrefix_empty s : CutPrefix s "" = Some s.
Proof. unfold CutPrefix. by rewrite HasPrefix_empty. Qed.

Ltac cut_concrete :=
  rewrite ?string_app_cons; change ("" ++ ?s)%string with s;
  cbn [expand]; unfold entities; cbn [entity_of];
  repeat (rewrite CutPrefix_cons; cbn [Ascii.eqb Bool.eqb]; cbn iota); rewrite ?CutPrefix_empty.

Lemma expand_escape_byte c s f : expand (S f) (escape_byte c ++ s) = String c (expand f s).
Proof.
  unfold escape_byte.
  destruct (Ascii.eqb_spec c "&") as [->|H1]; [by cut_concrete|].
  destruct (Ascii.eqb_spec c "<") as [->|H2]; [by cut_concrete|].
  destruct (Ascii.eqb_spec c ">") as [->|H3]; [by cut_concrete|].
  destruct (Ascii.eqb_spec c quote_byte) as [->|H4]; [by cut_concrete|].
  change (String c "" ++ s)%string with (String c s).
  assert (entity_of entities (String c s) = None) as E; [|cbn [expand]; by rewrite E].
  assert (Ascii.eqb "&" c = false) as Hc by by destruct (Ascii.eqb_spec "&" c); [subst|].
  unfold entities. cbn [entity_of]. by rewrite !CutPrefix_cons, Hc.
Qed.

Lemma expand_escape f s : (String.length s <= f)%nat → expand f (escapeXML s) = s.
Proof.
  revert f. induction s as [|c s IH]; intros [|f] Hf; simpl in Hf; try done; [lia|].
  cbn [escapeXML]. rewrite expand_escape_byte, IH; [done|lia].
Qed.

(** The bytes that carry markup in element content and attribute values. *)
Definition markup_byte (c : ascii) : bool :=
  Ascii.eqb c "<" || Ascii.eqb c ">" || Ascii.eqb c quote_byte.

Lemma escape_byte_markup m c : markup_byte m = true → count_byte m (escape_byte c) = 0.
Proof.
  intros Hm. unfold escape_byte.
  assert (m = "<"%char ∨ m = ">"%char ∨ m = quote_byte) as Hc.
  { unfold markup_byte in Hm. destruct (Ascii.eqb_spec m "<"), (Ascii.eqb_spec m ">"),
      (Ascii.eqb_spec m quote_byte); naive_solver. }
  destruct (Ascii.eqb_spec c "&"), (Ascii.eqb_spec c "<"), (Ascii.eqb_spec c ">"),
    (Ascii.eqb_spec c quote_byte); try (by destruct Hc as [->|[->| ->]]).
  simpl. destruct (Ascii.eqb_spec m c) as [->|]; [naive_solver|done].
Qed.

Lemma escapeXML_markup m s : markup_byte m = true → count_byte m (escapeXML s) = 0.
Proof.
  intros Hm. induction s as [|c s IH]; [done|].
  cbn [escapeXML]. rewrite count_byte_app, escape_byte_markup, IH by done. done.
Qed.

(** Text written with [escapeXML] has no byte that starts or ends markup or
    closes an attribute, and an XML parser reads the original text back. *)
Theorem escaped_text_is_inert_and_read_back s :
  (∀ m, markup_byte m = true → count_byte m (escapeXML s) = 0) ∧
  expand (String.length (escapeXML s)) (escapeXML s) = s.
Proof.
  split; [eauto using escapeXML_markup|]. apply expand_escape.
  induction s as [|c s IH]; [done|]. cbn [escapeXML String.length].
  assert (∀ a b, String.length (a ++ b)%string = (String.length a + String.length b)%nat) as ->.
  { intros a b. induction a as [|x a IHa]; [done|]. rewrite string_app_cons. simpl. by rewrite IHa. }
  unfold escape_byte. repeat case_match; simpl; lia.
Qed.

(** ** Rendered envelopes *)

Lemma markup_cases m : markup_byte m = true → m = "<"%char ∨ m = ">"%char ∨ m = quote_byte.
Proof.
  unfold markup_byte. destruct (Ascii.eqb_spec m "<"), (Ascii.eqb_spec m ">"),
    (Ascii.eqb_spec m quote_byte); naive_solver.
Qed.

Lemma digit_byte_markup m n : markup_byte m = true → Ascii.eqb m (digit_byte (n mod 10)) = false.
Proof.
  intros Hm. pose proof (Z.mod_pos_bound n 10 ltac:(lia)) as Hb.
  assert (n mod 10 = 0 ∨ n mod 10 = 1 ∨ n mod 10 = 2 ∨ n mod 10 = 3 ∨ n mod 10 = 4 ∨
    n mod 10 = 5 ∨ n mod 10 = 6 ∨ n mod 10 = 7 ∨ n mod 10 = 8 ∨ n mod 10 = 9) as Hn by lia.
  destruct (markup_cases m Hm) as [->|[->| ->]]; by repeat destruct Hn as [->|Hn]; rewrite ?Hn.
Qed.

Lemma digits_go_markup m f n acc :
  markup_byte m = true → count_byte m (digits_go f n acc) = count_byte m acc.
Proof.
  intros Hm. revert n acc. induction f as [|f IH]; intros n acc; [done|].
  cbn [digits_go]. destruct (n <? 10); [|rewrite IH]; cbn [count_byte]; by rewrite digit_byte_markup.
Qed.

Lemma Itoa_markup m z : markup_byte m = true → count_byte m (Itoa z) = 0.
Proof.
  intros Hm. unfold Itoa. destruct (z <? 0); rewrite ?count_byte_app, ?digits_go_markup by done; [|done].
  by destruct (markup_cases m Hm) as [->|[->| ->]].
Qed.

Lemma value_type_known t : value_type t ∈ xsd_types.
Proof.
  unfold value_type. destruct (existsb _ xsd_types) eqn:E; [|left].
  apply existsb_exists in E as (x & Hx & ->%String.eqb_eq). by apply list_elem_of_In.
Qed.

Lemma value_type_markup m t : markup_byte m = true → count_byte m (value_type t) = 0.
Proof.
  intros Hm. pose proof (value_type_known t) as Hv.
  assert (Forall (λ v, count_byte m v = 0) xsd_types) as Hall.
  { destruct (markup_cases m Hm) as [->|[->| ->]]; repeat constructor. }
  rewrite Forall_forall in Hall. auto.
Qed.

Create Rewrite HintDb markup.
#[local] Hint Rewrite count_byte_app : markup.
#[local] Hint Rewrite escapeXML_markup Itoa_markup value_type_markup using done : markup.

(** Evaluate the counts of the fixed texts. *)
Ltac eval_counts :=
  repeat match goal with
    | |- context [count_byte ?c ?s] =>
        let v := eval vm_compute in (count_byte c s) in
        match v with Z0 => idtac | Zpos _ => idtac end;
        change (count_byte c s) with v
    end.

(** The tags and the attribute quotes of a text. *)
Definition markup (s : string) : Z * Z := (count_byte "<" s, count_byte quote_byte s).

Lemma digits_markup m s : markup_byte m = true → forall_bytes is_digit s = true → count_byte m s = 0.
Proof.
  intros Hm. induction s as [|c s IH]; [done|]. cbn [forall_bytes count_byte]. intros [Hc Hs]%andb_true_iff.
  rewrite IH by done. destruct (Ascii.eqb_spec m c) as [->|]; [|done].
  by destruct (markup_cases c Hm) as [->|[->| ->]].
Qed.

Lemma namespace_markup m ns : markup_byte m = true → validCWMPNamespace ns = true → count_byte m ns = 0.
Proof.
  intros Hm. unfold validCWMPNamespace. destruct (CutPrefix ns _) as [d|] eqn:E; [|done].
  apply CutPrefix_split in E as ->. intros [_ Hd]%andb_true_iff. rewrite count_byte_app, (digits_markup m d) by done.
  by destruct (markup_cases m Hm) as [->|[->| ->]].
Qed.

(** Markup bytes of an envelope around a body, in whatever namespace. *)
Lemma envelope_ns_markup id body ns :
  markup (renderEnvelopeNS id body ns) = (9 + count_byte "<" body, 16 + count_byte quote_byte body).
Proof.
  unfold renderEnvelopeNS, markup. set (n := if validCWMPNamespace ns then ns else DefaultCWMPNamespace).
  assert (∀ m, markup_byte m = true → count_byte m n = 0) as Hn.
  { intros m Hm. subst n. destruct (validCWMPNamespace ns) eqn:E; [by apply namespace_markup|].
    by destruct (markup_cases m Hm) as [->|[->| ->]]. }
  clearbody n. unfold soapEnvelope. autorewrite with markup. rewrite !Hn by done.
  apply f_equal2; eval_counts; lia.
Qed.

Lemma envelope_markup id body :
  markup (renderEnvelope id body) = (9 + count_byte "<" body, 16 + count_byte quote_byte body).
Proof. exact (envelope_ns_markup id body DefaultCWMPNamespace). Qed.

Lemma string_elements_markup m l :
  markup_byte m = true →
  count_byte m (string_elements (escapeXML <$> l)) = Z.of_nat (length l) * count_byte m (element "string" "").
Proof.
  intros Hm. induction l as [|n l IH]; [done|].
  change (string_elements (escapeXML <$> n :: l))
    with (element "string" (escapeXML n) ++ string_elements (escapeXML <$> l))%string.
  rewrite count_byte_app, IH. unfold element. autorewrite with markup.
  destruct (markup_cases m Hm) as [->|[->| ->]]; eval_counts; cbn [length]; lia.
Qed.

Lemma value_elements_markup m l :
  markup_byte m = true →
  count_byte m (foldr (λ p acc, (value_element p ++ acc)%string) EmptyString l) =
  Z.of_nat (length l) * count_byte m (value_element (mkPV "" "" "")).
Proof.
  intros Hm. induction l as [|n l IH]; [done|].
  cbn [foldr]. rewrite count_byte_app, IH. unfold value_element. autorewrite with markup.
  destruct (markup_cases m Hm) as [->|[->| ->]]; eval_counts; cbn [length]; lia.
Qed.

Lemma attribute_elements_markup m (l : list (string * Z)) :
  markup_byte m = true →
  count_byte m (foldr (λ a acc, (attribute_element a.1 a.2 ++ acc)%string) EmptyString l) =
  Z.of_nat (length l) * count_byte m (attribute_element "" 0).
Proof.
  intros Hm. induction l as [|n l IH]; [done|].
  cbn [foldr]. rewrite count_byte_app, IH. unfold attribute_element. autorewrite with markup.
  destruct (markup_cases m Hm) as [->|[->| ->]]; eval_counts; cbn [length]; lia.
Qed.

(** Count the markup of an envelope. *)
Ltac count_markup :=
  rewrite ?envelope_markup, ?envelope_ns_markup; unfold element; autorewrite with markup;
  rewrite ?value_elements_markup, ?string_elements_markup, ?attribute_elements_markup by done;
  apply f_equal2; eval_counts; lia.

(** C39: the markup of everything the server sends to a CPE is fixed by the kind
    of message and the number of parameters it carries.  For each of the seventeen
    renderers: whatever message identifier, names, values, types, keys, paths,
    URLs, file names, credentials and namespace it is given, the envelope has the
    same number of tags and of attribute quotes, so no such text can add an
    element or an attribute. *)
Theorem rendered_data_adds_no_markup id ns :
  markup (RenderInformResponseNS id ns) = (13, 16) ∧
  markup (RenderTransferCompleteResponseNS id ns) = (11, 16) ∧
  markup (RenderGetRPCMethodsResponseNS id ns) = (19, 18) ∧
  markup (RenderMethodNotSupportedFaultNS id ns) = (23, 16) ∧
  markup (RenderGetRPCMethods id) = (11, 16) ∧
  markup (RenderFactoryReset id) = (11, 16) ∧
  (∀ key, markup (RenderReboot id key) = (13, 16)) ∧
  (∀ key delay, markup (RenderScheduleInform id key delay) = (15, 16)) ∧
  (∀ path next, markup (RenderGetParameterNames id path next) = (15, 16)) ∧
  (∀ path key, markup (RenderAddObject id path key) = (15, 16)) ∧
  (∀ path key, markup (RenderDeleteObject id path key) = (15, 16)) ∧
  (∀ names, markup (RenderGetParameterValues id names) = (13 + 2 * Z.of_nat (length names), 18)) ∧
  (∀ names, markup (RenderGetParameterAttributes id names) = (13 + 2 * Z.of_nat (length names), 18)) ∧
  (∀ attrs, markup (RenderSetParameterAttributes id attrs)
            = (13 + 12 * Z.of_nat (length attrs), 18 + 2 * Z.of_nat (length attrs))) ∧
  (∀ params key, markup (RenderSetParameterValues id params key)
                 = (15 + 6 * Z.of_nat (length params), 18 + 2 * Z.of_nat (length params))) ∧
  (∀ key type url user pass delay, markup (RenderUpload id key type url user pass delay) = (23, 16)) ∧
  (∀ key type url user pass size file delay,
     markup (RenderDownload id key type url user pass size file delay) = (31, 16)).
Proof.
  split_and!; intros; [unfold RenderInformResponseNS|unfold RenderTransferCompleteResponseNS|
    unfold RenderGetRPCMethodsResponseNS|unfold RenderMethodNotSupportedFaultNS|unfold RenderGetRPCMethods|
    unfold RenderFactoryReset|unfold RenderReboot|unfold RenderScheduleInform|unfold RenderGetParameterNames|
    unfold RenderAddObject|unfold RenderDeleteObject|unfold RenderGetParameterValues|
    unfold RenderGetParameterAttributes|unfold RenderSetParameterAttributes|unfold RenderSetParameterValues|
    unfold RenderUpload|unfold RenderDownload]; try (destruct next); count_markup.
Qed.

(** ** Namespace of an envelope *)

(** Does [old] occur in [p ++ old] before its end? *)
Fixpoint occurs_early (p old : string) : bool :=
  match p with
  | EmptyString => false
  | String _ p' => HasPrefix (p ++ old) old || occurs_early p' old
  end.

Lemma HasPrefix_long x s old :
  (String.length old <= String.length x)%nat → HasPrefix (x ++ s) old = HasPrefix x old.
Proof.
  revert old. induction x as [|a x IH]; intros [|b old] Hl; simpl in Hl; rewrite ?HasPrefix_empty; [done|lia|done|].
  rewrite string_app_cons, !HasPrefix_cons, IH by lia. done.
Qed.

Lemma string_app_length (a b : string) :
  String.length (a ++ b) = (String.length a + String.length b)%nat.
Proof. induction a as [|x a IH]; [done|]. rewrite string_app_cons. simpl. by rewrite IH. Qed.

Lemma replace_first_at p old new s :
  occurs_early p old = false → replace_first old new (p ++ old ++ s) = (p ++ new ++ s)%string.
Proof.
  induction p as [|a p IH].
  - intros _. change ("" ++ ?x)%string with x. destruct (old ++ s)%string eqn:E;
      cbn [replace_first]; rewrite <- ?E, CutPrefix_app; done.
  - cbn [occurs_early]. intros [Hh Ht]%orb_false_iff. rewrite string_app_cons. cbn [replace_first].
    assert (CutPrefix (String a (p ++ old ++ s)) old = None) as ->; [|by rewrite IH, string_app_cons].
    unfold CutPrefix. rewrite <- string_app_cons, <- string_app_assoc, HasPrefix_long; [by rewrite Hh|].
    rewrite string_app_length. lia.
Qed.

(** Rewriting a rendered request to the namespace the CPE negotiated gives
    exactly the envelope that rendering in that namespace would give, whatever
    the request contains, and an invalid namespace changes nothing. *)
Lemma rewrite_namespace_is_rendering id body ns :
  RewriteCWMPNamespace (renderEnvelope id body) ns =
  if String.eqb ns "" then renderEnvelope id body else renderEnvelopeNS id body ns.
Proof.
  unfold RewriteCWMPNamespace.
  assert (String.eqb (renderEnvelope id body) "" = false) as -> by done.
  destruct (String.eqb_spec ns "") as [->|Hne]; cbn [orb]; [done|].
  destruct (String.eqb_spec ns DefaultCWMPNamespace) as [->|Hd]; cbn [orb]; [done|].
  unfold renderEnvelope, renderEnvelopeNS.
  destruct (validCWMPNamespace ns); cbn [negb]; [|done].
  assert (validCWMPNamespace DefaultCWMPNamespace = true) as -> by done.
  set (pre := (quoted "<?xml version=~1.0~ encoding=~UTF-8~?>" ++ nl ++ quoted "<soap-env:Envelope xmlns:soap-env=~http://schemas.xmlsoap.org/soap/envelope/~ xmlns:soap-enc=~http://schemas.xmlsoap.org/soap/encoding/~ xmlns:xsd=~http://www.w3.org/2001/XMLSchema~ xmlns:xsi=~http://www.w3.org/2001/XMLSchema-instance~ ")%string).
  assert (∃ post, ∀ n, soapEnvelope (escapeXML id) body n =
    (pre ++ (quoted "xmlns:cwmp=~" ++ n ++ quoted "~") ++ post)%string) as [post Hpost].
  { eexists. intros n. unfold soapEnvelope, pre.
    change (quoted "~>") with (quoted "~" ++ ">")%string.
    change (quoted "<soap-env:Envelope xmlns:soap-env=~http://schemas.xmlsoap.org/soap/envelope/~ xmlns:soap-enc=~http://schemas.xmlsoap.org/soap/encoding/~ xmlns:xsd=~http://www.w3.org/2001/XMLSchema~ xmlns:xsi=~http://www.w3.org/2001/XMLSchema-instance~ xmlns:cwmp=~")
      with (quoted "<soap-env:Envelope xmlns:soap-env=~http://schemas.xmlsoap.org/soap/envelope/~ xmlns:soap-enc=~http://schemas.xmlsoap.org/soap/encoding/~ xmlns:xsd=~http://www.w3.org/2001/XMLSchema~ xmlns:xsi=~http://www.w3.org/2001/XMLSchema-instance~ " ++ quoted "xmlns:cwmp=~")%string.
    rewrite !string_app_assoc. reflexivity. }
  rewrite !Hpost. apply replace_first_at. vm_compute. reflexivity.
Qed.
