(* ===== verification/Probe.v ===== *)
(** * The capability probe ([internal/cwmp/session.go])

    The in-memory probe session of a device: a fixed sequence of RPCs sent one
    at a time, and the store that holds the sessions.  Every method runs under
    the session's or the store's mutex, so each is one transformation of the
    state. *)

From S2P Require Import Prelude GoStrings Cwmp.

Inductive ProbeStepName : Type :=
| StepGetRPCMethods
| StepGetParameterNamesD2
| StepGetParameterNamesIGD.

#[global] Instance ProbeStepName_eq_dec : EqDecision ProbeStepName.
Proof. solve_decision. Defined.

#[global] Instance ProbeStepName_countable : Countable ProbeStepName.
Proof.
  refine (inj_countable'
    (λ s, match s with StepGetRPCMethods => 0%nat | StepGetParameterNamesD2 => 1%nat
                     | StepGetParameterNamesIGD => 2%nat end)
    (λ n, match n with 0%nat => StepGetRPCMethods | 1%nat => StepGetParameterNamesD2
                     | _ => StepGetParameterNamesIGD end) _).
  by intros [].
Defined.

(** [Faults] is keyed by the step in flight; an answer nobody asked for is
    recorded under the empty step name, [None]. *)
Record ProbeResults : Type := mkProbeResults {
  RPCMethods : list string;
  Device2Supported : bool;
  Device2ParamCount : Z;
  IGD1Supported : bool;
  IGD1ParamCount : Z;
  Faults : gmap (option ProbeStepName) string
}.

Record ProbeSession : Type := mkProbeSession {
  ps_DeviceKey : string;
  ps_DeviceID : DeviceID;
  ps_EventCodes : list string;
  ps_Results : ProbeResults;
  ps_queue : list ProbeStepName;
  ps_current : option ProbeStepName;
  ps_currentRequest : string;
  ps_CreatedAt : GoTime;
  ps_LastActivity : GoTime;
  ps_Done : bool
}.

Definition probe_steps : list ProbeStepName :=
  [StepGetRPCMethods; StepGetParameterNamesD2; StepGetParameterNamesIGD].

Definition newProbeSession (now : GoTime) (deviceKey : string) (deviceID : DeviceID)
    (events : list string) : ProbeSession :=
  mkProbeSession deviceKey deviceID events (mkProbeResults [] false 0 false 0 ∅)
    probe_steps None "" now now false.

Definition render_step (id : string) (s : ProbeStepName) : string :=
  match s with
  | StepGetRPCMethods => RenderGetRPCMethods id
  | StepGetParameterNamesD2 => RenderGetParameterNames id "Device." false
  | StepGetParameterNamesIGD => RenderGetParameterNames id "InternetGatewayDevice." false
  end.

(** The request to send and its step, or [None] when the session is over. *)
Definition NextRequest (now : GoTime) (id : string) (s : ProbeSession)
  : option (string * ProbeStepName) * ProbeSession :=
  match ps_current s with
  | Some step => (Some (ps_currentRequest s, step), s)
  | None =>
      match ps_queue s with
      | [] =>
          (None, mkProbeSession (ps_DeviceKey s) (ps_DeviceID s) (ps_EventCodes s) (ps_Results s) []
                   None (ps_currentRequest s) (ps_CreatedAt s) (ps_LastActivity s) true)
      | step :: rest =>
          let body := render_step id step in
          (Some (body, step),
           mkProbeSession (ps_DeviceKey s) (ps_DeviceID s) (ps_EventCodes s) (ps_Results s) rest
             (Some step) body (ps_CreatedAt s) now (ps_Done s))
      end
  end.

Definition record_result (step : option ProbeStepName) (body : InboundBody) (r : ProbeResults)
  : ProbeResults :=
  match ib_Fault body with
  | Some f =>
      mkProbeResults (RPCMethods r) (Device2Supported r) (Device2ParamCount r) (IGD1Supported r)
        (IGD1ParamCount r) (<[step := (CWMPCode f ++ " " ++ CWMPMessage f)%string]> (Faults r))
  | None =>
      match step, ib_GetRPCMethodsResponse body, ib_GetParameterNamesResponse body with
      | Some StepGetRPCMethods, Some methods, _ =>
          mkProbeResults methods (Device2Supported r) (Device2ParamCount r) (IGD1Supported r)
            (IGD1ParamCount r) (Faults r)
      | Some StepGetParameterNamesD2, _, Some l =>
          mkProbeResults (RPCMethods r) true (Z.of_nat (length l)) (IGD1Supported r)
            (IGD1ParamCount r) (Faults r)
      | Some StepGetParameterNamesIGD, _, Some l =>
          mkProbeResults (RPCMethods r) (Device2Supported r) (Device2ParamCount r) true
            (Z.of_nat (length l)) (Faults r)
      | _, _, _ => r
      end
  end.

Definition CompleteCurrent (now : GoTime) (body : InboundBody) (s : ProbeSession) : ProbeSession :=
  mkProbeSession (ps_DeviceKey s) (ps_DeviceID s) (ps_EventCodes s)
    (record_result (ps_current s) body (ps_Results s)) (ps_queue s) None "" (ps_CreatedAt s) now (ps_Done s).

(** ** The store *)

Definition SessionStore : Type := gmap string ProbeSession.

Definition set_event_codes (events : list string) (s : ProbeSession) : ProbeSession :=
  mkProbeSession (ps_DeviceKey s) (ps_DeviceID s) events (ps_Results s) (ps_queue s) (ps_current s)
    (ps_currentRequest s) (ps_CreatedAt s) (ps_LastActivity s) (ps_Done s).

Definition StartOrResume (now : GoTime) (deviceID : DeviceID) (events : list string) (st : SessionStore)
  : ProbeSession * SessionStore :=
  let key := NaturalKey deviceID in
  let fresh := newProbeSession now key deviceID events in
  match st !! key with
  | Some existing =>
      if negb (ps_Done existing)
      then let s := set_event_codes events existing in (s, <[key := s]> st)
      else (fresh, <[key := fresh]> st)
  | None => (fresh, <[key := fresh]> st)
  end.

Definition Sweep (now : GoTime) (maxIdle : GoDuration) (st : SessionStore) : SessionStore :=
  filter (λ kv, negb (ps_LastActivity kv.2 <? now - maxIdle) = true) st.

(** ** A session driven by a device

    The device polls for a request (or repeats a poll) and answers. *)

Inductive ProbeEvent : Type :=
| Poll (now : GoTime) (id : string)
| Reply (now : GoTime) (body : InboundBody).

(** The requests sent, oldest first, and the session after the events. *)
Fixpoint run_probe (s : ProbeSession) (events : list ProbeEvent)
  : list (string * ProbeStepName) * ProbeSession :=
  match events with
  | [] => ([], s)
  | Poll now id :: rest =>
      let (r, s') := NextRequest now id s in
      let (sent, s'') := run_probe s' rest in
      (match r with Some x => x :: sent | None => sent end, s'')
  | Reply now body :: rest => run_probe (CompleteCurrent now body s) rest
  end.

(** The steps of the requests sent, a repeated request counted once: what is
    new is what was not in flight before. *)
Definition in_flight (s : ProbeSession) : list ProbeStepName :=
  match ps_current s with Some x => [x] | None => [] end.

Fixpoint dispatched (s : ProbeSession) (events : list ProbeEvent) : list ProbeStepName :=
  match events with
  | [] => []
  | Poll now id :: rest =>
      let s' := (NextRequest now id s).2 in
      (if is_some (ps_current s) then [] else in_flight s') ++ dispatched s' rest
  | Reply now body :: rest => dispatched (CompleteCurrent now body s) rest
  end.

Lemma dispatched_queue s events :
  dispatched s events ++ ps_queue (run_probe s events).2 = ps_queue s.
Proof.
  revert s. induction events as [|e rest IH]; intros s; [done|].
  destruct e as [now id|now body]; simpl.
  - specialize (IH (NextRequest now id s).2).
    destruct (NextRequest now id s) as [r s'] eqn:E. simpl in *.
    destruct (run_probe s' rest) as [sent s'']. simpl in *. rewrite <- app_assoc, IH.
    unfold NextRequest in E. destruct (ps_current s) as [c|] eqn:Ec; simplify_eq; [done|].
    destruct (ps_queue s) as [|x q] eqn:Eq; simplify_eq; done.
  - apply (IH (CompleteCurrent now body s)).
Qed.

(** A probe session has at most one RPC in flight and never skips or
    repeats a step: after any sequence of polls, repeated polls and answers the
    steps dispatched so far, followed by those still queued, are the fixed
    sequence; and while a request is in flight every poll gets the same bytes. *)
Theorem probe_is_serial now key dev codes events :
  let s := newProbeSession now key dev codes in
  (dispatched s events ++ ps_queue (run_probe s events).2)%list = probe_steps ∧
  (∀ s' t id step, ps_current s' = Some step →
     NextRequest t id s' = (Some (ps_currentRequest s', step), s')).
Proof.
  split; [apply dispatched_queue|]. intros s' t id step H. unfold NextRequest. by rewrite H.
Qed.

(** A session ends only after every step was dispatched: a poll is
    answered with nothing exactly when nothing is in flight and the whole
    sequence has been sent. *)
Theorem probe_ends_after_every_step now key dev codes events t id :
  let s := newProbeSession now key dev codes in
  (NextRequest t id (run_probe s events).2).1 = None ↔
  ps_current (run_probe s events).2 = None ∧ dispatched s events = probe_steps.
Proof.
  simpl. set (s := newProbeSession _ _ _ _). set (e := (run_probe s events).2).
  assert (dispatched s events ++ ps_queue e = probe_steps) as Hd by apply dispatched_queue.
  unfold NextRequest. destruct (ps_current e) as [c|]; [naive_solver|].
  destruct (ps_queue e) as [|x q]; simpl.
  - rewrite app_nil_r in Hd. naive_solver.
  - split; [done|]. intros [_ H]. rewrite H in Hd. apply (f_equal length) in Hd.
    rewrite length_app in Hd. simpl in Hd. lia.
Qed.
