(* ===== verification/Devices.v ===== *)
(** * The device registry ([internal/devices])

    The [devices] table: identity, presence, ownership, data-model root,
    authentication mode and connection-request reachability, with the
    statements of [repository.go], [connreq.go], [bootstrap.go], [usp.go] and
    [gateway_link.go] that change them.  The columns are grouped by the statements that write
    them; descriptive columns (label, location) are left out. *)

From S2P Require Import Prelude GoStrings Cwmp.

Inductive DataModelRoot : Type := RootDevice2 | RootIGD1 | RootUnknown.
Inductive OnlineStatus : Type := StOnline | StOffline | StUnreachable | StRebooting.
Inductive AuthMode : Type := AuthModeMTLS | AuthModeDigest | AuthModeNone.
Inductive ReachMode : Type :=
| ModeDirectIPv4 | ModeDirectIPv6 | ModeSTUNAnnexG | ModeXMPP | ModePeriodicFallback | ModeUnknown.

#[global] Instance DataModelRoot_eq_dec : EqDecision DataModelRoot.
Proof. solve_decision. Defined.
#[global] Instance OnlineStatus_eq_dec : EqDecision OnlineStatus.
Proof. solve_decision. Defined.
#[global] Instance AuthMode_eq_dec : EqDecision AuthMode.
Proof. solve_decision. Defined.
#[global] Instance ReachMode_eq_dec : EqDecision ReachMode.
Proof. solve_decision. Defined.

(** Never written after the row is created. *)
Record Identity : Type := mkIdentity {
  d_ID : string;
  d_OUISerial : string;
  d_OUI : string;
  d_ProductClass : string;
  d_SerialNumber : string;
  d_FirstSeenAt : GoTime
}.

Record Presence : Type := mkPresence {
  d_OnlineStatus : OnlineStatus;
  d_LastInformAt : option GoTime;
  d_LastInformEventCodes : list string;
  d_RebootRequestedAt : option GoTime;
  d_LastRebootDurationSeconds : option Z
}.

Record Ownership : Type := mkOwnership {
  d_CustomerID : option string;
  d_SiteID : option string;
  d_Tags : list string;
  d_ReenrollUntil : option GoTime
}.

Record Reach : Type := mkReach {
  d_ConnectionRequestURL : option string;
  d_ConnectionRequestMode : ReachMode;
  d_LastConnectionRequestAt : option GoTime;
  d_LastConnectionRequestStatus : option string;
  d_LastInformAfterConnectionRequestAt : option GoTime;
  d_UDPConnectionRequestAddress : option string;
  d_NATDetected : option bool;
  d_behind_nat : option bool;
  d_GatewayOUISerial : option string;
  d_GatewayDeviceID : option string
}.

(** The catalog profile the device was matched with. *)
Record ProfileAssignment : Type := mkProfile {
  pr_ID : option string;
  pr_MatchedBy : option string;
  pr_Qualified : bool;
  pr_Evidence : list (string * string);
  pr_AssignedAt : option GoTime
}.

Definition no_profile : ProfileAssignment := mkProfile None None false [] None.

Record Device : Type := mkDevice {
  d_identity : Identity;
  d_Manufacturer : string;
  d_presence : Presence;
  d_ownership : Ownership;
  d_reach : Reach;
  d_DataModelRoot : DataModelRoot;
  d_DataModelRootConfirmedAt : option GoTime;
  d_CWMPAuthMode : AuthMode;
  d_profile : ProfileAssignment;
  d_management_protocols : list string;
  d_LastUpdatedAt : GoTime
}.

Definition d_ProfileQualified (d : Device) : bool := pr_Qualified (d_profile d).

Definition ReenrollmentOpen (now : GoTime) (d : Device) : bool :=
  match d_ReenrollUntil (d_ownership d) with Some t => now <? t | None => false end.

Abbreviation Devices := (gmap string Device).

Definition devices_where (p : Device → bool) (tab : Devices) : list Device :=
  List.filter p (rows tab).

Definition Get (tab : Devices) (id : string) : option Device := tab !! id.

Definition has_key (key : string) (d : Device) : bool := String.eqb (d_OUISerial (d_identity d)) key.

(** [oui_serial] is UNIQUE, so there is at most one. *)
Definition GetByOUIserial (tab : Devices) (key : string) : option Device :=
  match devices_where (has_key key) tab with d :: _ => Some d | [] => None end.

Definition no_reach : Reach := mkReach None ModeUnknown None None None None None None None None.

(** ** Upserts on the natural key *)

(** [INSERT ... ON CONFLICT (oui_serial) DO UPDATE ... RETURNING]; a new row
    whose id is taken violates the primary key. *)
Definition upsert (key : string) (fresh : Device) (f : Device → Device) (tab : Devices)
  : result Device * Devices :=
  match GetByOUIserial tab key with
  | Some d => let d' := f d in (Ok d', <[d_ID (d_identity d) := d']> tab)
  | None =>
      if is_some (tab !! d_ID (d_identity fresh)) then (Err "duplicate key value", tab)
      else (Ok fresh, <[d_ID (d_identity fresh) := fresh]> tab)
  end.

Definition keep_manufacturer (old new : string) : string :=
  if String.eqb old "" then new else old.

(** [CASE WHEN p = ANY(a) THEN a ELSE array_append(a, p) END] *)
Definition add_protocol (p : string) (l : list string) : list string :=
  if existsb (String.eqb p) l then l else l ++ [p].

(** [EXTRACT(EPOCH FROM interval)::int] rounds half away from zero. *)
Definition round_seconds (d : GoDuration) : Z :=
  if 0 <=? d then (d + Second / 2) / Second else - ((- d + Second / 2) / Second).

Definition inform_presence (now : GoTime) (codes : list string) (p : Presence) : Presence :=
  mkPresence StOnline (Some now) codes None
    (match d_RebootRequestedAt p with
     | Some t => Some (round_seconds (now - t))
     | None => d_LastRebootDurationSeconds p
     end).

Definition UpsertFromInform (uuid : string) (now : GoTime) (id : DeviceID) (eventCodes : list string)
    (tab : Devices) : result Device * Devices :=
  upsert (NaturalKey id)
    (mkDevice (mkIdentity uuid (NaturalKey id) (dev_OUI id) (dev_ProductClass id) (dev_SerialNumber id) now)
       (dev_Manufacturer id) (mkPresence StOnline (Some now) eventCodes None None)
       (mkOwnership None None [] None) no_reach RootUnknown None AuthModeNone no_profile ["CWMP"] now)
    (λ d, mkDevice (d_identity d) (keep_manufacturer (d_Manufacturer d) (dev_Manufacturer id))
       (inform_presence now eventCodes (d_presence d)) (d_ownership d) (d_reach d) (d_DataModelRoot d)
       (d_DataModelRootConfirmedAt d) (d_CWMPAuthMode d) (d_profile d)
       (add_protocol "CWMP" (d_management_protocols d)) now) tab.

Definition PreRegister (uuid : string) (now : GoTime) (ouiSerial manufacturer oui productClass serial : string)
    (customerID : option string) (tags : list string) (tab : Devices) : result Device * Devices :=
  upsert ouiSerial
    (mkDevice (mkIdentity uuid ouiSerial oui productClass serial now) manufacturer
       (mkPresence StOffline None [] None None) (mkOwnership customerID None tags None) no_reach
       RootUnknown None AuthModeNone no_profile [] now)
    (λ d, mkDevice (d_identity d) (d_Manufacturer d) (d_presence d)
       (mkOwnership customerID (d_SiteID (d_ownership d)) tags (d_ReenrollUntil (d_ownership d)))
       (d_reach d) (d_DataModelRoot d) (d_DataModelRootConfirmedAt d) (d_CWMPAuthMode d)
       (d_profile d) (d_management_protocols d) now) tab.

Definition root_known (r : DataModelRoot) : bool := negb (bool_decide (r = RootUnknown)).

Definition EnsureBootstrapRegistration (uuid : string) (now : GoTime) (id0 : DeviceID)
    (inferredRoot : DataModelRoot) (tab : Devices) : result Device * Devices :=
  let id := Normalized id0 in
  upsert (NaturalKey id)
    (mkDevice (mkIdentity uuid (NaturalKey id) (dev_OUI id) (dev_ProductClass id) (dev_SerialNumber id) now)
       (dev_Manufacturer id) (mkPresence StOffline None [] None None)
       (mkOwnership None None [] None) no_reach inferredRoot None AuthModeNone no_profile [] now)
    (λ d, mkDevice (d_identity d) (keep_manufacturer (d_Manufacturer d) (dev_Manufacturer id))
       (d_presence d) (d_ownership d) (d_reach d)
       (if negb (root_known (d_DataModelRoot d)) && root_known inferredRoot
        then inferredRoot else d_DataModelRoot d)
       (d_DataModelRootConfirmedAt d) (d_CWMPAuthMode d) (d_profile d)
       (d_management_protocols d) now) tab.

Definition ErrEmptyIdentity : string := "usp: OUI and SerialNumber are required for a device identity".
Definition ErrUnknownDevice : string :=
  "usp: no devices row exists for this identity -- pre-register the device before its first USP contact".

Definition ReconcileFromOnBoard (now : GoTime) (oui productClass serial : string) (tab : Devices)
  : result Device * Devices :=
  if String.eqb oui "" || String.eqb serial "" then (Err ErrEmptyIdentity, tab)
  else
    match GetByOUIserial tab (NaturalKey (mkDeviceID "" oui productClass serial)) with
    | None => (Err ErrUnknownDevice, tab)
    | Some d =>
        let p := d_presence d in
        let d' := mkDevice (d_identity d) (d_Manufacturer d)
          (mkPresence StOnline (d_LastInformAt p) (d_LastInformEventCodes p) (d_RebootRequestedAt p)
             (d_LastRebootDurationSeconds p))
          (d_ownership d) (d_reach d)
          (if root_known (d_DataModelRoot d) then d_DataModelRoot d else RootDevice2)
          (d_DataModelRootConfirmedAt d) (d_CWMPAuthMode d) (d_profile d)
          (add_protocol "USP" (d_management_protocols d)) now in
        (Ok d', <[d_ID (d_identity d) := d']> tab)
    end.

(** ** Updates of one row *)

Definition on_device (id : string) (f : Device → Device) (tab : Devices) : Devices := alter f id tab.

Definition set_presence (now : GoTime) (p : Presence) (d : Device) : Device :=
  mkDevice (d_identity d) (d_Manufacturer d) p (d_ownership d) (d_reach d) (d_DataModelRoot d)
    (d_DataModelRootConfirmedAt d) (d_CWMPAuthMode d) (d_profile d) (d_management_protocols d) now.

Definition set_ownership (now : GoTime) (o : Ownership) (d : Device) : Device :=
  mkDevice (d_identity d) (d_Manufacturer d) (d_presence d) o (d_reach d) (d_DataModelRoot d)
    (d_DataModelRootConfirmedAt d) (d_CWMPAuthMode d) (d_profile d) (d_management_protocols d) now.

Definition set_reach (now : GoTime) (r : Reach) (d : Device) : Device :=
  mkDevice (d_identity d) (d_Manufacturer d) (d_presence d) (d_ownership d) r (d_DataModelRoot d)
    (d_DataModelRootConfirmedAt d) (d_CWMPAuthMode d) (d_profile d) (d_management_protocols d) now.

Definition UpdateAuthMode (id : string) (mode : AuthMode) : Devices → Devices :=
  on_device id (λ d, mkDevice (d_identity d) (d_Manufacturer d) (d_presence d) (d_ownership d) (d_reach d)
    (d_DataModelRoot d) (d_DataModelRootConfirmedAt d) mode (d_profile d)
    (d_management_protocols d) (d_LastUpdatedAt d)).

Definition set_profile (now : GoTime) (p : ProfileAssignment) (d : Device) : Device :=
  mkDevice (d_identity d) (d_Manufacturer d) (d_presence d) (d_ownership d) (d_reach d) (d_DataModelRoot d)
    (d_DataModelRootConfirmedAt d) (d_CWMPAuthMode d) p (d_management_protocols d) now.

(** The evidence is the JSON object the caller marshalled, so it is valid. *)
Definition AssignProfile (now : GoTime) (deviceID profileID matchedBy : string) (qualified : bool)
    (evidence : list (string * string)) (tab : Devices) : result unit * Devices :=
  if String.eqb (TrimSpace deviceID) "" || String.eqb (TrimSpace profileID) ""
  then (Err "device id and profile id are required", tab)
  else if negb (existsb (String.eqb matchedBy) ["model"; "vendor"; "oui"; "fallback"])
  then (Err "unsupported profile match provenance", tab)
  else (Ok tt, on_device deviceID (set_profile now (mkProfile (Some profileID) (Some matchedBy) qualified evidence (Some now))) tab).

Definition ClearProfileAssignment (now : GoTime) (deviceID : string) : Devices → Devices :=
  on_device deviceID (set_profile now no_profile).

Definition UpdateTags (now : GoTime) (id : string) (tags : list string) : Devices → Devices :=
  on_device id (λ d, let o := d_ownership d in
    set_ownership now (mkOwnership (d_CustomerID o) (d_SiteID o) tags (d_ReenrollUntil o)) d).

Definition UpdateDataModelRoot (now : GoTime) (id : string) (root : DataModelRoot) : Devices → Devices :=
  on_device id (λ d, mkDevice (d_identity d) (d_Manufacturer d) (d_presence d) (d_ownership d) (d_reach d)
    root (Some now) (d_CWMPAuthMode d) (d_profile d) (d_management_protocols d) now).

Definition MarkRebooting (now : GoTime) (id : string) : Devices → Devices :=
  on_device id (λ d, let p := d_presence d in
    set_presence now (mkPresence StRebooting (d_LastInformAt p) (d_LastInformEventCodes p) (Some now)
                        (d_LastRebootDurationSeconds p)) d).

Definition OpenReenrollment (now : GoTime) (id : string) (until : GoTime) : Devices → Devices :=
  on_device id (λ d, let o := d_ownership d in
    set_ownership now (mkOwnership (d_CustomerID o) (d_SiteID o) (d_Tags o) (Some until)) d).

Definition CloseReenrollment (now : GoTime) (id : string) : Devices → Devices :=
  on_device id (λ d, let o := d_ownership d in
    if is_some (d_ReenrollUntil o)
    then set_ownership now (mkOwnership (d_CustomerID o) (d_SiteID o) (d_Tags o) None) d else d).

(** ** Reachability *)

Definition UpdateConnectionRequestURL (now : GoTime) (id url : string) : Devices → Devices :=
  on_device id (λ d, let r := d_reach d in
    set_reach now (mkReach (Some url) (d_ConnectionRequestMode r) (d_LastConnectionRequestAt r)
      (d_LastConnectionRequestStatus r) (d_LastInformAfterConnectionRequestAt r)
      (d_UDPConnectionRequestAddress r) (d_NATDetected r) (d_behind_nat r) (d_GatewayOUISerial r) (d_GatewayDeviceID r)) d).

Definition mode_in (m : ReachMode) (l : list ReachMode) : bool := bool_decide (m ∈ l).

Definition set_nat_mode (m : ReachMode) (behind : bool) (r : Reach) : Reach :=
  mkReach (d_ConnectionRequestURL r) m (d_LastConnectionRequestAt r) (d_LastConnectionRequestStatus r)
    (d_LastInformAfterConnectionRequestAt r) (d_UDPConnectionRequestAddress r) (d_NATDetected r) (Some behind)
    (d_GatewayOUISerial r) (d_GatewayDeviceID r).

(** The two UPDATE statements, with their WHERE clauses. *)
Definition ClassifyConnectionRequestNAT (now : GoTime) (id : string) (behindNAT : bool)
  : Devices → Devices :=
  on_device id (λ d,
    let r := d_reach d in
    let m := d_ConnectionRequestMode r in
    if behindNAT then
      let keep := mode_in m [ModePeriodicFallback; ModeSTUNAnnexG; ModeXMPP] in
      if negb keep || negb (bool_decide (d_behind_nat r = Some true))
      then set_reach now (set_nat_mode (if keep then m else ModePeriodicFallback) true r) d
      else d
    else
      let fallback := mode_in m [ModePeriodicFallback] in
      if fallback || negb (bool_decide (d_behind_nat r = Some false))
      then set_reach now (set_nat_mode (if fallback then ModeUnknown else m) false r) d
      else d).

Definition UpdateSTUNStatus (now : GoTime) (id address : string) (natDetected : bool) : Devices → Devices :=
  on_device id (λ d, let r := d_reach d in
    set_reach now (mkReach (d_ConnectionRequestURL r)
      (if natDetected && negb (mode_in (d_ConnectionRequestMode r) [ModeDirectIPv4; ModeDirectIPv6; ModeXMPP])
       then ModeSTUNAnnexG else d_ConnectionRequestMode r)
      (d_LastConnectionRequestAt r) (d_LastConnectionRequestStatus r) (d_LastInformAfterConnectionRequestAt r)
      (if String.eqb address "" then None else Some address) (Some natDetected) (d_behind_nat r)
      (d_GatewayOUISerial r) (d_GatewayDeviceID r)) d).

(** [mode] is [None] for the empty string: the classification is left alone.
    This statement does not touch [last_updated_at]. *)
Definition RecordConnectionRequestAttempt (now : GoTime) (id status : string) (mode : option ReachMode)
  : Devices → Devices :=
  on_device id (λ d, let r := d_reach d in
    set_reach (d_LastUpdatedAt d) (mkReach (d_ConnectionRequestURL r) (default (d_ConnectionRequestMode r) mode)
      (Some now) (Some status) (d_LastInformAfterConnectionRequestAt r)
      (d_UDPConnectionRequestAddress r) (d_NATDetected r) (d_behind_nat r) (d_GatewayOUISerial r) (d_GatewayDeviceID r)) d).

Definition MarkInformedAfterConnectionRequest (now : GoTime) (id : string) : Devices → Devices :=
  on_device id (λ d, let r := d_reach d in
    set_reach (d_LastUpdatedAt d) (mkReach (d_ConnectionRequestURL r) (d_ConnectionRequestMode r)
      (d_LastConnectionRequestAt r) (d_LastConnectionRequestStatus r) (Some now)
      (d_UDPConnectionRequestAddress r) (d_NATDetected r) (d_behind_nat r) (d_GatewayOUISerial r) (d_GatewayDeviceID r)) d).

Definition InformedWithEventSince (tab : Devices) (id : string) (since : GoTime) (prefix : string)
  : option bool :=
  match tab !! id with
  | None => None
  | Some d =>
      Some (match d_LastInformAt (d_presence d) with
            | Some t => negb (t <? since)
                        && existsb (λ c, HasPrefix c prefix) (d_LastInformEventCodes (d_presence d))
            | None => false
            end)
  end.

(** ** Mesh satellites and their gateway ([gateway_link.go]) *)

Definition GatewayInfoPrefix : string := "Device.GatewayInfo.".
Definition GatewayInfoManufacturerOUI : string := "Device.GatewayInfo.ManufacturerOUI".
Definition GatewayInfoProductClass : string := "Device.GatewayInfo.ProductClass".
Definition GatewayInfoSerialNumber : string := "Device.GatewayInfo.SerialNumber".

Definition GatewayInfoPaths : list string :=
  [GatewayInfoManufacturerOUI; GatewayInfoProductClass; GatewayInfoSerialNumber].

Definition GatewayInfoReadPaths (names : gmap string bool) : list string :=
  if is_some (names !! GatewayInfoSerialNumber)
  then List.filter (λ p, is_some (names !! p)) GatewayInfoPaths
  else [].

(** [values] reads the empty string for a path that is not cached. *)
Definition GatewayIdentityFromValues (values : string → string) : option DeviceID :=
  let id := Normalized (mkDeviceID "" (TrimSpace (values GatewayInfoManufacturerOUI))
    (TrimSpace (values GatewayInfoProductClass)) (TrimSpace (values GatewayInfoSerialNumber))) in
  if String.eqb (dev_OUI id) "" || String.eqb (dev_SerialNumber id) "" then None else Some id.

(** [upper(regexp_replace(oui, '[^0-9A-Za-z]', '', 'g'))] *)
Fixpoint alnum_only (s : string) : string :=
  match s with
  | EmptyString => EmptyString
  | String c rest => if is_alnum c then String c (alnum_only rest) else alnum_only rest
  end.

Definition other_device (deviceID : string) (d : Device) : bool := negb (String.eqb (d_ID (d_identity d)) deviceID).

(** The exact natural key first, else a unique match of OUI and serial. *)
Definition resolveGateway (tab : Devices) (deviceID : string) (gateway : DeviceID) : option string :=
  match devices_where (λ d, has_key (NaturalKey gateway) d && other_device deviceID d) tab with
  | d :: _ => Some (d_ID (d_identity d))
  | [] =>
      match devices_where (λ d, String.eqb (d_SerialNumber (d_identity d)) (dev_SerialNumber gateway)
                                && String.eqb (ToUpper (alnum_only (d_OUI (d_identity d)))) (dev_OUI gateway)
                                && other_device deviceID d) tab with
      | [d] => Some (d_ID (d_identity d))
      | _ => None
      end
  end.

Definition set_link (now : GoTime) (key gateway : option string) (d : Device) : Device :=
  let r := d_reach d in
  set_reach now (mkReach (d_ConnectionRequestURL r) (d_ConnectionRequestMode r) (d_LastConnectionRequestAt r)
    (d_LastConnectionRequestStatus r) (d_LastInformAfterConnectionRequestAt r)
    (d_UDPConnectionRequestAddress r) (d_NATDetected r) (d_behind_nat r) key gateway) d.

(** [None]: no usable GatewayInfo, the link is cleared. *)
Definition LinkGateway (now : GoTime) (deviceID : string) (gateway : option DeviceID) (tab : Devices) : Devices :=
  let key := NaturalKey <$> gateway in
  let resolved := gateway ≫= resolveGateway tab deviceID in
  on_device deviceID (λ d,
    if bool_decide (d_GatewayOUISerial (d_reach d) = key) && bool_decide (d_GatewayDeviceID (d_reach d) = resolved)
    then d else set_link now key resolved d) tab.

(** A satellite that named the gateway's natural key and has no link yet. *)
Definition waiting_for (id key : string) (d : Device) : bool :=
  bool_decide (d_GatewayOUISerial (d_reach d) = Some key) && negb (is_some (d_GatewayDeviceID (d_reach d)))
  && other_device id d.

Definition AdoptSatellites (now : GoTime) (gateway : Device) (tab : Devices) : Devices :=
  let id := d_ID (d_identity gateway) in
  let key := d_OUISerial (d_identity gateway) in
  (update_where (waiting_for id key) (set_link now (Some key) (Some id)) tab).1.

(** ** Liveness *)

Definition RebootGrace : GoDuration := 30 * Minute.

Definition positive_or (d dflt : GoDuration) : GoDuration := if d <=? 0 then dflt else d.

(** The [CASE] of the UPDATE. *)
Definition liveness (now online unreachable : Z) (last : option GoTime) : OnlineStatus :=
  match last with
  | None => StOffline
  | Some t => if now - online <? t then StOnline
              else if now - unreachable <? t then StOffline else StUnreachable
  end.

(** The rows of the UPDATE: silent for one of the thresholds, not rebooting,
    and not connected over USP. [reboot_requested_at > ...] is unknown when
    the column is null, which keeps a REBOOTING row out. *)
Definition liveness_applies (now online unreachable : Z) (usp_connected : string → bool) (d : Device) : bool :=
  let p := d_presence d in
  (match d_LastInformAt p with
   | None => true
   | Some t => (t <=? now - online) || (t <=? now - unreachable)
   end)
  && (if bool_decide (d_OnlineStatus p = StRebooting)
      then match d_RebootRequestedAt p with Some t => negb (now - RebootGrace <? t) | None => false end
      else true)
  && negb (existsb (String.eqb "USP") (d_management_protocols d) && usp_connected (d_ID (d_identity d))).

Definition RefreshLiveness (now : GoTime) (onlineThreshold unreachableThreshold : GoDuration)
    (usp_connected : string → bool) (tab : Devices) : (Z * Z) * Devices :=
  let online := positive_or onlineThreshold (5 * Minute) in
  let unreachable := positive_or unreachableThreshold (90 * Minute) in
  let tab' := (update_where (liveness_applies now online unreachable usp_connected)
    (λ d, let p := d_presence d in
          set_presence now (mkPresence (liveness now online unreachable (d_LastInformAt p)) (d_LastInformAt p)
            (d_LastInformEventCodes p) (d_RebootRequestedAt p) (d_LastRebootDurationSeconds p)) d) tab).1 in
  let count s := Z.of_nat (length (devices_where (λ d, bool_decide (d_OnlineStatus (d_presence d) = s)) tab')) in
  ((count StOffline, count StUnreachable), tab').

(** ** The device registry: theorems

    One row per natural key in every reachable table, what an Inform may and
    may not change, and the reachability classification. *)

From S2P Require Import Prelude GoStrings Cwmp.

(** ** The invariant *)

Record devices_ok (tab : Devices) : Prop := mk_devices_ok {
  dev_keyed : ∀ k d, tab !! k = Some d → d_ID (d_identity d) = k;
  dev_unique : ∀ k k' d d', tab !! k = Some d → tab !! k' = Some d' →
    d_OUISerial (d_identity d) = d_OUISerial (d_identity d') → k = k'
}.

Lemma devices_ok_empty : devices_ok ∅.
Proof. by constructor; intros *; rewrite lookup_empty. Qed.

Lemma GetByOUIserial_some tab key d :
  GetByOUIserial tab key = Some d → (∃ k, tab !! k = Some d) ∧ d_OUISerial (d_identity d) = key.
Proof.
  unfold GetByOUIserial, devices_where. destruct (List.filter _ _) as [|d' l] eqn:E; [done|].
  intros [= ->]. assert (In d (List.filter (has_key key) (rows tab))) as Hin by (rewrite E; by left).
  apply filter_In in Hin as [Hin Hk]. split; [by apply elem_of_rows, list_elem_of_In|].
  by apply String.eqb_eq.
Qed.

Lemma GetByOUIserial_none tab key k d :
  GetByOUIserial tab key = None → tab !! k = Some d → d_OUISerial (d_identity d) ≠ key.
Proof.
  unfold GetByOUIserial, devices_where. destruct (List.filter _ _) as [|d' l] eqn:E; [|done].
  intros _ Hd Hk. assert (In d (List.filter (has_key key) (rows tab))) as Hin.
  { apply filter_In. split; [apply list_elem_of_In, elem_of_rows; eauto|by apply String.eqb_eq]. }
  by rewrite E in Hin.
Qed.

Lemma GetByOUIserial_unique tab k d :
  devices_ok tab → tab !! k = Some d → GetByOUIserial tab (d_OUISerial (d_identity d)) = Some d.
Proof.
  intros Hok Hd. destruct (GetByOUIserial tab _) as [d'|] eqn:E.
  - apply GetByOUIserial_some in E as [[k' Hd'] Hk].
    assert (k = k') as -> by (eapply (dev_unique _ Hok); eauto). congruence.
  - by destruct (GetByOUIserial_none _ _ _ _ E Hd).
Qed.

(** Rewriting a row without touching its identity. *)
Lemma devices_ok_rewrite tab k d d' :
  devices_ok tab → tab !! k = Some d → d_identity d' = d_identity d → devices_ok (<[k := d']> tab).
Proof.
  intros Hok Hd Hi. constructor.
  - intros k0 d0. destruct (decide (k0 = k)) as [->|].
    + rewrite lookup_insert_eq. intros [= <-]. rewrite Hi. eauto using dev_keyed.
    + rewrite lookup_insert_ne by done. eauto using dev_keyed.
  - intros k1 k2 d1 d2 H1 H2 He.
    assert (∀ k0 d0, <[k := d']> tab !! k0 = Some d0 →
      ∃ e, tab !! k0 = Some e ∧ d_identity e = d_identity d0) as Hback.
    { intros k0 d0. destruct (decide (k0 = k)) as [->|]; [rewrite lookup_insert_eq|
        rewrite lookup_insert_ne by done]; naive_solver. }
    apply Hback in H1 as (e1 & H1 & E1), H2 as (e2 & H2 & E2).
    eapply (dev_unique _ Hok); eauto. by rewrite E1, E2.
Qed.

Lemma devices_ok_on_device tab id f :
  devices_ok tab → (∀ d, d_identity (f d) = d_identity d) → devices_ok (on_device id f tab).
Proof.
  intros Hok Hf. unfold on_device. destruct (tab !! id) as [d|] eqn:Hd.
  - rewrite <- (insert_id (alter f id tab) id (f d)) by (by rewrite lookup_alter_eq, Hd).
    assert (<[id := f d]> (alter f id tab) = <[id := f d]> tab) as ->.
    { apply map_eq. intros i. destruct (decide (i = id)) as [->|];
        [by rewrite !lookup_insert_eq|by rewrite !lookup_insert_ne, lookup_alter_ne]. }
    by apply (devices_ok_rewrite tab id d).
  - by rewrite alter_id'.
Qed.

Lemma devices_ok_upsert tab key fresh f :
  devices_ok tab → d_OUISerial (d_identity fresh) = key → (∀ d, d_identity (f d) = d_identity d) →
  devices_ok (upsert key fresh f tab).2.
Proof.
  intros Hok Hk Hf. unfold upsert. destruct (GetByOUIserial tab key) as [d|] eqn:E; simpl.
  - apply GetByOUIserial_some in E as [[k Hd] _]. pose proof (dev_keyed _ Hok _ _ Hd) as ->.
    by apply (devices_ok_rewrite tab k d).
  - destruct (tab !! d_ID (d_identity fresh)) as [?|] eqn:En; [done|]. simpl. constructor.
    + intros k d. destruct (decide (k = d_ID (d_identity fresh))) as [->|].
      * rewrite lookup_insert_eq. naive_solver.
      * rewrite lookup_insert_ne by done. eauto using dev_keyed.
    + assert (∀ k d, tab !! k = Some d → d_OUISerial (d_identity d) ≠ key) as Hnew
        by eauto using GetByOUIserial_none.
      intros k k' d d'.
      destruct (decide (k = d_ID (d_identity fresh))) as [->|],
        (decide (k' = d_ID (d_identity fresh))) as [->|];
        rewrite ?lookup_insert_eq, ?lookup_insert_ne by done; intros H1 H2 He; simplify_eq; [done| | |].
      * symmetry in He. by destruct (Hnew _ _ H2).
      * by destruct (Hnew _ _ H1).
      * eauto using dev_unique.
Qed.

Lemma devices_ok_update_where tab p f :
  devices_ok tab → (∀ d, d_identity (f d) = d_identity d) → devices_ok (update_where p f tab).1.
Proof.
  intros Hok Hf.
  assert (∀ k d, (update_where p f tab).1 !! k = Some d →
    ∃ e, tab !! k = Some e ∧ d_identity e = d_identity d) as Hback.
  { intros k d. rewrite lookup_update_where. destruct (tab !! k) as [e|]; simpl; [|done].
    intros [= <-]. exists e. split; [done|]. by destruct (p e). }
  constructor.
  - intros k d H. apply Hback in H as (e & H & <-). eauto using dev_keyed.
  - intros k k' d d' H H' He. apply Hback in H as (e & H & E), H' as (e' & H' & E').
    eapply (dev_unique _ Hok); eauto. by rewrite E, E'.
Qed.

(** ** Every call of the repository *)

Inductive device_step : Devices → Devices → Prop :=
| dstep_inform uuid now id codes tab : device_step tab (UpsertFromInform uuid now id codes tab).2
| dstep_preregister uuid now key m oui pc sn c tags tab :
    device_step tab (PreRegister uuid now key m oui pc sn c tags tab).2
| dstep_bootstrap uuid now id root tab : device_step tab (EnsureBootstrapRegistration uuid now id root tab).2
| dstep_onboard now oui pc sn tab : device_step tab (ReconcileFromOnBoard now oui pc sn tab).2
| dstep_auth id m tab : device_step tab (UpdateAuthMode id m tab)
| dstep_tags now id l tab : device_step tab (UpdateTags now id l tab)
| dstep_root now id r tab : device_step tab (UpdateDataModelRoot now id r tab)
| dstep_reboot now id tab : device_step tab (MarkRebooting now id tab)
| dstep_reenroll now id u tab : device_step tab (OpenReenrollment now id u tab)
| dstep_close_reenroll now id tab : device_step tab (CloseReenrollment now id tab)
| dstep_url now id u tab : device_step tab (UpdateConnectionRequestURL now id u tab)
| dstep_nat now id b tab : device_step tab (ClassifyConnectionRequestNAT now id b tab)
| dstep_stun now id a n tab : device_step tab (UpdateSTUNStatus now id a n tab)
| dstep_attempt now id s m tab : device_step tab (RecordConnectionRequestAttempt now id s m tab)
| dstep_informed now id tab : device_step tab (MarkInformedAfterConnectionRequest now id tab)
| dstep_link now id gw tab : device_step tab (LinkGateway now id gw tab)
| dstep_adopt now gw tab : device_step tab (AdoptSatellites now gw tab)
| dstep_liveness now o u c tab : device_step tab (RefreshLiveness now o u c tab).2.

Lemma device_step_ok tab tab' : device_step tab tab' → devices_ok tab → devices_ok tab'.
Proof.
  destruct 1; intros Hok;
    try (apply devices_ok_upsert; done);
    try (apply devices_ok_on_device; [done|]; intros d; try done);
    try (apply devices_ok_update_where; done).
  - unfold ReconcileFromOnBoard. destruct (_ || _); [done|].
    destruct (GetByOUIserial _ _) as [d|] eqn:E; [|done]. simpl.
    apply GetByOUIserial_some in E as [[k Hd] _]. pose proof (dev_keyed _ Hok _ _ Hd) as ->.
    by apply (devices_ok_rewrite tab k d).
  - simpl. by destruct (is_some _).
  - simpl. destruct b; case_match; done.
  - simpl. by case_match.
Qed.

Lemma reachable_devices_ok tab : rtc device_step ∅ tab → devices_ok tab.
Proof.
  intros H. assert (∀ a b, rtc device_step a b → devices_ok a → devices_ok b) as Hr.
  { induction 1; eauto using device_step_ok. }
  eapply Hr; [exact H|apply devices_ok_empty].
Qed.

(** ** Mesh links *)

Definition link_ok (_ : string) (d : Device) : Prop :=
  d_GatewayDeviceID (d_reach d) ≠ Some (d_ID (d_identity d)) ∧
  (d_GatewayOUISerial (d_reach d) = None → d_GatewayDeviceID (d_reach d) = None).

Lemma links_on_device id f tab :
  map_Forall link_ok tab → (∀ d, tab !! id = Some d → link_ok id d → link_ok id (f d)) →
  map_Forall link_ok (on_device id f tab).
Proof.
  intros Hl Hf k d. unfold on_device. destruct (decide (k = id)) as [->|]; [|rewrite lookup_alter_ne by done; apply Hl].
  rewrite lookup_alter_eq. destruct (tab !! id) as [d0|] eqn:E; simpl; [|done]. intros [= <-].
  apply Hf; [done|]. by apply (Hl id).
Qed.

Lemma links_upsert key fresh f tab :
  map_Forall link_ok tab → link_ok "" fresh → (∀ d, link_ok "" d → link_ok "" (f d)) →
  map_Forall link_ok (upsert key fresh f tab).2.
Proof.
  intros Hl Hn Hf. unfold upsert. destruct (GetByOUIserial tab key) as [d|] eqn:E; simpl.
  - apply GetByOUIserial_some in E as [[k Hd] _]. apply map_Forall_insert_2; [|done]. exact (Hf d (Hl k d Hd)).
  - destruct (is_some _); [done|]. by apply map_Forall_insert_2.
Qed.

Lemma links_update_where p f tab :
  map_Forall link_ok tab → (∀ d, p d = true → link_ok "" d → link_ok "" (f d)) →
  map_Forall link_ok (update_where p f tab).1.
Proof.
  intros Hl Hf k d. rewrite lookup_update_where. destruct (tab !! k) as [d0|] eqn:E; simpl; [|done]. intros [= <-].
  destruct (p d0) eqn:Hp; [exact (Hf d0 Hp (Hl k d0 E))|exact (Hl k d0 E)].
Qed.

Lemma devices_where_elem p tab d l : devices_where p tab = d :: l → p d = true.
Proof.
  unfold devices_where. intros E. assert (In d (List.filter p (rows tab))) as H by (rewrite E; by left).
  apply filter_In in H as [_ H]. exact H.
Qed.

Lemma resolveGateway_other tab id gw : resolveGateway tab id gw ≠ Some id.
Proof.
  assert (∀ d, other_device id d = true → d_ID (d_identity d) ≠ id) as Ho.
  { unfold other_device. intros d. by destruct (String.eqb_spec (d_ID (d_identity d)) id). }
  unfold resolveGateway. destruct (devices_where _ tab) as [|d l] eqn:E.
  - destruct (devices_where _ tab) as [|d [|]] eqn:E' in |- *; [done| |done].
    apply devices_where_elem in E'. bool_to_prop. intros [= Heq]. naive_solver.
  - apply devices_where_elem in E. bool_to_prop. intros [= Heq]. naive_solver.
Qed.

Lemma device_step_links tab tab' :
  device_step tab tab' → devices_ok tab → map_Forall link_ok tab → map_Forall link_ok tab'.
Proof.
  destruct 1; intros Hok Hl;
    try (by apply links_upsert); try (by apply links_update_where);
    try (apply links_on_device; [done|]; intros d Hd Hk; try (exact Hk)).
  - unfold ReconcileFromOnBoard. destruct (_ || _); [done|]. destruct (GetByOUIserial _ _) as [d|] eqn:E; [|done].
    apply GetByOUIserial_some in E as [[k Hd] _]. simpl. apply map_Forall_insert_2; [|done]. exact (Hl k d Hd).
  - cbv zeta. by destruct (is_some _).
  - cbv zeta. destruct b; case_match; exact Hk.
  - cbv beta zeta. case_match; [done|]. split; simpl.
    + destruct gw as [gw|]; simpl; [|done]. rewrite (dev_keyed _ Hok _ _ Hd). apply resolveGateway_other.
    + by destruct gw.
  - apply links_update_where; [done|]. intros d Hw _. split; simpl; [|done]. unfold waiting_for, other_device in Hw.
    intros [= E]. by rewrite E, String.eqb_refl, andb_false_r in Hw.
Qed.

(** In every table the repository can produce, no device is its own gateway,
    and a device that names no gateway is linked to none. *)
Theorem no_device_is_its_own_gateway tab k d :
  rtc device_step ∅ tab → tab !! k = Some d →
  d_GatewayDeviceID (d_reach d) ≠ Some k ∧
  (d_GatewayOUISerial (d_reach d) = None → d_GatewayDeviceID (d_reach d) = None).
Proof.
  intros Hr Hd. pose proof (reachable_devices_ok _ Hr) as Hok.
  assert (map_Forall link_ok tab) as Hl.
  { assert (∀ a b, rtc device_step a b → devices_ok a → map_Forall link_ok a → map_Forall link_ok b) as Hs
      by (induction 1; eauto using device_step_ok, device_step_links).
    eapply Hs; [exact Hr|apply devices_ok_empty|apply map_Forall_empty]. }
  destruct (Hl k d Hd) as [H1 H2]. by rewrite (dev_keyed _ Hok _ _ Hd) in H1.
Qed.

(** ** Informs *)

Lemma GetByOUIserial_insert tab k d :
  devices_ok (<[k := d]> tab) → GetByOUIserial (<[k := d]> tab) (d_OUISerial (d_identity d)) = Some d.
Proof. intros Hok. eapply GetByOUIserial_unique; [done|]. apply lookup_insert_eq. Qed.

(** In every table the repository can produce, an Inform writes exactly one
    row, the one row of the natural key it claims, and it cannot rewrite an
    existing device's identity, its tenant, site and tags, or a manufacturer
    already known. *)
Theorem inform_writes_the_claimed_row tab uuid now id codes :
  rtc device_step ∅ tab → tab !! uuid = None →
  ∃ d, (UpsertFromInform uuid now id codes tab) = (Ok d, <[d_ID (d_identity d) := d]> tab) ∧
    d_OUISerial (d_identity d) = NaturalKey id ∧
    GetByOUIserial (<[d_ID (d_identity d) := d]> tab) (NaturalKey id) = Some d ∧
    (∀ k d', tab !! k = Some d' → d_OUISerial (d_identity d') = NaturalKey id → k = d_ID (d_identity d)) ∧
    (∀ d0, GetByOUIserial tab (NaturalKey id) = Some d0 →
       d_identity d = d_identity d0 ∧ d_ownership d = d_ownership d0 ∧
       (d_Manufacturer d0 ≠ "" → d_Manufacturer d = d_Manufacturer d0)).
Proof.
  intros Hr Hu. pose proof (reachable_devices_ok _ Hr) as Hok.
  pose proof (device_step_ok _ _ (dstep_inform uuid now id codes tab) Hok) as Hok'.
  unfold UpsertFromInform, upsert in *. destruct (GetByOUIserial tab (NaturalKey id)) as [d0|] eqn:E.
  - pose proof (GetByOUIserial_some _ _ _ E) as [[k Hd] Hk]. pose proof (dev_keyed _ Hok _ _ Hd) as Hkid.
    cbv beta zeta in *. match goal with |- ∃ _, (Ok ?x, _) = _ ∧ _ => exists x end.
    split; [reflexivity|]. simpl in *. split_and!; [done| | |].
    + rewrite <- Hk. match goal with |- GetByOUIserial (<[_ := ?d]> _) _ = _ =>
        exact (GetByOUIserial_insert tab _ d Hok') end.
    + intros k' d' Hd' Hk'. rewrite Hkid. eapply (dev_unique _ Hok); eauto. congruence.
    + intros d [= <-]. split_and!; [done|done|]. intros Hm. unfold keep_manufacturer.
      by destruct (String.eqb_spec (d_Manufacturer d0) "").
  - simpl in *. rewrite Hu in *. simpl in *.
    match goal with |- ∃ _, (Ok ?x, _) = _ ∧ _ => exists x end.
    split; [reflexivity|]. simpl. split_and!; [done| | |done].
    + match goal with |- GetByOUIserial (<[_ := ?d]> _) _ = _ =>
        exact (GetByOUIserial_insert tab _ d Hok') end.
    + intros k' d' Hd' Hk'. by destruct (GetByOUIserial_none _ _ _ _ E Hd').
Qed.

Definition w_nokia : DeviceID := mkDeviceID "Nokia" "d0:59:95" "FastMile" "ALCL1234".
Definition w_devices : Devices :=
  (PreRegister "d-1" 5 (NaturalKey w_nokia) "" "D05995" "FastMile" "ALCL1234" (Some "tenant-a") ["vip"] ∅).2.

Lemma w_devices_reachable : rtc device_step ∅ w_devices.
Proof. apply rtc_once, dstep_preregister. Defined.

Lemma inform_writes_the_claimed_row_witness :
  ∃ d, (UpsertFromInform "d-2" 9 w_nokia ["0 BOOTSTRAP"] w_devices).1 = Ok d ∧
    d_ID (d_identity d) = "d-1" ∧ d_CustomerID (d_ownership d) = Some "tenant-a".
Proof.
  destruct (inform_writes_the_claimed_row w_devices "d-2" 9 w_nokia ["0 BOOTSTRAP"]
    w_devices_reachable eq_refl) as (d & E & _ & _ & H & Ho).
  exists d. rewrite E. split; [reflexivity|].
  destruct (GetByOUIserial w_devices (NaturalKey w_nokia)) as [d0|] eqn:E0; [|revert E0; vm_compute; discriminate].
  destruct (Ho d0 eq_refl) as (-> & -> & _).
  revert E0. vm_compute. intros [= <-]. split; reflexivity.
Defined.

(** ** Reachability *)

Definition mode_of (tab : Devices) (id : string) : option ReachMode :=
  (λ d, d_ConnectionRequestMode (d_reach d)) <$> tab !! id.

Lemma mode_on_device tab id f :
  mode_of (on_device id f tab) id = (λ d, d_ConnectionRequestMode (d_reach (f d))) <$> tab !! id.
Proof. unfold mode_of, on_device. rewrite lookup_alter_eq. by destruct (tab !! id). Qed.

(** What a device reports about NAT never takes a working way to reach it
    away: a NAT judgement keeps STUN and XMPP, a STUN report keeps direct
    reachability and XMPP; a device judged behind NAT is never left in a
    direct mode, and one no longer behind NAT is tried again. *)
Theorem reachability_is_never_downgraded tab id m now addr :
  mode_of tab id = Some m →
  (m = ModeSTUNAnnexG ∨ m = ModeXMPP →
     ∀ b, mode_of (ClassifyConnectionRequestNAT now id b tab) id = Some m) ∧
  (m = ModeDirectIPv4 ∨ m = ModeDirectIPv6 ∨ m = ModeXMPP →
     ∀ b, mode_of (UpdateSTUNStatus now id addr b tab) id = Some m) ∧
  (∃ m', mode_of (ClassifyConnectionRequestNAT now id true tab) id = Some m' ∧
     m' ∈ [ModePeriodicFallback; ModeSTUNAnnexG; ModeXMPP]) ∧
  mode_of (ClassifyConnectionRequestNAT now id false tab) id ≠ Some ModePeriodicFallback.
Proof.
  unfold ClassifyConnectionRequestNAT, UpdateSTUNStatus. setoid_rewrite mode_on_device.
  unfold mode_of. destruct (tab !! id) as [d|]; simpl; [|done]. intros [= Hm].
  split_and!.
  - intros Hk b. f_equal. unfold mode_in. rewrite Hm.
    destruct b, (d_behind_nat (d_reach d)) as [[]|], Hk as [-> | ->]; simpl; done.
  - intros Hk b. f_equal. unfold mode_in. rewrite Hm.
    destruct b, Hk as [-> |[-> | ->]]; simpl; done.
  - eexists. split; [reflexivity|]. unfold mode_in. rewrite Hm.
    apply (bool_decide_eq_true_1 _). by destruct m, (d_behind_nat (d_reach d)) as [[]|]; simpl; rewrite ?Hm.
  - unfold mode_in. rewrite Hm. by destruct m, (d_behind_nat (d_reach d)) as [[]|]; simpl; rewrite ?Hm.
Qed.

Definition w_xmpp : Devices := RecordConnectionRequestAttempt 10 "d-1" "OK" (Some ModeXMPP) w_devices.

Lemma reachability_is_never_downgraded_witness :
  mode_of (ClassifyConnectionRequestNAT 20 "d-1" true w_xmpp) "d-1" = Some ModeXMPP.
Proof.
  assert (mode_of w_xmpp "d-1" = Some ModeXMPP) as Hm by (vm_compute; reflexivity).
  destruct (reachability_is_never_downgraded w_xmpp "d-1" ModeXMPP 20 "" Hm) as [H _].
  exact (H (or_intror eq_refl) true).
Defined.
