(* ===== verification/Encoding.v ===== *)
(** * Text encodings of the Go library

    What the authentication code uses of [strings], [strconv], [encoding/hex]
    and [encoding/base64], on byte strings, with the round trips its callers
    rely on. *)

From S2P Require Import Prelude GoStrings.

(** ** [strings.Cut], [strings.SplitN], [strings.Trim] *)

(** [strings.Cut] on a one-byte separator. *)
Fixpoint Cut (s : string) (sep : ascii) : option (string * string) :=
  match s with
  | EmptyString => None
  | String c r =>
      if Ascii.eqb c sep then Some (EmptyString, r)
      else match Cut r sep with Some (a, b) => Some (String c a, b) | None => None end
  end.

(** [strings.SplitN(s, sep, 3)] when it gives three parts. *)
Definition SplitN3 (s : string) (sep : ascii) : option (string * string * string) :=
  match Cut s sep with
  | Some (a, r) => match Cut r sep with Some (b, c) => Some (a, b, c) | None => None end
  | None => None
  end.

Fixpoint trim_left_byte (c : ascii) (s : string) : string :=
  match s with
  | EmptyString => EmptyString
  | String d r => if Ascii.eqb d c then trim_left_byte c r else s
  end.

Fixpoint trim_right_byte (c : ascii) (s : string) : string :=
  match s with
  | EmptyString => EmptyString
  | String d r =>
      match trim_right_byte c r with
      | EmptyString => if Ascii.eqb d c then EmptyString else String d EmptyString
      | r' => String d r'
      end
  end.

(** [strings.Trim] on a one-byte cutset. *)
Definition TrimByte (c : ascii) (s : string) : string := trim_right_byte c (trim_left_byte c s).

(** ** Base 16: [strconv.FormatInt], [ParseInt], [ParseUint], [hex.EncodeToString] *)

Definition byte_value (c : ascii) : Z := Z.of_nat (nat_of_ascii c).
Definition byte_of (z : Z) : ascii := ascii_of_nat (Z.to_nat z).

Definition hex_digit (d : Z) : ascii := if d <? 10 then byte_of (48 + d) else byte_of (87 + d).

Definition hex_value (c : ascii) : option Z :=
  let v := byte_value c in
  if is_digit c then Some (v - 48)
  else if byte_between 97 102 c then Some (v - 87)
  else if byte_between 65 70 c then Some (v - 55)
  else None.

Fixpoint EncodeToString (s : string) : string :=
  match s with
  | EmptyString => EmptyString
  | String c r => String (hex_digit (byte_value c / 16)) (String (hex_digit (byte_value c mod 16)) (EncodeToString r))
  end.

(** Sixteen digits cover every 64-bit value. *)
Fixpoint hex_go (fuel : nat) (n : Z) (acc : string) : string :=
  match fuel with
  | O => acc
  | S f =>
      let acc' := String (hex_digit (n mod 16)) acc in
      if n <? 16 then acc' else hex_go f (n / 16) acc'
  end.

Definition FormatHex (z : Z) : string :=
  if z <? 0 then ("-" ++ hex_go 16 (- z) "")%string else hex_go 16 z "".

Fixpoint hex_number (acc : Z) (s : string) : option Z :=
  match s with
  | EmptyString => Some acc
  | String c r => match hex_value c with Some v => hex_number (16 * acc + v) r | None => None end
  end.

(** [strconv.ParseUint(s, 16, 64)] *)
Definition ParseUintHex (s : string) : option Z :=
  match s with
  | EmptyString => None
  | _ => match hex_number 0 s with
         | Some v => if v <? 2 ^ 64 then Some v else None
         | None => None
         end
  end.

(** [strconv.ParseInt(s, 16, 64)] *)
Definition ParseIntHex (s : string) : option Z :=
  let body sgn r :=
    match r with
    | EmptyString => None
    | _ => match hex_number 0 r with
           | Some v => if in_int64 (sgn * v) then Some (sgn * v) else None
           | None => None
           end
    end in
  match s with
  | String "-" r => body (-1) r
  | String "+" r => body 1 r
  | _ => body 1 s
  end.

(** ** Base 64 *)

Definition std_digit (d : Z) : ascii :=
  if d <? 26 then byte_of (65 + d) else if d <? 52 then byte_of (71 + d) else if d <? 62 then byte_of (d - 4)
  else if d =? 62 then "+"%char else "/"%char.

Definition url_digit (d : Z) : ascii :=
  if d =? 62 then "-"%char else if d =? 63 then "_"%char else std_digit d.

Definition alnum_value (c : ascii) : option Z :=
  let v := byte_value c in
  if is_upper c then Some (v - 65) else if is_lower c then Some (v - 71) else if is_digit c then Some (v + 4) else None.

Definition std_value (c : ascii) : option Z :=
  if Ascii.eqb c "+" then Some 62 else if Ascii.eqb c "/" then Some 63 else alnum_value c.
Definition url_value (c : ascii) : option Z :=
  if Ascii.eqb c "-" then Some 62 else if Ascii.eqb c "_" then Some 63 else alnum_value c.

(** [base64.RawURLEncoding.EncodeToString]: no padding. *)
Fixpoint EncodeRawURL (s : string) : string :=
  match s with
  | EmptyString => EmptyString
  | String a EmptyString =>
      let x := byte_value a in
      String (url_digit (x / 4)) (String (url_digit (x mod 4 * 16)) EmptyString)
  | String a (String b EmptyString) =>
      let x := byte_value a in
      let y := byte_value b in
      String (url_digit (x / 4)) (String (url_digit (x mod 4 * 16 + y / 16))
        (String (url_digit (y mod 16 * 4)) EmptyString))
  | String a (String b (String c r)) =>
      let x := byte_value a in
      let y := byte_value b in
      let z := byte_value c in
      String (url_digit (x / 4)) (String (url_digit (x mod 4 * 16 + y / 16))
        (String (url_digit (y mod 16 * 4 + z / 64)) (String (url_digit (z mod 64)) (EncodeRawURL r))))
  end.

(** Line breaks are skipped by the decoder. *)
Fixpoint drop_line_breaks (s : string) : string :=
  match s with
  | EmptyString => EmptyString
  | String c r => if Ascii.eqb c "010" || Ascii.eqb c "013" then drop_line_breaks r else String c (drop_line_breaks r)
  end.

Definition byte1 (a b : Z) : ascii := byte_of (a * 4 + b / 16).
Definition byte2 (b c : Z) : ascii := byte_of (b mod 16 * 16 + c / 4).
Definition byte3 (c d : Z) : ascii := byte_of (c mod 4 * 64 + d).

Section Decode.
Context (value : ascii → option Z) (padded : bool).

(** Groups of four; the last may be two or three digits, followed by its
    padding when the encoding has one. *)
Fixpoint decode_quanta (s : string) : option string :=
  match s with
  | EmptyString => Some EmptyString
  | String p (String q EmptyString) =>
      if padded then None
      else match value p, value q with Some a, Some b => Some (String (byte1 a b) EmptyString) | _, _ => None end
  | String p (String q (String r EmptyString)) =>
      if padded then None
      else match value p, value q, value r with
           | Some a, Some b, Some c => Some (String (byte1 a b) (String (byte2 b c) EmptyString))
           | _, _, _ => None
           end
  | String p (String q (String r (String t rest))) =>
      match value p, value q with
      | Some a, Some b =>
          match value r, value t with
          | Some c, Some d =>
              match decode_quanta rest with
              | Some out => Some (String (byte1 a b) (String (byte2 b c) (String (byte3 c d) out)))
              | None => None
              end
          | Some c, None =>
              if padded && Ascii.eqb t "=" && String.eqb rest ""
              then Some (String (byte1 a b) (String (byte2 b c) EmptyString)) else None
          | None, _ =>
              if padded && Ascii.eqb r "=" && Ascii.eqb t "=" && String.eqb rest ""
              then Some (String (byte1 a b) EmptyString) else None
          end
      | _, _ => None
      end
  | _ => None
  end.
End Decode.

(** [base64.StdEncoding.DecodeString] and [RawURLEncoding.DecodeString] *)
Definition DecodeStd (s : string) : option string := decode_quanta std_value true (drop_line_breaks s).
Definition DecodeRawURL (s : string) : option string := decode_quanta url_value false (drop_line_breaks s).

(** ** Round trips *)

Lemma byte_value_bounds c : 0 <= byte_value c < 256.
Proof. unfold byte_value. pose proof (nat_ascii_bounded c). lia. Qed.

Lemma byte_of_value c : byte_of (byte_value c) = c.
Proof. unfold byte_of, byte_value. rewrite Nat2Z.id. apply ascii_nat_embedding. Qed.

Lemma below_64 (P : Z → Prop) : Forall P (Z.of_nat <$> seq 0 64) → ∀ d, 0 <= d < 64 → P d.
Proof.
  intros H d Hd. rewrite Forall_forall in H. apply H. apply list_elem_of_fmap. exists (Z.to_nat d).
  split; [lia|]. apply elem_of_seq. lia.
Qed.

Lemma url_value_digit d : 0 <= d < 64 → url_value (url_digit d) = Some d.
Proof. revert d. apply below_64. repeat constructor. Qed.

Lemma url_digit_plain d : 0 <= d < 64 → Ascii.eqb (url_digit d) "010" || Ascii.eqb (url_digit d) "013" = false.
Proof. revert d. apply below_64. repeat constructor. Qed.

Lemma sextets x y z :
  0 <= x < 256 → 0 <= y < 256 → 0 <= z < 256 →
  (0 <= x / 4 < 64 ∧ 0 <= x mod 4 * 16 + y / 16 < 64 ∧ 0 <= y mod 16 * 4 + z / 64 < 64 ∧ 0 <= z mod 64 < 64) ∧
  x / 4 * 4 + (x mod 4 * 16 + y / 16) / 16 = x ∧
  (x mod 4 * 16 + y / 16) mod 16 * 16 + (y mod 16 * 4 + z / 64) / 4 = y ∧
  (y mod 16 * 4 + z / 64) mod 4 * 64 + z mod 64 = z.
Proof. intros. Z.to_euclidean_division_equations. lia. Qed.

(** Three bytes at a time. *)
Lemma string_ind3 (P : string → Prop) :
  P "" → (∀ a, P (String a "")) → (∀ a b, P (String a (String b ""))) →
  (∀ a b c s, P s → P (String a (String b (String c s)))) → ∀ s, P s.
Proof.
  intros H0 H1 H2 H3 s. enough (P s ∧ (∀ a, P (String a s)) ∧ (∀ a b, P (String a (String b s)))) as [H _] by exact H.
  induction s as [|c s (Ha & Hb & Hc)]; [auto|]. split_and!; auto.
Qed.

Lemma drop_line_breaks_digit d s :
  0 <= d < 64 → drop_line_breaks (String (url_digit d) s) = String (url_digit d) (drop_line_breaks s).
Proof. intros Hd. simpl. by rewrite (url_digit_plain d Hd). Qed.

Lemma DecodeRawURL_EncodeRawURL s : DecodeRawURL (EncodeRawURL s) = Some s.
Proof.
  unfold DecodeRawURL. induction s as [|a|a b|a b c s IH] using string_ind3.
  - done.
  - pose proof (byte_value_bounds a). destruct (sextets (byte_value a) 0 0 ltac:(done) ltac:(done) ltac:(done))
      as ((B1 & B2 & _) & E1 & _).
    rewrite Z.div_0_l, Z.add_0_r in * by done.
    cbn [EncodeRawURL]. rewrite !drop_line_breaks_digit by done. simpl. rewrite !url_value_digit by done.
    unfold byte1. by rewrite E1, byte_of_value.
  - pose proof (byte_value_bounds a). pose proof (byte_value_bounds b).
    destruct (sextets (byte_value a) (byte_value b) 0 ltac:(done) ltac:(done) ltac:(done)) as ((B1 & B2 & B3 & _) & E1 & E2 & _).
    rewrite (Z.div_0_l 64), Z.add_0_r in * by done.
    cbn [EncodeRawURL]. rewrite !drop_line_breaks_digit by done. simpl. rewrite !url_value_digit by done.
    unfold byte1, byte2. by rewrite E1, E2, !byte_of_value.
  - pose proof (byte_value_bounds a). pose proof (byte_value_bounds b). pose proof (byte_value_bounds c).
    destruct (sextets (byte_value a) (byte_value b) (byte_value c) ltac:(done) ltac:(done) ltac:(done))
      as ((B1 & B2 & B3 & B4) & E1 & E2 & E3).
    cbn [EncodeRawURL]. rewrite !drop_line_breaks_digit by done. cbn [decode_quanta]. rewrite !url_value_digit by done.
    rewrite IH. unfold byte1, byte2, byte3. by rewrite E1, E2, E3, !byte_of_value.
Qed.

Lemma Cut_app a b sep : byte_in sep a = false → Cut (a ++ String sep b) sep = Some (a, b).
Proof.
  induction a as [|c a IH]; simpl; [by rewrite Ascii.eqb_refl|]. rewrite orb_false_iff. intros [Hc Ha].
  rewrite Ascii.eqb_sym, Hc. by rewrite IH.
Qed.

Lemma Cut_spec s sep a b : Cut s sep = Some (a, b) → s = (a ++ String sep b)%string ∧ byte_in sep a = false.
Proof.
  revert a. induction s as [|c s IH]; simpl; [done|]. intros a.
  destruct (Ascii.eqb_spec c sep) as [->|Hn]; [by intros [= <- <-]|].
  destruct (Cut s sep) as [[a' b']|]; [|done]. intros [= <- <-]. destruct (IH _ eq_refl) as [-> Ha]. split; [done|].
  simpl. rewrite Ha, Ascii.eqb_sym. by rewrite (proj2 (Ascii.eqb_neq c sep) Hn).
Qed.

(** ** Reading hexadecimal text *)

(** [encoding/hex.DecodeString] *)
Fixpoint DecodeString (s : string) : option string :=
  match s with
  | EmptyString => Some EmptyString
  | String a (String b r) =>
      match hex_value a, hex_value b, DecodeString r with
      | Some x, Some y, Some t => Some (String (byte_of (x * 16 + y)) t)
      | _, _, _ => None
      end
  | _ => None
  end.

Lemma byte_of_nibbles x y : 0 <= x < 16 → 0 <= y < 16 →
  hex_value (hex_digit x) = Some x ∧ hex_value (hex_digit y) = Some y.
Proof.
  assert (∀ d, 0 <= d < 16 → hex_value (hex_digit d) = Some d) as H; [|auto].
  intros d Hd. assert (d = 0 ∨ d = 1 ∨ d = 2 ∨ d = 3 ∨ d = 4 ∨ d = 5 ∨ d = 6 ∨ d = 7 ∨ d = 8 ∨ d = 9 ∨ d = 10 ∨
    d = 11 ∨ d = 12 ∨ d = 13 ∨ d = 14 ∨ d = 15) as Hc by lia.
  by repeat (destruct Hc as [->|Hc]; [reflexivity|]); subst.
Qed.

Lemma DecodeString_EncodeToString s : DecodeString (EncodeToString s) = Some s.
Proof.
  induction s as [|c s IH]; [done|]. cbn [EncodeToString DecodeString].
  pose proof (byte_value_bounds c). destruct (byte_of_nibbles (byte_value c / 16) (byte_value c mod 16)) as [-> ->];
    [Z.to_euclidean_division_equations; lia..|].
  rewrite IH. rewrite <- (Z.mul_comm 16), <- Z.div_mod by lia. by rewrite byte_of_value.
Qed.
