(* ===== verification/NetGuard.v ===== *)
(** * IP literals and outbound targets ([internal/netguard])

    [net.ParseIP], [net.ParseCIDR] and [net.SplitHostPort] as the code uses
    them, and the policy on the addresses operators may make the server dial.
    An address is its 128-bit number; an IPv4 address is its IPv4-mapped form,
    as in [net.IP]. *)

From S2P Require Import Prelude GoStrings Encoding.

(** ** Literals *)

Definition v4_prefix : Z := 65535.
Definition is_v4 (ip : Z) : bool := Z.shiftr ip 32 =? v4_prefix.
Definition of_v4 (n : Z) : Z := Z.shiftl v4_prefix 32 + n.
Definition v4_of (ip : Z) : Z := ip mod 2 ^ 32.

(** A decimal byte without leading zeros. *)
Definition v4_field (s : string) : option Z :=
  match s with
  | EmptyString => None
  | String c r =>
      if Ascii.eqb c "0" && negb (String.eqb r "") then None
      else match digits_value 0 s with
           | Some v => if v <=? 255 then Some v else None
           | None => None
           end
  end.

Definition parse_v4 (s : string) : option Z :=
  match Split s "." with
  | [a; b; c; d] =>
      match v4_field a, v4_field b, v4_field c, v4_field d with
      | Some a, Some b, Some c, Some d => Some (((a * 256 + b) * 256 + c) * 256 + d)
      | _, _, _, _ => None
      end
  | _ => None
  end.

(** At most four hexadecimal digits, and the rest. *)
Fixpoint hex_field (fuel : nat) (acc : Z) (s : string) : option (Z * string) :=
  match s with
  | String c r =>
      match hex_value c with
      | Some v => match fuel with O => None | S f => hex_field f (16 * acc + v) r end
      | None => Some (acc, s)
      end
  | EmptyString => Some (acc, s)
  end.

(** The groups read so far and where [::] was. Eight groups at most, so nine
    turns are enough. *)
Fixpoint parse_groups (fuel : nat) (groups : list Z) (ellipsis : option nat) (s : string)
  : option (list Z * option nat) :=
  match fuel with
  | O => None
  | S f =>
      if (8 <=? length groups)%nat then (if String.eqb s "" then Some (groups, ellipsis) else None)
      else
        match hex_field 4 0 s with
        | None => None
        | Some (v, rest) =>
            if (String.length rest =? String.length s)%nat then None
            else
              match rest with
              | String "." _ =>
                  if match ellipsis with None => negb (length groups =? 6)%nat | Some _ => (7 <=? length groups)%nat end
                  then None
                  else match parse_v4 s with
                       | Some n => Some (groups ++ [n / 65536; n mod 65536], ellipsis)
                       | None => None
                       end
              | EmptyString => Some (groups ++ [v], ellipsis)
              | String ":" (String ":" rest') =>
                  match ellipsis with
                  | Some _ => None
                  | None =>
                      let groups' := groups ++ [v] in
                      if String.eqb rest' "" then Some (groups', Some (length groups'))
                      else parse_groups f groups' (Some (length groups')) rest'
                  end
              | String ":" EmptyString => None
              | String ":" rest' => parse_groups f (groups ++ [v]) ellipsis rest'
              | _ => None
              end
        end
  end.

Definition groups_value (groups : list Z) : Z := foldl (λ acc g, acc * 65536 + g) 0 groups.

Definition expand (groups : list Z) (ellipsis : option nat) : option (list Z) :=
  let n := length groups in
  match ellipsis with
  | None => if (n =? 8)%nat then Some groups else None
  | Some i => if (n <? 8)%nat then Some (take i groups ++ replicate (8 - n) 0 ++ drop i groups) else None
  end.

Definition parse_v6 (s : string) : option Z :=
  let parsed :=
    match CutPrefix s "::" with
    | Some EmptyString => Some ([], Some 0%nat)
    | Some rest => parse_groups 9 [] (Some 0%nat) rest
    | None => parse_groups 9 [] None s
    end in
  match parsed with
  | Some (groups, ellipsis) =>
      match expand groups ellipsis with Some l => Some (groups_value l) | None => None end
  | None => None
  end.

(** The first of [.], [:] and [%] decides. *)
Fixpoint addr_kind (s : string) : option ascii :=
  match s with
  | EmptyString => None
  | String c r => if Ascii.eqb c "." || Ascii.eqb c ":" || Ascii.eqb c "%" then Some c else addr_kind r
  end.

Definition ParseIP (s : string) : option Z :=
  match addr_kind s with
  | Some "."%char => match parse_v4 s with Some n => Some (of_v4 n) | None => None end
  | Some ":"%char => parse_v6 s
  | _ => None
  end.

(** A network: its address and the length of its prefix, of 128 bits. *)
Record IPNet : Type := mkIPNet { net_base : Z; net_bits : Z }.

Definition ParseCIDR (s : string) : option IPNet :=
  match Cut s "/" with
  | None => None
  | Some (addr, mask) =>
      match ParseIP addr, mask with
      | Some ip, String _ _ =>
          match digits_value 0 mask with
          | Some n =>
              let v4 := match addr_kind addr with Some "."%char => true | _ => false end in
              if n <=? (if v4 then 32 else 128)
              then let bits := if v4 then 96 + n else n in
                   Some (mkIPNet (Z.shiftl (Z.shiftr ip (128 - bits)) (128 - bits)) bits)
              else None
          | None => None
          end
      | _, _ => None
      end
  end.

Definition net_contains (n : IPNet) (ip : Z) : bool :=
  Bool.eqb (is_v4 (net_base n)) (is_v4 ip)
  && (Z.shiftr ip (128 - net_bits n) =? Z.shiftr (net_base n) (128 - net_bits n)).

(** [host:port] or [[host]:port]. *)
Fixpoint last_colon (s : string) : option (string * string) :=
  match s with
  | EmptyString => None
  | String c r =>
      match last_colon r with
      | Some (a, b) => Some (String c a, b)
      | None => if Ascii.eqb c ":" then Some (EmptyString, r) else None
      end
  end.

Definition SplitHostPort (s : string) : option (string * string) :=
  match last_colon s with
  | None => None
  | Some (before, port) =>
      match s with
      | String "[" r =>
          match Cut r "]" with
          | None => None
          | Some (host, rest) =>
              if negb (String.eqb rest (String ":" port)) then None
              else if byte_in "[" host || byte_in "[" rest || byte_in "]" rest then None
              else Some (host, port)
          end
      | _ =>
          if byte_in ":" before || byte_in "[" s || byte_in "]" s then None
          else Some (before, port)
      end
  end.

(** ** The policy *)

Record Policy : Type := mkPolicy { AllowedCIDRs : list IPNet }.

Fixpoint parse_parts (parts : list string) : result (list IPNet) :=
  match parts with
  | [] => Ok []
  | p :: rest =>
      if String.eqb p "" then parse_parts rest
      else match ParseCIDR p with
           | None => Err ("invalid CIDR " ++ p)%string
           | Some n => match parse_parts rest with Ok l => Ok (n :: l) | Err e => Err e end
           end
  end.

Definition ParseCIDRList (s : string) : result (list IPNet) := parse_parts (Split s ",").

Definition IsLoopback (ip : Z) : bool := if is_v4 ip then Z.shiftr (v4_of ip) 24 =? 127 else ip =? 1.
Definition IsLinkLocalUnicast (ip : Z) : bool :=
  if is_v4 ip then Z.shiftr (v4_of ip) 16 =? 169 * 256 + 254 else Z.shiftr ip 118 =? 1018.
Definition IsLinkLocalMulticast (ip : Z) : bool :=
  if is_v4 ip then Z.shiftr (v4_of ip) 8 =? 224 * 65536
  else (Z.shiftr ip 120 =? 255) && (Z.land (Z.shiftr ip 112) 15 =? 2).
Definition IsMulticast (ip : Z) : bool :=
  if is_v4 ip then Z.shiftr (v4_of ip) 28 =? 14 else Z.shiftr ip 120 =? 255.
Definition IsUnspecified (ip : Z) : bool := if is_v4 ip then v4_of ip =? 0 else ip =? 0.

Definition forbidden (ip : Z) : bool :=
  IsLoopback ip || IsLinkLocalUnicast ip || IsLinkLocalMulticast ip || IsMulticast ip || IsUnspecified ip.

Definition CheckIP (p : Policy) (ip : option Z) : result unit :=
  match ip with
  | None => Err "target address is not an IP"
  | Some ip =>
      if IsLoopback ip then Err "target is a loopback address"
      else if IsLinkLocalUnicast ip || IsLinkLocalMulticast ip then Err "target is a link-local address"
      else if IsMulticast ip then Err "target is a multicast address"
      else if IsUnspecified ip then Err "target is the unspecified address"
      else match AllowedCIDRs p with
           | [] => Ok tt
           | nets => if existsb (λ n, net_contains n ip) nets then Ok tt
                     else Err "target is outside the allowed device networks"
           end
  end.

Fixpoint check_all (p : Policy) (ips : list (option Z)) : result unit :=
  match ips with
  | [] => Ok tt
  | ip :: rest => match CheckIP p ip with Ok _ => check_all p rest | Err e => Err e end
  end.

(** [resolve] is the resolver's answer: the addresses, or an error. *)
Definition CheckHost (resolve : string → result (list (option Z))) (p : Policy) (host : string) : result unit :=
  match ParseIP host with
  | Some ip => CheckIP p (Some ip)
  | None =>
      match resolve host with
      | Err e => Err e
      | Ok [] => Err "resolved to no addresses"
      | Ok addrs => check_all p addrs
      end
  end.

Definition DialControl (p : Policy) (address : string) : result unit :=
  match SplitHostPort address with
  | None => Err "split dial address"
  | Some (host, _) => CheckIP p (ParseIP host)
  end.

(** ** Theorems *)

Definition in_policy (p : Policy) (ip : Z) : Prop :=
  forbidden ip = false ∧ (AllowedCIDRs p ≠ [] → ∃ n, n ∈ AllowedCIDRs p ∧ net_contains n ip = true).

Lemma CheckIP_ok p ip : CheckIP p ip = Ok tt ↔ ∃ a, ip = Some a ∧ in_policy p a.
Proof.
  unfold CheckIP, in_policy, forbidden. destruct ip as [a|]; [|split; [done|by intros (? & ? & _)]].
  destruct (IsLoopback a) eqn:E1; [split; [done|intros (? & [= <-] & H & _); rewrite E1 in H; done]|].
  destruct (IsLinkLocalUnicast a) eqn:E2; [split; [done|intros (? & [= <-] & H & _); rewrite E1, E2 in H; done]|].
  destruct (IsLinkLocalMulticast a) eqn:E3; [split; [done|intros (? & [= <-] & H & _); rewrite E1, E2, E3 in H; done]|].
  cbn [orb]. destruct (IsMulticast a) eqn:E4; [split; [done|intros (? & [= <-] & H & _); rewrite E1, E2, E3, E4 in H; done]|].
  destruct (IsUnspecified a) eqn:E5; [split; [done|intros (? & [= <-] & H & _); rewrite E1, E2, E3, E4, E5 in H; done]|].
  destruct (AllowedCIDRs p) as [|n nets] eqn:En.
  - split; [|done]. intros _. exists a. split; [done|]. by rewrite E1, E2, E3, E4, E5.
  - destruct (existsb _ _) eqn:Ex.
    + split; [|done]. intros _. exists a. split; [done|]. rewrite E1, E2, E3, E4, E5. split; [done|]. intros _.
      apply existsb_exists in Ex as (m & Hm & Hc). exists m. split; [by apply list_elem_of_In|done].
    + split; [done|]. intros (? & [= <-] & _ & H). destruct (H ltac:(done)) as (m & Hm & Hc).
      enough (existsb (λ n, net_contains n a) (n :: nets) = true) by congruence.
      apply existsb_exists. exists m. split; [by apply list_elem_of_In|done].
Qed.

Lemma check_all_ok p ips : check_all p ips = Ok tt ↔ Forall (λ ip, CheckIP p ip = Ok tt) ips.
Proof.
  induction ips as [|ip ips IH]; [done|]. simpl. rewrite Forall_cons, <- IH. destruct (CheckIP p ip) as [[]|]; naive_solver.
Qed.

(** A connection an operator causes goes to a permitted address only.  The
    check at dial time accepts exactly the literal addresses that are neither
    loopback, link-local (the metadata service included), multicast nor
    unspecified, and are inside an allowed network when there is a list; and a
    name passes the check before dialling only if every address it resolves to
    is such an address. *)
Theorem dialled_address_is_permitted p address resolve host :
  (DialControl p address = Ok tt ↔
     ∃ h port ip, SplitHostPort address = Some (h, port) ∧ ParseIP h = Some ip ∧ in_policy p ip) ∧
  (CheckHost resolve p host = Ok tt ↔
     match ParseIP host with
     | Some ip => in_policy p ip
     | None => ∃ addrs, resolve host = Ok addrs ∧ addrs ≠ [] ∧ Forall (λ a, ∃ ip, a = Some ip ∧ in_policy p ip) addrs
     end).
Proof.
  split.
  - unfold DialControl. destruct (SplitHostPort address) as [[h port]|].
    + rewrite CheckIP_ok. naive_solver.
    + split; [done|]. by intros (? & ? & ? & ? & _).
  - unfold CheckHost. destruct (ParseIP host) as [ip|]; [rewrite CheckIP_ok; naive_solver|].
    destruct (resolve host) as [addrs|e]; [|split; [done|by intros (? & ? & _)]].
    destruct addrs as [|a l]; [split; [done|by intros (? & [= <-] & ? & _)]|].
    rewrite check_all_ok. setoid_rewrite CheckIP_ok. split; [intros H; by exists (a :: l)|by intros (? & [= <-] & _ & H)].
Qed.

(** The address of the metadata service is refused under every policy. *)
Example metadata_refused p : is_ok (DialControl p "169.254.169.254:80") = false.
Proof. reflexivity. Qed.
Example v6_literals :
  (ParseIP "2001:db8::1", ParseIP "::", ParseIP "::ffff:10.0.0.1", ParseIP "1::2::3", ParseIP "fe80::1%eth0",
   ParseIP "010.0.0.1", ParseIP "1:2:3:4:5:6:7::", ParseIP "1:2:3:4:5:6:7:8:9")
  = (Some 42540766411282592856903984951653826561, Some 0, Some (of_v4 167772161), None, None,
     None, Some 5192455318486707404433266433261568, None).
Proof. vm_compute. reflexivity. Qed.
