(* ===== verification/Credentials.v ===== *)
(** * Device credentials ([internal/credentials])

    The [device_credentials] table: versions of a credential per device and
    type, each PENDING, ACTIVE, GRACE or REVOKED.  Passwords are kept as the
    repository returns them: encryption at rest is transparent, and a row that
    does not decrypt under the configured key is not modelled.  Random
    usernames and passwords are arguments. *)

From S2P Require Import Prelude GoStrings Devices.

Inductive CredentialType : Type := TypeConnectionRequestCredential | TypeCWMPDigest | TypeXMPP.
Inductive CredentialStatus : Type := CredPending | CredActive | CredGrace | CredRevoked.

#[global] Instance CredentialType_eq_dec : EqDecision CredentialType.
Proof. solve_decision. Defined.
#[global] Instance CredentialStatus_eq_dec : EqDecision CredentialStatus.
Proof. solve_decision. Defined.

Record Credential : Type := mkCredential {
  cr_ID : string;
  cr_DeviceID : string;
  cr_Type : CredentialType;
  cr_Version : Z;
  cr_Username : string;
  cr_Password : string;
  cr_Status : CredentialStatus;
  cr_CommandKey : string;
  cr_CreatedAt : GoTime;
  cr_ActivatedAt : option GoTime;
  cr_RevokedAt : option GoTime
}.

Abbreviation Credentials := (gmap string Credential).

Definition ErrCredentialNotFound : string := "credential not found".

Definition ValidType (t : CredentialType) : bool :=
  match t with TypeConnectionRequestCredential | TypeCWMPDigest => true | TypeXMPP => false end.

Definition of_device (dev : string) (t : CredentialType) (c : Credential) : bool :=
  String.eqb (cr_DeviceID c) dev && bool_decide (cr_Type c = t).

Definition has_status (st : CredentialStatus) (c : Credential) : bool := bool_decide (cr_Status c = st).

(** [ORDER BY version DESC LIMIT 1] *)
Definition newest (p : Credential → bool) (tab : Credentials) : option Credential :=
  oldest (λ c, - cr_Version c) (List.filter p (rows tab)).

Definition PendingForDevice (tab : Credentials) (dev : string) (t : CredentialType) : option Credential :=
  newest (λ c, of_device dev t c && has_status CredPending c) tab.

Definition ActiveForDevice (tab : Credentials) (dev : string) (t : CredentialType) : option Credential :=
  List.find (λ c, of_device dev t c && has_status CredActive c) (rows tab).

Definition live (c : Credential) : bool := negb (has_status CredRevoked c).

Definition LookupCWMPDigest (tab : Credentials) (username : string) : option Credential :=
  newest (λ c, bool_decide (cr_Type c = TypeCWMPDigest) && String.eqb (cr_Username c) username && live c) tab.

(** [COALESCE(MAX(version), 0) + 1] *)
Definition next_version (dev : string) (t : CredentialType) (tab : Credentials) : Z :=
  foldr (λ c m, Z.max (cr_Version c) m) 0 (List.filter (of_device dev t) (rows tab)) + 1.

(** The unique versions of a device and type, and the partial unique index on
    pending Digest credentials; the index on active ones cannot be violated by
    inserting a pending row. *)
Definition version_free (tab : Credentials) (c : Credential) : bool :=
  forallb (λ r, negb (of_device (cr_DeviceID c) (cr_Type c) r && (cr_Version r =? cr_Version c))) (rows tab).

Definition one_pending_ok (tab : Credentials) (c : Credential) : bool :=
  negb (bool_decide (cr_Type c = TypeCWMPDigest))
  || forallb (λ r, negb (of_device (cr_DeviceID c) TypeCWMPDigest r && has_status CredPending r)) (rows tab).

Definition insert_credential (devices : Devices) (c : Credential) (tab : Credentials)
  : result Credential * Credentials :=
  if negb (is_some (devices !! cr_DeviceID c)) then (Err "foreign key violation", tab)
  else if is_some (tab !! cr_ID c) || negb (version_free tab c) || negb (one_pending_ok tab c)
  then (Err "duplicate key value violates unique constraint", tab)
  else (Ok c, <[cr_ID c := c]> tab).

Definition CreateCredential (uuid : string) (now : GoTime) (dev : string) (t : CredentialType)
    (username password commandKey : string) (devices : Devices) (tab : Credentials)
  : result Credential * Credentials :=
  insert_credential devices
    (mkCredential uuid dev t (next_version dev t tab) username password CredPending commandKey now None None) tab.

(** [strings.ReplaceAll(s, "-", "")] *)
Fixpoint drop_dashes (s : string) : string :=
  match s with
  | EmptyString => EmptyString
  | String c r => if Ascii.eqb c "-" then drop_dashes r else String c (drop_dashes r)
  end.

(** ["bootstrap-"] and 22 hex digits of the id, a UUID. *)
Definition bootstrapCommandKey (id : string) : string :=
  ("bootstrap-" ++ String.substring 0 22 (drop_dashes id))%string.

Definition EnsurePendingCWMPDigest (uuid : string) (now : GoTime) (dev username password : string)
    (devices : Devices) (tab : Credentials) : result Credential * Credentials :=
  if negb (is_some (devices !! dev)) then (Err ErrCredentialNotFound, tab)
  else match PendingForDevice tab dev TypeCWMPDigest with
       | Some c => (Ok c, tab)
       | None => CreateCredential uuid now dev TypeCWMPDigest username password (bootstrapCommandKey uuid) devices tab
       end.

Definition set_cred_status (st : CredentialStatus) (activated revoked : option GoTime) (c : Credential) : Credential :=
  mkCredential (cr_ID c) (cr_DeviceID c) (cr_Type c) (cr_Version c) (cr_Username c) (cr_Password c) st (cr_CommandKey c)
    (cr_CreatedAt c) activated revoked.

Definition credential_by_id (id : string) (tab : Credentials) : result Credential :=
  match tab !! id with Some c => Ok c | None => Err ErrCredentialNotFound end.

(** [Activate]: the credential becomes ACTIVE and the one that was becomes
    GRACE, in one transaction. *)
Definition demote (c : Credential) : Credential := set_cred_status CredGrace (cr_ActivatedAt c) None c.
Definition promote (now : GoTime) (c : Credential) : Credential :=
  set_cred_status CredActive (Some now) (cr_RevokedAt c) c.

Definition Activate (now : GoTime) (id : string) (tab : Credentials) : result Credential * Credentials :=
  match tab !! id with
  | None => (Err ErrCredentialNotFound, tab)
  | Some c =>
      let tab1 := (update_where (λ r, of_device (cr_DeviceID c) (cr_Type c) r && has_status CredActive r) demote tab).1 in
      let tab2 := (update_key id (λ _, true) (promote now) tab1).1 in
      (credential_by_id id tab2, tab2)
  end.

Definition Revoke (now : GoTime) (id : string) (tab : Credentials) : result Credential * Credentials :=
  let '(tab', n) := update_key id (λ c, has_status CredGrace c || has_status CredPending c)
    (λ c, set_cred_status CredRevoked (cr_ActivatedAt c) (Some now) c) tab in
  if n =? 0 then (Err ErrCredentialNotFound, tab) else (credential_by_id id tab', tab').

(** [OnAuthenticated] ([cmd/acs/main.go]): the first use of a pending
    credential activates it and closes the re-enrolment window. *)
Definition OnAuthenticated (now : GoTime) (username : string) (tab : Credentials) (devices : Devices)
  : Credentials * Devices :=
  match LookupCWMPDigest tab username with
  | Some c =>
      if has_status CredPending c then
        match Activate now (cr_ID c) tab with
        | (Ok _, tab') => (tab', CloseReenrollment now (cr_DeviceID c) devices)
        | (Err _, tab') => (tab', devices)
        end
      else (tab, devices)
  | None => (tab, devices)
  end.

(** ** The rotation invariant *)

Record credentials_ok (tab : Credentials) : Prop := mk_credentials_ok {
  cred_keyed : map_Forall (λ k c, cr_ID c = k) tab;
  cred_one_active : ∀ k1 k2 c1 c2, tab !! k1 = Some c1 → tab !! k2 = Some c2 →
    cr_DeviceID c1 = cr_DeviceID c2 → cr_Type c1 = cr_Type c2 →
    cr_Status c1 = CredActive → cr_Status c2 = CredActive → k1 = k2;
  cred_one_pending : ∀ k1 k2 c1 c2, tab !! k1 = Some c1 → tab !! k2 = Some c2 →
    cr_DeviceID c1 = cr_DeviceID c2 → cr_Type c1 = TypeCWMPDigest → cr_Type c2 = TypeCWMPDigest →
    cr_Status c1 = CredPending → cr_Status c2 = CredPending → k1 = k2;
  cred_versions : ∀ k1 k2 c1 c2, tab !! k1 = Some c1 → tab !! k2 = Some c2 →
    cr_DeviceID c1 = cr_DeviceID c2 → cr_Type c1 = cr_Type c2 → cr_Version c1 = cr_Version c2 → k1 = k2
}.

Lemma credentials_ok_empty : credentials_ok ∅.
Proof. split; [apply map_Forall_empty|..]; intros *; by rewrite lookup_empty. Qed.

(** Rows rewritten in place, status aside. *)
Definition same_credential (c c' : Credential) : Prop :=
  cr_ID c' = cr_ID c ∧ cr_DeviceID c' = cr_DeviceID c ∧ cr_Type c' = cr_Type c ∧ cr_Version c' = cr_Version c ∧
  cr_Username c' = cr_Username c.

Lemma credentials_ok_rewrite (tab tab' : Credentials) :
  credentials_ok tab →
  (∀ k c', tab' !! k = Some c' → ∃ c, tab !! k = Some c ∧ same_credential c c' ∧
     (cr_Status c' = CredPending → cr_Status c = CredPending)) →
  (∀ k1 k2 c1 c2, tab' !! k1 = Some c1 → tab' !! k2 = Some c2 → cr_DeviceID c1 = cr_DeviceID c2 →
     cr_Type c1 = cr_Type c2 → cr_Status c1 = CredActive → cr_Status c2 = CredActive → k1 = k2) →
  credentials_ok tab'.
Proof.
  intros [Hk Ha Hp Hv] Hb Ha'. split; [|done|..].
  - intros k c' H. destruct (Hb _ _ H) as (c & Hc & (-> & _) & _). by apply Hk.
  - intros k1 k2 c1 c2 H1 H2 Hd Ht1 Ht2 Hs1 Hs2.
    destruct (Hb _ _ H1) as (d1 & G1 & (_ & D1 & T1 & _) & S1), (Hb _ _ H2) as (d2 & G2 & (_ & D2 & T2 & _) & S2).
    eapply (Hp k1 k2 d1 d2); eauto; congruence.
  - intros k1 k2 c1 c2 H1 H2 Hd Ht Hve.
    destruct (Hb _ _ H1) as (d1 & G1 & (_ & D1 & T1 & V1 & _) & _), (Hb _ _ H2) as (d2 & G2 & (_ & D2 & T2 & V2 & _) & _).
    eapply (Hv k1 k2 d1 d2); eauto; congruence.
Qed.

Lemma next_version_above dev t (tab : Credentials) k c :
  tab !! k = Some c → cr_DeviceID c = dev → cr_Type c = t → cr_Version c < next_version dev t tab.
Proof.
  intros Hc Hd Ht. unfold next_version.
  assert (In c (List.filter (of_device dev t) (rows tab))) as Hin.
  { apply filter_In. split; [apply list_elem_of_In, elem_of_rows; eauto|].
    unfold of_device. rewrite Hd, Ht, String.eqb_refl. by rewrite bool_decide_true. }
  revert Hin. generalize (List.filter (of_device dev t) (rows tab)) as l.
  induction l as [|x l IH]; [done|]. simpl. intros [->|Hin]; [lia|]. specialize (IH Hin). lia.
Qed.

Lemma credentials_ok_create uuid now dev t u p ck devices tab :
  credentials_ok tab → credentials_ok (CreateCredential uuid now dev t u p ck devices tab).2.
Proof.
  intros [Hk Ha Hp Hv]. unfold CreateCredential, insert_credential. set (c := mkCredential _ _ _ _ _ _ _ _ _ _ _).
  destruct (negb _); [done|]. destruct (_ || _) eqn:E; [done|]. bool_to_prop. simpl.
  assert (tab !! uuid = None) as Hn by (change (is_some (tab !! uuid) = false) in H; by destruct (tab !! uuid)).
  assert (∀ k r, tab !! k = Some r → cr_DeviceID r = dev → cr_Type r = t → t = TypeCWMPDigest →
    cr_Status r = CredPending → False) as Hpend.
  { intros k r Hr Hd Ht Htd Hs. unfold one_pending_ok in *. bool_to_prop. destruct H0 as [H0|H0]; bool_to_prop; [by apply H0|].
    rewrite forallb_forall in H0. specialize (H0 r ltac:(apply list_elem_of_In, elem_of_rows; eauto)).
    unfold of_device, has_status in H0. simpl in H0. rewrite Hd, Ht, Htd, Hs, String.eqb_refl in H0. done. }
  split.
  - by apply map_Forall_insert_2.
  - intros k1 k2 c1 c2. rewrite !lookup_insert. do 2 case_decide; intros; simplify_eq/=; eauto; done.
  - intros k1 k2 c1 c2. rewrite !lookup_insert. do 2 case_decide; intros; simplify_eq/=; eauto; exfalso; eauto using eq_sym.
  - intros k1 k2 c1 c2. rewrite !lookup_insert. do 2 case_decide; intros; simplify_eq/=; eauto; exfalso.
    + pose proof (next_version_above _ _ tab k2 c2 ltac:(done) eq_refl eq_refl). lia.
    + pose proof (next_version_above _ _ tab k1 c1 ltac:(done) eq_refl eq_refl). lia.
Qed.

(** What [Activate] does to each row. *)
Definition activated (now : GoTime) (c : Credential) (r : Credential) : Credential :=
  let r1 := if of_device (cr_DeviceID c) (cr_Type c) r && has_status CredActive r then demote r else r in
  if String.eqb (cr_ID r) (cr_ID c) then promote now r1 else r1.

Lemma Activate_rows now id tab c :
  credentials_ok tab → tab !! id = Some c →
  Activate now id tab = (Ok (activated now c c), activated now c <$> tab).
Proof.
  intros Hok Hc. pose proof (cred_keyed _ Hok _ _ Hc) as Hid. simpl in Hid. unfold Activate. rewrite Hc. cbv zeta.
  set (tab1 := (update_where _ demote tab).1). set (tab2 := (update_key id _ (promote now) tab1).1).
  assert (tab2 = activated now c <$> tab) as ->.
  { apply map_eq. intros k. subst tab2 tab1. rewrite lookup_update_key, lookup_update_where, lookup_fmap.
    destruct (tab !! k) as [r|] eqn:Hr; simpl; [|by case_decide]. pose proof (cred_keyed _ Hok _ _ Hr) as Hkr.
    simpl in Hkr. unfold activated. rewrite Hkr, Hid. destruct (decide (id = k)) as [<-|Hd].
    - by rewrite String.eqb_refl.
    - destruct (String.eqb_spec k id); [congruence|done]. }
  unfold credential_by_id. by rewrite lookup_fmap, Hc.
Qed.

Lemma credentials_ok_activate now id tab : credentials_ok tab → credentials_ok (Activate now id tab).2.
Proof.
  intros Hok. destruct (tab !! id) as [c|] eqn:Hc; [|unfold Activate; by rewrite Hc].
  rewrite (Activate_rows now id tab c Hok Hc). simpl. eapply credentials_ok_rewrite; [exact Hok|..].
  - intros k c'. rewrite lookup_fmap. destruct (tab !! k) as [r|] eqn:Hr; simpl; [|done]. intros [= <-]. exists r.
    unfold activated. split; [done|].
    destruct (_ && _) eqn:E; destruct (String.eqb _ _); split; try done.
  - assert (∀ k r, tab !! k = Some r → cr_Status (activated now c r) = CredActive →
      r = c ∨ cr_Status r = CredActive ∧ of_device (cr_DeviceID c) (cr_Type c) r = false) as Hact.
    { intros k r Hr. unfold activated. destruct (String.eqb_spec (cr_ID r) (cr_ID c)) as [He|].
      - intros _. left. pose proof (cred_keyed _ Hok _ _ Hr) as K1. pose proof (cred_keyed _ Hok _ _ Hc) as K2.
        simpl in *. assert (k = id) as -> by congruence. congruence.
      - unfold has_status. destruct (of_device _ _ r) eqn:Eo; simpl; [|auto].
        destruct (bool_decide_reflect (cr_Status r = CredActive)); done. }
    assert (∀ r, cr_DeviceID (activated now c r) = cr_DeviceID r ∧ cr_Type (activated now c r) = cr_Type r) as Hsame.
    { intros r. unfold activated. destruct (_ && _), (String.eqb _ _); done. }
    intros k1 k2 c1 c2. rewrite !lookup_fmap.
    destruct (tab !! k1) as [r1|] eqn:H1; simpl; [|done]. destruct (tab !! k2) as [r2|] eqn:H2; simpl; [|done].
    intros [= <-] [= <-]. destruct (Hsame r1) as [-> ->], (Hsame r2) as [-> ->]. intros Hd Ht S1 S2.
    assert (∀ r, cr_DeviceID r = cr_DeviceID c → cr_Type r = cr_Type c → of_device (cr_DeviceID c) (cr_Type c) r = true)
      as Hof by (intros r Hd' Ht'; unfold of_device; rewrite Hd', Ht', String.eqb_refl; by rewrite bool_decide_true).
    destruct (Hact _ _ H1 S1) as [->|[A1 O1]], (Hact _ _ H2 S2) as [->|[A2 O2]].
    + pose proof (cred_keyed _ Hok _ _ H1). pose proof (cred_keyed _ Hok _ _ H2). simpl in *. congruence.
    + by rewrite Hof in O2.
    + by rewrite Hof in O1.
    + by eapply (cred_one_active _ Hok).
Qed.

Lemma credentials_ok_revoke now id tab : credentials_ok tab → credentials_ok (Revoke now id tab).2.
Proof.
  intros Hok. unfold Revoke. destruct (update_key id _ _ tab) as [tab' n] eqn:E. destruct (n =? 0); [done|].
  simpl. apply (f_equal fst) in E. simpl in E. subst tab'.
  assert (∀ k c', (update_key id (λ c, has_status CredGrace c || has_status CredPending c)
      (λ c, set_cred_status CredRevoked (cr_ActivatedAt c) (Some now) c) tab).1 !! k = Some c' →
    ∃ c, tab !! k = Some c ∧ same_credential c c' ∧ (c' = c ∨ cr_Status c' = CredRevoked)) as Hb.
  { intros k c'. rewrite lookup_update_key. case_decide; [|intros H'; exists c'; split; [done|]; split; [done|auto]].
    destruct (tab !! k) as [r|]; simpl; [|done]. intros [= <-]. exists r. split; [done|].
    destruct (_ || _); split; try done; auto. }
  eapply credentials_ok_rewrite; [exact Hok|..].
  - intros k c' H. destruct (Hb _ _ H) as (c & Hc & Hs & [->|Hr]); exists c; split_and!; try done. by rewrite Hr.
  - intros k1 k2 c1 c2 H1 H2 Hd Ht S1 S2.
    destruct (Hb _ _ H1) as (d1 & G1 & _ & [->|R1]), (Hb _ _ H2) as (d2 & G2 & _ & [->|R2]); [|congruence..].
    by eapply (cred_one_active _ Hok).
Qed.

(** One call of the repository. *)
Inductive credential_step (devices : Devices) : Credentials → Credentials → Prop :=
| cstep_create uuid now dev t u p ck tab :
    credential_step devices tab (CreateCredential uuid now dev t u p ck devices tab).2
| cstep_ensure uuid now dev u p tab :
    credential_step devices tab (EnsurePendingCWMPDigest uuid now dev u p devices tab).2
| cstep_activate now id tab : credential_step devices tab (Activate now id tab).2
| cstep_revoke now id tab : credential_step devices tab (Revoke now id tab).2.

Lemma credential_step_ok devices tab tab' :
  credential_step devices tab tab' → credentials_ok tab → credentials_ok tab'.
Proof.
  destruct 1; intros Hok; auto using credentials_ok_create, credentials_ok_activate, credentials_ok_revoke.
  unfold EnsurePendingCWMPDigest. destruct (negb _); [done|]. destruct (PendingForDevice _ _ _); [done|].
  by apply credentials_ok_create.
Qed.

Lemma reachable_credentials_ok devices tab : rtc (credential_step devices) ∅ tab → credentials_ok tab.
Proof.
  intros H. assert (∀ a b, rtc (credential_step devices) a b → credentials_ok a → credentials_ok b) as Hr.
  { induction 1; eauto using credential_step_ok. }
  eapply Hr; [exact H|apply credentials_ok_empty].
Qed.

(** ** Theorems *)

Lemma newest_some p (tab : Credentials) k c :
  tab !! k = Some c → p c = true → ∃ c', newest p tab = Some c' ∧ p c' = true.
Proof.
  intros Hc Hp. unfold newest. destruct (oldest _ _) as [c'|] eqn:E.
  - exists c'. split; [done|]. apply oldest_elem in E. apply list_elem_of_In, filter_In in E. apply E.
  - apply oldest_none in E. assert (In c (List.filter p (rows tab))) as Hin
      by (apply filter_In; split; [apply list_elem_of_In, elem_of_rows; eauto|done]).
    by rewrite E in Hin.
Qed.

Lemma newest_elem p (tab : Credentials) c : newest p tab = Some c → (∃ k, tab !! k = Some c) ∧ p c = true.
Proof.
  intros Hc. unfold newest in Hc. apply oldest_elem, list_elem_of_In, filter_In in Hc as [Hin Hp].
  split; [|done]. by apply elem_of_rows, list_elem_of_In.
Qed.

Lemma ActiveForDevice_some tab dev t c :
  ActiveForDevice tab dev t = Some c →
  (∃ k, tab !! k = Some c) ∧ cr_DeviceID c = dev ∧ cr_Type c = t ∧ cr_Status c = CredActive.
Proof.
  intros [Hin Hp]%find_some. apply list_elem_of_In, elem_of_rows in Hin. unfold of_device, has_status in Hp.
  by bool_to_prop.
Qed.

Lemma ActiveForDevice_unique tab k c :
  credentials_ok tab → tab !! k = Some c → cr_Status c = CredActive →
  ActiveForDevice tab (cr_DeviceID c) (cr_Type c) = Some c.
Proof.
  intros Hok Hc Hs. destruct (ActiveForDevice _ _ _) as [c'|] eqn:E.
  - apply ActiveForDevice_some in E as ((k' & Hk') & Hd & Ht & Hs').
    assert (k' = k) as -> by (by eapply (cred_one_active _ Hok)). congruence.
  - eapply find_none in E; [|apply list_elem_of_In, elem_of_rows; eauto]. unfold of_device, has_status in E.
    rewrite String.eqb_refl, Hs in E. by rewrite !bool_decide_true in E.
Qed.

(** Rotating a credential never leaves a device without one, or with two.
    In every table the repository can produce, activating a credential makes it
    the one ACTIVE credential of its device and type; the credential that was
    active before goes into GRACE, and a Digest credential in GRACE still
    authenticates. *)
Theorem rotation_keeps_access devices tab now id c :
  rtc (credential_step devices) ∅ tab → tab !! id = Some c →
  let tab' := (Activate now id tab).2 in
  (∃ c', ActiveForDevice tab' (cr_DeviceID c) (cr_Type c) = Some c' ∧ cr_ID c' = id ∧ cr_Username c' = cr_Username c) ∧
  (∀ k r, tab' !! k = Some r → cr_DeviceID r = cr_DeviceID c → cr_Type r = cr_Type c → cr_Status r = CredActive → k = id) ∧
  (∀ old, ActiveForDevice tab (cr_DeviceID c) (cr_Type c) = Some old → cr_ID old ≠ id →
     ∃ r, tab' !! cr_ID old = Some r ∧ cr_Status r = CredGrace ∧
       (cr_Type c = TypeCWMPDigest → ∃ x, LookupCWMPDigest tab' (cr_Username old) = Some x ∧ live x = true)).
Proof.
  intros Hr Hc. apply reachable_credentials_ok in Hr as Hok. cbv zeta.
  pose proof (credentials_ok_activate now id tab Hok) as Hok'. rewrite (Activate_rows now id tab c Hok Hc) in *. simpl in *.
  pose proof (cred_keyed _ Hok _ _ Hc) as Hid. simpl in Hid.
  assert ((activated now c <$> tab) !! id = Some (activated now c c)) as Hnew by (by rewrite lookup_fmap, Hc).
  assert (cr_Status (activated now c c) = CredActive ∧ cr_DeviceID (activated now c c) = cr_DeviceID c ∧
    cr_Type (activated now c c) = cr_Type c ∧ cr_ID (activated now c c) = cr_ID c ∧
    cr_Username (activated now c c) = cr_Username c) as (Ha & Hd & Ht & Hi & Hu).
  { unfold activated. rewrite String.eqb_refl. by destruct (_ && _). }
  split_and!.
  - exists (activated now c c). rewrite <- Hd, <- Ht at 1. rewrite (ActiveForDevice_unique _ id) by done. split_and!; congruence.
  - intros k r Hk Hdr Htr Hs. eapply (cred_one_active _ Hok'); eauto; congruence.
  - intros old Hold Hne. apply ActiveForDevice_some in Hold as ((k & Hk) & Hdo & Hto & Hso).
    pose proof (cred_keyed _ Hok _ _ Hk) as Hko. simpl in Hko. rewrite Hko.
    assert (activated now c old = demote old) as Ed.
    { unfold activated. destruct (String.eqb_spec (cr_ID old) (cr_ID c)); [congruence|].
      unfold of_device, has_status. rewrite Hdo, Hto, Hso, String.eqb_refl. by rewrite !bool_decide_true. }
    exists (demote old). rewrite lookup_fmap, Hk. simpl. rewrite Ed. split_and!; [done|done|]. intros Htc.
    destruct (newest_some (λ c, bool_decide (cr_Type c = TypeCWMPDigest) && String.eqb (cr_Username c) (cr_Username old) && live c)
      (activated now c <$> tab) k (demote old)) as (x & Hx & Hpx).
    + rewrite lookup_fmap, Hk. simpl. by rewrite Ed.
    + simpl. rewrite Hto, Htc, String.eqb_refl. done.
    + exists x. split; [done|]. by bool_to_prop.
Qed.

(** Activation does not look at the state of the credential: a revoked one
    becomes active again, with its revocation time still set. *)
Theorem revoked_credential_can_be_activated devices tab now id c :
  rtc (credential_step devices) ∅ tab → tab !! id = Some c → cr_Status c = CredRevoked →
  ∃ c', Activate now id tab = (Ok c', (Activate now id tab).2) ∧
    cr_Status c' = CredActive ∧ cr_RevokedAt c' = cr_RevokedAt c.
Proof.
  intros Hr Hc Hs. apply reachable_credentials_ok in Hr as Hok. rewrite (Activate_rows now id tab c Hok Hc).
  exists (activated now c c). split; [done|]. unfold activated, has_status. rewrite String.eqb_refl, Hs.
  by rewrite andb_false_r.
Qed.

(** *** Concrete tables *)

Definition w_cred_devices : Devices := (PreRegister "d-1" 3 "0000CA-S1" "Nokia" "0000CA" "FastMile" "S1" (Some "tenant-a") [] ∅).2.
Definition w_cred_1 : Credentials :=
  (CreateCredential "c-1" 5 "d-1" TypeCWMPDigest "cwmp-1" "secret1" "key-1" w_cred_devices ∅).2.
Definition w_cred_2 : Credentials := (Activate 6 "c-1" w_cred_1).2.
Definition w_cred_3 : Credentials :=
  (CreateCredential "c-2" 7 "d-1" TypeCWMPDigest "cwmp-2" "secret2" "key-2" w_cred_devices w_cred_2).2.
Definition w_cred_4 : Credentials := (Revoke 8 "c-2" w_cred_3).2.
Definition w_no_credential : Credential := mkCredential "" "" TypeXMPP 0 "" "" CredPending "" 0 None None.

Lemma w_cred_3_reachable : rtc (credential_step w_cred_devices) ∅ w_cred_3.
Proof.
  eapply rtc_l; [exact (cstep_create w_cred_devices "c-1" 5 "d-1" TypeCWMPDigest "cwmp-1" "secret1" "key-1" ∅)|].
  eapply rtc_l; [exact (cstep_activate w_cred_devices 6 "c-1" w_cred_1)|].
  apply rtc_once. exact (cstep_create w_cred_devices "c-2" 7 "d-1" TypeCWMPDigest "cwmp-2" "secret2" "key-2" w_cred_2).
Qed.

Lemma w_cred_4_reachable : rtc (credential_step w_cred_devices) ∅ w_cred_4.
Proof. eapply rtc_r; [exact w_cred_3_reachable|]. exact (cstep_revoke w_cred_devices 8 "c-2" w_cred_3). Qed.

Lemma rotation_keeps_access_witness :
  ∃ r, (Activate 9 "c-2" w_cred_3).2 !! "c-1" = Some r ∧ cr_Status r = CredGrace.
Proof.
  destruct (rotation_keeps_access w_cred_devices w_cred_3 9 "c-2" (default w_no_credential (w_cred_3 !! "c-2"))
    w_cred_3_reachable) as (_ & _ & H); [vm_compute; reflexivity|].
  destruct (H (default w_no_credential (w_cred_3 !! "c-1"))) as (r & Hr & Hs & _);
    [vm_compute; reflexivity|vm_compute; discriminate|].
  exists r. split; [exact Hr|exact Hs].
Defined.

Lemma revoked_credential_can_be_activated_witness :
  ∃ c', Activate 9 "c-2" w_cred_4 = (Ok c', (Activate 9 "c-2" w_cred_4).2) ∧ cr_Status c' = CredActive.
Proof.
  destruct (revoked_credential_can_be_activated w_cred_devices w_cred_4 9 "c-2"
    (default w_no_credential (w_cred_4 !! "c-2")) w_cred_4_reachable) as (c' & H & Hs & _);
    [vm_compute; reflexivity|vm_compute; reflexivity|].
  exists c'. split; [exact H|exact Hs].
Defined.
