(* ===== verification/DigestAuth.v ===== *)
(** * Authentication of a device's HTTP request ([internal/auth])

    HTTP Digest with server-issued nonces and a replay store, and HTTP Basic
    when it is allowed.  The hash functions of the Go library are arguments.
    The replay store is an interface ([ReplayStore]): the table shared by the
    replicas ([replay_postgres.go]) and the cache of one process
    ([nonceCache]) are its two implementations, and what the authenticator
    promises is proved against the interface's laws. *)

From S2P Require Import Prelude GoStrings Encoding.

Definition realm : string := "acs".
Definition nonceTTL : GoDuration := 10 * Minute.
Definition nonceMACBytes : nat := 8.
Definition dquote : ascii := "034"%char.

(** What the code reads of an [http.Request]; [rq_TLS] has the common names of
    the peer's certificates. *)
Record HTTPRequest : Type := mkRequest {
  rq_Method : string;
  rq_RequestURI : string;
  rq_Authorization : string;
  rq_TLS : option (list string);
  rq_RemoteIP : string
}.

Record DigestAuthenticator : Type := mkAuthenticator {
  da_Username : string;
  da_Password : string;
  da_AllowBasic : bool;
  da_Lookup : option (string → option (string * string));
  da_NonceSecret : string
}.

Record AuthIdentity : Type := mkAuthIdentity {
  ai_Username : string;
  ai_BoundDeviceID : string;
  ai_SharedCredential : bool
}.

Inductive AuthResult : Type :=
| AuthOk (identity : AuthIdentity)
| AuthStale
| AuthRejected.

Definition Enabled (d : DigestAuthenticator) : bool :=
  (negb (String.eqb (da_Username d) "") && negb (String.eqb (da_Password d) "")) || is_some (da_Lookup d).

(** The password of a presented username, the device it is bound to, and
    whether it is a per-device credential. *)
Definition passwordFor (d : DigestAuthenticator) (username : string) : option (string * string * bool) :=
  if negb (String.eqb (da_Username d) "") && String.eqb username (da_Username d)
  then Some (da_Password d, "", false)
  else match da_Lookup d with
       | Some lookup =>
           if String.eqb username "" then None
           else match lookup username with
                | Some (pw, dev) => Some (pw, dev, true)
                | None => None
                end
       | None => None
       end.

(** ** The Authorization header *)

Definition is_word (c : ascii) : bool := is_alnum c || Ascii.eqb c "_".

(** The longest prefix of bytes that satisfy [p], and the rest. *)
Fixpoint span (p : ascii → bool) (s : string) : string * string :=
  match s with
  | EmptyString => (EmptyString, EmptyString)
  | String c r => if p c then let '(a, b) := span p r in (String c a, b) else (EmptyString, s)
  end.

(** The parameters of a header: a word, an equals sign, and a quoted or unquoted
    value.  [bare] are the bytes of an unquoted value. *)
Section Params.
Context (bare : ascii → bool) (fold_key : string → string).

(** The second group: a quoted string when there is a closing quote, otherwise
    everything unquoted (dropped when it opens with a quote). *)
Definition param_value (s : string) : string * string :=
  let unquoted := span bare s in
  match s with
  | String c r =>
      if Ascii.eqb c dquote
      then match Cut r dquote with Some (v, rest) => (v, rest) | None => ("", unquoted.2) end
      else unquoted
  | EmptyString => unquoted
  end.

(** [FindAllStringSubmatch]: the matches from left to right; a
    later value of a key replaces an earlier one. *)
Fixpoint scan_params (fuel : nat) (s : string) (acc : gmap string string) : gmap string string :=
  match fuel with
  | O => acc
  | S f =>
      match s with
      | EmptyString => acc
      | String c r =>
          if is_word c then
            let '(w, rest) := span is_word s in
            match rest with
            | String e rest' =>
                if Ascii.eqb e "=" then
                  let '(v, rest'') := param_value rest' in
                  scan_params f rest'' (<[fold_key w := TrimSpace v]> acc)
                else scan_params f rest acc
            | EmptyString => acc
            end
          else scan_params f r acc
      end
  end.

End Params.

(** [digestParamRE]: an unquoted value ends at a comma. *)
Definition digest_bare (c : ascii) : bool := negb (Ascii.eqb c ",").

Definition parseDigestParams (s : string) : gmap string string := scan_params digest_bare id (String.length s) s ∅.

(** ** The replay stores *)

(** [check_and_record nonce qop nc expires now store] is true when this use of
    the nonce is new. *)
Class ReplayStore (S : Type) : Type := {
  no_nonces : S;
  check_and_record : string → bool → Z → GoTime → GoTime → S → bool * S;
  purge_nonces : GoTime → S → S
}.

(** [cwmp_digest_nonces]: the count is stored as an int64. *)
Record NonceRow : Type := mkNonceRow { nr_last_nc : Z; nr_expires_at : GoTime }.
Abbreviation NonceTable := (gmap string NonceRow).

Definition CheckAndRecord (nonce : string) (ncOrdinal : Z) (expires : GoTime) (tab : NonceTable) : bool * NonceTable :=
  match tab !! nonce with
  | None => (true, <[nonce := mkNonceRow (wrap64 ncOrdinal) expires]> tab)
  | Some r =>
      if nr_last_nc r <? wrap64 ncOrdinal
      then (true, <[nonce := mkNonceRow (wrap64 ncOrdinal) (nr_expires_at r)]> tab)
      else (false, tab)
  end.

Definition Purge (now : GoTime) (tab : NonceTable) : NonceTable := filter (λ kv, ¬ (nr_expires_at kv.2 < now)) tab.

#[global] Instance PostgresReplayStore : ReplayStore NonceTable := {|
  no_nonces := ∅;
  check_and_record nonce qop nc expires now := CheckAndRecord nonce nc expires;
  purge_nonces := Purge
|}.

(** The process's own cache. *)
Record nonceState : Type := mkNonceState { ns_expires : GoTime; ns_lastNC : Z; ns_used : bool }.
Record nonceCache : Type := mkNonceCache { nonces : gmap string nonceState }.
Definition nonceCacheMax : Z := 100000.

Definition purgeExpiredNoncesLocked (now : GoTime) (m : gmap string nonceState) : gmap string nonceState :=
  filter (λ kv, ¬ (ns_expires kv.2 < now)) m.

(** The entry of a nonce, made when there is room for it. *)
Definition nonce_entry (nonce : string) (expires now : GoTime) (m : gmap string nonceState)
  : option nonceState * gmap string nonceState :=
  match m !! nonce with
  | Some st => (Some st, m)
  | None =>
      if nonceCacheMax <=? Z.of_nat (size m)
      then let m' := purgeExpiredNoncesLocked now m in
           if nonceCacheMax <=? Z.of_nat (size m') then (None, m')
           else (Some (mkNonceState expires 0 false), <[nonce := mkNonceState expires 0 false]> m')
      else (Some (mkNonceState expires 0 false), <[nonce := mkNonceState expires 0 false]> m)
  end.

Definition cache_check (nonce : string) (qop : bool) (nc : Z) (expires now : GoTime) (c : nonceCache)
  : bool * nonceCache :=
  match nonce_entry nonce expires now (nonces c) with
  | (None, m) => (false, mkNonceCache m)
  | (Some st, m) =>
      if negb qop then
        if ns_used st then (false, mkNonceCache m)
        else (true, mkNonceCache (<[nonce := mkNonceState (ns_expires st) (ns_lastNC st) true]> m))
      else if nc <=? ns_lastNC st then (false, mkNonceCache m)
      else (true, mkNonceCache (<[nonce := mkNonceState (ns_expires st) nc (ns_used st)]> m))
  end.

#[global] Instance LocalReplayStore : ReplayStore nonceCache := {|
  no_nonces := mkNonceCache ∅;
  check_and_record := cache_check;
  purge_nonces now c := mkNonceCache (purgeExpiredNoncesLocked now (nonces c))
|}.

(** The count a response carries: the legacy form without [qop] counts as 1. *)
Definition nc_ordinal (qop ncHex : string) : option Z :=
  if String.eqb qop "" then Some 1
  else match ParseUintHex ncHex with
       | Some nc => if nc =? 0 then None else Some nc
       | None => None
       end.

Definition checkReplay {S} `{ReplayStore S} (nonce qop ncHex : string) (expires now : GoTime) (s : S) : bool * S :=
  match nc_ordinal qop ncHex with
  | None => (false, s)
  | Some nc => check_and_record nonce (negb (String.eqb qop "")) nc expires now s
  end.

(** ** Nonces and verification *)

Section Crypto.
Context (md5 sha256 : string → string) (hmac_sha256 : string → string → string).

Definition md5Hex (s : string) : string := EncodeToString (md5 s).
Definition sha256Hex (s : string) : string := EncodeToString (sha256 s).

Definition hashFuncFor (algorithm : string) : option (string → string) :=
  let a := ToUpper algorithm in
  if String.eqb a "" || String.eqb a "MD5" then Some md5Hex
  else if String.eqb a "SHA-256" then Some sha256Hex
  else None.

(** The lines of a 401: one Digest challenge per algorithm, then Basic when it is
    allowed; [algorithms] is the configured list. *)
Definition defaultChallengeAlgorithms : list string := ["MD5"; "SHA-256"].

Definition challengeAlgorithms (algorithms : list string) : list string :=
  match List.filter (λ a, is_some (hashFuncFor a) && negb (String.eqb a "")) algorithms with
  | [] => defaultChallengeAlgorithms
  | out => out
  end.

Definition quoted (k v : string) : string := (k ++ String "=" (String dquote (v ++ String dquote "")))%string.

Definition digest_challenge (nonce : string) (stale : bool) (algorithm : string) : string :=
  ("Digest " ++ quoted "realm" realm ++ ", " ++ quoted "qop" "auth" ++ ", " ++ quoted "nonce" nonce ++ ", algorithm=" ++ algorithm
   ++ (if stale then ", stale=true" else ""))%string.

Definition challenge (d : DigestAuthenticator) (algorithms : list string) (nonce : string) (stale : bool) : list string :=
  (digest_challenge nonce stale <$> challengeAlgorithms algorithms)
  ++ (if da_AllowBasic d then [("Basic " ++ quoted "realm" realm)%string] else []).

Definition nonceKey (d : DigestAuthenticator) : string :=
  hmac_sha256 (if String.eqb (da_NonceSecret d) "" then da_Password d else da_NonceSecret d) "acs-digest-nonce-v1".

Definition nonceMAC (d : DigestAuthenticator) (ts random : string) : string :=
  EncodeToString (String.substring 0 nonceMACBytes (hmac_sha256 (nonceKey d) (ts ++ "." ++ random)%string)).

(** The random bytes are an argument. *)
Definition newNonce (d : DigestAuthenticator) (random_bytes : string) (now : GoTime) : string :=
  let ts := FormatHex (now / Second) in
  let random := EncodeToString random_bytes in
  (ts ++ "." ++ random ++ "." ++ nonceMAC d ts random)%string.

Definition parseNonce (d : DigestAuthenticator) (nonce : string) : option GoTime :=
  match SplitN3 nonce "." with
  | Some (ts, random, mac) =>
      if negb (String.eqb mac (nonceMAC d ts random)) then None
      else match ParseIntHex ts with Some sec => Some (sec * Second) | None => None end
  | None => None
  end.

Definition param (params : gmap string string) (k : string) : string := default "" (params !! k).

(** The response a holder of the password computes. *)
Definition digest_response (hashHex : string → string) (method username password : string)
    (params : gmap string string) : string :=
  let ha1 := hashHex (username ++ ":" ++ realm ++ ":" ++ password)%string in
  let ha2 := hashHex (method ++ ":" ++ param params "uri")%string in
  if negb (String.eqb (param params "qop") "")
  then hashHex (Join [ha1; param params "nonce"; param params "nc"; param params "cnonce"; param params "qop"; ha2] ":")
  else hashHex (ha1 ++ ":" ++ param params "nonce" ++ ":" ++ ha2)%string.

Section Verify.
Context {S : Type} `{ReplayStore S}.

Definition verifyDigest (d : DigestAuthenticator) (r : HTTPRequest) (rest : string) (now : GoTime) (s : S)
  : AuthResult * S :=
  let params := parseDigestParams rest in
  let username := param params "username" in
  match passwordFor d username with
  | None => (AuthRejected, s)
  | Some (password, deviceID, perDevice) =>
      if is_some (params !! "realm") && negb (String.eqb (param params "realm") realm) then (AuthRejected, s)
      else if negb (String.eqb (param params "uri") (rq_RequestURI r)) then (AuthRejected, s)
      else
        let nonce := param params "nonce" in
        match parseNonce d nonce with
        | None => (AuthRejected, s)
        | Some issued =>
            match hashFuncFor (param params "algorithm") with
            | None => (AuthRejected, s)
            | Some hashHex =>
                let qop := param params "qop" in
                if negb (String.eqb qop "") && negb (String.eqb qop "auth") then (AuthRejected, s)
                else if negb (String.eqb (digest_response hashHex (rq_Method r) username password params)
                                (param params "response")) then (AuthRejected, s)
                else if issued + nonceTTL <? now then (AuthStale, s)
                else match checkReplay nonce qop (param params "nc") (issued + nonceTTL) now s with
                     | (true, s') => (AuthOk (mkAuthIdentity username deviceID (negb perDevice)), s')
                     | (false, s') => (AuthRejected, s')
                     end
            end
        end
  end.

Definition verifyBasic (d : DigestAuthenticator) (encoded : string) : AuthResult :=
  match DecodeStd (TrimSpace encoded) with
  | None => AuthRejected
  | Some decoded =>
      match Cut decoded ":" with
      | None => AuthRejected
      | Some (user, pass) =>
          match passwordFor d user with
          | None => AuthRejected
          | Some (expected, deviceID, perDevice) =>
              if negb (String.eqb pass expected) then AuthRejected
              else AuthOk (mkAuthIdentity user deviceID (negb perDevice))
          end
      end
  end.

Definition Verify (d : DigestAuthenticator) (r : HTTPRequest) (now : GoTime) (s : S) : AuthResult * S :=
  match CutPrefix (rq_Authorization r) "Digest " with
  | Some rest => verifyDigest d r rest now s
  | None =>
      match CutPrefix (rq_Authorization r) "Basic " with
      | Some rest => if da_AllowBasic d then (verifyBasic d rest, s) else (AuthRejected, s)
      | None => (AuthRejected, s)
      end
  end.

End Verify.
End Crypto.

(** ** What authentication promises

    The laws of a replay store, met by the shared table and by the process
    cache; the traces of requests and purges; and the two directions of Digest:
    a response is accepted at most once, and a client that answers its
    challenge with the right password is accepted. *)

From S2P Require Import Prelude GoStrings Encoding.

(** When a nonce stops being accepted: a function of its text. *)
Definition nonce_expiry (nonce : string) : GoTime :=
  match SplitN3 nonce "." with
  | Some (ts, _, _) => match ParseIntHex ts with Some sec => sec * Second + nonceTTL | None => 0 end
  | None => 0
  end.

(** [spent s n q k]: the store rejects this use of the nonce.  A use stays spent
    until the nonce has expired, whatever else is checked or purged. *)
Class ReplayLaws (S : Type) `{ReplayStore S} : Type := {
  store_ok : S → Prop;
  spent : S → string → bool → Z → Prop;
  no_nonces_ok : store_ok no_nonces;
  check_ok n q k now s : store_ok s → store_ok (check_and_record n q k (nonce_expiry n) now s).2;
  purge_ok now s : store_ok s → store_ok (purge_nonces now s);
  check_spends n q k now s :
    store_ok s → (check_and_record n q k (nonce_expiry n) now s).1 = true →
    spent (check_and_record n q k (nonce_expiry n) now s).2 n q k;
  spent_rejected n q k now s :
    spent s n q k → (check_and_record n q k (nonce_expiry n) now s).1 = false;
  check_keeps n q k n' q' k' now s :
    store_ok s → spent s n q k → now <= nonce_expiry n →
    spent (check_and_record n' q' k' (nonce_expiry n') now s).2 n q k;
  purge_keeps n q k now s :
    store_ok s → spent s n q k → now <= nonce_expiry n → spent (purge_nonces now s) n q k
}.

(** ** The shared table *)

Definition table_ok (tab : NonceTable) : Prop := map_Forall (λ n r, nr_expires_at r = nonce_expiry n) tab.
Definition table_spent (tab : NonceTable) (n : string) (q : bool) (k : Z) : Prop :=
  ∃ r, tab !! n = Some r ∧ wrap64 k <= nr_last_nc r.

#[global] Program Instance PostgresReplayLaws : ReplayLaws NonceTable :=
  {| store_ok := table_ok; spent := table_spent |}.
Next Obligation. apply map_Forall_empty. Qed.
Next Obligation.
  intros n q k now tab Hok. simpl. unfold CheckAndRecord. destruct (tab !! n) as [r|] eqn:E; [|by apply map_Forall_insert_2].
  destruct (_ <? _); [|done]. apply map_Forall_insert_2; [exact (Hok _ _ E)|done].
Qed.
Next Obligation. intros now tab Hok n r [Hr _]%map_lookup_filter_Some. by apply Hok. Qed.
Next Obligation.
  intros n q k now tab _. simpl. unfold CheckAndRecord, table_spent. destruct (tab !! n) as [r|].
  - destruct (_ <? _); [|done]. intros _. eexists. split; [apply lookup_insert_eq|]. simpl. lia.
  - intros _. eexists. split; [apply lookup_insert_eq|]. simpl. lia.
Qed.
Next Obligation.
  intros n q k now tab (r & Hr & Hle). simpl. unfold CheckAndRecord. rewrite Hr.
  by rewrite (proj2 (Z.ltb_ge _ _)).
Qed.
Next Obligation.
  intros n q k n' q' k' now tab _ (r & Hr & Hle) _. simpl. unfold CheckAndRecord, table_spent.
  destruct (tab !! n') as [r'|] eqn:E.
  - destruct (Z.ltb_spec (nr_last_nc r') (wrap64 k')); [|simpl; eauto]. simpl.
    destruct (decide (n' = n)) as [->|Hn]; [|rewrite lookup_insert_ne by done; eauto].
    rewrite lookup_insert_eq. eexists. split; [done|]. simplify_eq. simpl. lia.
  - simpl. rewrite lookup_insert_ne by congruence. eauto.
Qed.
Next Obligation.
  intros n q k now tab Hok (r & Hr & Hle) Hnow. exists r. split; [|done]. apply map_lookup_filter_Some. split; [done|].
  pose proof (Hok _ _ Hr) as He. simpl in *. lia.
Qed.

(** ** The cache of one process *)

Definition cache_ok (c : nonceCache) : Prop := map_Forall (λ n st, ns_expires st = nonce_expiry n) (nonces c).
Definition cache_spent (c : nonceCache) (n : string) (q : bool) (k : Z) : Prop :=
  ∃ st, nonces c !! n = Some st ∧ if q then k <= ns_lastNC st else ns_used st = true.

Lemma purge_cache_ok now m : cache_ok (mkNonceCache m) → cache_ok (mkNonceCache (purgeExpiredNoncesLocked now m)).
Proof. intros Hok n st [Hr _]%map_lookup_filter_Some. by apply Hok. Qed.

Lemma purge_cache_keeps now m n st :
  cache_ok (mkNonceCache m) → m !! n = Some st → now <= nonce_expiry n →
  purgeExpiredNoncesLocked now m !! n = Some st.
Proof.
  intros Hok Hst Hnow. apply map_lookup_filter_Some. split; [done|]. pose proof (Hok _ _ Hst) as He. simpl in *. lia.
Qed.

(** The entry is in the map that is returned, and other live entries stay. *)
Lemma nonce_entry_spec n now m st m' :
  cache_ok (mkNonceCache m) → nonce_entry n (nonce_expiry n) now m = (st, m') →
  cache_ok (mkNonceCache m') ∧ (∀ x, st = Some x → m' !! n = Some x) ∧
  (∀ n' x, m !! n' = Some x → now <= nonce_expiry n' → m' !! n' = Some x).
Proof.
  intros Hok. unfold nonce_entry. destruct (m !! n) as [x|] eqn:E.
  - intros [= <- <-]. split_and!; [done| |done]. by intros ? [= <-].
  - pose proof (purge_cache_ok now m Hok) as Hp.
    assert (∀ k : string, k = n → ∀ x, m !! k = Some x → False) as Hne by (intros k -> x Hx; congruence).
    destruct (_ <=? _); [destruct (_ <=? _)|]; intros [= <- <-].
    + split_and!; [done|done|]. intros n' x Hx Hn. by apply purge_cache_keeps.
    + split_and!; [by apply map_Forall_insert_2| |].
      * intros x [= <-]. apply lookup_insert_eq.
      * intros n' x Hx Hn. rewrite lookup_insert_ne; [by apply purge_cache_keeps|]. intros <-. eauto.
    + split_and!; [by apply map_Forall_insert_2| |].
      * intros x [= <-]. apply lookup_insert_eq.
      * intros n' x Hx Hn. rewrite lookup_insert_ne; [done|]. intros <-. eauto.
Qed.

Lemma cache_check_ok n q k now c : cache_ok c → cache_ok (cache_check n q k (nonce_expiry n) now c).2.
Proof.
  intros Hok. unfold cache_check. destruct (nonce_entry _ _ _ _) as [st m] eqn:E.
  destruct c as [m0]. apply nonce_entry_spec in E as (Hm & Hst & _); [|done].
  destruct st as [st|]; [|done]. specialize (Hst _ eq_refl). pose proof (Hm _ _ Hst) as He. simpl in He.
  destruct (negb q); [destruct (ns_used st)|destruct (_ <=? _)]; try done; by apply map_Forall_insert_2.
Qed.

Lemma cache_check_keeps n q k n' q' k' now c :
  cache_ok c → cache_spent c n q k → now <= nonce_expiry n →
  cache_spent (cache_check n' q' k' (nonce_expiry n') now c).2 n q k.
Proof.
  intros Hok (st & Hst & Hs) Hnow. unfold cache_check. destruct (nonce_entry _ _ _ _) as [st' m] eqn:E.
  destruct c as [m0]. apply nonce_entry_spec in E as (Hm & Hin & Hkeep); [|done]. simpl in Hst.
  specialize (Hkeep _ _ Hst Hnow).
  destruct st' as [st'|]; [|exists st; done]. specialize (Hin _ eq_refl).
  destruct (negb q') eqn:Eq; [destruct (ns_used st') eqn:Eu|destruct (Z.leb_spec k' (ns_lastNC st'))]; try (exists st; done).
  all: unfold cache_spent; simpl; destruct (decide (n' = n)) as [->|Hn];
    [rewrite lookup_insert_eq|rewrite lookup_insert_ne by done; eauto].
  all: rewrite Hin in Hkeep; simplify_eq; eexists; split; [done|]; destruct q; simpl; try done; lia.
Qed.

#[global] Program Instance LocalReplayLaws : ReplayLaws nonceCache :=
  {| store_ok := cache_ok; spent := cache_spent |}.
Next Obligation. apply map_Forall_empty. Qed.
Next Obligation. intros. by apply cache_check_ok. Qed.
Next Obligation. intros now [m] Hok. by apply purge_cache_ok. Qed.
Next Obligation.
  intros n q k now c Hok. simpl. unfold cache_check, cache_spent. destruct (nonce_entry _ _ _ _) as [st m] eqn:E.
  destruct st as [st|]; [|done]. destruct q; simpl.
  - destruct (_ <=? _); [done|]. intros _. eexists. split; [apply lookup_insert_eq|]. simpl. lia.
  - destruct (ns_used st); [done|]. intros _. eexists. split; [apply lookup_insert_eq|done].
Qed.
Next Obligation.
  intros n q k now [m] (st & Hst & Hs). simpl in *. unfold cache_check, nonce_entry. simpl. rewrite Hst.
  destruct q; simpl; [by rewrite (proj2 (Z.leb_le _ _) Hs)|by rewrite Hs].
Qed.
Next Obligation. intros. by apply cache_check_keeps. Qed.
Next Obligation.
  intros n q k now [m] Hok (st & Hst & Hs) Hnow. exists st. split; [|done]. by apply purge_cache_keeps.
Qed.

(** ** Traces *)

Section Traces.
Context (md5 sha256 : string → string) (hmac_sha256 : string → string → string).

Abbreviation Verify := (Verify md5 sha256 hmac_sha256).

(** A request is verified by some replica, with its own configuration, or the
    reaper purges the store. *)
Inductive auth_event : Type :=
| EvRequest (d : DigestAuthenticator) (r : HTTPRequest) (now : GoTime)
| EvPurge (now : GoTime).

Definition ev_time (e : auth_event) : GoTime := match e with EvRequest _ _ t | EvPurge t => t end.

(** The use of a nonce a Digest header stands for. *)
Definition digest_use (r : HTTPRequest) : option (string * bool * Z) :=
  match CutPrefix (rq_Authorization r) "Digest " with
  | Some rest =>
      let params := parseDigestParams rest in
      match nc_ordinal (param params "qop") (param params "nc") with
      | Some nc => Some (param params "nonce", negb (String.eqb (param params "qop") ""), nc)
      | None => None
      end
  | None => None
  end.

Definition is_accepted (res : AuthResult) : bool := match res with AuthOk _ => true | _ => false end.

(** The uses that were accepted, in order. *)
Fixpoint accepted_uses {S} `{ReplayStore S} (evs : list auth_event) (s : S) : list (string * bool * Z) :=
  match evs with
  | [] => []
  | EvRequest d r now :: evs' =>
      let '(res, s') := Verify d r now s in
      match (if is_accepted res then digest_use r else None) with
      | Some u => u :: accepted_uses evs' s'
      | None => accepted_uses evs' s'
      end
  | EvPurge now :: evs' => accepted_uses evs' (purge_nonces now s)
  end.

Lemma parseNonce_expiry d nonce issued :
  parseNonce hmac_sha256 d nonce = Some issued → nonce_expiry nonce = issued + nonceTTL.
Proof.
  unfold parseNonce, nonce_expiry. destruct (SplitN3 _ _) as [[[ts rnd] mac]|]; [|done].
  destruct (negb _); [done|]. destruct (ParseIntHex ts); [|done]. by intros [= <-].
Qed.

Section Store.
Context {S : Type} `{ReplayLaws S}.

(** A verification leaves the store alone, or is one check of the use its
    header stands for, before the nonce expires. *)
Lemma Verify_effect d r now (s s' : S) res :
  Verify d r now s = (res, s') →
  (s' = s ∧ (is_accepted res = true → digest_use r = None)) ∨
  ∃ n q k b, digest_use r = Some (n, q, k) ∧ now <= nonce_expiry n ∧
    check_and_record n q k (nonce_expiry n) now s = (b, s') ∧ is_accepted res = b.
Proof.
  unfold DigestAuth.Verify, digest_use. destruct (CutPrefix _ "Digest ") as [rest|].
  2: { destruct (CutPrefix _ "Basic "); [destruct (da_AllowBasic d)|]; intros [= <- <-]; auto. }
  unfold verifyDigest. destruct (passwordFor _ _) as [[[pw dev] per]|]; [|intros [= <- <-]; left; done].
  destruct (_ && _); [intros [= <- <-]; left; done|]. destruct (negb _); [intros [= <- <-]; left; done|].
  destruct (parseNonce _ _ _) as [issued|] eqn:En; [|intros [= <- <-]; left; done].
  destruct (hashFuncFor _ _ _) as [h|]; [|intros [= <- <-]; left; done].
  destruct (_ && _); [intros [= <- <-]; left; done|]. destruct (negb _); [intros [= <- <-]; left; done|].
  destruct (Z.ltb_spec (issued + nonceTTL) now); [intros [= <- <-]; left; done|].
  unfold checkReplay. destruct (nc_ordinal _ _) as [k|]; [|intros [= <- <-]; left; done].
  rewrite <- (parseNonce_expiry _ _ _ En) in *. destruct (check_and_record _ _ _ _ _ _) as [b s1] eqn:Ec.
  intros Hres. right. do 3 eexists. exists b. split; [done|]. split; [done|].
  destruct b; injection Hres as <- <-; by rewrite Ec.
Qed.

Lemma Verify_ok d r now (s : S) : store_ok s → store_ok (Verify d r now s).2.
Proof.
  intros Hok. destruct (Verify d r now s) as [res s'] eqn:E. simpl.
  apply Verify_effect in E as [[-> _]|(n & q & k & b & _ & _ & Hc & _)]; [done|].
  pose proof (check_ok n q k now s Hok) as Hs. by rewrite Hc in Hs.
Qed.

(** A use that was accepted, or whose nonce has expired, is not accepted again. *)
Lemma spent_never_accepted evs (s : S) n q k t :
  store_ok s → spent s n q k ∨ nonce_expiry n < t → Forall (λ e, t <= ev_time e) evs →
  StronglySorted Z.le (ev_time <$> evs) → (n, q, k) ∉ accepted_uses evs s.
Proof.
  revert s t. induction evs as [|e evs IH]; intros s t Hok Hsp Hle Hsort; [apply not_elem_of_nil|].
  apply Forall_cons in Hle as [Ht Hle]. apply StronglySorted_inv in Hsort as [Hsort Hev].
  apply (proj1 (Forall_map _ _ _)) in Hev.
  assert (∀ s', store_ok s' → (spent s n q k → ev_time e <= nonce_expiry n → spent s' n q k) →
    (n, q, k) ∉ accepted_uses evs s') as Hrec.
  { intros s' Hok' Hkeep. apply (IH s' (ev_time e)); [done| |exact Hev|done].
    destruct Hsp as [Hsp|Hsp]; [|right; lia].
    destruct (Z_lt_le_dec (nonce_expiry n) (ev_time e)); [by right|left; auto]. }
  destruct e as [d r now|now]; simpl in *.
  - destruct (Verify d r now s) as [res s'] eqn:E. pose proof (Verify_ok d r now s Hok) as Hok'. rewrite E in Hok'.
    apply Verify_effect in E as [[-> Hno]|(n' & q' & k' & b & Hu & Hexp & Hc & Hb)].
    + destruct (is_accepted res); [rewrite Hno by done|]; by apply Hrec.
    + assert ((n, q, k) ∉ accepted_uses evs s') as Hr.
      { apply Hrec; [done|]. intros Hs He. pose proof (check_keeps n q k n' q' k' now s Hok Hs He) as Hk.
        by rewrite Hc in Hk. }
      rewrite Hu, Hb. destruct b; [|done]. apply not_elem_of_cons. split; [|done]. intros [= -> -> ->].
      destruct Hsp as [Hsp|Hsp]; [|lia]. pose proof (spent_rejected n' q' k' now s Hsp) as Hf. by rewrite Hc in Hf.
  - apply Hrec; [by apply purge_ok|]. intros Hs He. by apply purge_keeps.
Qed.

Lemma accepted_uses_NoDup evs (s : S) :
  store_ok s → StronglySorted Z.le (ev_time <$> evs) → NoDup (accepted_uses evs s).
Proof.
  revert s. induction evs as [|e evs IH]; intros s Hok Hsort; [constructor|].
  apply StronglySorted_inv in Hsort as [Hsort Hev]. apply (proj1 (Forall_map _ _ _)) in Hev.
  destruct e as [d r now|now]; simpl in *; [|apply IH; [by apply purge_ok|done]].
  destruct (Verify d r now s) as [res s'] eqn:E. pose proof (Verify_ok d r now s Hok) as Hok'. rewrite E in Hok'.
  apply Verify_effect in E as [[-> Hno]|(n & q & k & b & Hu & Hexp & Hc & Hb)].
  - destruct (is_accepted res); [rewrite Hno by done|]; by apply IH.
  - rewrite Hu, Hb. destruct b; [|by apply IH]. constructor; [|by apply IH].
    eapply (spent_never_accepted _ _ _ _ _ now); eauto. left.
    pose proof (check_spends n q k now s Hok) as Hs. rewrite Hc in Hs. auto.
Qed.
End Store.

(** C33: a Digest response authenticates at most once.  Whatever requests arrive
    at whatever replicas, and however purges fall between them, no nonce is
    accepted twice with the same count, in the table shared by the replicas and
    in the cache of a single process, as long as time does not run backwards. *)
Theorem digest_response_accepted_once evs :
  StronglySorted Z.le (ev_time <$> evs) →
  NoDup (accepted_uses evs (no_nonces : NonceTable)) ∧ NoDup (accepted_uses evs (no_nonces : nonceCache)).
Proof. intros Hs. split; apply accepted_uses_NoDup; auto using no_nonces_ok. Qed.

End Traces.

(** ** The header of a client *)

Lemma span_app p a c b :
  forall_bytes p a = true → p c = false → span p (a ++ String c b) = (a, String c b).
Proof.
  induction a as [|x a IH]; simpl; intros Ha Hc; [by rewrite Hc|]. apply andb_true_iff in Ha as [Hx Ha].
  by rewrite Hx, IH.
Qed.

Lemma span_all p a : forall_bytes p a = true → span p a = (a, "").
Proof. induction a as [|x a IH]; simpl; intros Ha; [done|]. apply andb_true_iff in Ha as [Hx Ha]. by rewrite Hx, IH. Qed.

Lemma span_length p s : (String.length (span p s).2 <= String.length s)%nat.
Proof. induction s as [|c s IH]; simpl; [lia|]. destruct (p c); [destruct (span p s); simpl in *|simpl]; lia. Qed.

Lemma span_length_lt p c s :
  p c = true → (String.length (span p (String c s)).2 < String.length (String c s))%nat.
Proof. intros Hc. simpl. rewrite Hc. pose proof (span_length p s). destruct (span p s); simpl in *. lia. Qed.

Section Scanning.
Context (bare : ascii → bool) (fold_key : string → string).

Lemma param_value_length s : (String.length (param_value bare s).2 <= String.length s)%nat.
Proof.
  unfold param_value. pose proof (span_length bare s) as Hs.
  destruct s as [|c r]; [done|]. destruct (Ascii.eqb c dquote); [|done].
  destruct (Cut r dquote) as [[v rest]|] eqn:E; [|done]. apply Cut_spec in E as [-> _].
  simpl. rewrite string_length_app. simpl. lia.
Qed.

(** Enough fuel is enough. *)
Lemma scan_params_fuel s acc f :
  (String.length s <= f)%nat → scan_params bare fold_key f s acc = scan_params bare fold_key (String.length s) s acc.
Proof.
  revert s acc. enough (∀ n s acc f1 f2, (String.length s <= n)%nat → (String.length s <= f1)%nat →
    (String.length s <= f2)%nat → scan_params bare fold_key f1 s acc = scan_params bare fold_key f2 s acc) as Hgen.
  { intros s acc Hf. by apply (Hgen (String.length s)). }
  induction n as [|n IH]; intros s acc f1 f2 Hn H1 H2.
  - destruct s; [by destruct f1, f2|simpl in *; lia].
  - destruct s as [|c r]; [by destruct f1, f2|]. destruct f1 as [|f1], f2 as [|f2]; simpl in H1, H2; try lia.
    cbn [scan_params]. destruct (is_word c) eqn:Ew; [|apply IH; simpl in *; lia].
    pose proof (span_length_lt is_word c r Ew) as Hl. destruct (span is_word (String c r)) as [w rest]. simpl in Hl, Hn.
    destruct rest as [|e rest']; [done|]. destruct (Ascii.eqb e "="); [|apply IH; simpl in *; lia].
    pose proof (param_value_length rest'). destruct (param_value bare rest') as [v rest'']. simpl in *. apply IH; lia.
Qed.

(** [scan_with s acc] with the fuel it needs. *)
Definition scan_with (s : string) (acc : gmap string string) : gmap string string :=
  scan_params bare fold_key (String.length s) s acc.

Definition is_name (k : string) : bool := negb (String.eqb k "") && forall_bytes is_word k.

Lemma scan_skip c s acc : is_word c = false → scan_with (String c s) acc = scan_with s acc.
Proof. intros Hc. unfold scan_with. simpl. by rewrite Hc. Qed.

Lemma scan_param k s acc :
  is_name k = true → scan_with (k ++ String "=" s) acc = scan_with (param_value bare s).2 (<[fold_key k := TrimSpace (param_value bare s).1]> acc).
Proof.
  unfold is_name. destruct k as [|c k]; [done|]. simpl negb. rewrite andb_true_l. intros Hk.
  pose proof (span_app is_word _ "=" s Hk ltac:(done)) as Hsp. pose proof (param_value_length s) as Hl.
  simpl in Hk. apply andb_true_iff in Hk as [Hc _].
  change (String c k ++ String "=" s)%string with (String c (k ++ String "=" s)) in *. unfold scan_with.
  change (String.length (String c (k ++ String "=" s))) with (S (String.length (k ++ String "=" s))).
  cbn [scan_params]. rewrite Hc, Hsp. simpl. destruct (param_value bare s) as [v rest]. simpl in *.
  apply scan_params_fuel. rewrite string_length_app. simpl. lia.
Qed.

Lemma scan_quoted k v s acc :
  is_name k = true → byte_in dquote v = false →
  scan_with (k ++ String "=" (String dquote (v ++ String dquote s))) acc = scan_with s (<[fold_key k := TrimSpace v]> acc).
Proof.
  intros Hk Hv. rewrite scan_param by done.
  assert (param_value bare (String dquote (v ++ String dquote s)) = (v, s)) as -> by (unfold param_value; simpl; by rewrite Cut_app).
  done.
Qed.

Lemma scan_bare k v c s acc :
  is_name k = true → forall_bytes bare v = true → bare c = false → Ascii.eqb c dquote = false → HasPrefix v (String dquote "") = false →
  scan_with (k ++ String "=" (v ++ String c s)) acc = scan_with (String c s) (<[fold_key k := TrimSpace v]> acc).
Proof.
  intros Hk Hv Hc Hcq Hq. rewrite scan_param by done.
  assert (param_value bare (v ++ String c s) = (v, String c s)) as ->; [|done].
  unfold param_value. rewrite (span_app _ v c s Hv Hc).
  destruct v as [|x v]; [change ("" ++ String c s)%string with (String c s); cbv iota; by rewrite Hcq|]. rewrite HasPrefix_cons, HasPrefix_empty, andb_true_r in Hq.
  rewrite string_app_cons. cbv iota. by rewrite Ascii.eqb_sym, Hq.
Qed.

Lemma scan_bare_end k v acc :
  is_name k = true → forall_bytes bare v = true → HasPrefix v (String dquote "") = false →
  scan_with (k ++ String "=" v) acc = <[fold_key k := TrimSpace v]> acc.
Proof.
  intros Hk Hv Hq. rewrite scan_param by done.
  assert (param_value bare v = (v, "")) as ->; [|done].
  unfold param_value. rewrite (span_all _ v Hv). destruct v as [|x v]; [done|].
  rewrite HasPrefix_cons, HasPrefix_empty, andb_true_r in Hq. cbv iota. by rewrite Ascii.eqb_sym, Hq.
Qed.
End Scanning.

Abbreviation scan := (scan_with digest_bare id).

Lemma parseDigestParams_scan s : parseDigestParams s = scan s ∅.
Proof. done. Qed.

(** ** Numbers and nonces read back *)

Lemma below_16 (P : Z → Prop) : Forall P (Z.of_nat <$> seq 0 16) → ∀ d, 0 <= d < 16 → P d.
Proof.
  intros H d Hd. rewrite Forall_forall in H. apply H. apply list_elem_of_fmap. exists (Z.to_nat d).
  split; [lia|]. apply elem_of_seq. lia.
Qed.

Lemma hex_value_digit d : 0 <= d < 16 → hex_value (hex_digit d) = Some d.
Proof. revert d. apply below_16. repeat constructor. Qed.

(** Bytes that need no quoting: no quote, no dot, no white space. *)
Definition is_plain (c : ascii) : bool := negb (Ascii.eqb c dquote) && negb (is_space_byte c).
Definition is_hex (c : ascii) : bool := is_some (hex_value c).

Lemma is_hex_digit d : 0 <= d < 16 → is_hex (hex_digit d) = true.
Proof. intros Hd. unfold is_hex. by rewrite hex_value_digit. Qed.

Lemma is_hex_plain c : is_hex c = true → is_plain c = true ∧ Ascii.eqb c "." = false ∧
  Ascii.eqb c "-" = false ∧ Ascii.eqb c "+" = false.
Proof. destruct c as [[] [] [] [] [] [] [] []]; vm_compute; done. Qed.

Lemma forall_bytes_impl (p q : ascii → bool) s :
  (∀ c, p c = true → q c = true) → forall_bytes p s = true → forall_bytes q s = true.
Proof. intros Hpq. induction s as [|c s IH]; simpl; [done|]. rewrite !andb_true_iff. intuition. Qed.

Lemma forall_bytes_app p a b : forall_bytes p (a ++ b) = forall_bytes p a && forall_bytes p b.
Proof. induction a as [|c a IH]; simpl; [done|]. by rewrite IH, andb_assoc. Qed.

Lemma byte_in_forall (p : ascii → bool) c s : p c = false → forall_bytes p s = true → byte_in c s = false.
Proof.
  intros Hc. induction s as [|x s IH]; simpl; [done|]. rewrite andb_true_iff. intros [Hx Hs]. rewrite IH by done.
  destruct (Ascii.eqb_spec c x); [congruence|done].
Qed.

Lemma EncodeToString_hex s : forall_bytes is_hex (EncodeToString s) = true.
Proof.
  induction s as [|c s IH]; [done|]. pose proof (byte_value_bounds c). simpl.
  rewrite !is_hex_digit, IH by (Z.to_euclidean_division_equations; lia). done.
Qed.

Lemma hex_go_number f n acc a :
  0 <= n < 16 ^ Z.of_nat (S f) → a = 0 → hex_number a (hex_go (S f) n acc) = hex_number n acc.
Proof.
  revert n acc. induction f as [|f IH]; intros n acc Hn ->.
  - simpl in Hn. simpl. rewrite Z.mod_small by lia. rewrite (proj2 (Z.ltb_lt _ _)) by lia. simpl.
    by rewrite hex_value_digit.
  - remember (S f) as g eqn:Hg. cbn [hex_go]. destruct (Z.ltb_spec n 16).
    + simpl. rewrite Z.mod_small, hex_value_digit by lia. done.
    + subst g. rewrite IH; [|rewrite (Nat2Z.inj_succ (S f)), Z.pow_succ_r in Hn by lia; Z.to_euclidean_division_equations; lia|done].
      cbn [hex_number]. rewrite hex_value_digit by (Z.to_euclidean_division_equations; lia).
      f_equal. Z.to_euclidean_division_equations; lia.
Qed.

Lemma hex_go_hex f n acc : 0 <= n → forall_bytes is_hex acc = true → forall_bytes is_hex (hex_go f n acc) = true.
Proof.
  revert n acc. induction f as [|f IH]; intros n acc Hn Ha; [done|]. simpl.
  assert (forall_bytes is_hex (String (hex_digit (n mod 16)) acc) = true) as Hd
    by (simpl; rewrite is_hex_digit, Ha by (Z.to_euclidean_division_equations; lia); done).
  destruct (n <? 16); [done|]. apply IH; [Z.to_euclidean_division_equations; lia|done].
Qed.

Lemma hex_go_nonempty f n acc : hex_go (S f) n acc ≠ "".
Proof.
  assert (∀ f n acc, acc ≠ "" → hex_go f n acc ≠ "") as Hne.
  { clear. induction f as [|f IH]; intros n acc Ha; [done|]. simpl. destruct (_ <? _); [done|]. by apply IH. }
  simpl. destruct (_ <? _); [done|]. by apply Hne.
Qed.

Lemma ParseIntHex_FormatHex z : 0 <= z <= max_int64 → ParseIntHex (FormatHex z) = Some z.
Proof.
  intros Hz. unfold FormatHex. rewrite (proj2 (Z.ltb_ge _ _)) by lia.
  assert (hex_number 0 (hex_go 16 z "") = Some z) as Hn
    by (apply hex_go_number; [unfold max_int64 in Hz; simpl Z.of_nat; lia|done]).
  pose proof (hex_go_hex 16 z "" ltac:(lia) eq_refl) as Hh. pose proof (hex_go_nonempty 15 z "") as Hne.
  destruct (hex_go 16 z "") as [|c r] eqn:E; [done|]. unfold ParseIntHex.
  simpl in Hh. apply andb_true_iff in Hh as [(_ & _ & Hm & Hp)%is_hex_plain _].
  assert (in_int64 z = true) as Hin by (unfold in_int64, min_int64 in *; rewrite !(proj2 (Z.leb_le _ _)) by lia; done).
  destruct c as [[] [] [] [] [] [] [] []]; try discriminate; cbv beta iota zeta; rewrite Hn, Z.mul_1_l, Hin; reflexivity.
Qed.

Lemma TrimRightSpace_plain s : forall_bytes is_plain s = true → TrimRightSpace s = s.
Proof.
  induction s as [|c s IH]; [done|]. cbn [forall_bytes TrimRightSpace]. rewrite andb_true_iff. intros [Hc Hs].
  rewrite (IH Hs). unfold is_plain in Hc. apply andb_true_iff in Hc as [_ Hc%negb_true_iff].
  destruct s; [by rewrite Hc|done].
Qed.

Lemma TrimSpace_plain s : forall_bytes is_plain s = true → TrimSpace s = s.
Proof.
  intros Hs. unfold TrimSpace. assert (TrimLeftSpace s = s) as ->; [|by apply TrimRightSpace_plain].
  destruct s as [|c s]; [done|]. cbn [forall_bytes TrimLeftSpace] in *. apply andb_true_iff in Hs as [Hc _].
  unfold is_plain in Hc. apply andb_true_iff in Hc as [_ Hc%negb_true_iff]. by rewrite Hc.
Qed.

Lemma plain_no_quote s : forall_bytes is_plain s = true → byte_in dquote s = false.
Proof. by apply byte_in_forall. Qed.

Lemma hex_plain s : forall_bytes is_hex s = true → forall_bytes is_plain s = true.
Proof. apply forall_bytes_impl. intros c Hc. by apply is_hex_plain. Qed.

Lemma hex_no_dot s : forall_bytes is_hex s = true → byte_in "." s = false.
Proof. by apply byte_in_forall. Qed.

Section Client.
Context (md5 sha256 : string → string) (hmac_sha256 : string → string → string).

Lemma FormatHex_hex z : 0 <= z → forall_bytes is_hex (FormatHex z) = true.
Proof. intros Hz. unfold FormatHex. rewrite (proj2 (Z.ltb_ge _ _)) by lia. by apply hex_go_hex. Qed.

Lemma parseNonce_newNonce d rnd now :
  0 <= now / Second <= max_int64 →
  parseNonce hmac_sha256 d (newNonce hmac_sha256 d rnd now) = Some (now / Second * Second).
Proof.
  intros Hn. unfold parseNonce, newNonce, SplitN3.
  change (?a ++ "." ++ ?b ++ "." ++ ?c)%string with (a ++ String "." (b ++ String "." c))%string.
  rewrite Cut_app by (apply hex_no_dot, FormatHex_hex; lia).
  rewrite Cut_app by apply hex_no_dot, EncodeToString_hex.
  rewrite String.eqb_refl. by rewrite ParseIntHex_FormatHex.
Qed.

Lemma newNonce_plain d rnd now :
  0 <= now / Second → forall_bytes is_plain (newNonce hmac_sha256 d rnd now) = true.
Proof.
  intros Hn. unfold newNonce. rewrite !forall_bytes_app.
  rewrite (hex_plain (FormatHex _)) by (by apply FormatHex_hex). unfold nonceMAC.
  by rewrite !(hex_plain (EncodeToString _)) by apply EncodeToString_hex.
Qed.

(** The header a client sends in answer to a challenge for MD5, with the
    directives in the usual order. *)
Definition directive (k v rest : string) : string := (k ++ String "=" (String dquote (v ++ String dquote rest)))%string.
Definition client_params (username nonce uri cnonce response : string) : string :=
  directive "username" username (", " ++ directive "realm" realm (", " ++ directive "nonce" nonce (", " ++ directive "uri" uri
    (", algorithm=MD5, qop=auth, nc=00000001, " ++ directive "cnonce" cnonce (", " ++ directive "response" response "")))))%string.

Definition client_response (username password nonce uri cnonce : string) : string :=
  md5Hex md5 (Join [md5Hex md5 (username ++ ":" ++ realm ++ ":" ++ password)%string; nonce; "00000001"; cnonce; "auth";
                    md5Hex md5 ("POST:" ++ uri)%string] ":").

Lemma scan_comma s acc : scan (", " ++ s) acc = scan s acc.
Proof. change (", " ++ s)%string with (String "," (String " " s)). by rewrite !scan_skip. Qed.

Definition params_map (username nonce uri cnonce response : string) (acc : gmap string string) : gmap string string :=
  <["response" := response]> (<["cnonce" := cnonce]> (<["nc" := "00000001"]> (<["qop" := "auth"]> (<["algorithm" := "MD5"]>
    (<["uri" := uri]> (<["nonce" := nonce]> (<["realm" := realm]> (<["username" := username]> acc)))))))).

Lemma client_params_parsed username nonce uri cnonce response acc :
  Forall (λ s, forall_bytes is_plain s = true) [username; nonce; uri; cnonce; response] →
  scan (client_params username nonce uri cnonce response) acc = params_map username nonce uri cnonce response acc.
Proof.
  rewrite !Forall_cons. intros (Hu & Hn & Hi & Hc & Hr & _). unfold client_params, directive, params_map.
  rewrite scan_quoted, scan_comma by auto using plain_no_quote.
  rewrite scan_quoted, scan_comma by auto using plain_no_quote.
  rewrite scan_quoted, scan_comma by auto using plain_no_quote.
  rewrite scan_quoted by auto using plain_no_quote.
  change (", algorithm=MD5, qop=auth, nc=00000001, " ++ ?s)%string
    with (", " ++ ("algorithm" ++ String "=" ("MD5" ++ String "," (" qop=auth, nc=00000001, " ++ s))))%string.
  rewrite scan_comma, scan_bare by done.
  change (String "," (" qop=auth, nc=00000001, " ++ ?s))%string
    with (", " ++ ("qop" ++ String "=" ("auth" ++ String "," (" nc=00000001, " ++ s))))%string.
  rewrite scan_comma, scan_bare by done.
  change (String "," (" nc=00000001, " ++ ?s))%string
    with (", " ++ ("nc" ++ String "=" ("00000001" ++ String "," (" " ++ s))))%string.
  rewrite scan_comma, scan_bare by done.
  change (String "," (" " ++ ?s))%string with (", " ++ s)%string.
  rewrite scan_comma, scan_quoted, scan_comma by auto using plain_no_quote.
  rewrite scan_quoted by auto using plain_no_quote.
  change (scan "" ?m) with m. by rewrite !TrimSpace_plain by done.
Qed.

(** The parameters that were read have these values. *)
Definition reads_as (params : gmap string string) (l : list (string * string)) : Prop :=
  Forall (λ kv, params !! kv.1 = Some kv.2) l.

(** Any header that reads as the right answer to a challenge is accepted. *)
Lemma answer_accepted d username password dev perDevice alg hashHex uri cnonce rnd issued now r rest (tab : NonceTable) :
  let nonce := newNonce hmac_sha256 d rnd issued in
  reads_as (parseDigestParams rest)
    [("username", username); ("realm", realm); ("nonce", nonce); ("uri", uri); ("algorithm", alg); ("qop", "auth");
     ("nc", "00000001"); ("cnonce", cnonce);
     ("response", hashHex (Join [hashHex (username ++ ":" ++ realm ++ ":" ++ password)%string; nonce; "00000001"; cnonce; "auth";
                                 hashHex (rq_Method r ++ ":" ++ uri)%string] ":"))] →
  hashFuncFor md5 sha256 alg = Some hashHex →
  passwordFor d username = Some (password, dev, perDevice) → rq_RequestURI r = uri →
  0 <= issued / Second <= max_int64 → now <= issued / Second * Second + nonceTTL → tab !! nonce = None →
  (verifyDigest md5 sha256 hmac_sha256 d r rest now tab).1 = AuthOk (mkAuthIdentity username dev (negb perDevice)).
Proof.
  intros nonce Hparse Halg Hpw Huri Hi Hnow Hnew. unfold verifyDigest, digest_response. unfold reads_as in Hparse.
  rewrite !Forall_cons in Hparse. cbn [fst snd] in Hparse.
  destruct Hparse as (H1 & H2 & H3 & H4 & H5 & H6 & H7 & H8 & H9 & _). unfold param.
  rewrite H1, H2, H3, H4, H5, H6, H7, H8, H9. cbn [default id from_option is_some].
  rewrite Hpw, Huri, !String.eqb_refl. cbn [negb andb]. unfold nonce at 1. rewrite parseNonce_newNonce by done.
  rewrite Halg. cbv beta iota zeta. change (String.eqb "auth" "") with false. cbn [negb andb]. rewrite String.eqb_refl. cbn [negb].
  rewrite (proj2 (Z.ltb_ge _ _)) by lia.
  change (checkReplay nonce "auth" "00000001" ?e ?n tab) with (CheckAndRecord nonce 1 e tab).
  unfold CheckAndRecord. by rewrite Hnew.
Qed.

(** Any header whose directives read back as those of the client. *)
Lemma answer_verified d username password dev perDevice uri cnonce rnd issued now r rest (tab : NonceTable) :
  let nonce := newNonce hmac_sha256 d rnd issued in
  parseDigestParams rest
    = params_map username nonce uri cnonce (client_response username password nonce uri cnonce) ∅ →
  passwordFor d username = Some (password, dev, perDevice) → rq_Method r = "POST" → rq_RequestURI r = uri →
  0 <= issued / Second <= max_int64 → now <= issued / Second * Second + nonceTTL → tab !! nonce = None →
  (verifyDigest md5 sha256 hmac_sha256 d r rest now tab).1 = AuthOk (mkAuthIdentity username dev (negb perDevice)).
Proof.
  intros nonce Hparse Hpw Hmethod. apply (answer_accepted _ _ password _ _ "MD5" (md5Hex md5) _ cnonce); [|done|done].
  rewrite Hparse, Hmethod. by repeat constructor.
Qed.

Lemma client_plain d username password uri cnonce rnd issued :
  let nonce := newNonce hmac_sha256 d rnd issued in
  Forall (λ s, forall_bytes is_plain s = true) [username; uri; cnonce] → 0 <= issued / Second →
  Forall (λ s, forall_bytes is_plain s = true)
    [username; nonce; uri; cnonce; client_response username password nonce uri cnonce].
Proof.
  intros nonce. rewrite !Forall_cons. intros (Hu & Hr & Hc & _) Hi. split_and!; auto; [by apply newNonce_plain|].
  apply hex_plain, EncodeToString_hex.
Qed.

(** A client that answers its challenge is let in.  For every credential the
    server knows, the request that carries the Digest response computed from
    the right password and a nonce of this server not older than ten minutes
    and not seen before is authenticated, as that credential and no other. *)
Theorem honest_client_is_authenticated d username password dev perDevice uri cnonce rnd issued now tls ip (tab : NonceTable) :
  let nonce := newNonce hmac_sha256 d rnd issued in
  let header := ("Digest " ++ client_params username nonce uri cnonce
                   (client_response username password nonce uri cnonce))%string in
  passwordFor d username = Some (password, dev, perDevice) →
  Forall (λ s, forall_bytes is_plain s = true) [username; uri; cnonce] →
  0 <= issued / Second <= max_int64 → now <= issued / Second * Second + nonceTTL → tab !! nonce = None →
  (Verify md5 sha256 hmac_sha256 d (mkRequest "POST" uri header tls ip) now tab).1
  = AuthOk (mkAuthIdentity username dev (negb perDevice)).
Proof.
  intros nonce header Hpw Hplain Hi Hnow Hnew. unfold Verify, header. cbn [rq_Authorization]. rewrite CutPrefix_app.
  eapply answer_verified; eauto. rewrite parseDigestParams_scan. apply client_params_parsed.
  apply client_plain; [done|lia].
Qed.
End Client.

(** *** A concrete fleet *)

Definition w_hash (s : string) : string := String.substring 0 4 s.
Definition w_hmac (k s : string) : string := (String.substring 0 2 k ++ s)%string.
Definition w_authenticator : DigestAuthenticator :=
  mkAuthenticator "fleet" "shared-secret" false
    (Some (λ u, if String.eqb u "cwmp-1" then Some ("device-secret", "d-1") else None)) "nonce-secret".
Definition w_nonce : string := newNonce w_hmac w_authenticator "abcdef" (1000 * Second).
Definition w_client : HTTPRequest :=
  mkRequest "POST" "/cwmp"
    ("Digest " ++ client_params "cwmp-1" w_nonce "/cwmp" "c0ffee"
       (client_response w_hash "cwmp-1" "device-secret" w_nonce "/cwmp" "c0ffee"))%string None "192.0.2.7".
Definition w_auth_trace : list auth_event :=
  [EvRequest w_authenticator w_client (1001 * Second); EvPurge (1002 * Second);
   EvRequest w_authenticator w_client (1003 * Second)].

(** The replayed request is refused: one use is accepted, not two. *)
Lemma digest_response_accepted_once_witness :
  length (accepted_uses w_hash w_hash w_hmac w_auth_trace (no_nonces : NonceTable)) = 1%nat ∧
  NoDup (accepted_uses w_hash w_hash w_hmac w_auth_trace (no_nonces : NonceTable)).
Proof.
  split; [vm_compute; reflexivity|].
  apply (digest_response_accepted_once w_hash w_hash w_hmac w_auth_trace).
  repeat constructor; vm_compute; discriminate.
Defined.

Lemma honest_client_is_authenticated_witness :
  (Verify w_hash w_hash w_hmac w_authenticator w_client (1001 * Second) (∅ : NonceTable)).1
  = AuthOk (mkAuthIdentity "cwmp-1" "d-1" false).
Proof.
  apply (honest_client_is_authenticated w_hash w_hash w_hmac w_authenticator "cwmp-1" "device-secret" "d-1" true
    "/cwmp" "c0ffee" "abcdef" (1000 * Second) (1001 * Second) None "192.0.2.7" ∅);
    [reflexivity|repeat constructor|vm_compute; split; discriminate|vm_compute; discriminate|reflexivity].
Defined.
