(* ===== verification/JobModel.v ===== *)
(** * Jobs: data model

    [internal/jobs]: job types and statuses ([job.go]), payload shapes and
    their JSON codecs ([payloads.go]), the job row, and the predicates on jobs
    that need no database ([diagnostics.go], [verification.go]). *)

From S2P Require Import Prelude GoStrings Json.

(** ** Types and statuses *)

Inductive JobType : Type :=
| TypeSetParameter
| TypeGetParameter
| TypeConnectionRequest
| TypeFirmwareDownload
| TypeDiagnosticsPing
| TypeDiagnosticsTraceroute
| TypeDiagnosticsDownload
| TypeDiagnosticsUpload
| TypeAddObject
| TypeDeleteObject
| TypeReboot
| TypeFactoryReset
| TypeScheduleInform
| TypeSetParameterAttributes
| TypeGetParameterAttributes
| TypeUpload
| TypeParameterDiscovery.

Inductive JobStatus : Type :=
| StatusQueued
| StatusRPCSent
| StatusInProgress
| StatusAwaitingTransferComplete
| StatusAwaitingDiagnosticsComplete
| StatusSuccess
| StatusFailed
| StatusTimeout.

#[global] Instance JobType_eq_dec : EqDecision JobType.
Proof. solve_decision. Defined.
#[global] Instance JobStatus_eq_dec : EqDecision JobStatus.
Proof. solve_decision. Defined.

Definition type_eqb (a b : JobType) : bool := bool_decide (a = b).
Definition status_eqb (a b : JobStatus) : bool := bool_decide (a = b).
Definition type_in (t : JobType) (l : list JobType) : bool := bool_decide (t ∈ l).

(** The text of a type, as stored and as quoted in fault strings. *)
Definition type_name (t : JobType) : string :=
  match t with
  | TypeSetParameter => "SET_PARAMETER"
  | TypeGetParameter => "GET_PARAMETER"
  | TypeConnectionRequest => "CONNECTION_REQUEST"
  | TypeFirmwareDownload => "FIRMWARE_DOWNLOAD"
  | TypeDiagnosticsPing => "DIAGNOSTICS_PING"
  | TypeDiagnosticsTraceroute => "DIAGNOSTICS_TRACEROUTE"
  | TypeDiagnosticsDownload => "DIAGNOSTICS_DOWNLOAD"
  | TypeDiagnosticsUpload => "DIAGNOSTICS_UPLOAD"
  | TypeAddObject => "ADD_OBJECT"
  | TypeDeleteObject => "DELETE_OBJECT"
  | TypeReboot => "REBOOT"
  | TypeFactoryReset => "FACTORY_RESET"
  | TypeScheduleInform => "SCHEDULE_INFORM"
  | TypeSetParameterAttributes => "SET_PARAMETER_ATTRIBUTES"
  | TypeGetParameterAttributes => "GET_PARAMETER_ATTRIBUTES"
  | TypeUpload => "UPLOAD"
  | TypeParameterDiscovery => "PARAMETER_DISCOVERY"
  end.

Definition sessionDispatchableTypes : list JobType :=
  [TypeSetParameter; TypeGetParameter; TypeFirmwareDownload; TypeDiagnosticsPing;
   TypeDiagnosticsTraceroute; TypeDiagnosticsDownload; TypeDiagnosticsUpload;
   TypeAddObject; TypeDeleteObject; TypeReboot; TypeFactoryReset;
   TypeScheduleInform; TypeSetParameterAttributes; TypeGetParameterAttributes; TypeUpload;
   TypeParameterDiscovery].

(** RPCs that must never be blindly repeated ([lease.go]). *)
Definition nonRepeatableTypes : list JobType :=
  [TypeAddObject; TypeDeleteObject; TypeReboot; TypeFactoryReset;
   TypeFirmwareDownload; TypeUpload].

(** [newCommandKey]: the prefix a type's command keys carry. *)
Definition command_key_prefix (t : JobType) : string :=
  match t with
  | TypeSetParameter => "setparam"
  | TypeGetParameter => "getparam"
  | TypeConnectionRequest => "cr"
  | TypeFirmwareDownload => "fw"
  | TypeDiagnosticsPing => "diag"
  | TypeDiagnosticsTraceroute => "trace"
  | TypeDiagnosticsDownload => "diagdown"
  | TypeDiagnosticsUpload => "diagup"
  | TypeAddObject => "addobj"
  | TypeDeleteObject => "delobj"
  | TypeReboot => "reboot"
  | TypeFactoryReset => "reset"
  | TypeScheduleInform => "schedinform"
  | TypeSetParameterAttributes => "setattr"
  | TypeGetParameterAttributes => "getattr"
  | TypeUpload => "upload"
  | TypeParameterDiscovery => "discover"
  end.

(** [newCommandKey]: [date] is today's UTC date, [random] the hex text of the
    four bytes read from [crypto/rand]. *)
Definition newCommandKey (t : JobType) (date random : string) : string :=
  (command_key_prefix t ++ "_" ++ date ++ "_" ++ random)%string.

(** ** Payload shapes *)

Record ParameterWrite : Type := mkParameterWrite {
  pw_Name : string;
  pw_Value : string;
  pw_Type : string;
  pw_SecretHandle : string
}.

Record SetParameterPayload : Type := mkSetParameterPayload {
  sp_EvidenceFirmware : string;
  sp_EvidenceBound : bool;
  sp_NonReadable : list string;
  sp_Parameters : list ParameterWrite;
  sp_Verify : bool;
  sp_VerificationPending : bool
}.

Record GetParameterPayload : Type := mkGetParameterPayload {
  gp_EvidenceFirmware : string;
  gp_EvidenceBound : bool;
  gp_Paths : list string;
  gp_Instances : bool;
  gp_Firmware : string
}.

Record FirmwareDownloadPayload : Type := mkFirmwareDownloadPayload {
  fd_FirmwareImageID : string;
  fd_FileType : string;
  fd_URL : string;
  fd_Username : string;
  fd_Password : string;
  fd_FileSize : Z;
  fd_TargetFilename : string;
  fd_DelaySeconds : Z;
  fd_USPInstance : string
}.

Record DiagnosticsPlan : Type := mkDiagnosticsPlan {
  plan_Trigger : list ParameterWrite;
  plan_PollPaths : list string
}.

Record DiagnosticsPingPayload : Type := mkDiagnosticsPingPayload {
  ping_Host : string;
  ping_NumberOfRepetitions : Z;
  ping_Timeout : Z;
  ping_DataBlockSize : Z;
  ping_DSCP : Z;
  ping_Prefix : string;
  ping_Plan : DiagnosticsPlan
}.

Record DiagnosticsTraceroutePayload : Type := mkDiagnosticsTraceroutePayload {
  trace_Host : string;
  trace_NumberOfTries : Z;
  trace_Timeout : Z;
  trace_DataBlockSize : Z;
  trace_DSCP : Z;
  trace_MaxHopCount : Z;
  trace_Prefix : string;
  trace_Plan : DiagnosticsPlan
}.

(** The fields DIAGNOSTICS_DOWNLOAD and DIAGNOSTICS_UPLOAD are rendered from. *)
Record DiagnosticsTransferPayload : Type := mkDiagnosticsTransferPayload {
  dt_URL : string;
  dt_TestFileLength : Z;
  dt_Plan : DiagnosticsPlan
}.

Record AddObjectPayload : Type := mkAddObjectPayload {
  ao_ObjectPath : string;
  ao_Parameters : list ParameterWrite
}.

Record DeleteObjectPayload : Type := mkDeleteObjectPayload { do_ObjectPath : string }.

Record ScheduleInformPayload : Type := mkScheduleInformPayload { si_DelaySeconds : Z }.

Record AttributeWrite : Type := mkAttributeWrite { aw_Name : string; aw_Notification : Z }.

Record SetParameterAttributesPayload : Type := mkSetParameterAttributesPayload {
  sa_Attributes : list AttributeWrite
}.

Record GetParameterAttributesPayload : Type := mkGetParameterAttributesPayload {
  ga_Paths : list string
}.

Record UploadPayload : Type := mkUploadPayload {
  up_FileType : string;
  up_URL : string;
  up_Username : string;
  up_Password : string;
  up_DelaySeconds : Z
}.

Record ParameterDiscoveryPayload : Type := mkParameterDiscoveryPayload {
  pd_Root : string;
  pd_FallbackRoot : string;
  pd_IsFallback : bool;
  pd_Incremental : bool;
  pd_Cursor : string;
  pd_Pending : list string;
  pd_Visited : gmap string bool;
  pd_Names : gmap string bool;
  pd_Skipped : list string;
  pd_Retried : gmap string bool;
  pd_Firmware : string;
  pd_Capabilities : gmap string json;
  pd_Merge : bool
}.

(** ** Decoders ([json.Unmarshal]) *)

Definition decode_write : option json → option ParameterWrite :=
  decode_struct (λ m,
    n ← decode_string (member "name" m);
    v ← decode_string (member "value" m);
    t ← decode_string (member "type" m);
    h ← decode_string (member "secret_handle" m);
    Some (mkParameterWrite n v t h)).

Definition decode_SetParameter (j : json) : option SetParameterPayload :=
  decode_struct (λ m,
    f ← decode_string (member "evidence_firmware" m);
    b ← decode_bool (member "evidence_bound" m);
    nr ← decode_strings (member "non_readable" m);
    ps ← decode_list decode_write (member "parameters" m);
    v ← decode_bool (member "verify" m);
    vp ← decode_bool (member "verification_pending" m);
    Some (mkSetParameterPayload f b nr ps v vp)) (Some j).

Definition decode_GetParameter (j : json) : option GetParameterPayload :=
  decode_struct (λ m,
    f ← decode_string (member "evidence_firmware" m);
    b ← decode_bool (member "evidence_bound" m);
    ps ← decode_strings (member "paths" m);
    i ← decode_bool (member "instances" m);
    fw ← decode_string (member "firmware" m);
    Some (mkGetParameterPayload f b ps i fw)) (Some j).

Definition decode_FirmwareDownload (j : json) : option FirmwareDownloadPayload :=
  decode_struct (λ m,
    i ← decode_string (member "firmware_image_id" m);
    ft ← decode_string (member "file_type" m);
    u ← decode_string (member "url" m);
    us ← decode_string (member "username" m);
    pw ← decode_string (member "password" m);
    sz ← decode_int (member "file_size" m);
    tf ← decode_string (member "target_filename" m);
    d ← decode_int (member "delay_seconds" m);
    ui ← decode_string (member "usp_instance" m);
    Some (mkFirmwareDownloadPayload i ft u us pw sz tf d ui)) (Some j).

Definition decode_plan (m : list (string * json)) : option DiagnosticsPlan :=
  tr ← decode_list decode_write (member "trigger" m);
  pp ← decode_strings (member "poll_paths" m);
  Some (mkDiagnosticsPlan tr pp).

Definition decode_DiagnosticsPing (j : json) : option DiagnosticsPingPayload :=
  decode_struct (λ m,
    h ← decode_string (member "host" m);
    n ← decode_int (member "number_of_repetitions" m);
    t ← decode_int (member "timeout" m);
    d ← decode_int (member "data_block_size" m);
    q ← decode_int (member "dscp" m);
    p ← decode_string (member "prefix" m);
    pl ← decode_plan m;
    Some (mkDiagnosticsPingPayload h n t d q p pl)) (Some j).

Definition decode_DiagnosticsTraceroute (j : json) : option DiagnosticsTraceroutePayload :=
  decode_struct (λ m,
    h ← decode_string (member "host" m);
    n ← decode_int (member "number_of_tries" m);
    t ← decode_int (member "timeout" m);
    d ← decode_int (member "data_block_size" m);
    q ← decode_int (member "dscp" m);
    mh ← decode_int (member "max_hop_count" m);
    p ← decode_string (member "prefix" m);
    pl ← decode_plan m;
    Some (mkDiagnosticsTraceroutePayload h n t d q mh p pl)) (Some j).

Definition decode_uint64 (o : option json) : option Z :=
  match o with
  | None | Some JNull => Some 0
  | Some (JNum z) => if (0 <=? z) && (z <? 2 ^ 64) then Some z else None
  | Some _ => None
  end.

Definition decode_DiagnosticsTransfer (j : json) : option DiagnosticsTransferPayload :=
  decode_struct (λ m,
    u ← decode_string (member "url" m);
    n ← decode_uint64 (member "test_file_length" m);
    pl ← decode_plan m;
    Some (mkDiagnosticsTransferPayload u n pl)) (Some j).

Definition decode_AddObject (j : json) : option AddObjectPayload :=
  decode_struct (λ m,
    p ← decode_string (member "object_path" m);
    ps ← decode_list decode_write (member "parameters" m);
    Some (mkAddObjectPayload p ps)) (Some j).

Definition decode_DeleteObject (j : json) : option DeleteObjectPayload :=
  decode_struct (λ m, p ← decode_string (member "object_path" m); Some (mkDeleteObjectPayload p)) (Some j).

Definition decode_ScheduleInform (j : json) : option ScheduleInformPayload :=
  decode_struct (λ m, d ← decode_int (member "delay_seconds" m); Some (mkScheduleInformPayload d)) (Some j).

Definition decode_attribute : option json → option AttributeWrite :=
  decode_struct (λ m,
    n ← decode_string (member "name" m);
    k ← decode_int (member "notification" m);
    Some (mkAttributeWrite n k)).

Definition decode_SetParameterAttributes (j : json) : option SetParameterAttributesPayload :=
  decode_struct (λ m,
    l ← decode_list decode_attribute (member "attributes" m);
    Some (mkSetParameterAttributesPayload l)) (Some j).

Definition decode_GetParameterAttributes (j : json) : option GetParameterAttributesPayload :=
  decode_struct (λ m,
    l ← decode_strings (member "paths" m); Some (mkGetParameterAttributesPayload l)) (Some j).

Definition decode_Upload (j : json) : option UploadPayload :=
  decode_struct (λ m,
    ft ← decode_string (member "file_type" m);
    u ← decode_string (member "url" m);
    us ← decode_string (member "username" m);
    pw ← decode_string (member "password" m);
    d ← decode_int (member "delay_seconds" m);
    Some (mkUploadPayload ft u us pw d)) (Some j).

Definition decode_ParameterDiscovery (j : json) : option ParameterDiscoveryPayload :=
  decode_struct (λ m,
    r ← decode_string (member "root" m);
    fr ← decode_string (member "fallback_root" m);
    isf ← decode_bool (member "is_fallback" m);
    inc ← decode_bool (member "incremental" m);
    c ← decode_string (member "cursor" m);
    p ← decode_strings (member "pending" m);
    v ← decode_bool_map (member "visited" m);
    n ← decode_bool_map (member "names" m);
    s ← decode_strings (member "skipped" m);
    rt ← decode_bool_map (member "retried" m);
    fw ← decode_string (member "firmware" m);
    cs ← decode_raw_map (member "capabilities" m);
    mg ← decode_bool (member "merge" m);
    Some (mkParameterDiscoveryPayload r fr isf inc c p v n s rt fw cs mg)) (Some j).

(** ** Encoders ([json.Marshal]) *)

Definition encode_write (w : ParameterWrite) : json :=
  JObj ([("name", JStr (pw_Name w)); ("value", JStr (pw_Value w)); ("type", JStr (pw_Type w))]
        ++ omit_string "secret_handle" (pw_SecretHandle w)).

Definition encode_SetParameter (p : SetParameterPayload) : json :=
  JObj (omit_string "evidence_firmware" (sp_EvidenceFirmware p)
        ++ omit_bool "evidence_bound" (sp_EvidenceBound p)
        ++ omit_list "non_readable" JStr (sp_NonReadable p)
        ++ [("parameters", JArr (encode_write <$> sp_Parameters p))]
        ++ omit_bool "verify" (sp_Verify p)
        ++ omit_bool "verification_pending" (sp_VerificationPending p)).

Definition encode_GetParameter (p : GetParameterPayload) : json :=
  JObj (omit_string "evidence_firmware" (gp_EvidenceFirmware p)
        ++ omit_bool "evidence_bound" (gp_EvidenceBound p)
        ++ [("paths", JArr (JStr <$> gp_Paths p))]
        ++ omit_bool "instances" (gp_Instances p)
        ++ omit_string "firmware" (gp_Firmware p)).

Definition encode_ParameterDiscovery (p : ParameterDiscoveryPayload) : json :=
  JObj ([("root", JStr (pd_Root p))]
        ++ omit_string "fallback_root" (pd_FallbackRoot p)
        ++ omit_bool "is_fallback" (pd_IsFallback p)
        ++ omit_bool "incremental" (pd_Incremental p)
        ++ omit_string "cursor" (pd_Cursor p)
        ++ omit_list "pending" JStr (pd_Pending p)
        ++ omit_bool_map "visited" (pd_Visited p)
        ++ omit_bool_map "names" (pd_Names p)
        ++ omit_list "skipped" JStr (pd_Skipped p)
        ++ omit_bool_map "retried" (pd_Retried p)
        ++ omit_string "firmware" (pd_Firmware p)
        ++ omit_raw_map "capabilities" (pd_Capabilities p)
        ++ omit_bool "merge" (pd_Merge p)).

(** ** Round trips: what a handler stores is what the next one reads *)

Lemma decode_encode_write w : decode_write (Some (encode_write w)) = Some w.
Proof.
  destruct w as [n v t h]. unfold decode_write, encode_write, omit_string. simpl.
  by destruct (String.eqb_spec h ""); subst.
Qed.

Lemma decode_writes_encode l :
  decode_list decode_write (Some (JArr (encode_write <$> l))) = Some l.
Proof. apply (mapM_encode (λ j, decode_write (Some j))), decode_encode_write. Qed.

Lemma decode_encode_SetParameter p : decode_SetParameter (encode_SetParameter p) = Some p.
Proof.
  destruct p as [f b nr ps v vp]. unfold decode_SetParameter, encode_SetParameter.
  rewrite <- (app_nil_r (omit_bool "verification_pending" _)).
  cbn [sp_EvidenceFirmware sp_EvidenceBound sp_NonReadable sp_Parameters
       sp_Verify sp_VerificationPending app].
  unfold decode_struct. set (m := _ ++ _).
  decode_member (decode_string (member "evidence_firmware" m)) f.
  decode_member (decode_bool (member "evidence_bound" m)) b.
  decode_member (decode_strings (member "non_readable" m)) nr.
  assert (decode_list decode_write (member "parameters" m) = Some ps) as ->
    by (subst m; skip_members; rewrite member_here; apply decode_writes_encode).
  cbn [mbind option_bind].
  decode_member (decode_bool (member "verify" m)) v.
  decode_member (decode_bool (member "verification_pending" m)) vp.
  done.
Qed.

Lemma decode_encode_GetParameter p : decode_GetParameter (encode_GetParameter p) = Some p.
Proof.
  destruct p as [f b ps i fw]. unfold decode_GetParameter, encode_GetParameter.
  rewrite <- (app_nil_r (omit_string "firmware" _)).
  cbn [gp_EvidenceFirmware gp_EvidenceBound gp_Paths gp_Instances gp_Firmware app].
  unfold decode_struct. set (m := _ ++ _).
  decode_member (decode_string (member "evidence_firmware" m)) f.
  decode_member (decode_bool (member "evidence_bound" m)) b.
  decode_member (decode_strings (member "paths" m)) ps.
  decode_member (decode_bool (member "instances" m)) i.
  decode_member (decode_string (member "firmware" m)) fw.
  done.
Qed.

Lemma decode_encode_ParameterDiscovery p :
  decode_ParameterDiscovery (encode_ParameterDiscovery p) = Some p.
Proof.
  destruct p as [r fr isf inc c pe v n s rt fw cs mg].
  unfold decode_ParameterDiscovery, encode_ParameterDiscovery.
  rewrite <- (app_nil_r (omit_bool "merge" _)).
  cbn [pd_Root pd_FallbackRoot pd_IsFallback pd_Incremental pd_Cursor pd_Pending
       pd_Visited pd_Names pd_Skipped pd_Retried pd_Firmware pd_Capabilities pd_Merge app].
  unfold decode_struct. set (m := ("root", _) :: _).
  change (member "root" m) with (Some (JStr r)). cbn [decode_string mbind option_bind].
  decode_member (decode_string (member "fallback_root" m)) fr.
  decode_member (decode_bool (member "is_fallback" m)) isf.
  decode_member (decode_bool (member "incremental" m)) inc.
  decode_member (decode_string (member "cursor" m)) c.
  decode_member (decode_strings (member "pending" m)) pe.
  decode_member (decode_bool_map (member "visited" m)) v.
  decode_member (decode_bool_map (member "names" m)) n.
  decode_member (decode_strings (member "skipped" m)) s.
  decode_member (decode_bool_map (member "retried" m)) rt.
  decode_member (decode_string (member "firmware" m)) fw.
  decode_member (decode_raw_map (member "capabilities" m)) cs.
  decode_member (decode_bool (member "merge" m)) mg.
  done.
Qed.

#[export] Hint Rewrite decode_encode_SetParameter decode_encode_GetParameter
  decode_encode_ParameterDiscovery : acs.

(** ** The job row

    [Job] of [job.go] with the two lease columns [scanJob] leaves out. A NULL
    [created_by] is the empty string, as [scanJob] reads it. *)

Record Job : Type := mkJob {
  ID : string;
  CommandKey : string;
  DeviceID : string;
  Type_ : JobType;
  Status : JobStatus;
  Payload : json;
  Attempts : Z;
  MaxAttempts : Z;
  CreatedBy : string;
  CreatedAt : GoTime;
  UpdatedAt : GoTime;
  StartedAt : option GoTime;
  CompletedAt : option GoTime;
  FaultCode : option string;
  FaultString : option string;
  ResultDetail : option json;
  IdempotencyKey : option string;
  RequestHash : option string;
  DiagnosticsDeadline : option GoTime;
  lease_owner : option string;
  leased_until : option GoTime
}.

(** The statuses a job ends in. *)
Definition finished (s : JobStatus) : bool :=
  match s with
  | StatusSuccess | StatusFailed | StatusTimeout => true
  | _ => false
  end.

(** *** Column updates

    [SET status = ...] runs the trigger of migration 0086: on the transition
    into a final status the payload's secrets are masked. *)

Definition set_status (st : JobStatus) (j : Job) : Job :=
  mkJob (ID j) (CommandKey j) (DeviceID j) (Type_ j) st
    (if finished st && negb (status_eqb (Status j) st) then redact (Payload j) else Payload j)
    (Attempts j) (MaxAttempts j) (CreatedBy j) (CreatedAt j) (UpdatedAt j) (StartedAt j)
    (CompletedAt j) (FaultCode j) (FaultString j) (ResultDetail j) (IdempotencyKey j)
    (RequestHash j) (DiagnosticsDeadline j) (lease_owner j) (leased_until j).

Definition set_payload (p : json) (j : Job) : Job :=
  mkJob (ID j) (CommandKey j) (DeviceID j) (Type_ j) (Status j) p
    (Attempts j) (MaxAttempts j) (CreatedBy j) (CreatedAt j) (UpdatedAt j) (StartedAt j)
    (CompletedAt j) (FaultCode j) (FaultString j) (ResultDetail j) (IdempotencyKey j)
    (RequestHash j) (DiagnosticsDeadline j) (lease_owner j) (leased_until j).

Definition set_attempts (n : Z) (j : Job) : Job :=
  mkJob (ID j) (CommandKey j) (DeviceID j) (Type_ j) (Status j) (Payload j)
    n (MaxAttempts j) (CreatedBy j) (CreatedAt j) (UpdatedAt j) (StartedAt j)
    (CompletedAt j) (FaultCode j) (FaultString j) (ResultDetail j) (IdempotencyKey j)
    (RequestHash j) (DiagnosticsDeadline j) (lease_owner j) (leased_until j).

Definition set_updated (now : GoTime) (j : Job) : Job :=
  mkJob (ID j) (CommandKey j) (DeviceID j) (Type_ j) (Status j) (Payload j)
    (Attempts j) (MaxAttempts j) (CreatedBy j) (CreatedAt j) now (StartedAt j)
    (CompletedAt j) (FaultCode j) (FaultString j) (ResultDetail j) (IdempotencyKey j)
    (RequestHash j) (DiagnosticsDeadline j) (lease_owner j) (leased_until j).

Definition set_started (now : GoTime) (j : Job) : Job :=
  mkJob (ID j) (CommandKey j) (DeviceID j) (Type_ j) (Status j) (Payload j)
    (Attempts j) (MaxAttempts j) (CreatedBy j) (CreatedAt j) (UpdatedAt j) (Some now)
    (CompletedAt j) (FaultCode j) (FaultString j) (ResultDetail j) (IdempotencyKey j)
    (RequestHash j) (DiagnosticsDeadline j) (lease_owner j) (leased_until j).

Definition set_completed (now : GoTime) (j : Job) : Job :=
  mkJob (ID j) (CommandKey j) (DeviceID j) (Type_ j) (Status j) (Payload j)
    (Attempts j) (MaxAttempts j) (CreatedBy j) (CreatedAt j) (UpdatedAt j) (StartedAt j)
    (Some now) (FaultCode j) (FaultString j) (ResultDetail j) (IdempotencyKey j)
    (RequestHash j) (DiagnosticsDeadline j) (lease_owner j) (leased_until j).

Definition set_fault_code (c : string) (j : Job) : Job :=
  mkJob (ID j) (CommandKey j) (DeviceID j) (Type_ j) (Status j) (Payload j)
    (Attempts j) (MaxAttempts j) (CreatedBy j) (CreatedAt j) (UpdatedAt j) (StartedAt j)
    (CompletedAt j) (Some c) (FaultString j) (ResultDetail j) (IdempotencyKey j)
    (RequestHash j) (DiagnosticsDeadline j) (lease_owner j) (leased_until j).

Definition set_fault_string (s : string) (j : Job) : Job :=
  mkJob (ID j) (CommandKey j) (DeviceID j) (Type_ j) (Status j) (Payload j)
    (Attempts j) (MaxAttempts j) (CreatedBy j) (CreatedAt j) (UpdatedAt j) (StartedAt j)
    (CompletedAt j) (FaultCode j) (Some s) (ResultDetail j) (IdempotencyKey j)
    (RequestHash j) (DiagnosticsDeadline j) (lease_owner j) (leased_until j).

Definition set_detail (d : json) (j : Job) : Job :=
  mkJob (ID j) (CommandKey j) (DeviceID j) (Type_ j) (Status j) (Payload j)
    (Attempts j) (MaxAttempts j) (CreatedBy j) (CreatedAt j) (UpdatedAt j) (StartedAt j)
    (CompletedAt j) (FaultCode j) (FaultString j) (Some d) (IdempotencyKey j)
    (RequestHash j) (DiagnosticsDeadline j) (lease_owner j) (leased_until j).

Definition set_deadline (d : option GoTime) (j : Job) : Job :=
  mkJob (ID j) (CommandKey j) (DeviceID j) (Type_ j) (Status j) (Payload j)
    (Attempts j) (MaxAttempts j) (CreatedBy j) (CreatedAt j) (UpdatedAt j) (StartedAt j)
    (CompletedAt j) (FaultCode j) (FaultString j) (ResultDetail j) (IdempotencyKey j)
    (RequestHash j) d (lease_owner j) (leased_until j).

Definition set_lease (o : option string) (u : option GoTime) (j : Job) : Job :=
  mkJob (ID j) (CommandKey j) (DeviceID j) (Type_ j) (Status j) (Payload j)
    (Attempts j) (MaxAttempts j) (CreatedBy j) (CreatedAt j) (UpdatedAt j) (StartedAt j)
    (CompletedAt j) (FaultCode j) (FaultString j) (ResultDetail j) (IdempotencyKey j)
    (RequestHash j) (DiagnosticsDeadline j) o u.

(** [lease_owner = NULL, leased_until = NULL] *)
Definition clear_lease : Job → Job := set_lease None None.

(** ** Diagnostics ([diagnostics.go]) *)

Definition DiagnosticsMaxAttempts : Z := 40.
Definition diagnosticsBaseWindow : GoDuration := 10 * Minute.
Definition diagnosticsMaxWindow : GoDuration := 2 * Hour.

Definition IsCWMPDiagnosticType (t : JobType) : bool :=
  match t with
  | TypeDiagnosticsPing | TypeDiagnosticsTraceroute
  | TypeDiagnosticsDownload | TypeDiagnosticsUpload => true
  | _ => false
  end.

Definition DiagnosticsTriggered (j : Job) : bool := is_some (DiagnosticsDeadline j).

(** The run time the job's own inputs imply, in [int64] nanoseconds. *)
Definition expectedRunTime (j : Job) : GoDuration :=
  match Type_ j with
  | TypeDiagnosticsPing =>
      match decode_DiagnosticsPing (Payload j) with
      | Some p =>
          if (0 <? ping_NumberOfRepetitions p) && (0 <? ping_Timeout p)
          then wrap64 (wrap64 (ping_NumberOfRepetitions p * ping_Timeout p) * Millisecond)
          else 0
      | None => 0
      end
  | TypeDiagnosticsTraceroute =>
      match decode_DiagnosticsTraceroute (Payload j) with
      | Some p =>
          if (0 <? trace_NumberOfTries p) && (0 <? trace_Timeout p) && (0 <? trace_MaxHopCount p)
          then wrap64 (wrap64 (wrap64 (trace_NumberOfTries p * trace_Timeout p)
                               * trace_MaxHopCount p) * Millisecond)
          else 0
      | None => 0
      end
  | _ => 0
  end.

Definition DiagnosticsWindow (j : Job) : GoDuration :=
  let window := wrap64 (diagnosticsBaseWindow + expectedRunTime j) in
  if (diagnosticsMaxWindow <? window) || (window <? 0) then diagnosticsMaxWindow else window.

Definition DiagnosticsExpired (j : Job) (now : GoTime) : bool :=
  match DiagnosticsDeadline j with Some d => d <? now | None => false end.

(** ** Read-back verification ([verification.go]) *)

Record Verification : Type := mkVerification {
  Matched : list string;
  Mismatched : list string;
  Missing : list string;
  Skipped : list string
}.

Definition SensitivePath (path : string) : bool :=
  existsb (λ w, Contains (ToLower path) (ToLower w))
    ["password"; "passphrase"; "preSharedKey"; "secret"; "token"; "privatekey"].

Definition skipReadback (p : SetParameterPayload) (path : string) : bool :=
  SensitivePath path || existsb (String.eqb path) (sp_NonReadable p).

Definition VerificationPaths (p : SetParameterPayload) : list string :=
  List.filter (λ n, negb (skipReadback p n)) (pw_Name <$> sp_Parameters p).

Definition normalizeBool (v : string) : string :=
  if String.eqb v "1" then "true" else if String.eqb v "0" then "false" else v.

(** What one written parameter's read-back shows. *)
Inductive ReadbackOutcome : Type := RSkipped | RMissing | RMatched | RMismatched.

Definition readback_of (p : SetParameterPayload) (actual : gmap string string)
    (w : ParameterWrite) : ReadbackOutcome :=
  if skipReadback p (pw_Name w) then RSkipped
  else match actual !! pw_Name w with
       | None => RMissing
       | Some value =>
           let is_bool := String.eqb (TrimPrefix (pw_Type w) "xsd:") "boolean" in
           let expected := if is_bool then normalizeBool (pw_Value w) else pw_Value w in
           let value := if is_bool then normalizeBool value else value in
           if String.eqb value expected then RMatched else RMismatched
       end.

(** The loop of [CompareReadback]: append each name to the list it belongs to. *)
Definition record_readback (p : SetParameterPayload) (actual : gmap string string)
    (out : Verification) (w : ParameterWrite) : Verification :=
  match readback_of p actual w with
  | RSkipped => mkVerification (Matched out) (Mismatched out) (Missing out) (Skipped out ++ [pw_Name w])
  | RMissing => mkVerification (Matched out) (Mismatched out) (Missing out ++ [pw_Name w]) (Skipped out)
  | RMatched => mkVerification (Matched out ++ [pw_Name w]) (Mismatched out) (Missing out) (Skipped out)
  | RMismatched => mkVerification (Matched out) (Mismatched out ++ [pw_Name w]) (Missing out) (Skipped out)
  end.

Definition CompareReadback (p : SetParameterPayload) (actual : gmap string string) : Verification :=
  let out := foldl (record_readback p actual) (mkVerification [] [] [] []) (sp_Parameters p) in
  mkVerification (SortStrings (Matched out)) (SortStrings (Mismatched out))
                 (SortStrings (Missing out)) (SortStrings (Skipped out)).

Definition MissingReadPaths (paths : list string) (actual : gmap string string) : list string :=
  List.filter (λ path,
    negb (HasSuffix path "." || ContainsAny path "*[{(") && negb (is_some (actual !! path))) paths.
