(* ===== verification/Policies.v ===== *)
(** * Policies and configuration templates ([internal/policy], [internal/templates])

    What the fleet's operators want of devices that match a filter: the two
    tables, the filter ([ILIKE] on manufacturer or product class) and the
    tenant rule that goes with it.  The queries have no ORDER BY; the rows come
    in the order of [rows]. *)

From S2P Require Import Prelude GoStrings JobModel.

(** ** [ILIKE] *)

(** [text ILIKE pattern], case folded: [%] is any text, [_] any byte, a
    backslash quotes the next byte; [None] is the error for a pattern that ends
    in a backslash. *)
Fixpoint like (pattern text : string) : option bool :=
  match pattern with
  | EmptyString => Some (String.eqb text "")
  | String p rest =>
      if Ascii.eqb p "%" then
        (fix any (t : string) : option bool :=
           match like rest t with
           | Some false => match t with String _ t' => any t' | EmptyString => Some false end
           | r => r
           end) text
      else if Ascii.eqb p "_" then
        match text with String _ t => like rest t | EmptyString => Some false end
      else if Ascii.eqb p "\" then
        match rest with
        | EmptyString => match text with EmptyString => Some false | _ => None end
        | String q rest' =>
            match text with
            | String c t => if Ascii.eqb q c then like rest' t else Some false
            | EmptyString => Some false
            end
        end
      else
        match text with
        | String c t => if Ascii.eqb p c then like rest t else Some false
        | EmptyString => Some false
        end
  end.

Definition ilike (text pattern : string) : option bool := like (ToLower pattern) (ToLower text).

(** [$1 ILIKE filter OR $2 ILIKE filter] *)
Definition filter_matches (manufacturer productClass filter : string) : option bool :=
  match ilike manufacturer filter with
  | Some true => Some true
  | Some false => ilike productClass filter
  | None => None
  end.

(** [customer_id IS NULL OR customer_id = $3]: NULL equals nothing. *)
Definition tenant_matches (owner customer : option string) : bool :=
  match owner, customer with
  | None, _ => true
  | Some o, Some c => String.eqb o c
  | Some _, None => false
  end.

(** A WHERE over all rows; an error in one of them fails the query. *)
Fixpoint select_rows {A} (p : A → option bool) (l : list A) : result (list A) :=
  match l with
  | [] => Ok []
  | x :: rest =>
      match p x, select_rows p rest with
      | None, _ => Err "LIKE pattern must not end with escape character"
      | _, Err e => Err e
      | Some true, Ok out => Ok (x :: out)
      | Some false, Ok out => Ok out
      end
  end.

(** ** Policies *)

Record PolicyRow : Type := mkPolicyRow {
  po_ID : string;
  po_Name : string;
  po_ModelFilter : option string;
  po_ParameterName : string;
  po_DesiredValue : string;
  po_Enabled : bool;
  po_CustomerID : option string;
  po_CreatedBy : string;
  po_CreatedAt : GoTime;
  po_UpdatedAt : GoTime
}.

Abbreviation PolicyTable := (gmap string PolicyRow).
Definition ErrPolicyNotFound : string := "policy not found".

Definition CreatePolicy (uuid : string) (now : GoTime) (name : string) (modelFilter : option string)
    (parameterName desiredValue : string) (customerID : option string) (createdBy : string) (tab : PolicyTable)
  : result PolicyRow * PolicyTable :=
  let p := mkPolicyRow uuid name modelFilter parameterName desiredValue true customerID createdBy now now in
  if is_some (tab !! uuid) then (Err "duplicate key value violates unique constraint", tab)
  else (Ok p, <[uuid := p]> tab).

Definition PolicyByID (tab : PolicyTable) (id : string) : result PolicyRow :=
  match tab !! id with Some p => Ok p | None => Err ErrPolicyNotFound end.

Definition SetEnabled (now : GoTime) (id : string) (enabled : bool) (tab : PolicyTable) : result PolicyRow * PolicyTable :=
  let '(tab', n) := update_key id (λ _, true)
    (λ p, mkPolicyRow (po_ID p) (po_Name p) (po_ModelFilter p) (po_ParameterName p) (po_DesiredValue p) enabled
            (po_CustomerID p) (po_CreatedBy p) (po_CreatedAt p) now) tab in
  if n =? 0 then (Err ErrPolicyNotFound, tab) else (PolicyByID tab' id, tab').

Definition DeletePolicy (id : string) (tab : PolicyTable) : result unit * PolicyTable :=
  if is_some (tab !! id) then (Ok tt, delete id tab) else (Err ErrPolicyNotFound, tab).

Definition policy_applies (manufacturer productClass : string) (customer : option string) (p : PolicyRow) : option bool :=
  if negb (po_Enabled p) then Some false
  else
    match match po_ModelFilter p with None => Some true | Some f => filter_matches manufacturer productClass f end with
    | Some true => Some (tenant_matches (po_CustomerID p) customer)
    | r => r
    end.

Definition ForDevice (tab : PolicyTable) (manufacturer productClass : string) (deviceCustomerID : option string)
  : result (list PolicyRow) :=
  select_rows (policy_applies manufacturer productClass deviceCustomerID) (rows tab).

(** ** Templates *)

Record Template : Type := mkTemplate {
  te_ID : string;
  te_Name : string;
  te_Description : string;
  te_Parameters : list ParameterWrite;
  te_ModelFilter : option string;
  te_AutoApply : bool;
  te_CustomerID : option string;
  te_CreatedBy : string;
  te_CreatedAt : GoTime;
  te_UpdatedAt : GoTime
}.

Abbreviation TemplateTable := (gmap string Template).
Definition ErrTemplateNotFound : string := "config template not found".

(** Names are unique. *)
Definition CreateTemplate (uuid : string) (now : GoTime) (name description : string) (params : list ParameterWrite)
    (modelFilter : option string) (autoApply : bool) (customerID : option string) (createdBy : string)
    (tab : TemplateTable) : result Template * TemplateTable :=
  match params with
  | [] => (Err "template must have at least one parameter", tab)
  | _ =>
      let t := mkTemplate uuid name description params modelFilter autoApply customerID createdBy now now in
      if is_some (tab !! uuid) || existsb (λ r, String.eqb (te_Name r) name) (rows tab)
      then (Err "duplicate key value violates unique constraint", tab)
      else (Ok t, <[uuid := t]> tab)
  end.

Definition DeleteTemplate (id : string) (tab : TemplateTable) : result unit * TemplateTable :=
  if is_some (tab !! id) then (Ok tt, delete id tab) else (Err ErrTemplateNotFound, tab).

Definition template_applies (manufacturer productClass : string) (customer : option string) (t : Template) : option bool :=
  if negb (te_AutoApply t) then Some false
  else match te_ModelFilter t with
       | None => Some false
       | Some f =>
           match filter_matches manufacturer productClass f with
           | Some true => Some (tenant_matches (te_CustomerID t) customer)
           | r => r
           end
       end.

Definition MatchingAutoApply (tab : TemplateTable) (manufacturer productClass : string) (deviceCustomerID : option string)
  : result (list Template) :=
  select_rows (template_applies manufacturer productClass deviceCustomerID) (rows tab).

(** ** Laws *)

Lemma select_rows_ok {A} (p : A → option bool) l out :
  select_rows p l = Ok out → out = List.filter (λ x, default false (p x)) l.
Proof.
  revert out. induction l as [|x l IH]; intros out; simpl; [by intros [= <-]|].
  destruct (p x) as [[]|]; [| |done]; destruct (select_rows p l) as [o|]; try done; intros [= <-]; simpl;
    by rewrite <- (IH _ eq_refl).
Qed.

(** A filter without wildcards matches itself, whatever the case. *)
Definition no_wildcard (c : ascii) : bool := negb (Ascii.eqb c "%") && negb (Ascii.eqb c "_") && negb (Ascii.eqb c "\").

Lemma like_literal p t : forall_bytes no_wildcard p = true → like p t = Some (String.eqb p t).
Proof.
  revert t. induction p as [|c p IH]; intros t Hp; [simpl; by rewrite String.eqb_sym|].
  cbn [forall_bytes] in Hp. apply andb_true_iff in Hp as [Hc Hp]. unfold no_wildcard in Hc.
  apply andb_true_iff in Hc as [[H1%negb_true_iff H2%negb_true_iff]%andb_true_iff H3%negb_true_iff].
  cbn [like]. rewrite H1, H2, H3. destruct t as [|d t]; [done|]. cbn [String.eqb].
  destruct (Ascii.eqb c d); [by apply IH|done].
Qed.

(** A filter that starts and ends with [%] and has no other wildcard is a
    substring test. *)
Lemma like_any_prefix p t : (∀ u, like p u ≠ None) →
  like (String "%" p) t = Some true ↔ ∃ a b, t = (a ++ b)%string ∧ like p b = Some true.
Proof.
  intros Hne. cbn [like]. change (Ascii.eqb "%" "%") with true. cbv iota. induction t as [|c t IH].
  - destruct (like p "") as [[]|] eqn:E.
    + split; [|done]. intros _. by exists "", "".
    + split; [done|]. intros (a & b & Hab & Hb). destruct a; [|done].
      change ("" = b) in Hab. congruence.
    + by destruct (Hne "").
  - destruct (like p (String c t)) as [[]|] eqn:E; [| |by destruct (Hne (String c t))].
    + split; [|done]. intros _. by exists "", (String c t).
    + rewrite IH. split; intros (a & b & Hab & Hb).
      * exists (String c a), b. by rewrite Hab.
      * destruct a as [|x a]; [change (String c t = b) in Hab; congruence|]. injection Hab as -> ->. eauto.
Qed.
