(* ===== verification/Regex.v ===== *)
(** * Regular expressions

    The part of Go's [regexp] the server's anchored patterns use, by
    derivatives, with the proof that the matcher decides the language. *)

From S2P Require Import Prelude GoStrings.

Inductive regex : Type :=
| RNone
| REmpty
| RClass (p : ascii → bool)
| RSeq (a b : regex)
| RAlt (a b : regex)
| RStar (a : regex).

(** The language of an expression. *)
Inductive in_lang : regex → string → Prop :=
| LEmpty : in_lang REmpty ""
| LClass p c : p c = true → in_lang (RClass p) (String c "")
| LSeq a b s t : in_lang a s → in_lang b t → in_lang (RSeq a b) (s ++ t)
| LAltL a b s : in_lang a s → in_lang (RAlt a b) s
| LAltR a b s : in_lang b s → in_lang (RAlt a b) s
| LStarNil a : in_lang (RStar a) ""
| LStarCons a s t : in_lang a s → in_lang (RStar a) t → in_lang (RStar a) (s ++ t).

Fixpoint nullable (r : regex) : bool :=
  match r with
  | RNone | RClass _ => false
  | REmpty | RStar _ => true
  | RSeq a b => nullable a && nullable b
  | RAlt a b => nullable a || nullable b
  end.

(** Expressions that match nothing are dropped as they appear, so that the
    derivatives of a long literal stay small. *)
Definition seq_ (a b : regex) : regex :=
  match a, b with
  | RNone, _ => RNone
  | _, RNone => RNone
  | REmpty, _ => b
  | _, _ => RSeq a b
  end.

Definition alt_ (a b : regex) : regex :=
  match a, b with
  | RNone, _ => b
  | _, RNone => a
  | _, _ => RAlt a b
  end.

Fixpoint deriv (c : ascii) (r : regex) : regex :=
  match r with
  | RNone | REmpty => RNone
  | RClass p => if p c then REmpty else RNone
  | RSeq a b =>
      if nullable a then alt_ (seq_ (deriv c a) b) (deriv c b) else seq_ (deriv c a) b
  | RAlt a b => alt_ (deriv c a) (deriv c b)
  | RStar a => seq_ (deriv c a) (RStar a)
  end.

(** [^r$] on the whole string. *)
Fixpoint MatchString (r : regex) (s : string) : bool :=
  match s with
  | EmptyString => nullable r
  | String c s' => MatchString (deriv c r) s'
  end.

(** ** Building expressions *)

Definition RChar (c : ascii) : regex := RClass (Ascii.eqb c).
Fixpoint RLit (s : string) : regex :=
  match s with
  | EmptyString => REmpty
  | String c s' => RSeq (RChar c) (RLit s')
  end.
Definition RPlus (a : regex) : regex := RSeq a (RStar a).
Definition ROpt (a : regex) : regex := RAlt REmpty a.
Fixpoint ROneOf (l : list string) : regex :=
  match l with
  | [] => RNone
  | [s] => RLit s
  | s :: l' => RAlt (RLit s) (ROneOf l')
  end.
Definition RDigits : regex := RPlus (RClass is_digit).

(** ** Correctness *)

Lemma in_lang_eq r s t : in_lang r s → s = t → in_lang r t.
Proof. by intros ? <-. Qed.

Lemma string_app_nil_r (s : string) : (s ++ "")%string = s.
Proof. induction s as [|c s IH]; [done|]. exact (f_equal (String c) IH). Qed.

Lemma seq_lang a b s : in_lang (seq_ a b) s ↔ in_lang (RSeq a b) s.
Proof.
  split.
  - unfold seq_. destruct a, b; intros H; try done; try (by inversion H);
      (eapply in_lang_eq; [apply (LSeq _ _ "" s); [constructor|done]|done]).
  - inversion 1 as [| |? ? s1 s2 Ha Hb| | | |]; subst.
    unfold seq_. destruct a, b; try (by constructor); try (by inversion Ha); try (by inversion Hb);
      inversion Ha; subst; done.
Qed.

Lemma alt_lang a b s : in_lang (alt_ a b) s ↔ in_lang (RAlt a b) s.
Proof.
  split.
  - unfold alt_. destruct a, b; intros H; try done; try (by apply LAltL); by apply LAltR.
  - inversion 1; subst; unfold alt_; destruct a, b;
      try (by constructor); try (by apply LAltL); try (by apply LAltR); try done;
      match goal with H : in_lang RNone _ |- _ => inversion H end.
Qed.

Lemma nullable_lang r : nullable r = true ↔ in_lang r "".
Proof.
  split.
  - induction r; simpl; intros H; try done; bool_to_prop.
    + constructor.
    + apply (LSeq _ _ "" ""); auto.
    + destruct H; [apply LAltL|apply LAltR]; auto.
    + constructor.
  - remember "" as e eqn:He. induction 1; simpl; subst; try done.
    + destruct s; [|done]. simpl in He. subst. by rewrite IHin_lang1, IHin_lang2.
    + by rewrite IHin_lang.
    + rewrite IHin_lang by done. apply orb_true_r.
Qed.

(** A non-empty word of [r*] starts with a non-empty word of [r]. *)
Lemma star_cons r c s :
  in_lang (RStar r) (String c s) →
  ∃ u v, s = (u ++ v)%string ∧ in_lang r (String c u) ∧ in_lang (RStar r) v.
Proof.
  remember (RStar r) as q eqn:Hq. remember (String c s) as w eqn:Hw.
  intros H. revert s Hw. induction H; intros w' Hw; try done; simplify_eq.
  destruct s as [|d s].
  - by apply IHin_lang2.
  - rewrite string_app_cons in Hw. simplify_eq. eauto 6.
Qed.

Lemma deriv_lang r c s : in_lang (deriv c r) s ↔ in_lang r (String c s).
Proof.
  revert s; induction r as [| |p|a IHa b IHb|a IHa b IHb|a IHa]; intros s; cbn [deriv].
  - by split; inversion 1.
  - by split; inversion 1.
  - split.
    + destruct (p c) eqn:E; inversion 1; subst. by constructor.
    + inversion 1; subst. case_match; [constructor|congruence].
  - assert (in_lang (RSeq (deriv c a) b) s ∨ (nullable a = true ∧ in_lang b (String c s))
            ↔ in_lang (RSeq a b) (String c s)) as Hseq.
    { split.
      - intros [H|[Hn H]].
        + inversion H as [| |? ? u v Hu Hv| | | |]; subst.
          apply (LSeq a b (String c u) v); [by apply IHa|done].
        + apply nullable_lang in Hn. by apply (LSeq a b "" (String c s)).
      - remember (String c s) as w eqn:Hw. inversion 1 as [| |? ? u v Hu Hv| | | |]; subst.
        destruct u as [|d u].
        + right. rewrite nullable_lang. by change ("" ++ v)%string with v in *; subst.
        + left. rewrite string_app_cons in *. simplify_eq. constructor; [by apply IHa|done]. }
    rewrite <- Hseq. destruct (nullable a).
    + rewrite alt_lang. split.
      * inversion 1; subst; [left; by apply seq_lang|right; split; [done|by apply IHb]].
      * intros [H|[_ H]]; [apply LAltL; by apply seq_lang|apply LAltR; by apply IHb].
    + rewrite seq_lang. split; [auto|]. by intros [H|[? _]].
  - rewrite alt_lang. split; (inversion 1; subst; [apply LAltL|apply LAltR]); naive_solver.
  - rewrite seq_lang. split.
    + inversion 1 as [| |? ? u v Hu Hv| | | |]; subst.
      apply (LStarCons a (String c u) v); [by apply IHa|done].
    + intros (u & v & -> & Hu & Hv)%star_cons. constructor; [by apply IHa|done].
Qed.

(** The matcher accepts exactly the language. *)
Lemma MatchString_correct r s : MatchString r s = true ↔ in_lang r s.
Proof.
  revert r; induction s as [|c s IH]; intros r; simpl.
  - apply nullable_lang.
  - rewrite IH. apply deriv_lang.
Qed.

Lemma lit_lang s t : in_lang (RLit s) t ↔ t = s.
Proof.
  split.
  - revert t; induction s as [|c s IH]; intros t; inversion 1 as [| |? ? u v Hu Hv| | | |]; subst; [done|].
    inversion Hu as [|? ? Hc| | | | |]; subst. apply Ascii.eqb_eq in Hc as ->.
    by rewrite (IH _ Hv).
  - intros ->. induction s as [|c s IH]; [constructor|].
    apply (LSeq _ _ (String c "") s); [|done]. constructor. apply Ascii.eqb_refl.
Qed.
