(* ===== verification/Protected.v ===== *)
(** * Protected parameters

    [internal/parameters/protected.go]: the writes that could cut a CPE off from
    this server, and the check every queued parameter write passes. *)

From S2P Require Import Prelude GoStrings Regex.

Record ProtectedParameterError : Type := mkProtectedParameterError {
  ppe_Name : string;
  ppe_Reason : string
}.

Definition quote (s : string) : string :=
  (String (ascii_of_nat 34) s ++ String (ascii_of_nat 34) "")%string.

Definition ProtectedParameterError_Error (e : ProtectedParameterError) : string :=
  ("parameter " ++ quote (ppe_Name e) ++ " is protected and cannot be written: " ++ ppe_Reason e)%string.

(** ** The rules *)

Definition r_root : regex := RSeq (ROneOf ["Device"; "InternetGatewayDevice"]) (RLit ".").
Definition r_inst : regex := RSeq RDigits (RLit ".").

(** [[A-Za-z0-9_-]] *)
Definition is_name_byte (c : ascii) : bool :=
  is_alnum c || Ascii.eqb c "_" || Ascii.eqb c "-".
Definition r_name : regex := RPlus (RClass is_name_byte).

Fixpoint RCat (l : list regex) : regex :=
  match l with [] => REmpty | [r] => r | r :: l' => RSeq r (RCat l') end.

Definition reason_cloud : string :=
  "it points the CPE at Nokia's cloud controller; this ACS is the controller of record".

Definition protectedRules : list (regex * string) :=
  [ (RCat [r_root; RLit "ManagementServer.URL"],
     "it points the CPE at an ACS; a wrong value cuts it off from this one");
    (RCat [r_root; RLit "ManagementServer."; ROneOf ["Username"; "Password"]],
     "it is the CPE's own ACS credential, changed only by credential graduation and rotation");
    (RCat [r_root; RLit "ManagementServer.ConnectionRequest"; ROneOf ["Username"; "Password"]],
     "it is the Connection Request credential; use credential rotation");
    (RCat [r_root; RLit "ManagementServer.EnableCWMP"],
     "it switches TR-069 off on the CPE");
    (RCat [r_root; RLit "ManagementServer.PeriodicInformEnable"],
     "disabling periodic Informs leaves a CPE behind CGNAT with no way to reach the ACS");
    (RCat [r_root; RLit "ManagementServer.UpgradesManaged"],
     "it decides whether firmware may come from sources other than this ACS");
    (RCat [r_root; RLit "ManagementServer.";
           ROneOf ["ConnReqXMPPConnection"; "ConnReqAllowedJabberIDs"; "X_ALU_COM_XMPP_Enable"]],
     "it is set by XMPP Connection Request provisioning");
    (RCat [r_root; RLit "ManagementServer.X_"; r_name; RLit "_ACSIPv4List"],
     "it restricts which addresses may act as ACS; a wrong value locks this ACS out");
    (RCat [r_root; ROpt (RCat [RLit "IP.Interface."; r_inst]); RLit "X_"; r_name; RLit "_";
           ROneOf ["Wan"; "Lan"]; RLit "AccessCfg.Tr69Disabled"],
     "it blocks TR-069 on the CPE's interfaces");
    (RCat [r_root; RLit "X_ALU-COM_ModemDeviceInfo.X_ALU-COM_";
           ROneOf ["NokiaServerURL"; "ForceDownloadPreconfigFromServer";
                   "ForceDownloadDeltaConfigFromServer"; "DeltaConfig_Flag"; "ImageDownloadTimer"]],
     "it controls Nokia's pre-configuration and firmware source");
    (RCat [r_root; RLit "X_ALU-COM_ModemDeviceInfo.X_ALU-COM_";
           ROneOf ["BlockingTrafficByOperatorLock"; "QueryBOENGServerInOperatorLock";
                   "ObtainOPIDFromPLMN"]],
     "it is part of the Nokia operator (network) lock, set up with Nokia's pre-configuration");
    (RCat [r_root; RLit "X_ALU-COM_NWCC."; RStar (RSeq r_name (RLit ".")); RLit "URL"],
     reason_cloud);
    (RCat [r_root; RLit "X_ALU-COM_FastmileController.URL"], reason_cloud);
    (RCat [r_root; RLit "X_ALU-COM_RemoteWebDebug."; r_name],
     "it opens a remote debug channel on the CPE");
    (RCat [r_root; RLit "WiFi.DataElements.Network.ControllerID"],
     "it changes the EasyMesh controller identity");
    (RCat [r_root;
           RAlt (RCat [RLit "WiFi.Radio."; r_inst])
                (RCat [RLit "LANDevice."; r_inst; RLit "WLANConfiguration."; r_inst]);
           RLit "RegulatoryDomain"],
     "it sets the country radio rules; a wrong value breaks spectrum regulation") ].

Fixpoint first_rule (rules : list (regex * string)) (name : string) : option string :=
  match rules with
  | [] => None
  | (re, reason) :: rules' => if MatchString re name then Some reason else first_rule rules' name
  end.

Definition ProtectedReason (name : string) : option string := first_rule protectedRules name.

(** The first protected name, or nothing. *)
Fixpoint CheckProtected (names : list string) : option ProtectedParameterError :=
  match names with
  | [] => None
  | name :: names' =>
      match ProtectedReason name with
      | Some reason => Some (mkProtectedParameterError name reason)
      | None => CheckProtected names'
      end
  end.

(** ** Properties *)

Lemma CheckProtected_none names :
  CheckProtected names = None ↔ ∀ n, n ∈ names → ProtectedReason n = None.
Proof.
  induction names as [|n names IH]; simpl.
  - split; [|done]. intros _ n Hn. by apply elem_of_nil in Hn.
  - destruct (ProtectedReason n) eqn:E.
    + split; [done|]. intros H. specialize (H n). rewrite E in H.
      discriminate H. apply elem_of_cons. auto.
    + rewrite IH. split.
      * intros H x [->|Hx]%elem_of_cons; auto.
      * intros H x Hx. apply H, elem_of_cons. auto.
Qed.

Lemma CheckProtected_some names e :
  CheckProtected names = Some e →
  ppe_Name e ∈ names ∧ ProtectedReason (ppe_Name e) = Some (ppe_Reason e).
Proof.
  induction names as [|n names IH]; simpl; [done|].
  destruct (ProtectedReason n) eqn:E.
  - intros [= <-]. simpl. rewrite elem_of_cons. auto.
  - intros [? ?]%IH. rewrite elem_of_cons. auto.
Qed.

Lemma first_rule_some rules name reason :
  first_rule rules name = Some reason ↔
  ∃ i re, rules !! i = Some (re, reason) ∧ in_lang re name ∧
    ∀ k re' reason', (k < i)%nat → rules !! k = Some (re', reason') → ¬ in_lang re' name.
Proof.
  induction rules as [|[re r] rules IH]; simpl.
  - split; [done|]. by intros (i & re & H & _).
  - destruct (MatchString re name) eqn:E; split.
    + intros [= ->]. exists 0%nat, re. apply MatchString_correct in E.
      split_and!; [done|done|lia].
    + intros ([|i] & re' & Hi & Hl & Hlt); [by simplify_eq/=|].
      exfalso. apply (Hlt 0%nat re r); [lia|done|]. by apply MatchString_correct.
    + intros (i & re' & Hi & Hl & Hlt)%IH. exists (S i), re'. split_and!; [done|done|].
      intros [|k] re'' r'' Hk Hre; simplify_eq/=; [|eapply Hlt; eauto; lia].
      rewrite <- MatchString_correct. congruence.
    + intros ([|i] & re' & Hi & Hl & Hlt); simplify_eq/=.
      * apply MatchString_correct in Hl. congruence.
      * apply IH. exists i, re'. split_and!; [done|done|].
        intros k re'' r'' Hk Hre. apply (Hlt (S k) re'' r''); [lia|done].
Qed.

Example protected_url : is_some (ProtectedReason "Device.ManagementServer.URL") = true.
Proof. vm_compute. reflexivity. Qed.
Example protected_radio :
  is_some (ProtectedReason "InternetGatewayDevice.LANDevice.1.WLANConfiguration.12.RegulatoryDomain") = true.
Proof. vm_compute. reflexivity. Qed.
Example protected_ssid : ProtectedReason "Device.WiFi.SSID.1.SSID" = None.
Proof. vm_compute. reflexivity. Qed.
