(* ===== verification/JobStore.v ===== *)
(** * The job repository

    [internal/jobs]: every statement the repository runs on the [jobs] table
    ([job.go], [lease.go], [diagnostics.go], [verification.go], [discovery.go],
    [session_recovery.go], [protected.go], [auto_discovery.go],
    [firmware_evidence.go]), as a function from table to table. The instant
    [now] is the statement's [now()]; identifiers, dates and random text a call
    draws are its [Fresh] argument. A statement that fails for reasons outside
    the table (a lost connection) is not modelled. *)

From S2P Require Import Prelude GoStrings Json JobModel Protected.

Record Fresh : Type := mkFresh { fr_uuid : string; fr_date : string; fr_random : string }.

Abbreviation Jobs := (gmap string Job) (only parsing).

(** ** Creating jobs *)

(** [checkProtectedWrite]: [allowed] is [protectedWritesAllowed(ctx)]. *)
Definition checkProtectedWrite (allowed : bool) (t : JobType) (payload : json)
  : option ProtectedParameterError :=
  if negb (type_eqb t TypeSetParameter) || allowed then None
  else match decode_SetParameter payload with
       | None => None
       | Some p => CheckProtected (pw_Name <$> sp_Parameters p)
       end.

(** A new row with the column defaults. *)
Definition new_job (fr : Fresh) (now : GoTime) (deviceID : string) (t : JobType) (payload : json)
    (createdBy : string) (maxAttempts : Z) (key hash : option string) : Job :=
  mkJob (fr_uuid fr) (newCommandKey t (fr_date fr) (fr_random fr)) deviceID t StatusQueued payload
    0 maxAttempts createdBy now now None None None None None key hash None None None.

(** The unique constraints of the table: id, command key. *)
Definition unique_ok (tab : Jobs) (j : Job) : bool :=
  negb (is_some (tab !! ID j))
  && forallb (λ r, negb (String.eqb (CommandKey r) (CommandKey j))) (rows tab).

Definition insert_job (tab : Jobs) (j : Job) : result Job * Jobs :=
  if unique_ok tab j then (Ok j, <[ID j := j]> tab)
  else (Err "duplicate key value violates unique constraint", tab).

Definition default_max_attempts : Z := 3.

Definition CreateWithMaxAttempts (allowed : bool) (fr : Fresh) (now : GoTime) (deviceID : string)
    (t : JobType) (payload : json) (createdBy : string) (maxAttempts : Z) (tab : Jobs)
  : result Job * Jobs :=
  match checkProtectedWrite allowed t payload with
  | Some e => (Err (ProtectedParameterError_Error e), tab)
  | None => insert_job tab (new_job fr now deviceID t payload createdBy maxAttempts None None)
  end.

Definition Create (allowed : bool) (fr : Fresh) (now : GoTime) (deviceID : string)
    (t : JobType) (payload : json) (createdBy : string) (tab : Jobs) : result Job * Jobs :=
  CreateWithMaxAttempts allowed fr now deviceID t payload createdBy default_max_attempts tab.

Definition same_idempotency (deviceID : string) (t : JobType) (key : string) (j : Job) : bool :=
  String.eqb (DeviceID j) deviceID && type_eqb (Type_ j) t
  && match IdempotencyKey j with Some k => String.eqb k key | None => false end.

Definition findByIdempotency (tab : Jobs) (deviceID : string) (t : JobType) (key : string) : option Job :=
  List.find (same_idempotency deviceID t key) (rows tab).

Definition ErrIdempotencyConflict : string :=
  "idempotency key was already used with a different request".

Section Idempotency.
(** [sha256] of the marshalled payload, in hex. *)
Variable hash : json → string.

Definition CreateWithIdempotency (allowed : bool) (fr : Fresh) (now : GoTime) (deviceID : string)
    (t : JobType) (payload : json) (createdBy key : string) (tab : Jobs) : result Job * Jobs :=
  if String.eqb (TrimSpace key) "" then Create allowed fr now deviceID t payload createdBy tab
  else match checkProtectedWrite allowed t payload with
  | Some e => (Err (ProtectedParameterError_Error e), tab)
  | None =>
      match findByIdempotency tab deviceID t key with
      | None =>
          insert_job tab (new_job fr now deviceID t payload createdBy default_max_attempts
                                  (Some key) (Some (hash payload)))
      | Some existing =>
          match RequestHash existing with
          | Some h => if String.eqb h (hash payload) then (Ok existing, tab)
                      else (Err ErrIdempotencyConflict, tab)
          | None => (Err ErrIdempotencyConflict, tab)
          end
      end
  end.
End Idempotency.

(** ** Finishing jobs *)

Definition by_id (id : string) (f : Job → Job) (tab : Jobs) : Jobs :=
  (update_key id (λ _, true) f tab).1.

Definition finish (st : JobStatus) (now : GoTime) (j : Job) : Job :=
  set_updated now (set_completed now (set_status st j)).

Definition MarkSuccess (now : GoTime) (id : string) : Jobs → Jobs :=
  by_id id (finish StatusSuccess now).

Definition MarkSuccessWithDetail (now : GoTime) (id : string) (detail : json) : Jobs → Jobs :=
  by_id id (λ j, set_detail detail (finish StatusSuccess now j)).

Definition MarkFailed (now : GoTime) (id code msg : string) : Jobs → Jobs :=
  by_id id (λ j, set_fault_string msg (set_fault_code code (finish StatusFailed now j))).

Definition MarkTimeout (now : GoTime) (id detail : string) : Jobs → Jobs :=
  by_id id (λ j, set_fault_string detail (finish StatusTimeout now j)).

Definition MarkAwaitingTransferComplete (now : GoTime) (id : string) : Jobs → Jobs :=
  by_id id (λ j, set_updated now (set_status StatusAwaitingTransferComplete j)).

Definition requeue_row (now : GoTime) (j : Job) : Job :=
  clear_lease (set_updated now (set_status StatusQueued j)).

Definition Requeue (now : GoTime) (id : string) : Jobs → Jobs := by_id id (requeue_row now).

(** ** Reading jobs *)

Definition ByID (tab : Jobs) (id : string) : option Job := tab !! id.

Definition ByCommandKey (tab : Jobs) (key : string) : option Job :=
  List.find (λ j, String.eqb (CommandKey j) key) (rows tab).

(** [SELECT ... WHERE p ORDER BY created_at] *)
Definition created_le (a b : Job) : Prop := CreatedAt a <= CreatedAt b.
#[global] Instance created_le_dec : RelDecision created_le.
Proof. intros a b. unfold created_le. apply _. Defined.

Definition select_by_created (p : Job → bool) (tab : Jobs) : list Job :=
  merge_sort created_le (List.filter p (rows tab)).

(** [StatusCountsSince] without tenancy scope: Connection Requests are not RPCs. *)
Definition StatusCountsSince (since : GoTime) (tab : Jobs) (st : JobStatus) : nat :=
  length (List.filter (λ j, (since <=? CreatedAt j) && negb (type_eqb (Type_ j) TypeConnectionRequest)
                            && status_eqb (Status j) st) (rows tab)).

Definition HasOpenJobByCreator (tab : Jobs) (deviceID createdBy : string) : bool :=
  existsb (λ j, String.eqb (DeviceID j) deviceID && String.eqb (CreatedBy j) createdBy
                && (status_eqb (Status j) StatusQueued || status_eqb (Status j) StatusRPCSent))
          (rows tab).

Definition HasOutstandingRPC (tab : Jobs) (deviceID : string) : bool :=
  existsb (λ j, String.eqb (DeviceID j) deviceID && status_eqb (Status j) StatusRPCSent) (rows tab).

(** ** Leases *)

Definition sessionLease : GoDuration := 15 * Minute.
Definition workerLease : GoDuration := 5 * Minute.
Definition transferDeadline : GoDuration := 24 * Hour.

Definition text_or (d : string) (o : option string) : string := coalesce o d.

(** The WHERE clause of the lease query. *)
Definition leasable (deviceID : string) (types : list JobType) (uspOnly : bool) (j : Job) : bool :=
  String.eqb (DeviceID j) deviceID && status_eqb (Status j) StatusQueued && type_in (Type_ j) types
  && (if uspOnly then
        (negb (type_eqb (Type_ j) TypeFirmwareDownload)
         || negb (String.eqb (text_or "" (arrow_text (Payload j) "usp_instance")) ""))
        && (negb (type_in (Type_ j) [TypeDiagnosticsDownload; TypeDiagnosticsUpload])
            || negb (String.eqb (text_or "" (arrow_text (Payload j) "usp_command")) ""))
      else
        negb (String.eqb (text_or "false" (arrow_text (Payload j) "instances")) "true")
        && (negb (type_in (Type_ j) [TypeDiagnosticsDownload; TypeDiagnosticsUpload])
            || String.eqb (text_or "" (arrow_text (Payload j) "usp_command")) "")).

(** [UPDATE ... SET status, started_at, attempts + 1, lease_owner, leased_until] *)
Definition lease_row (st : JobStatus) (d : GoDuration) (owner : string) (now : GoTime) (j : Job) : Job :=
  set_lease (Some owner) (Some (now + d))
    (set_attempts (Attempts j + 1) (set_updated now (set_started now (set_status st j)))).

(** The job handed back: the row as read, with status and attempts advanced. *)
Definition leased_job (st : JobStatus) (j : Job) : Job :=
  set_attempts (Attempts j + 1) (set_status st j).

(** [SELECT ... WHERE p ORDER BY created_at LIMIT 1 FOR UPDATE SKIP LOCKED]:
    [locked] tells the rows other open transactions hold. *)
Definition pick (p : Job → bool) (locked : string → bool) (tab : Jobs) : option Job :=
  oldest CreatedAt (List.filter (λ j, p j && negb (locked (ID j))) (rows tab)).

Definition lease_with (st : JobStatus) (d : GoDuration) (p : Job → bool) (locked : string → bool)
    (owner : string) (now : GoTime) (tab : Jobs) : option Job * Jobs :=
  match pick p locked tab with
  | None => (None, tab)
  | Some j => (Some (leased_job st j), by_id (ID j) (lease_row st d owner now) tab)
  end.

Definition leaseForTypes (locked : string → bool) (owner : string) (now : GoTime) (deviceID : string)
    (types : list JobType) (uspOnly : bool) (tab : Jobs) : option Job * Jobs :=
  lease_with StatusRPCSent sessionLease (leasable deviceID types uspOnly) locked owner now tab.

Definition LeaseForTypes (locked : string → bool) (owner : string) (now : GoTime) (deviceID : string)
    (types : list JobType) (tab : Jobs) : option Job * Jobs :=
  leaseForTypes locked owner now deviceID types false tab.

Definition LeaseForUSPTypes (locked : string → bool) (owner : string) (now : GoTime) (deviceID : string)
    (types : list JobType) (tab : Jobs) : option Job * Jobs :=
  leaseForTypes locked owner now deviceID types true tab.

Definition Lease (locked : string → bool) (owner : string) (now : GoTime) (deviceID : string)
    (tab : Jobs) : option Job * Jobs :=
  LeaseForTypes locked owner now deviceID sessionDispatchableTypes tab.

Definition LeaseNextByType (locked : string → bool) (owner : string) (now : GoTime) (t : JobType)
    (tab : Jobs) : option Job * Jobs :=
  lease_with StatusInProgress workerLease
    (λ j, status_eqb (Status j) StatusQueued && type_eqb (Type_ j) t) locked owner now tab.

Definition leased_status (j : Job) : bool :=
  status_eqb (Status j) StatusRPCSent || status_eqb (Status j) StatusInProgress.

(** [$2 * interval '1 second'] with [int(d.Seconds())]: whole seconds. *)
Definition whole_seconds (d : GoDuration) : GoDuration := d / Second * Second.

Definition ExtendLease (now : GoTime) (id : string) (d : GoDuration) (tab : Jobs) : Jobs :=
  (update_key id leased_status
     (λ j, set_updated now (set_lease (lease_owner j) (Some (now + whole_seconds d)) j)) tab).1.

(** ** The stale-lease reaper *)

(** [COALESCE(leased_until, started_at + lease) < now()]: false when both are NULL. *)
Definition lease_expired (now : GoTime) (j : Job) : bool :=
  match leased_until j, StartedAt j with
  | Some u, _ => u <? now
  | None, Some s => s + sessionLease <? now
  | None, None => false
  end.

Definition stale (now : GoTime) (j : Job) : bool := leased_status j && lease_expired now j.

Definition holder (j : Job) : string := text_or "unknown" (lease_owner j).

Definition unsafe_fault (j : Job) : string :=
  ("job lease expired after " ++ Itoa (Attempts j) ++ " attempt(s); type " ++ type_name (Type_ j)
   ++ " is not safe to blindly re-dispatch (it may already have executed on the device) -- requires manual review; last holder "
   ++ holder j)%string.

Definition expired_fault (j : Job) : string :=
  ("job lease expired after " ++ Itoa (Attempts j) ++ " attempt(s); last holder " ++ holder j)%string.

Definition dead_letter (code : string) (msg : Job → string) (now : GoTime) (j : Job) : Job :=
  clear_lease (set_fault_string (msg j) (set_fault_code code (finish StatusFailed now j))).

Record RecoveryResult : Type := mkRecoveryResult {
  Requeued : Z;
  DeadLettered : Z;
  DeadLetteredUnsafeRetry : Z;
  TimedOut : Z;
  DiagnosticsTimedOut : Z
}.

Definition dead_letter_unsafe (now : GoTime) : Jobs → Jobs * Z :=
  update_where (λ j, stale now j && type_in (Type_ j) nonRepeatableTypes)
               (dead_letter "LEASE_EXPIRED_UNSAFE_RETRY" unsafe_fault now).

Definition dead_letter_exhausted (now : GoTime) : Jobs → Jobs * Z :=
  update_where (λ j, stale now j && (MaxAttempts j <=? Attempts j))
               (dead_letter "LEASE_EXPIRED" expired_fault now).

Definition requeue_expired (now : GoTime) : Jobs → Jobs * Z :=
  update_where (λ j, stale now j && (Attempts j <? MaxAttempts j)) (requeue_row now).

Definition transfer_overdue (now : GoTime) (j : Job) : bool :=
  status_eqb (Status j) StatusAwaitingTransferComplete
  && (coalesce (StartedAt j) (CreatedAt j) <? now - transferDeadline).

Definition time_out_transfers (now : GoTime) : Jobs → Jobs * Z :=
  update_where (transfer_overdue now)
    (λ j, set_fault_string "no TransferComplete received within 24 hours"
            (set_fault_code "TRANSFER_TIMEOUT" (finish StatusFailed now j))).

Definition diagnostic_overdue (now : GoTime) (j : Job) : bool :=
  status_eqb (Status j) StatusAwaitingDiagnosticsComplete
  && match DiagnosticsDeadline j with Some d => d <? now | None => false end.

Definition timeOutAwaitingDiagnostics (now : GoTime) : Jobs → Jobs * Z :=
  update_where (diagnostic_overdue now)
    (λ j, set_fault_string
            "diagnostic result not available by its deadline (no Inform with 8 DIAGNOSTICS COMPLETE and no poll reading a final DiagnosticsState)"
            (set_fault_code "DIAGNOSTICS_TIMEOUT" (finish StatusTimeout now j))).

Definition RecoverExpiredLeases (now : GoTime) (tab : Jobs) : Jobs * RecoveryResult :=
  let '(tab1, unsafe) := dead_letter_unsafe now tab in
  let '(tab2, dead) := dead_letter_exhausted now tab1 in
  let '(tab3, requeued) := requeue_expired now tab2 in
  let '(tab4, timed_out) := time_out_transfers now tab3 in
  let '(tab5, diag) := timeOutAwaitingDiagnostics now tab4 in
  (tab5, mkRecoveryResult requeued dead unsafe timed_out diag).

Definition CountStaleLeases (now : GoTime) (tab : Jobs) : nat :=
  length (List.filter (λ j, leased_status j
    && match leased_until j with Some u => u <? now | None => false end) (rows tab)).

(** ** Guarded updates of one attempt

    [WHERE id = $1 AND attempts = $2 AND status = 'RPC_SENT'] *)

Definition current_attempt (job : Job) (row : Job) : bool :=
  (Attempts row =? Attempts job) && status_eqb (Status row) StatusRPCSent.

Definition guarded (job : Job) (f : Job → Job) (tab : Jobs) : bool * Jobs :=
  let '(tab', n) := update_key (ID job) (current_attempt job) f tab in (n =? 1, tab').

(** [RowsAffected() != 1] is an error for the three callers below. *)
Definition guarded_or (job : Job) (f : Job → Job) (msg : string) (tab : Jobs) : result unit * Jobs :=
  let '(ok, tab') := guarded job f tab in (if ok then Ok tt else Err msg, tab').

Definition BeginReadback (now : GoTime) (job : Job) (p : SetParameterPayload) (tab : Jobs)
  : result unit * Jobs :=
  let p' := mkSetParameterPayload (sp_EvidenceFirmware p) (sp_EvidenceBound p) (sp_NonReadable p)
              (sp_Parameters p) (sp_Verify p) true in
  guarded_or job (λ j, requeue_row now (set_payload (encode_SetParameter p') j))
    "write attempt is no longer current" tab.

Definition RequeueDiscovery (now : GoTime) (job : Job) (p : ParameterDiscoveryPayload) (tab : Jobs)
  : result unit * Jobs :=
  guarded_or job (λ j, requeue_row now (set_payload (encode_ParameterDiscovery p) j))
    "discovery attempt is no longer current" tab.

Definition RecordDiscoveryFallback (now : GoTime) (id commandKey : string) (tab : Jobs) : Jobs :=
  (update_key id (λ j, type_eqb (Type_ j) TypeParameterDiscovery)
     (λ j, set_updated now (set_detail (JObj [("fallback_command_key", JStr commandKey)]) j)) tab).1.

(** ** Diagnostics *)

Definition MarkAwaitingDiagnostics (now : GoTime) (job : Job) (window : GoDuration) (tab : Jobs)
  : bool * Jobs :=
  guarded job (λ j, set_deadline (coalesce_set (DiagnosticsDeadline j) (now + whole_seconds window))
                      (clear_lease (set_updated now (set_status StatusAwaitingDiagnosticsComplete j)))) tab.

Definition ReleaseAwaitingDiagnostics (now : GoTime) (deviceID : string) : Jobs → Jobs * Z :=
  update_where (λ j, String.eqb (DeviceID j) deviceID
                     && status_eqb (Status j) StatusAwaitingDiagnosticsComplete)
               (λ j, set_updated now (set_status StatusQueued j)).

(** ** Discovery jobs *)

Definition InFlightDiscoveries (tab : Jobs) (deviceID : string) : list Job :=
  select_by_created (λ j, String.eqb (DeviceID j) deviceID && type_eqb (Type_ j) TypeParameterDiscovery
                          && status_eqb (Status j) StatusRPCSent) tab.

Definition active_discovery (deviceID : string) (j : Job) : bool :=
  String.eqb (DeviceID j) deviceID && type_eqb (Type_ j) TypeParameterDiscovery
  && (status_eqb (Status j) StatusQueued || status_eqb (Status j) StatusRPCSent).

Definition ActiveDiscovery (tab : Jobs) (deviceID : string) : option Job :=
  oldest CreatedAt (List.filter (λ j, active_discovery deviceID j
     && negb (String.eqb (text_or "false" (arrow_text (Payload j) "merge")) "true")) (rows tab)).

Definition DiscoveryMaxObjects : Z := 512.

(** [QueueDiscoveryIfNeeded]: one INSERT ... WHERE NOT EXISTS under the device's
    row lock; [firmware] is the cached software version. *)
Definition QueueDiscoveryIfNeeded (fr : Fresh) (now : GoTime) (deviceID firmware : string) (tab : Jobs)
  : result unit * Jobs :=
  if existsb (active_discovery deviceID) (rows tab) then (Ok tt, tab)
  else
    let payload := encode_ParameterDiscovery
      (mkParameterDiscoveryPayload "Device." "InternetGatewayDevice." false true "" [] ∅ ∅ [] ∅ firmware ∅ false) in
    match insert_job tab (new_job fr now deviceID TypeParameterDiscovery payload
                            "system:onboarding-discovery" DiscoveryMaxObjects None None) with
    | (Ok _, tab') => (Ok tt, tab')
    | (Err e, tab') => (Err e, tab')
    end.

(** The INSERT of [parameters.Repository.Upsert] when the software version of a
    device changes: a walk of the root the version was read from, unless one is
    queued or running. The two identifiers are fresh. *)
Definition firmware_discovery_job (uuid key_uuid : string) (now : GoTime) (deviceID root fallback firmware : string)
  : Job :=
  mkJob uuid ("discover-" ++ key_uuid)%string deviceID TypeParameterDiscovery StatusQueued
    (JObj [("fallback_root", JStr fallback); ("firmware", JStr firmware);
           ("incremental", JBool true); ("root", JStr root)])
    0 DiscoveryMaxObjects "system:firmware-discovery" now now None None None None None None None None None None.

Definition queue_firmware_discovery (uuid key_uuid : string) (now : GoTime)
    (deviceID root fallback firmware : string) (tab : Jobs) : result unit * Jobs :=
  if existsb (active_discovery deviceID) (rows tab) then (Ok tt, tab)
  else match insert_job tab (firmware_discovery_job uuid key_uuid now deviceID root fallback firmware) with
       | (Ok _, tab') => (Ok tt, tab')
       | (Err e, tab') => (Err e, tab')
       end.

(** ** Firmware evidence ([firmware_evidence.go]) *)

(** [^[1-9][0-9]*$] *)
Definition instance_number (part : string) : bool :=
  match part with
  | EmptyString => false
  | String c r => byte_between 49 57 c && forall_bytes is_digit r
  end.

(** [datamodel.NormalizePath]: instance numbers become [{i}]. *)
Definition NormalizePath (path : string) : string :=
  Join ((λ part, if instance_number part then "{i}" else part) <$> Split path ".") ".".

Record Capability : Type := mkCapability { cap_Path : string; cap_Access : string }.

Definition write_only (caps : list Capability) (name : string) : list string :=
  flat_map (λ c, if String.eqb (cap_Access c) "PARAM_WRITE_ONLY"
                    && (String.eqb (cap_Path c) name || String.eqb (cap_Path c) (NormalizePath name))
                 then [name] else []) caps.

(** The payload [BindFirmware] stores: [Err] when the bound firmware is not the
    device's any more, [None] when nothing has to be stored. *)
Definition bind_payload (firmware : string) (caps : list Capability) (job : Job) : result (option json) :=
  match Payload job with
  | JObj m =>
      match member "evidence_bound" m with
      | Some (JBool true) =>
          let expected := match member "evidence_firmware" m with Some (JStr s) => s | _ => "" end in
          if String.eqb expected firmware then Ok None else Err "firmware changed since operation began"
      | _ =>
          let m1 := set_member "evidence_firmware" (JStr firmware) (set_member "evidence_bound" (JBool true) m) in
          if type_eqb (Type_ job) TypeSetParameter then
            match decode_SetParameter (Payload job) with
            | None => Err "json: cannot unmarshal"
            | Some w =>
                Ok (Some (JObj (set_member "non_readable"
                      (JArr (JStr <$> flat_map (λ p, write_only caps (pw_Name p)) (sp_Parameters w))) m1)))
            end
          else Ok (Some (JObj m1))
      end
  | _ => Err "json: cannot unmarshal"
  end.

(** [BindFirmware]: [firmware] and [caps] are what the device's rows say under
    its lock. The job returned carries the stored payload. *)
Definition BindFirmware (firmware : string) (caps : list Capability) (job : Job) (tab : Jobs)
  : result Job * Jobs :=
  if negb (type_eqb (Type_ job) TypeGetParameter) && negb (type_eqb (Type_ job) TypeSetParameter)
  then (Ok job, tab)
  else match bind_payload firmware caps job with
  | Err e => (Err e, tab)
  | Ok None => (Ok job, tab)
  | Ok (Some next) =>
      match guarded job (set_payload next) tab with
      | (true, tab') => (Ok (set_payload next job), tab')
      | (false, _) => (Err "operation attempt is no longer current", tab)
      end
  end.

Definition EvidenceFirmware (job : Job) : string :=
  match Payload job with
  | JObj m => match member "evidence_firmware" m with Some (JStr s) => s | _ => "" end
  | _ => ""
  end.

(** ** Jobs of sessions the CPE dropped ([session_recovery.go]) *)

Definition FaultSessionDropped : string := "SESSION_DROPPED_OUTCOME_UNKNOWN".

Inductive DroppedSessionAction : Type :=
| DroppedRequeue
| DroppedSucceeded
| DroppedAwaitTransfer
| DroppedFailed
| DroppedDiagnosticsTriggered.

(** [methodKeys]: the (method, CommandKey) pairs of the new Inform's "M" events. *)
Definition ClassifyDroppedSessionJob (job : Job) (methodKeys : string → string → bool)
    (diagnosticsComplete : bool) : DroppedSessionAction :=
  if diagnosticsComplete && IsCWMPDiagnosticType (Type_ job) && negb (DiagnosticsTriggered job)
  then DroppedDiagnosticsTriggered
  else match Type_ job with
  | TypeReboot => if methodKeys "Reboot" (CommandKey job) then DroppedSucceeded else DroppedFailed
  | TypeFirmwareDownload | TypeUpload => DroppedAwaitTransfer
  | TypeAddObject | TypeDeleteObject | TypeFactoryReset => DroppedFailed
  | _ => if MaxAttempts job <=? Attempts job then DroppedFailed else DroppedRequeue
  end.

Definition DroppedSessionJobs (tab : Jobs) (deviceID : string) : list Job :=
  select_by_created (λ j, String.eqb (DeviceID j) deviceID && status_eqb (Status j) StatusRPCSent
     && type_in (Type_ j) (List.filter (λ t, negb (type_eqb t TypeParameterDiscovery))
                                       sessionDispatchableTypes)) tab.

Definition dropped_message (job : Job) : string :=
  ("the CPE ended the CWMP session before answering this " ++ type_name (Type_ job)
   ++ " RPC; it may or may not have executed — review before retrying")%string.

Definition dropped_update (now : GoTime) (job : Job) (action : DroppedSessionAction) (j : Job) : Job :=
  match action with
  | DroppedRequeue => requeue_row now j
  | DroppedSucceeded => clear_lease (finish StatusSuccess now j)
  | DroppedDiagnosticsTriggered =>
      set_deadline (coalesce_set (DiagnosticsDeadline j) (now + whole_seconds (DiagnosticsWindow job)))
        (requeue_row now j)
  | DroppedAwaitTransfer =>
      clear_lease (set_updated now (set_status StatusAwaitingTransferComplete j))
  | DroppedFailed =>
      set_fault_string (dropped_message job)
        (set_fault_code FaultSessionDropped (clear_lease (finish StatusFailed now j)))
  end.

Definition ApplyDroppedSessionAction (now : GoTime) (job : Job) (action : DroppedSessionAction) (tab : Jobs)
  : bool * Jobs :=
  guarded job (dropped_update now job action) tab.

Definition LateTransferReconcilable (job : Job) : bool :=
  status_eqb (Status job) StatusFailed
  && match FaultCode job with
     | Some c => (String.eqb c "LEASE_EXPIRED_UNSAFE_RETRY" || String.eqb c FaultSessionDropped
                  || String.eqb c "TRANSFER_TIMEOUT")
                 && type_in (Type_ job) [TypeFirmwareDownload; TypeUpload]
     | None => false
     end.

(** ** Dispatch over USP ([cmd/uspc])

    What the USP dispatcher does to the table when it has leased a job it
    cannot render: it puts the job back. *)

Definition uspDispatchableTypes : list JobType :=
  [TypeGetParameter; TypeSetParameter; TypeAddObject; TypeDeleteObject; TypeReboot;
   TypeFactoryReset; TypeDiagnosticsPing; TypeDiagnosticsTraceroute; TypeParameterDiscovery;
   TypeFirmwareDownload; TypeDiagnosticsDownload; TypeDiagnosticsUpload].

(** The command of a TR-143 payload; [None] when the payload does not decode. *)
Definition decode_usp_command (upload : bool) (j : json) : option string :=
  decode_struct (λ m,
    _ ← decode_string (member "url" m);
    _ ← decode_string (member "prefix" m);
    c ← decode_string (member "usp_command" m);
    _ ← (if upload then decode_uint64 (member "test_file_length" m) else Some 0);
    _ ← decode_plan m;
    Some c) (Some j).

Definition usp_command_other (upload : bool) (job : Job) (cmd : string) : bool :=
  match decode_usp_command upload (Payload job) with
  | Some c => negb (String.eqb c cmd)
  | None => false
  end.

(** [buildUSPRequest] returns [ErrUnsupportedOverUSP]. *)
Definition usp_unsupported (job : Job) : bool :=
  match Type_ job with
  | TypeGetParameter | TypeSetParameter | TypeAddObject | TypeDeleteObject | TypeReboot
  | TypeFactoryReset | TypeDiagnosticsPing | TypeDiagnosticsTraceroute
  | TypeParameterDiscovery => false
  | TypeDiagnosticsDownload => usp_command_other false job "Device.IP.Diagnostics.DownloadDiagnostics()"
  | TypeDiagnosticsUpload => usp_command_other true job "Device.IP.Diagnostics.UploadDiagnostics()"
  | TypeFirmwareDownload =>
      match decode_FirmwareDownload (Payload job) with
      | Some p => String.eqb (fd_USPInstance p) ""
      | None => false
      end
  | _ => true
  end.

(** The lease, and the requeue of a job with no USP mapping. *)
Definition usp_lease_or_requeue (locked : string → bool) (owner : string) (now : GoTime)
    (deviceID : string) (tab : Jobs) : option Job * Jobs :=
  match LeaseForUSPTypes locked owner now deviceID uspDispatchableTypes tab with
  | (Some job, tab') =>
      if usp_unsupported job then (None, Requeue now (ID job) tab') else (Some job, tab')
  | (None, tab') => (None, tab')
  end.
