(* ===== verification/Datamodel.v ===== *)
(** * The data model dictionary

    [internal/datamodel/dictionary.go]: the index of the BBF dictionaries and
    the check of a value against the syntax of its parameter.  The XML files
    are data: a dictionary is built from the parsed document ([models]), and the
    cache of loaded dictionaries only remembers the result.  The recursion over
    named types is bounded by the depth of sixteen the code sets; [fuel] is the
    number of levels left. *)

From S2P Require Import Prelude GoStrings Encoding JobStore.

(** ** Numbers and times in text *)

(** [new(big.Int).SetString(s, 10)]: an optional sign and digits. *)
Definition big_int (s : string) : option Z :=
  let body sgn r := match r with EmptyString => None | _ => (λ v, sgn * v) <$> digits_value 0 r end in
  match s with
  | String "-" r => body (-1) r
  | String "+" r => body 1 r
  | _ => body 1 s
  end.

(** [strconv.ParseInt(s, 10, bits)] *)
Definition ParseInt (s : string) (bits : Z) : option Z :=
  v ← big_int s; if (- 2 ^ (bits - 1) <=? v) && (v <? 2 ^ (bits - 1)) then Some v else None.

(** [strconv.ParseUint(s, 10, bits)]: no sign. *)
Definition ParseUint (s : string) (bits : Z) : option Z :=
  match s with
  | EmptyString => None
  | _ => v ← digits_value 0 s; if v <? 2 ^ bits then Some v else None
  end.

Definition skip_byte (c : ascii) (s : string) : option string :=
  match s with String d r => if Ascii.eqb c d then Some r else None | _ => None end.

Definition leap (year : Z) : bool := (year mod 4 =? 0) && (negb (year mod 100 =? 0) || (year mod 400 =? 0)).

Definition daysIn (month year : Z) : Z :=
  if month =? 2 then (if leap year then 29 else 28)
  else if existsb (Z.eqb month) [4; 6; 9; 11] then 30 else 31.

(** The fraction of a second, which may be left out. *)
Fixpoint drop_digits (s : string) : string :=
  match s with
  | String c r => if is_digit c then drop_digits r else s
  | EmptyString => s
  end.

Definition drop_fraction (s : string) : string :=
  match s with
  | String c (String d r) => if (Ascii.eqb c "." || Ascii.eqb c ",") && is_digit d then drop_digits r else s
  | _ => s
  end.

(** [Z], or a signed offset of hours and minutes. *)
Definition parse_zone (s : string) : option unit :=
  match s with
  | String "Z" EmptyString => Some tt
  | String sign r =>
      '(hr, r1) ← getnum r true;
      r2 ← skip_byte ":" r1;
      '(mm, r3) ← getnum r2 true;
      if (Ascii.eqb sign "+" || Ascii.eqb sign "-") && (hr <=? 24) && (mm <=? 60) && String.eqb r3 ""
      then Some tt else None
  | EmptyString => None
  end.

(** [time.Parse(time.RFC3339Nano, s)]: whether it succeeds. *)
Definition parse_rfc3339 (s : string) : option unit :=
  '(y1, r) ← getnum s true; '(y2, r) ← getnum r true;
  r ← skip_byte "-" r; '(month, r) ← getnum r true;
  r ← skip_byte "-" r; '(day, r) ← getnum r true;
  r ← skip_byte "T" r; '(hour, r) ← getnum r false;
  r ← skip_byte ":" r; '(minute, r) ← getnum r true;
  r ← skip_byte ":" r; '(second, r) ← getnum r true;
  if (1 <=? month) && (month <=? 12) && (hour <? 24) && (minute <? 60) && (second <? 60)
     && (1 <=? day) && (day <=? daysIn month (y1 * 100 + y2))
  then parse_zone (drop_fraction r) else None.

(** ** The dictionary *)

Record NumericRange : Type := mkRange { nr_Min : string; nr_Max : string }.
Record SizeRange : Type := mkSize { sr_Min : Z; sr_Max : Z }.
Record Constraints : Type := mkConstraints {
  co_Enums : list string;
  co_Ranges : list NumericRange;
  co_Sizes : list SizeRange;
  co_List : bool
}.

Record Entry : Type := mkEntry {
  en_Path : string;
  en_Kind : string;
  en_Access : string;
  en_Version : string;
  en_Type : string;
  en_Unit : string;
  en_Constraints : Constraints
}.

Definition no_constraints : Constraints := mkConstraints [] [] [] false.

(** An element of the XML document, with the attributes the code reads. *)
Inductive node : Type := mkNode {
  n_Local : string; n_Name : string; n_Ref : string; n_Base : string; n_Access : string; n_Version : string;
  n_Value : string; n_MinInclusive : string; n_MaxInclusive : string; n_MinLength : Z; n_MaxLength : Z;
  n_Children : list node
}.

Record document : Type := mkDocument {
  doc_Spec : string;
  doc_Types : list node;
  doc_Model : string;
  doc_Objects : list node
}.

Record Dictionary : Type := mkDictionary {
  dy_Spec : string;
  dy_Model : string;
  dy_Protocol : string;
  dy_Version : string;
  dy_Entries : gmap string Entry
}.

Definition scalar_names : list string :=
  ["string"; "boolean"; "int"; "unsignedInt"; "long"; "unsignedLong"; "dateTime"; "base64"; "hexBinary"].

(** The zero value a missing type name reads as. *)
Definition no_node : node := mkNode "" "" "" "" "" "" "" "" "" 0 0 [].

Section Types.
Context (types : gmap string node).

Definition type_named (name : string) : node := default no_node (types !! name).

(** The first child with a non-empty answer. *)
Definition first_text (f : node → string) (l : list node) : string :=
  match List.find (λ c, negb (String.eqb (f c) "")) l with Some c => f c | None => "" end.

Fixpoint primitive (fuel : nat) (n : node) : string :=
  match fuel with
  | O => ""
  | S f =>
      if existsb (String.eqb (n_Local n)) scalar_names then n_Local n
      else if String.eqb (n_Local n) "dataType" && negb (String.eqb (n_Ref n) "") then primitive f (type_named (n_Ref n))
      else if String.eqb (n_Local n) "dataType" && negb (String.eqb (n_Base n) "") then primitive f (type_named (n_Base n))
      else first_text (primitive f) (n_Children n)
  end.

Fixpoint unit_of (fuel : nat) (n : node) : string :=
  match fuel with
  | O => ""
  | S f =>
      if String.eqb (n_Local n) "units" then n_Value n
      else if String.eqb (n_Local n) "dataType" && negb (String.eqb (n_Ref n) "") then unit_of f (type_named (n_Ref n))
      else first_text (unit_of f) (n_Children n)
  end.

(** What one child adds; [rec] reads the constraints of a nested element. *)
Definition add_constraint (rec : node → Constraints) (out : Constraints) (c : node) : Constraints :=
  let '(mkConstraints enums ranges sizes list) := out in
  if String.eqb (n_Local c) "enumeration" then mkConstraints (enums ++ [n_Value c]) ranges sizes list
  else if String.eqb (n_Local c) "range"
  then mkConstraints enums (ranges ++ [mkRange (n_MinInclusive c) (n_MaxInclusive c)]) sizes list
  else if String.eqb (n_Local c) "size"
  then mkConstraints enums ranges (sizes ++ [mkSize (n_MinLength c) (n_MaxLength c)]) list
  else if String.eqb (n_Local c) "list" then mkConstraints enums ranges sizes true
  else if existsb (String.eqb (n_Local c)) ["description"; "default"; "pattern"; "enumerationRef"] then out
  else let r := rec c in
       mkConstraints (enums ++ co_Enums r) (ranges ++ co_Ranges r) (sizes ++ co_Sizes r) (list || co_List r).

Fixpoint constraints (fuel : nat) (n : node) : Constraints :=
  match fuel with
  | O => no_constraints
  | S f =>
      let out :=
        if negb (String.eqb (n_Local n) "dataType") then no_constraints
        else if negb (String.eqb (n_Base n) "") then constraints f (type_named (n_Base n))
        else if negb (String.eqb (n_Ref n) "") then constraints f (type_named (n_Ref n))
        else no_constraints in
      foldl (add_constraint (constraints f)) out (n_Children n)
  end.

(** [depth > 16] ends the recursion: levels 0 to 16. *)
Definition max_depth : nat := 17%nat.

(** [visit]: what an element adds to the entries. *)
Fixpoint visit (prefix : string) (n : node) (entries : gmap string Entry) : gmap string Entry :=
  if String.eqb (n_Local n) "object" then
    let path := if HasPrefix (n_Name n) "Device." then n_Name n else (prefix ++ n_Name n)%string in
    if String.eqb (n_Name n) "" then entries
    else (fix each (l : list node) (es : gmap string Entry) :=
            match l with [] => es | c :: r => each r (visit path c es) end)
           (n_Children n)
           (<[path := mkEntry path "object" (n_Access n) (n_Version n) "" "" no_constraints]> entries)
  else if existsb (String.eqb (n_Local n)) ["parameter"; "command"; "event"] then
    if String.eqb (n_Name n) "" then entries
    else let path := (prefix ++ n_Name n)%string in
         <[path := mkEntry path (n_Local n) (n_Access n) (n_Version n) (primitive max_depth n) (unit_of max_depth n)
                     (constraints max_depth n)]> entries
  else entries.
End Types.

(** The entries of a document; a type declared twice keeps the last. *)
Definition entries_of (doc : document) : gmap string Entry :=
  let types := foldl (λ m n, <[n_Name n := n]> m) ∅ (doc_Types doc) in
  foldl (λ es n, visit types "" n es) ∅ (doc_Objects doc).

(** [models]: the parsed files, by protocol and version. *)
Definition Load (models : string → string → option document) (protocol0 version0 : string) : result Dictionary :=
  let protocol := ToLower protocol0 in
  if negb (String.eqb protocol "cwmp") && negb (String.eqb protocol "usp") then Err "protocol must be cwmp or usp"
  else
    let version := if String.eqb version0 "" then "2.21" else version0 in
    if negb (String.eqb version "2.20") && negb (String.eqb version "2.21")
    then Err "bundled dictionary versions are 2.20 and 2.21"
    else match models protocol version with
         | None => Err "file does not exist"
         | Some doc =>
             let entries := entries_of doc in
             if (size entries <? 1000)%nat then Err "incomplete BBF dictionary"
             else Ok (mkDictionary (doc_Spec doc) (doc_Model doc) protocol version entries)
         end.

Definition Lookup (d : Dictionary) (path : string) : option Entry := dy_Entries d !! NormalizePath path.

(** ** Checking a value *)

Definition lexical (type value : string) : bool :=
  if String.eqb type "boolean" then existsb (String.eqb value) ["0"; "1"; "true"; "false"]
  else if String.eqb type "int" then is_some (ParseInt value 32)
  else if String.eqb type "long" then is_some (ParseInt value 64)
  else if String.eqb type "unsignedInt" then is_some (ParseUint value 32)
  else if String.eqb type "unsignedLong" then is_some (ParseUint value 64)
  else if String.eqb type "dateTime" then is_some (parse_rfc3339 value)
  else if String.eqb type "base64" then is_some (DecodeStd value)
  else if String.eqb type "hexBinary" then is_some (DecodeString value)
  else true.

(** A bound that is empty, or not a number, does not restrict. *)
Definition within (v : Z) (r : NumericRange) : bool :=
  match big_int (nr_Min r) with Some lo => lo <=? v | None => true end
  && match big_int (nr_Max r) with Some hi => v <=? hi | None => true end.

Definition value_size (type value : string) : Z :=
  let n := Z.of_nat (String.length value) in
  if String.eqb type "hexBinary" then n / 2
  else if String.eqb type "base64" then Z.of_nat (String.length (default "" (DecodeStd value)))
  else n.

Definition within_size (n : Z) (s : SizeRange) : bool := (sr_Min s <=? n) && ((sr_Max s =? 0) || (n <=? sr_Max s)).

Definition validateScalar (e : Entry) (value : string) : option string :=
  let c := en_Constraints e in
  if negb (lexical (en_Type e) value) then Some ("invalid " ++ en_Type e ++ " value")%string
  else if negb (bool_decide (co_Enums c = [])) && negb (HasPrefix value "X_" || existsb (String.eqb value) (co_Enums c))
  then Some "value is outside the standard enumeration"
  else
    match
      (if bool_decide (co_Ranges c = []) then None
       else match big_int value with
            | None => Some "invalid integer"
            | Some v => if existsb (within v) (co_Ranges c) then None else Some "value is outside the standard range"
            end)
    with
    | Some e => Some e
    | None =>
        if negb (bool_decide (co_Sizes c = [])) && negb (existsb (within_size (value_size (en_Type e) value)) (co_Sizes c))
        then Some "value is outside the standard size limits" else None
    end.

(** The items of a value: a list type is split at commas. *)
Definition value_items (e : Entry) (value : string) : list string :=
  if negb (co_List (en_Constraints e)) then [value]
  else if String.eqb value "" then [] else Split value ",".

(** [None]: the value is accepted.  Names the dictionary does not have are. *)
Definition ValidateValue (d : Dictionary) (path value : string) : option string :=
  match Lookup d path with
  | None => None
  | Some e =>
      if negb (String.eqb (en_Kind e) "parameter")
      then Some (path ++ " is a " ++ en_Kind e ++ ", not a parameter")%string
      else match first_error (validateScalar e) (value_items e value) with
           | Some m => Some (path ++ ": " ++ m)%string
           | None => None
           end
  end.

(** ** What an accepted value is *)

(** The value spaces of the primitive types. *)
Definition in_value_space (type value : string) : Prop :=
  (type = "boolean" → value ∈ ["0"; "1"; "true"; "false"]) ∧
  (type = "int" → ∃ v, big_int value = Some v ∧ - 2 ^ 31 <= v < 2 ^ 31) ∧
  (type = "long" → ∃ v, big_int value = Some v ∧ - 2 ^ 63 <= v < 2 ^ 63) ∧
  (type = "unsignedInt" → ∃ v, digits_value 0 value = Some v ∧ value ≠ "" ∧ v < 2 ^ 32) ∧
  (type = "unsignedLong" → ∃ v, digits_value 0 value = Some v ∧ value ≠ "" ∧ v < 2 ^ 64) ∧
  (type = "dateTime" → is_Some (parse_rfc3339 value)) ∧
  (type = "base64" → is_Some (DecodeStd value)) ∧
  (type = "hexBinary" → is_Some (DecodeString value)).

(** The value is of the entry's type and inside the enumeration, one of the
    ranges and one of the sizes, where the entry has them. *)
Definition conforms (e : Entry) (value : string) : Prop :=
  let c := en_Constraints e in
  in_value_space (en_Type e) value ∧
  (co_Enums c ≠ [] → HasPrefix value "X_" = true ∨ value ∈ co_Enums c) ∧
  (co_Ranges c ≠ [] → ∃ v r, big_int value = Some v ∧ r ∈ co_Ranges c ∧ within v r = true) ∧
  (co_Sizes c ≠ [] → ∃ s, s ∈ co_Sizes c ∧ within_size (value_size (en_Type e) value) s = true).

Lemma ParseInt_spec s bits : is_some (ParseInt s bits) = true ↔
  ∃ v, big_int s = Some v ∧ - 2 ^ (bits - 1) <= v < 2 ^ (bits - 1).
Proof.
  unfold ParseInt. destruct (big_int s) as [v|]; cbn [mbind option_bind].
  - destruct (Z.leb_spec (- 2 ^ (bits - 1)) v), (Z.ltb_spec v (2 ^ (bits - 1))); simpl; split; try done;
      (intros _; exists v; split; [done|lia]) || (intros (v' & [= <-] & ?); lia).
  - split; [done|]. by intros (? & ? & _).
Qed.

Lemma ParseUint_spec s bits : is_some (ParseUint s bits) = true ↔
  ∃ v, digits_value 0 s = Some v ∧ s ≠ "" ∧ v < 2 ^ bits.
Proof.
  unfold ParseUint. destruct s as [|c s]; [split; [done|by intros (? & _ & ? & _)]|].
  destruct (digits_value 0 (String c s)) as [v|]; cbn [mbind option_bind].
  - destruct (Z.ltb_spec v (2 ^ bits)); simpl; split; try done; [by exists v|]. intros (? & [= <-] & _ & ?). lia.
  - split; [done|]. by intros (? & ? & _).
Qed.

Lemma lexical_spec type value : lexical type value = true ↔ in_value_space type value.
Proof.
  unfold lexical, in_value_space.
  repeat match goal with
  | |- context [if String.eqb type ?t then _ else _] =>
      destruct (String.eqb_spec type t) as [->|]; [|]; cycle 1
  end;
    rewrite ?existsb_eqb, ?ParseInt_spec, ?ParseUint_spec, ?is_some_spec;
    (split; [intros H; repeat split; intros; try done; try congruence
            |intros (H1 & H2 & H3 & H4 & H5 & H6 & H7 & H8); solve [done|by apply H1|by apply H2|by apply H3|by apply H4|
                                                               by apply H5|by apply H6|by apply H7|by apply H8]]).
Qed.

Lemma validateScalar_spec e value : validateScalar e value = None ↔ conforms e value.
Proof.
  unfold validateScalar, conforms. rewrite <- lexical_spec.
  destruct (lexical (en_Type e) value) eqn:El; simpl; [|split; [done|by intros [? _]]].
  rewrite <- existsb_eqb.
  assert ((∃ s, s ∈ co_Sizes (en_Constraints e) ∧ within_size (value_size (en_Type e) value) s = true)
          ↔ existsb (within_size (value_size (en_Type e) value)) (co_Sizes (en_Constraints e)) = true) as ->
    by by rewrite existsb_elem.
  assert (∀ v, existsb (within v) (co_Ranges (en_Constraints e)) = true
          ↔ ∃ r, r ∈ co_Ranges (en_Constraints e) ∧ within v r = true) as Hr by (intros; apply existsb_elem).
  assert (∀ a b : bool, a || b = true ↔ a = true ∨ b = true) as Hor by (intros; apply orb_true_iff).
  rewrite <- Hor. destruct (HasPrefix value "X_" || _) eqn:Ee;
    destruct (existsb (within_size _) _) eqn:Es;
    destruct (bool_decide_reflect (co_Enums (en_Constraints e) = []));
    destruct (bool_decide_reflect (co_Ranges (en_Constraints e) = []));
    destruct (bool_decide_reflect (co_Sizes (en_Constraints e) = []));
    destruct (big_int value) as [v|]; try (destruct (existsb (within v) _) eqn:Ev; [apply Hr in Ev as (r & ? & ?)|]);
    simpl; split; try done; intros Hc; repeat split; try done; try (intros; by exists v, r);
    destruct Hc as (_ & H1 & H2 & H3); try (by specialize (H1 ltac:(done))); try (by specialize (H3 ltac:(done)));
    destruct (H2 ltac:(done)) as (v' & r' & Hv & Hin & Hw); simplify_eq;
    assert (existsb (within v') (co_Ranges (en_Constraints e)) = true) by (apply Hr; by exists r'); congruence.
Qed.

(** A value is accepted exactly when every item of it conforms to the entry the
    dictionary has for its path; paths it does not have are not restricted. *)
Lemma accepted_values_conform d path value :
  ValidateValue d path value = None ↔
  ∀ e, Lookup d path = Some e → en_Kind e = "parameter" ∧ ∀ item, item ∈ value_items e value → conforms e item.
Proof.
  unfold ValidateValue. destruct (Lookup d path) as [e|]; [|split; [by intros _ ? ?|done]].
  destruct (String.eqb_spec (en_Kind e) "parameter") as [Ek|]; simpl; [|split; [done|]; intros H; by destruct (H e eq_refl)].
  pose proof (first_error_spec (validateScalar e) (value_items e value)) as Hf.
  destruct (first_error _ _) as [m|]; split; try done.
  - intros H. destruct (H e eq_refl) as [_ Hi]. by assert (Some m = None) by (apply Hf; intros; by apply validateScalar_spec, Hi).
  - intros _ ? [= <-]. split; [done|]. intros item Hi. apply validateScalar_spec. by apply Hf.
Qed.

Lemma accepted_values_examples :
  ValidateValue (mkDictionary "" "" "cwmp" "2.21"
     {["Device.A.{i}.N" := mkEntry "" "parameter" "" "" "unsignedInt" "" (mkConstraints [] [mkRange "1" "10"] [] true)]})
    "Device.A.7.N" "3,10" = None ∧
  ValidateValue (mkDictionary "" "" "cwmp" "2.21"
     {["Device.A.{i}.N" := mkEntry "" "parameter" "" "" "unsignedInt" "" (mkConstraints [] [mkRange "1" "10"] [] true)]})
    "Device.A.7.N" "3,11" ≠ None.
Proof. split; vm_compute; congruence. Qed.

Lemma parse_rfc3339_examples :
  parse_rfc3339 "2024-02-29T23:59:59.5+02:00" = Some tt ∧ parse_rfc3339 "2023-02-29T00:00:00Z" = None ∧
  parse_rfc3339 "2024-01-01T24:00:00Z" = None ∧ parse_rfc3339 "2024-01-01T7:00:00Z" = Some tt ∧
  parse_rfc3339 "0001-01-01T00:00:00Z " = None.
Proof. vm_compute. done. Qed.
