(* ===== verification/Adapters.v ===== *)
(** * Vendor adapters ([internal/devices/adapters])

    Canonical parameter paths per data-model root, and the vendor catalogs: the
    selection of a profile for a device and of the radio parameters worth
    reading.  The catalogs are data files embedded in the binary; here they are
    a list of [Catalog]s. *)

From S2P Require Import Prelude GoStrings Json Protected JobModel JobStore Devices.

(** ** Canonical parameters ([canonical.go]) *)

Inductive CanonicalParameter : Type :=
| DeviceInfoSoftwareVersion
| ManagementServerConnectionRequestURL
| ManagementServerConnectionRequestUser
| ManagementServerConnectionRequestPass
| ManagementServerUsername
| ManagementServerPassword
| WiFiSSID
| WiFiKeyPassphrase
| WiFiEnable.

Definition device2Paths (p : CanonicalParameter) : string :=
  match p with
  | DeviceInfoSoftwareVersion => "Device.DeviceInfo.SoftwareVersion"
  | ManagementServerConnectionRequestURL => "Device.ManagementServer.ConnectionRequestURL"
  | ManagementServerConnectionRequestUser => "Device.ManagementServer.ConnectionRequestUsername"
  | ManagementServerConnectionRequestPass => "Device.ManagementServer.ConnectionRequestPassword"
  | ManagementServerUsername => "Device.ManagementServer.Username"
  | ManagementServerPassword => "Device.ManagementServer.Password"
  | WiFiSSID => "Device.WiFi.SSID.1.SSID"
  | WiFiKeyPassphrase => "Device.WiFi.AccessPoint.1.Security.KeyPassphrase"
  | WiFiEnable => "Device.WiFi.SSID.1.Enable"
  end.

Definition igd1Paths (p : CanonicalParameter) : string :=
  match p with
  | DeviceInfoSoftwareVersion => "InternetGatewayDevice.DeviceInfo.SoftwareVersion"
  | ManagementServerConnectionRequestURL => "InternetGatewayDevice.ManagementServer.ConnectionRequestURL"
  | ManagementServerConnectionRequestUser => "InternetGatewayDevice.ManagementServer.ConnectionRequestUsername"
  | ManagementServerConnectionRequestPass => "InternetGatewayDevice.ManagementServer.ConnectionRequestPassword"
  | ManagementServerUsername => "InternetGatewayDevice.ManagementServer.Username"
  | ManagementServerPassword => "InternetGatewayDevice.ManagementServer.Password"
  | WiFiSSID => "InternetGatewayDevice.LANDevice.1.WLANConfiguration.1.SSID"
  | WiFiKeyPassphrase => "InternetGatewayDevice.LANDevice.1.WLANConfiguration.1.PreSharedKey.1.KeyPassphrase"
  | WiFiEnable => "InternetGatewayDevice.LANDevice.1.WLANConfiguration.1.Enable"
  end.

Definition igd1PathAlternates (p : CanonicalParameter) : list string :=
  match p with
  | WiFiKeyPassphrase => ["InternetGatewayDevice.LANDevice.1.WLANConfiguration.1.KeyPassphrase"]
  | _ => []
  end.

(** Both tables are total, so the list is never empty. *)
Definition ResolvePathCandidates (root : DataModelRoot) (p : CanonicalParameter) : list string :=
  match root with
  | RootIGD1 => igd1Paths p :: igd1PathAlternates p
  | _ => [device2Paths p]
  end.

Definition ResolvePath (root : DataModelRoot) (p : CanonicalParameter) : string :=
  match root with RootIGD1 => igd1Paths p | _ => device2Paths p end.

Definition discovered_writable (names : gmap string bool) (path : string) : bool :=
  default false (names !! path) || default false (names !! NormalizePath path).

Definition ResolveWritablePath (root : DataModelRoot) (p : CanonicalParameter) (discovered : option (gmap string bool))
  : result string :=
  match discovered with
  | None => Ok (ResolvePath root p)
  | Some names =>
      match List.find (discovered_writable names) (ResolvePathCandidates root p) with
      | Some path => Ok path
      | None => Err "device discovery reports no writable path for canonical parameter"
      end
  end.

(** ** Catalogs ([catalog.go], [vendor.go]) *)

Record CatalogParameter : Type := mkCatalogParameter { cp_Path : string; cp_Type : string; cp_Access : string }.

Record Catalog : Type := mkCatalog {
  cat_Vendor : string;
  cat_Model : string;
  cat_SpecVersion : string;
  cat_Parameters : list CatalogParameter;
  cat_Firmwares : list string;
  cat_QualificationEvidence : string
}.

(** An object of the parsed file: its name, its parameters (name, type and
    access) and its children. *)
Inductive xmlObject : Type :=
  mkXmlObject (name : string) (params : list CatalogParameter) (children : list xmlObject).

Fixpoint flattenObject (prefix : string) (o : xmlObject) : list CatalogParameter :=
  match o with
  | mkXmlObject name params children =>
      let path := (prefix ++ name)%string in
      ((λ p, mkCatalogParameter (path ++ cp_Path p)%string (cp_Type p) (cp_Access p)) <$> params)
      ++ (fix go l := match l with [] => [] | c :: l' => flattenObject path c ++ go l' end) children
  end.

Fixpoint keep_alnum (s : string) : string :=
  match s with
  | EmptyString => EmptyString
  | String c r => if is_lower c || is_digit c then String c (keep_alnum r) else keep_alnum r
  end.

Definition vendorKey (value : string) : string := keep_alnum (ToLower value).

Inductive MatchedBy : Type := ByModel | ByVendor.

Record ProfileMatch : Type := mkProfileMatch { pm_Catalog : Catalog; pm_MatchedBy : MatchedBy; pm_Qualified : bool }.

Definition ProfileID (c : Catalog) : string :=
  let vendor := vendorKey (cat_Vendor c) in
  let model := vendorKey (cat_Model c) in
  if String.eqb vendor "" then model else if String.eqb model "" then vendor else (vendor ++ "." ++ model)%string.

Definition vendor_matches (mfr : string) (c : Catalog) : bool :=
  negb (String.eqb (vendorKey (cat_Vendor c)) "") && Contains mfr (vendorKey (cat_Vendor c)).

Definition MatchProfile (catalogs : list Catalog) (manufacturer productClass : string) : option ProfileMatch :=
  let mfr := vendorKey manufacturer in
  let model := vendorKey productClass in
  match List.find (λ c, vendor_matches mfr c && negb (String.eqb model "") && String.eqb model (vendorKey (cat_Model c)))
          catalogs with
  | Some c => Some (mkProfileMatch c ByModel false)
  | None =>
      match List.find (vendor_matches mfr) catalogs with
      | Some c => Some (mkProfileMatch c ByVendor false)
      | None => None
      end
  end.

Definition qualified_for (manufacturer model firmware : string) (c : Catalog) : bool :=
  vendor_matches (vendorKey manufacturer) c && String.eqb (vendorKey (cat_Model c)) (vendorKey model)
  && negb (String.eqb (cat_QualificationEvidence c) "")
  && existsb (λ v, String.eqb (TrimSpace v) firmware) (cat_Firmwares c).

Definition MatchFirmwareProfile (catalogs : list Catalog) (manufacturer model firmware : string) : option ProfileMatch :=
  match MatchProfile catalogs manufacturer model with
  | Some m =>
      match pm_MatchedBy m with
      | ByModel =>
          if String.eqb firmware "" then Some m
          else match List.find (qualified_for manufacturer model firmware) catalogs with
               | Some c => Some (mkProfileMatch c ByModel true)
               | None => Some m
               end
      | ByVendor => Some m
      end
  | None => None
  end.

(** ** Radio parameters *)

Definition cellularDiagnosticKeywords : list string :=
  ["RSRP"; "RSRQ"; "SINR"; "RSSI"; "SNR"; "CELLID"; "PCI"; "BAND"; "BEAMID"; "GNB_ID"; "ARFCN"; "NETWORKTYPE";
   "SIGNALSTRENGTH"].

Definition lastPathSegment (path : string) : string := List.last (Split path ".") "".

Definition names_radio (path : string) : bool :=
  existsb (Contains (ToUpper (lastPathSegment path))) cellularDiagnosticKeywords.

Definition CellularDiagnosticParams (c : Catalog) : list string :=
  cp_Path <$> List.filter (λ p, String.eqb (cp_Access p) "readOnly" && names_radio (cp_Path p)) (cat_Parameters c).

Definition genericCellularFallback : list string :=
  ["Device.Cellular.Interface.1.RSRP"; "Device.Cellular.Interface.1.RSRQ"; "Device.Cellular.Interface.1.RSSI"].

Definition MatchCellularDiagnosticsForDevice (catalogs : list Catalog) (manufacturer productClass : string)
  : string * list string * bool :=
  match MatchProfile catalogs manufacturer productClass with
  | Some m => (cat_Vendor (pm_Catalog m), CellularDiagnosticParams (pm_Catalog m), pm_Qualified m)
  | None => ("", genericCellularFallback, false)
  end.

Definition MatchCellularDiagnostics (catalogs : list Catalog) (manufacturer : string) : string * list string :=
  match MatchProfile catalogs manufacturer "" with
  | Some m => (cat_Vendor (pm_Catalog m), CellularDiagnosticParams (pm_Catalog m))
  | None => ("", genericCellularFallback)
  end.

(** ** Laws *)

Lemma ResolvePath_head root p : head (ResolvePathCandidates root p) = Some (ResolvePath root p).
Proof. by destruct root. Qed.

(** A path chosen for a write is a candidate of the parameter, and writable
    according to the device when the device has been discovered; a refusal
    means that no candidate is. *)
Lemma ResolveWritablePath_spec root p discovered :
  match ResolveWritablePath root p discovered with
  | Ok path => path ∈ ResolvePathCandidates root p ∧
               (∀ names, discovered = Some names → discovered_writable names path = true)
  | Err _ => ∃ names, discovered = Some names ∧
               ∀ path, path ∈ ResolvePathCandidates root p → discovered_writable names path = false
  end.
Proof.
  unfold ResolveWritablePath. destruct discovered as [names|].
  - destruct (List.find _ _) as [path|] eqn:E.
    + apply find_some in E as [Hin Hw]. split; [by apply list_elem_of_In|]. by intros ? [= <-].
    + exists names. split; [done|]. intros path Hin. apply list_elem_of_In in Hin. by apply (find_none _ _ E).
  - split; [|done]. destruct root; simpl; apply list_elem_of_here.
Qed.

Lemma MatchProfile_spec catalogs manufacturer model m :
  MatchProfile catalogs manufacturer model = Some m →
  pm_Catalog m ∈ catalogs ∧ vendor_matches (vendorKey manufacturer) (pm_Catalog m) = true ∧ pm_Qualified m = false ∧
  (pm_MatchedBy m = ByModel → vendorKey model = vendorKey (cat_Model (pm_Catalog m)) ∧ vendorKey model ≠ "").
Proof.
  unfold MatchProfile. cbv zeta. destruct (List.find _ _) as [c|] eqn:E1.
  - intros [= <-]. apply find_some in E1 as [Hin Hp]. apply list_elem_of_In in Hin. simpl.
    apply andb_true_iff in Hp as [[Hv Hne]%andb_true_iff Heq%String.eqb_eq]. split_and!; try done.
    intros _. split; [done|]. by apply negb_true_iff, String.eqb_neq in Hne.
  - destruct (List.find (vendor_matches _) _) as [c|] eqn:E2; [|done]. intros [= <-].
    apply find_some in E2 as [Hin Hp]. apply list_elem_of_In in Hin. done.
Qed.

(** A profile counts as qualified only with recorded evidence for the very
    firmware the device reports, on a catalog of its vendor and model. *)
Lemma MatchFirmwareProfile_qualified catalogs manufacturer model firmware m :
  MatchFirmwareProfile catalogs manufacturer model firmware = Some m → pm_Qualified m = true →
  pm_Catalog m ∈ catalogs ∧ pm_MatchedBy m = ByModel ∧ firmware ≠ "" ∧
  qualified_for manufacturer model firmware (pm_Catalog m) = true.
Proof.
  unfold MatchFirmwareProfile. destruct (MatchProfile _ _ _) as [m0|] eqn:E; [|done].
  pose proof (MatchProfile_spec _ _ _ _ E) as (_ & _ & Hq & _).
  destruct (pm_MatchedBy m0) eqn:Em; [|intros [= <-]; congruence].
  destruct (String.eqb_spec firmware ""); [intros [= <-]; congruence|].
  destruct (List.find _ _) as [c|] eqn:Ef; [|intros [= <-]; congruence]. intros [= <-] _.
  apply find_some in Ef as [Hin Hp]. apply list_elem_of_In in Hin. done.
Qed.
