(* ===== verification/Admission.v ===== *)
(** * Admission of CWMP requests ([cmd/acs/mux.go], [bootstrap_graduation.go])

    What stands in front of the session handler: the restrictions of the
    production profile, and the exchange in which a device that only knows the
    fleet's bootstrap secret is given a credential of its own.  Rate limiters
    are an input of a request ([po_ip_allowed], [po_device_allowed]); reading
    and parsing the body gives a [PostBody]; the lifetime of the cookie is the
    client's matter. *)

From S2P Require Import Prelude GoStrings Encoding Cwmp JobModel JobStore Devices Credentials DigestAuth Adapters.

(** ** Headers *)

Definition hasAuthScheme (header scheme : string) : bool :=
  match Cut header " " with
  | Some (s, _) => EqualFold s scheme
  | None => false
  end.

(** The first [username] directive of a Digest header. *)
Fixpoint username_directive (directives : list string) : string :=
  match directives with
  | [] => ""
  | directive :: rest =>
      match Cut (TrimSpace directive) "=" with
      | Some (k, v) =>
          if EqualFold (TrimSpace k) "username" then TrimByte dquote (TrimSpace v) else username_directive rest
      | None => username_directive rest
      end
  end.

Definition digestAuthorizationUsername (header : string) : string :=
  match Cut header " " with
  | Some (scheme, rest) => if EqualFold scheme "Digest" then username_directive (Split rest ",") else ""
  | None => ""
  end.

(** ** The production profile ([productionCWMPGuard]) *)

(** [Some code] refuses the request. *)
Definition productionCWMPGuard (production : bool) (sharedUsername : string) (r : HTTPRequest) : option Z :=
  if negb production then None
  else if negb (is_some (rq_TLS r)) then Some 426
  else
    let authorization := TrimSpace (rq_Authorization r) in
    if hasAuthScheme authorization "Basic" then Some 403
    else
      let shared := TrimSpace sharedUsername in
      if negb (String.eqb shared "") && hasAuthScheme authorization "Digest"
         && String.eqb (digestAuthorizationUsername authorization) shared
      then Some 403
      else None.

(** ** Bootstrap *)

Definition bootstrapDeviceIsEstablished (now : GoTime) (d : Device) : bool :=
  if ReenrollmentOpen now d then false
  else is_some (d_LastInformAt (d_presence d)) || negb (bool_decide (d_CWMPAuthMode d = AuthModeNone)).

(** [DetectCWMPNamespace]: the first match of [urn:dslforum-org:cwmp-1-\d+]. *)
Fixpoint DetectCWMPNamespace (raw : string) : string :=
  match CutPrefix raw "urn:dslforum-org:cwmp-1-" with
  | Some rest =>
      match span is_digit rest with
      | (EmptyString, _) => match raw with String _ r => DetectCWMPNamespace r | EmptyString => DefaultCWMPNamespace end
      | (digits, _) => ("urn:dslforum-org:cwmp-1-" ++ digits)%string
      end
  | None => match raw with String _ r => DetectCWMPNamespace r | EmptyString => DefaultCWMPNamespace end
  end.

(** GetRPCMethods and unknown requests of the device. *)
Definition writeCPEInitiatedReply (body : InboundBody) (respID ns : string) : option string :=
  if is_some (ib_GetRPCMethods body) then Some (RenderGetRPCMethodsResponseNS respID ns)
  else if negb (String.eqb (UnsupportedRequest body) "") then Some (RenderMethodNotSupportedFaultNS respID ns)
  else None.

Definition param_root (name : string) : DataModelRoot :=
  if HasPrefix name "InternetGatewayDevice." then RootIGD1
  else if HasPrefix name "Device." then RootDevice2
  else RootUnknown.

(** The one root the reported parameters agree on. *)
Fixpoint infer_root (root : DataModelRoot) (params : list ParameterValueStruct) : DataModelRoot :=
  match params with
  | [] => root
  | p :: rest =>
      let candidate := param_root (pv_Name p) in
      if bool_decide (candidate = RootUnknown) then infer_root root rest
      else if negb (bool_decide (root = RootUnknown)) && negb (bool_decide (root = candidate)) then RootUnknown
      else infer_root candidate rest
  end.

Definition inferBootstrapDataModelRoot (params : list ParameterValueStruct) : DataModelRoot := infer_root RootUnknown params.

Definition encodeBootstrapCredentialCookie (credentialID ns : string) : string :=
  (credentialID ++ "." ++ EncodeRawURL ns)%string.

Definition decodeBootstrapCredentialCookie (value : string) : option (string * string) :=
  match Cut value "." with
  | Some (credentialID, encodedNS) =>
      if String.eqb credentialID "" || String.eqb encodedNS "" then None
      else match DecodeRawURL encodedNS with
           | Some ns => if String.eqb ns "" then None else Some (credentialID, ns)
           | None => None
           end
  | None => None
  end.

(** ** The exchange *)

Inductive PostBody : Type :=
| BodyUnsupported
| BodyUnreadable
| BodyMalformed (raw : string)
| BodyParsed (raw header_id : string) (body : InboundBody).

Record CwmpPost : Type := mkPost {
  po_request : HTTPRequest;
  po_cookie : option string;
  po_body : PostBody;
  po_ip_allowed : bool;
  po_device_allowed : bool
}.

(** What a request draws at random. *)
Record Draws : Type := mkDraws {
  dr_device_id : string;
  dr_credential_id : string;
  dr_username : string;
  dr_password : string;
  dr_rpc_id : string
}.

(** [BootPass]: the request goes on to the session handler.  The other replies
    end it; [clear] and [cookie] say what happens to the bootstrap cookie. *)
Inductive BootReply : Type :=
| BootPass
| BootChallenge (stale : bool)
| BootError (code : Z) (clear : bool)
| BootNoContent (clear : bool)
| BootXML (body : string) (cookie : option string).

Record Enrolment : Type := mkEnrolment { en_devices : Devices; en_credentials : Credentials }.

Definition resp_id (header_id : string) (dr : Draws) : string :=
  if String.eqb header_id "" then dr_rpc_id dr else header_id.

(** The handler makes three calls of the database: the lookup, the upsert and the
    issue of a credential.  [rest n] is what the rest of the system does to the
    tables before the second and the third. *)
Definition Interference : Type := nat → Enrolment → Enrolment.

Definition handleBootstrapGraduationInform (now : GoTime) (dr : Draws) (rest : Interference) (post : CwmpPost)
    (raw header_id : string) (inform : Inform) (w : Enrolment) : BootReply * Enrolment :=
  let id := Normalized (inf_DeviceId inform) in
  if String.eqb (dev_OUI id) "" || String.eqb (dev_SerialNumber id) "" then (BootError 400 false, w)
  else if negb (po_device_allowed post) then (BootError 429 false, w)
  else
    let naturalKey := NaturalKey id in
    if match GetByOUIserial (en_devices w) naturalKey with
       | Some d => bootstrapDeviceIsEstablished now d
       | None => false
       end then (BootError 403 false, w)
    else
      let w1 := rest 0%nat w in
      match EnsureBootstrapRegistration (dr_device_id dr) now id (inferBootstrapDataModelRoot (inf_ParameterList inform))
              (en_devices w1) with
      | (Err _, devs) => (BootError 500 false, mkEnrolment devs (en_credentials w1))
      | (Ok device, devs) =>
          let w2 := mkEnrolment devs (en_credentials w1) in
          if bootstrapDeviceIsEstablished now device then (BootError 403 false, w2)
          else
            let w3 := rest 1%nat w2 in
            match EnsurePendingCWMPDigest (dr_credential_id dr) now (d_ID (d_identity device)) (dr_username dr)
                    (dr_password dr) (en_devices w3) (en_credentials w3) with
            | (Err _, creds) => (BootError 500 false, mkEnrolment (en_devices w3) creds)
            | (Ok cred, creds) =>
                let ns := DetectCWMPNamespace raw in
                (BootXML (RenderInformResponseNS (resp_id header_id dr) ns)
                   (Some (encodeBootstrapCredentialCookie (cr_ID cred) ns)),
                 mkEnrolment (en_devices w3) creds)
            end
      end.

Definition credential_writes (root : DataModelRoot) (cred : Credential) : list ParameterValueStruct :=
  [mkPV (ResolvePath root ManagementServerUsername) (cr_Username cred) "";
   mkPV (ResolvePath root ManagementServerPassword) (cr_Password cred) ""].

Definition handleBootstrapCredentialInstall (dr : Draws) (cred : Credential) (device : Device) (ns : string) : BootReply :=
  if negb (root_known (d_DataModelRoot device)) then BootError 409 true
  else
    BootXML (RewriteCWMPNamespace
               (RenderSetParameterValues (dr_rpc_id dr) (credential_writes (d_DataModelRoot device) cred)
                  (ClampParameterKey (cr_CommandKey cred))) ns) None.

Definition loadBootstrapGraduationState (post : CwmpPost) (w : Enrolment) : option (Credential * Device * string) :=
  match po_cookie post with
  | None => None
  | Some value =>
      match decodeBootstrapCredentialCookie value with
      | None => None
      | Some (credentialID, ns) =>
          match en_credentials w !! credentialID with
          | Some cred =>
              if negb (bool_decide (cr_Type cred = TypeCWMPDigest)) || negb (has_status CredPending cred) then None
              else match en_devices w !! cr_DeviceID cred with
                   | Some device => Some (cred, device, ns)
                   | None => None
                   end
          | None => None
          end
      end
  end.

(** A request of the exchange that is not an Inform. *)
Definition graduation_step (now : GoTime) (dr : Draws) (post : CwmpPost) (raw header_id : string) (body : InboundBody)
    (w : Enrolment) : BootReply :=
  match loadBootstrapGraduationState post w with
  | None => BootError 403 true
  | Some (cred, device, ns) =>
      if bootstrapDeviceIsEstablished now device then BootError 403 true
      else
        match writeCPEInitiatedReply body (resp_id header_id dr) (DetectCWMPNamespace raw) with
        | Some out => BootXML out None
        | None =>
            if IsEmpty body then handleBootstrapCredentialInstall dr cred device ns
            else if is_some (ib_SetParameterValuesResponse body) then BootNoContent true
            else if is_some (ib_Fault body) then BootNoContent true
            else BootError 403 false
        end
  end.

Section Guard.
Context (md5 sha256 : string → string) (hmac_sha256 : string → string → string).
Context {S : Type} `{ReplayStore S}.

(** Requests that are not of the bootstrap scope: not a POST, with a client
    certificate, or not Digest under the bootstrap username. *)
Definition outside_bootstrap (boot : DigestAuthenticator) (r : HTTPRequest) : bool :=
  let authorization := TrimSpace (rq_Authorization r) in
  negb (String.eqb (rq_Method r) "POST")
  || match rq_TLS r with Some (_ :: _) => true | _ => false end
  || String.eqb (da_Username boot) "" || negb (hasAuthScheme authorization "Digest")
  || negb (String.eqb (digestAuthorizationUsername authorization) (da_Username boot)).

Definition bootstrapCWMPGraduationGuard (boot : DigestAuthenticator) (now : GoTime) (dr : Draws) (rest : Interference)
    (post : CwmpPost) (s : S) (w : Enrolment) : BootReply * S * Enrolment :=
  let r := po_request post in
  if negb (Enabled boot) then (BootPass, s, w)
  else if outside_bootstrap boot r then (BootPass, s, w)
  else if negb (po_ip_allowed post) then (BootError 429 false, s, w)
  else
    match Verify md5 sha256 hmac_sha256 boot r now s with
    | (AuthStale, s') => (BootChallenge true, s', w)
    | (AuthRejected, s') => (BootChallenge false, s', w)
    | (AuthOk _, s') =>
        match po_body post with
        | BodyUnsupported => (BootError 415 false, s', w)
        | BodyUnreadable | BodyMalformed _ => (BootError 400 false, s', w)
        | BodyParsed raw header_id body =>
            match ib_Inform body with
            | Some inform =>
                let '(reply, w') := handleBootstrapGraduationInform now dr rest post raw header_id inform w in (reply, s', w')
            | None => (graduation_step now dr post raw header_id body w, s', w)
            end
        end
    end.
End Guard.
