(* ===== verification/AdmissionTheorems.v ===== *)
(** * What admission promises

    The bootstrap secret cannot touch an established device, a device that goes
    through the exchange ends with a credential of its own, and what the
    production profile lets through. *)

From S2P Require Import Prelude GoStrings Encoding Cwmp Devices Credentials DigestAuth.
From S2P Require Import JobModel JobStore Adapters Admission.

(** ** Facts *)

Lemma drop_separators_idemp s : drop_separators (drop_separators s) = drop_separators s.
Proof.
  induction s as [|c s IH]; [done|]. cbn [drop_separators].
  destruct (_ || _) eqn:E; [done|]. cbn [drop_separators]. by rewrite E, IH.
Qed.

Lemma upper_byte_upper c : upper_byte (upper_byte c) = upper_byte c.
Proof. destruct c as [[] [] [] [] [] [] [] []]; reflexivity. Qed.

Lemma ToUpper_drop_separators s : ToUpper (drop_separators (ToUpper s)) = drop_separators (ToUpper s).
Proof.
  induction s as [|c s IH]; [done|]. unfold ToUpper in *. cbn [string_map drop_separators].
  destruct (_ || _); [done|]. cbn [string_map]. by rewrite upper_byte_upper, IH.
Qed.

Lemma NormalizeOUI_idemp s : NormalizeOUI (NormalizeOUI s) = NormalizeOUI s.
Proof. unfold NormalizeOUI. by rewrite ToUpper_drop_separators, drop_separators_idemp. Qed.

Lemma Normalized_idemp id : Normalized (Normalized id) = Normalized id.
Proof. unfold Normalized. simpl. by rewrite NormalizeOUI_idemp. Qed.

(** [EnsureBootstrapRegistration] writes the row of the natural key and leaves
    what makes a device established as it was. *)
Lemma EnsureBootstrapRegistration_spec uuid now id root tab r tab' :
  devices_ok tab → EnsureBootstrapRegistration uuid now id root tab = (r, tab') →
  devices_ok tab' ∧
  match r with
  | Err _ => tab' = tab
  | Ok d =>
      tab' = <[d_ID (d_identity d) := d]> tab ∧ d_OUISerial (d_identity d) = NaturalKey (Normalized id) ∧
      match GetByOUIserial tab (NaturalKey (Normalized id)) with
      | Some d0 => d_identity d = d_identity d0 ∧ d_presence d = d_presence d0 ∧ d_ownership d = d_ownership d0 ∧
                   d_CWMPAuthMode d = d_CWMPAuthMode d0 ∧ tab !! d_ID (d_identity d0) = Some d0
      | None => tab !! d_ID (d_identity d) = None ∧ d_ID (d_identity d) = uuid ∧
                d_presence d = mkPresence StOffline None [] None None ∧ d_CWMPAuthMode d = AuthModeNone ∧
                d_ReenrollUntil (d_ownership d) = None
      end
  end.
Proof.
  intros Hok. unfold EnsureBootstrapRegistration. cbv zeta. set (fresh := mkDevice _ _ _ _ _ _ _ _ _ _ _).
  set (f := λ d : Device, _). intros E. split.
  - pose proof (devices_ok_upsert tab (NaturalKey (Normalized id)) fresh f Hok) as H. rewrite E in H. apply H; done.
  - unfold upsert in E. destruct (GetByOUIserial tab _) as [d0|] eqn:Eg.
    + injection E as <- <-. apply GetByOUIserial_some in Eg as [[k Hk] Hs].
      pose proof (dev_keyed _ Hok _ _ Hk) as Hid. subst k. split_and!; done.
    + destruct (is_some _) eqn:Ei; injection E as <- <-; [done|].
      split_and!; try done. simpl in *. by destruct (tab !! uuid).
Qed.

Lemma EnsurePendingCWMPDigest_spec uuid now dev u p devs tab r tab' :
  EnsurePendingCWMPDigest uuid now dev u p devs tab = (r, tab') →
  match r with
  | Err _ => tab' = tab
  | Ok c => cr_Type c = TypeCWMPDigest ∧ cr_DeviceID c = dev ∧ has_status CredPending c = true ∧
      ((∃ k, tab !! k = Some c) ∧ tab' = tab ∧ PendingForDevice tab dev TypeCWMPDigest = Some c ∨
       tab !! cr_ID c = None ∧ cr_ID c = uuid ∧ cr_Username c = u ∧ cr_Password c = p ∧ tab' = <[cr_ID c := c]> tab ∧
       PendingForDevice tab dev TypeCWMPDigest = None)
  end.
Proof.
  unfold EnsurePendingCWMPDigest. destruct (negb _); [by intros [= <- <-]|].
  destruct (PendingForDevice tab dev TypeCWMPDigest) as [c|] eqn:Ep.
  - intros [= <- <-]. unfold PendingForDevice, newest in Ep. apply oldest_elem in Ep as Hin.
    apply list_elem_of_In, filter_In in Hin as [Hin Hp]. apply list_elem_of_In, elem_of_rows in Hin.
    unfold of_device in Hp. apply andb_true_iff in Hp as [[Hd%String.eqb_eq Ht%bool_decide_eq_true]%andb_true_iff Hs].
    split_and!; [done..|]. left. split_and!; done.
  - unfold CreateCredential, insert_credential. set (c := mkCredential _ _ _ _ _ _ _ _ _ _ _).
    destruct (negb _); [by intros [= <- <-]|]. destruct (_ || _) eqn:E; intros [= <- <-]; [done|].
    split_and!; try done. right. apply orb_false_iff in E as [[E _]%orb_false_iff _].
    split_and!; try done. simpl in *. by destruct (tab !! uuid).
Qed.

(** ** Confinement *)

(** What an exchange may do to the two tables. *)
Record bootstrap_change (now : GoTime) (w w' : Enrolment) : Prop := mk_bootstrap_change {
  bc_devices : ∀ k d, en_devices w !! k = Some d →
    bootstrapDeviceIsEstablished now d = true → en_devices w' !! k = Some d;
  bc_owner : ∀ k d, en_devices w !! k = Some d →
    ∃ d', en_devices w' !! k = Some d' ∧ d_identity d' = d_identity d ∧ d_ownership d' = d_ownership d ∧
      d_presence d' = d_presence d ∧ d_CWMPAuthMode d' = d_CWMPAuthMode d;
  bc_credentials : ∀ k c, en_credentials w !! k = Some c → en_credentials w' !! k = Some c;
  bc_issued : ∀ k c, en_credentials w' !! k = Some c → en_credentials w !! k = None →
    cr_Type c = TypeCWMPDigest ∧ has_status CredPending c = true ∧
    ∃ d, en_devices w' !! cr_DeviceID c = Some d ∧ bootstrapDeviceIsEstablished now d = false
}.

Lemma bootstrap_change_refl now w : bootstrap_change now w w.
Proof. split; eauto 10. intros k c H1 H2. congruence. Qed.

Lemma established_ext now d d' :
  d_presence d' = d_presence d → d_ownership d' = d_ownership d → d_CWMPAuthMode d' = d_CWMPAuthMode d →
  bootstrapDeviceIsEstablished now d' = bootstrapDeviceIsEstablished now d.
Proof. unfold bootstrapDeviceIsEstablished, ReenrollmentOpen. by intros -> -> ->. Qed.

(** Registering a device that is not established. *)
Lemma register_change now uuid id root w d devs :
  devices_ok (en_devices w) →
  EnsureBootstrapRegistration uuid now id root (en_devices w) = (Ok d, devs) →
  match GetByOUIserial (en_devices w) (NaturalKey (Normalized id)) with
  | Some d0 => bootstrapDeviceIsEstablished now d0 = false
  | None => True
  end →
  bootstrap_change now w (mkEnrolment devs (en_credentials w)) ∧ devs !! d_ID (d_identity d) = Some d ∧
  bootstrapDeviceIsEstablished now d = false.
Proof.
  intros Hok E He. apply EnsureBootstrapRegistration_spec in E as (_ & -> & _ & Hspec); [|done].
  destruct (GetByOUIserial _ _) as [d0|].
  - destruct Hspec as (Hi & Hp & Ho & Ha & H0). rewrite (established_ext now d0 d) by done.
    split; [|by rewrite lookup_insert_eq]. rewrite Hi. split; simpl.
    + intros k d' Hd' Hest. rewrite lookup_insert_ne; [done|]. intros <-. congruence.
    + intros k d' Hd'. destruct (decide (k = d_ID (d_identity d0))) as [->|Hne].
      * rewrite lookup_insert_eq. exists d. assert (d' = d0) as -> by congruence. done.
      * rewrite lookup_insert_ne by done. by exists d'.
    + done.
    + intros k c H1 H2. congruence.
  - destruct Hspec as (Hn & _ & Hp & Ha & Hr). split; [|split; [by rewrite lookup_insert_eq|]].
    + split; simpl.
      * intros k d' Hd' _. rewrite lookup_insert_ne; [done|]. intros <-. congruence.
      * intros k d' Hd'. rewrite lookup_insert_ne by (intros <-; congruence). by exists d'.
      * done.
      * intros k c H1 H2. congruence.
    + unfold bootstrapDeviceIsEstablished, ReenrollmentOpen. by rewrite Hr, Hp, Ha.
Qed.

(** Nobody else works on the tables meanwhile. *)
Definition alone : Interference := λ _ w, w.

Lemma graduation_inform_change now dr post raw hid inform w :
  devices_ok (en_devices w) →
  bootstrap_change now w (handleBootstrapGraduationInform now dr alone post raw hid inform w).2.
Proof.
  intros Hok. unfold handleBootstrapGraduationInform, alone. cbv zeta beta.
  destruct (_ || _); [apply bootstrap_change_refl|]. destruct (negb _); [apply bootstrap_change_refl|].
  destruct (match GetByOUIserial _ _ with Some d => _ | None => _ end) eqn:He; [apply bootstrap_change_refl|].
  destruct (EnsureBootstrapRegistration _ _ _ _ _) as [[d|e] devs] eqn:Er.
  2: { apply EnsureBootstrapRegistration_spec in Er as [_ ->]; [|done]. destruct w. apply bootstrap_change_refl. }
  destruct (register_change now _ _ _ _ _ _ Hok Er) as (Hc & Hd & Hne).
  { rewrite Normalized_idemp. by destruct (GetByOUIserial _ _). }
  rewrite Hne. cbn [en_devices en_credentials].
  destruct (EnsurePendingCWMPDigest _ _ _ _ _ _ _) as [[c|e] creds] eqn:Ec; simpl.
  - apply EnsurePendingCWMPDigest_spec in Ec as (Ht & Hdev & Hs & [(_ & -> & _)|(Hn & _ & _ & _ & -> & _)]); [done|].
    destruct Hc as [H1 H2 _ _]. split; simpl in *; [done|done| |].
    + intros k c' Hk. rewrite lookup_insert_ne; [done|]. intros <-. congruence.
    + intros k c'. rewrite lookup_insert. case_decide; [|intros; congruence]. intros [= <-] _.
      split_and!; [done|done|]. rewrite Hdev. eauto.
  - apply EnsurePendingCWMPDigest_spec in Ec as ->. done.
Qed.

(** *** With others at work *)

(** The upsert: one row written, which keeps its identity, owner, presence and
    authentication mode; credentials are left alone. *)
Definition registered (w : Enrolment) (device : Device) (w' : Enrolment) : Prop :=
  en_credentials w' = en_credentials w ∧ en_devices w' = <[d_ID (d_identity device) := device]> (en_devices w) ∧
  ∀ d, en_devices w !! d_ID (d_identity device) = Some d →
    d_identity device = d_identity d ∧ d_ownership device = d_ownership d ∧ d_presence device = d_presence d ∧
    d_CWMPAuthMode device = d_CWMPAuthMode d.

(** The issue: a pending Digest credential of the device, found or new. *)
Definition issued (w : Enrolment) (device : Device) (cred : Credential) (w' : Enrolment) : Prop :=
  en_devices w' = en_devices w ∧ cr_Type cred = TypeCWMPDigest ∧ has_status CredPending cred = true ∧
  cr_DeviceID cred = d_ID (d_identity device) ∧
  (en_credentials w' = en_credentials w ∧ (∃ k, en_credentials w !! k = Some cred) ∨
   en_credentials w !! cr_ID cred = None ∧ en_credentials w' = <[cr_ID cred := cred]> (en_credentials w)).

(** The writes of one request, with the rest of the system at work in between. *)
Inductive own_writes (now : GoTime) (rest : Interference) (w : Enrolment) : BootReply → Enrolment → Prop :=
| ow_nothing reply : own_writes now rest w reply w
| ow_unregistered : own_writes now rest w (BootError 500 false) (rest 0%nat w)
| ow_refused device w2 : registered (rest 0%nat w) device w2 → bootstrapDeviceIsEstablished now device = true →
    own_writes now rest w (BootError 403 false) w2
| ow_unissued device w2 : registered (rest 0%nat w) device w2 → bootstrapDeviceIsEstablished now device = false →
    own_writes now rest w (BootError 500 false) (rest 1%nat w2)
| ow_issued device w2 cred w' body ns : registered (rest 0%nat w) device w2 →
    bootstrapDeviceIsEstablished now device = false → issued (rest 1%nat w2) device cred w' →
    own_writes now rest w (BootXML body (Some (encodeBootstrapCredentialCookie (cr_ID cred) ns))) w'.

Lemma graduation_inform_writes now dr rest post raw hid inform w reply w' :
  devices_ok (en_devices (rest 0%nat w)) →
  handleBootstrapGraduationInform now dr rest post raw hid inform w = (reply, w') → own_writes now rest w reply w'.
Proof.
  intros Hok. unfold handleBootstrapGraduationInform. cbv zeta.
  destruct (_ || _); [intros [= <- <-]; constructor|]. destruct (negb _); [intros [= <- <-]; constructor|].
  destruct (match GetByOUIserial _ _ with Some d => _ | None => _ end); [intros [= <- <-]; constructor|].
  set (w1 := rest 0%nat w) in *. destruct (EnsureBootstrapRegistration _ _ _ _ _) as [[d|e] devs] eqn:Er.
  2: { apply EnsureBootstrapRegistration_spec in Er as [_ ->]; [|done]. intros [= <- <-].
       replace (mkEnrolment _ _) with w1 by (by destruct w1). apply ow_unregistered. }
  apply EnsureBootstrapRegistration_spec in Er as (Hok' & -> & _ & Hspec); [|done].
  set (w2 := mkEnrolment _ _). assert (registered w1 d w2) as Hreg.
  { split_and!; [done|done|]. intros d' Hd'. destruct (GetByOUIserial _ _) as [d0|].
    - destruct Hspec as (Hi & Hp & Ho & Ha & H0). rewrite Hi in Hd'. assert (d' = d0) as -> by congruence. done.
    - destruct Hspec as (Hn & _). congruence. }
  destruct (bootstrapDeviceIsEstablished now d) eqn:Ee; [intros [= <- <-]; by eapply ow_refused|].
  set (w3 := rest 1%nat w2). destruct (EnsurePendingCWMPDigest _ _ _ _ _ _ _) as [[c|e] creds] eqn:Ec; intros [= <- <-];
    apply EnsurePendingCWMPDigest_spec in Ec.
  - destruct Ec as (Ht & Hdev & Hs & Hc). eapply ow_issued; [exact Hreg|done|]. split_and!; try done. cbn.
    destruct Hc as [(Hk & -> & _)|(Hn & _ & _ & _ & -> & _)]; [left|right]; done.
  - subst creds. replace (mkEnrolment _ _) with w3 by (by destruct w3). by eapply ow_unissued.
Qed.

Section Guard.
Context (md5 sha256 : string → string) (hmac_sha256 : string → string → string).

Abbreviation guard := (bootstrapCWMPGraduationGuard md5 sha256 hmac_sha256).

(** The RPC that installs a credential on a device. *)
Definition install_rpc (dr : Draws) (cred : Credential) (device : Device) (ns : string) : string :=
  RewriteCWMPNamespace (RenderSetParameterValues (dr_rpc_id dr) (credential_writes (d_DataModelRoot device) cred)
    (ClampParameterKey (cr_CommandKey cred))) ns.

(** What an XML answer without a cookie can be: the answer to the CPE's own
    request, which depends on no table, or the install of the pending credential
    the cookie names on the device it belongs to, which is not established. *)
Definition answer_is_confined (now : GoTime) (dr : Draws) (post : CwmpPost) (w : Enrolment) (out : string) : Prop :=
  (∃ raw hid body, po_body post = BodyParsed raw hid body ∧
     writeCPEInitiatedReply body (resp_id hid dr) (DetectCWMPNamespace raw) = Some out) ∨
  ∃ value k ns cred device, po_cookie post = Some value ∧ decodeBootstrapCredentialCookie value = Some (k, ns) ∧
    en_credentials w !! k = Some cred ∧ cr_Type cred = TypeCWMPDigest ∧ has_status CredPending cred = true ∧
    en_devices w !! cr_DeviceID cred = Some device ∧ bootstrapDeviceIsEstablished now device = false ∧
    out = install_rpc dr cred device ns.

Lemma graduation_step_confined now dr post raw hid body w reply :
  po_body post = BodyParsed raw hid body → graduation_step now dr post raw hid body w = reply →
  match reply with BootXML out None => answer_is_confined now dr post w out | BootXML _ (Some _) => False | _ => True end.
Proof.
  intros Hbody. unfold graduation_step, loadBootstrapGraduationState.
  destruct (po_cookie post) as [value|] eqn:Ecook; [|by intros <-].
  destruct (decodeBootstrapCredentialCookie value) as [[k ns]|] eqn:Edec; [|by intros <-].
  destruct (en_credentials w !! k) as [cred|] eqn:Ec; [|by intros <-].
  destruct (negb _ || negb _) eqn:Ep; [by intros <-|]. apply orb_false_iff in Ep as [Ht%negb_false_iff Hs%negb_false_iff].
  apply bool_decide_eq_true in Ht. destruct (en_devices w !! cr_DeviceID cred) as [device|] eqn:Ed; [|by intros <-].
  destruct (bootstrapDeviceIsEstablished now device) eqn:Ee; [by intros <-|].
  destruct (writeCPEInitiatedReply body _ _) as [out|] eqn:Ew; [intros <-; left; eauto 10|].
  intros <-. destruct (IsEmpty body); [|by destruct (is_some _); [|destruct (is_some _)]].
  unfold handleBootstrapCredentialInstall. destruct (negb _); [done|]. right. exists value, k, ns, cred, device. done.
Qed.

(** C34: the fleet's bootstrap secret cannot reach an established device.  Whatever
    is posted with it, and whatever the rest of the system does between the calls of
    the handler: it writes one device row at most, whose identity, owner, presence
    and authentication mode stay as they are, and it issues a credential only for a
    device that is not established by the row it has just written, a pending Digest
    credential of that device; a device that was established between the lookup and
    the upsert is refused.  An XML answer is the answer to the CPE's own request, the
    InformResponse of the exchange, or the install of the very credential the cookie
    names, a pending one of a device not established.  With nobody else at work no
    row of an established device and no existing credential changes at all. *)
Theorem bootstrap_secret_is_confined boot now dr rest post (s : NonceTable) w reply s' w' :
  devices_ok (en_devices w) → devices_ok (en_devices (rest 0%nat w)) →
  guard boot now dr rest post s w = (reply, s', w') →
  own_writes now rest w reply w' ∧
  match reply with
  | BootXML out None => w' = w ∧ answer_is_confined now dr post w out
  | BootXML out (Some _) => ∃ raw hid, out = RenderInformResponseNS (resp_id hid dr) (DetectCWMPNamespace raw)
  | _ => True
  end ∧
  (rest = alone → bootstrap_change now w w').
Proof.
  intros Hok Hok1. unfold bootstrapCWMPGraduationGuard. cbv zeta.
  assert (∀ r, own_writes now rest w r w ∧ (rest = alone → bootstrap_change now w w)) as Hid
    by (intros r; split; [apply ow_nothing|intros _; apply bootstrap_change_refl]).
  destruct (negb _); [intros [= <- <- <-]; split_and!; [apply Hid|done|apply (Hid BootPass)]|].
  destruct (outside_bootstrap _ _); [intros [= <- <- <-]; split_and!; [apply Hid|done|apply (Hid BootPass)]|].
  destruct (negb _); [intros [= <- <- <-]; split_and!; [apply Hid|done|apply (Hid BootPass)]|].
  destruct (Verify _ _ _ _ _ _ _) as [[id| |] s1];
    try (intros [= <- <- <-]; split_and!; [apply Hid|done|apply (Hid BootPass)]).
  destruct (po_body post) as [| |raw|raw hid body] eqn:Hbody;
    try (intros [= <- <- <-]; split_and!; [apply Hid|done|apply (Hid BootPass)]).
  destruct (ib_Inform body) as [inform|] eqn:Ei.
  - destruct (handleBootstrapGraduationInform _ _ _ _ _ _ _ _) as [r1 w1] eqn:Eh. intros [= <- <- <-].
    pose proof (graduation_inform_writes _ _ _ _ _ _ _ _ _ _ Hok1 Eh) as Hw. split_and!; [exact Hw| |].
    + unfold handleBootstrapGraduationInform in Eh. cbv zeta in Eh. repeat case_match; simplify_eq; eauto.
    + intros ->. pose proof (graduation_inform_change now dr post raw hid inform w Hok) as Hc. by rewrite Eh in Hc.
  - intros [= <- <- <-]. split_and!; [apply Hid| |apply (Hid BootPass)].
    pose proof (graduation_step_confined now dr post raw hid body w _ Hbody eq_refl) as Hg.
    destruct (graduation_step _ _ _ _ _ _ _) as [| | | |out [c|]]; done.
Qed.
End Guard.

Lemma cookie_round_trip credentialID ns :
  credentialID ≠ "" → byte_in "." credentialID = false → ns ≠ "" →
  decodeBootstrapCredentialCookie (encodeBootstrapCredentialCookie credentialID ns) = Some (credentialID, ns).
Proof.
  intros Hid Hdot Hns. unfold decodeBootstrapCredentialCookie, encodeBootstrapCredentialCookie.
  change (credentialID ++ "." ++ ?b)%string with (credentialID ++ String "." b)%string. rewrite Cut_app by done.
  rewrite (proj2 (String.eqb_neq _ _) Hid). destruct ns as [|c ns]; [done|].
  assert (EncodeRawURL (String c ns) ≠ "") as He by (destruct ns as [|? [|? ?]]; done).
  rewrite (proj2 (String.eqb_neq _ _) He), DecodeRawURL_EncodeRawURL. done.
Qed.

(** ** The whole exchange *)

Lemma no_pending tab dev :
  PendingForDevice tab dev TypeCWMPDigest = None →
  forallb (λ r, negb (of_device dev TypeCWMPDigest r && has_status CredPending r)) (rows tab) = true.
Proof.
  intros Hp. apply forallb_forall. intros r Hin. apply list_elem_of_In, elem_of_rows in Hin as [k Hk].
  destruct (of_device dev TypeCWMPDigest r && has_status CredPending r) eqn:E; [|done].
  destruct (newest_some (λ c, of_device dev TypeCWMPDigest c && has_status CredPending c) tab k r Hk E) as (c & Hc & _).
  unfold PendingForDevice in Hp. congruence.
Qed.

Lemma version_free_next uuid dev t u p ck now tab :
  version_free tab (mkCredential uuid dev t (next_version dev t tab) u p CredPending ck now None None) = true.
Proof.
  unfold version_free. apply forallb_forall. intros r Hin. apply list_elem_of_In, elem_of_rows in Hin as [k Hk]. simpl.
  unfold of_device. destruct (String.eqb_spec (cr_DeviceID r) dev); [|done]. case_bool_decide; [|done]. simpl.
  pose proof (next_version_above dev t tab k r Hk ltac:(done) ltac:(done)). rewrite (proj2 (Z.eqb_neq _ _)) by lia. done.
Qed.

Lemma EnsurePendingCWMPDigest_new uuid now dev u p devs tab :
  is_Some (devs !! dev) → PendingForDevice tab dev TypeCWMPDigest = None → tab !! uuid = None → credentials_ok tab →
  ∃ c, EnsurePendingCWMPDigest uuid now dev u p devs tab = (Ok c, <[uuid := c]> tab) ∧ credentials_ok (<[uuid := c]> tab) ∧
    cr_ID c = uuid ∧ cr_DeviceID c = dev ∧ cr_Type c = TypeCWMPDigest ∧ cr_Username c = u ∧ cr_Password c = p ∧
    cr_Status c = CredPending ∧ cr_CommandKey c = bootstrapCommandKey uuid.
Proof.
  intros [d Hd] Hp Hn Hok. unfold EnsurePendingCWMPDigest.
  pose proof (credentials_ok_create uuid now dev TypeCWMPDigest u p (bootstrapCommandKey uuid) devs tab Hok) as Hc.
  unfold CreateCredential, insert_credential, one_pending_ok in *.
  rewrite Hd, Hp. simpl in *. rewrite Hd, Hn, version_free_next, no_pending in * by done. simpl in *. by eexists.
Qed.

(** Registration succeeds, and the data model of the device is known after it. *)
Lemma EnsureBootstrapRegistration_known uuid now id root tab :
  root_known root = true → (GetByOUIserial tab (NaturalKey (Normalized id)) = None → tab !! uuid = None) →
  ∃ d, (EnsureBootstrapRegistration uuid now id root tab).1 = Ok d ∧ root_known (d_DataModelRoot d) = true.
Proof.
  intros Hroot Hfresh. unfold EnsureBootstrapRegistration, upsert. cbv zeta. destruct (GetByOUIserial _ _) as [d0|].
  - eexists. split; [done|]. simpl. rewrite Hroot, andb_true_r. by destruct (d_DataModelRoot d0).
  - simpl. rewrite Hfresh by done. by eexists.
Qed.

Lemma Activate_active now id tab c :
  credentials_ok tab → tab !! id = Some c →
  ∃ active, ActiveForDevice (Activate now id tab).2 (cr_DeviceID c) (cr_Type c) = Some active ∧ cr_ID active = cr_ID c.
Proof.
  intros Hok Hc. pose proof (credentials_ok_activate now id tab Hok) as Hok'.
  rewrite (Activate_rows now id tab c Hok Hc) in *. simpl in *. exists (activated now c c).
  assert (cr_Status (activated now c c) = CredActive ∧ cr_DeviceID (activated now c c) = cr_DeviceID c ∧
    cr_Type (activated now c c) = cr_Type c ∧ cr_ID (activated now c c) = cr_ID c) as (Ha & Hd & Ht & Hi)
    by (unfold activated; rewrite String.eqb_refl; by destruct (_ && _)).
  rewrite <- Hd, <- Ht. split; [|done]. apply (ActiveForDevice_unique _ id); [done| |done]. by rewrite lookup_fmap, Hc.
Qed.

(** The first use of a pending credential that its username identifies. *)
Lemma OnAuthenticated_activates now username tab devs c :
  credentials_ok tab → LookupCWMPDigest tab username = Some c → cr_Status c = CredPending → cr_Type c = TypeCWMPDigest →
  tab !! cr_ID c = Some c →
  ∃ active, ActiveForDevice (OnAuthenticated now username tab devs).1 (cr_DeviceID c) TypeCWMPDigest = Some active ∧
    cr_ID active = cr_ID c.
Proof.
  intros Hok Hl Hs Ht Hc. unfold OnAuthenticated, has_status. rewrite Hl, Hs. simpl.
  destruct (Activate_active now (cr_ID c) tab c Hok Hc) as (x & Hx & Hi). rewrite Ht in Hx. exists x. split; [|done].
  by destruct (Activate now (cr_ID c) tab) as [[]].
Qed.

(** The credential of a username no other row has. *)
Lemma LookupCWMPDigest_only tab k c :
  tab !! k = Some c → cr_Type c = TypeCWMPDigest → live c = true →
  (∀ k' c', tab !! k' = Some c' → cr_Username c' = cr_Username c → k' = k) →
  LookupCWMPDigest tab (cr_Username c) = Some c.
Proof.
  intros Hc Ht Hl Hu. unfold LookupCWMPDigest.
  set (p := λ x, bool_decide (cr_Type x = TypeCWMPDigest) && String.eqb (cr_Username x) (cr_Username c) && live x).
  destruct (newest_some p tab k c Hc) as (c' & Hc' & Hp'); [unfold p; by rewrite Ht, String.eqb_refl, Hl|].
  rewrite Hc'. unfold newest in Hc'. apply oldest_elem, list_elem_of_In, filter_In in Hc' as [Hin _].
  apply list_elem_of_In, elem_of_rows in Hin as [k' Hk'].
  unfold p in Hp'. apply andb_true_iff in Hp' as [[_ He%String.eqb_eq]%andb_true_iff _].
  rewrite (Hu _ _ Hk' He) in Hk'. congruence.
Qed.

Lemma DetectCWMPNamespace_nonempty raw : DetectCWMPNamespace raw ≠ "".
Proof.
  induction raw as [|c raw IH]; [done|]. cbn [DetectCWMPNamespace].
  destruct (CutPrefix _ _) as [rest|]; [|done]. destruct (span is_digit rest) as [[|x ds] r]; done.
Qed.

(** A new device graduates.  A device that is unknown, or registered and not
    established, and speaks a known data model: its bootstrap Inform is
    answered with a cookie; the empty request that brings the cookie back is
    answered with the write of a fresh username and password to it; that pair
    is then what the server looks up for the device; and the first use of it
    makes it the device's active credential. *)
Theorem bootstrap_graduation_completes now now' dr post post2 raw hid raw2 hid2 inform w :
  let id := Normalized (inf_DeviceId inform) in
  devices_ok (en_devices w) → credentials_ok (en_credentials w) →
  dev_OUI id ≠ "" → dev_SerialNumber id ≠ "" → po_device_allowed post = true →
  root_known (inferBootstrapDataModelRoot (inf_ParameterList inform)) = true →
  match GetByOUIserial (en_devices w) (NaturalKey id) with
  | Some d => bootstrapDeviceIsEstablished now d = false ∧
              PendingForDevice (en_credentials w) (d_ID (d_identity d)) TypeCWMPDigest = None
  | None => en_devices w !! dr_device_id dr = None ∧
            PendingForDevice (en_credentials w) (dr_device_id dr) TypeCWMPDigest = None
  end →
  en_credentials w !! dr_credential_id dr = None → dr_credential_id dr ≠ "" → byte_in "." (dr_credential_id dr) = false →
  (∀ k c, en_credentials w !! k = Some c → cr_Username c ≠ dr_username dr) →
  po_cookie post2 = Some (encodeBootstrapCredentialCookie (dr_credential_id dr) (DetectCWMPNamespace raw)) →
  ∃ device cred w',
    handleBootstrapGraduationInform now dr alone post raw hid inform w
    = (BootXML (RenderInformResponseNS (resp_id hid dr) (DetectCWMPNamespace raw)) (po_cookie post2), w') ∧
    d_OUISerial (d_identity device) = NaturalKey id ∧
    graduation_step now dr post2 raw2 hid2 emptyBody w'
    = BootXML (RewriteCWMPNamespace
        (RenderSetParameterValues (dr_rpc_id dr) (credential_writes (d_DataModelRoot device) cred)
           (ClampParameterKey (bootstrapCommandKey (dr_credential_id dr)))) (DetectCWMPNamespace raw)) None ∧
    cr_Username cred = dr_username dr ∧ cr_Password cred = dr_password dr ∧ cr_DeviceID cred = d_ID (d_identity device) ∧
    LookupCWMPDigest (en_credentials w') (dr_username dr) = Some cred ∧
    ∃ active, ActiveForDevice (OnAuthenticated now' (dr_username dr) (en_credentials w') (en_devices w')).1
                (d_ID (d_identity device)) TypeCWMPDigest = Some active ∧ cr_ID active = cr_ID cred.
Proof.
  intros id Hok Hcok Hoi Hsn Hallow Hroot Hdev Hcid Hcne Hdot Huser Hcookie.
  pose proof (DetectCWMPNamespace_nonempty raw) as Hns.
  unfold handleBootstrapGraduationInform, alone. fold id. cbv zeta beta.
  rewrite (proj2 (String.eqb_neq _ _) Hoi), (proj2 (String.eqb_neq _ _) Hsn), Hallow. simpl.
  assert ((match GetByOUIserial (en_devices w) (NaturalKey id) with
           | Some d => bootstrapDeviceIsEstablished now d | None => false end) = false) as ->
    by (destruct (GetByOUIserial _ _); [by destruct Hdev|done]).
  assert (Normalized id = id) as Hid by apply Normalized_idemp.
  set (root := inferBootstrapDataModelRoot _) in *.
  destruct (EnsureBootstrapRegistration_known (dr_device_id dr) now id root (en_devices w)) as (d & Ed & Hknown); [done| |].
  { rewrite Hid. intros Hg. rewrite Hg in Hdev. apply Hdev. }
  destruct (EnsureBootstrapRegistration (dr_device_id dr) now id root (en_devices w)) as [r devs] eqn:Er.
  simpl in Ed. subst r. destruct (register_change now _ _ _ _ _ _ Hok Er) as (_ & Hd & Hne).
  { rewrite Hid. destruct (GetByOUIserial _ _); [apply Hdev|done]. }
  rewrite Hne. apply EnsureBootstrapRegistration_spec in Er as (_ & _ & Hser & Hwho); [|done]. rewrite Hid in *.
  assert (PendingForDevice (en_credentials w) (d_ID (d_identity d)) TypeCWMPDigest = None) as Hpend.
  { destruct (GetByOUIserial _ _) as [d0|]; [destruct Hwho as (-> & _); apply Hdev|].
    destruct Hwho as (_ & -> & _). apply Hdev. }
  destruct (EnsurePendingCWMPDigest_new (dr_credential_id dr) now (d_ID (d_identity d)) (dr_username dr) (dr_password dr)
    devs (en_credentials w)) as (c & -> & Hcok' & Hci & Hcd & Hct & Hcu & Hcp & Hcs & Hck); [eauto|done|done|done|].
  rewrite Hci, <- Hcookie. set (creds := <[dr_credential_id dr := c]> (en_credentials w)) in *.
  assert (creds !! dr_credential_id dr = Some c) as Hin by apply lookup_insert_eq.
  assert (LookupCWMPDigest creds (dr_username dr) = Some c) as Hlook.
  { rewrite <- Hcu. apply (LookupCWMPDigest_only _ (dr_credential_id dr)); [done|done|unfold live, has_status; by rewrite Hcs|].
    intros k' c'. unfold creds. rewrite lookup_insert. case_decide; [done|]. intros Hk' He.
    destruct (Huser _ _ Hk'). congruence. }
  exists d, c, (mkEnrolment devs creds). split_and!; try done.
  - unfold graduation_step, loadBootstrapGraduationState. rewrite Hcookie, cookie_round_trip by done. simpl.
    rewrite Hin, Hct. unfold has_status. rewrite Hcs, Hcd. simpl. rewrite Hd, Hne. simpl.
    unfold handleBootstrapCredentialInstall. by rewrite Hknown, Hck.
  - rewrite <- Hcd. simpl. eapply OnAuthenticated_activates; eauto. by rewrite Hci.
Qed.

(** ** The production profile *)

Lemma TrimRightSpace_last a c : is_space_byte c = false → TrimRightSpace (a ++ String c "") = (a ++ String c "")%string.
Proof.
  intros Hc. induction a as [|x a IH].
  { change ("" ++ String c "")%string with (String c ""). cbn [TrimRightSpace]. by rewrite Hc. }
  change (String x a ++ String c "")%string with (String x (a ++ String c "")). cbn [TrimRightSpace]. rewrite IH.
  by destruct a.
Qed.

(** Strings that end in a quote. *)
Definition ends_quoted (s : string) : Prop := ∃ a, s = (a ++ String dquote "")%string.

Lemma ends_quoted_app a s : ends_quoted s → ends_quoted (a ++ s).
Proof. intros [b ->]. exists (a ++ b)%string. by rewrite string_app_assoc. Qed.

Lemma ends_quoted_cons c s : ends_quoted s → ends_quoted (String c s).
Proof. intros [b ->]. by exists (String c b). Qed.

Lemma ends_quoted_directive k v s : ends_quoted s ∨ s = "" → ends_quoted (directive k v s).
Proof.
  intros H. unfold directive. apply ends_quoted_app, ends_quoted_cons, ends_quoted_cons, ends_quoted_app.
  destruct H as [H| ->]; [by apply ends_quoted_cons|by exists ""].
Qed.

Lemma ends_quoted_client u n i c r : ends_quoted (client_params u n i c r).
Proof.
  unfold client_params. repeat (apply ends_quoted_directive; left; apply ends_quoted_app).
  apply ends_quoted_directive. by right.
Qed.

Lemma TrimSpace_ends_quoted c s : is_space_byte c = false → ends_quoted s → TrimSpace (String c s) = String c s.
Proof.
  intros Hc Hs. unfold TrimSpace. cbn [TrimLeftSpace]. rewrite Hc.
  destruct (ends_quoted_cons c s Hs) as [a ->]. by apply TrimRightSpace_last.
Qed.

Section Production.
Context (md5 sha256 : string → string) (hmac_sha256 : string → string → string).

(** A header with two usernames, the shared one second. *)
Definition two_usernames (shared nonce uri cnonce response : string) : string :=
  ("Digest " ++ directive "username" "x" (", " ++ client_params shared nonce uri cnonce response))%string.

(** The shared fleet credential is not kept out of production.  The guard reads
    the first [username] of a Digest header, verification the last: for every
    shared username, a holder of the shared password who sends both is passed
    by the production guard and authenticated as the shared credential. *)
Theorem production_guard_admits_the_shared_credential d shared uri cnonce rnd issued now ip (tab : NonceTable) :
  let nonce := newNonce hmac_sha256 d rnd issued in
  let r := mkRequest "POST" uri
    (two_usernames shared nonce uri cnonce (client_response md5 shared (da_Password d) nonce uri cnonce)) (Some []) ip in
  da_Username d = shared → shared ≠ "" → shared ≠ "x" →
  Forall (λ s, forall_bytes is_plain s = true) [shared; uri; cnonce] →
  0 <= issued / Second <= max_int64 → now <= issued / Second * Second + nonceTTL → tab !! nonce = None →
  productionCWMPGuard true shared r = None ∧
  (Verify md5 sha256 hmac_sha256 d r now tab).1 = AuthOk (mkAuthIdentity shared "" true).
Proof.
  intros nonce r Hd Hne Hx Hplain Hi Hnow Hnew. split.
  - unfold productionCWMPGuard, r. cbn [rq_TLS rq_Authorization is_some negb].
    set (resp := client_response md5 shared (da_Password d) nonce uri cnonce) in *.
    assert (TrimSpace (two_usernames shared nonce uri cnonce resp) = two_usernames shared nonce uri cnonce resp) as ->.
    { apply (TrimSpace_ends_quoted "D"); [done|].
      apply (ends_quoted_app "igest "), ends_quoted_directive. left. apply ends_quoted_app, ends_quoted_client. }
    assert (digestAuthorizationUsername (two_usernames shared nonce uri cnonce resp) = "x") as Hu.
    { unfold digestAuthorizationUsername, two_usernames.
      change ("Digest " ++ ?s)%string with ("Digest" ++ String " " s)%string. rewrite Cut_app by done.
      change (EqualFold "Digest" "Digest") with true. cbv iota. unfold directive at 1.
      change ("username" ++ String "=" (String dquote ("x" ++ String dquote (", " ++ ?s))))%string
        with (("username" ++ String "=" (String dquote ("x" ++ String dquote ""))) ++ String "," (String " " s))%string.
      by rewrite Split_app. }
    rewrite Hu.
    assert (hasAuthScheme (two_usernames shared nonce uri cnonce resp) "Basic" = false) as -> by done. cbv zeta iota.
    rewrite (TrimSpace_plain shared) by (by apply Forall_inv in Hplain).
    rewrite (proj2 (String.eqb_neq "x" shared)) by congruence. by rewrite andb_false_r.
  - unfold Verify, r. cbn [rq_Authorization]. unfold two_usernames. rewrite CutPrefix_app.
    apply (answer_verified md5 sha256 hmac_sha256 d shared (da_Password d) "" false uri cnonce rnd issued); try done.
    + rewrite parseDigestParams_scan. unfold directive at 1. rewrite scan_quoted, scan_comma by done.
      rewrite client_params_parsed by (apply client_plain; [done|lia]). unfold params_map. by rewrite insert_insert_eq.
    + unfold passwordFor. by rewrite Hd, (proj2 (String.eqb_neq _ _) Hne), String.eqb_refl.
Qed.
End Production.

(** *** A concrete fleet *)

Definition w_boot : DigestAuthenticator := mkAuthenticator "boot" "boot-secret" false None "nonce-secret".
Definition w_boot_request : HTTPRequest :=
  let nonce := newNonce w_hmac w_boot "abcdef" (1000 * Second) in
  mkRequest "POST" "/" ("Digest " ++ client_params "boot" nonce "/" "c0ffee"
    (client_response w_hash "boot" "boot-secret" nonce "/" "c0ffee"))%string (Some []) "192.0.2.7".
Definition w_boot_inform : Inform :=
  mkInform (mkDeviceID "Nokia" "00-00-ca" "FastMile" "S1") [mkEvent "0 BOOTSTRAP" ""] 1 "" 0
    [mkPV "Device.DeviceInfo.SoftwareVersion" "1.0" ""].
Definition w_inform_body : InboundBody :=
  mkInboundBody (Some w_boot_inform) None None None None None None None None None None None None None None None None [].
Definition w_draws : Draws := mkDraws "d-9" "c-9" "cwmp-9" "secret9" "rpc-1".
Definition w_enrolment : Enrolment := mkEnrolment ∅ ∅.
Definition w_boot_post : CwmpPost := mkPost w_boot_request None (BodyParsed "<x/>" "" w_inform_body) true true.
Definition w_install_post : CwmpPost :=
  mkPost w_boot_request (Some (encodeBootstrapCredentialCookie "c-9" DefaultCWMPNamespace)) (BodyParsed "" "" emptyBody)
    true true.
Definition w_enrolment_1 : Enrolment :=
  (bootstrapCWMPGraduationGuard w_hash w_hash w_hmac w_boot (1001 * Second) w_draws alone w_boot_post (∅ : NonceTable)
     w_enrolment).2.
Definition w_install_draws : Draws := mkDraws "d-10" "c-10" "cwmp-10" "secret10" "rpc-2".
Definition w_installed : BootReply * NonceTable * Enrolment :=
  bootstrapCWMPGraduationGuard w_hash w_hash w_hmac w_boot (1001 * Second) w_install_draws alone w_install_post
    (∅ : NonceTable) w_enrolment_1.

(** The credential issued to the new device is the one installed on it. *)
Lemma bootstrap_secret_is_confined_witness :
  ∃ out cred device, w_installed.1.1 = BootXML out None ∧ en_credentials w_enrolment_1 !! "c-9" = Some cred ∧
    cr_Password cred = "secret9" ∧ out = install_rpc w_install_draws cred device DefaultCWMPNamespace.
Proof.
  assert (devices_ok (en_devices w_enrolment_1)) as Hok.
  { assert (∃ d, en_devices w_enrolment_1 = {["d-9" := d]} ∧ d_ID (d_identity d) = "d-9") as (d & -> & Hd)
      by (eexists; vm_compute; split; reflexivity).
    constructor; intros *; rewrite !lookup_singleton; repeat case_decide; naive_solver. }
  destruct (bootstrap_secret_is_confined w_hash w_hash w_hmac w_boot (1001 * Second) w_install_draws alone w_install_post ∅
    w_enrolment_1 w_installed.1.1 w_installed.1.2 w_installed.2 Hok Hok) as (_ & Hx & _).
  { rewrite <- surjective_pairing. apply surjective_pairing. }
  assert (match w_installed.1.1 with BootXML _ None => true | _ => false end = true) as Hb by (vm_compute; reflexivity).
  destruct (w_installed.1.1) as [| | | |out [c|]]; try discriminate Hb.
  destruct Hx as [_ [(raw & hid & body & Hb' & Hr)|(value & k & ns & cred & device & Hv & Hd & Hk & _ & _ & _ & _ & Ho)]].
  - exfalso. cbn in Hb'. injection Hb' as <- <- <-. discriminate Hr.
  - cbn in Hv. injection Hv as <-. vm_compute in Hd. injection Hd as <- <-. exists out, cred, device.
    split_and!; [done|exact Hk| |exact Ho]. vm_compute in Hk. by injection Hk as <-.
Defined.

Lemma bootstrap_graduation_completes_witness :
  ∃ w' active, handleBootstrapGraduationInform 5 w_draws alone w_boot_post "<x/>" "" w_boot_inform w_enrolment
    = (BootXML (RenderInformResponseNS "rpc-1" DefaultCWMPNamespace) (po_cookie w_install_post), w') ∧
    ActiveForDevice (OnAuthenticated 9 "cwmp-9" (en_credentials w') (en_devices w')).1 "d-9" TypeCWMPDigest = Some active ∧
    cr_Username active = "cwmp-9".
Proof.
  destruct (bootstrap_graduation_completes 5 9 w_draws w_boot_post w_install_post "<x/>" "" "" "" w_boot_inform w_enrolment)
    as (d & c & w' & H1 & H2 & _ & H4 & _ & _ & _ & active & H6 & H7).
  - apply devices_ok_empty.
  - apply credentials_ok_empty.
  - vm_compute; discriminate.
  - vm_compute; discriminate.
  - reflexivity.
  - reflexivity.
  - vm_compute; split; reflexivity.
  - reflexivity.
  - discriminate.
  - reflexivity.
  - intros k x Hx. change ((∅ : Credentials) !! k = Some x) in Hx. rewrite lookup_empty in Hx. discriminate.
  - reflexivity.
  - exists w'. assert (w' = (handleBootstrapGraduationInform 5 w_draws alone w_boot_post "<x/>" "" w_boot_inform w_enrolment).2)
      as -> by (rewrite H1; reflexivity).
    eexists. split; [exact (eq_trans H1 ltac:(vm_compute; reflexivity))|]. split; [vm_compute; reflexivity|reflexivity].
Defined.

Lemma production_guard_admits_the_shared_credential_witness :
  let nonce := newNonce w_hmac w_authenticator "abcdef" (1000 * Second) in
  let r := mkRequest "POST" "/cwmp" (two_usernames "fleet" nonce "/cwmp" "c0ffee"
             (client_response w_hash "fleet" "shared-secret" nonce "/cwmp" "c0ffee")) (Some []) "192.0.2.7" in
  productionCWMPGuard true "fleet" r = None ∧
  (Verify w_hash w_hash w_hmac w_authenticator r (1001 * Second) (∅ : NonceTable)).1 = AuthOk (mkAuthIdentity "fleet" "" true).
Proof.
  apply (production_guard_admits_the_shared_credential w_hash w_hash w_hmac w_authenticator "fleet" "/cwmp" "c0ffee" "abcdef"
    (1000 * Second) (1001 * Second) "192.0.2.7" ∅);
    [reflexivity|discriminate|discriminate|repeat constructor|vm_compute; split; discriminate|vm_compute; discriminate|reflexivity].
Defined.
