(* ===== verification/JobLaws.v ===== *)
(** * What the job queue promises

    Functional specifications of the repository's operations, the table
    invariant, and the reachable tables: every sequence of repository calls the
    gateway, the workers and the reaper make. *)

From S2P Require Import Prelude GoStrings Json JobModel Protected JobStore.

(** ** Leasing *)

Lemma filter_elem {A} (p : A → bool) l x : x ∈ List.filter p l ↔ x ∈ l ∧ p x = true.
Proof. rewrite !list_elem_of_In. apply filter_In. Qed.

Lemma pick_spec p locked tab j :
  pick p locked tab = Some j →
  (∃ k, tab !! k = Some j) ∧ p j = true ∧ locked (ID j) = false ∧
  ∀ k j', tab !! k = Some j' → p j' = true → locked (ID j') = false → CreatedAt j <= CreatedAt j'.
Proof.
  unfold pick. intros H. pose proof (oldest_elem _ _ _ H) as Hin.
  apply filter_elem in Hin as [Hin Hp]. apply elem_of_rows in Hin. bool_to_prop.
  split_and!; try done. intros k j' Hk Hp' Hl.
  eapply oldest_le; [done|]. apply filter_elem. split.
  - apply elem_of_rows. eauto.
  - by rewrite Hp', Hl.
Qed.

Lemma pick_none p locked tab :
  pick p locked tab = None →
  ∀ k j, tab !! k = Some j → p j = true → locked (ID j) = true.
Proof.
  unfold pick. rewrite oldest_none. intros H k j Hk Hp.
  destruct (locked (ID j)) eqn:Hl; [done|].
  assert (j ∈ List.filter (λ j, p j && negb (locked (ID j))) (rows tab)) as Hin.
  { apply filter_elem. split; [apply elem_of_rows; eauto|]. by rewrite Hp, Hl. }
  rewrite H in Hin. by apply elem_of_nil in Hin.
Qed.

Lemma lookup_by_id id f (tab : Jobs) k :
  by_id id f tab !! k = if decide (id = k) then f <$> tab !! k else tab !! k.
Proof. unfold by_id. rewrite lookup_update_key. by case_decide; destruct (tab !! k). Qed.

(** Rows are stored under their own id. *)
Definition keyed (tab : Jobs) : Prop := map_Forall (λ k j, ID j = k) tab.

(** ** The table invariant *)

Definition nonRepeatable (j : Job) : Prop := Type_ j ∈ nonRepeatableTypes.

Definition unleased (s : JobStatus) : bool :=
  match s with StatusQueued | StatusAwaitingDiagnosticsComplete => true | _ => false end.

(** What holds of every row. *)
Record row_ok (k : string) (j : Job) : Prop := mk_row_ok {
  ok_key : ID j = k;
  ok_attempts : 0 <= Attempts j;
  (** a destructive RPC has been sent at most once, and is not queued again *)
  ok_once : nonRepeatable j → Attempts j <= 1;
  ok_once_queued : nonRepeatable j → Status j = StatusQueued → Attempts j = 0;
  ok_once_parked : nonRepeatable j → Status j ≠ StatusAwaitingDiagnosticsComplete;
  (** a finished job keeps no secret and knows when it ended *)
  ok_secret : finished (Status j) = true → secret_free (Payload j) = true;
  ok_completed : finished (Status j) = true → is_Some (CompletedAt j);
  (** a leased job has a deadline, a queued or parked one no lease *)
  ok_leased : leased_status j = true → is_Some (leased_until j) ∧ is_Some (StartedAt j);
  ok_queued : unleased (Status j) = true → leased_until j = None ∧ lease_owner j = None
}.

(** The columns no statement changes. *)
Definition identity (j : Job) : string * string * string * JobType * option string :=
  (ID j, CommandKey j, DeviceID j, Type_ j, IdempotencyKey j).

Definition keys_unique (tab : Jobs) : Prop :=
  ∀ k1 k2 j1 j2, tab !! k1 = Some j1 → tab !! k2 = Some j2 →
    CommandKey j1 = CommandKey j2 → k1 = k2.

Definition idempotency_unique (tab : Jobs) : Prop :=
  ∀ k1 k2 j1 j2 key, tab !! k1 = Some j1 → tab !! k2 = Some j2 →
    IdempotencyKey j1 = Some key → IdempotencyKey j2 = Some key →
    DeviceID j1 = DeviceID j2 → Type_ j1 = Type_ j2 → k1 = k2.

Record table_ok (tab : Jobs) : Prop := mk_table_ok {
  tab_rows : map_Forall row_ok tab;
  tab_keys : keys_unique tab;
  tab_idem : idempotency_unique tab
}.

Lemma table_ok_empty : table_ok ∅.
Proof. split; [apply map_Forall_empty|intros ?; set_solver|intros ?; set_solver]. Qed.

(** A statement that rewrites rows in place, keeping their identity and
    [row_ok], keeps the invariant. *)
Lemma table_ok_rewrite (tab tab' : Jobs) :
  table_ok tab →
  (∀ k j', tab' !! k = Some j' →
     ∃ j, tab !! k = Some j ∧ identity j' = identity j ∧ row_ok k j') →
  table_ok tab'.
Proof.
  intros [_ Hk Hi] H. split.
  - intros k j' Hj. by destruct (H _ _ Hj) as (? & ? & ? & ?).
  - intros k1 k2 j1 j2 H1 H2 He.
    destruct (H _ _ H1) as (i1 & ? & E1 & _), (H _ _ H2) as (i2 & ? & E2 & _).
    injection E1; injection E2; intros. eapply Hk; [done|done|congruence].
  - intros k1 k2 j1 j2 key H1 H2 He1 He2 Hd Ht.
    destruct (H _ _ H1) as (i1 & ? & E1 & _), (H _ _ H2) as (i2 & ? & E2 & _).
    injection E1; injection E2; intros.
    eapply (Hi k1 k2 i1 i2 key); [done|done|congruence|congruence|congruence|congruence].
Qed.

Lemma table_ok_update_where p f tab :
  (∀ k j, row_ok k j → p j = true → identity (f j) = identity j ∧ row_ok k (f j)) →
  table_ok tab → table_ok (update_where p f tab).1.
Proof.
  intros Hf Hok. eapply table_ok_rewrite; [done|]. intros k j'.
  rewrite lookup_update_where. destruct (tab !! k) as [j|] eqn:E; simpl; [|done].
  intros [= <-]. exists j. pose proof (tab_rows _ Hok _ _ E) as Hj.
  destruct (p j) eqn:Ep; [|done]. destruct (Hf _ _ Hj Ep). done.
Qed.

Lemma table_ok_update_key id p f tab :
  (∀ j, tab !! id = Some j → row_ok id j → p j = true → identity (f j) = identity j ∧ row_ok id (f j)) →
  table_ok tab → table_ok (update_key id p f tab).1.
Proof.
  intros Hf Hok. eapply table_ok_rewrite; [done|]. intros k j'.
  rewrite lookup_update_key. case_decide as Hk.
  - subst k. destruct (tab !! id) as [j|] eqn:E; simpl; [|done].
    intros [= <-]. exists j. pose proof (tab_rows _ Hok _ _ E) as Hj.
    destruct (p j) eqn:Ep; [|done]. destruct (Hf _ eq_refl Hj Ep). done.
  - intros Hj. exists j'. split_and!; [done|done|]. by apply (tab_rows _ Hok).
Qed.

Lemma table_ok_by_id id f tab :
  (∀ j, row_ok id j → identity (f j) = identity j ∧ row_ok id (f j)) →
  table_ok tab → table_ok (by_id id f tab).
Proof. intros Hf. apply table_ok_update_key. auto. Qed.

(** *** Rows through the column updates *)

Lemma status_secret_free st j :
  (finished (Status j) = true → secret_free (Payload j) = true) →
  finished st = true → secret_free (Payload (set_status st j)) = true.
Proof.
  intros Hj Hst. simpl. rewrite Hst. unfold status_eqb. case_bool_decide as Heq; simpl.
  - apply Hj. by rewrite Heq.
  - apply redact_secret_free.
Qed.

Lemma row_ok_finish k j st now :
  finished st = true → row_ok k j →
  identity (finish st now j) = identity j ∧ row_ok k (finish st now j).
Proof.
  intros Hst H. split; [done|]. constructor; unfold nonRepeatable in *; simpl; try (by apply H).
  - by destruct st.
  - by destruct st.
  - intros _. apply (status_secret_free st j); [apply H|done].
  - by eauto.
  - by destruct st.
  - by destruct st.
Qed.

(** Fault text, result detail and deadlines carry no constraint. *)
Lemma row_ok_fault_code k j c : row_ok k j → row_ok k (set_fault_code c j).
Proof. by intros []. Qed.
Lemma row_ok_fault_string k j s : row_ok k j → row_ok k (set_fault_string s j).
Proof. by intros []. Qed.
Lemma row_ok_detail k j d : row_ok k j → row_ok k (set_detail d j).
Proof. by intros []. Qed.
Lemma row_ok_deadline k j d : row_ok k j → row_ok k (set_deadline d j).
Proof. by intros []. Qed.
Lemma row_ok_updated k j now : row_ok k j → row_ok k (set_updated now j).
Proof. by intros []. Qed.
Lemma row_ok_clear_lease k j : leased_status j = false → row_ok k j → row_ok k (clear_lease j).
Proof. intros Hl []. constructor; unfold leased_status in *; simpl in *; try done; congruence. Qed.

Lemma row_ok_requeue k j now :
  ¬ nonRepeatable j → row_ok k j →
  identity (requeue_row now j) = identity j ∧ row_ok k (requeue_row now j).
Proof.
  intros Hn []. split; [done|]. constructor; unfold nonRepeatable in *; simpl in *; try done.
Qed.

Lemma row_ok_lease k j st d owner now :
  leased_status (set_status st j) = true → Status j = StatusQueued → row_ok k j →
  identity (lease_row st d owner now j) = identity j ∧ row_ok k (lease_row st d owner now j).
Proof.
  intros Hst Hq [Hk Ha Ho Hoq Hop Hs Hc Hl Hqu].
  assert (nonRepeatable j → Attempts j + 1 <= 1) by (intros Hn; rewrite (Hoq Hn Hq); lia).
  destruct st; try done; (split; [done|]);
    constructor; unfold nonRepeatable in *; simpl in *; eauto; try done; lia.
Qed.

Lemma row_ok_await_transfer k j now :
  row_ok k j →
  identity (set_updated now (set_status StatusAwaitingTransferComplete j)) = identity j ∧
  row_ok k (set_updated now (set_status StatusAwaitingTransferComplete j)).
Proof. intros []. split; [done|]. by constructor. Qed.

#[export] Hint Resolve row_ok_finish row_ok_fault_code row_ok_fault_string row_ok_detail
  row_ok_deadline row_ok_updated row_ok_clear_lease row_ok_requeue row_ok_lease
  row_ok_await_transfer : acs.

(** *** Tables through the operations *)

Lemma row_ok_new fr now dev t payload by_ m key h :
  row_ok (fr_uuid fr) (new_job fr now dev t payload by_ m key h).
Proof. by constructor. Qed.

Lemma table_ok_insert tab j :
  row_ok (ID j) j →
  (∀ key k i, IdempotencyKey j = Some key → tab !! k = Some i →
     IdempotencyKey i = Some key → DeviceID i = DeviceID j → Type_ i = Type_ j → False) →
  table_ok tab → table_ok (insert_job tab j).2.
Proof.
  intros Hj Hidem [Hr Hk Hi]. unfold insert_job. destruct (unique_ok tab j) eqn:Hu; [|done].
  unfold unique_ok in Hu. bool_to_prop.
  assert (tab !! ID j = None) as Hnone by (by destruct (tab !! ID j)).
  assert (∀ k i, tab !! k = Some i → CommandKey i ≠ CommandKey j) as Hck.
  { intros k i Hki He. rewrite forallb_forall in H0.
    specialize (H0 i ltac:(apply list_elem_of_In, elem_of_rows; eauto)).
    rewrite He, String.eqb_refl in H0. done. }
  simpl. split.
  - by apply map_Forall_insert_2.
  - intros k1 k2 j1 j2. rewrite !lookup_insert.
    do 2 case_decide; intros; simplify_eq; eauto; exfalso; eapply Hck; eauto.
  - intros k1 k2 j1 j2 key. rewrite !lookup_insert.
    do 2 case_decide; intros; simplify_eq; eauto; exfalso; eapply Hidem; eauto; congruence.
Qed.

Lemma table_ok_CreateWithMaxAttempts al fr now dev t payload by_ m tab :
  table_ok tab → table_ok (CreateWithMaxAttempts al fr now dev t payload by_ m tab).2.
Proof.
  intros H. unfold CreateWithMaxAttempts. destruct (checkProtectedWrite al t payload); [done|].
  apply table_ok_insert; [apply row_ok_new|done|done].
Qed.

Lemma findByIdempotency_none tab dev t key :
  findByIdempotency tab dev t key = None →
  ∀ k i, tab !! k = Some i → IdempotencyKey i = Some key → DeviceID i = dev → Type_ i = t → False.
Proof.
  intros Hf k i Hk Hi Hd Ht. unfold findByIdempotency in Hf.
  eapply find_none in Hf; [|apply list_elem_of_In, elem_of_rows; eauto].
  unfold same_idempotency, type_eqb in Hf.
  rewrite Hi, Hd, Ht, !String.eqb_refl, bool_decide_eq_true_2 in Hf; done.
Qed.

Lemma findByIdempotency_some tab dev t key j :
  findByIdempotency tab dev t key = Some j →
  (∃ k, tab !! k = Some j) ∧ DeviceID j = dev ∧ Type_ j = t ∧ IdempotencyKey j = Some key.
Proof.
  intros [Hin Hs]%find_some. apply list_elem_of_In, elem_of_rows in Hin.
  unfold same_idempotency, type_eqb in Hs. bool_to_prop.
  destruct (IdempotencyKey j); [|done]. by bool_to_prop; subst.
Qed.

Lemma table_ok_CreateWithIdempotency hash al fr now dev t payload by_ key tab :
  table_ok tab → table_ok (CreateWithIdempotency hash al fr now dev t payload by_ key tab).2.
Proof.
  intros H. unfold CreateWithIdempotency.
  destruct (String.eqb (TrimSpace key) ""); [by apply table_ok_CreateWithMaxAttempts|].
  destruct (checkProtectedWrite al t payload); [done|].
  destruct (findByIdempotency tab dev t key) as [j|] eqn:Ef.
  - destruct (RequestHash j); [|done]. by destruct (String.eqb _ _).
  - apply table_ok_insert; [apply row_ok_new| |done]. simpl. intros ? k i [= <-].
    by apply (findByIdempotency_none _ _ _ _ Ef k i).
Qed.

Lemma table_ok_finish_with st now g id tab :
  finished st = true →
  (∀ k j, row_ok k j → row_ok k (g j)) → (∀ j, identity (g j) = identity j) →
  table_ok tab → table_ok (by_id id (λ j, g (finish st now j)) tab).
Proof.
  intros Hst Hg Hgi. apply table_ok_by_id. intros j Hj.
  destruct (row_ok_finish _ _ _ now Hst Hj). rewrite Hgi. eauto.
Qed.

Lemma table_ok_lease_with st d p locked owner now tab :
  (∀ j, p j = true → Status j = StatusQueued) → (st = StatusRPCSent ∨ st = StatusInProgress) →
  table_ok tab → table_ok (lease_with st d p locked owner now tab).2.
Proof.
  intros Hp Hst H. unfold lease_with. destruct (pick p locked tab) as [j|] eqn:Ej; [|done].
  apply pick_spec in Ej as ((k & Hk) & Hpj & _ & _). simpl.
  apply table_ok_update_key; [|done]. intros j' Hj' Hok _.
  pose proof (ok_key _ _ (tab_rows _ H _ _ Hk)) as Hid. simpl in Hid. rewrite Hid in *. simplify_eq.
  apply row_ok_lease; [by destruct Hst; subst|by apply Hp|done].
Qed.

Lemma leasable_queued dev types u j : leasable dev types u j = true → Status j = StatusQueued.
Proof. unfold leasable, status_eqb. intros. by bool_to_prop. Qed.

Lemma table_ok_guarded job f tab :
  (∀ j, tab !! ID job = Some j → row_ok (ID job) j → Status j = StatusRPCSent →
     identity (f j) = identity j ∧ row_ok (ID job) (f j)) →
  table_ok tab → table_ok (guarded job f tab).2.
Proof.
  intros Hf H. unfold guarded.
  pose proof (table_ok_update_key (ID job) (current_attempt job) f tab) as Hu.
  destruct (update_key _ _ _ _) as [tab' n]. simpl in *. apply Hu; [|done].
  intros j Hj Hok Hc. unfold current_attempt, status_eqb in Hc. bool_to_prop. auto.
Qed.

Lemma table_ok_guarded_or job f msg tab :
  (∀ j, tab !! ID job = Some j → row_ok (ID job) j → Status j = StatusRPCSent →
     identity (f j) = identity j ∧ row_ok (ID job) (f j)) →
  table_ok tab → table_ok (guarded_or job f msg tab).2.
Proof.
  intros Hf H. unfold guarded_or. pose proof (table_ok_guarded job f tab Hf H).
  by destruct (guarded job f tab).
Qed.

(** *** The reaper *)

Lemma dead_letter_ok code msg now k j :
  row_ok k j → identity (dead_letter code msg now j) = identity j ∧ row_ok k (dead_letter code msg now j).
Proof.
  intros H. destruct (row_ok_finish k j StatusFailed now eq_refl H) as [Hi Hr].
  split; [exact Hi|]. unfold dead_letter. auto with acs.
Qed.

Lemma not_nonRepeatable j : type_in (Type_ j) nonRepeatableTypes = false → ¬ nonRepeatable j.
Proof. unfold type_in, nonRepeatable. intros. by bool_to_prop. Qed.

(** After the first pass no stale row is of a non-repeatable type. *)
Lemma unsafe_pass_clears now tab k j :
  (dead_letter_unsafe now tab).1 !! k = Some j → stale now j = true → ¬ nonRepeatable j.
Proof.
  unfold dead_letter_unsafe. rewrite lookup_update_where.
  destruct (tab !! k) as [j0|]; simpl; [|done]. intros [= <-].
  destruct (stale now j0 && type_in (Type_ j0) nonRepeatableTypes) eqn:E; intros Hs.
  - done.
  - rewrite Hs in E. by apply not_nonRepeatable.
Qed.

Lemma exhausted_pass_keeps now tab k j :
  (dead_letter_exhausted now tab).1 !! k = Some j → stale now j = true → tab !! k = Some j.
Proof.
  unfold dead_letter_exhausted. rewrite lookup_update_where.
  destruct (tab !! k) as [j0|]; simpl; [|done]. intros [= <-].
  by destruct (stale now j0 && (MaxAttempts j0 <=? Attempts j0)).
Qed.

Lemma RecoverExpiredLeases_fst now tab :
  (RecoverExpiredLeases now tab).1 =
  (timeOutAwaitingDiagnostics now (time_out_transfers now (requeue_expired now
     (dead_letter_exhausted now (dead_letter_unsafe now tab).1).1).1).1).1.
Proof.
  unfold RecoverExpiredLeases.
  destruct (dead_letter_unsafe now tab) as [t1 n1]; simpl.
  destruct (dead_letter_exhausted now t1) as [t2 n2]; simpl.
  destruct (requeue_expired now t2) as [t3 n3]; simpl.
  destruct (time_out_transfers now t3) as [t4 n4]; simpl.
  by destruct (timeOutAwaitingDiagnostics now t4) as [t5 n5].
Qed.

Lemma table_ok_recover now tab : table_ok tab → table_ok (RecoverExpiredLeases now tab).1.
Proof.
  intros H. rewrite RecoverExpiredLeases_fst.
  apply table_ok_update_where.
  { intros k j Hj _. destruct (row_ok_finish k j StatusTimeout now eq_refl Hj).
    split; [done|]. by apply row_ok_fault_string, row_ok_fault_code. }
  apply table_ok_update_where.
  { intros k j Hj _. destruct (row_ok_finish k j StatusFailed now eq_refl Hj).
    split; [done|]. by apply row_ok_fault_string, row_ok_fault_code. }
  assert (table_ok (dead_letter_unsafe now tab).1) as H1
    by (apply table_ok_update_where; auto using dead_letter_ok).
  assert (table_ok (dead_letter_exhausted now (dead_letter_unsafe now tab).1).1) as H2
    by (apply table_ok_update_where; auto using dead_letter_ok).
  eapply table_ok_rewrite; [exact H2|]. intros k j'. unfold requeue_expired.
  rewrite lookup_update_where.
  destruct (_ !! k) as [j|] eqn:E; simpl; [|done]. intros [= <-]. exists j. split; [done|].
  pose proof (tab_rows _ H2 _ _ E) as Hj. case_match eqn:Hst; [|done]. bool_to_prop.
  apply row_ok_requeue; [|done].
  eapply unsafe_pass_clears; [|done]. by eapply exhausted_pass_keeps.
Qed.

(** ** Reachable tables

    One step is one repository call. [job] is a row some earlier query
    returned: it may be stale, but the columns that never change are those of
    the row it names. *)

Definition snapshot (tab : Jobs) (job : Job) : Prop :=
  ∃ row, tab !! ID job = Some row ∧ Type_ row = Type_ job.

Inductive job_step (hash : json → string) (tab : Jobs) : Jobs → Prop :=
| step_create al fr now dev t p by_ m :
    job_step hash tab (CreateWithMaxAttempts al fr now dev t p by_ m tab).2
| step_create_idempotent al fr now dev t p by_ key :
    job_step hash tab (CreateWithIdempotency hash al fr now dev t p by_ key tab).2
| step_queue_discovery fr now dev fw :
    job_step hash tab (QueueDiscoveryIfNeeded fr now dev fw tab).2
| step_firmware_discovery u ku now dev root fb fw :
    job_step hash tab (queue_firmware_discovery u ku now dev root fb fw tab).2
| step_success now id : job_step hash tab (MarkSuccess now id tab)
| step_success_detail now id d : job_step hash tab (MarkSuccessWithDetail now id d tab)
| step_failed now id code msg : job_step hash tab (MarkFailed now id code msg tab)
| step_timeout now id d : job_step hash tab (MarkTimeout now id d tab)
| step_await_transfer now id : job_step hash tab (MarkAwaitingTransferComplete now id tab)
| step_lease locked owner now dev types :
    job_step hash tab (LeaseForTypes locked owner now dev types tab).2
| step_lease_worker locked owner now t :
    job_step hash tab (LeaseNextByType locked owner now t tab).2
| step_lease_usp locked owner now dev :
    job_step hash tab (usp_lease_or_requeue locked owner now dev tab).2
| step_extend now id d : job_step hash tab (ExtendLease now id d tab)
| step_recover now : job_step hash tab (RecoverExpiredLeases now tab).1
| step_readback now job p :
    snapshot tab job → Type_ job = TypeSetParameter → job_step hash tab (BeginReadback now job p tab).2
| step_requeue_discovery now job p :
    snapshot tab job → Type_ job = TypeParameterDiscovery →
    job_step hash tab (RequeueDiscovery now job p tab).2
| step_discovery_fallback now id key : job_step hash tab (RecordDiscoveryFallback now id key tab)
| step_await_diagnostics now job w :
    snapshot tab job → IsCWMPDiagnosticType (Type_ job) = true →
    job_step hash tab (MarkAwaitingDiagnostics now job w tab).2
| step_release_diagnostics now dev : job_step hash tab (ReleaseAwaitingDiagnostics now dev tab).1
| step_bind_firmware fw caps job : job_step hash tab (BindFirmware fw caps job tab).2
| step_dropped now job mk dc :
    snapshot tab job →
    job_step hash tab (ApplyDroppedSessionAction now job (ClassifyDroppedSessionJob job mk dc) tab).2.

Definition reachable (hash : json → string) (tab : Jobs) : Prop := rtc (job_step hash) ∅ tab.

Lemma diagnostic_repeatable t : IsCWMPDiagnosticType t = true → t ∉ nonRepeatableTypes.
Proof. destruct t; try done; intros _; by apply (bool_decide_eq_false_1 _). Qed.

(** The dropped-session classification puts nothing destructive back. *)
Lemma dropped_requeue_repeatable job mk dc :
  ClassifyDroppedSessionJob job mk dc = DroppedRequeue ∨
  ClassifyDroppedSessionJob job mk dc = DroppedDiagnosticsTriggered →
  ¬ nonRepeatable job.
Proof.
  unfold ClassifyDroppedSessionJob, nonRepeatable.
  destruct (Type_ job) eqn:Et; simpl; rewrite ?andb_false_r; simpl; intros [H|H];
    try done; try (by destruct (mk _ _)); by apply (bool_decide_eq_false_1 _).
Qed.

Lemma row_ok_dropped now job mk dc k j :
  Type_ j = Type_ job → Status j = StatusRPCSent → row_ok k j →
  let a := ClassifyDroppedSessionJob job mk dc in
  identity (dropped_update now job a j) = identity j ∧ row_ok k (dropped_update now job a j).
Proof.
  intros Ht Hs H a.
  assert (a = DroppedRequeue ∨ a = DroppedDiagnosticsTriggered → ¬ nonRepeatable j) as Hn.
  { intros Ha. unfold nonRepeatable. rewrite Ht. by apply (dropped_requeue_repeatable job mk dc). }
  destruct a; simpl.
  - apply row_ok_requeue; auto.
  - destruct (row_ok_finish k j StatusSuccess now eq_refl H). split; [done|].
    by apply row_ok_clear_lease.
  - destruct (row_ok_await_transfer k j now H). split; [done|]. by apply row_ok_clear_lease.
  - destruct (row_ok_finish k j StatusFailed now eq_refl H). split; [done|].
    by apply row_ok_fault_string, row_ok_fault_code, row_ok_clear_lease.
  - destruct (row_ok_requeue k j now ltac:(auto) H). split; [done|]. by apply row_ok_deadline.
Qed.

(** A job the USP lease hands out and cannot render is not destructive. *)
Lemma usp_requeue_repeatable dev j :
  leasable dev uspDispatchableTypes true j = true →
  usp_unsupported (leased_job StatusRPCSent j) = true → ¬ nonRepeatable j.
Proof.
  unfold leasable, usp_unsupported, nonRepeatable, type_eqb. simpl. intros Hl Hu.
  destruct (Type_ j) eqn:Et; try done; try (by apply (bool_decide_eq_false_1 _)).
  - exfalso. bool_to_prop. destruct H0 as [?|Hi]; [done|]. bool_to_prop.
    destruct (decode_FirmwareDownload (Payload j)) as [p|] eqn:Ed; [|done].
    apply String.eqb_eq in Hu. apply Hi. unfold decode_FirmwareDownload, decode_struct in Ed.
    unfold arrow_text. destruct (Payload j) as [| | | | |m]; try done.
    repeat (apply bind_Some in Ed as (? & ? & Ed)). injection Ed as <-. simpl in Hu.
    destruct (member "usp_instance" m) as [v|]; [|done]. by destruct v; simplify_eq/=.
  - exfalso. unfold type_in in Hl. bool_to_prop.
    assert (TypeUpload ∉ uspDispatchableTypes) by (by apply (bool_decide_eq_false_1 _)). done.
Qed.

Lemma table_ok_queue_discovery fr now dev fw tab :
  table_ok tab → table_ok (QueueDiscoveryIfNeeded fr now dev fw tab).2.
Proof.
  intros H. unfold QueueDiscoveryIfNeeded. destruct (existsb _ _); [done|].
  set (j := new_job _ _ _ _ _ _ _ _ _).
  pose proof (table_ok_insert tab j (row_ok_new _ _ _ _ _ _ _ _ _) ltac:(done) H) as Hi.
  by destruct (insert_job tab j) as [[] ?].
Qed.

Lemma table_ok_firmware_discovery u ku now dev root fb fw tab :
  table_ok tab → table_ok (queue_firmware_discovery u ku now dev root fb fw tab).2.
Proof.
  intros H. unfold queue_firmware_discovery. destruct (existsb _ _); [done|].
  set (j := firmware_discovery_job _ _ _ _ _ _ _).
  pose proof (table_ok_insert tab j ltac:(by constructor) ltac:(done) H) as Hi.
  by destruct (insert_job tab j) as [[] ?].
Qed.

Lemma table_ok_usp_lease locked owner now dev tab :
  table_ok tab → table_ok (usp_lease_or_requeue locked owner now dev tab).2.
Proof.
  intros H. unfold usp_lease_or_requeue, LeaseForUSPTypes, leaseForTypes.
  pose proof (table_ok_lease_with StatusRPCSent sessionLease
    (leasable dev uspDispatchableTypes true) locked owner now tab
    (leasable_queued _ _ _) ltac:(auto) H) as Hl.
  unfold lease_with in *. destruct (pick _ _ _) as [j|] eqn:Ej; [|done].
  apply pick_spec in Ej as ((k & Hk) & Hp & _).
  destruct (usp_unsupported _) eqn:Hu; [|done]. simpl in *.
  apply table_ok_update_key; [|done]. intros j' Hj' Hok _.
  pose proof (ok_key _ _ (tab_rows _ H _ _ Hk)) as Hid. simpl in Hid. rewrite Hid in *.
  rewrite lookup_by_id, decide_True, Hk in Hj' by done. simplify_eq/=.
  apply row_ok_requeue; [|done].
  change (¬ nonRepeatable j). by eapply usp_requeue_repeatable.
Qed.

Lemma table_ok_extend now id d tab : table_ok tab → table_ok (ExtendLease now id d tab).
Proof.
  apply table_ok_update_key. intros j _ [] Hl. split; [done|].
  constructor; unfold leased_status, status_eqb in *; simpl in *; try done; intros Hq.
  - split; [by eauto|]. by apply ok_leased0.
  - by destruct (Status j).
Qed.

Lemma table_ok_requeue_payload now job payload msg tab :
  snapshot tab job → Type_ job ∉ nonRepeatableTypes →
  table_ok tab →
  table_ok (guarded_or job (λ j, requeue_row now (set_payload payload j)) msg tab).2.
Proof.
  intros (row & Hrow & Ht) Hn. apply table_ok_guarded_or. intros j Hj Hok Hs.
  assert (row_ok (ID job) (set_payload payload j)) as Hp.
  { destruct Hok. constructor; simpl in *; try done; rewrite Hs; done. }
  assert (Type_ j = Type_ job) as Htj by congruence.
  apply (row_ok_requeue _ (set_payload payload j)); [|done].
  unfold nonRepeatable. simpl. by rewrite Htj.
Qed.

Lemma table_ok_await_diagnostics now job w tab :
  snapshot tab job → IsCWMPDiagnosticType (Type_ job) = true →
  table_ok tab → table_ok (MarkAwaitingDiagnostics now job w tab).2.
Proof.
  intros (row & Hrow & Ht) Hd. apply table_ok_guarded. intros j Hj [] Hs.
  assert (Type_ j = Type_ job) as Htj by congruence.
  split; [done|]. apply diagnostic_repeatable in Hd. rewrite <- Htj in Hd.
  by constructor; unfold nonRepeatable in *; simpl in *.
Qed.

Lemma table_ok_release now dev tab :
  table_ok tab → table_ok (ReleaseAwaitingDiagnostics now dev tab).1.
Proof.
  apply table_ok_update_where. unfold status_eqb. intros k j Hj Hp. bool_to_prop.
  rename H0 into Hs. split; [done|].
  assert (¬ nonRepeatable j) as Hn by (intros Hn; by apply (ok_once_parked _ _ Hj Hn)).
  assert (leased_until j = None ∧ lease_owner j = None) by (apply (ok_queued _ _ Hj); by rewrite Hs).
  destruct Hj. by constructor; unfold nonRepeatable in *; simpl in *.
Qed.

Lemma table_ok_bind fw caps job tab : table_ok tab → table_ok (BindFirmware fw caps job tab).2.
Proof.
  intros H. unfold BindFirmware. case_match; [done|].
  destruct (bind_payload fw caps job) as [[next|]|]; try done.
  assert (table_ok (guarded job (set_payload next) tab).2) as Hg.
  { apply table_ok_guarded; [|done]. intros j Hj [] Hs. split; [done|].
    constructor; simpl in *; try done; rewrite Hs; done. }
  by destruct (guarded job (set_payload next) tab) as [[] ?].
Qed.

(** Every step keeps the invariant. *)
Lemma job_step_ok hash tab tab' : table_ok tab → job_step hash tab tab' → table_ok tab'.
Proof.
  intros H Hstep. destruct Hstep as
    [al fr now dev t p by_ m|al fr now dev t p by_ key|fr now dev fw|u ku now dev root fb fw|now id|now id d|now id code msg
    |now id d|now id|locked owner now dev types|locked owner now t|locked owner now dev|now id d|now
    |now job p Hs Ht|now job p Hs Ht|now id key|now job w Hs Ht|now dev|fw caps job|now job mk dc Hs].
  - by apply table_ok_CreateWithMaxAttempts.
  - by apply table_ok_CreateWithIdempotency.
  - by apply table_ok_queue_discovery.
  - by apply table_ok_firmware_discovery.
  - by apply (table_ok_finish_with StatusSuccess now (λ j, j)).
  - by apply (table_ok_finish_with StatusSuccess now (set_detail d)); auto using row_ok_detail.
  - apply (table_ok_finish_with StatusFailed now (λ j, set_fault_string msg (set_fault_code code j)));
      auto using row_ok_fault_string, row_ok_fault_code.
  - by apply (table_ok_finish_with StatusTimeout now (set_fault_string d)); auto using row_ok_fault_string.
  - apply table_ok_by_id; [|done]. auto using row_ok_await_transfer.
  - apply table_ok_lease_with; eauto using leasable_queued.
  - apply table_ok_lease_with; auto. unfold status_eqb. intros. by bool_to_prop.
  - by apply table_ok_usp_lease.
  - by apply table_ok_extend.
  - by apply table_ok_recover.
  - apply table_ok_requeue_payload; [done| |done]. rewrite Ht. by apply (bool_decide_eq_false_1 _).
  - apply table_ok_requeue_payload; [done| |done]. rewrite Ht. by apply (bool_decide_eq_false_1 _).
  - apply table_ok_update_key; [|done]. intros j _ Hj _. split; [done|].
    by apply row_ok_updated, row_ok_detail.
  - by apply table_ok_await_diagnostics.
  - by apply table_ok_release.
  - by apply table_ok_bind.
  - apply table_ok_guarded; [|done]. intros j Hj Hok Hst.
    destruct Hs as (row & Hrow & Ht). apply row_ok_dropped; [congruence|done|done].
Qed.

Lemma reachable_ok hash tab : reachable hash tab → table_ok tab.
Proof.
  unfold reachable. intros H. apply rtc_nsteps in H as [n H].
  remember (∅ : Jobs) as t0 eqn:E0. assert (table_ok t0) as Hok by (subst; apply table_ok_empty).
  clear E0. induction H; eauto using job_step_ok.
Qed.

(** ** The reaper as one decision per row

    The five UPDATE statements of [RecoverExpiredLeases] do to each row what
    this function says, in one go. *)

Inductive RecoveryClass : Type :=
| RecUnsafe | RecExhausted | RecRequeue | RecTransferTimeout | RecDiagnosticsTimeout | RecKeep.

#[global] Instance RecoveryClass_eq_dec : EqDecision RecoveryClass.
Proof. solve_decision. Defined.

Definition recovery_class (now : GoTime) (j : Job) : RecoveryClass :=
  if stale now j then
    if type_in (Type_ j) nonRepeatableTypes then RecUnsafe
    else if MaxAttempts j <=? Attempts j then RecExhausted else RecRequeue
  else if transfer_overdue now j then RecTransferTimeout
  else if diagnostic_overdue now j then RecDiagnosticsTimeout
  else RecKeep.

Definition recover_row (now : GoTime) (j : Job) : Job :=
  match recovery_class now j with
  | RecUnsafe => dead_letter "LEASE_EXPIRED_UNSAFE_RETRY" unsafe_fault now j
  | RecExhausted => dead_letter "LEASE_EXPIRED" expired_fault now j
  | RecRequeue => requeue_row now j
  | RecTransferTimeout =>
      set_fault_string "no TransferComplete received within 24 hours"
        (set_fault_code "TRANSFER_TIMEOUT" (finish StatusFailed now j))
  | RecDiagnosticsTimeout =>
      set_fault_string
        "diagnostic result not available by its deadline (no Inform with 8 DIAGNOSTICS COMPLETE and no poll reading a final DiagnosticsState)"
        (set_fault_code "DIAGNOSTICS_TIMEOUT" (finish StatusTimeout now j))
  | RecKeep => j
  end.

Definition count_class (now : GoTime) (c : RecoveryClass) (tab : Jobs) : Z :=
  Z.of_nat (size (filter (λ kr, recovery_class now kr.2 = c) tab)).

(** One pass on one row. *)
Definition pass (p : Job → bool) (f : Job → Job) (j : Job) : Job := if p j then f j else j.

Lemma update_where_fst p f (tab : Jobs) : (update_where p f tab).1 = pass p f <$> tab.
Proof. done. Qed.

Lemma update_where_snd p f (tab : Jobs) :
  (update_where p f tab).2 = Z.of_nat (size (filter (λ kr, p kr.2 = true) tab)).
Proof. done. Qed.

Lemma stale_status now j : stale now j = true → leased_status j = true.
Proof. unfold stale. intros. by bool_to_prop. Qed.

Lemma leased_not_overdue now j :
  leased_status j = true → transfer_overdue now j = false ∧ diagnostic_overdue now j = false.
Proof.
  unfold leased_status, transfer_overdue, diagnostic_overdue, status_eqb.
  by destruct (Status j).
Qed.

(** The three lease passes on one row. *)
Definition unsafe_pass (now : GoTime) : Job → Job :=
  pass (λ j, stale now j && type_in (Type_ j) nonRepeatableTypes)
       (dead_letter "LEASE_EXPIRED_UNSAFE_RETRY" unsafe_fault now).
Definition exhausted_pass (now : GoTime) : Job → Job :=
  pass (λ j, stale now j && (MaxAttempts j <=? Attempts j)) (dead_letter "LEASE_EXPIRED" expired_fault now).
Definition requeue_pass (now : GoTime) : Job → Job :=
  pass (λ j, stale now j && (Attempts j <? MaxAttempts j)) (requeue_row now).
Definition transfer_pass (now : GoTime) : Job → Job :=
  pass (transfer_overdue now)
    (λ j, set_fault_string "no TransferComplete received within 24 hours"
            (set_fault_code "TRANSFER_TIMEOUT" (finish StatusFailed now j))).
Definition diagnostic_pass (now : GoTime) : Job → Job :=
  pass (diagnostic_overdue now)
    (λ j, set_fault_string
            "diagnostic result not available by its deadline (no Inform with 8 DIAGNOSTICS COMPLETE and no poll reading a final DiagnosticsState)"
            (set_fault_code "DIAGNOSTICS_TIMEOUT" (finish StatusTimeout now j))).

Lemma stale_dead_letter now code msg j : stale now (dead_letter code msg now j) = false.
Proof. done. Qed.
Lemma stale_requeue now j : stale now (requeue_row now j) = false.
Proof. done. Qed.

Lemma unsafe_pass_eq now j :
  unsafe_pass now j =
  if stale now j && type_in (Type_ j) nonRepeatableTypes
  then dead_letter "LEASE_EXPIRED_UNSAFE_RETRY" unsafe_fault now j else j.
Proof. done. Qed.

Lemma exhausted_passes_eq now j :
  exhausted_pass now (unsafe_pass now j) =
  if stale now j then
    if type_in (Type_ j) nonRepeatableTypes
    then dead_letter "LEASE_EXPIRED_UNSAFE_RETRY" unsafe_fault now j
    else if MaxAttempts j <=? Attempts j then dead_letter "LEASE_EXPIRED" expired_fault now j else j
  else j.
Proof.
  rewrite unsafe_pass_eq. unfold exhausted_pass, pass.
  destruct (stale now j) eqn:Hs; cbn [andb]; [|by rewrite Hs].
  destruct (type_in _ _); [by rewrite stale_dead_letter|]. by rewrite Hs.
Qed.

Lemma lease_passes_eq now j :
  requeue_pass now (exhausted_pass now (unsafe_pass now j)) =
  if stale now j then
    if type_in (Type_ j) nonRepeatableTypes
    then dead_letter "LEASE_EXPIRED_UNSAFE_RETRY" unsafe_fault now j
    else if MaxAttempts j <=? Attempts j then dead_letter "LEASE_EXPIRED" expired_fault now j
    else requeue_row now j
  else j.
Proof.
  rewrite exhausted_passes_eq. unfold requeue_pass, pass.
  destruct (stale now j) eqn:Hs; cbn [andb]; [|by rewrite Hs].
  destruct (type_in _ _); [by rewrite stale_dead_letter|].
  destruct (MaxAttempts j <=? Attempts j) eqn:Hm; [by rewrite stale_dead_letter|].
  rewrite Hs. apply Z.leb_gt, Z.ltb_lt in Hm as ->. done.
Qed.

(** The lease passes leave the overdue transfers and diagnostics alone, and
    turn no other row into one. *)
Lemma transfer_overdue_kept now j :
  transfer_overdue now (requeue_pass now (exhausted_pass now (unsafe_pass now j)))
  = bool_decide (recovery_class now j = RecTransferTimeout).
Proof.
  rewrite lease_passes_eq. unfold recovery_class. destruct (stale now j).
  - by destruct (type_in _ _), (MaxAttempts j <=? Attempts j).
  - by destruct (transfer_overdue now j), (diagnostic_overdue now j).
Qed.

Lemma transfer_passes_eq now j :
  transfer_pass now (requeue_pass now (exhausted_pass now (unsafe_pass now j))) =
  if bool_decide (recovery_class now j = RecDiagnosticsTimeout) then j else recover_row now j.
Proof.
  unfold transfer_pass, pass. rewrite transfer_overdue_kept, lease_passes_eq.
  unfold recover_row, recovery_class. destruct (stale now j).
  - by destruct (type_in _ _), (MaxAttempts j <=? Attempts j).
  - by destruct (transfer_overdue now j), (diagnostic_overdue now j).
Qed.

Lemma diagnostic_overdue_kept now j :
  diagnostic_overdue now (transfer_pass now (requeue_pass now (exhausted_pass now (unsafe_pass now j))))
  = bool_decide (recovery_class now j = RecDiagnosticsTimeout).
Proof.
  rewrite transfer_passes_eq. unfold recover_row, recovery_class. destruct (stale now j) eqn:Hs.
  - by destruct (type_in _ _), (MaxAttempts j <=? Attempts j).
  - destruct (transfer_overdue now j), (diagnostic_overdue now j) eqn:E; done.
Qed.

Lemma passes_row now j :
  diagnostic_pass now (transfer_pass now (requeue_pass now (exhausted_pass now (unsafe_pass now j))))
  = recover_row now j.
Proof.
  unfold diagnostic_pass, pass. rewrite diagnostic_overdue_kept, transfer_passes_eq.
  case_bool_decide as H; [|done]. unfold recover_row. by rewrite H.
Qed.

(** Counting after rewriting every row. *)
Lemma count_fmap (q : Job → bool) (g : Job → Job) (c : RecoveryClass) now (tab : Jobs) :
  (∀ j, q (g j) = bool_decide (recovery_class now j = c)) →
  Z.of_nat (size (filter (λ kr : string * Job, q kr.2 = true) (g <$> tab))) = count_class now c tab.
Proof.
  intros H. unfold count_class. rewrite map_filter_fmap, map_size_fmap.
  do 2 f_equal. apply map_filter_ext. intros k j _. simpl. by rewrite H, bool_decide_eq_true.
Qed.

Lemma unsafe_class now j :
  stale now j && type_in (Type_ j) nonRepeatableTypes = bool_decide (recovery_class now j = RecUnsafe).
Proof.
  unfold recovery_class. destruct (stale now j).
  - by destruct (type_in _ _), (MaxAttempts j <=? Attempts j).
  - by destruct (transfer_overdue now j), (diagnostic_overdue now j).
Qed.

Lemma exhausted_class now j :
  let j1 := unsafe_pass now j in
  stale now j1 && (MaxAttempts j1 <=? Attempts j1) = bool_decide (recovery_class now j = RecExhausted).
Proof.
  cbv zeta. rewrite unsafe_pass_eq. unfold recovery_class. destruct (stale now j) eqn:Hs; cbn [andb].
  - destruct (type_in _ _); [by rewrite stale_dead_letter|]. rewrite Hs.
    by destruct (MaxAttempts j <=? Attempts j).
  - rewrite Hs. by destruct (transfer_overdue now j), (diagnostic_overdue now j).
Qed.

Lemma requeue_class now j :
  let j2 := exhausted_pass now (unsafe_pass now j) in
  stale now j2 && (Attempts j2 <? MaxAttempts j2) = bool_decide (recovery_class now j = RecRequeue).
Proof.
  cbv zeta. rewrite exhausted_passes_eq. unfold recovery_class.
  destruct (stale now j) eqn:Hs; cbn [andb].
  - destruct (type_in _ _); [by rewrite stale_dead_letter|].
    destruct (MaxAttempts j <=? Attempts j) eqn:Hm; [by rewrite stale_dead_letter|].
    rewrite Hs. apply Z.leb_gt, Z.ltb_lt in Hm as ->. done.
  - rewrite Hs. by destruct (transfer_overdue now j), (diagnostic_overdue now j).
Qed.

Lemma RecoverExpiredLeases_row_spec now tab :
  RecoverExpiredLeases now tab =
  (recover_row now <$> tab,
   mkRecoveryResult (count_class now RecRequeue tab) (count_class now RecExhausted tab)
     (count_class now RecUnsafe tab) (count_class now RecTransferTimeout tab)
     (count_class now RecDiagnosticsTimeout tab)).
Proof.
  transitivity
    (diagnostic_pass now <$> (transfer_pass now <$> (requeue_pass now <$>
       (exhausted_pass now <$> (unsafe_pass now <$> tab)))),
     mkRecoveryResult
       (requeue_expired now (exhausted_pass now <$> (unsafe_pass now <$> tab))).2
       (dead_letter_exhausted now (unsafe_pass now <$> tab)).2 (dead_letter_unsafe now tab).2
       (time_out_transfers now (requeue_pass now <$> (exhausted_pass now <$> (unsafe_pass now <$> tab)))).2
       (timeOutAwaitingDiagnostics now (transfer_pass now <$> (requeue_pass now <$>
          (exhausted_pass now <$> (unsafe_pass now <$> tab))))).2); [done|].
  unfold requeue_expired, dead_letter_exhausted, dead_letter_unsafe, time_out_transfers,
    timeOutAwaitingDiagnostics. rewrite !update_where_snd, <- !map_fmap_compose.
  f_equal; [|f_equal].
  - apply map_fmap_ext. intros k j _. apply passes_row.
  - apply (count_fmap (λ j, stale now j && (Attempts j <? MaxAttempts j))). apply requeue_class.
  - apply (count_fmap (λ j, stale now j && (MaxAttempts j <=? Attempts j))). apply exhausted_class.
  - rewrite <- (map_fmap_id tab) at 1.
    apply (count_fmap (λ j, stale now j && type_in (Type_ j) nonRepeatableTypes) id), unsafe_class.
  - apply (count_fmap (transfer_overdue now)), transfer_overdue_kept.
  - apply (count_fmap (diagnostic_overdue now)), diagnostic_overdue_kept.
Qed.

(** ** Command keys *)

Lemma ByCommandKey_unique (tab : Jobs) k j :
  table_ok tab → tab !! k = Some j → ByCommandKey tab (CommandKey j) = Some j.
Proof.
  intros H Hj. unfold ByCommandKey. destruct (find _ _) as [j'|] eqn:E.
  - apply find_some in E as [Hin He]. apply list_elem_of_In, elem_of_rows in Hin as [k' Hk'].
    apply String.eqb_eq in He. pose proof (tab_keys _ H _ _ _ _ Hk' Hj He) as ->. congruence.
  - eapply find_none in E; [|apply list_elem_of_In, elem_of_rows; eauto].
    simpl in E. by rewrite String.eqb_refl in E.
Qed.

Lemma findByIdempotency_unique (tab : Jobs) k j dev t key :
  table_ok tab → tab !! k = Some j → DeviceID j = dev → Type_ j = t → IdempotencyKey j = Some key →
  findByIdempotency tab dev t key = Some j.
Proof.
  intros H Hj Hd Ht Hi. destruct (findByIdempotency tab dev t key) as [j'|] eqn:E.
  - apply findByIdempotency_some in E as ((k' & Hk') & Hd' & Ht' & Hi').
    pose proof (tab_idem _ H k' k j' j key Hk' Hj Hi' Hi ltac:(congruence) ltac:(congruence)) as ->.
    congruence.
  - exfalso. by eapply findByIdempotency_none.
Qed.

Lemma recover_row_not_stale now j : stale now (recover_row now j) = false.
Proof.
  unfold recover_row. destruct (recovery_class now j) eqn:E; try done.
  unfold recovery_class in E. destruct (stale now j); [|done].
  by destruct (type_in _ _), (MaxAttempts j <=? Attempts j).
Qed.
