(* ===== verification/JobTheorems.v ===== *)
(** * Job queue: theorems

    The properties of the durable work queue, from the invariants of [JobLaws]
    and from the interleaved lease transactions below. *)

From S2P Require Import Prelude GoStrings Json JobModel Protected JobStore JobLaws.

(** ** Concurrent leases

    [leaseForTypes] runs [SELECT ... FOR UPDATE SKIP LOCKED] and [UPDATE] in one
    transaction. Here the two halves are separate steps, so that any number of
    gateway processes can interleave: a selected row stays locked by its
    transaction until commit or rollback, and is skipped by the others. *)

Record LeaseState : Type := mkLeaseState {
  ls_table : gmap string Job;
  ls_open : gmap nat Job;      (** open transactions and the row each has locked *)
  ls_handed : list Job         (** jobs handed to a dispatcher so far *)
}.

Definition ls_locked (s : LeaseState) (id : string) : bool :=
  existsb (λ nj : nat * Job, String.eqb (ID nj.2) id) (map_to_list (ls_open s)).

Inductive lease_txn (s : LeaseState) : LeaseState → Prop :=
| txn_select n dev types usp j :
    ls_open s !! n = None →
    pick (leasable dev types usp) (ls_locked s) (ls_table s) = Some j →
    lease_txn s (mkLeaseState (ls_table s) (<[n := j]> (ls_open s)) (ls_handed s))
| txn_commit n j owner now :
    ls_open s !! n = Some j →
    lease_txn s (mkLeaseState (by_id (ID j) (lease_row StatusRPCSent sessionLease owner now) (ls_table s))
                   (delete n (ls_open s)) (leased_job StatusRPCSent j :: ls_handed s))
| txn_rollback n j :
    ls_open s !! n = Some j →
    lease_txn s (mkLeaseState (ls_table s) (delete n (ls_open s)) (ls_handed s)).

(** *** Invariant *)

Record txn_ok (s : LeaseState) : Prop := mk_txn_ok {
  to_keyed : keyed (ls_table s);
  (** a locked row is still the queued row that was read *)
  to_open : ∀ n j, ls_open s !! n = Some j →
    ls_table s !! ID j = Some j ∧ Status j = StatusQueued;
  to_excl : ∀ n m j j', ls_open s !! n = Some j → ls_open s !! m = Some j' → ID j = ID j' → n = m;
  to_nodup : NoDup (ID <$> ls_handed s);
  (** a handed-out job is no longer queued *)
  to_handed : ∀ h, h ∈ ls_handed s → ∃ r, ls_table s !! ID h = Some r ∧ Status r = StatusRPCSent
}.

Lemma ls_locked_false s id :
  ls_locked s id = false → ∀ n j, ls_open s !! n = Some j → ID j ≠ id.
Proof.
  unfold ls_locked. intros H n j Hn He.
  enough (existsb (λ nj : nat * Job, String.eqb (ID nj.2) id) (map_to_list (ls_open s)) = true)
    by congruence.
  apply existsb_exists. exists (n, j). split; [|by apply String.eqb_eq].
  apply list_elem_of_In. by apply elem_of_map_to_list.
Qed.

Lemma txn_ok_select s n dev types usp j :
  txn_ok s → ls_open s !! n = None →
  pick (leasable dev types usp) (ls_locked s) (ls_table s) = Some j →
  txn_ok (mkLeaseState (ls_table s) (<[n := j]> (ls_open s)) (ls_handed s)).
Proof.
  intros [Hk Ho He Hn Hh] Hnone Hp. apply pick_spec in Hp as ((k & Hkj) & Hl & Hfree & _).
  pose proof (Hk _ _ Hkj) as Hid. simpl in Hid. subst k.
  pose proof (ls_locked_false _ _ Hfree) as Hne.
  split; simpl; try done.
  - intros m i. rewrite lookup_insert. case_decide; intros; simplify_eq; eauto using leasable_queued.
  - intros m1 m2 i1 i2. rewrite !lookup_insert.
    do 2 case_decide; intros; simplify_eq; eauto; exfalso; eapply Hne; eauto.
Qed.

Lemma txn_ok_commit s n j owner now :
  txn_ok s → ls_open s !! n = Some j →
  txn_ok (mkLeaseState (by_id (ID j) (lease_row StatusRPCSent sessionLease owner now) (ls_table s))
            (delete n (ls_open s)) (leased_job StatusRPCSent j :: ls_handed s)).
Proof.
  intros [Hk Ho He Hn Hh] Hj. destruct (Ho _ _ Hj) as [Hrow Hq]. split; simpl.
  - intros k r. rewrite lookup_by_id. case_decide as Hd; [|by apply Hk].
    subst k. rewrite Hrow. intros Hr. by injection Hr as <-.
  - intros m i [Hm Hi]%lookup_delete_Some. destruct (Ho _ _ Hi) as [? ?].
    rewrite lookup_by_id, decide_False; [done|]. intros Heq. apply Hm. by apply (He n m j i).
  - intros m1 m2 i1 i2 [? ?]%lookup_delete_Some [? ?]%lookup_delete_Some. eauto.
  - constructor; [|done]. intros (h & Hid & Hin)%list_elem_of_fmap.
    destruct (Hh _ Hin) as (r & Hr & Hs). simpl in Hid. rewrite <- Hid in Hr. congruence.
  - intros h [-> | Hin]%elem_of_cons.
    + simpl. rewrite lookup_by_id, decide_True, Hrow by done. by eexists.
    + destruct (Hh _ Hin) as (r & Hr & Hs). rewrite lookup_by_id. case_decide as Hd; [|by eauto].
      rewrite Hr. by eexists.
Qed.

Lemma txn_ok_step s s' : txn_ok s → lease_txn s s' → txn_ok s'.
Proof.
  intros H [n dev types usp j Hn Hp|n j owner now Hn|n j Hn].
  - by eapply txn_ok_select.
  - by apply txn_ok_commit.
  - destruct H as [Hk Ho He Hnd Hh]. split; simpl; try done.
    + intros m i [? ?]%lookup_delete_Some. eauto.
    + intros m1 m2 i1 i2 [? ?]%lookup_delete_Some [? ?]%lookup_delete_Some. eauto.
Qed.

Lemma txn_ok_rtc s s' : txn_ok s → rtc lease_txn s s' → txn_ok s'.
Proof. intros H Hr. induction Hr; eauto using txn_ok_step. Qed.

Lemma txn_ok_start tab : keyed tab → txn_ok (mkLeaseState tab ∅ []).
Proof.
  intros Hk. split; simpl; try done.
  - constructor.
  - intros h Hh. by apply elem_of_nil in Hh.
Qed.

(** ** Concrete rows for the witnesses *)

Definition w_hash (_ : json) : string := "h".
Definition w_fresh : Fresh := mkFresh "id-1" "20261030" "0a0b0c0d".
Definition w_reboot : gmap string Job :=
  (CreateWithMaxAttempts false w_fresh 100 "dev" TypeReboot (JObj []) "op" 3 ∅).2.
Definition w_unlocked (_ : string) : bool := false.
Definition w_leased : gmap string Job :=
  (LeaseForTypes w_unlocked "acs/1" 200 "dev" sessionDispatchableTypes w_reboot).2.
(** A hash that tells objects from other documents. *)
Definition json_kind (j : json) : string := match j with JObj _ => "o" | _ => "x" end.
(** A Wi-Fi passphrase write, failed by the device. *)
Definition w_wifi : json :=
  encode_SetParameter (mkSetParameterPayload "" false []
    [mkParameterWrite "Device.WiFi.AccessPoint.1.Security.KeyPassphrase" "hunter22" "xsd:string" ""]
    false false).
Definition w_failed : gmap string Job :=
  MarkFailed 300 "id-1" "9007" "Invalid value"
    (CreateWithMaxAttempts false w_fresh 100 "dev" TypeSetParameter w_wifi "op" 3 ∅).2.

Lemma w_leased_reachable : reachable w_hash w_leased.
Proof.
  apply (rtc_l _ _ w_reboot); [apply step_create|]. apply rtc_once, step_lease.
Defined.

Lemma w_failed_reachable : reachable w_hash w_failed.
Proof.
  apply (rtc_l _ _ (CreateWithMaxAttempts false w_fresh 100 "dev" TypeSetParameter w_wifi "op" 3 ∅).2);
    [apply step_create|]. apply rtc_once, step_failed.
Defined.

(** ** Safety of the queue *)

(** C1: over every sequence of repository calls the gateway, the workers, the
    USP dispatcher and the reaper make, a job of a type that must not be
    repeated (AddObject, DeleteObject, Reboot, FactoryReset, Download, Upload)
    is leased at most once, and once leased it never becomes QUEUED again. *)
Theorem destructive_rpc_sent_at_most_once hash tab k j :
  reachable hash tab → tab !! k = Some j → Type_ j ∈ nonRepeatableTypes →
  Attempts j <= 1 ∧ (Attempts j = 1 → Status j ≠ StatusQueued).
Proof.
  intros Hr Hj Hn. pose proof (tab_rows _ (reachable_ok _ _ Hr) _ _ Hj) as Hok. split.
  - by apply (ok_once _ _ Hok).
  - intros Ha Hq. rewrite (ok_once_queued _ _ Hok Hn Hq) in Ha. lia.
Qed.

Lemma destructive_rpc_sent_at_most_once_witness :
  ∃ j, w_leased !! "id-1" = Some j ∧ Attempts j = 1 ∧
    Attempts j <= 1 ∧ (Attempts j = 1 → Status j ≠ StatusQueued).
Proof.
  eexists. split; [vm_compute; reflexivity|]. split; [reflexivity|].
  apply (destructive_rpc_sent_at_most_once w_hash w_leased "id-1").
  - exact w_leased_reachable.
  - vm_compute. reflexivity.
  - apply (bool_decide_eq_true_1 _). reflexivity.
Defined.

(** C7: a job that has ended (SUCCESS, FAILED or TIMEOUT), however it ended,
    keeps no secret in its payload: no password, passphrase or key written to
    the device survives in the row. *)
Theorem finished_job_holds_no_secret hash tab k j :
  reachable hash tab → tab !! k = Some j → finished (Status j) = true →
  secret_free (Payload j) = true.
Proof.
  intros Hr Hj. apply (ok_secret k). exact (tab_rows _ (reachable_ok _ _ Hr) _ _ Hj).
Qed.

Lemma finished_job_holds_no_secret_witness :
  secret_free w_wifi = false ∧
  ∃ j, w_failed !! "id-1" = Some j ∧ secret_free (Payload j) = true.
Proof.
  split; [vm_compute; reflexivity|]. eexists. split; [vm_compute; reflexivity|].
  apply (finished_job_holds_no_secret w_hash w_failed "id-1").
  - exact w_failed_reachable.
  - vm_compute. reflexivity.
  - reflexivity.
Defined.

(** In every reachable table a leased job (RPC_SENT or IN_PROGRESS) has a
    deadline the reaper can see and a start time, a queued job has no lease
    left over, an ended job has its completion time, and command keys are
    unique, so a CommandKey names one job. *)
Theorem reachable_rows_well_formed hash tab k j :
  reachable hash tab → tab !! k = Some j →
  ID j = k ∧ 0 <= Attempts j ∧
  (leased_status j = true → is_Some (leased_until j) ∧ is_Some (StartedAt j)) ∧
  (Status j = StatusQueued → leased_until j = None ∧ lease_owner j = None) ∧
  (finished (Status j) = true → is_Some (CompletedAt j)) ∧
  ByCommandKey tab (CommandKey j) = Some j.
Proof.
  intros Hr Hj. pose proof (reachable_ok _ _ Hr) as Ht. pose proof (tab_rows _ Ht _ _ Hj) as Hok.
  split_and!; try by apply Hok.
  - intros Hq. apply (ok_queued _ _ Hok). by rewrite Hq.
  - by apply ByCommandKey_unique with k.
Qed.

Lemma reachable_rows_well_formed_witness :
  ∃ j, w_leased !! "id-1" = Some j ∧ ByCommandKey w_leased (CommandKey j) = Some j.
Proof.
  eexists. split; [vm_compute; reflexivity|].
  apply (reachable_rows_well_formed w_hash w_leased "id-1").
  - exact w_leased_reachable.
  - vm_compute. reflexivity.
Defined.

(** ** Leasing *)

(** A lease hands out a job that was QUEUED for the device and of a
    requested type, the oldest such job no other transaction holds; its row
    becomes RPC_SENT with one more attempt and a 15-minute deadline, and no
    other row changes. With nothing handed out, every eligible row is locked
    by someone else. *)
Theorem lease_takes_the_oldest_eligible_job locked owner now dev types usp tab :
  keyed tab →
  match leaseForTypes locked owner now dev types usp tab with
  | (Some job, tab') =>
      ∃ row, tab !! ID job = Some row ∧ leasable dev types usp row = true ∧ locked (ID job) = false ∧
        Status job = StatusRPCSent ∧ Attempts job = Attempts row + 1 ∧ Payload job = Payload row ∧
        (∀ k r, tab !! k = Some r → leasable dev types usp r = true → locked k = false →
           CreatedAt row <= CreatedAt r) ∧
        tab' !! ID job = Some (lease_row StatusRPCSent sessionLease owner now row) ∧
        (∀ k, k ≠ ID job → tab' !! k = tab !! k)
  | (None, tab') =>
      tab' = tab ∧ ∀ k r, tab !! k = Some r → leasable dev types usp r = true → locked k = true
  end.
Proof.
  intros Hkey. unfold leaseForTypes, lease_with. destruct (pick _ _ _) as [j|] eqn:Ep; simpl.
  - apply pick_spec in Ep as ((k & Hk) & Hl & Hfree & Hold).
    pose proof (Hkey _ _ Hk) as Hid. simpl in Hid. subst k. exists j. split_and!; try done.
    + intros k r Hr Hlr Hlk. pose proof (Hkey _ _ Hr) as Hidr. simpl in Hidr. subst k. eauto.
    + rewrite lookup_by_id, decide_True, Hk by done. done.
    + intros k Hne. rewrite lookup_by_id, decide_False by done. done.
  - split; [done|]. intros k r Hr Hlr. pose proof (Hkey _ _ Hr) as Hidr. simpl in Hidr. subst k.
    by eapply pick_none.
Qed.

Lemma lease_takes_the_oldest_eligible_job_witness :
  keyed w_reboot ∧
  ∃ job tab', leaseForTypes w_unlocked "acs/1" 200 "dev" sessionDispatchableTypes false w_reboot
              = (Some job, tab') ∧ Attempts job = 1.
Proof.
  assert (keyed w_reboot) as Hk by (intros k j Hj; apply (reachable_ok w_hash w_reboot);
    [apply rtc_once, step_create|done]).
  split; [exact Hk|].
  pose proof (lease_takes_the_oldest_eligible_job w_unlocked "acs/1" 200 "dev"
    sessionDispatchableTypes false w_reboot Hk) as H.
  destruct (leaseForTypes _ _ _ _ _ _ _) as [[job|] tab'] eqn:E.
  - exists job, tab'. split; [reflexivity|]. revert E. vm_compute. by intros [= <- _].
  - revert E. vm_compute. discriminate.
Defined.

(** C8: however many gateway processes run lease transactions at once, in any
    interleaving of their selects, commits and rollbacks, no job is handed to
    two dispatchers, and two open transactions never hold the same row. *)
Theorem interleaved_leases_are_exclusive tab s :
  keyed tab → rtc lease_txn (mkLeaseState tab ∅ []) s →
  NoDup (ID <$> ls_handed s) ∧
  (∀ n m j j', ls_open s !! n = Some j → ls_open s !! m = Some j' → ID j = ID j' → n = m) ∧
  (∀ h, h ∈ ls_handed s → ∃ r, ls_table s !! ID h = Some r ∧ Status r = StatusRPCSent).
Proof.
  intros Hk Hr. pose proof (txn_ok_rtc _ _ (txn_ok_start _ Hk) Hr) as [? ? ? ? ?]. done.
Qed.

(** Two jobs and two gateways: the second skips the row the first has locked. *)
Definition w_two : gmap string Job :=
  (CreateWithMaxAttempts false (mkFresh "id-2" "20261030" "00000002") 101 "dev" TypeGetParameter
     (JObj []) "op" 3 w_reboot).2.

Lemma interleaved_leases_are_exclusive_witness :
  ∃ s, ls_open s !! 0%nat ≠ None ∧ ls_open s !! 1%nat ≠ None ∧
    rtc lease_txn (mkLeaseState w_two ∅ []) s ∧ NoDup (ID <$> ls_handed s).
Proof.
  assert (keyed w_two) as Hk.
  { intros k j Hj. apply (reachable_ok w_hash w_two); [|done].
    apply (rtc_l _ _ w_reboot); [apply step_create|apply rtc_once, step_create]. }
  set (s0 := mkLeaseState w_two ∅ []).
  destruct (pick (leasable "dev" sessionDispatchableTypes false) (ls_locked s0) w_two) as [j1|] eqn:E1;
    [|revert E1; vm_compute; discriminate].
  set (s1 := mkLeaseState w_two {[0%nat := j1]} []).
  destruct (pick (leasable "dev" sessionDispatchableTypes false) (ls_locked s1) w_two) as [j2|] eqn:E2.
  - assert (rtc lease_txn s0 (mkLeaseState w_two (<[1%nat := j2]> {[0%nat := j1]}) [])) as Hr.
    { apply (rtc_l _ _ s1); [by apply (txn_select s0 0%nat "dev" sessionDispatchableTypes false)|].
      apply rtc_once. by apply (txn_select s1 1%nat "dev" sessionDispatchableTypes false). }
    eexists. split_and!; [| |exact Hr|].
    + done.
    + done.
    + by apply (interleaved_leases_are_exclusive w_two _ Hk Hr).
  - revert E1 E2. vm_compute. intros [= <-]. vm_compute. discriminate.
Defined.

(** ** The reaper *)

(** C9: the five UPDATE statements of a reaper pass do to every row exactly what
    one decision per row says: a stale destructive job is dead-lettered for
    review, another stale job is dead-lettered when its attempts are used up
    and requeued otherwise, an overdue transfer or diagnostic is timed out, and
    nothing else is touched; the counts reported are those of the classes, and
    no stale lease is left. *)
Theorem reaper_decides_each_row_once now tab :
  RecoverExpiredLeases now tab =
  (recover_row now <$> tab,
   mkRecoveryResult (count_class now RecRequeue tab) (count_class now RecExhausted tab)
     (count_class now RecUnsafe tab) (count_class now RecTransferTimeout tab)
     (count_class now RecDiagnosticsTimeout tab)) ∧
  map_Forall (λ _ j, stale now j = false) (RecoverExpiredLeases now tab).1 ∧
  (∀ k j, tab !! k = Some j → Type_ j ∈ nonRepeatableTypes → Status j ≠ StatusQueued →
     Status (recover_row now j) ≠ StatusQueued).
Proof.
  rewrite RecoverExpiredLeases_row_spec. split_and!; [done| |].
  - intros k j. simpl. rewrite lookup_fmap. destruct (tab !! k) as [i|]; simpl; [|done].
    intros [= <-]. apply recover_row_not_stale.
  - intros k j _ Hn Hq. unfold recover_row, recovery_class.
    destruct (stale now j); [|by destruct (transfer_overdue now j), (diagnostic_overdue now j)].
    unfold type_in. by rewrite bool_decide_eq_true_2.
Qed.

(** ** Creating jobs *)

(** Repeating a create with the same device, type, payload and idempotency
    key gives the original job back and changes nothing; another payload under
    the same key is refused and changes nothing. *)
Theorem idempotent_create_replays hash al fr now dev t payload by_ key tab job tab' fr' now' payload' by' :
  table_ok tab → String.eqb (TrimSpace key) "" = false →
  CreateWithIdempotency hash al fr now dev t payload by_ key tab = (Ok job, tab') →
  checkProtectedWrite al t payload' = None →
  CreateWithIdempotency hash al fr' now' dev t payload' by' key tab' =
  (if String.eqb (hash payload) (hash payload') then Ok job else Err ErrIdempotencyConflict, tab').
Proof.
  intros Hok Hkey Hc Hp'.
  assert (table_ok tab') as Hok'.
  { pose proof (table_ok_CreateWithIdempotency hash al fr now dev t payload by_ key tab Hok) as H.
    by rewrite Hc in H. }
  unfold CreateWithIdempotency in Hc |- *. rewrite Hkey in *. rewrite Hp'.
  destruct (checkProtectedWrite al t payload); [done|].
  assert (findByIdempotency tab' dev t key = Some job ∧ RequestHash job = Some (hash payload)) as [-> ->].
  { destruct (findByIdempotency tab dev t key) as [j|] eqn:Ef.
    - destruct (RequestHash j) as [h|] eqn:Eh; [|done].
      destruct (String.eqb_spec h (hash payload)) as [->|]; [|done]. by simplify_eq.
    - unfold insert_job in Hc. destruct (unique_ok _ _) eqn:Hu; [|done]. simplify_eq.
      split; [|done]. apply findByIdempotency_unique with (ID (new_job fr now dev t payload by_
        default_max_attempts (Some key) (Some (hash payload)))); try done.
      by rewrite lookup_insert_eq. }
  by destruct (String.eqb (hash payload) (hash payload')).
Qed.

Lemma idempotent_create_replays_witness :
  (CreateWithIdempotency json_kind false (mkFresh "id-9" "20261031" "ffffffff") 400 "dev"
     TypeReboot (JArr []) "op" "order-7"
     (CreateWithIdempotency json_kind false w_fresh 100 "dev" TypeReboot (JObj []) "op" "order-7" ∅).2).1
  = Err ErrIdempotencyConflict.
Proof.
  destruct (CreateWithIdempotency json_kind false w_fresh 100 "dev" TypeReboot (JObj []) "op" "order-7" ∅)
    as [[job|] tab'] eqn:E; [|revert E; vm_compute; discriminate]. simpl.
  rewrite (idempotent_create_replays json_kind false w_fresh 100 "dev" TypeReboot (JObj []) "op" "order-7"
             ∅ job tab' (mkFresh "id-9" "20261031" "ffffffff") 400 (JArr []) "op" table_ok_empty
             eq_refl E eq_refl).
  reflexivity.
Defined.

(** Without the exemption of a system flow, no SET_PARAMETER job that
    writes a protected parameter (one of the rules of [protected.go]) enters
    the table, through either create call; the table is unchanged. *)
Theorem protected_write_never_queued hash fr now dev payload p w by_ m key tab :
  decode_SetParameter payload = Some p → w ∈ sp_Parameters p →
  is_some (ProtectedReason (pw_Name w)) = true →
  ∃ e, CreateWithMaxAttempts false fr now dev TypeSetParameter payload by_ m tab = (Err e, tab) ∧
       CreateWithIdempotency hash false fr now dev TypeSetParameter payload by_ key tab = (Err e, tab).
Proof.
  intros Hd Hw Hr.
  assert (∃ e, checkProtectedWrite false TypeSetParameter payload = Some e) as [e He].
  { unfold checkProtectedWrite. simpl. rewrite Hd.
    destruct (CheckProtected _) as [e|] eqn:E; [eauto|].
    rewrite CheckProtected_none in E. rewrite (E (pw_Name w)) in Hr; [done|].
    by apply list_elem_of_fmap_2. }
  exists (ProtectedParameterError_Error e).
  unfold CreateWithIdempotency, Create, CreateWithMaxAttempts. rewrite He.
  by destruct (String.eqb _ _).
Qed.

Definition w_acs_url : SetParameterPayload :=
  mkSetParameterPayload "" false []
    [mkParameterWrite "Device.WiFi.SSID.1.SSID" "home" "xsd:string" "";
     mkParameterWrite "Device.ManagementServer.URL" "http://evil" "xsd:string" ""] false false.

Lemma protected_write_never_queued_witness :
  ∃ e, CreateWithMaxAttempts false w_fresh 100 "dev" TypeSetParameter (encode_SetParameter w_acs_url)
         "op" 3 ∅ = (Err e, ∅).
Proof.
  destruct (protected_write_never_queued w_hash w_fresh 100 "dev" (encode_SetParameter w_acs_url) w_acs_url
    (mkParameterWrite "Device.ManagementServer.URL" "http://evil" "xsd:string" "") "op" 3 "k" ∅) as [e [He _]].
  - reflexivity.
  - right. left.
  - vm_compute. reflexivity.
  - exists e. exact He.
Defined.
