(* ===== verification/PayloadTheorems.v ===== *)
(** * Read-back verification, diagnostic windows and payload codecs

    The theorems about the pure functions of [internal/jobs]: the comparison
    that decides whether a SetParameterValues took effect ([verification.go]),
    the window a diagnostic is given ([diagnostics.go]) and the JSON forms of
    the payloads that are written back to a queued job ([payloads.go]). *)

From stdpp Require Import gmap list strings.
From S2P Require Import Prelude GoStrings Json JobModel.

Open Scope acs_scope.
Open Scope string_scope.
Open Scope Z_scope.

(** ** Read-back verification *)

#[global] Instance ReadbackOutcome_eq_dec : EqDecision ReadbackOutcome.
Proof. solve_decision. Defined.

(** The names of the writes with outcome [o], in the order written. *)
Definition outcomes (p : SetParameterPayload) (actual : gmap string string)
    (o : ReadbackOutcome) (ws : list ParameterWrite) : list string :=
  pw_Name <$> List.filter (λ w, bool_decide (readback_of p actual w = o)) ws.

(** The value the device reported is the value written: as text, and for a
    boolean up to the two spellings of the truth values. *)
Definition same_value (w : ParameterWrite) (value : string) : bool :=
  if String.eqb (TrimPrefix (pw_Type w) "xsd:") "boolean"
  then String.eqb (normalizeBool value) (normalizeBool (pw_Value w))
  else String.eqb value (pw_Value w).

Lemma fold_record_readback p actual ws out :
  foldl (record_readback p actual) out ws =
  mkVerification (Matched out ++ outcomes p actual RMatched ws)
    (Mismatched out ++ outcomes p actual RMismatched ws)
    (Missing out ++ outcomes p actual RMissing ws)
    (Skipped out ++ outcomes p actual RSkipped ws).
Proof.
  revert out. induction ws as [|w ws IH]; intros out; simpl.
  - rewrite !app_nil_r. by destruct out.
  - rewrite IH. unfold record_readback, outcomes. simpl.
    destruct (readback_of p actual w); simpl; by rewrite <- ?app_assoc.
Qed.

Lemma CompareReadback_lists p actual :
  CompareReadback p actual =
  mkVerification (SortStrings (outcomes p actual RMatched (sp_Parameters p)))
    (SortStrings (outcomes p actual RMismatched (sp_Parameters p)))
    (SortStrings (outcomes p actual RMissing (sp_Parameters p)))
    (SortStrings (outcomes p actual RSkipped (sp_Parameters p))).
Proof. unfold CompareReadback. by rewrite fold_record_readback. Qed.

Lemma elem_of_outcomes p actual o ws n :
  n ∈ outcomes p actual o ws ↔ ∃ w, w ∈ ws ∧ pw_Name w = n ∧ readback_of p actual w = o.
Proof.
  unfold outcomes. rewrite list_elem_of_fmap. setoid_rewrite list_elem_of_In.
  setoid_rewrite filter_In. setoid_rewrite bool_decide_eq_true. naive_solver.
Qed.

Lemma outcomes_partition p actual ws :
  outcomes p actual RMatched ws ++ outcomes p actual RMismatched ws ++
  outcomes p actual RMissing ws ++ outcomes p actual RSkipped ws ≡ₚ (pw_Name <$> ws).
Proof.
  induction ws as [|w ws IH]; [done|].
  unfold outcomes in *. simpl. destruct (readback_of p actual w); simpl; rewrite <- IH; solve_Permutation.
Qed.

Lemma SortStrings_nil l : SortStrings l = [] ↔ l = [].
Proof.
  split; [|by intros ->]. intros H. apply Permutation_nil_r. by rewrite <- (SortStrings_Permutation l), H.
Qed.

Lemma outcomes_nil p actual o ws :
  outcomes p actual o ws = [] ↔ ∀ w, w ∈ ws → readback_of p actual w ≠ o.
Proof.
  split.
  - intros H w Hw Ho. assert (pw_Name w ∈ outcomes p actual o ws) as E.
    { apply elem_of_outcomes. eauto. }
    rewrite H in E. by apply not_elem_of_nil in E.
  - intros H. destruct (outcomes p actual o ws) as [|n l] eqn:E; [done|].
    assert (n ∈ outcomes p actual o ws) as Hn by (rewrite E; left).
    apply elem_of_outcomes in Hn as (w & Hw & _ & Ho). by destruct (H w Hw).
Qed.

(** A write is neither mismatched nor missing exactly when it is not readable
    or the device reported the value written. *)
Lemma readback_confirmed p actual w :
  (readback_of p actual w ≠ RMismatched ∧ readback_of p actual w ≠ RMissing) ↔
  (skipReadback p (pw_Name w) = false →
   ∃ v, actual !! pw_Name w = Some v ∧ same_value w v = true).
Proof.
  unfold readback_of. destruct (skipReadback p (pw_Name w)); [done|].
  destruct (actual !! pw_Name w) as [v|].
  - assert (∀ A (x y : A), (let is_bool := String.eqb (TrimPrefix (pw_Type w) "xsd:") "boolean" in
        let expected := if is_bool then normalizeBool (pw_Value w) else pw_Value w in
        let value := if is_bool then normalizeBool v else v in
        if String.eqb value expected then x else y) = if same_value w v then x else y) as ->.
    { intros. unfold same_value. simpl. by destruct (String.eqb (TrimPrefix _ _) _). }
    destruct (same_value w v) eqn:E; split; [eauto|done|naive_solver|].
    intros H. destruct (H eq_refl) as (v' & [= <-] & H'). congruence.
  - split; [naive_solver|]. intros H. by destruct (H eq_refl) as (v & [=] & _).
Qed.

(** The comparison of a read-back puts every written name in exactly one of
    its four lists, each sorted; nothing is reported mismatched or missing
    exactly when every readable write is confirmed by the value the device
    reported; and a secret-bearing path is never asked for nor compared. *)
Theorem compare_readback_decides_the_write p actual :
  let v := CompareReadback p actual in
  (Matched v ++ Mismatched v ++ Missing v ++ Skipped v)%list ≡ₚ (pw_Name <$> sp_Parameters p) ∧
  Forall (StronglySorted String.le) [Matched v; Mismatched v; Missing v; Skipped v] ∧
  (Mismatched v = [] ∧ Missing v = [] ↔
   ∀ w, w ∈ sp_Parameters p → skipReadback p (pw_Name w) = false →
     ∃ value, actual !! pw_Name w = Some value ∧ same_value w value = true) ∧
  (∀ n, SensitivePath n = true →
     n ∉ VerificationPaths p ∧ n ∉ Matched v ∧ n ∉ Mismatched v ∧ n ∉ Missing v).
Proof.
  cbv zeta. rewrite CompareReadback_lists. cbn [Matched Mismatched Missing Skipped]. split_and!.
  - rewrite !SortStrings_Permutation. apply outcomes_partition.
  - repeat constructor; apply SortStrings_Sorted.
  - rewrite !SortStrings_nil, !outcomes_nil. setoid_rewrite <- readback_confirmed. split.
    + intros [H1 H2] w Hw. auto.
    + intros H. split; intros w Hw; apply (H w Hw).
  - intros n Hs. assert (skipReadback p n = true) as Hk by (unfold skipReadback; by rewrite Hs).
    split.
    + unfold VerificationPaths. rewrite list_elem_of_In, filter_In, Hk. naive_solver.
    + rewrite !elem_of_SortStrings, !elem_of_outcomes. unfold readback_of.
      split_and!; intros (w & _ & <- & H); by rewrite Hk in H.
Qed.

(** ** Diagnostic windows *)

(** The run time implied by the inputs, in unbounded arithmetic. *)
Definition run_time (j : Job) : Z :=
  match Type_ j with
  | TypeDiagnosticsPing =>
      match decode_DiagnosticsPing (Payload j) with
      | Some p => if (0 <? ping_NumberOfRepetitions p) && (0 <? ping_Timeout p)
                  then ping_NumberOfRepetitions p * ping_Timeout p * Millisecond else 0
      | None => 0
      end
  | TypeDiagnosticsTraceroute =>
      match decode_DiagnosticsTraceroute (Payload j) with
      | Some p =>
          if (0 <? trace_NumberOfTries p) && (0 <? trace_Timeout p) && (0 <? trace_MaxHopCount p)
          then trace_NumberOfTries p * trace_Timeout p * trace_MaxHopCount p * Millisecond else 0
      | None => 0
      end
  | _ => 0
  end.

Lemma run_time_nonneg j : 0 <= run_time j.
Proof.
  unfold run_time, Millisecond. destruct (Type_ j); try lia.
  - destruct (decode_DiagnosticsPing _) as [p|]; [|lia].
    destruct (0 <? ping_NumberOfRepetitions p) eqn:?, (0 <? ping_Timeout p) eqn:?; simpl; nia.
  - destruct (decode_DiagnosticsTraceroute _) as [p|]; [|lia].
    destruct (0 <? trace_NumberOfTries p) eqn:?, (0 <? trace_Timeout p) eqn:?,
      (0 <? trace_MaxHopCount p) eqn:?; simpl; lia.
Qed.

Lemma wrap64_product a b : 0 < b → 0 <= a → a * b <= max_int64 → wrap64 (wrap64 a * b) = a * b.
Proof.
  intros. assert (a <= max_int64) by nia.
  rewrite (wrap64_id a) by (unfold min_int64; lia). apply wrap64_id. unfold min_int64. nia.
Qed.

Lemma expectedRunTime_exact j : run_time j <= max_int64 → expectedRunTime j = run_time j.
Proof.
  unfold run_time, expectedRunTime, Millisecond. intros Hb. destruct (Type_ j); try done.
  - destruct (decode_DiagnosticsPing _) as [p|]; [|done].
    destruct (0 <? ping_NumberOfRepetitions p) eqn:?, (0 <? ping_Timeout p) eqn:?; simpl in *; try done.
    apply wrap64_product; nia.
  - destruct (decode_DiagnosticsTraceroute _) as [p|]; [|done].
    destruct (0 <? trace_NumberOfTries p) eqn:?, (0 <? trace_Timeout p) eqn:?,
      (0 <? trace_MaxHopCount p) eqn:?; simpl in *; try done.
    assert (0 < trace_NumberOfTries p * trace_Timeout p) by nia.
    assert (0 < trace_NumberOfTries p * trace_Timeout p * trace_MaxHopCount p) by nia.
    rewrite (wrap64_product (trace_NumberOfTries p * trace_Timeout p)) by nia.
    apply wrap64_id. unfold min_int64. nia.
Qed.

(** The wait a diagnostic is given is between zero and two hours whatever
    its inputs, and it is the base window plus the worst-case run time, capped
    at two hours, for every input whose run time fits an [int64] of
    nanoseconds. *)
Theorem diagnostics_window_bounded j :
  0 <= DiagnosticsWindow j <= diagnosticsMaxWindow ∧
  (run_time j <= max_int64 - diagnosticsBaseWindow →
   DiagnosticsWindow j = Z.min (diagnosticsBaseWindow + run_time j) diagnosticsMaxWindow).
Proof.
  pose proof (run_time_nonneg j) as Hn.
  unfold DiagnosticsWindow. split.
  - destruct (_ <? _) eqn:E1, (wrap64 _ <? 0) eqn:E2; simpl; unfold diagnosticsMaxWindow, Hour, Minute, Second in *; lia.
  - intros Hb. rewrite expectedRunTime_exact by (unfold diagnosticsBaseWindow, Minute, Second in *; lia).
    rewrite wrap64_id by (unfold diagnosticsBaseWindow, Minute, Second, min_int64 in *; lia).
    destruct (diagnosticsMaxWindow <? _) eqn:E1, (_ <? 0) eqn:E2; simpl;
      unfold diagnosticsBaseWindow, Minute, Second in *; lia.
Qed.

(** A ping whose repetitions and timeout are absurd but decode as JSON integers. *)
Definition overflowing_ping : json :=
  JObj [("host", JStr "192.0.2.1"); ("number_of_repetitions", JNum 1);
        ("timeout", JNum 18446743473710)].

(** The product of the inputs is taken in [int64], so for some inputs it
    wraps around into the allowed range: the window of such a diagnostic is
    less than one second instead of the cap, although the run time it asks for
    is centuries. *)
Theorem diagnostics_window_can_wrap j :
  Type_ j = TypeDiagnosticsPing → Payload j = overflowing_ping →
  max_int64 < run_time j ∧ DiagnosticsWindow j < Second.
Proof.
  intros Ht Hp. unfold run_time, DiagnosticsWindow, expectedRunTime. rewrite Ht, Hp.
  vm_compute. auto.
Qed.

Definition w_ping : Job :=
  mkJob "id-7" "ping-1" "dev" TypeDiagnosticsPing StatusRPCSent overflowing_ping 1
    DiagnosticsMaxAttempts "op" 0 0 (Some 0) None None None None None None None None None.

Lemma diagnostics_window_can_wrap_witness : DiagnosticsWindow w_ping < Second.
Proof. apply (diagnostics_window_can_wrap w_ping); reflexivity. Defined.

(** ** Payload codecs *)

(** The payloads the gateway rewrites while a job is in the queue (the
    read-back flag of a write, the cursor of a discovery, the evidence bound to
    a read) come back from their JSON form unchanged. *)
Theorem rewritten_payloads_round_trip :
  (∀ p, decode_SetParameter (encode_SetParameter p) = Some p) ∧
  (∀ p, decode_GetParameter (encode_GetParameter p) = Some p) ∧
  (∀ p, decode_ParameterDiscovery (encode_ParameterDiscovery p) = Some p).
Proof.
  split_and!; auto using decode_encode_SetParameter, decode_encode_GetParameter,
    decode_encode_ParameterDiscovery.
Qed.
