(* ===== verification/Discovery.v ===== *)
(** * Parameter discovery: the bounded walk

    [AdvanceDiscovery], [SkipDiscoveryCursor] and the instance collapsing of
    [internal/jobs/discovery.go].  A PARAMETER_DISCOVERY job walks a device's
    object tree one GetParameterNames at a time; its progress is the payload of
    the job, so a walk is a sequence of transformations of that payload. *)

From stdpp Require Import gmap list strings sorting.
From S2P Require Import Prelude GoStrings Json JobModel JobStore.

Open Scope string_scope.
Open Scope list_scope.
Open Scope Z_scope.
Open Scope acs_scope.

Definition DiscoveryMaxNames : Z := 50000.
Definition DiscoveryMaxSkipped : Z := 32.
Definition DiscoveryMaxInstancesPerTable : nat := 32.

Definition RequestPath (p : ParameterDiscoveryPayload) : string :=
  if String.eqb (pd_Cursor p) "" then pd_Root p else pd_Cursor p.

(** ** Instance objects *)

(** A non-empty run of decimal digits, [\d+]. *)
Definition all_digits (s : string) : bool :=
  negb (String.eqb s "") && forall_bytes is_digit s.

Definition newline : ascii := ascii_of_nat 10.

(** [^(.*\.)(\d+)\.$]: the table and the instance number, as text. The dot of
    the expression matches any byte but a newline. *)
Definition instanceObjectRE (path : string) : option (string * string) :=
  match rev (Split path ".") with
  | last :: number :: t :: rest =>
      let table := Join (rev (t :: rest)) "." in
      if String.eqb last "" && all_digits number && forall_bytes (λ c, negb (Ascii.eqb c newline)) table
      then Some ((table ++ ".")%string, number) else None
  | _ => None
  end.

Definition runtimeTableTemplates : list string :=
  ["Hosts.Host."; "AssociatedDevice."; "DHCPv4.Server.Pool.{i}.Client.";
   "DHCPv6.Server.Pool.{i}.Client."; "DeviceInfo.ProcessStatus.Process."; "IP.ActivePort.";
   "IPv4Forwarding."; "IPv6Forwarding."; "ManagementServer.ManageableDevice.";
   "NeighboringWiFiDiagnostic.Result."; "DeviceInfo.VendorLogFile.";
   "AssociationEvent.AssociationEventData."; "DisassociationEvent.DisassociationEventData.";
   "FailedConnectionEvent.FailedConnectionEventData."; "BSS.{i}.STA."; "ScanResult.";
   "OpClassScan."; "ChannelScan."; "NeighborBSS."; "UnassociatedSTA.";
   "CapableOperatingClassProfile."; "CurrentOperatingClassProfile."; "FaultMgmt.SupportedAlarm.";
   "FaultMgmt.CurrentAlarm."; "FaultMgmt.HistoryEvent."; "FaultMgmt.ExpeditedEvent.";
   "FaultMgmt.QueuedEvent."; "InterfaceStack."].

(** One [ReplaceAllString] of [\.\d+\.] by [.{i}.], on the segments between the
    dots. A match takes the dot on both sides, so the segment after a replaced
    one has no dot of its own left in the same pass. The argument is what
    follows a dot that is still free. *)
Fixpoint replace_after_dot (segs : list string) : list string :=
  match segs with
  | x :: ((y :: r) as t) =>
      if all_digits x then "{i}" :: y :: replace_after_dot r else x :: replace_after_dot t
  | _ => segs
  end.

Definition replace_pass (segs : list string) : list string :=
  match segs with s0 :: r => s0 :: replace_after_dot r | [] => [] end.

(** [instanceSegmentRE.MatchString]: a segment between two dots is a number. *)
Fixpoint number_before_last (segs : list string) : bool :=
  match segs with
  | x :: ((_ :: _) as t) => all_digits x || number_before_last t
  | _ => false
  end.

Definition segment_match (segs : list string) : bool :=
  match segs with _ :: r => number_before_last r | [] => false end.

(** The loop of [isRuntimeTable]; every turn replaces at least one of the
    [length segs] segments, so that many turns are enough. *)
Fixpoint template_loop (fuel : nat) (segs : list string) : list string :=
  match fuel with
  | O => segs
  | S f => if segment_match segs then template_loop f (replace_pass segs) else segs
  end.

Definition table_template (table : string) : string :=
  let segs := Split table "." in Join (template_loop (length segs) segs) ".".

Definition isRuntimeTable (table : string) : bool :=
  existsb (λ suffix, HasSuffix (table_template table) ("." ++ suffix)%string) runtimeTableTemplates.

(** The instance numbers of each table, in the order of the list. *)
Definition instance_of (path : string) : option (string * Z) :=
  match instanceObjectRE path with
  | Some (table, number) => match Atoi number with Some n => Some (table, n) | None => None end
  | None => None
  end.

Definition add_instance (m : gmap string (list Z)) (path : string) : gmap string (list Z) :=
  match instance_of path with
  | Some (table, n) => <[table := default [] (m !! table) ++ [n]]> m
  | None => m
  end.

Definition instance_limit (table : string) : nat :=
  if isRuntimeTable table then 1%nat else DiscoveryMaxInstancesPerTable.

Definition collapseRuntimeInstances (objects : list string) : list string :=
  let instances := foldl add_instance ∅ objects in
  if (size instances =? 0)%nat then objects
  else
    let allowed := map_imap (λ table numbers, Some (take (instance_limit table) (SortInts numbers))) instances in
    List.filter (λ path,
      match instance_of path with
      | Some (table, n) => existsb (Z.eqb n) (default [] (allowed !! table))
      | None => true
      end) objects.

(** ** One answer of the device *)

(** A Go map used as a set of flags: a missing key reads as false. *)
Definition flagged (m : gmap string bool) (k : string) : bool := default false (m !! k).

Definition set_progress (p : ParameterDiscoveryPayload) (cursor : string) (pending : list string)
    (visited names : gmap string bool) (skipped : list string) (retried : gmap string bool)
  : ParameterDiscoveryPayload :=
  mkParameterDiscoveryPayload (pd_Root p) (pd_FallbackRoot p) (pd_IsFallback p) (pd_Incremental p)
    cursor pending visited names skipped retried (pd_Firmware p) (pd_Capabilities p) (pd_Merge p).

(** The loop over the names reported, in the order [range] visits them. *)
Fixpoint scan_names (root current : string) (visited : gmap string bool)
    (order : list (string * bool)) (names : gmap string bool) (objects : list string)
  : result (gmap string bool * list string) :=
  match order with
  | [] => Ok (names, objects)
  | (path, writable) :: rest =>
      if negb (HasPrefix path current)
      then Err ("discovery returned path outside requested subtree: " ++ path)%string
      else if (1024 <? String.length path)%nat then Err "discovery path exceeds 1024 bytes"
      else
        let names' := <[path := writable]> names in
        if negb (String.eqb path current) && HasSuffix path "." && negb (flagged visited path)
        then
          if 16 <? count_byte "." (TrimPrefix path root)
          then Err "discovery exceeds depth limit"
          else scan_names root current visited rest names' (objects ++ [path])
        else scan_names root current visited rest names' objects
  end.

(** Append the objects that are not queued yet. *)
Definition enqueue (pending objects : list string) : list string :=
  foldl (λ q path, if existsb (String.eqb path) q then q else q ++ [path]) pending objects.

(** [AdvanceDiscovery]: [order] is the order in which [range names] visits the
    map. The flag is [true] when the walk is complete. *)
Definition AdvanceDiscovery (p : ParameterDiscoveryPayload) (order : list (string * bool))
  : result (bool * ParameterDiscoveryPayload) :=
  let current := RequestPath p in
  let visited := <[current := true]> (pd_Visited p) in
  try r <- scan_names (pd_Root p) current visited order (pd_Names p) [];
  let names := r.1 in
  let pending := enqueue (pd_Pending p) (collapseRuntimeInstances (SortStrings r.2)) in
  if (DiscoveryMaxObjects <? Z.of_nat (size visited + length pending))
     || (DiscoveryMaxNames <? Z.of_nat (size names))
  then Err "discovery exceeds bounded walk limits"
  else match pending with
       | [] => Ok (true, set_progress p (pd_Cursor p) [] visited names (pd_Skipped p) (pd_Retried p))
       | next :: rest => Ok (false, set_progress p next rest visited names (pd_Skipped p) (pd_Retried p))
       end.

(** [SkipDiscoveryCursor]: the flags are [done] and [skipped]. *)
Definition SkipDiscoveryCursor (p : ParameterDiscoveryPayload)
  : result (bool * bool * ParameterDiscoveryPayload) :=
  let c := pd_Cursor p in
  if String.eqb c "" then Err "discovery has no object in progress to skip"
  else if negb (flagged (pd_Retried p) c)
  then
    let retried := <[c := true]> (pd_Retried p) in
    let '(next, rest) := match pd_Pending p with [] => (c, []) | n :: r => (n, r ++ [c]) end in
    Ok (false, false, set_progress p next rest (pd_Visited p) (pd_Names p) (pd_Skipped p) retried)
  else if DiscoveryMaxSkipped <=? Z.of_nat (length (pd_Skipped p))
  then Err ("discovery skipped more than " ++ Itoa DiscoveryMaxSkipped
            ++ " objects the device could not serve")%string
  else
    let visited := <[c := true]> (pd_Visited p) in
    let skipped := pd_Skipped p ++ [c] in
    match pd_Pending p with
    | [] => Ok (true, true, set_progress p "" [] visited (pd_Names p) skipped (pd_Retried p))
    | next :: rest =>
        Ok (false, true, set_progress p next rest visited (pd_Names p) skipped (pd_Retried p))
    end.

(** ** A whole walk

    The device answers a GetParameterNames with names, or it faults or drops
    the session, in which case the object is deferred or skipped. *)

Inductive Answer : Type :=
| Names (order : list (string * bool))
| Unanswered.

Inductive WalkState : Type :=
| Walking (p : ParameterDiscoveryPayload)
| WalkDone (p : ParameterDiscoveryPayload)
| WalkFailed (e : string).

Definition walk_answer (p : ParameterDiscoveryPayload) (a : Answer) : WalkState :=
  match a with
  | Names order =>
      match AdvanceDiscovery p order with
      | Ok (true, p') => WalkDone p'
      | Ok (false, p') => Walking p'
      | Err e => WalkFailed e
      end
  | Unanswered =>
      match SkipDiscoveryCursor p with
      | Ok (true, _, p') => WalkDone p'
      | Ok (false, _, p') => Walking p'
      | Err e => WalkFailed e
      end
  end.

Fixpoint run_walk (p : ParameterDiscoveryPayload) (answers : list Answer) : WalkState :=
  match answers with
  | [] => Walking p
  | a :: rest =>
      match walk_answer p a with
      | Walking p' => run_walk p' rest
      | s => s
      end
  end.

(** The payload a walk starts with. *)
Definition fresh_walk (root fallback : string) (is_fallback : bool) (firmware : string)
  : ParameterDiscoveryPayload :=
  mkParameterDiscoveryPayload root fallback is_fallback true "" [] ∅ ∅ [] ∅ firmware ∅ false.

(** ** Lemmas *)

Lemma flagged_insert m k x :
  flagged (<[k := true]> m) x = true ↔ x = k ∨ flagged m x = true.
Proof.
  unfold flagged. destruct (decide (x = k)) as [->|Hn].
  - rewrite lookup_insert_eq. simpl. naive_solver.
  - rewrite lookup_insert_ne by congruence. naive_solver.
Qed.

Lemma elem_of_enqueue q l x : x ∈ enqueue q l ↔ x ∈ q ∨ x ∈ l.
Proof.
  revert q. unfold enqueue. induction l as [|y l IH]; intros q; simpl; [set_solver|].
  rewrite IH. destruct (existsb (String.eqb y) q) eqn:E; [|set_solver].
  apply existsb_exists in E as (z & Hz & ->%String.eqb_eq). apply list_elem_of_In in Hz. set_solver.
Qed.

Lemma enqueue_NoDup q l : NoDup q → NoDup (enqueue q l).
Proof.
  revert q. unfold enqueue. induction l as [|y l IH]; intros q Hq; simpl; [done|].
  apply IH. destruct (existsb (String.eqb y) q) eqn:E; [done|].
  apply NoDup_app. split_and!; [done| |apply NoDup_singleton].
  intros x Hx Hy%list_elem_of_singleton. subst x.
  assert (existsb (String.eqb y) q = true); [|congruence].
  apply existsb_exists. exists y. split; [by apply list_elem_of_In|by apply String.eqb_eq].
Qed.

Lemma elem_of_collapse l x : x ∈ collapseRuntimeInstances l → x ∈ l.
Proof.
  unfold collapseRuntimeInstances. destruct (_ =? _)%nat; [done|].
  rewrite !list_elem_of_In, filter_In. by intros [].
Qed.

Lemma collapse_keeps_objects l x :
  x ∈ l → instance_of x = None → x ∈ collapseRuntimeInstances l.
Proof.
  intros Hx Hn. unfold collapseRuntimeInstances. destruct (_ =? _)%nat; [done|].
  rewrite list_elem_of_In, filter_In, Hn. split; [by apply list_elem_of_In|done].
Qed.

(** What the scan of one answer collects. *)
Lemma scan_names_objects root current visited order names objects names' objects' :
  scan_names root current visited order names objects = Ok (names', objects') →
  ∀ x, x ∈ objects' ↔
       x ∈ objects ∨ (x ∈ order.*1 ∧ x ≠ current ∧ HasSuffix x "." = true ∧ flagged visited x = false).
Proof.
  revert names objects. induction order as [|[path w] order IH]; intros names objects; simpl.
  - intros [= <- <-] x. set_solver.
  - destruct (HasPrefix path current); simpl; [|done].
    destruct (_ <? _)%nat; [done|].
    destruct (String.eqb_spec path current) as [->|Hne]; simpl.
    { intros H x. rewrite (IH _ _ H). set_solver. }
    destruct (HasSuffix path ".") eqn:Hs, (flagged visited path) eqn:Hv; simpl;
      try (intros H x; rewrite (IH _ _ H); rewrite elem_of_cons; naive_solver congruence).
    destruct (16 <? _); [done|]. intros H x. rewrite (IH _ _ H). rewrite elem_of_cons, elem_of_app,
      list_elem_of_singleton. naive_solver.
Qed.

Lemma scan_names_names root current visited order names objects names' objects' :
  scan_names root current visited order names objects = Ok (names', objects') →
  ∀ x, is_Some (names' !! x) ↔ is_Some (names !! x) ∨ x ∈ order.*1.
Proof.
  revert names objects. induction order as [|[path w] order IH]; intros names objects; simpl.
  - intros [= <- <-] x. set_solver.
  - destruct (HasPrefix path current); simpl; [|done].
    destruct (_ <? _)%nat; [done|]. intros H x.
    assert (∃ o, scan_names root current visited order (<[path:=w]> names) o = Ok (names', objects'))
      as [o Ho] by (destruct (negb _ && _ && _); [destruct (16 <? _); [done|]|]; eauto).
    rewrite (IH _ _ Ho), lookup_insert_is_Some'. set_solver.
Qed.

(** ** The invariant of a walk in progress *)

Record walk_ok (p : ParameterDiscoveryPayload) : Prop := mk_walk_ok {
  walk_pending_nodup : NoDup (pd_Pending p);
  walk_pending_fresh : ∀ x, x ∈ pd_Pending p → x ≠ "" ∧ pd_Visited p !! x = None;
  walk_current_fresh : (RequestPath p ∉ pd_Pending p) ∧ pd_Visited p !! RequestPath p = None;
  walk_visited_true : map_Forall (λ _ b, b = true) (pd_Visited p);
  walk_retried_true : map_Forall (λ _ b, b = true) (pd_Retried p);
  walk_retried_known : dom (pd_Retried p) ⊆
    dom (pd_Visited p) ∪ list_to_set (pd_Pending p) ∪ {[ RequestPath p ]};
  walk_budget : (size (pd_Visited p) + length (pd_Pending p) < Z.to_nat DiscoveryMaxObjects)%nat
}.

(** Every object reported so far that is not a table instance has been, is
    being, or will be asked for. *)
Definition walk_covers (p : ParameterDiscoveryPayload) (current : list string) : Prop :=
  ∀ x, is_Some (pd_Names p !! x) → HasSuffix x "." = true → instance_of x = None →
    flagged (pd_Visited p) x = true ∨ x ∈ pd_Pending p ∨ x ∈ current.

Lemma flagged_false m x :
  map_Forall (λ _ b, b = true) m → flagged m x = false → m !! x = None.
Proof.
  intros Hm. unfold flagged. destruct (m !! x) as [b|] eqn:E; [|done].
  by rewrite (Hm _ _ E).
Qed.

Lemma RequestPath_cursor p c : pd_Cursor p = c → c ≠ "" → RequestPath p = c.
Proof. intros <- Hn. unfold RequestPath. by destruct (String.eqb_spec (pd_Cursor p) ""). Qed.

(** The objects pending once an answer is merged, before the next is taken. *)
Lemma advance_pending p order names objects x :
  walk_ok p →
  scan_names (pd_Root p) (RequestPath p) (<[RequestPath p := true]> (pd_Visited p)) order
    (pd_Names p) [] = Ok (names, objects) →
  x ∈ enqueue (pd_Pending p) (collapseRuntimeInstances (SortStrings objects)) →
  x ≠ "" ∧ <[RequestPath p := true]> (pd_Visited p) !! x = None.
Proof.
  intros Hok Hs Hx. apply elem_of_enqueue in Hx as [Hx|Hx].
  - destruct (walk_pending_fresh _ Hok _ Hx) as [Hne Hv]. destruct (walk_current_fresh _ Hok) as [Hc _].
    split; [done|]. rewrite lookup_insert_ne; [done|set_solver].
  - apply elem_of_collapse in Hx. rewrite elem_of_SortStrings in Hx.
    apply (scan_names_objects _ _ _ _ _ _ _ _ Hs) in Hx as [Hx|(_ & _ & Hdot & Hf)]; [set_solver|].
    split; [by intros ->|]. apply flagged_false; [|done].
    apply map_Forall_insert_2; [done|apply (walk_visited_true _ Hok)].
Qed.

Lemma advance_walk_ok p order p' :
  walk_ok p → AdvanceDiscovery p order = Ok (false, p') →
  walk_ok p' ∧ size (pd_Visited p') = S (size (pd_Visited p)) ∧ pd_Retried p' = pd_Retried p.
Proof.
  intros Hok. unfold AdvanceDiscovery.
  destruct (scan_names _ _ _ _ _ _) as [[names objects]|e] eqn:Hs; simpl; [|done].
  set (visited := <[RequestPath p := true]> (pd_Visited p)) in *.
  pose proof (advance_pending p order names objects) as Hp.
  assert (size visited = S (size (pd_Visited p))) as Hsz.
  { apply map_size_insert_None, (walk_current_fresh _ Hok). }
  pose proof (enqueue_NoDup (pd_Pending p) (collapseRuntimeInstances (SortStrings objects))
                (walk_pending_nodup _ Hok)) as Hnd.
  pose proof (λ x, elem_of_enqueue (pd_Pending p) (collapseRuntimeInstances (SortStrings objects)) x) as Hel.
  destruct (_ <? Z.of_nat (_ + _)) eqn:Hb; simpl; [done|]. destruct (_ <? Z.of_nat (size names)); simpl; [done|].
  destruct (enqueue _ _) as [|next rest] eqn:Hq; [done|]. intros [= <-].
  assert (∀ x, x ∈ next :: rest → x ≠ "" ∧ visited !! x = None) as Hf by auto.
  apply NoDup_cons in Hnd as [Hni Hnd]. destruct (Hf next) as [Hne Hvn]; [left|].
  split; [|by simpl].
  pose proof (walk_retried_known _ Hok) as Hrk.
  constructor; rewrite ?(RequestPath_cursor _ next) by done; simpl; auto.
  - intros x Hx. apply Hf. by right.
  - apply map_Forall_insert_2; [done|apply (walk_visited_true _ Hok)].
  - apply (walk_retried_true _ Hok).
  - intros x Hx%Hrk. unfold visited. rewrite dom_insert_L.
    assert (x ∈ pd_Pending p → x = next ∨ x ∈ rest).
    { intros Hxp. rewrite <- elem_of_cons. apply Hel. by left. }
    set_solver.
  - apply Z.ltb_ge in Hb. cbn [length] in Hb. unfold DiscoveryMaxObjects in *. lia.
Qed.

Lemma skip_walk_ok p s p' :
  walk_ok p → SkipDiscoveryCursor p = Ok (false, s, p') →
  walk_ok p' ∧
  (size (pd_Visited p') + size (pd_Retried p') = S (size (pd_Visited p) + size (pd_Retried p)))%nat.
Proof.
  intros Hok. unfold SkipDiscoveryCursor.
  destruct (String.eqb_spec (pd_Cursor p) "") as [|Hc]; [done|].
  pose proof (RequestPath_cursor p _ eq_refl Hc) as Hr.
  destruct Hok as [Hnd Hpf Hcf Hvt Hrt Hrk Hbud]. rewrite Hr in *. destruct Hcf as [Hcp Hcv].
  destruct (flagged (pd_Retried p) (pd_Cursor p)) eqn:Hf; simpl.
  - destruct (_ <=? _); [done|]. destruct (pd_Pending p) as [|next rest] eqn:Hp; [done|].
    intros [= <- <-]. apply NoDup_cons in Hnd as [Hni Hnd].
    destruct (Hpf next) as [Hne Hvn]; [left|]. split.
    + constructor; rewrite ?(RequestPath_cursor _ next) by done; simpl; auto.
      * intros x Hx. destruct (Hpf x) as [? ?]; [by right|]. split; [done|].
        rewrite lookup_insert_ne; [done|set_solver].
      * split; [done|]. rewrite lookup_insert_ne; [done|set_solver].
      * by apply map_Forall_insert_2.
      * rewrite dom_insert_L. set_solver.
      * rewrite map_size_insert_None by done. simpl in Hbud. lia.
    + simpl. rewrite map_size_insert_None by done. lia.
  - intros H. apply flagged_false in Hf; [|done].
    assert (∃ next rest, (next :: rest ≡ₚ pd_Cursor p :: pd_Pending p) ∧
      s = false ∧ p' = set_progress p next rest (pd_Visited p) (pd_Names p) (pd_Skipped p)
        (<[pd_Cursor p := true]> (pd_Retried p))) as (next & rest & Hperm & -> & ->).
    { destruct (pd_Pending p) as [|n r]; simplify_eq;
        [by exists (pd_Cursor p), []|exists n, (r ++ [pd_Cursor p]); split_and!; try done].
      rewrite Permutation_swap. constructor. symmetry. apply Permutation_cons_append. }
    assert (NoDup (next :: rest)) as [Hni Hnd']%NoDup_cons by (rewrite Hperm; by constructor).
    assert (∀ x, x ∈ next :: rest → x ≠ "" ∧ pd_Visited p !! x = None) as Hall.
    { intros x. rewrite Hperm. intros [->|Hx]%elem_of_cons; auto. }
    destruct (Hall next) as [Hne Hvn]; [left|]. split.
    + constructor; rewrite ?(RequestPath_cursor _ next) by done; simpl; auto.
      * intros x Hx. apply Hall. by right.
      * by apply map_Forall_insert_2.
      * rewrite dom_insert_L. intros x Hx.
        assert (x = pd_Cursor p ∨ x ∈ pd_Pending p → x ∈ next :: rest) as Hin
          by (rewrite Hperm; set_solver).
        set_solver.
      * apply Permutation_length in Hperm. simpl in Hperm. lia.
    + simpl. rewrite map_size_insert_None by done. lia.
Qed.

Lemma retried_bounded p :
  walk_ok p → (size (pd_Retried p) <= Z.to_nat DiscoveryMaxObjects)%nat.
Proof.
  intros [Hnd Hpf Hcf Hvt Hrt Hrk Hbud]. apply subseteq_size in Hrk. rewrite size_dom in Hrk.
  assert (size (dom (pd_Visited p) ∪ list_to_set (pd_Pending p) ∪ {[RequestPath p]}) <=
          size (pd_Visited p) + length (pd_Pending p) + 1)%nat; [|lia].
  pose proof (size_union_alt (dom (pd_Visited p) ∪ list_to_set (pd_Pending p)) {[RequestPath p]}).
  pose proof (size_union_alt (dom (pd_Visited p)) (list_to_set (pd_Pending p))).
  pose proof (subseteq_size ({[RequestPath p]} ∖ (dom (pd_Visited p) ∪ list_to_set (pd_Pending p)))
                {[RequestPath p]} ltac:(set_solver)).
  pose proof (subseteq_size (list_to_set (pd_Pending p) ∖ dom (pd_Visited p))
                (list_to_set (pd_Pending p) : gset string) ltac:(set_solver)).
  rewrite size_singleton in *. rewrite size_dom in *.
  pose proof (size_list_to_set (C:=gset string) (pd_Pending p) Hnd). lia.
Qed.

Lemma walk_answer_ok p a p' :
  walk_ok p → walk_answer p a = Walking p' →
  walk_ok p' ∧
  (size (pd_Visited p') + size (pd_Retried p') = S (size (pd_Visited p) + size (pd_Retried p)))%nat.
Proof.
  intros Hok. destruct a as [order|]; simpl.
  - destruct (AdvanceDiscovery p order) as [[[] ?]|] eqn:E; try done. intros [= <-].
    destruct (advance_walk_ok _ _ _ Hok E) as (Hok' & Hv & ->). rewrite Hv. auto.
  - destruct (SkipDiscoveryCursor p) as [[[[] s] ?]|] eqn:E; try done. intros [= <-].
    by apply (skip_walk_ok _ s).
Qed.

Lemma run_walk_ok p answers p' :
  walk_ok p → run_walk p answers = Walking p' →
  walk_ok p' ∧
  (size (pd_Visited p') + size (pd_Retried p') =
   length answers + (size (pd_Visited p) + size (pd_Retried p)))%nat.
Proof.
  revert p. induction answers as [|a answers IH]; intros p Hok; simpl.
  - intros [= <-]. auto.
  - destruct (walk_answer p a) as [q| |] eqn:E; try done.
    destruct (walk_answer_ok _ _ _ Hok E) as [Hq Hm]. intros H.
    destruct (IH _ Hq H) as [Hok' ->]. split; [done|lia].
Qed.

Lemma fresh_walk_ok root fallback is_fallback firmware :
  walk_ok (fresh_walk root fallback is_fallback firmware).
Proof.
  constructor; simpl; try set_solver; try (by apply map_Forall_empty); [constructor|].
  unfold DiscoveryMaxObjects. rewrite map_size_empty. lia.
Qed.
