(* ===== verification/DiscoveryTheorems.v ===== *)
(** * Parameter discovery: theorems

    Termination of the walk, completeness of a finished walk, independence of
    Go's map iteration order, and what instance collapsing keeps. *)

From S2P Require Import Prelude GoStrings Json JobModel JobStore Discovery.

(** ** Coverage of the tree *)

(** What is left to ask for once the answer is in: the object in progress. *)
Definition in_progress (s : WalkState) : list string :=
  match s with Walking p => [RequestPath p] | _ => [] end.

Lemma advance_covers p order done p' :
  walk_ok p → walk_covers p [RequestPath p] → AdvanceDiscovery p order = Ok (done, p') →
  walk_covers p' (if done then [] else [RequestPath p']) ∧ (done = true → pd_Pending p' = []).
Proof.
  intros Hok Hcov. unfold AdvanceDiscovery.
  destruct (scan_names _ _ _ _ _ _) as [[names objects]|e] eqn:Hs; simpl; [|done].
  pose proof (scan_names_objects _ _ _ _ _ _ _ _ Hs) as Hobj.
  pose proof (scan_names_names _ _ _ _ _ _ _ _ Hs) as Hnames.
  set (visited := <[RequestPath p := true]> (pd_Visited p)) in *.
  set (pending := enqueue _ _).
  assert (∀ x, is_Some (names !! x) → HasSuffix x "." = true → instance_of x = None →
    flagged visited x = true ∨ x ∈ pending) as Hall.
  { intros x Hx Hdot Hni. destruct (flagged visited x) eqn:Hf; [by left|right].
    assert (x ≠ RequestPath p ∧ flagged (pd_Visited p) x = false) as [Hne Hfv].
    { pose proof (flagged_insert (pd_Visited p) (RequestPath p) x) as Hi. fold visited in Hi.
      destruct (flagged (pd_Visited p) x); naive_solver congruence. }
    apply elem_of_enqueue. apply Hnames in Hx as [Hx|Hx].
    - destruct (Hcov x Hx Hdot Hni) as [?|[?|?]]; [congruence|by left|set_solver].
    - right. apply collapse_keeps_objects; [|done]. rewrite elem_of_SortStrings. apply Hobj. auto. }
  destruct (_ <? _); [done|]. destruct (_ <? _); [done|]. simpl.
  assert (∀ x, x ∈ pending → x ≠ "") as Hne.
  { intros x Hx. by apply (advance_pending p order names objects). }
  destruct pending as [|next rest] eqn:Hp; intros [= <- <-].
  - split; [|done]. intros x Hx Hd Hi. simpl in *. destruct (Hall x Hx Hd Hi); set_solver.
  - split; [|done]. intros x Hx Hd Hi. rewrite (RequestPath_cursor _ next) by (try done; apply Hne; left).
    simpl in *. destruct (Hall x Hx Hd Hi) as [?|?]; set_solver.
Qed.

Lemma skip_covers p done s p' :
  walk_ok p → walk_covers p [RequestPath p] → SkipDiscoveryCursor p = Ok (done, s, p') →
  walk_covers p' (if done then [] else [RequestPath p']) ∧ (done = true → pd_Pending p' = []).
Proof.
  intros Hok Hcov. unfold SkipDiscoveryCursor.
  destruct (String.eqb_spec (pd_Cursor p) "") as [|Hc]; [done|].
  pose proof (RequestPath_cursor p _ eq_refl Hc) as Hr.
  assert (∀ x, x ∈ pd_Pending p → x ≠ "") as Hne by (intros; by apply (walk_pending_fresh _ Hok)).
  assert (∀ x, is_Some (pd_Names p !! x) → HasSuffix x "." = true → instance_of x = None →
    flagged (pd_Visited p) x = true ∨ x ∈ pd_Cursor p :: pd_Pending p) as Hall.
  { intros x Hx Hd Hi. destruct (Hcov x Hx Hd Hi) as [?|[?|?]]; rewrite ?Hr in *; set_solver. }
  destruct (flagged (pd_Retried p) (pd_Cursor p)); simpl.
  - destruct (_ <=? _); [done|]. destruct (pd_Pending p) as [|n r]; intros [= <- <- <-];
      (split; [|done]); intros x Hx Hd Hi; simpl; rewrite flagged_insert;
      try rewrite (RequestPath_cursor _ n) by (try done; apply Hne; left);
      destruct (Hall x Hx Hd Hi); set_solver.
  - destruct (pd_Pending p) as [|n r]; intros [= <- <- <-];
      (split; [|done]); intros x Hx Hd Hi; simpl;
      [rewrite (RequestPath_cursor _ (pd_Cursor p)) by done
      |rewrite (RequestPath_cursor _ n) by (try done; apply Hne; left)];
      destruct (Hall x Hx Hd Hi); set_solver.
Qed.

(** What holds of a walk in every state. *)
Definition walk_state_ok (s : WalkState) : Prop :=
  match s with
  | Walking p => walk_ok p ∧ walk_covers p [RequestPath p]
  | WalkDone p => walk_covers p [] ∧ pd_Pending p = []
  | WalkFailed _ => True
  end.

Lemma walk_answer_state p a : walk_state_ok (Walking p) → walk_state_ok (walk_answer p a).
Proof.
  intros [Hok Hcov]. destruct (walk_answer p a) as [q|q|e] eqn:E; [| |done].
  - split; [by apply (walk_answer_ok p a)|]. destruct a as [order|]; simpl in E.
    + destruct (AdvanceDiscovery p order) as [[[] ?]|] eqn:E'; simplify_eq.
      by apply (advance_covers p order false).
    + destruct (SkipDiscoveryCursor p) as [[[[] s] ?]|] eqn:E'; simplify_eq.
      by apply (skip_covers p false s).
  - destruct a as [order|]; simpl in E.
    + destruct (AdvanceDiscovery p order) as [[[] ?]|] eqn:E'; simplify_eq.
      destruct (advance_covers p order true q Hok Hcov E') as [H1 H2]. split; auto.
    + destruct (SkipDiscoveryCursor p) as [[[[] s] ?]|] eqn:E'; simplify_eq.
      destruct (skip_covers p true s q Hok Hcov E') as [H1 H2]. split; auto.
Qed.

Lemma run_walk_state p answers : walk_state_ok (Walking p) → walk_state_ok (run_walk p answers).
Proof.
  revert p. induction answers as [|a answers IH]; intros p Hp; [done|]. simpl.
  pose proof (walk_answer_state p a Hp) as Ha. destruct (walk_answer p a); auto.
Qed.

Lemma fresh_walk_covers root fallback is_fallback firmware :
  walk_state_ok (Walking (fresh_walk root fallback is_fallback firmware)).
Proof. split; [apply fresh_walk_ok|]. intros x [b Hb]. simpl in Hb. by rewrite lookup_empty in Hb. Qed.

(** C36: a discovery walk ends whatever the device answers: after at most
    2 x 512 answers, faults and dropped sessions the job is finished or failed. *)
Theorem discovery_walk_terminates root fallback is_fallback firmware answers :
  2 * DiscoveryMaxObjects <= Z.of_nat (length answers) →
  match run_walk (fresh_walk root fallback is_fallback firmware) answers with
  | Walking _ => False
  | WalkDone _ | WalkFailed _ => True
  end.
Proof.
  intros Hlen. destruct (run_walk _ _) as [p| |] eqn:E; [|done|done].
  destruct (run_walk_ok _ _ _ (fresh_walk_ok _ _ _ _) E) as [Hok Hm].
  pose proof (retried_bounded _ Hok). pose proof (walk_budget _ Hok).
  simpl in Hm. rewrite map_size_empty in Hm. unfold DiscoveryMaxObjects in *. lia.
Qed.

(** A device that names ever deeper objects and drops every second session. *)
Definition w_answers : list Answer :=
  Names [("Device.", false); ("Device.WiFi.", false); ("Device.IP.", false)]
  :: concat (replicate 512 [Unanswered; Names []]).

Lemma discovery_walk_terminates_witness :
  match run_walk (fresh_walk "Device." "InternetGatewayDevice." false "1.0") w_answers with
  | Walking _ => False
  | WalkDone _ | WalkFailed _ => True
  end.
Proof.
  apply (discovery_walk_terminates "Device." "InternetGatewayDevice." false "1.0" w_answers).
  vm_compute. discriminate.
Defined.

(** When a walk finishes, every object the device reported that is not a
    table instance has been asked for (or given up after two failures), and
    nothing is left pending. *)
Theorem finished_walk_covers_the_tree root fallback is_fallback firmware answers p :
  run_walk (fresh_walk root fallback is_fallback firmware) answers = WalkDone p →
  pd_Pending p = [] ∧
  ∀ x, is_Some (pd_Names p !! x) → HasSuffix x "." = true → instance_of x = None →
    flagged (pd_Visited p) x = true.
Proof.
  intros E. pose proof (run_walk_state _ answers (fresh_walk_covers root fallback is_fallback firmware)) as H.
  rewrite E in H. destruct H as [Hc Hp]. split; [done|]. intros x Hx Hd Hi.
  destruct (Hc x Hx Hd Hi) as [?|[H|H]]; [done| |]; [rewrite Hp in H|]; by apply not_elem_of_nil in H.
Qed.

Lemma finished_walk_covers_the_tree_witness :
  ∃ p, run_walk (fresh_walk "Device." "" false "") w_answers = WalkDone p ∧ pd_Pending p = [] ∧
    flagged (pd_Visited p) "Device.WiFi." = true.
Proof.
  destruct (run_walk (fresh_walk "Device." "" false "") w_answers) as [p|p|e] eqn:E;
    [revert E; vm_compute; discriminate| |revert E; vm_compute; discriminate].
  exists p. split; [reflexivity|].
  destruct (finished_walk_covers_the_tree "Device." "" false "" w_answers p E) as [H1 H2].
  split; [exact H1|]. apply H2.
  - revert E. vm_compute. intros [= <-]. vm_compute. eauto.
  - vm_compute. reflexivity.
  - vm_compute. reflexivity.
Defined.

(** ** Map iteration order *)

Definition is_object (current : string) (visited : gmap string bool) (path : string) : bool :=
  negb (String.eqb path current) && HasSuffix path "." && negb (flagged visited path).

Definition name_allowed (root current : string) (visited : gmap string bool) (path : string) : bool :=
  HasPrefix path current && negb (1024 <? String.length path)%nat
  && (negb (is_object current visited path) || negb (16 <? count_byte "." (TrimPrefix path root))).

(** The scan without its order: either every name is allowed, or it fails. *)
Lemma scan_names_result root current visited order names objects :
  match scan_names root current visited order names objects with
  | Ok r =>
      forallb (name_allowed root current visited) order.*1 = true ∧
      r = (foldl (λ m kv, <[kv.1 := kv.2]> m) names order,
           objects ++ List.filter (is_object current visited) order.*1)
  | Err _ => forallb (name_allowed root current visited) order.*1 = false
  end.
Proof.
  revert names objects. induction order as [|[path w] order IH]; intros names objects; simpl.
  - by rewrite app_nil_r.
  - unfold name_allowed at 1 3. fold (is_object current visited path).
    destruct (HasPrefix path current); simpl; [|done].
    destruct (_ <? _)%nat; simpl; [done|].
    destruct (is_object current visited path) eqn:Ho; simpl.
    + destruct (16 <? _); simpl; [done|].
      specialize (IH (<[path:=w]> names) (objects ++ [path])).
      destruct (scan_names _ _ _ _ _ _); [|done]. by rewrite <- app_assoc in IH.
    + apply IH.
Qed.

Lemma foldl_insert_union (order : list (string * bool)) (names : gmap string bool) :
  NoDup order.*1 → foldl (λ m kv, <[kv.1 := kv.2]> m) names order = list_to_map order ∪ names.
Proof.
  revert names. induction order as [|[k v] order IH]; intros names Hnd; simpl.
  - by rewrite map_empty_union.
  - apply NoDup_cons in Hnd as [Hk Hnd]. rewrite (IH _ Hnd). apply map_eq. intros i. simpl.
    destruct (decide (i = k)) as [->|Hi].
    + rewrite !lookup_union, !lookup_insert_eq.
      rewrite (not_elem_of_list_to_map_1 order k) by done. by destruct (names !! k).
    + by rewrite !lookup_union, !lookup_insert_ne by congruence.
Qed.

Lemma SortStrings_perm l1 l2 : l1 ≡ₚ l2 → SortStrings l1 = SortStrings l2.
Proof.
  intros H. apply (StronglySorted_unique String.le); auto using SortStrings_Sorted.
  by rewrite !SortStrings_Permutation.
Qed.

Lemma filter_perm {A} (f : A → bool) l1 l2 : l1 ≡ₚ l2 → List.filter f l1 ≡ₚ List.filter f l2.
Proof.
  induction 1; simpl; repeat case_match; try done; try by constructor. by etrans.
Qed.

Lemma forallb_perm {A} (f : A → bool) l1 l2 : l1 ≡ₚ l2 → forallb f l1 = forallb f l2.
Proof. induction 1; simpl; try congruence. by rewrite !andb_assoc, (andb_comm (f y)). Qed.

(** The outcome of an answer does not depend on the order in which Go's
    [range] visits the map of names: if one order advances the walk, every
    order advances it to the same payload. *)
Theorem advance_is_order_independent p order order' r :
  NoDup order.*1 → order ≡ₚ order' →
  AdvanceDiscovery p order = Ok r → AdvanceDiscovery p order' = Ok r.
Proof.
  intros Hnd Hp. unfold AdvanceDiscovery. set (visited := <[_ := _]> _).
  pose proof (scan_names_result (pd_Root p) (RequestPath p) visited order (pd_Names p) []) as H1.
  pose proof (scan_names_result (pd_Root p) (RequestPath p) visited order' (pd_Names p) []) as H2.
  assert (order.*1 ≡ₚ order'.*1) as Hp1 by by rewrite Hp.
  rewrite (forallb_perm _ _ _ Hp1) in H1.
  destruct (scan_names _ _ _ order _ _) as [r1|], (scan_names _ _ _ order' _ _) as [r2|]; simpl;
    try naive_solver congruence.
  destruct H1 as [_ ->], H2 as [_ ->]. simpl.
  rewrite !foldl_insert_union by (rewrite <- ?Hp1; done).
  rewrite (SortStrings_perm _ _ (filter_perm _ _ _ Hp1)), (list_to_map_proper order order'); done.
Qed.

Lemma advance_is_order_independent_witness :
  ∃ r, AdvanceDiscovery (fresh_walk "Device." "" false "")
         [("Device.IP.", false); ("Device.WiFi.", true)] = Ok r ∧
       AdvanceDiscovery (fresh_walk "Device." "" false "")
         [("Device.WiFi.", true); ("Device.IP.", false)] = Ok r.
Proof.
  destruct (AdvanceDiscovery (fresh_walk "Device." "" false "")
    [("Device.IP.", false); ("Device.WiFi.", true)]) as [r|e] eqn:E; [|revert E; vm_compute; discriminate].
  exists r. split; [reflexivity|].
  refine (advance_is_order_independent _ _ _ r _ _ E).
  - apply (bool_decide_eq_true_1 _). vm_compute. reflexivity.
  - apply Permutation_swap.
Defined.

(** ** Instance tables *)

(** The table's template: interior numbers become [{i}]. *)
Fixpoint number_template (segs : list string) : list string :=
  match segs with
  | x :: ((_ :: _) as t) => (if all_digits x then "{i}" else x) :: number_template t
  | _ => segs
  end.

Definition template_of (segs : list string) : list string :=
  match segs with s0 :: r => s0 :: number_template r | [] => [] end.

Fixpoint count_numbers (segs : list string) : nat :=
  match segs with
  | x :: ((_ :: _) as t) => ((if all_digits x then 1 else 0) + count_numbers t)%nat
  | _ => O
  end.

Lemma number_template_cons x y r :
  number_template (x :: y :: r) = (if all_digits x then "{i}" else x) :: number_template (y :: r).
Proof. done. Qed.

Lemma replace_cons x y r :
  replace_after_dot (x :: y :: r) =
  if all_digits x then "{i}" :: y :: replace_after_dot r else x :: replace_after_dot (y :: r).
Proof. done. Qed.

Lemma count_cons x y r :
  count_numbers (x :: y :: r) = ((if all_digits x then 1 else 0) + count_numbers (y :: r))%nat.
Proof. done. Qed.

Lemma number_before_cons x y r :
  number_before_last (x :: y :: r) = all_digits x || number_before_last (y :: r).
Proof. done. Qed.

Lemma replace_length segs : length (replace_after_dot segs) = length segs.
Proof.
  remember (length segs) as n eqn:En. revert segs En.
  induction (lt_wf n) as [n _ IH]. intros [|x [|y r]] ->; try done.
  assert (∀ l, (length l < length (x :: y :: r))%nat → length (replace_after_dot l) = length l) as Hl
    by (intros l Hlt; by apply (IH (length l))).
  rewrite replace_cons. destruct (all_digits x).
  - cbn [length]. rewrite Hl; [done|simpl; lia].
  - change (S (length (replace_after_dot (y :: r))) = S (length (y :: r))). rewrite Hl; [done|simpl; lia].
Qed.

(** One pass keeps the template and replaces at least one number, if any. *)
Lemma replace_after_dot_spec n segs :
  (length segs <= n)%nat →
  number_template (replace_after_dot segs) = number_template segs ∧
  (number_before_last segs = true → (count_numbers (replace_after_dot segs) < count_numbers segs)%nat) ∧
  (count_numbers (replace_after_dot segs) <= count_numbers segs)%nat.
Proof.
  revert segs. induction n as [|n IH]; intros [|x [|y r]] Hn; try done; cbn [length] in Hn; [lia|].
  assert (all_digits "{i}" = false) as Hi by done.
  rewrite replace_cons, number_before_cons, count_cons, number_template_cons.
  destruct (all_digits x) eqn:Hx.
  - rewrite number_template_cons, count_cons, Hi. destruct r as [|z r]; [split_and!; [done|simpl; lia..]|].
    destruct (IH (z :: r)) as (H1 & H2 & H3); [simpl in *; lia|].
    pose proof (replace_length (z :: r)) as Hl.
    destruct (replace_after_dot (z :: r)) as [|z' r']; [done|].
    rewrite !number_template_cons, !count_cons, H1.
    split_and!; [done|..]; destruct (all_digits y); lia.
  - destruct (IH (y :: r)) as (H1 & H2 & H3); [simpl; lia|].
    pose proof (replace_length (y :: r)) as Hl.
    destruct (replace_after_dot (y :: r)) as [|y' r']; [done|].
    rewrite number_template_cons, count_cons, Hx, H1. simpl orb.
    split_and!; [done|intros H; specialize (H2 H)|]; lia.
Qed.

Lemma number_template_id segs : number_before_last segs = false → number_template segs = segs.
Proof.
  induction segs as [|x [|y r] IH]; try done.
  rewrite number_template_cons, number_before_cons. destruct (all_digits x); [done|]. intros H. by rewrite IH.
Qed.

Lemma template_loop_spec fuel s0 r :
  (count_numbers r <= fuel)%nat → template_loop fuel (s0 :: r) = s0 :: number_template r.
Proof.
  revert r. induction fuel as [|fuel IH]; intros r Hf; simpl.
  - rewrite number_template_id; [done|].
    assert (number_before_last r = true → (0 < count_numbers r)%nat) as H.
    { intros H. destruct (replace_after_dot_spec (length r) r) as (_ & H2 & _); [done|].
      specialize (H2 H). lia. }
    destruct (number_before_last r); [|done]. specialize (H eq_refl). lia.
  - destruct (replace_after_dot_spec (length r) r) as (H1 & H2 & H3); [done|].
    destruct (number_before_last r) eqn:E.
    + rewrite IH by (specialize (H2 eq_refl); lia). by rewrite H1.
    + by rewrite number_template_id.
Qed.

Lemma count_numbers_length segs : (count_numbers segs <= length segs)%nat.
Proof.
  induction segs as [|x [|y r] IH]; cbn [count_numbers length] in *; [lia|lia|].
  destruct (all_digits x); lia.
Qed.

(** The loop of [isRuntimeTable] replaces overlapping instance numbers
    pass by pass; it ends, and the template it computes has every interior
    number replaced at once. *)
Lemma table_template_replaces_every_number table :
  table_template table = Join (template_of (Split table ".")) ".".
Proof.
  unfold table_template. f_equal. destruct (Split table ".") as [|s0 r]; [done|].
  apply template_loop_spec. pose proof (count_numbers_length r). simpl. lia.
Qed.

(** The instance numbers of one table among the objects. *)
Definition numbers_of (table : string) (objects : list string) : list Z :=
  omap (λ path, match instance_of path with
                | Some (t, n) => if String.eqb t table then Some n else None
                | None => None
                end) objects.

Lemma fold_add_instance l m t :
  default [] (foldl add_instance m l !! t) = default [] (m !! t) ++ numbers_of t l.
Proof.
  revert m. induction l as [|x l IH]; intros m; simpl; [by rewrite app_nil_r|].
  rewrite IH. unfold add_instance. destruct (instance_of x) as [[t' n]|]; simpl; [|done].
  destruct (String.eqb_spec t' t) as [->|Hn].
  - rewrite lookup_insert_eq. simpl. by rewrite <- app_assoc.
  - by rewrite lookup_insert_ne.
Qed.

Lemma elem_of_numbers x t n l : x ∈ l → instance_of x = Some (t, n) → n ∈ numbers_of t l.
Proof.
  intros Hx Hi. unfold numbers_of. apply list_elem_of_omap. exists x. by rewrite Hi, String.eqb_refl.
Qed.

(** An instance object is kept exactly when its number is among the lowest. *)
Lemma elem_of_collapse_instance l x t n :
  x ∈ l → instance_of x = Some (t, n) →
  x ∈ collapseRuntimeInstances l ↔ n ∈ take (instance_limit t) (SortInts (numbers_of t l)).
Proof.
  intros Hx Hi. pose proof (elem_of_numbers _ _ _ _ Hx Hi) as Hn.
  pose proof (fold_add_instance l ∅ t) as Hf. rewrite lookup_empty in Hf. simpl in Hf.
  unfold collapseRuntimeInstances.
  destruct (foldl add_instance ∅ l !! t) as [ns|] eqn:El; simpl in Hf; [|rewrite <- Hf in Hn; set_solver].
  destruct (Nat.eqb_spec (size (foldl add_instance ∅ l)) 0) as [Hz|_].
  { apply map_size_empty_inv in Hz. by rewrite Hz, lookup_empty in El. }
  rewrite list_elem_of_In, filter_In, Hi, map_lookup_imap, El. simpl. rewrite Hf, existsb_exists.
  rewrite <- list_elem_of_In. split.
  - intros [_ (m & Hm & ->%Z.eqb_eq)]. by apply list_elem_of_In.
  - intros H. split; [done|]. exists n. rewrite Z.eqb_refl. split; [by apply list_elem_of_In|done].
Qed.

Lemma sorted_take_drop (l : list Z) k n m :
  StronglySorted Z.le l → n ∈ take k l → m ∈ drop k l → n <= m.
Proof.
  revert k. induction l as [|a l IH]; intros [|k] Hs; simpl; try set_solver.
  apply StronglySorted_inv in Hs as [Hs Ha]. rewrite elem_of_cons. intros [->|Hn] Hm; [|eauto].
  rewrite Forall_forall in Ha. apply Ha. rewrite <- (take_drop k l). set_solver.
Qed.

(** Of every table the walk descends into at most 32 instances, and into
    one if the table describes run-time state; they are the lowest-numbered
    ones, and objects that are not instances are never dropped. *)
Theorem collapse_keeps_the_lowest_instances objects table :
  let kept := collapseRuntimeInstances objects in
  (∃ numbers, (length numbers <= instance_limit table)%nat ∧
     ∀ x n, x ∈ kept → instance_of x = Some (table, n) → n ∈ numbers) ∧
  (∀ x n y m, x ∈ kept → instance_of x = Some (table, n) →
     y ∈ objects → (y ∉ kept) → instance_of y = Some (table, m) → n < m) ∧
  (∀ x, x ∈ kept → x ∈ objects) ∧
  (∀ x, x ∈ objects → instance_of x = None → x ∈ kept).
Proof.
  cbv zeta. split_and!.
  - exists (take (instance_limit table) (SortInts (numbers_of table objects))). split.
    + rewrite length_take. lia.
    + intros x n Hx Hi. apply (elem_of_collapse_instance objects x); auto using elem_of_collapse.
  - intros x n y m Hx Hi Hy Hny Hj.
    rewrite (elem_of_collapse_instance objects y table m) in Hny by done.
    apply (elem_of_collapse_instance objects x table n) in Hx; auto using elem_of_collapse.
    assert (m ∈ SortInts (numbers_of table objects)) as Hm.
    { unfold SortInts. rewrite merge_sort_Permutation. by apply (elem_of_numbers y). }
    rewrite <- (take_drop (instance_limit table)) in Hm. apply elem_of_app in Hm as [Hm|Hm]; [done|].
    assert (n <= m) by (eapply sorted_take_drop; [apply (StronglySorted_merge_sort Z.le)|done|done]).
    assert (n ≠ m) by congruence. lia.
  - auto using elem_of_collapse.
  - auto using collapse_keeps_objects.
Qed.

Example runtime_table_collapses :
  collapseRuntimeInstances
    ["Device.Hosts.Host.10."; "Device.Hosts.Host.9."; "Device.WiFi.SSID.1."; "Device.WiFi.SSID.2."]
  = ["Device.Hosts.Host.9."; "Device.WiFi.SSID.1."; "Device.WiFi.SSID.2."].
Proof. vm_compute. reflexivity. Qed.
