(* ===== verification/ParamCache.v ===== *)
(** * The parameter repository ([internal/parameters])

    The cache of what each device last reported, its history, the discovered
    parameter names and the evidence derived from them ([cache.go],
    [discovery.go], [compatibility.go], [instances.go], [secrets.go]), and the
    masking of subscriber identifiers ([subscriber_identity.go]).  Every method
    that writes runs in one transaction under the device's row lock, so it is
    one transformation of the tables; a foreign key refuses a device that does
    not exist. *)

From S2P Require Import Prelude GoStrings Json JobModel JobStore Devices.

Record CachedValue : Type := mkCached {
  cv_Value : string;
  cv_Type : string;
  cv_UpdatedAt : GoTime;
  cv_Source : string
}.

Abbreviation Cache := (gmap string CachedValue).

Record HistoryRow : Type := mkHistory {
  h_device : string;
  h_name : string;
  h_value : string;
  h_type : option string;
  h_source : string;
  h_recorded_at : GoTime
}.

Record SupportedCapability : Type := mkSupportedCapability {
  sc_Path : string;
  sc_Writable : bool;
  sc_ValueType : string;
  sc_Access : string;
  sc_ValueChange : string;
  sc_Commands : list string;
  sc_Events : list string
}.

(** A row of [device_parameter_names]: [nr_stale] and [nr_firmware] are the
    members of its evidence document that are read. *)
Record NamesRow : Type := mkNames {
  nr_names : gmap string bool;
  nr_capabilities : list SupportedCapability;
  nr_stale : bool;
  nr_firmware : string;
  nr_discovered_at : GoTime
}.

Record OperationRow : Type := mkOperation {
  op_command_key : string;
  op_firmware : string;
  op_operation : string;
  op_success : bool;
  op_paths : list string;
  op_tested_at : GoTime
}.

Record DiscoverySnapshot : Type := mkSnapshot {
  ds_CommandKey : string;
  ds_Protocol : string;
  ds_Root : string;
  ds_Names : gmap string bool;
  ds_Capabilities : list SupportedCapability;
  ds_firmware : string;
  ds_DiscoveredAt : GoTime
}.

Record InstanceEvidence : Type := mkInstances {
  ie_Path : string;
  ie_Firmware : string;
  ie_Instances : list string;
  ie_DiscoveredAt : GoTime
}.

Record Params : Type := mkParams {
  p_cache : gmap string Cache;
  p_history : list HistoryRow;
  p_names : gmap string NamesRow;
  p_snapshots : gmap string (list DiscoverySnapshot);
  p_operations : gmap string (list OperationRow);
  p_instances : gmap string (list InstanceEvidence)
}.

Definition no_params : Params := mkParams ∅ [] ∅ ∅ ∅ ∅.

(** ** Secrets *)

Definition redact_value (name : string) (v : CachedValue) : CachedValue :=
  if String.eqb (cv_Value v) "" || String.eqb (cv_Value v) SecretRedacted || negb (IsSecretParameter name)
  then v else mkCached SecretRedacted (cv_Type v) (cv_UpdatedAt v) (cv_Source v).

Definition redactSecrets (values : Cache) : Cache := map_imap (λ name v, Some (redact_value name v)) values.

(** ** Reading *)

Definition cache_of (p : Params) (dev : string) : Cache := default ∅ (p_cache p !! dev).

(** [Get]: an empty map when nothing is cached. *)
Definition GetCache (p : Params) (dev : string) : Cache := cache_of p dev.

Definition value_of (c : Cache) (name : string) : string :=
  match c !! name with Some v => cv_Value v | None => EmptyString end.

Definition version_paths : list string :=
  ["Device.DeviceInfo.SoftwareVersion"; "InternetGatewayDevice.DeviceInfo.SoftwareVersion"].

(** [Firmware]: the first version that is not empty. *)
Definition Firmware (c : Cache) : string :=
  match List.find (λ v, negb (String.eqb v "")) (value_of c <$> version_paths) with
  | Some v => v
  | None => EmptyString
  end.

(** [COALESCE(parameters->'Device...'->>'value', parameters->'Internet...'->>'value', '')]:
    the first version that is present, empty or not. *)
Definition coalesced_firmware (c : Cache) : string :=
  match omap (λ path, c !! path) version_paths with
  | v :: _ => cv_Value v
  | [] => EmptyString
  end.

(** [GetNames]: [None] when discovery has never run; a stale tree has no names. *)
Definition GetNames (p : Params) (dev : string) : option (gmap string bool * bool) :=
  match p_names p !! dev with
  | None => None
  | Some r => Some (if nr_stale r then ∅ else nr_names r, nr_stale r)
  end.

(** ** Upsert *)

(** The first software version that changes from a known value, with the root
    to walk and the one to fall back to. *)
Definition version_change (current values : Cache) : option (string * string * string) :=
  let changed path :=
    match values !! path, current !! path with
    | Some updated, Some old =>
        if String.eqb (cv_Value old) "" || String.eqb (cv_Value old) (cv_Value updated) then None
        else Some (cv_Value updated)
    | _, _ => None
    end in
  match changed "Device.DeviceInfo.SoftwareVersion" with
  | Some fw => Some ("Device.", "InternetGatewayDevice.", fw)
  | None =>
      match changed "InternetGatewayDevice.DeviceInfo.SoftwareVersion" with
      | Some fw => Some ("InternetGatewayDevice.", "Device.", fw)
      | None => None
      end
  end.

Definition set_stale (r : NamesRow) : NamesRow :=
  mkNames (nr_names r) (nr_capabilities r) true (nr_firmware r) (nr_discovered_at r).

Definition unqualify (d : Device) : Device :=
  let p := d_profile d in
  mkDevice (d_identity d) (d_Manufacturer d) (d_presence d) (d_ownership d) (d_reach d) (d_DataModelRoot d)
    (d_DataModelRootConfirmedAt d) (d_CWMPAuthMode d)
    (mkProfile (pr_ID p) (pr_MatchedBy p) false (pr_Evidence p) (pr_AssignedAt p)) (d_management_protocols d) (d_LastUpdatedAt d).

Definition changed_value (current : Cache) (kv : string * CachedValue) : bool :=
  match current !! kv.1 with
  | Some prev => negb (String.eqb (cv_Value prev) (cv_Value kv.2))
  | None => true
  end.

Definition history_row (dev : string) (kv : string * CachedValue) : HistoryRow :=
  mkHistory dev kv.1 (cv_Value kv.2) (if String.eqb (cv_Type kv.2) "" then None else Some (cv_Type kv.2))
    (cv_Source kv.2) (cv_UpdatedAt kv.2).

(** The rows added to the history are those of the values that changed; their
    order is that of Go's [range], which readers never see (they sort by time). *)
Definition Upsert (uuid key_uuid : string) (now : GoTime) (dev : string) (values0 : Cache)
    (params : Params) (devices : Devices) (jobs : gmap string Job)
  : result (Params * Devices * gmap string Job) :=
  if (size values0 =? 0)%nat then Ok (params, devices, jobs)
  else
    let values := redactSecrets values0 in
    let current := cache_of params dev in
    if negb (is_some (devices !! dev)) then Err "foreign key violation"
    else
      try r <- match version_change current values with
               | None => Ok (p_names params, devices, jobs)
               | Some (root, fallback, fw) =>
                   match queue_firmware_discovery uuid key_uuid now dev root fallback fw jobs with
                   | (Ok _, jobs') => Ok (alter set_stale dev (p_names params), on_device dev unqualify devices, jobs')
                   | (Err e, _) => Err e
                   end
               end;
      let '(names, devices', jobs') := r in
      Ok (mkParams (<[dev := values ∪ current]> (p_cache params))
            (p_history params ++ (history_row dev <$> List.filter (changed_value current) (map_to_list values)))
            names (p_snapshots params) (p_operations params) (p_instances params), devices', jobs').

(** ** Subtrees *)

Definition with_dot (path : string) : string := if HasSuffix path "." then path else (path ++ ".")%string.

Definition outside (root name : string) : bool := negb (HasPrefix name root).

Definition InvalidateSubtree (dev objPath : string) (params : Params) : result Params :=
  if String.eqb objPath ""
  then Err "invalidate parameter cache subtree: empty objPath would invalidate the whole cache"
  else match p_cache params !! dev with
       | None => Ok params
       | Some current =>
           Ok (mkParams (<[dev := filter (λ kv, outside (with_dot objPath) kv.1 = true) current]> (p_cache params))
                 (p_history params) (p_names params) (p_snapshots params) (p_operations params) (p_instances params))
       end.

Definition ErrNoDiscovery : string := "device has no discovered parameter tree to merge into".

(** [left(key, length(root)) <> root], and the names outside [root] that the
    device reported are dropped. *)
Definition MergeDiscoveredSubtree (dev root : string) (names : gmap string bool) (params : Params)
  : result Params :=
  if negb (HasSuffix root ".") then Err "merge root must end in '.'"
  else match p_names params !! dev with
       | None => Err ErrNoDiscovery
       | Some r =>
           let kept := filter (λ kv, outside root kv.1 = true) (nr_names r) in
           let scoped := filter (λ kv, HasPrefix kv.1 root = true) names in
           Ok (mkParams (p_cache params) (p_history params)
                 (<[dev := mkNames (scoped ∪ kept) (nr_capabilities r) (nr_stale r) (nr_firmware r) (nr_discovered_at r)]> (p_names params))
                 (p_snapshots params) (p_operations params) (p_instances params))
       end.

(** ** Discovery snapshots and evidence *)

Definition ErrFirmwareChanged : string :=
  "firmware changed during discovery; completed tree cannot be published".

(** Newest first, with the order the rows had among equal times:
    [ORDER BY discovered_at DESC, id DESC] when the newest row is put first. *)
Section newest.
Context {A : Type} (at_ : A → GoTime).

Definition newer (a b : A) : Prop := at_ b <= at_ a.

#[global] Instance newer_dec : RelDecision newer.
Proof. intros a b. unfold Decision, newer. apply Z_le_dec. Defined.

Definition newest_first (l : list A) : list A := merge_sort newer l.

End newest.

(** [SaveDiscovery]: archives the snapshot, keeping the last twenty, and
    publishes it with the firmware it was read under. *)
Definition SaveDiscovery (now : GoTime) (dev expectedFirmware key protocol root : string)
    (names : gmap string bool) (caps : list SupportedCapability)
    (devices : Devices) (params : Params) : result Params :=
  if negb (is_some (devices !! dev)) then Err "sql: no rows in result set"
  else
    let firmware := coalesced_firmware (cache_of params dev) in
    if negb (String.eqb expectedFirmware "") && negb (String.eqb expectedFirmware firmware)
    then Err ErrFirmwareChanged
    else
      let old := default [] (p_snapshots params !! dev) in
      let archive := if existsb (λ s, String.eqb (ds_CommandKey s) key) old then old
                     else mkSnapshot key protocol root names caps firmware now :: old in
      Ok (mkParams (p_cache params) (p_history params)
            (<[dev := mkNames names caps false firmware now]> (p_names params))
            (<[dev := take 20 (newest_first ds_DiscoveredAt archive)]> (p_snapshots params))
            (p_operations params) (p_instances params)).

(** [SaveNames]: the tree alone; the evidence and the capabilities are cleared. *)
Definition SaveNames (now : GoTime) (dev : string) (names : gmap string bool) (devices : Devices)
    (params : Params) : result Params :=
  if negb (is_some (devices !! dev)) then Err "foreign key violation"
  else Ok (mkParams (p_cache params) (p_history params)
             (<[dev := mkNames names [] false EmptyString now]> (p_names params))
             (p_snapshots params) (p_operations params) (p_instances params)).

(** [SaveCapabilities]: the names are those of the capabilities with a path, the
    last one winning; the evidence of an existing row is kept. *)
Definition capability_names (caps : list SupportedCapability) : gmap string bool :=
  foldl (λ m c, if String.eqb (sc_Path c) "" then m else <[sc_Path c := sc_Writable c]> m) ∅ caps.

Definition SaveCapabilities (now : GoTime) (dev : string) (caps : list SupportedCapability) (devices : Devices)
    (params : Params) : result Params :=
  if negb (is_some (devices !! dev)) then Err "foreign key violation"
  else
    let row := match p_names params !! dev with
               | Some r => mkNames (capability_names caps) caps (nr_stale r) (nr_firmware r) now
               | None => mkNames (capability_names caps) caps false EmptyString now
               end in
    Ok (mkParams (p_cache params) (p_history params) (<[dev := row]> (p_names params))
          (p_snapshots params) (p_operations params) (p_instances params)).

(** [RecordOperation]: one row per command key, the hundred newest kept. *)
Definition RecordOperation (now : GoTime) (dev key operation : string) (success : bool) (paths : list string)
    (expectedFirmware : option string) (devices : Devices) (params : Params) : result Params :=
  let firmware := Firmware (cache_of params dev) in
  if match expectedFirmware with Some e => negb (String.eqb e firmware) | None => false end then Err ErrFirmwareChanged
  else if negb (is_some (devices !! dev)) then Err "foreign key violation"
  else
    let old := default [] (p_operations params !! dev) in
    let rows := if existsb (λ o, String.eqb (op_command_key o) key) old then old
                else mkOperation key firmware operation success paths now :: old in
    Ok (mkParams (p_cache params) (p_history params) (p_names params) (p_snapshots params)
          (<[dev := take 100 (newest_first op_tested_at rows)]> (p_operations params)) (p_instances params)).

(** [OperationSummary]: whether a read and a write succeeded on this firmware. *)
Definition OperationSummary (params : Params) (dev firmware : string) : bool * bool :=
  let ok kind := existsb (λ o, String.eqb (op_firmware o) firmware && String.eqb (op_operation o) kind
                               && op_success o) (default [] (p_operations params !! dev)) in
  (ok "READ", ok "WRITE").

(** [strconv.ParseUint(s, 10, 32)] *)
Definition ParseUint32 (s : string) : option Z :=
  if negb (String.eqb s "") && forall_bytes is_digit s then
    match digits_value 0 s with
    | Some v => if v <? 2 ^ 32 then Some v else None
    | None => None
    end
  else None.

Definition TrimSuffix (s suf : string) : string :=
  if HasSuffix s suf then String.substring 0 (String.length s - String.length suf) s else s.

(** The first row that is refused, with the reason. *)
Fixpoint check_instances (path : string) (instances : list string) : option string :=
  match instances with
  | [] => None
  | instance :: rest =>
      if negb (HasPrefix instance path) || negb (HasSuffix instance ".") || Contains instance "{i}"
      then Some "invalid instantiated path"
      else match ParseUint32 (TrimSuffix (TrimPrefix instance path) ".") with
           | Some n => if n =? 0 then Some "GetInstances returned a non-immediate or invalid row"
                       else check_instances path rest
           | None => Some "GetInstances returned a non-immediate or invalid row"
           end
  end.

Definition SaveInstances (now : GoTime) (dev path firmware : string) (instances : list string)
    (devices : Devices) (params : Params) : result Params :=
  if (2048 <? length instances)%nat then Err "instance discovery exceeds 2048 rows per table"
  else match check_instances path instances with
  | Some e => Err e
  | None =>
      if negb (String.eqb (Firmware (cache_of params dev)) firmware) then Err ErrFirmwareChanged
      else if negb (is_some (devices !! dev)) then Err "foreign key violation"
      else
        let old := List.filter (λ e, negb (String.eqb (ie_Path e) path)) (default [] (p_instances params !! dev)) in
        let rows := mkInstances path firmware instances now :: old in
        Ok (mkParams (p_cache params) (p_history params) (p_names params) (p_snapshots params)
              (p_operations params) (<[dev := take 100 (newest_first ie_DiscoveredAt rows)]> (p_instances params)))
  end.

(** Evidence counts for a day, on the same firmware, and not from the future. *)
Definition evidence_current (firmware : string) (now : GoTime) (e : InstanceEvidence) : bool :=
  String.eqb (ie_Firmware e) firmware && negb (24 * Hour <? now - ie_DiscoveredAt e)
  && negb (now + Minute <? ie_DiscoveredAt e).

(** The prefixes of a path that end in a number, with the closing dot. *)
Fixpoint instance_prefixes (seen : list string) (parts : list string) : list string :=
  match parts with
  | [] => []
  | part :: rest =>
      let seen' := seen ++ [part] in
      (if is_some (ParseUint32 part) then [(Join seen' "." ++ ".")%string] else [])
      ++ instance_prefixes seen' rest
  end.

Definition instance_known (firmware : string) (evidence : list InstanceEvidence) (now : GoTime) (i : string) : bool :=
  existsb (λ e, evidence_current firmware now e && existsb (String.eqb i) (ie_Instances e)) evidence.

(** [RequireInstances]: the first instance without current evidence, if any. *)
Definition RequireInstances (path firmware : string) (evidence : list InstanceEvidence) (now : GoTime)
  : option string :=
  List.find (λ i, negb (instance_known firmware evidence now i)) (instance_prefixes [] (Split path ".")).

(** ** Subscriber identifiers *)

(** [path[strings.LastIndex(path, ".")+1:]] *)
Definition leaf (path : string) : string := List.last (Split path ".") EmptyString.

Definition SubscriberIMSI : string := "imsi".
Definition SubscriberICCID : string := "iccid".
Definition SubscriberMSISDN : string := "msisdn".
Definition SubscriberIMEI : string := "imei".
Definition SubscriberEID : string := "eid".
Definition SubscriberSecret : string := "secret".

Definition SubscriberIdentifierKind (path : string) : string :=
  let upper := ToUpper (leaf path) in
  if String.eqb upper "" then ""
  else if Contains path ".USIM." && (String.eqb upper "PIN" || String.eqb upper "PINCHECK" || String.eqb upper "PUK")
  then SubscriberSecret
  else if HasSuffix upper "IMSI" then SubscriberIMSI
  else if HasSuffix upper "ICCID" then SubscriberICCID
  else if HasSuffix upper "MSISDN" then SubscriberMSISDN
  else if HasSuffix upper "IMEI" || HasSuffix upper "IMEISV" then SubscriberIMEI
  else if String.eqb upper "EID" || HasSuffix upper "_EID" then SubscriberEID
  else "".

(** The bullet is U+2022, three bytes of UTF-8. *)
Definition bullet : string :=
  String (ascii_of_nat 226) (String (ascii_of_nat 128) (String (ascii_of_nat 162) EmptyString)).

Fixpoint Repeat (s : string) (n : nat) : string :=
  match n with O => EmptyString | S n' => (s ++ Repeat s n')%string end.

Definition keepHead (kind : string) : nat :=
  if String.eqb kind SubscriberIMSI then 5%nat
  else if String.eqb kind SubscriberIMEI then 8%nat
  else if String.eqb kind SubscriberICCID then 2%nat
  else 0%nat.

Definition keepTail : nat := 4%nat.

Definition MaskSubscriberIdentifier (kind value0 : string) : string :=
  if String.eqb kind "" then value0
  else if String.eqb kind SubscriberSecret then ""
  else
    let value := TrimSpace value0 in
    if String.eqb value "" then value
    else
      let n := String.length value in
      let head := keepHead kind in
      if (n <=? head + keepTail)%nat then Repeat bullet n
      else (String.substring 0 head value ++ Repeat bullet (n - head - keepTail)
            ++ String.substring (n - keepTail) keepTail value)%string.

Definition redact_identifier (full : bool) (name : string) (v : CachedValue) : CachedValue :=
  let kind := SubscriberIdentifierKind name in
  if negb (String.eqb kind "") && (negb full || String.eqb kind SubscriberSecret)
  then mkCached (MaskSubscriberIdentifier kind (cv_Value v)) (cv_Type v) (cv_UpdatedAt v) (cv_Source v)
  else v.

Definition RedactSubscriberIdentifiers (cached : Cache) (full : bool) : Cache :=
  map_imap (λ name v, Some (redact_identifier full name v)) cached.
