(* ===== verification/ParamTheorems.v ===== *)
(** * The parameter repository: theorems

    No secret ever reaches the cache or its history; an update merges and
    records exactly what changed; a software version that changes withdraws the
    discovered tree and queues a walk; the subtree operations touch the names
    under their root and no other; masking a subscriber identifier discloses
    the kept ends and nothing in between. *)

From S2P Require Import Prelude GoStrings Json JobModel JobStore Devices ParamCache.

(** ** Secrets *)

Definition value_clean (name value : string) : bool :=
  String.eqb value "" || String.eqb value SecretRedacted || negb (IsSecretParameter name).

Definition cache_clean (c : Cache) : Prop := map_Forall (λ name v, value_clean name (cv_Value v) = true) c.

Record params_clean (p : Params) : Prop := mk_params_clean {
  clean_cache : map_Forall (λ _ c, cache_clean c) (p_cache p);
  clean_history : Forall (λ h, value_clean (h_name h) (h_value h) = true) (p_history p)
}.

Lemma redact_value_clean name v : value_clean name (cv_Value (redact_value name v)) = true.
Proof.
  unfold redact_value. destruct (_ || _ || _) eqn:E; [done|].
  unfold value_clean. cbn [cv_Value]. by rewrite String.eqb_refl, orb_true_r.
Qed.

Lemma redactSecrets_clean values : cache_clean (redactSecrets values).
Proof.
  intros name v. unfold redactSecrets. rewrite map_lookup_imap.
  destruct (values !! name); simpl; [|done]. intros [= <-]. apply redact_value_clean.
Qed.

Lemma cache_of_clean p dev : params_clean p → cache_clean (cache_of p dev).
Proof.
  intros [Hc _]. unfold cache_of. destruct (p_cache p !! dev) eqn:E; simpl; [by apply (Hc dev)|].
  by intros ?? ?%lookup_empty_Some.
Qed.

Lemma cache_clean_union a b : cache_clean a → cache_clean b → cache_clean (a ∪ b).
Proof. apply map_Forall_union_2. Qed.

Lemma history_clean dev c (l : list (string * CachedValue)) :
  cache_clean c → l ⊆ map_to_list c →
  Forall (λ h, value_clean (h_name h) (h_value h) = true) (history_row dev <$> l).
Proof.
  intros Hc Hl. apply Forall_fmap, Forall_forall. intros [name v] Hin. simpl.
  apply Hc. apply elem_of_map_to_list. by apply Hl.
Qed.

Lemma filter_subseteq (f : string * CachedValue → bool) l : List.filter f l ⊆ l.
Proof. intros x. rewrite !list_elem_of_In, filter_In. tauto. Qed.

(** ** The shape of an update *)

(** What [Upsert] writes when it succeeds. *)
Lemma Upsert_ok uuid ku now dev values params devices jobs p' d' j' :
  Upsert uuid ku now dev values params devices jobs = Ok (p', d', j') →
  values = ∅ ∧ p' = params ∧ d' = devices ∧ j' = jobs ∨
  values ≠ ∅ ∧ is_Some (devices !! dev) ∧
  p_cache p' = <[dev := redactSecrets values ∪ cache_of params dev]> (p_cache params) ∧
  p_history p' = p_history params ++
    (history_row dev <$> List.filter (changed_value (cache_of params dev)) (map_to_list (redactSecrets values))) ∧
  match version_change (cache_of params dev) (redactSecrets values) with
  | None => p_names p' = p_names params ∧ d' = devices ∧ j' = jobs
  | Some (root, fallback, fw) =>
      p_names p' = alter set_stale dev (p_names params) ∧ d' = on_device dev unqualify devices ∧
      queue_firmware_discovery uuid ku now dev root fallback fw jobs = (Ok tt, j')
  end.
Proof.
  unfold Upsert. destruct (size values =? 0)%nat eqn:Hs.
  { intros [= <- <- <-]. left. apply Nat.eqb_eq, map_size_empty_inv in Hs. done. }
  apply Nat.eqb_neq in Hs. assert (values ≠ ∅) as Hne by (intros ->; by rewrite map_size_empty in Hs).
  destruct (devices !! dev) as [d|] eqn:Hd; [|done]. simpl. intros H. right.
  split; [done|]. split; [by eexists|].
  destruct (version_change _ _) as [[[root fb] fw]|]; simpl in H.
  - destruct (queue_firmware_discovery _ _ _ _ _ _ _ _) as [[[]|] jobs']; simpl in H; [|done].
    injection H as <- <- <-. done.
  - injection H as <- <- <-. done.
Qed.

(** ** Reachable states *)

Record ParamState : Type := mkParamState {
  ps_params : Params;
  ps_devices : Devices;
  ps_jobs : Jobs
}.

(** A writer of the repository, or any other change of the other tables. *)
Inductive param_step : ParamState → ParamState → Prop :=
| ps_upsert uuid ku now dev values p d j p' d' j' :
    Upsert uuid ku now dev values p d j = Ok (p', d', j') →
    param_step (mkParamState p d j) (mkParamState p' d' j')
| ps_invalidate dev path p d j p' :
    InvalidateSubtree dev path p = Ok p' → param_step (mkParamState p d j) (mkParamState p' d j)
| ps_merge dev root names p d j p' :
    MergeDiscoveredSubtree dev root names p = Ok p' → param_step (mkParamState p d j) (mkParamState p' d j)
| ps_discovery now dev fw key protocol root names caps p d j p' :
    SaveDiscovery now dev fw key protocol root names caps d p = Ok p' →
    param_step (mkParamState p d j) (mkParamState p' d j)
| ps_names_saved now dev names p d j p' :
    SaveNames now dev names d p = Ok p' → param_step (mkParamState p d j) (mkParamState p' d j)
| ps_capabilities now dev caps p d j p' :
    SaveCapabilities now dev caps d p = Ok p' → param_step (mkParamState p d j) (mkParamState p' d j)
| ps_operation now dev key op success paths fw p d j p' :
    RecordOperation now dev key op success paths fw d p = Ok p' →
    param_step (mkParamState p d j) (mkParamState p' d j)
| ps_instances now dev path fw instances p d j p' :
    SaveInstances now dev path fw instances d p = Ok p' →
    param_step (mkParamState p d j) (mkParamState p' d j)
| ps_elsewhere p d j d' j' : param_step (mkParamState p d j) (mkParamState p d' j').

Inductive params_reachable : ParamState → Prop :=
| params_initial d j : params_reachable (mkParamState no_params d j)
| params_after s s' : params_reachable s → param_step s s' → params_reachable s'.

(** The writers other than [Upsert] leave the history alone and only remove
    from the cache. *)
Definition only_removes (p p' : Params) : Prop :=
  p_history p' = p_history p ∧ ∀ dev, cache_of p' dev ⊆ cache_of p dev.

Lemma only_removes_same p p' : p_cache p' = p_cache p → p_history p' = p_history p → only_removes p p'.
Proof. intros Hc Hh. split; [done|]. intros dev. unfold cache_of. by rewrite Hc. Qed.

Lemma cache_of_insert dev c p ch hs nm sn op ins dev' :
  p_cache p = ch →
  cache_of (mkParams (<[dev := c]> ch) hs nm sn op ins) dev' = if decide (dev = dev') then c else cache_of p dev'.
Proof.
  intros <-. unfold cache_of. simpl. rewrite lookup_insert. by destruct (decide (dev = dev')).
Qed.

Lemma InvalidateSubtree_only_removes dev path p p' :
  InvalidateSubtree dev path p = Ok p' → only_removes p p'.
Proof.
  unfold InvalidateSubtree. destruct (String.eqb path ""); [done|].
  destruct (p_cache p !! dev) as [c|] eqn:Hc; intros [= <-]; [|by apply only_removes_same].
  split; [done|]. intros dev'. rewrite (cache_of_insert _ _ p) by done.
  destruct (decide (dev = dev')) as [<-|]; [|done].
  unfold cache_of. rewrite Hc. simpl. apply map_filter_subseteq.
Qed.

Lemma params_clean_only_removes p p' : only_removes p p' → params_clean p → params_clean p'.
Proof.
  intros [Hh Hc] Hok. split; [|rewrite Hh; by apply clean_history].
  intros dev c Hd. specialize (Hc dev). unfold cache_of at 1 in Hc. rewrite Hd in Hc. simpl in Hc.
  intros name v Hv. apply (cache_of_clean _ dev Hok). by eapply lookup_weaken.
Qed.

Ltac other_writer H :=
  repeat break_match_hyp H; try discriminate; injection H as <-; by apply only_removes_same.

Lemma param_step_clean s s' : param_step s s' → params_clean (ps_params s) → params_clean (ps_params s').
Proof.
  destruct 1; simpl; intros Hok; [| |..|done].
  2-8: eapply params_clean_only_removes; [|done].
  - apply Upsert_ok in H as [(_ & -> & _)|(_ & _ & Hc & Hh & _)]; [done|].
    pose proof (redactSecrets_clean values). split.
    + rewrite Hc. apply map_Forall_insert_2; [|by apply clean_cache].
      apply cache_clean_union; [done|by apply cache_of_clean].
    + rewrite Hh. apply Forall_app. split; [by apply clean_history|].
      eapply history_clean; [done|]. apply filter_subseteq.
  - by eapply InvalidateSubtree_only_removes.
  - unfold MergeDiscoveredSubtree in H. other_writer H.
  - unfold SaveDiscovery in H. other_writer H.
  - unfold SaveNames in H. other_writer H.
  - unfold SaveCapabilities in H. cbv zeta in H. repeat break_match_hyp H; try discriminate;
      injection H as <-; by apply only_removes_same.
  - unfold RecordOperation in H. other_writer H.
  - unfold SaveInstances in H. other_writer H.
Qed.

Lemma reachable_params_clean s : params_reachable s → params_clean (ps_params s).
Proof.
  induction 1; [|by eapply param_step_clean].
  split; [|constructor]. apply map_Forall_empty.
Qed.

(** C37: in every reachable state, a parameter with a secret name has no value
    but the empty one or the redaction mark, in the cache of every device
    ([GetCache] is what the API serves) and in every row of the history. *)
Theorem cache_holds_no_secret s dev name v h :
  params_reachable s → IsSecretParameter name = true →
  (GetCache (ps_params s) dev !! name = Some v → cv_Value v = EmptyString ∨ cv_Value v = SecretRedacted) ∧
  (h ∈ p_history (ps_params s) → h_name h = name → h_value h = EmptyString ∨ h_value h = SecretRedacted).
Proof.
  intros Hr Hs. apply reachable_params_clean in Hr as Hok.
  assert (∀ x, value_clean name x = true → x = EmptyString ∨ x = SecretRedacted) as Hv.
  { intros x. unfold value_clean. rewrite Hs, orb_false_r. rewrite orb_true_iff, !String.eqb_eq. done. }
  split.
  - intros Hl. apply Hv. by apply (cache_of_clean _ dev Hok name v).
  - intros Hin <-. apply Hv. apply clean_history in Hok. rewrite Forall_forall in Hok. by apply Hok.
Qed.

(** ** Updates *)

(** An update of a known device merges: every reported name has the reported
    value, redacted when it is secret, every other name keeps its own, no other
    device is touched, and the history gains exactly one row per name whose
    value changed. *)
Theorem upsert_merges_and_records uuid ku now dev values params devices jobs p' d' j' :
  values ≠ ∅ →
  Upsert uuid ku now dev values params devices jobs = Ok (p', d', j') →
  (∀ name, GetCache p' dev !! name =
     match values !! name with
     | Some v => Some (redact_value name v)
     | None => GetCache params dev !! name
     end) ∧
  (∀ dev', dev' ≠ dev → GetCache p' dev' = GetCache params dev') ∧
  ∃ changed, p_history p' = p_history params ++ (history_row dev <$> changed) ∧ NoDup changed.*1 ∧
    ∀ name v, (name, v) ∈ changed ↔
      (∃ v0, values !! name = Some v0 ∧ v = redact_value name v0) ∧
      cv_Value <$> GetCache params dev !! name ≠ Some (cv_Value v).
Proof.
  intros Hne [(-> & _)|(_ & _ & Hc & Hh & _)]%Upsert_ok; [done|].
  assert (∀ name, redactSecrets values !! name = redact_value name <$> values !! name) as Hr.
  { intros name. unfold redactSecrets. rewrite map_lookup_imap. by destruct (values !! name). }
  split; [|split].
  - intros name. unfold GetCache, cache_of at 1. rewrite Hc, lookup_insert_eq. simpl.
    rewrite lookup_union, Hr. unfold cache_of.
    by destruct (values !! name); simpl; [rewrite union_Some_l|rewrite (left_id_L None union)].
  - intros dev' Hd. unfold GetCache, cache_of. by rewrite Hc, lookup_insert_ne.
  - eexists. split; [exact Hh|]. split.
    + eapply sublist_NoDup; [apply (NoDup_fst_map_to_list (redactSecrets values))|].
      generalize (map_to_list (redactSecrets values)) as l.
      induction l as [|x l IH]; simpl; [done|]. destruct (changed_value _ x); by constructor.
    + intros name v. rewrite list_elem_of_In, filter_In, <- list_elem_of_In, elem_of_map_to_list, Hr.
      unfold changed_value, GetCache. cbn [fst snd]. rewrite fmap_Some.
      apply and_iff_compat_l. destruct (cache_of params dev !! name) as [prev|]; [|by split].
      rewrite negb_true_iff, String.eqb_neq. simpl. split; congruence.
Qed.

(** ** A new software version *)

Lemma redact_version path v : path ∈ version_paths → redact_value path v = v.
Proof.
  intros Hin. unfold redact_value. replace (IsSecretParameter path) with false; [by rewrite orb_true_r|].
  unfold version_paths in Hin.
  repeat (apply elem_of_cons in Hin as [->|Hin]; [by vm_compute|]). by apply not_elem_of_nil in Hin.
Qed.

Lemma version_change_some current values path old v :
  path ∈ version_paths → current !! path = Some old → cv_Value old ≠ EmptyString →
  values !! path = Some v → cv_Value v ≠ cv_Value old →
  ∃ root fallback fw, version_change current values = Some (root, fallback, fw).
Proof.
  intros Hin Hc Hne Hv Hd. unfold version_change. unfold version_paths in Hin.
  assert ((String.eqb (cv_Value old) "" || String.eqb (cv_Value old) (cv_Value v)) = false) as Ho.
  { apply orb_false_iff. split; apply String.eqb_neq; congruence. }
  repeat (apply elem_of_cons in Hin as [->|Hin]; [rewrite ?Hc, ?Hv, ?Ho; repeat break_match_goal; eauto|]).
  by apply not_elem_of_nil in Hin.
Qed.

Lemma queue_firmware_discovery_leaves_one uuid ku now dev root fb fw jobs :
  jobs !! uuid = None → (∀ j, j ∈ rows jobs → CommandKey j ≠ ("discover-" ++ ku)%string) →
  ∃ jobs', queue_firmware_discovery uuid ku now dev root fb fw jobs = (Ok tt, jobs') ∧
    ∃ j, j ∈ rows jobs' ∧ active_discovery dev j = true.
Proof.
  intros Hu Hk. unfold queue_firmware_discovery. destruct (existsb _ _) eqn:E.
  { eexists. split; [reflexivity|]. apply existsb_exists in E as (j & Hj & Ha).
    exists j. split; [by apply list_elem_of_In|done]. }
  set (j := firmware_discovery_job uuid ku now dev root fb fw).
  unfold insert_job. replace (unique_ok jobs j) with true.
  - eexists. split; [reflexivity|]. exists j. split; [|by unfold active_discovery; simpl; rewrite String.eqb_refl].
    apply elem_of_rows. exists uuid. apply lookup_insert_eq.
  - symmetry. unfold unique_ok. apply andb_true_iff. change (ID j) with uuid. rewrite Hu. split; [done|].
    apply forallb_forall. intros r Hr. apply negb_true_iff, String.eqb_neq, Hk. by apply list_elem_of_In.
Qed.

(** When a device whose software version is known reports another one, the
    update succeeds and, in the same transaction, its discovered tree is
    withdrawn ([GetNames] serves no writable name), its profile is no longer
    qualified, and a discovery is queued or already running. *)
Theorem firmware_change_withdraws_the_tree uuid ku now dev path old v values params devices jobs d :
  devices !! dev = Some d → path ∈ version_paths →
  GetCache params dev !! path = Some old → cv_Value old ≠ EmptyString →
  values !! path = Some v → cv_Value v ≠ cv_Value old →
  jobs !! uuid = None → (∀ j, j ∈ rows jobs → CommandKey j ≠ ("discover-" ++ ku)%string) →
  ∃ p' d' j', Upsert uuid ku now dev values params devices jobs = Ok (p', d', j') ∧
    (∀ names stale, GetNames p' dev = Some (names, stale) → names = ∅ ∧ stale = true) ∧
    (∃ dv, d' !! dev = Some dv ∧ d_ProfileQualified dv = false) ∧
    ∃ j, j ∈ rows j' ∧ active_discovery dev j = true.
Proof.
  intros Hd Hin Hold Hne Hv Hdiff Hu Hk. unfold GetCache in Hold.
  assert (redactSecrets values !! path = Some v) as Hv'.
  { unfold redactSecrets. rewrite map_lookup_imap, Hv. simpl. by rewrite redact_version. }
  destruct (version_change_some _ _ _ _ _ Hin Hold Hne Hv' Hdiff) as (root & fb & fw & Hc).
  destruct (queue_firmware_discovery_leaves_one uuid ku now dev root fb fw jobs Hu Hk) as (jobs' & Hq & Hj).
  eexists _, _, jobs'. split; [|split; [|split; [|exact Hj]]].
  - unfold Upsert. replace (size values =? 0)%nat with false.
    + rewrite Hd. cbn [is_some negb]. rewrite Hc, Hq. reflexivity.
    + symmetry. apply Nat.eqb_neq. intros ->%map_size_empty_inv. by rewrite lookup_empty in Hv.
  - intros names stale. unfold GetNames. cbn [p_names]. rewrite lookup_alter_eq.
    destruct (p_names params !! dev); simpl; [|done]. by intros [= <- <-].
  - exists (unqualify d). split; [|done]. unfold on_device. by rewrite lookup_alter_eq, Hd.
Qed.

(** ** Subtrees *)

(** Dropping or replacing a subtree changes exactly the names under its
    root: an [InvalidateSubtree] removes them from the cache, and a
    [MergeDiscoveredSubtree] replaces them by the reported names under the
    root, ignoring any the device reports outside of it. *)
Theorem subtree_operations_are_exact dev root names params p' :
  (InvalidateSubtree dev root params = Ok p' →
     ∀ name, GetCache p' dev !! name =
       if HasPrefix name (with_dot root) then None else GetCache params dev !! name) ∧
  (MergeDiscoveredSubtree dev root names params = Ok p' →
     ∃ r r', p_names params !! dev = Some r ∧ p_names p' !! dev = Some r' ∧
       ∀ name, nr_names r' !! name = if HasPrefix name root then names !! name else nr_names r !! name).
Proof.
  split.
  - unfold InvalidateSubtree, GetCache. destruct (String.eqb root ""); [done|].
    destruct (p_cache params !! dev) as [c|] eqn:Hc; intros [= <-] name.
    + rewrite (cache_of_insert _ _ params) by done. rewrite decide_True by done.
      unfold cache_of. rewrite Hc. simpl. rewrite map_lookup_filter. unfold outside. simpl.
      destruct (c !! name); simpl; destruct (HasPrefix name (with_dot root)); simpl; by repeat case_guard.
    + unfold cache_of. rewrite Hc. simpl. rewrite lookup_empty. by destruct (HasPrefix _ _).
  - unfold MergeDiscoveredSubtree. destruct (negb _); [done|].
    destruct (p_names params !! dev) as [r|]; [|done]. intros [= <-].
    eexists r, _. split; [done|]. split; [apply lookup_insert_eq|]. intros name. simpl.
    rewrite lookup_union, !map_lookup_filter. unfold outside. simpl.
    destruct (names !! name), (nr_names r !! name), (HasPrefix name root); simpl; by repeat case_guard.
Qed.

(** ** Subscriber identifiers *)

(** What masking discloses of a value: its ends, when there is a middle. *)
Definition disclosed (kind value : string) : nat * option (string * string) :=
  let v := TrimSpace value in
  let n := String.length v in
  (n, if (n <=? keepHead kind + keepTail)%nat then None
      else Some (String.substring 0 (keepHead kind) v, String.substring (n - keepTail) keepTail v)).

Definition shown (kind : string) (d : nat * option (string * string)) : string :=
  if String.eqb kind SubscriberSecret then EmptyString
  else match d.2 with
       | None => Repeat bullet d.1
       | Some (head, tail) => (head ++ Repeat bullet (d.1 - keepHead kind - keepTail) ++ tail)%string
       end.

(** Masking factors through what it discloses. *)
Lemma Mask_shown kind v : kind ≠ EmptyString → MaskSubscriberIdentifier kind v = shown kind (disclosed kind v).
Proof.
  intros Hk. unfold MaskSubscriberIdentifier, shown, disclosed.
  rewrite (proj2 (String.eqb_neq _ _) Hk). destruct (String.eqb kind SubscriberSecret); [done|].
  destruct (String.eqb (TrimSpace v) "") eqn:E; cbn [fst snd].
  - apply String.eqb_eq in E. by rewrite E.
  - by destruct (_ <=? _)%nat.
Qed.

(** What a caller without subscriber access is served for an identifier is a
    function of its length, its first characters (five of an IMSI, eight of an
    IMEI, two of an ICCID, none of the others) and its last four: two devices
    whose identifiers agree there are served the same, and one too short to have
    a middle discloses its length alone; a SIM credential is blank for every caller, and any
    other parameter is served as it is. *)
Theorem masking_discloses_only_the_ends c1 c2 full name v1 v2 :
  c1 !! name = Some v1 → c2 !! name = Some v2 →
  let kind := SubscriberIdentifierKind name in
  let served c := cv_Value <$> RedactSubscriberIdentifiers c full !! name in
  (kind = SubscriberSecret → served c1 = Some EmptyString) ∧
  (kind ≠ EmptyString → full = false → disclosed kind (cv_Value v1) = disclosed kind (cv_Value v2) →
     served c1 = served c2) ∧
  (kind = EmptyString → served c1 = Some (cv_Value v1)).
Proof.
  intros H1 H2 kind served. unfold served, RedactSubscriberIdentifiers.
  rewrite !map_lookup_imap, H1, H2. simpl. unfold redact_identifier. fold kind.
  split; [|split].
  - intros ->. by rewrite orb_true_r.
  - intros Hk -> Hd. rewrite (proj2 (String.eqb_neq _ _) Hk). simpl. f_equal.
    rewrite !Mask_shown by done. by rewrite Hd.
  - intros ->. simpl. done.
Qed.

(** ** Witnesses *)

Definition psk_path : string := "Device.WiFi.AccessPoint.1.Security.KeyPassphrase".
Definition version_path : string := "Device.DeviceInfo.SoftwareVersion".
Definition imsi_path : string := "Device.Cellular.Interface.1.USIM.IMSI".

Definition w_value (s : string) : CachedValue := mkCached s "xsd:string" 5 "INFORM".
Definition w_registry : Devices := (PreRegister "d-1" 3 "0000CA-S1" "Nokia" "0000CA" "FastMile" "S1" (Some "tenant-a") [] ∅).2.
Definition w_report : Cache :=
  <[psk_path := w_value "hunter2hunter2"]> (<[version_path := w_value "1.0"]> ∅).
Definition w_upgrade : Cache := <[version_path := w_value "2.0"]> ∅.

Definition w_first : Params * Devices * Jobs :=
  match Upsert "j-0" "k-0" 6 "d-1" w_report no_params w_registry ∅ with
  | Ok r => r
  | Err _ => (no_params, ∅, ∅)
  end.

Lemma w_first_ok : Upsert "j-0" "k-0" 6 "d-1" w_report no_params w_registry ∅ = Ok w_first.
Proof. vm_compute. reflexivity. Qed.

Lemma cache_holds_no_secret_witness :
  ∃ v, GetCache w_first.1.1 "d-1" !! psk_path = Some v ∧
    (cv_Value v = EmptyString ∨ cv_Value v = SecretRedacted).
Proof.
  exists (redact_value psk_path (w_value "hunter2hunter2")).
  assert (GetCache w_first.1.1 "d-1" !! psk_path = Some (redact_value psk_path (w_value "hunter2hunter2"))) as H
    by (vm_compute; reflexivity).
  split; [exact H|].
  refine (proj1 (cache_holds_no_secret (mkParamState w_first.1.1 w_first.1.2 w_first.2) "d-1" psk_path _
    (mkHistory "" "" "" None "" 0) _ _) H); [|vm_compute; reflexivity].
  eapply params_after; [apply (params_initial w_registry ∅)|].
  eapply ps_upsert. rewrite w_first_ok. by destruct w_first as [[]].
Defined.

Lemma upsert_merges_and_records_witness :
  GetCache w_first.1.1 "d-1" !! version_path = Some (redact_value version_path (w_value "1.0")).
Proof.
  assert (w_report ≠ ∅) as Hne by (intros H; apply (f_equal (lookup psk_path)) in H; revert H; vm_compute; discriminate).
  destruct (upsert_merges_and_records "j-0" "k-0" 6 "d-1" w_report no_params w_registry ∅ w_first.1.1 w_first.1.2
    w_first.2 Hne) as [H _]; [rewrite w_first_ok; by destruct w_first as [[]]|].
  rewrite (H version_path). vm_compute. reflexivity.
Defined.

Lemma firmware_change_withdraws_the_tree_witness :
  ∃ p' d' j', Upsert "j-1" "k-1" 8 "d-1" w_upgrade w_first.1.1 w_first.1.2 w_first.2 = Ok (p', d', j') ∧
    ∃ j, j ∈ rows j' ∧ active_discovery "d-1" j = true.
Proof.
  destruct (w_first.1.2 !! "d-1") as [d|] eqn:Hd; [|revert Hd; vm_compute; discriminate].
  destruct (firmware_change_withdraws_the_tree "j-1" "k-1" 8 "d-1" version_path (w_value "1.0") (w_value "2.0")
    w_upgrade w_first.1.1 w_first.1.2 w_first.2 d Hd) as (p' & d' & j' & H & _ & _ & Hj).
  - by left.
  - vm_compute. reflexivity.
  - discriminate.
  - vm_compute. reflexivity.
  - discriminate.
  - vm_compute. reflexivity.
  - intros j Hj. assert (rows w_first.2 = []) as E by (vm_compute; reflexivity).
    rewrite E in Hj. exact (False_ind _ (not_elem_of_nil _ Hj)).
  - exists p', d', j'. split; [exact H|exact Hj].
Defined.

Lemma masking_discloses_only_the_ends_witness :
  let c v := <[imsi_path := w_value v]> (∅ : Cache) in
  cv_Value <$> RedactSubscriberIdentifiers (c "655011234567890") false !! imsi_path =
  cv_Value <$> RedactSubscriberIdentifiers (c "655019999997890") false !! imsi_path.
Proof.
  intros c.
  refine (proj1 (proj2 (masking_discloses_only_the_ends (c "655011234567890") (c "655019999997890") false imsi_path
    (w_value "655011234567890") (w_value "655019999997890") _ _)) _ eq_refl _); vm_compute; done.
Defined.
