(* ===== verification/Onboarding.v ===== *)
(** * Onboarding ([internal/onboarding], [cmd/acs/onboarding.go])

    A sale is recorded before its device ever connects and moves from PLANNED to
    IN_SERVICE as the device's Informs show what is true of it: the state
    machine ([state.go]), the plans ([types.go]), the resolution of cellular
    settings against a discovered data model ([cellular.go]), the statements on
    the sales ([store.go]) and the reconciler that the gateway runs.

    Go's [range] over a map visits the entries in no fixed order, so the
    functions that stop at the first match take that order as an argument. *)

From S2P Require Import Prelude GoStrings Credentials Regex Protected Json JobModel JobStore Devices ParamCache.

(** ** Data *)

Inductive OnbState : Type :=
| StatePlanned | StateContacted | StateSecured | StateDiscovered | StateConfiguring
| StateInService | StateOnHold | StateFailed | StateCancelled | StateEnded.

#[global] Instance OnbState_eq_dec : EqDecision OnbState.
Proof. solve_decision. Defined.

Record CellularProfile : Type := mkCellular {
  cp_APN : string;
  cp_DNN : string;
  cp_MTU : Z;
  cp_BootstrapAPN : string
}.

Definition profile_empty (c : CellularProfile) : bool :=
  String.eqb (cp_APN c) "" && String.eqb (cp_DNN c) "" && (cp_MTU c =? 0) && String.eqb (cp_BootstrapAPN c) "".

Record ServicePlan : Type := mkPlan {
  pl_ID : string;
  pl_CustomerID : option string;
  pl_Code : string;
  pl_Name : string;
  pl_TemplateIDs : list string;
  pl_Cellular : CellularProfile;
  pl_AllowedPLMNs : list string;
  pl_RequireDiscovery : bool
}.

(** A nil plan writes nothing and allows every network. *)
Definition HasConfiguration (plan : option ServicePlan) : bool :=
  match plan with
  | None => false
  | Some p => negb (length (pl_TemplateIDs p) =? 0)%nat || negb (profile_empty (pl_Cellular p))
  end.

Definition plmn_allows (imsi plmn0 : string) : bool :=
  let plmn := TrimSpace plmn0 in negb (String.eqb plmn "") && HasPrefix imsi plmn.

Definition AllowsIMSI (plan : option ServicePlan) (imsi : string) : bool :=
  match plan with
  | None => true
  | Some p => (length (pl_AllowedPLMNs p) =? 0)%nat || existsb (plmn_allows imsi) (pl_AllowedPLMNs p)
  end.

(** What a sale says, never changed after it is recorded. *)
Record Sale : Type := mkSale {
  s_ID : string;
  s_CustomerID : option string;
  s_ExpectedOUI : string;
  s_ExpectedSerial : string;
  s_ExpectedIMEI : string;
  s_ExpectedICCID : string;
  s_ExpectedIMSI : string;
  s_AccountRef : string;
  s_Role : string;
  s_CommercialModel : string;
  s_Source : string;
  s_ExternalRef : string;
  s_RequestedBy : string;
  s_BSSRole : string;
  s_CreatedAt : GoTime
}.

Record Onboarding : Type := mkOnboarding {
  o_sale : Sale;
  o_DeviceID : option string;
  o_SiteID : option string;
  o_ServicePlanID : option string;
  o_BSSServicePlan : string;
  o_State : OnbState;
  o_StateReason : string;
  o_StateCode : string;
  o_ConfigJobs : list string;
  o_UpdatedAt : GoTime;
  o_ContactedAt : option GoTime;
  o_InServiceAt : option GoTime;
  o_EndedAt : option GoTime
}.

Definition Open (o : Onboarding) : bool :=
  negb (bool_decide (o_State o = StateInService)) && negb (bool_decide (o_State o = StateCancelled))
  && negb (bool_decide (o_State o = StateEnded)).

Abbreviation Sales := (gmap string Onboarding).

(** ** The state machine ([state.go]) *)

Record Facts : Type := mkFacts {
  f_Informed : bool;
  f_Secured : bool;
  f_Discovered : bool;
  f_ICCID : string;
  f_IMSI : string;
  f_ConfigPending : Z;
  f_ConfigDone : Z;
  f_ConfigFailed : Z;
  f_ConfigError : string
}.

Record Decision_ : Type := mkDecision {
  dc_State : OnbState;
  dc_Reason : string;
  dc_Code : string;
  dc_ReadSIM : bool;
  dc_Configure : bool
}.

Definition stay (st : OnbState) (reason code : string) : Decision_ := mkDecision st reason code false false.

Definition CodeDeviceOtherCustomer : string := "DEVICE_OTHER_CUSTOMER".
Definition CodeSIMMismatch : string := "SIM_MISMATCH".
Definition CodePLMNNotAllowed : string := "PLMN_NOT_ALLOWED".
Definition CodeSIMUnreadable : string := "SIM_UNREADABLE".
Definition CodeConfigFailed : string := "CONFIG_FAILED".
Definition CodeWaitingSIMRead : string := "WAITING_SIM_READ".
Definition CodeWaitingOwnCredential : string := "WAITING_OWN_CREDENTIAL".
Definition CodeWaitingDiscovery : string := "WAITING_DISCOVERY".
Definition CodeWaitingConfig : string := "WAITING_CONFIG".
Definition CodeTTLExpired : string := "TTL_EXPIRED".

Definition mismatch_reason (what kind expected reported : string) : string :=
  ("SIM does not match the sale: expected " ++ what ++ " " ++ MaskSubscriberIdentifier kind expected
   ++ ", device reports " ++ MaskSubscriberIdentifier kind reported)%string.

Definition allowed_plmns (plan : option ServicePlan) : list string :=
  match plan with Some p => pl_AllowedPLMNs p | None => [] end.

(** [Some d]: the onboarding must not advance. *)
Definition checkSIM (o : Onboarding) (plan : option ServicePlan) (f : Facts) : option Decision_ :=
  let s := o_sale o in
  let iccid := TrimSpace (f_ICCID f) in
  let imsi := TrimSpace (f_IMSI f) in
  let needICCID := negb (String.eqb (s_ExpectedICCID s) "") in
  let plmns := negb (length (allowed_plmns plan) =? 0)%nat in
  let needIMSI := negb (String.eqb (s_ExpectedIMSI s) "") || plmns in
  if needICCID && negb (String.eqb iccid "") && negb (String.eqb iccid (TrimSpace (s_ExpectedICCID s)))
  then Some (stay StateOnHold (mismatch_reason "ICCID" SubscriberICCID (s_ExpectedICCID s) iccid) CodeSIMMismatch)
  else if negb (String.eqb (s_ExpectedIMSI s) "") && negb (String.eqb imsi "")
          && negb (String.eqb imsi (TrimSpace (s_ExpectedIMSI s)))
  then Some (stay StateOnHold (mismatch_reason "IMSI" SubscriberIMSI (s_ExpectedIMSI s) imsi) CodeSIMMismatch)
  else if negb (String.eqb imsi "") && plmns && negb (AllowsIMSI plan imsi)
  then Some (stay StateOnHold ("SIM belongs to network " ++ String.substring 0 5 imsi ++ "; the plan allows "
                               ++ Join (allowed_plmns plan) ", ")%string CodePLMNNotAllowed)
  else if needICCID && String.eqb iccid "" || needIMSI && String.eqb imsi ""
  then Some (mkDecision StateContacted "waiting for the SIM identifiers" CodeWaitingSIMRead true false)
  else None.

Definition evaluate_configuring (f : Facts) : Decision_ :=
  if 0 <? f_ConfigFailed f
  then stay StateFailed ("configuration failed: " ++ f_ConfigError f)%string CodeConfigFailed
  else if 0 <? f_ConfigPending f
  then stay StateConfiguring (Itoa (f_ConfigPending f) ++ " configuration job(s) waiting for the device")%string
         CodeWaitingConfig
  else stay StateInService "" "".

Definition evaluate_discovered (plan : option ServicePlan) : Decision_ :=
  if HasConfiguration plan then mkDecision StateConfiguring "" "" false true else stay StateInService "" "".

Definition requires_discovery (plan : option ServicePlan) : bool :=
  match plan with Some p => pl_RequireDiscovery p | None => false end.

Definition evaluate_secured (plan : option ServicePlan) (f : Facts) : Decision_ :=
  if requires_discovery plan && negb (f_Discovered f)
  then stay StateSecured "waiting for parameter discovery" CodeWaitingDiscovery
  else evaluate_discovered plan.

Definition evaluate_contacted (o : Onboarding) (plan : option ServicePlan) (f : Facts) : Decision_ :=
  match checkSIM o plan f with
  | Some d => d
  | None =>
      if negb (f_Secured f)
      then stay StateContacted "waiting for the device to authenticate with its own credential"
             CodeWaitingOwnCredential
      else evaluate_secured plan f
  end.

(** The stages of the source fall through to the next one, so each is a
    function that ends in the next. *)
Definition Evaluate (o : Onboarding) (plan : option ServicePlan) (f : Facts) : Decision_ :=
  match o_State o with
  | StateInService | StateCancelled | StateEnded | StateFailed | StateOnHold =>
      stay (o_State o) (o_StateReason o) (o_StateCode o)
  | StatePlanned => if negb (f_Informed f) then stay StatePlanned "" "" else evaluate_contacted o plan f
  | StateContacted => evaluate_contacted o plan f
  | StateSecured => evaluate_secured plan f
  | StateDiscovered => evaluate_discovered plan
  | StateConfiguring => evaluate_configuring f
  end.

(** ** Cellular settings ([cellular.go]) *)

Record Write : Type := mkWrite { w_Name : string; w_Value : string; w_Type : string }.

Definition digits_of_prefix : regex := RLit "Device.Cellular.AccessPoint.".
Definition apnRE : regex := RCat [digits_of_prefix; RDigits; RLit ".APN"].
Definition r_interface : regex := RCat [RLit "Device.Cellular.Interface."; RDigits].
Definition bootstrapAPNRE : regex := RCat [r_interface; RLit ".X_"; r_name; RLit "_APNForBootstrap"].
Definition iccidRE : regex := RCat [r_interface; RLit ".USIM.ICCID"].
Definition imsiRE : regex := RCat [r_interface; RLit ".USIM.IMSI"].

(** The instance number of an access point: [m[1]] of [apnRE] through
    [strconv.Atoi], which returns the largest int when the digits overflow. *)
Definition apn_index (name : string) : option Z :=
  if MatchString apnRE name then
    match digits_value 0 (TrimSuffix (TrimPrefix name "Device.Cellular.AccessPoint.") ".APN") with
    | Some i => Some (Z.min i max_int64)
    | None => None
    end
  else None.

(** [ap] of the source: the lowest index, -1 when there is none. *)
Definition lowest_access_point (order : list string) : Z :=
  foldl (λ ap name, match apn_index name with
                    | Some i => if (ap <? 0) || (i <? ap) then i else ap
                    | None => ap
                    end) (-1) order.

(** [vendorLeaf]: [^prefix X_[A-Za-z0-9_-]+ suffix$], the first in [range] order. *)
Definition vendorLeaf (order : list string) (prefix suffix : string) : string :=
  match List.find (MatchString (RCat [RLit prefix; RLit "X_"; r_name; RLit suffix])) order with
  | Some name => name
  | None => EmptyString
  end.

(** [add]: nothing is written that is empty, not writable or already so. *)
Definition add_write (names : gmap string bool) (cache : Cache) (path value typ : string) : list Write :=
  if String.eqb path "" || String.eqb value "" || negb (default false (names !! path))
     || String.eqb (value_of cache path) value
  then [] else [mkWrite path value typ].

Definition CellularWrites (order : list string) (p : CellularProfile) (names : gmap string bool) (cache : Cache)
  : list Write :=
  if profile_empty p then []
  else
    let ap := lowest_access_point order in
    (if 0 <=? ap then
       let prefix := ("Device.Cellular.AccessPoint." ++ Itoa ap ++ ".")%string in
       add_write names cache (prefix ++ "APN")%string (cp_APN p) "xsd:string"
       ++ add_write names cache (vendorLeaf order prefix "_DNN") (cp_DNN p) "xsd:string"
       ++ (if 0 <? cp_MTU p
           then add_write names cache (vendorLeaf order prefix "_APNMTU") (Itoa (cp_MTU p)) "xsd:unsignedInt"
           else [])
     else [])
    ++ match List.find (MatchString bootstrapAPNRE) order with
       | Some name => add_write names cache name (cp_BootstrapAPN p) "xsd:string"
       | None => []
       end.

(** [SIMIdentifiers]: the first value that is not empty, of each kind. *)
Definition SIMIdentifiers (order : list (string * CachedValue)) : string * string :=
  foldl (λ '(iccid, imsi) '(name, v),
    if String.eqb iccid "" && MatchString iccidRE name then (cv_Value v, imsi)
    else if String.eqb imsi "" && MatchString imsiRE name then (iccid, cv_Value v)
    else (iccid, imsi)) (EmptyString, EmptyString) order.

Definition is_sim_path (name : string) : bool := MatchString iccidRE name || MatchString imsiRE name.

Definition SIMReadPaths (names : gmap string bool) : list string :=
  match List.filter is_sim_path (map_to_list names).*1 with
  | [] => ["Device.Cellular.Interface.1.USIM.ICCID"; "Device.Cellular.Interface.1.USIM.IMSI"]
  | out => SortStrings out
  end.

(** ** Sales ([store.go]) *)

Definition ErrNotFound : string := "onboarding: not found".
Definition ErrOpenOnboardingExists : string := "an open onboarding already exists for this serial number".
Definition ErrOtherTenant : string := "onboarding: the device belongs to another customer".

(** [onboardings_open_serial_idx]: another open sale for the serial. *)
Definition open_for_serial (serial : string) (o : Onboarding) : bool :=
  Open o && String.eqb (s_ExpectedSerial (o_sale o)) serial.

Definition default_to (s d : string) : string := if String.eqb s "" then d else s.

Definition role_ok (role : string) : bool := existsb (String.eqb role) ["gateway"; "extender"; "ont"; "other"].
Definition model_ok (m : string) : bool := existsb (String.eqb m) ["retail"; "wholesale"; "enterprise"].
Definition source_ok (s : string) : bool := existsb (String.eqb s) ["console"; "bss"; "import"].

(** [Create]: the fields of [o] that the statement inserts; [refs_ok] says that
    the customer, device, site and plan it names exist. *)
Definition planned (uuid : string) (now : GoTime) (o : Onboarding) : Onboarding :=
  let s := o_sale o in
  mkOnboarding
    (mkSale uuid (s_CustomerID s) (ToUpper (TrimSpace (s_ExpectedOUI s))) (TrimSpace (s_ExpectedSerial s))
       (TrimSpace (s_ExpectedIMEI s)) (TrimSpace (s_ExpectedICCID s)) (TrimSpace (s_ExpectedIMSI s))
       (TrimSpace (s_AccountRef s)) (default_to (s_Role s) "gateway") (default_to (s_CommercialModel s) "retail")
       (s_Source s) (s_ExternalRef s) (s_RequestedBy s) (s_BSSRole s) now)
    (o_DeviceID o) (o_SiteID o) (o_ServicePlanID o) (o_BSSServicePlan o) StatePlanned "" "" [] now None None None.

Definition insert_sale (refs_ok : bool) (o : Onboarding) (tab : Sales) : result Onboarding * Sales :=
  let s := o_sale o in
  if negb refs_ok then (Err "foreign key violation", tab)
  else if negb (role_ok (s_Role s) && model_ok (s_CommercialModel s) && source_ok (s_Source s))
  then (Err "check constraint violation", tab)
  else if is_some (tab !! s_ID s) then (Err "duplicate key value violates unique constraint", tab)
  else if existsb (open_for_serial (s_ExpectedSerial s)) (rows tab) then (Err ErrOpenOnboardingExists, tab)
  else (Ok o, <[s_ID s := o]> tab).

Definition CreateSale (refs_ok : bool) (uuid : string) (now : GoTime) (o : Onboarding) (tab : Sales)
  : result Onboarding * Sales :=
  if String.eqb (TrimSpace (s_ExpectedSerial (o_sale o))) "" then (Err "expected_serial is required", tab)
  else insert_sale refs_ok (planned uuid now o) tab.

Definition OpenBySerial (tab : Sales) (serial : string) : option Onboarding :=
  List.find (open_for_serial (TrimSpace serial)) (rows tab).

Definition bound_to (deviceID : string) (o : Onboarding) : bool :=
  match o_DeviceID o with Some d => String.eqb d deviceID | None => false end.

Definition planned_for (oui serial : string) (o : Onboarding) : bool :=
  negb (is_some (o_DeviceID o)) && String.eqb (s_ExpectedSerial (o_sale o)) serial
  && (String.eqb (s_ExpectedOUI (o_sale o)) "" || String.eqb (s_ExpectedOUI (o_sale o)) (ToUpper oui)).

(** [OpenForDevice]: a bound sale before an unbound one. *)
Definition OpenForDevice (tab : Sales) (deviceID oui serial : string) : option Onboarding :=
  match List.find (λ o, Open o && bound_to deviceID o) (rows tab) with
  | Some o => Some o
  | None => List.find (λ o, Open o && planned_for oui serial o) (rows tab)
  end.

(** The row [Apply] writes. *)
Definition applied (now : GoTime) (d : Decision_) (deviceID : string) (configJobs : option (list string))
    (o : Onboarding) : Onboarding :=
  mkOnboarding (o_sale o)
    (match o_DeviceID o with
     | Some x => Some x
     | None => if String.eqb deviceID "" then None else Some deviceID
     end)
    (o_SiteID o) (o_ServicePlanID o) (o_BSSServicePlan o) (dc_State d) (dc_Reason d) (dc_Code d)
    (match configJobs with Some keys => keys | None => o_ConfigJobs o end) now
    (match o_ContactedAt o with
     | Some t => Some t
     | None => if bool_decide (dc_State d = StatePlanned) then None else Some now
     end)
    (if bool_decide (dc_State d = StateInService) then Some now else o_InServiceAt o) (o_EndedAt o).

(** [customer_id IS NULL OR $3 IS NULL OR customer_id = $3] *)
Definition may_join (sale_customer : option string) (d : Device) : bool :=
  match d_CustomerID (d_ownership d), sale_customer with
  | Some c, Some c' => String.eqb c c'
  | _, _ => true
  end.

Definition assign (now : GoTime) (o : Onboarding) (d : Device) : Device :=
  let w := d_ownership d in
  mkDevice (d_identity d) (d_Manufacturer d) (d_presence d)
    (mkOwnership (match d_CustomerID w with Some c => Some c | None => s_CustomerID (o_sale o) end)
       (match o_SiteID o with Some site => Some site | None => d_SiteID w end) (d_Tags w) (d_ReenrollUntil w))
    (d_reach d) (d_DataModelRoot d) (d_DataModelRootConfirmedAt d) (d_CWMPAuthMode d) (d_profile d)
    (d_management_protocols d) now.

(** [Apply]: [o] is the sale as it was read. The device update runs in the same
    transaction, which an error rolls back. *)
Definition Apply (now : GoTime) (o : Onboarding) (d : Decision_) (deviceID : string)
    (configJobs : option (list string)) (tab : Sales) (devices : Devices)
  : result bool * Sales * Devices :=
  let id := s_ID (o_sale o) in
  let '(tab', n) := update_key id (λ r, bool_decide (o_State r = o_State o)) (applied now d deviceID configJobs) tab in
  if n =? 0 then (Ok false, tab, devices)
  else if bool_decide (o_State o = StatePlanned) && negb (String.eqb deviceID "")
  then match devices !! deviceID with
       | Some dv => if may_join (s_CustomerID (o_sale o)) dv
                    then (Ok true, tab', <[deviceID := assign now o dv]> devices)
                    else (Err ErrOtherTenant, tab, devices)
       | None => (Err ErrOtherTenant, tab, devices)
       end
  else (Ok true, tab', devices).

Definition set_sale_state (now : GoTime) (st : OnbState) (reason code : string) (jobs : list string) (o : Onboarding)
  : Onboarding :=
  mkOnboarding (o_sale o) (o_DeviceID o) (o_SiteID o) (o_ServicePlanID o) (o_BSSServicePlan o) st reason code jobs
    now (o_ContactedAt o) (o_InServiceAt o) (o_EndedAt o).

(** [exec]: no row is [ErrNotFound]. *)
Definition exec_sale (id : string) (p : Onboarding → bool) (f : Onboarding → Onboarding) (tab : Sales)
  : result unit * Sales :=
  let '(tab', n) := update_key id p f tab in
  if n =? 0 then (Err ErrNotFound, tab) else (Ok tt, tab').

Definition Retry (now : GoTime) (id : string) : Sales → result unit * Sales :=
  exec_sale id (λ o, bool_decide (o_State o = StateFailed) || bool_decide (o_State o = StateOnHold))
    (λ o, set_sale_state now (if is_some (o_DeviceID o) then StateContacted else StatePlanned) "" "" [] o).

Definition CancelWithReason (now : GoTime) (id reason : string) : Sales → result unit * Sales :=
  exec_sale id Open (λ o, set_sale_state now StateCancelled reason "" (o_ConfigJobs o) o).

Definition Cancel (now : GoTime) (id : string) : Sales → result unit * Sales :=
  exec_sale id Open (λ o, set_sale_state now StateCancelled (o_StateReason o) (o_StateCode o) (o_ConfigJobs o) o).

Definition expirable (now : GoTime) (source : string) (ttl : GoDuration) (o : Onboarding) : bool :=
  String.eqb (s_Source (o_sale o)) source && bool_decide (o_State o = StatePlanned)
  && negb (is_some (o_DeviceID o)) && (o_UpdatedAt o <? now - ttl).

Definition older_sale (a b : Onboarding) : Prop := o_UpdatedAt a <= o_UpdatedAt b.
#[global] Instance older_sale_dec : RelDecision older_sale.
Proof. intros a b. unfold Decision, older_sale. apply Z_le_dec. Defined.

(** [ExpireUncontacted]: up to [limit] of the rows no other transaction holds,
    oldest first. *)
Definition expired_ids (locked : string → bool) (now : GoTime) (source : string) (ttl : GoDuration) (limit : nat)
    (tab : Sales) : list string :=
  (λ o, s_ID (o_sale o)) <$>
    take limit (merge_sort older_sale
      (List.filter (λ o, expirable now source ttl o && negb (locked (s_ID (o_sale o)))) (rows tab))).

Definition ExpireUncontacted (locked : string → bool) (now : GoTime) (source : string) (ttl : GoDuration)
    (reason : string) (limit : nat) (tab : Sales) : Sales :=
  let ids := expired_ids locked now source ttl limit tab in
  (update_where (λ o, existsb (String.eqb (s_ID (o_sale o))) ids)
     (λ o, set_sale_state now StateCancelled reason CodeTTLExpired (o_ConfigJobs o) o) tab).1.

(** [ConfigOutcome]: pending, done, failed, and the first error in creation order. *)
Record Outcome : Type := mkOutcome { oc_pending : Z; oc_done : Z; oc_failed : Z; oc_error : string }.

Definition count_job (acc : Outcome) (j : Job) : Outcome :=
  match Status j with
  | StatusSuccess => mkOutcome (oc_pending acc) (oc_done acc + 1) (oc_failed acc) (oc_error acc)
  | StatusFailed | StatusTimeout =>
      mkOutcome (oc_pending acc) (oc_done acc) (oc_failed acc + 1)
        (if String.eqb (oc_error acc) ""
         then default_to (coalesce (FaultString j) EmptyString)
                (if status_eqb (Status j) StatusFailed then "FAILED" else "TIMEOUT")
         else oc_error acc)
  | _ => mkOutcome (oc_pending acc + 1) (oc_done acc) (oc_failed acc) (oc_error acc)
  end.

Definition earlier_job (a b : Job) : Prop := CreatedAt a <= CreatedAt b.
#[global] Instance earlier_job_dec : RelDecision earlier_job.
Proof. intros a b. unfold Decision, earlier_job. apply Z_le_dec. Defined.

Definition config_jobs_of (tab : gmap string Job) (keys : list string) : list Job :=
  merge_sort earlier_job (List.filter (λ j, existsb (String.eqb (CommandKey j)) keys) (rows tab)).

Definition ConfigOutcome (tab : gmap string Job) (keys : list string) : Outcome :=
  let found := config_jobs_of tab keys in
  let acc := foldl count_job (mkOutcome 0 0 0 EmptyString) found in
  mkOutcome (oc_pending acc + (Z.of_nat (length keys) - Z.of_nat (length found))) (oc_done acc) (oc_failed acc)
    (oc_error acc).

(** ** The reconciler ([cmd/acs/onboarding.go]) *)

Record OnbWorld : Type := mkWorld {
  ow_sales : Sales;
  ow_plans : gmap string ServicePlan;
  ow_templates : gmap string (list ParameterWrite);
  ow_credentials : gmap string Credential;
  ow_devices : Devices;
  ow_params : Params;
  ow_jobs : gmap string Job
}.

Definition set_jobs (w : OnbWorld) (jobs : gmap string Job) : OnbWorld :=
  mkWorld (ow_sales w) (ow_plans w) (ow_templates w) (ow_credentials w) (ow_devices w) (ow_params w) jobs.

(** [deviceSecured]: a certificate, or an active Digest credential of its own. *)
Definition deviceSecured (w : OnbWorld) (d : Device) : bool :=
  bool_decide (d_CWMPAuthMode d = AuthModeMTLS)
  || is_some (ActiveForDevice (ow_credentials w) (d_ID (d_identity d)) TypeCWMPDigest).

(** [readSIMForOnboarding]: the decision may become "unreadable"; a read is
    queued when none of the sale's is open. *)
Definition readSIMForOnboarding (fr : Fresh) (now : GoTime) (deviceID creator0 : string) (names : gmap string bool)
    (d : Decision_) (jobs : gmap string Job) : Decision_ * gmap string Job :=
  let paths := SIMReadPaths names in
  if negb (size names =? 0)%nat && negb (is_some (names !! hd EmptyString paths))
  then (mkDecision (dc_State d) "the device reports no SIM identifiers to check against the sale"
          CodeSIMUnreadable (dc_ReadSIM d) (dc_Configure d), jobs)
  else
    let creator := (creator0 ++ ":sim")%string in
    if HasOpenJobByCreator jobs deviceID creator then (d, jobs)
    else (d, (Create false fr now deviceID TypeGetParameter
                (encode_GetParameter (mkGetParameterPayload "" false paths false "")) creator jobs).2).

(** [queueOnboardingConfiguration]: the templates in the plan's order, the
    cellular writes last; [frs] gives the identifiers of the jobs it creates. A
    missing template stops it before anything is queued. *)
Fixpoint load_templates (templates : gmap string (list ParameterWrite)) (ids : list string)
  : result (list (list ParameterWrite)) :=
  match ids with
  | [] => Ok []
  | id :: rest =>
      match templates !! id with
      | None => Err ("template " ++ id ++ ": config template not found")%string
      | Some ps =>
          try more <- load_templates templates rest;
          Ok (((λ p, mkParameterWrite (pw_Name p) (pw_Value p) (pw_Type p) "") <$> ps) :: more)
      end
  end.

Fixpoint queue_writes (frs : nat → Fresh) (i : nat) (now : GoTime) (deviceID creator : string)
    (writes : list (list ParameterWrite)) (keys : list string) (jobs : gmap string Job)
  : list string * option string * gmap string Job :=
  match writes with
  | [] => (keys, None, jobs)
  | [] :: rest => queue_writes frs i now deviceID creator rest keys jobs
  | params :: rest =>
      match Create false (frs i) now deviceID TypeSetParameter
              (encode_SetParameter (mkSetParameterPayload "" false [] params true false)) creator jobs with
      | (Err e, jobs') => (keys, Some e, jobs')
      | (Ok job, jobs') => queue_writes frs (S i) now deviceID creator rest (keys ++ [CommandKey job]) jobs'
      end
  end.

Definition queueOnboardingConfiguration (frs : nat → Fresh) (now : GoTime) (order : list string)
    (deviceID creator : string) (plan : ServicePlan) (names : gmap string bool) (cache : Cache)
    (templates : gmap string (list ParameterWrite)) (jobs : gmap string Job)
  : list string * option string * gmap string Job :=
  match load_templates templates (pl_TemplateIDs plan) with
  | Err e => ([], Some e, jobs)
  | Ok writes =>
      let cellular := (λ w, mkParameterWrite (w_Name w) (w_Value w) (w_Type w) "")
                        <$> CellularWrites order (pl_Cellular plan) names cache in
      queue_writes frs 0 now deviceID creator (writes ++ [cellular]) [] jobs
  end.

Definition gather_facts (w : OnbWorld) (o : Onboarding) (d : Device) (names : gmap string bool)
    (cache_order : list (string * CachedValue)) : Facts :=
  let '(iccid, imsi) := SIMIdentifiers cache_order in
  let oc := if (length (o_ConfigJobs o) =? 0)%nat then mkOutcome 0 0 0 EmptyString
            else ConfigOutcome (ow_jobs w) (o_ConfigJobs o) in
  mkFacts true (deviceSecured w d) (negb (size names =? 0)%nat) iccid imsi
    (oc_pending oc) (oc_done oc) (oc_failed oc) (oc_error oc).

Definition other_customer (o : Onboarding) (d : Device) : bool :=
  bool_decide (o_State o = StatePlanned)
  && match d_CustomerID (d_ownership d), s_CustomerID (o_sale o) with
     | Some c, Some c' => negb (String.eqb c c')
     | _, _ => false
     end.

(** The decision of one pass, with the device to bind and the jobs queued. *)
Definition decide_onboarding (frs : nat → Fresh) (now : GoTime) (names_order : list string)
    (cache_order : list (string * CachedValue)) (onInform : bool) (o : Onboarding) (plan : option ServicePlan)
    (d : Device) (w : OnbWorld) : Decision_ * string * option (list string) * gmap string Job :=
  let dev := d_ID (d_identity d) in
  let names := match GetNames (ow_params w) dev with Some (n, _) => n | None => ∅ end in
  let cache := GetCache (ow_params w) dev in
  let d0 := Evaluate o plan (gather_facts w o d names cache_order) in
  let '(d1, bindTo) := if other_customer o d
                       then (stay StateOnHold "the device already belongs to another customer" CodeDeviceOtherCustomer,
                             EmptyString)
                       else (d0, dev) in
  let creator := ("onboarding:" ++ s_ID (o_sale o))%string in
  let '(d2, jobs) := if dc_ReadSIM d1 && onInform
                     then readSIMForOnboarding (frs 0%nat) now dev creator names d1 (ow_jobs w)
                     else (d1, ow_jobs w) in
  match dc_Configure d2, plan with
  | true, Some p =>
      match queueOnboardingConfiguration frs now names_order dev creator p names cache (ow_templates w) jobs with
      | (keys, None, jobs') => (d2, bindTo, Some keys, jobs')
      | (keys, Some e, jobs') =>
          (stay StateFailed ("configuration could not be queued: " ++ e)%string CodeConfigFailed,
           bindTo, Some keys, jobs')
      end
  | _, _ => (d2, bindTo, None, jobs)
  end.

Definition reconcile_with (frs : nat → Fresh) (now : GoTime) (names_order : list string)
    (cache_order : list (string * CachedValue)) (onInform : bool) (o : Onboarding) (plan : option ServicePlan)
    (d : Device) (w : OnbWorld) : OnbWorld * bool :=
  let '(dc, bindTo, configJobs, jobs) :=
    decide_onboarding frs now names_order cache_order onInform o plan d w in
  let queued := match configJobs with Some keys => negb (length keys =? 0)%nat | None => false end in
  if bool_decide (dc_State dc = o_State o) && String.eqb (dc_Reason dc) (o_StateReason o)
     && negb (is_some configJobs)
  then (set_jobs w jobs, false)
  else
    let '(_, sales, devices) := Apply now o dc bindTo configJobs (ow_sales w) (ow_devices w) in
    (mkWorld sales (ow_plans w) (ow_templates w) (ow_credentials w) devices (ow_params w) jobs, queued).

(** [reconcileOnboarding]: one pass for an informing device. *)
Definition reconcileOnboarding (frs : nat → Fresh) (now : GoTime) (names_order : list string)
    (cache_order : list (string * CachedValue)) (onInform : bool) (d : Device) (w : OnbWorld) : OnbWorld * bool :=
  match OpenForDevice (ow_sales w) (d_ID (d_identity d)) (d_OUI (d_identity d)) (d_SerialNumber (d_identity d)) with
  | None => (w, false)
  | Some o =>
      match o_ServicePlanID o with
      | Some id => match ow_plans w !! id with
                   | None => (w, false)
                   | Some p => reconcile_with frs now names_order cache_order onInform o (Some p) d w
                   end
      | None => reconcile_with frs now names_order cache_order onInform o None d w
      end
  end.
