(* ===== verification/Lifecycle.v ===== *)
(** * Lifecycle of a sale in service ([internal/lifecycle])

    Ending a service, swapping its device, moving it to another site or plan.
    Each runs in one transaction over the sales, the account mappings, the
    devices and the subscriber profiles, so a failure leaves all four as they
    were. Device labels, coordinates and project memberships, which ending a
    service also clears, are columns the device model leaves out. *)

From S2P Require Import Prelude GoStrings Devices Onboarding.

Record Mapping : Type := mkMapping {
  m_ID : string;
  m_AccountID : string;
  m_DeviceID : string;
  m_Role : string;
  m_ServicePlan : string;
  m_UnassignedAt : option GoTime;
  m_UnassignReason : string
}.

Definition active (m : Mapping) : bool := negb (is_some (m_UnassignedAt m)).

Record Profile : Type := mkProfile {
  pf_DisplayName : option string;
  pf_NameSource : option string;
  pf_VIP : bool
}.

Record Archived : Type := mkArchived {
  ar_AccountID : string;
  ar_profile : Profile;
  ar_reason : string;
  ar_by : string
}.

Record Site : Type := mkSite { si_ID : string; si_CustomerID : option string }.

Record Service : Type := mkService {
  sv_sales : Sales;
  sv_devices : Devices;
  sv_mappings : gmap string Mapping;
  sv_profiles : gmap string Profile;
  sv_archive : list Archived;
  sv_sites : gmap string Site;
  sv_plans : gmap string ServicePlan
}.

Definition ErrNotInService : string := "the sale is not in service".
Definition ErrSerialInUse : string := "the replacement serial already has an open sale".
Definition ErrDeviceMoved : string := "the device now belongs to another customer than the sale".

Definition reasonText (reason : string) : option string :=
  if String.eqb reason "return" then Some "service ended: device returned"
  else if String.eqb reason "rma" then Some "service ended: device faulty (RMA)"
  else if String.eqb reason "upgrade" then Some "service ended: device replaced by a newer one"
  else if String.eqb reason "moved" then Some "service ended: moved to another account"
  else if String.eqb reason "corrected" then Some "service ended: sold in error"
  else None.

Definition ValidReason (reason : string) : bool := is_some (reasonText reason).

(** [lockInService]: the device of a sale in service that still owns it. *)
Definition lockInService (sv : Service) (id : string) : result string :=
  match sv_sales sv !! id with
  | None => Err ErrNotFound
  | Some o =>
      match o_DeviceID o with
      | Some dev =>
          if negb (bool_decide (o_State o = StateInService)) then Err ErrNotInService
          else match sv_devices sv !! dev with
               | None => Err "lock device: sql: no rows in result set"
               | Some d =>
                   if is_some (s_CustomerID (o_sale o))
                      && negb (bool_decide (d_CustomerID (d_ownership d) = s_CustomerID (o_sale o)))
                   then Err ErrDeviceMoved else Ok dev
               end
      | None => Err ErrNotInService
      end
  end.

Definition ended (now : GoTime) (text : string) (o : Onboarding) : Onboarding :=
  mkOnboarding (o_sale o) (o_DeviceID o) (o_SiteID o) (o_ServicePlanID o) (o_BSSServicePlan o) StateEnded text ""
    (o_ConfigJobs o) now (o_ContactedAt o) (o_InServiceAt o) (Some now).

Definition unassign (now : GoTime) (reason : string) (m : Mapping) : Mapping :=
  mkMapping (m_ID m) (m_AccountID m) (m_DeviceID m) (m_Role m) (m_ServicePlan m) (Some now) reason.

Definition mapped_to (dev : string) (m : Mapping) : bool := String.eqb (m_DeviceID m) dev && active m.

Definition release (now : GoTime) (d : Device) : Device :=
  let w := d_ownership d in
  mkDevice (d_identity d) (d_Manufacturer d) (d_presence d)
    (mkOwnership None None (d_Tags w) (d_ReenrollUntil w))
    (d_reach d) (d_DataModelRoot d) (d_DataModelRootConfirmedAt d) (d_CWMPAuthMode d) (d_profile d)
    (d_management_protocols d) now.

Record EndResult : Type := mkEndResult {
  er_DeviceID : string;
  er_Accounts : list string;
  er_Archived : list string;
  er_MappingRole : string;
  er_MappingPlan : string
}.

(** The rows of [UPDATE ... RETURNING], in the order the database gives them. *)
Definition note_mapping (r : EndResult) (m : Mapping) : EndResult :=
  let '(role, plan) := if String.eqb (er_MappingRole r) "" || String.eqb (m_Role m) "gateway"
                       then (m_Role m, m_ServicePlan m) else (er_MappingRole r, er_MappingPlan r) in
  mkEndResult (er_DeviceID r)
    (if existsb (String.eqb (m_AccountID m)) (er_Accounts r) then er_Accounts r else er_Accounts r ++ [m_AccountID m])
    (er_Archived r) role plan.

(** [archiveProfile]: a profile that holds nothing is removed without a trace. *)
Definition holds_something (p : Profile) : bool := is_some (pf_DisplayName p) || pf_VIP p.

Definition archive_if_last (actor text : string) (sv : Service * EndResult) (account : string) : Service * EndResult :=
  let '(s, r) := sv in
  if existsb (λ m, String.eqb (m_AccountID m) account && active m) (rows (sv_mappings s)) then sv
  else
    let s' archive := mkService (sv_sales s) (sv_devices s) (sv_mappings s) (delete account (sv_profiles s))
                        archive (sv_sites s) (sv_plans s) in
    match sv_profiles s !! account with
    | Some p =>
        if holds_something p
        then (s' (sv_archive s ++ [mkArchived account p text actor]),
              mkEndResult (er_DeviceID r) (er_Accounts r) (er_Archived r ++ [account]) (er_MappingRole r) (er_MappingPlan r))
        else (s' (sv_archive s), r)
    | None => (s' (sv_archive s), r)
    end.

(** [end] *)
Definition end_ (now : GoTime) (id reason actor : string) (keepProfiles : bool) (sv : Service)
  : result (Service * EndResult) :=
  match reasonText reason with
  | None => Err "invalid request: reason must be one of return, rma, upgrade, moved, corrected"
  | Some text =>
      try dev <- lockInService sv id;
      let hit := List.filter (mapped_to dev) (rows (sv_mappings sv)) in
      let sv1 := mkService (alter (ended now text) id (sv_sales sv)) (alter (release now) dev (sv_devices sv))
                   (update_where (mapped_to dev) (unassign now reason) (sv_mappings sv)).1
                   (sv_profiles sv) (sv_archive sv) (sv_sites sv) (sv_plans sv) in
      let res := foldl note_mapping (mkEndResult dev [] [] "" "") hit in
      Ok (if keepProfiles then (sv1, res) else foldl (archive_if_last actor text) (sv1, res) (er_Accounts res))
  end.

Definition End (now : GoTime) (id reason actor : string) (keepProfiles : bool) (sv : Service)
  : result EndResult * Service :=
  match end_ now id reason actor keepProfiles sv with
  | Ok (sv', r) => (Ok r, sv')
  | Err e => (Err e, sv)
  end.

(** The sale of the replacement: same customer, account, site and plan. *)
Definition replacement (uuid : string) (now : GoTime) (oui serial actor role plan : string) (o : Onboarding)
  : Onboarding :=
  let s := o_sale o in
  mkOnboarding
    (mkSale uuid (s_CustomerID s) (ToUpper (TrimSpace oui)) serial "" "" "" (s_AccountRef s) (s_Role s)
       (s_CommercialModel s) (s_Source s) "" actor role now)
    None (o_SiteID o) (o_ServicePlanID o) plan StatePlanned "" "" [] now None None None.

Definition Swap (now : GoTime) (uuid id reason newSerial newOUI actor : string) (sv : Service)
  : result (EndResult * string) * Service :=
  if negb (String.eqb reason "rma" || String.eqb reason "upgrade")
  then (Err "invalid request: a swap's reason is rma or upgrade", sv)
  else
    let serial := TrimSpace newSerial in
    if String.eqb serial "" then (Err "invalid request: the replacement's serial is required", sv)
    else match end_ now id reason actor true sv with
         | Err e => (Err e, sv)
         | Ok (sv', res) =>
             match sv_sales sv' !! id with
             | None => (Ok (res, uuid), sv')
             | Some o =>
                 match insert_sale true
                         (replacement uuid now newOUI serial actor (er_MappingRole res) (er_MappingPlan res) o)
                         (sv_sales sv') with
                 | (Ok _, sales) =>
                     (Ok (res, uuid), mkService sales (sv_devices sv') (sv_mappings sv') (sv_profiles sv')
                                        (sv_archive sv') (sv_sites sv') (sv_plans sv'))
                 | (Err e, _) => (Err (if String.eqb e ErrOpenOnboardingExists then ErrSerialInUse else e), sv)
                 end
             end
         end.

(** [x.customer_id IS NULL OR x.customer_id = o.customer_id] *)
Definition usable_by (sale_customer customer : option string) : bool :=
  match customer, sale_customer with
  | None, _ => true
  | Some c, Some c' => String.eqb c c'
  | Some _, None => false
  end.

Definition set_site (now : GoTime) (site : string) (d : Device) : Device :=
  let w := d_ownership d in
  mkDevice (d_identity d) (d_Manufacturer d) (d_presence d)
    (mkOwnership (d_CustomerID w) (Some site) (d_Tags w) (d_ReenrollUntil w))
    (d_reach d) (d_DataModelRoot d) (d_DataModelRootConfirmedAt d) (d_CWMPAuthMode d) (d_profile d)
    (d_management_protocols d) now.

Definition move_sale (now : GoTime) (site : string) (o : Onboarding) : Onboarding :=
  mkOnboarding (o_sale o) (o_DeviceID o) (Some site) (o_ServicePlanID o) (o_BSSServicePlan o) (o_State o)
    (o_StateReason o) (o_StateCode o) (o_ConfigJobs o) now (o_ContactedAt o) (o_InServiceAt o) (o_EndedAt o).

Definition MoveSite (now : GoTime) (id site : string) (sv : Service) : result unit * Service :=
  match lockInService sv id with
  | Err e => (Err e, sv)
  | Ok dev =>
      match sv_sales sv !! id, sv_sites sv !! site with
      | Some o, Some st =>
          if usable_by (s_CustomerID (o_sale o)) (si_CustomerID st)
          then (Ok tt, mkService (<[id := move_sale now site o]> (sv_sales sv)) (alter (set_site now site) dev (sv_devices sv))
                         (sv_mappings sv) (sv_profiles sv) (sv_archive sv) (sv_sites sv) (sv_plans sv))
          else (Err "invalid request: that site is not one this sale's customer can use", sv)
      | _, _ => (Err "invalid request: that site is not one this sale's customer can use", sv)
      end
  end.

Definition change_plan (now : GoTime) (plan : ServicePlan) (configures : bool) (o : Onboarding) : Onboarding :=
  mkOnboarding (o_sale o) (o_DeviceID o) (o_SiteID o) (Some (pl_ID plan))
    (if String.eqb (s_BSSRole (o_sale o)) "" then o_BSSServicePlan o else pl_Code plan)
    (if configures then StateDiscovered else o_State o)
    (if configures then "service plan changed; configuring on the next check-in" else o_StateReason o)
    "" [] now (o_ContactedAt o) (o_InServiceAt o) (o_EndedAt o).

Definition plan_mapping (plan : ServicePlan) (m : Mapping) : Mapping :=
  mkMapping (m_ID m) (m_AccountID m) (m_DeviceID m) (m_Role m) (pl_Code plan) (m_UnassignedAt m) (m_UnassignReason m).

(** [ChangePlan]: reopening the sale may clash with another open one for its
    serial, which the index refuses. *)
Definition ChangePlan (now : GoTime) (id planID : string) (configures : bool) (sv : Service) : result unit * Service :=
  match lockInService sv id with
  | Err e => (Err e, sv)
  | Ok dev =>
      match sv_sales sv !! id, sv_plans sv !! planID with
      | Some o, Some plan =>
          if usable_by (s_CustomerID (o_sale o)) (pl_CustomerID plan)
          then if configures && existsb (open_for_serial (s_ExpectedSerial (o_sale o))) (rows (sv_sales sv))
               then (Err "change plan: duplicate key value violates unique constraint", sv)
               else (Ok tt, mkService (<[id := change_plan now plan configures o]> (sv_sales sv)) (sv_devices sv)
                              (if String.eqb (s_BSSRole (o_sale o)) "" then sv_mappings sv
                               else (update_where (mapped_to dev) (plan_mapping plan) (sv_mappings sv)).1)
                              (sv_profiles sv) (sv_archive sv) (sv_sites sv) (sv_plans sv))
          else (Err "invalid request: that service plan is not one this sale's customer can use", sv)
      | _, _ => (Err "invalid request: that service plan is not one this sale's customer can use", sv)
      end
  end.
