(* ===== verification/OnboardingLaws.v ===== *)
(** * Onboarding: laws

    What the SIM check decides, the moves of the state machine, the invariant of
    the sales and its preservation by every statement, and the reachable states
    with the record of what was checked. *)

From S2P Require Import Prelude GoStrings Regex Json JobModel JobStore JobLaws Devices ParamCache Onboarding Lifecycle.

(** ** The SIM check *)

Definition imsi_allowed (plmns : list string) (imsi : string) : Prop :=
  ∃ plmn, plmn ∈ plmns ∧ TrimSpace plmn ≠ EmptyString ∧ HasPrefix imsi (TrimSpace plmn) = true.

(** The SIM in the device is the one sold, on a network the plan allows. *)
Definition sim_ok (s : Sale) (plmns : list string) (iccid imsi : string) : Prop :=
  (s_ExpectedICCID s ≠ EmptyString → iccid ≠ EmptyString ∧ iccid = TrimSpace (s_ExpectedICCID s)) ∧
  (s_ExpectedIMSI s ≠ EmptyString → imsi ≠ EmptyString ∧ imsi = TrimSpace (s_ExpectedIMSI s)) ∧
  (plmns ≠ [] → imsi ≠ EmptyString ∧ imsi_allowed plmns imsi).

Lemma AllowsIMSI_spec plan imsi :
  allowed_plmns plan ≠ [] → AllowsIMSI plan imsi = true ↔ imsi_allowed (allowed_plmns plan) imsi.
Proof.
  destruct plan as [p|]; [|done]. simpl. intros Hne. unfold AllowsIMSI.
  replace (length (pl_AllowedPLMNs p) =? 0)%nat with false by (by destruct (pl_AllowedPLMNs p)).
  simpl. rewrite existsb_exists. unfold imsi_allowed. setoid_rewrite list_elem_of_In.
  unfold plmn_allows. setoid_rewrite andb_true_iff. setoid_rewrite negb_true_iff. setoid_rewrite String.eqb_neq.
  done.
Qed.

Lemma length_zero_nil {A} (l : list A) : (length l =? 0)%nat = true ↔ l = [].
Proof. by destruct l. Qed.

Lemma length_zero_cons {A} (l : list A) : (length l =? 0)%nat = false ↔ l ≠ [].
Proof. by destruct l. Qed.

(** One identifier: neither wrong nor missing. *)
Lemma expected_identifier (expected got : string) :
  (negb (String.eqb expected "") && negb (String.eqb got "") && negb (String.eqb got (TrimSpace expected)) = false ∧
   negb (String.eqb expected "") && String.eqb got "" = false) ↔
  (expected ≠ EmptyString → got ≠ EmptyString ∧ got = TrimSpace expected).
Proof.
  destruct (String.eqb_spec expected ""), (String.eqb_spec got ""), (String.eqb_spec got (TrimSpace expected));
    simpl; intuition discriminate.
Qed.

(** The network: neither refused nor unknown. *)
Lemma expected_network plan (imsi : string) :
  (negb (String.eqb imsi "") && negb (length (allowed_plmns plan) =? 0)%nat && negb (AllowsIMSI plan imsi) = false ∧
   negb (length (allowed_plmns plan) =? 0)%nat && String.eqb imsi "" = false) ↔
  (allowed_plmns plan ≠ [] → imsi ≠ EmptyString ∧ imsi_allowed (allowed_plmns plan) imsi).
Proof.
  pose proof (AllowsIMSI_spec plan imsi) as Ha.
  destruct (length (allowed_plmns plan) =? 0)%nat eqn:El.
  - apply length_zero_nil in El. rewrite andb_false_r. tauto.
  - apply length_zero_cons in El. specialize (Ha El).
    destruct (String.eqb_spec imsi ""), (AllowsIMSI plan imsi); simpl; intuition discriminate.
Qed.

(** The check passes exactly on the right SIM. *)
Lemma checkSIM_none o plan f :
  checkSIM o plan f = None ↔
  sim_ok (o_sale o) (allowed_plmns plan) (TrimSpace (f_ICCID f)) (TrimSpace (f_IMSI f)).
Proof.
  unfold checkSIM, sim_ok. cbv zeta. rewrite <- !expected_identifier, <- expected_network.
  rewrite andb_orb_distrib_l. repeat break_match_goal; rewrite ?orb_false_iff, ?orb_true_iff in *;
    intuition congruence.
Qed.

(** Every other answer holds the sale or keeps it waiting. *)
Lemma checkSIM_some o plan f d :
  checkSIM o plan f = Some d → dc_Configure d = false ∧ (dc_State d = StateOnHold ∨ dc_State d = StateContacted).
Proof.
  unfold checkSIM. cbv zeta. intros H. repeat (break_match_hyp H; [injection H as <-; simpl; tauto|]). done.
Qed.

(** ** The moves of a sale *)

Definition rank (st : OnbState) : option nat :=
  match st with
  | StatePlanned => Some 0%nat
  | StateContacted => Some 1%nat
  | StateSecured => Some 2%nat
  | StateDiscovered => Some 3%nat
  | StateConfiguring => Some 4%nat
  | StateInService => Some 5%nat
  | _ => None
  end.

(** Progress never goes back and never enters DISCOVERED; a hold comes only from
    the checks before SECURED; failure from any stage of progress. *)
Definition progress (st st' : OnbState) : bool :=
  match rank st with
  | None | Some 5%nat => false
  | Some n =>
      match st' with
      | StateDiscovered => false
      | StateOnHold => (n <=? 1)%nat
      | StateFailed => true
      | _ => match rank st' with Some n' => (n <? n')%nat | None => false end
      end
  end.

Definition may_move (st st' : OnbState) : bool :=
  progress st st'
  || match st, st' with
     | StateFailed, (StateContacted | StatePlanned) | StateOnHold, (StateContacted | StatePlanned) => true
     | StateInService, (StateEnded | StateDiscovered) => true
     | (StateInService | StateCancelled | StateEnded), StateCancelled => false
     | _, StateCancelled => true
     | _, _ => false
     end.

Definition steps_to (st st' : OnbState) : bool := bool_decide (st = st') || progress st st'.

Lemma evaluate_discovered_state plan :
  dc_State (evaluate_discovered plan) = StateConfiguring ∧ dc_Configure (evaluate_discovered plan) = true ∧
    HasConfiguration plan = true ∨
  dc_State (evaluate_discovered plan) = StateInService ∧ dc_Configure (evaluate_discovered plan) = false ∧
    HasConfiguration plan = false.
Proof. unfold evaluate_discovered. destruct (HasConfiguration plan); auto. Qed.

Lemma evaluate_secured_state plan f :
  evaluate_secured plan f = evaluate_discovered plan ∧ (requires_discovery plan = true → f_Discovered f = true) ∨
  dc_State (evaluate_secured plan f) = StateSecured ∧ dc_Configure (evaluate_secured plan f) = false.
Proof.
  unfold evaluate_secured. destruct (requires_discovery plan), (f_Discovered f); simpl; auto.
Qed.

(** From PLANNED or CONTACTED the sale waits, is held, or has its SIM checked
    and a device that authenticates with its own credential. *)
Lemma evaluate_contacted_state o plan f :
  dc_State (evaluate_contacted o plan f) ∈ [StateContacted; StateOnHold] ∧
    dc_Configure (evaluate_contacted o plan f) = false ∨
  evaluate_contacted o plan f = evaluate_secured plan f ∧ f_Secured f = true ∧
    sim_ok (o_sale o) (allowed_plmns plan) (TrimSpace (f_ICCID f)) (TrimSpace (f_IMSI f)).
Proof.
  unfold evaluate_contacted. destruct (checkSIM o plan f) as [d|] eqn:E.
  - left. apply checkSIM_some in E as [-> [-> | ->]]; split; try done; set_solver.
  - apply checkSIM_none in E. destruct (f_Secured f); simpl; [by right|left]. split; [set_solver|done].
Qed.

(** The decisions of the machine are moves of progress, and it configures only
    a plan that has something to write. *)
Lemma Evaluate_steps o plan f :
  steps_to (o_State o) (dc_State (Evaluate o plan f)) = true ∧
  (dc_Configure (Evaluate o plan f) = true →
     HasConfiguration plan = true ∧ dc_State (Evaluate o plan f) = StateConfiguring ∧
     o_State o ∈ [StatePlanned; StateContacted; StateSecured; StateDiscovered]).
Proof.
  assert (∀ st, st ∈ [StatePlanned; StateContacted; StateSecured; StateDiscovered] →
    steps_to st (dc_State (evaluate_discovered plan)) = true ∧
    (dc_Configure (evaluate_discovered plan) = true →
       HasConfiguration plan = true ∧ dc_State (evaluate_discovered plan) = StateConfiguring ∧
       st ∈ [StatePlanned; StateContacted; StateSecured; StateDiscovered])) as Hd.
  { intros st Hst. destruct (evaluate_discovered_state plan) as [(-> & -> & ->)|(-> & -> & ->)];
      (split; [|done]); repeat (apply elem_of_cons in Hst as [->|Hst]; [done|]); by apply not_elem_of_nil in Hst. }
  assert (∀ st, st ∈ [StatePlanned; StateContacted; StateSecured] →
    steps_to st (dc_State (evaluate_secured plan f)) = true ∧
    (dc_Configure (evaluate_secured plan f) = true →
       HasConfiguration plan = true ∧ dc_State (evaluate_secured plan f) = StateConfiguring ∧
       st ∈ [StatePlanned; StateContacted; StateSecured; StateDiscovered])) as Hs.
  { intros st Hst. destruct (evaluate_secured_state plan f) as [[-> _]|[-> ->]].
    - apply Hd. set_solver.
    - split; [|done]. repeat (apply elem_of_cons in Hst as [->|Hst]; [done|]); by apply not_elem_of_nil in Hst. }
  assert (∀ st, st ∈ [StatePlanned; StateContacted] →
    steps_to st (dc_State (evaluate_contacted o plan f)) = true ∧
    (dc_Configure (evaluate_contacted o plan f) = true →
       HasConfiguration plan = true ∧ dc_State (evaluate_contacted o plan f) = StateConfiguring ∧
       st ∈ [StatePlanned; StateContacted; StateSecured; StateDiscovered])) as Hc.
  { intros st Hst. destruct (evaluate_contacted_state o plan f) as [[Hin ->]|[-> _]].
    - split; [|done]. repeat (apply elem_of_cons in Hst as [->|Hst];
        [repeat (apply elem_of_cons in Hin as [->|Hin]; [done|]); by apply not_elem_of_nil in Hin|]).
      by apply not_elem_of_nil in Hst.
    - apply Hs. set_solver. }
  unfold Evaluate. destruct (o_State o); simpl; try done.
  - destruct (f_Informed f); [apply Hc; set_solver|done].
  - apply Hc. set_solver.
  - apply Hs. set_solver.
  - apply Hd. set_solver.
  - unfold evaluate_configuring. repeat break_match_goal; done.
Qed.

(** ** One pass of the reconciler *)

Definition device_names (w : OnbWorld) (d : Device) : gmap string bool :=
  match GetNames (ow_params w) (d_ID (d_identity d)) with Some (n, _) => n | None => ∅ end.

Definition pass_facts (w : OnbWorld) (o : Onboarding) (d : Device) (co : list (string * CachedValue)) : Facts :=
  gather_facts w o d (device_names w d) co.

Lemma readSIM_state fr now dev creator names d jobs :
  let r := readSIMForOnboarding fr now dev creator names d jobs in
  dc_State r.1 = dc_State d ∧ dc_Configure r.1 = dc_Configure d.
Proof. unfold readSIMForOnboarding. cbv zeta. repeat break_match_goal; done. Qed.

(** What a pass decides, next to what the machine says. *)
Lemma decide_spec frs now no co onInform o plan d w dc bindTo cj jobs :
  decide_onboarding frs now no co onInform o plan d w = (dc, bindTo, cj, jobs) →
  let d0 := Evaluate o plan (pass_facts w o d co) in
  other_customer o d = true ∧ o_State o = StatePlanned ∧ dc_State dc = StateOnHold ∧ bindTo = EmptyString ∧ cj = None ∨
  other_customer o d = false ∧ bindTo = d_ID (d_identity d) ∧
    (dc_State dc = dc_State d0 ∨ dc_State dc = StateFailed ∧ dc_Configure d0 = true) ∧
    (cj = None ∨ dc_Configure d0 = true).
Proof.
  intros H. cbv zeta. set (d0 := Evaluate o plan (pass_facts w o d co)).
  unfold decide_onboarding in H. fold (device_names w d) in H. fold (pass_facts w o d co) in H. fold d0 in H.
  destruct (other_customer o d) eqn:Eo.
  - left. unfold other_customer in Eo. apply andb_true_iff in Eo as [Ep%bool_decide_eq_true _].
    simpl in H. injection H as <- <- <- <-. done.
  - right. split; [done|].
    match type of H with context [if ?b then ?x else ?y] => set (r := if b then x else y) in H end.
    assert (dc_State r.1 = dc_State d0 ∧ dc_Configure r.1 = dc_Configure d0) as [Hst Hc].
    { subst r. destruct (dc_ReadSIM d0 && onInform); [apply readSIM_state|done]. }
    destruct r as [d2 jobs0]. simpl in Hst, Hc. rewrite Hc in H.
    destruct (dc_Configure d0) eqn:Ec, plan as [p|]; simpl in H;
      [|by injection H as <- <- <- <-; auto..].
    destruct (queueOnboardingConfiguration _ _ _ _ _ _ _ _ _ _) as [[keys [e|]] jobs']; simpl in H;
      injection H as <- <- <- <-; simpl; auto.
Qed.

(** A held sale waits for an operator: a pass changes nothing of it. *)
Lemma decide_on_hold frs now no co onInform o plan d w dc bindTo cj jobs :
  o_State o = StateOnHold →
  decide_onboarding frs now no co onInform o plan d w = (dc, bindTo, cj, jobs) →
  dc_State dc = o_State o ∧ dc_Reason dc = o_StateReason o ∧ cj = None.
Proof.
  intros Ho. unfold decide_onboarding, other_customer, Evaluate. rewrite Ho. simpl. by intros [= <- <- <- <-].
Qed.

Lemma decide_moves frs now no co onInform o plan d w dc bindTo cj jobs :
  decide_onboarding frs now no co onInform o plan d w = (dc, bindTo, cj, jobs) →
  steps_to (o_State o) (dc_State dc) = true.
Proof.
  intros [(_ & -> & -> & _)|(_ & _ & [-> | [-> Hc]] & _)]%decide_spec; [done|apply Evaluate_steps|].
  apply Evaluate_steps in Hc as (_ & _ & Hin).
  repeat (apply elem_of_cons in Hin as [->|Hin]; [done|]); by apply not_elem_of_nil in Hin.
Qed.

(** [Apply] changes the sale it was given, if it is still in that state, and
    binds the device only on first contact. *)
Lemma Apply_cases now o d dev cj tab devs :
  let r := Apply now o d dev cj tab devs in
  r.1.2 = tab ∧ r.2 = devs ∨
  ∃ row, tab !! s_ID (o_sale o) = Some row ∧ o_State row = o_State o ∧
    r.1.2 = <[s_ID (o_sale o) := applied now d dev cj row]> tab ∧
    (r.2 = devs ∧ (o_State o ≠ StatePlanned ∨ dev = EmptyString) ∨ o_State o = StatePlanned ∧ dev ≠ EmptyString ∧
       ∃ dv, devs !! dev = Some dv ∧ may_join (s_CustomerID (o_sale o)) dv = true ∧
         r.2 = <[dev := assign now o dv]> devs).
Proof.
  cbv zeta. unfold Apply, update_key.
  destruct (tab !! s_ID (o_sale o)) as [row|] eqn:E; simpl; [|auto].
  destruct (bool_decide_reflect (o_State row = o_State o)) as [Hs|]; simpl; [|auto].
  destruct (bool_decide_reflect (o_State o = StatePlanned)) as [Hp|]; simpl; [|right; eauto 10].
  destruct (String.eqb_spec dev ""); simpl; [right; eauto 10|].
  destruct (devs !! dev) as [dv|] eqn:Ed; simpl; [|auto].
  destruct (may_join _ dv) eqn:Em; simpl; [right; eauto 12|auto].
Qed.

Definition plan_of (w : OnbWorld) (o : Onboarding) (plan : option ServicePlan) : Prop :=
  match o_ServicePlanID o with
  | Some id => ∃ p, ow_plans w !! id = Some p ∧ plan = Some p
  | None => plan = None
  end.

(** The sale a pass is about, with its plan. *)
Definition pass_on (w : OnbWorld) (d : Device) (o : Onboarding) (plan : option ServicePlan) : Prop :=
  OpenForDevice (ow_sales w) (d_ID (d_identity d)) (d_OUI (d_identity d)) (d_SerialNumber (d_identity d)) = Some o ∧
  plan_of w o plan.

(** A pass leaves the sales and the devices alone, or applies its decision. *)
Lemma reconcile_cases frs now no co onInform d w :
  let w' := (reconcileOnboarding frs now no co onInform d w).1 in
  ow_sales w' = ow_sales w ∧ ow_devices w' = ow_devices w ∨
  ∃ o plan dc bindTo cj jobs, pass_on w d o plan ∧
    decide_onboarding frs now no co onInform o plan d w = (dc, bindTo, cj, jobs) ∧
    ow_sales w' = (Apply now o dc bindTo cj (ow_sales w) (ow_devices w)).1.2 ∧
    ow_devices w' = (Apply now o dc bindTo cj (ow_sales w) (ow_devices w)).2 ∧
    (dc_State dc ≠ o_State o ∨ dc_Reason dc ≠ o_StateReason o ∨ cj ≠ None).
Proof.
  cbv zeta. unfold reconcileOnboarding, pass_on, plan_of. destruct (OpenForDevice _ _ _ _) as [o|]; [|auto].
  assert (∀ plan, plan_of w o plan →
    let w' := (reconcile_with frs now no co onInform o plan d w).1 in
    ow_sales w' = ow_sales w ∧ ow_devices w' = ow_devices w ∨
    ∃ dc bindTo cj jobs, decide_onboarding frs now no co onInform o plan d w = (dc, bindTo, cj, jobs) ∧
      ow_sales w' = (Apply now o dc bindTo cj (ow_sales w) (ow_devices w)).1.2 ∧
      ow_devices w' = (Apply now o dc bindTo cj (ow_sales w) (ow_devices w)).2 ∧
      (dc_State dc ≠ o_State o ∨ dc_Reason dc ≠ o_StateReason o ∨ cj ≠ None)) as Hw.
  { intros plan _. cbv zeta. unfold reconcile_with.
    destruct (decide_onboarding _ _ _ _ _ _ _ _ _) as [[[dc bindTo] cj] jobs].
    destruct (_ && _) eqn:Ec; simpl; [auto|]. right. exists dc, bindTo, cj, jobs. split; [done|].
    assert (dc_State dc ≠ o_State o ∨ dc_Reason dc ≠ o_StateReason o ∨ cj ≠ None) as Hch.
    { rewrite !andb_false_iff, bool_decide_eq_false, String.eqb_neq in Ec. destruct cj; naive_solver. }
    destruct (Apply _ _ _ _ _ _ _) as [[? ?] ?]; simpl; auto. }
  destruct (o_ServicePlanID o) as [id|] eqn:Es.
  - destruct (ow_plans w !! id) as [p|] eqn:Ep; [|auto].
    destruct (Hw (Some p)) as [?|(? & ? & ? & ? & ?)]; [unfold plan_of; rewrite Es; eauto|auto|].
    right. eexists o, (Some p), _, _, _, _. split; [|eassumption]. rewrite Es. eauto.
  - destruct (Hw None) as [?|(? & ? & ? & ? & ?)]; [by unfold plan_of; rewrite Es|auto|].
    right. eexists o, None, _, _, _, _. split; [|eassumption]. by rewrite Es.
Qed.

(** ** The invariant of the sales *)

Record sale_ok (k : string) (o : Onboarding) : Prop := mk_sale_ok {
  sok_id : s_ID (o_sale o) = k;
  sok_contacted : o_State o ≠ StatePlanned → o_State o ≠ StateCancelled → is_Some (o_ContactedAt o);
  sok_bound : o_State o ∉ [StatePlanned; StateOnHold; StateCancelled] → is_Some (o_DeviceID o);
  sok_service : o_State o ∈ [StateDiscovered; StateInService; StateEnded] → is_Some (o_InServiceAt o);
  sok_ended : o_State o = StateEnded → is_Some (o_EndedAt o)
}.

Record sales_ok (tab : Sales) : Prop := mk_sales_ok {
  sales_rows : map_Forall sale_ok tab;
  sales_open : ∀ k1 k2 o1 o2, tab !! k1 = Some o1 → tab !! k2 = Some o2 →
    Open o1 = true → Open o2 = true →
    s_ExpectedSerial (o_sale o1) = s_ExpectedSerial (o_sale o2) → k1 = k2
}.

Lemma sales_ok_empty : sales_ok ∅.
Proof. split; [apply map_Forall_empty|]. intros k1 k2 o1 o2. by rewrite lookup_empty. Qed.

(** What no statement changes of a sale: what was sold and the device it is
    bound to; and the moves of its state. *)
Definition sale_moves (o o' : Onboarding) : Prop :=
  o_sale o' = o_sale o ∧ (∀ dev, o_DeviceID o = Some dev → o_DeviceID o' = Some dev) ∧
  (o_State o' = o_State o ∨ may_move (o_State o) (o_State o') = true).

(** Rows rewritten in place, none of them opened. *)
Definition rewritten (tab tab' : Sales) : Prop :=
  ∀ k, match tab !! k, tab' !! k with
       | None, None => True
       | Some o, Some o' => sale_moves o o' ∧ sale_ok k o' ∧ (Open o' = true → Open o = true)
       | _, _ => False
       end.

Definition sales_move (tab tab' : Sales) : Prop :=
  ∀ k o, tab !! k = Some o → ∃ o', tab' !! k = Some o' ∧ sale_moves o o'.

Lemma sale_moves_refl o : sale_moves o o.
Proof. unfold sale_moves. auto. Qed.

Lemma rewritten_moves tab tab' : rewritten tab tab' → sales_move tab tab'.
Proof. intros Hr k o Ho. specialize (Hr k). rewrite Ho in Hr. destruct (tab' !! k); [|done]. naive_solver. Qed.

Lemma sales_move_refl tab : sales_move tab tab.
Proof. intros k o Ho. eauto using sale_moves_refl. Qed.

Lemma sales_move_insert tab tab0 k o :
  sales_move tab tab0 → (∀ o0, tab0 !! k = Some o0 → sale_moves o0 o) → (∀ o0, tab !! k = Some o0 → tab0 !! k = Some o0) →
  sales_move tab (<[k := o]> tab0).
Proof.
  intros Hm Ho Hsame k' o' Hk'. destruct (decide (k = k')) as [<-|Hne].
  - exists o. split; [apply lookup_insert_eq|]. by apply Ho, Hsame.
  - rewrite lookup_insert_ne by done. by apply Hm.
Qed.

Lemma rewritten_refl tab : sales_ok tab → rewritten tab tab.
Proof. intros Hok k. destruct (tab !! k) eqn:E; [|done]. apply (sales_rows _ Hok) in E.
  auto using sale_moves_refl.
Qed.

Lemma sales_ok_rewritten tab tab' : sales_ok tab → rewritten tab tab' → sales_ok tab'.
Proof.
  intros Hok Hr. split.
  - intros k o Ho. specialize (Hr k). rewrite Ho in Hr. destruct (tab !! k); [|done]. apply Hr.
  - intros k1 k2 o1 o2 H1 H2 Ho1 Ho2 Hs. pose proof (Hr k1) as R1. pose proof (Hr k2) as R2.
    rewrite H1 in R1. rewrite H2 in R2. destruct (tab !! k1) eqn:E1, (tab !! k2) eqn:E2; try done.
    destruct R1 as ([S1 _] & _ & O1), R2 as ([S2 _] & _ & O2). eapply (sales_open _ Hok); eauto.
    by rewrite <- S1, <- S2.
Qed.

Lemma rewritten_insert tab k o o' :
  sales_ok tab → tab !! k = Some o → sale_moves o o' → sale_ok k o' → (Open o' = true → Open o = true) →
  rewritten tab (<[k := o']> tab).
Proof.
  intros Hok Hk ??? k'. destruct (decide (k = k')) as [<-|].
  - rewrite Hk, lookup_insert_eq. auto.
  - rewrite lookup_insert_ne by done. by apply rewritten_refl.
Qed.

(** A row added, or one opened, that no open row shares its serial with. *)
Lemma sales_ok_insert tab k o :
  sales_ok tab → sale_ok k o →
  (∀ k' o', tab !! k' = Some o' → k' ≠ k → Open o' = true → s_ExpectedSerial (o_sale o') ≠ s_ExpectedSerial (o_sale o)) →
  sales_ok (<[k := o]> tab).
Proof.
  intros Hok Ho Hser. split; [apply map_Forall_insert_2; [done|apply Hok]|].
  intros k1 k2 o1 o2. rewrite !lookup_insert. do 2 case_decide; intros; simplify_eq; try done.
  - exfalso. eapply (Hser k2); eauto.
  - exfalso. eapply (Hser k1); eauto.
  - eapply (sales_open _ Hok); eauto.
Qed.

Lemma no_open_for_serial serial tab k o :
  existsb (open_for_serial serial) (rows tab) = false → tab !! k = Some o → Open o = true →
  s_ExpectedSerial (o_sale o) ≠ serial.
Proof.
  intros He Hk Ho Hs. enough (existsb (open_for_serial serial) (rows tab) = true) by congruence.
  apply existsb_exists. exists o. split; [apply list_elem_of_In, elem_of_rows; eauto|].
  unfold open_for_serial. rewrite Ho. by apply String.eqb_eq.
Qed.

Lemma sale_ok_planned k s dev site plan bss now :
  s_ID s = k → sale_ok k (mkOnboarding s dev site plan bss StatePlanned "" "" [] now None None None).
Proof. intros <-. split; simpl; try done; set_solver. Qed.

Lemma insert_sale_ok refs o tab :
  sales_ok tab → sale_ok (s_ID (o_sale o)) o → sales_ok (insert_sale refs o tab).2.
Proof.
  intros Hok Ho. unfold insert_sale. repeat (break_match_goal; [done|]). simpl.
  apply sales_ok_insert; [done..|]. intros k' o' Hk' _ Hopen. by eapply no_open_for_serial.
Qed.

(** Adding a sale changes no other. *)
Lemma insert_sale_moves refs o tab tab0 :
  sales_move tab tab0 → sales_move tab (insert_sale refs o tab0).2.
Proof.
  intros Hm. unfold insert_sale. repeat (break_match_goal; [done|]). simpl.
  intros k o0 Hk. destruct (Hm k o0 Hk) as (o' & Ho' & Hmv). exists o'. split; [|done].
  rewrite lookup_insert_ne; [done|]. intros <-. by rewrite Ho' in E1.
Qed.

Lemma Open_state o : Open o = true ↔ o_State o ∉ [StateInService; StateCancelled; StateEnded].
Proof. unfold Open. destruct (o_State o); simpl; split; intros H; try done; set_solver. Qed.

Lemma progress_facts st st' :
  progress st st' = true →
  st ∉ [StateInService; StateCancelled; StateEnded; StateOnHold; StateFailed] ∧
  st' ∉ [StatePlanned; StateDiscovered; StateCancelled; StateEnded].
Proof. destruct st, st'; simpl; intros H; try discriminate; split; set_solver. Qed.

(** The row a pass writes is in order. *)
Lemma applied_ok now dc dev cj k row :
  sale_ok k row → steps_to (o_State row) (dc_State dc) = true →
  (dev = EmptyString → dc_State dc = StateOnHold) → Open row = true →
  sale_ok k (applied now dc dev cj row).
Proof.
  intros Hok Hst Hdev Ho. apply Open_state in Ho. unfold steps_to in Hst.
  apply orb_true_iff in Hst. rewrite bool_decide_eq_true in Hst.
  split; simpl.
  - apply Hok.
  - intros Hp _. destruct (o_ContactedAt row); [eauto|]. rewrite bool_decide_false by done. eauto.
  - intros Hn. destruct (o_DeviceID row); [eauto|].
    destruct (String.eqb_spec dev "") as [->|]; [|eauto]. rewrite Hdev in Hn by done. set_solver.
  - intros Hin. destruct (bool_decide_reflect (dc_State dc = StateInService)); [eauto|].
    destruct Hst as [He|Hp]; [rewrite <- He in Hin; by apply Hok|]. apply progress_facts in Hp. set_solver.
  - intros He. destruct Hst as [Hs|Hp]; [rewrite Hs, He in Ho; set_solver|]. apply progress_facts in Hp. set_solver.
Qed.

Lemma OpenForDevice_some tab dev oui serial o :
  sales_ok tab → OpenForDevice tab dev oui serial = Some o →
  tab !! s_ID (o_sale o) = Some o ∧ Open o = true.
Proof.
  intros Hok H. assert (o ∈ rows tab ∧ Open o = true) as [Hin Ho].
  { unfold OpenForDevice in H. destruct (List.find _ (rows tab)) eqn:E; [simplify_eq; rename E into H|];
      apply find_some in H as [H%list_elem_of_In Hb]; bool_to_prop; done. }
  split; [|done]. apply elem_of_rows in Hin as [k Hk]. pose proof (sales_rows _ Hok _ _ Hk) as Hr.
  by rewrite (sok_id _ _ Hr).
Qed.

Lemma reconcile_rewritten frs now no co onInform d w :
  sales_ok (ow_sales w) → d_ID (d_identity d) ≠ EmptyString →
  rewritten (ow_sales w) (ow_sales (reconcileOnboarding frs now no co onInform d w).1).
Proof.
  intros Hok Hd. destruct (reconcile_cases frs now no co onInform d w) as [[-> _]|
    (o & plan & dc & bindTo & cj & jobs & [Ho _] & Hdec & -> & _ & _)]; [by apply rewritten_refl|].
  apply (OpenForDevice_some _ _ _ _ _ Hok) in Ho as [Ho Hopen].
  destruct (Apply_cases now o dc bindTo cj (ow_sales w) (ow_devices w)) as [[-> _]|(row & Hr & Hs & -> & _)];
    [by apply rewritten_refl|]. assert (row = o) as -> by congruence.
  pose proof (decide_moves _ _ _ _ _ _ _ _ _ _ _ _ _ Hdec) as Hm.
  eapply rewritten_insert; try done.
  - split; [done|]. split; [by simpl; intros dev ->|]. simpl. unfold steps_to in Hm.
    apply orb_true_iff in Hm. rewrite bool_decide_eq_true in Hm.
    destruct Hm as [->|Hm]; [by left|right]. unfold may_move. by rewrite Hm.
  - apply applied_ok; [by apply (sales_rows _ Hok)|done| |done].
    intros ->. by apply decide_spec in Hdec as [(_ & _ & -> & _)|(_ & He & _)].
Qed.

(** ** The other statements *)

Lemma exec_sale_rewritten id p f tab :
  sales_ok tab →
  (∀ o, tab !! id = Some o → p o = true →
     sale_moves o (f o) ∧ sale_ok id (f o) ∧ (Open (f o) = true → Open o = true)) →
  rewritten tab (exec_sale id p f tab).2.
Proof.
  intros Hok Hf. unfold exec_sale, update_key. destruct (tab !! id) as [o|] eqn:E; simpl; [|by apply rewritten_refl].
  destruct (p o) eqn:Ep; simpl; [|by apply rewritten_refl].
  destruct (Hf o eq_refl Ep) as (? & ? & ?). by eapply rewritten_insert.
Qed.

Lemma Retry_rewritten now id tab : sales_ok tab → rewritten tab (Retry now id tab).2.
Proof.
  intros Hok. apply exec_sale_rewritten; [done|]. intros o Ho Hp. pose proof (sales_rows _ Hok _ _ Ho) as Hr.
  apply orb_true_iff in Hp. rewrite !bool_decide_eq_true in Hp.
  assert (Open o = true) as Hop by (apply Open_state; destruct Hp as [-> | ->]; set_solver).
  assert (is_Some (o_ContactedAt o)) as Hc by (apply (sok_contacted _ _ Hr); destruct Hp as [-> | ->]; done).
  destruct (o_DeviceID o) as [dev|] eqn:Ed; simpl.
  - split; [split; [done|split; [done|by right; destruct Hp as [-> | ->]]]|]. split; [|done].
    split; simpl; try done; try set_solver; first [exact (sok_id _ _ Hr)|rewrite Ed; eauto].
  - split; [split; [done|split; [done|by right; destruct Hp as [-> | ->]]]|]. split; [|done].
    split; simpl; try done; try set_solver. apply Hr.
Qed.

Lemma cancelled_ok now id o reason code :
  sale_ok id o → sale_ok id (set_sale_state now StateCancelled reason code (o_ConfigJobs o) o).
Proof. intros Hr. split; simpl; try done; try set_solver. apply Hr. Qed.

Lemma cancelled_move o : Open o = true → may_move (o_State o) StateCancelled = true.
Proof. intros Ho%Open_state. destruct (o_State o); try done; set_solver. Qed.

Lemma CancelWithReason_rewritten now id reason tab :
  sales_ok tab → rewritten tab (CancelWithReason now id reason tab).2.
Proof.
  intros Hok. apply exec_sale_rewritten; [done|]. intros o Ho Hp.
  split; [split; [done|split; [done|right; by apply cancelled_move]]|]. split; [by apply cancelled_ok, Hok|done].
Qed.

Lemma Cancel_rewritten now id tab : sales_ok tab → rewritten tab (Cancel now id tab).2.
Proof.
  intros Hok. apply exec_sale_rewritten; [done|]. intros o Ho Hp.
  split; [split; [done|split; [done|right; by apply cancelled_move]]|]. split; [by apply cancelled_ok, Hok|done].
Qed.

(** Only a sale no device was bound to is expired, and it was PLANNED. *)
Lemma expired_was_planned locked now source ttl limit tab id :
  id ∈ expired_ids locked now source ttl limit tab →
  ∃ o, o ∈ rows tab ∧ s_ID (o_sale o) = id ∧ expirable now source ttl o = true.
Proof.
  unfold expired_ids. intros (o & -> & Ho)%list_elem_of_fmap. exists o.
  assert (o ∈ List.filter (λ o, expirable now source ttl o && negb (locked (s_ID (o_sale o)))) (rows tab)) as Hf.
  { rewrite <- (merge_sort_Permutation older_sale). by eapply subseteq_take. }
  apply list_elem_of_In, filter_In in Hf as [Hf%list_elem_of_In [He _]%andb_true_iff]. done.
Qed.

Lemma Expire_rewritten locked now source ttl reason limit tab :
  sales_ok tab → rewritten tab (ExpireUncontacted locked now source ttl reason limit tab).
Proof.
  intros Hok k. unfold ExpireUncontacted. rewrite lookup_update_where.
  destruct (tab !! k) as [o|] eqn:E; simpl; [|done]. pose proof (sales_rows _ Hok _ _ E) as Hr.
  destruct (existsb _ _) eqn:Ex; [|by auto using sale_moves_refl].
  apply existsb_exists in Ex as (id & (o' & Ho' & Hid & He)%list_elem_of_In%expired_was_planned & <-%String.eqb_eq).
  apply elem_of_rows in Ho' as [k' Hk']. pose proof (sok_id _ _ (sales_rows _ Hok _ _ Hk')) as Hk''.
  rewrite Hid, (sok_id _ _ Hr) in Hk''. subst k'. assert (o' = o) as -> by congruence.
  unfold expirable in He. bool_to_prop.
  split; [|split; [by apply cancelled_ok|done]]. split; [done|]. split; [done|]. right. simpl. by rewrite H2.
Qed.

Lemma lockInService_ok sv id dev :
  lockInService sv id = Ok dev →
  ∃ o d, sv_sales sv !! id = Some o ∧ o_State o = StateInService ∧ o_DeviceID o = Some dev ∧
    sv_devices sv !! dev = Some d ∧
    (s_CustomerID (o_sale o) = None ∨ d_CustomerID (d_ownership d) = s_CustomerID (o_sale o)).
Proof.
  unfold lockInService. destruct (sv_sales sv !! id) as [o|]; [|done].
  destruct (o_DeviceID o) as [dev'|] eqn:Ed; [|done].
  destruct (bool_decide_reflect (o_State o = StateInService)); simpl; [|done].
  destruct (sv_devices sv !! dev') as [d|] eqn:Edv; [|done].
  destruct (s_CustomerID (o_sale o)) as [c|] eqn:Ec; simpl.
  - destruct (bool_decide_reflect (d_CustomerID (d_ownership d) = Some c)); simpl; [|done].
    intros [= <-]. exists o, d. rewrite Ec. auto 10.
  - intros [= <-]. exists o, d. rewrite Ec. auto 10.
Qed.

(** Archiving profiles touches neither the sales nor the devices. *)
Lemma archive_frame actor text accounts sv r :
  sv_sales (foldl (archive_if_last actor text) (sv, r) accounts).1 = sv_sales sv ∧
  sv_devices (foldl (archive_if_last actor text) (sv, r) accounts).1 = sv_devices sv ∧
  sv_mappings (foldl (archive_if_last actor text) (sv, r) accounts).1 = sv_mappings sv.
Proof.
  revert sv r. induction accounts as [|a l IH]; intros sv r; [done|]. cbn [foldl].
  destruct (archive_if_last actor text (sv, r) a) as [sv' r'] eqn:E.
  assert (sv_sales sv' = sv_sales sv ∧ sv_devices sv' = sv_devices sv ∧ sv_mappings sv' = sv_mappings sv)
    as (<- & <- & <-); [|apply IH].
  unfold archive_if_last in E. repeat break_match_hyp E; injection E as <- <-; done.
Qed.

Lemma end_shape now id reason actor keep sv sv' r :
  end_ now id reason actor keep sv = Ok (sv', r) →
  ∃ o d dev text, sv_sales sv !! id = Some o ∧ o_State o = StateInService ∧ o_DeviceID o = Some dev ∧
    sv_devices sv !! dev = Some d ∧
    (s_CustomerID (o_sale o) = None ∨ d_CustomerID (d_ownership d) = s_CustomerID (o_sale o)) ∧
    sv_sales sv' = <[id := ended now text o]> (sv_sales sv) ∧
    sv_devices sv' = <[dev := release now d]> (sv_devices sv) ∧
    sv_mappings sv' = (update_where (mapped_to dev) (unassign now reason) (sv_mappings sv)).1.
Proof.
  unfold end_. destruct (reasonText reason) as [text|]; [|done].
  destruct (lockInService sv id) as [dev|] eqn:El; [|done].
  apply lockInService_ok in El as (o & d & Ho & Hs & Hd & Hdv & Hc). cbn [result_bind]. intros [= H].
  exists o, d, dev, text. do 5 (split; [done|]).
  assert (∀ f, alter f id (sv_sales sv) = <[id := f o]> (sv_sales sv)) as Ha.
  { intros f. apply map_eq. intros k. destruct (decide (id = k)) as [<-|].
    - by rewrite lookup_alter_eq, lookup_insert_eq, Ho.
    - by rewrite lookup_alter_ne, lookup_insert_ne. }
  assert (∀ f, alter f dev (sv_devices sv) = <[dev := f d]> (sv_devices sv)) as Hb.
  { intros f. apply map_eq. intros k. destruct (decide (dev = k)) as [<-|].
    - by rewrite lookup_alter_eq, lookup_insert_eq, Hdv.
    - by rewrite lookup_alter_ne, lookup_insert_ne. }
  destruct keep.
  - injection H as <- <-. simpl. by rewrite Ha, Hb.
  - apply (f_equal fst) in H. simpl in H. subst sv'.
    match goal with |- context [foldl _ (?s, ?r) ?l] =>
      destruct (archive_frame actor text l s r) as (-> & -> & ->) end.
    simpl. by rewrite Ha, Hb.
Qed.

Lemma ended_ok now text k o : sale_ok k o → o_State o = StateInService → sale_ok k (ended now text o).
Proof.
  intros Hr Hs. split; simpl; eauto.
  - apply Hr.
  - intros _ _. apply Hr; by rewrite Hs.
  - intros _. apply Hr. rewrite Hs. set_solver.
  - intros _. apply Hr. rewrite Hs. set_solver.
Qed.

Lemma End_rewritten now id reason actor keep sv :
  sales_ok (sv_sales sv) → rewritten (sv_sales sv) (sv_sales (End now id reason actor keep sv).2).
Proof.
  intros Hok. unfold End. destruct (end_ now id reason actor keep sv) as [[sv' r]|] eqn:E; simpl; [|by apply rewritten_refl].
  apply end_shape in E as (o & d & dev & text & Ho & Hs & _ & _ & _ & -> & _).
  eapply rewritten_insert; try done; [|apply ended_ok; [by apply Hok|done]].
  split; [done|]. split; [done|]. right. simpl. by rewrite Hs.
Qed.

Lemma MoveSite_rewritten now id site sv :
  sales_ok (sv_sales sv) → rewritten (sv_sales sv) (sv_sales (MoveSite now id site sv).2).
Proof.
  intros Hok. unfold MoveSite. pose proof (rewritten_refl _ Hok) as Hrefl.
  destruct (lockInService sv id) as [dev|]; [|done].
  destruct (sv_sales sv !! id) as [o|] eqn:Ho; [|done]. destruct (sv_sites sv !! site); [|done].
  destruct (usable_by _ _); [|done]. simpl. pose proof (sales_rows _ Hok _ _ Ho) as [].
  eapply rewritten_insert; [done..| |by split|done]. split; [done|]. split; [done|by left].
Qed.

(** A swap ends one sale and plans another; a plan with configuration reopens
    the sale, unless its serial has an open one. *)
Lemma Swap_ok now uuid id reason serial oui actor sv :
  sales_ok (sv_sales sv) →
  sales_ok (sv_sales (Swap now uuid id reason serial oui actor sv).2) ∧
  sales_move (sv_sales sv) (sv_sales (Swap now uuid id reason serial oui actor sv).2).
Proof.
  intros Hok. unfold Swap. pose proof (sales_move_refl (sv_sales sv)) as Hrefl.
  destruct (negb _); [done|]. destruct (String.eqb _ ""); [done|].
  destruct (end_ now id reason actor true sv) as [[sv' r]|] eqn:E; [|done].
  assert (rewritten (sv_sales sv) (sv_sales sv')) as Hr.
  { pose proof (End_rewritten now id reason actor true sv Hok) as Hr. unfold End in Hr. by rewrite E in Hr. }
  pose proof (sales_ok_rewritten _ _ Hok Hr) as Hok'. apply rewritten_moves in Hr.
  destruct (sv_sales sv' !! id) as [o|]; [|done].
  match goal with |- context [insert_sale true ?n ?t] =>
    pose proof (insert_sale_ok true n t Hok' ltac:(by apply sale_ok_planned)) as Hi;
    pose proof (insert_sale_moves true n _ _ Hr) as Hm;
    destruct (insert_sale true n t) as [[?|?] ?] end; done.
Qed.

Lemma ChangePlan_ok now id planID configures sv :
  sales_ok (sv_sales sv) →
  sales_ok (sv_sales (ChangePlan now id planID configures sv).2) ∧
  sales_move (sv_sales sv) (sv_sales (ChangePlan now id planID configures sv).2).
Proof.
  intros Hok. unfold ChangePlan. pose proof (sales_move_refl (sv_sales sv)) as Hrefl.
  destruct (lockInService sv id) as [dev|] eqn:El; [|done].
  apply lockInService_ok in El as (o & d & Ho & Hs & Hd & _). rewrite Ho.
  destruct (sv_plans sv !! planID) as [plan|]; [|done]. destruct (usable_by _ _); [|done].
  destruct (configures && _) eqn:Ec; [done|]. simpl. pose proof (sales_rows _ Hok _ _ Ho) as Hr.
  assert (sale_ok id (change_plan now plan configures o)) as Hc.
  { destruct configures; split; simpl; rewrite ?Hs; try done; try (by apply Hr); try (by intros; rewrite Hd);
      intros; apply Hr; rewrite Hs; try done; set_solver. }
  assert (sale_moves o (change_plan now plan configures o)) as Hm.
  { split; [done|]. split; [done|]. simpl. destruct configures; [right; by rewrite Hs|by left]. }
  split; [|apply sales_move_insert; [done|by intros ? [= <-]%(eq_trans (eq_sym Ho))|done]].
  destruct configures; simpl in Ec.
  - apply sales_ok_insert; [done..|]. intros k' o' Hk' _ Hopen. simpl. by eapply no_open_for_serial.
  - eapply sales_ok_rewritten; [done|]. eapply rewritten_insert; done.
Qed.

(** ** Reachable states

    A state carries, next to the tables, the set of sales whose SIM and
    credential were found right at some Inform since they were last reopened:
    nothing reads it, it records what happened. *)

Definition Vetted := string → Prop.

(** The pass for [d] sees the sold SIM, on an allowed network, in a device that
    authenticates with its own credential. *)
Definition vets (w : OnbWorld) (d : Device) (co : list (string * CachedValue)) (id : string) : Prop :=
  ∃ o plan, pass_on w d o plan ∧ s_ID (o_sale o) = id ∧ deviceSecured w d = true ∧
    sim_ok (o_sale o) (allowed_plmns plan) (TrimSpace (SIMIdentifiers co).1) (TrimSpace (SIMIdentifiers co).2).

Definition with_sales (w : OnbWorld) (sales : Sales) (devices : Devices) : OnbWorld :=
  mkWorld sales (ow_plans w) (ow_templates w) (ow_credentials w) devices (ow_params w) (ow_jobs w).

(** The lifecycle service works on the same sales and devices. *)
Definition shares (w : OnbWorld) (sv : Service) : Prop := sv_sales sv = ow_sales w ∧ sv_devices sv = ow_devices w.

Inductive onb_step : OnbWorld * Vetted → OnbWorld * Vetted → Prop :=
| on_inform frs now no co onInform d w G :
    ow_devices w !! d_ID (d_identity d) = Some d → d_ID (d_identity d) ≠ EmptyString →
    co ≡ₚ map_to_list (GetCache (ow_params w) (d_ID (d_identity d))) →
    no ≡ₚ (map_to_list (device_names w d)).*1 →
    onb_step (w, G) ((reconcileOnboarding frs now no co onInform d w).1, λ id, G id ∨ vets w d co id)
| on_create refs uuid now o w G :
    onb_step (w, G) (with_sales w (CreateSale refs uuid now o (ow_sales w)).2 (ow_devices w), G)
| on_retry now id w G :
    (Retry now id (ow_sales w)).1 = Ok tt →
    onb_step (w, G) (with_sales w (Retry now id (ow_sales w)).2 (ow_devices w), λ x, G x ∧ x ≠ id)
| on_cancel now id w G :
    onb_step (w, G) (with_sales w (Cancel now id (ow_sales w)).2 (ow_devices w), G)
| on_cancel_reason now id reason w G :
    onb_step (w, G) (with_sales w (CancelWithReason now id reason (ow_sales w)).2 (ow_devices w), G)
| on_expire locked now source ttl reason limit w G :
    onb_step (w, G)
      (with_sales w (ExpireUncontacted locked now source ttl reason limit (ow_sales w)) (ow_devices w), G)
| on_end now id reason actor keep sv w G :
    shares w sv →
    let sv' := (End now id reason actor keep sv).2 in
    onb_step (w, G) (with_sales w (sv_sales sv') (sv_devices sv'), G)
| on_swap now uuid id reason serial oui actor sv w G :
    shares w sv →
    let sv' := (Swap now uuid id reason serial oui actor sv).2 in
    onb_step (w, G) (with_sales w (sv_sales sv') (sv_devices sv'), G)
| on_move now id site sv w G :
    shares w sv →
    let sv' := (MoveSite now id site sv).2 in
    onb_step (w, G) (with_sales w (sv_sales sv') (sv_devices sv'), G)
| on_plan now id planID configures sv w G :
    shares w sv →
    let sv' := (ChangePlan now id planID configures sv).2 in
    onb_step (w, G) (with_sales w (sv_sales sv') (sv_devices sv'), G)
| on_elsewhere w w' G :
    ow_sales w' = ow_sales w → onb_step (w, G) (w', G).

Definition nothing_vetted : Vetted := λ _, False.

Definition onb_reachable (s : OnbWorld * Vetted) : Prop :=
  ∃ w0, ow_sales w0 = ∅ ∧ rtc onb_step (w0, nothing_vetted) s.

Lemma CreateSale_ok refs uuid now o tab :
  sales_ok tab → sales_ok (CreateSale refs uuid now o tab).2 ∧ sales_move tab (CreateSale refs uuid now o tab).2.
Proof.
  intros Hok. unfold CreateSale. destruct (String.eqb _ ""); [split; [done|apply sales_move_refl]|]. split.
  - apply insert_sale_ok; [done|]. by apply sale_ok_planned.
  - apply insert_sale_moves, sales_move_refl.
Qed.

Lemma rewritten_ok_moves tab tab' :
  sales_ok tab → rewritten tab tab' → sales_ok tab' ∧ sales_move tab tab'.
Proof. intros Hok Hr. split; [by eapply sales_ok_rewritten|by apply rewritten_moves]. Qed.

(** Every statement keeps the invariant and the moves. *)
Lemma onb_step_ok s s' :
  onb_step s s' → sales_ok (ow_sales s.1) →
  sales_ok (ow_sales s'.1) ∧ sales_move (ow_sales s.1) (ow_sales s'.1).
Proof.
  destruct 1 as [| | | | | |now id reason actor keep sv w G [Es _] sv'|now uuid id reason serial oui actor sv w G [Es _] sv'
    |now id site sv w G [Es _] sv'|now id planID configures sv w G [Es _] sv'|w w' G Es];
    simpl; intros Hok; rewrite <- ?Es in Hok |- *.
  - apply rewritten_ok_moves; [done|]. by apply reconcile_rewritten.
  - by apply CreateSale_ok.
  - apply rewritten_ok_moves; [done|]. by apply Retry_rewritten.
  - apply rewritten_ok_moves; [done|]. by apply Cancel_rewritten.
  - apply rewritten_ok_moves; [done|]. by apply CancelWithReason_rewritten.
  - apply rewritten_ok_moves; [done|]. by apply Expire_rewritten.
  - apply rewritten_ok_moves; [done|]. by apply End_rewritten.
  - by apply Swap_ok.
  - apply rewritten_ok_moves; [done|]. by apply MoveSite_rewritten.
  - by apply ChangePlan_ok.
  - rewrite Es in *. split; [done|apply sales_move_refl].
Qed.

Lemma reachable_sales_ok s : onb_reachable s → sales_ok (ow_sales s.1).
Proof.
  intros (w0 & H0 & Hr). assert (sales_ok (ow_sales (w0, nothing_vetted).1)) as Hok
    by (simpl; rewrite H0; apply sales_ok_empty).
  induction Hr as [|? ? ? Hs _ IH]; [done|]. apply IH. by eapply onb_step_ok.
Qed.

(** *** What was checked *)

Definition past_checks (st : OnbState) : bool :=
  match st with
  | StateSecured | StateDiscovered | StateConfiguring | StateInService | StateEnded => true
  | _ => false
  end.

Definition all_vetted (s : OnbWorld * Vetted) : Prop :=
  ∀ id o, ow_sales s.1 !! id = Some o → past_checks (o_State o) = true → s.2 id.

(** A statement that is not a pass brings no sale past the checks. *)
Definition none_passed (tab tab' : Sales) : Prop :=
  ∀ id o', tab' !! id = Some o' → past_checks (o_State o') = true →
    ∃ o, tab !! id = Some o ∧ past_checks (o_State o) = true.

Lemma none_passed_refl tab : none_passed tab tab.
Proof. intros id o. eauto. Qed.

Lemma none_passed_insert tab tab0 k o :
  none_passed tab tab0 →
  (past_checks (o_State o) = true → ∃ o0, tab0 !! k = Some o0 ∧ past_checks (o_State o0) = true) →
  none_passed tab (<[k := o]> tab0).
Proof.
  intros Hn Ho id o'. destruct (decide (k = id)) as [<-|].
  - rewrite lookup_insert_eq. intros [= <-] Hp. destruct (Ho Hp) as (o0 & H0 & Hp0). by eapply Hn.
  - rewrite lookup_insert_ne by done. apply Hn.
Qed.

Lemma none_passed_exec id p f tab :
  (∀ o, p o = true → past_checks (o_State (f o)) = true → past_checks (o_State o) = true) →
  none_passed tab (exec_sale id p f tab).2.
Proof.
  intros Hf. unfold exec_sale, update_key. destruct (tab !! id) as [o|] eqn:E; simpl; [|apply none_passed_refl].
  destruct (p o) eqn:Ep; simpl; [|apply none_passed_refl].
  apply none_passed_insert; [apply none_passed_refl|]. intros Hp. eauto.
Qed.

Lemma none_passed_new refs o tab tab0 :
  none_passed tab tab0 → o_State o = StatePlanned → none_passed tab (insert_sale refs o tab0).2.
Proof.
  intros Hn Ho. unfold insert_sale. repeat (break_match_goal; [done|]). simpl.
  apply none_passed_insert; [done|]. by rewrite Ho.
Qed.

Lemma none_passed_expire locked now source ttl reason limit tab :
  none_passed tab (ExpireUncontacted locked now source ttl reason limit tab).
Proof.
  intros id o'. unfold ExpireUncontacted. rewrite lookup_update_where.
  destruct (tab !! id) as [o|] eqn:E; simpl; [|done]. intros [= <-]. destruct (existsb _ _); [done|eauto].
Qed.

Lemma none_passed_end now id reason actor keep sv sv' r :
  end_ now id reason actor keep sv = Ok (sv', r) → none_passed (sv_sales sv) (sv_sales sv').
Proof.
  intros (o & d & dev & text & Ho & Hs & _ & _ & _ & -> & _)%end_shape.
  apply none_passed_insert; [apply none_passed_refl|]. intros _. exists o. by rewrite Hs.
Qed.

Lemma none_passed_lifecycle sv now uuid id reason actor keep serial oui site planID configures :
  none_passed (sv_sales sv) (sv_sales (End now id reason actor keep sv).2) ∧
  none_passed (sv_sales sv) (sv_sales (Swap now uuid id reason serial oui actor sv).2) ∧
  none_passed (sv_sales sv) (sv_sales (MoveSite now id site sv).2) ∧
  none_passed (sv_sales sv) (sv_sales (ChangePlan now id planID configures sv).2).
Proof.
  pose proof (none_passed_refl (sv_sales sv)) as Hrefl. split_and!.
  - unfold End. destruct (end_ _ _ _ _ _ _) as [[sv' r]|] eqn:E; [|done]. by eapply none_passed_end.
  - unfold Swap. destruct (negb _); [done|]. destruct (String.eqb _ ""); [done|].
    destruct (end_ now id reason actor true sv) as [[sv' r]|] eqn:E; [|done].
    apply none_passed_end in E. destruct (sv_sales sv' !! id) as [o|]; [|done].
    match goal with |- context [insert_sale true ?n ?t] =>
      pose proof (none_passed_new true n _ _ E eq_refl) as Hn; destruct (insert_sale true n t) as [[?|?] ?] end; done.
  - unfold MoveSite. destruct (lockInService sv id); [|done].
    destruct (sv_sales sv !! id) as [o|] eqn:Ho; [|done]. destruct (sv_sites sv !! site); [|done].
    destruct (usable_by _ _); [|done]. simpl. apply none_passed_insert; [done|]. eauto.
  - unfold ChangePlan. destruct (lockInService sv id) as [dev|] eqn:El; [|done].
    apply lockInService_ok in El as (o & d & Ho & Hs & _). rewrite Ho.
    destruct (sv_plans sv !! planID); [|done]. destruct (usable_by _ _); [|done].
    destruct (configures && _); [done|]. simpl. apply none_passed_insert; [done|]. intros _.
    exists o. by rewrite Hs.
Qed.

(** A pass that brings a sale past the checks has made them. *)
Lemma pass_vets frs now no co onInform o plan d w dc bindTo cj jobs :
  decide_onboarding frs now no co onInform o plan d w = (dc, bindTo, cj, jobs) →
  past_checks (dc_State dc) = true → past_checks (o_State o) = false →
  deviceSecured w d = true ∧
  sim_ok (o_sale o) (allowed_plmns plan) (TrimSpace (SIMIdentifiers co).1) (TrimSpace (SIMIdentifiers co).2).
Proof.
  intros Hdec Hp Ho. pose proof (decide_moves _ _ _ _ _ _ _ _ _ _ _ _ _ Hdec) as Hm.
  apply decide_spec in Hdec as [(_ & _ & Hst & _)|(_ & _ & [Hst|[Hst _]] & _)]; try (by rewrite Hst in Hp).
  rewrite Hst in Hp, Hm. revert Hp Hm. unfold pass_facts, gather_facts.
  destruct (SIMIdentifiers co) as [iccid imsi]. cbn [fst snd].
  match goal with |- context [Evaluate o plan ?f] => set (facts := f) end. intros Hp Hm.
  assert (dc_State (evaluate_contacted o plan facts) = dc_State (Evaluate o plan facts)) as He.
  { unfold Evaluate in *. destruct (o_State o); simpl in *; try discriminate; reflexivity. }
  rewrite <- He in Hp. destruct (evaluate_contacted_state o plan facts) as [[Hin _]|(_ & Hs & Hsim)]; [|done].
  exfalso. repeat (apply elem_of_cons in Hin as [Hin|Hin]; [by rewrite Hin in Hp|]). by apply not_elem_of_nil in Hin.
Qed.

Lemma onb_step_vetted s s' :
  onb_step s s' → sales_ok (ow_sales s.1) → all_vetted s → all_vetted s'.
Proof.
  destruct 1 as [frs now no co onInform d w G Hd Hne _ _| |now id w G Hok| | | |now id reason actor keep sv w G [Es _] sv'
    |now uuid id reason serial oui actor sv w G [Es _] sv'|now id site sv w G [Es _] sv'
    |now id planID configures sv w G [Es _] sv'|w w' G Es]; intros Hsales Hv.
  1: { intros id o' Ho' Hp. simpl in *.
       destruct (reconcile_cases frs now no co onInform d w) as [[Esame _]|
         (o & plan & dc & bindTo & cj & jobs & Hon & Hdec & Eapp & _ & _)]; [left; rewrite Esame in Ho'; by eapply Hv|].
       destruct (OpenForDevice_some _ _ _ _ _ Hsales (proj1 Hon)) as [Hrow _].
       destruct (Apply_cases now o dc bindTo cj (ow_sales w) (ow_devices w)) as [[Et _]|(row & Hr & Hs & Et & _)];
         rewrite Eapp, Et in Ho'; [left; by eapply Hv|]. assert (row = o) as -> by congruence.
       destruct (decide (s_ID (o_sale o) = id)) as [<-|]; [|rewrite lookup_insert_ne in Ho' by done; left; by eapply Hv].
       rewrite lookup_insert_eq in Ho'. injection Ho' as <-.
       destruct (past_checks (o_State o)) eqn:Ep; [left; by eapply Hv|right].
       destruct (pass_vets _ _ _ _ _ _ _ _ _ _ _ _ _ Hdec Hp Ep). exists o, plan. auto. }
  2: { intros x o' Ho' Hp. simpl in *. assert (x ≠ id) as Hx.
       { intros ->. revert Ho' Hok. unfold Retry, exec_sale, update_key.
         destruct (ow_sales w !! id) as [o|] eqn:E; simpl; [|done]. destruct (_ || _); simpl; [|done].
         rewrite lookup_insert_eq. intros [= <-] _. simpl in Hp. by destruct (is_some _). }
       split; [|done]. revert Ho'. unfold Retry, exec_sale, update_key.
       destruct (ow_sales w !! id) as [o|]; simpl; [|by intros; eapply Hv].
       destruct (_ || _); simpl; [|by intros; eapply Hv].
       rewrite lookup_insert_ne by done. intros. by eapply Hv. }
  all: intros x o' Ho' Hp; simpl in *;
       match type of Ho' with ?tab !! _ = _ => assert (none_passed (ow_sales w) tab) as Hn end;
       [|destruct (Hn _ _ Ho' Hp) as (o0 & Ho0 & Hp0); by eapply Hv].
  - unfold CreateSale. destruct (String.eqb _ ""); [apply none_passed_refl|].
    apply none_passed_new; [apply none_passed_refl|done].
  - apply none_passed_exec. done.
  - apply none_passed_exec. done.
  - apply none_passed_expire.
  - rewrite <- Es. apply (none_passed_lifecycle sv now "" id reason actor keep "" "" "" "" false).
  - rewrite <- Es. apply (none_passed_lifecycle sv now uuid id reason actor false serial oui "" "" false).
  - rewrite <- Es. apply (none_passed_lifecycle sv now "" id "" "" false "" "" site "" false).
  - rewrite <- Es. apply (none_passed_lifecycle sv now "" id "" "" false "" "" "" planID configures).
  - rewrite Es. apply none_passed_refl.
Qed.

Lemma reachable_vetted s : onb_reachable s → all_vetted s.
Proof.
  intros (w0 & H0 & Hr). assert (sales_ok (ow_sales (w0, nothing_vetted).1)) as Hok
    by (simpl; rewrite H0; apply sales_ok_empty).
  assert (all_vetted (w0, nothing_vetted)) as Hv
    by (intros id o Ho; simpl in Ho; by rewrite H0, lookup_empty in Ho).
  induction Hr as [|? ? ? Hs _ IH]; [done|].
  apply IH; [by eapply onb_step_ok|by eapply onb_step_vetted].
Qed.
