(* ===== verification/OnboardingTheorems.v ===== *)
(** * Onboarding: theorems

    The claims about sales: what holds in every reachable state, how a sale may
    move, what was checked and configured before it is in service, whose device
    it may take, what ending it releases, and which cellular settings are
    written. *)

From S2P Require Import Prelude GoStrings Regex Protected Json JobModel JobStore JobLaws Devices ParamCache Onboarding Lifecycle.
From S2P Require Import OnboardingLaws.

(** In every reachable state a serial has at most one open sale, and every
    sale is consistent: one that was contacted says when, every sale past
    contact is bound to its device, one that reached service says since when,
    and an ended one when it ended. *)
Theorem reachable_sales_are_consistent w G :
  onb_reachable (w, G) →
  map_Forall sale_ok (ow_sales w) ∧
  ∀ k1 k2 o1 o2, ow_sales w !! k1 = Some o1 → ow_sales w !! k2 = Some o2 → Open o1 = true → Open o2 = true →
    s_ExpectedSerial (o_sale o1) = s_ExpectedSerial (o_sale o2) → k1 = k2.
Proof. intros Hr. destruct (reachable_sales_ok _ Hr) as [Hrows Hopen]. done. Qed.

(** C35: every statement of the repository, the reconciler and the lifecycle
    service refines the state machine of a sale: no sale disappears, what was
    sold and the device it is bound to never change, and its state stays or
    makes one of the allowed moves: progress never goes back, a hold comes only
    from the checks before SECURED, an operator's retry reopens a held or failed
    sale, a closed sale stays closed, and only ending or replanning it leaves
    service. *)
Theorem sales_follow_the_state_machine s s' :
  onb_reachable s → onb_step s s' → sales_move (ow_sales s.1) (ow_sales s'.1).
Proof. intros Hr Hs. apply (onb_step_ok _ _ Hs). by apply reachable_sales_ok. Qed.

(** A sale that is secured, being configured, in service or ended was, since
    it was last reopened, seen at an Inform at which the SIM in the device was
    the one sold and on a network its plan allows, and the device authenticated
    with a credential of its own. *)
Theorem service_requires_the_sold_sim w G id o :
  onb_reachable (w, G) → ow_sales w !! id = Some o →
  o_State o ∈ [StateSecured; StateDiscovered; StateConfiguring; StateInService; StateEnded] → G id.
Proof.
  intros Hr Ho Hin. apply (reachable_vetted _ Hr id o Ho).
  repeat (apply elem_of_cons in Hin as [->|Hin]; [done|]). by apply not_elem_of_nil in Hin.
Qed.

(** ** Configuration *)

(** Counting keeps the numbers non-negative and adds one per job. *)
Lemma count_jobs l acc :
  let r := foldl count_job acc l in
  oc_pending r + oc_done r + oc_failed r = oc_pending acc + oc_done acc + oc_failed acc + Z.of_nat (length l) ∧
  oc_pending acc <= oc_pending r ∧ oc_failed acc <= oc_failed r ∧
  (oc_pending r = oc_pending acc → oc_failed r = oc_failed acc → Forall (λ j, Status j = StatusSuccess) l).
Proof.
  cbv zeta. revert acc. induction l as [|j l IH]; intros acc; simpl; [split_and!; [lia..|constructor]|].
  destruct (IH (count_job acc j)) as (Hsum & Hp & Hf & Hall).
  assert (oc_pending (count_job acc j) + oc_done (count_job acc j) + oc_failed (count_job acc j) =
          oc_pending acc + oc_done acc + oc_failed acc + 1) as Hone by (unfold count_job; destruct (Status j); simpl; lia).
  assert (oc_pending acc <= oc_pending (count_job acc j) ∧ oc_failed acc <= oc_failed (count_job acc j)) as [Hp1 Hf1]
    by (unfold count_job; destruct (Status j); simpl; lia).
  split_and!; [lia..|]. intros Ep Ef. constructor; [|apply Hall; lia].
  assert (oc_pending (count_job acc j) = oc_pending acc ∧ oc_failed (count_job acc j) = oc_failed acc) as [E1 E2] by lia.
  unfold count_job in E1, E2. destruct (Status j); simpl in *; try done; lia.
Qed.

Lemma config_jobs_elem tab keys j :
  j ∈ config_jobs_of tab keys ↔ j ∈ rows tab ∧ CommandKey j ∈ keys.
Proof.
  unfold config_jobs_of. rewrite merge_sort_Permutation, list_elem_of_In, filter_In, <- list_elem_of_In.
  rewrite existsb_exists. setoid_rewrite <- list_elem_of_In. setoid_rewrite String.eqb_eq. naive_solver.
Qed.

Lemma config_jobs_NoDup tab keys : keys_unique tab → NoDup (CommandKey <$> config_jobs_of tab keys).
Proof.
  intros Hu. apply NoDup_fmap_2_strong.
  - intros j1 j2 [H1 _]%config_jobs_elem [H2 _]%config_jobs_elem He.
    apply elem_of_rows in H1 as [k1 H1], H2 as [k2 H2].
    assert (k1 = k2) as -> by (by eapply Hu). congruence.
  - unfold config_jobs_of. rewrite merge_sort_Permutation. apply NoDup_ListNoDup, List.NoDup_filter, NoDup_ListNoDup.
    unfold rows. apply NoDup_fmap_2_strong; [|apply NoDup_map_to_list].
    intros [k1 j1] [k2 j2] H1%elem_of_map_to_list H2%elem_of_map_to_list He. simpl in *. subst j2.
    f_equal. by eapply Hu.
Qed.

(** No job pending and none failed: every key names a job that succeeded. *)
Lemma ConfigOutcome_done tab keys :
  keys_unique tab → oc_pending (ConfigOutcome tab keys) <= 0 → oc_failed (ConfigOutcome tab keys) <= 0 →
  ∀ key, key ∈ keys → ∃ j, j ∈ rows tab ∧ CommandKey j = key ∧ Status j = StatusSuccess.
Proof.
  intros Hu. unfold ConfigOutcome. simpl. set (found := config_jobs_of tab keys).
  destruct (count_jobs found (mkOutcome 0 0 0 EmptyString)) as (Hsum & Hp & Hf & Hall). simpl in *.
  intros Hpend Hfail.
  assert (CommandKey <$> found ⊆ keys) as Hsub.
  { intros key (j & -> & Hj)%list_elem_of_fmap. by apply config_jobs_elem in Hj as [_ Hk]. }
  pose proof (config_jobs_NoDup tab keys Hu) as Hnd. fold found in Hnd.
  pose proof (NoDup_submseteq _ _ Hnd Hsub) as Hkeys.
  pose proof (submseteq_length _ _ Hkeys) as Hlen. rewrite length_fmap in Hlen.
  assert (CommandKey <$> found ≡ₚ keys) as Hperm.
  { apply submseteq_length_Permutation; [done|]. rewrite length_fmap. lia. }
  intros key Hkey. rewrite <- Hperm in Hkey. apply list_elem_of_fmap in Hkey as (j & -> & Hj).
  exists j. pose proof Hj as [Hrow _]%config_jobs_elem. split; [done|]. split; [done|].
  assert (Forall (λ j, Status j = StatusSuccess) found) as Hs by (apply Hall; lia).
  rewrite Forall_forall in Hs. by apply Hs.
Qed.

Lemma not_discovered_names (names : gmap string bool) : negb (size names =? 0)%nat = true → names ≠ ∅.
Proof. intros H ->. by rewrite map_size_empty in H. Qed.

(** What the machine requires before it says IN_SERVICE. *)
Lemma in_service_facts w o d co plan :
  keys_unique (ow_jobs w) → o_State o ≠ StateInService →
  StateInService = dc_State (Evaluate o plan (pass_facts w o d co)) →
  (o_State o ∈ [StatePlanned; StateContacted; StateSecured] → requires_discovery plan = true →
     device_names w d ≠ ∅) ∧
  (o_State o ≠ StateConfiguring → HasConfiguration plan = false) ∧
  (o_State o = StateConfiguring →
     ∀ key, key ∈ o_ConfigJobs o → ∃ j, j ∈ rows (ow_jobs w) ∧ CommandKey j = key ∧ Status j = StatusSuccess).
Proof.
  intros Hu Hns He.
  assert (StateInService = dc_State (evaluate_discovered plan) → HasConfiguration plan = false) as Hd.
  { intros H. by destruct (evaluate_discovered_state plan) as [(E & _)|(_ & _ & E)]; [rewrite E in H|]. }
  assert (∀ f, f_Discovered f = negb (size (device_names w d) =? 0)%nat →
    StateInService = dc_State (evaluate_secured plan f) →
    HasConfiguration plan = false ∧ (requires_discovery plan = true → device_names w d ≠ ∅)) as Hs.
  { intros f Hf H. destruct (evaluate_secured_state plan f) as [[E Hdisc]|[E _]]; rewrite E in H; [|done].
    split; [by apply Hd|]. intros Hq%Hdisc. rewrite Hf in Hq. by apply not_discovered_names. }
  assert (f_Discovered (pass_facts w o d co) = negb (size (device_names w d) =? 0)%nat) as Hf.
  { unfold pass_facts, gather_facts. by destruct (SIMIdentifiers co). }
  assert (StateInService = dc_State (evaluate_contacted o plan (pass_facts w o d co)) →
    HasConfiguration plan = false ∧ (requires_discovery plan = true → device_names w d ≠ ∅)) as Hc.
  { intros H. destruct (evaluate_contacted_state o plan (pass_facts w o d co)) as [[Hin _]|(E & _)].
    - rewrite <- H in Hin. set_solver.
    - rewrite E in H. by eapply Hs. }
  unfold Evaluate in He. destruct (o_State o) eqn:Est; try done; simpl in He.
  - destruct (f_Informed _); [|done]. destruct (Hc He). done.
  - destruct (Hc He). done.
  - destruct (Hs _ Hf He). done.
  - split; [set_solver|]. split; [|done]. intros _. by apply Hd.
  - split; [set_solver|]. split; [done|]. intros _.
    unfold evaluate_configuring in He. revert He. unfold pass_facts, gather_facts.
    destruct (SIMIdentifiers co) as [iccid imsi]. cbn [f_ConfigFailed f_ConfigPending].
    destruct (o_ConfigJobs o) as [|key0 keys]; [intros _ key Hk; by apply not_elem_of_nil in Hk|].
    cbn [length Nat.eqb]. destruct (0 <? oc_failed _) eqn:Ef; [done|]. destruct (0 <? oc_pending _) eqn:Ep; [done|].
    intros _. apply ConfigOutcome_done; [done|bool_to_prop; lia..].
Qed.

(** When a pass puts a sale in service, the plan it was sold with is done:
    one that needs the data model has it discovered, every configuration job the
    sale recorded has succeeded, and a sale that was never configured has a plan
    with nothing to write. *)
Theorem service_starts_fully_configured frs now no co onInform d w G id o o' :
  onb_reachable (w, G) → keys_unique (ow_jobs w) →
  ow_sales w !! id = Some o → o_State o ≠ StateInService →
  ow_sales (reconcileOnboarding frs now no co onInform d w).1 !! id = Some o' → o_State o' = StateInService →
  ∃ plan, plan_of w o plan ∧
    (o_State o ∈ [StatePlanned; StateContacted; StateSecured] → requires_discovery plan = true →
       device_names w d ≠ ∅) ∧
    (o_State o ≠ StateConfiguring → HasConfiguration plan = false) ∧
    (o_State o = StateConfiguring →
       ∀ key, key ∈ o_ConfigJobs o → ∃ j, j ∈ rows (ow_jobs w) ∧ CommandKey j = key ∧ Status j = StatusSuccess).
Proof.
  intros Hr Hu Ho Hns Ho' Hs'. apply reachable_sales_ok in Hr as Hok. simpl in Hok.
  destruct (reconcile_cases frs now no co onInform d w) as [[Esame _]|
    (o1 & plan & dc & bindTo & cj & jobs & [Hon Hplan] & Hdec & Eapp & _ & _)];
    [rewrite Esame in Ho'; congruence|].
  apply (OpenForDevice_some _ _ _ _ _ Hok) in Hon as [Hrow _].
  destruct (Apply_cases now o1 dc bindTo cj (ow_sales w) (ow_devices w)) as [[Et _]|(row & Hrw & Hst & Et & _)];
    rewrite Eapp, Et in Ho'; [congruence|]. assert (row = o1) as -> by congruence.
  destruct (decide (s_ID (o_sale o1) = id)) as [<-|]; [|rewrite lookup_insert_ne in Ho' by done; congruence].
  rewrite lookup_insert_eq in Ho'. injection Ho' as <-. simpl in Hs'. assert (o1 = o) as -> by congruence.
  exists plan. split; [done|].
  apply decide_spec in Hdec as [(_ & _ & E & _)|(_ & _ & [E|[E _]] & _)]; rewrite Hs' in E; try discriminate.
  by eapply in_service_facts.
Qed.

(** ** Tenancy *)

Definition customer_of (devices : Devices) (dev : string) : option (option string) :=
  (λ d, d_CustomerID (d_ownership d)) <$> devices !! dev.

(** Joining a sale gives a device without a customer the sale's. *)
Lemma joined_customers now o dv dev (devs : Devices) :
  devs !! dev = Some dv → may_join (s_CustomerID (o_sale o)) dv = true →
  (∀ x c, customer_of devs x = Some (Some c) → customer_of (<[dev := assign now o dv]> devs) x = Some (Some c)) ∧
  (∀ x c, customer_of devs x = Some None → customer_of (<[dev := assign now o dv]> devs) x = Some (Some c) →
     x = dev ∧ s_CustomerID (o_sale o) = Some c) ∧
  (∀ c, s_CustomerID (o_sale o) = Some c → customer_of (<[dev := assign now o dv]> devs) dev = Some (Some c)).
Proof.
  intros Hdv Hj. unfold customer_of. unfold may_join in Hj. split_and!.
  - intros x c. destruct (decide (dev = x)) as [<-|]; [|by rewrite lookup_insert_ne].
    rewrite lookup_insert_eq, Hdv. simpl. by intros [= ->].
  - intros x c. destruct (decide (dev = x)) as [<-|]; [|rewrite lookup_insert_ne by done; congruence].
    rewrite lookup_insert_eq, Hdv. simpl. intros [= ->]. simpl. intros [= ->]. done.
  - intros c Hc. rewrite lookup_insert_eq. simpl. rewrite Hc in *.
    destruct (d_CustomerID (d_ownership dv)) as [c'|]; [|done]. by apply String.eqb_eq in Hj as ->.
Qed.

(** A pass never moves an owned device: every device keeps the customer it
    has, a device without one can only get the customer of the sale the pass is
    about, and a device that a sale with a customer is bound to in the pass
    belongs to that customer afterwards. *)
Theorem sale_never_takes_an_owned_device frs now no co onInform d w G :
  onb_reachable (w, G) → d_ID (d_identity d) ≠ EmptyString →
  let w' := (reconcileOnboarding frs now no co onInform d w).1 in
  (∀ dev c, customer_of (ow_devices w) dev = Some (Some c) → customer_of (ow_devices w') dev = Some (Some c)) ∧
  (∀ dev c, customer_of (ow_devices w) dev = Some None → customer_of (ow_devices w') dev = Some (Some c) →
     dev = d_ID (d_identity d) ∧ ∃ o plan, pass_on w d o plan ∧ s_CustomerID (o_sale o) = Some c) ∧
  (∀ id o o' dev c, ow_sales w !! id = Some o → o_DeviceID o = None → s_CustomerID (o_sale o) = Some c →
     ow_sales w' !! id = Some o' → o_DeviceID o' = Some dev → customer_of (ow_devices w') dev = Some (Some c)).
Proof.
  intros Hr Hdne w'. apply reachable_sales_ok in Hr as Hok. simpl in Hok.
  destruct (reconcile_cases frs now no co onInform d w) as [[Es Ed]|
    (o & plan & dc & bindTo & cj & jobs & Hon & Hdec & Es & Ed & Hch)]; fold w' in Es, Ed.
  { rewrite Es, Ed. split_and!; [done|congruence|]. intros id o o' dev c Ho Hn _ Ho'. congruence. }
  destruct (OpenForDevice_some _ _ _ _ _ Hok (proj1 Hon)) as [Hrow Hopen].
  pose proof (decide_spec _ _ _ _ _ _ _ _ _ _ _ _ _ Hdec) as Hsp.
  destruct (Apply_cases now o dc bindTo cj (ow_sales w) (ow_devices w)) as [[Et Ev]|(row & Hrw & Hst & Et & Ev)];
    rewrite Et in Es; rewrite Es; clear Es Et.
  { rewrite Ed, Ev. split_and!; [done|congruence|]. intros id o0 o' dev c Ho Hn _ Ho'. congruence. }
  assert (row = o) as -> by congruence. clear Hrw Hst.
  destruct Ev as [[Ev Hnp]|(Hpl & Hbne & dv & Hdv & Hjoin & Ev)]; rewrite Ed, Ev; clear Ed Ev.
  - split_and!; [done|congruence|]. intros id o0 o' dev c Ho Hn Hc Ho' Hdev.
    destruct (decide (s_ID (o_sale o) = id)) as [<-|]; [|rewrite lookup_insert_ne in Ho' by done; congruence].
    rewrite lookup_insert_eq in Ho'. injection Ho' as <-. assert (o0 = o) as -> by congruence.
    simpl in Hdev. rewrite Hn in Hdev. destruct (String.eqb_spec bindTo ""); [done|].
    destruct Hnp as [Hnp|]; [|done]. exfalso.
    assert (o_State o = StateOnHold) as Hh.
    { pose proof (sok_bound _ _ (sales_rows _ Hok _ _ Hrow)) as Hb. rewrite Hn in Hb. apply Open_state in Hopen.
      destruct (o_State o); try done; try (by destruct Hb; set_solver); set_solver. }
    destruct (decide_on_hold _ _ _ _ _ _ _ _ _ _ _ _ _ Hh Hdec) as (? & ? & ?). by destruct Hch as [?|[?|?]].
  - destruct Hsp as [(_ & _ & _ & He & _)|(_ & -> & _)]; [done|].
    destruct (joined_customers now o dv _ _ Hdv Hjoin) as (Hk & Hg & Hb). split_and!; [done| |].
    + intros dev c H1 H2. destruct (Hg _ _ H1 H2). eauto.
    + intros id o0 o' dev c Ho Hn Hc Ho' Hdev.
      destruct (decide (s_ID (o_sale o) = id)) as [<-|]; [|rewrite lookup_insert_ne in Ho' by done; congruence].
      rewrite lookup_insert_eq in Ho'. injection Ho' as <-. assert (o0 = o) as -> by congruence.
      simpl in Hdev. rewrite Hn in Hdev. destruct (String.eqb_spec (d_ID (d_identity d)) ""); [done|].
      injection Hdev as <-. by apply Hb.
Qed.

(** ** Ending a service *)

Definition still_mapped (sv : Service) (account : string) : bool :=
  existsb (λ m, String.eqb (m_AccountID m) account && active m) (rows (sv_mappings sv)).

(** A profile is gone when its account has no device, and kept in the archive if
    it held anything. *)
Definition profile_archived (actor text : string) (sv sv' : Service) (account : string) : Prop :=
  sv_profiles sv' !! account = None ∧
  ∀ p, sv_profiles sv !! account = Some p → holds_something p = true →
    mkArchived account p text actor ∈ sv_archive sv'.

Lemma archive_once actor text sv r a :
  let sv' := (archive_if_last actor text (sv, r) a).1 in
  sv_mappings sv' = sv_mappings sv ∧ (∀ x, x ∈ sv_archive sv → x ∈ sv_archive sv') ∧
  (∀ b, b ≠ a → sv_profiles sv' !! b = sv_profiles sv !! b) ∧
  (sv_profiles sv' !! a = sv_profiles sv !! a ∨ sv_profiles sv' !! a = None) ∧
  (still_mapped sv a = false → profile_archived actor text sv sv' a).
Proof.
  cbv zeta. unfold archive_if_last. fold (still_mapped sv a).
  destruct (still_mapped sv a); [simpl; split_and!; auto; done|].
  destruct (sv_profiles sv !! a) as [p|] eqn:Ep; [destruct (holds_something p) eqn:Eh|];
    cbn [fst sv_profiles sv_archive sv_mappings]; (split; [done|]); (split; [try done; intros x Hx; apply elem_of_app; by left|]);
    (split; [by intros b Hb; rewrite lookup_delete_ne|]); (split; [right; apply lookup_delete_eq|]); intros _;
    (split; [apply lookup_delete_eq|]); simpl; intros q; rewrite Ep; try done; intros [= <-].
  - intros _. apply elem_of_app. right. by apply list_elem_of_singleton.
  - congruence.
Qed.

Lemma archive_all actor text l sv r :
  let sv' := (foldl (archive_if_last actor text) (sv, r) l).1 in
  (∀ x, x ∈ sv_archive sv → x ∈ sv_archive sv') ∧
  (∀ a, sv_profiles sv !! a = None → sv_profiles sv' !! a = None) ∧
  ∀ a, a ∈ l → still_mapped sv a = false → profile_archived actor text sv sv' a.
Proof.
  cbv zeta. revert sv r. induction l as [|b l IH]; intros sv r; cbn [foldl].
  { split_and!; [done..|]. intros a Ha. by apply not_elem_of_nil in Ha. }
  destruct (archive_once actor text sv r b) as (Hm & Har & Hoth & Hown & Hdone).
  destruct (archive_if_last actor text (sv, r) b) as [sv1 r1]. simpl in *.
  destruct (IH sv1 r1) as (Har' & Hnone & Hall).
  split; [by auto|]. split.
  - intros a Ha. apply Hnone. destruct (decide (a = b)) as [->|]; [destruct Hown; congruence|by rewrite Hoth].
  - intros a Ha Hs. assert (still_mapped sv1 a = false) as Hs1 by (unfold still_mapped; by rewrite Hm).
    destruct (decide (a = b)) as [->|Hne].
    + destruct (Hdone Hs) as [Hn Hin]. split; [by apply Hnone|]. intros p Hp Hh. by apply Har', Hin.
    + apply elem_of_cons in Ha as [?|Ha]; [done|]. destruct (Hall a Ha Hs1) as [Hn Hin].
      split; [done|]. intros p Hp. apply Hin. by rewrite Hoth.
Qed.

Lemma note_mapping_grows r m a :
  a ∈ er_Accounts r ∨ a = m_AccountID m → a ∈ er_Accounts (note_mapping r m).
Proof.
  unfold note_mapping.
  destruct (if String.eqb (er_MappingRole r) "" || String.eqb (m_Role m) "gateway" then _ else _) as [role plan].
  simpl. destruct (existsb _ _) eqn:E; intros [Ha|Ha]; try (apply elem_of_app; set_solver); [done|].
  apply existsb_exists in E as (x & Hx%list_elem_of_In & He%String.eqb_eq). by rewrite Ha, He.
Qed.

Lemma note_mapping_accounts l r m :
  m ∈ l ∨ m_AccountID m ∈ er_Accounts r → m_AccountID m ∈ er_Accounts (foldl note_mapping r l).
Proof.
  revert r. induction l as [|m0 l IH]; intros r [Hm|Hm]; cbn [foldl]; [by apply not_elem_of_nil in Hm|done| |].
  - apply elem_of_cons in Hm as [->|Hm]; [|by apply IH; left]. apply IH. right. apply note_mapping_grows. by right.
  - apply IH. right. by apply note_mapping_grows; left.
Qed.

(** Ending a service succeeds only for a sale in service whose device is
    still the customer's; it ends the sale, leaves the device without a customer
    or site and without an active mapping, and removes the profile of every
    account that thereby has no device left, keeping in the archive what it
    held; a refused request changes nothing. *)
Theorem ending_a_service_releases_everything now id reason actor keep sv :
  match End now id reason actor keep sv with
  | (Err _, sv') => sv' = sv
  | (Ok _, sv') =>
      ∃ o d dev text, sv_sales sv !! id = Some o ∧ o_State o = StateInService ∧ o_DeviceID o = Some dev ∧
        sv_devices sv !! dev = Some d ∧
        (s_CustomerID (o_sale o) = None ∨ d_CustomerID (d_ownership d) = s_CustomerID (o_sale o)) ∧
        o_State <$> sv_sales sv' !! id = Some StateEnded ∧
        (∃ d', sv_devices sv' !! dev = Some d' ∧ d_CustomerID (d_ownership d') = None ∧ d_SiteID (d_ownership d') = None) ∧
        (∀ m, m ∈ rows (sv_mappings sv') → m_DeviceID m = dev → active m = false) ∧
        (keep = false → ∀ m, m ∈ rows (sv_mappings sv) → mapped_to dev m = true →
           still_mapped sv' (m_AccountID m) = false → profile_archived actor text sv sv' (m_AccountID m))
  end.
Proof.
  unfold End. destruct (end_ now id reason actor keep sv) as [[sv' r]|] eqn:E; [|done].
  pose proof (end_shape _ _ _ _ _ _ _ _ E) as (o & d & dev & text0 & Ho & Hs & Hd & Hdv & Hc & Es & Ev & Em).
  revert E. unfold end_. destruct (reasonText reason) as [text|]; [|done].
  destruct (lockInService sv id) as [dev'|] eqn:El; [|done].
  assert (dev' = dev) as ->.
  { apply lockInService_ok in El as (o2 & d2 & Ho2 & _ & Hd2 & _). congruence. }
  cbn [result_bind]. intros [= E]. exists o, d, dev, text. do 5 (split; [done|]).
  rewrite Es, Ev, lookup_insert_eq. split; [done|]. split; [exists (release now d); split; [apply lookup_insert_eq|done]|].
  split.
  - intros m (k & Hk)%elem_of_rows Hm. rewrite Em, lookup_update_where in Hk.
    destruct (sv_mappings sv !! k) as [m0|]; [|done]. injection Hk as <-.
    destruct (mapped_to dev m0) eqn:Emt; [done|]. unfold mapped_to in Emt. by rewrite Hm, String.eqb_refl in Emt.
  - intros -> m Hm Hmt Hst. apply (f_equal fst) in E. simpl in E. subst sv'.
    match goal with |- context [foldl (archive_if_last actor text) (?s, ?r0) ?l] =>
      destruct (archive_all actor text l s r0) as (_ & _ & Hall); apply (Hall (m_AccountID m)) end.
    + apply note_mapping_accounts. left. apply list_elem_of_In, filter_In. by split; [apply list_elem_of_In|].
    + unfold still_mapped in *. by rewrite Em in Hst.
Qed.

(** ** Cellular settings *)

Lemma add_write_ok names cache path value typ x :
  x ∈ add_write names cache path value typ →
  w_Name x = path ∧ path ≠ EmptyString ∧ w_Value x = value ∧ value ≠ EmptyString ∧ names !! path = Some true ∧
  value_of cache path ≠ value.
Proof.
  unfold add_write. destruct (_ || _ || _ || _) eqn:E; [intros Hx; by apply not_elem_of_nil in Hx|].
  intros ->%list_elem_of_singleton. simpl. bool_to_prop. split_and!; try done.
  destruct (names !! path) as [[]|]; done.
Qed.

Lemma lowest_le order ap0 name i :
  let ap := foldl (λ ap name, match apn_index name with
                              | Some i => if (ap <? 0) || (i <? ap) then i else ap
                              | None => ap
                              end) ap0 order in
  (∀ n j, apn_index n = Some j → 0 <= j) →
  (0 <= ap0 → 0 <= ap <= ap0) ∧ (name ∈ order → apn_index name = Some i → 0 <= ap <= i).
Proof.
  cbv zeta. intros Hpos. revert ap0. induction order as [|n l IH]; intros ap0; simpl.
  { split; [lia|]. intros Hn. by apply not_elem_of_nil in Hn. }
  destruct (apn_index n) as [j|] eqn:Ej.
  - pose proof (Hpos _ _ Ej). destruct ((ap0 <? 0) || (j <? ap0)) eqn:Ec.
    + destruct (IH j) as [IH1 IH2]. rewrite orb_true_iff, !Z.ltb_lt in Ec. split; [lia|].
      intros [<-|Hn]%elem_of_cons Hi; [rewrite Ej in Hi; injection Hi as <-; lia|by apply IH2].
    + destruct (IH ap0) as [IH1 IH2]. rewrite orb_false_iff, !Z.ltb_ge in Ec. split; [lia|].
      intros [<-|Hn]%elem_of_cons Hi; [rewrite Ej in Hi; injection Hi as <-; lia|by apply IH2].
  - destruct (IH ap0) as [IH1 IH2]. split; [lia|].
    intros [<-|Hn]%elem_of_cons Hi; [congruence|by apply IH2].
Qed.

Lemma digits_value_nonneg s acc v : digits_value acc s = Some v → 0 <= acc → 0 <= v.
Proof.
  revert acc. induction s as [|c s IH]; intros acc; simpl; [by intros [= <-]|].
  destruct (is_digit c) eqn:E; [|done]. intros H Hacc. apply IH in H; [done|].
  unfold is_digit, byte_between in E. unfold digit_value. apply andb_true_iff in E as [E%Nat.leb_le _]. lia.
Qed.

Lemma apn_index_nonneg n j : apn_index n = Some j → 0 <= j.
Proof.
  unfold apn_index. destruct (MatchString apnRE n); [|done].
  destruct (digits_value 0 _) as [v|] eqn:E; [|done]. intros [= <-].
  apply digits_value_nonneg in E; [|lia]. unfold max_int64. lia.
Qed.

Lemma vendorLeaf_prefix order prefix suffix :
  vendorLeaf order prefix suffix ≠ EmptyString → HasPrefix (vendorLeaf order prefix suffix) prefix = true.
Proof.
  unfold vendorLeaf. destruct (List.find _ order) as [name|] eqn:E; [|done]. intros _.
  apply find_some in E as [_ Hm]. apply MatchString_correct in Hm. unfold RCat in Hm.
  inversion Hm as [| |? ? u v Hu Hv| | | |]; subst. apply lit_lang in Hu as ->. apply HasPrefix_app.
Qed.

(** Every cellular setting that is written is a path the discovered data
    model has as writable, with a value the plan gives it that is not empty and
    not the cached one; it is under the lowest access point instance that has an
    APN, or it is a vendor's bootstrap APN. An unneeded write, which could drop
    the link the device is managed over, is never made. *)
Theorem cellular_writes_are_needed_and_allowed order p names cache x :
  x ∈ CellularWrites order p names cache →
  names !! w_Name x = Some true ∧ w_Value x ≠ EmptyString ∧ value_of cache (w_Name x) ≠ w_Value x ∧
  (MatchString bootstrapAPNRE (w_Name x) = true ∧ w_Value x = cp_BootstrapAPN p ∨
   ∃ ap, 0 <= ap ∧ (∀ name i, name ∈ order → apn_index name = Some i → ap <= i) ∧
     HasPrefix (w_Name x) ("Device.Cellular.AccessPoint." ++ Itoa ap ++ ".") = true ∧
     w_Value x ∈ [cp_APN p; cp_DNN p; Itoa (cp_MTU p)]).
Proof.
  unfold CellularWrites. destruct (profile_empty p); [intros Hx; by apply not_elem_of_nil in Hx|]. cbv zeta.
  intros [Hx|Hx]%elem_of_app.
  - destruct (0 <=? lowest_access_point order) eqn:Eap; [|by apply not_elem_of_nil in Hx]. apply Z.leb_le in Eap.
    set (prefix := ("Device.Cellular.AccessPoint." ++ Itoa (lowest_access_point order) ++ ".")%string) in Hx.
    assert (∃ path value typ, x ∈ add_write names cache path value typ ∧
      (path ≠ EmptyString → HasPrefix path prefix = true) ∧ value ∈ [cp_APN p; cp_DNN p; Itoa (cp_MTU p)])
      as (path & value & typ & Ha & Hp & Hv).
    { apply elem_of_app in Hx as [Hx|[Hx|Hx]%elem_of_app].
      - do 3 eexists. split; [exact Hx|]. split; [intros _; apply HasPrefix_app|set_solver].
      - do 3 eexists. split; [exact Hx|]. split; [apply vendorLeaf_prefix|set_solver].
      - destruct (0 <? cp_MTU p); [|by apply not_elem_of_nil in Hx].
        do 3 eexists. split; [exact Hx|]. split; [apply vendorLeaf_prefix|set_solver]. }
    apply add_write_ok in Ha as (En & Hne & Ev & Hnv & Hw & Hc). rewrite En, Ev. split_and!; [done..|].
    right. exists (lowest_access_point order). split_and!; [done| |by apply Hp|done].
    intros name i Hin Hi. by apply (lowest_le order (-1) name i apn_index_nonneg).
  - destruct (List.find _ order) as [name|] eqn:E; [|by apply not_elem_of_nil in Hx].
    apply find_some in E as [_ Hm]. apply add_write_ok in Hx as (En & Hne & Ev & Hnv & Hw & Hc).
    rewrite En, Ev. split_and!; [done..|]. by left.
Qed.

(** ** Witnesses: a sale that goes from plan to service *)

Definition w_sale : Onboarding :=
  mkOnboarding (mkSale "" (Some "tenant-a") "" "S1" "" "8927" "" "acc-1" "" "" "bss" "" "op" "" 0)
    None None (Some "plan-1") "" StatePlanned "" "" [] 0 None None None.
Definition w_profile : CellularProfile := mkCellular "internet" "" 0 "".
Definition w_plan : ServicePlan := mkPlan "plan-1" None "P1" "Basic" [] w_profile [] true.

Definition apn_path : string := "Device.Cellular.AccessPoint.1.APN".
Definition iccid_path : string := "Device.Cellular.Interface.1.USIM.ICCID".
Definition w_cached (v : string) : CachedValue := mkCached v "xsd:string" 5 "INFORM".

Definition w_device : Device :=
  mkDevice (mkIdentity "d-1" "0000CA-S1" "0000CA" "FastMile" "S1" 1) "Nokia"
    (mkPresence StOnline None [] None None) (mkOwnership None None [] None) no_reach RootDevice2 None AuthModeMTLS
    no_profile [] 1.
Definition w_params : Params :=
  mkParams {[ "d-1" := {[ iccid_path := w_cached "8927" ]} ]} []
    {[ "d-1" := mkNames {[ apn_path := true ]} [] false "1.0" 4 ]} ∅ ∅ ∅.

Definition w_start : OnbWorld :=
  mkWorld ∅ {[ "plan-1" := w_plan ]} ∅ ∅ {[ "d-1" := w_device ]} w_params ∅.
Definition w_sold : OnbWorld :=
  with_sales w_start (CreateSale true "o-1" 2 w_sale ∅).2 (ow_devices w_start).

Definition w_fresh (n : nat) : Fresh := mkFresh ("j-" ++ Itoa (Z.of_nat n)) "20261101" "0000000a".
Definition w_names_order : list string := [apn_path].
Definition w_cache_order : list (string * CachedValue) := [(iccid_path, w_cached "8927")].
Definition w_pass (now : Z) (w : OnbWorld) : OnbWorld :=
  (reconcileOnboarding w_fresh now w_names_order w_cache_order true
     (default w_device (ow_devices w !! "d-1")) w).1.

(** Contact, checks and configuration in one pass; then the job succeeds. *)
Definition w_configuring : OnbWorld := w_pass 6 w_sold.
Definition w_configured : OnbWorld := set_jobs w_configuring (MarkSuccess 8 "j-0" (ow_jobs w_configuring)).

Lemma w_configuring_reachable :
  onb_reachable (w_configuring, λ id, nothing_vetted id ∨ vets w_sold w_device w_cache_order id).
Proof.
  exists w_start. split; [reflexivity|].
  apply (rtc_l _ _ (w_sold, nothing_vetted)); [exact (on_create true "o-1" 2 w_sale w_start nothing_vetted)|].
  apply rtc_once. refine (on_inform w_fresh 6 w_names_order w_cache_order true w_device w_sold nothing_vetted _ _ _ _).
  - vm_compute. reflexivity.
  - discriminate.
  - vm_compute. reflexivity.
  - vm_compute. reflexivity.
Qed.

Lemma w_configured_reachable :
  onb_reachable (w_configured, λ id, nothing_vetted id ∨ vets w_sold w_device w_cache_order id).
Proof.
  destruct w_configuring_reachable as (w0 & H0 & Hr). exists w0. split; [exact H0|].
  eapply rtc_r; [exact Hr|]. by apply on_elsewhere.
Qed.

Lemma reachable_sales_are_consistent_witness : map_Forall sale_ok (ow_sales w_configuring).
Proof. exact (proj1 (reachable_sales_are_consistent _ _ w_configuring_reachable)). Defined.

Lemma sales_follow_the_state_machine_witness :
  sales_move (ow_sales w_configuring) (Cancel 9 "o-1" (ow_sales w_configuring)).2.
Proof.
  exact (sales_follow_the_state_machine _ _ w_configuring_reachable
    (on_cancel 9 "o-1" w_configuring (λ id, nothing_vetted id ∨ vets w_sold w_device w_cache_order id))).
Defined.

Lemma service_requires_the_sold_sim_witness : vets w_sold w_device w_cache_order "o-1".
Proof.
  destruct (ow_sales w_configuring !! "o-1") as [o|] eqn:E; [|revert E; vm_compute; discriminate].
  assert (o_State o = StateConfiguring) as Hs by (revert E; vm_compute; by intros [= <-]).
  destruct (service_requires_the_sold_sim _ _ "o-1" o w_configuring_reachable E) as [[]|Hv]; [|exact Hv].
  rewrite Hs. right. right. left.
Defined.

Lemma service_starts_fully_configured_witness :
  ∃ o, ow_sales w_configured !! "o-1" = Some o ∧
    ∀ key, key ∈ o_ConfigJobs o → ∃ j, j ∈ rows (ow_jobs w_configured) ∧ CommandKey j = key ∧ Status j = StatusSuccess.
Proof.
  destruct (ow_sales w_configured !! "o-1") as [o|] eqn:E; [|revert E; vm_compute; discriminate].
  assert (o_State o = StateConfiguring) as Hs by (revert E; vm_compute; by intros [= <-]).
  destruct (ow_sales (w_pass 10 w_configured) !! "o-1") as [o'|] eqn:E'; [|revert E'; vm_compute; discriminate].
  assert (o_State o' = StateInService) as Hs' by (revert E'; vm_compute; by intros [= <-]).
  exists o. split; [reflexivity|].
  assert (keys_unique (ow_jobs w_configured)) as Hu.
  { assert (∃ j, ow_jobs w_configured = {[ "j-0" := j ]}) as [j ->] by (eexists; vm_compute; reflexivity).
    intros k1 k2 j1 j2 [<- _]%lookup_singleton_Some [<- _]%lookup_singleton_Some _. reflexivity. }
  assert (o_State o ≠ StateInService) as Hn by (rewrite Hs; discriminate).
  destruct (service_starts_fully_configured _ _ _ _ _ _ _ _ _ _ _ w_configured_reachable Hu E Hn E' Hs')
    as (plan & _ & _ & _ & H). exact (H Hs).
Defined.

Lemma sale_never_takes_an_owned_device_witness :
  customer_of (ow_devices w_configuring) "d-1" = Some (Some "tenant-a") ∧
  customer_of (ow_devices (w_pass 10 w_configuring)) "d-1" = Some (Some "tenant-a").
Proof.
  assert (customer_of (ow_devices w_configuring) "d-1" = Some (Some "tenant-a")) as H by (vm_compute; reflexivity).
  split; [exact H|].
  refine (proj1 (sale_never_takes_an_owned_device w_fresh 10 w_names_order w_cache_order true
    (default w_device (ow_devices w_configuring !! "d-1")) _ _ w_configuring_reachable _) "d-1" "tenant-a" H).
  vm_compute. discriminate.
Defined.

Definition w_names : gmap string bool := {[ apn_path := true ]}.

Lemma cellular_writes_are_needed_and_allowed_witness : w_names !! apn_path = Some true.
Proof.
  assert (mkWrite apn_path "internet" "xsd:string" ∈ CellularWrites w_names_order w_profile w_names ∅) as H
    by (vm_compute; left).
  exact (proj1 (cellular_writes_are_needed_and_allowed _ _ _ _ _ H)).
Defined.
