(* ===== verification/Sessions.v ===== *)
(** * CWMP sessions and sealed secrets

    [internal/sessions]: the row of a session, opened by an Inform and closed
    when nothing is left to do.  [internal/secretstore]: values the BSS hands
    over once, kept sealed until the one job they are for is sent.

    The authenticated encryption ([crypto/aes], [crypto/cipher]) is a parameter:
    [seal key ad nonce value] and [unseal key ad sealed]. *)

From S2P Require Import Prelude GoStrings.

(** ** Sessions *)

Inductive SessionState : Type :=
| StateInformReceived | StateInformResponseSent | StateReadyForDispatch | StateRPCDispatched | StateClosed.

Record Session : Type := mkSession {
  ss_ID : string;
  ss_DeviceID : string;
  ss_State : SessionState;
  ss_InformEventCodes : list string;
  ss_CurrentJobID : option string;
  ss_CWMPNamespace : string;
  ss_OpenedAt : GoTime;
  ss_ClosedAt : option GoTime;
  ss_CloseReason : option string
}.

Abbreviation SessionsTable := (gmap string Session).

Definition IsClosed (s : Session) : bool := is_some (ss_ClosedAt s).

Definition SessionDefaultCWMPNamespace : string := "urn:dslforum-org:cwmp-1-0".

Definition OpenSession (uuid : string) (now : GoTime) (deviceID : string) (eventCodes : list string) (ns : string)
    (tab : SessionsTable) : result Session * SessionsTable :=
  let s := mkSession uuid deviceID StateInformResponseSent eventCodes None
             (if String.eqb ns "" then SessionDefaultCWMPNamespace else ns) now None None in
  if is_some (tab !! uuid) then (Err "duplicate key value violates unique constraint", tab)
  else (Ok s, <[uuid := s]> tab).

Definition GetSession (tab : SessionsTable) (id : string) : option Session := tab !! id.

(** [SetCurrentJob]: the empty job id clears it. *)
Definition SetCurrentJob (id jobID : string) (tab : SessionsTable) : SessionsTable :=
  alter (λ s,
    if String.eqb jobID ""
    then mkSession (ss_ID s) (ss_DeviceID s) StateReadyForDispatch (ss_InformEventCodes s) None (ss_CWMPNamespace s)
           (ss_OpenedAt s) (ss_ClosedAt s) (ss_CloseReason s)
    else mkSession (ss_ID s) (ss_DeviceID s) StateRPCDispatched (ss_InformEventCodes s) (Some jobID)
           (ss_CWMPNamespace s) (ss_OpenedAt s) (ss_ClosedAt s) (ss_CloseReason s)) id tab.

Definition CloseSession (now : GoTime) (id reason : string) (tab : SessionsTable) : SessionsTable :=
  alter (λ s, mkSession (ss_ID s) (ss_DeviceID s) StateClosed (ss_InformEventCodes s) (ss_CurrentJobID s)
                (ss_CWMPNamespace s) (ss_OpenedAt s) (Some now) (Some reason)) id tab.

Definition IsOpen (tab : SessionsTable) (id : string) : bool * string :=
  match tab !! id with
  | None => (false, EmptyString)
  | Some s => (negb (IsClosed s), ss_DeviceID s)
  end.

(** ** Sealed secrets *)

Record SecretRow : Type := mkSecret {
  sr_ID : string;
  sr_owner : string;
  sr_sealed : string;
  sr_device : option string;
  sr_expires : GoTime
}.

Abbreviation Secrets := (gmap string SecretRow).

Definition ErrDisabled : string := "secret store disabled: ACS_BSS_SECRET_KEY is not set".
Definition ErrInvalidHandle : string := "secret handle unknown, expired or already used".
Definition ErrHandleGone : string := "secret handle already used or expired".

Definition additionalData (id owner : string) : string := (id ++ String (ascii_of_nat 0) owner)%string.

Section Store.
(** [Some key] when the store is enabled. *)
Context (key : option string).
Context (seal : string → string → string → string → string).
Context (unseal : string → string → string → option string).

Definition PutSecret (id nonce : string) (now : GoTime) (owner value : string) (ttl : GoDuration) (tab : Secrets)
  : result GoTime * Secrets :=
  match key with
  | None => (Err ErrDisabled, tab)
  | Some k =>
      if is_some (tab !! id) then (Err "store secret: duplicate key", tab)
      else (Ok (now + ttl), <[id := mkSecret id owner (seal k (additionalData id owner) nonce value) None (now + ttl)]> tab)
  end.

(** [customer_id IS NOT DISTINCT FROM ...] and not claimed, not expired. *)
Definition claimable (now : GoTime) (owner : string) (r : SecretRow) : bool :=
  String.eqb (sr_owner r) owner && negb (is_some (sr_device r)) && (now <? sr_expires r).

Definition CheckSecret (now : GoTime) (id owner : string) (tab : Secrets) : result unit :=
  match key, tab !! id with
  | None, _ => Err ErrDisabled
  | Some _, Some r => if claimable now owner r then Ok tt else Err ErrInvalidHandle
  | Some _, None => Err ErrInvalidHandle
  end.

Definition ClaimSecret (now : GoTime) (id owner deviceID : string) (tab : Secrets) : result unit * Secrets :=
  match key with
  | None => (Err ErrDisabled, tab)
  | Some _ =>
      let '(tab', n) := update_key id (claimable now owner)
        (λ r, mkSecret (sr_ID r) (sr_owner r) (sr_sealed r) (Some deviceID) (sr_expires r)) tab in
      if n =? 1 then (Ok tt, tab') else (Err ErrInvalidHandle, tab)
  end.

(** [Open]: [DELETE ... RETURNING], so a handle opens once. *)
Definition openable (now : GoTime) (deviceID : string) (r : SecretRow) : bool :=
  match sr_device r with Some d => String.eqb d deviceID | None => false end && (now <? sr_expires r).

Definition OpenSecret (now : GoTime) (id deviceID : string) (tab : Secrets) : result string * Secrets :=
  match key with
  | None => (Err ErrDisabled, tab)
  | Some k =>
      match tab !! id with
      | Some r =>
          if openable now deviceID r then
            match unseal k (additionalData id (sr_owner r)) (sr_sealed r) with
            | Some plain => (Ok plain, delete id tab)
            | None => (Err "open secret: the value does not authenticate under the configured key", delete id tab)
            end
          else (Err ErrHandleGone, tab)
      | None => (Err ErrHandleGone, tab)
      end
  end.

Definition DiscardSecret (id owner : string) (tab : Secrets) : bool * Secrets :=
  match key, tab !! id with
  | Some _, Some r => if String.eqb (sr_owner r) owner then (true, delete id tab) else (false, tab)
  | _, _ => (false, tab)
  end.

End Store.

Definition SweepSecrets (now : GoTime) (tab : Secrets) : Secrets := filter (λ kr, now < sr_expires kr.2) tab.
