(* ===== verification/Render.v ===== *)
(** * From a leased job to the RPC that is sent ([cmd/acs/dispatch.go])

    [renderJobRequest] and the diagnostics tables it reads
    ([internal/devices/adapters], [internal/diagnostics]), and the opening of
    sealed secret handles, which only the rendered copy of a job ever sees. *)

From S2P Require Import Prelude GoStrings Json JobModel Discovery Cwmp Devices Sessions.

(** ** Diagnostics *)

Inductive DiagnosticKind : Type := DiagnosticPing | DiagnosticTraceroute.

Definition DiagnosticsPrefix (root : DataModelRoot) (kind : DiagnosticKind) : string :=
  match root, kind with
  | RootIGD1, DiagnosticTraceroute => "InternetGatewayDevice.TraceRouteDiagnostics."
  | RootIGD1, DiagnosticPing => "InternetGatewayDevice.IPPingDiagnostics."
  | _, DiagnosticTraceroute => "Device.IP.Diagnostics.TraceRoute."
  | _, DiagnosticPing => "Device.IP.Diagnostics.IPPing."
  end.

Definition defaultDiagPrefix (kind : DiagnosticKind) : string := DiagnosticsPrefix RootDevice2 kind.

Definition PingResultLeaves : list string :=
  ["SuccessCount"; "FailureCount"; "AverageResponseTime"; "MinimumResponseTime"; "MaximumResponseTime"].
Definition TracerouteResultLeaves : list string := ["ResponseTime"; "RouteHopsNumberOfEntries"].

Definition prefixed (prefix : string) (leaves : list string) : list string :=
  (λ leaf, (prefix ++ leaf)%string) <$> leaves.

Definition diagIPPingPollPaths (prefix : string) : list string :=
  prefixed prefix ("DiagnosticsState" :: PingResultLeaves).
Definition diagTraceroutePollPaths (prefix : string) : list string :=
  prefixed prefix ("DiagnosticsState" :: TracerouteResultLeaves).
Definition diagTR143PollPaths (prefix : string) : list string :=
  prefixed prefix ["DiagnosticsState"; "ROMTime"; "BOMTime"; "EOMTime"; "TestBytesReceived"; "TestBytesSent";
                   "TotalBytesReceived"; "TotalBytesSent"; "TCPOpenRequestTime"; "TCPOpenResponseTime"].

Definition LeafType (leaf : string) : string :=
  if existsb (String.eqb leaf) ["Host"; "DiagnosticsState"; "DownloadURL"; "UploadURL"] then "xsd:string"
  else if existsb (String.eqb leaf) ["NumberOfRepetitions"; "NumberOfTries"; "Timeout"; "DataBlockSize"; "DSCP"; "MaxHopCount"]
  then "xsd:unsignedInt"
  else if String.eqb leaf "TestFileLength" then "xsd:unsignedLong"
  else "".

Definition write_value (p : ParameterWrite) : ParameterValueStruct := mkPV (pw_Name p) (pw_Value p) (pw_Type p).

(** [pairs] of the source are (leaf, value) alternating. *)
Definition diagnosticTrigger (planned : list ParameterWrite) (prefix : string) (pairs : list (string * string))
  : list ParameterValueStruct :=
  match planned with
  | [] => ((λ '(leaf, value), mkPV (prefix ++ leaf)%string value (LeafType leaf)) <$> pairs)
          ++ [mkPV (prefix ++ "DiagnosticsState")%string "Requested" (LeafType "DiagnosticsState")]
  | _ => write_value <$> planned
  end.

Definition diagnosticPollPaths (planned standard : list string) : list string :=
  match planned with [] => standard | _ => planned end.

(** [payload.prefix], when it decodes and is not empty. *)
Definition payload_prefix (j : json) : string :=
  match decode_struct (λ m, decode_string (member "prefix" m)) (Some j) with Some p => p | None => EmptyString end.

Definition diagnosticPayloadPrefix (job : Job) : string :=
  let p := payload_prefix (Payload job) in
  if negb (String.eqb p "") then p
  else match Type_ job with
       | TypeDiagnosticsTraceroute => defaultDiagPrefix DiagnosticTraceroute
       | TypeDiagnosticsDownload => "Device.IP.Diagnostics.DownloadDiagnostics."
       | TypeDiagnosticsUpload => "Device.IP.Diagnostics.UploadDiagnostics."
       | _ => defaultDiagPrefix DiagnosticPing
       end.

Definition diagnosticsState (list : list ParameterValueStruct) (prefix : string) : string :=
  match List.find (λ p, String.eqb (pv_Name p) (prefix ++ "DiagnosticsState")) list with
  | Some p => pv_Value p
  | None => EmptyString
  end.

Inductive diagStateClass : Type := diagPending | diagComplete | diagFailed.

Definition classifyDiagnosticsState (state : string) : diagStateClass :=
  if existsb (String.eqb state) [""; "Requested"; "None"] then diagPending
  else if existsb (String.eqb state) ["Complete"; "Completed"] then diagComplete
  else diagFailed.

(** ** Rendering *)

Definition or_default (s d : string) : string := if String.eqb s "" then d else s.

Definition renderJobRequest (id : string) (job : Job) : option string :=
  match Type_ job with
  | TypeSetParameter =>
      p ← decode_SetParameter (Payload job);
      Some (if sp_VerificationPending p then RenderGetParameterValues id (VerificationPaths p)
            else RenderSetParameterValues id (write_value <$> sp_Parameters p) (CommandKey job))
  | TypeGetParameter =>
      p ← decode_GetParameter (Payload job);
      Some (RenderGetParameterValues id (gp_Paths p))
  | TypeFirmwareDownload =>
      p ← decode_FirmwareDownload (Payload job);
      Some (RenderDownload id (CommandKey job) (fd_FileType p) (fd_URL p) (fd_Username p) (fd_Password p)
              (fd_FileSize p) (fd_TargetFilename p) (fd_DelaySeconds p))
  | TypeDiagnosticsPing =>
      p ← decode_DiagnosticsPing (Payload job);
      let prefix := or_default (ping_Prefix p) (defaultDiagPrefix DiagnosticPing) in
      Some (if DiagnosticsTriggered job
            then RenderGetParameterValues id (diagnosticPollPaths (plan_PollPaths (ping_Plan p)) (diagIPPingPollPaths prefix))
            else RenderSetParameterValues id
                   (diagnosticTrigger (plan_Trigger (ping_Plan p)) prefix
                      [("Host", ping_Host p); ("NumberOfRepetitions", Itoa (ping_NumberOfRepetitions p));
                       ("Timeout", Itoa (ping_Timeout p)); ("DataBlockSize", Itoa (ping_DataBlockSize p));
                       ("DSCP", Itoa (ping_DSCP p))]) (CommandKey job))
  | TypeDiagnosticsTraceroute =>
      p ← decode_DiagnosticsTraceroute (Payload job);
      let prefix := or_default (trace_Prefix p) (defaultDiagPrefix DiagnosticTraceroute) in
      Some (if DiagnosticsTriggered job
            then RenderGetParameterValues id
                   (diagnosticPollPaths (plan_PollPaths (trace_Plan p)) (diagTraceroutePollPaths prefix))
            else RenderSetParameterValues id
                   (diagnosticTrigger (plan_Trigger (trace_Plan p)) prefix
                      [("Host", trace_Host p); ("NumberOfTries", Itoa (trace_NumberOfTries p));
                       ("Timeout", Itoa (trace_Timeout p)); ("DataBlockSize", Itoa (trace_DataBlockSize p));
                       ("DSCP", Itoa (trace_DSCP p)); ("MaxHopCount", Itoa (trace_MaxHopCount p))]) (CommandKey job))
  | TypeDiagnosticsDownload | TypeDiagnosticsUpload =>
      p ← decode_DiagnosticsTransfer (Payload job);
      let prefix := diagnosticPayloadPrefix job in
      Some (if DiagnosticsTriggered job
            then RenderGetParameterValues id (diagnosticPollPaths (plan_PollPaths (dt_Plan p)) (diagTR143PollPaths prefix))
            else RenderSetParameterValues id
                   (diagnosticTrigger (plan_Trigger (dt_Plan p)) prefix
                      (if type_eqb (Type_ job) TypeDiagnosticsUpload
                       then [("UploadURL", dt_URL p);
                             ("TestFileLength", Itoa (if dt_TestFileLength p =? 0 then 1048576 else dt_TestFileLength p))]
                       else [("DownloadURL", dt_URL p)])) (CommandKey job))
  | TypeAddObject =>
      p ← decode_AddObject (Payload job);
      Some (RenderAddObject id (ao_ObjectPath p) (CommandKey job))
  | TypeDeleteObject =>
      p ← decode_DeleteObject (Payload job);
      Some (RenderDeleteObject id (do_ObjectPath p) (CommandKey job))
  | TypeReboot => Some (RenderReboot id (CommandKey job))
  | TypeFactoryReset => Some (RenderFactoryReset id)
  | TypeScheduleInform =>
      p ← decode_ScheduleInform (Payload job);
      Some (RenderScheduleInform id (CommandKey job) (si_DelaySeconds p))
  | TypeSetParameterAttributes =>
      p ← decode_SetParameterAttributes (Payload job);
      Some (RenderSetParameterAttributes id ((λ a, (aw_Name a, aw_Notification a)) <$> sa_Attributes p))
  | TypeGetParameterAttributes =>
      p ← decode_GetParameterAttributes (Payload job);
      Some (RenderGetParameterAttributes id (ga_Paths p))
  | TypeUpload =>
      p ← decode_Upload (Payload job);
      Some (RenderUpload id (CommandKey job) (up_FileType p) (up_URL p) (up_Username p) (up_Password p) (up_DelaySeconds p))
  | TypeParameterDiscovery =>
      p ← decode_ParameterDiscovery (Payload job);
      Some (RenderGetParameterNames id (RequestPath p) (pd_Incremental p))
  | TypeConnectionRequest => None
  end.

(** ** Sealed secret handles *)

(** The loop of [openSecretHandles]: [values] are the handles opened so far; a
    handle used twice is opened once. The handles opened before an error stay
    opened. *)
Fixpoint open_handles (open : string → Secrets → result string * Secrets) (values : gmap string string)
    (params : list ParameterWrite) (tab : Secrets)
  : result (list ParameterWrite * gmap string string) * Secrets :=
  match params with
  | [] => (Ok ([], values), tab)
  | p :: rest =>
      if String.eqb (pw_SecretHandle p) ""
      then match open_handles open values rest tab with
           | (Ok (out, v), tab') => (Ok (p :: out, v), tab')
           | (Err e, tab') => (Err e, tab')
           end
      else
        let '(r, tab1) := match values !! pw_SecretHandle p with
                          | Some v => (Ok v, tab)
                          | None => open (pw_SecretHandle p) tab
                          end in
        match r with
        | Err e => (Err e, tab1)
        | Ok value =>
            match open_handles open (<[pw_SecretHandle p := value]> values) rest tab1 with
            | (Ok (out, v), tab') => (Ok (mkParameterWrite (pw_Name p) value (pw_Type p) "" :: out, v), tab')
            | (Err e, tab') => (Err e, tab')
            end
        end
  end.

(** The error text of a handle that does not open. *)
Definition named_open (open : string → Secrets → result string * Secrets) (handle : string) (tab : Secrets)
  : result string * Secrets :=
  match open handle tab with
  | (Err e, tab') => (Err ("secret handle " ++ handle ++ ": " ++ e)%string, tab')
  | r => r
  end.

(** [openSecretHandles]: the job to render; the row of the job is not touched. *)
Definition openSecretHandles (open : string → Secrets → result string * Secrets) (job : Job) (tab : Secrets)
  : result Job * Secrets :=
  if negb (type_eqb (Type_ job) TypeSetParameter) then (Ok job, tab)
  else match decode_SetParameter (Payload job) with
  | None => (Ok job, tab)
  | Some p =>
      if sp_VerificationPending p then (Ok job, tab)
      else match open_handles (named_open open) ∅ (sp_Parameters p) tab with
           | (Err e, tab') => (Err e, tab')
           | (Ok (params, values), tab') =>
               if (size values =? 0)%nat then (Ok job, tab')
               else (Ok (set_payload (encode_SetParameter
                           (mkSetParameterPayload (sp_EvidenceFirmware p) (sp_EvidenceBound p) (sp_NonReadable p) params
                              (sp_Verify p) (sp_VerificationPending p))) job), tab')
           end
  end.
