(* ===== verification/DiagPlan.v ===== *)
(** * Planning a diagnostic

    [internal/diagnostics]: what a ping, a trace route or a TR-143 test sends to
    a device, planned from the parameters discovery found on it; the TR-143
    target check; [adapters/tr143.go] and the radio parameters of a discovered
    tree ([adapters/vendor.go]).  [names] is [None] for a device that was never
    discovered, as Go's nil map is.  The parser of URLs is an argument. *)

From S2P Require Import Prelude GoStrings Json NetGuard Devices JobModel JobStore Adapters ParamCache Render.

(** ** Defaults *)

Definition or_zero (v d : Z) : Z := if v =? 0 then d else v.

Definition ApplyPingDefaults (p : DiagnosticsPingPayload) : DiagnosticsPingPayload :=
  mkDiagnosticsPingPayload (ping_Host p) (or_zero (ping_NumberOfRepetitions p) 4) (or_zero (ping_Timeout p) 5000)
    (or_zero (ping_DataBlockSize p) 64) (ping_DSCP p) (ping_Prefix p) (ping_Plan p).

Definition ApplyTracerouteDefaults (p : DiagnosticsTraceroutePayload) : DiagnosticsTraceroutePayload :=
  mkDiagnosticsTraceroutePayload (trace_Host p) (or_zero (trace_NumberOfTries p) 3) (or_zero (trace_Timeout p) 5000)
    (or_zero (trace_DataBlockSize p) 38) (trace_DSCP p) (or_zero (trace_MaxHopCount p) 30) (trace_Prefix p) (trace_Plan p).

(** ** The plan *)

Definition TR143ResultLeaves (upload : bool) : list string :=
  (if upload then "TestBytesSent" else "TestBytesReceived")
    :: ["ROMTime"; "BOMTime"; "EOMTime"; "TotalBytesReceived"; "TotalBytesSent"; "TCPOpenRequestTime"; "TCPOpenResponseTime"].

Inductive PlanError : Type :=
| ErrNotDiscovered
| UnsupportedError (diagnostic reason : string).

Definition PlanError_Error (e : PlanError) : string :=
  match e with
  | ErrNotDiscovered => "device parameters have not been discovered; run parameter discovery first"
  | UnsupportedError diagnostic reason => ("device does not support " ++ diagnostic ++ ": " ++ reason)%string
  end.

Record Input : Type := mkInput { in_Leaf : string; in_Value : string; in_Required : bool }.

Record Plan : Type := mkPlan { pl_Plan : DiagnosticsPlan; pl_USP : bool; pl_Skipped : list string }.

Definition no_plan : DiagnosticsPlan := mkDiagnosticsPlan [] [].

Definition objectDiscovered (names : gmap string bool) (prefix : string) : bool :=
  is_some (names !! prefix) || is_some (names !! TrimSuffix prefix ".")
  || existsb (λ kv : string * bool, HasPrefix kv.1 prefix) (map_to_list names).

(** Discovered, and writable. *)
Definition proven_writable (names : gmap string bool) (path : string) : bool := default false (names !! path).

(** The loop over the inputs: what is written and what is left out. *)
Fixpoint plan_inputs (names : gmap string bool) (diagnostic prefix : string) (inputs : list Input)
    (trigger : list ParameterWrite) (skipped : list string) : PlanError + (list ParameterWrite * list string) :=
  match inputs with
  | [] => inr (trigger, skipped)
  | i :: rest =>
      let path := (prefix ++ in_Leaf i)%string in
      if proven_writable names path
      then plan_inputs names diagnostic prefix rest
             (trigger ++ [mkParameterWrite path (in_Value i) (LeafType (in_Leaf i)) ""]) skipped
      else if in_Required i
      then inl (UnsupportedError diagnostic (path ++ " is not a discovered writable parameter")%string)
      else plan_inputs names diagnostic prefix rest trigger (skipped ++ [in_Leaf i])
  end.

Definition PlanCWMP (names : option (gmap string bool)) (diagnostic prefix : string) (inputs : list Input)
    (resultLeaves : list string) : PlanError + Plan :=
  match names with
  | None => inl ErrNotDiscovered
  | Some names =>
      if is_some (names !! (TrimSuffix prefix "." ++ "()")%string) then inr (mkPlan no_plan true [])
      else if negb (objectDiscovered names prefix)
      then inl (UnsupportedError diagnostic (prefix ++ " was not found by parameter discovery")%string)
      else match plan_inputs names diagnostic prefix inputs [] [] with
           | inl e => inl e
           | inr (trigger, skipped) =>
               let state := (prefix ++ "DiagnosticsState")%string in
               if negb (proven_writable names state)
               then inl (UnsupportedError diagnostic (state ++ " is not a discovered writable parameter")%string)
               else inr (mkPlan (mkDiagnosticsPlan
                                   (trigger ++ [mkParameterWrite state "Requested" (LeafType "DiagnosticsState") ""])
                                   (state :: prefixed prefix (List.filter (λ leaf, is_some (names !! (prefix ++ leaf)%string))
                                                                resultLeaves)))
                           false skipped)
           end
  end.

Definition ping_inputs (p : DiagnosticsPingPayload) : list Input :=
  [mkInput "Host" (ping_Host p) true; mkInput "NumberOfRepetitions" (Itoa (ping_NumberOfRepetitions p)) false;
   mkInput "Timeout" (Itoa (ping_Timeout p)) false; mkInput "DataBlockSize" (Itoa (ping_DataBlockSize p)) false;
   mkInput "DSCP" (Itoa (ping_DSCP p)) false].

(** The plan is stored on the payload when there is one. *)
Definition PlanPing (names : option (gmap string bool)) (p : DiagnosticsPingPayload)
  : PlanError + (Plan * DiagnosticsPingPayload) :=
  match PlanCWMP names "IPPing" (ping_Prefix p) (ping_inputs p) PingResultLeaves with
  | inl e => inl e
  | inr plan => inr (plan, mkDiagnosticsPingPayload (ping_Host p) (ping_NumberOfRepetitions p) (ping_Timeout p)
                             (ping_DataBlockSize p) (ping_DSCP p) (ping_Prefix p) (pl_Plan plan))
  end.

Definition trace_inputs (p : DiagnosticsTraceroutePayload) : list Input :=
  [mkInput "Host" (trace_Host p) true; mkInput "NumberOfTries" (Itoa (trace_NumberOfTries p)) false;
   mkInput "Timeout" (Itoa (trace_Timeout p)) false; mkInput "DataBlockSize" (Itoa (trace_DataBlockSize p)) false;
   mkInput "DSCP" (Itoa (trace_DSCP p)) false; mkInput "MaxHopCount" (Itoa (trace_MaxHopCount p)) false].

Definition PlanTraceroute (names : option (gmap string bool)) (p : DiagnosticsTraceroutePayload)
  : PlanError + (Plan * DiagnosticsTraceroutePayload) :=
  match PlanCWMP names "TraceRoute" (trace_Prefix p) (trace_inputs p) TracerouteResultLeaves with
  | inl e => inl e
  | inr plan => inr (plan, mkDiagnosticsTraceroutePayload (trace_Host p) (trace_NumberOfTries p) (trace_Timeout p)
                             (trace_DataBlockSize p) (trace_DSCP p) (trace_MaxHopCount p) (trace_Prefix p) (pl_Plan plan))
  end.

Definition tr143_inputs (url : string) (upload : bool) (testFileLength : Z) : list Input :=
  if upload then [mkInput "UploadURL" url true; mkInput "TestFileLength" (Itoa testFileLength) false]
  else [mkInput "DownloadURL" url true].

Definition PlanTR143 (names : option (gmap string bool)) (prefix url : string) (upload : bool) (testFileLength : Z)
  : PlanError + Plan :=
  PlanCWMP names (if upload then "UploadDiagnostics" else "DownloadDiagnostics") prefix
    (tr143_inputs url upload testFileLength) (TR143ResultLeaves upload).

Record DiagCapability : Type := mkDiagCapability { dc_Supported : bool; dc_Path : string; dc_Reason : string }.

Definition capabilityOf {A} (path : string) (r : PlanError + A) : DiagCapability :=
  match r with
  | inr _ => mkDiagCapability true path ""
  | inl (UnsupportedError _ reason) => mkDiagCapability false path reason
  | inl e => mkDiagCapability false path (PlanError_Error e)
  end.

Definition PingTracerouteCapabilities (names : option (gmap string bool)) (pingPrefix traceroutePrefix : string)
  : DiagCapability * DiagCapability :=
  (capabilityOf pingPrefix (PlanPing names (mkDiagnosticsPingPayload "x" 0 0 0 0 pingPrefix no_plan)),
   capabilityOf traceroutePrefix
     (PlanTraceroute names (mkDiagnosticsTraceroutePayload "x" 0 0 0 0 0 traceroutePrefix no_plan))).

(** ** TR-143 *)

Record TR143Capability : Type := mkTR143 {
  tr_DownloadPath : string;
  tr_UploadPath : string;
  tr_DownloadCommand : string;
  tr_UploadCommand : string
}.

Definition found (names : gmap string bool) (paths : list string) (text : string) : string :=
  if existsb (λ p, is_some (names !! p)) paths then text else "".

Definition ResolveTR143Capability (names : gmap string bool) : TR143Capability :=
  mkTR143
    (found names ["Device.IP.Diagnostics.DownloadDiagnostics."; "Device.IP.Diagnostics.DownloadDiagnostics"]
       "Device.IP.Diagnostics.DownloadDiagnostics.")
    (found names ["Device.IP.Diagnostics.UploadDiagnostics."; "Device.IP.Diagnostics.UploadDiagnostics"]
       "Device.IP.Diagnostics.UploadDiagnostics.")
    (found names ["Device.IP.Diagnostics.DownloadDiagnostics()"] "Device.IP.Diagnostics.DownloadDiagnostics()")
    (found names ["Device.IP.Diagnostics.UploadDiagnostics()"] "Device.IP.Diagnostics.UploadDiagnostics()").

(** What [url.ParseRequestURI] tells of a URL. *)
Record URL : Type := mkURL { u_Scheme : string; u_Hostname : string; u_User : bool }.

Definition IsPrivate (ip : Z) : bool :=
  if is_v4 ip
  then (Z.shiftr (v4_of ip) 24 =? 10) || (Z.shiftr (v4_of ip) 20 =? 172 * 16 + 1) || (Z.shiftr (v4_of ip) 16 =? 192 * 256 + 168)
  else Z.shiftr ip 121 =? 126.

Definition ValidateTR143Target (parse : string → option URL) (raw : string) (allowedHosts : list string) : result unit :=
  match parse (TrimSpace raw) with
  | Some u =>
      if negb (String.eqb (u_Scheme u) "https") || String.eqb (u_Hostname u) "" || u_User u
      then Err "TR-143 target must be an HTTPS URL without userinfo"
      else
        let host := ToLower (TrimSuffix (u_Hostname u) ".") in
        if negb (existsb (λ c, EqualFold host (TrimSuffix (TrimSpace c) ".")) allowedHosts)
        then Err "TR-143 target host is not allowlisted"
        else match ParseIP host with
             | Some ip => if IsPrivate ip || IsLoopback ip || IsLinkLocalUnicast ip || IsUnspecified ip
                          then Err "TR-143 target must not use a private or local address" else Ok tt
             | None => Ok tt
             end
  | None => Err "TR-143 target must be an HTTPS URL without userinfo"
  end.

(** ** Radio parameters of a discovered tree *)

Definition isCellularPath (path : string) : bool :=
  HasPrefix path "Device.Cellular." || Contains (ToLower path) "cellular" || Contains (ToLower path) "mobile".

Definition CellularDiagnosticParamsFromNames (names : gmap string bool) : list string :=
  SortStrings (List.filter (λ path, isCellularPath path && negb (HasSuffix path ".") && names_radio path)
                 (map_to_list names).*1).

(** ** Payloads ([json.Marshal]) *)

Definition encode_plan (p : DiagnosticsPlan) : list (string * json) :=
  omit_list "trigger" encode_write (plan_Trigger p) ++ omit_list "poll_paths" JStr (plan_PollPaths p).

Definition encode_DiagnosticsPing (p : DiagnosticsPingPayload) : json :=
  JObj ([("host", JStr (ping_Host p)); ("number_of_repetitions", JNum (ping_NumberOfRepetitions p));
         ("timeout", JNum (ping_Timeout p)); ("data_block_size", JNum (ping_DataBlockSize p)); ("dscp", JNum (ping_DSCP p))]
        ++ omit_string "prefix" (ping_Prefix p) ++ encode_plan (ping_Plan p)).

Definition encode_DiagnosticsTraceroute (p : DiagnosticsTraceroutePayload) : json :=
  JObj ([("host", JStr (trace_Host p)); ("number_of_tries", JNum (trace_NumberOfTries p));
         ("timeout", JNum (trace_Timeout p)); ("data_block_size", JNum (trace_DataBlockSize p)); ("dscp", JNum (trace_DSCP p));
         ("max_hop_count", JNum (trace_MaxHopCount p))]
        ++ omit_string "prefix" (trace_Prefix p) ++ encode_plan (trace_Plan p)).

(** DIAGNOSTICS_DOWNLOAD and DIAGNOSTICS_UPLOAD; only an upload has a length. *)
Definition encode_DiagnosticsTransfer (upload : bool) (url prefix command : string) (length : Z) (plan : DiagnosticsPlan) : json :=
  JObj ([("url", JStr url); ("prefix", JStr prefix)] ++ omit_string "usp_command" command
        ++ (if upload then omit_int "test_file_length" length else []) ++ encode_plan plan).

Definition encode_AddObject (p : AddObjectPayload) : json :=
  JObj ([("object_path", JStr (ao_ObjectPath p))] ++ omit_list "parameters" encode_write (ao_Parameters p)).

Definition encode_DeleteObject (p : DeleteObjectPayload) : json := JObj [("object_path", JStr (do_ObjectPath p))].

Definition encode_ScheduleInform (p : ScheduleInformPayload) : json := JObj [("delay_seconds", JNum (si_DelaySeconds p))].

Definition encode_attribute (a : AttributeWrite) : json :=
  JObj [("name", JStr (aw_Name a)); ("notification", JNum (aw_Notification a))].

Definition encode_SetParameterAttributes (p : SetParameterAttributesPayload) : json :=
  JObj [("attributes", JArr (encode_attribute <$> sa_Attributes p))].

Definition encode_GetParameterAttributes (p : GetParameterAttributesPayload) : json :=
  JObj [("paths", JArr (JStr <$> ga_Paths p))].

Definition encode_Upload (p : UploadPayload) : json :=
  JObj ([("file_type", JStr (up_FileType p)); ("url", JStr (up_URL p))] ++ omit_string "username" (up_Username p)
        ++ omit_string "password" (up_Password p) ++ [("delay_seconds", JNum (up_DelaySeconds p))]).

Definition encode_ConnectionRequest (timeoutSeconds : Z) : json := JObj [("timeout_seconds", JNum timeoutSeconds)].

Definition decode_ConnectionRequest (j : json) : option Z :=
  decode_struct (λ m, decode_int (member "timeout_seconds" m)) (Some j).

(** The payload of a REBOOT or FACTORY_RESET job has no fields. *)
Definition encode_empty : json := JObj [].

(** ** Round trips: what a handler stores is what the dispatcher reads *)

Lemma decode_plan_encode pre p :
  member "trigger" pre = None → member "poll_paths" pre = None → decode_plan (pre ++ encode_plan p) = Some p.
Proof.
  intros H1 H2. destruct p as [[|t tr] [|q ps]]; unfold decode_plan, encode_plan; rewrite !member_app, H1, H2;
    cbn [plan_Trigger plan_PollPaths omit_list app member String.eqb Ascii.eqb Bool.eqb];
    by rewrite ?decode_writes_encode, ?decode_strings_encode.
Qed.

Lemma decode_int_ok z : in_int64 z = true → decode_int (Some (JNum z)) = Some z.
Proof. intros H. simpl. by rewrite H. Qed.

Definition ping_ints (p : DiagnosticsPingPayload) : bool :=
  in_int64 (ping_NumberOfRepetitions p) && in_int64 (ping_Timeout p) && in_int64 (ping_DataBlockSize p) && in_int64 (ping_DSCP p).

Lemma decode_encode_DiagnosticsPing p : ping_ints p = true → decode_DiagnosticsPing (encode_DiagnosticsPing p) = Some p.
Proof.
  destruct p as [h n t d q pre plan]. unfold ping_ints. cbn [ping_NumberOfRepetitions ping_Timeout ping_DataBlockSize ping_DSCP].
  intros Hi. bool_to_prop. unfold decode_DiagnosticsPing, encode_DiagnosticsPing, decode_struct.
  cbn [ping_Host ping_NumberOfRepetitions ping_Timeout ping_DataBlockSize ping_DSCP ping_Prefix ping_Plan].
  set (m := _ ++ _ ++ _).
  change (member "host" m) with (Some (JStr h)). change (member "number_of_repetitions" m) with (Some (JNum n)).
  change (member "timeout" m) with (Some (JNum t)). change (member "data_block_size" m) with (Some (JNum d)).
  change (member "dscp" m) with (Some (JNum q)). rewrite !decode_int_ok by done. cbn [mbind option_bind decode_string].
  assert (decode_string (member "prefix" m) = Some pre) as ->.
  { subst m. cbn [app]. skip_members. apply decode_omit_string. by destruct plan as [[] []]. }
  cbn [mbind option_bind]. subst m. rewrite app_assoc, decode_plan_encode; [done|by destruct pre..].
Qed.

Definition trace_ints (p : DiagnosticsTraceroutePayload) : bool :=
  in_int64 (trace_NumberOfTries p) && in_int64 (trace_Timeout p) && in_int64 (trace_DataBlockSize p)
  && in_int64 (trace_DSCP p) && in_int64 (trace_MaxHopCount p).

Lemma decode_encode_DiagnosticsTraceroute p :
  trace_ints p = true → decode_DiagnosticsTraceroute (encode_DiagnosticsTraceroute p) = Some p.
Proof.
  destruct p as [h n t d q x pre plan]. unfold trace_ints.
  cbn [trace_NumberOfTries trace_Timeout trace_DataBlockSize trace_DSCP trace_MaxHopCount].
  intros Hi. bool_to_prop. unfold decode_DiagnosticsTraceroute, encode_DiagnosticsTraceroute, decode_struct.
  cbn [trace_Host trace_NumberOfTries trace_Timeout trace_DataBlockSize trace_DSCP trace_MaxHopCount trace_Prefix trace_Plan].
  set (m := _ ++ _ ++ _).
  change (member "host" m) with (Some (JStr h)). change (member "number_of_tries" m) with (Some (JNum n)).
  change (member "timeout" m) with (Some (JNum t)). change (member "data_block_size" m) with (Some (JNum d)).
  change (member "dscp" m) with (Some (JNum q)). change (member "max_hop_count" m) with (Some (JNum x)).
  rewrite !decode_int_ok by done. cbn [mbind option_bind decode_string].
  assert (decode_string (member "prefix" m) = Some pre) as ->.
  { subst m. cbn [app]. skip_members. apply decode_omit_string. by destruct plan as [[] []]. }
  cbn [mbind option_bind]. subst m. rewrite app_assoc, decode_plan_encode; [done|by destruct pre..].
Qed.

Lemma decode_uint64_omit n rest :
  0 <= n < 2 ^ 64 → member "test_file_length" rest = None →
  decode_uint64 (member "test_file_length" (omit_int "test_file_length" n ++ rest)) = Some n.
Proof.
  intros Hn Hr. unfold omit_int. destruct (Z.eqb_spec n 0) as [->|]; [simpl; by rewrite Hr|].
  change (decode_uint64 (Some (JNum n)) = Some n). simpl.
  destruct (Z.leb_spec 0 n); [|lia]. destruct (Z.ltb_spec n (2 ^ 64)); [done|lia].
Qed.

Lemma decode_encode_DiagnosticsTransfer upload url prefix command n plan :
  0 <= n < 2 ^ 64 →
  decode_DiagnosticsTransfer (encode_DiagnosticsTransfer upload url prefix command n plan)
  = Some (mkDiagnosticsTransferPayload url (if upload then n else 0) plan).
Proof.
  intros Hn. unfold decode_DiagnosticsTransfer, encode_DiagnosticsTransfer, decode_struct.
  set (m := _ ++ _ ++ _ ++ _). change (member "url" m) with (Some (JStr url)). cbn [mbind option_bind decode_string].
  assert (member "test_file_length" (encode_plan plan) = None) as Hp by (by destruct plan as [[] []]).
  assert (decode_uint64 (member "test_file_length" m) = Some (if upload then n else 0)) as ->.
  { subst m. cbn [app]. skip_members. destruct upload; [by apply decode_uint64_omit|]. simpl. by rewrite Hp. }
  cbn [mbind option_bind]. subst m.
  assert (∀ k, String.eqb k "url" = false → String.eqb k "prefix" = false → String.eqb k "usp_command" = false →
          String.eqb k "test_file_length" = false →
          member k ([("url", JStr url); ("prefix", JStr prefix)] ++ omit_string "usp_command" command
                    ++ (if upload then omit_int "test_file_length" n else [])) = None) as Hm.
  { intros k H1 H2 H3 H4. cbn [app]. rewrite !member_skip, member_skip_string by done.
    destruct upload; [|done]. unfold omit_int. destruct (n =? 0); [done|]. by rewrite member_skip. }
  rewrite (app_assoc (omit_string _ _)), app_assoc, decode_plan_encode; [done|by apply Hm..].
Qed.

Lemma decode_encode_AddObject p : decode_AddObject (encode_AddObject p) = Some p.
Proof.
  destruct p as [o [|w l]]; [done|]. unfold decode_AddObject, encode_AddObject. cbn -[decode_list encode_write].
  change (encode_write w :: (encode_write <$> l)) with (encode_write <$> (w :: l)). by rewrite decode_writes_encode.
Qed.

Lemma decode_encode_DeleteObject p : decode_DeleteObject (encode_DeleteObject p) = Some p.
Proof. by destruct p. Qed.

Lemma decode_encode_ScheduleInform p :
  in_int64 (si_DelaySeconds p) = true → decode_ScheduleInform (encode_ScheduleInform p) = Some p.
Proof. destruct p as [d]. intros H. unfold decode_ScheduleInform. cbn -[in_int64]. simpl in H. by rewrite H. Qed.

Lemma decode_encode_SetParameterAttributes p :
  forallb (λ a, in_int64 (aw_Notification a)) (sa_Attributes p) = true →
  decode_SetParameterAttributes (encode_SetParameterAttributes p) = Some p.
Proof.
  destruct p as [l]. cbn [sa_Attributes]. intros H.
  assert (decode_list decode_attribute (Some (JArr (encode_attribute <$> l))) = Some l) as E.
  { unfold decode_list. induction l as [|[n k] l IH]; [done|]. cbn [forallb] in H. apply andb_true_iff in H as [Hk H].
    cbn [aw_Notification] in Hk. rewrite fmap_cons. cbn [mapM].
    assert (decode_attribute (Some (encode_attribute (mkAttributeWrite n k))) = Some (mkAttributeWrite n k)) as ->
      by (unfold decode_attribute; cbn -[in_int64]; by rewrite Hk).
    cbn [mbind option_bind]. by rewrite (IH H). }
  unfold decode_SetParameterAttributes, encode_SetParameterAttributes, decode_struct. cbn [sa_Attributes].
  change (member "attributes" [("attributes", JArr (encode_attribute <$> l))]) with (Some (JArr (encode_attribute <$> l))).
  by rewrite E.
Qed.

Lemma decode_encode_GetParameterAttributes p : decode_GetParameterAttributes (encode_GetParameterAttributes p) = Some p.
Proof.
  destruct p as [l]. unfold decode_GetParameterAttributes. cbn -[decode_strings].
  by rewrite decode_strings_encode.
Qed.

Lemma decode_encode_Upload p : in_int64 (up_DelaySeconds p) = true → decode_Upload (encode_Upload p) = Some p.
Proof.
  destruct p as [f u n w d]. intros H. unfold decode_Upload, encode_Upload, omit_string. cbn -[in_int64 String.eqb]. simpl in H.
  destruct (String.eqb_spec n "") as [->|]; destruct (String.eqb_spec w "") as [->|]; cbn -[in_int64]; by rewrite H.
Qed.

(** ** Payloads fit their type *)

(** The dispatcher reads the payload of a job of this type. *)
Definition payload_typed (t : JobType) (j : json) : bool :=
  match t with
  | TypeSetParameter => is_some (decode_SetParameter j)
  | TypeGetParameter => is_some (decode_GetParameter j)
  | TypeFirmwareDownload => is_some (decode_FirmwareDownload j)
  | TypeDiagnosticsPing => is_some (decode_DiagnosticsPing j)
  | TypeDiagnosticsTraceroute => is_some (decode_DiagnosticsTraceroute j)
  | TypeDiagnosticsDownload | TypeDiagnosticsUpload => is_some (decode_DiagnosticsTransfer j)
  | TypeAddObject => is_some (decode_AddObject j)
  | TypeDeleteObject => is_some (decode_DeleteObject j)
  | TypeReboot | TypeFactoryReset => true
  | TypeScheduleInform => is_some (decode_ScheduleInform j)
  | TypeSetParameterAttributes => is_some (decode_SetParameterAttributes j)
  | TypeGetParameterAttributes => is_some (decode_GetParameterAttributes j)
  | TypeUpload => is_some (decode_Upload j)
  | TypeParameterDiscovery => is_some (decode_ParameterDiscovery j)
  | TypeConnectionRequest => is_some (decode_ConnectionRequest j)
  end.

Lemma typed_job_renders id job :
  payload_typed (Type_ job) (Payload job) = true → Type_ job ≠ TypeConnectionRequest → is_Some (renderJobRequest id job).
Proof.
  unfold payload_typed, renderJobRequest. intros H Ht.
  destruct (Type_ job); try done;
    match type of H with is_some ?d = true => destruct d; [|done]; cbn [mbind option_bind]; eauto | _ => eauto end.
Qed.

(** ** What a plan is *)

Lemma plan_inputs_spec names d prefix inputs tr sk :
  plan_inputs names d prefix inputs tr sk =
  match List.find (λ i, negb (proven_writable names (prefix ++ in_Leaf i)) && in_Required i) inputs with
  | Some i => inl (UnsupportedError d (prefix ++ in_Leaf i ++ " is not a discovered writable parameter")%string)
  | None =>
      inr (tr ++ ((λ i, mkParameterWrite (prefix ++ in_Leaf i)%string (in_Value i) (LeafType (in_Leaf i)) "")
                    <$> List.filter (λ i, proven_writable names (prefix ++ in_Leaf i)) inputs),
           sk ++ (in_Leaf <$> List.filter (λ i, negb (proven_writable names (prefix ++ in_Leaf i))) inputs))
  end.
Proof.
  revert tr sk. induction inputs as [|i l IH]; intros tr sk; cbn [plan_inputs List.find List.filter].
  { by rewrite !app_nil_r. }
  destruct (proven_writable names (prefix ++ in_Leaf i)); cbn [negb andb].
  - rewrite IH. destruct (List.find _ l); [done|]. by rewrite <- app_assoc.
  - destruct (in_Required i); [by rewrite string_app_assoc|]. rewrite IH. destruct (List.find _ l); [done|].
    by rewrite <- app_assoc.
Qed.

(** A diagnostic that is planned for CWMP writes only parameters discovery proved
    writable, in the order of its inputs with [DiagnosticsState] last, leaves out
    exactly the optional inputs that are not, and polls only parameters that
    exist; it is refused exactly when the object, a required input or the state
    is missing. *)
Theorem planned_diagnostic_is_proven names d prefix inputs leaves :
  let writable leaf := proven_writable names (prefix ++ leaf)%string in
  let write i := mkParameterWrite (prefix ++ in_Leaf i)%string (in_Value i) (LeafType (in_Leaf i)) "" in
  names !! (TrimSuffix prefix "." ++ "()")%string = None →
  match PlanCWMP (Some names) d prefix inputs leaves with
  | inr plan =>
      (∀ i, i ∈ inputs → in_Required i = true → writable (in_Leaf i) = true) ∧
      plan_Trigger (pl_Plan plan)
        = (write <$> List.filter (λ i, writable (in_Leaf i)) inputs) ++ [write (mkInput "DiagnosticsState" "Requested" true)] ∧
      (∀ w, w ∈ plan_Trigger (pl_Plan plan) → names !! pw_Name w = Some true) ∧
      (∀ p, p ∈ plan_PollPaths (pl_Plan plan) → is_Some (names !! p)) ∧
      pl_Skipped plan = in_Leaf <$> List.filter (λ i, negb (writable (in_Leaf i))) inputs
  | inl _ => objectDiscovered names prefix = false ∨ writable "DiagnosticsState" = false ∨
             ∃ i, i ∈ inputs ∧ in_Required i = true ∧ writable (in_Leaf i) = false
  end.
Proof.
  intros writable write Hu. unfold PlanCWMP. rewrite Hu. cbn [is_some].
  destruct (objectDiscovered names prefix); cbn [negb]; [|by left]. rewrite plan_inputs_spec.
  assert (∀ leaf, writable leaf = true → names !! (prefix ++ leaf)%string = Some true) as Hw.
  { intros leaf. unfold writable, proven_writable. destruct (names !! (prefix ++ leaf)%string) as [[]|]; simpl; congruence. }
  destruct (List.find _ inputs) as [i|] eqn:Ef.
  { apply find_some in Ef as [Hi He]. bool_to_prop. right. right. exists i. repeat split; [by apply list_elem_of_In|done..]. }
  fold (writable "DiagnosticsState"). destruct (writable "DiagnosticsState") eqn:Es; cbn [negb app]; [|by right; left].
  repeat split.
  - intros i Hi Hr. pose proof (find_none _ _ Ef i) as H. cbv beta in H. specialize (H ltac:(by apply list_elem_of_In)).
    rewrite Hr, andb_true_r in H. by apply negb_false_iff in H.
  - intros w [Hin|Hin]%elem_of_app.
    + apply list_elem_of_fmap in Hin as (i & -> & Hi). apply list_elem_of_In, filter_In in Hi as [_ Hi]. by apply Hw.
    + apply list_elem_of_singleton in Hin as ->. by apply Hw.
  - intros p [->|Hp]%elem_of_cons; [by rewrite (Hw _ Es)|].
    unfold prefixed in Hp. apply list_elem_of_fmap in Hp as (leaf & -> & Hl).
    apply list_elem_of_In, filter_In in Hl as [_ Hl]. by destruct (names !! (prefix ++ leaf)%string).
Qed.

Lemma planned_diagnostic_is_proven_witness :
  let names : gmap string bool := list_to_map [("P.", false); ("P.Host", true); ("P.DiagnosticsState", true); ("P.R", false)] in
  names !! (TrimSuffix "P." "." ++ "()")%string = None ∧
  PlanCWMP (Some names) "IPPing" "P." [mkInput "Host" "h" true; mkInput "Timeout" "5" false] ["R"; "S"]
  = inr (mkPlan (mkDiagnosticsPlan [mkParameterWrite "P.Host" "h" "xsd:string" "";
                                    mkParameterWrite "P.DiagnosticsState" "Requested" "xsd:string" ""]
                   ["P.DiagnosticsState"; "P.R"]) false ["Timeout"]) ∧
  (∀ i, i ∈ [mkInput "Host" "h" true; mkInput "Timeout" "5" false] → in_Required i = true →
     proven_writable names ("P." ++ in_Leaf i)%string = true).
Proof.
  cbv zeta. split; [reflexivity|]. split; [vm_compute; reflexivity|].
  pose proof (planned_diagnostic_is_proven
    (list_to_map [("P.", false); ("P.Host", true); ("P.DiagnosticsState", true); ("P.R", false)]) "IPPing" "P."
    [mkInput "Host" "h" true; mkInput "Timeout" "5" false] ["R"; "S"] eq_refl) as H.
  exact (proj1 H).
Defined.

(** With no allowed host configured, a target whose host is a lone dot passes. *)
Lemma dot_target_passes_an_empty_allowlist parse :
  parse "https://./f" = Some (mkURL "https" "." false) → ValidateTR143Target parse "https://./f" (Split "" ",") = Ok tt.
Proof. intros H. unfold ValidateTR143Target. change (TrimSpace "https://./f") with "https://./f". rewrite H. reflexivity. Qed.
