(* ===== verification/Gateway.v ===== *)
(** * The CWMP gateway ([cmd/acs])

    What a request changes: the answer to the RPC in flight
    ([completeJob] and its branches in [dispatch.go] and [discovery.go]), the
    next RPC ([dispatch] in [session.go]), a TransferComplete, and the recovery
    that runs on every Inform.

    A request is handled at one instant, [e_now]; identifiers the code draws at
    random (completing a job takes the first three of [e_fresh], the onboarding
    pass those after them) and the order in which Go visits a map are members of [Env].
    Notifications (audit records, metrics, captures, TMF events) are not state
    of the model, nor is the table of the Wi-Fi insights. A
    database call that fails for reasons outside the tables (a lost connection)
    is not modelled; the code then answers 500 or logs and goes on. *)

From S2P Require Import Prelude GoStrings Regex Protected Json Cwmp JobModel JobStore Discovery Devices ParamCache.
From S2P Require Import Onboarding Sessions Render.

Record Env : Type := mkEnv {
  e_now : GoTime;
  e_fresh : nat → Fresh;
  e_uuid : nat → string;
  e_rpc_id : string;
  e_owner : string;
  e_locked : string → bool;
  e_range : ∀ A : Type, gmap string A → list (string * A)
}.

Record Gateway : Type := mkGateway {
  g_world : OnbWorld;
  g_sessions : SessionsTable;
  g_secrets : Secrets
}.

Definition g_jobs (g : Gateway) : gmap string Job := ow_jobs (g_world g).
Definition g_devices (g : Gateway) : Devices := ow_devices (g_world g).
Definition g_params (g : Gateway) : Params := ow_params (g_world g).

Definition set_world (w : OnbWorld) (g : Gateway) : Gateway := mkGateway w (g_sessions g) (g_secrets g).
Definition set_tables (p : Params) (d : Devices) (j : gmap string Job) (g : Gateway) : Gateway :=
  let w := g_world g in
  set_world (mkWorld (ow_sales w) (ow_plans w) (ow_templates w) (ow_credentials w) d p j) g.
Definition on_jobs (f : gmap string Job → gmap string Job) (g : Gateway) : Gateway :=
  set_tables (g_params g) (g_devices g) (f (g_jobs g)) g.
Definition on_devices (f : Devices → Devices) (g : Gateway) : Gateway :=
  set_tables (g_params g) (f (g_devices g)) (g_jobs g) g.
Definition on_sessions (f : SessionsTable → SessionsTable) (g : Gateway) : Gateway :=
  mkGateway (g_world g) (f (g_sessions g)) (g_secrets g).
Definition set_secrets (s : Secrets) (g : Gateway) : Gateway := mkGateway (g_world g) (g_sessions g) s.
Definition set_g_params (p : Params) (g : Gateway) : Gateway := set_tables p (g_devices g) (g_jobs g) g.

(** ** Reads after a discovery *)

Definition ssidLeafRE : regex := RCat [RLit "Device.WiFi.SSID."; RDigits; RLit ".SSID"].
Definition apRefRE : regex := RCat [RLit "Device.WiFi.AccessPoint."; RDigits; RLit ".SSIDReference"].
Definition guestRefRE : regex :=
  RCat [RLit "Device.WiFi.X_"; RPlus (RClass (λ c, negb (Ascii.eqb c "."))); RLit "."; RDigits; RLit ".SSIDReference"].

Definition wifi_read_path (path : string) : bool :=
  let l := leaf path in
  if negb (HasPrefix path "Device.WiFi.") || HasSuffix path "." then false
  else if Contains path ".AssociatedDevice." || Contains path ".DataElements." then false
  else MatchString ssidLeafRE path || MatchString apRefRE path || MatchString guestRefRE path
       || HasPrefix path "Device.WiFi.SSID."
          && (String.eqb l "Enable" || String.eqb l "LowerLayers" || String.eqb l "Status" || HasSuffix l "IsGuestSSID")
       || HasPrefix path "Device.WiFi.AccessPoint."
          && (String.eqb l "SSIDAdvertisementEnabled" || String.eqb l "Enable"
              || HasSuffix path ".Security.ModeEnabled" || HasSuffix path ".Security.ModesSupported")
       || HasPrefix path "Device.WiFi.Radio."
          && (String.eqb l "OperatingFrequencyBand" || String.eqb l "Channel").

Definition WiFiNetworkReadPaths (names : gmap string bool) : list string :=
  SortStrings (List.filter wifi_read_path (map_to_list names).*1).

Definition queue_read (fr : Fresh) (now : GoTime) (dev creator : string) (paths : list string) (g : Gateway) : Gateway :=
  match paths with
  | [] => g
  | _ => on_jobs (λ j, (Create false fr now dev TypeGetParameter
                          (encode_GetParameter (mkGetParameterPayload "" false paths false "")) creator j).2) g
  end.

Section Handlers.
(** The sealing key, the authenticated decryption, and the figures computed
    from a TR-143 result ([computeTR143Result]: date parsing and a rate in
    floating point). *)
Context (key : option string) (unseal : string → string → string → option string).
Context (tr143_detail : list ParameterValueStruct → string → bool → json).

(** ** Helpers *)

Definition values_of (now : GoTime) (source : string) (list : list ParameterValueStruct) : Cache :=
  foldl (λ m p, <[pv_Name p := mkCached (pv_Value p) "" now source]> m) ∅ list.

Definition actual_of (list : list ParameterValueStruct) : gmap string string :=
  foldl (λ m p, <[pv_Name p := pv_Value p]> m) ∅ list.

(** [params.Upsert]; an error is logged and changes nothing. *)
Definition upsert_values (env : Env) (dev : string) (values : Cache) (g : Gateway) : Gateway :=
  match Upsert (e_uuid env 0%nat) (e_uuid env 1%nat) (e_now env) dev values (g_params g) (g_devices g) (g_jobs g) with
  | Ok (p, d, j) => set_tables p d j g
  | Err _ => g
  end.

Definition hasGatewayInfo (list : list ParameterValueStruct) : bool :=
  existsb (λ p, HasPrefix (pv_Name p) GatewayInfoPrefix) list.

(** The satellite's link follows the cached GatewayInfo values ([mesh.go]). *)
Definition refreshGatewayLink (now : GoTime) (dev : string) (g : Gateway) : Gateway :=
  let cached := GetCache (g_params g) dev in
  let values path := match cached !! path with Some v => cv_Value v | None => EmptyString end in
  on_devices (LinkGateway now dev (GatewayIdentityFromValues values)) g.

Definition cacheParameterValues (env : Env) (dev : string) (list : list ParameterValueStruct) (source : string)
    (g : Gateway) : Gateway :=
  match list with
  | [] => g
  | _ =>
      match Upsert (e_uuid env 0%nat) (e_uuid env 1%nat) (e_now env) dev (values_of (e_now env) source list)
              (g_params g) (g_devices g) (g_jobs g) with
      | Err _ => g
      | Ok (p, d, j) =>
          let g1 := set_tables p d j g in
          if hasGatewayInfo list then refreshGatewayLink (e_now env) dev g1 else g1
      end
  end.

Definition mark_failed (env : Env) (id code msg : string) (g : Gateway) : Gateway :=
  on_jobs (MarkFailed (e_now env) id code msg) g.

Definition markUnexpectedResponse (env : Env) (job : Job) (g : Gateway) : Gateway :=
  mark_failed env (ID job) "" "response did not match the RPC that was sent" g.

(** A reboot or reset that was acknowledged: silence is expected. *)
Definition markJobSuccess (env : Env) (dev : string) (job : Job) (g : Gateway) : Gateway :=
  let g1 := on_jobs (MarkSuccess (e_now env) (ID job)) g in
  if type_in (Type_ job) [TypeReboot; TypeFactoryReset]
  then on_devices (MarkRebooting (e_now env) dev) g1 else g1.

(** ** Diagnostics *)

Definition awaitDiagnostic (env : Env) (job : Job) (g : Gateway) : Gateway :=
  if DiagnosticsExpired job (e_now env) || (MaxAttempts job <=? Attempts job)
  then on_jobs (MarkTimeout (e_now env) (ID job)
         (if MaxAttempts job <=? Attempts job
          then ("diagnostic did not complete within " ++ Itoa (MaxAttempts job) ++ " attempts")%string
          else "diagnostic did not complete by its deadline")) g
  else on_jobs (λ j, (MarkAwaitingDiagnostics (e_now env) job (DiagnosticsWindow job) j).2) g.

Definition completeDiagnostic (env : Env) (dev : string) (job : Job) (body : InboundBody) (g : Gateway) : Gateway :=
  if negb (DiagnosticsTriggered job)
  then match ib_SetParameterValuesResponse body with
       | None => markUnexpectedResponse env job g
       | Some _ => awaitDiagnostic env job g
       end
  else match ib_GetParameterValuesResponse body with
  | None => markUnexpectedResponse env job g
  | Some list =>
      let g1 := cacheParameterValues env dev list "GET_PARAMETER_VALUES" g in
      let prefix := diagnosticPayloadPrefix job in
      let state := diagnosticsState list prefix in
      match classifyDiagnosticsState state with
      | diagPending => awaitDiagnostic env job g1
      | diagComplete =>
          if type_in (Type_ job) [TypeDiagnosticsDownload; TypeDiagnosticsUpload]
          then on_jobs (MarkSuccessWithDetail (e_now env) (ID job)
                  (tr143_detail list prefix (type_eqb (Type_ job) TypeDiagnosticsUpload))) g1
          else markJobSuccess env dev job g1
      | diagFailed => mark_failed env (ID job) "" state g1
      end
  end.

(** ** Discovery ([discovery.go]) *)

Definition discoveryResultDetail (root : string) (names : gmap string bool) (skipped : list string) : json :=
  JObj ([("root", JStr root); ("parameter_count", JNum (Z.of_nat (size names)));
         ("writable_count", JNum (Z.of_nat (size (filter (λ kv, kv.2 = true) names))))]
        ++ omit_list "skipped" JStr skipped).

Definition finishParameterDiscovery (env : Env) (dev : string) (job : Job) (payload : ParameterDiscoveryPayload)
    (names : gmap string bool) (g : Gateway) : Gateway :=
  match SaveDiscovery (e_now env) dev (pd_Firmware payload) (CommandKey job) "CWMP" (pd_Root payload) names []
          (g_devices g) (g_params g) with
  | Err e =>
      let g1 := mark_failed env (ID job) "" "failed to persist discovery snapshot" g in
      if String.eqb e ErrFirmwareChanged
      then on_jobs (λ j, (QueueDiscoveryIfNeeded (e_fresh env 0%nat) (e_now env) dev
                            (coalesced_firmware (cache_of (g_params g1) dev)) j).2) g1
      else g1
  | Ok params =>
      let root := if String.eqb (pd_Root payload) "InternetGatewayDevice." then RootIGD1 else RootDevice2 in
      let g1 := on_devices (UpdateDataModelRoot (e_now env) dev root) (set_g_params params g) in
      let g2 := on_jobs (MarkSuccessWithDetail (e_now env) (ID job)
                           (discoveryResultDetail (pd_Root payload) names (pd_Skipped payload))) g1 in
      if String.eqb (pd_Root payload) "Device."
      then queue_read (e_fresh env 2%nat) (e_now env) dev "system:gateway-info" (GatewayInfoReadPaths names)
             (queue_read (e_fresh env 1%nat) (e_now env) dev "system:wifi-state" (WiFiNetworkReadPaths names) g2)
      else g2
  end.

Definition finishSubtreeMerge (env : Env) (dev : string) (job : Job) (payload : ParameterDiscoveryPayload)
    (names : gmap string bool) (g : Gateway) : Gateway :=
  match MergeDiscoveredSubtree dev (pd_Root payload) names (g_params g) with
  | Err e => mark_failed env (ID job) "" ("failed to merge discovered subtree: " ++ e)%string g
  | Ok params =>
      on_jobs (MarkSuccessWithDetail (e_now env) (ID job) (discoveryResultDetail (pd_Root payload) names []))
        (set_g_params params g)
  end.

Definition skipDiscoveryObject (env : Env) (dev : string) (job : Job) (payload : ParameterDiscoveryPayload) (g : Gateway)
  : Gateway :=
  match SkipDiscoveryCursor payload with
  | Err e => mark_failed env (ID job) "" e g
  | Ok (done, _, payload') =>
      if done then finishParameterDiscovery env dev job payload' (pd_Names payload') g
      else on_jobs (λ j, (RequeueDiscovery (e_now env) job payload' j).2) g
  end.

Definition writable_names (list : list ParameterInfoStruct) : gmap string bool :=
  foldl (λ m p, <[pi_Name p := String.eqb (pi_Writable p) "1" || String.eqb (pi_Writable p) "true"]> m) ∅ list.

(** A fault or an empty answer at the root: fail, and try the other root once. *)
Definition discovery_found_nothing (env : Env) (dev : string) (job : Job) (payload : ParameterDiscoveryPayload)
    (detail : string) (g : Gateway) : Gateway :=
  let g1 := mark_failed env (ID job) "" detail g in
  if pd_IsFallback payload || String.eqb (pd_FallbackRoot payload) "" || negb (String.eqb (pd_Cursor payload) "")
  then g1
  else
    match CreateWithMaxAttempts false (e_fresh env 0%nat) (e_now env) dev TypeParameterDiscovery
            (encode_ParameterDiscovery
               (mkParameterDiscoveryPayload (pd_FallbackRoot payload) "" true (pd_Incremental payload) "" [] ∅ ∅ [] ∅
                  (pd_Firmware payload) ∅ false))
            "system:bootstrap-discovery" DiscoveryMaxObjects (g_jobs g1) with
    | (Err _, j) => on_jobs (λ _, j) g1
    | (Ok fallback, j) => on_jobs (λ _, RecordDiscoveryFallback (e_now env) (ID job) (CommandKey fallback) j) g1
    end.

Definition completeParameterDiscovery (env : Env) (dev : string) (job : Job) (body : InboundBody) (g : Gateway)
  : Gateway :=
  match decode_ParameterDiscovery (Payload job) with
  | None => g
  | Some payload =>
      match ib_Fault body, ib_GetParameterNamesResponse body with
      | Some f, _ =>
          if pd_Incremental payload && negb (String.eqb (pd_Cursor payload) "")
          then skipDiscoveryObject env dev job payload g
          else discovery_found_nothing env dev job payload (CWMPMessage f) g
      | None, None =>
          discovery_found_nothing env dev job payload ("device returned no parameters under " ++ pd_Root payload)%string g
      | None, Some list =>
          if (length list =? 0)%nat && String.eqb (pd_Cursor payload) ""
          then discovery_found_nothing env dev job payload
                 ("device returned no parameters under " ++ pd_Root payload)%string g
          else
            let names := writable_names list in
            if pd_Merge payload then finishSubtreeMerge env dev job payload names g
            else if pd_Incremental payload then
              match AdvanceDiscovery payload (e_range env bool names) with
              | Err e => mark_failed env (ID job) "" e g
              | Ok (done, payload') =>
                  if done then finishParameterDiscovery env dev job payload' (pd_Names payload') g
                  else on_jobs (λ j, (RequeueDiscovery (e_now env) job payload' j).2) g
              end
            else finishParameterDiscovery env dev job payload names g
      end
  end.

(** ** The answer to the RPC in flight *)

(** A nil slice marshals to null. *)
Definition access_list (l : list string) : json := match l with [] => JNull | _ => JArr (JStr <$> l) end.

Definition attribute_detail (list : list ParameterAttributeStruct) : json :=
  JObj (map_to_list (foldl (λ m a, <[pa_Name a := JObj [("notification", JNum (pa_Notification a));
                                                        ("access_list", access_list (pa_AccessList a))]]> m)
          (∅ : gmap string json) list)).

(** SET_PARAMETER: the read-back of a verified write, or the answer to the write. *)
Definition complete_set (env : Env) (dev : string) (job : Job) (body : InboundBody) (g : Gateway) : Gateway :=
  match ib_SetParameterValuesResponse body with
  | None =>
      match decode_SetParameter (Payload job), ib_GetParameterValuesResponse body with
      | Some payload, Some list =>
          if sp_VerificationPending payload then
            let check := CompareReadback payload (actual_of list) in
            let success := (length (Mismatched check) =? 0)%nat && (length (Missing check) =? 0)%nat
                           && negb (length (Matched check) =? 0)%nat in
            match RecordOperation (e_now env) dev (CommandKey job) "WRITE" success (VerificationPaths payload)
                    (Some (EvidenceFirmware job)) (g_devices g) (g_params g) with
            | Err _ => mark_failed env (ID job) "EVIDENCE_FAILED" "failed to persist write verification" g
            | Ok params =>
                let g1 := cacheParameterValues env dev list "GET_PARAMETER_VALUES" (set_g_params params g) in
                if negb success
                then mark_failed env (ID job) "READBACK_MISMATCH" "readback did not confirm every readable parameter" g1
                else markJobSuccess env dev job g1
            end
          else markUnexpectedResponse env job g
      | _, _ => markUnexpectedResponse env job g
      end
  | Some _ =>
      match decode_SetParameter (Payload job) with
      | None => markJobSuccess env dev job g
      | Some payload =>
          if sp_Verify payload && negb (length (VerificationPaths payload) =? 0)%nat
          then match BeginReadback (e_now env) job payload (g_jobs g) with
               | (Ok _, j) => on_jobs (λ _, j) g
               | (Err _, j) => mark_failed env (ID job) "READBACK_QUEUE_FAILED" "failed to queue verification"
                                 (on_jobs (λ _, j) g)
               end
          else
            let g1 := markJobSuccess env dev job g in
            match sp_Parameters payload with
            | [] => g1
            | params =>
                let values := foldl (λ m p, <[pw_Name p := mkCached (if String.eqb (pw_SecretHandle p) "" then pw_Value p
                                                                     else SecretRedacted)
                                                             (pw_Type p) (e_now env) "SET_PARAMETER_VALUES"]> m)
                                ∅ params in
                queue_read (e_fresh env 0%nat) (e_now env) dev "system:confirm" (pw_Name <$> params)
                  (upsert_values env dev values g1)
            end
      end
  end.

Definition wifi_insights_creator : string := "system:wifi-insights".

(** GET_PARAMETER: an answer that omits a requested name is a failure. *)
Definition complete_get (env : Env) (dev : string) (job : Job) (body : InboundBody) (g : Gateway) : Gateway :=
  match ib_GetParameterValuesResponse body with
  | None => markUnexpectedResponse env job g
  | Some list =>
      let partial := match decode_GetParameter (Payload job) with
                     | None => true
                     | Some read => negb (length (MissingReadPaths (gp_Paths read) (actual_of list)) =? 0)%nat
                     end in
      if partial then mark_failed env (ID job) "PARTIAL_READ" "device omitted requested readable parameters" g
      else
        let g1 := markJobSuccess env dev job g in
        if String.eqb (CreatedBy job) wifi_insights_creator then g1
        else
          let g2 := cacheParameterValues env dev list "GET_PARAMETER_VALUES" g1 in
          match list with
          | [] => g2
          | _ => match RecordOperation (e_now env) dev (CommandKey job) "READ" true (pv_Name <$> list)
                         (Some (EvidenceFirmware job)) (g_devices g2) (g_params g2) with
                 | Ok params => set_g_params params g2
                 | Err _ => g2
                 end
          end
  end.

(** A request that only has to be acknowledged. *)
Definition complete_ack {A} (answer : option A) (env : Env) (dev : string) (job : Job) (g : Gateway) : Gateway :=
  match answer with
  | None => markUnexpectedResponse env job g
  | Some _ => markJobSuccess env dev job g
  end.

Definition complete_answer (env : Env) (dev : string) (job : Job) (body : InboundBody) (g : Gateway) : Gateway :=
  match Type_ job with
  | TypeSetParameter => complete_set env dev job body g
  | TypeGetParameter => complete_get env dev job body g
  | TypeFirmwareDownload =>
      match ib_DownloadResponse body with
      | None => markUnexpectedResponse env job g
      | Some _ => on_jobs (MarkAwaitingTransferComplete (e_now env) (ID job)) g
      end
  | TypeUpload =>
      match ib_UploadResponse body with
      | None => markUnexpectedResponse env job g
      | Some _ => on_jobs (MarkAwaitingTransferComplete (e_now env) (ID job)) g
      end
  | TypeDiagnosticsPing | TypeDiagnosticsTraceroute | TypeDiagnosticsDownload | TypeDiagnosticsUpload =>
      completeDiagnostic env dev job body g
  | TypeAddObject =>
      match ib_AddObjectResponse body with
      | None => markUnexpectedResponse env job g
      | Some r => on_jobs (MarkSuccessWithDetail (e_now env) (ID job)
                     (JObj [("instance_number", JNum (ao_InstanceNumber r))])) g
      end
  | TypeDeleteObject => complete_ack (ib_DeleteObjectResponse body) env dev job g
  | TypeReboot => complete_ack (ib_RebootResponse body) env dev job g
  | TypeFactoryReset => complete_ack (ib_FactoryResetResponse body) env dev job g
  | TypeScheduleInform => complete_ack (ib_ScheduleInformResponse body) env dev job g
  | TypeSetParameterAttributes => complete_ack (ib_SetParameterAttributesResponse body) env dev job g
  | TypeGetParameterAttributes =>
      match ib_GetParameterAttributesResponse body with
      | None => markUnexpectedResponse env job g
      | Some list => on_jobs (MarkSuccessWithDetail (e_now env) (ID job) (attribute_detail list)) g
      end
  | TypeParameterDiscovery | TypeConnectionRequest => g
  end.

Definition completeJob (env : Env) (dev jobID : string) (body : InboundBody) (g : Gateway) : Gateway :=
  match ByID (g_jobs g) jobID with
  | None => g
  | Some job =>
      if negb (String.eqb (DeviceID job) dev) || negb (status_eqb (Status job) StatusRPCSent) then g
      else if type_eqb (Type_ job) TypeParameterDiscovery then completeParameterDiscovery env dev job body g
      else match ib_Fault body with
           | Some f => mark_failed env (ID job) (CWMPCode f) (CWMPMessage f) g
           | None => complete_answer env dev job body g
           end
  end.

(** ** Requests *)

Inductive Response : Type :=
| RespEmpty
| RespForbidden
| RespXML (body : string).

(** What the request's credential asserts: empty fields assert nothing. *)
Record inboundIdentity : Type := mkIdentity_ {
  credentialDeviceID : string;
  credentialUsername : string;
  mtlsNaturalKey : string;
  sharedCredential : bool
}.

(** The credential is not another device's than [dev]. *)
Definition identity_allows (bound : inboundIdentity) (devices : Devices) (dev : string) : bool :=
  (String.eqb (credentialDeviceID bound) "" || String.eqb (credentialDeviceID bound) dev)
  && (String.eqb (mtlsNaturalKey bound) ""
      || match Get devices dev with
         | Some d => String.eqb (d_OUISerial (d_identity d)) (mtlsNaturalKey bound)
         | None => false
         end).

(** [handleTransferComplete]: the job is found by its command key, in whatever
    session the report arrives. *)
Definition handleTransferComplete (env : Env) (tc : TransferComplete) (bound : inboundIdentity) (respID ns : string)
    (g : Gateway) : Response * Gateway :=
  let ack := RespXML (RenderTransferCompleteResponseNS respID ns) in
  match ByCommandKey (g_jobs g) (tc_CommandKey tc) with
  | None => (ack, g)
  | Some job =>
      if negb (identity_allows bound (g_devices g) (DeviceID job)) then (RespForbidden, g)
      else if negb (LateTransferReconcilable job) && negb (status_eqb (Status job) StatusAwaitingTransferComplete)
              && negb (status_eqb (Status job) StatusRPCSent)
      then (ack, g)
      else
        let '(code, msg) := match tc_FaultStruct tc with
                            | Some f => (fs_FaultCode f, fs_FaultString f)
                            | None => (EmptyString, EmptyString)
                            end in
        if IsFault tc then (ack, mark_failed env (ID job) code msg g)
        else
          let g1 := markJobSuccess env (DeviceID job) job g in
          (ack, if type_eqb (Type_ job) TypeFirmwareDownload
                then queue_read (e_fresh env 0%nat) (e_now env) (DeviceID job) "system:confirm"
                       ["Device.DeviceInfo.SoftwareVersion"] g1
                else g1)
  end.

Definition closeSession (env : Env) (id : string) (g : Gateway) : Response * Gateway :=
  (RespEmpty, on_sessions (CloseSession (e_now env) id "NO_PENDING_RPCS") g).

(** Lease the device's next job; with none left, let the onboarding queue its
    configuration and look once more. *)
Definition reconcileOnboardingAtSessionEnd (env : Env) (dev : string) (g : Gateway) : bool * Gateway :=
  match Get (g_devices g) dev with
  | None => (false, g)
  | Some d =>
      let names := match GetNames (g_params g) dev with Some (n, _) => n | None => ∅ end in
      let '(w, queued) := reconcileOnboarding (λ n, e_fresh env (3 + n)%nat) (e_now env) (e_range env bool names).*1
                            (e_range env CachedValue (GetCache (g_params g) dev)) false d (g_world g) in
      (queued, set_world w g)
  end.

Definition lease_next (env : Env) (dev : string) (g : Gateway) : option Job * Gateway :=
  let lease g := let '(job, j) := Lease (e_locked env) (e_owner env) (e_now env) dev (g_jobs g) in
                 (job, on_jobs (λ _, j) g) in
  match lease g with
  | (Some job, g1) => (Some job, g1)
  | (None, g1) =>
      let '(queued, g2) := reconcileOnboardingAtSessionEnd env dev g1 in
      if queued then lease g2 else (None, g2)
  end.

(** [send_job]: the leased job is recorded in the session before it is sent, so
    its answer finds it; a job that cannot be sent is failed. *)
Definition send_job (env : Env) (s : Session) (job : Job) (g : Gateway) : Response * Gateway :=
  let g1 := on_sessions (SetCurrentJob (ss_ID s) (ID job)) g in
  let firmware := Firmware (GetCache (g_params g1) (DeviceID job)) in
  let caps := match p_names (g_params g1) !! DeviceID job with
              | Some r => (λ c, mkCapability (sc_Path c) (sc_Access c)) <$> nr_capabilities r
              | None => []
              end in
  match BindFirmware firmware caps job (g_jobs g1) with
  | (Err e, j) => (RespEmpty, mark_failed env (ID job) "FIRMWARE_CHANGED" e (on_jobs (λ _, j) g1))
  | (Ok job', j) =>
      let g2 := on_jobs (λ _, j) g1 in
      match openSecretHandles (λ h t, OpenSecret key unseal (e_now env) h (DeviceID job') t) job' (g_secrets g2) with
      | (Err e, sec) => (RespEmpty, mark_failed env (ID job) "SECRET_HANDLE_UNAVAILABLE" e (set_secrets sec g2))
      | (Ok rendered, sec) =>
          let g3 := set_secrets sec g2 in
          match renderJobRequest (e_rpc_id env) rendered with
          | None => (RespEmpty, mark_failed env (ID job) "" "unrenderable job payload" g3)
          | Some body => (RespXML (RewriteCWMPNamespace body (ss_CWMPNamespace s)), g3)
          end
      end
  end.

Definition dispatch (env : Env) (cookie : option string) (body : InboundBody) (bound : inboundIdentity) (g : Gateway)
  : Response * Gateway :=
  match cookie with
  | None => (RespEmpty, g)
  | Some id =>
      match GetSession (g_sessions g) id with
      | None => (RespEmpty, g)
      | Some s =>
          if IsClosed s then (RespEmpty, g)
          else if negb (identity_allows bound (g_devices g) (ss_DeviceID s)) then (RespForbidden, g)
          else
            let g1 := match ss_CurrentJobID s with
                      | None => g
                      | Some jobID => on_sessions (SetCurrentJob (ss_ID s) "")
                                        (completeJob env (ss_DeviceID s) jobID body g)
                      end in
            match lease_next env (ss_DeviceID s) g1 with
            | (None, g2) => closeSession env (ss_ID s) g2
            | (Some job, g2) => send_job env s job g2
            end
      end
  end.

(** ** Every Inform *)

(** The identifiers drawn after the first [n]. *)
Definition later (n : nat) (env : Env) : Env :=
  mkEnv (e_now env) (λ i, e_fresh env (n + i)%nat) (λ i, e_uuid env (n + i)%nat) (e_rpc_id env) (e_owner env)
    (e_locked env) (e_range env).

(** [recoverAbandonedDiscovery]; completing one walk draws three identifiers. *)
Fixpoint recover_each (env : Env) (dev : string) (inFlight : list Job) (g : Gateway) : Gateway :=
  match inFlight with
  | [] => g
  | job :: rest =>
      recover_each (later 3 env) dev rest
        match decode_ParameterDiscovery (Payload job) with
        | Some payload => if pd_Incremental payload && negb (String.eqb (pd_Cursor payload) "")
                          then skipDiscoveryObject env dev job payload g else g
        | None => g
        end
  end.

Definition recoverAbandonedDiscovery (env : Env) (dev : string) (g : Gateway) : Gateway :=
  recover_each env dev (InFlightDiscoveries (g_jobs g) dev) g.

(** The (method, command key) pairs of the "M" events. *)
Definition method_keys (events : list EventStruct) (method cmd : string) : bool :=
  existsb (λ e, match CutPrefix (TrimSpace (ev_EventCode e)) "M " with
                | Some m => String.eqb m method && String.eqb (ev_CommandKey e) cmd
                | None => false
                end) events.

Definition recoverDroppedSessionJobs (env : Env) (dev : string) (events : list EventStruct) (g : Gateway) : Gateway :=
  let complete := events_have_code events EventDiagnosticsComplete in
  foldl (λ g job,
    let action := ClassifyDroppedSessionJob job (method_keys events) complete in
    on_jobs (λ j, (ApplyDroppedSessionAction (e_now env) job action j).2) g)
    g (DroppedSessionJobs (g_jobs g) dev).

Definition releaseAwaitingDiagnostics (env : Env) (dev : string) (g : Gateway) : Gateway :=
  on_jobs (λ j, (ReleaseAwaitingDiagnostics (e_now env) dev j).1) g.

End Handlers.
