(* ===== verification/GatewayLaws.v ===== *)
(** * What a request of one device may change

    [acts_for dev g g']: the step from [g] to [g'] runs statements of the job
    repository, keeps the invariants of every table, and leaves the rows of the
    other devices as they were.  Every handler of [Gateway.v] is such a step for
    the device it serves. *)

From S2P Require Import Prelude GoStrings Json Cwmp JobModel JobStore JobLaws Discovery Devices Credentials.
From S2P Require Import ParamCache ParamTheorems Onboarding OnboardingLaws Sessions Render Gateway.

(** ** The invariant *)

Record gateway_ok (g : Gateway) : Prop := mk_gateway_ok {
  go_jobs : table_ok (g_jobs g);
  go_devices : devices_ok (g_devices g);
  go_uuid : g_devices g !! EmptyString = None;
  go_sales : sales_ok (ow_sales (g_world g));
  go_sessions : map_Forall (λ k s, ss_ID s = k) (g_sessions g);
  go_credentials : credentials_ok (ow_credentials (g_world g))
}.

Section Frame.
Context (hash : json → string) (dev : string).

(** ** The job table *)

Record jobs_for (tab tab' : gmap string Job) : Prop := mk_jobs_for {
  jf_steps : rtc (job_step hash) tab tab';
  jf_kept : ∀ k j, tab !! k = Some j → ∃ j', tab' !! k = Some j' ∧ identity j' = identity j;
  jf_others : ∀ k j, DeviceID j ≠ dev → tab !! k = Some j ↔ tab' !! k = Some j
}.

#[global] Instance jobs_for_refl : Reflexive jobs_for.
Proof. intros tab. constructor; [done|eauto|done]. Qed.

#[global] Instance jobs_for_trans : Transitive jobs_for.
Proof.
  intros a b c [S1 K1 O1] [S2 K2 O2]. constructor.
  - by etrans.
  - intros k j H. destruct (K1 _ _ H) as (j1 & H1 & E1), (K2 _ _ H1) as (j2 & H2 & E2).
    exists j2. split; [done|congruence].
  - intros k j Hd. by rewrite O1, O2.
Qed.

Lemma jobs_for_ok tab tab' : jobs_for tab tab' → table_ok tab → table_ok tab'.
Proof.
  intros [Hs _ _]. clear -Hs. induction Hs as [|a b c H1 H2 IH]; [done|].
  intros H. apply IH. by apply (job_step_ok hash a b).
Qed.

(** Rows of [dev] rewritten in place. *)
Lemma jobs_for_rewrite tab tab' :
  job_step hash tab tab' →
  (∀ k, tab' !! k = tab !! k ∨
     ∃ j j', tab !! k = Some j ∧ tab' !! k = Some j' ∧ identity j' = identity j ∧ DeviceID j = dev) →
  jobs_for tab tab'.
Proof.
  intros Hs H. constructor; [by apply rtc_once| |].
  - intros k j Hj. destruct (H k) as [E|(j0 & j' & H1 & H2 & Hi & _)]; [rewrite E; eauto|].
    exists j'. split; [done|congruence].
  - intros k j Hd. destruct (H k) as [E|(j0 & j' & H1 & H2 & Hi & Hd')]; [by rewrite E|].
    rewrite H1, H2. injection Hi as _ _ Hi _ _. split; intros [= ->]; congruence.
Qed.

(** The row a snapshot names is a row of [dev]. *)
Definition owned (tab : gmap string Job) (job : Job) : Prop :=
  ∃ row, tab !! ID job = Some row ∧ DeviceID row = dev ∧ Type_ row = Type_ job.

Lemma owned_snapshot tab job : owned tab job → snapshot tab job.
Proof. intros (row & ? & _ & ?). by exists row. Qed.

Lemma owned_kept tab tab' job : jobs_for tab tab' → owned tab job → owned tab' job.
Proof.
  intros Hf (row & H & Hd & Ht). destruct (jf_kept _ _ Hf _ _ H) as (row' & H' & Hi).
  exists row'. injection Hi as _ _ Hi Hi' _. split_and!; congruence.
Qed.

Lemma owned_same tab job job' : ID job' = ID job → Type_ job' = Type_ job → owned tab job → owned tab job'.
Proof. unfold owned. intros -> ->. done. Qed.

Lemma jobs_for_update_key tab job p f :
  job_step hash tab (update_key (ID job) p f tab).1 → owned tab job → (∀ j, identity (f j) = identity j) →
  jobs_for tab (update_key (ID job) p f tab).1.
Proof.
  intros Hs (row & H & Hd & _) Hf. apply jobs_for_rewrite; [done|]. intros k. rewrite lookup_update_key.
  case_decide as Hk; [|by left]. subst k. rewrite H. simpl. destruct (p row); [|by left].
  right. exists row, (f row). auto.
Qed.

Lemma jobs_for_guarded tab job f :
  job_step hash tab (guarded job f tab).2 → owned tab job → (∀ j, identity (f j) = identity j) →
  jobs_for tab (guarded job f tab).2.
Proof.
  unfold guarded. intros Hs Ho Hf. pose proof (jobs_for_update_key tab job (current_attempt job) f) as H.
  destruct (update_key _ _ _ _). simpl in *. auto.
Qed.

Lemma guarded_or_snd job f msg (tab : gmap string Job) : (guarded_or job f msg tab).2 = (guarded job f tab).2.
Proof. unfold guarded_or. by destruct (guarded job f tab). Qed.

Lemma jobs_for_update_where tab p f :
  job_step hash tab (update_where p f tab).1 → (∀ j, p j = true → DeviceID j = dev) →
  (∀ j, identity (f j) = identity j) → jobs_for tab (update_where p f tab).1.
Proof.
  intros Hs Hp Hf. apply jobs_for_rewrite; [done|]. intros k. rewrite lookup_update_where.
  destruct (tab !! k) as [row|]; [|by left]. simpl. destruct (p row) eqn:E; [|by left].
  right. exists row, (f row). auto.
Qed.

(** A new row of [dev]. *)
Lemma jobs_for_insert tab j :
  job_step hash tab (insert_job tab j).2 → DeviceID j = dev → jobs_for tab (insert_job tab j).2.
Proof.
  unfold insert_job. destruct (unique_ok tab j) eqn:Hu; [|done]. simpl. intros Hs Hd.
  unfold unique_ok in Hu. bool_to_prop. assert (tab !! ID j = None) as Hn by (by destruct (tab !! ID j)).
  constructor; [by apply rtc_once| |].
  - intros k i Hi. rewrite lookup_insert_ne by congruence. eauto.
  - intros k i Hi. rewrite lookup_insert. case_decide; [|done]. subst. rewrite Hn. split; [done|]. congruence.
Qed.

Lemma jobs_for_CreateWithMaxAttempts al fr now t p by_ m tab :
  jobs_for tab (CreateWithMaxAttempts al fr now dev t p by_ m tab).2.
Proof.
  pose proof (step_create hash tab al fr now dev t p by_ m) as Hs. unfold CreateWithMaxAttempts in *.
  destruct (checkProtectedWrite al t p); [done|]. by apply jobs_for_insert.
Qed.

Lemma jobs_for_Create al fr now t p by_ tab : jobs_for tab (Create al fr now dev t p by_ tab).2.
Proof. apply jobs_for_CreateWithMaxAttempts. Qed.

Lemma jobs_for_queue_discovery fr now fw tab : jobs_for tab (QueueDiscoveryIfNeeded fr now dev fw tab).2.
Proof.
  pose proof (step_queue_discovery hash tab fr now dev fw) as Hs. unfold QueueDiscoveryIfNeeded in *.
  destruct (existsb _ _); [done|]. cbv zeta in *. set (j := new_job _ _ _ _ _ _ _ _ _) in *.
  pose proof (jobs_for_insert tab j) as Hi. destruct (insert_job tab j) as [[] ?]; simpl in *; auto.
Qed.

Lemma jobs_for_firmware_discovery u ku now root fb fw tab :
  jobs_for tab (queue_firmware_discovery u ku now dev root fb fw tab).2.
Proof.
  pose proof (step_firmware_discovery hash tab u ku now dev root fb fw) as Hs. unfold queue_firmware_discovery in *.
  destruct (existsb _ _); [done|]. set (j := firmware_discovery_job _ _ _ _ _ _ _) in *.
  pose proof (jobs_for_insert tab j) as Hi. destruct (insert_job tab j) as [[] ?]; simpl in *; auto.
Qed.

Lemma jobs_for_success now job tab : owned tab job → jobs_for tab (MarkSuccess now (ID job) tab).
Proof. intros. by apply jobs_for_update_key; [apply step_success|..]. Qed.
Lemma jobs_for_success_detail now job d tab :
  owned tab job → jobs_for tab (MarkSuccessWithDetail now (ID job) d tab).
Proof. intros. by apply jobs_for_update_key; [apply step_success_detail|..]. Qed.
Lemma jobs_for_failed now job c m tab : owned tab job → jobs_for tab (MarkFailed now (ID job) c m tab).
Proof. intros. by apply jobs_for_update_key; [apply step_failed|..]. Qed.
Lemma jobs_for_timeout now job m tab : owned tab job → jobs_for tab (MarkTimeout now (ID job) m tab).
Proof. intros. by apply jobs_for_update_key; [apply step_timeout|..]. Qed.
Lemma jobs_for_await_transfer now job tab :
  owned tab job → jobs_for tab (MarkAwaitingTransferComplete now (ID job) tab).
Proof. intros. by apply jobs_for_update_key; [apply step_await_transfer|..]. Qed.
Lemma jobs_for_fallback now job key tab :
  owned tab job → jobs_for tab (RecordDiscoveryFallback now (ID job) key tab).
Proof. intros. by apply jobs_for_update_key; [apply step_discovery_fallback|..]. Qed.

Lemma jobs_for_await_diagnostics now job w tab :
  owned tab job → IsCWMPDiagnosticType (Type_ job) = true → jobs_for tab (MarkAwaitingDiagnostics now job w tab).2.
Proof. intros. by apply jobs_for_guarded; [apply step_await_diagnostics; auto using owned_snapshot|..]. Qed.

Lemma jobs_for_readback now job p tab :
  owned tab job → Type_ job = TypeSetParameter → jobs_for tab (BeginReadback now job p tab).2.
Proof.
  intros Ho Ht. pose proof (step_readback hash tab now job p (owned_snapshot _ _ Ho) Ht) as Hs.
  unfold BeginReadback in *. rewrite guarded_or_snd in *. by apply jobs_for_guarded.
Qed.

Lemma jobs_for_requeue_discovery now job p tab :
  owned tab job → Type_ job = TypeParameterDiscovery → jobs_for tab (RequeueDiscovery now job p tab).2.
Proof.
  intros Ho Ht. pose proof (step_requeue_discovery hash tab now job p (owned_snapshot _ _ Ho) Ht) as Hs.
  unfold RequeueDiscovery in *. rewrite guarded_or_snd in *. by apply jobs_for_guarded.
Qed.

Lemma jobs_for_dropped now job mk dc tab :
  owned tab job →
  jobs_for tab (ApplyDroppedSessionAction now job (ClassifyDroppedSessionJob job mk dc) tab).2.
Proof.
  intros Ho. apply jobs_for_guarded; [apply step_dropped; auto using owned_snapshot|done|].
  intros j. by destruct (ClassifyDroppedSessionJob job mk dc).
Qed.

Lemma jobs_for_release now tab : jobs_for tab (ReleaseAwaitingDiagnostics now dev tab).1.
Proof.
  apply jobs_for_update_where; [apply step_release_diagnostics| |done].
  intros j H. by bool_to_prop.
Qed.

Lemma jobs_for_lease locked owner now tab : table_ok tab → jobs_for tab (Lease locked owner now dev tab).2.
Proof.
  intros Hok. pose proof (step_lease hash tab locked owner now dev sessionDispatchableTypes) as Hs.
  unfold Lease, LeaseForTypes, leaseForTypes, lease_with in *.
  destruct (pick _ _ _) as [j|] eqn:Ep; [|done]. simpl in *. apply pick_spec in Ep as ((k & Hk) & Hp & _).
  apply jobs_for_update_key; [done| |done]. exists j.
  pose proof (ok_key _ _ (tab_rows _ Hok _ _ Hk)) as Hid. simpl in Hid. rewrite Hid.
  unfold leasable in Hp. by bool_to_prop.
Qed.

Lemma jobs_for_bind fw caps job tab : owned tab job → jobs_for tab (BindFirmware fw caps job tab).2.
Proof.
  intros Ho. pose proof (step_bind_firmware hash tab fw caps job) as Hs. unfold BindFirmware in *.
  destruct (_ && _); [done|]. destruct (bind_payload fw caps job) as [[next|]|]; [|done|done].
  pose proof (jobs_for_guarded tab job (set_payload next)) as Hg.
  destruct (guarded job (set_payload next) tab) as [[] ?]; simpl in *; [auto|reflexivity].
Qed.

End Frame.

#[export] Hint Resolve jobs_for_success jobs_for_success_detail jobs_for_failed jobs_for_timeout
  jobs_for_await_transfer jobs_for_fallback jobs_for_await_diagnostics jobs_for_readback
  jobs_for_requeue_discovery jobs_for_dropped jobs_for_release jobs_for_lease jobs_for_bind
  jobs_for_Create jobs_for_CreateWithMaxAttempts jobs_for_queue_discovery jobs_for_firmware_discovery : acs.

Section Acts.
Context (hash : json → string) (dev : string).

(** ** The other tables *)

Definition devices_for (t t' : Devices) : Prop :=
  (∀ k, k ≠ dev → t' !! k = t !! k) ∧
  (∀ k, d_identity <$> t' !! k = d_identity <$> t !! k).

Record params_for (p p' : Params) : Prop := mk_params_for {
  pf_cache : ∀ k, k ≠ dev → p_cache p' !! k = p_cache p !! k;
  pf_history : List.filter (λ h, negb (String.eqb (h_device h) dev)) (p_history p')
             = List.filter (λ h, negb (String.eqb (h_device h) dev)) (p_history p);
  pf_names : ∀ k, k ≠ dev → p_names p' !! k = p_names p !! k;
  pf_snapshots : ∀ k, k ≠ dev → p_snapshots p' !! k = p_snapshots p !! k;
  pf_operations : ∀ k, k ≠ dev → p_operations p' !! k = p_operations p !! k;
  pf_instances : ∀ k, k ≠ dev → p_instances p' !! k = p_instances p !! k
}.

Definition sales_for (t t' : Sales) : Prop :=
  (sales_ok t → sales_ok t') ∧
  ∀ k o d, o_DeviceID o = Some d → d ≠ dev → t !! k = Some o ↔ t' !! k = Some o.

Definition sessions_for (t t' : SessionsTable) : Prop :=
  (map_Forall (λ k s, ss_ID s = k) t → map_Forall (λ k s, ss_ID s = k) t') ∧
  (∀ k s, t !! k = Some s → ∃ s', t' !! k = Some s' ∧ ss_DeviceID s' = ss_DeviceID s) ∧
  ∀ k s, ss_DeviceID s ≠ dev → t !! k = Some s ↔ t' !! k = Some s.

Definition secrets_for (t t' : Secrets) : Prop :=
  (∀ k r, sr_device r ≠ Some dev → t !! k = Some r ↔ t' !! k = Some r).

(** The tables no request of a session writes. *)
Definition settings (w : OnbWorld) := (ow_plans w, ow_templates w, ow_credentials w).

Record acts_for (g g' : Gateway) : Prop := mk_acts_for {
  af_jobs : jobs_for hash dev (g_jobs g) (g_jobs g');
  af_devices : devices_for (g_devices g) (g_devices g');
  af_params : params_for (g_params g) (g_params g');
  af_sales : sales_for (ow_sales (g_world g)) (ow_sales (g_world g'));
  af_sessions : sessions_for (g_sessions g) (g_sessions g');
  af_secrets : secrets_for (g_secrets g) (g_secrets g');
  af_settings : settings (g_world g') = settings (g_world g)
}.

#[global] Instance devices_for_preorder : PreOrder devices_for.
Proof.
  split; [done|]. intros a b c [H1 I1] [H2 I2]. split; intros k; [intros Hk; by rewrite H2, H1|by rewrite I2, I1].
Qed.
#[global] Instance params_for_preorder : PreOrder params_for.
Proof.
  split; [done|]. intros a b c [A1 A2 A3 A4 A5 A6] [B1 B2 B3 B4 B5 B6].
  constructor; [|congruence|..]; intros k Hk;
    [by rewrite B1, A1|by rewrite B3, A3|by rewrite B4, A4|by rewrite B5, A5|by rewrite B6, A6].
Qed.
#[global] Instance sales_for_preorder : PreOrder sales_for.
Proof.
  split; [by split|]. intros a b c [H1 O1] [H2 O2]. split; [auto|]. intros k o d Ho Hd.
  by rewrite (O1 _ _ _ Ho Hd), (O2 _ _ _ Ho Hd).
Qed.
#[global] Instance sessions_for_preorder : PreOrder sessions_for.
Proof.
  split; [intros t; split_and!; by eauto|]. intros a b c (H1 & K1 & O1) (H2 & K2 & O2). split_and!; [auto| |].
  - intros k s Hs. destruct (K1 _ _ Hs) as (s1 & Hs1 & E1), (K2 _ _ Hs1) as (s2 & Hs2 & E2).
    exists s2. split; [done|congruence].
  - intros k s Hs. by rewrite O1, O2.
Qed.
#[global] Instance secrets_for_preorder : PreOrder secrets_for.
Proof. split; [done|]. intros a b c H1 H2 k r Hr. by rewrite (H1 k r Hr), (H2 k r Hr). Qed.

#[global] Instance acts_for_preorder : PreOrder acts_for.
Proof.
  split; [intros g; by constructor|]. intros a b c [] []. constructor; [etrans; eassumption..|congruence].
Qed.

(** The invariant is kept. *)
Lemma devices_for_ok t t' : devices_for t t' → devices_ok t → devices_ok t'.
Proof.
  intros [_ Hi] [Hk Hu].
  assert (∀ k d', t' !! k = Some d' → ∃ d, t !! k = Some d ∧ d_identity d = d_identity d') as Hb.
  { intros k d' H. specialize (Hi k). rewrite H in Hi. destruct (t !! k) as [d|]; simplify_eq/=; eauto. }
  split.
  - intros k d' H. apply Hb in H as (d & H & <-). eauto.
  - intros k1 k2 d1 d2 H1 H2 He. apply Hb in H1 as (e1 & H1 & E1), H2 as (e2 & H2 & E2).
    eapply Hu; [done|done|congruence].
Qed.

Lemma acts_for_ok g g' : acts_for g g' → gateway_ok g → gateway_ok g'.
Proof.
  intros [Hj Hd Hp [Hs _] [Hse _] _ Hset] [G1 G2 G3 G4 G5 G6]. constructor; auto.
  - by eapply jobs_for_ok.
  - by eapply devices_for_ok.
  - destruct Hd as [_ Hi]. specialize (Hi EmptyString). rewrite G3 in Hi.
    by destruct (g_devices g' !! EmptyString).
  - injection Hset as _ _ ->. done.
Qed.

(** ** Primitive changes *)

Lemma acts_tables g p d j :
  params_for (g_params g) p → devices_for (g_devices g) d → jobs_for hash dev (g_jobs g) j →
  acts_for g (set_tables p d j g).
Proof. intros. by constructor. Qed.

Lemma acts_jobs g f : jobs_for hash dev (g_jobs g) (f (g_jobs g)) → acts_for g (on_jobs f g).
Proof. intros. by apply acts_tables. Qed.

Lemma acts_params g p : params_for (g_params g) p → acts_for g (set_g_params p g).
Proof. intros. by apply acts_tables. Qed.

Lemma devices_for_alter f t : (∀ d, d_identity (f d) = d_identity d) → devices_for t (on_device dev f t).
Proof.
  intros Hf. unfold on_device. split; intros k.
  - intros Hk. by rewrite lookup_alter_ne.
  - destruct (decide (k = dev)) as [->|]; [|by rewrite lookup_alter_ne].
    rewrite lookup_alter_eq. destruct (t !! dev); [|done]. simpl. by rewrite Hf.
Qed.

Lemma acts_devices g f : devices_for (g_devices g) (f (g_devices g)) → acts_for g (on_devices f g).
Proof. intros. by apply acts_tables. Qed.

(** One session of [dev] rewritten. *)
Lemma acts_session g id f s :
  g_sessions g !! id = Some s → ss_DeviceID s = dev →
  (∀ s, ss_ID (f s) = ss_ID s ∧ ss_DeviceID (f s) = ss_DeviceID s) → acts_for g (on_sessions (alter f id) g).
Proof.
  intros Hs Hd Hf. constructor; try done. simpl. split_and!.
  - intros Hk k s'. destruct (decide (k = id)) as [->|]; [|rewrite lookup_alter_ne by done; apply Hk].
    rewrite lookup_alter_eq, Hs. simpl. intros [= <-]. specialize (Hk _ _ Hs). simpl in Hk. by rewrite (proj1 (Hf s)).
  - intros k s' Hs'. destruct (decide (k = id)) as [->|]; [|rewrite lookup_alter_ne; eauto].
    rewrite lookup_alter_eq, Hs'. exists (f s'). split; [done|apply Hf].
  - intros k s' Hs'. destruct (decide (k = id)) as [->|]; [|by rewrite lookup_alter_ne].
    rewrite lookup_alter_eq, Hs. simpl. split; intros [= <-]; [done|].
    destruct Hs'. by rewrite (proj2 (Hf s)).
Qed.

Lemma acts_set_current g id jobID s :
  g_sessions g !! id = Some s → ss_DeviceID s = dev → acts_for g (on_sessions (SetCurrentJob id jobID) g).
Proof. intros Hs Hd. apply (acts_session g id _ s Hs Hd). intros s'. by destruct (String.eqb jobID ""). Qed.

Lemma acts_close g now id reason s :
  g_sessions g !! id = Some s → ss_DeviceID s = dev → acts_for g (on_sessions (CloseSession now id reason) g).
Proof. intros Hs Hd. by apply (acts_session g id _ s Hs Hd). Qed.

(** ** The parameter tables *)

Lemma filter_history (l : list (string * CachedValue)) :
  List.filter (λ h, negb (String.eqb (h_device h) dev)) (history_row dev <$> l) = [].
Proof. induction l as [|kv l IH]; [done|]. simpl. by rewrite String.eqb_refl. Qed.

Lemma Upsert_params_for uuid ku now values params devices jobs p d j :
  Upsert uuid ku now dev values params devices jobs = Ok (p, d, j) →
  params_for params p ∧ devices_for devices d ∧ jobs_for hash dev jobs j.
Proof.
  unfold Upsert. destruct (size values =? 0)%nat; [by intros [= <- <- <-]|].
  destruct (is_some (devices !! dev)); [|done]. simpl.
  assert (∀ names, (∀ k, k ≠ dev → names !! k = p_names params !! k) →
    params_for params (mkParams (<[dev := redactSecrets values ∪ cache_of params dev]> (p_cache params))
      (p_history params ++ (history_row dev <$> List.filter (changed_value (cache_of params dev))
         (map_to_list (redactSecrets values)))) names (p_snapshots params) (p_operations params)
         (p_instances params))) as Hp.
  { intros names Hn. constructor; simpl; try done.
    - intros k Hk. by rewrite lookup_insert_ne.
    - by rewrite List.filter_app, filter_history, app_nil_r. }
  destruct (version_change _ _) as [[[root fb] fw]|]; simpl.
  - pose proof (jobs_for_firmware_discovery hash dev uuid ku now root fb fw jobs) as Hj.
    destruct (queue_firmware_discovery _ _ _ _ _ _ _ _) as [[[]|] jobs']; simpl; [|done].
    intros [= <- <- <-]. split_and!; [|by apply devices_for_alter|done].
    apply Hp. intros k Hk. by rewrite lookup_alter_ne.
  - intros [= <- <- <-]. by split_and!; [apply Hp| |].
Qed.

Lemma SaveDiscovery_params_for now fw key proto root names caps devices params p :
  SaveDiscovery now dev fw key proto root names caps devices params = Ok p → params_for params p.
Proof.
  unfold SaveDiscovery. destruct (negb _); [done|]. destruct (_ && _); [done|]. intros [= <-].
  constructor; simpl; try done; intros k Hk; by rewrite lookup_insert_ne.
Qed.

Lemma Merge_params_for root names params p :
  MergeDiscoveredSubtree dev root names params = Ok p → params_for params p.
Proof.
  unfold MergeDiscoveredSubtree. destruct (negb _); [done|]. destruct (p_names params !! dev); [|done].
  intros [= <-]. constructor; simpl; try done; intros k Hk; by rewrite lookup_insert_ne.
Qed.

Lemma RecordOperation_params_for now key op success paths fw devices params p :
  RecordOperation now dev key op success paths fw devices params = Ok p → params_for params p.
Proof.
  unfold RecordOperation. destruct (match fw with Some e => negb _ | None => false end); [done|]. destruct (negb _); [done|]. intros [= <-].
  constructor; simpl; try done; intros k Hk; by rewrite lookup_insert_ne.
Qed.

End Acts.

#[export] Hint Resolve devices_for_alter : acs.

(** ** The handlers *)

Section Handlers.
Context (hash : json → string).
Context (tr143_detail : list ParameterValueStruct → string → bool → json).
Context (env : Env) (dev : string).

Abbreviation acts := (acts_for hash dev).
Abbreviation own g job := (owned dev (g_jobs g) job).

Lemma owned_after g g' job : acts g g' → own g job → own g' job.
Proof. intros H. eapply owned_kept, (af_jobs _ _ _ _ H). Qed.

Lemma acts_job g f : (∀ tab, jobs_for hash dev tab (f tab)) → acts g (on_jobs f g).
Proof. intros H. apply acts_jobs, H. Qed.

Lemma acts_job_of g job f :
  own g job → (∀ tab, owned dev tab job → jobs_for hash dev tab (f tab)) → acts g (on_jobs f g).
Proof. intros Ho H. by apply acts_jobs, H. Qed.

Lemma acts_upsert values g : acts g (upsert_values env dev values g).
Proof.
  unfold upsert_values. destruct (Upsert _ _ _ _ _ _ _ _) as [[[p d] j]|] eqn:E; [|done].
  apply (Upsert_params_for hash) in E as (? & ? & ?). by apply acts_tables.
Qed.

Lemma acts_link now g : acts g (refreshGatewayLink now dev g).
Proof. apply acts_devices, devices_for_alter. intros d. by case_match. Qed.

Lemma acts_cache list source g : acts g (cacheParameterValues env dev list source g).
Proof.
  unfold cacheParameterValues. destruct list as [|v list]; [done|].
  destruct (Upsert _ _ _ _ _ _ _ _) as [[[p d] j]|] eqn:E; [|done].
  apply (Upsert_params_for hash) in E as (Hp & Hd & Hj). cbv zeta.
  assert (acts g (set_tables p d j g)) as H1 by (by apply acts_tables).
  destruct (hasGatewayInfo _); [|done]. etrans; [exact H1|apply acts_link].
Qed.

Lemma acts_failed job c m g : own g job → acts g (mark_failed env (ID job) c m g).
Proof. intros. eapply acts_job_of; [done|]. auto with acs. Qed.

Lemma acts_unexpected job g : own g job → acts g (markUnexpectedResponse env job g).
Proof. apply acts_failed. Qed.

Lemma acts_success job g : own g job → acts g (markJobSuccess env dev job g).
Proof.
  intros Ho. unfold markJobSuccess. trans (on_jobs (MarkSuccess (e_now env) (ID job)) g).
  - eapply acts_job_of; [done|]. auto with acs.
  - destruct (type_in _ _); [|done]. by apply acts_devices, devices_for_alter.
Qed.

Lemma acts_success_detail job d g :
  own g job → acts g (on_jobs (MarkSuccessWithDetail (e_now env) (ID job) d) g).
Proof. intros. eapply acts_job_of; [done|]. auto with acs. Qed.

Lemma acts_queue_read fr creator paths g : acts g (queue_read fr (e_now env) dev creator paths g).
Proof. unfold queue_read. destruct paths; [done|]. apply acts_job. auto with acs. Qed.

Lemma acts_await_diagnostic job g :
  own g job → IsCWMPDiagnosticType (Type_ job) = true → acts g (awaitDiagnostic env job g).
Proof.
  intros Ho Ht. unfold awaitDiagnostic. destruct (_ || _); (eapply acts_job_of; [done|]; auto with acs).
Qed.

Lemma acts_complete_diagnostic job body g :
  own g job → IsCWMPDiagnosticType (Type_ job) = true →
  acts g (completeDiagnostic tr143_detail env dev job body g).
Proof.
  intros Ho Ht. unfold completeDiagnostic. destruct (negb (DiagnosticsTriggered job)).
  { destruct (ib_SetParameterValuesResponse body); auto using acts_await_diagnostic, acts_unexpected. }
  destruct (ib_GetParameterValuesResponse body) as [list|]; [|by apply acts_unexpected].
  cbv zeta. pose proof (acts_cache list "GET_PARAMETER_VALUES" g) as H1.
  pose proof (owned_after _ _ _ H1 Ho) as Ho1. etrans; [exact H1|].
  destruct (classifyDiagnosticsState _); [|destruct (type_in _ _)|];
    auto using acts_await_diagnostic, acts_success_detail, acts_success, acts_failed.
Qed.

Lemma acts_finish_discovery job payload names g :
  own g job → acts g (finishParameterDiscovery env dev job payload names g).
Proof.
  intros Ho. unfold finishParameterDiscovery.
  destruct (SaveDiscovery _ _ _ _ _ _ _ _ _ _) as [params|e] eqn:E.
  - cbv zeta. set (g1 := on_devices _ _). set (g2 := on_jobs _ g1).
    assert (acts g g1) as H1.
    { trans (set_g_params params g); [apply acts_params; eauto using SaveDiscovery_params_for|].
      by apply acts_devices, devices_for_alter. }
    assert (acts g g2) as H2.
    { etrans; [exact H1|]. apply acts_success_detail. by eapply owned_after. }
    destruct (String.eqb _ "Device."); [|done]. etrans; [exact H2|].
    etrans; [|apply acts_queue_read]. apply acts_queue_read.
  - pose proof (acts_failed job "" "failed to persist discovery snapshot" g Ho) as H1. cbv zeta.
    destruct (String.eqb e _); [|done]. etrans; [exact H1|]. apply acts_job. auto with acs.
Qed.

Lemma acts_merge job payload names g : own g job → acts g (finishSubtreeMerge env dev job payload names g).
Proof.
  intros Ho. unfold finishSubtreeMerge. destruct (MergeDiscoveredSubtree _ _ _ _) as [params|e] eqn:E; [|by apply acts_failed].
  apply Merge_params_for, (acts_params hash) in E. etrans; [exact E|].
  apply acts_success_detail. by eapply owned_after.
Qed.

Lemma acts_requeue_discovery job p g :
  own g job → Type_ job = TypeParameterDiscovery → acts g (on_jobs (λ j, (RequeueDiscovery (e_now env) job p j).2) g).
Proof. intros. eapply acts_job_of; [done|]. auto with acs. Qed.

Lemma acts_skip job payload g :
  own g job → Type_ job = TypeParameterDiscovery → acts g (skipDiscoveryObject env dev job payload g).
Proof.
  intros Ho Ht. unfold skipDiscoveryObject. destruct (SkipDiscoveryCursor payload) as [[[[] ?] p]|e];
    auto using acts_finish_discovery, acts_requeue_discovery, acts_failed.
Qed.

Lemma acts_found_nothing job payload detail g :
  own g job → acts g (discovery_found_nothing env dev job payload detail g).
Proof.
  intros Ho. unfold discovery_found_nothing. cbv zeta.
  pose proof (acts_failed job "" detail g Ho) as H1. pose proof (owned_after _ _ _ H1 Ho) as Ho1.
  destruct (_ || _); [done|]. etrans; [exact H1|].
  pose proof (jobs_for_CreateWithMaxAttempts hash dev false (e_fresh env 0%nat) (e_now env) TypeParameterDiscovery
    (encode_ParameterDiscovery (mkParameterDiscoveryPayload (pd_FallbackRoot payload) "" true (pd_Incremental payload)
       "" [] ∅ ∅ [] ∅ (pd_Firmware payload) ∅ false)) "system:bootstrap-discovery" DiscoveryMaxObjects
    (g_jobs (mark_failed env (ID job) "" detail g))) as Hc.
  destruct (CreateWithMaxAttempts _ _ _ _ _ _ _ _ _) as [[fb|] j]; simpl in Hc; apply acts_jobs; [|done].
  etrans; [exact Hc|]. apply jobs_for_fallback. by eapply owned_kept.
Qed.

Lemma acts_complete_discovery job body g :
  own g job → Type_ job = TypeParameterDiscovery → acts g (completeParameterDiscovery env dev job body g).
Proof.
  intros Ho Ht. unfold completeParameterDiscovery. destruct (decode_ParameterDiscovery _) as [payload|]; [|done].
  destruct (ib_Fault body) as [f|].
  { destruct (_ && _); auto using acts_skip, acts_found_nothing. }
  destruct (ib_GetParameterNamesResponse body) as [list|]; [|by apply acts_found_nothing].
  destruct (_ && _); [by apply acts_found_nothing|]. cbv zeta.
  destruct (pd_Merge payload); [by apply acts_merge|].
  destruct (pd_Incremental payload); [|by apply acts_finish_discovery].
  destruct (AdvanceDiscovery _ _) as [[[] p]|e];
    auto using acts_finish_discovery, acts_requeue_discovery, acts_failed.
Qed.

Lemma acts_complete_set job body g :
  own g job → Type_ job = TypeSetParameter → acts g (complete_set env dev job body g).
Proof.
  intros Ho Ht. unfold complete_set. destruct (ib_SetParameterValuesResponse body).
  - destruct (decode_SetParameter (Payload job)) as [payload|]; [|by apply acts_success].
    destruct (_ && _).
    + pose proof (jobs_for_readback hash dev (e_now env) job payload (g_jobs g) Ho Ht) as Hb.
      destruct (BeginReadback _ _ _ _) as [[] j]; simpl in Hb.
      * by apply acts_jobs.
      * etrans; [by apply (acts_jobs hash dev g (λ _, j))|]. apply acts_failed. by eapply owned_kept.
    + cbv zeta. pose proof (acts_success job g Ho) as H1. destruct (sp_Parameters payload); [done|].
      etrans; [exact H1|]. etrans; [|apply acts_queue_read]. apply acts_upsert.
  - destruct (decode_SetParameter (Payload job)) as [payload|]; [|by apply acts_unexpected].
    destruct (ib_GetParameterValuesResponse body) as [list|]; [|by apply acts_unexpected].
    destruct (sp_VerificationPending payload); [|by apply acts_unexpected]. cbv zeta.
    destruct (RecordOperation _ _ _ _ _ _ _ _ _) as [params|] eqn:E; [|by apply acts_failed].
    set (g1 := cacheParameterValues _ _ _ _ _). assert (acts g g1) as H1.
    { etrans; [apply acts_params; by eapply RecordOperation_params_for|]. apply acts_cache. }
    etrans; [exact H1|]. apply (owned_after _ _ _ H1) in Ho.
    case_match; auto using acts_failed, acts_success.
Qed.

Lemma acts_complete_get job body g : own g job → acts g (complete_get env dev job body g).
Proof.
  intros Ho. unfold complete_get. destruct (ib_GetParameterValuesResponse body) as [list|]; [|by apply acts_unexpected].
  cbv zeta. destruct (match decode_GetParameter (Payload job) with None => true | Some read => _ end);
    [by apply acts_failed|].
  destruct (String.eqb _ _); [by apply acts_success|].
  trans (markJobSuccess env dev job g); [by apply acts_success|].
  set (g1 := markJobSuccess env dev job g).
  etrans; [apply (acts_cache list "GET_PARAMETER_VALUES")|]. destruct list as [|v list]; [done|].
  destruct (RecordOperation _ _ _ _ _ _ _ _ _) as [params|] eqn:E; [|done].
  apply acts_params. by eapply RecordOperation_params_for.
Qed.

Lemma acts_ack {A} (answer : option A) job g : own g job → acts g (complete_ack answer env dev job g).
Proof. intros. unfold complete_ack. destruct answer; auto using acts_success, acts_unexpected. Qed.

Lemma acts_answer job body g : own g job → acts g (complete_answer tr143_detail env dev job body g).
Proof.
  intros Ho. unfold complete_answer. destruct (Type_ job) eqn:Ht; try done;
    try (apply acts_complete_diagnostic; [done|by rewrite Ht]);
    auto using acts_complete_set, acts_complete_get, acts_ack.
  all: destruct_or?; case_match; auto using acts_unexpected, acts_success_detail.
  all: eapply acts_job_of; [done|]; auto with acs.
Qed.

(** The job is looked up under its id, and must be the device's. *)
Lemma ByID_owned g jobID job :
  gateway_ok g → ByID (g_jobs g) jobID = Some job → DeviceID job = dev → own g job ∧ ID job = jobID.
Proof.
  intros Hok Hj Hd. pose proof (ok_key _ _ (tab_rows _ (go_jobs _ Hok) _ _ Hj)) as Hk. simpl in Hk.
  split; [|done]. exists job. by rewrite Hk.
Qed.

Lemma acts_completeJob jobID body g :
  gateway_ok g → acts g (completeJob tr143_detail env dev jobID body g).
Proof.
  intros Hok. unfold completeJob. destruct (ByID (g_jobs g) jobID) as [job|] eqn:Ej; [|done].
  destruct (_ || _) eqn:Eg; [done|]. bool_to_prop.
  destruct (ByID_owned _ _ _ Hok Ej H) as [Ho _]. unfold type_eqb.
  case_bool_decide; [by apply acts_complete_discovery|].
  destruct (ib_Fault body); auto using acts_failed, acts_answer.
Qed.

(** *** The onboarding pass *)

Lemma jobs_for_queue_writes frs i now creator writes keys tab :
  jobs_for hash dev tab (queue_writes frs i now dev creator writes keys tab).2.
Proof.
  revert i keys tab. induction writes as [|[|p params] rest IH]; intros i keys tab; [done|apply IH|].
  cbn [queue_writes]. set (payload := encode_SetParameter _).
  pose proof (jobs_for_Create hash dev false (frs i) now TypeSetParameter payload creator tab) as Hc.
  destruct (Create _ _ _ _ _ _ _ _) as [[job|] tab1]; simpl in Hc; [|done]. etrans; [exact Hc|apply IH].
Qed.

Lemma jobs_for_read_sim fr now creator names d tab :
  jobs_for hash dev tab (readSIMForOnboarding fr now dev creator names d tab).2.
Proof.
  unfold readSIMForOnboarding. destruct (_ && _); [done|]. cbv zeta.
  destruct (HasOpenJobByCreator _ _ _); [done|]. apply jobs_for_Create.
Qed.

Lemma jobs_for_decide frs now no co onInform o plan d w dc bindTo cj jobs :
  d_ID (d_identity d) = dev →
  decide_onboarding frs now no co onInform o plan d w = (dc, bindTo, cj, jobs) →
  jobs_for hash dev (ow_jobs w) jobs.
Proof.
  intros Hd H. unfold decide_onboarding in H. rewrite Hd in H. cbv zeta in H.
  destruct (if other_customer o d then _ else _) as [d1 b] in H.
  match type of H with context [if ?b then readSIMForOnboarding ?x1 ?x2 ?x3 ?x4 ?x5 ?x6 ?x7 else ?y] =>
    assert (jobs_for hash dev (ow_jobs w) (if b then readSIMForOnboarding x1 x2 x3 x4 x5 x6 x7 else y).2) as H1
      by (destruct b; [apply jobs_for_read_sim|done]);
    destruct (if b then readSIMForOnboarding x1 x2 x3 x4 x5 x6 x7 else y) as [d2 jobs1] end.
  simpl in H1. destruct (dc_Configure d2), plan as [p|]; try (by injection H as <- <- <- <-).
  unfold queueOnboardingConfiguration in H. destruct (load_templates _ _) as [writes|e]; [|by injection H as <- <- <- <-].
  match type of H with context [queue_writes ?a ?i ?n ?d ?c ?ws ?k ?t] =>
    pose proof (jobs_for_queue_writes a i n c ws k t) as H2;
    destruct (queue_writes a i n d c ws k t) as [[keys [e|]] jobs'] end;
    injection H as <- <- <- <-; by etrans.
Qed.

Lemma jobs_for_reconcile frs now no co onInform d w :
  d_ID (d_identity d) = dev →
  jobs_for hash dev (ow_jobs w) (ow_jobs (reconcileOnboarding frs now no co onInform d w).1).
Proof.
  intros Hd. unfold reconcileOnboarding. destruct (OpenForDevice _ _ _ _) as [o|]; [|done].
  assert (∀ plan, jobs_for hash dev (ow_jobs w) (ow_jobs (reconcile_with frs now no co onInform o plan d w).1)) as Hr.
  { intros plan. unfold reconcile_with.
    destruct (decide_onboarding _ _ _ _ _ _ _ _ _) as [[[dc b] cj] jobs] eqn:E.
    apply jobs_for_decide in E; [|done]. cbv zeta. destruct (_ && _); [done|].
    by destruct (Apply _ _ _ _ _ _ _) as [[? ?] ?]. }
  destruct (o_ServicePlanID o) as [id|]; [|apply Hr]. destruct (ow_plans w !! id); [apply Hr|done].
Qed.

(** The pass changes a sale of this device, or one no device holds yet. *)
Lemma OpenForDevice_bound tab oui serial o :
  OpenForDevice tab dev oui serial = Some o → o_DeviceID o = None ∨ o_DeviceID o = Some dev.
Proof.
  unfold OpenForDevice. destruct (List.find _ (rows tab)) as [o'|] eqn:E.
  - intros [= ->]. apply find_some in E as [_ Hb]. unfold bound_to in Hb.
    destruct (o_DeviceID o); [|auto]. bool_to_prop. subst. auto.
  - intros [_ Hb]%find_some. unfold planned_for in Hb. bool_to_prop. destruct (o_DeviceID o); [done|auto].
Qed.

Lemma devices_for_assign now o dv (t : Devices) :
  t !! dev = Some dv → devices_for dev t (<[dev := assign now o dv]> t).
Proof.
  intros H. split; intros k; [intros Hk; by rewrite lookup_insert_ne|].
  destruct (decide (k = dev)) as [->|]; [by rewrite lookup_insert_eq, H|by rewrite lookup_insert_ne].
Qed.

Lemma sales_devices_for_reconcile frs now no co onInform d w :
  let w' := (reconcileOnboarding frs now no co onInform d w).1 in
  d_ID (d_identity d) = dev → dev ≠ EmptyString → sales_ok (ow_sales w) →
  sales_for dev (ow_sales w) (ow_sales w') ∧ devices_for dev (ow_devices w) (ow_devices w').
Proof.
  cbv zeta. intros Hd Hne Hok.
  pose proof (reconcile_rewritten frs now no co onInform d w Hok ltac:(by rewrite Hd)) as Hrw.
  pose proof (sales_ok_rewritten _ _ Hok Hrw) as Hok'.
  destruct (reconcile_cases frs now no co onInform d w) as [[-> ->]|
    (o & plan & dc & bindTo & cj & jobs & [Ho _] & Hdec & Hs & Hdv & _)]; [done|].
  rewrite Hs in Hok' |- *. rewrite Hdv. rewrite Hd in Ho. pose proof (OpenForDevice_bound _ _ _ _ Ho) as Hb.
  apply (OpenForDevice_some _ _ _ _ _ Hok) in Ho as [Ho _].
  assert (bindTo = EmptyString ∨ bindTo = dev) as Hbt by (apply decide_spec in Hdec; rewrite <- Hd; naive_solver).
  destruct (Apply_cases now o dc bindTo cj (ow_sales w) (ow_devices w)) as [[-> ->]|(row & Hr & _ & E & Hdevs)];
    [done|]. rewrite E in Hok' |- *. assert (row = o) as -> by congruence. split.
  - split; [done|]. intros k o' d' Ho' Hd'. rewrite lookup_insert. case_decide as Hk; [|done].
    rewrite <- Hk, Ho. split; intros [= <-]; exfalso; simpl in *;
      destruct Hb as [Hb|Hb], Hbt as [-> | ->]; rewrite Hb in Ho'; repeat case_match; simplify_eq.
  - destruct Hdevs as [[-> _]|(_ & Hn & dv & Hdv' & _ & ->)]; [done|].
    destruct Hbt as [-> | ->]; [done|]. by apply devices_for_assign.
Qed.

Lemma reconcile_frame frs now no co onInform d w :
  let w' := (reconcileOnboarding frs now no co onInform d w).1 in
  ow_params w' = ow_params w ∧ settings w' = settings w.
Proof.
  cbv zeta. unfold reconcileOnboarding. destruct (OpenForDevice _ _ _ _) as [o|]; [|done].
  assert (∀ plan, let w' := (reconcile_with frs now no co onInform o plan d w).1 in
    ow_params w' = ow_params w ∧ settings w' = settings w) as Hr.
  { intros plan. unfold reconcile_with. destruct (decide_onboarding _ _ _ _ _ _ _ _ _) as [[[dc b] cj] jobs].
    cbv zeta. destruct (_ && _); [done|]. by destruct (Apply _ _ _ _ _ _ _) as [[? ?] ?]. }
  destruct (o_ServicePlanID o) as [id|]; [|apply Hr]. destruct (ow_plans w !! id); [apply Hr|done].
Qed.

Lemma acts_reconcile_with frs now no co onInform d g :
  gateway_ok g → d_ID (d_identity d) = dev → dev ≠ EmptyString →
  acts g (set_world (reconcileOnboarding frs now no co onInform d (g_world g)).1 g).
Proof.
  intros Hok Hd Hne.
  destruct (sales_devices_for_reconcile frs now no co onInform d (g_world g) Hd Hne (go_sales _ Hok)) as [Hs Hv].
  pose proof (jobs_for_reconcile frs now no co onInform d (g_world g) Hd) as Hj.
  destruct (reconcile_frame frs now no co onInform d (g_world g)) as [Hp Hset].
  constructor; try done. unfold g_params. simpl. by rewrite Hp.
Qed.

Lemma registered_id g d : gateway_ok g → g_devices g !! dev = Some d → d_ID (d_identity d) = dev ∧ dev ≠ EmptyString.
Proof.
  intros Hok Ed. split; [by apply (dev_keyed _ (go_devices _ Hok))|].
  intros He. rewrite He, (go_uuid _ Hok) in Ed. done.
Qed.

Lemma acts_reconcile g : gateway_ok g → acts g (reconcileOnboardingAtSessionEnd env dev g).2.
Proof.
  intros Hok. unfold reconcileOnboardingAtSessionEnd. destruct (Get (g_devices g) dev) as [d|] eqn:Ed; [|done].
  destruct (registered_id g d Hok Ed) as [Hd Hne]. cbv zeta. set (no := _.*1). set (co := e_range env CachedValue _).
  pose proof (acts_reconcile_with (λ n, e_fresh env (3 + n)%nat) (e_now env) no co false d g Hok Hd Hne) as Ha.
  by destruct (reconcileOnboarding _ _ _ _ _ _ _).
Qed.

(** *** Sending *)

Lemma acts_lease_next g : gateway_ok g → acts g (lease_next env dev g).2.
Proof.
  intros Hok. unfold lease_next.
  assert (∀ g, gateway_ok g → acts g (on_jobs (λ _, (Lease (e_locked env) (e_owner env) (e_now env) dev (g_jobs g)).2) g))
    as Hl by (intros g' Hg'; apply acts_jobs, jobs_for_lease, Hg').
  pose proof (Hl g Hok) as H1. destruct (Lease _ _ _ _ (g_jobs g)) as [[job|] j]; simpl in H1; [done|].
  set (g1 := on_jobs (λ _, j) g) in *. pose proof (acts_for_ok _ _ _ _ H1 Hok) as Hok1.
  pose proof (acts_reconcile g1 Hok1) as H2. pose proof (acts_for_ok _ _ _ _ H2 Hok1) as Hok2.
  destruct (reconcileOnboardingAtSessionEnd env dev g1) as [[] g2]; simpl in *; [|by etrans].
  etrans; [exact H1|]. etrans; [exact H2|]. pose proof (Hl g2 Hok2) as H3.
  by destruct (Lease _ _ _ _ (g_jobs g2)) as [r j2].
Qed.

Context (key : option string) (unseal : string → string → string → option string).

Lemma secrets_for_open now h t : secrets_for dev t (OpenSecret key unseal now h dev t).2.
Proof.
  unfold OpenSecret. destruct key as [k|]; [|done]. destruct (t !! h) as [r|] eqn:Er; [|done].
  destruct (openable now dev r) eqn:Eo; [|done]. unfold openable in Eo.
  destruct (sr_device r) as [d|] eqn:Ed; [|done]. bool_to_prop. subst d.
  assert (secrets_for dev t (delete h t)); [|by destruct (unseal _ _ _)].
  intros k' r' Hr'. destruct (decide (k' = h)) as [->|]; [|by rewrite lookup_delete_ne].
  rewrite lookup_delete_eq, Er. split; [congruence|done].
Qed.

Lemma secrets_for_named open h t :
  (∀ h t, secrets_for dev t (open h t).2) → secrets_for dev t (named_open open h t).2.
Proof. intros H. unfold named_open. specialize (H h t). by destruct (open h t) as [[] ?]. Qed.

Lemma secrets_for_open_handles open values params t :
  (∀ h t, secrets_for dev t (open h t).2) → secrets_for dev t (open_handles open values params t).2.
Proof.
  intros Ho. revert values t. induction params as [|p params IH]; intros values t; [done|]. cbn [open_handles].
  destruct (String.eqb (pw_SecretHandle p) "").
  { specialize (IH values t). by destruct (open_handles _ _ _ _) as [[[]|] ?]. }
  assert (secrets_for dev t (match values !! pw_SecretHandle p with
    | Some v => (Ok v, t) | None => open (pw_SecretHandle p) t end).2) as H1 by (by destruct (values !! _)).
  destruct (match values !! pw_SecretHandle p with Some v => _ | None => _ end) as [[v|e] t1]; [|done].
  etrans; [exact H1|]. specialize (IH (<[pw_SecretHandle p := v]> values) t1).
  by destruct (open_handles _ _ _ _) as [[[]|] ?].
Qed.

Lemma secrets_for_job job t :
  secrets_for dev t (openSecretHandles (λ h t, OpenSecret key unseal (e_now env) h dev t) job t).2.
Proof.
  unfold openSecretHandles. destruct (negb _); [done|]. destruct (decode_SetParameter _) as [p|]; [|done].
  destruct (sp_VerificationPending p); [done|].
  pose proof (secrets_for_open_handles (named_open (λ h t, OpenSecret key unseal (e_now env) h dev t)) ∅ (sp_Parameters p) t)
    as H. destruct (open_handles _ _ _ _) as [[[ps vs]|] t1]; simpl in H;
    [destruct (_ =? _)%nat|]; apply H; intros; apply secrets_for_named; intros; apply secrets_for_open.
Qed.

Lemma acts_secrets g sec : secrets_for dev (g_secrets g) sec → acts g (set_secrets sec g).
Proof. intros. by constructor. Qed.

Lemma BindFirmware_ok fw caps job tab job' tab' :
  BindFirmware fw caps job tab = (Ok job', tab') →
  DeviceID job' = DeviceID job ∧ ID job' = ID job ∧ Type_ job' = Type_ job ∧ CommandKey job' = CommandKey job.
Proof.
  unfold BindFirmware. destruct (_ && _); [by intros [= <- <-]|].
  destruct (bind_payload fw caps job) as [[next|]|]; [|by intros [= <- <-]|done].
  destruct (guarded _ _ _) as [[] ?]; [|done]. by intros [= <- <-].
Qed.

Lemma acts_send s s0 job g :
  g_sessions g !! ss_ID s = Some s0 → ss_DeviceID s0 = dev → own g job → DeviceID job = dev →
  acts g (send_job key unseal env s job g).2.
Proof.
  intros Hs Hsd Ho Hd. unfold send_job. cbv zeta.
  pose proof (acts_set_current hash dev g (ss_ID s) (ID job) s0 Hs Hsd) as H1.
  set (g1 := on_sessions _ g) in *. pose proof (owned_after _ _ _ H1 Ho) as Ho1.
  etrans; [exact H1|]. set (fw := Firmware _). set (caps := match p_names _ !! _ with Some r => _ | None => _ end).
  pose proof (jobs_for_bind hash dev fw caps job (g_jobs g1) Ho1) as Hb.
  destruct (BindFirmware fw caps job (g_jobs g1)) as [[job'|e] j] eqn:Eb; simpl in Hb;
    pose proof (acts_jobs hash dev g1 (λ _, j) Hb) as H2; pose proof (owned_after _ _ _ H2 Ho1) as Ho2;
    (etrans; [exact H2|]); [|by apply acts_failed].
  apply BindFirmware_ok in Eb as (Hdj & _). rewrite Hdj, Hd. set (g2 := on_jobs (λ _, j) g1) in *.
  pose proof (acts_secrets g2 _ (secrets_for_job job' (g_secrets g2))) as H3.
  destruct (openSecretHandles _ _ _) as [[rendered|e] sec]; simpl in H3;
    pose proof (owned_after _ _ _ H3 Ho2) as Ho3; [|etrans; [exact H3|by apply acts_failed]].
  destruct (renderJobRequest _ _); [done|]. etrans; [exact H3|by apply acts_failed].
Qed.

(** What [lease_next] hands out. *)
Lemma Lease_some locked owner now tab job tab' :
  table_ok tab → Lease locked owner now dev tab = (Some job, tab') →
  ∃ row, tab !! ID row = Some row ∧ Status row = StatusQueued ∧ DeviceID row = dev ∧
    Type_ row ∈ sessionDispatchableTypes ∧ job = leased_job StatusRPCSent row ∧
    tab' = <[ID row := lease_row StatusRPCSent sessionLease owner now row]> tab.
Proof.
  intros Hok. unfold Lease, LeaseForTypes, leaseForTypes, lease_with.
  destruct (pick _ _ _) as [row|] eqn:Ep; [|done]. intros [= <- <-].
  apply pick_spec in Ep as ((k & Hk) & Hp & _).
  pose proof (ok_key _ _ (tab_rows _ Hok _ _ Hk)) as Hid. simpl in Hid. subst k.
  unfold leasable, status_eqb, type_in in Hp. exists row. unfold by_id, update_key. rewrite Hk.
  bool_to_prop. by split_and!.
Qed.

(** The leased job is one of the device, in flight under this owner's lease. *)
Definition in_flight (tab : gmap string Job) (job : Job) : Prop :=
  ∃ row, tab !! ID job = Some row ∧ DeviceID row = dev ∧ Type_ row = Type_ job ∧ CommandKey row = CommandKey job ∧
    Status row = StatusRPCSent ∧ Attempts row = Attempts job ∧ Payload row = Payload job ∧
    lease_owner row = Some (e_owner env) ∧ leased_until row = Some (e_now env + sessionLease).

Lemma lease_next_some g job g' :
  gateway_ok g → lease_next env dev g = (Some job, g') →
  DeviceID job = dev ∧ Type_ job ∈ sessionDispatchableTypes ∧ in_flight (g_jobs g') job ∧ g_sessions g' = g_sessions g.
Proof.
  intros Hok. unfold lease_next.
  assert (∀ g0 job j, gateway_ok g0 → Lease (e_locked env) (e_owner env) (e_now env) dev (g_jobs g0) = (Some job, j) →
    DeviceID job = dev ∧ Type_ job ∈ sessionDispatchableTypes ∧ in_flight j job) as Hl.
  { intros g0 job0 j Hok0 H. apply Lease_some in H as (row & Hrow & Hs & Hd & Ht & -> & ->); [|apply Hok0].
    split_and!; [done|done|]. exists (lease_row StatusRPCSent sessionLease (e_owner env) (e_now env) row).
    by rewrite lookup_insert_eq. }
  destruct (Lease _ _ _ _ (g_jobs g)) as [[job1|] j] eqn:E1.
  { intros [= <- <-]. destruct (Hl _ _ _ Hok E1) as (? & ? & ?). done. }
  set (g1 := on_jobs (λ _, j) g). assert (acts g g1) as H1.
  { pose proof (jobs_for_lease hash dev (e_locked env) (e_owner env) (e_now env) (g_jobs g) (go_jobs _ Hok)) as Hj.
    rewrite E1 in Hj. by apply acts_jobs. }
  pose proof (acts_for_ok _ _ _ _ H1 Hok) as Hok1.
  pose proof (acts_for_ok _ _ _ _ (acts_reconcile g1 Hok1) Hok1) as Hok2.
  assert (g_sessions (reconcileOnboardingAtSessionEnd env dev g1).2 = g_sessions g) as Hse.
  { unfold reconcileOnboardingAtSessionEnd. destruct (Get _ _); [|done].
    cbv zeta. by destruct (reconcileOnboarding _ _ _ _ _ _ _). }
  destruct (reconcileOnboardingAtSessionEnd env dev g1) as [[] g2]; simpl in *; [|done].
  destruct (Lease _ _ _ _ (g_jobs g2)) as [r j2] eqn:E2. intros [= -> <-].
  destruct (Hl _ _ _ Hok2 E2) as (? & ? & ?). done.
Qed.

Lemma in_flight_owned tab job : in_flight tab job → owned dev tab job.
Proof. intros (row & ? & ? & ? & _). by exists row. Qed.

Lemma in_flight_bind fw caps job tab job' tab' :
  in_flight tab job → BindFirmware fw caps job tab = (Ok job', tab') → in_flight tab' job' ∧ ID job' = ID job.
Proof.
  intros (row & Hr & Hd & Ht & Hc & Hs & Ha & Hp & Hl). unfold BindFirmware.
  destruct (_ && _); [intros [= <- <-]; split; [|done]; exists row; auto 10|].
  destruct (bind_payload fw caps job) as [[next|]|]; [|intros [= <- <-]; split; [|done]; exists row; auto 10|done].
  unfold guarded, update_key, current_attempt, status_eqb. rewrite Hr, Ha, Hs, Z.eqb_refl. simpl.
  intros [= <- <-]. split; [|done]. exists (set_payload next row). simpl. rewrite lookup_insert_eq. auto 12.
Qed.

(** *** Every Inform *)

Lemma acts_fold g (f : Gateway → Job → Gateway) (l : list Job) :
  (∀ g job, own g job → job ∈ l → acts g (f g job)) → (∀ job, job ∈ l → own g job) → acts g (foldl f g l).
Proof.
  revert g. induction l as [|job l IH]; intros g Hf Ho; [done|]. simpl.
  assert (acts g (f g job)) as H1 by (apply Hf; [apply Ho|]; by left).
  etrans; [exact H1|]. apply IH.
  - intros. apply Hf; [done|by right].
  - intros j Hj. apply (owned_after _ _ _ H1), Ho. by right.
Qed.

Lemma selected_owned g p job :
  gateway_ok g → (∀ j, p j = true → DeviceID j = dev) → job ∈ select_by_created p (g_jobs g) → own g job ∧ p job = true.
Proof.
  intros Hok Hp Hin. unfold select_by_created in Hin. rewrite merge_sort_Permutation in Hin.
  apply filter_elem in Hin as [Hin Hpj]. apply elem_of_rows in Hin as [k Hk].
  destruct (ByID_owned g k job Hok Hk (Hp _ Hpj)) as [Ho _]. done.
Qed.

Lemma acts_recover_dropped events g : gateway_ok g → acts g (recoverDroppedSessionJobs env dev events g).
Proof.
  intros Hok. unfold recoverDroppedSessionJobs, DroppedSessionJobs. cbv zeta. apply acts_fold.
  - intros g' job Ho _. eapply acts_job_of; [done|]. auto with acs.
  - intros job Hin. apply selected_owned in Hin as [Ho _]; [done|done|intros j Hj; by bool_to_prop].
Qed.

Lemma acts_release g : acts g (releaseAwaitingDiagnostics env dev g).
Proof. apply acts_job. auto with acs. Qed.

(** *** The two requests *)

Lemma acts_dispatch id s body bound g :
  gateway_ok g → g_sessions g !! id = Some s → ss_DeviceID s = dev →
  acts g (dispatch key unseal tr143_detail env (Some id) body bound g).2.
Proof.
  intros Hok Hs Hd. unfold dispatch, GetSession. rewrite Hs.
  destruct (IsClosed s); [done|]. destruct (negb _); [done|]. cbv zeta.
  assert (ss_ID s = id) as Hid by (by apply (go_sessions _ Hok)). rewrite Hid, Hd.
  set (g1 := match ss_CurrentJobID s with None => g | Some jobID => _ end).
  assert (acts g g1) as H1.
  { subst g1. destruct (ss_CurrentJobID s) as [jobID|]; [|done].
    pose proof (acts_completeJob jobID body g Hok) as H0. etrans; [exact H0|].
    destruct (af_sessions _ _ _ _ H0) as (_ & K & _). destruct (K _ _ Hs) as (s1 & Hs1 & E1).
    eapply acts_set_current; [exact Hs1|congruence]. }
  pose proof (acts_for_ok _ _ _ _ H1 Hok) as Hok1. pose proof (acts_lease_next g1 Hok1) as H2.
  destruct (lease_next env dev g1) as [[job|] g2] eqn:El; simpl in H2.
  - apply (lease_next_some _ _ _ Hok1) in El as (Hdj & _ & Hf & _).
    destruct (af_sessions _ _ _ _ (transitivity H1 H2)) as (_ & K & _). destruct (K _ _ Hs) as (s2 & Hs2 & E2).
    etrans; [exact H1|]. etrans; [exact H2|].
    eapply acts_send; [by rewrite Hid|congruence|by apply in_flight_owned|done].
  - destruct (af_sessions _ _ _ _ (transitivity H1 H2)) as (_ & K & _). destruct (K _ _ Hs) as (s2 & Hs2 & E2).
    etrans; [exact H1|]. etrans; [exact H2|]. simpl. eapply acts_close; [exact Hs2|congruence].
Qed.

Lemma ByCommandKey_owned g ck job :
  gateway_ok g → ByCommandKey (g_jobs g) ck = Some job → DeviceID job = dev → own g job.
Proof.
  intros Hok Hj Hd. unfold ByCommandKey in Hj. apply find_some in Hj as [Hin _].
  apply list_elem_of_In, elem_of_rows in Hin as [k Hk]. by destruct (ByID_owned g k job Hok Hk Hd).
Qed.

Lemma acts_transfer_complete tc bound respID ns g job :
  gateway_ok g → ByCommandKey (g_jobs g) (tc_CommandKey tc) = Some job → DeviceID job = dev →
  acts g (handleTransferComplete env tc bound respID ns g).2.
Proof.
  intros Hok Hj Hd. pose proof (ByCommandKey_owned _ _ _ Hok Hj Hd) as Ho.
  unfold handleTransferComplete. rewrite Hj, Hd. destruct (negb (identity_allows _ _ _)); [done|].
  destruct (_ && _); [done|]. destruct (match tc_FaultStruct tc with Some f => _ | None => _ end) as [code msg].
  destruct (IsFault tc); [by apply acts_failed|]. cbv zeta. cbn [snd].
  pose proof (acts_success job g Ho) as H1. destruct (type_eqb _ _); [|done].
  etrans; [exact H1|apply acts_queue_read].
Qed.

End Handlers.

Section Recovery.
Context (hash : json → string) (dev : string).

Lemma acts_recover_each l : ∀ (env : Env) g,
  (∀ job, job ∈ l → owned dev (g_jobs g) job ∧ Type_ job = TypeParameterDiscovery) → acts_for hash dev g (recover_each env dev l g).
Proof.
  induction l as [|job l IH]; intros env g Hl; [done|]. cbn [recover_each].
  set (g1 := match decode_ParameterDiscovery _ with Some payload => _ | None => g end).
  assert (acts_for hash dev g g1) as H1.
  { destruct (Hl job ltac:(by left)) as [Ho Ht]. subst g1. destruct (decode_ParameterDiscovery _) as [p|]; [|done].
    destruct (_ && _); [by apply acts_skip|done]. }
  etrans; [exact H1|]. apply IH. intros j Hj. destruct (Hl j ltac:(by right)) as [Ho Ht].
  split; [by apply (owned_after hash dev _ _ _ H1)|done].
Qed.

Lemma acts_recover_discovery env g : gateway_ok g → acts_for hash dev g (recoverAbandonedDiscovery env dev g).
Proof.
  intros Hok. apply acts_recover_each. intros job Hin.
  apply (selected_owned dev) in Hin as [Ho Hp]; [|done|intros j Hj; by bool_to_prop].
  unfold type_eqb in Hp. by bool_to_prop.
Qed.

End Recovery.
