(* ===== verification/GatewayTheorems.v ===== *)
(** * The gateway: theorems

    The handlers run the job queue's own statements, a device acts only on its
    own rows, an answer settles the job it answers, what is sent is recorded
    first, and a sealed secret is opened once. *)

From S2P Require Import Prelude GoStrings Json Cwmp JobModel JobStore JobLaws Discovery Devices Credentials.
From S2P Require Import ParamCache ParamTheorems Onboarding OnboardingLaws Sessions Render Gateway GatewayLaws.

Section Gateway.
Context (hash : json → string) (key : option string) (unseal : string → string → string → option string).
Context (tr143_detail : list ParameterValueStruct → string → bool → json).

(** ** The gateway as a transition system *)

(** The request handlers, and the recovery an Inform of [dev] runs. *)
Inductive gateway_step : Gateway → Gateway → Prop :=
| gstep_dispatch env cookie body bound g :
    gateway_step g (dispatch key unseal tr143_detail env cookie body bound g).2
| gstep_transfer env tc bound respID ns g :
    gateway_step g (handleTransferComplete env tc bound respID ns g).2
| gstep_recover_discovery env dev g : gateway_step g (recoverAbandonedDiscovery env dev g)
| gstep_recover_dropped env dev events g : gateway_step g (recoverDroppedSessionJobs env dev events g)
| gstep_release env dev g : gateway_step g (releaseAwaitingDiagnostics env dev g).

Lemma gateway_step_acts g g' : gateway_ok g → gateway_step g g' → ∃ dev, acts_for hash dev g g'.
Proof.
  intros Hok Hs. destruct Hs as [env cookie body bound g|env tc bound respID ns g|env dev g|env dev events g|env dev g].
  - destruct cookie as [id|]; [|by exists EmptyString].
    destruct (g_sessions g !! id) as [s|] eqn:Es; [|exists EmptyString; unfold dispatch, GetSession; by rewrite Es].
    exists (ss_DeviceID s). by eapply acts_dispatch.
  - destruct (ByCommandKey (g_jobs g) (tc_CommandKey tc)) as [job|] eqn:Ej;
      [|exists EmptyString; unfold handleTransferComplete; by rewrite Ej].
    exists (DeviceID job). by eapply acts_transfer_complete.
  - exists dev. by apply acts_recover_discovery.
  - exists dev. by apply acts_recover_dropped.
  - exists dev. apply acts_release.
Qed.

(** The gateway refines the job queue and keeps every table in order. From
    consistent tables, whatever requests arrive and whatever the devices
    answer, each request changes the job table by a sequence of repository
    calls, so the job table stays one of the reachable tables of the queue
    (everything proved of those holds under the gateway), and the rows of jobs,
    devices, sales and sessions stay consistent. *)
Theorem gateway_refines_the_job_queue g g' :
  rtc gateway_step g g' → gateway_ok g → reachable hash (g_jobs g) →
  reachable hash (g_jobs g') ∧ gateway_ok g'.
Proof.
  induction 1 as [|a b c Hs _ IH]; [done|]. intros Hok Hr.
  destruct (gateway_step_acts _ _ Hok Hs) as [dev Ha]. apply IH; [by eapply acts_for_ok|].
  unfold reachable. etrans; [exact Hr|]. apply (jf_steps _ _ _ _ (af_jobs _ _ _ _ Ha)).
Qed.

(** ** Credentials *)

(** The request's credential belongs to [dev]: its Digest credential, or the
    certificate of its natural key. *)
Definition credential_of (bound : inboundIdentity) (devices : Devices) (dev : string) : Prop :=
  credentialDeviceID bound = dev ∧ dev ≠ EmptyString ∨
  mtlsNaturalKey bound ≠ EmptyString ∧
    ∃ d, devices !! dev = Some d ∧ d_OUISerial (d_identity d) = mtlsNaturalKey bound.

Lemma identity_allows_only bound devices dev dev' :
  devices_ok devices → credential_of bound devices dev → identity_allows bound devices dev' = true → dev' = dev.
Proof.
  intros Hok Hc Ha. unfold identity_allows in Ha. apply andb_true_iff in Ha as [H1 H2].
  rewrite orb_true_iff, !String.eqb_eq in H1. rewrite orb_true_iff, String.eqb_eq in H2.
  destruct Hc as [[Hc Hne]|[Hne (d & Hd & Hk)]].
  - destruct H1; congruence.
  - destruct H2 as [?|H2]; [done|]. unfold Get in H2. destruct (devices !! dev') as [d'|] eqn:E; [|done].
    apply String.eqb_eq in H2. eapply (dev_unique _ Hok); eauto. congruence.
Qed.

(** A request made with the credential of one device (its Digest
    credential or its certificate) changes rows of that device only: the jobs,
    the parameter cache, names, snapshots and evidence, the registry row, the
    open sessions, the sealed secrets and the bound sales of every other device
    are as they were, whatever session or command key the request names. *)
Theorem credential_confines_the_request g dev bound env cookie body tc respID ns :
  gateway_ok g → credential_of bound (g_devices g) dev →
  acts_for hash dev g (dispatch key unseal tr143_detail env cookie body bound g).2 ∧
  acts_for hash dev g (handleTransferComplete env tc bound respID ns g).2.
Proof.
  intros Hok Hc. split.
  - destruct cookie as [id|]; [|done].
    destruct (g_sessions g !! id) as [s|] eqn:Es; [|unfold dispatch, GetSession; by rewrite Es].
    destruct (identity_allows bound (g_devices g) (ss_DeviceID s)) eqn:Ea.
    + apply (identity_allows_only _ _ dev) in Ea; [|apply Hok|done]. by eapply acts_dispatch.
    + unfold dispatch, GetSession. rewrite Es, Ea. by destruct (IsClosed s).
  - destruct (ByCommandKey (g_jobs g) (tc_CommandKey tc)) as [job|] eqn:Ej;
      [|unfold handleTransferComplete; by rewrite Ej].
    destruct (identity_allows bound (g_devices g) (DeviceID job)) eqn:Ea.
    + apply (identity_allows_only _ _ dev) in Ea; [|apply Hok|done]. by eapply acts_transfer_complete.
    + unfold handleTransferComplete. by rewrite Ej, Ea.
Qed.

(** ** What an open session gets *)

Definition job_failed (tab : gmap string Job) (id : string) : Prop :=
  ∃ row, tab !! id = Some row ∧ Status row = StatusFailed.

Definition session_job (g : Gateway) (id : string) : option string := g_sessions g !! id ≫= ss_CurrentJobID.

Lemma session_job_set g id jobID :
  jobID ≠ EmptyString → is_Some (g_sessions g !! id) →
  session_job (on_sessions (SetCurrentJob id jobID) g) id = Some jobID.
Proof.
  intros Hn [s Hs]. unfold session_job, SetCurrentJob. simpl. rewrite lookup_alter_eq, Hs. simpl.
  destruct (String.eqb_spec jobID ""); done.
Qed.

Lemma mark_failed_failed env id c m g :
  is_Some (g_jobs g !! id) → job_failed (g_jobs (mark_failed env id c m g)) id.
Proof.
  intros [row Hr]. unfold job_failed.
  change (g_jobs (mark_failed env id c m g)) with (MarkFailed (e_now env) id c m (g_jobs g)).
  unfold MarkFailed. rewrite lookup_by_id, decide_True, Hr by done. by eexists.
Qed.

(** What [send_job] answers. *)
Lemma send_job_outcomes env s job g dev :
  is_Some (g_sessions g !! ss_ID s) → in_flight env dev (g_jobs g) job → DeviceID job = dev →
  match send_job key unseal env s job g with
  | (RespXML xml, g') => ∃ job' rendered b sec,
      (ID job' ≠ EmptyString → session_job g' (ss_ID s) = Some (ID job')) ∧ in_flight env dev (g_jobs g') job' ∧
      openSecretHandles (λ h t, OpenSecret key unseal (e_now env) h dev t) job' sec = (Ok rendered, g_secrets g') ∧
      renderJobRequest (e_rpc_id env) rendered = Some b ∧ xml = RewriteCWMPNamespace b (ss_CWMPNamespace s)
  | (RespEmpty, g') => (ID job ≠ EmptyString → session_job g' (ss_ID s) = Some (ID job)) ∧ job_failed (g_jobs g') (ID job)
  | _ => False
  end.
Proof.
  intros Hs Hf Hd. unfold send_job. cbv zeta.
  pose proof (λ Hn, session_job_set g (ss_ID s) (ID job) Hn Hs) as Hj. set (g1 := on_sessions _ g) in *.
  set (fw := Firmware _). set (caps := match p_names _ !! _ with Some r => _ | None => _ end).
  change (g_jobs g1) with (g_jobs g).
  destruct (BindFirmware fw caps job (g_jobs g)) as [[job'|e] j] eqn:Eb.
  - apply (in_flight_bind _ _ _ _ _ _ _ _ Hf) in Eb as Eb'. destruct Eb' as [Hf' Hid].
    apply BindFirmware_ok in Eb as (Hd' & _). rewrite Hd', Hd.
    assert (is_Some (j !! ID job)) as Hsome by (rewrite <- Hid; destruct Hf' as (row & -> & _); by eexists).
    destruct (openSecretHandles _ _ _) as [[rendered|e] sec] eqn:Es; [|split; [exact Hj|by apply mark_failed_failed]].
    destruct (renderJobRequest _ _) as [b|] eqn:Er; [|split; [exact Hj|by apply mark_failed_failed]].
    exists job', rendered, b. eexists. rewrite Hid at 1. split_and!; [|done|exact Es|done|done].
    by rewrite Hid.
  - split; [exact Hj|]. apply mark_failed_failed. assert (j = g_jobs g) as ->.
    { unfold BindFirmware in Eb. destruct (_ && _); [done|]. destruct (bind_payload _ _ _) as [[]|]; [|done|by simplify_eq].
      destruct (guarded _ _ _) as [[] ?]; by simplify_eq. }
    destruct Hf as (row & Hr & _). by exists row.
Qed.

(** The credential is bound to another device, or the certificate names another
    natural key than the device's. *)
Definition foreign (bound : inboundIdentity) (devices : Devices) (dev : string) : Prop :=
  credentialDeviceID bound ≠ EmptyString ∧ credentialDeviceID bound ≠ dev ∨
  mtlsNaturalKey bound ≠ EmptyString ∧ ¬ ∃ d, devices !! dev = Some d ∧ d_OUISerial (d_identity d) = mtlsNaturalKey bound.

Lemma foreign_refused bound devices dev : foreign bound devices dev ↔ identity_allows bound devices dev = false.
Proof.
  unfold foreign, identity_allows, Get. rewrite andb_false_iff, !orb_false_iff, !String.eqb_neq.
  destruct (devices !! dev) as [d|]; [rewrite String.eqb_neq|]; naive_solver.
Qed.

(** C27: what a request in an open session gets. An RPC is sent only for a job
    that is by then leased to this instance until the end of the session lease,
    counted as an attempt, and recorded as the session's current job, so its
    answer will find it; the envelope is that job's, with its secret handles
    opened for this device, in the session's namespace. An empty answer either
    closes the session or leaves the job that could not be sent FAILED. A
    credential bound to another device, or the certificate of another natural
    key, is refused and changes nothing; no other request is refused. *)
Theorem open_session_outcomes env id s body bound g r g' :
  gateway_ok g → g_sessions g !! id = Some s → IsClosed s = false →
  dispatch key unseal tr143_detail env (Some id) body bound g = (r, g') →
  (foreign bound (g_devices g) (ss_DeviceID s) ↔ r = RespForbidden) ∧
  match r with
  | RespXML xml => ∃ job rendered b sec,
      (ID job ≠ EmptyString → session_job g' id = Some (ID job)) ∧
      in_flight env (ss_DeviceID s) (g_jobs g') job ∧
      openSecretHandles (λ h t, OpenSecret key unseal (e_now env) h (ss_DeviceID s) t) job sec
        = (Ok rendered, g_secrets g') ∧
      renderJobRequest (e_rpc_id env) rendered = Some b ∧ xml = RewriteCWMPNamespace b (ss_CWMPNamespace s)
  | RespEmpty =>
      (∃ s', g_sessions g' !! id = Some s' ∧ IsClosed s' = true) ∨
      ∃ jobID, (jobID ≠ EmptyString → session_job g' id = Some jobID) ∧ job_failed (g_jobs g') jobID
  | RespForbidden => g' = g
  end.
Proof.
  intros Hok Hs Hc. unfold dispatch, GetSession. rewrite Hs, Hc.
  rewrite foreign_refused. destruct (identity_allows _ _ _) eqn:Ea; simpl negb; cbv iota; [|by intros [= <- <-]]. cbv zeta.
  assert (ss_ID s = id) as Hid by (by apply (go_sessions _ Hok)). rewrite Hid.
  set (g1 := match ss_CurrentJobID s with None => g | Some jobID => _ end).
  assert (acts_for hash (ss_DeviceID s) g g1) as H1.
  { subst g1. destruct (ss_CurrentJobID s) as [jobID|]; [|done].
    pose proof (acts_completeJob hash tr143_detail env (ss_DeviceID s) jobID body g Hok) as H0. etrans; [exact H0|].
    destruct (af_sessions _ _ _ _ H0) as (_ & K & _). destruct (K _ _ Hs) as (s1 & Hs1 & E1).
    by eapply acts_set_current. }
  pose proof (acts_for_ok _ _ _ _ H1 Hok) as Hok1.
  pose proof (acts_lease_next hash env (ss_DeviceID s) g1 Hok1) as H2.
  destruct (af_sessions _ _ _ _ (transitivity H1 H2)) as (_ & K & _). destruct (K _ _ Hs) as (s2 & Hs2 & E2).
  destruct (lease_next env (ss_DeviceID s) g1) as [[job|] g2] eqn:El; simpl in Hs2.
  - apply (lease_next_some hash) in El as (Hdj & _ & Hf & _); [|done]. intros Hd.
    pose proof (send_job_outcomes env s job g2 (ss_DeviceID s)) as Ho. rewrite Hid, Hd in Ho.
    specialize (Ho ltac:(by eexists) Hf Hdj). split; [by destruct r|]. destruct r; [by eauto|done|done].
  - intros [= <- <-]. split; [done|]. left. exists (mkSession (ss_ID s2) (ss_DeviceID s2) StateClosed (ss_InformEventCodes s2)
      (ss_CurrentJobID s2) (ss_CWMPNamespace s2) (ss_OpenedAt s2) (Some (e_now env)) (Some "NO_PENDING_RPCS")).
    split; [|done]. simpl. unfold CloseSession. by rewrite lookup_alter_eq, Hs2.
Qed.

(** ** Answers *)

Definition settled (tab : gmap string Job) (id : string) : Prop :=
  ∃ row, tab !! id = Some row ∧ Status row ≠ StatusRPCSent.

Lemma settled_mono (tab tab' : gmap string Job) id : tab ⊆ tab' → settled tab id → settled tab' id.
Proof. intros Hs (row & Hr & Hn). exists row. split; [by eapply lookup_weaken|done]. Qed.

Lemma insert_job_mono (tab : gmap string Job) j : tab ⊆ (insert_job tab j).2.
Proof.
  unfold insert_job. destruct (unique_ok tab j) eqn:Hu; [|done]. unfold unique_ok in Hu. bool_to_prop.
  apply insert_subseteq. by destruct (tab !! ID j).
Qed.

Lemma queue_read_mono fr now dev creator paths g : g_jobs g ⊆ g_jobs (queue_read fr now dev creator paths g).
Proof.
  unfold queue_read. destruct paths; [done|]. unfold Create, CreateWithMaxAttempts.
  match goal with |- _ ⊆ g_jobs (on_jobs ?f g) => change (g_jobs (on_jobs f g)) with (f (g_jobs g)) end. cbv beta.
  destruct (checkProtectedWrite _ _ _); [done|]. apply insert_job_mono.
Qed.

Lemma upsert_mono env dev values g : g_jobs g ⊆ g_jobs (upsert_values env dev values g).
Proof.
  unfold upsert_values. destruct (Upsert _ _ _ _ _ _ _ _) as [[[p d] j]|] eqn:E; [|done].
  change (g_jobs (set_tables p d j g)) with j.
  apply Upsert_ok in E as [(_ & _ & _ & ->)|(_ & _ & _ & _ & E)]; [done|].
  destruct (version_change _ _) as [[[root fb] fw]|]; [|by destruct E as (_ & _ & ->)].
  destruct E as (_ & _ & E). unfold queue_firmware_discovery in E. destruct (existsb _ _); [by simplify_eq|].
  match type of E with context [insert_job ?t ?j] => pose proof (insert_job_mono t j) as Hm;
    destruct (insert_job t j) as [[] ?]; simplify_eq; done end.
Qed.

Lemma cache_mono env dev list source g : g_jobs g ⊆ g_jobs (cacheParameterValues env dev list source g).
Proof.
  destruct list as [|v list]; [done|]. etrans; [apply (upsert_mono env dev (values_of (e_now env) source (v :: list)))|].
  unfold cacheParameterValues, upsert_values. destruct (Upsert _ _ _ _ _ _ _ _) as [[[p d] j]|]; [|done].
  by destruct (hasGatewayInfo _).
Qed.

(** Marking a row settles it. *)
Lemma settled_by_id (f : Job → Job) (tab : gmap string Job) id :
  is_Some (tab !! id) → (∀ j, Status (f j) ≠ StatusRPCSent) → settled (by_id id f tab) id.
Proof.
  intros [row Hr] Hf. unfold settled. rewrite lookup_by_id, decide_True, Hr by done. by eexists.
Qed.

Lemma settled_guarded job (f : Job → Job) (tab : gmap string Job) :
  tab !! ID job = Some job → Status job = StatusRPCSent → (∀ j, Status (f j) ≠ StatusRPCSent) →
  settled (guarded job f tab).2 (ID job).
Proof.
  intros Hr Hs Hf. unfold settled, guarded, update_key, current_attempt, status_eqb.
  rewrite Hr, Hs, Z.eqb_refl. simpl. rewrite lookup_insert_eq. by eexists.
Qed.

Lemma settled_failed env id c m g : is_Some (g_jobs g !! id) → settled (g_jobs (mark_failed env id c m g)) id.
Proof. intros. by apply (settled_by_id _ (g_jobs g)). Qed.

Lemma settled_success env dev job g :
  is_Some (g_jobs g !! ID job) → settled (g_jobs (markJobSuccess env dev job g)) (ID job).
Proof. intros. unfold markJobSuccess. destruct (type_in _ _); by apply (settled_by_id _ (g_jobs g)). Qed.

Lemma settled_detail env d job g :
  is_Some (g_jobs g !! ID job) → settled (g_jobs (on_jobs (MarkSuccessWithDetail (e_now env) (ID job) d) g)) (ID job).
Proof. intros. by apply (settled_by_id _ (g_jobs g)). Qed.

(** The row is as it was read, and in flight. *)
Definition current (g : Gateway) (job : Job) : Prop := g_jobs g !! ID job = Some job ∧ Status job = StatusRPCSent.

Lemma current_some g job : current g job → is_Some (g_jobs g !! ID job).
Proof. intros [H _]. by eexists. Qed.

Lemma current_mono g g' job : g_jobs g ⊆ g_jobs g' → current g job → current g' job.
Proof. intros Hm [H ?]. split; [by eapply lookup_weaken|done]. Qed.

Lemma settled_await env job g : current g job → settled (g_jobs (awaitDiagnostic env job g)) (ID job).
Proof.
  intros Hc. unfold awaitDiagnostic. destruct (_ || _).
  - apply (settled_by_id _ (g_jobs g)); [by apply current_some|done].
  - destruct Hc. by apply (settled_guarded job _ (g_jobs g)).
Qed.

Lemma settled_diagnostic env dev job body g :
  current g job → settled (g_jobs (completeDiagnostic tr143_detail env dev job body g)) (ID job).
Proof.
  intros Hc. unfold completeDiagnostic. destruct (negb _).
  { destruct (ib_SetParameterValuesResponse body); [by apply settled_await|by apply settled_failed, current_some]. }
  destruct (ib_GetParameterValuesResponse body) as [list|]; [|by apply settled_failed, current_some]. cbv zeta.
  pose proof (current_mono _ _ _ (cache_mono env dev list "GET_PARAMETER_VALUES" g) Hc) as Hc1.
  destruct (classifyDiagnosticsState _); [by apply settled_await|destruct (type_in _ _)|].
  - by apply settled_detail, current_some.
  - by apply settled_success, current_some.
  - by apply settled_failed, current_some.
Qed.

Lemma settled_finish env dev job payload names g :
  is_Some (g_jobs g !! ID job) → settled (g_jobs (finishParameterDiscovery env dev job payload names g)) (ID job).
Proof.
  intros Hc. unfold finishParameterDiscovery. destruct (SaveDiscovery _ _ _ _ _ _ _ _ _ _) as [params|e]; cbv zeta.
  - set (g2 := on_jobs _ _). assert (settled (g_jobs g2) (ID job)) as H2 by (by apply (settled_by_id _ (g_jobs g))).
    destruct (String.eqb _ "Device."); [|done].
    eapply settled_mono; [apply queue_read_mono|]. eapply settled_mono; [apply queue_read_mono|done].
  - pose proof (settled_failed env (ID job) "" "failed to persist discovery snapshot" g Hc) as H1.
    destruct (String.eqb e _); [|done]. set (g1 := mark_failed _ _ _ _ g) in *.
    eapply settled_mono; [|exact H1].
    match goal with |- _ ⊆ g_jobs (on_jobs ?f g1) => change (g_jobs (on_jobs f g1)) with (f (g_jobs g1)) end. cbv beta.
    unfold QueueDiscoveryIfNeeded. destruct (existsb _ _); [done|]. cbv zeta.
    match goal with |- context [insert_job ?t ?j] => pose proof (insert_job_mono t j) as Hm;
      by destruct (insert_job t j) as [[] ?] end.
Qed.

Lemma settled_requeue env job p g :
  current g job → settled (g_jobs (on_jobs (λ j, (RequeueDiscovery (e_now env) job p j).2) g)) (ID job).
Proof.
  intros [H Hs]. change (settled (RequeueDiscovery (e_now env) job p (g_jobs g)).2 (ID job)).
  unfold RequeueDiscovery. rewrite guarded_or_snd. by apply settled_guarded.
Qed.

Lemma settled_found_nothing env dev job payload detail g :
  is_Some (g_jobs g !! ID job) → settled (g_jobs (discovery_found_nothing env dev job payload detail g)) (ID job).
Proof.
  intros Hc. unfold discovery_found_nothing. cbv zeta.
  pose proof (settled_failed env (ID job) "" detail g Hc) as H1. set (g1 := mark_failed _ _ _ _ g) in *.
  destruct (_ || _); [done|]. unfold CreateWithMaxAttempts. destruct (checkProtectedWrite _ _ _); [done|].
  match goal with |- context [insert_job ?t ?j] => pose proof (insert_job_mono t j) as Hm;
    destruct (insert_job t j) as [[fb|] tab] end; simpl in Hm; apply (settled_mono _ _ _ Hm) in H1; [|done].
  destruct H1 as (row & Hr & Hn). unfold RecordDiscoveryFallback.
  change (settled (update_key (ID job) (λ j, type_eqb (Type_ j) TypeParameterDiscovery)
     (λ j, set_updated (e_now env) (set_detail (JObj [("fallback_command_key", JStr (CommandKey fb))]) j)) tab).1 (ID job)).
  unfold settled. rewrite lookup_update_key, decide_True, Hr by done. simpl. eexists. split; [done|].
  by destruct (type_eqb _ _).
Qed.

Lemma settled_discovery env dev job body g :
  is_Some (decode_ParameterDiscovery (Payload job)) → current g job →
  settled (g_jobs (completeParameterDiscovery env dev job body g)) (ID job).
Proof.
  intros [payload Hp] Hc. pose proof (current_some _ _ Hc) as Hi. unfold completeParameterDiscovery. rewrite Hp.
  destruct (ib_Fault body) as [f|].
  { destruct (_ && _); [|by apply settled_found_nothing]. unfold skipDiscoveryObject.
    destruct (SkipDiscoveryCursor payload) as [[[[] ?] p]|e];
      auto using settled_finish, settled_requeue, settled_failed. }
  destruct (ib_GetParameterNamesResponse body) as [list|]; [|by apply settled_found_nothing].
  destruct (_ && _); [by apply settled_found_nothing|]. cbv zeta.
  destruct (pd_Merge payload).
  { unfold finishSubtreeMerge. destruct (MergeDiscoveredSubtree _ _ _ _); [|by apply settled_failed].
    by apply (settled_by_id _ (g_jobs g)). }
  destruct (pd_Incremental payload); [|by apply settled_finish].
  destruct (AdvanceDiscovery _ _) as [[[] p]|e]; auto using settled_finish, settled_requeue, settled_failed.
Qed.

Lemma settled_set env dev job body g : current g job → settled (g_jobs (complete_set env dev job body g)) (ID job).
Proof.
  intros Hc. pose proof (current_some _ _ Hc) as Hi. unfold complete_set.
  destruct (ib_SetParameterValuesResponse body).
  - destruct (decode_SetParameter (Payload job)) as [payload|]; [|by apply settled_success].
    destruct (_ && _).
    + destruct Hc as [Hr Hs]. unfold BeginReadback, guarded_or.
      match goal with |- context [guarded job ?f ?t] => pose proof (settled_guarded job f t Hr Hs ltac:(done)) as Hg end.
      unfold guarded, update_key, current_attempt, status_eqb in *. rewrite Hr, Hs, Z.eqb_refl in *. exact Hg.
    + cbv zeta. pose proof (settled_success env dev job g Hi) as H1. destruct (sp_Parameters payload); [done|].
      eapply settled_mono; [apply queue_read_mono|]. eapply settled_mono; [apply upsert_mono|done].
  - destruct (decode_SetParameter (Payload job)) as [payload|]; [|by apply settled_failed].
    destruct (ib_GetParameterValuesResponse body) as [list|]; [|by apply settled_failed].
    destruct (sp_VerificationPending payload); [|by apply settled_failed]. cbv zeta.
    destruct (RecordOperation _ _ _ _ _ _ _ _ _) as [params|] eqn:E; [|by apply settled_failed].
    pose proof (current_mono _ _ _ (cache_mono env dev list "GET_PARAMETER_VALUES" (set_g_params params g)) Hc) as Hc1.
    case_match; [by apply settled_failed, current_some|by apply settled_success, current_some].
Qed.

Lemma settled_get env dev job body g : current g job → settled (g_jobs (complete_get env dev job body g)) (ID job).
Proof.
  intros Hc. pose proof (current_some _ _ Hc) as Hi. unfold complete_get.
  destruct (ib_GetParameterValuesResponse body) as [list|]; [|by apply settled_failed]. cbv zeta.
  destruct (match decode_GetParameter (Payload job) with None => true | Some read => _ end); [by apply settled_failed|].
  pose proof (settled_success env dev job g Hi) as H1. destruct (String.eqb _ _); [done|].
  pose proof (settled_mono _ _ _ (cache_mono env dev list "GET_PARAMETER_VALUES" (markJobSuccess env dev job g)) H1) as H2.
  destruct list as [|v list]; [done|]. by destruct (RecordOperation _ _ _ _ _ _ _ _ _).
Qed.

(** The handler's last statement settles the job. *)
Ltac settle :=
  lazymatch goal with
  | |- settled (g_jobs (complete_set _ _ _ _ _)) _ => by apply settled_set
  | |- settled (g_jobs (complete_get _ _ _ _ _)) _ => by apply settled_get
  | |- settled (g_jobs (completeDiagnostic _ _ _ _ _ _)) _ => by apply settled_diagnostic
  | |- settled (g_jobs (markUnexpectedResponse _ _ _)) _ => by apply settled_failed
  | |- settled (g_jobs (markJobSuccess _ _ _ _)) _ => by apply settled_success
  | |- settled (g_jobs (on_jobs (MarkSuccessWithDetail _ _ _) _)) _ => by apply settled_detail
  | |- settled (g_jobs (on_jobs (MarkAwaitingTransferComplete _ _) ?g)) _ => by apply (settled_by_id _ (g_jobs g))
  | _ => exfalso; try done
  end.

(** C28: an answer settles the job it answers. When the device answers the RPC
    of its job in flight, the job leaves RPC_SENT whatever the answer is (the
    expected response, a fault, or a message of another type): it is finished,
    failed, timed out, parked for a transfer or a diagnostic, or queued again
    for its next request. A discovery must have a payload that decodes. *)
Theorem answer_settles_the_job env dev jobID job body g :
  gateway_ok g → g_jobs g !! jobID = Some job → DeviceID job = dev → Status job = StatusRPCSent →
  Type_ job ∈ sessionDispatchableTypes →
  (Type_ job = TypeParameterDiscovery → is_Some (decode_ParameterDiscovery (Payload job))) →
  settled (g_jobs (completeJob tr143_detail env dev jobID body g)) jobID.
Proof.
  intros Hok Hj Hd Hs Ht Hp. unfold completeJob, ByID. rewrite Hj, Hd, Hs, String.eqb_refl. simpl negb. cbn [orb].
  destruct (ByID_owned dev g jobID job Hok Hj Hd) as [_ <-]. assert (current g job) as Hc by done.
  pose proof (current_some _ _ Hc) as Hi. unfold type_eqb.
  case_bool_decide as Ed; [by apply settled_discovery; [apply Hp|]|].
  destruct (ib_Fault body); [by apply settled_failed|]. unfold complete_answer.
  destruct (Type_ job) eqn:Et; unfold complete_ack; try case_match; settle.
  revert Ht. apply (bool_decide_eq_false_1 _). done.
Qed.

End Gateway.

(** ** Sealed secrets *)

(** C38: a sealed secret is opened once, by the device it was claimed for. Once
    a handle is claimed for a device, nobody can claim it again; until it
    expires, opening it for that device gives back the value that was put in
    and destroys it, so no later attempt opens it; for any other device, and
    after it has expired, it does not open. The encryption is only assumed to
    decrypt what it encrypted. *)
Theorem sealed_secret_opens_once seal unseal k id nonce t0 owner value ttl tab t1 dev tab2 :
  (∀ k ad n v, unseal k ad (seal k ad n v) = Some v) →
  tab !! id = None →
  ClaimSecret (Some k) t1 id owner dev (PutSecret (Some k) seal id nonce t0 owner value ttl tab).2 = (Ok tt, tab2) →
  (∀ t owner' dev', ClaimSecret (Some k) t id owner' dev' tab2 = (Err ErrInvalidHandle, tab2)) ∧
  (∀ t, t < t0 + ttl → OpenSecret (Some k) unseal t id dev tab2 = (Ok value, delete id tab2)) ∧
  (∀ t, t0 + ttl <= t → OpenSecret (Some k) unseal t id dev tab2 = (Err ErrHandleGone, tab2)) ∧
  (∀ t dev', dev' ≠ dev → OpenSecret (Some k) unseal t id dev' tab2 = (Err ErrHandleGone, tab2)) ∧
  ∀ t dev', OpenSecret (Some k) unseal t id dev' (delete id tab2) = (Err ErrHandleGone, delete id tab2).
Proof.
  intros Hrt Hn Hc. unfold PutSecret in Hc. rewrite Hn in Hc. simpl in Hc.
  unfold ClaimSecret, update_key in Hc. rewrite lookup_insert_eq in Hc.
  destruct (claimable _ _ _); [|done]. simpl in Hc. injection Hc as <-.
  unfold ClaimSecret, update_key, OpenSecret. rewrite lookup_insert_eq, lookup_delete_eq. split_and!.
  - intros t owner' dev'. unfold claimable. simpl. by rewrite andb_false_r.
  - intros t Ht. unfold openable. simpl. rewrite String.eqb_refl. apply Z.ltb_lt in Ht as ->. simpl. by rewrite Hrt.
  - intros t Ht. unfold openable. simpl. apply Z.ltb_ge in Ht as ->. by rewrite andb_false_r.
  - intros t dev' Hd. unfold openable. simpl. destruct (String.eqb_spec dev dev'); [congruence|done].
  - done.
Qed.

(** ** Concrete requests *)

Definition w_hash : json → string := λ _, "".
Definition w_unseal : string → string → string → option string := λ _ _ sealed, Some sealed.
Definition w_tr143 : list ParameterValueStruct → string → bool → json := λ _ _ _, JNull.

Definition w_env : Env :=
  mkEnv 100 (λ n, mkFresh ("f-" ++ Itoa (Z.of_nat n)) "20260101" (Itoa (Z.of_nat n)))
    (λ n, ("u-" ++ Itoa (Z.of_nat n))%string) "rpc-1" "acs-1" (λ _, false) (λ A m, map_to_list m).

Definition w_jobs : gmap string Job :=
  (CreateWithMaxAttempts false (mkFresh "j-1" "20260101" "AAAA") 50 "d-1" TypeReboot (JObj []) "operator" 3 ∅).2.

Definition w_session : Session :=
  mkSession "s-1" "d-1" StateInformResponseSent ["2 PERIODIC"] None "urn:dslforum-org:cwmp-1-2" 90 None None.

Definition w_gateway : Gateway :=
  mkGateway (mkWorld ∅ ∅ ∅ ∅ w_registry no_params w_jobs) {["s-1" := w_session]} ∅.

Definition w_bound : inboundIdentity := mkIdentity_ "d-1" "cpe" "" false.

Lemma w_jobs_reachable : reachable w_hash w_jobs.
Proof. apply rtc_once, step_create. Qed.

Lemma w_gateway_ok : gateway_ok w_gateway.
Proof.
  constructor.
  - exact (reachable_ok _ _ w_jobs_reachable).
  - apply reachable_devices_ok, rtc_once, dstep_preregister.
  - vm_compute. reflexivity.
  - apply sales_ok_empty.
  - by apply map_Forall_singleton.
  - apply credentials_ok_empty.
Qed.

Definition w_reply : Response * Gateway :=
  dispatch None w_unseal w_tr143 w_env (Some "s-1") emptyBody w_bound w_gateway.

Lemma w_reply_ok : gateway_ok w_reply.2.
Proof.
  eapply acts_for_ok; [|exact w_gateway_ok].
  eapply (acts_dispatch w_hash w_tr143 w_env "d-1" None w_unseal "s-1" w_session); [exact w_gateway_ok|done|done].
Qed.

Lemma w_reply_reachable : reachable w_hash (g_jobs w_reply.2).
Proof.
  pose proof (acts_dispatch w_hash w_tr143 w_env "d-1" None w_unseal "s-1" w_session emptyBody w_bound w_gateway
    w_gateway_ok eq_refl eq_refl) as Ha.
  unfold reachable. etrans; [exact w_jobs_reachable|]. exact (jf_steps _ _ _ _ (af_jobs _ _ _ _ Ha)).
Qed.

(** The reboot goes out; the table it leaves is reachable. *)
Lemma gateway_refines_the_job_queue_witness :
  reachable w_hash (g_jobs w_reply.2) ∧ Status <$> g_jobs w_reply.2 !! "j-1" = Some StatusRPCSent.
Proof.
  split; [|vm_compute; reflexivity].
  destruct (gateway_refines_the_job_queue w_hash None w_unseal w_tr143 w_gateway w_reply.2
    (rtc_once _ _ (gstep_dispatch None w_unseal w_tr143 w_env (Some "s-1") emptyBody w_bound w_gateway))
    w_gateway_ok w_jobs_reachable) as [H _]. exact H.
Defined.

Lemma credential_confines_the_request_witness : acts_for w_hash "d-1" w_gateway w_reply.2.
Proof.
  destruct (credential_confines_the_request w_hash None w_unseal w_tr143 w_gateway "d-1" w_bound w_env (Some "s-1")
    emptyBody (mkTransferComplete "other" None) "1" "urn" w_gateway_ok) as [H _].
  - left. split; [reflexivity|discriminate].
  - exact H.
Defined.

Definition is_xml (r : Response) : bool := match r with RespXML _ => true | _ => false end.

Lemma open_session_outcomes_witness :
  is_xml w_reply.1 = true ∧
  match w_reply.1 with
  | RespXML xml => ∃ job, in_flight w_env "d-1" (g_jobs w_reply.2) job
  | _ => False
  end.
Proof.
  split; [vm_compute; reflexivity|].
  assert (is_xml w_reply.1 = true) as Hx by (vm_compute; reflexivity).
  pose proof (open_session_outcomes w_hash None w_unseal w_tr143 w_env "s-1" w_session emptyBody w_bound w_gateway
    w_reply.1 w_reply.2 w_gateway_ok eq_refl eq_refl (surjective_pairing _)) as [_ H].
  destruct (w_reply.1); [discriminate Hx..|]. destruct H as (job & _ & _ & _ & _ & H & _). exists job. exact H.
Defined.

Definition w_reboot_answer : InboundBody :=
  mkInboundBody None None None None None None None None None (Some tt) None None None None None None None [].

Definition w_row : Job := default (new_job (mkFresh "" "" "") 0 "" TypeReboot JNull "" 0 None None) (g_jobs w_reply.2 !! "j-1").

Lemma answer_settles_the_job_witness :
  settled (g_jobs (completeJob w_tr143 w_env "d-1" "j-1" w_reboot_answer w_reply.2)) "j-1".
Proof.
  refine (answer_settles_the_job w_tr143 w_env "d-1" "j-1" w_row w_reboot_answer w_reply.2 w_reply_ok _ _ _ _ _).
  - vm_compute. reflexivity.
  - vm_compute. reflexivity.
  - vm_compute. reflexivity.
  - apply (bool_decide_unpack _). vm_compute. exact I.
  - intros H. vm_compute in H. discriminate H.
Defined.

Definition w_claimed : result unit * Secrets :=
  ClaimSecret (Some "k") 20 "h-1" "tenant-a" "d-1"
    (PutSecret (Some "k") (λ _ _ _ v, v) "h-1" "n" 10 "tenant-a" "hunter2" 100 ∅).2.

Lemma sealed_secret_opens_once_witness :
  OpenSecret (Some "k") w_unseal 30 "h-1" "d-1" w_claimed.2 = (Ok "hunter2", delete "h-1" w_claimed.2).
Proof.
  destruct (sealed_secret_opens_once (λ _ _ _ v, v) w_unseal "k" "h-1" "n" 10 "tenant-a" "hunter2" 100 ∅ 20 "d-1"
    w_claimed.2) as (_ & H & _).
  - reflexivity.
  - apply lookup_empty.
  - vm_compute. reflexivity.
  - apply H. reflexivity.
Defined.
