(* ===== verification/WifiView.v ===== *)
(** * The Wi-Fi networks of a device

    [internal/devices/adapters/wifi_networks.go]: the networks of a TR-181 device
    (an SSID with the access point that serves it and the radio below it), joined
    from the discovered names and the cached values; and the planning of a change
    to them ([cmd/api/wifi_edit.go]).  Go visits a map in any order: [ap_order],
    [ssid_order] and [guest_order] are the orders of the three loops.  Sorting by
    instance leaves equal instances in the order of the loop, which is any. *)

From S2P Require Import Prelude GoStrings Regex Json JobModel Devices ParamCache Gateway.

Inductive WiFiRole : Type := WiFiRolePrimary | WiFiRoleGuest | WiFiRoleUnbound | WiFiRoleDisabled.
#[global] Instance WiFiRole_eq_dec : EqDecision WiFiRole.
Proof. solve_decision. Defined.

(** A parameter the device has: its path and whether it is writable. *)
Abbreviation Slot := (option (string * bool)) (only parsing).

(** [wn_*Path] and [wn_*Writable] of the source are one [Slot]: [None] is the
    empty path. *)
Record WiFiNetwork : Type := mkWiFiNetwork {
  wn_Instance : Z;
  wn_SSIDObject : string;
  wn_AccessPoint : string;
  wn_Radio : string;
  wn_Name : option string;
  wn_Enabled : option bool;
  wn_Advertised : option bool;
  wn_Guest : option bool;
  wn_Band : string;
  wn_SecurityMode : string;
  wn_Role : WiFiRole;
  wn_NamePath : Slot;
  wn_EnablePath : Slot;
  wn_PassphrasePath : Slot;
  wn_APEnablePath : Slot;
  wn_AdvertisedPath : Slot;
  wn_SecurityModePath : Slot;
  wn_ModesSupported : list string;
  wn_APInferred : bool
}.

Record WiFiNetworks : Type := mkWiFiNetworks {
  wv_Networks : list WiFiNetwork;
  wv_Complete : bool;
  wv_RefreshPaths : list string
}.

(** ** Reading paths *)

(** The digits between a prefix and a suffix: group 1 of the two expressions. *)
Definition instance_text (prefix suffix path : string) : option string :=
  match CutPrefix path prefix with
  | Some r =>
      let m := TrimSuffix r suffix in
      if HasSuffix r suffix && negb (String.eqb m "") && forall_bytes is_digit m then Some m else None
  | None => None
  end.

Definition ssid_instance : string → option string := instance_text "Device.WiFi.SSID." ".SSID".
Definition ap_instance : string → option string := instance_text "Device.WiFi.AccessPoint." ".SSIDReference".

(** [n, _ := strconv.Atoi(digits)]: the largest integer when it does not fit. *)
Definition atoi_or_max (s : string) : Z := default max_int64 (Atoi s).

Definition normalizeObjectRef (ref : string) : string :=
  let r := TrimSpace ref in
  if negb (String.eqb r "") && negb (HasSuffix r ".") then (r ++ ".")%string else r.

Definition boolValue (o : option string) : option bool :=
  (λ v, String.eqb v "1" || EqualFold v "true") <$> o.

(** ** The view *)

Section View.
Context (names : gmap string bool) (cache : Cache).
Context (ap_order ssid_order : list (string * bool)) (guest_order : string → list (string * bool)).

Definition value (path : string) : option string := (λ v, TrimSpace (cv_Value v)) <$> cache !! path.
Definition present (path : string) : bool := is_some (names !! path).
Definition slot (path : string) : Slot := (λ w, (path, w)) <$> names !! path.

(** A discovered value that is not cached yet. *)
Definition need (path : string) : list string := if present path && negb (is_some (cache !! path)) then [path] else [].

(** The value of a reference that is not empty. *)
Definition reference (path : string) : option string :=
  match value path with Some r => if String.eqb r "" then None else Some r | None => None end.

Definition guest_ref (path : string) : bool :=
  MatchString guestRefRE path && negb (HasPrefix path "Device.WiFi.AccessPoint.").

(** The first loop: access points by the SSID they serve, the instances of the
    access points, the SSIDs guest networks refer to. *)
Definition apBySSID : gmap string string :=
  foldl (λ m (kv : string * bool),
           match ap_instance kv.1, reference kv.1 with
           | Some i, Some ref => <[normalizeObjectRef ref := ("Device.WiFi.AccessPoint." ++ i ++ ".")%string]> m
           | _, _ => m
           end) ∅ ap_order.

Definition apInstances : list Z := atoi_or_max <$> omap (λ kv : string * bool, ap_instance kv.1) ap_order.

Definition guestSSIDs : list string :=
  omap (λ kv : string * bool, if guest_ref kv.1 then normalizeObjectRef <$> reference kv.1 else None) ap_order.

Definition ap_needs : list string :=
  concat ((λ kv : string * bool, (if is_some (ap_instance kv.1) then need kv.1 else [])
                                 ++ (if guest_ref kv.1 then need kv.1 else [])) <$> ap_order).

Definition hasCachedRef (n : Z) : bool :=
  existsb (λ kv : string * CachedValue, match ap_instance kv.1 with Some i => String.eqb i (Itoa n) | None => false end)
    (map_to_list cache).

(** The vendor's guest flags of an SSID. *)
Definition guest_flags (obj : string) : list string :=
  omap (λ kv : string * bool, if HasPrefix kv.1 (obj ++ "X_") && HasSuffix kv.1 "IsGuestSSID" then Some kv.1 else None)
    (guest_order obj).

Definition guest_of (obj : string) : option bool :=
  if existsb (String.eqb obj) guestSSIDs then Some true
  else foldl (λ _ p, boolValue (value p)) None (guest_flags obj).

(** The radio the SSID is layered on, once the reference is cached. *)
Definition radio_of (obj : string) : option string :=
  if present (obj ++ "LowerLayers")
  then (λ ref, normalizeObjectRef (hd "" (Split ref ","))) <$> reference (obj ++ "LowerLayers") else None.
Definition band_path (radio : string) : string := (radio ++ "OperatingFrequencyBand")%string.

(** The access point of an SSID, and whether it was only inferred. *)
Definition access_point (n : Z) (digits obj : string) : string * bool :=
  match apBySSID !! obj with
  | Some ap => (ap, false)
  | None => if existsb (Z.eqb n) apInstances && negb (hasCachedRef n)
            then (("Device.WiFi.AccessPoint." ++ digits ++ ".")%string, true) else ("", false)
  end.

Definition modes_of (path : string) : list string :=
  match reference path with
  | Some v => if present path then List.filter (λ m, negb (String.eqb m "")) (TrimSpace <$> Split v ",") else []
  | None => []
  end.

Definition role_of (guest : option bool) (ap : string) (enabled : option bool) : WiFiRole :=
  if default false guest then WiFiRoleGuest
  else if String.eqb ap "" then WiFiRoleUnbound
  else if negb (default true enabled) then WiFiRoleDisabled
  else WiFiRolePrimary.

(** A slot of the access point, when there is one. *)
Definition ap_slot (ap leaf : string) : Slot := if String.eqb ap "" then None else slot (ap ++ leaf).
Definition ap_value (ap leaf : string) : option string :=
  if String.eqb ap "" then None else if present (ap ++ leaf) then value (ap ++ leaf) else None.

(** The body of the second loop: the network of one SSID, and what it needs. *)
Definition network_of (path digits : string) : WiFiNetwork * list string :=
  let n := atoi_or_max digits in
  let obj := ("Device.WiFi.SSID." ++ digits ++ ".")%string in
  let '(ap, inferred) := access_point n digits obj in
  let enabled := if present (obj ++ "Enable") then boolValue (value (obj ++ "Enable")) else None in
  let radio := radio_of obj in
  (mkWiFiNetwork n obj ap (default "" radio) (value path) enabled (boolValue (ap_value ap "SSIDAdvertisementEnabled")) (guest_of obj)
     (match radio with
      | Some r => if present (band_path r) then default "" (value (band_path r)) else ""
      | None => ""
      end)
     (default "" (ap_value ap "Security.ModeEnabled"))
     (role_of (guest_of obj) ap enabled)
     (slot path) (slot (obj ++ "Enable")) (ap_slot ap "Security.KeyPassphrase") (ap_slot ap "Enable")
     (ap_slot ap "SSIDAdvertisementEnabled") (ap_slot ap "Security.ModeEnabled")
     (if String.eqb ap "" then [] else modes_of (ap ++ "Security.ModesSupported")) inferred,
   need path ++ need (obj ++ "Enable") ++ concat (need <$> guest_flags obj) ++ need (obj ++ "LowerLayers")
   ++ match radio with Some r => need (band_path r) | None => [] end
   ++ (if String.eqb ap "" then [] else need (ap ++ "SSIDAdvertisementEnabled") ++ need (ap ++ "Security.ModeEnabled"))).

Definition instance_le (a b : WiFiNetwork) : Prop := wn_Instance a <= wn_Instance b.
#[global] Instance instance_le_dec a b : Decision (instance_le a b).
Proof. unfold instance_le. apply _. Defined.

Definition resolved : list (WiFiNetwork * list string) :=
  omap (λ kv : string * bool, network_of kv.1 <$> ssid_instance kv.1) ssid_order.

Definition ResolveWiFiNetworks : WiFiNetworks :=
  let needs := ap_needs ++ concat resolved.*2 in
  mkWiFiNetworks (merge_sort instance_le resolved.*1) (bool_decide (needs = [])) (SortStrings needs).
End View.

Definition PrimaryWiFiNetworks (v : WiFiNetworks) : list WiFiNetwork :=
  List.filter (λ n, bool_decide (wn_Role n = WiFiRolePrimary)) (wv_Networks v).

(** ** Editing one network ([wifi_edit.go]) *)

Definition maxWiFiEditInstances : nat := 16%nat.

Record wifiNetworkEdit : Type := mkWifiNetworkEdit {
  we_Name : option string;
  we_Passphrase : option string;
  we_SecurityMode : option string;
  we_Enabled : option bool;
  we_Advertised : option bool;
  we_AlsoInstances : list Z;
  we_AllowOpen : bool
}.

Definition validWiFiName (name : string) : option string :=
  if String.eqb (TrimSpace name) "" || (32 <? Z.of_nat (String.length name))
  then Some "the network name must be 1 to 32 bytes" else None.

Definition is_hex (c : ascii) : bool := byte_in c "0123456789abcdefABCDEF".
Definition is_printable : ascii → bool := byte_between 32 126.

Definition validPassphrase (p : string) : option string :=
  let n := Z.of_nat (String.length p) in
  if n =? 64 then (if forall_bytes is_hex p then None else Some "a 64-character passphrase must be hexadecimal")
  else if (n <? 8) || (63 <? n) then Some "the passphrase must be 8 to 63 characters"
  else if forall_bytes is_printable p then None
  else Some "the passphrase may contain only printable ASCII characters".

Definition isOpenMode (mode : string) : bool := EqualFold (TrimSpace mode) "None".

Definition cwmpBool (b : bool) : string := if b then "1" else "0".

(** What a network is before the change, and what it would be after it. *)
Definition was_on (n : WiFiNetwork) : bool := default true (wn_Enabled n).
Definition on_after (req : wifiNetworkEdit) (n : WiFiNetwork) : bool := default (was_on n) (we_Enabled req).
Definition mode_after (req : wifiNetworkEdit) (n : WiFiNetwork) : string :=
  match we_SecurityMode req with Some m => TrimSpace m | None => wn_SecurityMode n end.

(** The five fields in the order they are written: what the field is called, where
    it is, the value and its type. *)
Definition field_writes (req : wifiNetworkEdit) (n : WiFiNetwork) : list (string * Slot * string * string) :=
  match we_Name req with Some v => [("the name", wn_NamePath n, v, "xsd:string")] | None => [] end
  ++ match we_SecurityMode req with
     | Some _ => [("the security mode", wn_SecurityModePath n, mode_after req n, "xsd:string")] | None => [] end
  ++ match we_Passphrase req with Some v => [("the passphrase", wn_PassphrasePath n, v, "xsd:string")] | None => [] end
  ++ match we_Advertised req with Some b => [("broadcast", wn_AdvertisedPath n, cwmpBool b, "xsd:boolean")] | None => [] end
  ++ match we_Enabled req with
     | Some _ => [("on/off", wn_EnablePath n, cwmpBool (on_after req n), "xsd:boolean")] | None => [] end.

(** The access point follows the SSID when the device lets it. *)
Definition ap_follows (req : wifiNetworkEdit) (n : WiFiNetwork) : list ParameterWrite :=
  match we_Enabled req, wn_APEnablePath n with
  | Some _, Some (path, true) => [mkParameterWrite path (cwmpBool (on_after req n)) "xsd:boolean" ""]
  | _, _ => []
  end.

(** [add]: every field must be writable. *)
Fixpoint add_fields (instance : Z) (l : list (string * Slot * string * string)) : (Z * string) + list ParameterWrite :=
  match l with
  | [] => inr []
  | (field, Some (path, true), v, t) :: rest =>
      match add_fields instance rest with
      | inr ws => inr (mkParameterWrite path v t "" :: ws)
      | inl e => inl e
      end
  | (field, _, _, _) :: _ =>
      inl (409, ("network " ++ Itoa instance ++ ": " ++ field ++ " is not writable on this device")%string)
  end.

(** Why the change of a network is refused, if it is: the status and the reason. *)
Definition edit_refusal (req : wifiNetworkEdit) (n : WiFiNetwork) : option (Z * string) :=
  let net := ("network " ++ Itoa (wn_Instance n))%string in
  let open := isOpenMode (mode_after req n) in
  let secret := is_some (we_Passphrase req) in
  if String.eqb (wn_AccessPoint n) "" then Some (409, (net ++ " is not served by an access point")%string)
  else if is_some (we_SecurityMode req) && negb (bool_decide (wn_ModesSupported n = []))
          && negb (existsb (String.eqb (mode_after req n)) (wn_ModesSupported n))
  then Some (400, (net ++ " does not support this security mode")%string)
  else if on_after req n && open && negb (we_AllowOpen req) then Some (400, (net ++ " would be open (no security)")%string)
  else if secret && open then Some (400, (net ++ " has no security, so a passphrase does not apply")%string)
  else if is_some (we_SecurityMode req) && isOpenMode (wn_SecurityMode n) && negb open && negb secret
  then Some (400, (net ++ " is being secured: set a passphrase with the new mode")%string)
  else if negb (was_on n) && on_after req n && negb secret && negb open
  then Some (400, (net ++ " is being turned on: set its passphrase too")%string)
  else None.

Definition edit_network (req : wifiNetworkEdit) (n : WiFiNetwork) : (Z * string) + list ParameterWrite :=
  match edit_refusal req n with
  | Some e => inl e
  | None =>
      match add_fields (wn_Instance n) (field_writes req n) with
      | inl e => inl e
      | inr ws => inr (ws ++ ap_follows req n)
      end
  end.

(** [byInstance]: the last network of an instance. *)
Definition network_at (v : WiFiNetworks) (inst : Z) : option WiFiNetwork :=
  last (List.filter (λ n, wn_Instance n =? inst) (wv_Networks v)).

(** The loop over the targets. *)
Fixpoint edit_targets (req : wifiNetworkEdit) (v : WiFiNetworks) (targets : list Z) : (Z * string) + list ParameterWrite :=
  match targets with
  | [] => inr []
  | inst :: rest =>
      match network_at v inst with
      | None => inl (404, ("network " ++ Itoa inst ++ " does not exist on this device")%string)
      | Some n =>
          match edit_network req n with
          | inl e => inl e
          | inr ws => match edit_targets req v rest with inl e => inl e | inr ws' => inr (ws ++ ws') end
          end
      end
  end.

(** The named instance, then the others in order, each once. *)
Definition dedup (seen : list Z) (l : list Z) : list Z :=
  foldl (λ acc i, if existsb (Z.eqb i) acc then acc else acc ++ [i]) seen l.
Definition edit_target_list (instance : Z) (req : wifiNetworkEdit) : list Z := dedup [instance] (we_AlsoInstances req).

(** Networks that stay on. *)
Definition still_on (v : WiFiNetworks) (targets : list Z) : list WiFiNetwork :=
  List.filter (λ n, negb (String.eqb (wn_AccessPoint n) "") && was_on n && negb (existsb (Z.eqb (wn_Instance n)) targets))
    (wv_Networks v).

Definition nothing_to_change (req : wifiNetworkEdit) : bool :=
  negb (is_some (we_Name req)) && negb (is_some (we_Passphrase req)) && negb (is_some (we_SecurityMode req))
  && negb (is_some (we_Enabled req)) && negb (is_some (we_Advertised req)).

(** [updateWiFiNetwork] from the decoded request to the writes: the checks of the
    request alone. *)
Definition edit_request_refusal (instance : option Z) (req : wifiNetworkEdit) : option (Z * string) :=
  if negb (match instance with Some i => 1 <=? i | None => false end)
  then Some (400, "instance must be a positive SSID instance number")
  else if (maxWiFiEditInstances <? length (we_AlsoInstances req))%nat
  then Some (400, "also_instances may name at most 16 networks")
  else if nothing_to_change req
  then Some (400, "nothing to change: send at least one of name, passphrase, security_mode, enabled, advertised")
  else match match we_Name req with Some n => validWiFiName n | None => None end with
       | Some e => Some (400, e)
       | None => match match we_Passphrase req with Some p => validPassphrase p | None => None end with
                 | Some e => Some (400, e)
                 | None => None
                 end
       end.

(** The rest, on the view. *)
Definition plan_edit (instance : Z) (req : wifiNetworkEdit) (v : WiFiNetworks) : (Z * string) + list ParameterWrite :=
  if negb (wv_Complete v) then inl (409, "this device's Wi-Fi settings are not fully read yet")
  else
    let targets := edit_target_list instance req in
    match edit_targets req v targets with
    | inl e => inl e
    | inr ws =>
        if negb (default true (we_Enabled req)) && bool_decide (still_on v targets = [])
        then inl (409, "this would turn off every Wi-Fi network on the device; keep at least one on")
        else inr ws
    end.

(** ** What a change does *)

(** The parameters of a network the editor may write. *)
Definition network_slots (n : WiFiNetwork) : list (option (string * bool)) :=
  [wn_NamePath n; wn_SecurityModePath n; wn_PassphrasePath n; wn_AdvertisedPath n; wn_EnablePath n; wn_APEnablePath n].

Section Edits.
Context (names : gmap string bool) (cache : Cache).
Context (ap_order ssid_order : list (string * bool)) (guest_order : string → list (string * bool)).
Abbreviation view := (ResolveWiFiNetworks names cache ap_order ssid_order guest_order).

Lemma slot_proven path p w : slot names path = Some (p, w) → names !! p = Some w.
Proof. unfold slot. intros (w' & H & [= -> ->])%fmap_Some. done. Qed.

(** Every path of the view is one discovery found, with its writability. *)
Lemma view_slots_are_discovered n p w :
  n ∈ wv_Networks view → Some (p, w) ∈ network_slots n → names !! p = Some w.
Proof.
  intros Hn Hs. unfold ResolveWiFiNetworks in Hn. cbn [wv_Networks] in Hn. rewrite merge_sort_Permutation in Hn.
  apply list_elem_of_fmap in Hn as ([n' needs] & -> & Hn). unfold resolved in Hn. apply list_elem_of_omap in Hn as ([path w'] & _ & Hn).
  apply fmap_Some in Hn as (digits & _ & Hn). unfold network_of in Hn.
  destruct (access_point _ _ _ _ _) as [ap inferred]. injection Hn as -> _.
  assert (∀ leaf, ap_slot names ap leaf = Some (p, w) → names !! p = Some w) as Hap.
  { intros leaf. unfold ap_slot. destruct (String.eqb ap ""); [done|]. apply slot_proven. }
  unfold network_slots in Hs. cbn in Hs. set_unfold in Hs.
  destruct Hs as [H|[H|[H|[H|[H|[H|[]]]]]]]; symmetry in H; first [by eapply slot_proven | by eapply Hap].
Qed.

Lemma add_fields_ok inst l ws :
  add_fields inst l = inr ws →
  ws = (λ '(_, s, v, t), mkParameterWrite (from_option fst "" s) v t "") <$> l ∧
  ∀ w, w ∈ ws → ∃ f s v t, (f, s, v, t) ∈ l ∧ s = Some (pw_Name w, true).
Proof.
  revert ws. induction l as [|[[[f s] v] t] l IH]; intros ws; cbn [add_fields].
  { intros [= <-]. split; [done|]. by intros w ?%not_elem_of_nil. }
  destruct s as [[p []]|]; [|done..]. destruct (add_fields inst l) as [|ws'] eqn:E; [done|]. intros [= <-].
  destruct (IH _ eq_refl) as [-> Hin]. split; [done|]. intros w [->|Hw]%elem_of_cons.
  - exists f, (Some (p, true)), v, t. split; [by left|done].
  - destruct (Hin w Hw) as (f' & s' & v' & t' & ? & ?). exists f', s', v', t'. split; [by right|done].
Qed.

Lemma field_writes_slots req n f s v t : (f, s, v, t) ∈ field_writes req n → s ∈ network_slots n.
Proof.
  unfold field_writes, network_slots. intros H.
  destruct (we_Name req), (we_SecurityMode req), (we_Passphrase req), (we_Advertised req), (we_Enabled req);
    cbn in H; set_unfold in H; set_unfold; naive_solver.
Qed.

Lemma edit_network_writes req n ws w :
  edit_network req n = inr ws → w ∈ ws → Some (pw_Name w, true) ∈ network_slots n.
Proof.
  unfold edit_network. destruct (edit_refusal req n); [done|].
  destruct (add_fields _ _) as [|l] eqn:E; [done|]. intros [= <-] [Hw|Hw]%elem_of_app.
  - destruct (add_fields_ok _ _ _ E) as [_ Hin]. destruct (Hin w Hw) as (f & s & v & t & Hf & ->).
    by eapply field_writes_slots.
  - unfold ap_follows in Hw. destruct (we_Enabled req), (wn_APEnablePath n) as [[p []]|] eqn:Ep; try by apply not_elem_of_nil in Hw.
    apply list_elem_of_singleton in Hw as ->. unfold network_slots. rewrite Ep. set_solver.
Qed.

Lemma network_at_in v i n : network_at v i = Some n → n ∈ wv_Networks v ∧ wn_Instance n = i.
Proof.
  unfold network_at. intros H%last_Some_elem_of. apply list_elem_of_In, filter_In in H as [H ?].
  split; [by apply list_elem_of_In|]. by apply Z.eqb_eq.
Qed.

Lemma edit_targets_ok req v targets ws :
  edit_targets req v targets = inr ws →
  (∀ i, i ∈ targets → ∃ n wn, network_at v i = Some n ∧ edit_network req n = inr wn ∧ wn ⊆ ws) ∧
  (∀ w, w ∈ ws → ∃ i n wn, i ∈ targets ∧ network_at v i = Some n ∧ edit_network req n = inr wn ∧ w ∈ wn).
Proof.
  revert ws. induction targets as [|i l IH]; intros ws; cbn [edit_targets].
  { intros [= <-]. split; intros x ?%not_elem_of_nil; done. }
  destruct (network_at v i) as [n|] eqn:En; [|done]. destruct (edit_network req n) as [|wn] eqn:Ee; [done|].
  destruct (edit_targets req v l) as [|ws']; [done|]. intros [= <-]. destruct (IH _ eq_refl) as [H1 H2]. split.
  - intros j [->|Hj]%elem_of_cons; [exists n, wn; set_solver|].
    destruct (H1 j Hj) as (n' & wn' & ? & ? & ?). exists n', wn'. set_solver.
  - intros w [Hw|Hw]%elem_of_app; [exists i, n, wn; set_solver|].
    destruct (H2 w Hw) as (j & n' & wn' & ? & ? & ? & ?). exists j, n', wn'. set_solver.
Qed.

Lemma edit_refusal_none req n :
  edit_refusal req n = None →
  wn_AccessPoint n ≠ "" ∧
  (on_after req n = true → isOpenMode (mode_after req n) = true → we_AllowOpen req = true) ∧
  (is_Some (we_Passphrase req) → isOpenMode (mode_after req n) = false) ∧
  (isOpenMode (mode_after req n) = false →
     was_on n = false ∧ on_after req n = true ∨ is_Some (we_SecurityMode req) ∧ isOpenMode (wn_SecurityMode n) = true →
     is_Some (we_Passphrase req)).
Proof.
  unfold edit_refusal. destruct (String.eqb_spec (wn_AccessPoint n) "") as [|Hap]; [done|].
  destruct (is_some (we_SecurityMode req) && _ && _); [done|].
  destruct (on_after req n), (isOpenMode (mode_after req n)), (we_AllowOpen req), (we_Passphrase req),
    (we_SecurityMode req), (isOpenMode (wn_SecurityMode n)), (was_on n); cbn; intros H; try done;
    (repeat split; [done|..]); intros; try done; try naive_solver.
Qed.

(** C24: a change to Wi-Fi networks that is accepted writes only parameters discovery
    proved writable, each of a network it names; no network it leaves on is left
    without security unless that was asked for; a network that is turned on or
    newly secured is given a passphrase; and when it turns networks off, a network
    served by an access point stays on. *)
Theorem wifi_edit_is_safe instance req ws :
  let targets := edit_target_list instance req in
  plan_edit instance req view = inr ws →
  (∀ w, w ∈ ws → names !! pw_Name w = Some true ∧
     ∃ n, n ∈ wv_Networks view ∧ wn_Instance n ∈ targets ∧ Some (pw_Name w, true) ∈ network_slots n) ∧
  (∀ i, i ∈ targets → ∃ n, network_at view i = Some n ∧ wn_AccessPoint n ≠ "" ∧
     (on_after req n = true → isOpenMode (mode_after req n) = true → we_AllowOpen req = true) ∧
     (is_Some (we_Passphrase req) → isOpenMode (mode_after req n) = false) ∧
     (isOpenMode (mode_after req n) = false →
        was_on n = false ∧ on_after req n = true ∨ is_Some (we_SecurityMode req) ∧ isOpenMode (wn_SecurityMode n) = true →
        is_Some (we_Passphrase req)) ∧
     (λ '(_, s, v, t), mkParameterWrite (from_option fst "" s) v t "") <$> field_writes req n ⊆ ws) ∧
  (we_Enabled req = Some false →
     ∃ n, n ∈ wv_Networks view ∧ wn_AccessPoint n ≠ "" ∧ was_on n = true ∧ wn_Instance n ∉ targets).
Proof.
  intros targets. unfold plan_edit. destruct (wv_Complete view); cbn [negb]; [|done]. fold targets.
  destruct (edit_targets req view targets) as [|ws'] eqn:Et; [done|]. apply edit_targets_ok in Et as [H1 H2].
  destruct (negb (default true (we_Enabled req)) && bool_decide (still_on view targets = [])) eqn:Eo; [done|].
  intros [= <-]. split; [|split].
  - intros w Hw. destruct (H2 w Hw) as (i & n & wn & Hi & Hn & He & Hin).
    apply network_at_in in Hn as [Hn <-]. pose proof (edit_network_writes _ _ _ _ He Hin) as Hs.
    split; [by eapply view_slots_are_discovered|]. by exists n.
  - intros i Hi. destruct (H1 i Hi) as (n & wn & Hn & He & Hsub). exists n. split; [done|].
    unfold edit_network in He. destruct (edit_refusal req n) eqn:Er; [done|].
    destruct (edit_refusal_none _ _ Er) as (? & ? & ? & ?). repeat split; try done.
    destruct (add_fields _ _) as [|l] eqn:Ea; [done|]. destruct (add_fields_ok _ _ _ Ea) as [<- _].
    injection He as <-. set_solver.
  - intros E. rewrite E in Eo. cbn in Eo. apply bool_decide_eq_false in Eo.
    destruct (still_on view targets) as [|n l] eqn:Es; [done|].
    assert (In n (still_on view targets)) as Hn by (rewrite Es; by left).
    unfold still_on in Hn. apply filter_In in Hn as [Hn Hb]. bool_to_prop. exists n.
    repeat split; [by apply list_elem_of_In|done|done|]. intros Hin.
    match goal with H : existsb _ _ = false |- _ => rename H into Hx end.
    rewrite <- not_true_iff_false, existsb_exists in Hx. apply Hx. exists (wn_Instance n).
    split; [by apply list_elem_of_In|apply Z.eqb_refl].
Qed.
End Edits.

(** A device with two networks, both on, both secured. *)
Definition w_wifi_leaves : list (string * string) :=
  [("Device.WiFi.SSID.1.SSID", "home"); ("Device.WiFi.SSID.1.Enable", "true");
   ("Device.WiFi.SSID.2.SSID", "home5"); ("Device.WiFi.SSID.2.Enable", "true");
   ("Device.WiFi.AccessPoint.1.SSIDReference", "Device.WiFi.SSID.1"); ("Device.WiFi.AccessPoint.2.SSIDReference", "Device.WiFi.SSID.2");
   ("Device.WiFi.AccessPoint.1.Security.ModeEnabled", "WPA2-Personal"); ("Device.WiFi.AccessPoint.2.Security.ModeEnabled", "WPA2-Personal")].
Definition w_wifi_names : gmap string bool := list_to_map ((λ kv : string * string, (kv.1, true)) <$> w_wifi_leaves).
Definition w_wifi_cache : Cache := list_to_map ((λ kv : string * string, (kv.1, mkCached kv.2 "" 0 "")) <$> w_wifi_leaves).
Definition w_wifi_view : WiFiNetworks :=
  ResolveWiFiNetworks w_wifi_names w_wifi_cache (map_to_list w_wifi_names) (map_to_list w_wifi_names) (λ _, map_to_list w_wifi_names).

Definition w_turn_off (also : list Z) : wifiNetworkEdit := mkWifiNetworkEdit None None None (Some false) None also false.

Lemma wifi_edit_is_safe_witness :
  (∃ ws, plan_edit 2 (w_turn_off []) w_wifi_view = inr ws ∧ pw_Name <$> ws = ["Device.WiFi.SSID.2.Enable"] ∧
     ∃ n, n ∈ wv_Networks w_wifi_view ∧ was_on n = true ∧ wn_Instance n ≠ 2) ∧
  ∃ e, plan_edit 2 (w_turn_off [1]) w_wifi_view = inl (409, e).
Proof.
  split; [|eexists; vm_compute; reflexivity].
  destruct (plan_edit 2 (w_turn_off []) w_wifi_view) as [|ws] eqn:E; [revert E; vm_compute; discriminate|].
  destruct (wifi_edit_is_safe w_wifi_names w_wifi_cache (map_to_list w_wifi_names) (map_to_list w_wifi_names)
              (λ _, map_to_list w_wifi_names) 2 (w_turn_off []) ws E) as (_ & _ & H).
  destruct (H eq_refl) as (n & Hn & _ & Ho & Hi). exists ws. split; [reflexivity|]. split.
  - revert E. vm_compute. by intros [= <-].
  - exists n. do 2 (split; [done|]). intros E2. apply Hi. rewrite E2. vm_compute. left.
Defined.
