(* ===== verification/ApiWrites.v ===== *)
(** * Parameter writes of the operator API

    The writes an operator, the BSS adapter or a template asks for, checked
    before they are queued: [cmd/api/device_handlers.go] (payloads, what discovery
    allows), [protected_writes.go], and the fleet action that sets the Wi-Fi
    ([wifi_bulk.go]).  [dict] is [datamodel.Load]; [rng] gives the order in which
    Go visits a map, one per loop. *)

From S2P Require Import Prelude GoStrings Json Protected JobModel JobStore Datamodel Devices Adapters ParamCache Gateway.
From S2P Require Import WifiView.

(** ** Payloads *)

Record parameterInput : Type := mkParameterInput {
  pi_Name : string;
  pi_Value : string;
  pi_Type : string;
  pi_SecretHandle : string
}.

Definition hasSecretHandle (inputs : list parameterInput) : bool :=
  existsb (λ p, negb (String.eqb (pi_SecretHandle p) "")) inputs.

Definition writeNames (p : SetParameterPayload) : list string := pw_Name <$> sp_Parameters p.

(** [refuseProtectedWrite]: the reason, when one of the names is protected. *)
Definition refuseProtectedWrite (names : list string) : option string :=
  ProtectedParameterError_Error <$> CheckProtected names.

Section Build.
Context (dict : result Dictionary).

(** The type of a parameter whose input does not name one. *)
Definition inferred_type (d : Dictionary) (p : parameterInput) : string :=
  match Lookup d (pi_Name p) with
  | Some e =>
      if String.eqb (pi_Type p) "" && negb (String.eqb (en_Type e) "")
      then (if String.eqb (en_Type e) "base64" then "xsd:base64Binary" else ("xsd:" ++ en_Type e)%string)
      else pi_Type p
  | None => pi_Type p
  end.

Definition build_write (p : parameterInput) : result ParameterWrite :=
  if String.eqb (pi_Name p) "" then Err "each parameter requires a name"
  else if negb (String.eqb (pi_SecretHandle p) "") then
    if negb (String.eqb (pi_Value p) "") then Err ("parameter " ++ pi_Name p ++ " has both a value and a secret_handle")%string
    else Ok (mkParameterWrite (pi_Name p) "" (pi_Type p) (pi_SecretHandle p))
  else if HasPrefix (pi_Name p) "Device." then
    match dict with
    | Err e => Err e
    | Ok d =>
        match ValidateValue d (pi_Name p) (pi_Value p) with
        | Some e => Err e
        | None => Ok (mkParameterWrite (pi_Name p) (pi_Value p) (inferred_type d p) "")
        end
    end
  else Ok (mkParameterWrite (pi_Name p) (pi_Value p) (pi_Type p) "").

Fixpoint build_writes (inputs : list parameterInput) : result (list ParameterWrite) :=
  match inputs with
  | [] => Ok []
  | p :: rest => try w <- build_write p; try ws <- build_writes rest; Ok (w :: ws)
  end.

Definition verified (ws : list ParameterWrite) : SetParameterPayload := mkSetParameterPayload "" false [] ws true false.

Definition buildSetParameterPayload (inputs : list parameterInput) : result SetParameterPayload :=
  match inputs with
  | [] => Err "parameters must not be empty"
  | _ => try ws <- build_writes inputs; Ok (verified ws)
  end.
End Build.

(** ** What discovery allows *)

(** Why discovery refuses a write, if it does. *)
Definition undiscovered (names : gmap string bool) (w : ParameterWrite) : option string :=
  match names !! pw_Name w, names !! NormalizePath (pw_Name w) with
  | Some true, _ | None, Some true => None
  | None, None => Some ("parameter " ++ pw_Name w ++ " is not supported by the discovered device model")%string
  | _, _ => Some ("parameter " ++ pw_Name w ++ " is read-only on the discovered device model")%string
  end.

Definition validateDiscoveredWritableParameters (names : gmap string bool) (p : SetParameterPayload) : option string :=
  first_error (undiscovered names) (sp_Parameters p).

(** [Instances] of a device. *)
Definition evidence_of (params : Params) (dev : string) : list InstanceEvidence := default [] (p_instances params !! dev).

(** A path discovery knows only as a template needs proof of its instances. *)
Definition unproven_instance (params : Params) (now : GoTime) (dev : string) (names : gmap string bool) (w : ParameterWrite)
  : option string :=
  if is_some (names !! pw_Name w) then None
  else (λ i, ("instance " ++ i ++ " has no current evidence; run instance discovery")%string)
         <$> RequireInstances (pw_Name w) (Firmware (GetCache params dev)) (evidence_of params dev) now.

Definition validateWritableParameters (params : Params) (now : GoTime) (dev : string) (p : SetParameterPayload)
  : option string :=
  match GetNames params dev with
  | None => None
  | Some (names, _) =>
      match validateDiscoveredWritableParameters names p with
      | Some e => Some e
      | None => first_error (unproven_instance params now dev names) (sp_Parameters p)
      end
  end.

(** ** SET_WIFI *)

Record wifiSettings : Type := mkWifiSettings { wf_SSID : string; wf_Password : string; wf_Enabled : option bool }.

Definition wifi_validate (s : wifiSettings) : option string :=
  let long n := Z.of_nat (String.length n) in
  if String.eqb (wf_SSID s) "" && String.eqb (wf_Password s) "" && negb (is_some (wf_Enabled s))
  then Some "SET_WIFI requires at least one of wifi_ssid, wifi_password, wifi_enabled"
  else if negb (String.eqb (wf_SSID s) "") && (negb (String.eqb (TrimSpace (wf_SSID s)) (wf_SSID s)) || (32 <? long (wf_SSID s)))
  then Some "wifi_ssid must be 1-32 bytes without leading/trailing spaces"
  else if negb (String.eqb (wf_Password s) "") && ((long (wf_Password s) <? 8) || (63 <? long (wf_Password s)))
  then Some "wifi_password must be an 8-63 character WPA passphrase"
  else None.

Inductive WifiPlan : Type :=
| WifiWrites (p : SetParameterPayload) (detail : string)
| WifiRolesUnknown (refresh : list string)
| WifiRefused (e : string).

(** What is written for a setting that is set; [slot] finds where. *)
Definition set_if {A} (o : option A) (slot : result string) (value : A → string) (type : string)
  : result (list parameterInput) :=
  match o with
  | None => Ok []
  | Some v => try path <- slot; Ok [mkParameterInput path (value v) type ""]
  end.

Definition nonempty (s : string) : option string := if String.eqb s "" then None else Some s.

Definition settings_writes (s : wifiSettings) (ssid password enabled : result string) : result (list parameterInput) :=
  try a <- set_if (nonempty (wf_SSID s)) ssid id "xsd:string";
  try b <- set_if (nonempty (wf_Password s)) password id "xsd:string";
  try c <- set_if (wf_Enabled s) enabled cwmpBool "xsd:boolean";
  Ok (a ++ b ++ c).

(** The path of a slot that can be written. *)
Definition writable_slot (what : string) (n : WiFiNetwork) (s : option (string * bool)) : result string :=
  match s with
  | Some (path, true) => Ok path
  | _ => Err (what ++ " of network " ++ Itoa (wn_Instance n) ++ " is not writable")%string
  end.

Definition network_writes (s : wifiSettings) (n : WiFiNetwork) : result (list parameterInput) :=
  settings_writes s (writable_slot "SSID name" n (wn_NamePath n)) (writable_slot "passphrase" n (wn_PassphrasePath n))
    (writable_slot "enable flag" n (wn_EnablePath n)).

Fixpoint networks_writes (s : wifiSettings) (l : list WiFiNetwork) : result (list parameterInput) :=
  match l with
  | [] => Ok []
  | n :: rest => try a <- network_writes s n; try b <- networks_writes s rest; Ok (a ++ b)
  end.

Definition network_label (n : WiFiNetwork) : string :=
  ("SSID " ++ Itoa (wn_Instance n) ++ (if String.eqb (wn_Band n) "" then "" else " (" ++ wn_Band n ++ ")"))%string.

(** [fmt.Errorf(prefix + w, err)] *)
Definition wrapped {A} (prefix : string) (r : result A) : result A :=
  match r with Err e => Err (prefix ++ e)%string | Ok a => Ok a end.

Section Plan.
Context (dict : result Dictionary) (rng : string → gmap string bool → list (string * bool)).

(** The view of a device from its discovered names and its cache. *)
Definition wifi_view (names : gmap string bool) (cache : Cache) : WiFiNetworks :=
  ResolveWiFiNetworks names cache (rng "access points" names) (rng "ssids" names) (λ obj, rng obj names).

Definition built_plan (writes : result (list parameterInput)) (detail : string) : WifiPlan :=
  match try ws <- writes; buildSetParameterPayload dict ws with
  | Ok p => WifiWrites p detail
  | Err e => WifiRefused e
  end.

Definition planWiFiWrites (root : DataModelRoot) (names : option (gmap string bool)) (cache : Cache) (s : wifiSettings) : WifiPlan :=
  match root with
  | RootIGD1 =>
      built_plan (settings_writes s (wrapped "Wi-Fi SSID: " (ResolveWritablePath root WiFiSSID names))
                    (wrapped "Wi-Fi passphrase: " (ResolveWritablePath root WiFiKeyPassphrase names))
                    (wrapped "Wi-Fi enable: " (ResolveWritablePath root WiFiEnable names))) "TR-098 WLANConfiguration.1"
  | _ =>
      let names := default ∅ names in
      if (size names =? 0)%nat
      then WifiRefused "run parameter discovery first: Wi-Fi networks are resolved from the discovered tree"
      else
        let view := wifi_view names cache in
        if bool_decide (wv_Networks view = [])
        then WifiRefused "device has no Device.WiFi.SSID networks (Wi-Fi may be managed by its gateway)"
        else if negb (wv_Complete view) then WifiRolesUnknown (wv_RefreshPaths view)
        else
          let primary := PrimaryWiFiNetworks view in
          if bool_decide (primary = []) then WifiRefused "device has no primary (enabled, non-guest) Wi-Fi network"
          else built_plan (networks_writes s primary) (Join (network_label <$> primary) " + ")
  end.
End Plan.
