(* ===== verification/Inform.v ===== *)
(** * Inform ([cmd/acs/session.go], [enforce.go], [provision.go], [mesh.go])

    [handleInform]: the device claims an identity, the credential of the request
    must agree with it, and then everything an Inform sets in motion runs: the
    registry and the parameter cache, policies, onboarding, provisioning, the
    recovery of what an earlier session left behind, and the new session.

    Each part draws its identifiers from a stream of its own.  The device that
    the later parts work with is the row as the upsert returned it.  Value-change
    audit records are not state of the model. *)

From S2P Require Import Prelude GoStrings Regex Protected Json Cwmp JobModel JobStore Discovery Devices Credentials ParamCache.
From S2P Require Import NetGuard Adapters Policies Onboarding Sessions Render Gateway.

Record InformConfig : Type := mkInformConfig {
  ic_policies : PolicyTable;
  ic_templates : TemplateTable;
  ic_catalogs : list Catalog;
  ic_shared_bootstrap_only : bool;
  ic_insights_interval : GoDuration;
  ic_last_sample : string → option GoTime
}.

(** [lastTried] is memory of the process. *)
Record InformState : Type := mkInformState {
  is_gateway : Gateway;
  is_last_tried : gmap string GoTime
}.

Inductive InformReply : Type :=
| InformBadRequest
| InformForbidden
| InformError
| InformOk (session : string) (body : string).

(** Sixteen streams of identifiers out of one. *)
Definition stream (k : nat) (env : Env) : Env :=
  mkEnv (e_now env) (λ n, e_fresh env (16 * n + k)%nat) (λ n, e_uuid env (16 * n + k)%nat) (e_rpc_id env) (e_owner env)
    (e_locked env) (e_range env).

(** ** What the parameter list says of reachability *)

Definition name_in (names : list string) (p : ParameterValueStruct) : bool := existsb (String.eqb (pv_Name p)) names.

Definition extractConnectionRequestURL (list : list ParameterValueStruct) : string :=
  match List.find (name_in ["Device.ManagementServer.ConnectionRequestURL";
                            "InternetGatewayDevice.ManagementServer.ConnectionRequestURL"]) list with
  | Some p => pv_Value p
  | None => EmptyString
  end.

(** The address and the NAT flag, when an address was reported. *)
Definition extractSTUNStatus (list : list ParameterValueStruct) : option (string * bool) :=
  let '(addr, nat) := foldl (λ '(addr, nat) p,
      if name_in ["Device.ManagementServer.UDPConnectionRequestAddress";
                  "InternetGatewayDevice.ManagementServer.UDPConnectionRequestAddress"] p then (Some (pv_Value p), nat)
      else if name_in ["Device.ManagementServer.NATDetected"; "InternetGatewayDevice.ManagementServer.NATDetected"] p
      then (addr, String.eqb (pv_Value p) "1" || EqualFold (pv_Value p) "true")
      else (addr, nat)) (None, false) list in
  match addr with Some a => Some (a, nat) | None => None end.

(** ** Profiles *)

Definition matched_by_text (m : MatchedBy) : string := match m with ByModel => "model" | ByVendor => "vendor" end.

Definition assignDeviceProfile (catalogs : list Catalog) (now : GoTime) (dev : string) (id : Cwmp.DeviceID) (g : Gateway) : Gateway :=
  match MatchFirmwareProfile catalogs (dev_Manufacturer id) (dev_ProductClass id) (Firmware (GetCache (g_params g) dev)) with
  | None => on_devices (ClearProfileAssignment now dev) g
  | Some m =>
      let c := pm_Catalog m in
      on_devices (λ t, (AssignProfile now dev (ProfileID c) (matched_by_text (pm_MatchedBy m)) (pm_Qualified m)
        [("manufacturer", dev_Manufacturer id); ("product_class", dev_ProductClass id); ("catalog_vendor", cat_Vendor c);
         ("catalog_model", cat_Model c); ("spec_version", cat_SpecVersion c); ("source", "cwmp_inform")] t).2) g
  end.

(** ** Policies and templates *)

Definition policy_write (p : PolicyRow) : json :=
  encode_SetParameter (mkSetParameterPayload "" false []
    [mkParameterWrite (po_ParameterName p) (po_DesiredValue p) "xsd:string" ""] false false).

(** The reported value of the parameter, when it differs from the desired one. *)
Definition drifted (reported : gmap string string) (p : PolicyRow) : bool :=
  match reported !! po_ParameterName p with
  | Some actual => negb (String.eqb actual (po_DesiredValue p))
  | None => false
  end.

(** One SET_PARAMETER for each (payload, creator); a refused one is logged. *)
Fixpoint queue_all (env : Env) (dev : string) (writes : list (json * string)) (i : nat) (jobs : gmap string Job)
  : gmap string Job :=
  match writes with
  | [] => jobs
  | (payload, creator) :: rest =>
      queue_all env dev rest (S i)
        (Create false (e_fresh env i) (e_now env) dev TypeSetParameter payload creator jobs).2
  end.

Definition policy_job (p : PolicyRow) : json * string := (policy_write p, ("policy:" ++ po_Name p)%string).

Definition enforcePolicies (policies : PolicyTable) (env : Env) (device : Device) (reported : list ParameterValueStruct)
    (g : Gateway) : Gateway :=
  match reported with
  | [] => g
  | _ =>
      match ForDevice policies (d_Manufacturer device) (d_ProductClass (d_identity device))
              (d_CustomerID (d_ownership device)) with
      | Err _ => g
      | Ok pols =>
          on_jobs (queue_all env (d_ID (d_identity device))
                     (policy_job <$> List.filter (drifted (actual_of reported)) pols) 0) g
      end
  end.

Definition template_write (t : Template) : json :=
  encode_SetParameter (mkSetParameterPayload "" false []
    ((λ p, mkParameterWrite (pw_Name p) (pw_Value p) (pw_Type p) "") <$> te_Parameters t) true false).

Definition template_job (t : Template) : json * string := (template_write t, ("template:" ++ te_Name t)%string).

Definition applyAutoProvisioningTemplates (templates : TemplateTable) (env : Env) (device : Device) (g : Gateway) : Gateway :=
  match MatchingAutoApply templates (d_Manufacturer device) (d_ProductClass (d_identity device))
          (d_CustomerID (d_ownership device)) with
  | Err _ => g
  | Ok ts => on_jobs (queue_all env (d_ID (d_identity device)) (template_job <$> ts) 0) g
  end.

(** ** Discovery and reads *)

Definition autoDiscoverParameters (env : Env) (device : Device) (g : Gateway) : Gateway :=
  let dev := d_ID (d_identity device) in
  let '(root, fallback) := match d_DataModelRoot device with
                           | RootIGD1 => ("InternetGatewayDevice.", "Device.")
                           | _ => ("Device.", "InternetGatewayDevice.")
                           end in
  if is_some (ActiveDiscovery (g_jobs g) dev) then g
  else on_jobs (λ j, (CreateWithMaxAttempts false (e_fresh env 0%nat) (e_now env) dev TypeParameterDiscovery
         (encode_ParameterDiscovery (mkParameterDiscoveryPayload root fallback false true "" [] ∅ ∅ [] ∅
            (Firmware (GetCache (g_params g) dev)) ∅ false))
         "system:bootstrap-discovery" DiscoveryMaxObjects j).2) g.

Definition refreshGatewayInfoOnBoot (env : Env) (dev : string) (g : Gateway) : Gateway :=
  match GetNames (g_params g) dev with
  | None => g
  | Some (names, _) => queue_read (e_fresh env 0%nat) (e_now env) dev "system:gateway-info" (GatewayInfoReadPaths names) g
  end.

(** Satellites that named this device before it was registered. *)
Definition adoptMeshSatellites (now : GoTime) (device : Device) (g : Gateway) : Gateway :=
  on_devices (AdoptSatellites now device) g.

(** A full event code, unlike [HasEventCode]. *)
Definition informHasEvent (i : Inform) (code : string) : bool :=
  existsb (λ e, EqualFold (TrimSpace (ev_EventCode e)) code) (inf_Event i).

(** ** Wi-Fi insights ([wifi_insights.go]) *)

Definition element_node : list regex :=
  [RLit "Device.WiFi.DataElements.Network.Device."; RDigits].
Definition element_bss : list regex :=
  element_node ++ [RLit ".Radio."; RDigits; RLit ".BSS."; RDigits; RLit "."].

Definition ssidStatsRE : regex :=
  RCat [RLit "Device.WiFi.SSID."; RDigits; RLit ".Stats.Bytes"; RAlt (RLit "Sent") (RLit "Received")].
Definition bssSSIDRE : regex := RCat (element_bss ++ [RLit "SSID"]).
Definition meshNodeMACRE : regex :=
  RCat (element_node ++ [RLit "."; RAlt (RLit "ID") (RLit "MultiAPDevice.Backhaul.MACAddress")]).
Definition apAssocObj : regex := RCat [RLit "Device.WiFi.AccessPoint."; RDigits; RLit ".AssociatedDevice."].
Definition staObj : regex := RCat (element_bss ++ [RLit "STA."]).

Definition insights_path (path : string) : bool :=
  MatchString ssidStatsRE path || MatchString bssSSIDRE path || MatchString meshNodeMACRE path
  || MatchString apAssocObj path || MatchString staObj path || String.eqb path "Device.Hosts.Host.".

Definition InsightsReadPaths (names : gmap string bool) : list string :=
  SortStrings (List.filter insights_path (map_to_list names).*1).

Definition recently (now : GoTime) (interval : GoDuration) (t : option GoTime) : bool :=
  match t with Some t => now - t <? interval | None => false end.

Definition maybeQueueWiFiInsights (cfg : InformConfig) (env : Env) (dev : string) (st : InformState) : InformState :=
  let interval := ic_insights_interval cfg in
  let now := e_now env in
  let g := is_gateway st in
  if interval <=? 0 then st
  else if recently now interval (is_last_tried st !! dev) then st
  else
    let tried := <[dev := now]> (is_last_tried st) in
    if recently now interval (ic_last_sample cfg dev) then mkInformState g tried
    else if HasOpenJobByCreator (g_jobs g) dev "system:wifi-insights" then mkInformState g tried
    else if is_some (ActiveDiscovery (g_jobs g) dev) then mkInformState g tried
    else
      match GetNames (g_params g) dev with
      | None => mkInformState g tried
      | Some (names, _) =>
          mkInformState (queue_read (e_fresh env 0%nat) now dev "system:wifi-insights" (InsightsReadPaths names) g) tried
      end.

(** ** The handler *)

Definition set_credentials (c : Credentials) (g : Gateway) : Gateway :=
  let w := g_world g in
  set_world (mkWorld (ow_sales w) (ow_plans w) (ow_templates w) c (ow_devices w) (ow_params w) (ow_jobs w)) g.

Definition authenticated_hook (now : GoTime) (username : string) (g : Gateway) : Gateway :=
  let '(creds, devs) := OnAuthenticated now username (ow_credentials (g_world g)) (g_devices g) in
  on_devices (λ _, devs) (set_credentials creds g).

Section Handler.
(** The host of a URL ([url.Parse], [Hostname]); [None] when it does not parse. *)
Context (url_hostname : string → option string).

Definition connectionRequestBehindNAT (rawURL informSource : string) : option bool :=
  match url_hostname (TrimSpace rawURL) with
  | None => None
  | Some host =>
      match ParseIP host, ParseIP informSource with
      | Some a, Some b => Some (negb (a =? b))
      | _, _ => None
      end
  end.

Definition record_reachability (now : GoTime) (dev source : string) (list : list ParameterValueStruct) (g : Gateway) : Gateway :=
  let url := extractConnectionRequestURL list in
  let g1 := if String.eqb url "" then g
            else
              let g' := on_devices (UpdateConnectionRequestURL now dev url) g in
              match connectionRequestBehindNAT url source with
              | Some behind => on_devices (ClassifyConnectionRequestNAT now dev behind) g'
              | None => g'
              end in
  match extractSTUNStatus list with
  | Some (addr, nat) => on_devices (UpdateSTUNStatus now dev addr nat) g1
  | None => g1
  end.

(** The onboarding pass with the device as the upsert returned it. *)
Definition reconcileOnInform (env : Env) (device : Device) (g : Gateway) : Gateway :=
  let dev := d_ID (d_identity device) in
  let names := match GetNames (g_params g) dev with Some (n, _) => n | None => ∅ end in
  set_world (reconcileOnboarding (e_fresh env) (e_now env) (e_range env bool names).*1
               (e_range env CachedValue (GetCache (g_params g) dev)) true device (g_world g)).1 g.

(** What every Inform sets in motion for the registered device. *)
Definition inform_on_contact (cfg : InformConfig) (env : Env) (source : string) (inform : Inform) (id : Cwmp.DeviceID)
    (authMode : AuthMode) (device : Device) (g : Gateway) : Gateway :=
  let now := e_now env in
  let dev := d_ID (d_identity device) in
  let list := inf_ParameterList inform in
  let g1 := on_devices (UpdateAuthMode dev authMode) g in
  let g2 := match list with
            | [] => g1
            | _ => record_reachability now dev source list (cacheParameterValues (stream 1 env) dev list "INFORM" g1)
            end in
  let g3 := assignDeviceProfile (ic_catalogs cfg) now dev id g2 in
  let g4 := enforcePolicies (ic_policies cfg) (stream 2 env) device list g3 in
  reconcileOnInform (stream 3 env) device g4.

(** What a bootstrap or a boot adds. *)
Definition inform_on_boot (cfg : InformConfig) (env : Env) (inform : Inform) (device : Device) (g : Gateway) : Gateway :=
  if HasEventCode inform "0"
  then adoptMeshSatellites (e_now env) device
         (autoDiscoverParameters (stream 5 env) device
            (applyAutoProvisioningTemplates (ic_templates cfg) (stream 4 env) device g))
  else if informHasEvent inform "1 BOOT" then refreshGatewayInfoOnBoot (stream 6 env) (d_ID (d_identity device)) g
  else g.

(** From the registered device to the open session. *)
Definition inform_before_session (cfg : InformConfig) (env : Env) (source : string) (inform : Inform) (id : Cwmp.DeviceID)
    (authMode : AuthMode) (device : Device) (g : Gateway) : Gateway :=
  let g1 := inform_on_boot cfg env inform device (inform_on_contact cfg env source inform id authMode device g) in
  if HasEventCode inform "6"
  then on_devices (MarkInformedAfterConnectionRequest (e_now env) (d_ID (d_identity device))) g1 else g1.

Definition inform_recovery (env : Env) (inform : Inform) (dev : string) (g : Gateway) : Gateway :=
  releaseAwaitingDiagnostics env dev
    (recoverDroppedSessionJobs env dev (inf_Event inform) (recoverAbandonedDiscovery (stream 8 env) dev g)).

(** The identity the request's credential allows, with the credential's first
    use recorded. *)
Definition admit_identity (now : GoTime) (bound : inboundIdentity) (naturalKey : string) (g : Gateway) : option Gateway :=
  if String.eqb (credentialDeviceID bound) "" then Some g
  else match GetByOUIserial (g_devices g) naturalKey with
       | Some d =>
           if String.eqb (d_ID (d_identity d)) (credentialDeviceID bound)
           then Some (if String.eqb (credentialUsername bound) "" then g else authenticated_hook now (credentialUsername bound) g)
           else None
       | None => None
       end.

Definition handleInform (cfg : InformConfig) (env : Env) (source : string) (inform : Inform) (authMode : AuthMode)
    (bound : inboundIdentity) (respID ns : string) (st : InformState) : InformReply * InformState :=
  let g := is_gateway st in
  let at_ g' := mkInformState g' (is_last_tried st) in
  let id := Normalized (inf_DeviceId inform) in
  if String.eqb (dev_OUI id) "" || String.eqb (dev_SerialNumber id) "" then (InformBadRequest, st)
  else
    let naturalKey := NaturalKey id in
    if sharedCredential bound && ic_shared_bootstrap_only cfg && is_some (GetByOUIserial (g_devices g) naturalKey)
    then (InformForbidden, st)
    else
      match admit_identity (e_now env) bound naturalKey g with
      | None => (InformForbidden, st)
      | Some g1 =>
          if negb (String.eqb (mtlsNaturalKey bound) "") && negb (String.eqb (mtlsNaturalKey bound) naturalKey)
          then (InformForbidden, at_ g1)
          else
            match UpsertFromInform (e_uuid (stream 0 env) 0%nat) (e_now env) id (EventCodes inform) (g_devices g1) with
            | (Err _, devs) => (InformError, at_ (on_devices (λ _, devs) g1))
            | (Ok device, devs) =>
                let dev := d_ID (d_identity device) in
                let g2 := inform_before_session cfg env source inform id authMode device (on_devices (λ _, devs) g1) in
                match OpenSession (e_uuid (stream 7 env) 0%nat) (e_now env) dev (EventCodes inform) ns (g_sessions g2) with
                | (Err _, s) => (InformError, at_ (on_sessions (λ _, s) g2))
                | (Ok session, s) =>
                    (InformOk (ss_ID session) (RenderInformResponseNS respID ns),
                     maybeQueueWiFiInsights cfg (stream 9 env) dev
                       (at_ (inform_recovery env inform dev (on_sessions (λ _, s) g2))))
                end
            end
      end.

End Handler.
