(* ===== verification/InformLaws.v ===== *)
(** * What an Inform may change

    Every part of [handleInform] after the registration but one is a step of
    the device that informs ([acts_for]); the registration writes the one row of
    the natural key it claims, and a bootstrap links the mesh satellites that
    were waiting for that key. *)

From S2P Require Import Prelude GoStrings Json Cwmp JobModel JobStore JobLaws Discovery Devices Credentials.
From S2P Require Import ParamCache ParamTheorems NetGuard Adapters Policies Onboarding OnboardingLaws Sessions Render.
From S2P Require Import Gateway GatewayLaws Inform.

(** ** Steps of the device *)

Section Parts.
Context (hash : json → string) (url_hostname : string → option string) (dev : string).

Abbreviation acts := (acts_for hash dev).

Lemma acts_on_device f g : (∀ d, d_identity (f d) = d_identity d) → acts g (on_devices (on_device dev f) g).
Proof. intros Hf. by apply acts_devices, devices_for_alter. Qed.

Lemma devices_for_AssignProfile now id by_ q ev (t : Devices) :
  devices_for dev t (AssignProfile now dev id by_ q ev t).2.
Proof. unfold AssignProfile. repeat case_match; try done; by apply devices_for_alter. Qed.

Lemma acts_profile catalogs now id g : acts g (assignDeviceProfile catalogs now dev id g).
Proof.
  unfold assignDeviceProfile. destruct (MatchFirmwareProfile _ _ _ _); [|by apply acts_on_device].
  apply acts_devices, devices_for_AssignProfile.
Qed.

Lemma acts_reachability now source list g : acts g (record_reachability url_hostname now dev source list g).
Proof.
  unfold record_reachability. cbv zeta. set (g1 := if String.eqb _ _ then g else _).
  assert (acts g g1) as H1.
  { subst g1. destruct (String.eqb _ _); [done|]. set (g' := on_devices _ g).
    assert (acts g g') by (by apply acts_on_device).
    destruct (connectionRequestBehindNAT _ _ _) as [b|]; [|done]. etrans; [done|].
    apply acts_on_device. intros d. cbv zeta. by repeat case_match. }
  destruct (extractSTUNStatus list) as [[addr nat]|]; [|done]. etrans; [exact H1|]. by apply acts_on_device.
Qed.

Lemma jobs_for_queue_all env writes i tab : jobs_for hash dev tab (queue_all env dev writes i tab).
Proof.
  revert i tab. induction writes as [|[p c] writes IH]; intros i tab; [done|]. cbn [queue_all].
  etrans; [apply jobs_for_Create|apply IH].
Qed.

Lemma acts_policies policies env d reported g :
  d_ID (d_identity d) = dev → acts g (enforcePolicies policies env d reported g).
Proof.
  intros Hd. unfold enforcePolicies. destruct reported; [done|]. destruct (ForDevice _ _ _ _); [|done].
  rewrite Hd. apply acts_job. intros. apply jobs_for_queue_all.
Qed.

Lemma acts_templates templates env d g :
  d_ID (d_identity d) = dev → acts g (applyAutoProvisioningTemplates templates env d g).
Proof.
  intros Hd. unfold applyAutoProvisioningTemplates. destruct (MatchingAutoApply _ _ _ _); [|done].
  rewrite Hd. apply acts_job. intros. apply jobs_for_queue_all.
Qed.

Lemma acts_auto_discover env d g : d_ID (d_identity d) = dev → acts g (autoDiscoverParameters env d g).
Proof.
  intros Hd. unfold autoDiscoverParameters. rewrite Hd.
  destruct (match d_DataModelRoot d with RootIGD1 => _ | _ => _ end) as [root fb].
  destruct (is_some _); [done|]. apply acts_job. auto with acs.
Qed.

Lemma acts_gateway_info env g : acts g (refreshGatewayInfoOnBoot env dev g).
Proof. unfold refreshGatewayInfoOnBoot. destruct (GetNames _ _) as [[names c]|]; [|done]. apply acts_queue_read. Qed.

Lemma acts_insights cfg env st :
  acts (is_gateway st) (is_gateway (maybeQueueWiFiInsights cfg env dev st)).
Proof.
  unfold maybeQueueWiFiInsights. cbv zeta.
  destruct (_ <=? 0); [done|]. destruct (recently _ _ (is_last_tried st !! dev)); [done|].
  destruct (recently _ _ _); [done|]. destruct (HasOpenJobByCreator _ _ _); [done|].
  destruct (is_some _); [done|]. destruct (GetNames _ _) as [[names c]|]; [|done]. apply acts_queue_read.
Qed.

Lemma acts_reconcile_inform env d g :
  gateway_ok g → d_ID (d_identity d) = dev → dev ≠ EmptyString → acts g (reconcileOnInform env d g).
Proof. intros. unfold reconcileOnInform. cbv zeta. by apply acts_reconcile_with. Qed.

Lemma acts_recovery env inform g : gateway_ok g → acts g (inform_recovery env inform dev g).
Proof.
  intros Hok. unfold inform_recovery.
  pose proof (acts_recover_discovery hash dev (stream 8 env) g Hok) as H1. set (g1 := recoverAbandonedDiscovery _ _ _) in *.
  pose proof (acts_recover_dropped hash env dev (inf_Event inform) g1 (acts_for_ok _ _ _ _ H1 Hok)) as H2.
  etrans; [exact H1|]. etrans; [exact H2|]. apply acts_release.
Qed.

Lemma acts_open uuid now codes ns g s t :
  OpenSession uuid now dev codes ns (g_sessions g) = (s, t) → acts g (on_sessions (λ _, t) g).
Proof.
  unfold OpenSession. destruct (g_sessions g !! uuid) eqn:E; simpl; intros [= <- <-]; [by destruct g|].
  constructor; try done. simpl. split_and!.
  - intros Hk. by apply map_Forall_insert_2.
  - intros k s Hs. exists s. split; [|done]. rewrite lookup_insert_ne; [done|congruence].
  - intros k s Hs. destruct (decide (k = uuid)) as [->|]; [|by rewrite lookup_insert_ne].
    rewrite lookup_insert_eq, E. split; intros [= <-]. done.
Qed.

(** The parts up to the bootstrap work. *)
Lemma acts_on_contact cfg env source inform id mode d g :
  gateway_ok g → d_ID (d_identity d) = dev → dev ≠ EmptyString →
  acts g (inform_on_contact url_hostname cfg env source inform id mode d g).
Proof.
  intros Hok Hd Hne. unfold inform_on_contact. rewrite Hd. cbv zeta.
  set (g1 := on_devices (UpdateAuthMode dev mode) g).
  assert (acts g g1) as H1 by (by apply acts_on_device).
  set (g2 := match inf_ParameterList inform with [] => g1 | _ => _ end).
  assert (acts g g2) as H2.
  { subst g2. etrans; [exact H1|]. destruct (inf_ParameterList inform); [done|].
    etrans; [apply acts_cache|apply acts_reachability]. }
  set (g3 := assignDeviceProfile _ _ _ _ g2). assert (acts g g3) as H3 by (etrans; [exact H2|apply acts_profile]).
  set (g4 := enforcePolicies _ _ _ _ g3). assert (acts g g4) as H4 by (etrans; [exact H3|by apply acts_policies]).
  etrans; [exact H4|]. apply acts_reconcile_inform; [by eapply acts_for_ok|done|done].
Qed.

End Parts.

(** ** The registration *)

(** The one thing an Inform of [dev] does to another row: a satellite that had
    named the natural key of [dev] and had no gateway is linked to [dev]. *)
Definition adopted_by (dev key : string) (d d' : Device) : Prop :=
  waiting_for dev key d = true ∧ ∃ now, d' = set_link now (Some key) (Some dev) d.

(** The row of [dev], if there was one, keeps its identity; every other row is
    as it was, or was waiting for [dev] and is linked to it. *)
Definition registers_for (dev : string) (t t' : Devices) : Prop :=
  (∀ k, k ≠ dev → t' !! k = t !! k ∨
     ∃ d d' gw, t !! k = Some d ∧ t' !! k = Some d' ∧ t' !! dev = Some gw ∧
       adopted_by dev (d_OUISerial (d_identity gw)) d d') ∧
  ∀ d, t !! dev = Some d → ∃ d', t' !! dev = Some d' ∧ d_identity d' = d_identity d.

(** A credential of another device is as it was. *)
Definition credentials_for (dev : string) (t t' : Credentials) : Prop :=
  ∀ k c, cr_DeviceID c ≠ dev → t !! k = Some c ↔ t' !! k = Some c.

(** [acts_for], with the row of [dev] possibly new and its credential possibly
    used for the first time. *)
Record informs_for (hash : json → string) (dev : string) (g g' : Gateway) : Prop := mk_informs_for {
  if_jobs : jobs_for hash dev (g_jobs g) (g_jobs g');
  if_devices : registers_for dev (g_devices g) (g_devices g');
  if_params : params_for dev (g_params g) (g_params g');
  if_sales : sales_for dev (ow_sales (g_world g)) (ow_sales (g_world g'));
  if_sessions : sessions_for dev (g_sessions g) (g_sessions g');
  if_secrets : secrets_for dev (g_secrets g) (g_secrets g');
  if_credentials : credentials_for dev (ow_credentials (g_world g)) (ow_credentials (g_world g'));
  if_settings : (ow_plans (g_world g'), ow_templates (g_world g')) = (ow_plans (g_world g), ow_templates (g_world g))
}.

Lemma adopted_not_waiting dev key key' d d' : adopted_by dev key d d' → waiting_for dev key' d' = false.
Proof. intros (_ & now & ->). unfold waiting_for. simpl. by rewrite andb_false_r. Qed.

#[global] Instance registers_for_preorder dev : PreOrder (registers_for dev).
Proof.
  split; [split; eauto|]. intros a b c [H1 I1] [H2 I2]. split.
  - intros k Hk. destruct (H1 k Hk) as [E1|(d & d1 & gw & Ha & Hb & Hg & Had)].
    + destruct (H2 k Hk) as [E2|(d & d2 & gw & Hb & Hrest)]; [left; congruence|].
      right. exists d, d2, gw. split; [congruence|done].
    + right. destruct (I2 _ Hg) as (gw' & Hg' & Ei). destruct (H2 k Hk) as [E2|(d' & d2 & gw2 & Hb2 & _ & _ & Had2)].
      * exists d, d1, gw'. rewrite E2, Ei. done.
      * simplify_eq. pose proof (adopted_not_waiting _ _ (d_OUISerial (d_identity gw2)) _ _ Had) as Hw.
        destruct Had2 as [Hw2 _]. congruence.
  - intros d Hd. destruct (I1 _ Hd) as (d1 & Hd1 & E1), (I2 _ Hd1) as (d2 & Hd2 & E2). exists d2. split; congruence.
Qed.
#[global] Instance credentials_for_preorder dev : PreOrder (credentials_for dev).
Proof. split; [done|]. intros a b c H1 H2 k r Hr. by rewrite (H1 k r Hr), (H2 k r Hr). Qed.
#[global] Instance informs_for_preorder hash dev : PreOrder (informs_for hash dev).
Proof.
  split; [intros g; by constructor|]. intros a b c [] []. constructor; [etrans; eassumption..|congruence].
Qed.

Lemma devices_for_registers dev t t' : devices_for dev t t' → registers_for dev t t'.
Proof.
  intros [Hk Hi]. split; [by left; apply Hk|]. intros d Hd. specialize (Hi dev). rewrite Hd in Hi.
  destruct (t' !! dev) as [d'|]; simplify_eq/=. eauto.
Qed.

Lemma acts_informs hash dev g g' : acts_for hash dev g g' → informs_for hash dev g g'.
Proof.
  intros [Hj Hd Hp Hs Hse Hsec Hset]. unfold settings in Hset. injection Hset as E1 E2 E3.
  constructor; try done; [by apply devices_for_registers|by rewrite E3|congruence].
Qed.

(** The row that [UpsertFromInform] returns is in the table it leaves. *)
Lemma upsert_registers key fresh f t d t' :
  devices_ok t → t !! EmptyString = None → d_ID (d_identity fresh) ≠ EmptyString →
  d_OUISerial (d_identity fresh) = key → (∀ d, d_identity (f d) = d_identity d) →
  upsert key fresh f t = (Ok d, t') →
  let dev := d_ID (d_identity d) in
  registers_for dev t t' ∧ devices_ok t' ∧ t' !! EmptyString = None ∧ dev ≠ EmptyString ∧ t' !! dev = Some d ∧
  d_OUISerial (d_identity d) = key.
Proof.
  intros Hok He Hne Hk Hf H. pose proof (devices_ok_upsert t key fresh f Hok Hk Hf) as Hok'. rewrite H in Hok'.
  simpl in Hok'. unfold upsert in H. destruct (GetByOUIserial t key) as [d0|] eqn:Eg.
  - injection H as <- <-. apply GetByOUIserial_some in Eg as [[k Hd0] Hk0].
    pose proof (dev_keyed _ Hok _ _ Hd0) as Hid. simpl in Hid. rewrite Hf, Hid in *. cbv zeta.
    assert (k ≠ EmptyString) by congruence. rewrite lookup_insert_ne, lookup_insert_eq by done. split_and!; try done.
    split; [intros j Hj; left; by rewrite lookup_insert_ne|]. rewrite lookup_insert_eq. intros d Hd. simplify_eq. eauto.
  - destruct (t !! d_ID (d_identity fresh)) eqn:En; [done|]. simpl in H. injection H as <- <-. cbv zeta.
    rewrite lookup_insert_ne, lookup_insert_eq by done. split_and!; try done.
    split; [intros j Hj; left; by rewrite lookup_insert_ne|]. congruence.
Qed.

(** ** The first use of a credential *)

Lemma credentials_for_activated dev now id c (t : Credentials) :
  credentials_ok t → t !! id = Some c → cr_DeviceID c = dev → credentials_for dev t (activated now c <$> t).
Proof.
  intros Hok Hc Hd k r Hr. rewrite lookup_fmap. destruct (t !! k) as [r0|] eqn:Hr0; simpl; [|done].
  assert (cr_DeviceID (activated now c r0) = cr_DeviceID r0) as Hdev by (unfold activated; by repeat case_match).
  assert (cr_DeviceID r0 ≠ dev → activated now c r0 = r0) as Hsame.
  { intros Hn. unfold activated, of_device. destruct (String.eqb_spec (cr_DeviceID r0) (cr_DeviceID c)); [congruence|].
    simpl. destruct (String.eqb_spec (cr_ID r0) (cr_ID c)) as [E|]; [|done].
    pose proof (cred_keyed _ Hok _ _ Hc) as H1. pose proof (cred_keyed _ Hok _ _ Hr0) as H2. simpl in H1, H2.
    assert (r0 = c) by congruence. congruence. }
  split; intros [= E]; f_equal; [rewrite <- E; apply Hsame; congruence|].
  rewrite <- E. symmetry. apply Hsame. rewrite <- Hdev. congruence.
Qed.

Lemma LookupCWMPDigest_some (t : Credentials) u c : LookupCWMPDigest t u = Some c → ∃ k, t !! k = Some c.
Proof. unfold LookupCWMPDigest. intros H. apply newest_elem in H as [H _]. done. Qed.

(** Its use by [dev] leaves the credentials of the other devices alone. *)
Lemma informs_hook hash dev now u g :
  gateway_ok g → (∀ c, LookupCWMPDigest (ow_credentials (g_world g)) u = Some c → cr_DeviceID c = dev) →
  informs_for hash dev g (authenticated_hook now u g) ∧ gateway_ok (authenticated_hook now u g).
Proof.
  intros Hok Hu. unfold authenticated_hook, OnAuthenticated.
  assert (informs_for hash dev g (on_devices (λ _, g_devices g) (set_credentials (ow_credentials (g_world g)) g)) ∧
    gateway_ok (on_devices (λ _, g_devices g) (set_credentials (ow_credentials (g_world g)) g))) as Hid
    by (split; [by constructor|destruct Hok; by constructor]).
  destruct (LookupCWMPDigest _ u) as [c|] eqn:Ec; [|done]. destruct (has_status CredPending c); [|done].
  specialize (Hu c eq_refl). apply LookupCWMPDigest_some in Ec as [k Hk].
  pose proof (cred_keyed _ (go_credentials _ Hok) _ _ Hk) as Hck. simpl in Hck. subst k.
  pose proof (credentials_ok_activate now (cr_ID c) _ (go_credentials _ Hok)) as Hok'.
  rewrite (Activate_rows now (cr_ID c) _ c (go_credentials _ Hok) Hk) in *. simpl in Hok'. rewrite Hu.
  pose proof (devices_for_alter dev (λ d, let o := d_ownership d in
    if is_some (d_ReenrollUntil o) then set_ownership now (mkOwnership (d_CustomerID o) (d_SiteID o) (d_Tags o) None) d
    else d) (g_devices g) ltac:(intros d; cbv beta zeta; by destruct (is_some _))) as Hdev.
  split; [constructor; try done; [exact (devices_for_registers _ _ _ Hdev)|
    exact (credentials_for_activated _ _ _ _ _ (go_credentials _ Hok) Hk Hu)]|].
  destruct Hok. constructor; try done; [exact (devices_for_ok _ _ _ Hdev go_devices)|].
  destruct Hdev as [_ Hi]. specialize (Hi EmptyString). rewrite go_uuid in Hi.
  apply fmap_None in Hi. exact Hi.
Qed.

(** ** The whole handler *)

(** The device a per-device credential is bound to is the one of the credential
    its username names. *)
Definition bound_agrees (creds : Credentials) (bound : inboundIdentity) : Prop :=
  credentialDeviceID bound ≠ EmptyString →
  ∀ c, LookupCWMPDigest creds (credentialUsername bound) = Some c → cr_DeviceID c = credentialDeviceID bound.

(** [dev] is the registered device of natural key [key]. *)
Definition claims (g : Gateway) (key dev : string) : Prop :=
  ∃ d, g_devices g !! dev = Some d ∧ d_OUISerial (d_identity d) = key.

Lemma GetByOUIserial_claims g key d :
  gateway_ok g → GetByOUIserial (g_devices g) key = Some d → claims g key (d_ID (d_identity d)).
Proof.
  intros Hok Hd. apply GetByOUIserial_some in Hd as [[k Hk] E]. exists d. split; [|done].
  pose proof (dev_keyed _ (go_devices _ Hok) _ _ Hk) as Hi. simpl in Hi. by rewrite Hi.
Qed.

Lemma claims_unique g key dev dev' : gateway_ok g → claims g key dev → claims g key dev' → dev = dev'.
Proof. intros Hok (d & Hd & E) (d' & Hd' & E'). eapply (dev_unique _ (go_devices _ Hok)); eauto. congruence. Qed.

Lemma claims_registers g g' key dev k : registers_for dev (g_devices g) (g_devices g') → claims g key k → claims g' key k.
Proof.
  intros [Hk Hi] (d & Hd & E). destruct (decide (k = dev)) as [->|].
  - destruct (Hi _ Hd) as (d' & Hd' & E'). exists d'. split; congruence.
  - destruct (Hk k) as [Ek|(d0 & d' & gw & Hd0 & Hd' & _ & _ & now & ->)]; [done|exists d; by rewrite Ek|].
    exists (set_link now (Some (d_OUISerial (d_identity gw))) (Some dev) d0). split; [done|]. simpl. congruence.
Qed.

(** The adoption of waiting satellites by the device that registered. *)
Lemma adoption_informs hash now device g :
  let dev := d_ID (d_identity device) in
  gateway_ok g → claims g (d_OUISerial (d_identity device)) dev →
  informs_for hash dev g (adoptMeshSatellites now device g) ∧ gateway_ok (adoptMeshSatellites now device g).
Proof.
  cbv zeta. intros Hok (gw & Hgw & Ek). unfold adoptMeshSatellites, AdoptSatellites.
  set (dev := d_ID (d_identity device)) in *. set (key := d_OUISerial (d_identity device)) in *.
  set (t' := (update_where (waiting_for dev key) (set_link now (Some key) (Some dev)) (g_devices g)).1).
  pose proof (devices_ok_update_where (g_devices g) (waiting_for dev key) (set_link now (Some key) (Some dev))
    (go_devices _ Hok) ltac:(done)) as Hok'.
  assert (t' !! dev = Some gw) as Hgw'.
  { unfold t'. rewrite lookup_update_where, Hgw. simpl. unfold waiting_for, other_device.
    pose proof (dev_keyed _ (go_devices _ Hok) _ _ Hgw) as ->. by rewrite String.eqb_refl, andb_false_r. }
  split.
  - constructor; try done. change (registers_for dev (g_devices g) t'). split; [|naive_solver].
    intros k Hk. unfold t'. rewrite lookup_update_where. destruct (g_devices g !! k) as [d|] eqn:Hd; [|by left]. simpl.
    destruct (waiting_for dev key d) eqn:Hw; [|by left]. right. eexists d, _, gw. split_and!; [done..|].
    split; [by rewrite Ek|]. exists now. by rewrite Ek.
  - destruct Hok. constructor; try done. change (t' !! EmptyString = None). unfold t'.
    by rewrite lookup_update_where, go_uuid.
Qed.

(** The registration of the claimed device. *)
Lemma registration_informs hash env id codes g d devs :
  gateway_ok g → e_uuid env 0%nat ≠ EmptyString →
  UpsertFromInform (e_uuid (stream 0 env) 0%nat) (e_now env) id codes (g_devices g) = (Ok d, devs) →
  let dev := d_ID (d_identity d) in
  informs_for hash dev g (on_devices (λ _, devs) g) ∧ gateway_ok (on_devices (λ _, devs) g) ∧
  claims (on_devices (λ _, devs) g) (NaturalKey id) dev ∧ dev ≠ EmptyString.
Proof.
  intros Hok Hu H. apply upsert_registers in H as (H1 & H2 & H3 & H4 & H5 & H6); try done; [|apply Hok..].
  cbv zeta in *. split_and!; [by constructor| |by exists d|done]. destruct Hok. by constructor.
Qed.

(** What the identity check lets through. *)
Lemma admit_identity_ok hash now bound key g g1 :
  gateway_ok g → bound_agrees (ow_credentials (g_world g)) bound → admit_identity now bound key g = Some g1 →
  gateway_ok g1 ∧ (∀ dev, claims g key dev → informs_for hash dev g g1) ∧
  (credentialDeviceID bound = EmptyString ∧ g1 = g ∨ claims g key (credentialDeviceID bound)).
Proof.
  intros Hok Hb. unfold admit_identity. destruct (String.eqb_spec (credentialDeviceID bound) "") as [E|Hn].
  { intros [= <-]. split_and!; [done|done|auto]. }
  destruct (GetByOUIserial _ key) as [d|] eqn:Ed; [|done].
  destruct (String.eqb_spec (d_ID (d_identity d)) (credentialDeviceID bound)) as [E|]; [|done].
  apply (GetByOUIserial_claims _ _ _ Hok) in Ed. rewrite E in Ed. intros [= <-].
  destruct (String.eqb _ ""); [split_and!; [done|done|auto]|].
  destruct (informs_hook hash (credentialDeviceID bound) now (credentialUsername bound) g Hok (Hb Hn)) as [H1 H2].
  split_and!; [done| |auto]. intros dev Hd. by rewrite (claims_unique g key dev (credentialDeviceID bound)).
Qed.

Section Whole.
Context (hash : json → string) (url_hostname : string → option string).

(** The bootstrap work, for a device whose row has the key it registered with. *)
Lemma boot_informs cfg env inform device g :
  let dev := d_ID (d_identity device) in
  gateway_ok g → claims g (d_OUISerial (d_identity device)) dev →
  informs_for hash dev g (inform_on_boot cfg env inform device g) ∧ gateway_ok (inform_on_boot cfg env inform device g).
Proof.
  cbv zeta. intros Hok Hc. unfold inform_on_boot. set (dev := d_ID (d_identity device)) in *.
  destruct (HasEventCode inform "0").
  - set (g1 := autoDiscoverParameters _ _ _). assert (acts_for hash dev g g1) as H1.
    { etrans; [by apply (acts_templates hash dev)|by apply acts_auto_discover]. }
    pose proof (acts_for_ok _ _ _ _ H1 Hok) as Hok1. apply acts_informs in H1.
    destruct (adoption_informs hash (e_now env) device g1 Hok1) as [H2 Hok2];
      [eapply claims_registers; [apply (if_devices _ _ _ _ H1)|done]|].
    split; [etrans; [exact H1|exact H2]|done].
  - destruct (informHasEvent _ _); [|done]. pose proof (acts_gateway_info hash dev (stream 6 env) g) as H1.
    split; [by apply acts_informs|by eapply acts_for_ok].
Qed.

Lemma before_session_informs cfg env source inform id mode device g :
  let dev := d_ID (d_identity device) in
  let g' := inform_before_session url_hostname cfg env source inform id mode device g in
  gateway_ok g → dev ≠ EmptyString → claims g (d_OUISerial (d_identity device)) dev →
  informs_for hash dev g g' ∧ gateway_ok g'.
Proof.
  cbv zeta. intros Hok Hne Hc. unfold inform_before_session. set (dev := d_ID (d_identity device)) in *.
  pose proof (acts_on_contact hash url_hostname dev cfg env source inform id mode device g Hok eq_refl Hne) as H1.
  set (g1 := inform_on_contact _ _ _ _ _ _ _ _ _) in *. pose proof (acts_for_ok _ _ _ _ H1 Hok) as Hok1.
  apply acts_informs in H1. destruct (boot_informs cfg env inform device g1 Hok1) as [H2 Hok2];
    [eapply claims_registers; [apply (if_devices _ _ _ _ H1)|done]|].
  set (g2 := inform_on_boot _ _ _ _ _) in *. destruct (HasEventCode inform "6"); [|split; [by etrans|done]].
  pose proof (acts_on_device hash dev (λ d, let r := d_reach d in
    set_reach (d_LastUpdatedAt d) (mkReach (d_ConnectionRequestURL r) (d_ConnectionRequestMode r)
      (d_LastConnectionRequestAt r) (d_LastConnectionRequestStatus r) (Some (e_now env))
      (d_UDPConnectionRequestAddress r) (d_NATDetected r) (d_behind_nat r) (d_GatewayOUISerial r)
      (d_GatewayDeviceID r)) d) g2 ltac:(done)) as H3.
  split; [etrans; [exact H1|]; etrans; [exact H2|by apply acts_informs, H3]|by eapply (acts_for_ok _ _ _ _ H3)].
Qed.

(** Everything up to the session. *)
Lemma registered_inform cfg env source inform mode bound g g1 device devs :
  let id := Normalized (inf_DeviceId inform) in
  let dev := d_ID (d_identity device) in
  let g3 := inform_before_session url_hostname cfg env source inform id mode device (on_devices (λ _, devs) g1) in
  gateway_ok g → e_uuid env 0%nat ≠ EmptyString → bound_agrees (ow_credentials (g_world g)) bound →
  admit_identity (e_now env) bound (NaturalKey id) g = Some g1 →
  UpsertFromInform (e_uuid (stream 0 env) 0%nat) (e_now env) id (EventCodes inform) (g_devices g1) = (Ok device, devs) →
  informs_for hash dev g g3 ∧ gateway_ok g3 ∧ claims g3 (NaturalKey id) dev ∧
  (credentialDeviceID bound = EmptyString ∨ credentialDeviceID bound = dev ∧ claims g (NaturalKey id) dev).
Proof.
  cbv zeta. intros Hok Hu Hb Ea Eu. apply (admit_identity_ok hash) in Ea as (Hok1 & Hi1 & Hc); [|done|done].
  pose proof Eu as Eu'. apply (registration_informs hash) in Eu' as (Hi2 & Hok2 & Hcl & Hne); [|done|done].
  set (key := NaturalKey _) in *. set (dev := d_ID (d_identity device)) in *. set (g2 := on_devices (λ _, devs) g1) in *.
  assert (informs_for hash dev g g1 ∧
    (credentialDeviceID bound = EmptyString ∨ credentialDeviceID bound = dev ∧ claims g key dev)) as [Hi0 Hcr].
  { destruct Hc as [[Hc ->]|Hc]; [split; [done|by left]|]. assert (credentialDeviceID bound = dev) as <-; [|auto].
    eapply (claims_unique g2); [done| |done]. eapply claims_registers; [apply (if_devices _ _ _ _ Hi2)|].
    eapply claims_registers; [|done]. by eapply if_devices, Hi1. }
  assert (d_OUISerial (d_identity device) = key) as Hkey.
  { apply upsert_registers in Eu as (_ & _ & _ & _ & _ & ?); [done|apply Hok1|apply Hok1|done..]. }
  rewrite <- Hkey in Hcl. destruct (before_session_informs cfg env source inform (Normalized (inf_DeviceId inform)) mode
    device g2 Hok2 Hne Hcl) as [Hi3 Hok3]. rewrite Hkey in Hcl. set (g3 := inform_before_session _ _ _ _ _ _ _ _ _) in *.
  split_and!; [etrans; [exact Hi0|]; etrans; [exact Hi2|exact Hi3]|done| |done].
  eapply claims_registers, Hcl. apply (if_devices _ _ _ _ Hi3).
Qed.

(** An accepted Inform, taken apart: the registration and the parts before the
    session, the session, and the rest. *)
Lemma accepted_inform cfg env source inform mode bound respID ns st session body st' :
  let key := NaturalKey (Normalized (inf_DeviceId inform)) in
  let g := is_gateway st in
  gateway_ok g → e_uuid env 0%nat ≠ EmptyString → bound_agrees (ow_credentials (g_world g)) bound →
  handleInform url_hostname cfg env source inform mode bound respID ns st = (InformOk session body, st') →
  ∃ dev g1 g2 s,
    informs_for hash dev g g1 ∧ gateway_ok g1 ∧ claims g1 key dev ∧
    g2 = on_sessions (λ _, <[session := s]> (g_sessions g1)) g1 ∧
    s = mkSession session dev StateInformResponseSent (EventCodes inform) None
          (if String.eqb ns "" then SessionDefaultCWMPNamespace else ns) (e_now env) None None ∧
    acts_for hash dev g1 g2 ∧
    st' = maybeQueueWiFiInsights cfg (stream 9 env) dev
            (mkInformState (inform_recovery env inform dev g2) (is_last_tried st)) ∧
    (credentialDeviceID bound = EmptyString ∨ credentialDeviceID bound = dev ∧ claims g key dev).
Proof.
  cbv zeta. intros Hok Hu Hb. unfold handleInform. cbv zeta. destruct (_ || _); [done|]. destruct (_ && _); [done|].
  destruct (admit_identity _ _ _ _) as [g1|] eqn:Ea; [|done]. destruct (_ && _); [done|].
  destruct (UpsertFromInform _ _ _ _ _) as [[device|e] devs] eqn:Eu; [|done].
  destruct (registered_inform cfg env source inform mode bound _ _ _ _ Hok Hu Hb Ea Eu) as (H1 & H2 & H3 & H4).
  set (dev := d_ID (d_identity device)) in *. set (g3 := inform_before_session _ _ _ _ _ _ _ _ _) in *.
  destruct (OpenSession _ _ _ _ _ _) as [[s|] t] eqn:Es; [|done]. intros [= <- _ <-].
  pose proof (acts_open hash dev _ _ _ _ _ _ _ Es) as Ho. unfold OpenSession in Es.
  destruct (g_sessions g3 !! _) eqn:En; [done|]. simpl in Es. injection Es as <- <-.
  exists dev, g3. eexists _, _. by split_and!.
Qed.

(** What the handler may do to the tables: nothing, or a step of the claimed
    device. *)
Definition inform_effect (bound : inboundIdentity) (key : string) (g g' : Gateway) : Prop :=
  gateway_ok g' ∧
  (g' = g ∨ ∃ dev, informs_for hash dev g g' ∧ claims g' key dev ∧
              (credentialDeviceID bound = EmptyString ∨ credentialDeviceID bound = dev ∧ claims g key dev)).

Lemma admitted_effect now bound key g g1 :
  gateway_ok g → bound_agrees (ow_credentials (g_world g)) bound → admit_identity now bound key g = Some g1 →
  inform_effect bound key g g1.
Proof.
  intros Hok Hb Ea. apply (admit_identity_ok hash) in Ea as (Hok1 & Hi & Hc); [|done|done].
  destruct Hc as [[_ ->]|Hc]; [split; auto|]. split; [done|]. right. exists (credentialDeviceID bound). split_and!; [by apply Hi| |auto].
  eapply claims_registers, Hc. by eapply if_devices, Hi.
Qed.

Lemma on_devices_id g : on_devices (λ _, g_devices g) g = g.
Proof. by destruct g as [[] ? ?]. Qed.

Lemma on_sessions_id g : on_sessions (λ _, g_sessions g) g = g.
Proof. by destruct g. Qed.

(** Whatever the reply. *)
Lemma inform_frame cfg env source inform mode bound respID ns st r st' :
  let key := NaturalKey (Normalized (inf_DeviceId inform)) in
  let g := is_gateway st in
  let g' := is_gateway st' in
  gateway_ok g → e_uuid env 0%nat ≠ EmptyString → bound_agrees (ow_credentials (g_world g)) bound →
  handleInform url_hostname cfg env source inform mode bound respID ns st = (r, st') →
  inform_effect bound key g g'.
Proof.
  cbv zeta. intros Hok Hu Hb H. destruct r as [| | |session body]; cycle 3.
  { apply accepted_inform in H as (dev & g1 & g2 & s & H1 & H2 & H3 & _ & _ & H6 & -> & H7); [|done..].
    assert (acts_for hash dev g1 (is_gateway (maybeQueueWiFiInsights cfg (stream 9 env) dev
      (mkInformState (inform_recovery env inform dev g2) (is_last_tried st))))) as Ha.
    { etrans; [exact H6|]. etrans; [|apply acts_insights]. simpl. apply acts_recovery. by eapply acts_for_ok. }
    split; [by eapply acts_for_ok|]. right. exists dev. split_and!; [|by eapply claims_registers, H3;
      eapply devices_for_registers, af_devices, Ha|done]. etrans; [exact H1|]. by apply acts_informs. }
  all: assert (inform_effect bound (NaturalKey (Normalized (inf_DeviceId inform))) (is_gateway st) (is_gateway st))
    as Hid by (split; auto).
  all: unfold handleInform in H; cbv zeta in H; destruct (_ || _); [by simplify_eq|];
    (destruct (_ && _); [by simplify_eq|]); destruct (admit_identity _ _ _ _) as [g1|] eqn:Ea; [|by simplify_eq];
    (destruct (_ && _); [simplify_eq; by eapply admitted_effect|]);
    destruct (UpsertFromInform _ _ _ _ _) as [[device|e] devs] eqn:Eu; cycle 1;
    [simplify_eq/=|destruct (OpenSession _ _ _ _ _ _) as [[s|] t] eqn:Es; simplify_eq/=].
  - assert (devs = g_devices g1) as ->; [|rewrite on_devices_id; by eapply admitted_effect].
    unfold UpsertFromInform, upsert in Eu. destruct (GetByOUIserial _ _); [done|]. by destruct (is_some _); simplify_eq.
  - destruct (registered_inform cfg env source inform mode bound _ _ _ _ Hok Hu Hb Ea Eu) as (H1 & H2 & H3 & H4).
    unfold OpenSession in Es. destruct (is_some _); simplify_eq. rewrite on_sessions_id.
    split; [done|]. right. by eexists.
Qed.
End Whole.
