(* ===== verification/InformTheorems.v ===== *)
(** * Inform: theorems

    An Inform acts on the device it claims and only when its credential allows
    it, policies and templates reach the devices they are for, and a new
    session starts with nothing left in flight from the old one. *)

From S2P Require Import Prelude GoStrings Json Cwmp JobModel Protected JobStore JobLaws Discovery Devices Credentials.
From S2P Require Import ParamCache ParamTheorems NetGuard Adapters Policies Onboarding OnboardingLaws Sessions Render.
From S2P Require Import Gateway GatewayLaws GatewayTheorems Inform InformLaws.

(** ** Identity *)

Section Identity.
Context (url_hostname : string → option string).

(** The identity check, as a decision. *)
Lemma admit_identity_allows now bound key g :
  let registered := GetByOUIserial (g_devices g) key in
  let allowed := credentialDeviceID bound ≠ EmptyString →
                 (λ d, d_ID (d_identity d)) <$> registered = Some (credentialDeviceID bound) in
  match admit_identity now bound key g with
  | Some g1 => allowed ∧ g_jobs g1 = g_jobs g ∧ g_params g1 = g_params g ∧ g_sessions g1 = g_sessions g ∧
      ow_sales (g_world g1) = ow_sales (g_world g)
  | None => ¬ allowed
  end.
Proof.
  cbv zeta. unfold admit_identity. destruct (String.eqb_spec (credentialDeviceID bound) ""); [done|].
  destruct (GetByOUIserial _ _) as [d|]; [|simpl; intros Ha; by specialize (Ha n)].
  destruct (String.eqb_spec (d_ID (d_identity d)) (credentialDeviceID bound)) as [E|E].
  - simpl. rewrite E. destruct (String.eqb _ ""); [done|]. unfold authenticated_hook.
    by destruct (OnAuthenticated _ _ _ _).
  - simpl. intros Ha. apply E. specialize (Ha n). congruence.
Qed.

(** C29: who may inform as whom. An Inform is answered exactly when it names an
    OUI and a serial number, a shared credential restricted to bootstrap is not
    used for a registered device, a per-device credential is that of the device
    registered under the claimed key, and a client certificate names that key
    (identifiers the database refuses aside). Otherwise it is refused with 400
    or 403; then no job is queued, no parameter cached and no session opened. *)
Theorem inform_refusals cfg env source inform mode bound respID ns st :
  let id := Normalized (inf_DeviceId inform) in
  let key := NaturalKey id in
  let g := is_gateway st in
  let '(r, st') := handleInform url_hostname cfg env source inform mode bound respID ns st in
  let named := dev_OUI id ≠ EmptyString ∧ dev_SerialNumber id ≠ EmptyString in
  let registered := GetByOUIserial (g_devices g) key in
  let allowed :=
    (sharedCredential bound = true → ic_shared_bootstrap_only cfg = true → registered = None) ∧
    (credentialDeviceID bound ≠ EmptyString →
       (λ d, d_ID (d_identity d)) <$> registered = Some (credentialDeviceID bound)) ∧
    (mtlsNaturalKey bound ≠ EmptyString → mtlsNaturalKey bound = key) in
  (r = InformBadRequest ↔ ¬ named) ∧ (r = InformForbidden ↔ named ∧ ¬ allowed) ∧
  (r = InformBadRequest ∨ r = InformForbidden →
     g_jobs (is_gateway st') = g_jobs g ∧ g_params (is_gateway st') = g_params g ∧
     g_sessions (is_gateway st') = g_sessions g ∧ ow_sales (g_world (is_gateway st')) = ow_sales (g_world g)).
Proof.
  cbv zeta. unfold handleInform. cbv zeta. set (id := Normalized _). set (g := is_gateway st).
  destruct (String.eqb (dev_OUI id) "" || String.eqb (dev_SerialNumber id) "") eqn:En.
  { apply orb_true_iff in En. rewrite !String.eqb_eq in En. split_and!; [tauto|split; [done|tauto]|done]. }
  apply orb_false_iff in En. rewrite !String.eqb_neq in En.
  set (registered := GetByOUIserial _ _).
  destruct (sharedCredential bound && ic_shared_bootstrap_only cfg && is_some registered) eqn:Esh.
  { apply andb_true_iff in Esh as [[H1 H2]%andb_true_iff H3]. split_and!; [split; [done|tauto]| |done].
    split; [|done]. intros _. split; [done|]. intros (Hs & _). by rewrite (Hs H1 H2) in H3. }
  assert (sharedCredential bound = true → ic_shared_bootstrap_only cfg = true → registered = None) as Hs.
  { intros H1 H2. rewrite H1, H2 in Esh. by destruct registered. }
  pose proof (admit_identity_allows (e_now env) bound (NaturalKey id) g) as Ha. cbv zeta in Ha. fold registered in Ha.
  destruct (admit_identity _ _ _ _) as [g1|]; [|split_and!; [split; [done|tauto]|split; [tauto|done]|done]].
  destruct Ha as [Ha Hsame].
  destruct (negb _ && negb _) eqn:Em.
  { bool_to_prop. split_and!; [split; [done|tauto]|split; [|done]; intros _; split; [done|tauto]|done]. }
  assert (mtlsNaturalKey bound ≠ EmptyString → mtlsNaturalKey bound = NaturalKey id) as Hm.
  { intros Hn. apply String.eqb_neq in Hn. rewrite Hn in Em. simpl in Em.
    by destruct (String.eqb_spec (mtlsNaturalKey bound) (NaturalKey id)). }
  destruct (UpsertFromInform _ _ _ _ _) as [[device|e] devs];
    [destruct (OpenSession _ _ _ _ _ _) as [[s|] t]|];
    (split_and!; [split; [done|tauto]|split; [done|tauto]|by intros [|]]).
Qed.

End Identity.

(** ** Policies and templates *)

Section Config.
Context (env : Env) (dev : string).

(** The row [queue_all] makes of the write at place [i]. *)
Definition config_job (i : nat) (w : json * string) : Job :=
  new_job (e_fresh env i) (e_now env) dev TypeSetParameter w.1 w.2 default_max_attempts None None.

Lemma queue_all_sound writes i tab k j :
  queue_all env dev writes i tab !! k = Some j →
  tab !! k = Some j ∨ ∃ n w, writes !! n = Some w ∧ j = config_job (i + n) w ∧ checkProtectedWrite false TypeSetParameter w.1 = None.
Proof.
  revert i tab. induction writes as [|[payload creator] writes IH]; intros i tab; [by left|]. cbn [queue_all].
  intros [H|(n & w & Hw & -> & Hp)]%IH; [|right; exists (S n), w; split_and!; [done|by rewrite Nat.add_succ_r|done]].
  unfold Create, CreateWithMaxAttempts in H. destruct (checkProtectedWrite _ _ _) eqn:Ep; [by left|].
  unfold insert_job in H. destruct (unique_ok _ _); [|by left]. simpl in H. rewrite lookup_insert in H.
  case_decide; [|by left]. right. exists 0%nat, (payload, creator). rewrite Nat.add_0_r. by simplify_eq.
Qed.

(** Identifiers not drawn before. *)
Definition fresh_ids (tab : gmap string Job) : Prop :=
  (∀ n w, unique_ok tab (config_job n w) = true) ∧
  ∀ n m w w', n ≠ m → ID (config_job n w) ≠ ID (config_job m w') ∧ CommandKey (config_job n w) ≠ CommandKey (config_job m w').

Lemma unique_ok_insert tab j j' :
  unique_ok tab j = true → ID j ≠ ID j' → CommandKey j ≠ CommandKey j' → unique_ok (<[ID j' := j']> tab) j = true.
Proof.
  intros Hu Hi Hc. unfold unique_ok in *. apply andb_true_iff in Hu as [H1 H2]. rewrite lookup_insert_ne by done.
  apply andb_true_iff. split; [done|]. apply forallb_forall. intros r Hr. rewrite forallb_forall in H2.
  apply list_elem_of_In, elem_of_rows in Hr as [k Hk]. rewrite lookup_insert in Hk. case_decide; simplify_eq.
  - apply negb_true_iff, String.eqb_neq. congruence.
  - apply H2, list_elem_of_In, elem_of_rows. eauto.
Qed.

Lemma queue_all_complete writes i tab n w :
  (∀ n w, (i <= n)%nat → unique_ok tab (config_job n w) = true) →
  (∀ n m w w', n ≠ m → ID (config_job n w) ≠ ID (config_job m w') ∧ CommandKey (config_job n w) ≠ CommandKey (config_job m w')) →
  writes !! n = Some w → checkProtectedWrite false TypeSetParameter w.1 = None →
  queue_all env dev writes i tab !! ID (config_job (i + n) w) = Some (config_job (i + n) w).
Proof.
  intros Hu Hd. revert i tab n Hu. induction writes as [|[payload creator] writes IH]; intros i tab n Hu Hw Hp; [done|].
  cbn [queue_all]. unfold Create, CreateWithMaxAttempts.
  set (tab1 := match checkProtectedWrite false TypeSetParameter payload with
    | Some e => _ | None => _ end.2).
  assert (tab1 = tab ∨ tab1 = <[ID (config_job i (payload, creator)) := config_job i (payload, creator)]> tab) as Ht.
  { subst tab1. destruct (checkProtectedWrite _ _ payload); [by left|]. unfold insert_job.
    destruct (unique_ok _ _); [by right|by left]. }
  destruct n as [|n].
  - simpl in Hw. injection Hw as <-. simpl in Hp. rewrite Nat.add_0_r.
    assert (tab1 = <[ID (config_job i (payload, creator)) := config_job i (payload, creator)]> tab) as ->.
    { subst tab1. rewrite Hp. unfold insert_job. specialize (Hu i (payload, creator) ltac:(lia)).
      unfold config_job in Hu. simpl in Hu. by rewrite Hu. }
    set (j := config_job i _). set (tab2 := <[ID j := j]> tab).
    assert (tab2 !! ID j = Some j) as Hj by apply lookup_insert_eq.
    destruct (jf_kept _ _ _ _ (jobs_for_queue_all (λ _, "") dev env writes (S i) tab2) _ _ Hj) as (j' & Hj' & Hid).
    rewrite Hj'. f_equal.
    destruct (queue_all_sound _ _ _ _ _ Hj') as [H|(m & w & _ & -> & _)]; [congruence|].
    exfalso. destruct (Hd (S i + m)%nat i w (payload, creator) ltac:(lia)) as [Hn _]. apply Hn.
    exact (f_equal (λ x, x.1.1.1.1) Hid).
  - simpl in Hw. rewrite <- Nat.add_succ_comm. apply IH; [|done|done]. intros m w' Hm.
    destruct Ht as [-> | ->]; [apply Hu; lia|].
    destruct (Hd m i w' (payload, creator) ltac:(lia)) as [H1 H2]. apply unique_ok_insert; [apply Hu; lia|done|done].
Qed.

(** The rows queued for the elements of a list. *)
Lemma queue_each {A} (f : A → json * string) (l : list A) tab :
  let tab' := queue_all env dev (f <$> l) 0 tab in
  let queued x j := ∃ n, j = config_job n (f x) ∧ checkProtectedWrite false TypeSetParameter (f x).1 = None in
  (∀ k j, tab' !! k = Some j → tab !! k = Some j ∨ ∃ x, x ∈ l ∧ queued x j) ∧
  (fresh_ids tab → ∀ x, x ∈ l → checkProtectedWrite false TypeSetParameter (f x).1 = None →
     ∃ k j, tab' !! k = Some j ∧ tab !! k = None ∧ queued x j).
Proof.
  cbv zeta. split.
  - intros k j [H|(n & w & Hw & -> & Hp)]%queue_all_sound; [by left|]. right. rewrite list_lookup_fmap in Hw.
    destruct (l !! n) as [x|] eqn:E; simpl in Hw; [|done]. injection Hw as <-. exists x.
    split; [by eapply list_elem_of_lookup_2|]. by exists n.
  - intros [Hu Hd] x [n Hn]%list_elem_of_lookup Hp. exists (ID (config_job n (f x))), (config_job n (f x)).
    split_and!; [|by specialize (Hu n (f x)); apply andb_true_iff in Hu as [Hu _]; destruct (tab !! _)|by exists n].
    apply (queue_all_complete (f <$> l) 0 tab n); [auto|done| |done]. by rewrite list_lookup_fmap, Hn.
Qed.

End Config.

Definition config_write (names : list ParameterWrite) (verify : bool) : SetParameterPayload :=
  mkSetParameterPayload "" false [] names verify false.

Lemma config_write_allowed ps verify :
  checkProtectedWrite false TypeSetParameter (encode_SetParameter (config_write ps verify)) = None ↔
  ∀ p, p ∈ ps → ProtectedReason (pw_Name p) = None.
Proof.
  unfold checkProtectedWrite. rewrite decode_encode_SetParameter. simpl. rewrite CheckProtected_none. split.
  - intros H p Hp. apply H. by apply list_elem_of_fmap_2.
  - intros H n (p & -> & Hp)%list_elem_of_fmap_1. by apply H.
Qed.

(** [j] is a new job of [dev] that writes [payload] for [creator]. *)
Definition writes_for (dev creator : string) (payload : SetParameterPayload) (j : Job) : Prop :=
  DeviceID j = dev ∧ Type_ j = TypeSetParameter ∧ Status j = StatusQueued ∧ CreatedBy j = creator ∧
  decode_SetParameter (Payload j) = Some payload.

Lemma config_job_writes env dev n creator payload :
  writes_for dev creator payload (config_job env dev n (encode_SetParameter payload, creator)).
Proof. unfold writes_for. simpl. by rewrite decode_encode_SetParameter. Qed.

Lemma tenant_matches_owner owner customer :
  tenant_matches owner customer = true → ∀ c, owner = Some c → customer = Some c.
Proof. destruct owner, customer; simpl; try done. intros ->%String.eqb_eq. congruence. Qed.

(** Policies correct the drift a device reports, and nothing else. Every job
    an Inform's policy check queues writes the desired value of an enabled
    policy of the fleet or of the device's own customer, for a parameter the
    Inform reported with another value and that is not protected; conversely,
    unless a filter is malformed, each such policy gets its job. *)
Theorem policies_correct_reported_drift policies env d reported g :
  let dev := d_ID (d_identity d) in
  let customer := d_CustomerID (d_ownership d) in
  let g' := enforcePolicies policies env d reported g in
  let fixes p j := writes_for dev ("policy:" ++ po_Name p)
    (config_write [mkParameterWrite (po_ParameterName p) (po_DesiredValue p) "xsd:string" ""] false) j in
  let due p := (∃ k, policies !! k = Some p) ∧
    policy_applies (d_Manufacturer d) (d_ProductClass (d_identity d)) customer p = Some true ∧
    ProtectedReason (po_ParameterName p) = None ∧
    ∃ v, actual_of reported !! po_ParameterName p = Some v ∧ v ≠ po_DesiredValue p in
  (∀ k j, g_jobs g' !! k = Some j → g_jobs g !! k = Some j ∨
     ∃ p, fixes p j ∧ due p ∧ po_Enabled p = true ∧ ∀ c, po_CustomerID p = Some c → customer = Some c) ∧
  ((∃ pols, ForDevice policies (d_Manufacturer d) (d_ProductClass (d_identity d)) customer = Ok pols) →
   fresh_ids env dev (g_jobs g) → ∀ p, due p → ∃ k j, g_jobs g' !! k = Some j ∧ g_jobs g !! k = None ∧ fixes p j).
Proof.
  cbv zeta. unfold enforcePolicies. set (customer := d_CustomerID _). set (dev := d_ID _).
  destruct reported as [|v0 reported].
  { split; [auto|]. intros _ _ p (_ & _ & _ & v & Hv & _). done. }
  set (seen := actual_of (v0 :: reported)).
  destruct (ForDevice _ _ _ _) as [pols|] eqn:Ef; [|split; [auto|by intros [? [=]]]].
  apply select_rows_ok in Ef. assert (∀ p, p ∈ pols ↔ (∃ k, policies !! k = Some p) ∧
    policy_applies (d_Manufacturer d) (d_ProductClass (d_identity d)) customer p = Some true) as Hp.
  { intros p. rewrite Ef, filter_elem, elem_of_rows. destruct (policy_applies _ _ _ p) as [[]|]; simpl; naive_solver. }
  assert (∀ p, drifted seen p = true ↔ ∃ v, seen !! po_ParameterName p = Some v ∧ v ≠ po_DesiredValue p) as Hdr.
  { intros p. unfold drifted. destruct (seen !! _) as [v|]; [|naive_solver].
    rewrite negb_true_iff, String.eqb_neq. naive_solver. }
  assert (∀ p, checkProtectedWrite false TypeSetParameter (policy_job p).1 = None ↔
    ProtectedReason (po_ParameterName p) = None) as Hpr.
  { intros p. etrans; [apply config_write_allowed|]. split; [intros H; apply (H _ (list_elem_of_here _ _))|].
    intros H q Hq. apply list_elem_of_singleton in Hq as ->. done. }
  destruct (queue_each env dev policy_job (List.filter (drifted seen) pols) (g_jobs g)) as [Hs Hc].
  change (g_jobs (on_jobs ?f g)) with (f (g_jobs g)). split.
  - intros k j [H|(p & Hin & n & -> & Hck)]%Hs; [by left|]. right. exists p. split; [apply config_job_writes|].
    apply filter_elem in Hin as [Hin Hd]. apply Hp in Hin as [Hk Ha]. rewrite Hdr in Hd. rewrite Hpr in Hck.
    split; [done|]. unfold policy_applies in Ha. destruct (po_Enabled p); [|done]. split; [done|]. simpl in Ha.
    apply tenant_matches_owner. by destruct (match po_ModelFilter p with None => _ | Some f => _ end) as [[]|]; simplify_eq.
  - intros _ Hfr p (Hk & Ha & Hck & Hd). destruct (Hc Hfr p) as (k & j & H1 & H2 & n & -> & _).
    + apply filter_elem. rewrite Hdr. split; [by apply Hp|done].
    + by apply Hpr.
    + exists k. eexists. split_and!; [done|done|apply config_job_writes].
Qed.

(** A bootstrap applies exactly the templates that are the device's. Every
    job the zero-touch provisioning queues writes the whole of one auto-apply
    template whose filter the device matches and whose customer, if it has one,
    is the device's, and touches no protected parameter; conversely, unless a
    filter is malformed, each such template is queued, to be verified by
    reading it back. *)
Theorem bootstrap_applies_the_matching_templates templates env d g :
  let dev := d_ID (d_identity d) in
  let customer := d_CustomerID (d_ownership d) in
  let g' := applyAutoProvisioningTemplates templates env d g in
  let applied t j := writes_for dev ("template:" ++ te_Name t)
    (config_write ((λ p, mkParameterWrite (pw_Name p) (pw_Value p) (pw_Type p) "") <$> te_Parameters t) true) j in
  let due t := (∃ k, templates !! k = Some t) ∧
    template_applies (d_Manufacturer d) (d_ProductClass (d_identity d)) customer t = Some true ∧
    ∀ p, p ∈ te_Parameters t → ProtectedReason (pw_Name p) = None in
  (∀ k j, g_jobs g' !! k = Some j → g_jobs g !! k = Some j ∨
     ∃ t, applied t j ∧ due t ∧ te_AutoApply t = true ∧ ∀ c, te_CustomerID t = Some c → customer = Some c) ∧
  ((∃ ts, MatchingAutoApply templates (d_Manufacturer d) (d_ProductClass (d_identity d)) customer = Ok ts) →
   fresh_ids env dev (g_jobs g) → ∀ t, due t → ∃ k j, g_jobs g' !! k = Some j ∧ g_jobs g !! k = None ∧ applied t j).
Proof.
  cbv zeta. unfold applyAutoProvisioningTemplates. set (customer := d_CustomerID _). set (dev := d_ID _).
  destruct (MatchingAutoApply _ _ _ _) as [ts|] eqn:Ef; [|split; [auto|by intros [? [=]]]].
  apply select_rows_ok in Ef. assert (∀ t, t ∈ ts ↔ (∃ k, templates !! k = Some t) ∧
    template_applies (d_Manufacturer d) (d_ProductClass (d_identity d)) customer t = Some true) as Hp.
  { intros t. rewrite Ef, filter_elem, elem_of_rows. destruct (template_applies _ _ _ t) as [[]|]; simpl; naive_solver. }
  assert (∀ t, checkProtectedWrite false TypeSetParameter (template_job t).1 = None ↔
    ∀ p, p ∈ te_Parameters t → ProtectedReason (pw_Name p) = None) as Hpr.
  { intros t. etrans; [apply config_write_allowed|]. split.
    - intros H p Hin. exact (H _ (list_elem_of_fmap_2 _ _ _ Hin)).
    - intros H q (p & -> & Hin)%list_elem_of_fmap_1. exact (H p Hin). }
  destruct (queue_each env dev template_job ts (g_jobs g)) as [Hs Hc].
  change (g_jobs (on_jobs ?f g)) with (f (g_jobs g)). split.
  - intros k j [H|(t & Hin & n & -> & Hck)]%Hs; [by left|]. right. exists t. split; [apply config_job_writes|].
    apply Hp in Hin as [Hk Ha]. rewrite Hpr in Hck. split; [done|].
    unfold template_applies in Ha. destruct (te_AutoApply t); [|done]. split; [done|]. simpl in Ha.
    apply tenant_matches_owner. destruct (te_ModelFilter t); [|done]. by destruct (filter_matches _ _ _) as [[]|]; simplify_eq.
  - intros _ Hfr t (Hk & Ha & Hck). destruct (Hc Hfr t) as (k & j & H1 & H2 & n & -> & _).
    + apply Hp. done.
    + apply Hpr. done.
    + exists k. eexists. split_and!; [done|done|apply config_job_writes].
Qed.

(** ** A new session *)

(** A job of [dev] that waits for something the last session will not bring. *)
Definition stuck (dev : string) (j : Job) : Prop :=
  DeviceID j = dev ∧
  (Status j = StatusAwaitingDiagnosticsComplete ∨
   Status j = StatusRPCSent ∧ Type_ j ≠ TypeParameterDiscovery ∧ Type_ j ∈ sessionDispatchableTypes).

Definition none_stuck (dev : string) (tab : gmap string Job) : Prop := ∀ k j, tab !! k = Some j → ¬ stuck dev j.

(** The RPCs of [dev] in flight. *)
Definition dropped (dev : string) (j : Job) : bool :=
  String.eqb (DeviceID j) dev && status_eqb (Status j) StatusRPCSent
  && type_in (Type_ j) (List.filter (λ t, negb (type_eqb t TypeParameterDiscovery)) sessionDispatchableTypes).

Lemma dropped_spec dev j :
  dropped dev j = true ↔ DeviceID j = dev ∧ Status j = StatusRPCSent ∧ Type_ j ≠ TypeParameterDiscovery ∧
    Type_ j ∈ sessionDispatchableTypes.
Proof.
  unfold dropped, status_eqb, type_in, type_eqb.
  rewrite !andb_true_iff, !bool_decide_eq_true, String.eqb_eq, filter_elem, negb_true_iff, bool_decide_eq_false. tauto.
Qed.

(** Each step of the recovery takes its job out of flight. *)
Lemma recover_fold env dev events (tab0 : gmap string Job) l : ∀ g,
  (∀ job, job ∈ l → tab0 !! ID job = Some job ∧ Status job = StatusRPCSent) →
  (∀ k j, g_jobs g !! k = Some j → dropped dev j = true → tab0 !! k = Some j ∧ ID j = k ∧ j ∈ l) →
  ∀ k j, g_jobs (foldl (λ g job,
    on_jobs (λ tab, (ApplyDroppedSessionAction (e_now env) job
      (ClassifyDroppedSessionJob job (method_keys events) (events_have_code events EventDiagnosticsComplete)) tab).2) g) g l) !! k
    = Some j → dropped dev j = false.
Proof.
  induction l as [|job l IH]; intros g Hl Hg k j.
  - simpl. intros Hk. destruct (dropped dev j) eqn:E; [|done]. destruct (Hg _ _ Hk E) as (_ & _ & H).
    by apply elem_of_nil in H.
  - cbn [foldl]. apply IH; [intros; apply Hl; by right|]. clear k j. intros k j Hk Hd.
    set (action := ClassifyDroppedSessionJob _ _ _) in Hk.
    change (g_jobs (on_jobs ?f g)) with (f (g_jobs g)) in Hk. cbv beta in Hk.
    unfold ApplyDroppedSessionAction, guarded in Hk.
    pose proof (lookup_update_key (ID job) (current_attempt job) (dropped_update (e_now env) job action) (g_jobs g) k) as Hup.
    destruct (update_key _ _ _ _) as [tab1 n]. simpl in Hk, Hup. rewrite Hk in Hup.
    destruct (Hl job (list_elem_of_here _ _)) as [Hj Hs]. case_decide as Hi; cycle 1.
    { destruct (Hg k j ltac:(done) Hd) as (H1 & H2 & H3). split_and!; [done|done|].
      apply elem_of_cons in H3 as [-> |]; [by destruct Hi|done]. }
    subst k. destruct (g_jobs g !! ID job) as [row|] eqn:Er; simpl in Hup; [|done]. injection Hup as ->. exfalso.
    destruct (dropped dev row) eqn:Edr.
    + destruct (Hg _ _ Er Edr) as (H1 & _ & _). assert (row = job) as -> by congruence.
      unfold current_attempt, status_eqb in Hd. rewrite Hs, Z.eqb_refl in Hd. simpl in Hd.
      apply dropped_spec in Hd as (_ & Hd & _). by destruct action.
    + destruct (current_attempt job row) eqn:Ec; [|congruence].
      apply dropped_spec in Hd as (_ & Hd & _). by destruct action.
Qed.

Lemma recovery_none_stuck env inform dev g : gateway_ok g → none_stuck dev (g_jobs (inform_recovery env inform dev g)).
Proof.
  intros Hok k j. unfold inform_recovery, releaseAwaitingDiagnostics.
  pose proof (acts_for_ok (λ _, "") dev _ _ (acts_recover_discovery _ dev (stream 8 env) g Hok) Hok) as Hok1.
  set (g1 := recoverAbandonedDiscovery _ _ _) in *. set (g2 := recoverDroppedSessionJobs _ _ _ g1).
  assert (∀ k j, g_jobs g2 !! k = Some j → dropped dev j = false) as Hd.
  { apply (recover_fold env dev (inf_Event inform) (g_jobs g1)).
    - intros job Hin. unfold DroppedSessionJobs, select_by_created in Hin. rewrite merge_sort_Permutation in Hin.
      apply filter_elem in Hin as [Hin Hp]. apply elem_of_rows in Hin as [k' Hk].
      pose proof (ok_key _ _ (tab_rows _ (go_jobs _ Hok1) _ _ Hk)) as Hid. simpl in Hid. rewrite Hid.
      by apply dropped_spec in Hp as (_ & ? & _).
    - intros k' j' Hk Hj. pose proof (ok_key _ _ (tab_rows _ (go_jobs _ Hok1) _ _ Hk)) as Hid. split_and!; [done|done|].
      unfold DroppedSessionJobs, select_by_created. rewrite merge_sort_Permutation. apply filter_elem. split; [|done].
      apply elem_of_rows. eauto. }
  change (g_jobs (on_jobs ?f g2)) with (f (g_jobs g2)). cbv beta. unfold ReleaseAwaitingDiagnostics.
  rewrite lookup_update_where. destruct (g_jobs g2 !! k) as [row|] eqn:Er; simpl; [|done]. specialize (Hd _ _ Er).
  destruct (String.eqb (DeviceID row) dev && _) eqn:Ea; intros [= <-] [Hdev [Hst|(Hst & Ht)]]; try done.
  - simpl in Hdev. unfold status_eqb in Ea. rewrite Hdev, String.eqb_refl, Hst in Ea. done.
  - apply not_true_iff_false in Hd. apply Hd, dropped_spec. tauto.
Qed.

(** Queueing a read leaves nothing stuck. *)
Lemma none_stuck_queue_read dev fr now dev' creator paths g :
  none_stuck dev (g_jobs g) → none_stuck dev (g_jobs (queue_read fr now dev' creator paths g)).
Proof.
  intros Hn k j. unfold queue_read. destruct paths; [apply Hn|].
  change (g_jobs (on_jobs ?f g)) with (f (g_jobs g)). cbv beta. unfold Create, CreateWithMaxAttempts.
  destruct (checkProtectedWrite _ _ _); [apply Hn|]. unfold insert_job. destruct (unique_ok _ _); [|apply Hn].
  simpl. rewrite lookup_insert. case_decide; [|apply Hn]. intros [= <-] [_ [[=]|[[=] _]]].
Qed.

Lemma none_stuck_insights cfg env dev st :
  none_stuck dev (g_jobs (is_gateway st)) → none_stuck dev (g_jobs (is_gateway (maybeQueueWiFiInsights cfg env dev st))).
Proof.
  intros Hn. unfold maybeQueueWiFiInsights. cbv zeta. repeat (case_match; try done). by apply none_stuck_queue_read.
Qed.

(** The recovery leaves the sessions alone. *)
Lemma queue_read_sessions fr now dev creator paths g : g_sessions (queue_read fr now dev creator paths g) = g_sessions g.
Proof. by destruct paths. Qed.

Lemma skip_sessions env dev job payload g : g_sessions (skipDiscoveryObject env dev job payload g) = g_sessions g.
Proof.
  unfold skipDiscoveryObject. destruct (SkipDiscoveryCursor payload) as [[[[] ?] p]|e]; try done.
  unfold finishParameterDiscovery. destruct (SaveDiscovery _ _ _ _ _ _ _ _ _ _); cbv zeta.
  - destruct (String.eqb _ _); [by rewrite !queue_read_sessions|done].
  - by destruct (String.eqb _ _).
Qed.

Lemma recovery_sessions env inform dev g : g_sessions (inform_recovery env inform dev g) = g_sessions g.
Proof.
  unfold inform_recovery. trans (g_sessions (recoverAbandonedDiscovery (stream 8 env) dev g)).
  - generalize (recoverAbandonedDiscovery (stream 8 env) dev g) as g1. intros g1.
    change (g_sessions (recoverDroppedSessionJobs env dev (inf_Event inform) g1) = g_sessions g1).
    unfold recoverDroppedSessionJobs. cbv zeta. generalize (DroppedSessionJobs (g_jobs g1) dev) as l. intros l.
    revert g1. induction l as [|job l IH]; intros g1; [done|]. simpl. by rewrite IH.
  - unfold recoverAbandonedDiscovery. generalize (stream 8 env) (InFlightDiscoveries (g_jobs g) dev). intros env' l.
    revert env' g. induction l as [|job l IH]; intros env' g; [done|]. simpl. rewrite IH.
    destruct (decode_ParameterDiscovery _); [|done]. destruct (_ && _); [apply skip_sessions|done].
Qed.

Lemma insights_sessions cfg env dev st :
  g_sessions (is_gateway (maybeQueueWiFiInsights cfg env dev st)) = g_sessions (is_gateway st).
Proof. unfold maybeQueueWiFiInsights. cbv zeta. repeat (case_match; try done). apply queue_read_sessions. Qed.

(** An accepted Inform starts a clean session. The reply names a new open
    session of the claimed device, without a job in flight, and every job an
    earlier session left behind is dealt with: none of the device's jobs waits
    for the answer to an RPC (discovery walks apart, which resume on their own)
    or for a diagnostic any more. *)
Theorem inform_starts_a_clean_session url_hostname cfg env source inform mode bound respID ns st session body st' :
  gateway_ok (is_gateway st) → e_uuid env 0%nat ≠ EmptyString →
  bound_agrees (ow_credentials (g_world (is_gateway st))) bound →
  handleInform url_hostname cfg env source inform mode bound respID ns st = (InformOk session body, st') →
  ∃ dev s, claims (is_gateway st') (NaturalKey (Normalized (inf_DeviceId inform))) dev ∧
    g_sessions (is_gateway st') !! session = Some s ∧ ss_DeviceID s = dev ∧ IsClosed s = false ∧ ss_CurrentJobID s = None ∧
    none_stuck dev (g_jobs (is_gateway st')).
Proof.
  intros Hok Hu Hb H. apply (accepted_inform (λ _, "")) in H as (dev & g1 & g2 & s & H1 & H2 & H3 & -> & -> & H6 & -> & _); [|done..].
  pose proof (acts_for_ok _ _ _ _ H6 H2) as Hok2. set (g2 := on_sessions _ g1) in *.
  set (st1 := mkInformState _ _). set (st2 := maybeQueueWiFiInsights _ _ _ st1).
  assert (acts_for (λ _, "") dev g1 (is_gateway st2)) as Ha.
  { etrans; [exact H6|]. etrans; [|apply acts_insights]. by apply acts_recovery. }
  exists dev. eexists. split_and!.
  - eapply claims_registers, H3. eapply devices_for_registers, af_devices, Ha.
  - subst st2. rewrite insights_sessions. subst st1. cbn [is_gateway]. rewrite recovery_sessions. apply lookup_insert_eq.
  - done.
  - done.
  - done.
  - apply none_stuck_insights, recovery_none_stuck, Hok2.
Qed.

(** ** A concrete Inform *)

Definition w_device_id : Cwmp.DeviceID := mkDeviceID "Nokia" "0000CA" "FastMile" "S1".

Definition w_inform : Inform :=
  mkInform w_device_id [mkEvent "2 PERIODIC" ""] 1 "" 0 [mkPV "Device.DeviceInfo.ProvisioningCode" "drifted" "xsd:string"].

Definition w_policy : PolicyRow :=
  mkPolicyRow "p-1" "gold" (Some "nok%") "Device.DeviceInfo.ProvisioningCode" "gold" true (Some "tenant-a") "operator" 1 1.

Definition w_template : Template :=
  mkTemplate "t-1" "ntp" "" [mkParameterWrite "Device.Time.NTPServer1" "ntp.example" "xsd:string" ""] (Some "fastmile") true None
    "operator" 1 1.

Definition w_inform_config : InformConfig :=
  mkInformConfig {["p-1" := w_policy]} {["t-1" := w_template]} [] true 0 (λ _, None).

(** The reboot was sent in an earlier session and never answered. *)
Definition w_before_inform : Gateway :=
  mkGateway (mkWorld ∅ ∅ ∅ ∅
    (PreRegister "d-1" 3 (NaturalKey (Normalized w_device_id)) "Nokia" "0000CA" "FastMile" "S1" (Some "tenant-a") [] ∅).2
    no_params (g_jobs w_reply.2)) ∅ ∅.

Lemma w_before_inform_ok : gateway_ok w_before_inform.
Proof.
  constructor.
  - apply (go_jobs _ w_reply_ok).
  - apply reachable_devices_ok, rtc_once, dstep_preregister.
  - vm_compute. reflexivity.
  - apply sales_ok_empty.
  - apply map_Forall_empty.
  - apply credentials_ok_empty.
Qed.

Definition w_informed : InformReply * InformState :=
  handleInform (λ _, None) w_inform_config w_env "10.0.0.1" w_inform AuthModeDigest w_bound "1" "urn:dslforum-org:cwmp-1-2"
    (mkInformState w_before_inform ∅).

Lemma w_bound_agrees creds : creds = ∅ → bound_agrees creds w_bound.
Proof. intros -> _ c Hc. apply LookupCWMPDigest_some in Hc as [k Hk]. by rewrite lookup_empty in Hk. Qed.

Definition w_row_of (g : Gateway) (dev : string) : Device :=
  default (mkDevice (mkIdentity "" "" "" "" "" 0) "" (mkPresence StOffline None [] None None) (mkOwnership None None [] None)
    no_reach RootUnknown None AuthModeNone no_profile [] 0) (g_devices g !! dev).

Lemma inform_starts_a_clean_session_witness :
  ∃ s, g_sessions (is_gateway w_informed.2) !! "u-7" = Some s ∧ IsClosed s = false ∧
    Status <$> g_jobs (is_gateway w_informed.2) !! "j-1" = Some StatusFailed.
Proof.
  destruct (inform_starts_a_clean_session (λ _, None) w_inform_config w_env "10.0.0.1" w_inform AuthModeDigest
    w_bound "1" "urn:dslforum-org:cwmp-1-2" (mkInformState w_before_inform ∅) "u-7"
    (RenderInformResponseNS "1" "urn:dslforum-org:cwmp-1-2") w_informed.2) as (dev & s & _ & Hs & _ & Hc & _).
  - exact w_before_inform_ok.
  - vm_compute. discriminate.
  - apply w_bound_agrees. reflexivity.
  - vm_compute. reflexivity.
  - exists s. split; [exact Hs|]. split; [exact Hc|]. vm_compute. reflexivity.
Defined.

(** Identifiers that never repeat. *)
Fixpoint tally (n : nat) : string := match n with O => EmptyString | S n => String "x" (tally n) end.

Definition w_tally_env : Env :=
  mkEnv 100 (λ n, mkFresh (tally n) "20260101" (tally n)) tally "rpc-1" "acs-1" (λ _, false) (λ A m, map_to_list m).

Lemma tally_inj n m : tally n = tally m → n = m.
Proof. revert m. induction n as [|n IH]; intros [|m] [=]; [done|]. f_equal. by apply IH. Qed.

Lemma w_tally_fresh dev : fresh_ids w_tally_env dev ∅.
Proof.
  split; [done|]. intros n m w w' Hn. split; intros He; apply Hn, tally_inj.
  - exact He.
  - cbn in He. injection He as He. exact He.
Qed.

Definition w_no_jobs : Gateway := set_tables no_params ∅ ∅ w_before_inform.

(** The drift of [w_inform] is due under [w_policy] and gets its job. *)
Lemma policies_correct_reported_drift_witness :
  ∃ k j, g_jobs (enforcePolicies {["p-1" := w_policy]} w_tally_env (w_row_of w_before_inform "d-1")
    (inf_ParameterList w_inform) w_no_jobs) !! k = Some j ∧ CreatedBy j = "policy:gold" ∧ Status j = StatusQueued.
Proof.
  destruct (policies_correct_reported_drift {["p-1" := w_policy]} w_tally_env (w_row_of w_before_inform "d-1")
    (inf_ParameterList w_inform) w_no_jobs) as [_ H].
  destruct (H ltac:(eexists; vm_compute; reflexivity) (w_tally_fresh _) w_policy) as (k & j & Hk & _ & (_ & _ & Hst & Hcr & _)).
  - split; [exists "p-1"; vm_compute; reflexivity|]. split; [vm_compute; reflexivity|]. split; [vm_compute; reflexivity|].
    exists "drifted". split; [vm_compute; reflexivity|discriminate].
  - exists k, j. split; [exact Hk|]. split; [exact Hcr|exact Hst].
Defined.

Lemma bootstrap_applies_the_matching_templates_witness :
  ∃ k j, g_jobs (applyAutoProvisioningTemplates {["t-1" := w_template]} w_tally_env (w_row_of w_before_inform "d-1")
    w_no_jobs) !! k = Some j ∧ CreatedBy j = "template:ntp" ∧ Status j = StatusQueued.
Proof.
  destruct (bootstrap_applies_the_matching_templates {["t-1" := w_template]} w_tally_env (w_row_of w_before_inform "d-1")
    w_no_jobs) as [_ H].
  destruct (H ltac:(eexists; vm_compute; reflexivity) (w_tally_fresh _) w_template) as (k & j & Hk & _ & (_ & _ & Hst & Hcr & _)).
  - split; [exists "t-1"; vm_compute; reflexivity|]. split; [vm_compute; reflexivity|].
    intros p Hp. apply list_elem_of_singleton in Hp. rewrite Hp. vm_compute. reflexivity.
  - exists k, j. split; [exact Hk|]. split; [exact Hcr|exact Hst].
Defined.

(** A credential of another device is turned away. *)
Lemma inform_refusals_witness :
  (handleInform (λ _, None) w_inform_config w_env "10.0.0.1" w_inform AuthModeDigest (mkIdentity_ "d-2" "cpe" "" false) "1"
     "urn" (mkInformState w_before_inform ∅)).1 = InformForbidden.
Proof.
  pose proof (inform_refusals (λ _, None) w_inform_config w_env "10.0.0.1" w_inform AuthModeDigest
    (mkIdentity_ "d-2" "cpe" "" false) "1" "urn" (mkInformState w_before_inform ∅)) as H.
  destruct (handleInform _ _ _ _ _ _ _ _ _ _) as [r st']. cbv zeta in H. destruct H as (_ & H & _). apply H. split.
  - vm_compute. split; discriminate.
  - intros (_ & Ha & _). vm_compute in Ha. specialize (Ha ltac:(discriminate)). discriminate Ha.
Defined.
