(* ===== verification/Usp.v ===== *)
(** * The USP protocol core ([internal/usp])

    Endpoint identifiers ([endpoint.go]), the record envelope ([record.go]), the
    messages the controller builds and reads ([message.go]), the error codes
    ([errors.go]) and the firmware operation ([firmware.go]).

    The messages are those of the generated protobuf code ([uspproto]): a oneof
    is an inductive type, a member that may be unset is an option where the code
    looks at that, and otherwise reads as its zero value, as the generated
    getters do.  The wire format is the protobuf library's: [Marshal] and
    [Unmarshal] are members of the class [ProtoWire], [None] or [Err] where they
    return an error (a string that is not UTF-8, bytes that are not a message). *)

From S2P Require Import Prelude GoStrings Encoding Regex Protected.

(** ** Endpoint identifiers *)

Definition endpointSeparator : string := "::".

(** [strings.Cut]: around the first occurrence of [sep]. *)
Fixpoint CutString (s sep : string) : option (string * string) :=
  match CutPrefix s sep with
  | Some rest => Some (EmptyString, rest)
  | None =>
      match s with
      | EmptyString => None
      | String c s' => '(a, b) ← CutString s' sep; Some (String c a, b)
      end
  end.

Definition uspSafeChars : string := "-._".

Definition isUSPUnreserved (c : ascii) : bool := is_alnum c || byte_in c uspSafeChars.

(** An upper case hexadecimal digit, as [%02X] prints it. *)
Definition hex_upper (d : Z) : ascii := if d <? 10 then byte_of (48 + d) else byte_of (55 + d).

Fixpoint PercentEncodeUSP (s : string) : string :=
  match s with
  | EmptyString => EmptyString
  | String c s' =>
      if isUSPUnreserved c then String c (PercentEncodeUSP s')
      else String "%" (String (hex_upper (byte_value c / 16))
             (String (hex_upper (byte_value c mod 16)) (PercentEncodeUSP s')))
  end.

Definition unhex (c : ascii) : option Z :=
  if is_digit c then Some (byte_value c - 48)
  else if byte_between 97 102 c then Some (byte_value c - 97 + 10)
  else if byte_between 65 70 c then Some (byte_value c - 65 + 10)
  else None.

(** [None]: a truncated or invalid escape. *)
Fixpoint PercentDecodeUSP (s : string) : option string :=
  match s with
  | EmptyString => Some EmptyString
  | String c s' =>
      if negb (Ascii.eqb c "%") then String c <$> PercentDecodeUSP s'
      else
        match s' with
        | String h (String l rest) =>
            hi ← unhex h;
            lo ← unhex l;
            String (byte_of (Z.lor (Z.shiftl hi 4) lo)) <$> PercentDecodeUSP rest
        | _ => None
        end
  end.

Definition FormatEndpointID (authority instance : string) : string :=
  (authority ++ endpointSeparator ++ PercentEncodeUSP instance)%string.

Definition endpoint_split (e : string) : option (string * string) :=
  '(authority, instance) ← CutString e endpointSeparator;
  if String.eqb authority "" then None else Some (authority, instance).

Definition Authority (e : string) : string :=
  match endpoint_split e with Some (a, _) => a | None => "" end.

Definition Instance_ (e : string) : string :=
  match endpoint_split e with
  | Some (_, i) => default "" (PercentDecodeUSP i)
  | None => ""
  end.

Definition OUISerial (e : string) : option string :=
  match endpoint_split e with
  | Some (authority, _) =>
      if negb (String.eqb authority "os") then None
      else
        let instance := Instance_ e in
        if negb (Contains instance "-") || HasPrefix instance "-" || HasSuffix instance "-" then None
        else Some instance
  | None => None
  end.

(** ** Messages ([uspproto]) *)

Inductive Header_MsgType : Type :=
| Header_ERROR | Header_GET | Header_GET_RESP | Header_NOTIFY | Header_SET | Header_SET_RESP
| Header_OPERATE | Header_OPERATE_RESP | Header_ADD | Header_ADD_RESP | Header_DELETE | Header_DELETE_RESP
| Header_GET_SUPPORTED_DM | Header_GET_SUPPORTED_DM_RESP | Header_GET_INSTANCES | Header_GET_INSTANCES_RESP
| Header_NOTIFY_RESP | Header_GET_SUPPORTED_PROTO | Header_GET_SUPPORTED_PROTO_RESP
| Header_REGISTER | Header_REGISTER_RESP | Header_DEREGISTER | Header_DEREGISTER_RESP
| Header_unknown (n : Z).

#[global] Instance Header_MsgType_eq_dec : EqDecision Header_MsgType.
Proof. solve_decision. Defined.

Definition MsgType_name (t : Header_MsgType) : string :=
  match t with
  | Header_ERROR => "ERROR" | Header_GET => "GET" | Header_GET_RESP => "GET_RESP" | Header_NOTIFY => "NOTIFY"
  | Header_SET => "SET" | Header_SET_RESP => "SET_RESP" | Header_OPERATE => "OPERATE"
  | Header_OPERATE_RESP => "OPERATE_RESP" | Header_ADD => "ADD" | Header_ADD_RESP => "ADD_RESP"
  | Header_DELETE => "DELETE" | Header_DELETE_RESP => "DELETE_RESP" | Header_GET_SUPPORTED_DM => "GET_SUPPORTED_DM"
  | Header_GET_SUPPORTED_DM_RESP => "GET_SUPPORTED_DM_RESP" | Header_GET_INSTANCES => "GET_INSTANCES"
  | Header_GET_INSTANCES_RESP => "GET_INSTANCES_RESP" | Header_NOTIFY_RESP => "NOTIFY_RESP"
  | Header_GET_SUPPORTED_PROTO => "GET_SUPPORTED_PROTO"
  | Header_GET_SUPPORTED_PROTO_RESP => "GET_SUPPORTED_PROTO_RESP" | Header_REGISTER => "REGISTER"
  | Header_REGISTER_RESP => "REGISTER_RESP" | Header_DEREGISTER => "DEREGISTER"
  | Header_DEREGISTER_RESP => "DEREGISTER_RESP" | Header_unknown n => Itoa n
  end.

Record UHeader : Type := mkHeader { h_MsgId : string; h_MsgType : Header_MsgType }.

(** *** Requests *)

Record ParamSetting : Type := mkSetting { st_Param : string; st_Value : string; st_Required : bool }.
Record ObjectSettings : Type := mkObject { os_ObjPath : string; os_ParamSettings : list ParamSetting }.

Record PbOnBoardRequest : Type := mkPbOnBoard {
  pob_Oui : string; pob_ProductClass : string; pob_SerialNumber : string; pob_Versions : string
}.

Inductive PbOperationResp : Type :=
| OC_None
| OC_ReqOutputArgs (args : gmap string string)
| OC_CmdFailure (code : Z) (msg : string).

Record PbOperationComplete : Type := mkPbOperComplete {
  poc_ObjPath : string; poc_CommandName : string; poc_CommandKey : string; poc_Resp : PbOperationResp
}.

Record PbEvent : Type := mkPbEvent { pev_ObjPath : string; pev_EventName : string; pev_Params : gmap string string }.
Record PbValueChange : Type := mkPbValueChange { pvc_ParamPath : string; pvc_ParamValue : string }.
Record PbObjectCreation : Type := mkPbObjectCreation { pcr_ObjPath : string; pcr_UniqueKeys : gmap string string }.

(** [Notify]'s oneof; the pointer inside it may be nil. *)
Inductive Notification : Type :=
| N_None
| N_Event (e : option PbEvent)
| N_ValueChange (v : option PbValueChange)
| N_ObjCreation (o : option PbObjectCreation)
| N_ObjDeletion (o : option string)
| N_OperComplete (o : option PbOperationComplete)
| N_OnBoardReq (o : option PbOnBoardRequest).

Record PbNotify : Type := mkNotify {
  nt_SubscriptionId : string; nt_SendResp : bool; nt_Notification : Notification
}.

Inductive URequest : Type :=
| Request_None
| Request_Get (paths : list string) (maxDepth : Z)
| Request_GetSupportedDm (paths : list string) (firstLevelOnly commands events params : bool)
| Request_GetInstances (paths : list string) (firstLevelOnly : bool)
| Request_Set (allowPartial : bool) (objs : list ObjectSettings)
| Request_Add (allowPartial : bool) (objs : list ObjectSettings)
| Request_Delete (allowPartial : bool) (paths : list string)
| Request_Operate (command commandKey : string) (sendResp : bool) (args : gmap string string)
| Request_Notify (n : PbNotify)
| Request_GetSupportedProtocol (versions : string)
| Request_Register
| Request_Deregister.

(** *** Responses *)

Record ResolvedPathResult : Type := mkResolved { rp_ResolvedPath : string; rp_ResultParams : gmap string string }.
Record RequestedPathResult : Type := mkRequested {
  rq_RequestedPath : string; rq_ErrCode : Z; rq_ErrMsg : string; rq_Resolved : list ResolvedPathResult
}.

Inductive ParamAccess : Type := PARAM_READ_ONLY | PARAM_READ_WRITE | PARAM_WRITE_ONLY | PARAM_ACCESS (n : Z).

#[global] Instance ParamAccess_eq_dec : EqDecision ParamAccess.
Proof. solve_decision. Defined.

(** [String] of the enumeration. *)
Definition ParamAccess_name (a : ParamAccess) : string :=
  match a with
  | PARAM_READ_ONLY => "PARAM_READ_ONLY" | PARAM_READ_WRITE => "PARAM_READ_WRITE"
  | PARAM_WRITE_ONLY => "PARAM_WRITE_ONLY" | PARAM_ACCESS n => Itoa n
  end.

(** The value and value change types are only ever printed: they are kept as
    the names [String] gives. *)
Record SupportedParam : Type := mkSupportedParam {
  sp_ParamName : string; sp_Access : ParamAccess; sp_ValueType : string; sp_ValueChange : string
}.
Record SupportedObject : Type := mkSupportedObject {
  so_Path : string; so_Commands : list string; so_Events : list string; so_Params : list SupportedParam
}.
Record RequestedObjectResult : Type := mkRequestedObject {
  ro_ReqObjPath : string; ro_ErrCode : Z; ro_ErrMsg : string; ro_SupportedObjs : list SupportedObject
}.

Record InstancesResult : Type := mkInstancesResult {
  ir_RequestedPath : string; ir_ErrCode : Z; ir_ErrMsg : string; ir_CurrInsts : list string
}.

(** A success may carry errors of its own: of parameters that were not set, of
    paths that were not deleted (path, code, message). *)
Inductive AddStatus : Type :=
| Add_None | Add_Failure (code : Z) (msg : string)
| Add_Success (path : string) (param_errs : list (string * Z * string)) (unique_keys : gmap string string).
Inductive DeleteStatus : Type :=
| Delete_None | Delete_Failure (code : Z) (msg : string)
| Delete_Success (paths : list string) (unaffected_path_errs : list (string * Z * string)).

(** The parameter errors of each updated instance. *)
Inductive SetOperStatus : Type :=
| Set_None | Set_Failure (code : Z) (msg : string) | Set_Success (param_errs : list (list (Z * string))).

Inductive OperateStatus : Type :=
| Op_None
| Op_ReqObjPath (path : string)
| Op_ReqOutputArgs (args : gmap string string)
| Op_CmdFailure (code : Z) (msg : string).

Inductive UResponse : Type :=
| Response_None
| Response_GetResp (results : list RequestedPathResult)
| Response_GetSupportedDmResp (results : list RequestedObjectResult)
| Response_GetInstancesResp (results : list InstancesResult)
| Response_SetResp (results : list SetOperStatus)
| Response_AddResp (results : list (string * AddStatus))
| Response_DeleteResp (results : list (string * DeleteStatus))
| Response_OperateResp (results : list OperateStatus)
| Response_NotifyResp (subscriptionId : string)
| Response_GetSupportedProtocolResp
| Response_RegisterResp
| Response_DeregisterResp.

Record PbError : Type := mkPbError {
  pe_ErrCode : Z; pe_ErrMsg : string; pe_ParamErrs : list (string * Z * string)
}.

Inductive MsgBody : Type :=
| Body_None
| Body_Request (r : URequest)
| Body_Response (r : UResponse)
| Body_Error (e : option PbError).

Record Msg : Type := mkMsg { m_Header : option UHeader; m_Body : option MsgBody }.

(** The getters on a message whose header or body may be absent. *)
Definition GetMsgId (m : Msg) : string := match m_Header m with Some h => h_MsgId h | None => "" end.
Definition GetMsgType (m : Msg) : Header_MsgType :=
  match m_Header m with Some h => h_MsgType h | None => Header_ERROR end.
Definition GetRequest (m : Msg) : URequest :=
  match m_Body m with Some (Body_Request r) => r | _ => Request_None end.
Definition GetResponse (m : Msg) : UResponse :=
  match m_Body m with Some (Body_Response r) => r | _ => Response_None end.

(** *** Records *)

Inductive PayloadSecurity : Type := Record_PLAINTEXT | Record_TLS12 | Record_security (n : Z).

#[global] Instance PayloadSecurity_eq_dec : EqDecision PayloadSecurity.
Proof. solve_decision. Defined.

Inductive RecordBody : Type :=
| Rec_None
| Rec_NoSessionContext (payload : string)
| Rec_SessionContext
| Rec_WebsocketConnect
| Rec_MqttConnect
| Rec_StompConnect
| Rec_UdsConnect
| Rec_Disconnect (reason : string) (code : Z).

Record PbRecord : Type := mkPbRecord {
  r_Version : string; r_ToId : string; r_FromId : string;
  r_PayloadSecurity : PayloadSecurity; r_RecordType : RecordBody
}.

(** ** The wire format *)

Class ProtoWire : Type := {
  marshal_record : PbRecord → option string;
  unmarshal_record : string → option PbRecord;
  marshal_msg : Msg → result string;
  unmarshal_msg : string → option Msg
}.

(** What [proto.Unmarshal] promises of the bytes [proto.Marshal] returned. *)
Class ProtoLaws (W : ProtoWire) : Prop := {
  record_roundtrip : ∀ r w, marshal_record r = Some w → unmarshal_record w = Some r;
  msg_roundtrip : ∀ m w, marshal_msg m = Ok w → unmarshal_msg w = Some m
}.

(** ** Records *)

Definition RecordVersion : string := "1.3".
Definition SupportedRecordVersions : list string := ["1.0"; "1.1"; "1.2"; "1.3"].

Inductive RecordError : Type :=
| ErrMalformedRecord
| ErrUnsupportedRecordVersion (version : string)
| ErrPayloadSecurityUnsupported (s : PayloadSecurity)
| ErrNotAddressedToUs (to : string)
| ErrNoPayload
| ErrSessionContextUnsupported.

Inductive RecordType : Type :=
| RecordUnknown | RecordNoSessionContext | RecordSessionContext | RecordWebSocketConnect
| RecordMQTTConnect | RecordSTOMPConnect | RecordUDSConnect | RecordDisconnect.

Record DecodedRecord : Type := mkDecoded {
  dr_From : string;
  dr_To : string;
  dr_Version : string;
  dr_Payload : string;
  dr_Type : RecordType;
  dr_DisconnectReason : string;
  dr_DisconnectCode : Z
}.

Section Codec.
Context `{W : ProtoWire}.

Definition EncodeRecord (from to payload : string) : option string :=
  marshal_record (mkPbRecord RecordVersion to from Record_PLAINTEXT (Rec_NoSessionContext payload)).

Definition record_type (b : RecordBody) : RecordType :=
  match b with
  | Rec_None => RecordUnknown
  | Rec_NoSessionContext _ => RecordNoSessionContext
  | Rec_SessionContext => RecordSessionContext
  | Rec_WebsocketConnect => RecordWebSocketConnect
  | Rec_MqttConnect => RecordMQTTConnect
  | Rec_StompConnect => RecordSTOMPConnect
  | Rec_UdsConnect => RecordUDSConnect
  | Rec_Disconnect _ _ => RecordDisconnect
  end.

(** The record, if any, and the error, if any: some errors come with a record. *)
Definition DecodeRecord (wire us : string) : option DecodedRecord * option RecordError :=
  match unmarshal_record wire with
  | None => (None, Some ErrMalformedRecord)
  | Some rec =>
      if negb (existsb (String.eqb (r_Version rec)) SupportedRecordVersions)
      then (None, Some (ErrUnsupportedRecordVersion (r_Version rec)))
      else if negb (bool_decide (r_PayloadSecurity rec = Record_PLAINTEXT))
      then (None, Some (ErrPayloadSecurityUnsupported (r_PayloadSecurity rec)))
      else if negb (String.eqb (r_ToId rec) us) then (None, Some (ErrNotAddressedToUs (r_ToId rec)))
      else
        let out payload reason code :=
          Some (mkDecoded (r_FromId rec) (r_ToId rec) (r_Version rec) payload (record_type (r_RecordType rec)) reason code)
        in
        match r_RecordType rec with
        | Rec_NoSessionContext payload =>
            if String.eqb payload "" then (out "" "" 0, Some ErrNoPayload) else (out payload "" 0, None)
        | Rec_SessionContext => (out "" "" 0, Some ErrSessionContextUnsupported)
        | Rec_Disconnect reason code => (out "" reason code, Some ErrNoPayload)
        | Rec_WebsocketConnect | Rec_MqttConnect | Rec_StompConnect | Rec_UdsConnect | Rec_None =>
            (out "" "" 0, Some ErrNoPayload)
        end
  end.

(** ** Building requests *)

Definition encodeMsg (msgID : string) (t : Header_MsgType) (body : MsgBody) : result string :=
  match marshal_msg (mkMsg (Some (mkHeader msgID t)) (Some body)) with
  | Ok wire => Ok wire
  | Err e => Err ("marshal USP " ++ MsgType_name t ++ ": " ++ e)%string
  end.

Definition encodeRequest (msgID : string) (t : Header_MsgType) (req : URequest) : result string :=
  encodeMsg msgID t (Body_Request req).

Definition EncodeGet (msgID : string) (paths : list string) (maxDepth : Z) : result string :=
  encodeRequest msgID Header_GET (Request_Get paths maxDepth).

(** The members of a map in the order of [slices.Sorted (maps.Keys m)]. *)
Definition sorted_entries {A} (m : gmap string A) : list (string * A) :=
  omap (λ k, pair k <$> m !! k) (SortStrings (map_to_list m).*1).

Definition settings_of (params : gmap string string) : list ParamSetting :=
  (λ kv, mkSetting kv.1 kv.2 true) <$> sorted_entries params.

Definition EncodeSet (msgID : string) (allowPartial : bool) (updates : gmap string (gmap string string))
    : result string :=
  encodeRequest msgID Header_SET
    (Request_Set allowPartial ((λ kv, mkObject kv.1 (settings_of kv.2)) <$> sorted_entries updates)).

Definition EncodeAdd (msgID : string) (allowPartial : bool) (objPath : string) (params : gmap string string)
    : result string :=
  encodeRequest msgID Header_ADD (Request_Add allowPartial [mkObject objPath (settings_of params)]).

Definition EncodeDelete (msgID : string) (allowPartial : bool) (objPaths : list string) : result string :=
  encodeRequest msgID Header_DELETE (Request_Delete allowPartial objPaths).

Definition EncodeOperate (msgID command commandKey : string) (sendResp : bool) (inputArgs : gmap string string)
    : result string :=
  encodeRequest msgID Header_OPERATE (Request_Operate command commandKey sendResp inputArgs).

Definition EncodeGetSupportedDM (msgID : string) (objPaths : list string)
    (firstLevelOnly returnCommands returnEvents returnParams : bool) : result string :=
  encodeRequest msgID Header_GET_SUPPORTED_DM
    (Request_GetSupportedDm objPaths firstLevelOnly returnCommands returnEvents returnParams).

Definition EncodeGetInstances (msgID : string) (objPaths : list string) (firstLevelOnly : bool) : result string :=
  encodeRequest msgID Header_GET_INSTANCES (Request_GetInstances objPaths firstLevelOnly).

Definition EncodeGetSupportedProtocol (msgID versions : string) : result string :=
  encodeRequest msgID Header_GET_SUPPORTED_PROTO (Request_GetSupportedProtocol versions).

Definition EncodeNotifyResp (msgID subscriptionID : string) : result string :=
  encodeMsg msgID Header_NOTIFY_RESP (Body_Response (Response_NotifyResp subscriptionID)).

(** ** Reading messages *)

Definition DecodeMsg (payload : string) : option Msg :=
  match unmarshal_msg payload with
  | Some m => if is_some (m_Header m) && is_some (m_Body m) then Some m else None
  | None => None
  end.
End Codec.

Record OnBoardRequest : Type := mkOnBoard {
  ob_SubscriptionID : string;
  ob_SendResp : bool;
  ob_OUI : string;
  ob_ProductClass : string;
  ob_SerialNumber : string;
  ob_AgentSupportedProtocolVersions : string
}.

Record OperationComplete : Type := mkOperComplete {
  oc_SubscriptionID : string;
  oc_SendResp : bool;
  oc_ObjPath : string;
  oc_CommandName : string;
  oc_CommandKey : string;
  oc_OutputArgs : gmap string string;
  oc_Failed : bool;
  oc_ErrCode : Z;
  oc_ErrMsg : string
}.

Record ValueChange : Type := mkValueChange {
  vc_SubscriptionID : string; vc_SendResp : bool; vc_ParamPath : string; vc_ParamValue : string
}.

Record ObjectCreation : Type := mkObjectCreation {
  cr_SubscriptionID : string; cr_SendResp : bool; cr_ObjPath : string; cr_UniqueKeys : gmap string string
}.

Record ObjectDeletion : Type := mkObjectDeletion {
  dl_SubscriptionID : string; dl_SendResp : bool; dl_ObjPath : string
}.

Record UEvent : Type := mkUEvent {
  ev_SubscriptionID : string;
  ev_SendResp : bool;
  ev_ObjPath : string;
  ev_EventName : string;
  ev_Params : gmap string string
}.

(** A message of type NOTIFY that carries a Notify. *)
Definition notify_of (m : Msg) : option PbNotify :=
  if negb (bool_decide (GetMsgType m = Header_NOTIFY)) then None
  else match GetRequest m with Request_Notify n => Some n | _ => None end.

Definition DecodeOnBoardRequest (m : Msg) : option OnBoardRequest :=
  n ← notify_of m;
  match nt_Notification n with
  | N_OnBoardReq (Some o) =>
      Some (mkOnBoard (nt_SubscriptionId n) (nt_SendResp n) (pob_Oui o) (pob_ProductClass o) (pob_SerialNumber o)
              (pob_Versions o))
  | _ => None
  end.

Definition DecodeOperationComplete (m : Msg) : option OperationComplete :=
  n ← notify_of m;
  match nt_Notification n with
  | N_OperComplete (Some o) =>
      let result := mkOperComplete (nt_SubscriptionId n) (nt_SendResp n) (poc_ObjPath o) (poc_CommandName o)
                      (poc_CommandKey o) in
      Some (match poc_Resp o with
            | OC_ReqOutputArgs args => result args false 0 ""
            | OC_CmdFailure code msg => result ∅ true code msg
            | OC_None => result ∅ false 0 ""
            end)
  | _ => None
  end.

Definition DecodeValueChange (m : Msg) : option ValueChange :=
  n ← notify_of m;
  match nt_Notification n with
  | N_ValueChange v =>
      let '(path, value) := match v with Some v => (pvc_ParamPath v, pvc_ParamValue v) | None => ("", "") end in
      Some (mkValueChange (nt_SubscriptionId n) (nt_SendResp n) path value)
  | _ => None
  end.

Definition DecodeObjectCreation (m : Msg) : option ObjectCreation :=
  n ← notify_of m;
  match nt_Notification n with
  | N_ObjCreation o =>
      let '(path, keys) := match o with Some o => (pcr_ObjPath o, pcr_UniqueKeys o) | None => ("", ∅) end in
      Some (mkObjectCreation (nt_SubscriptionId n) (nt_SendResp n) path keys)
  | _ => None
  end.

Definition DecodeObjectDeletion (m : Msg) : option ObjectDeletion :=
  n ← notify_of m;
  match nt_Notification n with
  | N_ObjDeletion o => Some (mkObjectDeletion (nt_SubscriptionId n) (nt_SendResp n) (default "" o))
  | _ => None
  end.

Definition DecodeEvent (m : Msg) : option UEvent :=
  n ← notify_of m;
  match nt_Notification n with
  | N_Event e =>
      Some (match e with
            | Some e => mkUEvent (nt_SubscriptionId n) (nt_SendResp n) (pev_ObjPath e) (pev_EventName e) (pev_Params e)
            | None => mkUEvent (nt_SubscriptionId n) (nt_SendResp n) "" "" ∅
            end)
  | _ => None
  end.

(** ** Errors *)

Definition ErrCodePermissionDenied : Z := 7006.
Definition ErrCodeNotWriteable : Z := 7013.
Definition ErrCodeObjectDoesNotExist : Z := 7016.
Definition ErrCodeCommandFailure : Z := 7022.

Record ParamError : Type := mkParamError { px_Path : string; px_Code : Z; px_Message : string }.
Record USPError : Type := mkUSPError { ue_Code : Z; ue_Message : string; ue_ParamErrors : list ParamError }.

Inductive Sentinel : Type := ErrNotWriteable | ErrObjectDoesNotExist | ErrPermissionDenied | ErrCommandFailure.

#[global] Instance Sentinel_eq_dec : EqDecision Sentinel.
Proof. solve_decision. Defined.

Definition sentinelForCode (code : Z) : option Sentinel :=
  if code =? ErrCodeNotWriteable then Some ErrNotWriteable
  else if code =? ErrCodeObjectDoesNotExist then Some ErrObjectDoesNotExist
  else if code =? ErrCodePermissionDenied then Some ErrPermissionDenied
  else if code =? ErrCodeCommandFailure then Some ErrCommandFailure
  else None.

(** [errors.Is] on the error of an agent. *)
Definition IsSentinel (e : USPError) (target : Sentinel) : bool :=
  bool_decide (sentinelForCode (ue_Code e) = Some target).

Definition ErrorFromMsg (m : Msg) : option USPError :=
  match m_Body m with
  | Some (Body_Error (Some e)) =>
      Some (mkUSPError (pe_ErrCode e) (pe_ErrMsg e)
              ((λ '(path, code, msg), mkParamError path code msg) <$> pe_ParamErrs e))
  | _ => None
  end.

(** ** Firmware *)

Definition firmwareInstancePattern : regex := RCat [RLit "Device.FirmwareImage."; RDigits; RLit "."].

(** The instance number, the group of the pattern. *)
Definition firmware_number (path : string) : string :=
  let rest := drop_bytes (String.length "Device.FirmwareImage.") path in
  String.substring 0 (String.length rest - 1) rest.

Definition FirmwareImageInstance (path : string) : option string :=
  if negb (MatchString firmwareInstancePattern path) || String.eqb (firmware_number path) "0" then None
  else Some ("Device.FirmwareImage." ++ firmware_number path ++ ".")%string.

Definition bool_text (b : bool) : string := if b then "true" else "false".

Definition FirmwareDownloadOperation (instance url : string) (fileSize : Z) (autoActivate : bool)
    : result (string * gmap string string) :=
  match FirmwareImageInstance instance with
  | None => Err "invalid USP firmware image instance"
  | Some _ =>
      if String.eqb url "" || (fileSize <? 0) then Err "firmware URL and non-negative file size are required"
      else Ok ((instance ++ "Download()")%string,
               <["URL" := url]> (<["FileSize" := Itoa fileSize]> (<["AutoActivate" := bool_text autoActivate]> ∅)))
  end.

(** ** Endpoint identifiers and records: round trips and what is accepted *)

From S2P Require Import Prelude GoStrings Encoding Regex Protected.

(** ** Percent encoding *)

Lemma all_bytes (P : ascii → bool) : forallb P (ascii_of_nat <$> seq 0 256) = true → ∀ c, P c = true.
Proof.
  intros H c. rewrite forallb_forall in H. apply H. rewrite <-list_elem_of_In, list_elem_of_fmap.
  exists (nat_of_ascii c). rewrite ascii_nat_embedding. split; [done|].
  apply elem_of_seq. pose proof (nat_ascii_bounded c). lia.
Qed.

(** What one byte is encoded to reads back as that byte. *)
Definition byte_ok (c : ascii) : bool :=
  if isUSPUnreserved c then negb (Ascii.eqb c "%")
  else match unhex (hex_upper (byte_value c / 16)), unhex (hex_upper (byte_value c mod 16)) with
       | Some hi, Some lo => Ascii.eqb (byte_of (Z.lor (Z.shiftl hi 4) lo)) c
       | _, _ => false
       end.

Lemma byte_ok_all c : byte_ok c = true.
Proof. apply (all_bytes byte_ok). by vm_compute. Qed.

Lemma PercentDecode_Encode s : PercentDecodeUSP (PercentEncodeUSP s) = Some s.
Proof.
  induction s as [|c s IH]; [done|]. pose proof (byte_ok_all c) as Hc. unfold byte_ok in Hc.
  cbn [PercentEncodeUSP]. destruct (isUSPUnreserved c).
  - cbn [PercentDecodeUSP]. rewrite Hc, IH. done.
  - set (h := hex_upper (byte_value c / 16)) in *. set (l := hex_upper (byte_value c mod 16)) in *.
    cbn [PercentDecodeUSP]. change (Ascii.eqb "%" "%") with true. cbn [negb].
    destruct (unhex h) as [hi|]; [|done]. destruct (unhex l) as [lo|]; [|done]. cbn [mbind option_bind].
    rewrite IH. apply Ascii.eqb_eq in Hc. by rewrite Hc.
Qed.

(** ** Cutting at the separator *)

Lemma CutString_separator a s :
  byte_in ":" a = false → CutString (a ++ endpointSeparator ++ s) endpointSeparator = Some (a, s).
Proof.
  unfold endpointSeparator. induction a as [|c a IH]; intros Ha.
  - cbn. unfold CutPrefix, HasPrefix. cbn. by destruct s.
  - cbn [byte_in] in Ha. apply orb_false_iff in Ha as [Hc Ha]. rewrite string_app_cons. cbn [CutString].
    assert (CutPrefix (String c (a ++ "::" ++ s)) "::" = None) as ->.
    { unfold CutPrefix. rewrite HasPrefix_cons. by rewrite Hc. }
    by rewrite (IH Ha).
Qed.

Lemma split_format authority instance :
  byte_in ":" authority = false → authority ≠ EmptyString →
  endpoint_split (FormatEndpointID authority instance) = Some (authority, PercentEncodeUSP instance).
Proof.
  intros Ha Hne. unfold endpoint_split, FormatEndpointID. rewrite (CutString_separator _ _ Ha).
  cbn [mbind option_bind]. by rewrite (proj2 (String.eqb_neq _ _) Hne).
Qed.

(** An endpoint identifier built from an authority scheme without a colon
    gives that authority and the instance back, whatever bytes the instance has;
    so two instances never share an identifier. *)
Theorem endpoint_id_roundtrip authority instance :
  byte_in ":" authority = false → authority ≠ EmptyString →
  Authority (FormatEndpointID authority instance) = authority ∧
  Instance_ (FormatEndpointID authority instance) = instance ∧
  ∀ instance', FormatEndpointID authority instance' = FormatEndpointID authority instance → instance' = instance.
Proof.
  intros Ha Hne. pose proof (λ i, split_format authority i Ha Hne) as Hs.
  unfold Authority, Instance_. rewrite Hs, PercentDecode_Encode. split_and!; [done|done|].
  intros i' He. pose proof (Hs i') as H. rewrite He, Hs in H. injection H as Hi.
  pose proof (PercentDecode_Encode i') as H'. rewrite <-Hi, PercentDecode_Encode in H'. congruence.
Qed.

Lemma endpoint_id_roundtrip_witness : Instance_ (FormatEndpointID "os" "00D09E-Z 9/1") = "00D09E-Z 9/1".
Proof. by apply (endpoint_id_roundtrip "os" "00D09E-Z 9/1"). Defined.

(** ** Records *)

(** The records the controller reads a message from. *)
Definition acceptable (us : string) (r : PbRecord) (payload : string) : Prop :=
  r_Version r ∈ SupportedRecordVersions ∧ r_PayloadSecurity r = Record_PLAINTEXT ∧ r_ToId r = us ∧
  r_RecordType r = Rec_NoSessionContext payload ∧ payload ≠ EmptyString.

Section Records.
Context `{W : ProtoWire}.

Lemma version_supported v : existsb (String.eqb v) SupportedRecordVersions = true ↔ v ∈ SupportedRecordVersions.
Proof.
  rewrite existsb_exists. setoid_rewrite <-list_elem_of_In. split; [|by exists v; rewrite String.eqb_refl].
  intros (w & Hw & ->%String.eqb_eq). done.
Qed.

(** A record is accepted, with no error, exactly when it is a message
    addressed to this controller in plain text and of a supported version; what
    the rest of the controller sees is then that record's sender and payload. *)
Theorem record_accepted_iff wire us d :
  DecodeRecord wire us = (Some d, None) ↔
  ∃ r, unmarshal_record wire = Some r ∧ acceptable us r (dr_Payload d) ∧
       d = mkDecoded (r_FromId r) us (r_Version r) (dr_Payload d) RecordNoSessionContext "" 0.
Proof.
  unfold DecodeRecord, acceptable. destruct (unmarshal_record wire) as [r|] eqn:Er; [|naive_solver].
  pose proof (version_supported (r_Version r)) as Hv.
  destruct (existsb _ _); cbn [negb]; [|naive_solver].
  destruct (bool_decide _) eqn:Hp; bool_to_prop; cbn [negb]; [|naive_solver].
  destruct (String.eqb (r_ToId r) us) eqn:Hu; bool_to_prop; cbn [negb]; [|naive_solver].
  split.
  - intros H. exists r. destruct (r_RecordType r) as [|payload| | | | | |]; try done. cbn [record_type] in H.
    destruct (String.eqb payload "") eqn:Hne; [done|]. bool_to_prop. injection H as <-. naive_solver.
  - intros (r' & [= <-] & (_ & _ & _ & Ht & Hne) & Hd). rewrite Ht. cbn [record_type].
    rewrite (proj2 (String.eqb_neq _ _) Hne). rewrite Hd. cbn [dr_Payload]. by subst.
Qed.

(** A record the controller encodes for an agent is read back by the agent's
    side of the same code as that payload from the controller. *)
Theorem record_roundtrip_from_to `{!ProtoLaws W} from to payload wire :
  payload ≠ EmptyString → EncodeRecord from to payload = Some wire →
  DecodeRecord wire to = (Some (mkDecoded from to RecordVersion payload RecordNoSessionContext "" 0), None).
Proof.
  intros Hne H%record_roundtrip. apply record_accepted_iff. eexists. split; [exact H|]. cbn.
  split; [|done]. unfold acceptable. cbn. split_and!; try done. unfold RecordVersion. set_solver.
Qed.
End Records.

(** ** A wire format

    The records of [EncodeRecord] and the reads of one path, their members
    separated by a bar; nothing else marshals. *)

Definition bar_record (r : PbRecord) : option string :=
  match r_RecordType r with
  | Rec_NoSessionContext payload =>
      if String.eqb (r_Version r) RecordVersion && bool_decide (r_PayloadSecurity r = Record_PLAINTEXT)
         && negb (byte_in "|" (r_ToId r)) && negb (byte_in "|" (r_FromId r))
      then Some (r_ToId r ++ String "|" (r_FromId r ++ String "|" payload))%string else None
  | _ => None
  end.

Definition read_record (w : string) : option PbRecord :=
  '(to, rest) ← Cut w "|";
  '(from, payload) ← Cut rest "|";
  Some (mkPbRecord RecordVersion to from Record_PLAINTEXT (Rec_NoSessionContext payload)).

Definition bar_msg (m : Msg) : result string :=
  match m with
  | mkMsg (Some (mkHeader id Header_GET)) (Some (Body_Request (Request_Get [path] 0))) =>
      if byte_in "|" id then Err "reserved byte" else Ok (id ++ String "|" path)%string
  | _ => Err "unsupported message"
  end.

Definition read_msg (w : string) : option Msg :=
  '(id, path) ← Cut w "|";
  Some (mkMsg (Some (mkHeader id Header_GET)) (Some (Body_Request (Request_Get [path] 0)))).

#[export] Instance bar_wire : ProtoWire := {|
  marshal_record := bar_record; unmarshal_record := read_record; marshal_msg := bar_msg; unmarshal_msg := read_msg
|}.

#[export] Instance bar_wire_laws : ProtoLaws bar_wire.
Proof.
  constructor.
  - intros [v to from sec body] w H. cbn in *. unfold bar_record, read_record in *. cbn in *.
    destruct body as [|payload| | | | | |]; try done. destruct (_ && _) eqn:E; [|done]. bool_to_prop. subst.
    injection H as <-. rewrite Cut_app by done. cbn. by rewrite Cut_app by done.
  - intros [h b] w H. cbn in *. unfold bar_msg, read_msg in *.
    repeat (break_match_hyp H; simplify_eq). by rewrite Cut_app by done.
Qed.

Lemma record_roundtrip_from_to_witness :
  DecodeRecord (W := bar_wire) "os::a|self::c|hello" "os::a"
  = (Some (mkDecoded "self::c" "os::a" RecordVersion "hello" RecordNoSessionContext "" 0), None).
Proof. by apply (record_roundtrip_from_to (W := bar_wire) "self::c" "os::a" "hello"). Defined.
