(* ===== verification/UspConn.v ===== *)
(** * USP connections ([internal/usp/mtp/registry.go]) and the agents linked to
    devices ([internal/devices/usp_agents.go])

    A connection is a Go value compared by identity: [c_id] is that identity, the
    endpoint and the transport are what its methods return. *)

From S2P Require Import Prelude GoStrings.

Inductive Kind : Type := KindWebSocket | KindMQTT.

#[global] Instance Kind_eq_dec : EqDecision Kind.
Proof. solve_decision. Defined.

Definition kind_text (k : Kind) : string := match k with KindWebSocket => "WebSocket" | KindMQTT => "MQTT" end.

Record Conn : Type := mkConn { c_id : nat; c_endpoint : string; c_kind : Kind }.

#[global] Instance Conn_eq_dec : EqDecision Conn.
Proof. solve_decision. Defined.

(** ** The registry of live connections, by endpoint *)

Abbreviation Registry := (gmap string Conn).

(** [Add] returns the connection it replaced. *)
Definition Add (c : Conn) (r : Registry) : option Conn * Registry := (r !! c_endpoint c, <[c_endpoint c := c]> r).

Definition Remove (c : Conn) (r : Registry) : bool * Registry :=
  match r !! c_endpoint c with
  | Some existing => if bool_decide (existing = c) then (true, delete (c_endpoint c) r) else (false, r)
  | None => (false, r)
  end.

Definition registry_ok (r : Registry) : Prop := map_Forall (λ e c, c_endpoint c = e) r.

Lemma registry_ok_Add c r : registry_ok r → registry_ok (Add c r).2.
Proof. intros H. by apply map_Forall_insert_2. Qed.

Lemma registry_ok_Remove c r : registry_ok r → registry_ok (Remove c r).2.
Proof.
  intros H. unfold Remove. destruct (r !! c_endpoint c) as [c'|]; [|done].
  destruct (bool_decide _); [|done]. by apply map_Forall_delete.
Qed.

(** Only the registered connection is ever removed. *)
Lemma Remove_other c c' r : registry_ok r → r !! c_endpoint c' = Some c' → c ≠ c' →
  (Remove c r).2 !! c_endpoint c' = Some c'.
Proof.
  intros Hok Hr Hne. unfold Remove. destruct (r !! c_endpoint c) as [e|] eqn:E; [|done].
  destruct (bool_decide (e = c)) eqn:D; [|done]. bool_to_prop. subst e. simpl.
  rewrite lookup_delete_ne; [done|]. intros He. rewrite He in E. congruence.
Qed.

(** ** The table [usp_agents], by device; the endpoint is unique *)

Record UspAgent : Type := mkUspAgent {
  ua_EndpointID : string;
  ua_MTPKind : string;
  ua_Connected : bool;
  ua_LastConnectedAt : GoTime;
  ua_LastSeenAt : GoTime;
  ua_SupportedProtocolVersions : list string;
  ua_ControllerRole : string
}.

Abbreviation Agents := (gmap string UspAgent).

Definition ErrEndpointIDInUse : string := "usp endpoint id already linked to a different device".

Definition endpoint_taken (deviceID endpointID : string) (tab : Agents) : bool :=
  existsb (λ kv : string * UspAgent, negb (String.eqb kv.1 deviceID) && String.eqb (ua_EndpointID kv.2) endpointID)
    (map_to_list tab).

Definition LinkUspAgent (now : GoTime) (deviceID endpointID mtpKind : string) (versions : list string) (tab : Agents)
    : result Agents :=
  if endpoint_taken deviceID endpointID tab then Err ErrEndpointIDInUse
  else
    let kept := match tab !! deviceID with
                | Some old => (if (length versions =? 0)%nat then ua_SupportedProtocolVersions old else versions,
                               ua_ControllerRole old)
                | None => (versions, "")
                end in
    Ok (<[deviceID := mkUspAgent endpointID mtpKind true now now kept.1 kept.2]> tab).

Definition disconnected_row (now : GoTime) (a : UspAgent) : UspAgent :=
  mkUspAgent (ua_EndpointID a) (ua_MTPKind a) false (ua_LastConnectedAt a) now (ua_SupportedProtocolVersions a)
    (ua_ControllerRole a).

Definition MarkUspAgentDisconnected (now : GoTime) (deviceID endpointID : string) (tab : Agents) : Agents :=
  (update_key deviceID (λ a, String.eqb (ua_EndpointID a) endpointID) (disconnected_row now) tab).1.

(** The device the endpoint is linked to. *)
Definition GetUspAgentByEndpointID (tab : Agents) (endpointID : string) : option (string * UspAgent) :=
  List.find (λ kv : string * UspAgent, String.eqb (ua_EndpointID kv.2) endpointID) (map_to_list tab).

Definition GetUspAgentByDeviceID (tab : Agents) (deviceID : string) : option UspAgent := tab !! deviceID.

Definition agents_ok (tab : Agents) : Prop :=
  ∀ d1 d2 a1 a2, tab !! d1 = Some a1 → tab !! d2 = Some a2 → ua_EndpointID a1 = ua_EndpointID a2 → d1 = d2.

Lemma endpoint_free dev e tab : endpoint_taken dev e tab = false →
  ∀ d a, tab !! d = Some a → ua_EndpointID a = e → d = dev.
Proof.
  intros H d a Ha He. unfold endpoint_taken in H. destruct (decide (d = dev)) as [->|Hne]; [done|]. exfalso.
  revert H. apply eq_true_false_abs. apply existsb_exists. exists (d, a). split.
  - by apply list_elem_of_In, elem_of_map_to_list.
  - simpl. by rewrite (proj2 (String.eqb_neq _ _) Hne), He, String.eqb_refl.
Qed.

Lemma LinkUspAgent_ok now dev e k vs tab tab' :
  LinkUspAgent now dev e k vs tab = Ok tab' → agents_ok tab → agents_ok tab'.
Proof.
  unfold LinkUspAgent. destruct (endpoint_taken dev e tab) eqn:Ht; [done|]. pose proof (endpoint_free _ _ _ Ht) as Hf.
  cbv zeta. intros [= <-] Hok d1 d2 a1 a2. rewrite !lookup_insert.
  repeat case_decide; intros; simplify_eq/=; eauto; symmetry; eauto.
Qed.

Lemma LinkUspAgent_spec now dev e k vs tab tab' :
  LinkUspAgent now dev e k vs tab = Ok tab' →
  (∃ a, tab' !! dev = Some a ∧ ua_EndpointID a = e ∧ ua_Connected a = true) ∧
  ∀ d, d ≠ dev → tab' !! d = tab !! d.
Proof.
  unfold LinkUspAgent. destruct (endpoint_taken dev e tab); [done|]. cbv zeta. intros [= <-]. split.
  - eexists. by rewrite lookup_insert_eq.
  - intros d Hd. by rewrite lookup_insert_ne.
Qed.

Lemma MarkUspAgentDisconnected_ok now dev e tab : agents_ok tab → agents_ok (MarkUspAgentDisconnected now dev e tab).
Proof.
  intros Hok d1 d2 a1 a2. unfold MarkUspAgentDisconnected. rewrite !lookup_update_key.
  repeat case_decide; subst; try (destruct (tab !! d1) eqn:?); try (destruct (tab !! d2) eqn:?);
    intros; simplify_eq/=; repeat case_match; simplify_eq/=; eauto.
Qed.

Lemma GetUspAgentByEndpointID_some tab e dev a :
  GetUspAgentByEndpointID tab e = Some (dev, a) → tab !! dev = Some a ∧ ua_EndpointID a = e.
Proof.
  unfold GetUspAgentByEndpointID. intros [Hin He]%List.find_some. simpl in He. bool_to_prop. subst.
  by apply list_elem_of_In, elem_of_map_to_list in Hin.
Qed.

Lemma GetUspAgentByEndpointID_linked tab dev a :
  agents_ok tab → tab !! dev = Some a → GetUspAgentByEndpointID tab (ua_EndpointID a) = Some (dev, a).
Proof.
  intros Hok Ha. destruct (GetUspAgentByEndpointID tab (ua_EndpointID a)) as [[d b]|] eqn:E.
  - apply GetUspAgentByEndpointID_some in E as [Hb He]. assert (d = dev) as -> by eauto. congruence.
  - exfalso. unfold GetUspAgentByEndpointID in E. pose proof (List.find_none _ _ E (dev, a)) as H. simpl in H.
    rewrite String.eqb_refl in H. assert (true = false); [|done]. apply H.
    by apply list_elem_of_In, elem_of_map_to_list.
Qed.
