(* ===== verification/UspRequest.v ===== *)
(** * Jobs as USP requests, and what an answer means
    ([cmd/uspc/dispatch.go], [classifyResponse] of [dispatcher.go])

    The text of a JSON error is not modelled: a payload that does not decode
    fails with the text that names the payload. *)

From S2P Require Import Prelude GoStrings Json JobModel JobStore Discovery ParamCache Usp.

(** ** Requests ([buildUSPRequest]) *)

Inductive Build : Type :=
| Built (msg : string)
| ErrUnsupportedOverUSP
| BuildError (e : string).

(** [strings.LastIndex(s, ".") + 1] *)
Fixpoint object_length (s : string) : nat :=
  match s with
  | EmptyString => 0
  | String c s' =>
      match object_length s' with
      | O => if Ascii.eqb c "." then 1%nat else 0%nat
      | n => S n
      end
  end.

Definition object_of (name : string) : string := String.substring 0 (object_length name) name.
Definition leaf_of (name : string) : string := drop_bytes (object_length name) name.

Definition group_write (grouped : gmap string (gmap string string)) (p : ParameterWrite) : gmap string (gmap string string) :=
  <[object_of (pw_Name p) := <[leaf_of (pw_Name p) := pw_Value p]> (default ∅ (grouped !! object_of (pw_Name p)))]> grouped.

Definition groupParametersByObjectPath (params : list ParameterWrite) : gmap string (gmap string string) :=
  foldl group_write ∅ params.

(** The USP members of a TR-143 payload: URL, command, length. *)
Definition decode_usp_transfer (upload : bool) (j : json) : option (string * string * Z) :=
  decode_struct (λ m,
    u ← decode_string (member "url" m);
    _ ← decode_string (member "prefix" m);
    c ← decode_string (member "usp_command" m);
    n ← (if upload then decode_uint64 (member "test_file_length" m) else Some 0);
    _ ← decode_plan m;
    Some (u, c, n)) (Some j).

Definition string_map_of (l : list (string * string)) : gmap string string := list_to_map l.

Section Build.
Context `{W : ProtoWire}.

Definition built (r : result string) : Build := match r with Ok w => Built w | Err e => BuildError e end.

(** [json.Unmarshal] of the payload, then the request. *)
Definition with_payload {A} (what : string) (payload : option A) (k : A → Build) : Build :=
  match payload with
  | Some p => k p
  | None => BuildError ("unmarshal " ++ what ++ " payload")%string
  end.

Definition firmware_credentials (p : FirmwareDownloadPayload) (args : gmap string string) : gmap string string :=
  let args := if String.eqb (fd_Username p) "" then args else <["Username" := fd_Username p]> args in
  if String.eqb (fd_Password p) "" then args else <["Password" := fd_Password p]> args.

Definition buildUSPRequest (msgID : string) (job : Job) : Build :=
  let operate command args := built (EncodeOperate msgID command (CommandKey job) true (string_map_of args)) in
  match Type_ job with
  | TypeGetParameter =>
      with_payload "GET_PARAMETER" (decode_GetParameter (Payload job)) (λ p,
        if gp_Instances p then built (EncodeGetInstances msgID (gp_Paths p) true)
        else built (EncodeGet msgID (gp_Paths p) 0))
  | TypeSetParameter =>
      with_payload "SET_PARAMETER" (decode_SetParameter (Payload job)) (λ p,
        if sp_VerificationPending p then built (EncodeGet msgID (VerificationPaths p) 0)
        else built (EncodeSet msgID false (groupParametersByObjectPath (sp_Parameters p))))
  | TypeAddObject =>
      with_payload "ADD_OBJECT" (decode_AddObject (Payload job)) (λ p,
        built (EncodeAdd msgID true (ao_ObjectPath p)
                 (foldl (λ m w, <[pw_Name w := pw_Value w]> m) ∅ (ao_Parameters p))))
  | TypeDeleteObject =>
      with_payload "DELETE_OBJECT" (decode_DeleteObject (Payload job)) (λ p,
        built (EncodeDelete msgID true [do_ObjectPath p]))
  | TypeReboot => operate "Device.Reboot()" [("Cause", "RemoteReboot")]
  | TypeFactoryReset => operate "Device.FactoryReset()" [("Cause", "RemoteFactoryReset")]
  | TypeDiagnosticsPing =>
      with_payload "DIAGNOSTICS_PING" (decode_DiagnosticsPing (Payload job)) (λ p,
        operate "Device.IP.Diagnostics.IPPing()"
          [("ProtocolVersion", "Any"); ("Host", ping_Host p); ("NumberOfRepetitions", Itoa (ping_NumberOfRepetitions p));
           ("Timeout", Itoa (ping_Timeout p)); ("DataBlockSize", Itoa (ping_DataBlockSize p)); ("DSCP", Itoa (ping_DSCP p))])
  | TypeDiagnosticsTraceroute =>
      with_payload "DIAGNOSTICS_TRACEROUTE" (decode_DiagnosticsTraceroute (Payload job)) (λ p,
        operate "Device.IP.Diagnostics.TraceRoute()"
          [("ProtocolVersion", "Any"); ("Host", trace_Host p); ("NumberOfTries", Itoa (trace_NumberOfTries p));
           ("Timeout", Itoa (trace_Timeout p)); ("DataBlockSize", Itoa (trace_DataBlockSize p));
           ("DSCP", Itoa (trace_DSCP p)); ("MaxHopCount", Itoa (trace_MaxHopCount p))])
  | TypeDiagnosticsDownload =>
      with_payload "DIAGNOSTICS_DOWNLOAD" (decode_usp_transfer false (Payload job)) (λ '(url, command, _),
        if negb (String.eqb command "Device.IP.Diagnostics.DownloadDiagnostics()") then ErrUnsupportedOverUSP
        else operate command [("DownloadURL", url); ("ProtocolVersion", "Any")])
  | TypeDiagnosticsUpload =>
      with_payload "DIAGNOSTICS_UPLOAD" (decode_usp_transfer true (Payload job)) (λ '(url, command, length),
        if negb (String.eqb command "Device.IP.Diagnostics.UploadDiagnostics()") then ErrUnsupportedOverUSP
        else operate command [("UploadURL", url); ("ProtocolVersion", "Any");
                              ("TestFileLength", Itoa (if length =? 0 then 1048576 else length))])
  | TypeParameterDiscovery =>
      with_payload "PARAMETER_DISCOVERY" (decode_ParameterDiscovery (Payload job)) (λ p,
        built (EncodeGetSupportedDM msgID [RequestPath p] (pd_Incremental p) true true true))
  | TypeFirmwareDownload =>
      with_payload "FIRMWARE_DOWNLOAD" (decode_FirmwareDownload (Payload job)) (λ p,
        if String.eqb (fd_USPInstance p) "" then ErrUnsupportedOverUSP
        else match FirmwareDownloadOperation (fd_USPInstance p) (fd_URL p) (fd_FileSize p) true with
             | Err e => BuildError e
             | Ok (command, args) =>
                 built (EncodeOperate msgID command (CommandKey job) true (firmware_credentials p args))
             end)
  | _ => ErrUnsupportedOverUSP
  end.

(** The sentinel is returned for the jobs [usp_unsupported] names, and no other. *)
Lemma decode_usp_transfer_command upload j :
  decode_usp_command upload j = (λ '(_, c, _), c) <$> decode_usp_transfer upload j.
Proof.
  unfold decode_usp_command, decode_usp_transfer, decode_struct.
  assert (∀ m,
    (_ ← decode_string (member "url" m); _ ← decode_string (member "prefix" m);
     c ← decode_string (member "usp_command" m);
     _ ← (if upload then decode_uint64 (member "test_file_length" m) else Some 0); _ ← decode_plan m; Some c)
    = (λ '(_, c, _), c) <$>
      (u ← decode_string (member "url" m); _ ← decode_string (member "prefix" m);
       c ← decode_string (member "usp_command" m);
       n ← (if upload then decode_uint64 (member "test_file_length" m) else Some 0); _ ← decode_plan m;
       Some (u, c, n))) as H.
  { intros m. destruct (decode_string (member "url" m)); [|done]. destruct (decode_string (member "prefix" m)); [|done].
    destruct (decode_string (member "usp_command" m)); [|done].
    destruct (if upload then _ else _); [|done]. by destruct (decode_plan m). }
  destruct j; try reflexivity; exact (H _).
Qed.

Lemma built_supported r : built r ≠ ErrUnsupportedOverUSP.
Proof. by destruct r. Qed.

Lemma build_unsupported msgID job : buildUSPRequest msgID job = ErrUnsupportedOverUSP ↔ usp_unsupported job = true.
Proof.
  assert (∀ r, built r = ErrUnsupportedOverUSP ↔ false = true) as Hb.
  { intros r. split; [by intros H%built_supported|done]. }
  unfold buildUSPRequest, usp_unsupported, with_payload, usp_command_other. rewrite !decode_usp_transfer_command.
  destruct (Type_ job); try done; try apply Hb;
    (match goal with |- context [match ?d with Some _ => _ | None => _ end = ErrUnsupportedOverUSP] => destruct d end;
     [|done]); try apply Hb.
  all: repeat first
    [ done
    | apply Hb
    | match goal with p : string * string * Z |- _ => destruct p as [[? ?] ?]; cbn end
    | match goal with
      | |- context [if ?b then _ else _] => destruct b; cbn
      | |- context [match ?o with Ok _ => _ | Err _ => _ end] => destruct o as [[? ?]|]
      end ].
Qed.
End Build.

(** ** Answers ([classifyResponse]) *)

Record dispatchResultDetail : Type := mkDetail { det_MsgType : string; det_Params : gmap string string }.

Definition detail_json (d : dispatchResultDetail) : json :=
  JObj ([("msg_type", JStr (det_MsgType d))]
        ++ (if (size (det_Params d) =? 0)%nat then []
            else [("params", JObj ((λ kv : string * string, (kv.1, JStr kv.2)) <$> map_to_list (det_Params d)))])).

Record responseOutcome : Type := mkOutcome {
  out_stillPending : bool;
  out_uspErr : option USPError;
  out_detail : dispatchResultDetail;
  out_discoveredNames : gmap string bool;
  out_discoveredCapabilities : list SupportedCapability;
  out_instances : gmap string (list string)
}.

Definition usp_error (code : Z) (msg : string) : USPError := mkUSPError code msg [].
Definition no_detail : dispatchResultDetail := mkDetail "" ∅.
Definition failed_outcome (e : USPError) : responseOutcome := mkOutcome false (Some e) no_detail ∅ [] ∅.
Definition pending_outcome : responseOutcome := mkOutcome true None no_detail ∅ [] ∅.
Definition done_outcome (d : dispatchResultDetail) : responseOutcome := mkOutcome false None d ∅ [] ∅.

Definition code_error (code : Z) (msg : string) : option USPError :=
  if code =? 0 then None else Some (usp_error code msg).

Definition resolvedParameterPath (resolvedPath name : string) : string :=
  if HasPrefix name resolvedPath then name else (resolvedPath ++ name)%string.

Section Classify.
(** The order in which Go visits the parameters of a result. *)
Context (range : ∀ A : Type, gmap string A → list (string * A)).

Definition resolved_params (m : gmap string string) (r : ResolvedPathResult) : gmap string string :=
  foldl (λ m kv, <[resolvedParameterPath (rp_ResolvedPath r) kv.1 := kv.2]> m) m (range string (rp_ResultParams r)).

Definition get_params (results : list RequestedPathResult) : gmap string string :=
  foldl (λ m req, foldl resolved_params m (rq_Resolved req)) ∅ results.

Definition classifyGetResp (msgType : string) (results : list RequestedPathResult) : responseOutcome :=
  mkOutcome false (first_error (λ r, code_error (rq_ErrCode r) (rq_ErrMsg r)) results)
    (mkDetail msgType (get_params results)) ∅ [] ∅.

Definition set_error (r : SetOperStatus) : option USPError :=
  match r with
  | Set_None => None
  | Set_Failure code msg => Some (usp_error code msg)
  | Set_Success instances => first_error (first_error (λ '(code, msg), code_error code msg)) instances
  end.

Definition classifySetResp (msgType : string) (results : list SetOperStatus) : responseOutcome :=
  match first_error set_error results with
  | Some e => failed_outcome e
  | None => done_outcome (mkDetail msgType ∅)
  end.

Definition classifyGetInstancesResp (msgType : string) (results : list InstancesResult) : responseOutcome :=
  match first_error (λ r, code_error (ir_ErrCode r) (ir_ErrMsg r)) results with
  | Some e => failed_outcome e
  | None => mkOutcome false None (mkDetail msgType ∅) ∅ []
              (foldl (λ m r, <[ir_RequestedPath r := ir_CurrInsts r]> m) ∅ results)
  end.

Definition add_error (r : string * AddStatus) : option USPError :=
  match r.2 with Add_Failure code msg => Some (usp_error code msg) | _ => None end.

Definition classifyAddResp (msgType : string) (results : list (string * AddStatus)) : responseOutcome :=
  match first_error add_error results with
  | Some e => failed_outcome e
  | None => done_outcome (mkDetail msgType
              (foldl (λ m r, match r.2 with Add_Success path _ _ => <[r.1 := path]> m | _ => m end) ∅ results))
  end.

Definition delete_error (r : string * DeleteStatus) : option USPError :=
  match r.2 with Delete_Failure code msg => Some (usp_error code msg) | _ => None end.

Definition classifyDeleteResp (msgType : string) (results : list (string * DeleteStatus)) : responseOutcome :=
  match first_error delete_error results with
  | Some e => failed_outcome e
  | None => done_outcome (mkDetail msgType
              (foldl (λ m r, match r.2 with Delete_Success paths _ => <[r.1 := Join paths ","]> m | _ => m end) ∅ results))
  end.

Definition operate_error (r : OperateStatus) : option USPError :=
  match r with Op_CmdFailure code msg => Some (usp_error code msg) | _ => None end.
Definition operate_accepted (r : OperateStatus) : bool := match r with Op_ReqObjPath _ => true | _ => false end.

Definition classifyOperateResp (msgType : string) (results : list OperateStatus) : responseOutcome :=
  match first_error operate_error results with
  | Some e => failed_outcome e
  | None =>
      if existsb operate_accepted results then pending_outcome
      else done_outcome (mkDetail msgType
             (foldl (λ m r, match r with Op_ReqOutputArgs args => args ∪ m | _ => m end) ∅ results))
  end.

Definition nonempty_paths (objectPath : string) (names : list string) : list string :=
  List.filter (λ p, negb (String.eqb p "")) (resolvedParameterPath objectPath <$> names).

Definition writable_access (a : ParamAccess) : bool :=
  bool_decide (a = PARAM_READ_WRITE) || bool_decide (a = PARAM_WRITE_ONLY).

Definition add_param (objectPath : string) (acc : gmap string bool * list SupportedCapability) (p : SupportedParam)
    : gmap string bool * list SupportedCapability :=
  let name := resolvedParameterPath objectPath (sp_ParamName p) in
  if String.eqb name "" then acc
  else (<[name := writable_access (sp_Access p)]> acc.1,
        acc.2 ++ [mkSupportedCapability name (writable_access (sp_Access p)) (sp_ValueType p)
                    (ParamAccess_name (sp_Access p)) (sp_ValueChange p) [] []]).

Definition add_object (acc : gmap string bool * list SupportedCapability) (obj : SupportedObject)
    : gmap string bool * list SupportedCapability :=
  let path := so_Path obj in
  if String.eqb path "" then acc
  else
    let commands := nonempty_paths path (so_Commands obj) in
    let names := foldl (λ m c, <[c := false]> m) (<[path := false]> acc.1) commands in
    let capability := mkSupportedCapability path false "" "" "" commands (nonempty_paths path (so_Events obj)) in
    foldl (add_param path) (names, acc.2 ++ [capability]) (so_Params obj).

Definition classifyGetSupportedDMResp (msgType : string) (results : list RequestedObjectResult) : responseOutcome :=
  match first_error (λ r, code_error (ro_ErrCode r) (ro_ErrMsg r)) results with
  | Some e => failed_outcome e
  | None =>
      let acc := foldl (λ acc r, foldl add_object acc (ro_SupportedObjs r)) (∅, []) results in
      mkOutcome false None
        (mkDetail msgType
           (foldl (λ m r, <[ro_ReqObjPath r := (Itoa (Z.of_nat (length (ro_SupportedObjs r)))
                                                 ++ " supported objects discovered")%string]> m) ∅ results))
        acc.1 acc.2 ∅
  end.

Definition classifyResponse (m : Msg) : responseOutcome :=
  let msgType := MsgType_name (GetMsgType m) in
  match GetResponse m with
  | Response_GetResp r => classifyGetResp msgType r
  | Response_SetResp r => classifySetResp msgType r
  | Response_GetInstancesResp r => classifyGetInstancesResp msgType r
  | Response_AddResp r => classifyAddResp msgType r
  | Response_DeleteResp r => classifyDeleteResp msgType r
  | Response_OperateResp r => classifyOperateResp msgType r
  | Response_GetSupportedDmResp r => classifyGetSupportedDMResp msgType r
  | _ => done_outcome (mkDetail msgType ∅)
  end.
End Classify.
