(* ===== verification/UspDispatch.v ===== *)
(** * The USP dispatcher ([cmd/uspc/dispatcher.go])

    One connection of a device at a time is given one job at a time: [tryDispatch]
    leases, binds, builds and sends; [handleResponse] and
    [handleOperationComplete] settle the job an answer belongs to and dispatch
    the next.

    The state is the database ([Gateway]), the map of outstanding requests, and
    the records handed to a connection; the links of agents to devices and the
    registry of connections are read only.  [d_next] counts the message
    identifiers drawn ([usp.NewMsgID] is [ue_msg] at that count); [ue_send] says
    whether a connection takes a record.  The repositories are those [main.go]
    wires; captures, logs and metrics are not state, and the errors the functions
    return are only logged by their callers. *)

From S2P Require Import Prelude GoStrings Json JobModel JobStore Discovery Devices ParamCache Onboarding Sessions Render.
From S2P Require Import Gateway Usp UspConn UspRequest.

Record UspEnv : Type := mkUspEnv {
  ue_env : Env;
  ue_msg : nat → string;
  ue_send : Conn → string → bool
}.

Record pendingDispatch : Type := mkPending { pj_job : Job; pj_conn : Conn }.

Record Dispatcher : Type := mkDispatcher {
  d_gate : Gateway;
  d_pending : gmap string pendingDispatch;
  d_sent : list (Conn * string);
  d_next : nat
}.

Definition set_gate (g : Gateway) (d : Dispatcher) : Dispatcher := mkDispatcher g (d_pending d) (d_sent d) (d_next d).
Definition disp_jobs (f : gmap string Job → gmap string Job) (d : Dispatcher) : Dispatcher :=
  set_gate (on_jobs f (d_gate d)) d.
Definition set_pending (p : gmap string pendingDispatch) (d : Dispatcher) : Dispatcher :=
  mkDispatcher (d_gate d) p (d_sent d) (d_next d).
Definition draw_msg (d : Dispatcher) : Dispatcher := mkDispatcher (d_gate d) (d_pending d) (d_sent d) (S (d_next d)).

(** ** Capabilities kept in the payload of a walk ([encoding/json]) *)

Definition encode_capability (c : SupportedCapability) : json :=
  JObj ([("path", JStr (sc_Path c)); ("writable", JBool (sc_Writable c))]
        ++ omit_string "value_type" (sc_ValueType c) ++ omit_string "access" (sc_Access c)
        ++ omit_string "value_change" (sc_ValueChange c) ++ omit_list "commands" JStr (sc_Commands c)
        ++ omit_list "events" JStr (sc_Events c)).

Definition decode_capability (j : json) : option SupportedCapability :=
  decode_struct (λ m,
    p ← decode_string (member "path" m);
    w ← decode_bool (member "writable" m);
    vt ← decode_string (member "value_type" m);
    a ← decode_string (member "access" m);
    vc ← decode_string (member "value_change" m);
    cs ← decode_strings (member "commands" m);
    es ← decode_strings (member "events" m);
    Some (mkSupportedCapability p w vt a vc cs es)) (Some j).

Definition add_capabilities (caps : list SupportedCapability) (p : ParameterDiscoveryPayload)
    : ParameterDiscoveryPayload :=
  mkParameterDiscoveryPayload (pd_Root p) (pd_FallbackRoot p) (pd_IsFallback p) (pd_Incremental p) (pd_Cursor p)
    (pd_Pending p) (pd_Visited p) (pd_Names p) (pd_Skipped p) (pd_Retried p) (pd_Firmware p)
    (foldl (λ m c, <[sc_Path c := encode_capability c]> m) (pd_Capabilities p) caps) (pd_Merge p).

Definition capability_rows (params : Params) (dev : string) : list Capability :=
  match p_names params !! dev with
  | Some r => (λ c, mkCapability (sc_Path c) (sc_Access c)) <$> nr_capabilities r
  | None => []
  end.

Section Dispatcher.
Context `{W : ProtoWire} (controllerID : string).
Context (agents : Agents) (registry : Registry) (ue : UspEnv).

Definition d_env : Env := ue_env ue.
Definition d_now : GoTime := e_now d_env.

(** ** Settling a job *)

Definition stillResolvable (job : Job) (d : Dispatcher) : bool :=
  match ByID (g_jobs (d_gate d)) (ID job) with
  | None => true
  | Some current => status_eqb (Status current) StatusRPCSent
  end.

Definition mark_failure (job : Job) (code msg : string) (d : Dispatcher) : Dispatcher :=
  if stillResolvable job d then disp_jobs (MarkFailed d_now (ID job) code msg) d else d.

(** ** Dispatching the next job

    [tryDispatch] is two parts that nothing holds together: looking up the
    device's connection and asking whether a request is in flight, and the lease
    with everything after it.  Another goroutine may run in between. *)

(** The live connection of the device's agent, when no request is in flight. *)
Definition dispatch_ready (dev : string) (d : Dispatcher) : option Conn :=
  match GetUspAgentByDeviceID agents dev with
  | None => None
  | Some agent =>
      match registry !! ua_EndpointID agent with
      | None => None
      | Some conn => if HasOutstandingRPC (g_jobs (d_gate d)) dev then None else Some conn
      end
  end.

(** The lease, the request and the send; a job whose firmware changed is settled
    and the device to try again is returned. *)
Definition lease_and_send (conn : Conn) (dev : string) (d : Dispatcher) : Dispatcher * option string :=
  match LeaseForUSPTypes (e_locked d_env) (e_owner d_env) d_now dev uspDispatchableTypes (g_jobs (d_gate d)) with
  | (None, _) => (d, None)
  | (Some job, leased) =>
      let msgID := ue_msg ue (d_next d) in
      let d1 := draw_msg (disp_jobs (λ _, leased) d) in
      let params := g_params (d_gate d1) in
      match BindFirmware (Firmware (GetCache params (DeviceID job))) (capability_rows params (DeviceID job))
              job (g_jobs (d_gate d1)) with
      | (Err e, _) => (mark_failure job "FIRMWARE_CHANGED" e d1, Some (DeviceID job))
      | (Ok job', bound) =>
          let d2 := disp_jobs (λ _, bound) d1 in
          (match buildUSPRequest msgID job' with
           | ErrUnsupportedOverUSP => disp_jobs (Requeue d_now (ID job')) d2
           | BuildError e => disp_jobs (MarkFailed d_now (ID job') "USP_DISPATCH_BUILD_ERROR" e) d2
           | Built msg =>
               match EncodeRecord controllerID (c_endpoint conn) msg with
               | None => d2
               | Some record =>
                   if ue_send ue conn record
                   then mkDispatcher (d_gate d2) (<[msgID := mkPending job' conn]> (d_pending d2))
                          (d_sent d2 ++ [(conn, record)]) (d_next d2)
                   else set_pending (delete msgID (d_pending d2)) d2
               end
           end, None)
      end
  end.

(** The two parts in a row, with no other goroutine in between.  A job whose
    firmware changed is settled and the next one tried, so the function calls
    itself; the fuel bounds the number of jobs it may fail that way. *)
Fixpoint try_dispatch (fuel : nat) (dev : string) (d : Dispatcher) : Dispatcher :=
  match fuel with
  | O => d
  | S fuel' =>
      match dispatch_ready dev d with
      | None => d
      | Some conn =>
          match lease_and_send conn dev d with
          | (d', Some dev') => try_dispatch fuel' dev' d'
          | (d', None) => d'
          end
      end
  end.

(** Every job fails at most once. *)
Definition tryDispatch (dev : string) (d : Dispatcher) : Dispatcher :=
  try_dispatch (S (size (g_jobs (d_gate d)))) dev d.

Definition retryDispatch (dev : string) (d : Dispatcher) : Dispatcher := tryDispatch dev d.

Definition resolveSuccess (job : Job) (detail : dispatchResultDetail) (d : Dispatcher) : Dispatcher :=
  retryDispatch (DeviceID job)
    (if stillResolvable job d then disp_jobs (MarkSuccessWithDetail d_now (ID job) (detail_json detail)) d else d).

Definition resolveFailure (job : Job) (code msg : string) (d : Dispatcher) : Dispatcher :=
  retryDispatch (DeviceID job) (mark_failure job code msg d).

Definition classifyAndFail (job : Job) (e : USPError) (d : Dispatcher) : Dispatcher :=
  let code := Itoa (ue_Code e) in
  if IsSentinel e ErrNotWriteable
  then resolveFailure job code ("parameter is not writeable: " ++ ue_Message e)%string d
  else if IsSentinel e ErrObjectDoesNotExist then resolveFailure job code (ue_Message e) d
  else if IsSentinel e ErrPermissionDenied
  then resolveFailure job code ("controller-trust misconfiguration (permission denied): " ++ ue_Message e)%string d
  else resolveFailure job code (ue_Message e) d.

(** ** The answer to a request *)

Definition usp_values (params : gmap string string) : Cache := (λ v, mkCached v "" d_now "USP_GET") <$> params.

(** Go on with the database changed, or fail the job. *)
Definition or_fail (job : Job) (msg : string) (r : result Gateway) (d : Dispatcher) (k : Dispatcher → Dispatcher)
    : Dispatcher :=
  match r with
  | Ok g => k (set_gate g d)
  | Err _ => resolveFailure job "" msg d
  end.

Definition upsert_params (dev : string) (params : gmap string string) (g : Gateway) : result Gateway :=
  match Upsert (e_uuid d_env 0%nat) (e_uuid d_env 1%nat) d_now dev (usp_values params) (g_params g) (g_devices g) (g_jobs g) with
  | Ok (p, ds, j) => Ok (set_tables p ds j g)
  | Err e => Err e
  end.

Definition with_params (r : result Params) (g : Gateway) : result Gateway :=
  match r with Ok p => Ok (set_g_params p g) | Err e => Err e end.

(** SET_PARAMETER: a verified write is read back before it succeeds. *)
Definition settle_set (job : Job) (out : responseOutcome) (d : Dispatcher) (k : Dispatcher → Dispatcher) : Dispatcher :=
  match decode_SetParameter (Payload job) with
  | None => resolveFailure job "" "invalid write payload" d
  | Some payload =>
      if sp_Verify payload && negb (sp_VerificationPending payload) && negb (length (VerificationPaths payload) =? 0)%nat
      then
        match BeginReadback d_now job payload (g_jobs (d_gate d)) with
        | (Err _, _) => resolveFailure job "" "failed to queue readback" d
        | (Ok _, j) => retryDispatch (DeviceID job) (disp_jobs (λ _, j) d)
        end
      else if sp_VerificationPending payload then
        or_fail job "failed to cache readback"
          (upsert_params (DeviceID job) (det_Params (out_detail out)) (d_gate d)) d (λ d1,
        let check := CompareReadback payload (det_Params (out_detail out)) in
        let success := (length (Mismatched check) =? 0)%nat && (length (Missing check) =? 0)%nat
                       && negb (length (Matched check) =? 0)%nat in
        or_fail job "failed to persist verification"
          (with_params (RecordOperation d_now (DeviceID job) (CommandKey job) "WRITE" success (VerificationPaths payload)
             (Some (EvidenceFirmware job)) (g_devices (d_gate d1)) (g_params (d_gate d1))) (d_gate d1)) d1 (λ d2,
        if negb success
        then resolveFailure job "READBACK_MISMATCH" "readback did not confirm every readable parameter" d2
        else k d2))
      else k d
  end.

(** PARAMETER_DISCOVERY: the last answer of the walk, or of the one request. *)
Definition save_discovery (job : Job) (payload : ParameterDiscoveryPayload) (names : gmap string bool)
    (caps : list SupportedCapability) (d : Dispatcher) (k : Dispatcher → Dispatcher) : Dispatcher :=
  match SaveDiscovery d_now (DeviceID job) (pd_Firmware payload) (CommandKey job) "USP" "Device." names caps
          (g_devices (d_gate d)) (g_params (d_gate d)) with
  | Ok p => k (set_gate (set_g_params p (d_gate d)) d)
  | Err e =>
      let d1 := resolveFailure job "" "failed to persist discovery snapshot" d in
      if String.eqb e ErrFirmwareChanged
      then disp_jobs (λ j, (QueueDiscoveryIfNeeded (e_fresh d_env 0%nat) d_now (DeviceID job)
                              (coalesced_firmware (cache_of (g_params (d_gate d1)) (DeviceID job))) j).2) d1
      else d1
  end.

Definition settle_discovery (job : Job) (out : responseOutcome) (d : Dispatcher) (k : Dispatcher → Dispatcher)
    : Dispatcher :=
  match decode_ParameterDiscovery (Payload job) with
  | None => resolveFailure job "" "invalid discovery payload" d
  | Some payload0 =>
      if (size (out_discoveredNames out) =? 0)%nat
      then resolveFailure job "" "agent returned no supported data model" d
      else if pd_Incremental payload0 then
        match AdvanceDiscovery (add_capabilities (out_discoveredCapabilities out) payload0)
                (e_range d_env bool (out_discoveredNames out)) with
        | Err e => resolveFailure job "" e d
        | Ok (done, payload) =>
            if negb done then
              match RequeueDiscovery d_now job payload (g_jobs (d_gate d)) with
              | (Err _, _) => resolveFailure job "" "failed to save discovery progress" d
              | (Ok _, j) => retryDispatch (DeviceID job) (disp_jobs (λ _, j) d)
              end
            else
              match mapM (λ kv, decode_capability kv.2) (e_range d_env json (pd_Capabilities payload)) with
              | None => resolveFailure job "" "invalid saved capability metadata" d
              | Some caps => save_discovery job payload (pd_Names payload) caps d k
              end
        end
      else save_discovery job payload0 (out_discoveredNames out) (out_discoveredCapabilities out) d k
  end.

(** GET_PARAMETER: values are cached and recorded as evidence, instances saved. *)
Fixpoint save_instances (job : Job) (firmware : string) (found : gmap string (list string)) (paths : list string)
    (d : Dispatcher) (k : Dispatcher → Dispatcher) : Dispatcher :=
  match paths with
  | [] => k d
  | path :: rest =>
      match found !! path with
      | None => resolveFailure job "" "missing instance discovery result" d
      | Some instances =>
          or_fail job "failed to persist instance evidence"
            (with_params (SaveInstances d_now (DeviceID job) path firmware instances (g_devices (d_gate d))
               (g_params (d_gate d))) (d_gate d)) d (λ d1, save_instances job firmware found rest d1 k)
      end
  end.

Definition settle_read_evidence (job : Job) (out : responseOutcome) (d : Dispatcher) (k : Dispatcher → Dispatcher)
    : Dispatcher :=
  let params := det_Params (out_detail out) in
  match decode_GetParameter (Payload job) with
  | None => resolveFailure job "" "invalid read payload" d
  | Some payload =>
      if gp_Instances payload then save_instances job (gp_Firmware payload) (out_instances out) (gp_Paths payload) d k
      else if negb (size params =? 0)%nat then
        or_fail job "failed to persist read evidence"
          (with_params (RecordOperation d_now (DeviceID job) (CommandKey job) "READ" true (e_range d_env string params).*1
             (Some (EvidenceFirmware job)) (g_devices (d_gate d)) (g_params (d_gate d))) (d_gate d)) d k
      else if negb (length (MissingReadPaths (gp_Paths payload) params) =? 0)%nat
      then resolveFailure job "PARTIAL_READ" "agent returned no requested parameter values" d
      else k d
  end.

Definition partial_read (job : Job) (params : gmap string string) : bool :=
  match decode_GetParameter (Payload job) with
  | None => true
  | Some payload => negb (length (MissingReadPaths (gp_Paths payload) params) =? 0)%nat
  end.

Definition settle_get (job : Job) (out : responseOutcome) (d : Dispatcher) (k : Dispatcher → Dispatcher) : Dispatcher :=
  let params := det_Params (out_detail out) in
  if (size params =? 0)%nat then settle_read_evidence job out d k
  else if partial_read job params
  then resolveFailure job "PARTIAL_READ" "agent omitted requested readable parameters" d
  else or_fail job "failed to persist parameter values" (upsert_params (DeviceID job) params (d_gate d)) d (λ d1,
       settle_read_evidence job out d1 k).

(** The answer of a request that did not report a failure. *)
Definition settle (job : Job) (out : responseOutcome) (d : Dispatcher) : Dispatcher :=
  let finish := resolveSuccess job (out_detail out) in
  match Type_ job with
  | TypeSetParameter => settle_set job out d finish
  | TypeParameterDiscovery => settle_discovery job out d finish
  | TypeGetParameter => settle_get job out d finish
  | _ => finish d
  end.

Definition handleResponse (from : string) (m : Msg) (d : Dispatcher) : bool * Dispatcher :=
  match m_Header m with
  | None => (false, d)
  | Some h =>
      match d_pending d !! h_MsgId h with
      | None => (false, d)
      | Some entry =>
          if negb (String.eqb (c_endpoint (pj_conn entry)) from) then (false, d)
          else
            let job := pj_job entry in
            let dropped := set_pending (delete (h_MsgId h) (d_pending d)) d in
            match ErrorFromMsg m with
            | Some e => (true, classifyAndFail job e dropped)
            | None =>
                let out := classifyResponse (e_range d_env) m in
                if out_stillPending out then (true, d)
                else match out_uspErr out with
                     | Some e => (true, classifyAndFail job e dropped)
                     | None => (true, settle job out dropped)
                     end
            end
      end
  end.

(** ** The completion of an asynchronous operation *)

Definition operationCompleteResultDetail (oc : OperationComplete) : dispatchResultDetail :=
  mkDetail (MsgType_name Header_NOTIFY) (oc_OutputArgs oc).

Definition handleOperationComplete (connDeviceID : string) (oc : OperationComplete) (d : Dispatcher) : Dispatcher :=
  match ByCommandKey (g_jobs (d_gate d)) (oc_CommandKey oc) with
  | None => d
  | Some job =>
      if String.eqb connDeviceID "" || negb (String.eqb connDeviceID (DeviceID job)) then d
      else if negb (status_eqb (Status job) StatusRPCSent) then d
      else
        let d1 := set_pending (filter (λ kv, CommandKey (pj_job kv.2) ≠ oc_CommandKey oc) (d_pending d)) d in
        if oc_Failed oc then classifyAndFail job (usp_error (oc_ErrCode oc) (oc_ErrMsg oc)) d1
        else resolveSuccess job (operationCompleteResultDetail oc) d1
  end.

(** ** Lost connections and the sweep *)

Definition forget (c : Conn) (d : Dispatcher) : Dispatcher :=
  set_pending (filter (λ kv, pj_conn kv.2 ≠ c) (d_pending d)) d.

Definition sweepOnce (d : Dispatcher) : Dispatcher :=
  foldl (λ d kv, match GetUspAgentByEndpointID agents (c_endpoint kv.2) with
                 | Some (dev, _) => tryDispatch dev d
                 | None => d
                 end) d (e_range d_env Conn registry).
End Dispatcher.
