(* ===== verification/UspLaws.v ===== *)
(** * What the USP dispatcher may change

    Every step of the dispatcher for a device is a sequence of statements of the
    job repository and touches that device's rows only ([acts_for]). *)

From S2P Require Import Prelude GoStrings Json JobModel JobStore JobLaws Discovery Devices ParamCache ParamTheorems.
From S2P Require Import Onboarding OnboardingLaws Sessions Render Gateway GatewayLaws Usp UspConn UspRequest UspDispatch.

(** ** The lease *)

Lemma leased_spec locked owner now dev tab job tab' :
  table_ok tab → LeaseForUSPTypes locked owner now dev uspDispatchableTypes tab = (Some job, tab') →
  ∃ row, tab !! ID job = Some row ∧ leasable dev uspDispatchableTypes true row = true ∧
         job = leased_job StatusRPCSent row ∧
         tab' = <[ID job := lease_row StatusRPCSent sessionLease owner now row]> tab.
Proof.
  intros Hok. unfold LeaseForUSPTypes, leaseForTypes, lease_with.
  destruct (pick _ _ _) as [j|] eqn:Ep; [|done]. intros [= <- <-]. apply pick_spec in Ep as ((k & Hk) & Hp & _).
  pose proof (ok_key _ _ (tab_rows _ Hok _ _ Hk)) as Hid. simpl in Hid. subst k.
  exists j. split_and!; [done|done|done|]. unfold by_id, update_key. change (ID (leased_job StatusRPCSent j)) with (ID j).
  by rewrite Hk.
Qed.

Section Lease.
Context (hash : json → string).

Lemma jobs_for_usp_lease locked owner now dev tab :
  table_ok tab → jobs_for hash dev tab (usp_lease_or_requeue locked owner now dev tab).2.
Proof.
  intros Hok. pose proof (step_lease_usp hash tab locked owner now dev) as Hs. unfold usp_lease_or_requeue in *.
  destruct (LeaseForUSPTypes _ _ _ _ _ _) as [[job|] tab'] eqn:El; cbn [snd] in *.
  - apply leased_spec in El as (row & Hrow & Hl & -> & ->); [|done].
    assert (DeviceID row = dev) as Hd by (unfold leasable in Hl; by bool_to_prop).
    assert (∀ f, (∀ j, identity (f j) = identity j) → ∀ k, <[ID row := f row]> tab !! k = tab !! k ∨
      ∃ j j', tab !! k = Some j ∧ <[ID row := f row]> tab !! k = Some j' ∧ identity j' = identity j ∧ DeviceID j = dev) as Hr.
    { intros f Hf k. rewrite lookup_insert. case_decide; [|by left]. subst k. right. exists row, (f row). auto. }
    destruct (usp_unsupported _); cbn [snd] in *; (apply jobs_for_rewrite; [exact Hs|]).
    + unfold Requeue, by_id, update_key. change (ID (leased_job StatusRPCSent row)) with (ID row) in *.
      rewrite lookup_insert_eq, insert_insert_eq. cbn [fst].
      by apply (Hr (λ j, requeue_row now (lease_row StatusRPCSent sessionLease owner now j))).
    + by apply (Hr (lease_row StatusRPCSent sessionLease owner now)).
  - unfold LeaseForUSPTypes, leaseForTypes, lease_with in El. destruct (pick _ _ _); simplify_eq. done.
Qed.
End Lease.

Lemma leased_owned locked owner now dev tab job tab' :
  table_ok tab → LeaseForUSPTypes locked owner now dev uspDispatchableTypes tab = (Some job, tab') →
  owned dev tab' job ∧ DeviceID job = dev ∧ ∃ row, tab' !! ID job = Some row ∧ Status row = StatusRPCSent.
Proof.
  intros Hok H. apply leased_spec in H as (row & Hrow & Hl & -> & ->); [|done].
  assert (DeviceID row = dev) as Hd by (unfold leasable in Hl; by bool_to_prop).
  change (ID (leased_job StatusRPCSent row)) with (ID row). split_and!; [|done|].
  - exists (lease_row StatusRPCSent sessionLease owner now row).
    change (ID (leased_job StatusRPCSent row)) with (ID row). by rewrite lookup_insert_eq.
  - eexists. by rewrite lookup_insert_eq.
Qed.

(** ** Binding *)

Lemma Bind_other fw caps job tab :
  usp_unsupported job = true → BindFirmware fw caps job tab = (Ok job, tab).
Proof. unfold usp_unsupported, BindFirmware, type_eqb. by destruct (Type_ job). Qed.

Lemma Bind_same fw caps job tab job' tab' :
  BindFirmware fw caps job tab = (Ok job', tab') →
  ID job' = ID job ∧ Type_ job' = Type_ job ∧ DeviceID job' = DeviceID job ∧ CommandKey job' = CommandKey job.
Proof.
  unfold BindFirmware. destruct (_ && _); [by intros [= <- _]|].
  destruct (bind_payload _ _ _) as [[next|]|]; [|by intros [= <- _]|done].
  destruct (guarded _ _ _) as [[] ?]; [|done]. by intros [= <- _].
Qed.

Lemma Bind_err fw caps job tab e tab' : BindFirmware fw caps job tab = (Err e, tab') → usp_unsupported job = false.
Proof.
  intros H. destruct (usp_unsupported job) eqn:Hu; [|done]. by rewrite Bind_other in H.
Qed.

Lemma Bind_unsupported fw caps job tab job' tab' :
  BindFirmware fw caps job tab = (Ok job', tab') → usp_unsupported job' = usp_unsupported job.
Proof.
  unfold BindFirmware. destruct (_ && _) eqn:Et; [by intros [= <- _]|].
  destruct (bind_payload _ _ _) as [[next|]|]; [|by intros [= <- _]|done].
  destruct (guarded _ _ _) as [[] ?]; [|done]. intros [= <- _].
  unfold usp_unsupported, type_eqb in *. cbn. by destruct (Type_ job).
Qed.

(** ** One request in flight per device *)

Section Flight.
Context (dev : string).

Definition rpc_in_flight (tab : gmap string Job) (k : string) : Prop :=
  ∃ j, tab !! k = Some j ∧ DeviceID j = dev ∧ Status j = StatusRPCSent.

Definition single_flight (tab : gmap string Job) : Prop := ∀ k k', rpc_in_flight tab k → rpc_in_flight tab k' → k = k'.

(** A job that is queued or sent: any other is settled, or waits for the CPE. *)
Definition active (j : Job) : Prop := Status j = StatusQueued ∨ Status j = StatusRPCSent.

Definition settled_kept (tab tab' : gmap string Job) : Prop :=
  ∀ k j, tab !! k = Some j → ¬ active j → tab' !! k = Some j.

(** The step sends no job of the device and leaves settled jobs alone. *)
Record quiet (tab tab' : gmap string Job) : Prop := mk_quiet {
  q_none : ∀ k, rpc_in_flight tab' k → rpc_in_flight tab k;
  q_settled : settled_kept tab tab'
}.

#[global] Instance settled_kept_preorder : PreOrder settled_kept.
Proof. split; [by intros tab k|]. intros a b c H1 H2 k j Hj Ha. auto. Qed.

#[global] Instance quiet_preorder : PreOrder quiet.
Proof.
  split; [by intros tab; split|]. intros a b c [N1 S1] [N2 S2]. split; [auto|etrans; [exact S1|exact S2]].
Qed.

Lemma quiet_single tab tab' : quiet tab tab' → single_flight tab → single_flight tab'.
Proof. intros [Hn _] Hs k k' H H'. apply Hs; by apply Hn. Qed.

Lemma settled_kept_insert k row x tab : tab !! k = Some row → active row → settled_kept tab (<[k := x]> tab).
Proof.
  intros Hk Ha k' j Hj Hn. rewrite lookup_insert. case_decide; [|done]. subst k'. rewrite Hk in Hj. injection Hj as ->. done.
Qed.

Lemma quiet_update_key k p f tab :
  (∀ row, tab !! k = Some row → p row = true → active row) →
  (∀ j, Status (f j) = StatusRPCSent → Status j = StatusRPCSent) → (∀ j, DeviceID (f j) = DeviceID j) →
  quiet tab (update_key k p f tab).1.
Proof.
  intros Hact Hs Hd. unfold update_key. destruct (tab !! k) as [row|] eqn:E; [|done].
  destruct (p row) eqn:Ep; [|done]. cbn [fst]. split; [|by eapply settled_kept_insert; eauto].
  intros k' (j & Hj & Hdev & Hst). rewrite lookup_insert in Hj. case_decide; [|by exists j].
  subst k'. simplify_eq. exists row. rewrite <-Hd. auto.
Qed.

Lemma quiet_insert_job j tab : Status j ≠ StatusRPCSent → quiet tab (insert_job tab j).2.
Proof.
  intros Hs. unfold insert_job. destruct (unique_ok tab j) eqn:Hu; [|done]. cbn [snd]. unfold unique_ok in Hu.
  bool_to_prop. assert (tab !! ID j = None) as Hn by (by destruct (tab !! ID j)). split.
  - intros k (j' & Hj & Hd & Hst). rewrite lookup_insert in Hj. case_decide; simplify_eq; by exists j'.
  - intros k i Hi _. rewrite lookup_insert_ne by congruence. done.
Qed.

Lemma quiet_guarded_or job f m tab :
  (∀ j, Status (f j) = StatusRPCSent → Status j = StatusRPCSent) → (∀ j, DeviceID (f j) = DeviceID j) →
  quiet tab (guarded_or job f m tab).2.
Proof.
  intros Hs Hd. rewrite guarded_or_snd. unfold guarded.
  pose proof (quiet_update_key (ID job) (current_attempt job) f tab) as H.
  destruct (update_key _ _ _ _). apply H; [|done|done]. intros row _ Hc. unfold current_attempt in Hc.
  right. by bool_to_prop; apply bool_decide_eq_true in H1.
Qed.

Lemma quiet_queue_discovery fr now fw d tab : quiet tab (QueueDiscoveryIfNeeded fr now d fw tab).2.
Proof.
  unfold QueueDiscoveryIfNeeded. destruct (existsb _ _); [done|]. cbv zeta. set (j := new_job _ _ _ _ _ _ _ _ _).
  pose proof (quiet_insert_job j tab) as Hi. destruct (insert_job tab j) as [[] ?]; by apply Hi.
Qed.

Lemma quiet_firmware_discovery u ku now d root fb fw tab :
  quiet tab (queue_firmware_discovery u ku now d root fb fw tab).2.
Proof.
  unfold queue_firmware_discovery. destruct (existsb _ _); [done|]. set (j := firmware_discovery_job _ _ _ _ _ _ _).
  pose proof (quiet_insert_job j tab) as Hi. destruct (insert_job tab j) as [[] ?]; by apply Hi.
Qed.

Lemma quiet_Upsert uuid ku now d values params devices jobs p ds j :
  Upsert uuid ku now d values params devices jobs = Ok (p, ds, j) → quiet jobs j.
Proof.
  unfold Upsert. destruct (_ =? _)%nat; [by intros [= _ _ <-]|]. destruct (is_some _); [|done]. cbn [negb].
  destruct (version_change _ _) as [[[root fb] fw]|]; cbn [result_bind]; [|by intros [= _ _ <-]].
  pose proof (quiet_firmware_discovery uuid ku now d root fb fw jobs) as H.
  destruct (queue_firmware_discovery _ _ _ _ _ _ _ _) as [[[]|] jobs']; [|done]. by intros [= _ _ <-].
Qed.

Lemma leasable_active d types usp j : leasable d types usp j = true → active j.
Proof.
  unfold leasable. intros H. left.
  apply andb_true_iff in H as [[[_ H]%andb_true_iff _]%andb_true_iff _]. by apply bool_decide_eq_true in H.
Qed.

(** A lease while nothing is in flight. *)
Lemma outstanding_none tab : HasOutstandingRPC tab dev = false → ∀ k, ¬ rpc_in_flight tab k.
Proof.
  intros H k (j & Hj & Hd & Hs). unfold HasOutstandingRPC in H. revert H. apply eq_true_false_abs, existsb_exists.
  exists j. split; [apply list_elem_of_In, elem_of_rows; eauto|]. subst dev. by rewrite String.eqb_refl, Hs.
Qed.

Lemma single_flight_lease tab k row :
  (∀ k, ¬ rpc_in_flight tab k) → single_flight (<[k := row]> tab).
Proof.
  intros Hn k1 k2 (j1 & H1 & F1) (j2 & H2 & F2). rewrite lookup_insert in H1, H2.
  repeat case_decide; subst; [done| | |]; exfalso; eapply Hn; eexists; eauto.
Qed.
End Flight.

#[export] Hint Resolve quiet_queue_discovery quiet_firmware_discovery quiet_Upsert : acs.

(** ** The dispatcher *)

Section Steps.
Context `{W : ProtoWire} (hash : json → string) (ue : UspEnv) (dev : string).
(** Whether nothing was in flight when the step began, and where it may send. *)
Context (checked : bool) (target : Conn → Prop).

(** A step for the device: it touches the device's rows only, and sends to the
    target only, for a job of the device; after a check that nothing is in flight
    it does not put a second request in flight. *)
Record dispatch_step (d d' : Dispatcher) : Prop := mk_dispatch_step {
  us_acts : acts_for hash dev (d_gate d) (d_gate d');
  us_single : checked = true → single_flight dev (g_jobs (d_gate d)) → single_flight dev (g_jobs (d_gate d'));
  us_settled : settled_kept (g_jobs (d_gate d)) (g_jobs (d_gate d'));
  us_pending : ∀ id e, d_pending d' !! id = Some e →
    d_pending d !! id = Some e ∨
    DeviceID (pj_job e) = dev ∧ owned dev (g_jobs (d_gate d')) (pj_job e) ∧ target (pj_conn e);
  us_sent : ∃ l, d_sent d' = d_sent d ++ l ∧ Forall (λ s, target s.1) l;
  us_next : (d_next d ≤ d_next d')%nat
}.

#[global] Instance dispatch_step_preorder : PreOrder dispatch_step.
Proof.
  split.
  - intros d. split; [done|done|done|by left| |done]. exists []. by rewrite app_nil_r.
  - intros a b c [A1 S1 Q1 P1 (l1 & E1 & F1) N1] [A2 S2 Q2 P2 (l2 & E2 & F2) N2].
    split; [etrans; [exact A1|exact A2]|auto|etrans; [exact Q1|exact Q2]| | |lia].
    + intros id e [H|H]%P2; [|by right]. apply P1 in H as [H|(Hd & Ho & Hl)]; [by left|right].
      split_and!; [done| |done]. eapply owned_kept; [exact (af_jobs _ _ _ _ A2)|done].
    + exists (l1 ++ l2). rewrite E2, E1, app_assoc. split; [done|]. by apply Forall_app.
Qed.

(** A change of the database that sends nothing. *)
Lemma step_gate d g :
  acts_for hash dev (d_gate d) g → quiet dev (g_jobs (d_gate d)) (g_jobs g) → dispatch_step d (set_gate g d).
Proof.
  intros Ha Hn. split; [exact Ha|intros _; by apply quiet_single|apply Hn|by left| |done]. exists []. by rewrite app_nil_r.
Qed.

Lemma step_jobs d f :
  jobs_for hash dev (g_jobs (d_gate d)) (f (g_jobs (d_gate d))) →
  quiet dev (g_jobs (d_gate d)) (f (g_jobs (d_gate d))) → dispatch_step d (disp_jobs f d).
Proof. intros Hj Hn. apply step_gate; [by apply acts_jobs|exact Hn]. Qed.

(** An outstanding request forgotten. *)
Lemma step_forget_pending d p : p ⊆ d_pending d → dispatch_step d (set_pending p d).
Proof.
  intros Hp. split; [done|done|done| |by exists []; rewrite app_nil_r|done]. intros id e He. left. by eapply lookup_weaken.
Qed.

(** [job] is a job of the device, in a database in order. *)
Record good (job : Job) (d : Dispatcher) : Prop := mk_good {
  good_ok : gateway_ok (d_gate d);
  good_owned : owned dev (g_jobs (d_gate d)) job;
  good_dev : DeviceID job = dev
}.

Lemma step_ok d d' : dispatch_step d d' → gateway_ok (d_gate d) → gateway_ok (d_gate d').
Proof. intros [Ha _ _ _ _ _]. exact (acts_for_ok _ _ _ _ Ha). Qed.

Lemma good_after job d d' : dispatch_step d d' → good job d → good job d'.
Proof.
  intros Ha [Hg Ho Hd]. constructor; [by eapply step_ok| |done].
  eapply owned_kept; [exact (af_jobs _ _ _ _ (us_acts _ _ Ha))|done].
Qed.

(** The row of [job] is still being worked on. *)
Definition row_active (job : Job) (d : Dispatcher) : Prop :=
  ∀ row, g_jobs (d_gate d) !! ID job = Some row → active row.

Lemma step_failed job c m d :
  good job d → row_active job d → dispatch_step d (disp_jobs (MarkFailed (d_now ue) (ID job) c m) d).
Proof.
  intros [_ Ho _] Hr. apply step_jobs; [by apply jobs_for_failed|]. apply quiet_update_key; [|done|done].
  intros row Hrow _. by apply Hr.
Qed.

Lemma resolvable_active job d : stillResolvable job d = true → row_active job d.
Proof.
  unfold stillResolvable, ByID. intros H row Hrow. rewrite Hrow in H. right. by apply bool_decide_eq_true in H.
Qed.

Lemma step_mark_failure job c m d : good job d → dispatch_step d (mark_failure ue job c m d).
Proof.
  intros G. unfold mark_failure. destruct (stillResolvable _ _) eqn:E; [|done].
  apply step_failed; [done|by apply resolvable_active].
Qed.

(** The lease of a job that can be sent, and its firmware binding. *)
Lemma step_leased d job leased :
  gateway_ok (d_gate d) → (checked = true → HasOutstandingRPC (g_jobs (d_gate d)) dev = false) →
  LeaseForUSPTypes (e_locked (d_env ue)) (e_owner (d_env ue)) (d_now ue) dev uspDispatchableTypes (g_jobs (d_gate d))
    = (Some job, leased) →
  usp_unsupported job = false →
  dispatch_step d (draw_msg (disp_jobs (λ _, leased) d)) ∧ good job (draw_msg (disp_jobs (λ _, leased) d)) ∧
  row_active job (draw_msg (disp_jobs (λ _, leased) d)).
Proof.
  intros Hg Hn El Hu.
  pose proof (jobs_for_usp_lease hash (e_locked (d_env ue)) (e_owner (d_env ue)) (d_now ue) dev _ (go_jobs _ Hg)) as Hl.
  unfold usp_lease_or_requeue in Hl. rewrite El, Hu in Hl. cbn [snd] in Hl.
  pose proof (leased_owned _ _ _ _ _ _ _ (go_jobs _ Hg) El) as (Ho & Hd & row & Hrow & Hst).
  pose proof (leased_spec _ _ _ _ _ _ _ (go_jobs _ Hg) El) as (old & Hold & Hl' & _ & Htab).
  assert (active old) as Hact by (by eapply leasable_active).
  assert (dispatch_step d (draw_msg (disp_jobs (λ _, leased) d))) as H1.
  { split; [by apply (acts_jobs hash dev (d_gate d) (λ _, leased))| | |by left|by exists []; rewrite app_nil_r|cbn; lia].
    - intros Hc _. cbn. rewrite Htab. by apply single_flight_lease, outstanding_none, Hn.
    - cbn. rewrite Htab. by eapply settled_kept_insert. }
  split; [done|]. split; [constructor; [by eapply step_ok|exact Ho|done]|].
  intros row' Hrow'. cbn in Hrow'. right. congruence.
Qed.

Lemma step_bound d fw caps job job' bound :
  good job d → row_active job d → BindFirmware fw caps job (g_jobs (d_gate d)) = (Ok job', bound) →
  dispatch_step d (disp_jobs (λ _, bound) d) ∧ good job' (disp_jobs (λ _, bound) d) ∧ row_active job' (disp_jobs (λ _, bound) d).
Proof.
  intros G Hact Eb. pose proof (Bind_same _ _ _ _ _ _ Eb) as (Hid & Ht & Hd' & _).
  pose proof (jobs_for_bind hash dev fw caps job _ (good_owned _ _ G)) as Hb. rewrite Eb in Hb. cbn [snd] in Hb.
  assert (bound = g_jobs (d_gate d) ∨
          ∃ next, bound = (update_key (ID job) (current_attempt job) (set_payload next) (g_jobs (d_gate d))).1) as Hbound.
  { clear -Eb. unfold BindFirmware in Eb. destruct (_ && _); simplify_eq; [by left|].
    destruct (bind_payload _ _ _) as [[next|]|]; simplify_eq; [|by left]. unfold guarded in Eb. right. exists next.
    destruct (update_key _ _ _ _) as [t n]. by destruct (n =? 1); simplify_eq. }
  assert (dispatch_step d (disp_jobs (λ _, bound) d)) as H1.
  { apply step_jobs; [exact Hb|]. destruct Hbound as [->|(next & ->)]; [done|].
    apply quiet_update_key; [|done|done]. intros row Hrow _. by apply Hact. }
  split; [done|]. split.
  - destruct (good_after _ _ _ H1 G) as [Hg Ho Hd]. constructor; [done| |congruence].
    eapply owned_same; [exact Hid|exact Ht|exact Ho].
  - intros row. rewrite Hid. cbn. destruct Hbound as [->|(next & ->)]; [apply Hact|].
    rewrite lookup_update_key, decide_True by done. destruct (g_jobs (d_gate d) !! ID job) as [old|] eqn:Eo; [|done].
    cbn. intros [= <-]. specialize (Hact _ Eo). by destruct (current_attempt job old).
Qed.

(** A leased job that has no USP mapping goes back. *)
Lemma step_requeued d job leased :
  gateway_ok (d_gate d) → (checked = true → HasOutstandingRPC (g_jobs (d_gate d)) dev = false) →
  LeaseForUSPTypes (e_locked (d_env ue)) (e_owner (d_env ue)) (d_now ue) dev uspDispatchableTypes (g_jobs (d_gate d))
    = (Some job, leased) →
  usp_unsupported job = true → dispatch_step d (disp_jobs (λ _, Requeue (d_now ue) (ID job) leased) d).
Proof.
  intros Hg Hn El Hu.
  pose proof (jobs_for_usp_lease hash (e_locked (d_env ue)) (e_owner (d_env ue)) (d_now ue) dev _ (go_jobs _ Hg)) as Hl.
  unfold usp_lease_or_requeue in Hl. rewrite El, Hu in Hl. cbn [snd] in Hl.
  split; [by apply (acts_jobs hash dev (d_gate d) (λ _, Requeue (d_now ue) (ID job) leased))| | |by left|by exists []; rewrite app_nil_r|done].
  - intros Hc _. cbn. apply leased_spec in El as (row & Hrow & Hl' & -> & ->); [|apply Hg].
    unfold Requeue, by_id, update_key. rewrite lookup_insert_eq, insert_insert_eq. cbn [fst].
    by apply single_flight_lease, outstanding_none, Hn.
  - cbn. apply leased_spec in El as (row & Hrow & Hl' & -> & ->); [|apply Hg].
    unfold Requeue, by_id, update_key. rewrite lookup_insert_eq, insert_insert_eq. cbn [fst].
    eapply settled_kept_insert; [exact Hrow|]. by eapply leasable_active.
Qed.

(** The record sent and remembered. *)
Lemma step_sent d job conn msgID record :
  good job d → target conn →
  dispatch_step d (mkDispatcher (d_gate d) (<[msgID := mkPending job conn]> (d_pending d)) (d_sent d ++ [(conn, record)])
                (d_next d)).
Proof.
  intros G Hl. split; [done|done|done| |by exists [(conn, record)]; split; [done|apply Forall_singleton]|done].
  intros id e. cbn. rewrite lookup_insert. case_decide; [|by left]. intros [= <-]. right. split_and!; [apply G|apply G|done].
Qed.

(** The second part of a dispatch. *)
Lemma step_lease controllerID conn d :
  gateway_ok (d_gate d) → (checked = true → HasOutstandingRPC (g_jobs (d_gate d)) dev = false) →
  (∀ record, ue_send ue conn record = true → target conn) →
  dispatch_step d (lease_and_send controllerID ue conn dev d).1 ∧
  ∀ dev', (lease_and_send controllerID ue conn dev d).2 = Some dev' → dev' = dev.
Proof.
  intros Hg Hn Ht. unfold lease_and_send.
  destruct (LeaseForUSPTypes _ _ _ _ _ _) as [[job|] leased] eqn:El; [|done]. cbv zeta.
  destruct (usp_unsupported job) eqn:Hu.
  - rewrite Bind_other by done. rewrite (proj2 (build_unsupported _ _) Hu).
    destruct (step_requeued _ _ _ Hg Hn El Hu) as [Ha Hs Hq Hp Hse Hnx]. split; [|done]. split; try done. cbn in *. lia.
  - destruct (step_leased _ _ _ Hg Hn El Hu) as (H1 & G1 & A1). set (d1 := draw_msg _) in *.
    destruct (BindFirmware _ _ job _) as [[job'|e] bound] eqn:Eb; cbn [fst snd].
    + split; [|done]. destruct (step_bound _ _ _ _ _ _ G1 A1 Eb) as (H2 & G2 & A2). set (d2 := disp_jobs _ d1) in *.
      assert (dispatch_step d d2) as H12 by (etrans; [exact H1|exact H2]).
      destruct (buildUSPRequest _ _) eqn:Ebuild.
      * destruct (EncodeRecord _ _ _) as [record|]; [|done]. destruct (ue_send _ _ _) eqn:Es.
        -- etrans; [exact H12|]. apply step_sent; [done|by eapply Ht].
        -- etrans; [exact H12|]. apply step_forget_pending, delete_subseteq.
      * apply build_unsupported in Ebuild. rewrite (Bind_unsupported _ _ _ _ _ _ Eb) in Ebuild. congruence.
      * etrans; [exact H12|]. by apply step_failed.
    + split; [|by intros dev' [= <-]; apply (good_dev _ _ G1)]. etrans; [exact H1|]. by apply step_mark_failure.
Qed.
End Steps.

Section Dispatch.
Context `{W : ProtoWire} (hash : json → string) (controllerID : string).
Context (agents : Agents) (registry : Registry) (ue : UspEnv) (dev : string).

(** The live connection of the agent linked to the device. *)
Definition linked (conn : Conn) : Prop :=
  ∃ agent, GetUspAgentByDeviceID agents dev = Some agent ∧ registry !! ua_EndpointID agent = Some conn.

(** A step for the device with nothing in between: no second request in flight,
    and sends to the device's connection only. *)
Definition usp_step : Dispatcher → Dispatcher → Prop := dispatch_step hash dev true linked.

Abbreviation good := (good dev).

#[global] Instance usp_step_preorder : PreOrder usp_step.
Proof. apply dispatch_step_preorder. Qed.

Lemma ready_linked conn d :
  dispatch_ready agents registry dev d = Some conn → linked conn ∧ HasOutstandingRPC (g_jobs (d_gate d)) dev = false.
Proof.
  unfold dispatch_ready. destruct (GetUspAgentByDeviceID _ _) as [agent|] eqn:Ea; [|done].
  destruct (registry !! _) as [c|] eqn:Ec; [|done]. destruct (HasOutstandingRPC _ _); [done|].
  intros [= ->]. split; [by exists agent|done].
Qed.

Lemma step_try_dispatch fuel d :
  gateway_ok (d_gate d) → usp_step d (try_dispatch controllerID agents registry ue fuel dev d).
Proof.
  revert d. induction fuel as [|fuel IH]; intros d Hg; [done|]. cbn [try_dispatch].
  destruct (dispatch_ready _ _ _ _) as [conn|] eqn:Er; [|done]. apply ready_linked in Er as [Hl Hn].
  destruct (step_lease hash ue dev true linked controllerID conn d Hg (λ _, Hn) (λ _ _, Hl)) as [Hs Hd].
  destruct (lease_and_send _ _ _ _ _) as [d' [dev'|]]; cbn [fst snd] in *; [|done].
  rewrite (Hd dev') by done. etrans; [exact Hs|]. apply IH. by eapply step_ok.
Qed.

Lemma step_tryDispatch d : gateway_ok (d_gate d) → usp_step d (tryDispatch controllerID agents registry ue dev d).
Proof. apply step_try_dispatch. Qed.

(** The next dispatch, after a step for the device. *)
Lemma step_retry d d' : gateway_ok (d_gate d) → usp_step d d' →
  usp_step d (retryDispatch controllerID agents registry ue dev d').
Proof. intros Hg Ha. etrans; [exact Ha|]. apply step_tryDispatch. by eapply step_ok. Qed.

Lemma step_resolveSuccess job detail d :
  good job d → usp_step d (resolveSuccess controllerID agents registry ue job detail d).
Proof.
  intros G. unfold resolveSuccess. rewrite (good_dev _ _ _ G). apply step_retry; [apply G|].
  destruct (stillResolvable _ _) eqn:E; [|done].
  apply step_jobs; [apply jobs_for_success_detail, G|]. apply quiet_update_key; [|done|done].
  intros row Hrow _. by apply (resolvable_active _ _ E).
Qed.

Lemma step_resolveFailure job c m d :
  good job d → usp_step d (resolveFailure controllerID agents registry ue job c m d).
Proof.
  intros G. unfold resolveFailure. rewrite (good_dev _ _ _ G). apply step_retry; [apply G|by apply step_mark_failure].
Qed.

Lemma step_classifyAndFail job e d :
  good job d → usp_step d (classifyAndFail controllerID agents registry ue job e d).
Proof. intros G. unfold classifyAndFail. by repeat case_match; apply step_resolveFailure. Qed.

(** What is done once the answer has been stored. *)
Definition continues (job : Job) (k : Dispatcher → Dispatcher) : Prop := ∀ d, good job d → usp_step d (k d).

Lemma step_or_fail job m r d k :
  good job d → (∀ g, r = Ok g → usp_step d (set_gate g d)) → continues job k →
  usp_step d (or_fail controllerID agents registry ue job m r d k).
Proof.
  intros G Hr Hk. unfold or_fail. destruct r as [g|e]; [|by apply step_resolveFailure].
  pose proof (Hr _ eq_refl) as H1. etrans; [exact H1|]. apply Hk. by eapply good_after.
Qed.

Lemma step_upsert_params params d g :
  upsert_params ue dev params (d_gate d) = Ok g → usp_step d (set_gate g d).
Proof.
  unfold upsert_params. destruct (Upsert _ _ _ _ _ _ _ _) as [[[p ds] j]|] eqn:E; [|done]. intros [= <-].
  pose proof (Upsert_params_for hash _ _ _ _ _ _ _ _ _ _ _ E) as (? & ? & ?).
  apply step_gate; [by apply acts_tables|]. by eapply quiet_Upsert.
Qed.

Lemma step_with_params r d g :
  (∀ p, r = Ok p → params_for dev (g_params (d_gate d)) p) → with_params r (d_gate d) = Ok g →
  usp_step d (set_gate g d).
Proof. intros Hr. destruct r as [p|]; [|done]. intros [= <-]. apply step_gate; [by apply acts_params, Hr|done]. Qed.

Lemma SaveInstances_params_for now path fw instances devices params p :
  SaveInstances now dev path fw instances devices params = Ok p → params_for dev params p.
Proof.
  unfold SaveInstances. destruct (_ <? _)%nat; [done|]. destruct (check_instances _ _); [done|].
  destruct (negb _); [done|]. destruct (negb _); [done|]. cbv zeta. intros [= <-].
  constructor; cbn; try done; intros k Hk; by rewrite lookup_insert_ne.
Qed.

Lemma step_settle_set job out d k :
  good job d → Type_ job = TypeSetParameter → continues job k →
  usp_step d (settle_set controllerID agents registry ue job out d k).
Proof.
  intros G Ht Hk. unfold settle_set. destruct (decode_SetParameter _) as [payload|]; [|by apply step_resolveFailure].
  rewrite (good_dev _ _ _ G). destruct (_ && _).
  - pose proof (jobs_for_readback hash dev (d_now ue) job payload _ (good_owned _ _ _ G) Ht) as Hj.
    assert (quiet dev (g_jobs (d_gate d)) (BeginReadback (d_now ue) job payload (g_jobs (d_gate d))).2) as Hn
      by (by apply quiet_guarded_or).
    destruct (BeginReadback _ _ _ _) as [[?|?] j]; [|by apply step_resolveFailure].
    apply step_retry; [apply G|]. by apply step_jobs.
  - destruct (sp_VerificationPending payload); [|by apply Hk].
    apply step_or_fail; [done|apply step_upsert_params|]. intros d1 G1. cbv zeta.
    apply step_or_fail; [done| |].
    + intros g'. apply step_with_params. intros p. apply RecordOperation_params_for.
    + intros d2 G2. destruct (negb _); [by apply step_resolveFailure|by apply Hk].
Qed.

Lemma step_save_discovery job payload names caps d k :
  good job d → continues job k → usp_step d (save_discovery controllerID agents registry ue job payload names caps d k).
Proof.
  intros G Hk. unfold save_discovery. rewrite (good_dev _ _ _ G).
  destruct (SaveDiscovery _ _ _ _ _ _ _ _ _ _) as [p|e] eqn:E; cbv zeta.
  - assert (usp_step d (set_gate (set_g_params p (d_gate d)) d)) as H1.
    { apply step_gate; [|done]. apply acts_params. by eapply SaveDiscovery_params_for. }
    etrans; [exact H1|]. apply Hk. by eapply good_after.
  - pose proof (step_resolveFailure job "" "failed to persist discovery snapshot" d G) as H1.
    destruct (String.eqb e _); [|done]. etrans; [exact H1|].
    apply step_jobs; [apply jobs_for_queue_discovery|apply quiet_queue_discovery].
Qed.

Lemma step_settle_discovery job out d k :
  good job d → Type_ job = TypeParameterDiscovery → continues job k →
  usp_step d (settle_discovery controllerID agents registry ue job out d k).
Proof.
  intros G Ht Hk. unfold settle_discovery.
  destruct (decode_ParameterDiscovery _) as [payload|]; [|by apply step_resolveFailure].
  destruct (_ =? _)%nat; [by apply step_resolveFailure|].
  destruct (pd_Incremental payload); [|by apply step_save_discovery].
  destruct (AdvanceDiscovery _ _) as [[[] p]|]; [| |by apply step_resolveFailure]; cbn [negb].
  - destruct (mapM _ _); [by apply step_save_discovery|by apply step_resolveFailure].
  - pose proof (jobs_for_requeue_discovery hash dev (d_now ue) job p _ (good_owned _ _ _ G) Ht) as Hj.
    assert (quiet dev (g_jobs (d_gate d)) (RequeueDiscovery (d_now ue) job p (g_jobs (d_gate d))).2) as Hn
      by (by apply quiet_guarded_or).
    destruct (RequeueDiscovery _ _ _ _) as [[?|?] j]; [|by apply step_resolveFailure].
    rewrite (good_dev _ _ _ G). apply step_retry; [apply G|]. by apply step_jobs.
Qed.

Lemma step_save_instances job fw found paths d k :
  good job d → continues job k → usp_step d (save_instances controllerID agents registry ue job fw found paths d k).
Proof.
  intros G Hk. revert d G. induction paths as [|path rest IH]; intros d G; [by apply Hk|]. cbn [save_instances].
  destruct (found !! path); [|by apply step_resolveFailure]. rewrite (good_dev _ _ _ G).
  apply step_or_fail; [done| |exact IH]. intros g'. apply step_with_params. intros p. apply SaveInstances_params_for.
Qed.

Lemma step_settle_get job out d k :
  good job d → continues job k → usp_step d (settle_get controllerID agents registry ue job out d k).
Proof.
  intros G Hk. assert (continues job (λ d, settle_read_evidence controllerID agents registry ue job out d k)) as He.
  { clear d G. intros d G. unfold settle_read_evidence. cbv zeta.
    destruct (decode_GetParameter _) as [payload|]; [|by apply step_resolveFailure].
    destruct (gp_Instances payload); [by apply step_save_instances|]. destruct (negb _).
    - rewrite (good_dev _ _ _ G). apply step_or_fail; [done| |done].
      intros g'. apply step_with_params. intros p. apply RecordOperation_params_for.
    - destruct (negb _); [by apply step_resolveFailure|by apply Hk]. }
  unfold settle_get. cbv zeta. destruct (_ =? _)%nat; [by apply He|].
  destruct (partial_read _ _); [by apply step_resolveFailure|].
  rewrite (good_dev _ _ _ G). apply step_or_fail; [done|apply step_upsert_params|exact He].
Qed.

Lemma step_settle job out d : good job d → usp_step d (settle controllerID agents registry ue job out d).
Proof.
  intros G. unfold settle. cbv zeta.
  assert (continues job (resolveSuccess controllerID agents registry ue job (out_detail out))) as Hk.
  { intros d' G'. by apply step_resolveSuccess. }
  destruct (Type_ job) eqn:Ht; try (by apply Hk).
  - by apply step_settle_set.
  - by apply step_settle_get.
  - by apply step_settle_discovery.
Qed.
End Dispatch.
