(* ===== verification/UspDispatchTheorems.v ===== *)
(** * Correctness of the USP dispatcher *)

From S2P Require Import Prelude GoStrings Json JobModel JobStore JobLaws Discovery Devices Credentials ParamCache.
From S2P Require Import ParamTheorems Onboarding OnboardingLaws Sessions Render Gateway GatewayLaws Usp UspConn.
From S2P Require Import UspRequest UspDispatch UspLaws GatewayTheorems.

(** ** The invariant *)

(** Every request remembered is for a job of the table. *)
Record dispatcher_ok (d : Dispatcher) : Prop := mk_dispatcher_ok {
  do_gate : gateway_ok (d_gate d);
  do_pending : ∀ id e, d_pending d !! id = Some e → owned (DeviceID (pj_job e)) (g_jobs (d_gate d)) (pj_job e)
}.

(** The row a snapshot names stays a row of its device, whatever device a step is
    for. *)
Lemma owned_kept_any hash dev dev' tab tab' job :
  jobs_for hash dev tab tab' → owned dev' tab job → owned dev' tab' job.
Proof.
  intros Hf (row & H & Hd & Ht). destruct (jf_kept _ _ _ _ Hf _ _ H) as (row' & H' & Hi).
  exists row'. injection Hi as _ _ Hi Hi' _. split_and!; congruence.
Qed.

Lemma step_dispatcher_ok `{W : ProtoWire} hash agents registry dev d d' :
  usp_step hash agents registry dev d d' → dispatcher_ok d → dispatcher_ok d'.
Proof.
  intros Hs [Hg Hp]. constructor; [by eapply step_ok|]. intros id e [He|(Hd & Ho & _)]%(us_pending _ _ _ _ _ _ Hs).
  - eapply owned_kept_any; [exact (af_jobs _ _ _ _ (us_acts _ _ _ _ _ _ Hs))|by eapply Hp].
  - by rewrite Hd.
Qed.

Section Theorems.
Context `{W : ProtoWire} (hash : json → string) (controllerID : string).
Context (agents : Agents) (registry : Registry) (ue : UspEnv).

Abbreviation step := (usp_step hash agents registry).
Abbreviation respond := (handleResponse controllerID agents registry ue).
Abbreviation complete := (handleOperationComplete controllerID agents registry ue).

(** The entry an answer is matched with. *)
Definition answers (from : string) (m : Msg) (d : Dispatcher) (e : pendingDispatch) : Prop :=
  ∃ h, m_Header m = Some h ∧ d_pending d !! h_MsgId h = Some e ∧ c_endpoint (pj_conn e) = from.

Lemma pending_good d id e :
  dispatcher_ok d → d_pending d !! id = Some e → good (DeviceID (pj_job e)) (pj_job e) d.
Proof. intros [Hg Hp] He. constructor; [done|by eapply Hp|done]. Qed.

Lemma respond_answered from m d e :
  answers from m d e →
  respond from m d =
    let dropped := set_pending (delete (GetMsgId m) (d_pending d)) d in
    match ErrorFromMsg m with
    | Some err => (true, classifyAndFail controllerID agents registry ue (pj_job e) err dropped)
    | None =>
        let out := classifyResponse (e_range (d_env ue)) m in
        if out_stillPending out then (true, d)
        else match out_uspErr out with
             | Some err => (true, classifyAndFail controllerID agents registry ue (pj_job e) err dropped)
             | None => (true, settle controllerID agents registry ue (pj_job e) out dropped)
             end
    end.
Proof.
  intros (h & Hh & He & Hc). unfold handleResponse, GetMsgId. rewrite Hh, He, Hc, String.eqb_refl. cbn [negb]. done.
Qed.

Lemma drop_step dev id d : step dev d (set_pending (delete id (d_pending d)) d).
Proof. apply step_forget_pending, delete_subseteq. Qed.

Lemma respond_step from m d e :
  dispatcher_ok d → answers from m d e → step (DeviceID (pj_job e)) d (respond from m d).2 ∧ (respond from m d).1 = true.
Proof.
  intros Hok Ha. rewrite (respond_answered _ _ _ _ Ha). cbv zeta. destruct Ha as (h & _ & He & _).
  pose proof (pending_good _ _ _ Hok He) as G. pose proof (drop_step (DeviceID (pj_job e)) (GetMsgId m) d) as Hd.
  pose proof (good_after _ _ _ _ _ _ _ Hd G) as G'.
  destruct (ErrorFromMsg m) as [err|].
  - split; [|done]. etrans; [exact Hd|]. by apply step_classifyAndFail.
  - destruct (out_stillPending _); [by split|]. destruct (out_uspErr _) as [err|]; (split; [|done]);
      (etrans; [exact Hd|]); [by apply step_classifyAndFail|by apply step_settle].
Qed.

Lemma respond_cases from m d :
  (∃ e, answers from m d e) ∨ (respond from m d = (false, d) ∧ ∀ e, ¬ answers from m d e).
Proof.
  unfold handleResponse, answers. destruct (m_Header m) as [h|]; [|right; split; [done|naive_solver]].
  destruct (d_pending d !! h_MsgId h) as [e|] eqn:Ep; [|right; split; [done|naive_solver]].
  destruct (String.eqb _ from) eqn:Ef; bool_to_prop; [left; exists e, h; done|right].
  split; [done|]. intros e' (h' & [= <-] & He' & Hc). simplify_eq.
Qed.

(** An answer that matches no outstanding request of the endpoint it came from
    changes nothing.  One that does is a step for the device of that request's
    job: it runs statements of the job repository, leaves every other device's
    rows as they were, never alters a job that is already settled, never puts a
    second request of the device in flight, and sends only to the connection
    linked to the device; the dispatcher's invariant is kept. *)
Theorem response_serves_the_request_it_answers from m d :
  dispatcher_ok d →
  match respond from m d with
  | (false, d') => d' = d ∧ ∀ e, ¬ answers from m d e
  | (true, d') => dispatcher_ok d' ∧ ∃ e, answers from m d e ∧ step (DeviceID (pj_job e)) d d'
  end.
Proof.
  intros Hok. destruct (respond from m d) as [matched d'] eqn:E.
  destruct (respond_cases from m d) as [(e & He)|(Hn & Hno)].
  - pose proof (respond_step _ _ _ _ Hok He) as [Hs Hm]. rewrite E in Hs, Hm. cbn in Hs, Hm. subst matched.
    split; [by eapply step_dispatcher_ok|eauto].
  - rewrite Hn in E. by simplify_eq.
Qed.

(** ** Failures *)

(** A failure the controller looks for in a response.  Errors inside an item that
    was added or deleted with success are not among them
    ([errors_in_a_success_are_ignored]). *)
Inductive reports : UResponse → Z → string → Prop :=
| reports_get results r : r ∈ results → rq_ErrCode r ≠ 0 → reports (Response_GetResp results) (rq_ErrCode r) (rq_ErrMsg r)
| reports_instances results r :
    r ∈ results → ir_ErrCode r ≠ 0 → reports (Response_GetInstancesResp results) (ir_ErrCode r) (ir_ErrMsg r)
| reports_objects results r :
    r ∈ results → ro_ErrCode r ≠ 0 → reports (Response_GetSupportedDmResp results) (ro_ErrCode r) (ro_ErrMsg r)
| reports_set results code msg : Set_Failure code msg ∈ results → reports (Response_SetResp results) code msg
| reports_set_param results instances errs code msg :
    Set_Success instances ∈ results → errs ∈ instances → (code, msg) ∈ errs → code ≠ 0 →
    reports (Response_SetResp results) code msg
| reports_add results path code msg :
    (path, Add_Failure code msg) ∈ results → reports (Response_AddResp results) code msg
| reports_delete results path code msg :
    (path, Delete_Failure code msg) ∈ results → reports (Response_DeleteResp results) code msg
| reports_command results code msg :
    Op_CmdFailure code msg ∈ results → reports (Response_OperateResp results) code msg.

Lemma first_error_none {A} (f : A → option USPError) l x : first_error f l = None → x ∈ l → f x = None.
Proof. rewrite first_error_spec. eauto. Qed.

Lemma code_error_some code msg e : code_error code msg = Some e ↔ code ≠ 0 ∧ e = usp_error code msg.
Proof. unfold code_error. destruct (code =? 0) eqn:E; bool_to_prop; naive_solver. Qed.

Lemma code_error_none code msg : code_error code msg = None → code = 0.
Proof. unfold code_error. destruct (code =? 0) eqn:E; by bool_to_prop. Qed.

Lemma classify_error rng m e :
  out_uspErr (classifyResponse rng m) = Some e → reports (GetResponse m) (ue_Code e) (ue_Message e).
Proof.
  unfold classifyResponse. destruct (GetResponse m) as [|l|l|l|l|l|l|l| | | |]; try done.
  - cbn. intros (r & Hr & (Hc & ->)%code_error_some)%first_error_some. by constructor.
  - unfold classifyGetSupportedDMResp. destruct (first_error _ l) eqn:E; [|done]. intros [= <-].
    apply first_error_some in E as (r & Hr & (Hc & ->)%code_error_some). by constructor.
  - unfold classifyGetInstancesResp. destruct (first_error _ l) eqn:E; [|done]. intros [= <-].
    apply first_error_some in E as (r & Hr & (Hc & ->)%code_error_some). by constructor.
  - unfold classifySetResp. destruct (first_error _ l) eqn:E; [|done]. intros [= <-].
    apply first_error_some in E as ([|code msg|instances] & Hr & He); [done|by simplify_eq/=; apply reports_set|].
    apply first_error_some in He as (errs & Hi & ([code msg] & Hp & (Hc & ->)%code_error_some)%first_error_some).
    by eapply reports_set_param.
  - unfold classifyAddResp. destruct (first_error _ l) eqn:E; [|done]. intros [= <-].
    apply first_error_some in E as ([path []] & Hr & [= <-]). by eapply reports_add.
  - unfold classifyDeleteResp. destruct (first_error _ l) eqn:E; [|done]. intros [= <-].
    apply first_error_some in E as ([path []] & Hr & [= <-]). by eapply reports_delete.
  - unfold classifyOperateResp. destruct (first_error _ l) eqn:E; [|by destruct (existsb _ l)]. intros [= <-].
    apply first_error_some in E as ([] & Hr & [= <-]). by apply reports_command.
Qed.

Lemma classify_no_error rng m code msg :
  out_uspErr (classifyResponse rng m) = None → ¬ reports (GetResponse m) code msg.
Proof.
  unfold classifyResponse. intros Hn Hr.
  destruct Hr as [l r Hr Hc|l r Hr Hc|l r Hr Hc|l c t Hr|l insts es c t Hi He Hp Hc|l p c t Hr|l p c t Hr|l c t Hr]; cbn in Hn.
  - apply (first_error_none _ _ _ Hn) in Hr. by apply code_error_none in Hr.
  - unfold classifyGetInstancesResp in Hn. destruct (first_error _ l) eqn:E; [done|].
    apply (first_error_none _ _ _ E) in Hr. by apply code_error_none in Hr.
  - unfold classifyGetSupportedDMResp in Hn. destruct (first_error _ l) eqn:E; [done|].
    apply (first_error_none _ _ _ E) in Hr. by apply code_error_none in Hr.
  - unfold classifySetResp in Hn. destruct (first_error _ l) eqn:E; [done|]. by apply (first_error_none _ _ _ E) in Hr.
  - unfold classifySetResp in Hn. destruct (first_error _ l) eqn:E; [done|].
    apply (first_error_none _ _ _ E) in Hi. cbn in Hi. apply (first_error_none _ _ _ Hi) in He.
    apply (first_error_none _ _ _ He) in Hp. by apply code_error_none in Hp.
  - unfold classifyAddResp in Hn. destruct (first_error _ l) eqn:E; [done|]. by apply (first_error_none _ _ _ E) in Hr.
  - unfold classifyDeleteResp in Hn. destruct (first_error _ l) eqn:E; [done|]. by apply (first_error_none _ _ _ E) in Hr.
  - unfold classifyOperateResp in Hn. destruct (first_error _ l) eqn:E; [done|]. by apply (first_error_none _ _ _ E) in Hr.
Qed.

(** The row a failure leaves. *)
Definition failed_row (code msg : string) (row : Job) : Job :=
  set_fault_string msg (set_fault_code code (finish StatusFailed (d_now ue) row)).

(** The next dispatch leaves settled rows alone. *)
Lemma retry_keeps dev d k row :
  gateway_ok (d_gate d) → g_jobs (d_gate d) !! k = Some row → ¬ active row →
  g_jobs (d_gate (retryDispatch controllerID agents registry ue dev d)) !! k = Some row.
Proof.
  intros Hg Hk Ha. exact (us_settled _ _ _ _ _ _ (step_tryDispatch hash controllerID agents registry ue dev d Hg) _ _ Hk Ha).
Qed.

Lemma resolvable_sent job d row :
  g_jobs (d_gate d) !! ID job = Some row → Status row = StatusRPCSent → stillResolvable job d = true.
Proof. intros Hr Hs. unfold stillResolvable, ByID. by rewrite Hr, Hs. Qed.

Lemma resolveFailure_row dev job c m d row :
  good dev job d → g_jobs (d_gate d) !! ID job = Some row → Status row = StatusRPCSent →
  g_jobs (d_gate (resolveFailure controllerID agents registry ue job c m d)) !! ID job = Some (failed_row c m row).
Proof.
  intros G Hr Hs. unfold resolveFailure. pose proof (step_mark_failure hash ue dev true (λ _, True) job c m d G) as H1.
  apply retry_keeps; [eapply step_ok; [exact H1|apply G]| |by intros [|]].
  unfold mark_failure. rewrite (resolvable_sent _ _ _ Hr Hs). cbn. unfold MarkFailed, by_id.
  rewrite lookup_update_key, decide_True, Hr by done. done.
Qed.

Lemma resolveSuccess_row dev job detail d row :
  good dev job d → g_jobs (d_gate d) !! ID job = Some row → Status row = StatusRPCSent →
  g_jobs (d_gate (resolveSuccess controllerID agents registry ue job detail d)) !! ID job
  = Some (set_detail (detail_json detail) (finish StatusSuccess (d_now ue) row)).
Proof.
  intros G Hr Hs. unfold resolveSuccess. rewrite (resolvable_sent _ _ _ Hr Hs).
  assert (usp_step hash agents registry dev d
    (disp_jobs (MarkSuccessWithDetail (d_now ue) (ID job) (detail_json detail)) d)) as H1.
  { apply step_jobs; [apply jobs_for_success_detail, G|]. apply quiet_update_key; [|done|done].
    intros row' Hr' _. right. congruence. }
  apply retry_keeps; [eapply step_ok; [exact H1|apply G]| |by intros [|]].
  cbn. unfold MarkSuccessWithDetail, by_id. rewrite lookup_update_key, decide_True, Hr by done. done.
Qed.

Lemma classifyAndFail_row dev job e d row :
  good dev job d → g_jobs (d_gate d) !! ID job = Some row → Status row = StatusRPCSent →
  ∃ prefix, g_jobs (d_gate (classifyAndFail controllerID agents registry ue job e d)) !! ID job
            = Some (failed_row (Itoa (ue_Code e)) (prefix ++ ue_Message e)%string row).
Proof.
  intros G Hr Hs. unfold classifyAndFail. pose proof (resolveFailure_row _ _ (Itoa (ue_Code e)) (ue_Message e) _ _ G Hr Hs) as H0.
  repeat case_match; [|exists EmptyString; exact H0| |exists EmptyString; exact H0];
    eexists; by eapply resolveFailure_row.
Qed.

(** Of an object added or deleted with success the errors the agent reports for
    its parameters, or for the paths it did not delete, are not looked at: the
    response is classified as a success whatever they are. *)
Theorem errors_in_a_success_are_ignored (rng : ∀ A : Type, gmap string A → list (string * A)) m :
  (∃ results, GetResponse m = Response_AddResp results ∧ ∀ r, r ∈ results → ∃ path errs keys, r.2 = Add_Success path errs keys) ∨
  (∃ results, GetResponse m = Response_DeleteResp results ∧ ∀ r, r ∈ results → ∃ paths errs, r.2 = Delete_Success paths errs) →
  out_uspErr (classifyResponse rng m) = None.
Proof.
  unfold classifyResponse. intros [(l & -> & H)|(l & -> & H)].
  - unfold classifyAddResp. assert (first_error add_error l = None) as ->; [|done]. apply first_error_spec.
    intros r Hr. unfold add_error. by destruct (H r Hr) as (? & ? & ? & ->).
  - unfold classifyDeleteResp. assert (first_error delete_error l = None) as ->; [|done]. apply first_error_spec.
    intros r Hr. unfold delete_error. by destruct (H r Hr) as (? & ? & ->).
Qed.

(** C30: whatever kind of request it answers, an answer that is an error, or a
    response that reports a failure the controller classifies (the error of a
    path read, of an object type or of an instance listing, a set or a parameter
    set that failed, an object that was not added or not deleted, a command that
    failed), fails the job in flight with the code and message the agent
    reported.  Errors inside an item added or deleted with success are no such
    failure ([errors_in_a_success_are_ignored]). *)
Theorem reported_failure_fails_the_job from m d e row :
  dispatcher_ok d → answers from m d e → g_jobs (d_gate d) !! ID (pj_job e) = Some row → Status row = StatusRPCSent →
  let failed code msg := ∃ prefix, g_jobs (d_gate (respond from m d).2) !! ID (pj_job e)
                                   = Some (failed_row (Itoa code) (prefix ++ msg)%string row) in
  (∀ err, m_Body m = Some (Body_Error (Some err)) → failed (pe_ErrCode err) (pe_ErrMsg err)) ∧
  ((∃ code msg, reports (GetResponse m) code msg) → ∃ code msg, reports (GetResponse m) code msg ∧ failed code msg).
Proof.
  intros Hok Ha Hr Hs. cbv zeta. rewrite (respond_answered _ _ _ _ Ha). cbv zeta. destruct Ha as (h & _ & He & _).
  pose proof (pending_good _ _ _ Hok He) as G. pose proof (drop_step (DeviceID (pj_job e)) (GetMsgId m) d) as Hd.
  pose proof (good_after _ _ _ _ _ _ _ Hd G) as G'. split.
  - intros err Hb. unfold ErrorFromMsg. rewrite Hb. cbn [snd].
    exact (classifyAndFail_row _ _ (mkUSPError (pe_ErrCode err) (pe_ErrMsg err) _) _ row G' Hr Hs).
  - intros (code & msg & Hrep). assert (ErrorFromMsg m = None) as ->.
    { unfold GetResponse in Hrep. unfold ErrorFromMsg. destruct (m_Body m) as [[]|]; try done; inversion Hrep. }
    destruct (out_uspErr (classifyResponse (e_range (d_env ue)) m)) as [err|] eqn:Eerr.
    + assert (out_stillPending (classifyResponse (e_range (d_env ue)) m) = false) as ->.
      { clear -Eerr. unfold classifyResponse in *. destruct (GetResponse m); try done.
        - unfold classifyGetSupportedDMResp in *. by destruct (first_error _ _).
        - unfold classifyGetInstancesResp in *. by destruct (first_error _ _).
        - unfold classifySetResp in *. by destruct (first_error _ _).
        - unfold classifyAddResp in *. by destruct (first_error _ _).
        - unfold classifyDeleteResp in *. by destruct (first_error _ _).
        - unfold classifyOperateResp in *. destruct (first_error _ _); [done|]. by destruct (existsb _ _). }
      exists (ue_Code err), (ue_Message err). split; [by eapply classify_error|].
      exact (classifyAndFail_row _ _ err _ row G' Hr Hs).
    + by apply (classify_no_error _ _ code msg) in Eerr.
Qed.

(** ** Asynchronous operations *)

Lemma ByCommandKey_row d key job :
  gateway_ok (d_gate d) → ByCommandKey (g_jobs (d_gate d)) key = Some job →
  g_jobs (d_gate d) !! ID job = Some job ∧ CommandKey job = key.
Proof.
  intros Hg H. unfold ByCommandKey in H. apply List.find_some in H as [Hin Hk].
  apply list_elem_of_In, elem_of_rows in Hin as (k & Hj).
  pose proof (ok_key _ _ (tab_rows _ (go_jobs _ Hg) _ _ Hj)) as Hid. cbn in Hid. subst k.
  split; [done|]. by apply String.eqb_eq in Hk.
Qed.

Lemma complete_step dev oc d :
  dispatcher_ok d → complete dev oc d = d ∨ dev ≠ EmptyString ∧ step dev d (complete dev oc d).
Proof.
  intros Hok. unfold handleOperationComplete. destruct (ByCommandKey _ _) as [job|] eqn:Ek; [|by left].
  apply ByCommandKey_row in Ek as [Hrow Hkey]; [|apply Hok].
  destruct (String.eqb dev "") eqn:Ed; [by left|]. destruct (String.eqb dev (DeviceID job)) eqn:Edev; [|by left].
  destruct (status_eqb (Status job) StatusRPCSent); [|by left]. bool_to_prop. cbn [orb negb]. right. split; [done|]. subst dev. set (d1 := set_pending _ d).
  assert (step (DeviceID job) d d1) as H1 by (apply step_forget_pending, map_filter_subseteq).
  assert (good (DeviceID job) job d1) as G.
  { eapply good_after; [exact H1|]. constructor; [apply Hok|by exists job|done]. }
  etrans; [exact H1|]. destruct (oc_Failed oc); [by apply step_classifyAndFail|by apply step_resolveSuccess].
Qed.

(** An operation the agent accepts without a result stays in flight: the
    acceptance changes nothing.  Its completion settles the job with the command
    key it names when that job belongs to the device of the reporting connection
    and is still in flight: success with the output arguments, failure with the
    code and message reported, as a step for that device.  Every other completion
    is ignored. *)
Theorem operation_is_settled_by_its_completion d :
  dispatcher_ok d →
  (∀ from m e results, answers from m d e → GetResponse m = Response_OperateResp results →
     (∀ code msg, Op_CmdFailure code msg ∉ results) → (∃ path, Op_ReqObjPath path ∈ results) →
     respond from m d = (true, d)) ∧
  (∀ oc job, g_jobs (d_gate d) !! ID job = Some job → CommandKey job = oc_CommandKey oc →
     DeviceID job ≠ EmptyString → Status job = StatusRPCSent →
     let d' := complete (DeviceID job) oc d in
     step (DeviceID job) d d' ∧ dispatcher_ok d' ∧
     if oc_Failed oc
     then ∃ prefix, g_jobs (d_gate d') !! ID job
                    = Some (failed_row (Itoa (oc_ErrCode oc)) (prefix ++ oc_ErrMsg oc)%string job)
     else g_jobs (d_gate d') !! ID job
          = Some (set_detail (detail_json (operationCompleteResultDetail oc)) (finish StatusSuccess (d_now ue) job))) ∧
  (∀ dev oc, (∀ k job, g_jobs (d_gate d) !! k = Some job → CommandKey job = oc_CommandKey oc → DeviceID job = dev →
                dev ≠ EmptyString → Status job ≠ StatusRPCSent) → complete dev oc d = d).
Proof.
  intros Hok. split_and!.
  - intros from m e results Ha Hr Hnf (path & Hp). rewrite (respond_answered _ _ _ _ Ha). cbv zeta.
    assert (ErrorFromMsg m = None) as ->.
    { unfold GetResponse in Hr. unfold ErrorFromMsg. by destruct (m_Body m) as [[]|]. }
    unfold classifyResponse. rewrite Hr. unfold classifyOperateResp.
    destruct (first_error operate_error results) as [err|] eqn:E.
    { apply first_error_some in E as ([| | |code msg] & Hin & Herr); simplify_eq/=. by destruct (Hnf code msg). }
    assert (existsb operate_accepted results = true) as ->; [|done].
    apply existsb_exists. exists (Op_ReqObjPath path). split; [by apply list_elem_of_In|done].
  - intros oc job Hrow Hkey Hne Hst. cbv zeta. unfold handleOperationComplete.
    rewrite <-Hkey, (ByCommandKey_unique _ _ _ (go_jobs _ (do_gate _ Hok)) Hrow), Hst, String.eqb_refl.
    rewrite (proj2 (String.eqb_neq _ _) Hne). cbn [orb negb]. change (status_eqb StatusRPCSent StatusRPCSent) with true.
    cbn [negb]. set (d1 := set_pending _ d).
    assert (step (DeviceID job) d d1) as H1 by (apply step_forget_pending, map_filter_subseteq).
    assert (good (DeviceID job) job d1) as G.
    { eapply good_after; [exact H1|]. constructor; [apply Hok|by exists job|done]. }
    destruct (oc_Failed oc).
    + pose proof (step_classifyAndFail hash controllerID agents registry ue _ _ (usp_error (oc_ErrCode oc) (oc_ErrMsg oc)) _ G) as H2.
      split_and!; [etrans; [exact H1|exact H2]|eapply step_dispatcher_ok; [etrans; [exact H1|exact H2]|done]|].
      exact (classifyAndFail_row _ _ (usp_error (oc_ErrCode oc) (oc_ErrMsg oc)) d1 job G Hrow Hst).
    + pose proof (step_resolveSuccess hash controllerID agents registry ue _ _ (operationCompleteResultDetail oc) _ G) as H2.
      split_and!; [etrans; [exact H1|exact H2]|eapply step_dispatcher_ok; [etrans; [exact H1|exact H2]|done]|].
      exact (resolveSuccess_row _ _ _ d1 job G Hrow Hst).
  - intros dev oc Hno. unfold handleOperationComplete. destruct (ByCommandKey _ _) as [job|] eqn:Ek; [|done].
    apply ByCommandKey_row in Ek as [Hrow Hkey]; [|apply Hok].
    destruct (String.eqb dev "") eqn:Ed; [done|]. destruct (String.eqb dev (DeviceID job)) eqn:Edev; [|done].
    destruct (status_eqb (Status job) StatusRPCSent) eqn:Es; [|done]. bool_to_prop.
    apply bool_decide_eq_true in Es. by destruct (Hno _ _ Hrow Hkey (eq_sym Edev) Ed).
Qed.

(** ** Termination *)

(** The jobs that may still be leased. *)
Definition queue_size (dev : string) (tab : gmap string Job) : nat :=
  size (filter (λ kv, leasable dev uspDispatchableTypes true kv.2 = true) tab).

Lemma queue_size_settled dev tab k row x :
  tab !! k = Some row → leasable dev uspDispatchableTypes true row = true →
  leasable dev uspDispatchableTypes true x = false → (queue_size dev (<[k := x]> tab) < queue_size dev tab)%nat.
Proof.
  intros Hk Hl Hx. unfold queue_size. rewrite map_filter_insert_False by (cbn; congruence).
  rewrite map_filter_delete. set (m := filter _ tab).
  assert (m !! k = Some row) as Hm by (by apply map_lookup_filter_Some).
  rewrite map_size_delete, Hm. assert (size m ≠ 0%nat) by (intros H0%map_size_empty_inv; by rewrite H0 in Hm). lia.
Qed.

Lemma leasable_failed dev c m row : leasable dev uspDispatchableTypes true (failed_row c m row) = false.
Proof. unfold leasable. cbn. by rewrite andb_false_r. Qed.

Lemma enough_fuel fuel fuel' dev d :
  gateway_ok (d_gate d) → (queue_size dev (g_jobs (d_gate d)) < fuel)%nat →
  (queue_size dev (g_jobs (d_gate d)) < fuel')%nat →
  try_dispatch controllerID agents registry ue fuel dev d = try_dispatch controllerID agents registry ue fuel' dev d.
Proof.
  revert fuel' d. induction fuel as [|fuel IH]; intros [|fuel'] d Hg H H'; try lia. cbn [try_dispatch].
  destruct (dispatch_ready _ _ _ _) as [conn|] eqn:Er; [|done]. apply ready_linked in Er as [_ Hn]. unfold lease_and_send.
  destruct (LeaseForUSPTypes _ _ _ _ _ _) as [[job|] leased] eqn:El; [|done]. cbv zeta.
  destruct (BindFirmware _ _ job _) as [[job'|e] bound] eqn:Eb; [done|].
  pose proof (Bind_err _ _ _ _ _ _ Eb) as Hu.
  destruct (step_leased hash ue dev true (λ _, True) _ _ _ Hg (λ _, Hn) El Hu) as (H1 & G1 & _).
  pose proof (step_mark_failure hash ue dev true (λ _, True) job "FIRMWARE_CHANGED" e _ G1) as H2.
  pose proof (leased_spec _ _ _ _ _ _ _ (go_jobs _ Hg) El) as (row & Hrow & Hl & Hj & Htab).
  assert (queue_size dev (g_jobs (d_gate (mark_failure ue job "FIRMWARE_CHANGED" e (draw_msg (disp_jobs (λ _, leased) d)))))
          < queue_size dev (g_jobs (d_gate d)))%nat as Hlt.
  { unfold mark_failure. erewrite resolvable_sent; [|cbn; rewrite Htab; apply lookup_insert_eq|done].
    cbn. unfold MarkFailed, by_id, update_key. rewrite Htab, lookup_insert_eq. cbn [fst]. rewrite insert_insert_eq.
    eapply queue_size_settled; [exact Hrow|done|]. apply leasable_failed. }
  rewrite (good_dev _ _ _ G1). apply IH; [eapply step_ok; [exact H2|apply G1]| |]; lia.
Qed.

(** C31: dispatching for a device terminates: every job it gives up on (its
    firmware is not the one it was bound to) leaves the queue, so the bound of
    one round per job of the table is never reached, and any larger bound gives
    the same result. *)
Theorem dispatch_terminates dev d n :
  gateway_ok (d_gate d) →
  tryDispatch controllerID agents registry ue dev d
  = try_dispatch controllerID agents registry ue (S (size (g_jobs (d_gate d))) + n) dev d.
Proof.
  intros Hg. assert (queue_size dev (g_jobs (d_gate d)) ≤ size (g_jobs (d_gate d)))%nat as Hle.
  { unfold queue_size. apply map_subseteq_size, map_filter_subseteq. }
  apply enough_fuel; [done|lia|lia].
Qed.

End Theorems.

(** ** Concrete runs *)

(** A wire format that keeps nothing but the payload: enough to run the
    dispatcher, which never reads back what it sends. *)
#[local] Instance w_wire : ProtoWire := {|
  marshal_record := λ r, match r_RecordType r with Rec_NoSessionContext p => Some p | _ => None end;
  unmarshal_record := λ w, None;
  marshal_msg := λ m, Ok (GetMsgId m ++ " " ++ MsgType_name (GetMsgType m))%string;
  unmarshal_msg := λ w, None
|}.

Definition w_agent_conn : Conn := mkConn 1 "os::0000CA-S1" KindWebSocket.
Definition w_agents : Agents := {["d-1" := mkUspAgent "os::0000CA-S1" "WebSocket" true 10 10 ["1.3"] ""]}.
Definition w_live : Registry := {["os::0000CA-S1" := w_agent_conn]}.
Definition w_ue : UspEnv := mkUspEnv w_env (λ n, ("m-" ++ Itoa (Z.of_nat n))%string) (λ _ _, true).

(** The reboot queued for [d-1], sent. *)
Definition w_idle : Dispatcher := mkDispatcher w_gateway ∅ [] 0.
Definition w_dispatched : Dispatcher := tryDispatch "self::acs" w_agents w_live w_ue "d-1" w_idle.

Lemma w_idle_ok : dispatcher_ok w_idle.
Proof. constructor; [exact w_gateway_ok|]. intros id e H. cbn in H. by rewrite lookup_empty in H. Qed.

Lemma w_dispatched_ok : dispatcher_ok w_dispatched.
Proof.
  eapply (step_dispatcher_ok w_hash w_agents w_live "d-1"); [|exact w_idle_ok].
  apply step_tryDispatch. exact w_gateway_ok.
Qed.

Example w_dispatched_sent :
  d_sent w_dispatched = [(w_agent_conn, "m-0 OPERATE")] ∧
  (Status <$> g_jobs (d_gate w_dispatched) !! "j-1") = Some StatusRPCSent ∧
  (ID ∘ pj_job) <$> d_pending w_dispatched !! "m-0" = Some "j-1".
Proof. by vm_compute. Qed.

Definition w_entry : pendingDispatch :=
  default (mkPending (new_job (mkFresh "" "" "") 0 "" TypeReboot JNull "" 0 None None) w_agent_conn) (d_pending w_dispatched !! "m-0").
Definition w_sent_row : Job := default (pj_job w_entry) (g_jobs (d_gate w_dispatched) !! "j-1").

Lemma w_entry_id : ID (pj_job w_entry) = "j-1".
Proof. by vm_compute. Qed.
Lemma w_row_id : ID w_sent_row = "j-1".
Proof. by vm_compute. Qed.
Lemma w_row_device : DeviceID w_sent_row = "d-1".
Proof. by vm_compute. Qed.
Lemma w_row_sent : g_jobs (d_gate w_dispatched) !! "j-1" = Some w_sent_row ∧ Status w_sent_row = StatusRPCSent.
Proof. split; by vm_compute. Qed.

Lemma w_rows k job : g_jobs (d_gate w_dispatched) !! k = Some job → job = w_sent_row.
Proof.
  assert (map_to_list (g_jobs (d_gate w_dispatched)) = [("j-1", w_sent_row)]) as Hl by (by vm_compute).
  intros Hk%elem_of_map_to_list. rewrite Hl in Hk. apply list_elem_of_singleton in Hk. exact (f_equal snd Hk).
Qed.

(** An answer to the reboot. *)
Definition w_answer (t : Header_MsgType) (b : MsgBody) : Msg := mkMsg (Some (mkHeader "m-0" t)) (Some b).

Lemma w_answers t b : answers "os::0000CA-S1" (w_answer t b) w_dispatched w_entry.
Proof. exists (mkHeader "m-0" t). split_and!; by vm_compute. Qed.

Lemma response_serves_the_request_it_answers_witness :
  let m := w_answer Header_OPERATE_RESP (Body_Response (Response_OperateResp [Op_ReqOutputArgs ∅])) in
  dispatcher_ok w_dispatched ∧
  (∃ e, answers "os::0000CA-S1" m w_dispatched e ∧
        usp_step w_hash w_agents w_live (DeviceID (pj_job e)) w_dispatched
          (handleResponse "self::acs" w_agents w_live w_ue "os::0000CA-S1" m w_dispatched).2) ∧
  (handleResponse "self::acs" w_agents w_live w_ue "os::someone-else" m w_dispatched).2 = w_dispatched.
Proof.
  cbv zeta. set (m := w_answer _ _). split_and!; [exact w_dispatched_ok| |].
  - pose proof (response_serves_the_request_it_answers w_hash "self::acs" w_agents w_live w_ue "os::0000CA-S1" m
      _ w_dispatched_ok) as H.
    assert ((handleResponse "self::acs" w_agents w_live w_ue "os::0000CA-S1" m w_dispatched).1 = true) as E by (by vm_compute).
    destruct (handleResponse _ _ _ _ _ _ _) as [matched d']. cbn in E. subst matched. exact (proj2 H).
  - pose proof (response_serves_the_request_it_answers w_hash "self::acs" w_agents w_live w_ue "os::someone-else" m
      _ w_dispatched_ok) as H.
    assert ((handleResponse "self::acs" w_agents w_live w_ue "os::someone-else" m w_dispatched).1 = false) as E by (by vm_compute).
    destruct (handleResponse _ _ _ _ _ _ _) as [matched d']. cbn in E. subst matched. exact (proj1 H).
Defined.

Lemma reported_failure_fails_the_job_witness :
  let m := w_answer Header_OPERATE_RESP (Body_Response (Response_OperateResp [Op_CmdFailure 7022 "busy"])) in
  ∃ code msg prefix,
    reports (GetResponse m) code msg ∧
    g_jobs (d_gate (handleResponse "self::acs" w_agents w_live w_ue "os::0000CA-S1" m w_dispatched).2) !! "j-1"
    = Some (failed_row w_ue (Itoa code) (prefix ++ msg)%string w_sent_row).
Proof.
  cbv zeta. set (m := w_answer _ _).
  destruct (reported_failure_fails_the_job w_hash "self::acs" w_agents w_live w_ue "os::0000CA-S1" m w_dispatched w_entry
    w_sent_row w_dispatched_ok (w_answers _ _) ltac:(rewrite w_entry_id; apply w_row_sent) (proj2 w_row_sent)) as [_ H].
  rewrite w_entry_id in H. destruct H as (code & msg & Hr & prefix & Hp).
  - exists 7022, "busy". apply reports_command, list_elem_of_here.
  - exists code, msg, prefix. split; [exact Hr|exact Hp].
Defined.

Lemma operation_is_settled_by_its_completion_witness :
  let accepted := w_answer Header_OPERATE_RESP (Body_Response (Response_OperateResp [Op_ReqObjPath "Device.LocalAgent.Request.1"])) in
  let done := mkOperComplete "sub" false "Device." "Reboot()" (CommandKey w_sent_row) {["Status" := "Complete"]} false 0 "" in
  handleResponse "self::acs" w_agents w_live w_ue "os::0000CA-S1" accepted w_dispatched = (true, w_dispatched) ∧
  g_jobs (d_gate (handleOperationComplete "self::acs" w_agents w_live w_ue "d-1" done w_dispatched)) !! "j-1"
  = Some (set_detail (detail_json (operationCompleteResultDetail done)) (finish StatusSuccess (d_now w_ue) w_sent_row)) ∧
  handleOperationComplete "self::acs" w_agents w_live w_ue "d-2" done w_dispatched = w_dispatched.
Proof.
  cbv zeta. destruct (operation_is_settled_by_its_completion w_hash "self::acs" w_agents w_live w_ue _ w_dispatched_ok)
    as (Ha & Hc & Hn). split_and!.
  - eapply Ha; [apply w_answers|reflexivity| |].
    + intros code msg H. apply list_elem_of_singleton in H. done.
    + exists "Device.LocalAgent.Request.1". apply list_elem_of_here.
  - set (oc := mkOperComplete _ _ _ _ _ _ _ _ _).
    destruct (Hc oc w_sent_row ltac:(rewrite w_row_id; apply w_row_sent) ltac:(reflexivity)
      ltac:(by rewrite w_row_device) (proj2 w_row_sent)) as (_ & _ & H).
    rewrite w_row_id, w_row_device in H. exact H.
  - apply Hn. intros k job Hk _ Hd. exfalso.
    apply w_rows in Hk. rewrite Hk, w_row_device in Hd. discriminate.
Defined.

Lemma dispatch_terminates_witness :
  tryDispatch "self::acs" w_agents w_live w_ue "d-1" w_idle = try_dispatch "self::acs" w_agents w_live w_ue 7 "d-1" w_idle.
Proof. apply (dispatch_terminates w_hash "self::acs" w_agents w_live w_ue "d-1" w_idle 5). exact w_gateway_ok. Defined.

(** ** Where the code falls short *)

(** A write whose value is a sealed secret (the job carries a handle, and no
    value) is sent over USP with an empty value: the handle is opened only by
    the CWMP gateway. *)
Theorem sealed_write_is_sent_empty `{W : ProtoWire} msgID job fw bound nr name type handle verify :
  Type_ job = TypeSetParameter →
  Payload job = encode_SetParameter (mkSetParameterPayload fw bound nr [mkParameterWrite name "" type handle] verify false) →
  buildUSPRequest msgID job
  = built (encodeRequest msgID Header_SET
             (Request_Set false [mkObject (object_of name) [mkSetting (leaf_of name) "" true]])).
Proof.
  intros Ht Hp. unfold buildUSPRequest. rewrite Ht, Hp, decode_encode_SetParameter. cbn [with_payload sp_VerificationPending].
  unfold EncodeSet. cbn [sp_Parameters groupParametersByObjectPath foldl]. unfold groupParametersByObjectPath. cbn [foldl].
  unfold group_write. cbn [pw_Name pw_Value]. rewrite lookup_empty. cbn [default].
  assert (∀ A k (x : A), sorted_entries {[k := x]} = [(k, x)]) as Hs.
  { intros A k x. unfold sorted_entries. rewrite map_to_list_singleton. unfold SortStrings. cbn. by rewrite lookup_singleton_eq. }
  rewrite !insert_empty. by rewrite Hs; unfold settings_of; cbn; rewrite Hs.
Qed.

Lemma sealed_write_is_sent_empty_witness :
  let job := set_payload (encode_SetParameter (mkSetParameterPayload "" false []
               [mkParameterWrite "Device.WiFi.AccessPoint.1.Security.KeyPassphrase" "" "xsd:string" "handle-1"] true false))
               (new_job (mkFresh "j" "20260101" "A") 0 "d-1" TypeSetParameter JNull "bss" 3 None None) in
  buildUSPRequest (W := w_wire) "m" job
  = built (encodeRequest (W := w_wire) "m" Header_SET
      (Request_Set false [mkObject "Device.WiFi.AccessPoint.1.Security." [mkSetting "KeyPassphrase" "" true]])).
Proof.
  cbv zeta. apply (sealed_write_is_sent_empty (W := w_wire) "m" _ "" false []
    "Device.WiFi.AccessPoint.1.Security.KeyPassphrase" "xsd:string" "handle-1" true); reflexivity.
Defined.

(** A read of [d-1] sent, its lease expired, and sent again: two requests for one
    job are remembered. *)
Definition w_read_jobs : gmap string Job :=
  (Create false (mkFresh "j-9" "20260101" "BBBB") 50 "d-1" TypeGetParameter
     (encode_GetParameter (mkGetParameterPayload "" false ["Device.DeviceInfo.UpTime"] false "")) "operator" ∅).2.
Definition w_first_try : Dispatcher :=
  tryDispatch "self::acs" w_agents w_live w_ue "d-1" (disp_jobs (λ _, w_read_jobs) w_idle).
Definition w_second_try : Dispatcher :=
  tryDispatch "self::acs" w_agents w_live w_ue "d-1"
    (disp_jobs (λ j, (RecoverExpiredLeases (100 + sessionLease + Second) j).1) w_first_try).

(** A late answer to the first attempt settles the second: the check before a
    job is resolved compares its status, which the retry has restored, and not
    the attempt the answered request belongs to. *)
Theorem stale_answer_settles_the_retry :
  let late := mkMsg (Some (mkHeader "m-0" Header_ERROR)) (Some (Body_Error (Some (mkPbError 7003 "late" [])))) in
  let after := (handleResponse "self::acs" w_agents w_live w_ue "os::0000CA-S1" late w_second_try).2 in
  (Attempts ∘ pj_job) <$> d_pending w_second_try !! "m-0" = Some 1 ∧
  (Attempts ∘ pj_job) <$> d_pending w_second_try !! "m-1" = Some 2 ∧
  (λ j, (Status j, Attempts j)) <$> g_jobs (d_gate w_second_try) !! "j-9" = Some (StatusRPCSent, 2) ∧
  (λ j, (Status j, Attempts j, FaultString j)) <$> g_jobs (d_gate after) !! "j-9" = Some (StatusFailed, 2, Some "late").
Proof. by vm_compute. Qed.

(** The kind of an answer is not compared with the request's: a reboot
    answered by the values of a parameter is recorded as done. *)
Theorem answer_of_another_kind_settles_the_job :
  let m := w_answer Header_GET_RESP (Body_Response (Response_GetResp [])) in
  Type_ <$> g_jobs (d_gate w_dispatched) !! "j-1" = Some TypeReboot ∧
  Status <$> g_jobs (d_gate (handleResponse "self::acs" w_agents w_live w_ue "os::0000CA-S1" m w_dispatched).2) !! "j-1"
  = Some StatusSuccess.
Proof. by vm_compute. Qed.
