(* ===== verification/Subscriptions.v ===== *)
(** * Subscriptions of USP agents ([internal/subscriptions],
    [cmd/uspc/subscriptions.go])

    The desired subscriptions of a device are compared with those its agent
    reports, and the difference is sent as Delete and Add requests.

    [is_uuid] is [uuid.Parse] of the third-party package, the mark of a
    subscription this controller created.  [Outbox] holds what was sent and the
    count of message identifiers drawn. *)

From S2P Require Import Prelude GoStrings Encoding Usp UspConn UspDispatch.

(** ** The difference ([reconcile.go]) *)

Record Item : Type := mkItem { it_Key : string; it_Fingerprint : string }.

#[global] Instance Item_eq_dec : EqDecision Item.
Proof. solve_decision. Defined.

Definition by_key (l : list Item) : gmap string Item := foldl (λ m i, <[it_Key i := i]> m) ∅ l.

(** Absent from the other side, or there with another fingerprint. *)
Definition differs (other : gmap string Item) (i : Item) : bool :=
  match other !! it_Key i with
  | None => true
  | Some o => negb (String.eqb (it_Fingerprint o) (it_Fingerprint i))
  end.

Definition Reconcile (desired actual : list Item) : list Item * list Item :=
  (List.filter (differs (by_key actual)) desired, List.filter (differs (by_key desired)) actual).

(** ** The table ([repository.go]) *)

Record Subscription : Type := mkSubscription {
  sub_ID : string;
  sub_DeviceID : string;
  sub_NotifType : string;
  sub_ReferenceList : list string;
  sub_Persistent : bool;
  sub_CreatedBy : string;
  sub_CreatedAt : GoTime
}.

Abbreviation SubTable := (gmap string Subscription).

Definition CreateSubscription (sub : Subscription) (t : SubTable) : result SubTable :=
  if is_some (t !! sub_ID sub) then Err "duplicate key value violates unique constraint"
  else Ok (<[sub_ID sub := sub]> t).

Definition ByDevice (t : SubTable) (dev : string) : list Subscription :=
  List.filter (λ s, String.eqb (sub_DeviceID s) dev) (rows t).

Definition DeleteSubscription (id : string) (t : SubTable) : SubTable := delete id t.

(** ** Fingerprints *)

Definition subscriptionRootPath : string := "Device.LocalAgent.Subscription.".
Definition referenceListSeparator : ascii := ",".

Definition joinReferenceList (refs : list string) : string := Join refs ",".
Definition splitReferenceList (s : string) : list string :=
  if String.eqb s "" then [] else Split s referenceListSeparator.

Definition subscriptionFingerprint (notifType : string) (persistent : bool) (refs : list string) : string :=
  (notifType ++ "|" ++ bool_text persistent ++ "|" ++ joinReferenceList refs)%string.

(** [strconv.ParseBool], an error reading as false. *)
Definition ParseBool (s : string) : bool :=
  existsb (String.eqb s) ["1"; "t"; "T"; "TRUE"; "true"; "True"].

(** [strings.Cut]: without the separator, the whole string and nothing. *)
Definition cut_or (s : string) (sep : ascii) : string * string := default (s, "") (Cut s sep).

Definition splitFingerprint (fp : string) : string * bool * list string :=
  let '(notifType, rest) := cut_or fp "|" in
  let '(persistent, refs) := cut_or rest "|" in
  (notifType, ParseBool persistent, splitReferenceList refs).

Definition item_of (s : Subscription) : Item :=
  mkItem (sub_ID s) (subscriptionFingerprint (sub_NotifType s) (sub_Persistent s) (sub_ReferenceList s)).

(** ** What the agent reports *)

Section Actual.
Context (is_uuid : string → bool).

Definition param (r : ResolvedPathResult) (name : string) : string := default "" (rp_ResultParams r !! name).

Definition instances_of (results : list RequestedPathResult) : list ResolvedPathResult :=
  List.filter (λ r, is_uuid (param r "ID")) (flat_map rq_Resolved results).

Definition actual_item (r : ResolvedPathResult) : Item :=
  mkItem (param r "ID") (subscriptionFingerprint (param r "NotifType") (ParseBool (param r "Persistent"))
                           (splitReferenceList (param r "ReferenceList"))).

(** The items, and the path each identifier was last reported at. *)
Definition actualSubscriptionItems (results : list RequestedPathResult) : list Item * gmap string string :=
  (actual_item <$> instances_of results,
   foldl (λ m r, <[param r "ID" := rp_ResolvedPath r]> m) ∅ (instances_of results)).
End Actual.

(** ** The reconciler *)

Inductive pendingKind : Type := pendingKindRead | pendingKindAdd | pendingKindDelete.

#[global] Instance pendingKind_eq_dec : EqDecision pendingKind.
Proof. solve_decision. Defined.

Record pendingSubscribe : Type := mkPendingSub {
  ps_conn : Conn;
  ps_deviceID : string;
  ps_kind : pendingKind;
  ps_desired : list Item;
  ps_key : string
}.

Record Outbox : Type := mkOutbox { o_sent : list (Conn * string); o_next : nat }.

Record Reconciler : Type := mkReconciler {
  rc_pending : gmap string pendingSubscribe;
  rc_inFlight : gmap string Conn;
  rc_out : Outbox
}.

Inductive SendResult : Type := Sent | NotEncoded | NotSent.

Section Subscriptions.
Context `{W : ProtoWire} (controllerID : string) (is_uuid : string → bool) (ue : UspEnv).

(** [usp.NewMsgID] *)
Definition new_msg_id (o : Outbox) : string * Outbox := (ue_msg ue (o_next o), mkOutbox (o_sent o) (S (o_next o))).

(** [EncodeRecord] and [Send]. *)
Definition send_record (conn : Conn) (payload : string) (o : Outbox) : SendResult * Outbox :=
  match EncodeRecord controllerID (c_endpoint conn) payload with
  | Some record =>
      if ue_send ue conn record then (Sent, mkOutbox (o_sent o ++ [(conn, record)]) (o_next o)) else (NotSent, o)
  | None => (NotEncoded, o)
  end.

Definition reconcileInFlight (dev : string) (conn : Conn) (r : Reconciler) : bool :=
  bool_decide (rc_inFlight r !! dev = Some conn).

Definition clearInFlightIfOwnedBy (dev : string) (conn : Conn) (r : Reconciler) : Reconciler :=
  if reconcileInFlight dev conn r then mkReconciler (rc_pending r) (delete dev (rc_inFlight r)) (rc_out r) else r.

Definition is_read_of (dev : string) (conn : Conn) (e : pendingSubscribe) : bool :=
  bool_decide (ps_kind e = pendingKindRead) && String.eqb (ps_deviceID e) dev && bool_decide (ps_conn e = conn).

Definition reconcile (subs : SubTable) (dev : string) (conn : Conn) (r : Reconciler) : Reconciler :=
  if reconcileInFlight dev conn r then r
  else
    let pending := match rc_inFlight r !! dev with
                   | Some existing => filter (λ kv, is_read_of dev existing kv.2 = false) (rc_pending r)
                   | None => rc_pending r
                   end in
    let desired := item_of <$> ByDevice subs dev in
    let '(msgID, o1) := new_msg_id (rc_out r) in
    let r1 := mkReconciler pending (<[dev := conn]> (rc_inFlight r)) o1 in
    match EncodeGet msgID [subscriptionRootPath] 1 with
    | Err _ => clearInFlightIfOwnedBy dev conn r1
    | Ok payload =>
        match send_record conn payload o1 with
        | (Sent, o2) =>
            mkReconciler (<[msgID := mkPendingSub conn dev pendingKindRead desired ""]> pending) (rc_inFlight r1) o2
        | (NotEncoded, _) => clearInFlightIfOwnedBy dev conn r1
        | (NotSent, o2) =>
            clearInFlightIfOwnedBy dev conn (mkReconciler (delete msgID pending) (rc_inFlight r1) o2)
        end
    end.

(** [send]: a request is remembered while it is outstanding. *)
Definition send_request (conn : Conn) (dev key : string) (kind : pendingKind) (msgID payload : string) (r : Reconciler)
    : Reconciler :=
  match send_record conn payload (rc_out r) with
  | (Sent, o) => mkReconciler (<[msgID := mkPendingSub conn dev kind [] key]> (rc_pending r)) (rc_inFlight r) o
  | (NotEncoded, _) => r
  | (NotSent, o) => mkReconciler (delete msgID (rc_pending r)) (rc_inFlight r) o
  end.

Definition draw (r : Reconciler) : string * Reconciler :=
  let '(msgID, o) := new_msg_id (rc_out r) in (msgID, mkReconciler (rc_pending r) (rc_inFlight r) o).

Definition sendDelete (conn : Conn) (dev key objPath : string) (r : Reconciler) : Reconciler :=
  let '(msgID, r1) := draw r in
  match EncodeDelete msgID true [objPath] with
  | Err _ => r1
  | Ok payload => send_request conn dev key pendingKindDelete msgID payload r1
  end.

Definition add_params (item : Item) : gmap string string :=
  let '(notifType, persistent, refs) := splitFingerprint (it_Fingerprint item) in
  list_to_map [("ID", it_Key item); ("Enable", "true"); ("NotifType", notifType);
               ("ReferenceList", joinReferenceList refs); ("Persistent", bool_text persistent)].

Definition sendAdd (conn : Conn) (dev : string) (item : Item) (r : Reconciler) : Reconciler :=
  let '(msgID, r1) := draw r in
  match EncodeAdd msgID true subscriptionRootPath (add_params item) with
  | Err _ => r1
  | Ok payload => send_request conn dev (it_Key item) pendingKindAdd msgID payload r1
  end.

Definition send_difference (conn : Conn) (dev : string) (paths : gmap string string) (toAdd toRemove : list Item)
    (r : Reconciler) : Reconciler :=
  foldl (λ r i, sendAdd conn dev i r)
    (foldl (λ r i, match paths !! it_Key i with
                   | Some path => sendDelete conn dev (it_Key i) path r
                   | None => r
                   end) r toRemove) toAdd.

Definition handleReadResponse (entry : pendingSubscribe) (m : Msg) (r : Reconciler) : Reconciler :=
  match GetResponse m with
  | Response_GetResp results =>
      if existsb (λ q, negb (rq_ErrCode q =? 0)) results then r
      else
        let '(actual, paths) := actualSubscriptionItems is_uuid results in
        let '(toAdd, toRemove) := Reconcile (ps_desired entry) actual in
        send_difference (ps_conn entry) (ps_deviceID entry) paths toAdd toRemove r
  | _ => r
  end.

(** [handleResponse] of the reconciler; the results of Add and Delete are logged. *)
Definition subs_handleResponse (m : Msg) (r : Reconciler) : bool * Reconciler :=
  match m_Header m with
  | None => (false, r)
  | Some h =>
      match rc_pending r !! h_MsgId h with
      | None => (false, r)
      | Some entry =>
          let inFlight := if bool_decide (ps_kind entry = pendingKindRead)
                             && reconcileInFlight (ps_deviceID entry) (ps_conn entry) r
                          then delete (ps_deviceID entry) (rc_inFlight r) else rc_inFlight r in
          let r1 := mkReconciler (delete (h_MsgId h) (rc_pending r)) inFlight (rc_out r) in
          match ErrorFromMsg m with
          | Some _ => (true, r1)
          | None => (true, match ps_kind entry with
                           | pendingKindRead => handleReadResponse entry m r1
                           | _ => r1
                           end)
          end
      end
  end.

(** [forget]: the loop over the pending entries deletes those of the connection;
    a read among them ends the pass of its device. *)
Definition subs_forget (c : Conn) (r : Reconciler) : Reconciler :=
  let reads dev := existsb (λ kv : string * pendingSubscribe, is_read_of dev c kv.2) (map_to_list (rc_pending r)) in
  mkReconciler (filter (λ kv, ps_conn kv.2 ≠ c) (rc_pending r))
    (filter (λ kv, negb (bool_decide (kv.2 = c) && reads kv.1) = true) (rc_inFlight r)) (rc_out r).
End Subscriptions.
