(* ===== verification/SubscriptionTheorems.v ===== *)
(** * Correctness of the subscription reconciler *)

From S2P Require Import Prelude GoStrings Encoding JobLaws Usp UspConn UspDispatch Subscriptions.

(** ** The difference converges *)

Lemma keys_unique l i j : NoDup (it_Key <$> l) → i ∈ l → j ∈ l → it_Key i = it_Key j → i = j.
Proof.
  induction l as [|x l IH]; [by intros _ ?%elem_of_nil|]. cbn. intros [Hx Hnd]%NoDup_cons Hi Hj Hk.
  apply elem_of_cons in Hi as [->|Hi], Hj as [->|Hj]; [done| | |by apply IH];
    destruct Hx; [rewrite Hk|rewrite <-Hk]; by apply list_elem_of_fmap_2.
Qed.

Lemma by_key_lookup l k i :
  NoDup (it_Key <$> l) → (by_key l !! k = Some i) ↔ i ∈ l ∧ it_Key i = k.
Proof.
  unfold by_key. assert (∀ m : gmap string Item, NoDup (it_Key <$> l) →
    (foldl (λ m i, <[it_Key i := i]> m) m l !! k = Some i) ↔
    (i ∈ l ∧ it_Key i = k) ∨ (k ∉ it_Key <$> l ∧ m !! k = Some i)) as H.
  { induction l as [|x l IH]; intros m Hnd; cbn.
    - split; [right; split; [apply not_elem_of_nil|done]|intros [[?%elem_of_nil _]|[_ ?]]; done].
    - apply NoDup_cons in Hnd as [Hx Hnd]. rewrite IH by done. rewrite lookup_insert. cbn.
      rewrite !not_elem_of_cons, elem_of_cons.
      case_decide as Hk; [subst k|].
      + split.
        * intros [[Hi He]|[Hn [= <-]]]; [|left; auto]. destruct Hx. rewrite <-He. by apply list_elem_of_fmap_2.
        * intros [[[->|Hi] He]|[[? _] _]]; [right; auto|left; auto|done].
      + split.
        * intros [[Hi He]|[Hn Hm]]; [left; auto|right; split_and!; auto].
        * intros [[[->|Hi] He]|[[Hne Hn] Hm]]; [done|left; auto|right; auto]. }
  intros Hnd. rewrite (H ∅ Hnd), lookup_empty. naive_solver.
Qed.

Lemma differs_spec l i : NoDup (it_Key <$> l) → differs (by_key l) i = false ↔ i ∈ l.
Proof.
  intros Hnd. unfold differs. destruct (by_key l !! it_Key i) as [o|] eqn:E.
  - apply by_key_lookup in E as [Ho Hk]; [|done]. split.
    + intros Hn. bool_to_prop. destruct i, o; cbn in *. by subst.
    + intros Hi. rewrite (keys_unique _ _ _ Hnd Ho Hi Hk). by rewrite String.eqb_refl.
  - split; [done|]. intros Hi. rewrite (proj2 (by_key_lookup l _ i Hnd)) in E; done.
Qed.

(** The subscriptions left once the difference has been applied. *)
Definition applied (desired actual : list Item) : list Item :=
  let '(toAdd, toRemove) := Reconcile desired actual in
  List.filter (λ i, negb (bool_decide (i ∈ toRemove))) actual ++ toAdd.

Lemma NoDup_kept {A} (p : A → bool) l : NoDup l → NoDup (List.filter p l).
Proof. rewrite !NoDup_ListNoDup. apply List.NoDup_filter. Qed.

Lemma list_nil_elem {A} (l : list A) : (∀ x, x ∉ l) → l = [].
Proof. destruct l as [|x l]; [done|]. intros H. destruct (H x). apply list_elem_of_here. Qed.

(** C32: with unique identifiers on both sides, applying the difference (deletes,
    then adds) leaves exactly the desired subscriptions, and a second pass over
    the result finds nothing to do; nothing is removed that is desired and
    nothing is added that is there. *)
Theorem reconcile_converges desired actual :
  NoDup (it_Key <$> desired) → NoDup (it_Key <$> actual) →
  (applied desired actual ≡ₚ desired) ∧
  Reconcile desired (applied desired actual) = ([], []) ∧
  (∀ i, i ∈ (Reconcile desired actual).1 ↔ i ∈ desired ∧ i ∉ actual) ∧
  (∀ i, i ∈ (Reconcile desired actual).2 ↔ i ∈ actual ∧ i ∉ desired).
Proof.
  intros Hd Ha.
  assert (∀ i, i ∈ (Reconcile desired actual).1 ↔ i ∈ desired ∧ i ∉ actual) as Hadd.
  { intros i. cbn. rewrite filter_elem. rewrite <-(differs_spec actual i Ha). destruct (differs _ i); naive_solver. }
  assert (∀ i, i ∈ (Reconcile desired actual).2 ↔ i ∈ actual ∧ i ∉ desired) as Hrem.
  { intros i. cbn. rewrite filter_elem. rewrite <-(differs_spec desired i Hd). destruct (differs _ i); naive_solver. }
  assert (applied desired actual ≡ₚ desired) as Hp.
  { unfold applied. destruct (Reconcile desired actual) as [toAdd toRemove] eqn:E. cbn in Hadd, Hrem.
    apply NoDup_Permutation.
    - apply NoDup_app. split_and!.
      + apply NoDup_kept. by eapply NoDup_fmap_1.
      + intros i [Hi _]%filter_elem [_ Hn]%Hadd. done.
      + unfold Reconcile in E. injection E as <- _. apply NoDup_kept. by eapply NoDup_fmap_1.
    - by eapply NoDup_fmap_1.
    - intros i. rewrite elem_of_app, filter_elem, Hadd, negb_true_iff, bool_decide_eq_false, Hrem.
      destruct (decide (i ∈ actual)), (decide (i ∈ desired)); naive_solver. }
  split_and!; [done| |done|done].
  assert (NoDup (it_Key <$> applied desired actual)) as Hn by (by rewrite Hp).
  unfold Reconcile. f_equal.
  - apply list_nil_elem. intros i [Hi Hx]%filter_elem. rewrite <-Hp in Hi.
    apply (differs_spec _ _ Hn) in Hi. congruence.
  - apply list_nil_elem. intros i [Hi Hx]%filter_elem. rewrite Hp in Hi.
    apply (differs_spec _ _ Hd) in Hi. congruence.
Qed.

Lemma reconcile_converges_witness :
  applied [mkItem "a" "1"; mkItem "b" "2"] [mkItem "b" "9"; mkItem "c" "3"] ≡ₚ [mkItem "a" "1"; mkItem "b" "2"].
Proof.
  apply (reconcile_converges [mkItem "a" "1"; mkItem "b" "2"] [mkItem "b" "9"; mkItem "c" "3"]);
    apply (bool_decide_eq_true_1 _); reflexivity.
Defined.

(** ** What is sent is what is stored *)

Lemma Split_Join refs sep :
  Forall (λ r, byte_in sep r = false) refs → refs ≠ [] → Split (Join refs (String sep EmptyString)) sep = refs.
Proof.
  induction 1 as [|r refs Hr Hrs IH]; [done|]. intros _. destruct refs as [|r' refs].
  - by apply Split_nosep.
  - change (Join (r :: r' :: refs) (String sep EmptyString))
      with (r ++ String sep (Join (r' :: refs) (String sep EmptyString)))%string.
    rewrite Split_app by done. f_equal. by apply IH.
Qed.

(** The names and references a data model has: no separator of the fingerprint in
    the type, no comma in a reference, and no list of one empty reference. *)
Definition plain_subscription (s : Subscription) : Prop :=
  byte_in "|" (sub_NotifType s) = false ∧ Forall (λ r, byte_in "," r = false) (sub_ReferenceList s) ∧
  sub_ReferenceList s ≠ [EmptyString].

Lemma split_join_references refs :
  Forall (λ r, byte_in "," r = false) refs → refs ≠ [EmptyString] →
  splitReferenceList (joinReferenceList refs) = refs.
Proof.
  intros Hr Hne. unfold splitReferenceList, joinReferenceList. destruct (String.eqb (Join refs ",") "") eqn:E.
  - apply String.eqb_eq in E. destruct refs as [|r [|r' refs]]; [done|cbn in E; by subst|].
    cbn in E. by destruct r.
  - bool_to_prop. apply Split_Join; [done|]. by intros ->.
Qed.

Lemma cut_or_app a b sep : byte_in sep a = false → cut_or (a ++ String sep b) sep = (a, b).
Proof. intros H. unfold cut_or. by rewrite Cut_app. Qed.

Lemma split_fingerprint s :
  plain_subscription s →
  splitFingerprint (it_Fingerprint (item_of s)) = (sub_NotifType s, sub_Persistent s, sub_ReferenceList s).
Proof.
  intros (Hn & Hr & Hne). unfold splitFingerprint, item_of, subscriptionFingerprint. cbn [it_Fingerprint].
  change ("|" ++ ?x)%string with (String "|" x).
  rewrite (cut_or_app (sub_NotifType s)) by done.
  change ("|" ++ joinReferenceList (sub_ReferenceList s))%string with (String "|" (joinReferenceList (sub_ReferenceList s))).
  rewrite cut_or_app by (by destruct (sub_Persistent s)). rewrite split_join_references by done.
  by destruct (sub_Persistent s).
Qed.

(** The Add sent for a desired subscription carries the members of its row,
    and an agent that reports an instance holding those members is found to be in
    step with the row: the instance is neither removed nor added again. *)
Theorem added_subscription_is_recognised s r desired :
  plain_subscription s → add_params (item_of s) ⊆ rp_ResultParams r →
  NoDup (it_Key <$> desired) → item_of s ∈ desired →
  add_params (item_of s) =
    list_to_map [("ID", sub_ID s); ("Enable", "true"); ("NotifType", sub_NotifType s);
                 ("ReferenceList", joinReferenceList (sub_ReferenceList s)); ("Persistent", bool_text (sub_Persistent s))] ∧
  actual_item r = item_of s ∧
  ∀ others, item_of s ∉ (Reconcile desired (others ++ [actual_item r])).2 ∧
            item_of s ∉ (Reconcile desired (others ++ [actual_item r])).1.
Proof.
  intros Hs Hsub Hnd Hin.
  assert (add_params (item_of s) =
    list_to_map [("ID", sub_ID s); ("Enable", "true"); ("NotifType", sub_NotifType s);
                 ("ReferenceList", joinReferenceList (sub_ReferenceList s)); ("Persistent", bool_text (sub_Persistent s))]) as Hp.
  { unfold add_params. by rewrite (split_fingerprint s Hs). }
  assert (∀ k v, add_params (item_of s) !! k = Some v → param r k = v) as Hv.
  { intros k v Hk. unfold param. by rewrite (lookup_weaken _ _ _ _ Hk Hsub). }
  rewrite Hp in Hv.
  assert (actual_item r = item_of s) as Ha.
  { unfold actual_item, item_of. rewrite (Hv "ID" (sub_ID s)), (Hv "NotifType" (sub_NotifType s)),
      (Hv "Persistent" (bool_text (sub_Persistent s))), (Hv "ReferenceList" (joinReferenceList (sub_ReferenceList s))) by done.
    destruct Hs as (_ & Hr & Hne). rewrite split_join_references by done. by destruct (sub_Persistent s). }
  split_and!; [done|done|]. intros others. cbn. rewrite !filter_elem, Ha.
  rewrite (proj2 (differs_spec desired (item_of s) Hnd) Hin). split; [naive_solver|].
  intros [_ Hd]. unfold differs, by_key in Hd. rewrite foldl_app in Hd. cbn [foldl] in Hd.
  by rewrite lookup_insert_eq, String.eqb_refl in Hd.
Qed.

Definition w_subscription : Subscription :=
  mkSubscription "6f1b0a52-0000-4000-8000-000000000001" "d-1" "ValueChange" ["Device.WiFi.SSID.1."; "Device.IP."] true "op" 5.

Lemma added_subscription_is_recognised_witness :
  actual_item (mkResolved "Device.LocalAgent.Subscription.4." (add_params (item_of w_subscription))) = item_of w_subscription.
Proof.
  apply (added_subscription_is_recognised w_subscription
    (mkResolved "Device.LocalAgent.Subscription.4." (add_params (item_of w_subscription))) [item_of w_subscription]).
  - split_and!; [done|by repeat constructor|done].
  - reflexivity.
  - apply NoDup_singleton.
  - apply list_elem_of_here.
Defined.

(** ** What a pass may delete *)

Section Passes.
Context `{W : ProtoWire} (controllerID : string) (is_uuid : string → bool) (ue : UspEnv).

(** The requests a pass over [instances] may send for [desired]. *)
Definition pass_request (conn : Conn) (instances : list ResolvedPathResult) (desired : list Item) (s : Conn * string) : Prop :=
  s.1 = conn ∧ ∃ id payload, EncodeRecord controllerID (c_endpoint conn) payload = Some s.2 ∧
    ((∃ inst, inst ∈ instances ∧ EncodeDelete id true [rp_ResolvedPath inst] = Ok payload) ∨
     (∃ item, item ∈ desired ∧ EncodeAdd id true subscriptionRootPath (add_params item) = Ok payload)).

Abbreviation sends r r' P := (∃ l, o_sent (rc_out r') = o_sent (rc_out r) ++ l ∧ Forall P l).

Lemma sends_refl r P : sends r r P.
Proof. exists []. by rewrite app_nil_r. Qed.

Lemma sends_trans a b c P : sends a b P → sends b c P → sends a c P.
Proof. intros (l1 & E1 & F1) (l2 & E2 & F2). exists (l1 ++ l2). rewrite E2, E1, app_assoc. split; [done|by apply Forall_app]. Qed.

Lemma send_request_sends conn dev key kind msgID payload r (P : Conn * string → Prop) :
  (∀ record, EncodeRecord controllerID (c_endpoint conn) payload = Some record → P (conn, record)) →
  sends r (send_request controllerID ue conn dev key kind msgID payload r) P.
Proof.
  intros HP. unfold send_request, send_record. destruct (EncodeRecord _ _ _) as [record|] eqn:E; [|apply sends_refl].
  destruct (ue_send ue conn record); cbn; [|apply sends_refl].
  exists [(conn, record)]. split; [done|]. apply Forall_singleton. by apply HP.
Qed.

Lemma foldl_sends {A} (f : Reconciler → A → Reconciler) l r P :
  (∀ r x, x ∈ l → sends r (f r x) P) → sends r (foldl f r l) P.
Proof.
  revert r. induction l as [|x l IH]; intros r H; [apply sends_refl|]. cbn.
  eapply sends_trans; [apply H, list_elem_of_here|]. apply IH. intros r' y Hy. by apply H, list_elem_of_further.
Qed.

Lemma paths_from instances (m : gmap string string) k path :
  foldl (λ (m : gmap string string) r, <[param r "ID" := rp_ResolvedPath r]> m) m instances !! k = Some path →
  (∃ inst, inst ∈ instances ∧ rp_ResolvedPath inst = path ∧ param inst "ID" = k) ∨ m !! k = Some path.
Proof.
  revert m. induction instances as [|r l IH]; intros m; cbn; [by right|].
  intros [(inst & Hi & Hp & Hk)|H]%IH.
  - left. exists inst. split; [by apply list_elem_of_further|done].
  - rewrite lookup_insert in H. case_decide; [|by right]. left. exists r. simplify_eq. split; [apply list_elem_of_here|done].
Qed.

(** What a pass sends goes to the connection it read, and is either the
    creation of a desired subscription or the deletion of an instance whose
    identifier is a UUID: a subscription another controller or the operator of
    the CPE made under another kind of name is never deleted.  An answer that
    reports an error for any path sends nothing. *)
Theorem pass_deletes_only_its_own_subscriptions entry m r :
  let r' := handleReadResponse controllerID is_uuid ue entry m r in
  match GetResponse m with
  | Response_GetResp results =>
      (∃ l, o_sent (rc_out r') = o_sent (rc_out r) ++ l ∧
            Forall (pass_request (ps_conn entry) (instances_of is_uuid results) (ps_desired entry)) l) ∧
      (∀ inst, inst ∈ instances_of is_uuid results → is_uuid (param inst "ID") = true) ∧
      ((∃ q, q ∈ results ∧ rq_ErrCode q ≠ 0) → r' = r)
  | _ => r' = r
  end.
Proof.
  cbv zeta. unfold handleReadResponse. destruct (GetResponse m) as [|results| | | | | | | | | |]; try done.
  split_and!.
  - destruct (existsb _ _); [apply sends_refl|]. unfold actualSubscriptionItems, Reconcile, send_difference.
    eapply sends_trans; eapply foldl_sends.
    + intros r0 i [_ Hi]%filter_elem. destruct (_ !! it_Key i) as [path|] eqn:Ep; [|apply sends_refl].
      apply paths_from in Ep as [(inst & Hin & Hp & _)|Ep]; [|by rewrite lookup_empty in Ep].
      unfold sendDelete. cbn. destruct (EncodeDelete _ _ _) as [payload|] eqn:Ee; [|exists []; by rewrite app_nil_r].
      eapply sends_trans; [|apply send_request_sends].
      * exists []. by rewrite app_nil_r.
      * intros record Hrec. split; [done|]. eexists _, payload. split; [exact Hrec|]. left. exists inst.
        rewrite Hp. by split.
    + intros r0 i [Hi _]%filter_elem. unfold sendAdd. cbn.
      destruct (EncodeAdd _ _ _ _) as [payload|] eqn:Ee; [|exists []; by rewrite app_nil_r].
      eapply sends_trans; [|apply send_request_sends].
      * exists []. by rewrite app_nil_r.
      * intros record Hrec. split; [done|]. eexists _, payload. split; [exact Hrec|]. right. by exists i.
  - intros inst [_ H]%filter_elem. done.
  - intros (q & Hq & He). rewrite (proj2 (existsb_exists _ _)); [done|]. exists q. split; [by apply list_elem_of_In|].
    by rewrite (proj2 (Z.eqb_neq _ _) He).
Qed.
End Passes.

(** ** Passes in flight *)

Lemma send_record_next `{W : ProtoWire} controllerID ue conn payload o :
  o_next (send_record controllerID ue conn payload o).2 = o_next o.
Proof. unfold send_record. repeat case_match; done. Qed.

Section InFlight.
Context (msg : nat → string) `{!Inj (=) (=) msg}.

(** Requests are remembered under identifiers already drawn, and a pass in flight
    has its read outstanding. *)
Record reconciler_ok (r : Reconciler) : Prop := mk_reconciler_ok {
  rk_ids : ∀ id e, rc_pending r !! id = Some e → ∃ n, (n < o_next (rc_out r))%nat ∧ id = msg n;
  rk_inFlight : ∀ dev c, rc_inFlight r !! dev = Some c →
    ∃ id e, rc_pending r !! id = Some e ∧ is_read_of dev c e = true
}.

Lemma is_read_of_spec dev c e :
  is_read_of dev c e = true ↔ ps_kind e = pendingKindRead ∧ ps_deviceID e = dev ∧ ps_conn e = c.
Proof.
  unfold is_read_of. rewrite !andb_true_iff, !bool_decide_eq_true, String.eqb_eq. tauto.
Qed.

Lemma fresh_id r e : reconciler_ok r → rc_pending r !! msg (o_next (rc_out r)) = Some e → False.
Proof. intros [Hi _] (n & Hn & He)%Hi. apply (inj msg) in He. lia. Qed.

(** More identifiers were drawn. *)
Lemma reconciler_ok_next r o :
  (o_next (rc_out r) ≤ o_next o)%nat → reconciler_ok r → reconciler_ok (mkReconciler (rc_pending r) (rc_inFlight r) o).
Proof. intros Hle [Hi Hf]. constructor; [|done]. intros id e (n & Hn & ->)%Hi. exists n. cbn. split; [lia|done]. Qed.

Lemma subs_forget_ok c r :
  reconciler_ok r → reconciler_ok (subs_forget c r) ∧ ∀ dev, rc_inFlight (subs_forget c r) !! dev ≠ Some c.
Proof.
  intros Hr.
  assert (∀ dev c', rc_inFlight (subs_forget c r) !! dev = Some c' →
          rc_inFlight r !! dev = Some c' ∧ c' ≠ c) as Hin.
  { intros dev c' [Hf Hn]%map_lookup_filter_Some. split; [done|]. intros ->. cbn in Hn.
    destruct (rk_inFlight _ Hr _ _ Hf) as (id & e & He & Hread). rewrite bool_decide_true in Hn by done.
    assert (existsb (λ kv : string * pendingSubscribe, is_read_of dev c kv.2) (map_to_list (rc_pending r)) = true) as Hx.
    { apply existsb_exists. exists (id, e). split; [by apply list_elem_of_In, elem_of_map_to_list|done]. }
    rewrite Hx in Hn. done. }
  split; [|intros dev Hf; apply Hin in Hf; tauto]. constructor.
  - intros id e [He _]%map_lookup_filter_Some. by eapply (rk_ids _ Hr).
  - intros dev c' [Hf Hne]%Hin. destruct (rk_inFlight _ Hr _ _ Hf) as (id & e & He & Hread). exists id, e. split; [|done].
    apply map_lookup_filter_Some. split; [done|]. cbn. apply is_read_of_spec in Hread as (_ & _ & ->). done.
Qed.

(** The pending requests kept when a pass starts over. *)
Definition kept_pending (dev : string) (r : Reconciler) : gmap string pendingSubscribe :=
  match rc_inFlight r !! dev with
  | Some existing => filter (λ kv, is_read_of dev existing kv.2 = false) (rc_pending r)
  | None => rc_pending r
  end.

Lemma kept_pending_some dev r id e : kept_pending dev r !! id = Some e → rc_pending r !! id = Some e.
Proof. unfold kept_pending. case_match; [|done]. intros He. by apply map_lookup_filter_Some in He as [He _]. Qed.

Lemma kept_pending_other dev dev' c r id e :
  dev' ≠ dev → rc_pending r !! id = Some e → is_read_of dev' c e = true → kept_pending dev r !! id = Some e.
Proof.
  intros Hne He (_ & Hd & _)%is_read_of_spec. unfold kept_pending. case_match; [|done].
  apply map_lookup_filter_Some. split; [done|]. cbn. apply not_true_is_false. rewrite is_read_of_spec. naive_solver.
Qed.

Section Sends.
Context `{W : ProtoWire} (controllerID : string) (ue : UspEnv).
Hypothesis Hmsg : ue_msg ue = msg.


(** A request other than a read, under a fresh identifier. *)
Lemma send_request_ok conn dev key kind payload r :
  reconciler_ok r →
  reconciler_ok (send_request controllerID ue conn dev key kind (msg (o_next (rc_out r))) payload
                   (mkReconciler (rc_pending r) (rc_inFlight r) (mkOutbox (o_sent (rc_out r)) (S (o_next (rc_out r)))))).
Proof.
  intros Hr. pose proof (send_record_next controllerID ue conn payload (mkOutbox (o_sent (rc_out r)) (S (o_next (rc_out r))))) as Hn.
  unfold send_request. cbn [rc_out rc_pending rc_inFlight].
  destruct (send_record _ _ _ _ _) as [[] o]; cbn in Hn.
  - constructor; cbn; rewrite ?Hn.
    + intros id e. rewrite lookup_insert. case_decide as Hd; [subst; intros _; exists (o_next (rc_out r)); split; [lia|done]|].
      intros (n & Hlt & ->)%(rk_ids _ Hr). exists n. split; [lia|done].
    + intros d c (id & e & He & Hread)%(rk_inFlight _ Hr). exists id, e. split; [|done].
      rewrite lookup_insert_ne; [done|]. intros <-. by eapply fresh_id.
  - apply reconciler_ok_next; [cbn; lia|done].
  - rewrite delete_id.
    + apply reconciler_ok_next; [cbn; lia|done].
    + destruct (rc_pending r !! _) eqn:E; [|done]. by exfalso; eapply fresh_id.
Qed.

Lemma draw_ok r : reconciler_ok r → reconciler_ok (draw ue r).2.
Proof. intros Hr. cbn. apply reconciler_ok_next; [cbn; lia|done]. Qed.

Lemma sendDelete_ok conn dev key path r : reconciler_ok r → reconciler_ok (sendDelete controllerID ue conn dev key path r).
Proof.
  intros Hr. unfold sendDelete. cbn. destruct (EncodeDelete _ _ _); [|by apply (draw_ok r)].
  rewrite Hmsg. by apply send_request_ok.
Qed.

Lemma sendAdd_ok conn dev item r : reconciler_ok r → reconciler_ok (sendAdd controllerID ue conn dev item r).
Proof.
  intros Hr. unfold sendAdd. cbn. destruct (EncodeAdd _ _ _ _); [|by apply (draw_ok r)].
  rewrite Hmsg. by apply send_request_ok.
Qed.

Lemma foldl_ok {A} (f : Reconciler → A → Reconciler) l r :
  (∀ r x, reconciler_ok r → reconciler_ok (f r x)) → reconciler_ok r → reconciler_ok (foldl f r l).
Proof. intros Hf. revert r. induction l as [|x l IH]; intros r Hr; [done|]. cbn. by apply IH, Hf. Qed.

Lemma reconcile_ok subs dev conn r :
  reconciler_ok r → reconciler_ok (reconcile controllerID ue subs dev conn r).
Proof.
  intros Hr. unfold reconcile. destruct (reconcileInFlight dev conn r); [done|]. fold (kept_pending dev r).
  set (desired := _ <$> _). cbn [new_msg_id]. rewrite Hmsg.
  assert (∀ pending o, (S (o_next (rc_out r)) ≤ o_next o)%nat →
            (∀ id, pending !! id = kept_pending dev r !! id) →
            reconciler_ok (clearInFlightIfOwnedBy dev conn (mkReconciler pending (<[dev := conn]> (rc_inFlight r)) o))) as Hclear.
  { intros pending o Ho Hp. unfold clearInFlightIfOwnedBy, reconcileInFlight. cbn.
    rewrite lookup_insert_eq, bool_decide_true by done. rewrite delete_insert_eq. constructor; cbn.
    - intros id e. rewrite Hp. intros (n & Hn & ->)%kept_pending_some%(rk_ids _ Hr). exists n. split; [lia|done].
    - intros d c [Hne (id & e & He & Hread)%(rk_inFlight _ Hr)]%lookup_delete_Some. exists id, e. split; [|done].
      rewrite Hp. by eapply kept_pending_other. }
  destruct (EncodeGet _ _ _) as [payload|]; [|by apply Hclear].
  pose proof (send_record_next controllerID ue conn payload (mkOutbox (o_sent (rc_out r)) (S (o_next (rc_out r))))) as Hn.
  destruct (send_record _ _ _ _ _) as [[] o]; cbn in Hn.
  - constructor; cbn; rewrite ?Hn.
    + intros id e. rewrite lookup_insert. case_decide as Hd; [subst; intros _; exists (o_next (rc_out r)); split; [lia|done]|].
      intros (n & Hlt & ->)%kept_pending_some%(rk_ids _ Hr). exists n. split; [lia|done].
    + intros d c. rewrite lookup_insert. case_decide as Hd.
      * intros [= <-]. subst d. eexists _, _. split; [apply lookup_insert_eq|]. by apply is_read_of_spec.
      * intros (id & e & He & Hread)%(rk_inFlight _ Hr). exists id, e. split; [|done].
        rewrite lookup_insert_ne; [by eapply kept_pending_other|]. intros <-. by eapply fresh_id.
  - by apply Hclear.
  - apply Hclear; [cbn; lia|]. intros id. rewrite lookup_delete. case_decide as Hd; [|done]. subst id.
    destruct (kept_pending dev r !! _) eqn:E; [|done]. apply kept_pending_some in E. by exfalso; eapply fresh_id.
Qed.

Context (is_uuid : string → bool).

Lemma handleReadResponse_ok entry m r :
  reconciler_ok r → reconciler_ok (handleReadResponse controllerID is_uuid ue entry m r).
Proof.
  intros Hr. unfold handleReadResponse. destruct (GetResponse m); try done. destruct (existsb _ _); [done|].
  unfold actualSubscriptionItems, Reconcile, send_difference. apply foldl_ok; [intros; by apply sendAdd_ok|].
  apply foldl_ok; [|done]. intros r0 x Hr0. case_match; [by apply sendDelete_ok|done].
Qed.

Lemma subs_handleResponse_ok m r :
  reconciler_ok r → reconciler_ok (subs_handleResponse controllerID is_uuid ue m r).2.
Proof.
  intros Hr. unfold subs_handleResponse. destruct (m_Header m) as [h|]; [|done].
  destruct (rc_pending r !! h_MsgId h) as [entry|] eqn:Ee; [|done]. set (r1 := mkReconciler _ _ _).
  assert (reconciler_ok r1) as H1.
  { constructor; cbn.
    - intros id e [_ He]%lookup_delete_Some. by eapply (rk_ids _ Hr).
    - intros dev c Hin.
      assert (rc_inFlight r !! dev = Some c ∧ is_read_of dev c entry = false) as [Hf Hnr].
      { destruct (_ && _) eqn:Ek.
        - apply lookup_delete_Some in Hin as [Hne Hin]. split; [done|]. apply not_true_is_false.
          rewrite is_read_of_spec. tauto.
        - split; [done|]. apply not_true_is_false. rewrite is_read_of_spec. intros (Hk & <- & <-).
          rewrite bool_decide_true in Ek by done. unfold reconcileInFlight in Ek. rewrite bool_decide_true in Ek by done. done. }
      destruct (rk_inFlight _ Hr _ _ Hf) as (id & e & He & Hread). exists id, e. split; [|done].
      apply lookup_delete_Some. split; [|done]. intros <-. congruence. }
  destruct (ErrorFromMsg m); [done|]. destruct (ps_kind entry); [by apply handleReadResponse_ok|done|done].
Qed.

End Sends.
End InFlight.

(** ** Identifiers drawn *)

Section Next.
Context `{W : ProtoWire} (controllerID : string) (is_uuid : string → bool) (ue : UspEnv).

Abbreviation drawn r r' := (o_next (rc_out r) ≤ o_next (rc_out r'))%nat.

Lemma send_request_next conn dev key kind id payload r :
  drawn r (send_request controllerID ue conn dev key kind id payload r).
Proof.
  unfold send_request. pose proof (send_record_next controllerID ue conn payload (rc_out r)) as Hn.
  destruct (send_record _ _ _ _ _) as [[] o]; cbn in *; lia.
Qed.

Lemma sendDelete_next conn dev key path r : drawn r (sendDelete controllerID ue conn dev key path r).
Proof.
  unfold sendDelete. cbn. destruct (EncodeDelete _ _ _) as [payload|]; [|cbn; lia].
  etrans; [|apply send_request_next]. cbn. lia.
Qed.

Lemma sendAdd_next conn dev item r : drawn r (sendAdd controllerID ue conn dev item r).
Proof.
  unfold sendAdd. cbn. destruct (EncodeAdd _ _ _ _) as [payload|]; [|cbn; lia].
  etrans; [|apply send_request_next]. cbn. lia.
Qed.

Lemma foldl_next {A} (f : Reconciler → A → Reconciler) l r : (∀ r x, drawn r (f r x)) → drawn r (foldl f r l).
Proof. intros Hf. revert r. induction l as [|x l IH]; intros r; [done|]. cbn. etrans; [apply Hf|apply IH]. Qed.

Lemma subs_handleResponse_next m r : drawn r (subs_handleResponse controllerID is_uuid ue m r).2.
Proof.
  unfold subs_handleResponse. destruct (m_Header m) as [h|]; [|done].
  destruct (rc_pending r !! h_MsgId h) as [entry|]; [|done]. set (r1 := mkReconciler _ _ _). change (rc_out r) with (rc_out r1).
  destruct (ErrorFromMsg m); [done|]. destruct (ps_kind entry); [|done|done]. cbn [snd].
  unfold handleReadResponse. destruct (GetResponse m); try done. destruct (existsb _ _); [done|].
  unfold actualSubscriptionItems, Reconcile, send_difference.
  etrans; [|apply foldl_next; intros; apply sendAdd_next]. apply foldl_next. intros r0 x. case_match; [apply sendDelete_next|done].
Qed.

Lemma reconcile_next subs dev conn r : drawn r (reconcile controllerID ue subs dev conn r).
Proof.
  unfold reconcile. destruct (reconcileInFlight _ _ _); [done|]. cbn [new_msg_id].
  assert (∀ dev conn x, o_next (rc_out (clearInFlightIfOwnedBy dev conn x)) = o_next (rc_out x)) as Hc.
  { intros. unfold clearInFlightIfOwnedBy. by destruct (reconcileInFlight _ _ _). }
  destruct (EncodeGet _ _ _) as [payload|]; [|rewrite Hc; cbn; lia].
  pose proof (send_record_next controllerID ue conn payload (mkOutbox (o_sent (rc_out r)) (S (o_next (rc_out r))))) as Hn.
  destruct (send_record _ _ _ _ _) as [[] o]; rewrite ?Hc; cbn in *; lia.
Qed.
End Next.

(** ** Whose requests are outstanding *)

Section Owners.
Context `{W : ProtoWire} (controllerID : string) (is_uuid : string → bool) (ue : UspEnv).

(** What is newly outstanding is so on the connection. *)
Definition outstanding_on (c : Conn) (r r' : Reconciler) : Prop :=
  ∀ id e, rc_pending r' !! id = Some e → ps_conn e = c ∨ rc_pending r !! id = Some e.

#[global] Instance outstanding_on_preorder c : PreOrder (outstanding_on c).
Proof. split; [by right|]. intros x y z H1 H2 id e [H|H]%H2; [by left|]. by apply H1. Qed.

Lemma send_request_owner conn dev key kind id payload r :
  outstanding_on conn r (send_request controllerID ue conn dev key kind id payload r).
Proof.
  unfold send_request. destruct (send_record _ _ _ _ _) as [[] o]; intros id' e; cbn; [|by right|].
  - rewrite lookup_insert. case_decide; [intros [= <-]; by left|by right].
  - intros [_ H]%lookup_delete_Some. by right.
Qed.

Lemma foldl_owner {A} c (f : Reconciler → A → Reconciler) l r :
  (∀ r x, outstanding_on c r (f r x)) → outstanding_on c r (foldl f r l).
Proof. intros Hf. revert r. induction l as [|x l IH]; intros r; [by right|]. cbn. etrans; [apply Hf|apply IH]. Qed.

Lemma subs_handleResponse_owner m r :
  ∃ c, outstanding_on c r (subs_handleResponse controllerID is_uuid ue m r).2 ∧
       ((subs_handleResponse controllerID is_uuid ue m r).2 = r ∨ ∃ id e, rc_pending r !! id = Some e ∧ ps_conn e = c).
Proof.
  unfold subs_handleResponse. destruct (m_Header m) as [h|]; [|exists (mkConn 0 "" KindMQTT); split; [by right|by left]].
  destruct (rc_pending r !! h_MsgId h) as [entry|] eqn:Ee; [|exists (mkConn 0 "" KindMQTT); split; [by right|by left]].
  exists (ps_conn entry). split; [|eauto]. set (r1 := mkReconciler _ _ _).
  assert (outstanding_on (ps_conn entry) r r1) as H1 by (intros id e He; cbn in He; apply lookup_delete_Some in He as [_ He]; by right).
  destruct (ErrorFromMsg m); [done|]. destruct (ps_kind entry); [|done|done]. etrans; [exact H1|]. cbn [snd].
  unfold handleReadResponse. destruct (GetResponse m); try by right. destruct (existsb _ _); [by right|].
  unfold actualSubscriptionItems, Reconcile, send_difference.
  etrans; [|apply foldl_owner; intros r0 x; unfold sendAdd; cbn; destruct (EncodeAdd _ _ _ _); [|by right];
              etrans; [|apply send_request_owner]; by right].
  apply foldl_owner. intros r0 x. case_match; [|by right]. unfold sendDelete. cbn. destruct (EncodeDelete _ _ _); [|by right].
  etrans; [|apply send_request_owner]. by right.
Qed.

Lemma reconcile_owner subs dev conn r : outstanding_on conn r (reconcile controllerID ue subs dev conn r).
Proof.
  unfold reconcile. destruct (reconcileInFlight _ _ _); [by right|]. fold (kept_pending dev r). cbn [new_msg_id].
  assert (∀ id e, kept_pending dev r !! id = Some e → rc_pending r !! id = Some e) as Hk by (intros *; apply kept_pending_some).
  assert (∀ x, rc_pending (clearInFlightIfOwnedBy dev conn x) = rc_pending x) as Hc.
  { intros. unfold clearInFlightIfOwnedBy. by destruct (reconcileInFlight _ _ _). }
  intros id e. destruct (EncodeGet _ _ _); [|rewrite Hc; cbn; eauto].
  destruct (send_record _ _ _ _ _) as [[] o]; rewrite ?Hc; cbn; [|eauto|].
  - rewrite lookup_insert. case_decide; [intros [= <-]; by left|eauto].
  - intros [_ H]%lookup_delete_Some. eauto.
Qed.
End Owners.
