(* ===== verification/UspMtp.v ===== *)
(** * USP transports ([internal/usp/mtp], [internal/usp/principal],
    [internal/uspprincipal])

    Who may connect, under which endpoint, and which topics it may use: the table
    of transport principals, the checks of [security.go], the MQTT topics, and
    the decisions of the two transports up to the calls they make on the handler
    ([Call]).

    [sha256_hex] is the fingerprint of a certificate's DER bytes.  The embedded
    broker is a library: a connected client is its pointer ([cl_ptr]) and the
    identifier it chose ([cl_ID]); [clients] is [server.Clients], the current
    client of each identifier. *)

From S2P Require Import Prelude GoStrings Encoding NetGuard Devices Usp UspConn.

(** ** Transport principals *)

Record Principal : Type := mkPrincipal {
  pp_DeviceID : string;
  pp_EndpointID : string;
  pp_ClientCertSHA256 : string;
  pp_MQTTTopic : string;
  pp_Enabled : bool;
  pp_CreatedAt : GoTime;
  pp_UpdatedAt : GoTime
}.

Abbreviation Principals := (gmap string Principal).

Definition ErrInvalidBinding : string := "invalid usp transport principal binding".
Definition ErrPrincipalNotFound : string := "usp transport principal not found".

Section Principals.
Context (sha256_hex : string → string).

(** A certificate is its DER bytes, or nil. *)
Definition CertificateSHA256 (cert : option string) : string :=
  match cert with None => "" | Some der => sha256_hex der end.

(** The UNIQUE columns, against the rows of the other devices. *)
Definition binding_taken (p : Principal) (tab : Principals) : bool :=
  existsb (λ kv : string * Principal, negb (String.eqb kv.1 (pp_DeviceID p))
    && (String.eqb (pp_EndpointID kv.2) (pp_EndpointID p)
        || String.eqb (pp_ClientCertSHA256 kv.2) (pp_ClientCertSHA256 p)
        || String.eqb (pp_MQTTTopic kv.2) (pp_MQTTTopic p))) (map_to_list tab).

Definition BindCertificate (now : GoTime) (devices : Devices) (deviceID endpointID : string) (cert : option string)
    (mqttTopic : string) (tab : Principals) : result Principal * Principals :=
  let dev := TrimSpace deviceID in
  let endpoint := TrimSpace endpointID in
  let topic := TrimSpace mqttTopic in
  let fingerprint := CertificateSHA256 cert in
  if String.eqb dev "" || String.eqb endpoint "" || String.eqb fingerprint "" || String.eqb topic "" || ContainsAny topic "#+"
  then (Err ErrInvalidBinding, tab)
  else if negb (is_some (devices !! dev)) then (Err "violates foreign key constraint", tab)
  else
    let created := match tab !! dev with Some old => pp_CreatedAt old | None => now end in
    let p := mkPrincipal dev endpoint fingerprint topic true created now in
    if binding_taken p tab then (Err "duplicate key value violates unique constraint", tab)
    else (Ok p, <[dev := p]> tab).

Definition find_principal (p : Principal → bool) (tab : Principals) : result Principal :=
  match List.find p (rows tab) with Some x => Ok x | None => Err ErrPrincipalNotFound end.

Definition AuthenticateCertificate (cert : option string) (tab : Principals) : result Principal :=
  let fingerprint := CertificateSHA256 cert in
  if String.eqb fingerprint "" then Err ErrPrincipalNotFound
  else find_principal (λ p, String.eqb (pp_ClientCertSHA256 p) fingerprint && pp_Enabled p) tab.

Definition ByEndpointID (endpointID : string) (tab : Principals) : result Principal :=
  find_principal (λ p, String.eqb (pp_EndpointID p) endpointID && pp_Enabled p) tab.

Definition disabled (now : GoTime) (p : Principal) : Principal :=
  mkPrincipal (pp_DeviceID p) (pp_EndpointID p) (pp_ClientCertSHA256 p) (pp_MQTTTopic p) false (pp_CreatedAt p) now.

Definition Disable (now : GoTime) (deviceID : string) (tab : Principals) : result unit * Principals :=
  match tab !! deviceID with
  | None => (Err ErrPrincipalNotFound, tab)
  | Some p => (Ok tt, <[deviceID := disabled now p]> tab)
  end.

Definition PrincipalByDeviceID (deviceID : string) (tab : Principals) : result Principal :=
  match tab !! deviceID with Some p => Ok p | None => Err ErrPrincipalNotFound end.

(** ** The checks of the transports ([security.go])

    [auth] is nil in the lab profile. *)

Definition errClientCertificateRequired : string :=
  "mtp: authenticated USP principal requires a verified client certificate".
Definition errEndpointIDMismatch : string := "mtp: claimed USP EndpointID does not match authenticated principal".
Definition errMQTTReplyTopicMismatch : string := "mtp: MQTT reply topic does not match authenticated principal".

Definition authenticateCertificate (auth : option Principals) (cert : option string) : result (option Principal) :=
  match auth with
  | None => Ok None
  | Some tab =>
      if negb (is_some cert) then Err errClientCertificateRequired
      else match AuthenticateCertificate cert tab with Ok p => Ok (Some p) | Err e => Err e end
  end.
End Principals.

Definition verifyEndpointPrincipal (p : option Principal) (claimed : string) : result unit :=
  match p with
  | None => Ok tt
  | Some p => if negb (String.eqb (pp_EndpointID p) claimed) then Err errEndpointIDMismatch else Ok tt
  end.

Definition verifyMQTTReplyTopic (p : option Principal) (replyTopic : string) : result unit :=
  match p with
  | None => Ok tt
  | Some p => if negb (String.eqb (pp_MQTTTopic p) replyTopic) then Err errMQTTReplyTopicMismatch else Ok tt
  end.

(** ** Topics ([mqtt_topics.go]) *)

(** [strings.ReplaceAll] of a non-empty [old]; [skip] bytes belong to a match. *)
Fixpoint replace_from (skip : nat) (old new s : string) : string :=
  match s with
  | EmptyString => ""
  | String c s' =>
      match skip with
      | S k => replace_from k old new s'
      | O => if HasPrefix s old then (new ++ replace_from (Nat.pred (String.length old)) old new s')%string
             else String c (replace_from 0 old new s')
      end
  end.

Definition ReplaceAll (s old new : string) : string := replace_from 0 old new s.

Definition replyToKey : string := "/reply-to=".

Definition ReplyToFromV311Topic (publishedTopic controllerTopic : string) : option string :=
  match CutPrefix publishedTopic (controllerTopic ++ replyToKey)%string with
  | None => None
  | Some escaped => if String.eqb escaped "" then None else Some (ReplaceAll escaped "%2F" "/")
  end.

Definition EscapeReplyTo (agentTopic : string) : string := ReplaceAll agentTopic "/" "%2F".

Definition mqttTopicAllowed (p : option Principal) (controllerTopic topic : string) (write : bool) : bool :=
  match p with
  | None => false
  | Some p =>
      if write then
        String.eqb topic controllerTopic
        || String.eqb topic (controllerTopic ++ replyToKey ++ EscapeReplyTo (pp_MQTTTopic p))%string
      else if String.eqb topic (pp_MQTTTopic p) || String.eqb topic (pp_MQTTTopic p ++ "/#")%string then true
      else HasPrefix topic (pp_MQTTTopic p ++ "/")%string && negb (ContainsAny topic "+#")
  end.

(** ** Networks ([allowlist.go]) *)

Definition ipAllowed (cidrs : list IPNet) (ip : Z) : bool :=
  match cidrs with [] => true | _ => existsb (λ n, net_contains n ip) cidrs end.

(** The address of a connection is allowed: [Accept] of the filtering listener,
    which is only there when [cidrs] is not empty. *)
Definition remote_allowed (cidrs : list IPNet) (remote : string) : bool :=
  match SplitHostPort remote with
  | Some (host, _) => match ParseIP host with Some ip => ipAllowed cidrs ip | None => false end
  | None => false
  end.

Definition listener_admits (cidrs : list IPNet) (remote : string) : bool :=
  match cidrs with [] => true | _ => remote_allowed cidrs remote end.

(** ** What a transport asks of the handler *)

Inductive Call : Type :=
| CallConnect (c : Conn)
| CallRecord (c : Conn) (record : string)
| CallDisconnect (c : Conn).

(** ** MQTT ([mqtt.go]) *)

Record Client : Type := mkClient {
  cl_ptr : nat;
  cl_ID : string;
  cl_inline : bool;
  cl_remote : string;
  cl_cert : option string
}.

Record Packet : Type := mkPacket {
  pk_ProtocolVersion : Z;
  pk_ResponseTopic : string;
  pk_TopicName : string;
  pk_Origin : string;
  pk_Payload : string
}.

Record MQTTConfig : Type := mkMQTTConfig {
  mc_ControllerTopic : string;
  mc_ControllerEndpointID : string;
  mc_AllowedCIDRs : list IPNet;
  mc_auth : option Principals
}.

(** [mq_conns]: by client identifier, the connection and the client it was made
    for; [mq_reply]: the protocol version and reply topic of a connection;
    [mq_principals]: by client pointer; [mq_dropped]: the clients told to
    disconnect. *)
Record MQTT : Type := mkMQTT {
  mq_conns : gmap string (Conn * Client);
  mq_reply : gmap nat (Z * string);
  mq_principals : gmap nat Principal;
  mq_dropped : list Client
}.

Section MQTT.
Context `{W : ProtoWire} (sha256_hex : string → string) (cfg : MQTTConfig).

Definition remember (cl : Client) (p : Principal) (m : MQTT) : MQTT :=
  mkMQTT (mq_conns m) (mq_reply m) (<[cl_ptr cl := p]> (mq_principals m)) (mq_dropped m).
Definition principalFor (cl : Client) (m : MQTT) : option Principal := mq_principals m !! cl_ptr cl.
Definition forget_principal (cl : Client) (m : MQTT) : MQTT :=
  mkMQTT (mq_conns m) (mq_reply m) (delete (cl_ptr cl) (mq_principals m)) (mq_dropped m).
Definition DisconnectClient (cl : Client) (m : MQTT) : MQTT :=
  mkMQTT (mq_conns m) (mq_reply m) (mq_principals m) (mq_dropped m ++ [cl]).

Definition OnConnectAuthenticate (cl : Client) (m : MQTT) : bool * MQTT :=
  if negb (remote_allowed (mc_AllowedCIDRs cfg) (cl_remote cl)) then (false, m)
  else match mc_auth cfg with
       | None => (true, m)
       | Some _ =>
           match authenticateCertificate sha256_hex (mc_auth cfg) (cl_cert cl) with
           | Ok (Some p) => (true, remember cl p m)
           | Ok None => (true, m)
           | Err _ => (false, m)
           end
       end.

Definition OnACLCheck (cl : Client) (topic : string) (write : bool) (m : MQTT) : bool :=
  if cl_inline cl then true
  else match mc_auth cfg with
       | None => true
       | Some _ =>
           match principalFor cl m with
           | None => false
           | Some p => mqttTopicAllowed (Some p) (mc_ControllerTopic cfg) topic write
           end
       end.

Definition reply_topic (pk : Packet) : string :=
  if pk_ProtocolVersion pk =? 5 then pk_ResponseTopic pk
  else default "" (ReplyToFromV311Topic (pk_TopicName pk) (mc_ControllerTopic cfg)).

Definition setReplyState (c : Conn) (version : Z) (topic : string) (m : MQTT) : MQTT :=
  mkMQTT (mq_conns m) (<[c_id c := (version, topic)]> (mq_reply m)) (mq_principals m) (mq_dropped m).

(** [err != nil && !errors.Is(err, usp.ErrNoPayload)] *)
Definition undecodable (err : option RecordError) : bool :=
  match err with None | Some ErrNoPayload => false | Some _ => true end.

(** The connection of the client identifier; [fresh] is the identity of the one
    made when there is none. *)
Definition connFor (fresh : nat) (cl : Client) (endpoint : string) (version : Z) (replyTopic : string) (m : MQTT)
    : Conn * list Call * MQTT :=
  match mq_conns m !! cl_ID cl with
  | Some (conn, _) => (conn, [], setReplyState conn version replyTopic m)
  | None =>
      let conn := mkConn fresh endpoint KindMQTT in
      (conn, [CallConnect conn],
       setReplyState conn version replyTopic
         (mkMQTT (<[cl_ID cl := (conn, cl)]> (mq_conns m)) (mq_reply m) (mq_principals m) (mq_dropped m)))
  end.

Definition onPublish (clients : gmap string Client) (fresh : nat) (pk : Packet) (m : MQTT) : list Call * MQTT :=
  let replyTopic := reply_topic pk in
  if String.eqb replyTopic "" then ([], m)
  else
    match DecodeRecord (pk_Payload pk) (mc_ControllerEndpointID cfg) with
    | (Some decoded, err) =>
        if undecodable err then ([], m)
        else
          match clients !! pk_Origin pk with
          | None => ([], m)
          | Some origin =>
              let p := principalFor origin m in
              if is_some (mc_auth cfg) && negb (is_some p) then ([], DisconnectClient origin m)
              else if negb (is_ok (verifyEndpointPrincipal p (dr_From decoded))) then ([], DisconnectClient origin m)
              else if negb (is_ok (verifyMQTTReplyTopic p replyTopic)) then ([], DisconnectClient origin m)
              else
                let '(conn, calls, m') := connFor fresh origin (dr_From decoded) (pk_ProtocolVersion pk) replyTopic m in
                (calls ++ [CallRecord conn (pk_Payload pk)], m')
          end
    | (None, _) => ([], m)
    end.

Definition handleDisconnect (cl : Client) (m : MQTT) : list Call * MQTT :=
  let m1 := forget_principal cl m in
  match mq_conns m1 !! cl_ID cl with
  | Some (conn, owner) =>
      if (cl_ptr owner =? cl_ptr cl)%nat
      then ([CallDisconnect conn],
            mkMQTT (delete (cl_ID cl) (mq_conns m1)) (mq_reply m1) (mq_principals m1) (mq_dropped m1))
      else ([], m1)
  | None => ([], m1)
  end.

(** The topic [Send] publishes a record to. *)
Definition send_topic (c : Conn) (m : MQTT) : option string :=
  match mq_reply m !! c_id c with
  | Some (version, topic) =>
      if String.eqb topic "" then None
      else if version =? 5 then Some topic
      else Some (topic ++ replyToKey ++ EscapeReplyTo (mc_ControllerTopic cfg))%string
  | None => None
  end.
End MQTT.

(** ** WebSocket ([websocket.go]) *)

Definition subprotocol : string := "v1.usp".

Definition offersSubprotocol (header want : string) : bool :=
  existsb (λ tok, String.eqb (TrimSpace tok) want) (Split header ",").

(** [handle] up to the upgrade: the endpoint of the connection, or the status of
    the refusal.  [eid] is the query parameter, empty when absent. *)
Definition ws_handshake (sha256_hex : string → string) (auth : option Principals) (header eid : string)
    (cert : option string) : Z + string :=
  if negb (offersSubprotocol header subprotocol) then inl 400
  else if String.eqb eid "" then inl 400
  else match PercentDecodeUSP eid with
       | None => inl 400
       | Some endpoint =>
           match auth with
           | None => inr endpoint
           | Some _ =>
               match authenticateCertificate sha256_hex auth cert with
               | Err _ => inl 403
               | Ok p => if is_ok (verifyEndpointPrincipal p endpoint)
                         then inr (match p with Some p => pp_EndpointID p | None => endpoint end)
                         else inl 403
               end
           end
       end.

Inductive Frame : Type := FrameBinary (data : string) | FrameOther.

Definition from_mismatch `{W : ProtoWire} (us : string) (c : Conn) (data : string) : bool :=
  negb (String.eqb us "")
  && match (DecodeRecord data us).1 with
     | Some rec => negb (String.eqb (dr_From rec) (c_endpoint c))
     | None => false
     end.

(** [readLoop]: the frames read until the connection ends. *)
Fixpoint readLoop `{W : ProtoWire} (us : string) (c : Conn) (frames : list Frame) : list Call :=
  match frames with
  | FrameBinary data :: rest =>
      if from_mismatch us c data then [CallDisconnect c] else CallRecord c data :: readLoop us c rest
  | _ => [CallDisconnect c]
  end.

Definition ws_serve `{W : ProtoWire} (us : string) (c : Conn) (frames : list Frame) : list Call :=
  CallConnect c :: readLoop us c frames.
