(* ===== verification/UspMtpTheorems.v ===== *)
(** * Correctness of the USP transports *)

From S2P Require Import Prelude GoStrings Encoding NetGuard Devices Usp UspConn UspMtp.

(** ** Reply topics *)

Lemma replace_skip n old new a s : String.length a = n → replace_from n old new (a ++ s) = replace_from 0 old new s.
Proof.
  revert n. induction a as [|c a IH]; intros n <-; [done|]. rewrite string_app_cons. cbn. by apply IH.
Qed.

Lemma escape_slash s : EscapeReplyTo (String "/" s) = ("%2F" ++ EscapeReplyTo s)%string.
Proof. by destruct s. Qed.

Lemma escape_other c s : c ≠ "/"%char → EscapeReplyTo (String c s) = String c (EscapeReplyTo s).
Proof.
  intros Hc. unfold EscapeReplyTo, ReplaceAll. cbn [replace_from]. rewrite HasPrefix_cons.
  by rewrite (proj2 (Ascii.eqb_neq _ _)).
Qed.

(** A byte of the escaped topic that is not a percent sign is a byte of the topic. *)
Lemma escape_head c s t : c ≠ "%"%char → EscapeReplyTo s = String c t → ∃ s', s = String c s' ∧ EscapeReplyTo s' = t.
Proof.
  intros Hc. destruct s as [|d s]; [done|]. destruct (decide (d = "/"%char)) as [->|Hd].
  - rewrite escape_slash. intros [= <- _]. done.
  - rewrite escape_other by done. intros [= <- <-]. eauto.
Qed.

Lemma unescape_escape s : Contains s "%2F" = false → ReplaceAll (EscapeReplyTo s) "%2F" "/" = s.
Proof.
  induction s as [|c s IH]; [done|]. intros Hn. cbn [Contains] in Hn. apply orb_false_iff in Hn as [Hp Hn].
  specialize (IH Hn). destruct (decide (c = "/"%char)) as [->|Hc].
  - rewrite escape_slash. unfold ReplaceAll in *. rewrite !string_app_cons. cbn [replace_from].
    change (HasPrefix (String "%" (String "2" (String "F" ("" ++ EscapeReplyTo s)))) "%2F") with
      (HasPrefix ("%2F" ++ EscapeReplyTo s) "%2F"). rewrite HasPrefix_app. cbn -[EscapeReplyTo].
    change ("" ++ EscapeReplyTo s)%string with (EscapeReplyTo s). by rewrite IH.
  - rewrite escape_other by done. unfold ReplaceAll in *. cbn [replace_from].
    destruct (HasPrefix (String c (EscapeReplyTo s)) "%2F") eqn:E; [|by rewrite IH]. exfalso.
    apply HasPrefix_split in E as (r & E). rewrite !string_app_cons in E. injection E as -> E.
    apply escape_head in E as (s1 & -> & E); [|done]. apply escape_head in E as (s2 & -> & _); [|done].
    change (HasPrefix ("%2F" ++ s2) "%2F" = false) in Hp. by rewrite HasPrefix_app in Hp.
Qed.

(** A topic escaped into an MQTT 3.1.1 publish topic is read back as it was,
    provided it does not itself contain the escape sequence. *)
Theorem reply_topic_roundtrip controllerTopic topic :
  topic ≠ "" → Contains topic "%2F" = false →
  ReplyToFromV311Topic (controllerTopic ++ replyToKey ++ EscapeReplyTo topic) controllerTopic = Some topic.
Proof.
  intros Hne Hc. unfold ReplyToFromV311Topic. rewrite <-string_app_assoc, CutPrefix_app.
  destruct (String.eqb (EscapeReplyTo topic) "") eqn:E.
  - bool_to_prop. rewrite <-(unescape_escape topic Hc), E in Hne. done.
  - by rewrite unescape_escape.
Qed.

Lemma reply_topic_roundtrip_witness :
  ReplyToFromV311Topic "/usp/controller/reply-to=agents%2Fs1" "/usp/controller" = Some "agents/s1".
Proof. exact (reply_topic_roundtrip "/usp/controller" "agents/s1" ltac:(done) ltac:(done)). Defined.

(** ** Topics an agent may read *)

(** One topic is the other or lies below it. *)
Definition nested (t u : string) : bool := HasPrefix (u ++ "/") (t ++ "/").

Lemma read_below p controllerTopic topic :
  mqttTopicAllowed (Some p) controllerTopic topic false = true → ∃ r, (topic ++ "/")%string = (pp_MQTTTopic p ++ "/" ++ r)%string.
Proof.
  unfold mqttTopicAllowed. destruct (String.eqb topic (pp_MQTTTopic p) || String.eqb topic (pp_MQTTTopic p ++ "/#")) eqn:E.
  - apply orb_true_iff in E as [E|E]; bool_to_prop; subst; intros _; [by exists ""|].
    exists "#/". by rewrite string_app_assoc.
  - intros [H _]%andb_true_iff. apply HasPrefix_split in H as (r & ->). exists (r ++ "/")%string.
    by rewrite !string_app_assoc.
Qed.

(** Two agents whose reply topics are not nested in one another can read no
    topic in common: neither can subscribe to the other's answers. *)
Theorem topic_acl_isolates_agents p q controllerTopic topic :
  nested (pp_MQTTTopic p) (pp_MQTTTopic q) = false → nested (pp_MQTTTopic q) (pp_MQTTTopic p) = false →
  mqttTopicAllowed (Some p) controllerTopic topic false && mqttTopicAllowed (Some q) controllerTopic topic false = false.
Proof.
  intros Hpq Hqp. apply andb_false_iff. destruct (mqttTopicAllowed (Some p) _ _ _) eqn:Ep; [right|by left].
  apply not_true_is_false. intros Eq. apply read_below in Ep as (r & Er), Eq as (u & Eu). rewrite Er in Eu.
  rewrite <-!string_app_assoc in Eu. apply prefixes_comparable in Eu as [H|H]%orb_true_iff;
    unfold nested in *; congruence.
Qed.

Lemma topic_acl_isolates_agents_witness :
  let p t := mkPrincipal "d" "e" "c" t true 0 0 in
  mqttTopicAllowed (Some (p "agents/s1")) "/usp/controller" "agents/s1/x" false = true ∧
  mqttTopicAllowed (Some (p "agents/s10")) "/usp/controller" "agents/s1/x" false = false.
Proof.
  cbv zeta. split; [done|].
  pose proof (topic_acl_isolates_agents (mkPrincipal "d" "e" "c" "agents/s1" true 0 0)
    (mkPrincipal "d" "e" "c" "agents/s10" true 0 0) "/usp/controller" "agents/s1/x" ltac:(done) ltac:(done)) as H. exact H.
Defined.

(** Nested reply topics are accepted by the binding, and the agent above may
    subscribe to everything sent to the agent below. *)
Lemma nested_topic_is_readable p q controllerTopic :
  pp_MQTTTopic q = (pp_MQTTTopic p ++ "/sub")%string →
  mqttTopicAllowed (Some p) controllerTopic (pp_MQTTTopic p ++ "/#") false = true ∧
  nested (pp_MQTTTopic p) (pp_MQTTTopic q) = true.
Proof.
  intros Hq. split.
  - unfold mqttTopicAllowed. by rewrite String.eqb_refl, orb_true_r.
  - unfold nested. rewrite Hq, string_app_assoc. change ("/sub" ++ "/")%string with ("/" ++ "sub/")%string.
    rewrite <-string_app_assoc. apply HasPrefix_app.
Qed.

(** ** The binding of certificates *)

Record principals_ok (tab : Principals) : Prop := mk_principals_ok {
  po_key : ∀ k p, tab !! k = Some p → pp_DeviceID p = k;
  po_endpoint : ∀ k k' p p', tab !! k = Some p → tab !! k' = Some p' → pp_EndpointID p = pp_EndpointID p' → k = k';
  po_cert : ∀ k k' p p', tab !! k = Some p → tab !! k' = Some p' → pp_ClientCertSHA256 p = pp_ClientCertSHA256 p' → k = k';
  po_topic : ∀ k k' p p', tab !! k = Some p → tab !! k' = Some p' → pp_MQTTTopic p = pp_MQTTTopic p' → k = k'
}.

Lemma binding_free p tab : binding_taken p tab = false →
  ∀ k q, tab !! k = Some q → k ≠ pp_DeviceID p →
    pp_EndpointID q ≠ pp_EndpointID p ∧ pp_ClientCertSHA256 q ≠ pp_ClientCertSHA256 p ∧ pp_MQTTTopic q ≠ pp_MQTTTopic p.
Proof.
  intros H k q Hq Hk. unfold binding_taken in H. apply not_true_iff_false in H.
  assert (∀ b : bool, b = false ↔ ¬ b = true) as Hb by (intros []; split; done).
  assert (String.eqb (pp_EndpointID q) (pp_EndpointID p) || String.eqb (pp_ClientCertSHA256 q) (pp_ClientCertSHA256 p)
          || String.eqb (pp_MQTTTopic q) (pp_MQTTTopic p) = false) as Hf.
  { apply Hb. intros Hx. apply H, existsb_exists. exists (k, q). split; [by apply list_elem_of_In, elem_of_map_to_list|].
    cbn [fst snd]. by rewrite (proj2 (String.eqb_neq _ _) Hk), Hx. }
  apply orb_false_iff in Hf as [[He Hc]%orb_false_iff Ht]. bool_to_prop. done.
Qed.

Lemma principals_ok_bind p tab :
  binding_taken p tab = false → principals_ok tab → principals_ok (<[pp_DeviceID p := p]> tab).
Proof.
  intros Hf [Hk He Hc Ht]. pose proof (binding_free p tab Hf) as Hfree. constructor.
  - intros k q. rewrite lookup_insert. case_decide; [by intros [= <-]|eauto].
  - intros k k' q q'. rewrite !lookup_insert. repeat case_decide; intros; simplify_eq; eauto; exfalso; naive_solver.
  - intros k k' q q'. rewrite !lookup_insert. repeat case_decide; intros; simplify_eq; eauto; exfalso; naive_solver.
  - intros k k' q q'. rewrite !lookup_insert. repeat case_decide; intros; simplify_eq; eauto; exfalso; naive_solver.
Qed.

(** The one row that satisfies the predicate. *)
Lemma find_principal_unique f tab k p :
  tab !! k = Some p → f p = true → (∀ k' q, tab !! k' = Some q → f q = true → k' = k) → find_principal f tab = Ok p.
Proof.
  intros Hp Hf Hu. unfold find_principal. destruct (List.find f (rows tab)) as [q|] eqn:E.
  - apply List.find_some in E as [Hin Hq]. apply list_elem_of_In, elem_of_rows in Hin as (k' & Hk').
    pose proof (Hu _ _ Hk' Hq) as ->. congruence.
  - exfalso. assert (p ∈ rows tab) as Hin by (apply elem_of_rows; eauto).
    apply list_elem_of_In in Hin. by rewrite (List.find_none _ _ E _ Hin) in Hf.
Qed.

Lemma find_principal_none f tab : (∀ k q, tab !! k = Some q → f q = false) → find_principal f tab = Err ErrPrincipalNotFound.
Proof.
  intros H. unfold find_principal. destruct (List.find f (rows tab)) as [q|] eqn:E; [|done].
  apply List.find_some in E as [Hin Hq]. apply list_elem_of_In, elem_of_rows in Hin as (k & Hk). by rewrite (H _ _ Hk) in Hq.
Qed.

(** Binding a certificate gives its device that certificate and no other: the
    certificate and the endpoint resolve to the new principal, the certificate
    the device had before authenticates nothing, other devices keep theirs, and
    the table keeps its unique columns.  Disabling the principal revokes both. *)
Theorem binding_rotates_the_credential sha now devices dev endpoint cert topic tab p tab' :
  principals_ok tab → BindCertificate sha now devices dev endpoint cert topic tab = (Ok p, tab') →
  principals_ok tab' ∧
  AuthenticateCertificate sha cert tab' = Ok p ∧ ByEndpointID (pp_EndpointID p) tab' = Ok p ∧
  (∀ old cert', tab !! pp_DeviceID p = Some old → CertificateSHA256 sha cert' = pp_ClientCertSHA256 old →
     CertificateSHA256 sha cert' ≠ CertificateSHA256 sha cert →
     AuthenticateCertificate sha cert' tab' = Err ErrPrincipalNotFound) ∧
  (∀ k, k ≠ pp_DeviceID p → tab' !! k = tab !! k) ∧
  (∀ later, AuthenticateCertificate sha cert (Disable later (pp_DeviceID p) tab').2 = Err ErrPrincipalNotFound ∧
            ByEndpointID (pp_EndpointID p) (Disable later (pp_DeviceID p) tab').2 = Err ErrPrincipalNotFound).
Proof.
  intros Hok. unfold BindCertificate. cbv zeta. destruct (_ || _) eqn:Eb; [done|]. destruct (negb _); [done|].
  set (q := mkPrincipal _ _ _ _ _ _ _). destruct (binding_taken q tab) eqn:Et; [done|]. intros [= <- <-].
  pose proof (principals_ok_bind q tab Et Hok) as Hok'.
  change (<[TrimSpace dev := q]> tab) with (<[pp_DeviceID q := q]> tab). set (tab' := <[pp_DeviceID q := q]> tab) in *.
  assert (tab' !! pp_DeviceID q = Some q) as Hq by apply lookup_insert_eq.
  assert (CertificateSHA256 sha cert ≠ "") as Hce 
    by (apply orb_false_iff in Eb as [[[_ Hf]%orb_false_iff _]%orb_false_iff _]; by apply String.eqb_neq).
  assert (∀ k r, tab' !! k = Some r → pp_ClientCertSHA256 r = pp_ClientCertSHA256 q → k = pp_DeviceID q) as Hcert by
    (intros; by eapply (po_cert _ Hok')).
  assert (∀ k r, tab' !! k = Some r → pp_EndpointID r = pp_EndpointID q → k = pp_DeviceID q) as Hend by
    (intros; by eapply (po_endpoint _ Hok')).
  split_and!.
  - done.
  - unfold AuthenticateCertificate. rewrite (proj2 (String.eqb_neq _ _) Hce).
    eapply find_principal_unique; [exact Hq|cbn; by rewrite String.eqb_refl|].
    intros k r Hr [He _]%andb_true_iff. bool_to_prop. eauto.
  - eapply find_principal_unique; [exact Hq|cbn; by rewrite String.eqb_refl|].
    intros k r Hr [He _]%andb_true_iff. bool_to_prop. eauto.
  - intros old cert' Hold Hf Hne. unfold AuthenticateCertificate.
    destruct (String.eqb (CertificateSHA256 sha cert') ""); [done|].
    apply find_principal_none. intros k r Hr. apply andb_false_iff. left. apply String.eqb_neq. intros He.
    subst tab'. rewrite lookup_insert in Hr. case_decide as Hk; [injection Hr as <-; by destruct Hne|].
    rewrite Hf in He. apply Hk. symmetry. by eapply (po_cert _ Hok).
  - intros k Hk. by apply lookup_insert_ne.
  - intros later. unfold Disable. rewrite Hq. cbn [snd]. split.
    + unfold AuthenticateCertificate. rewrite (proj2 (String.eqb_neq _ _) Hce). apply find_principal_none. intros k r.
      rewrite lookup_insert. case_decide as Hk; [intros [= <-]; cbn; by rewrite andb_false_r|]. intros Hr.
      apply andb_false_iff. left. apply String.eqb_neq. intros He. by apply Hk; symmetry; eapply Hcert.
    + apply find_principal_none. intros k r. rewrite lookup_insert.
      case_decide as Hk; [intros [= <-]; cbn; by rewrite andb_false_r|]. intros Hr.
      apply andb_false_iff. left. apply String.eqb_neq. intros He. by apply Hk; symmetry; eapply Hend.
Qed.

Lemma binding_rotates_the_credential_witness :
  let tab := {["d-1" := mkPrincipal "d-1" "os::a" "sha(old)" "agents/a" true 1 1]} in
  let d := mkDevice (mkIdentity "d-1" "k" "o" "c" "s" 1) "m" (mkPresence StOffline None [] None None)
             (mkOwnership None None [] None) no_reach RootUnknown None AuthModeNone no_profile [] 1 in
  let sha x := ("sha(" ++ x ++ ")")%string in
  let tab' := (BindCertificate sha 5 {["d-1" := d]} "d-1" "os::a" (Some "new") "agents/a" tab).2 in
  AuthenticateCertificate sha (Some "new") tab' = Ok (mkPrincipal "d-1" "os::a" "sha(new)" "agents/a" true 1 5) ∧
  AuthenticateCertificate sha (Some "old") tab' = Err ErrPrincipalNotFound.
Proof.
  cbv zeta. set (d := mkDevice _ _ _ _ _ _ _ _ _ _ _). set (sha := λ x, _).
  pose proof (binding_rotates_the_credential sha 5 {["d-1" := d]} "d-1" "os::a" (Some "new") "agents/a"
    {["d-1" := mkPrincipal "d-1" "os::a" "sha(old)" "agents/a" true 1 1]} _ _
    ltac:(constructor; intros *; rewrite !lookup_singleton; repeat case_decide; by naive_solver) eq_refl) as (_ & Ha & _ & Ho & _).
  split; [exact Ha|]. eapply (Ho _ (Some "old")); [apply lookup_singleton_eq|done|done].
Defined.

(** ** WebSocket connections *)

(** The transport opens, delivers and ends a connection, in that order, and
    delivers no record that names another sender than the endpoint of the
    connection; in production that endpoint is the one bound to the certificate
    the client presented. *)
Lemma readLoop_spec `{W : ProtoWire} us c frames :
  us ≠ "" →
  ∃ datas, readLoop us c frames = (CallRecord c <$> datas) ++ [CallDisconnect c] ∧
    Forall (λ d, ∀ rec, (DecodeRecord d us).1 = Some rec → dr_From rec = c_endpoint c) datas.
Proof.
  intros Hus. induction frames as [|[data|] frames IH]; [by exists []| |by exists []]. cbn [readLoop].
  destruct (from_mismatch us c data) eqn:E; [by exists []|]. destruct IH as (datas & -> & Hd).
  exists (data :: datas). split; [done|]. constructor; [|done]. intros rec Hr. unfold from_mismatch in E.
  rewrite (proj2 (String.eqb_neq _ _) Hus), Hr in E. cbn in E. by bool_to_prop.
Qed.

(** A WebSocket connection in production speaks for the certificate it
    presented: the handshake succeeds only when the requested endpoint is the one
    bound to that certificate, and then the handler sees the connection opened,
    only records sent in the name of that endpoint, and the connection ended,
    each once and in that order. *)
Theorem websocket_speaks_for_its_certificate `{W : ProtoWire} sha tab header eid cert us c frames :
  ws_handshake sha (Some tab) header eid cert = inr (c_endpoint c) → us ≠ "" →
  (∃ p, AuthenticateCertificate sha cert tab = Ok p ∧ pp_EndpointID p = c_endpoint c ∧ PercentDecodeUSP eid = Some (c_endpoint c)) ∧
  ∃ datas, ws_serve us c frames = CallConnect c :: (CallRecord c <$> datas) ++ [CallDisconnect c] ∧
    Forall (λ d, ∀ rec, (DecodeRecord d us).1 = Some rec → dr_From rec = c_endpoint c) datas.
Proof.
  intros Hh Hus. split.
  - unfold ws_handshake in Hh. destruct (negb _); [done|]. destruct (String.eqb eid ""); [done|].
    destruct (PercentDecodeUSP eid) as [endpoint|]; [|done]. unfold authenticateCertificate in Hh.
    destruct (negb (is_some cert)); [done|]. destruct (AuthenticateCertificate sha cert tab) as [p|]; [|done].
    destruct (is_ok _) eqn:E; [|done]. injection Hh as Hp. unfold verifyEndpointPrincipal in E.
    destruct (String.eqb (pp_EndpointID p) endpoint) eqn:Ee; [|done]. bool_to_prop. exists p. split_and!; congruence.
  - destruct (readLoop_spec us c frames Hus) as (datas & E & Hd). exists datas. split; [|done]. unfold ws_serve. by rewrite E.
Qed.

(** ** MQTT connections *)

Section Mqtt.
Context `{W : ProtoWire} (sha : string → string) (cfg : MQTTConfig).

(** Every connection belongs to a client whose principal it speaks for, and
    answers go to that principal's topic. *)
Record mqtt_ok (m : MQTT) : Prop := mk_mqtt_ok {
  mo_owner : ∀ id conn cl, mq_conns m !! id = Some (conn, cl) → cl_ID cl = id ∧
    ∃ p v, mq_principals m !! cl_ptr cl = Some p ∧ pp_EndpointID p = c_endpoint conn ∧
           mq_reply m !! c_id conn = Some (v, pp_MQTTTopic p);
  mo_distinct : ∀ id id' conn conn' cl cl', mq_conns m !! id = Some (conn, cl) → mq_conns m !! id' = Some (conn', cl') →
    c_id conn = c_id conn' → id = id'
}.

(** The identity of a new connection is not in use. *)
Definition unused (n : nat) (m : MQTT) : Prop := ∀ id conn cl, mq_conns m !! id = Some (conn, cl) → c_id conn ≠ n.

(** A publish that passes the checks, for a client with a principal. *)
Definition speaks (clients : gmap string Client) (pk : Packet) (origin : Client) (p : Principal) (m : MQTT) : Prop :=
  clients !! pk_Origin pk = Some origin ∧ principalFor origin m = Some p ∧ reply_topic cfg pk = pp_MQTTTopic p ∧
  ∃ rec, (DecodeRecord (pk_Payload pk) (mc_ControllerEndpointID cfg)).1 = Some rec ∧ dr_From rec = pp_EndpointID p.

Lemma onPublish_cases clients n pk m :
  is_Some (mc_auth cfg) →
  (onPublish cfg clients n pk m).1 = [] ∧
    mq_conns (onPublish cfg clients n pk m).2 = mq_conns m ∧ mq_reply (onPublish cfg clients n pk m).2 = mq_reply m ∧
    mq_principals (onPublish cfg clients n pk m).2 = mq_principals m ∨
  ∃ origin p, speaks clients pk origin p m ∧
    onPublish cfg clients n pk m =
      (let '(conn, calls, m') := connFor n origin (pp_EndpointID p) (pk_ProtocolVersion pk) (pp_MQTTTopic p) m in
       (calls ++ [CallRecord conn (pk_Payload pk)], m')).
Proof.
  intros [tab Ha]. unfold onPublish. cbv zeta. destruct (String.eqb (reply_topic cfg pk) ""); [by left|].
  destruct (DecodeRecord _ _) as [[rec|] err] eqn:Ed; [|by left]. destruct (undecodable err); [by left|].
  destruct (clients !! pk_Origin pk) as [origin|] eqn:Ec; [|by left]. rewrite Ha. cbn [is_some andb].
  destruct (principalFor origin m) as [p|] eqn:Ep; [|by left]. cbn [is_some negb].
  unfold verifyEndpointPrincipal. destruct (String.eqb (pp_EndpointID p) (dr_From rec)) eqn:Ee; [|by left].
  unfold verifyMQTTReplyTopic. destruct (String.eqb (pp_MQTTTopic p) (reply_topic cfg pk)) eqn:Et; [|by left]. bool_to_prop.
  right. exists origin, p. rewrite <-Ee, <-Et. split; [|done]. split_and!; [done|done|done|]. exists rec. rewrite Ed. by split.
Qed.

(** In production a published record is attributed to the agent its client
    authenticated as: when it is delivered, the record names the principal's
    endpoint as its sender, the connection it is delivered on has that endpoint,
    and answers on that connection go to the principal's own topic, provided the
    identifier of the client is not still held by another client. *)
Theorem publish_is_attributed_to_its_principal clients n pk m :
  is_Some (mc_auth cfg) → mqtt_ok m → unused n m →
  (∀ origin conn owner, clients !! pk_Origin pk = Some origin → mq_conns m !! cl_ID origin = Some (conn, owner) →
     cl_ptr owner = cl_ptr origin) →
  let '(calls, m') := onPublish cfg clients n pk m in
  mqtt_ok m' ∧
  ∀ conn record, CallRecord conn record ∈ calls →
    record = pk_Payload pk ∧ ∃ origin p, speaks clients pk origin p m ∧ c_endpoint conn = pp_EndpointID p ∧
      mq_reply m' !! c_id conn = Some (pk_ProtocolVersion pk, pp_MQTTTopic p).
Proof.
  intros Ha [Ho Hd] Hn Hown. destruct (onPublish_cases clients n pk m Ha) as [(Ec & Em & Er & Ep)|(origin & p & Hs & ->)].
  { destruct (onPublish cfg clients n pk m) as [calls m']. cbn in Ec, Em, Er, Ep. subst calls. split; [|by intros ? ? ?%elem_of_nil].
    constructor; rewrite Em; [rewrite Er, Ep|]; done. }
  destruct Hs as (Hc & Hp & Ht & rec & Hrec & Hfrom). unfold connFor.
  destruct (mq_conns m !! cl_ID origin) as [[conn owner]|] eqn:Econn.
  - pose proof (Hown _ _ _ Hc Econn) as Hptr. destruct (Ho _ _ _ Econn) as (Hid & p' & v & Hp' & Hep & Hrep).
    unfold principalFor in Hp. rewrite Hptr, Hp in Hp'. injection Hp' as <-. split.
    + constructor; cbn; [|done]. intros id conn' cl Hconn. destruct (Ho _ _ _ Hconn) as (Hid' & q & v' & Hq & Heq & Hrq).
      split; [done|]. destruct (decide (c_id conn' = c_id conn)) as [Hsame|Hdiff].
      * pose proof (Hd _ _ _ _ _ _ Hconn Econn Hsame) as ->. rewrite Econn in Hconn. injection Hconn as <- <-.
        exists p, (pk_ProtocolVersion pk). rewrite Hptr. split_and!; [done|done|apply lookup_insert_eq].
      * exists q, v'. split_and!; [done|done|by rewrite lookup_insert_ne].
    + intros conn' record Hin. cbn in Hin. apply list_elem_of_singleton in Hin. injection Hin as -> ->. split; [done|].
      exists origin, p. split_and!; [|done|cbn; apply lookup_insert_eq]. split_and!; [done|done|done|eauto].
  - set (new := mkConn n (pp_EndpointID p) KindMQTT). split.
    + constructor; cbn.
      * intros id conn' cl Hconn. rewrite lookup_insert in Hconn. case_decide as Hid.
        -- injection Hconn as <- <-. split; [done|]. exists p, (pk_ProtocolVersion pk). split_and!; [done|done|apply lookup_insert_eq].
        -- destruct (Ho _ _ _ Hconn) as (Hid' & q & v' & Hq & Heq & Hrq). split; [done|]. exists q, v'.
           split_and!; [done|done|]. rewrite lookup_insert_ne; [done|]. cbn. intros Hx. by eapply Hn.
      * intros id id' conn1 conn2 cl1 cl2. rewrite !lookup_insert. repeat case_decide; intros; simplify_eq/=; try done.
        -- exfalso. by eapply Hn.
        -- exfalso. by eapply Hn.
        -- by eapply Hd.
    + intros conn' record Hin. cbn in Hin. apply elem_of_cons in Hin as [Hin|Hin]; [done|].
      apply list_elem_of_singleton in Hin. injection Hin as -> ->. split; [done|].
      exists origin, p. split_and!; [|done|cbn; apply lookup_insert_eq]. split_and!; [done|done|done|eauto].
Qed.

(** A client that connects is a new pointer; one that disconnects takes the
    connection made for it with it. *)
Lemma mqtt_ok_authenticate cl m :
  (∀ id conn owner, mq_conns m !! id = Some (conn, owner) → cl_ptr owner ≠ cl_ptr cl) →
  mqtt_ok m → mqtt_ok (OnConnectAuthenticate sha cfg cl m).2.
Proof.
  intros Hnew [Ho Hd]. unfold OnConnectAuthenticate. destruct (negb _); [done|]. destruct (mc_auth cfg); [|done].
  destruct (authenticateCertificate _ _ _) as [[p|]|]; try done. constructor; [|done]. cbn.
  intros id conn owner Hc. destruct (Ho _ _ _ Hc) as (Hid & q & v & Hq & He & Hr). split; [done|]. exists q, v.
  split_and!; [|done|done]. rewrite lookup_insert_ne; [done|]. intros Hx. by eapply Hnew.
Qed.

Lemma mqtt_ok_disconnect cl m :
  (∀ id conn owner, mq_conns m !! id = Some (conn, owner) → cl_ptr owner = cl_ptr cl → cl_ID owner = cl_ID cl) →
  mqtt_ok m → mqtt_ok (handleDisconnect cl m).2.
Proof.
  intros Hptr [Ho Hd].
  assert (∀ conns : gmap string (Conn * Client), conns ⊆ mq_conns m →
    (∀ id conn owner, conns !! id = Some (conn, owner) → cl_ptr owner ≠ cl_ptr cl) →
    mqtt_ok (mkMQTT conns (mq_reply m) (delete (cl_ptr cl) (mq_principals m)) (mq_dropped m))) as H.
  { intros conns Hsub Hne. constructor; cbn.
    - intros id conn owner Hc. destruct (Ho _ _ _ (lookup_weaken _ _ _ _ Hc Hsub)) as (Hid & q & v & Hq & He & Hr).
      split; [done|]. exists q, v. split_and!; [|done|done]. rewrite lookup_delete_ne; [done|]. intros Hx. by eapply Hne.
    - intros id id' conn conn' o o' H1 H2. eapply Hd; eapply lookup_weaken; done. }
  unfold handleDisconnect, forget_principal. cbn [mq_conns mq_reply mq_principals mq_dropped].
  destruct (mq_conns m !! cl_ID cl) as [[conn owner]|] eqn:E.
  - destruct (cl_ptr owner =? cl_ptr cl)%nat eqn:Ep; cbn [snd].
    + apply H; [apply delete_subseteq|]. intros id c' o [Hne Hc]%lookup_delete_Some Hx. apply Hne.
      destruct (Ho _ _ _ Hc) as [<- _]. symmetry. by eapply Hptr.
    + apply H; [done|]. intros id c' o Hc Hx. apply Nat.eqb_neq in Ep. apply Ep.
      pose proof (Hptr _ _ _ Hc Hx) as Hid. destruct (Ho _ _ _ Hc) as [Hid' _]. rewrite Hid in Hid'. subst id. congruence.
  - apply H; [done|]. intros id c' o Hc Hx. pose proof (Hptr _ _ _ Hc Hx) as Hid. destruct (Ho _ _ _ Hc) as [Hid' _].
    rewrite Hid in Hid'. subst id. congruence.
Qed.

(** While the connection of an earlier client with the same identifier is still
    recorded, the record of the new client is delivered on it: it acts for the
    endpoint of the earlier client, and what is sent to that endpoint from then on
    goes to the topic of the new one. *)
Lemma taken_over_identifier_speaks_for_the_old_agent clients n pk m origin p conn owner :
  is_Some (mc_auth cfg) → speaks clients pk origin p m → pp_MQTTTopic p ≠ "" →
  (DecodeRecord (pk_Payload pk) (mc_ControllerEndpointID cfg)).2 = None →
  mq_conns m !! cl_ID origin = Some (conn, owner) →
  let '(calls, m') := onPublish cfg clients n pk m in
  calls = [CallRecord conn (pk_Payload pk)] ∧ mq_reply m' !! c_id conn = Some (pk_ProtocolVersion pk, pp_MQTTTopic p).
Proof.
  intros [tab Ha] (Hc & Hp & Ht & rec & Hrec & Hfrom) Hne Herr Hconn. unfold onPublish. cbv zeta.
  rewrite Ht, (proj2 (String.eqb_neq _ _) Hne). destruct (DecodeRecord _ _) as [o e]. cbn in Hrec, Herr. subst o e.
  rewrite Hc, Ha, Hp. cbn [is_some andb negb]. unfold verifyEndpointPrincipal, verifyMQTTReplyTopic.
  rewrite Hfrom, !String.eqb_refl. cbn [negb is_ok]. unfold connFor. rewrite Hconn. split; [done|]. cbn. apply lookup_insert_eq.
Qed.
End Mqtt.

(** ** Concrete runs, with records written [to|from|payload] *)

Definition w_agent : Principal := mkPrincipal "d-1" "os::a" "sha(cert)" "agents/a" true 1 1.
Definition w_sha (x : string) : string := ("sha(" ++ x ++ ")")%string.

Lemma websocket_speaks_for_its_certificate_witness :
  ∃ datas, ws_serve (W := bar_wire) "self::acs" (mkConn 1 "os::a" KindWebSocket)
             [FrameBinary "self::acs|os::a|x"; FrameBinary "self::acs|os::b|y"]
           = CallConnect (mkConn 1 "os::a" KindWebSocket) :: (CallRecord (mkConn 1 "os::a" KindWebSocket) <$> datas)
             ++ [CallDisconnect (mkConn 1 "os::a" KindWebSocket)] ∧ datas = ["self::acs|os::a|x"].
Proof.
  destruct (websocket_speaks_for_its_certificate (W := bar_wire) w_sha {["d-1" := w_agent]} "chat, v1.usp" "os::a" (Some "cert")
    "self::acs" (mkConn 1 "os::a" KindWebSocket) [FrameBinary "self::acs|os::a|x"; FrameBinary "self::acs|os::b|y"])
    as [_ (datas & E & _)]; [by vm_compute|done|].
  exists datas. split; [exact E|]. vm_compute in E. destruct datas as [|d [|]]; by inversion E.
Defined.

Definition w_mqtt_cfg : MQTTConfig := mkMQTTConfig "/usp/controller" "self::acs" [] (Some {["d-1" := w_agent]}).
Definition w_client : Client := mkClient 7 "cl" false "10.0.0.1:5000" (Some "cert").
Definition w_clients : gmap string Client := {["cl" := w_client]}.
Definition w_publish : Packet := mkPacket 5 "agents/a" "/usp/controller" "cl" "self::acs|os::a|x".

Lemma publish_is_attributed_to_its_principal_witness :
  let m := (OnConnectAuthenticate w_sha w_mqtt_cfg w_client (mkMQTT ∅ ∅ ∅ [])).2 in
  let c := mkConn 3 "os::a" KindMQTT in
  (onPublish (W := bar_wire) w_mqtt_cfg w_clients 3 w_publish m).1 = [CallConnect c; CallRecord c "self::acs|os::a|x"] ∧
  mqtt_ok (onPublish (W := bar_wire) w_mqtt_cfg w_clients 3 w_publish m).2.
Proof.
  cbv zeta. set (m := snd _). assert (mq_conns m = ∅) as Hm by (by vm_compute). split; [by vm_compute|].
  assert (is_Some (mc_auth w_mqtt_cfg)) as Ha by (by eexists).
  assert (mqtt_ok m) as Hok by (constructor; intros *; rewrite Hm, lookup_empty; done).
  assert (unused 3 m) as Hu by (intros id conn cl Hc; by rewrite Hm, lookup_empty in Hc).
  assert (∀ origin conn owner, w_clients !! pk_Origin w_publish = Some origin →
            mq_conns m !! cl_ID origin = Some (conn, owner) → cl_ptr owner = cl_ptr origin) as Ho.
  { intros origin conn owner _ Hc. by rewrite Hm, lookup_empty in Hc. }
  pose proof (publish_is_attributed_to_its_principal (W := bar_wire) w_mqtt_cfg w_clients 3 w_publish m Ha Hok Hu
    Ho) as H.
  destruct (onPublish (W := bar_wire) w_mqtt_cfg w_clients 3 w_publish m) as [calls m']. exact (proj1 H).
Defined.
