(* ===== verification/UspConfig.v ===== *)
(** * The configuration of the USP controller ([cmd/uspc/config.go])

    [loadConfig] collects every problem of the environment it is given and starts
    the process only when there is none.  A network is known here by the literal
    it was written as: the mask size [net.IPNet] remembers is that literal's. *)

From S2P Require Import Prelude GoStrings Encoding NetGuard Usp.

Definition minControllerIDBytes : nat := 8.
Definition deploymentProfileLab : string := "lab".
Definition deploymentProfileProduction : string := "production".

Definition placeholderControllerIDs : list string :=
  ["changeme"; "changethis"; "changeit"; "test"; "testing"; "dev"; "development"; "default"; "example"; "sample";
   "placeholder"; "controller"; "myacs"; "acs"; "uspc"].

Record serviceConfig : Type := mkServiceConfig {
  sc_DeploymentProfile : string;
  sc_ControllerID : string;
  sc_WSAddr : string;
  sc_WSPath : string;
  sc_MQTTAddr : string;
  sc_MQTTControllerTopic : string;
  sc_TLSCert : string;
  sc_TLSKey : string;
  sc_AllowPlaintext : bool;
  sc_TLSClientCA : string;
  sc_HTTPAddr : string;
  sc_PostgresDSN : string;
  sc_AllowedCIDRs : list IPNet
}.

(** [^[A-Za-z0-9._-]+$] *)
Definition controllerIDPattern (id : string) : bool :=
  negb (String.eqb id "") && forall_bytes (λ c, is_alnum c || byte_in c "._-") id.

Fixpoint drop_id_separators (s : string) : string :=
  match s with
  | EmptyString => EmptyString
  | String c r => if byte_in c "-_." then drop_id_separators r else String c (drop_id_separators r)
  end.

Definition isPlaceholderControllerID (id : string) : bool :=
  existsb (String.eqb (drop_id_separators (ToLower id))) placeholderControllerIDs.

Definition validateControllerID (id : string) : option string :=
  if String.eqb id "" then Some "ACS_USP_CONTROLLER_ID is required"
  else if (String.length id <? minControllerIDBytes)%nat then Some "ACS_USP_CONTROLLER_ID is too short"
  else if negb (controllerIDPattern id) then Some "ACS_USP_CONTROLLER_ID does not match the pattern"
  else if isPlaceholderControllerID id then Some "ACS_USP_CONTROLLER_ID is set to a placeholder value"
  else None.

(** The entries of the list, and the networks they are. *)
Definition cidr_entries (s : string) : list string := List.filter (λ p, negb (String.eqb p "")) (Split s ",").

Definition mask_ones (entry : string) : option Z :=
  match Cut entry "/" with Some (_, mask) => digits_value 0 mask | None => None end.

(** [ones == 0 && (bits == 32 || bits == 128)]: a mask has one of the two sizes. *)
Definition isUniversalCIDR (entry : string) : bool :=
  match mask_ones entry with Some n => n =? 0 | None => false end.

Definition envOrDefault (getenv : string → string) (key fallback : string) : string :=
  if String.eqb (getenv key) "" then fallback else getenv key.

Definition problem (b : bool) (text : string) : list string := if b then [text] else [].

Definition deployment_profile (getenv : string → string) : string :=
  let p := ToLower (TrimSpace (getenv "ACS_DEPLOYMENT_PROFILE")) in
  if String.eqb p "" then deploymentProfileLab else p.

Definition problems_of (getenv : string → string) : list string :=
  let profile := deployment_profile getenv in
  let production := String.eqb profile deploymentProfileProduction in
  let tlsCert := getenv "ACS_USP_TLS_CERT" in
  let tlsKey := getenv "ACS_USP_TLS_KEY" in
  let clientCA := getenv "ACS_USP_CLIENT_CA_CERT" in
  let allowPlaintext := String.eqb (getenv "ACS_USP_ALLOW_PLAINTEXT") "true" in
  let cidrs := ParseCIDRList (getenv "ACS_USP_ALLOWED_CIDRS") in
  problem (negb (String.eqb profile deploymentProfileLab) && negb production) "ACS_DEPLOYMENT_PROFILE must be lab or production"
  ++ match validateControllerID (getenv "ACS_USP_CONTROLLER_ID") with Some e => [e] | None => [] end
  ++ problem (negb (Bool.eqb (String.eqb tlsCert "") (String.eqb tlsKey "")))
       "ACS_USP_TLS_CERT and ACS_USP_TLS_KEY must both be set or both be empty"
  ++ problem (negb (String.eqb clientCA "") && (String.eqb tlsCert "" || String.eqb tlsKey ""))
       "ACS_USP_CLIENT_CA_CERT requires ACS_USP_TLS_CERT and ACS_USP_TLS_KEY"
  ++ problem (String.eqb tlsCert "" && String.eqb tlsKey "" && negb allowPlaintext)
       "no TLS certificate is configured and ACS_USP_ALLOW_PLAINTEXT is not true"
  ++ problem (production && allowPlaintext) "ACS_USP_ALLOW_PLAINTEXT=true is forbidden in production"
  ++ problem (production && (String.eqb tlsCert "" || String.eqb tlsKey ""))
       "production requires ACS_USP_TLS_CERT and ACS_USP_TLS_KEY"
  ++ problem (production && String.eqb clientCA "") "production requires ACS_USP_CLIENT_CA_CERT"
  ++ problem (String.eqb (getenv "ACS_USP_POSTGRES_DSN") "") "ACS_USP_POSTGRES_DSN is required"
  ++ match cidrs with Err e => [("ACS_USP_ALLOWED_CIDRS: " ++ e)%string] | Ok _ => [] end
  ++ problem (production && match cidrs with Ok (_ :: _) => false | _ => true end) "production requires ACS_USP_ALLOWED_CIDRS"
  ++ (if production && is_ok cidrs
      then (λ e, ("ACS_USP_ALLOWED_CIDRS contains universal network " ++ e)%string)
             <$> List.filter isUniversalCIDR (cidr_entries (getenv "ACS_USP_ALLOWED_CIDRS"))
      else []).

Definition loadConfig (getenv : string → string) : list string + serviceConfig :=
  match problems_of getenv with
  | [] =>
      inr (mkServiceConfig (deployment_profile getenv) (FormatEndpointID "self" (getenv "ACS_USP_CONTROLLER_ID"))
             (envOrDefault getenv "ACS_USP_WS_ADDR" ":9877") (envOrDefault getenv "ACS_USP_WS_PATH" "/usp")
             (envOrDefault getenv "ACS_USP_MQTT_ADDR" ":1883")
             (envOrDefault getenv "ACS_USP_MQTT_CONTROLLER_TOPIC" "/usp/controller")
             (getenv "ACS_USP_TLS_CERT") (getenv "ACS_USP_TLS_KEY") (String.eqb (getenv "ACS_USP_ALLOW_PLAINTEXT") "true")
             (getenv "ACS_USP_CLIENT_CA_CERT") (envOrDefault getenv "ACS_USP_HTTP_ADDR" ":8092")
             (getenv "ACS_USP_POSTGRES_DSN")
             (match ParseCIDRList (getenv "ACS_USP_ALLOWED_CIDRS") with Ok l => l | Err _ => [] end))
  | problems => inl problems
  end.

(** ** Properties *)

Lemma problem_nil b text : problem b text = [] → b = false.
Proof. by destruct b. Qed.

Lemma filter_nil {A} (f : A → bool) l x : List.filter f l = [] → x ∈ l → f x = false.
Proof.
  intros Hl Hx. destruct (f x) eqn:E; [|done]. assert (x ∈ List.filter f l) as H by (by apply list_elem_of_In, List.filter_In; rewrite <-list_elem_of_In).
  by rewrite Hl in H; apply elem_of_nil in H.
Qed.

(** A process that starts in the production profile serves TLS only, verifies
    client certificates, restricts the networks it accepts to a list without a
    universal entry, and has a database and a well-formed identity of its own;
    any other environment is refused. *)
Theorem production_config_fails_closed getenv cfg :
  loadConfig getenv = inr cfg →
  (sc_DeploymentProfile cfg = deploymentProfileLab ∨ sc_DeploymentProfile cfg = deploymentProfileProduction) ∧
  validateControllerID (getenv "ACS_USP_CONTROLLER_ID") = None ∧ sc_PostgresDSN cfg ≠ "" ∧
  (sc_TLSCert cfg = "" ↔ sc_TLSKey cfg = "") ∧ (sc_TLSCert cfg = "" → sc_AllowPlaintext cfg = true) ∧
  (sc_DeploymentProfile cfg = deploymentProfileProduction →
     sc_TLSCert cfg ≠ "" ∧ sc_TLSKey cfg ≠ "" ∧ sc_TLSClientCA cfg ≠ "" ∧ sc_AllowPlaintext cfg = false ∧
     sc_AllowedCIDRs cfg ≠ [] ∧
     (∀ entry, entry ∈ cidr_entries (getenv "ACS_USP_ALLOWED_CIDRS") → isUniversalCIDR entry = false)).
Proof.
  unfold loadConfig. destruct (problems_of getenv) eqn:E; [|done]. intros [= <-]. cbn. unfold problems_of in E. cbv zeta in E.
  repeat match goal with
         | H : _ ++ _ = [] |- _ => apply app_eq_nil in H as [? H]
         | H : problem _ _ = [] |- _ => apply problem_nil in H
         end.
  set (profile := deployment_profile getenv) in *. split_and!.
  - destruct (String.eqb profile deploymentProfileLab) eqn:El; [left; by bool_to_prop|].
    destruct (String.eqb profile deploymentProfileProduction) eqn:Ep; [right; by bool_to_prop|done].
  - by destruct (validateControllerID _).
  - by bool_to_prop.
  - destruct (String.eqb (getenv "ACS_USP_TLS_CERT") "") eqn:Ec, (String.eqb (getenv "ACS_USP_TLS_KEY") "") eqn:Ek;
      try done; bool_to_prop; tauto.
  - intros Hc. rewrite Hc in *. cbn in *.
    destruct (String.eqb (getenv "ACS_USP_TLS_KEY") "") eqn:Ek; [|done].
    destruct (String.eqb (getenv "ACS_USP_ALLOW_PLAINTEXT") "true") eqn:Ea; done.
  - intros Hp. rewrite Hp in *. rewrite String.eqb_refl in *. cbn [andb] in *.
    destruct (String.eqb (getenv "ACS_USP_TLS_CERT") "") eqn:Ec; [done|].
    destruct (String.eqb (getenv "ACS_USP_TLS_KEY") "") eqn:Ek; [done|]. bool_to_prop.
    destruct (ParseCIDRList (getenv "ACS_USP_ALLOWED_CIDRS")) as [[|n l]|]; [done| |done]. cbn [is_ok] in *.
    split_and!; [done|done|done|by apply String.eqb_neq|done|]. intros entry. apply filter_nil. by apply fmap_nil_inv in E.
Qed.

Definition w_production (key : string) : string :=
  match List.find (λ kv : string * string, String.eqb kv.1 key)
          [("ACS_DEPLOYMENT_PROFILE", " Production"); ("ACS_USP_CONTROLLER_ID", "acs-eu-01"); ("ACS_USP_TLS_CERT", "/c.pem");
           ("ACS_USP_TLS_KEY", "/k.pem"); ("ACS_USP_CLIENT_CA_CERT", "/ca.pem"); ("ACS_USP_POSTGRES_DSN", "postgres://");
           ("ACS_USP_ALLOWED_CIDRS", "10.0.0.0/8,2001:db8::/32")] with
  | Some kv => kv.2
  | None => ""
  end.

Lemma production_config_fails_closed_witness :
  ∃ cfg, loadConfig w_production = inr cfg ∧ sc_TLSClientCA cfg ≠ "" ∧ sc_AllowPlaintext cfg = false.
Proof.
  destruct (loadConfig w_production) as [|cfg] eqn:E; [by vm_compute in E|]. exists cfg. split; [done|].
  destruct (production_config_fails_closed w_production cfg E) as (_ & _ & _ & _ & _ & Hp).
  destruct Hp as (_ & _ & Hca & Hpt & _); [|done]. vm_compute in E. by injection E as <-.
Defined.

(** A network written in its IPv4-mapped form is not recognised as universal,
    though it contains every IPv4 address. *)
Lemma mapped_network_passes_as_restricted :
  isUniversalCIDR "::ffff:0.0.0.0/96" = false ∧
  ∃ n, ParseCIDR "::ffff:0.0.0.0/96" = Some n ∧ ∀ v, 0 <= v < 2 ^ 32 → net_contains n (of_v4 v) = true.
Proof.
  split; [by vm_compute|]. eexists. split; [by vm_compute|]. intros v Hv. unfold net_contains, is_v4, of_v4. cbn [net_base net_bits].
  change (128 - 96) with 32.
  assert (Z.shiftr (Z.shiftl v4_prefix 32 + v) 32 = v4_prefix) as ->; [|by vm_compute].
  rewrite Z.shiftr_div_pow2, Z.shiftl_mul_pow2 by lia. rewrite Z.add_comm, Z.div_add by lia. by rewrite Z.div_small.
Qed.
