(* ===== verification/UspHandler.v ===== *)
(** * The USP controller ([cmd/uspc/handler.go], [identity.go], [probe.go],
    [internal/devices/events.go])

    The handler ties the parts together: a connection enters the registry and is
    probed, an OnBoardRequest or the answer to the probe links it to a device, and
    from then on its notifications and answers act for that device.

    [Handler] is the whole state of the process and the tables it writes: the
    dispatcher (with the database), the links of agents, the registry, the
    identity of each connection, the outstanding probes, the reconciler's maps,
    the events and the connections told to close.  The dispatcher's outbox serves
    every part.  The settings of a run are the arguments: the principals (absent
    in the lab profile), the catalogues and the desired subscriptions, which other
    processes write. *)

From S2P Require Import Prelude GoStrings Json Cwmp JobModel JobStore Devices ParamCache Adapters Onboarding Sessions Render.
From S2P Require Import Gateway Inform Usp UspConn UspRequest UspDispatch Subscriptions UspMtp.

#[global] Instance Conn_countable : Countable Conn.
Proof.
  refine (inj_countable' (λ c, (c_id c, c_endpoint c, bool_decide (c_kind c = KindMQTT)))
    (λ x, mkConn x.1.1 x.1.2 (if x.2 then KindMQTT else KindWebSocket)) _).
  by intros [i e []].
Defined.

(** [connIdentity] *)
Record connIdentity : Type := mkConnIdentity { ci_deviceID : string; ci_reconciled : bool; ci_naturalKey : string }.

(** ** Events ([device_events], unique by device and message) *)

Record DeviceEvent : Type := mkDeviceEvent {
  de_ObjPath : string;
  de_EventName : string;
  de_Params : gmap string string;
  de_RecordedAt : GoTime
}.

Abbreviation Events := (gmap (string * string) DeviceEvent).

Definition RecordEvent (now : GoTime) (devices : Devices) (dev msgID objPath eventName : string)
    (params : gmap string string) (tab : Events) : result Events :=
  if negb (is_some (devices !! dev)) then Err "record device event"
  else Ok (match tab !! (dev, msgID) with
           | Some _ => tab
           | None => <[(dev, msgID) := mkDeviceEvent objPath eventName params now]> tab
           end).

(** ** The state *)

Record Handler : Type := mkHandler {
  h_disp : Dispatcher;
  h_agents : Agents;
  h_registry : Registry;
  h_identities : gmap Conn connIdentity;
  h_probes : gmap string Conn;
  h_subPending : gmap string pendingSubscribe;
  h_inFlight : gmap string Conn;
  h_events : Events;
  h_closed : list Conn
}.

Definition h_gate (h : Handler) : Gateway := d_gate (h_disp h).

Definition set_disp (d : Dispatcher) (h : Handler) : Handler :=
  mkHandler d (h_agents h) (h_registry h) (h_identities h) (h_probes h) (h_subPending h) (h_inFlight h) (h_events h) (h_closed h).
Definition on_gate (f : Gateway → Gateway) (h : Handler) : Handler := set_disp (set_gate (f (h_gate h)) (h_disp h)) h.
Definition set_agents (a : Agents) (h : Handler) : Handler :=
  mkHandler (h_disp h) a (h_registry h) (h_identities h) (h_probes h) (h_subPending h) (h_inFlight h) (h_events h) (h_closed h).
Definition set_registry (r : Registry) (h : Handler) : Handler :=
  mkHandler (h_disp h) (h_agents h) r (h_identities h) (h_probes h) (h_subPending h) (h_inFlight h) (h_events h) (h_closed h).
Definition set_identities (i : gmap Conn connIdentity) (h : Handler) : Handler :=
  mkHandler (h_disp h) (h_agents h) (h_registry h) i (h_probes h) (h_subPending h) (h_inFlight h) (h_events h) (h_closed h).
Definition set_probes (p : gmap string Conn) (h : Handler) : Handler :=
  mkHandler (h_disp h) (h_agents h) (h_registry h) (h_identities h) p (h_subPending h) (h_inFlight h) (h_events h) (h_closed h).
Definition set_events (e : Events) (h : Handler) : Handler :=
  mkHandler (h_disp h) (h_agents h) (h_registry h) (h_identities h) (h_probes h) (h_subPending h) (h_inFlight h) e (h_closed h).
Definition close (c : Conn) (h : Handler) : Handler :=
  mkHandler (h_disp h) (h_agents h) (h_registry h) (h_identities h) (h_probes h) (h_subPending h) (h_inFlight h) (h_events h)
    (h_closed h ++ [c]).

(** The one outbox. *)
Definition h_outbox (h : Handler) : Outbox := mkOutbox (d_sent (h_disp h)) (d_next (h_disp h)).
Definition set_outbox (o : Outbox) (h : Handler) : Handler :=
  set_disp (mkDispatcher (h_gate h) (d_pending (h_disp h)) (o_sent o) (o_next o)) h.
Definition h_reconciler (h : Handler) : Reconciler := mkReconciler (h_subPending h) (h_inFlight h) (h_outbox h).
Definition set_reconciler (r : Reconciler) (h : Handler) : Handler :=
  let h1 := set_outbox (rc_out r) h in
  mkHandler (h_disp h1) (h_agents h1) (h_registry h1) (h_identities h1) (h_probes h1) (rc_pending r) (rc_inFlight r)
    (h_events h1) (h_closed h1).

(** ** The identity of a connection *)

Definition reconciledDeviceID (c : Conn) (h : Handler) : option string :=
  match h_identities h !! c with
  | Some ci => if ci_reconciled ci then Some (ci_deviceID ci) else None
  | None => None
  end.

Definition isReconciled (c : Conn) (h : Handler) : bool :=
  match h_identities h !! c with Some ci => ci_reconciled ci | None => false end.

Definition markReconciled (c : Conn) (dev : string) (h : Handler) : Handler :=
  set_identities (<[c := mkConnIdentity dev true ""]> (h_identities h)) h.

Definition setNaturalKey (c : Conn) (key : string) (h : Handler) : Handler :=
  set_identities (alter (λ ci, mkConnIdentity (ci_deviceID ci) (ci_reconciled ci) key) c (h_identities h)) h.

Definition forgetIdentity (c : Conn) (h : Handler) : Handler := set_identities (delete c (h_identities h)) h.

(** ** [identity.go] *)

Definition splitProtocolVersions (s : string) : list string :=
  if String.eqb s "" then []
  else List.filter (λ v, negb (String.eqb v "")) (TrimSpace <$> Split s ",").

(** ** [deviceInfoFromGetResp] *)

Record DeviceInfo : Type := mkDeviceInfo { di_oui : option string; di_class : option string; di_serial : option string }.

Definition device_info_param (acc : DeviceInfo) (full value : string) : DeviceInfo :=
  if String.eqb full "Device.DeviceInfo.ManufacturerOUI" then mkDeviceInfo (Some value) (di_class acc) (di_serial acc)
  else if String.eqb full "Device.DeviceInfo.ProductClass" then mkDeviceInfo (di_oui acc) (Some value) (di_serial acc)
  else if String.eqb full "Device.DeviceInfo.SerialNumber" then mkDeviceInfo (di_oui acc) (di_class acc) (Some value)
  else acc.

Section Controller.
Context `{W : ProtoWire} (controllerID : string) (is_uuid : string → bool).
Context (principals : option Principals) (catalogs : list Catalog) (subs : SubTable) (ue : UspEnv).

Definition h_env : Env := ue_env ue.
Definition h_now : GoTime := e_now h_env.

Definition deviceInfoFromGetResp (m : Msg) : option (string * string * string) :=
  match GetResponse m with
  | Response_GetResp results =>
      let info := foldl (λ acc (r : ResolvedPathResult),
          foldl (λ acc (kv : string * string), device_info_param acc (rp_ResolvedPath r ++ kv.1)%string kv.2) acc
            (e_range h_env string (rp_ResultParams r)))
        (mkDeviceInfo None None None) (flat_map rq_Resolved results) in
      match di_oui info, di_class info, di_serial info with
      | Some oui, Some class, Some serial => Some (oui, class, serial)
      | _, _, _ => None
      end
  | _ => None
  end.

(** ** The reconciliation of an identity with a device *)

Definition ErrIdentityMismatch : string := "authenticated USP principal identity mismatch".

Definition validateAuthenticatedIdentity (c : Conn) (oui productClass serial : string) (h : Handler) : result unit :=
  match principals with
  | None => Ok tt
  | Some tab =>
      if String.eqb oui "" || String.eqb serial "" then Err ErrEmptyIdentity
      else
        match ByEndpointID (c_endpoint c) tab with
        | Err e => Err e
        | Ok p =>
            match Get (g_devices (h_gate h)) (pp_DeviceID p) with
            | None => Err "load authenticated USP principal device"
            | Some bound =>
                if negb (String.eqb (d_OUISerial (d_identity bound)) (NaturalKey (mkDeviceID "" oui productClass serial)))
                then Err ErrIdentityMismatch else Ok tt
            end
        end
  end.

(** [onBoard] and [fromProbeFallback], which reports no versions. *)
Definition reconcile_identity (c : Conn) (oui productClass serial : string) (versions : list string) (h : Handler)
    : result unit * Handler :=
  match validateAuthenticatedIdentity c oui productClass serial h with
  | Err e => (Err e, h)
  | Ok _ =>
      match ReconcileFromOnBoard h_now oui productClass serial (g_devices (h_gate h)) with
      | (Err e, devices) => (Err e, on_gate (on_devices (λ _, devices)) h)
      | (Ok device, devices) =>
          let h1 := on_gate (on_devices (λ _, devices)) h in
          match LinkUspAgent h_now (d_ID (d_identity device)) (c_endpoint c) (kind_text (c_kind c)) versions (h_agents h1) with
          | Err e => (Err e, h1)
          | Ok agents => (Ok tt, set_agents agents h1)
          end
      end
  end.

Definition onBoard (c : Conn) (ob : OnBoardRequest) (h : Handler) : result unit * Handler :=
  reconcile_identity c (ob_OUI ob) (ob_ProductClass ob) (ob_SerialNumber ob)
    (splitProtocolVersions (ob_AgentSupportedProtocolVersions ob)) h.

Definition fromProbeFallback (c : Conn) (oui productClass serial : string) (h : Handler) : result unit * Handler :=
  reconcile_identity c oui productClass serial [] h.

Definition disconnect (dev endpoint : string) (h : Handler) : Handler :=
  set_agents (MarkUspAgentDisconnected h_now dev endpoint (h_agents h)) h.

(** ** [probe.go] *)

Definition probeParamPath : string := "Device.DeviceInfo.".

Definition probe_start (c : Conn) (h : Handler) : Handler :=
  let '(msgID, o) := new_msg_id ue (h_outbox h) in
  match EncodeGet msgID [probeParamPath] 1 with
  | Err _ => set_outbox o h
  | Ok payload =>
      match send_record controllerID ue c payload o with
      | (Sent, o') => set_outbox o' (set_probes (<[msgID := c]> (h_probes h)) h)
      | (NotEncoded, o') => set_outbox o' h
      | (NotSent, o') => set_outbox o' (set_probes (delete msgID (h_probes h)) h)
      end
  end.

Definition probe_handle (m : Msg) (h : Handler) : bool * Handler :=
  match m_Header m with
  | None => (false, h)
  | Some hd =>
      match h_probes h !! h_MsgId hd with
      | None => (false, h)
      | Some _ => (true, set_probes (delete (h_MsgId hd) (h_probes h)) h)
      end
  end.

Definition probe_forget (c : Conn) (h : Handler) : Handler :=
  set_probes (filter (λ kv, kv.2 ≠ c) (h_probes h)) h.

(** ** [handler.go] *)

Definition OnConnect (c : Conn) (h : Handler) : Handler :=
  let h1 := set_identities (<[c := mkConnIdentity "" false ""]> (h_identities h)) h in
  let '(replaced, registry) := Add c (h_registry h1) in
  let h2 := set_registry registry h1 in
  probe_start c (match replaced with Some old => close old h2 | None => h2 end).

Definition sendNotifyResp (c : Conn) (subscriptionID : string) (h : Handler) : Handler :=
  let '(msgID, o) := new_msg_id ue (h_outbox h) in
  match EncodeNotifyResp msgID subscriptionID with
  | Err _ => set_outbox o h
  | Ok payload => set_outbox (send_record controllerID ue c payload o).2 h
  end.

Definition answer_if (sendResp : bool) (c : Conn) (subscriptionID : string) (h : Handler) : Handler :=
  if sendResp then sendNotifyResp c subscriptionID h else h.

Definition subscription_reconcile (dev : string) (c : Conn) (h : Handler) : Handler :=
  set_reconciler (reconcile controllerID ue subs dev c (h_reconciler h)) h.

Definition checkSubscriptionID (c : Conn) (dev subscriptionID : string) (h : Handler) : Handler :=
  if existsb (λ s, String.eqb (sub_ID s) subscriptionID) (ByDevice subs dev) then h
  else if reconcileInFlight dev c (h_reconciler h) then h
  else subscription_reconcile dev c h.

(** *** Notifications *)

Definition SourceUSPNotify : string := "USP_NOTIFY_VALUE_CHANGE".

Definition handleValueChange (c : Conn) (vc : ValueChange) (h : Handler) : Handler :=
  match reconciledDeviceID c h with
  | None => h
  | Some dev =>
      let h1 := checkSubscriptionID c dev (vc_SubscriptionID vc) h in
      let h2 := on_gate (upsert_values h_env dev
                  {[ vc_ParamPath vc := mkCached (vc_ParamValue vc) "" h_now SourceUSPNotify ]}) h1 in
      answer_if (vc_SendResp vc) c (vc_SubscriptionID vc) h2
  end.

Definition invalidate (dev objPath : string) (g : Gateway) : Gateway :=
  match InvalidateSubtree dev objPath (g_params g) with Ok p => set_g_params p g | Err _ => g end.

Definition record_event (dev msgID objPath eventName : string) (params : gmap string string) (h : Handler) : Handler :=
  match RecordEvent h_now (g_devices (h_gate h)) dev msgID objPath eventName params (h_events h) with
  | Ok e => set_events e h
  | Err _ => h
  end.

(** An object was created or deleted: its subtree is no longer known. *)
Definition object_changed (dev msgID objPath eventName : string) (params : gmap string string) (h : Handler) : Handler :=
  if String.eqb objPath "" then h
  else record_event dev msgID objPath eventName params (on_gate (invalidate dev objPath) h).

Definition handleObjectCreation (c : Conn) (oc : ObjectCreation) (msgID : string) (h : Handler) : Handler :=
  match reconciledDeviceID c h with
  | None => h
  | Some dev =>
      let h1 := checkSubscriptionID c dev (cr_SubscriptionID oc) h in
      answer_if (cr_SendResp oc) c (cr_SubscriptionID oc)
        (object_changed dev msgID (cr_ObjPath oc) "ObjectCreation" (cr_UniqueKeys oc) h1)
  end.

Definition handleObjectDeletion (c : Conn) (od : ObjectDeletion) (msgID : string) (h : Handler) : Handler :=
  match reconciledDeviceID c h with
  | None => h
  | Some dev =>
      let h1 := checkSubscriptionID c dev (dl_SubscriptionID od) h in
      answer_if (dl_SendResp od) c (dl_SubscriptionID od)
        (object_changed dev msgID (dl_ObjPath od) "ObjectDeletion" ∅ h1)
  end.

Definition handleEvent (c : Conn) (ev : UEvent) (msgID : string) (h : Handler) : Handler :=
  match reconciledDeviceID c h with
  | None => h
  | Some dev =>
      let h1 := checkSubscriptionID c dev (ev_SubscriptionID ev) h in
      answer_if (ev_SendResp ev) c (ev_SubscriptionID ev)
        (record_event dev msgID (ev_ObjPath ev) (ev_EventName ev) (ev_Params ev) h1)
  end.

(** *** A connection that has been linked to its device *)

Definition usp_assignDeviceProfile (device : Device) (g : Gateway) : Gateway :=
  let dev := d_ID (d_identity device) in
  match MatchFirmwareProfile catalogs (d_Manufacturer device) (d_ProductClass (d_identity device))
          (value_of (GetCache (g_params g) dev) "Device.DeviceInfo.SoftwareVersion") with
  | None => on_devices (ClearProfileAssignment h_now dev) g
  | Some m =>
      let cat := pm_Catalog m in
      on_devices (λ t, (AssignProfile h_now dev (ProfileID cat) (matched_by_text (pm_MatchedBy m)) (pm_Qualified m)
        [("manufacturer", d_Manufacturer device); ("product_class", d_ProductClass (d_identity device));
         ("catalog_vendor", cat_Vendor cat); ("catalog_model", cat_Model cat); ("spec_version", cat_SpecVersion cat);
         ("source", "usp_identity")] t).2) g
  end.

Definition queue_discovery (dev : string) (g : Gateway) : Gateway :=
  match GetNames (g_params g) dev with
  | Some (_, false) => g
  | _ => on_jobs (λ j, (QueueDiscoveryIfNeeded (e_fresh h_env 0%nat) h_now dev
                          (coalesced_firmware (cache_of (g_params g) dev)) j).2) g
  end.

Definition name_and_profile (c : Conn) (dev : string) (h : Handler) : Handler :=
  match Get (g_devices (h_gate h)) dev with
  | None => h
  | Some device => on_gate (usp_assignDeviceProfile device) (setNaturalKey c (d_OUISerial (d_identity device)) h)
  end.

Definition dispatch_for (dev : string) (h : Handler) : Handler :=
  set_disp (tryDispatch controllerID (h_agents h) (h_registry h) ue dev (h_disp h)) h.

Definition resolveAndMarkReconciled (c : Conn) (h : Handler) : Handler :=
  match GetUspAgentByEndpointID (h_agents h) (c_endpoint c) with
  | None => h
  | Some (dev, _) =>
      subscription_reconcile dev c
        (dispatch_for dev (name_and_profile c dev (on_gate (queue_discovery dev) (markReconciled c dev h))))
  end.

(** What follows a reconciliation, or its refusal. *)
Definition reconciled (c : Conn) (r : result unit * Handler) (k : Handler → Handler) : Handler :=
  match r with
  | (Ok _, h) => k (resolveAndMarkReconciled c h)
  | (Err e, h) => if String.eqb e ErrUnknownDevice then close c h else h
  end.

Definition handleOnBoardRequest (c : Conn) (ob : OnBoardRequest) (h : Handler) : Handler :=
  reconciled c (onBoard c ob h) (answer_if (ob_SendResp ob) c (ob_SubscriptionID ob)).

Definition handleProbeFallback (c : Conn) (m : Msg) (h : Handler) : Handler :=
  if isReconciled c h then h
  else match deviceInfoFromGetResp m with
       | None => h
       | Some (oui, class, serial) => reconciled c (fromProbeFallback c oui class serial h) (λ h, h)
       end.

Definition controller_operation_complete (c : Conn) (oc : OperationComplete) (h : Handler) : Handler :=
  let h1 := set_disp (handleOperationComplete controllerID (h_agents h) (h_registry h) ue
                        (default "" (reconciledDeviceID c h)) oc (h_disp h)) h in
  answer_if (oc_SendResp oc) c (oc_SubscriptionID oc) h1.

(** *** Records *)

Definition handle_answer (c : Conn) (from : string) (m : Msg) (h : Handler) : Handler :=
  match probe_handle m h with
  | (true, h1) => handleProbeFallback c m h1
  | (false, _) =>
      match handleResponse controllerID (h_agents h) (h_registry h) ue from m (h_disp h) with
      | (true, d) => set_disp d h
      | (false, _) => set_reconciler (subs_handleResponse controllerID is_uuid ue m (h_reconciler h)).2 h
      end
  end.

Definition handle_message (c : Conn) (from : string) (m : Msg) (h : Handler) : Handler :=
  match DecodeOnBoardRequest m with
  | Some ob => handleOnBoardRequest c ob h
  | None =>
      match DecodeOperationComplete m with
      | Some oc => controller_operation_complete c oc h
      | None =>
          match DecodeValueChange m with
          | Some vc => handleValueChange c vc h
          | None =>
              match DecodeObjectCreation m with
              | Some oc => handleObjectCreation c oc (GetMsgId m) h
              | None =>
                  match DecodeObjectDeletion m with
                  | Some od => handleObjectDeletion c od (GetMsgId m) h
                  | None =>
                      match DecodeEvent m with
                      | Some ev => handleEvent c ev (GetMsgId m) h
                      | None => handle_answer c from m h
                      end
                  end
              end
          end
      end
  end.

Definition OnRecord (c : Conn) (record : string) (h : Handler) : Handler :=
  match DecodeRecord record controllerID with
  | (Some rec, None) =>
      match DecodeMsg (dr_Payload rec) with
      | Some m => handle_message c (dr_From rec) m h
      | None => h
      end
  | (_, Some ErrNoPayload) | (_, Some ErrSessionContextUnsupported) | (None, None) => h
  | (_, Some _) => match c_kind c with KindWebSocket => close c h | KindMQTT => h end
  end.

Definition OnDisconnect (c : Conn) (h : Handler) : Handler :=
  let '(removed, registry) := Remove c (h_registry h) in
  let h1 := probe_forget c (set_registry registry h) in
  let h2 := set_disp (forget c (h_disp h1)) h1 in
  let h3 := set_reconciler (subs_forget c (h_reconciler h2)) h2 in
  forgetIdentity c
    (if removed then match reconciledDeviceID c h3 with
                     | Some dev => disconnect dev (c_endpoint c) h3
                     | None => h3
                     end
     else h3).

Definition sweep_connections (h : Handler) : Handler :=
  set_disp (sweepOnce controllerID (h_agents h) (h_registry h) ue (h_disp h)) h.

(** The calls of a transport. *)
Definition run_call (call : Call) (h : Handler) : Handler :=
  match call with
  | CallConnect c => OnConnect c h
  | CallRecord c record => OnRecord c record h
  | CallDisconnect c => OnDisconnect c h
  end.
End Controller.
