(* ===== verification/UspHandlerTheorems.v ===== *)
(** * Correctness of the USP controller *)

From S2P Require Import Prelude GoStrings Json Cwmp JobModel JobStore JobLaws Discovery Devices Credentials ParamCache.
From S2P Require Import ParamTheorems Adapters Onboarding OnboardingLaws Sessions Render Gateway GatewayLaws GatewayTheorems Inform.
From S2P Require Import InformLaws Usp UspConn UspRequest UspDispatch UspLaws UspDispatchTheorems Subscriptions SubscriptionTheorems UspMtp.
From S2P Require Import UspHandler.

(** ** What a call of the controller may change

    [touches c dev h h']: the step acts for the device [dev] on behalf of the
    connection [c]: it runs statements of the repositories on the rows of [dev]
    only, keeps settled jobs, does not put a second request of [dev] in flight,
    and leaves the links, events and identities of the others alone. *)

(** Events are only ever added. *)
Definition events_for (dev : string) (t t' : Events) : Prop :=
  (∀ k e, t !! k = Some e → t' !! k = Some e) ∧ (∀ k, k.1 ≠ dev → t' !! k = t !! k).

#[global] Instance events_for_preorder dev : PreOrder (events_for dev).
Proof.
  split; [by split|]. intros a b c [A1 B1] [A2 B2]. split; [eauto|]. intros k Hk. by rewrite B2, B1.
Qed.

Lemma h_reconciler_set r h : h_reconciler (set_reconciler r h) = r.
Proof. by destruct r as [? ? []]. Qed.

Section Touches.
Context (hash : json → string) (c : Conn) (dev : string).

Record touches (h h' : Handler) : Prop := mk_touches {
  to_acts : acts_for hash dev (h_gate h) (h_gate h');
  to_single : single_flight dev (g_jobs (h_gate h)) → single_flight dev (g_jobs (h_gate h'));
  to_settled : settled_kept (g_jobs (h_gate h)) (g_jobs (h_gate h'));
  to_pending : ∀ id e, d_pending (h_disp h') !! id = Some e →
    d_pending (h_disp h) !! id = Some e ∨
    DeviceID (pj_job e) = dev ∧ owned dev (g_jobs (h_gate h')) (pj_job e) ∧ ∃ k, h_registry h !! k = Some (pj_conn e);
  to_next : (d_next (h_disp h) ≤ d_next (h_disp h'))%nat;
  to_agents : ∀ d, d ≠ dev → h_agents h' !! d = h_agents h !! d;
  to_agents_ok : agents_ok (h_agents h) → agents_ok (h_agents h');
  to_events : events_for dev (h_events h) (h_events h');
  to_identities : ∀ c', c' ≠ c → h_identities h' !! c' = h_identities h !! c';
  to_registry : h_registry h' = h_registry h
}.

#[global] Instance touches_preorder : PreOrder touches.
Proof.
  split; [intros h; by constructor; auto|].
  intros a b d [A1 S1 Q1 P1 N1 G1 K1 E1 I1 R1] [A2 S2 Q2 P2 N2 G2 K2 E2 I2 R2].
  constructor; [by etrans|auto|by etrans| |lia| |auto|by etrans| |by rewrite R2].
  - intros id e [H|H]%P2; [|right; by rewrite <-R1]. apply P1 in H as [H|(Hd & Ho & Hr)]; [by left|right].
    split_and!; [done| |done]. eapply owned_kept; [exact (af_jobs _ _ _ _ A2)|done].
  - intros k Hk. by rewrite G2, G1.
  - intros c' Hc. by rewrite I2, I1.
Qed.

Lemma touches_ok h h' : touches h h' → gateway_ok (h_gate h) → gateway_ok (h_gate h').
Proof. intros [Ha _ _ _ _ _ _ _ _ _]. exact (acts_for_ok _ _ _ _ Ha). Qed.

(** *** The parts of a step *)

Lemma touches_gate f h :
  acts_for hash dev (h_gate h) (f (h_gate h)) → quiet dev (g_jobs (h_gate h)) (g_jobs (f (h_gate h))) →
  touches h (on_gate f h).
Proof. intros Ha Hq. constructor; try done; [by apply quiet_single|apply Hq|by left]. Qed.

Lemma touches_disp agents d h :
  usp_step hash agents (h_registry h) dev (h_disp h) d → touches h (set_disp d h).
Proof.
  intros [A S Q P _ N]. constructor; try done; [by apply S|].
  intros id e [H|(? & ? & (a & _ & ?))]%P; [by left|right]. eauto.
Qed.

Lemma touches_outbox o h : (o_next (h_outbox h) ≤ o_next o)%nat → touches h (set_outbox o h).
Proof. constructor; try done. by left. Qed.

Lemma touches_reconciler r h : (o_next (h_outbox h) ≤ o_next (rc_out r))%nat → touches h (set_reconciler r h).
Proof. constructor; try done. by left. Qed.

Lemma touches_probes p h : touches h (set_probes p h).
Proof. constructor; try done. by left. Qed.

Lemma touches_close c' h : touches h (close c' h).
Proof. constructor; try done. by left. Qed.

Lemma touches_identity i h :
  (∀ c', c' ≠ c → i !! c' = h_identities h !! c') → touches h (set_identities i h).
Proof. intros Hi. constructor; try done. by left. Qed.

Lemma touches_agents a h :
  (agents_ok (h_agents h) → agents_ok a) → (∀ d, d ≠ dev → a !! d = h_agents h !! d) → touches h (set_agents a h).
Proof. intros Hok Ha. constructor; try done. by left. Qed.

Lemma touches_events e h : events_for dev (h_events h) e → touches h (set_events e h).
Proof. intros He. constructor; try done. by left. Qed.
End Touches.

(** *** The operations *)

Section Operations.
Context `{W : ProtoWire} (hash : json → string) (controllerID : string) (is_uuid : string → bool).
Context (principals : option Principals) (catalogs : list Catalog) (subs : SubTable) (ue : UspEnv).
Context (c : Conn) (dev : string).

Abbreviation touch := (touches hash c dev).

Lemma touch_notify_resp id h : touch h (sendNotifyResp controllerID ue c id h).
Proof.
  unfold sendNotifyResp. cbn. destruct (EncodeNotifyResp _ _); apply touches_outbox; [rewrite send_record_next|]; cbn; lia.
Qed.

Lemma touch_answer b id h : touch h (answer_if controllerID ue b c id h).
Proof. unfold answer_if. destruct b; [apply touch_notify_resp|done]. Qed.

Lemma touch_check_subscription d id h : touch h (checkSubscriptionID controllerID subs ue c d id h).
Proof. unfold checkSubscriptionID. repeat case_match; try done. apply touches_reconciler, (reconcile_next _ _ _ _ _ (h_reconciler h)). Qed.

Lemma quiet_upsert env values g : quiet dev (g_jobs g) (g_jobs (upsert_values env dev values g)).
Proof.
  unfold upsert_values. destruct (Upsert _ _ _ _ _ _ _ _) as [[[p d] j]|] eqn:E; [|done].
  by eapply quiet_Upsert.
Qed.

Lemma touch_value env values h : touch h (on_gate (upsert_values env dev values) h).
Proof. apply touches_gate; [apply acts_upsert|apply quiet_upsert]. Qed.

Lemma touch_invalidate path h : touch h (on_gate (invalidate dev path) h).
Proof.
  apply touches_gate; unfold invalidate; destruct (InvalidateSubtree _ _ _) as [p|] eqn:E; try done.
  apply acts_params. unfold InvalidateSubtree in E. destruct (String.eqb _ _); [done|].
  destruct (p_cache _ !! dev); injection E as <-; [|done].
  constructor; try done. intros k Hk. cbn. by rewrite lookup_insert_ne.
Qed.

Lemma touch_record_event msgID path name params h : touch h (record_event ue dev msgID path name params h).
Proof.
  unfold record_event, RecordEvent. destruct (negb _); [done|]. apply touches_events.
  destruct (h_events h !! (dev, msgID)) eqn:E; [done|]. split.
  - intros k e He. rewrite lookup_insert_ne; [done|]. congruence.
  - intros k Hk. rewrite lookup_insert_ne; [done|]. by intros <-.
Qed.

Lemma touch_object_changed msgID path name params h : touch h (object_changed ue dev msgID path name params h).
Proof.
  unfold object_changed. destruct (String.eqb _ _); [done|].
  etrans; [apply touch_invalidate|apply touch_record_event].
Qed.

Lemma touch_dispatch h : gateway_ok (h_gate h) → touch h (dispatch_for controllerID ue dev h).
Proof. intros Hg. eapply touches_disp. by apply step_tryDispatch. Qed.

Lemma touch_queue_discovery h : touch h (on_gate (queue_discovery ue dev) h).
Proof.
  assert (∀ g fw, acts_for hash dev g
    (on_jobs (λ j, (QueueDiscoveryIfNeeded (e_fresh (h_env ue) 0%nat) (h_now ue) dev fw j).2) g)) as Ha.
  { intros. apply acts_job. intros. apply jobs_for_queue_discovery. }
  apply touches_gate; unfold queue_discovery; destruct (GetNames _ _) as [[? []]|]; try done; apply quiet_queue_discovery.
Qed.

Lemma acts_usp_profile device g :
  d_ID (d_identity device) = dev → acts_for hash dev g (usp_assignDeviceProfile catalogs ue device g).
Proof.
  intros Hd. unfold usp_assignDeviceProfile. rewrite Hd. cbv zeta.
  destruct (MatchFirmwareProfile _ _ _ _); [apply acts_devices, devices_for_AssignProfile|by apply acts_on_device].
Qed.

Lemma touch_profile h :
  gateway_ok (h_gate h) → touch h (name_and_profile catalogs ue c dev h).
Proof.
  intros Hg. unfold name_and_profile. destruct (Get _ _) as [device|] eqn:Ed; [|done].
  pose proof (dev_keyed _ (go_devices _ Hg) _ _ Ed) as Hd. etrans.
  - apply touches_identity. intros c' Hc. by apply lookup_alter_ne.
  - apply touches_gate; [by apply acts_usp_profile|]. unfold usp_assignDeviceProfile. by destruct (MatchFirmwareProfile _ _ _ _).
Qed.

Lemma touch_mark h : touch h (markReconciled c dev h).
Proof. apply touches_identity. intros c' Hc. by apply lookup_insert_ne. Qed.

(** Everything that follows the link of a connection to its device. *)
Lemma touch_resolve h :
  gateway_ok (h_gate h) → (∃ a, GetUspAgentByEndpointID (h_agents h) (c_endpoint c) = Some (dev, a)) →
  touch h (resolveAndMarkReconciled controllerID catalogs subs ue c h).
Proof.
  intros Hg (a & Ha). unfold resolveAndMarkReconciled. rewrite Ha.
  set (h1 := markReconciled c dev h). assert (touch h h1) as T1 by apply touch_mark.
  set (h2 := on_gate _ h1). assert (touch h h2) as T2 by (etrans; [exact T1|apply touch_queue_discovery]).
  set (h3 := name_and_profile _ _ _ _ h2).
  assert (touch h h3) as T3 by (etrans; [exact T2|apply touch_profile; by eapply touches_ok]).
  set (h4 := dispatch_for _ _ _ h3).
  assert (touch h h4) as T4 by (etrans; [exact T3|apply touch_dispatch; by eapply touches_ok]).
  etrans; [exact T4|]. apply touches_reconciler, (reconcile_next _ _ _ _ _ (h_reconciler h4)).
Qed.

(** *** The reconciliation of an identity *)

(** The device the identity names may be claimed by the connection. *)
Definition claims_device (oui productClass serial : string) (h : Handler) : Prop :=
  validateAuthenticatedIdentity principals c oui productClass serial h = Ok tt ∧
  ∃ d, GetByOUIserial (g_devices (h_gate h)) (NaturalKey (mkDeviceID "" oui productClass serial)) = Some d ∧
       d_ID (d_identity d) = dev.

Lemma touch_onboard oui pc sn h device devices :
  gateway_ok (h_gate h) → ReconcileFromOnBoard (h_now ue) oui pc sn (g_devices (h_gate h)) = (Ok device, devices) →
  d_ID (d_identity device) = dev → touch h (on_gate (on_devices (λ _, devices)) h).
Proof.
  intros Hg Hr Hd. apply touches_gate; [|done]. apply acts_devices.
  unfold ReconcileFromOnBoard in Hr. destruct (_ || _); [done|].
  destruct (GetByOUIserial _ _) as [d|] eqn:Eg; [|done]. injection Hr as <- <-. cbn in Hd.
  apply GetByOUIserial_some in Eg as [[k Hk] _]. pose proof (dev_keyed _ (go_devices _ Hg) _ _ Hk) as Hkey. subst k.
  rewrite Hd in *. split.
  - intros k Hne. by rewrite lookup_insert_ne.
  - intros k. rewrite lookup_insert. case_decide; [|done]. subst. by rewrite Hk.
Qed.
End Operations.

(** What became of the identity, in terms of the device it names. *)
Lemma reconcile_identity_spec `{W : ProtoWire} hash principals ue c oui pc sn versions h :
  gateway_ok (h_gate h) → agents_ok (h_agents h) →
  match reconcile_identity principals ue c oui pc sn versions h with
  | (Err e, h') => h' = h ∨ ∃ dev, claims_device principals c dev oui pc sn h ∧ touches hash c dev h h' ∧ e = ErrEndpointIDInUse
  | (Ok _, h') => ∃ dev a, claims_device principals c dev oui pc sn h ∧ touches hash c dev h h' ∧
      h_agents h' !! dev = Some a ∧ ua_EndpointID a = c_endpoint c ∧ ua_Connected a = true ∧
      GetUspAgentByEndpointID (h_agents h') (c_endpoint c) = Some (dev, a)
  end.
Proof.
  intros Hg Hok. unfold reconcile_identity. destruct (validateAuthenticatedIdentity _ _ _ _ _ _) as [[]|] eqn:Ev; [|by left].
  destruct (ReconcileFromOnBoard _ _ _ _ _) as [[device|e] devices] eqn:Er.
  - set (dev := d_ID (d_identity device)).
    assert (claims_device principals c dev oui pc sn h) as Hc.
    { split; [done|]. unfold ReconcileFromOnBoard in Er. destruct (_ || _); [done|].
      destruct (GetByOUIserial _ _) as [d|]; [|done]. injection Er as <- _. by exists d. }
    assert (touches hash c dev h (on_gate (on_devices (λ _, devices)) h)) as Ht by (by eapply touch_onboard).
    cbn [h_agents set_disp on_gate].
    destruct (LinkUspAgent _ _ _ _ _ _) as [agents|e] eqn:El.
    + destruct (LinkUspAgent_spec _ _ _ _ _ _ _ El) as ((a & Ha & He & Hcon) & Hoth).
      exists dev, a. split_and!; try done.
      * etrans; [exact Ht|]. apply touches_agents; [|done]. cbn. eauto using LinkUspAgent_ok.
      * cbn. rewrite <- He. apply GetUspAgentByEndpointID_linked; [|done]. eauto using LinkUspAgent_ok.
    + right. exists dev. split_and!; [done|done|]. unfold LinkUspAgent in El. destruct (endpoint_taken _ _ _); congruence.
  - left. unfold ReconcileFromOnBoard in Er. destruct (_ || _); [by injection Er as _ <-; destruct h as [[[[]]] ? ? ? ? ? ? ? ?]|].
    destruct (GetByOUIserial _ _); [done|]. by injection Er as _ <-; destruct h as [[[[]]] ? ? ? ? ? ? ? ?].
Qed.

(** ** The invariant *)

Record handler_ok (h : Handler) : Prop := mk_handler_ok {
  ho_disp : dispatcher_ok (h_disp h);
  ho_agents : agents_ok (h_agents h);
  ho_registry : registry_ok (h_registry h)
}.

Lemma touches_handler_ok hash c dev h h' : touches hash c dev h h' → handler_ok h → handler_ok h'.
Proof.
  intros T [[Hg Hp] Ha Hr]. constructor.
  - constructor; [by eapply touches_ok|]. intros id e [He|(Hd & Ho & _)]%(to_pending _ _ _ _ _ T).
    + eapply owned_kept_any; [exact (af_jobs _ _ _ _ (to_acts _ _ _ _ _ T))|by eapply Hp].
    + by rewrite Hd.
  - by apply (to_agents_ok _ _ _ _ _ T).
  - by rewrite (to_registry _ _ _ _ _ T).
Qed.

Section Theorems.
Context `{W : ProtoWire} (hash : json → string) (controllerID : string) (is_uuid : string → bool).
Context (principals : option Principals) (catalogs : list Catalog) (subs : SubTable) (ue : UspEnv).

Abbreviation record_in := (OnRecord controllerID is_uuid principals catalogs subs ue).
Abbreviation message_in := (handle_message controllerID is_uuid principals catalogs subs ue).
Abbreviation disconnected := (OnDisconnect ue).
Abbreviation connected := (OnConnect controllerID ue).

(** ** What a message may do *)

(** The message an inbound record carries, and who the record says it is from. *)
Definition carries (record : string) (from : string) (m : Msg) : Prop :=
  ∃ rec, DecodeRecord record controllerID = (Some rec, None) ∧ dr_From rec = from ∧ DecodeMsg (dr_Payload rec) = Some m.

(** An identity the message reports: an OnBoardRequest, or the answer to a probe
    on a connection without one. *)
Inductive reports_identity (c : Conn) (m : Msg) (h : Handler) : string → string → string → Prop :=
| reports_onboard ob : DecodeOnBoardRequest m = Some ob →
    reports_identity c m h (ob_OUI ob) (ob_ProductClass ob) (ob_SerialNumber ob)
| reports_probe hd oui pc sn : m_Header m = Some hd → is_Some (h_probes h !! h_MsgId hd) → isReconciled c h = false →
    deviceInfoFromGetResp ue m = Some (oui, pc, sn) → reports_identity c m h oui pc sn.

(** Nothing of the database, the links, the identities or the outstanding jobs
    changed. *)
Record unmoved (h h' : Handler) : Prop := mk_unmoved {
  um_gate : h_gate h' = h_gate h;
  um_pending : d_pending (h_disp h') = d_pending (h_disp h);
  um_agents : h_agents h' = h_agents h;
  um_identities : h_identities h' = h_identities h;
  um_events : h_events h' = h_events h;
  um_registry : h_registry h' = h_registry h
}.

Inductive outcome (c : Conn) (from : string) (m : Msg) (h h' : Handler) : Prop :=
| outcome_none : unmoved h h' → outcome c from m h h'
| outcome_own dev : reconciledDeviceID c h = Some dev → touches hash c dev h h' →
    h_agents h' = h_agents h → h_identities h' = h_identities h → outcome c from m h h'
| outcome_answer e : answers from m (h_disp h) e → touches hash c (DeviceID (pj_job e)) h h' →
    h_agents h' = h_agents h → h_identities h' = h_identities h → outcome c from m h h'
| outcome_identity dev oui pc sn : reports_identity c m h oui pc sn →
    claims_device principals c dev oui pc sn h → touches hash c dev h h' →
    reconciledDeviceID c h' = Some dev ∨ h_identities h' = h_identities h ∧ h_agents h' = h_agents h →
    outcome c from m h h'.

Lemma unmoved_ok h h' : unmoved h h' → handler_ok h → handler_ok h'.
Proof.
  intros [Eg Ep Ea Ei Ee Er] [[Hg Hp] Ha Hr]. constructor; [constructor|by rewrite Ea|by rewrite Er].
  - unfold h_gate in Eg. by rewrite Eg.
  - unfold h_gate in Eg. rewrite Eg, Ep. done.
Qed.

Lemma record_outcome_ok c from m h h' : outcome c from m h h' → handler_ok h → handler_ok h'.
Proof. intros [? | ? ? ? ? ? | ? ? ? ? ? | ? ? ? ? ? ? ? ?]; [by apply unmoved_ok| | |]; by eapply touches_handler_ok. Qed.

(** *** The links and identities most operations keep *)

Definition keeps_links (h h' : Handler) : Prop := h_agents h' = h_agents h ∧ h_identities h' = h_identities h.

Lemma keeps_answer b c id h : keeps_links h (answer_if controllerID ue b c id h).
Proof. unfold answer_if, sendNotifyResp. destruct b; [|done]. cbn. by destruct (EncodeNotifyResp _ _). Qed.

Lemma keeps_check c d id h : keeps_links h (checkSubscriptionID controllerID subs ue c d id h).
Proof. unfold checkSubscriptionID. repeat case_match; done. Qed.

Lemma keeps_event d id p n ps h : keeps_links h (record_event ue d id p n ps h).
Proof. unfold record_event. by destruct (RecordEvent _ _ _ _ _ _ _ _). Qed.

Lemma keeps_object d id p n ps h : keeps_links h (object_changed ue d id p n ps h).
Proof. unfold object_changed. destruct (String.eqb _ _); [done|]. exact (keeps_event d id p n ps (on_gate _ h)). Qed.

#[global] Instance keeps_links_preorder : PreOrder keeps_links.
Proof. split; [done|]. intros a b d [A1 I1] [A2 I2]. split; congruence. Qed.

(** *** Notifications *)

Lemma own_outcome c from m h h' dev :
  reconciledDeviceID c h = Some dev → touches hash c dev h h' → keeps_links h h' → outcome c from m h h'.
Proof. intros Hd T [Ha Hi]. by eapply outcome_own. Qed.

Lemma unmoved_refl h : unmoved h h.
Proof. done. Qed.

(** A notification that checks its subscription, does [work], and answers. *)
Lemma notification_outcome c from m h id b (work : string → Handler → Handler) :
  (∀ dev h, touches hash c dev h (work dev h)) → (∀ dev h, keeps_links h (work dev h)) →
  outcome c from m h
    (match reconciledDeviceID c h with
     | None => h
     | Some dev => answer_if controllerID ue b c id (work dev (checkSubscriptionID controllerID subs ue c dev id h))
     end).
Proof.
  intros Hw Hk. destruct (reconciledDeviceID c h) as [dev|] eqn:Ed; [|by apply outcome_none].
  apply (own_outcome c from m h _ dev Ed).
  - etrans; [apply touch_check_subscription|]. etrans; [apply Hw|apply touch_answer].
  - etrans; [apply keeps_check|]. etrans; [apply Hk|apply keeps_answer].
Qed.

Lemma value_change_outcome c from m vc h :
  outcome c from m h (handleValueChange controllerID subs ue c vc h).
Proof.
  apply (notification_outcome c from m h (vc_SubscriptionID vc) (vc_SendResp vc)
    (λ dev, on_gate (upsert_values (h_env ue) dev
       {[ vc_ParamPath vc := mkCached (vc_ParamValue vc) "" (h_now ue) SourceUSPNotify ]}))); [|done].
  intros. apply touch_value.
Qed.

Lemma creation_outcome c from m oc id h :
  outcome c from m h (handleObjectCreation controllerID subs ue c oc id h).
Proof.
  apply (notification_outcome c from m h (cr_SubscriptionID oc) (cr_SendResp oc)
    (λ dev, object_changed ue dev id (cr_ObjPath oc) "ObjectCreation" (cr_UniqueKeys oc))); intros;
    [apply touch_object_changed|apply keeps_object].
Qed.

Lemma deletion_outcome c from m od id h :
  outcome c from m h (handleObjectDeletion controllerID subs ue c od id h).
Proof.
  apply (notification_outcome c from m h (dl_SubscriptionID od) (dl_SendResp od)
    (λ dev, object_changed ue dev id (dl_ObjPath od) "ObjectDeletion" ∅)); intros;
    [apply touch_object_changed|apply keeps_object].
Qed.

Lemma event_outcome c from m ev id h : outcome c from m h (handleEvent controllerID subs ue c ev id h).
Proof.
  apply (notification_outcome c from m h (ev_SubscriptionID ev) (ev_SendResp ev)
    (λ dev, record_event ue dev id (ev_ObjPath ev) (ev_EventName ev) (ev_Params ev))); intros;
    [apply touch_record_event|apply keeps_event].
Qed.

Lemma unmoved_answer h b c id : unmoved h (answer_if controllerID ue b c id h).
Proof. unfold answer_if, sendNotifyResp. destruct b; [|done]. cbn. by destruct (EncodeNotifyResp _ _). Qed.

Lemma set_disp_id h : set_disp (h_disp h) h = h.
Proof. by destruct h. Qed.

Lemma completion_outcome c from m oc h :
  handler_ok h → outcome c from m h (controller_operation_complete controllerID ue c oc h).
Proof.
  intros Hok. unfold controller_operation_complete. cbv zeta. set (dev := default "" (reconciledDeviceID c h)).
  destruct (complete_step hash controllerID (h_agents h) (h_registry h) ue dev oc _ (ho_disp _ Hok)) as [E|[Hne Hs]].
  - rewrite E, set_disp_id. apply outcome_none, unmoved_answer.
  - apply (own_outcome c from m h _ dev); [|etrans; [by eapply touches_disp|apply touch_answer]|etrans; [|apply keeps_answer]; done].
    subst dev. by destruct (reconciledDeviceID c h).
Qed.

(** *** Identities *)

Lemma resolve_identity c h dev a :
  GetUspAgentByEndpointID (h_agents h) (c_endpoint c) = Some (dev, a) →
  reconciledDeviceID c (resolveAndMarkReconciled controllerID catalogs subs ue c h) = Some dev.
Proof.
  intros Ha. unfold resolveAndMarkReconciled. rewrite Ha. unfold reconciledDeviceID. cbn.
  unfold name_and_profile. destruct (Get _ _); cbn; [|by rewrite lookup_insert_eq].
  by rewrite lookup_alter_eq, lookup_insert_eq.
Qed.

Lemma identity_outcome c from m oui pc sn versions h p b id :
  handler_ok h → reports_identity c m h oui pc sn →
  outcome c from m h
    (reconciled controllerID catalogs subs ue c (reconcile_identity principals ue c oui pc sn versions (set_probes p h))
       (answer_if controllerID ue b c id)).
Proof.
  intros Hok Hr. pose proof (reconcile_identity_spec hash principals ue c oui pc sn versions (set_probes p h)
    (do_gate _ (ho_disp _ Hok)) (ho_agents _ Hok)) as Hs.
  unfold reconciled. destruct (reconcile_identity _ _ _ _ _ _ _ _) as [[[]|e] h1] eqn:E.
  - destruct Hs as (dev & a & Hc & T & Ha & He & _ & Hl).
    eapply (outcome_identity c from m h _ dev); [exact Hr|exact Hc| |].
    + etrans; [apply (touches_probes hash c dev p)|]. etrans; [exact T|]. etrans; [|apply touch_answer].
      apply touch_resolve; [|eauto]. eapply touches_ok; [exact T|apply Hok].
    + left. unfold reconciledDeviceID.
      destruct (keeps_answer b c id (resolveAndMarkReconciled controllerID catalogs subs ue c h1)) as [_ ->].
      exact (resolve_identity c h1 dev a Hl).
  - destruct Hs as [->|(dev & Hc & T & ->)]; [apply outcome_none; by case_match|]. cbn.
    eapply (outcome_identity c from m h _ dev); [exact Hr|exact Hc| |right].
    + etrans; [apply (touches_probes hash c dev p)|exact T].
    + unfold reconcile_identity in E. destruct (validateAuthenticatedIdentity _ _ _ _ _ _); [|by injection E as _ <-].
      destruct (ReconcileFromOnBoard _ _ _ _ _) as [[device|] devices]; [|by injection E as _ <-].
      destruct (LinkUspAgent _ _ _ _ _ _); injection E; intros; by subst.
Qed.

Lemma set_probes_id h : set_probes (h_probes h) h = h.
Proof. by destruct h. Qed.

(** *** Answers *)

Lemma answer_outcome c from m h :
  handler_ok h → outcome c from m h (handle_answer controllerID is_uuid principals catalogs subs ue c from m h).
Proof.
  intros Hok. unfold handle_answer, probe_handle. destruct (m_Header m) as [hd|] eqn:Eh.
  2: { unfold handleResponse, subs_handleResponse. rewrite Eh. by apply outcome_none. }
  destruct (h_probes h !! h_MsgId hd) as [pc|] eqn:Ep.
  - unfold handleProbeFallback. destruct (isReconciled _ _) eqn:Er; [by apply outcome_none|].
    destruct (deviceInfoFromGetResp ue m) as [[[oui cl] sn]|] eqn:Ed; [|by apply outcome_none].
    apply (identity_outcome c from m oui cl sn [] h _ false ""); [done|]. by eapply reports_probe.
  - destruct (respond_cases controllerID (h_agents h) (h_registry h) ue from m (h_disp h)) as [(e & He)|[-> _]].
    + destruct (respond_step hash controllerID (h_agents h) (h_registry h) ue _ _ _ _ (ho_disp _ Hok) He) as [Hs Hm].
      destruct (handleResponse _ _ _ _ _ _ _) as [b d]. cbn in Hs, Hm. subst b.
      eapply outcome_answer; [exact He|by eapply touches_disp|done|done].
    + by apply outcome_none.
Qed.

Lemma message_outcome c from m h : handler_ok h → outcome c from m h (message_in c from m h).
Proof.
  intros Hok. unfold handle_message. destruct (DecodeOnBoardRequest m) as [ob|] eqn:Eo.
  { unfold handleOnBoardRequest, onBoard. rewrite <-(set_probes_id h) at 2. apply identity_outcome; [done|].
    by apply reports_onboard. }
  destruct (DecodeOperationComplete m); [by apply completion_outcome|].
  destruct (DecodeValueChange m); [apply value_change_outcome|].
  destruct (DecodeObjectCreation m); [apply creation_outcome|].
  destruct (DecodeObjectDeletion m); [apply deletion_outcome|].
  destruct (DecodeEvent m); [apply event_outcome|]. by apply answer_outcome.
Qed.

(** C5: a record acts for one device at most, and only with the right to: the
    device its connection is reconciled to, the device of the outstanding job it
    answers, or the device whose identity it reports once the identity has been
    validated and is registered.  The step runs statements of the repositories on
    that device's rows only, never alters a settled job, never puts a second
    request of the device in flight, and leaves every other connection's identity
    and every other device's link and events alone.  Any other record leaves the
    database, the links, the identities and the outstanding requests as they
    were. *)
Theorem record_acts_for_its_device c record h :
  handler_ok h →
  let h' := record_in c record h in
  handler_ok h' ∧ (unmoved h h' ∨ ∃ from m, carries record from m ∧ outcome c from m h h').
Proof.
  intros Hok. cbv zeta. unfold OnRecord. destruct (DecodeRecord record controllerID) as [[rec|] [err|]] eqn:Er.
  - assert (unmoved h (match c_kind c with KindWebSocket => close c h | KindMQTT => h end)) as Hu by (by destruct (c_kind c)).
    destruct err; (split; [|by left]); by eapply unmoved_ok.
  - destruct (DecodeMsg (dr_Payload rec)) as [m|] eqn:Em; [|split; [done|by left]].
    pose proof (message_outcome c (dr_From rec) m h Hok) as Ho. split; [by eapply record_outcome_ok|].
    right. exists (dr_From rec), m. split; [by exists rec|done].
  - assert (unmoved h (match c_kind c with KindWebSocket => close c h | KindMQTT => h end)) as Hu by (by destruct (c_kind c)).
    destruct err; (split; [|by left]); by eapply unmoved_ok.
  - split; [done|by left].
Qed.

(** ** The events of a device *)

(** The event a notification reports; an object without a path is none. *)
Definition event_of (m : Msg) : option (string * string * gmap string string) :=
  match DecodeObjectCreation m, DecodeObjectDeletion m, DecodeEvent m with
  | Some oc, _, _ => if String.eqb (cr_ObjPath oc) "" then None else Some (cr_ObjPath oc, "ObjectCreation", cr_UniqueKeys oc)
  | None, Some od, _ => if String.eqb (dl_ObjPath od) "" then None else Some (dl_ObjPath od, "ObjectDeletion", ∅)
  | None, None, Some ev => Some (ev_ObjPath ev, ev_EventName ev, ev_Params ev)
  | None, None, None => None
  end.

Definition with_event (dev id : string) (ev : string * string * gmap string string) (t : Events) : Events :=
  match t !! (dev, id) with
  | Some _ => t
  | None => <[(dev, id) := mkDeviceEvent ev.1.1 ev.1.2 ev.2 (h_now ue)]> t
  end.

Lemma events_answer b c id h : h_events (answer_if controllerID ue b c id h) = h_events h.
Proof. exact (um_events _ _ (unmoved_answer h b c id)). Qed.

Lemma events_check c d id h :
  h_events (checkSubscriptionID controllerID subs ue c d id h) = h_events h ∧
  h_gate (checkSubscriptionID controllerID subs ue c d id h) = h_gate h.
Proof. unfold checkSubscriptionID. repeat case_match; done. Qed.

Lemma events_record dev id path name params h :
  is_Some (g_devices (h_gate h) !! dev) →
  h_events (record_event ue dev id path name params h) = with_event dev id (path, name, params) (h_events h).
Proof. intros [d Hd]. unfold record_event, RecordEvent. by rewrite Hd. Qed.

Lemma decode_notify {A} (f : PbNotify → option A) m x :
  (n ← notify_of m; f n) = Some x → ∃ n, notify_of m = Some n ∧ f n = Some x.
Proof. destruct (notify_of m) as [n|]; [eauto|done]. Qed.

(** The six notifications exclude each other. *)
Lemma event_is_alone m ev :
  event_of m = Some ev → DecodeOnBoardRequest m = None ∧ DecodeOperationComplete m = None ∧ DecodeValueChange m = None.
Proof.
  unfold event_of, DecodeObjectCreation, DecodeObjectDeletion, DecodeEvent, DecodeOnBoardRequest, DecodeOperationComplete,
    DecodeValueChange. destruct (notify_of m) as [n|]; [|done]. cbn. by destruct (nt_Notification n).
Qed.

(** An object notification that names an object, or an event, from a
    connection reconciled to a registered device is recorded for that device under
    the identifier of its message.  Delivered again, under any later state of the
    connection's device, it leaves the first record as it is.  From a connection
    that is not reconciled it changes nothing at all. *)
Theorem notification_is_recorded_once c from m ev h :
  event_of m = Some ev →
  match reconciledDeviceID c h with
  | None => message_in c from m h = h
  | Some dev =>
      is_Some (g_devices (h_gate h) !! dev) →
      h_events (message_in c from m h) = with_event dev (GetMsgId m) ev (h_events h) ∧
      (is_Some (h_events h !! (dev, GetMsgId m)) → h_events (message_in c from m h) = h_events h)
  end.
Proof.
  intros He. destruct (event_is_alone m ev He) as (Eo & Ec & Ev). unfold handle_message. rewrite Eo, Ec, Ev. clear Eo Ec Ev.
  unfold event_of in He.
  assert (∀ dev h', with_event dev (GetMsgId m) ev (h_events h) = h' →
    h' = with_event dev (GetMsgId m) ev (h_events h) ∧ (is_Some (h_events h !! (dev, GetMsgId m)) → h' = h_events h)) as Hfin.
  { intros dev h' <-. split; [done|]. unfold with_event. by intros [x ->]. }
  destruct (DecodeObjectCreation m) as [oc|] eqn:E1; [|destruct (DecodeObjectDeletion m) as [od|] eqn:E2;
    [|destruct (DecodeEvent m) as [e|] eqn:E3; [|done]]].
  - destruct (String.eqb _ _) eqn:Ep; [done|]. injection He as <-. unfold handleObjectCreation.
    destruct (reconciledDeviceID c h) as [dev|]; [|done]. intros Hd. apply Hfin.
    destruct (events_check c dev (cr_SubscriptionID oc) h) as [He Hg]. rewrite events_answer. unfold object_changed. rewrite Ep.
    rewrite events_record; cbn; rewrite ?He; [done|]. unfold invalidate. fold (h_gate (checkSubscriptionID controllerID subs ue c dev (cr_SubscriptionID oc) h)).
    rewrite Hg. by destruct (InvalidateSubtree _ _ _).
  - destruct (String.eqb _ _) eqn:Ep; [done|]. injection He as <-. unfold handleObjectDeletion.
    destruct (reconciledDeviceID c h) as [dev|]; [|done]. intros Hd. apply Hfin.
    destruct (events_check c dev (dl_SubscriptionID od) h) as [He Hg]. rewrite events_answer. unfold object_changed. rewrite Ep.
    rewrite events_record; cbn; rewrite ?He; [done|]. unfold invalidate. fold (h_gate (checkSubscriptionID controllerID subs ue c dev (dl_SubscriptionID od) h)).
    rewrite Hg. by destruct (InvalidateSubtree _ _ _).
  - injection He as <-. unfold handleEvent. destruct (reconciledDeviceID c h) as [dev|]; [|done]. intros Hd. apply Hfin.
    destruct (events_check c dev (ev_SubscriptionID e) h) as [He Hg]. rewrite events_answer, events_record; rewrite ?He, ?Hg; done.
Qed.

(** ** Disconnecting *)

Lemma Remove_self c r : registry_ok r → (Remove c r).2 !! c_endpoint c ≠ Some c.
Proof.
  intros _. unfold Remove. destruct (r !! c_endpoint c) as [e|] eqn:E; [|cbn; congruence].
  destruct (bool_decide (e = c)) eqn:D; bool_to_prop; cbn; [by rewrite lookup_delete_eq|congruence].
Qed.

(** The parts of the state after a disconnection. *)
Lemma disconnected_parts c h :
  let h' := disconnected c h in
  h_gate h' = h_gate h ∧
  h_registry h' = (Remove c (h_registry h)).2 ∧
  h_identities h' = delete c (h_identities h) ∧
  h_probes h' = filter (λ kv, kv.2 ≠ c) (h_probes h) ∧
  d_pending (h_disp h') = filter (λ kv, pj_conn kv.2 ≠ c) (d_pending (h_disp h)) ∧
  h_subPending h' = filter (λ kv, ps_conn kv.2 ≠ c) (h_subPending h) ∧
  h_agents h' = (if (Remove c (h_registry h)).1
                 then match reconciledDeviceID c h with
                      | Some dev => MarkUspAgentDisconnected (h_now ue) dev (c_endpoint c) (h_agents h)
                      | None => h_agents h
                      end
                 else h_agents h).
Proof.
  cbv zeta. unfold OnDisconnect. destruct (Remove c (h_registry h)) as [removed registry]. cbn [fst snd].
  change (reconciledDeviceID c (set_reconciler _ _)) with (reconciledDeviceID c h).
  destruct removed; [destruct (reconciledDeviceID c h)|]; split_and!; done.
Qed.

(** When a connection ends, its identity and everything it had outstanding are
    forgotten.  If it was the registered connection of its endpoint, the link of
    the device it was reconciled to is marked disconnected.  A connection that
    has taken its place, and any other live one, is untouched: it stays
    registered, with its identity, its probes and its outstanding requests, and
    the link of its endpoint keeps its state. *)
Theorem disconnect_forgets_one_connection c h :
  registry_ok (h_registry h) →
  let h' := disconnected c h in
  (h_registry h' !! c_endpoint c ≠ Some c ∧ h_identities h' !! c = None ∧
   (∀ id, h_probes h' !! id ≠ Some c) ∧ (∀ id e, d_pending (h_disp h') !! id = Some e → pj_conn e ≠ c) ∧
   (∀ id e, h_subPending h' !! id = Some e → ps_conn e ≠ c)) ∧
  (∀ dev a, h_registry h !! c_endpoint c = Some c → reconciledDeviceID c h = Some dev →
     h_agents h !! dev = Some a → ua_EndpointID a = c_endpoint c →
     h_agents h' !! dev = Some (disconnected_row (h_now ue) a)) ∧
  (∀ c', c' ≠ c → h_registry h !! c_endpoint c' = Some c' →
     h_registry h' !! c_endpoint c' = Some c' ∧ h_identities h' !! c' = h_identities h !! c' ∧
     (∀ id, h_probes h !! id = Some c' → h_probes h' !! id = Some c') ∧
     (∀ id e, pj_conn e = c' → d_pending (h_disp h) !! id = Some e → d_pending (h_disp h') !! id = Some e) ∧
     (∀ id e, ps_conn e = c' → h_subPending h !! id = Some e → h_subPending h' !! id = Some e) ∧
     (∀ dev a, h_agents h !! dev = Some a → ua_EndpointID a = c_endpoint c' → h_agents h' !! dev = Some a)).
Proof.
  intros Hreg. cbv zeta. destruct (disconnected_parts c h) as (_ & Er & Ei & Ep & Ed & Es & Ea).
  rewrite Er, Ei, Ep, Ed, Es, Ea. split_and!.
  - by apply Remove_self.
  - apply lookup_delete_eq.
  - intros id [_ H]%map_lookup_filter_Some. done.
  - intros id e [_ H]%map_lookup_filter_Some. done.
  - intros id e [_ H]%map_lookup_filter_Some. done.
  - intros dev a Hr Hd Ha He. unfold Remove. rewrite Hr, bool_decide_true, Hd by done. cbn.
    unfold MarkUspAgentDisconnected. rewrite lookup_update_key, decide_True by done. rewrite Ha. cbn.
    by rewrite He, String.eqb_refl.
  - intros c' Hne Hr. split_and!.
    + by apply Remove_other.
    + by rewrite lookup_delete_ne.
    + intros id H. by apply map_lookup_filter_Some.
    + intros id e <- H. by apply map_lookup_filter_Some.
    + intros id e <- H. by apply map_lookup_filter_Some.
    + intros dev a Ha He. unfold Remove. destruct (h_registry h !! c_endpoint c) as [x|] eqn:Ex; [|done].
      destruct (bool_decide (x = c)) eqn:D; [|done]. bool_to_prop. subst x. cbn.
      destruct (reconciledDeviceID c h) as [dev'|]; [|done]. unfold MarkUspAgentDisconnected.
      rewrite lookup_update_key. case_decide; [|done]. subst dev'. rewrite Ha. cbn.
      destruct (String.eqb (ua_EndpointID a) (c_endpoint c)) eqn:E; [|done]. bool_to_prop. congruence.
Qed.

(** A replacement that ends before it is reconciled leaves the link of its
    endpoint as the connection it replaced left it: the agent stays recorded as
    connected although no connection is registered for it. *)
Theorem dropped_replacement_stays_connected c c' h :
  c ≠ c' → c_endpoint c = c_endpoint c' → h_registry h !! c_endpoint c = Some c →
  let h' := disconnected c' (disconnected c (connected c' h)) in
  h_agents h' = h_agents h ∧ h_registry h' !! c_endpoint c = None.
Proof.
  intros Hne He Hr. cbv zeta.
  assert (h_agents (connected c' h) = h_agents h ∧ h_registry (connected c' h) = <[c_endpoint c' := c']> (h_registry h) ∧
          h_identities (connected c' h) = <[c' := mkConnIdentity "" false ""]> (h_identities h)) as (Ea & Er & Ei).
  { unfold OnConnect, probe_start. cbn. rewrite He in Hr. rewrite Hr. cbn. repeat case_match; done. }
  set (h1 := connected c' h) in *. clearbody h1.
  destruct (disconnected_parts c h1) as (_ & Er1 & Ei1 & _ & _ & _ & Ea1).
  assert (Remove c (h_registry h1) = (false, h_registry h1)) as Erm.
  { unfold Remove. rewrite Er, He, lookup_insert_eq. by rewrite bool_decide_false by congruence. }
  rewrite Erm in Er1, Ea1. cbn [fst snd] in Er1, Ea1.
  destruct (disconnected_parts c' (disconnected c h1)) as (_ & -> & _ & _ & _ & _ & ->).
  rewrite Er1, Ea1, Ea. unfold Remove. rewrite Er, lookup_insert_eq, bool_decide_true by done. cbn. split.
  - unfold reconciledDeviceID. rewrite Ei1, Ei, lookup_delete_ne, lookup_insert_eq by done. done.
  - rewrite He. apply lookup_delete_eq.
Qed.
End Theorems.

(** ** Production identities *)

(** The endpoint of the connection is bound to the device by an enabled principal. *)
Definition bound_to (tab : Principals) (c : Conn) (dev : string) : Prop :=
  ∃ k p, tab !! k = Some p ∧ pp_EndpointID p = c_endpoint c ∧ pp_Enabled p = true ∧ pp_DeviceID p = dev.

Lemma find_principal_ok f tab p : find_principal f tab = Ok p → f p = true ∧ ∃ k, tab !! k = Some p.
Proof.
  unfold find_principal. destruct (List.find f (rows tab)) as [x|] eqn:E; [|done]. intros [= ->].
  apply List.find_some in E as [Hin Hf]. split; [done|]. by apply list_elem_of_In, elem_of_rows in Hin.
Qed.

Lemma claims_bound tab c dev oui pc sn h :
  handler_ok h → claims_device (Some tab) c dev oui pc sn h → bound_to tab c dev.
Proof.
  intros Hok (Hv & d & Hd & Hid). unfold validateAuthenticatedIdentity in Hv. destruct (_ || _); [done|].
  destruct (ByEndpointID _ _) as [p|] eqn:Ep; [|done]. destruct (Get _ _) as [bound|] eqn:Eb; [|done].
  destruct (String.eqb _ _) eqn:Ek; [|done]. bool_to_prop.
  apply find_principal_ok in Ep as [Hp (k & Hk)]. apply andb_true_iff in Hp as [He Hen]. bool_to_prop.
  exists k, p. split_and!; try done. pose proof (go_devices _ (do_gate _ (ho_disp _ Hok))) as Hdev.
  pose proof (GetByOUIserial_unique _ _ _ Hdev Eb) as Hu. rewrite Ek in Hu. unfold h_gate in Hd. rewrite Hu in Hd.
  injection Hd as ->.
  rewrite <-Hid. symmetry. exact (dev_keyed _ Hdev _ _ Eb).
Qed.

(** C6: in the production profile a record can link a device to an endpoint, or
    give its connection a device to act for, only when an enabled principal binds
    that endpoint to that device: an agent that reports another device's identity
    is refused. *)
Theorem production_binds_endpoint_to_device `{W : ProtoWire} controllerID is_uuid tab catalogs subs ue c record h :
  handler_ok h →
  let h' := OnRecord controllerID is_uuid (Some tab) catalogs subs ue c record h in
  (∀ dev, reconciledDeviceID c h' = Some dev → reconciledDeviceID c h = Some dev ∨ bound_to tab c dev) ∧
  (∀ dev, h_agents h' !! dev ≠ h_agents h !! dev → bound_to tab c dev).
Proof.
  intros Hok. cbv zeta. set (h' := OnRecord _ _ _ _ _ _ _ _ _).
  assert ((h_identities h' = h_identities h ∧ h_agents h' = h_agents h) ∨
          ∃ dev, bound_to tab c dev ∧ touches (λ _, "") c dev h h' ∧ reconciledDeviceID c h' = Some dev) as Hcase.
  { subst h'. unfold OnRecord. destruct (DecodeRecord record controllerID) as [[rec|] [err|]].
    - left. destruct err, (c_kind c); done.
    - destruct (DecodeMsg (dr_Payload rec)) as [m|]; [|by left].
      destruct (message_outcome (λ _, "") controllerID is_uuid (Some tab) catalogs subs ue c (dr_From rec) m h Hok)
        as [U | dev Hd T Ha Hi | e He T Ha Hi | dev oui pc sn Hr Hc T [Hi|[Hi Ha]]].
      + left. split; [apply (um_identities _ _ U)|apply (um_agents _ _ U)].
      + by left.
      + by left.
      + right. exists dev. split; [by eapply claims_bound|done].
      + by left.
    - left. destruct err, (c_kind c); done.
    - by left. }
  destruct Hcase as [[Hi Ha]|(dev & Hb & T & Hd)].
  - split.
    + intros dev. unfold reconciledDeviceID. rewrite Hi. by left.
    + intros dev. by rewrite Ha.
  - split.
    + intros dev'. rewrite Hd. intros [= <-]. by right.
    + intros dev' Hne. destruct (decide (dev' = dev)) as [->|Hd']; [done|].
      destruct Hne. by apply (to_agents _ _ _ _ _ T).
Qed.
