(* ===== verification/UspReach.v ===== *)
(** * The states the USP controller can reach

    The calls of the transports, the notifications of queued jobs and the sweep,
    each taken as one step, in any order and with the writes of other processes
    to the database in between.  A dispatch may also be two steps, the check and
    the lease, with anything in between: no lock holds the two together. *)

From S2P Require Import Prelude GoStrings Json Cwmp JobModel JobStore JobLaws Discovery Devices Credentials ParamCache.
From S2P Require Import ParamTheorems Adapters Onboarding OnboardingLaws Sessions Render Gateway GatewayLaws GatewayTheorems Inform.
From S2P Require Import InformLaws Usp UspConn UspRequest UspDispatch UspLaws UspDispatchTheorems Subscriptions.
From S2P Require Import SubscriptionTheorems UspMtp UspHandler UspHandlerTheorems.

(** [resetUspAgentsConnected]: what a new process does to the links it finds. *)
Definition resetUspAgentsConnected (a : Agents) : Agents :=
  (λ x, if ua_Connected x
        then mkUspAgent (ua_EndpointID x) (ua_MTPKind x) false (ua_LastConnectedAt x) (ua_LastSeenAt x)
               (ua_SupportedProtocolVersions x) (ua_ControllerRole x)
        else x) <$> a.

(** A process that has just started on a database. *)
Definition started (g : Gateway) (a : Agents) (e : Events) : Handler :=
  mkHandler (mkDispatcher g ∅ [] 0) (resetUspAgentsConnected a) ∅ ∅ ∅ ∅ ∅ e [].

Lemma reset_agents_ok a : agents_ok a → agents_ok (resetUspAgentsConnected a).
Proof.
  intros Hok d1 d2 a1 a2. unfold resetUspAgentsConnected. rewrite !lookup_fmap.
  intros (x1 & H1 & ->)%fmap_Some (x2 & H2 & ->)%fmap_Some He. eapply Hok; [exact H1|exact H2|].
  destruct (ua_Connected x1), (ua_Connected x2); done.
Qed.

(** The dispatches that have made their check and not yet their lease. *)
Record Controller : Type := mkController {
  k_handler : Handler;
  k_checked : list (string * Conn)
}.

Definition on_handler (f : Handler → Handler) (k : Controller) : Controller :=
  mkController (f (k_handler k)) (k_checked k).

Definition known (c : Conn) (h : Handler) : Prop := is_Some (h_identities h !! c).

Section Reach.
Context `{W : ProtoWire} (hash : json → string) (controllerID : string) (is_uuid : string → bool).
(** [usp.NewMsgID] never repeats an identifier. *)
Context (msg : nat → string) `{!Inj (=) (=) msg}.

(** A WebSocket that has been closed refuses the write. *)
Definition closed_refuses (ue : UspEnv) (conn : Conn) (h : Handler) : Prop :=
  ∀ record, c_kind conn = KindWebSocket → ue_send ue conn record = true → known conn h.

Definition lease_for (ue : UspEnv) (conn : Conn) (dev : string) (h : Handler) : Handler :=
  set_disp (lease_and_send controllerID ue conn dev (h_disp h)).1 h.

Inductive controller_step (k : Controller) : Controller → Prop :=
| cs_connect ue c : ue_msg ue = msg → h_identities (k_handler k) !! c = None →
    controller_step k (on_handler (OnConnect controllerID ue c) k)
| cs_record principals catalogs subs ue c record : ue_msg ue = msg → known c (k_handler k) →
    controller_step k (on_handler (OnRecord controllerID is_uuid principals catalogs subs ue c record) k)
| cs_disconnect ue c : ue_msg ue = msg → controller_step k (on_handler (OnDisconnect ue c) k)
| cs_queued ue dev : ue_msg ue = msg → controller_step k (on_handler (dispatch_for controllerID ue dev) k)
| cs_sweep ue : ue_msg ue = msg → controller_step k (on_handler (sweep_connections controllerID ue) k)
| cs_check dev conn :
    dispatch_ready (h_agents (k_handler k)) (h_registry (k_handler k)) dev (h_disp (k_handler k)) = Some conn →
    controller_step k (mkController (k_handler k) ((dev, conn) :: k_checked k))
| cs_lease ue dev conn rest : ue_msg ue = msg → k_checked k ≡ₚ (dev, conn) :: rest →
    closed_refuses ue conn (k_handler k) →
    controller_step k (mkController (lease_for ue conn dev (k_handler k)) rest)
| cs_database dev g : acts_for hash dev (h_gate (k_handler k)) g → controller_step k (on_handler (on_gate (λ _, g)) k).

Record controller_ok (h : Handler) : Prop := mk_controller_ok {
  co_ok : handler_ok h;
  co_subs : reconciler_ok msg (h_reconciler h);
  co_registry : ∀ k c, h_registry h !! k = Some c → known c h;
  co_pending : ∀ id e, d_pending (h_disp h) !! id = Some e → c_kind (pj_conn e) = KindWebSocket → known (pj_conn e) h;
  co_probes : ∀ id c, h_probes h !! id = Some c → known c h;
  co_subPending : ∀ id e, h_subPending h !! id = Some e → known (ps_conn e) h
}.

(** ** The reconciler's part of a step *)

Record subs_step (c : Conn) (h h' : Handler) : Prop := mk_subs_step {
  ss_ok : reconciler_ok msg (h_reconciler h) → reconciler_ok msg (h_reconciler h');
  ss_owner : ∀ id e, h_subPending h' !! id = Some e →
    ps_conn e = c ∨ ∃ id' e', h_subPending h !! id' = Some e' ∧ ps_conn e' = ps_conn e;
  ss_probes : ∀ id c', h_probes h' !! id = Some c' → h_probes h !! id = Some c'
}.

#[global] Instance subs_step_preorder c : PreOrder (subs_step c).
Proof.
  split; [intros h; constructor; [done|intros id e He; right; eauto|done]|]. intros x y z [A1 B1 C1] [A2 B2 C2].
  constructor; [auto| |auto]. intros id e [H|(id' & e' & H & <-)]%B2; [by left|]. by eapply B1.
Qed.

Lemma subs_same c h h' :
  h_subPending h' = h_subPending h → h_inFlight h' = h_inFlight h →
  (∀ id c', h_probes h' !! id = Some c' → h_probes h !! id = Some c') →
  (d_next (h_disp h) ≤ d_next (h_disp h'))%nat → subs_step c h h'.
Proof.
  intros Ep Ei Hpr Hn. constructor; [|rewrite Ep; intros id e He; right; eauto|done]. intros Hr.
  pose proof (reconciler_ok_next msg (h_reconciler h) (h_outbox h') Hn Hr) as H. unfold h_reconciler in *. cbn in H.
  by rewrite Ep, Ei.
Qed.

(** Steps that leave the reconciler alone. *)
Lemma subs_touches c c' dev h h' :
  touches hash c' dev h h' → h_subPending h' = h_subPending h → h_inFlight h' = h_inFlight h → h_probes h' = h_probes h →
  subs_step c h h'.
Proof. intros T Ep Ei Er. apply subs_same; [done|done|by rewrite Er|apply (to_next _ _ _ _ _ T)]. Qed.

Section Steps.
Context (principals : option Principals) (catalogs : list Catalog) (subs : SubTable) (ue : UspEnv).
Hypothesis Hmsg : ue_msg ue = msg.

Lemma subs_answer b c c' id h : subs_step c h (answer_if controllerID ue b c' id h).
Proof.
  eapply (subs_touches c c' ""); [apply touch_answer|..]; unfold answer_if, sendNotifyResp; destruct b; try done;
    cbn; by destruct (EncodeNotifyResp _ _).
Qed.

Lemma subs_reconcile dev c h : subs_step c h (subscription_reconcile controllerID subs ue dev c h).
Proof.
  constructor; [intros Hr; unfold subscription_reconcile; rewrite h_reconciler_set; by apply (reconcile_ok msg)| |done].
  intros id e [H|H]%(reconcile_owner controllerID ue subs dev c (h_reconciler h)); [by left|right; eauto].
Qed.

Lemma subs_check dev c id h : subs_step c h (checkSubscriptionID controllerID subs ue c dev id h).
Proof. unfold checkSubscriptionID. repeat case_match; try done. apply subs_reconcile. Qed.

Lemma subs_gate c f h : subs_step c h (on_gate f h).
Proof. by apply subs_same. Qed.

Lemma subs_event c dev id p n ps h : subs_step c h (record_event ue dev id p n ps h).
Proof. unfold record_event. destruct (RecordEvent _ _ _ _ _ _ _ _); [by apply subs_same|done]. Qed.

Lemma subs_object c dev id p n ps h : subs_step c h (object_changed ue dev id p n ps h).
Proof. unfold object_changed. destruct (String.eqb _ _); [done|]. etrans; [apply (subs_gate c)|apply subs_event]. Qed.

Lemma subs_disp c agents dev d h :
  usp_step hash agents (h_registry h) dev (h_disp h) d → subs_step c h (set_disp d h).
Proof. intros S. apply subs_same; [done|done|done|apply (us_next _ _ _ _ _ _ S)]. Qed.

(** A notification: the check, some work, the answer. *)
Lemma subs_notification c h id b (work : string → Handler → Handler) :
  (∀ dev h, subs_step c h (work dev h)) →
  subs_step c h
    (match reconciledDeviceID c h with
     | None => h
     | Some dev => answer_if controllerID ue b c id (work dev (checkSubscriptionID controllerID subs ue c dev id h))
     end).
Proof.
  intros Hw. destruct (reconciledDeviceID c h) as [dev|]; [|done].
  etrans; [apply subs_check|]. etrans; [apply Hw|apply subs_answer].
Qed.

Lemma subs_reconciled c r h0 k :
  subs_step c h0 r.2 → gateway_ok (h_gate r.2) → (∀ h, subs_step c h (k h)) →
  subs_step c h0 (reconciled controllerID catalogs subs ue c r k).
Proof.
  intros Hr Hg Hk. unfold reconciled. destruct r as [[[]|e] h]; cbn in Hr, Hg.
  - etrans; [exact Hr|]. etrans; [|apply Hk]. unfold resolveAndMarkReconciled.
    destruct (GetUspAgentByEndpointID _ _) as [[dev a]|]; [|done].
    set (h2 := on_gate _ _). assert (gateway_ok (h_gate h2)) as Hg2.
    { eapply touches_ok; [|exact Hg]. etrans; [apply (touch_mark hash c dev)|apply touch_queue_discovery]. }
    set (h3 := name_and_profile _ _ _ _ h2).
    assert (gateway_ok (h_gate h3)) as Hg3 by (eapply touches_ok; [by apply (touch_profile hash)|exact Hg2]).
    assert (subs_step c h h2) as S2 by (by apply subs_same).
    assert (subs_step c h2 h3) as S3 by (subst h3; unfold name_and_profile; destruct (Get _ _); by apply subs_same).
    etrans; [exact S2|]. etrans; [exact S3|]. etrans; [|apply subs_reconcile].
    unfold dispatch_for. eapply (subs_disp c _ dev). by apply (step_tryDispatch hash).
  - etrans; [exact Hr|]. by destruct (String.eqb _ _); [apply subs_same|].
Qed.

Lemma subs_identity c oui pc sn versions h :
  handler_ok h → subs_step c h (reconcile_identity principals ue c oui pc sn versions h).2 ∧
    gateway_ok (h_gate (reconcile_identity principals ue c oui pc sn versions h).2).
Proof.
  intros Hok. pose proof (do_gate _ (ho_disp _ Hok)) as Hg. split.
  - unfold reconcile_identity. destruct (validateAuthenticatedIdentity _ _ _ _ _ _); [|done].
    destruct (ReconcileFromOnBoard _ _ _ _ _) as [[device|] devices]; [|by apply subs_same].
    destruct (LinkUspAgent _ _ _ _ _ _); by apply subs_same.
  - pose proof (reconcile_identity_spec hash principals ue c oui pc sn versions h Hg (ho_agents _ Hok)) as Hs.
    destruct (reconcile_identity _ _ _ _ _ _ _ _) as [[[]|e] h1]; cbn.
    + destruct Hs as (dev & a & _ & T & _). by eapply touches_ok.
    + destruct Hs as [->|(dev & _ & T & _)]; [done|by eapply touches_ok].
Qed.

Lemma subs_message c from m h :
  handler_ok h → subs_step c h (handle_message controllerID is_uuid principals catalogs subs ue c from m h).
Proof.
  intros Hok. unfold handle_message. destruct (DecodeOnBoardRequest m) as [ob|].
  { destruct (subs_identity c (ob_OUI ob) (ob_ProductClass ob) (ob_SerialNumber ob)
      (splitProtocolVersions (ob_AgentSupportedProtocolVersions ob)) h Hok) as [S Hg].
    apply subs_reconciled; [exact S|exact Hg|intros; apply subs_answer]. }
  destruct (DecodeOperationComplete m) as [oc|].
  { unfold controller_operation_complete. cbv zeta. etrans; [|apply subs_answer].
    destruct (complete_step hash controllerID (h_agents h) (h_registry h) ue (default "" (reconciledDeviceID c h)) oc
      _ (ho_disp _ Hok)) as [E|[_ S]]; [by rewrite E, set_disp_id|by eapply subs_disp]. }
  destruct (DecodeValueChange m) as [vc|].
  { apply (subs_notification c h (vc_SubscriptionID vc) (vc_SendResp vc)
      (λ dev, on_gate (upsert_values (h_env ue) dev
         {[ vc_ParamPath vc := mkCached (vc_ParamValue vc) "" (h_now ue) SourceUSPNotify ]}))). intros. apply subs_gate. }
  destruct (DecodeObjectCreation m) as [oc|].
  { apply (subs_notification c h (cr_SubscriptionID oc) (cr_SendResp oc)
      (λ dev, object_changed ue dev (GetMsgId m) (cr_ObjPath oc) "ObjectCreation" (cr_UniqueKeys oc))).
    intros. apply subs_object. }
  destruct (DecodeObjectDeletion m) as [od|].
  { apply (subs_notification c h (dl_SubscriptionID od) (dl_SendResp od)
      (λ dev, object_changed ue dev (GetMsgId m) (dl_ObjPath od) "ObjectDeletion" ∅)). intros. apply subs_object. }
  destruct (DecodeEvent m) as [ev|].
  { apply (subs_notification c h (ev_SubscriptionID ev) (ev_SendResp ev)
      (λ dev, record_event ue dev (GetMsgId m) (ev_ObjPath ev) (ev_EventName ev) (ev_Params ev))). intros. apply subs_event. }
  unfold handle_answer. destruct (probe_handle m h) as [[] h1] eqn:Ep.
  - assert (∃ id, h1 = set_probes (delete id (h_probes h)) h) as (id & ->).
    { unfold probe_handle in Ep. destruct (m_Header m); [|done]. destruct (_ !! _); [|done]. injection Ep as <-. eauto. }
    set (h1 := set_probes _ h). assert (subs_step c h h1) as S1.
    { apply subs_same; [done|done|..|done]. intros i c' H. cbn in H. by apply lookup_delete_Some in H as [_ H]. }
    etrans; [exact S1|]. unfold handleProbeFallback. destruct (isReconciled c h1); [done|].
    destruct (deviceInfoFromGetResp ue m) as [[[oui cl] sn]|]; [|done].
    assert (handler_ok h1) as Hok1 by (destruct Hok as [[] ? ?]; by constructor).
    destruct (subs_identity c oui cl sn [] h1 Hok1) as [S Hg]. by apply subs_reconciled.
  - destruct (respond_cases controllerID (h_agents h) (h_registry h) ue from m (h_disp h)) as [(e & He)|[-> _]].
    + destruct (respond_step hash controllerID (h_agents h) (h_registry h) ue _ _ _ _ (ho_disp _ Hok) He) as [Hs Hm].
      destruct (handleResponse _ _ _ _ _ _ _) as [b d]. cbn in Hs, Hm. subst b. by eapply subs_disp.
    + constructor; [intros Hr; rewrite h_reconciler_set; by apply (subs_handleResponse_ok msg)| |done].
      intros id e He. destruct (subs_handleResponse_owner controllerID is_uuid ue m (h_reconciler h)) as (c' & Ho & [E|Hc]).
      * cbn in He. rewrite E in He. right. eauto.
      * destruct (Ho _ _ He) as [Ec|He']; [right; rewrite Ec; exact Hc|right; eauto].
Qed.
End Steps.

(** ** The invariant *)

Lemma known_more c h h' :
  (∀ c', c' ≠ c → h_identities h' !! c' = h_identities h !! c') → known c h' → ∀ c', known c' h → known c' h'.
Proof. intros Hi Hc c' Hk. destruct (decide (c' = c)) as [->|Hne]; [done|]. unfold known. by rewrite Hi. Qed.

(** A step for one device on behalf of a known connection. *)
Lemma touches_controller_ok c dev h h' :
  touches hash c dev h h' → subs_step c h h' → known c h → known c h' → controller_ok h → controller_ok h'.
Proof.
  intros T S Hk Hk' [Hok Hsub Hr Hp Hpr Hsp].
  pose proof (known_more c h h' (to_identities _ _ _ _ _ T) Hk') as Hmore. constructor.
  - by eapply touches_handler_ok.
  - by apply (ss_ok _ _ _ S).
  - intros k c'. rewrite (to_registry _ _ _ _ _ T). intros H. eapply Hmore, Hr, H.
  - intros id e [He|(_ & _ & k & He)]%(to_pending _ _ _ _ _ T) Hw; eapply Hmore; eauto.
  - intros id c' H%(ss_probes _ _ _ S). eapply Hmore, Hpr, H.
  - intros id e [->|(id' & e' & He & <-)]%(ss_owner _ _ _ S); [done|]. eapply Hmore, Hsp, He.
Qed.

(** A step that leaves the database, the links and the identities alone. *)
Lemma unmoved_controller_ok c h h' :
  unmoved h h' → subs_step c h h' → known c h → controller_ok h → controller_ok h'.
Proof.
  intros [Eg Ep Ea Ei Ee Er] S Hk [Hok Hsub Hr Hp Hpr Hsp].
  assert (∀ c', known c' h → known c' h') as Hmore by (intros c'; unfold known; by rewrite Ei). constructor.
  - by eapply unmoved_ok.
  - by apply (ss_ok _ _ _ S).
  - intros k c'. rewrite Er. eauto.
  - intros id e. rewrite Ep. eauto.
  - intros id c' H%(ss_probes _ _ _ S). eauto.
  - intros id e [->|(id' & e' & He & <-)]%(ss_owner _ _ _ S); eauto.
Qed.

Lemma reconciled_known c dev h : reconciledDeviceID c h = Some dev → known c h.
Proof. unfold reconciledDeviceID, known. by destruct (h_identities h !! c). Qed.

Lemma record_controller_ok principals catalogs subs ue c record h :
  ue_msg ue = msg → known c h → controller_ok h →
  controller_ok (OnRecord controllerID is_uuid principals catalogs subs ue c record h).
Proof.
  intros Hmsg Hk Hok. pose proof (co_ok _ Hok) as Hh. unfold OnRecord.
  assert (controller_ok (close c h)) as Hclose by (eapply (unmoved_controller_ok c h); [done|by apply subs_same|done|done]).
  destruct (DecodeRecord record controllerID) as [[rec|] [err|]]; [by destruct err, (c_kind c)| |by destruct err, (c_kind c)|done].
  destruct (DecodeMsg (dr_Payload rec)) as [m|]; [|done].
  pose proof (subs_message principals catalogs subs ue Hmsg c (dr_From rec) m h Hh) as S.
  destruct (message_outcome hash controllerID is_uuid principals catalogs subs ue c (dr_From rec) m h Hh)
    as [U | dev Hd T Ha Hi | e He T Ha Hi | dev oui pc sn Hr Hc T [Hd|[Hi Ha]]].
  - by eapply unmoved_controller_ok.
  - eapply touches_controller_ok; [exact T|exact S|done| |done]. unfold known. by rewrite Hi.
  - eapply touches_controller_ok; [exact T|exact S|done| |done]. unfold known. by rewrite Hi.
  - eapply touches_controller_ok; [exact T|exact S|done|by eapply reconciled_known|done].
  - eapply touches_controller_ok; [exact T|exact S|done| |done]. unfold known. by rewrite Hi.
Qed.

Lemma connect_controller_ok ue c h :
  ue_msg ue = msg → controller_ok h → controller_ok (OnConnect controllerID ue c h).
Proof.
  intros Hmsg [[Hd Ha Hr] Hsub Hreg Hp Hpr Hsp]. unfold OnConnect. cbn [Add]. set (h1 := set_registry _ _).
  assert (∀ c', known c' h → known c' h1) as Hmore.
  { intros c' Hk. unfold known. cbn. rewrite lookup_insert. by case_decide. }
  assert (known c h1) as Hc by (unfold known; cbn; by rewrite lookup_insert_eq).
  assert (controller_ok h1) as Hok1.
  { constructor; [constructor; [done|done|by apply (registry_ok_Add c)]|done| |eauto|eauto|eauto].
    intros k c' H. cbn in H. rewrite lookup_insert in H. case_decide; simplify_eq; eauto. }
  assert (∀ h2, controller_ok h2 → known c h2 → controller_ok (probe_start controllerID ue c h2)) as Hprobe.
  { clear -Inj0 Hmsg. intros h2 Hok Hk. unfold probe_start. cbn [new_msg_id].
    assert (∀ o p, (d_next (h_disp h2) ≤ o_next o)%nat → (∀ id c', p !! id = Some c' → h_probes h2 !! id = Some c' ∨ c' = c) →
      controller_ok (set_outbox o (set_probes p h2))) as Hset.
    { intros o p Ho Hp. destruct Hok as [[[Hg Hpe] Ha Hr] Hsub Hreg Hpp Hpr Hsp].
      constructor; [by constructor; [constructor|..]| |done|done| |done].
      - destruct o. by apply (reconciler_ok_next msg (h_reconciler h2)).
      - intros id c' [H| ->]%Hp; [by eapply Hpr|done]. }
    destruct (EncodeGet _ _ _); [|rewrite <-(set_probes_id h2) at 2; apply Hset; [cbn; lia|by left]].
    pose proof (send_record_next controllerID ue c a (mkOutbox (o_sent (h_outbox h2)) (S (o_next (h_outbox h2))))) as Hn.
    destruct (send_record _ _ _ _ _) as [[] o]; cbn in Hn.
    - apply Hset; [lia|]. intros id c'. rewrite lookup_insert. case_decide; [intros [= <-]; by right|by left].
    - rewrite <-(set_probes_id h2). apply Hset; [lia|by left].
    - apply Hset; [lia|]. intros id c' [_ H]%lookup_delete_Some. by left. }
  change (h_registry (set_identities _ h)) with (h_registry h).
  destruct (h_registry h !! c_endpoint c) as [old|]; apply Hprobe; [|done|done|done].
  eapply (unmoved_controller_ok c h1); [done|by apply subs_same|done|done].
Qed.

Lemma disconnect_controller_ok ue c h : controller_ok h → controller_ok (OnDisconnect ue c h).
Proof.
  intros [[Hd Ha Hr] Hsub Hreg Hp Hpr Hsp].
  destruct (disconnected_parts ue c h) as (Eg & Er & Ei & Epr & Ep & Es & Ea).
  assert (∀ c', c' ≠ c → known c' h → known c' (OnDisconnect ue c h)) as Hmore.
  { intros c' Hne. unfold known. by rewrite Ei, lookup_delete_ne. }
  constructor.
  - constructor.
    + destruct Hd as [Hg Hpe]. constructor; [unfold h_gate in Eg; by rewrite Eg|]. unfold h_gate in Eg. rewrite Eg, Ep.
      intros id e [He _]%map_lookup_filter_Some. by eapply Hpe.
    + rewrite Ea. repeat case_match; try done. by apply MarkUspAgentDisconnected_ok.
    + rewrite Er. by apply registry_ok_Remove.
  - assert (h_reconciler (OnDisconnect ue c h) = subs_forget c (h_reconciler h)) as ->.
    { rewrite <-(h_reconciler_set (subs_forget c (h_reconciler h)) h). unfold OnDisconnect.
      destruct (Remove c (h_registry h)) as [[] registry]; [|done].
      change (reconciledDeviceID c (set_reconciler _ _)) with (reconciledDeviceID c h). by destruct (reconciledDeviceID c h). }
    by apply (subs_forget_ok msg).
  - intros k c' H. rewrite Er in H. assert (h_registry h !! k = Some c' ∧ c' ≠ c) as [Hk Hne]; [|by apply Hmore; eauto].
    unfold Remove in H. destruct (h_registry h !! c_endpoint c) as [x|] eqn:E; [destruct (bool_decide (x = c)) eqn:D|].
    + cbn in H. apply lookup_delete_Some in H as [Hk H]. split; [done|]. intros ->. by apply Hr in H.
    + cbn in H. bool_to_prop. split; [done|]. intros ->. pose proof (Hr _ _ H). cbn in *. congruence.
    + cbn in H. split; [done|]. intros ->. pose proof (Hr _ _ H). cbn in *. congruence.
  - intros id e. rewrite Ep. intros [He Hne]%map_lookup_filter_Some. eauto.
  - intros id c'. rewrite Epr. intros [He Hne]%map_lookup_filter_Some. eauto.
  - intros id e. rewrite Es. intros [He Hne]%map_lookup_filter_Some. eauto.
Qed.

Lemma dispatch_controller_ok ue dev h : controller_ok h → controller_ok (dispatch_for controllerID ue dev h).
Proof.
  intros Hok. pose proof (step_tryDispatch hash controllerID (h_agents h) (h_registry h) ue dev _
    (do_gate _ (ho_disp _ (co_ok _ Hok)))) as Hs.
  set (c := mkConn 0 "" KindMQTT). destruct Hok as [Hh Hsub Hr Hp Hpr Hsp].
  pose proof (touches_disp hash c dev _ _ _ Hs) as T. pose proof (subs_disp c _ dev _ _ Hs) as S. constructor; try done.
  - by eapply touches_handler_ok.
  - by apply (ss_ok _ _ _ S).
  - intros id e [He|(_ & _ & k & He)]%(to_pending _ _ _ _ _ T) Hw; [by eapply Hp|by eapply Hr].
Qed.

Lemma sweep_controller_ok ue h : controller_ok h → controller_ok (sweep_connections controllerID ue h).
Proof.
  intros Hok. unfold sweep_connections, sweepOnce. set (l := e_range _ _ _). clearbody l.
  assert (∀ h', h_agents h' = h_agents h → h_registry h' = h_registry h → controller_ok h' →
    controller_ok (set_disp (foldl (λ d kv, match GetUspAgentByEndpointID (h_agents h) (c_endpoint kv.2) with
                                           | Some (dev, _) => tryDispatch controllerID (h_agents h) (h_registry h) ue dev d
                                           | None => d
                                           end) (h_disp h') l) h')) as H; [|by apply H].
  clear Hok. induction l as [|kv l IH]; intros h' Ha Hr Hok; [cbn; by rewrite set_disp_id|]. cbn [foldl].
  destruct (GetUspAgentByEndpointID _ _) as [[dev a]|]; [|by apply IH].
  pose proof (dispatch_controller_ok ue dev h' Hok) as Hd. unfold dispatch_for in Hd. rewrite Ha, Hr in Hd.
  exact (IH (set_disp _ h') Ha Hr Hd).
Qed.

(** The lease of a dispatch whose check is long past. *)
Lemma lease_controller_ok ue conn dev h :
  closed_refuses ue conn h → controller_ok h → controller_ok (lease_for ue conn dev h).
Proof.
  intros Hc [[[Hg Hpe] Hag Hreg] Hsub Hr Hp Hpr Hsp].
  destruct (step_lease hash ue dev false (λ c, c = conn ∧ ∃ r, ue_send ue conn r = true) controllerID conn (h_disp h) Hg)
    as [[Ha _ _ Hpend _ Hn] _]; [done|eauto|]. unfold lease_for. set (d := (lease_and_send _ _ _ _ _).1) in *.
  constructor; try done.
  - constructor; [constructor|done|done]; cbn; [by eapply acts_for_ok|].
    intros id e [He|(Hd & Ho & _)]%Hpend; [|by rewrite Hd].
    eapply owned_kept_any; [exact (af_jobs _ _ _ _ Ha)|by eapply Hpe].
  - eapply (ss_ok (mkConn 0 "" KindMQTT)); [|exact Hsub]. by apply subs_same.
  - intros id e [He|(_ & _ & -> & r & Hr')]%Hpend Hw; [by eapply Hp|by eapply Hc].
Qed.

Lemma database_controller_ok dev g h :
  acts_for hash dev (h_gate h) g → controller_ok h → controller_ok (on_gate (λ _, g) h).
Proof.
  intros Ha [[[Hg Hpe] Hag Hreg] Hsub Hr Hp Hpr Hsp]. constructor; try done.
  constructor; [constructor|done|done]; cbn; [by eapply acts_for_ok|].
  intros id e He. eapply owned_kept_any; [exact (af_jobs _ _ _ _ Ha)|by eapply Hpe].
Qed.

Lemma step_controller_ok k k' : controller_step k k' → controller_ok (k_handler k) → controller_ok (k_handler k').
Proof.
  intros [ue c Hm Hn|principals catalogs subs ue c record Hm Hk|ue c Hm|ue dev Hm|ue Hm|dev conn Hd|ue dev conn rest Hm Hp Hc|
    dev g Ha] Hok; cbn [on_handler k_handler].
  - by apply connect_controller_ok.
  - by apply record_controller_ok.
  - by apply disconnect_controller_ok.
  - by apply dispatch_controller_ok.
  - by apply sweep_controller_ok.
  - done.
  - by apply lease_controller_ok.
  - by eapply database_controller_ok.
Qed.

Lemma started_ok g a e : gateway_ok g → agents_ok a → controller_ok (started g a e).
Proof.
  intros Hg Ha.
  constructor; [constructor; [constructor| |]|constructor|..];
    try (intros i x Hx; cbn in Hx; by rewrite lookup_empty in Hx); [done|by apply reset_agents_ok].
Qed.


(** A subscription pass ends with its connection: once the connection is gone
    no device is held as being reconciled on it, so the next connection of the
    device starts a pass of its own. *)
Theorem pass_ends_with_its_connection ue c h dev :
  controller_ok h →
  h_inFlight (OnDisconnect ue c h) !! dev ≠ Some c ∧
  ∀ c', c' ≠ c → h_inFlight h !! dev = Some c' → h_inFlight (OnDisconnect ue c h) !! dev = Some c'.
Proof.
  intros Hok. assert (h_inFlight (OnDisconnect ue c h) = rc_inFlight (subs_forget c (h_reconciler h))) as ->.
  { unfold OnDisconnect. destruct (Remove c (h_registry h)) as [[] registry]; [|done].
    change (reconciledDeviceID c (set_reconciler _ _)) with (reconciledDeviceID c h). by destruct (reconciledDeviceID c h). }
  split; [by apply (subs_forget_ok msg), (co_subs _ Hok)|].
  intros c' Hne Hf. apply map_lookup_filter_Some. split; [done|]. cbn. by rewrite bool_decide_false.
Qed.
End Reach.

(** ** A concrete run *)

(** A wire format of two messages: the agent's registration and an event. *)
Definition w_onboard : Msg :=
  mkMsg (Some (mkHeader "a-1" Header_NOTIFY))
    (Some (Body_Request (Request_Notify (mkNotify "" true
       (N_OnBoardReq (Some (mkPbOnBoard "0000CA" "FastMile" "S1" "1.2, 1.3"))))))).
Definition w_boot : Msg :=
  mkMsg (Some (mkHeader "a-2" Header_NOTIFY))
    (Some (Body_Request (Request_Notify (mkNotify "s" false (N_Event (Some (mkPbEvent "Device." "Boot!" ∅))))))).

#[local] Instance w_agent_wire : ProtoWire := {|
  marshal_record := λ r, match r_RecordType r with Rec_NoSessionContext p => Some p | _ => None end;
  unmarshal_record := λ w, Some (mkPbRecord "1.3" "self::acs" "os::0000CA-S1" Record_PLAINTEXT (Rec_NoSessionContext w));
  marshal_msg := λ m, Ok (GetMsgId m ++ " " ++ MsgType_name (GetMsgType m))%string;
  unmarshal_msg := λ w, if String.eqb w "onboard" then Some w_onboard else if String.eqb w "boot" then Some w_boot else None
|}.

(** Identifiers that never repeat. *)
Fixpoint w_msg (n : nat) : string := match n with O => "m" | S n => String "m" (w_msg n) end.

Lemma w_msg_inj : Inj (=) (=) w_msg.
Proof. intros n. induction n as [|n IH]; intros [|k] H; try (by destruct n || by destruct k); [|injection H as H; f_equal; auto]; done. Qed.

Definition w_reach_ue : UspEnv := mkUspEnv w_env w_msg (λ _ _, true).
Definition w_principals : Principals :=
  {["d-1" := mkPrincipal "d-1" "os::0000CA-S1" "ab" "agents/s1" true 1 1]}.

(** A device registered under the key USP agents report, with a reboot queued. *)
Definition w_usp_devices : Devices :=
  (PreRegister "d-1" 3 (NaturalKey (mkDeviceID "" "0000CA" "FastMile" "S1")) "Nokia" "0000CA" "FastMile" "S1" None [] ∅).2.
Definition w_usp_gateway : Gateway := mkGateway (mkWorld ∅ ∅ ∅ ∅ w_usp_devices no_params w_jobs) ∅ ∅.

Lemma w_usp_gateway_ok : gateway_ok w_usp_gateway.
Proof.
  constructor.
  - exact (reachable_ok _ _ w_jobs_reachable).
  - apply reachable_devices_ok, rtc_once, dstep_preregister.
  - vm_compute. reflexivity.
  - apply sales_ok_empty.
  - apply map_Forall_empty.
  - apply credentials_ok_empty.
Qed.

Definition w_start : Handler := started w_usp_gateway ∅ ∅.
Definition w_open : Handler := OnConnect "self::acs" w_reach_ue w_agent_conn w_start.
Definition w_linked : Handler :=
  OnRecord "self::acs" (λ _, false) (Some w_principals) [] ∅ w_reach_ue w_agent_conn "onboard" w_open.

Example w_linked_state :
  reconciledDeviceID w_agent_conn w_linked = Some "d-1" ∧
  (ua_EndpointID <$> h_agents w_linked !! "d-1") = Some "os::0000CA-S1" ∧
  snd <$> d_sent (h_disp w_linked) = ["m GET"; "mm OPERATE"; "mmm GET"; "mmmm NOTIFY_RESP"].
Proof. vm_compute. done. Qed.

Lemma agents_ok_empty : agents_ok ∅.
Proof. intros ? ? ? ? H. by rewrite lookup_empty in H. Qed.

Lemma w_linked_reached g :
  let linked := OnRecord "self::acs" (λ _, false) (Some w_principals) [] ∅ w_reach_ue w_agent_conn "onboard"
                  (OnConnect "self::acs" w_reach_ue w_agent_conn (started g ∅ ∅)) in
  is_Some (h_identities (OnConnect "self::acs" w_reach_ue w_agent_conn (started g ∅ ∅)) !! w_agent_conn) →
  rtc (controller_step w_hash "self::acs" (λ _, false) w_msg) (mkController (started g ∅ ∅) []) (mkController linked []).
Proof.
  cbv zeta. intros Hk. eapply rtc_l; [apply (cs_connect _ _ _ _ _ w_reach_ue w_agent_conn); done|].
  apply rtc_once. apply (cs_record _ _ _ _ (mkController _ [])); [done|exact Hk].
Qed.


Lemma w_open_ok : controller_ok w_msg w_open.
Proof.
  assert (Inj (=) (=) w_msg) by exact w_msg_inj. apply connect_controller_ok; [done|done|].
  apply started_ok; [exact w_usp_gateway_ok|exact agents_ok_empty].
Qed.

Lemma w_linked_ok : controller_ok w_msg w_linked.
Proof.
  assert (Inj (=) (=) w_msg) by exact w_msg_inj.
  apply (record_controller_ok w_hash "self::acs" (λ _, false) w_msg); [done|vm_compute; eauto|exact w_open_ok].
Qed.

Lemma pass_ends_with_its_connection_witness :
  h_inFlight w_linked !! "d-1" = Some w_agent_conn ∧
  h_inFlight (OnDisconnect w_reach_ue w_agent_conn w_linked) !! "d-1" ≠ Some w_agent_conn.
Proof.
  split; [by vm_compute|].
  apply (pass_ends_with_its_connection w_msg w_reach_ue w_agent_conn w_linked "d-1"). exact w_linked_ok.
Defined.

Lemma record_acts_for_its_device_witness :
  handler_ok w_linked ∧ carries "self::acs" "onboard" "os::0000CA-S1" w_onboard.
Proof.
  split.
  - apply (record_acts_for_its_device w_hash "self::acs" (λ _, false) (Some w_principals) [] ∅ w_reach_ue w_agent_conn
      "onboard" w_open). exact (co_ok _ _ w_open_ok).
  - eexists. split_and!; [by vm_compute|done|by vm_compute].
Defined.

Lemma production_binds_endpoint_to_device_witness : bound_to w_principals w_agent_conn "d-1".
Proof.
  apply (production_binds_endpoint_to_device "self::acs" (λ _, false) w_principals [] ∅ w_reach_ue w_agent_conn "onboard" w_open
    (co_ok _ _ w_open_ok)).
  by vm_compute.
Defined.

Lemma notification_is_recorded_once_witness :
  event_of w_boot = Some ("Device.", "Boot!", ∅) ∧
  is_Some (h_events (handle_message "self::acs" (λ _, false) None [] ∅ w_reach_ue w_agent_conn "os::0000CA-S1" w_boot w_linked)
             !! ("d-1", "a-2")).
Proof.
  assert (event_of w_boot = Some ("Device.", "Boot!", ∅)) as He by done. split; [exact He|].
  pose proof (notification_is_recorded_once "self::acs" (λ _, false) None [] ∅ w_reach_ue w_agent_conn "os::0000CA-S1"
    w_boot _ w_linked He) as H.
  assert (reconciledDeviceID w_agent_conn w_linked = Some "d-1") as Hd by (by vm_compute). rewrite Hd in H.
  destruct H as [-> _]; [vm_compute; eauto|]. unfold with_event.
  assert (h_events w_linked !! ("d-1", GetMsgId w_boot) = None) as Hn by (by vm_compute). rewrite Hn.
  exists (mkDeviceEvent "Device." "Boot!" ∅ (h_now w_reach_ue)). apply lookup_insert_eq.
Defined.

Lemma disconnect_forgets_one_connection_witness :
  h_identities (OnDisconnect w_reach_ue w_agent_conn w_linked) !! w_agent_conn = None ∧
  (ua_Connected <$> h_agents (OnDisconnect w_reach_ue w_agent_conn w_linked) !! "d-1") = Some false.
Proof.
  destruct (disconnect_forgets_one_connection w_reach_ue w_agent_conn w_linked (ho_registry _ (co_ok _ _ w_linked_ok)))
    as ((_ & Hi & _) & Hd & _).
  split; [exact Hi|]. assert (∃ a, h_agents w_linked !! "d-1" = Some a) as (a & Ha) by (vm_compute; eauto).
  erewrite Hd; [|by vm_compute|by vm_compute|exact Ha|]; [done|].
  assert (ua_EndpointID <$> h_agents w_linked !! "d-1" = Some "os::0000CA-S1") as E by (by vm_compute).
  rewrite Ha in E. by injection E.
Defined.

Definition w_second_conn : Conn := mkConn 2 "os::0000CA-S1" KindWebSocket.

Lemma dropped_replacement_stays_connected_witness :
  let h' := OnDisconnect w_reach_ue w_second_conn (OnDisconnect w_reach_ue w_agent_conn
              (OnConnect "self::acs" w_reach_ue w_second_conn w_linked)) in
  (ua_Connected <$> h_agents h' !! "d-1") = Some true ∧ h_registry h' !! "os::0000CA-S1" = None.
Proof.
  cbv zeta. destruct (dropped_replacement_stays_connected "self::acs" w_reach_ue w_agent_conn w_second_conn w_linked)
    as [Ha Hr]; [done|done|by vm_compute|]. rewrite Ha. split; [by vm_compute|exact Hr].
Defined.

(** ** Two requests in flight *)

(** The same device with nothing queued. *)
Definition w_quiet_gateway : Gateway := mkGateway (mkWorld ∅ ∅ ∅ ∅ w_usp_devices no_params ∅) ∅ ∅.

Lemma w_quiet_gateway_ok : gateway_ok w_quiet_gateway.
Proof.
  constructor.
  - apply (reachable_ok w_hash). apply rtc_refl.
  - apply reachable_devices_ok, rtc_once, dstep_preregister.
  - vm_compute. reflexivity.
  - apply sales_ok_empty.
  - apply map_Forall_empty.
  - apply credentials_ok_empty.
Qed.

Definition w_quiet : Handler :=
  OnRecord "self::acs" (λ _, false) (Some w_principals) [] ∅ w_reach_ue w_agent_conn "onboard"
    (OnConnect "self::acs" w_reach_ue w_agent_conn (started w_quiet_gateway ∅ ∅)).

Definition w_read (n : string) : gmap string Job → gmap string Job := λ tab,
  (Create false (mkFresh ("race-" ++ n)%string "20260101" n) 20 "d-1" TypeGetParameter
     (encode_GetParameter (mkGetParameterPayload "" false [("Device.X." ++ n)%string] false "")) "operator" tab).2.

(** The discovery sent on registration timed out, and two reads are queued. *)
Definition w_timed_out : Gateway := on_jobs (MarkTimeout 15 "f-0" "no answer") (h_gate w_quiet).
Definition w_two_queued : Gateway := on_jobs (w_read "2") (on_jobs (w_read "1") w_timed_out).

Lemma in_flight_at dev tab k :
  (λ j, (DeviceID j, Status j)) <$> tab !! k = Some (dev, StatusRPCSent) → rpc_in_flight dev tab k.
Proof. intros (j & Hj & [= Hd Hs])%fmap_Some. by exists j. Qed.

Lemma timeout_acts g now id dev m :
  (λ j, (DeviceID j, ID j)) <$> g_jobs g !! id = Some (dev, id) →
  acts_for w_hash dev g (on_jobs (MarkTimeout now id m) g).
Proof.
  intros (row & Hr & [= Hd Hi])%fmap_Some. subst dev. rewrite Hi. apply acts_jobs, jobs_for_timeout.
  exists row. by rewrite <- Hi.
Qed.

Lemma w_timed_out_acts : acts_for w_hash "d-1" (h_gate w_quiet) w_timed_out.
Proof. apply timeout_acts. by vm_compute. Qed.

Definition w_raced : Handler :=
  lease_for "self::acs" w_reach_ue w_agent_conn "d-1"
    (lease_for "self::acs" w_reach_ue w_agent_conn "d-1" (on_gate (λ _, w_two_queued) w_quiet)).

(** The check and the lease of a dispatch are separate statements, and nothing
    holds them together: two dispatches for one device (the sweep and the
    notification of a queued job, say) can both find nothing in flight and both
    lease and send, so the controller reaches a state with two requests of one
    device in flight. *)
Theorem two_requests_in_flight :
  ∃ k, rtc (controller_step w_hash "self::acs" (λ _, false) w_msg) (mkController (started w_quiet_gateway ∅ ∅) []) k ∧
    ¬ single_flight "d-1" (g_jobs (h_gate (k_handler k))) ∧
    length (d_sent (h_disp (k_handler k))) = S (S (length (d_sent (h_disp w_quiet)))).
Proof.
  exists (mkController w_raced []). split_and!.
  - etrans; [apply (w_linked_reached w_quiet_gateway); vm_compute; eauto|].
    eapply rtc_l; [apply (cs_database _ _ _ _ (mkController w_quiet []) "d-1" w_two_queued)|].
    { etrans; [exact w_timed_out_acts|]. etrans; [|apply acts_jobs, jobs_for_Create]. apply acts_jobs, jobs_for_Create. }
    cbn [on_handler k_handler k_checked]. set (h := on_gate (λ _, w_two_queued) w_quiet).
    assert (dispatch_ready (h_agents h) (h_registry h) "d-1" (h_disp h) = Some w_agent_conn) as Hr by (by vm_compute).
    eapply rtc_l; [exact (cs_check _ _ _ _ (mkController h []) _ _ Hr)|].
    eapply rtc_l; [exact (cs_check _ _ _ _ (mkController h [("d-1", w_agent_conn)]) _ _ Hr)|].
    cbn [k_handler k_checked].
    eapply rtc_l; [eapply (cs_lease _ _ _ _ (mkController h _) w_reach_ue "d-1" w_agent_conn); [done|cbn [k_checked]; reflexivity|]|].
    { intros record _ _. vm_compute. eauto. }
    eapply rtc_l; [eapply (cs_lease _ _ _ _ (mkController _ _) w_reach_ue "d-1" w_agent_conn); [done|cbn [k_checked]; reflexivity|]|].
    { intros record _ _. vm_compute. eauto. }
    apply rtc_refl.
  - intros Hs. assert (∀ n, n = "1" ∨ n = "2" → rpc_in_flight "d-1" (g_jobs (h_gate w_raced)) ("race-" ++ n)%string) as H.
    { intros n Hn. apply in_flight_at. destruct Hn as [-> | ->]; by vm_compute. }
    specialize (Hs _ _ (H "1" (or_introl eq_refl)) (H "2" (or_intror eq_refl))). discriminate Hs.
  - by vm_compute.
Qed.
