(* ===== verification/Server.v ===== *)
(** * One CWMP request ([handleCWMP] in [cmd/acs/session.go])

    From the HTTP request to the handler: the method, the rate limit of the
    address, the identity the certificate or the Authorization header asserts,
    the body, the restriction of a shared credential, the rate limit of the
    device, and then Inform, TransferComplete, a request of the device, or the
    session.

    The decisions of the two limiters are members of [CwmpPost] ([Ratelimit.v]
    says how they are made); a request that is answered before one of them does
    not depend on it. *)

From S2P Require Import Prelude GoStrings Json Cwmp JobModel JobStore Devices Credentials DigestAuth Admission.
From S2P Require Import Onboarding Sessions Render Gateway Inform.

(** What the server is started with ([main.go]). *)
Record ServerConfig : Type := mkServerConfig {
  sc_Username : string;
  sc_Password : string;
  sc_AllowBasic : bool;
  sc_NonceSecret : string;
  sc_inform : InformConfig
}.

Inductive ServerReply : Type :=
| SrvError (code : Z)
| SrvChallenge (stale : bool)
| SrvInform (reply : InformReply)
| SrvAnswer (reply : Response).

(** The authenticator looks per-device credentials up in the table. *)
Definition acs_authenticator (cfg : ServerConfig) (creds : Credentials) : DigestAuthenticator :=
  mkAuthenticator (sc_Username cfg) (sc_Password cfg) (sc_AllowBasic cfg)
    (Some (λ u, match LookupCWMPDigest creds u with
                | Some c => Some (cr_Password c, cr_DeviceID c)
                | None => None
                end))
    (sc_NonceSecret cfg).

Definition no_identity : inboundIdentity := mkIdentity_ "" "" "" false.

Section Server.
Context (md5 sha256 : string → string) (hmac_sha256 : string → string → string).
Context {S : Type} `{ReplayStore S}.
Context (key : option string) (unseal : string → string → string → option string).
Context (tr143_detail : list ParameterValueStruct → string → bool → json).
Context (url_hostname : string → option string).

Record ServerState : Type := mkServerState { sv_state : InformState; sv_replay : S }.

Inductive Identity : Type :=
| Identified (mode : AuthMode) (bound : inboundIdentity)
| Unidentified (stale : bool).

Definition request_identity (auth : DigestAuthenticator) (r : HTTPRequest) (now : GoTime) (s : S) : Identity * S :=
  match rq_TLS r with
  | Some (cn :: _) => (Identified AuthModeMTLS (mkIdentity_ "" "" (TrimSpace cn) false), s)
  | _ =>
      if Enabled auth then
        match Verify md5 sha256 hmac_sha256 auth r now s with
        | (AuthOk id, s') =>
            (Identified AuthModeDigest (mkIdentity_ (ai_BoundDeviceID id) (ai_Username id) "" (ai_SharedCredential id)), s')
        | (AuthStale, s') => (Unidentified true, s')
        | (AuthRejected, s') => (Unidentified false, s')
        end
      else (Identified AuthModeNone no_identity, s)
  end.

(** The request once its identity is known and its body is parsed. *)
Definition route (cfg : ServerConfig) (env : Env) (post : CwmpPost) (cookie : option string) (newID : string)
    (mode : AuthMode) (bound : inboundIdentity) (raw header_id : string) (body : InboundBody) (st : InformState)
  : ServerReply * InformState :=
  let g := is_gateway st in
  let at_ g' := mkInformState g' (is_last_tried st) in
  if sharedCredential bound && ic_shared_bootstrap_only (sc_inform cfg) && negb (is_some (ib_Inform body))
  then (SrvError 403, st)
  else if negb (po_device_allowed post) then (SrvError 429, st)
  else
    let respID := if String.eqb header_id "" then newID else header_id in
    let ns := DetectCWMPNamespace raw in
    match ib_Inform body, ib_TransferComplete body with
    | Some inform, _ =>
        let '(r, st') := handleInform url_hostname (sc_inform cfg) env (rq_RemoteIP (po_request post)) inform mode bound
                           respID ns st in (SrvInform r, st')
    | None, Some tc =>
        let '(r, g') := handleTransferComplete env tc bound respID ns g in (SrvAnswer r, at_ g')
    | None, None =>
        match writeCPEInitiatedReply body respID ns with
        | Some out => (SrvAnswer (RespXML out), st)
        | None => let '(r, g') := dispatch key unseal tr143_detail env cookie body bound g in (SrvAnswer r, at_ g')
        end
    end.

Definition handleCWMP (cfg : ServerConfig) (env : Env) (post : CwmpPost) (cookie : option string) (newID : string)
    (sv : ServerState) : ServerReply * ServerState :=
  let st := sv_state sv in
  let r := po_request post in
  if negb (String.eqb (rq_Method r) "POST") then (SrvError 405, sv)
  else if negb (po_ip_allowed post) then (SrvError 429, sv)
  else
    match request_identity (acs_authenticator cfg (ow_credentials (g_world (is_gateway st)))) r (e_now env) (sv_replay sv) with
    | (Unidentified stale, s') => (SrvChallenge stale, mkServerState st s')
    | (Identified mode bound, s') =>
        match po_body post with
        | BodyUnsupported => (SrvError 415, mkServerState st s')
        | BodyUnreadable | BodyMalformed _ => (SrvError 400, mkServerState st s')
        | BodyParsed raw header_id body =>
            let '(reply, st') := route cfg env post cookie newID mode bound raw header_id body st in
            (reply, mkServerState st' s')
        end
    end.

End Server.

(** ** One CWMP request: theorems

    The server as a transition system whose steps are whole HTTP requests: each
    one changes the rows of at most one device, and only of the device its
    credential or certificate asserts. *)

From S2P Require Import Prelude GoStrings Json Cwmp JobModel JobStore JobLaws Devices Credentials.
From S2P Require Import Encoding DigestAuth Admission ParamCache Onboarding OnboardingLaws Sessions Render.
From S2P Require Import Gateway GatewayLaws GatewayTheorems Inform InformLaws InformTheorems.

(** ** What the handlers of an open session may do *)

Section Handlers.
Context (hash : json → string) (key : option string) (unseal : string → string → string → option string).
Context (tr143_detail : list ParameterValueStruct → string → bool → json).

Lemma dispatch_effect env cookie body bound g :
  gateway_ok g →
  let g' := (dispatch key unseal tr143_detail env cookie body bound g).2 in
  g' = g ∨ ∃ dev, acts_for hash dev g g' ∧ identity_allows bound (g_devices g) dev = true.
Proof.
  intros Hok. cbv zeta. destruct cookie as [id|]; [|by left].
  destruct (g_sessions g !! id) as [s|] eqn:Es; [|left; unfold dispatch, GetSession; by rewrite Es].
  destruct (identity_allows bound (g_devices g) (ss_DeviceID s)) eqn:Ea.
  - right. exists (ss_DeviceID s). split; [by eapply acts_dispatch|done].
  - left. unfold dispatch, GetSession. rewrite Es, Ea. by destruct (IsClosed s).
Qed.

Lemma transfer_effect env tc bound respID ns g :
  gateway_ok g →
  let g' := (handleTransferComplete env tc bound respID ns g).2 in
  g' = g ∨ ∃ dev, acts_for hash dev g g' ∧ identity_allows bound (g_devices g) dev = true.
Proof.
  intros Hok. cbv zeta. destruct (ByCommandKey (g_jobs g) (tc_CommandKey tc)) as [job|] eqn:Ej;
    [|left; unfold handleTransferComplete; by rewrite Ej].
  destruct (identity_allows bound (g_devices g) (DeviceID job)) eqn:Ea.
  - right. exists (DeviceID job). split; [by eapply acts_transfer_complete|done].
  - left. unfold handleTransferComplete. by rewrite Ej, Ea.
Qed.

End Handlers.

(** ** Identity *)

Section Identity.
Context (md5 sha256 : string → string) (hmac_sha256 : string → string → string).
Context {S : Type} `{ReplayStore S}.

Lemma Verify_identity d r now (s s' : S) id :
  Verify md5 sha256 hmac_sha256 d r now s = (AuthOk id, s') →
  ∃ pw, passwordFor d (ai_Username id) = Some (pw, ai_BoundDeviceID id, negb (ai_SharedCredential id)).
Proof.
  unfold Verify. destruct (CutPrefix _ "Digest ") as [rest|].
  - unfold verifyDigest. cbv zeta. destruct (passwordFor d _) as [[[pw dev] per]|] eqn:Ep; [|done].
    repeat case_match; try done; intros [= <- <-]; simpl; rewrite negb_involutive; eauto.
  - destruct (CutPrefix _ "Basic ") as [rest|]; [|done]. destruct (da_AllowBasic d); [|done]. unfold verifyBasic.
    destruct (DecodeStd _); [|done]. destruct (Cut _ _) as [[user pass]|]; [|done].
    destruct (passwordFor d user) as [[[pw dev] per]|] eqn:Ep; [|done]. destruct (negb _); [done|].
    intros [= <- <-]. simpl. rewrite negb_involutive. eauto.
Qed.

(** How a request is identified: by its certificate, by the fleet's shared
    credential, or by a credential in the table. *)
Definition identified (cfg : ServerConfig) (creds : Credentials) (bound : inboundIdentity) : Prop :=
  (credentialDeviceID bound = EmptyString ∧ sharedCredential bound = false) ∨
  (bound = mkIdentity_ "" (sc_Username cfg) "" true) ∨
  ∃ c, LookupCWMPDigest creds (credentialUsername bound) = Some c ∧
    bound = mkIdentity_ (cr_DeviceID c) (credentialUsername bound) "" false.

Lemma passwordFor_identified cfg creds id :
  (∃ pw, passwordFor (acs_authenticator cfg creds) (ai_Username id) = Some (pw, ai_BoundDeviceID id, negb (ai_SharedCredential id))) →
  identified cfg creds (mkIdentity_ (ai_BoundDeviceID id) (ai_Username id) "" (ai_SharedCredential id)).
Proof.
  destruct id as [u dev sh]. intros [pw Hpw]. unfold passwordFor in Hpw. cbn in Hpw.
  destruct (_ && _) eqn:Eu in Hpw.
  - apply andb_true_iff in Eu as [_ Eu%String.eqb_eq]. subst. destruct sh; [|done]. injection Hpw as _ <-. right. by left.
  - destruct (String.eqb u "") in Hpw; [done|]. destruct (LookupCWMPDigest creds u) as [c|] eqn:Ec; [|done].
    destruct sh; [done|]. injection Hpw as _ <-. right. right. by exists c.
Qed.

Lemma request_identity_identified cfg creds r now (s s' : S) mode bound :
  request_identity md5 sha256 hmac_sha256 (acs_authenticator cfg creds) r now s = (Identified mode bound, s') →
  identified cfg creds bound ∧ (mode = AuthModeMTLS ∨ mode = AuthModeDigest) ∧
  (mode = AuthModeMTLS ↔ ∃ cn cns, rq_TLS r = Some (cn :: cns)) ∧
  (mode = AuthModeDigest → mtlsNaturalKey bound = EmptyString ∧
     ∃ id, Verify md5 sha256 hmac_sha256 (acs_authenticator cfg creds) r now s = (AuthOk id, s')).
Proof.
  unfold request_identity.
  destruct (rq_TLS r) as [[|cn cns]|] eqn:Et; cycle 1.
  { intros [= <- <- <-]. split_and!; [by left|by left|naive_solver|done]. }
  all: unfold Enabled; simpl is_some; rewrite orb_true_r;
    destruct (Verify _ _ _ _ _ _ _) as [[id| |] s1] eqn:Ev; try done; intros [= <- <- <-];
    (split_and!; [|by right|split; [done|intros (? & ? & [=])]|eauto]); by eapply passwordFor_identified, Verify_identity.
Qed.

Lemma identified_agrees cfg creds bound : identified cfg creds bound → bound_agrees creds bound.
Proof.
  intros [[Hd _]|[->|(c & Hc & ->)]] Hn; simpl in *; [done|done|]. intros c' Hc'. congruence.
Qed.

End Identity.

(** ** Requests *)

Section Requests.
Context (hash : json → string) (key : option string) (unseal : string → string → string → option string).
Context (tr143_detail : list ParameterValueStruct → string → bool → json) (url_hostname : string → option string).

(** [dev] may be acted for under [bound]: it is the credential's device, the
    certificate's device, and for a shared credential restricted to bootstrap a
    device not registered before. *)
Record acted_for (only : bool) (bound : inboundIdentity) (g g' : Gateway) (dev : string) : Prop := mk_acted_for {
  at_informs : informs_for hash dev g g';
  at_credential : credentialDeviceID bound = EmptyString ∨ credentialDeviceID bound = dev;
  at_certificate : mtlsNaturalKey bound = EmptyString ∨ claims g' (mtlsNaturalKey bound) dev;
  at_shared : sharedCredential bound = true → only = true → g_devices g !! dev = None
}.

Lemma acted_by_session only bound g g' dev :
  gateway_ok g → acts_for hash dev g g' → identity_allows bound (g_devices g) dev = true →
  sharedCredential bound && only = false → acted_for only bound g g' dev.
Proof.
  intros Hok Ha Hi Hs. unfold identity_allows in Hi. apply andb_true_iff in Hi as [H1 H2].
  rewrite orb_true_iff, !String.eqb_eq in H1. rewrite orb_true_iff, String.eqb_eq in H2. constructor.
  - by apply acts_informs.
  - done.
  - destruct H2 as [?|H2]; [by left|]. right. eapply claims_registers; [apply devices_for_registers, (af_devices _ _ _ _ Ha)|].
    unfold Get in H2. destruct (g_devices g !! dev) as [d|] eqn:E; [|done]. apply String.eqb_eq in H2. by exists d.
  - intros H3 H4. by rewrite H3, H4 in Hs.
Qed.

(** An Inform that changes anything has passed the guards. *)
Lemma inform_passes cfg env source inform mode bound respID ns st r st' :
  let nk := NaturalKey (Normalized (inf_DeviceId inform)) in
  (credentialDeviceID bound = EmptyString ∨ mtlsNaturalKey bound = EmptyString) →
  handleInform url_hostname cfg env source inform mode bound respID ns st = (r, st') →
  is_gateway st' = is_gateway st ∨
  (sharedCredential bound = true → ic_shared_bootstrap_only cfg = true → GetByOUIserial (g_devices (is_gateway st)) nk = None) ∧
  (mtlsNaturalKey bound = EmptyString ∨ mtlsNaturalKey bound = nk).
Proof.
  cbv zeta. intros Hone. unfold handleInform. cbv zeta. set (nk := NaturalKey _).
  destruct (_ || _); [intros [= <- <-]; by left|].
  destruct (GetByOUIserial (g_devices (is_gateway st)) nk) as [d|] eqn:Ed.
  - destruct (sharedCredential bound && ic_shared_bootstrap_only cfg && is_some (Some d)) eqn:Es; [intros [= <- <-]; by left|].
    destruct (String.eqb_spec (mtlsNaturalKey bound) "") as [Em|Em]; [right; split; [|by left]|].
    { intros H1 H2. by rewrite H1, H2 in Es. }
    destruct Hone as [Hone|]; [|done]. unfold admit_identity. rewrite Hone. simpl.
    destruct (String.eqb_spec (mtlsNaturalKey bound) nk); simpl; [|intros [= <- <-]; by left].
    right. split; [|by right]. intros H1 H2. by rewrite H1, H2 in Es.
  - simpl. rewrite andb_false_r.
    destruct (String.eqb_spec (mtlsNaturalKey bound) "") as [Em|Em]; [auto|].
    destruct Hone as [Hone|]; [|done]. unfold admit_identity. rewrite Hone. simpl.
    destruct (String.eqb_spec (mtlsNaturalKey bound) nk); simpl; [auto|intros [= <- <-]; by left].
Qed.

Lemma acted_by_inform cfg env source inform mode bound respID ns st r st' :
  let g := is_gateway st in
  let g' := is_gateway st' in
  gateway_ok g → e_uuid env 0%nat ≠ EmptyString → bound_agrees (ow_credentials (g_world g)) bound →
  (credentialDeviceID bound = EmptyString ∨ mtlsNaturalKey bound = EmptyString) →
  handleInform url_hostname cfg env source inform mode bound respID ns st = (r, st') →
  gateway_ok g' ∧ (g' = g ∨ ∃ dev, acted_for (ic_shared_bootstrap_only cfg) bound g g' dev).
Proof.
  cbv zeta. intros Hok Hu Hb Hone H. pose proof (inform_frame hash _ _ _ _ _ _ _ _ _ _ _ _ Hok Hu Hb H) as [Hok' Hf].
  split; [done|]. set (nk := NaturalKey _) in Hf.
  destruct (inform_passes _ _ _ _ _ _ _ _ _ _ _ Hone H) as [?|[Hsh Hm]]; [by left|]. fold nk in Hsh, Hm.
  destruct Hf as [?|(dev & Hi & Hc & Hcr)]; [by left|]. right. exists dev. constructor; [done|naive_solver| |].
  - destruct Hm as [|Hm]; [by left|]. right. by rewrite Hm.
  - intros H1 H2. specialize (Hsh H1 H2). destruct (g_devices (is_gateway st) !! dev) as [d|] eqn:Ed; [|done].
    destruct (proj2 (if_devices _ _ _ _ Hi) _ Ed) as (d' & Hd' & E). destruct Hc as (d2 & Hd2 & E2).
    destruct (GetByOUIserial_none _ _ _ _ Hsh Ed). congruence.
Qed.

Lemma route_effect cfg env post cookie newID mode bound raw header_id body st r st' :
  let g := is_gateway st in
  let g' := is_gateway st' in
  gateway_ok g → e_uuid env 0%nat ≠ EmptyString → bound_agrees (ow_credentials (g_world g)) bound →
  (credentialDeviceID bound = EmptyString ∨ mtlsNaturalKey bound = EmptyString) →
  route key unseal tr143_detail url_hostname cfg env post cookie newID mode bound raw header_id body st = (r, st') →
  gateway_ok g' ∧ (g' = g ∨ ∃ dev, acted_for (ic_shared_bootstrap_only (sc_inform cfg)) bound g g' dev).
Proof.
  cbv zeta. intros Hok Hu Hb Hone. unfold route. cbv zeta. set (only := ic_shared_bootstrap_only _).
  set (g := is_gateway st) in *.
  destruct (sharedCredential bound && only && negb (is_some (ib_Inform body))) eqn:Es; [intros [= <- <-]; auto|].
  destruct (negb (po_device_allowed post)); [intros [= <- <-]; auto|].
  destruct (ib_Inform body) as [inform|].
  { destruct (handleInform _ _ _ _ _ _ _ _ _ _) as [ri sti] eqn:Ei. intros [= <- <-]. by eapply acted_by_inform. }
  simpl in Es. rewrite andb_true_r in Es.
  assert (∀ g', (g' = g ∨ ∃ dev, acts_for hash dev g g' ∧ identity_allows bound (g_devices g) dev = true) →
    gateway_ok g' ∧ (g' = g ∨ ∃ dev, acted_for only bound g g' dev)) as Hse.
  { intros g' [->|(dev & Ha & Hi)]; [auto|]. split; [by eapply acts_for_ok|]. right. exists dev. by apply acted_by_session. }
  destruct (ib_TransferComplete body) as [tc|].
  { set (respID := if String.eqb _ _ then _ else _). set (ns := DetectCWMPNamespace raw).
    pose proof (Hse _ (transfer_effect hash env tc bound respID ns g Hok)) as He.
    destruct (handleTransferComplete _ _ _ _ _ _) as [ri gi]. by intros [= <- <-]. }
  destruct (writeCPEInitiatedReply _ _ _); [intros [= <- <-]; auto|].
  pose proof (Hse _ (dispatch_effect hash key unseal tr143_detail env cookie body bound g Hok)) as He.
  destruct (dispatch _ _ _ _ _ _ _ _) as [ri gi]. by intros [= <- <-].
Qed.

End Requests.

(** ** The server *)

Section Server.
Context (md5 sha256 : string → string) (hmac_sha256 : string → string → string).
Context {S : Type} `{ReplayStore S}.
Context (hash : json → string) (key : option string) (unseal : string → string → string → option string).
Context (tr143_detail : list ParameterValueStruct → string → bool → json) (url_hostname : string → option string).

Abbreviation serve := (handleCWMP md5 sha256 hmac_sha256 key unseal tr143_detail url_hostname).
Abbreviation gateway_of sv := (is_gateway (sv_state sv)).

(** What authenticates a request: a verified client certificate, or an
    Authorization header that [Verify] accepts for a credential in the table or
    the shared one. *)
Definition authenticated (cfg : ServerConfig) (now : GoTime) (r : HTTPRequest) (sv : ServerState) (bound : inboundIdentity) : Prop :=
  let creds := ow_credentials (g_world (gateway_of sv)) in
  (∃ cn cns, rq_TLS r = Some (cn :: cns) ∧ bound = mkIdentity_ "" "" (TrimSpace cn) false) ∨
  ∃ id, (Verify md5 sha256 hmac_sha256 (acs_authenticator cfg creds) r now (sv_replay sv)).1 = AuthOk id ∧
    bound = mkIdentity_ (ai_BoundDeviceID id) (ai_Username id) "" (ai_SharedCredential id) ∧
    (ai_BoundDeviceID id ≠ EmptyString → ∃ c, LookupCWMPDigest creds (ai_Username id) = Some c ∧ cr_DeviceID c = ai_BoundDeviceID id).

Lemma request_identity_authenticated cfg now r (sv : ServerState) mode bound s' :
  request_identity md5 sha256 hmac_sha256 (acs_authenticator cfg (ow_credentials (g_world (gateway_of sv)))) r now
    (sv_replay sv) = (Identified mode bound, s') →
  authenticated cfg now r sv bound ∧ bound_agrees (ow_credentials (g_world (gateway_of sv))) bound ∧
  (credentialDeviceID bound = EmptyString ∨ mtlsNaturalKey bound = EmptyString).
Proof.
  intros H1. destruct (request_identity_identified _ _ _ _ _ _ _ _ _ _ _ H1) as (Hid & _ & _ & _).
  pose proof (identified_agrees _ _ _ Hid) as Hb. split_and!; [|done|].
  - unfold authenticated. unfold request_identity in H1. 
    destruct (rq_TLS r) as [[|cn cns]|]; cycle 1.
    { injection H1 as _ <- _. left. eauto. }
    all: revert H1; unfold Enabled; simpl is_some; rewrite orb_true_r;
      destruct (Verify _ _ _ _ _ _ _) as [[id| |] s1] eqn:Ev; try done; intros [= <- <- <-]; right; exists id;
      (split_and!; [done|done|]); intros Hn; destruct Hid as [[Hd _]|[[=]|(c & Hc & [=])]]; [done|congruence|eauto].
  - destruct Hid as [[? _]|[->|(c & _ & ->)]]; simpl; auto.
Qed.

Lemma serve_effect cfg env post cookie newID sv :
  let g := gateway_of sv in
  let g' := gateway_of (serve cfg env post cookie newID sv).2 in
  gateway_ok g → e_uuid env 0%nat ≠ EmptyString →
  gateway_ok g' ∧
  (g' = g ∨ ∃ bound dev, authenticated cfg (e_now env) (po_request post) sv bound ∧
      acted_for hash (ic_shared_bootstrap_only (sc_inform cfg)) bound g g' dev).
Proof.
  cbv zeta. intros Hok Hu. unfold handleCWMP. cbv zeta.
  destruct (negb _); [auto|]. destruct (negb _); [auto|].
  destruct (request_identity _ _ _ _ _ _ _) as [[mode bound|stale] s1] eqn:Ei; [|auto].
  apply request_identity_authenticated in Ei as (Hau & Hb & Hone).
  destruct (po_body post) as [| |raw|raw header_id body]; [auto..|].
  destruct (route _ _ _ _ _ _ _ _ _ _ _ _ _ _ _) as [r st'] eqn:Er. cbn [snd sv_state].
  apply (route_effect hash) in Er as [Hok' He]; [|done..]. split; [done|].
  destruct He as [?|(dev & He)]; [by left|]. right. by exists bound, dev.
Qed.


(** A request is a step of the server. *)
Inductive server_step : ServerState → ServerState → Prop :=
| sstep_request cfg env post cookie newID sv :
    e_uuid env 0%nat ≠ EmptyString → server_step sv (serve cfg env post cookie newID sv).2.

(** C2: the server refines the job queue. From consistent tables, whatever
    requests arrive, each one changes the job table by a sequence of repository
    calls, so the table stays one of the reachable tables of the queue
    (everything proved of those holds under the server), and the rows of jobs,
    devices, sales, sessions and credentials stay consistent. *)
Theorem server_refines_the_job_queue sv sv' :
  rtc server_step sv sv' → gateway_ok (gateway_of sv) → reachable hash (g_jobs (gateway_of sv)) →
  reachable hash (g_jobs (gateway_of sv')) ∧ gateway_ok (gateway_of sv').
Proof.
  induction 1 as [|a b c Hs _ IH]; [done|]. intros Hok Hr. destruct Hs as [cfg env post cookie newID sv Hu].
  destruct (serve_effect cfg env post cookie newID sv Hok Hu) as [Hok' He]. apply IH; [done|].
  destruct He as [->|(bound & dev & _ & [Hi _ _ _])]; [done|].
  unfold reachable. etrans; [exact Hr|]. apply (jf_steps _ _ _ _ (if_jobs _ _ _ _ Hi)).
Qed.

End Server.

(** ** A concrete request *)

Definition w_server_config : ServerConfig := mkServerConfig "" "" false "nonce-secret" w_inform_config.

Definition w_inform_body : InboundBody :=
  mkInboundBody (Some w_inform) None None None None None None None None None None None None None None None None [].

(** The device's own certificate. *)
Definition w_post : CwmpPost :=
  mkPost (mkRequest "POST" "/cwmp" "" (Some [NaturalKey (Normalized w_device_id)]) "10.0.0.1") None
    (BodyParsed "urn:dslforum-org:cwmp-1-2" "7" w_inform_body) true true.

Definition w_server : ServerState (S := NonceTable) := mkServerState (mkInformState w_before_inform ∅) ∅.

Definition w_served : ServerReply * ServerState (S := NonceTable) :=
  handleCWMP DigestAuth.w_hash DigestAuth.w_hash w_hmac None w_unseal w_tr143 (λ _, None) w_server_config w_env w_post
    None "9" w_server.


Lemma server_refines_the_job_queue_witness :
  reachable GatewayTheorems.w_hash (g_jobs (is_gateway (sv_state w_served.2))) ∧
  Status <$> g_jobs (is_gateway (sv_state w_served.2)) !! "j-1" = Some StatusFailed.
Proof.
  split; [|vm_compute; reflexivity].
  destruct (server_refines_the_job_queue DigestAuth.w_hash DigestAuth.w_hash w_hmac GatewayTheorems.w_hash None
    w_unseal w_tr143 (λ _, None) w_server w_served.2) as [H _].
  - apply rtc_once. apply (sstep_request _ _ _ _ _ _ _ w_server_config w_env w_post None "9" w_server). vm_compute. discriminate.
  - exact w_before_inform_ok.
  - exact w_reply_reachable.
  - exact H.
Defined.
