(* ===== verification/Operators.v ===== *)
(** * Operators and tenancy

    [internal/operators]: roles, the permission matrix, operator accounts and
    password-reset tokens; [internal/tenancy]: regions, customers, projects and
    the scopes that confine an operator to some customers. Each repository
    statement is a function from table to table. *)

From S2P Require Import Prelude GoStrings Encoding Devices.

Definition ErrNoRows : string := "sql: no rows in result set".

(** ** Roles ([operator.go]) *)

Definition RoleReadOnly : string := "readonly".
Definition RoleNOC : string := "noc".
Definition RoleManager : string := "manager".
Definition RoleSuperAdmin : string := "superadmin".
Definition RoleOperator : string := RoleNOC.
Definition RoleAdmin : string := RoleSuperAdmin.

Definition rank (role : string) : option Z :=
  if String.eqb role RoleReadOnly then Some 0
  else if String.eqb role RoleNOC then Some 1
  else if String.eqb role RoleManager then Some 2
  else if String.eqb role RoleSuperAdmin then Some 3
  else None.

Definition AllRoles : list string := [RoleReadOnly; RoleNOC; RoleManager; RoleSuperAdmin].

Definition ValidRole (role : string) : bool := is_some (rank role).

Definition AtLeast (role min : string) : bool :=
  match rank role, rank min with
  | Some r, Some m => m <=? r
  | _, _ => false
  end.

(** ** Permissions *)

Definition PermDevicesWrite : string := "devices.write".
Definition PermConnectionReq : string := "connection_request".
Definition PermDiagnosticsRun : string := "diagnostics.run".
Definition PermFirmwareManage : string := "firmware.manage".
Definition PermTemplateManage : string := "template.manage".
Definition PermPolicyManage : string := "policy.manage".
Definition PermScheduleManage : string := "schedule.manage".
Definition PermGroupManage : string := "group.manage".
Definition PermCredentialManage : string := "credential.manage".
Definition PermCLIAccess : string := "cli.access".
Definition PermBulkActions : string := "bulk_actions".
Definition PermUploadRequest : string := "upload.request".
Definition PermSubscriberManage : string := "subscriber.manage".
Definition PermMonitoringView : string := "monitoring.view".
Definition PermTenancyManage : string := "tenancy.manage".

Definition AllPermissions : list string :=
  [PermDevicesWrite; PermConnectionReq; PermDiagnosticsRun; PermFirmwareManage;
   PermTemplateManage; PermPolicyManage; PermScheduleManage; PermGroupManage;
   PermCredentialManage; PermCLIAccess; PermBulkActions; PermUploadRequest; PermTenancyManage;
   PermMonitoringView; PermSubscriberManage].

(** Go's [map[string]map[string]bool]. *)
Abbreviation Matrix := (gmap string (gmap string bool)) (only parsing).

Definition manager_defaults : list (string * bool) :=
  [(PermDevicesWrite, true); (PermConnectionReq, true); (PermDiagnosticsRun, true); (PermFirmwareManage, true);
   (PermTemplateManage, true); (PermPolicyManage, true); (PermScheduleManage, true); (PermGroupManage, true);
   (PermCredentialManage, true); (PermCLIAccess, true); (PermBulkActions, true); (PermUploadRequest, true);
   (PermTenancyManage, true); (PermMonitoringView, true); (PermSubscriberManage, true)].

Definition noc_defaults : list (string * bool) :=
  [(PermDevicesWrite, true); (PermConnectionReq, true); (PermDiagnosticsRun, true); (PermFirmwareManage, false);
   (PermTemplateManage, false); (PermPolicyManage, false); (PermScheduleManage, false); (PermGroupManage, false);
   (PermCredentialManage, false); (PermCLIAccess, true); (PermBulkActions, true); (PermUploadRequest, true);
   (PermTenancyManage, false); (PermMonitoringView, true); (PermSubscriberManage, false)].

Definition readonly_defaults : list (string * bool) :=
  [(PermDevicesWrite, false); (PermConnectionReq, false); (PermDiagnosticsRun, false); (PermFirmwareManage, false);
   (PermTemplateManage, false); (PermPolicyManage, false); (PermScheduleManage, false); (PermGroupManage, false);
   (PermCredentialManage, false); (PermCLIAccess, false); (PermBulkActions, false); (PermUploadRequest, false);
   (PermTenancyManage, false); (PermMonitoringView, false); (PermSubscriberManage, false)].

Definition defaultPermissions : Matrix :=
  <[RoleManager := list_to_map manager_defaults]>
    (<[RoleNOC := list_to_map noc_defaults]> {[RoleReadOnly := list_to_map readonly_defaults]}).

(** [role_permissions], by its primary key. *)
Abbreviation RolePermissions := (gmap (string * string) bool) (only parsing).

(** The rows that were read, into the map of maps. *)
Definition collect (rows : list (string * string * bool)) (out : Matrix) : Matrix :=
  foldl (λ m '(role, perm, granted), <[role := <[perm := granted]> (default ∅ (m !! role))]> m) out rows.

(** [out[role][perm] = granted] where no entry is there yet. *)
Definition fill_defaults (out : Matrix) : Matrix :=
  map_imap (λ role row,
    Some (match defaultPermissions !! role with Some d => row ∪ d | None => row end)) out.

Definition PermissionRepository_All (t : RolePermissions) : Matrix :=
  fill_defaults (collect (map_to_list t)
    (<[RoleManager := ∅]> (<[RoleNOC := ∅]> {[RoleReadOnly := ∅]}))).

(** [CHECK (role IN ('manager', 'noc', 'readonly'))] is the handler's test too. *)
Definition PermissionRepository_Set (role permission : string) (granted : bool) (t : RolePermissions)
  : RolePermissions := <[(role, permission) := granted]> t.

Definition PermissionRepository_Has (t : RolePermissions) (role permission : string) : bool :=
  if String.eqb role RoleSuperAdmin then true
  else match t !! (role, permission) with
  | Some granted => granted
  | None => match defaultPermissions !! role with
            | Some d => default false (d !! permission)
            | None => false
            end
  end.

(** ** Operator accounts ([repository.go]) *)

Record Operator : Type := mkOperator {
  op_ID : string;
  op_Username : string;
  op_Email : string;
  op_PasswordHash : string;
  op_Role : string;
  op_CreatedAt : GoTime;
  op_UpdatedAt : GoTime;
  op_TokenVersion : Z;
  op_GlobalAccess : bool;
  op_DisabledAt : option GoTime
}.

Abbreviation Operators := (gmap string Operator) (only parsing).

Definition ErrUsernameTaken : string := "username already exists".

Definition named (username : string) (o : Operator) : bool := String.eqb (op_Username o) username.

(** [token_version] and [global_access] take their column defaults. *)
Definition Operators_Create (uuid : string) (now : GoTime) (username email passwordHash role : string)
    (tab : Operators) : result Operator * Operators :=
  if negb (ValidRole role) then (Err "violates check constraint operators_role_check", tab)
  else if is_some (tab !! uuid) || existsb (named username) (rows tab) then (Err ErrUsernameTaken, tab)
  else let o := mkOperator uuid username email passwordHash role now now 1 false None in
       (Ok o, <[uuid := o]> tab).

Definition ByUsername (tab : Operators) (username : string) : option Operator :=
  List.find (named username) (rows tab).

Definition Operators_ByID (tab : Operators) (id : string) : option Operator := tab !! id.

Definition Operators_Count (tab : Operators) : nat := size tab.

(** [UPDATE ... WHERE id = $1]; zero rows are [sql.ErrNoRows]. *)
Definition must_update (id : string) (f : Operator → Operator) (tab : Operators) : result unit * Operators :=
  let '(tab', n) := update_key id (λ _, true) f tab in
  (if n =? 0 then Err ErrNoRows else Ok tt, tab').

Definition global_row (now : GoTime) (global : bool) (o : Operator) : Operator :=
  mkOperator (op_ID o) (op_Username o) (op_Email o) (op_PasswordHash o) (op_Role o)
    (op_CreatedAt o) now (op_TokenVersion o) global (op_DisabledAt o).

Definition SetGlobalAccess (now : GoTime) (id : string) (global : bool) : Operators → result unit * Operators :=
  must_update id (global_row now global).

Definition disable_row (now : GoTime) (o : Operator) : Operator :=
  mkOperator (op_ID o) (op_Username o) (op_Email o) (op_PasswordHash o) (op_Role o)
    (op_CreatedAt o) now (op_TokenVersion o + 1) (op_GlobalAccess o) (Some now).

Definition enable_row (now : GoTime) (o : Operator) : Operator :=
  mkOperator (op_ID o) (op_Username o) (op_Email o) (op_PasswordHash o) (op_Role o)
    (op_CreatedAt o) now (op_TokenVersion o) (op_GlobalAccess o) None.

Definition SetDisabled (now : GoTime) (id : string) (disabled : bool) : Operators → result unit * Operators :=
  must_update id (if disabled then disable_row now else enable_row now).

Definition active_admin (o : Operator) : bool :=
  String.eqb (op_Role o) RoleAdmin && negb (is_some (op_DisabledAt o)).

Definition CountActiveAdmins (tab : Operators) : Z := Z.of_nat (length (List.filter active_admin (rows tab))).

(** A password change and a revocation both move [token_version]. *)
Definition UpdatePassword (now : GoTime) (id passwordHash : string) (tab : Operators) : Operators :=
  (update_key id (λ _, true) (λ o,
    mkOperator (op_ID o) (op_Username o) (op_Email o) passwordHash (op_Role o)
      (op_CreatedAt o) now (op_TokenVersion o + 1) (op_GlobalAccess o) (op_DisabledAt o)) tab).1.

Definition RevokeSessions (now : GoTime) (id : string) (tab : Operators) : Operators :=
  (update_key id (λ _, true) (λ o,
    mkOperator (op_ID o) (op_Username o) (op_Email o) (op_PasswordHash o) (op_Role o)
      (op_CreatedAt o) now (op_TokenVersion o + 1) (op_GlobalAccess o) (op_DisabledAt o)) tab).1.

Definition TokenVersion (tab : Operators) (username : string) : option Z :=
  op_TokenVersion <$> ByUsername tab username.

(** ** Password-reset tokens ([permissions.go]) *)

Record ResetToken : Type := mkResetToken {
  rt_OperatorID : string;
  rt_ExpiresAt : GoTime;
  rt_UsedAt : option GoTime
}.

Abbreviation ResetTokens := (gmap string ResetToken) (only parsing).

Definition ErrTokenInvalid : string := "reset token invalid, expired, or already used".
Definition resetTokenTTL : GoDuration := 4 * Hour.

(** [random] are the 32 bytes read from [crypto/rand]. *)
Definition CreateResetToken (random : string) (now : GoTime) (operatorID : string) (tab : Operators)
    (tokens : ResetTokens) : result (string * GoTime) * ResetTokens :=
  let token := EncodeToString random in
  let expiresAt := now + resetTokenTTL in
  if is_some (tokens !! token) then (Err "insert reset token: duplicate key value", tokens)
  else if negb (is_some (tab !! operatorID)) then (Err "insert reset token: violates foreign key constraint", tokens)
  else (Ok (token, expiresAt), <[token := mkResetToken operatorID expiresAt None]> tokens).

Definition ConsumeResetToken (now : GoTime) (token : string) (tab : Operators) (tokens : ResetTokens)
  : result Operator * ResetTokens :=
  match tokens !! token with
  | None => (Err ErrTokenInvalid, tokens)
  | Some t =>
      if is_some (rt_UsedAt t) || (rt_ExpiresAt t <? now) then (Err ErrTokenInvalid, tokens)
      else match tab !! rt_OperatorID t with
           | None => (Err ("scan operator: " ++ ErrNoRows)%string, tokens)
           | Some o => (Ok o, <[token := mkResetToken (rt_OperatorID t) (rt_ExpiresAt t) (Some now)]> tokens)
           end
  end.

(** ** Tenancy ([tenancy.go], [scope.go]) *)

Record Region : Type := mkRegion { reg_ID : string; reg_Name : string; reg_CreatedAt : GoTime }.
Record Customer : Type := mkCustomer { cu_ID : string; cu_Name : string; cu_RegionID : option string }.
Record Project : Type := mkProject { pj_ID : string; pj_Name : string; pj_Description : string }.

Definition ScopeRegion : string := "region".
Definition ScopeCustomer : string := "customer".
Record Scope : Type := mkScope { sc_Type : string; sc_ID : string }.
#[global] Instance Scope_eq_dec : EqDecision Scope.
Proof. solve_decision. Defined.

Record Tenancy : Type := mkTenancy {
  ten_regions : gmap string Region;
  ten_customers : gmap string Customer;
  ten_projects : gmap string Project;
  ten_device_projects : gmap string (list string);
  ten_scopes : gmap string (list Scope)
}.

Definition CreateRegion (uuid : string) (now : GoTime) (name : string) (t : Tenancy) : result Region * Tenancy :=
  if is_some (ten_regions t !! uuid) || existsb (λ r, String.eqb (reg_Name r) name) (rows (ten_regions t))
  then (Err "create region: duplicate key value", t)
  else let r := mkRegion uuid name now in
       (Ok r, mkTenancy (<[uuid := r]> (ten_regions t)) (ten_customers t) (ten_projects t)
                        (ten_device_projects t) (ten_scopes t)).

Definition in_region (region : string) (c : Customer) : bool :=
  match cu_RegionID c with Some r => String.eqb r region | None => false end.

(** The foreign key of [customers] has no ON DELETE action. *)
Definition DeleteRegion (id : string) (t : Tenancy) : result unit * Tenancy :=
  if existsb (in_region id) (rows (ten_customers t))
  then (Err "delete region: violates foreign key constraint", t)
  else (Ok tt, mkTenancy (delete id (ten_regions t)) (ten_customers t) (ten_projects t)
                         (ten_device_projects t) (ten_scopes t)).

Definition CreateCustomer (uuid name : string) (regionID : option string) (t : Tenancy)
  : result Customer * Tenancy :=
  if is_some (ten_customers t !! uuid) then (Err "create customer: duplicate key value", t)
  else if match regionID with Some r => negb (is_some (ten_regions t !! r)) | None => false end
  then (Err "create customer: violates foreign key constraint", t)
  else let c := mkCustomer uuid name regionID in
       (Ok c, mkTenancy (ten_regions t) (<[uuid := c]> (ten_customers t)) (ten_projects t)
                        (ten_device_projects t) (ten_scopes t)).

(** [referenced]: a row of another table names the customer. *)
Definition DeleteCustomer (referenced : string → bool) (id : string) (t : Tenancy) : result unit * Tenancy :=
  if referenced id then (Err "delete customer: violates foreign key constraint", t)
  else (Ok tt, mkTenancy (ten_regions t) (delete id (ten_customers t)) (ten_projects t)
                         (ten_device_projects t) (ten_scopes t)).

Definition CreateProject (uuid name description : string) (t : Tenancy) : result Project * Tenancy :=
  if is_some (ten_projects t !! uuid) || existsb (λ p, String.eqb (pj_Name p) name) (rows (ten_projects t))
  then (Err "create project: duplicate key value", t)
  else let p := mkProject uuid name description in
       (Ok p, mkTenancy (ten_regions t) (ten_customers t) (<[uuid := p]> (ten_projects t))
                        (ten_device_projects t) (ten_scopes t)).

Definition tags_project (id : string) (l : list string) : bool := existsb (String.eqb id) l.

Definition DeleteProject (id : string) (t : Tenancy) : result unit * Tenancy :=
  if existsb (tags_project id) (rows (ten_device_projects t))
  then (Err "delete project: violates foreign key constraint", t)
  else (Ok tt, mkTenancy (ten_regions t) (ten_customers t) (delete id (ten_projects t))
                         (ten_device_projects t) (ten_scopes t)).

(** One transaction: the old rows go, the new ones come, or nothing happens. *)
Definition SetDeviceProjects (devices : gmap string Device) (deviceID : string) (projectIDs : list string)
    (t : Tenancy) : result unit * Tenancy :=
  if bool_decide (NoDup projectIDs)
     && forallb (λ p, is_some (ten_projects t !! p) && is_some (devices !! deviceID)) projectIDs
  then (Ok tt, mkTenancy (ten_regions t) (ten_customers t) (ten_projects t)
                         (<[deviceID := projectIDs]> (ten_device_projects t)) (ten_scopes t))
  else (Err "insert device project", t).

Definition DeviceProjects (t : Tenancy) (deviceID : string) : list Project :=
  omap (λ p, ten_projects t !! p) (default [] (ten_device_projects t !! deviceID)).

Definition AssignDeviceCustomer (now : GoTime) (deviceID : string) (customerID : option string)
  : gmap string Device → gmap string Device :=
  on_device deviceID (λ d, let o := d_ownership d in
    set_ownership now (mkOwnership customerID (d_SiteID o) (d_Tags o) (d_ReenrollUntil o)) d).

Definition OperatorScopes (t : Tenancy) (operatorID : string) : list Scope :=
  default [] (ten_scopes t !! operatorID).

Definition valid_scope_type (ty : string) : bool := String.eqb ty ScopeRegion || String.eqb ty ScopeCustomer.

Definition SetOperatorScopes (operators : Operators) (operatorID : string) (scopes : list Scope) (t : Tenancy)
  : result unit * Tenancy :=
  if bool_decide (NoDup scopes)
     && forallb (λ s, valid_scope_type (sc_Type s) && is_some (operators !! operatorID)) scopes
  then (Ok tt, mkTenancy (ten_regions t) (ten_customers t) (ten_projects t) (ten_device_projects t)
                         (<[operatorID := scopes]> (ten_scopes t)))
  else (Err "insert operator scope", t).

(** [if !seen[id] { seen[id] = true; ids = append(ids, id) }] *)
Definition add_unseen (ids : list string) (id : string) : list string :=
  if existsb (String.eqb id) ids then ids else ids ++ [id].

Definition customers_of_region (t : Tenancy) (region : string) : list string :=
  cu_ID <$> List.filter (in_region region) (rows (ten_customers t)).

Definition add_scope (t : Tenancy) (ids : list string) (s : Scope) : list string :=
  if String.eqb (sc_Type s) ScopeCustomer then add_unseen ids (sc_ID s)
  else if String.eqb (sc_Type s) ScopeRegion then foldl add_unseen ids (customers_of_region t (sc_ID s))
  else ids.

(** The second component is [scoped], always true. *)
Definition AccessibleCustomerIDs (t : Tenancy) (operatorID : string) : list string * bool :=
  (foldl (add_scope t) [] (OperatorScopes t operatorID), true).

(** ** Lemmas *)

Lemma elem_of_add_unseen ids id x : x ∈ add_unseen ids id ↔ x ∈ ids ∨ x = id.
Proof.
  unfold add_unseen. destruct (existsb (String.eqb id) ids) eqn:E.
  - apply existsb_exists in E as (y & Hy & ->%String.eqb_eq). apply list_elem_of_In in Hy. naive_solver.
  - rewrite elem_of_app, list_elem_of_singleton. done.
Qed.

Lemma elem_of_add_all ids l x : x ∈ foldl add_unseen ids l ↔ x ∈ ids ∨ x ∈ l.
Proof.
  revert ids. induction l as [|y l IH]; intros ids; simpl; [set_solver|].
  rewrite IH, elem_of_add_unseen, elem_of_cons. tauto.
Qed.

(** What one scope row opens. *)
Definition scope_opens (t : Tenancy) (s : Scope) (c : string) : Prop :=
  (sc_Type s = ScopeCustomer ∧ sc_ID s = c) ∨
  (sc_Type s = ScopeRegion ∧ ∃ k cu, ten_customers t !! k = Some cu ∧ cu_ID cu = c ∧ cu_RegionID cu = Some (sc_ID s)).

Lemma elem_of_add_scope t ids s x : x ∈ add_scope t ids s ↔ x ∈ ids ∨ scope_opens t s x.
Proof.
  unfold add_scope, scope_opens.
  destruct (String.eqb_spec (sc_Type s) ScopeCustomer) as [->|Hc].
  { rewrite elem_of_add_unseen. split; [naive_solver|]. intros [?|[[_ ->]|[? _]]]; [by left|by right|done]. }
  destruct (String.eqb_spec (sc_Type s) ScopeRegion) as [->|Hr]; [|naive_solver].
  rewrite elem_of_add_all. unfold customers_of_region. rewrite list_elem_of_fmap.
  split.
  - intros [?|(cu & -> & Hin)]; [by left|]. right; right. split; [done|].
    apply list_elem_of_In, filter_In in Hin as [Hin Hreg].
    apply list_elem_of_In, elem_of_rows in Hin as [k Hk]. exists k, cu. split_and!; [done|done|].
    unfold in_region in Hreg. destruct (cu_RegionID cu); [|done]. by apply String.eqb_eq in Hreg as ->.
  - intros [?|[[? _]|(_ & k & cu & Hk & <- & Hreg)]]; [by left|done|]. right. exists cu. split; [done|].
    apply list_elem_of_In, filter_In. split; [apply list_elem_of_In, elem_of_rows; eauto|].
    unfold in_region. rewrite Hreg. apply String.eqb_refl.
Qed.

Lemma elem_of_accessible t op c :
  c ∈ (AccessibleCustomerIDs t op).1 ↔ ∃ s, s ∈ OperatorScopes t op ∧ scope_opens t s c.
Proof.
  unfold AccessibleCustomerIDs. simpl.
  assert (∀ l ids, c ∈ foldl (add_scope t) ids l ↔ c ∈ ids ∨ ∃ s, s ∈ l ∧ scope_opens t s c) as H.
  { induction l as [|s l IH]; intros ids; simpl; [set_solver|].
    rewrite IH, elem_of_add_scope. set_solver. }
  rewrite H. set_solver.
Qed.

Lemma ByUsername_Some tab u o :
  ByUsername tab u = Some o → op_Username o = u ∧ ∃ k, tab !! k = Some o.
Proof.
  unfold ByUsername. intros H. apply find_some in H as [Hin Hn].
  apply list_elem_of_In, elem_of_rows in Hin. by apply String.eqb_eq in Hn.
Qed.

Lemma ByUsername_None tab u k o : ByUsername tab u = None → tab !! k = Some o → op_Username o ≠ u.
Proof.
  unfold ByUsername. intros H Hk <-.
  pose proof (find_none _ _ H o) as Hn. unfold named in Hn. rewrite String.eqb_refl in Hn.
  discriminate Hn. apply list_elem_of_In, elem_of_rows. eauto.
Qed.

(** Keys are ids and usernames are unique. *)
Definition operators_ok (tab : Operators) : Prop :=
  (∀ k o, tab !! k = Some o → op_ID o = k) ∧
  (∀ k k' o o', tab !! k = Some o → tab !! k' = Some o' → op_Username o = op_Username o' → k = k').

Lemma ByUsername_ok tab k o : operators_ok tab → tab !! k = Some o → ByUsername tab (op_Username o) = Some o.
Proof.
  intros [_ Hu] Hk. destruct (ByUsername tab (op_Username o)) as [o'|] eqn:E.
  - apply ByUsername_Some in E as (Hn & k' & Hk'). f_equal.
    assert (k' = k) as -> by eauto. congruence.
  - by destruct (ByUsername_None _ _ _ _ E Hk).
Qed.

(** An update of one account that leaves its name alone. *)
Lemma update_operator_ok id f tab :
  (∀ o, op_ID (f o) = op_ID o ∧ op_Username (f o) = op_Username o) →
  operators_ok tab → operators_ok (update_key id (λ _, true) f tab).1.
Proof.
  intros Hf [Hi Hu].
  assert (∀ k o, (update_key id (λ _, true) f tab).1 !! k = Some o →
    ∃ o0, tab !! k = Some o0 ∧ op_ID o = op_ID o0 ∧ op_Username o = op_Username o0) as Hback.
  { intros k o. rewrite lookup_update_key. case_decide; [|naive_solver].
    destruct (tab !! k) as [o0|]; simpl; [|done]. intros [= <-]. exists o0. by destruct (Hf o0). }
  split.
  - intros k o (o0 & H0 & -> & _)%Hback. eauto.
  - intros k k' o o' (o0 & H0 & _ & ->)%Hback (o1 & H1 & _ & ->)%Hback. eauto.
Qed.

Lemma create_operator_ok uuid now u e h role tab :
  operators_ok tab → operators_ok (Operators_Create uuid now u e h role tab).2.
Proof.
  intros [Hi Hu]. unfold Operators_Create. destruct (ValidRole role); simpl; [|done].
  destruct (is_some (tab !! uuid) || existsb (named u) (rows tab)) eqn:E; [done|].
  apply orb_false_iff in E as [Hn He]. destruct (tab !! uuid) eqn:Hid; [done|]. simpl.
  assert (∀ k o, tab !! k = Some o → op_Username o ≠ u) as Hfresh.
  { intros k o Hk <-. apply not_true_iff_false in He. apply He, existsb_exists.
    exists o. split; [apply list_elem_of_In, elem_of_rows; eauto|]. apply String.eqb_refl. }
  split.
  - intros k o [[<- <-]|[_ Hk]]%lookup_insert_Some; [done|eauto].
  - intros k k' o o' [[<- <-]|[_ Hk]]%lookup_insert_Some [[<- <-]|[_ Hk']]%lookup_insert_Some Heq; simpl in *; eauto.
    + by destruct (Hfresh _ _ Hk').
    + by destruct (Hfresh _ _ Hk).
Qed.

#[export] Hint Resolve update_operator_ok create_operator_ok : acs.
