(* ===== verification/Jwt.v ===== *)
(** * Operator and machine tokens

    [internal/auth/jwt.go]: HS256 tokens over the claims of a session. HMAC
    (bytes to bytes) and the text of a JSON value are arguments; instants are
    nanoseconds, and a token carries whole seconds. *)

From S2P Require Import Prelude GoStrings Encoding Json.

Definition ErrInvalidToken : string := "invalid or expired token".

Record Claims : Type := mkClaims {
  cl_Subject : string;
  cl_Role : string;
  cl_IssuedAt : GoTime;
  cl_ExpiresAt : GoTime;
  cl_Audience : string;
  cl_Version : Z;
  cl_Scopes : list string;
  cl_AccountIDs : list string;
  cl_GlobalAccess : bool;
  cl_CustomerID : string
}.

Definition AudienceBrowserTicket : string := "browser-ticket".
Definition AudienceGrafanaTicket : string := "grafana-ticket".
Definition AudienceGrafanaSession : string := "grafana-session".

(** [Time.Unix] and [time.Unix(s, 0)]. *)
Definition Unix (t : GoTime) : Z := t / Second.
Definition FromUnix (s : Z) : GoTime := s * Second.

(** [jwtPayload], as [json.Marshal] lays it out. *)
Definition encode_claims (c : Claims) : json :=
  JObj ([("sub", JStr (cl_Subject c)); ("role", JStr (cl_Role c));
         ("iat", JNum (Unix (cl_IssuedAt c))); ("exp", JNum (Unix (cl_ExpiresAt c)))]
        ++ omit_string "aud" (cl_Audience c)
        ++ omit_int "ver" (cl_Version c)
        ++ omit_list "scp" JStr (cl_Scopes c)
        ++ omit_list "accounts" JStr (cl_AccountIDs c)
        ++ omit_bool "global" (cl_GlobalAccess c)
        ++ omit_string "cust" (cl_CustomerID c)).

Definition decode_claims (j : json) : option Claims :=
  decode_struct (λ m,
    s ← decode_string (member "sub" m);
    r ← decode_string (member "role" m);
    i ← decode_int (member "iat" m);
    e ← decode_int (member "exp" m);
    a ← decode_string (member "aud" m);
    v ← decode_int (member "ver" m);
    sc ← decode_strings (member "scp" m);
    ac ← decode_strings (member "accounts" m);
    g ← decode_bool (member "global" m);
    cu ← decode_string (member "cust" m);
    Some (mkClaims s r (FromUnix i) (FromUnix e) a v sc ac g cu)) (Some j).

Definition dot : ascii := ".".

(** [{"alg":"HS256","typ":"JWT"}], whose quotation marks are byte 34. *)
Definition jwtHeader : string :=
  let q := String "034" "" in
  ("{" ++ q ++ "alg" ++ q ++ ":" ++ q ++ "HS256" ++ q ++ "," ++ q ++ "typ" ++ q ++ ":" ++ q ++ "JWT" ++ q ++ "}")%string.

Section Jwt.
Context (hmac : string → string → string) (Marshal : json → string) (Unmarshal : string → option json).

Definition sign (secret signingInput : string) : string := hmac secret signingInput.

Definition signing_input (c : Claims) : string :=
  (EncodeRawURL jwtHeader ++ String dot (EncodeRawURL (Marshal (encode_claims c))))%string.

Definition SignJWT (secret : string) (c : Claims) : string :=
  (signing_input c ++ String dot (EncodeRawURL (sign secret (signing_input c))))%string.

Definition VerifyJWT (now : GoTime) (secret token : string) : result Claims :=
  match Split token dot with
  | [h; p; s] =>
      match DecodeRawURL s with
      | None => Err ErrInvalidToken
      | Some got =>
          if negb (String.eqb (sign secret (h ++ String dot p)%string) got) then Err ErrInvalidToken
          else match DecodeRawURL p with
          | None => Err ErrInvalidToken
          | Some raw =>
              match Unmarshal raw ≫= decode_claims with
              | None => Err ErrInvalidToken
              | Some c => if cl_ExpiresAt c <? now then Err ErrInvalidToken else Ok c
              end
          end
      end
  | _ => Err ErrInvalidToken
  end.
End Jwt.

(** ** Lemmas *)

(** What the seconds of a token keep of the claims. *)
Definition in_seconds (c : Claims) : Claims :=
  mkClaims (cl_Subject c) (cl_Role c) (FromUnix (Unix (cl_IssuedAt c))) (FromUnix (Unix (cl_ExpiresAt c)))
    (cl_Audience c) (cl_Version c) (cl_Scopes c) (cl_AccountIDs c) (cl_GlobalAccess c) (cl_CustomerID c).

Lemma member_skip_int k k' z rest :
  String.eqb k k' = false → member k (omit_int k' z ++ rest) = member k rest.
Proof. intros Hne. unfold omit_int. destruct (z =? 0); simpl; [done|]. by rewrite Hne. Qed.

Lemma decode_omit_int k z rest :
  in_int64 z = true → member k rest = None → decode_int (member k (omit_int k z ++ rest)) = Some z.
Proof.
  intros Hz Hr. unfold omit_int. destruct (Z.eqb_spec z 0) as [->|]; simpl; [by rewrite Hr|].
  rewrite String.eqb_refl. simpl. by rewrite Hz.
Qed.

Definition claims_in_range (c : Claims) : Prop :=
  in_int64 (Unix (cl_IssuedAt c)) = true ∧ in_int64 (Unix (cl_ExpiresAt c)) = true ∧ in_int64 (cl_Version c) = true.

Ltac skip_claims := repeat first [ rewrite member_skip_int by reflexivity | progress skip_members ].

Ltac claim_member e v :=
  assert (e = Some v) as -> by
    (match e with context [member _ ?m] => unfold m end; skip_claims;
     first
       [ apply decode_omit_string | apply decode_omit_bool | apply decode_omit_strings
       | apply decode_omit_int; [assumption|]
       | rewrite member_here; reflexivity
       | rewrite member_here; cbn [decode_int]; match goal with H : in_int64 _ = true |- _ => rewrite H; reflexivity end ];
     skip_claims; reflexivity);
  cbn [mbind option_bind].

Lemma decode_encode_claims c : claims_in_range c → decode_claims (encode_claims c) = Some (in_seconds c).
Proof.
  intros (Hi & He & Hv). destruct c as [s r i e a v sc ac g cu]. cbn in Hi, He, Hv.
  unfold decode_claims, encode_claims, in_seconds.
  rewrite <- (app_nil_r (omit_string "cust" _)).
  cbn [cl_Subject cl_Role cl_IssuedAt cl_ExpiresAt cl_Audience cl_Version cl_Scopes cl_AccountIDs cl_GlobalAccess
       cl_CustomerID app].
  unfold decode_struct. set (m := _ :: _).
  claim_member (decode_string (member "sub" m)) s.
  claim_member (decode_string (member "role" m)) r.
  claim_member (decode_int (member "iat" m)) (Unix i).
  claim_member (decode_int (member "exp" m)) (Unix e).
  claim_member (decode_string (member "aud" m)) a.
  claim_member (decode_int (member "ver" m)) v.
  claim_member (decode_strings (member "scp" m)) sc.
  claim_member (decode_strings (member "accounts" m)) ac.
  claim_member (decode_bool (member "global" m)) g.
  claim_member (decode_string (member "cust" m)) cu.
  done.
Qed.

(** ** The text of a token *)

Lemma url_digit_no_dot d : 0 <= d < 64 → Ascii.eqb dot (url_digit d) = false.
Proof. revert d. apply below_64. repeat constructor. Qed.

Lemma EncodeRawURL_no_dot s : byte_in dot (EncodeRawURL s) = false.
Proof.
  induction s as [|a|a b|a b c s IH] using string_ind3; [done|..].
  - pose proof (byte_value_bounds a). destruct (sextets (byte_value a) 0 0 ltac:(done) ltac:(done) ltac:(done))
      as ((B1 & B2 & _) & _).
    rewrite Z.div_0_l, Z.add_0_r in B2 by done.
    cbn [EncodeRawURL byte_in]. by rewrite !url_digit_no_dot.
  - pose proof (byte_value_bounds a). pose proof (byte_value_bounds b).
    destruct (sextets (byte_value a) (byte_value b) 0 ltac:(done) ltac:(done) ltac:(done)) as ((B1 & B2 & B3 & _) & _).
    rewrite (Z.div_0_l 64), Z.add_0_r in B3 by done.
    cbn [EncodeRawURL byte_in]. by rewrite !url_digit_no_dot.
  - pose proof (byte_value_bounds a). pose proof (byte_value_bounds b). pose proof (byte_value_bounds c).
    destruct (sextets (byte_value a) (byte_value b) (byte_value c) ltac:(done) ltac:(done) ltac:(done))
      as ((B1 & B2 & B3 & B4) & _).
    cbn [EncodeRawURL byte_in]. by rewrite !url_digit_no_dot, IH.
Qed.

Section JwtLemmas.
Context (hmac : string → string → string) (Marshal : json → string) (Unmarshal : string → option json).

(** The text of these claims reads back. *)
Definition text_reads_back (c : Claims) : Prop := Unmarshal (Marshal (encode_claims c)) = Some (encode_claims c).

Lemma VerifyJWT_SignJWT now secret c :
  claims_in_range c → text_reads_back c → now <= FromUnix (Unix (cl_ExpiresAt c)) →
  VerifyJWT hmac Unmarshal now secret (SignJWT hmac Marshal secret c) = Ok (in_seconds c).
Proof.
  intros Hr Ht Hn. unfold VerifyJWT, SignJWT, signing_input at 1. rewrite string_app_assoc, string_app_cons.
  rewrite Split_app by apply EncodeRawURL_no_dot. rewrite Split_app by apply EncodeRawURL_no_dot.
  rewrite Split_nosep by apply EncodeRawURL_no_dot. rewrite !DecodeRawURL_EncodeRawURL.
  change (EncodeRawURL jwtHeader ++ String dot (EncodeRawURL (Marshal (encode_claims c))))%string
    with (signing_input Marshal c).
  rewrite String.eqb_refl. simpl. rewrite Ht. simpl. rewrite decode_encode_claims by done. simpl.
  destruct (Z.ltb_spec (FromUnix (Unix (cl_ExpiresAt c))) now); [lia|done].
Qed.

(** A token that verifies carries the signature of its first two parts. *)
Lemma VerifyJWT_signed now secret token c :
  VerifyJWT hmac Unmarshal now secret token = Ok c →
  ∃ h p s, Split token dot = [h; p; s] ∧
    DecodeRawURL s = Some (hmac secret (h ++ String dot p)%string) ∧
    (DecodeRawURL p ≫= Unmarshal) ≫= decode_claims = Some c ∧ now <= cl_ExpiresAt c.
Proof.
  unfold VerifyJWT. destruct (Split token dot) as [|h [|p [|s [|]]]]; try done.
  destruct (DecodeRawURL s) as [got|] eqn:Es; [|done].
  destruct (String.eqb_spec (sign hmac secret (h ++ String dot p)%string) got) as [<-|]; [|done]. simpl.
  destruct (DecodeRawURL p) as [raw|] eqn:Ep; [|done]. simpl.
  destruct (Unmarshal raw ≫= decode_claims) as [c'|] eqn:Ec; [|done].
  destruct (Z.ltb_spec (cl_ExpiresAt c') now); [done|]. intros [= <-].
  exists h, p, s. rewrite Ep. simpl. auto.
Qed.

(** A line break after the signature is skipped by the decoder. *)
Lemma drop_line_breaks_app a b : drop_line_breaks (a ++ b) = (drop_line_breaks a ++ drop_line_breaks b)%string.
Proof. induction a as [|c a IH]; simpl; [done|]. rewrite IH. by destruct (_ || _). Qed.

Lemma string_app_empty (s : string) : (s ++ "")%string = s.
Proof. induction s as [|c s IH]; [done|]. by rewrite string_app_cons, IH. Qed.

Definition with_line_break (token : string) : string := (token ++ String "010" "")%string.

Lemma Split_line_break s : ∃ l w, Split s dot = l ++ [w] ∧ Split (with_line_break s) dot = l ++ [with_line_break w].
Proof.
  unfold with_line_break. induction s as [|c s (l & w & E1 & E2)].
  - exists [], "". done.
  - rewrite string_app_cons. cbn [Split]. rewrite E1, E2. destruct (Ascii.eqb c dot).
    + by exists ("" :: l), w.
    + destruct l as [|v l]; simpl; [exists [], (String c w)|exists (String c v :: l), w]; done.
Qed.

Lemma VerifyJWT_line_break now secret token :
  VerifyJWT hmac Unmarshal now secret (with_line_break token) = VerifyJWT hmac Unmarshal now secret token.
Proof.
  destruct (Split_line_break token) as (l & w & E1 & E2). unfold VerifyJWT. rewrite E1, E2.
  destruct l as [|h [|p [|? ?]]]; [done|done| |by destruct l]. simpl.
  assert (DecodeRawURL (with_line_break w) = DecodeRawURL w) as ->; [|done].
  unfold DecodeRawURL, with_line_break. rewrite drop_line_breaks_app. simpl. by rewrite string_app_empty.
Qed.
End JwtLemmas.
