(* ===== verification/Routes.v ===== *)
(** * The route table of the operator API

    [cmd/api/routes.go] and the part of [net/http.ServeMux] it relies on:
    patterns with single-segment wildcards and one [{path...}], a literal
    segment winning over a wildcard and both over the rest of the path. A
    request's path is the list of its unescaped segments, as the mux sees it
    after cleaning (a last empty segment is a trailing slash); handlers are
    their Go names. *)

From S2P Require Import Prelude GoStrings Operators.

Record Request : Type := mkRequest {
  rq_Method : string;
  rq_Segments : list string;
  rq_Authorization : string;
  rq_QueryToken : string;
  rq_RemoteAddr : string
}.

Definition slash : ascii := "/".

(** [r.URL.Path] *)
Fixpoint path_text (segments : list string) : string :=
  match segments with
  | [] => ""
  | s :: rest => String slash (s ++ path_text rest)
  end.

Definition URL_Path (r : Request) : string := path_text (rq_Segments r).

(** ** Patterns *)

Inductive PatSeg : Type :=
| Lit (s : string)
| Wild
| Rest.

Definition parse_segment (s : string) : PatSeg :=
  if HasPrefix s "{" then (if HasSuffix s "...}" then Rest else Wild) else Lit s.

(** The text before the first slash is empty. *)
Definition parse_pattern (p : string) : list PatSeg := parse_segment <$> tail (Split p slash).

(** What stands between a request and a handler: nothing, [requireRole(min)],
    or [requireRole(op)] around [requirePermission(perm)]. *)
Inductive Gate : Type :=
| Unguarded
| MinRole (min : string)
| MinRolePerm (min perm : string).

Record Route : Type := mkRoute {
  ro_Method : string;
  ro_Pattern : list PatSeg;
  ro_Gate : Gate;
  ro_Handler : string
}.

Definition unguarded (method pattern handler : string) : Route :=
  mkRoute method (parse_pattern pattern) Unguarded handler.
Definition route (method pattern minRole handler : string) : Route :=
  mkRoute method (parse_pattern pattern) (MinRole minRole) handler.
Definition routePerm (method pattern perm handler : string) : Route :=
  mkRoute method (parse_pattern pattern) (MinRolePerm RoleOperator perm) handler.

(** [registerRoutes] *)
Definition registerRoutes : list Route :=
  [unguarded "GET" "/metrics" "metrics";
   unguarded "GET" "/healthz" "healthz";
   unguarded "GET" "/readyz" "readyz";
   unguarded "POST" "/api/v1/auth/login" "login";
   route "POST" "/api/v1/auth/ticket" RoleReadOnly "issueBrowserTicket";
   route "POST" "/api/v1/auth/logout" RoleReadOnly "logout";
   route "POST" "/api/v1/grafana/ticket" RoleReadOnly "issueGrafanaTicket";
   unguarded "GET" "/api/v1/grafana/enter" "grafanaEnter";
   unguarded "GET" "/api/v1/grafana/check" "grafanaCheck";
   route "POST" "/api/v1/auth/operators" RoleAdmin "createOperator";
   route "GET" "/api/v1/auth/operators" RoleAdmin "listOperators";
   route "PUT" "/api/v1/auth/operators/{id}/password" RoleAdmin "resetOperatorPassword";
   route "GET" "/api/v1/auth/role-permissions" RoleAdmin "getRolePermissions";
   route "PUT" "/api/v1/auth/role-permissions" RoleAdmin "setRolePermission";
   unguarded "POST" "/api/v1/auth/password-reset/request" "requestPasswordReset";
   unguarded "POST" "/api/v1/auth/password-reset/confirm" "confirmPasswordReset";
   route "POST" "/api/v1/auth/operators/{id}/scopes" RoleAdmin "setOperatorScopes";
   route "GET" "/api/v1/auth/operators/{id}/scopes" RoleAdmin "getOperatorScopes";
   route "PUT" "/api/v1/auth/operators/{id}/global-access" RoleAdmin "setOperatorGlobalAccess";
   route "PUT" "/api/v1/auth/operators/{id}/disabled" RoleAdmin "setOperatorDisabled";
   route "POST" "/api/v1/regions" RoleAdmin "createRegion";
   route "GET" "/api/v1/regions" RoleReadOnly "listRegions";
   route "DELETE" "/api/v1/regions/{id}" RoleAdmin "deleteRegion";
   route "POST" "/api/v1/customers" RoleAdmin "createCustomer";
   route "GET" "/api/v1/customers" RoleReadOnly "listCustomers";
   route "DELETE" "/api/v1/customers/{id}" RoleAdmin "deleteCustomer";
   route "POST" "/api/v1/projects" RoleAdmin "createProject";
   route "GET" "/api/v1/projects" RoleReadOnly "listProjects";
   route "DELETE" "/api/v1/projects/{id}" RoleAdmin "deleteProject";
   routePerm "PUT" "/api/v1/devices/{id}/customer" PermTenancyManage "assignDeviceCustomer";
   routePerm "PUT" "/api/v1/devices/{id}/projects" PermTenancyManage "setDeviceProjects";
   route "GET" "/api/v1/devices/{id}/projects" RoleReadOnly "getDeviceProjects";
   routePerm "POST" "/api/v1/devices/import" PermTenancyManage "importDevices";
   route "GET" "/api/v1/sites" RoleReadOnly "listSites";
   routePerm "POST" "/api/v1/sites" PermTenancyManage "createSite";
   route "GET" "/api/v1/sites/{id}" RoleReadOnly "getSite";
   route "GET" "/api/v1/service-plans" RoleReadOnly "listServicePlans";
   routePerm "POST" "/api/v1/service-plans" PermTenancyManage "createServicePlan";
   route "GET" "/api/v1/service-plans/{id}" RoleReadOnly "getServicePlan";
   route "GET" "/api/v1/onboardings" RoleReadOnly "listOnboardings";
   routePerm "POST" "/api/v1/onboardings" PermTenancyManage "createOnboarding";
   route "GET" "/api/v1/onboardings/unclaimed" RoleReadOnly "listUnclaimedDevices";
   route "GET" "/api/v1/onboardings/{id}" RoleReadOnly "getOnboarding";
   routePerm "POST" "/api/v1/onboardings/{id}/cancel" PermTenancyManage "onboardingAction:cancel";
   routePerm "POST" "/api/v1/onboardings/{id}/retry" PermTenancyManage "onboardingAction:retry";
   routePerm "POST" "/api/v1/onboardings/{id}/end" PermTenancyManage "endService";
   routePerm "POST" "/api/v1/onboardings/{id}/swap" PermTenancyManage "swapDevice";
   routePerm "PUT" "/api/v1/onboardings/{id}/site" PermTenancyManage "moveSaleSite";
   routePerm "PUT" "/api/v1/onboardings/{id}/plan" PermTenancyManage "changeSalePlan";
   route "GET" "/api/v1/devices" RoleReadOnly "listDevices";
   route "GET" "/api/v1/devices/summary" RoleReadOnly "listDevicesSummary";
   route "GET" "/api/v1/devices/ids" RoleReadOnly "listMatchingDeviceIDs";
   route "GET" "/api/v1/fleet-health" RoleReadOnly "fleetHealth";
   route "GET" "/api/v1/dashboard" RoleReadOnly "getDashboard";
   route "GET" "/api/v1/dashboard/layout" RoleReadOnly "getDashboardLayout";
   route "PUT" "/api/v1/dashboard/layout" RoleReadOnly "setDashboardLayout";
   routePerm "POST" "/api/v1/devices/bulk-actions" PermBulkActions "bulkAction";
   route "GET" "/api/v1/devices/{id}" RoleReadOnly "getDevice";
   route "GET" "/api/v1/devices/{id}/satellites" RoleReadOnly "listDeviceSatellites";
   route "GET" "/tmf-api/resourceInventoryManagement/v5/resource" RoleReadOnly "listTMF639Resources";
   route "GET" "/tmf-api/resourceInventoryManagement/v5/resource/{id}" RoleReadOnly "getTMF639Resource";
   route "GET" "/api/v1/devices/{id}/parameters" RoleReadOnly "getParameters";
   route "GET" "/api/v1/devices/{id}/parameters/history" RoleReadOnly "getParameterHistory";
   routePerm "PUT" "/api/v1/devices/{id}/parameters" PermDevicesWrite "putParameters";
   routePerm "POST" "/api/v1/devices/{id}/parameters/get" PermDevicesWrite "createGetParametersLive";
   routePerm "PUT" "/api/v1/devices/{id}/tags" PermDevicesWrite "updateDeviceTags";
   routePerm "PUT" "/api/v1/devices/{id}/label" PermDevicesWrite "updateDeviceLabel";
   routePerm "PUT" "/api/v1/devices/{id}/location" PermDevicesWrite "updateDeviceLocation";
   route "GET" "/api/v1/reports/devices/export" RoleReadOnly "exportDevicesExcel";
   route "GET" "/api/v1/bss/mappings" RoleAdmin "listBSSMappings";
   route "POST" "/api/v1/bss/mappings" RoleAdmin "createBSSMapping";
   route "GET" "/api/v1/bss/mappings/{account_id}/history" RoleAdmin "getBSSMappingHistory";
   route "DELETE" "/api/v1/bss/mappings/{account_id}/{role}" RoleAdmin "deleteBSSMapping";
   route "GET" "/api/v1/bss/oauth-clients" RoleAdmin "listBSSOAuthClients";
   route "POST" "/api/v1/bss/oauth-clients" RoleAdmin "createBSSOAuthClient";
   route "DELETE" "/api/v1/bss/oauth-clients/{id}" RoleAdmin "revokeBSSOAuthClient";
   route "PUT" "/api/v1/bss/accounts/{account_id}/customer" RoleAdmin "setBSSAccountCustomer";
   route "GET" "/api/v1/bss/webhooks" RoleAdmin "listBSSWebhooks";
   route "POST" "/api/v1/bss/webhooks" RoleAdmin "createBSSWebhook";
   route "DELETE" "/api/v1/bss/webhooks/{id}" RoleAdmin "deleteBSSWebhook";
   route "GET" "/api/v1/bss/stats" RoleAdmin "getBSSStats";
   route "GET" "/api/v1/bss/health" RoleAdmin "getBSSHealth";
   route "POST" "/api/v1/bss/troubleshoot/mapping-lookup" RoleAdmin "troubleshootMappingLookup";
   route "POST" "/api/v1/bss/troubleshoot/auth-check" RoleAdmin "troubleshootAuthCheck";
   route "POST" "/api/v1/bss/troubleshoot/job-status" RoleAdmin "troubleshootJobStatus";
   route "POST" "/api/v1/bss/troubleshoot/order-dispatch" RoleAdmin "troubleshootOrderDispatch";
   routePerm "POST" "/api/v1/device-groups" PermGroupManage "createDeviceGroup";
   route "GET" "/api/v1/device-groups" RoleReadOnly "listDeviceGroups";
   route "GET" "/api/v1/device-groups/{id}" RoleReadOnly "getDeviceGroup";
   routePerm "DELETE" "/api/v1/device-groups/{id}" PermGroupManage "deleteDeviceGroup";
   routePerm "POST" "/api/v1/device-groups/{id}/members" PermGroupManage "addDeviceGroupMembers";
   routePerm "DELETE" "/api/v1/device-groups/{id}/members/{device_id}" PermGroupManage "removeDeviceGroupMember";
   routePerm "POST" "/api/v1/devices/{id}/credentials/rotate" PermCredentialManage "rotateDeviceCredential";
   routePerm "POST" "/api/v1/devices/{id}/re-enroll" PermCredentialManage "openReenrollment";
   route "GET" "/api/v1/devices/{id}/credentials" RoleReadOnly "listDeviceCredentials";
   routePerm "POST" "/api/v1/devices/{id}/credentials/{credential_id}/activate" PermCredentialManage "activateDeviceCredential";
   routePerm "POST" "/api/v1/devices/{id}/credentials/{credential_id}/revoke" PermCredentialManage "revokeDeviceCredential";
   routePerm "POST" "/api/v1/devices/{id}/xmpp/provision" PermCredentialManage "provisionXMPP";
   route "GET" "/api/v1/devices/{id}/xmpp" RoleReadOnly "getDeviceXMPP";
   routePerm "POST" "/api/v1/scheduled-jobs" PermScheduleManage "createScheduledJob";
   route "GET" "/api/v1/scheduled-jobs" RoleReadOnly "listScheduledJobs";
   routePerm "DELETE" "/api/v1/scheduled-jobs/{id}" PermScheduleManage "deleteScheduledJob";
   routePerm "POST" "/api/v1/scheduled-jobs/{id}/enable" PermScheduleManage "setScheduledJobEnabled:true";
   routePerm "POST" "/api/v1/scheduled-jobs/{id}/disable" PermScheduleManage "setScheduledJobEnabled:false";
   routePerm "POST" "/api/v1/firmware/rollouts" PermFirmwareManage "createRollout";
   route "GET" "/api/v1/firmware/rollouts" RoleReadOnly "listRollouts";
   route "GET" "/api/v1/firmware/rollouts/{id}" RoleReadOnly "getRollout";
   routePerm "POST" "/api/v1/firmware/rollouts/{id}/start" PermFirmwareManage "startRollout";
   routePerm "POST" "/api/v1/firmware/rollouts/{id}/advance" PermFirmwareManage "advanceRollout";
   routePerm "POST" "/api/v1/config-templates" PermTemplateManage "createTemplate";
   route "GET" "/api/v1/config-templates" RoleReadOnly "listTemplates";
   routePerm "DELETE" "/api/v1/config-templates/{id}" PermTemplateManage "deleteTemplate";
   routePerm "POST" "/api/v1/config-templates/{id}/apply" PermTemplateManage "applyTemplate";
   routePerm "POST" "/api/v1/policies" PermPolicyManage "createPolicy";
   routePerm "POST" "/api/v1/alert-policies" PermPolicyManage "createAlertPolicy";
   route "GET" "/api/v1/alert-policies" RoleReadOnly "listAlertPolicies";
   routePerm "DELETE" "/api/v1/alert-policies/{id}" PermPolicyManage "deleteAlertPolicy";
   route "GET" "/api/v1/alert-incidents" RoleReadOnly "listAlertIncidents";
   routePerm "PATCH" "/api/v1/alert-incidents/{id}" PermPolicyManage "updateAlertIncident";
   route "GET" "/api/v1/policies" RoleReadOnly "listPolicies";
   routePerm "DELETE" "/api/v1/policies/{id}" PermPolicyManage "deletePolicy";
   routePerm "POST" "/api/v1/policies/{id}/enable" PermPolicyManage "setPolicyEnabled:true";
   routePerm "POST" "/api/v1/policies/{id}/disable" PermPolicyManage "setPolicyEnabled:false";
   route "GET" "/api/v1/audit-log" RoleReadOnly "listAuditLog";
   routePerm "POST" "/api/v1/devices/{id}/parameters/refresh-cellular" PermDiagnosticsRun "refreshCellularDiagnostics";
   routePerm "POST" "/api/v1/devices/{id}/parameters/refresh-wifi-clients" PermDiagnosticsRun "refreshWifiClients";
   routePerm "POST" "/api/v1/devices/{id}/diagnostics/ping" PermDiagnosticsRun "createDiagnosticsPing";
   routePerm "POST" "/api/v1/devices/{id}/diagnostics/traceroute" PermDiagnosticsRun "createDiagnosticsTraceroute";
   routePerm "POST" "/api/v1/devices/{id}/diagnostics/tr143/{direction}" PermDiagnosticsRun "createTR143";
   routePerm "POST" "/api/v1/devices/{id}/objects" PermDevicesWrite "createAddObject";
   routePerm "POST" "/api/v1/devices/{id}/objects/delete" PermDevicesWrite "createDeleteObject";
   routePerm "POST" "/api/v1/devices/{id}/reboot" PermDevicesWrite "createReboot";
   routePerm "POST" "/api/v1/devices/{id}/factory-reset" PermDevicesWrite "createFactoryReset";
   routePerm "POST" "/api/v1/devices/{id}/schedule-inform" PermDevicesWrite "createScheduleInform";
   routePerm "POST" "/api/v1/devices/{id}/parameter-attributes" PermDevicesWrite "createSetParameterAttributes";
   routePerm "POST" "/api/v1/devices/{id}/parameter-attributes/get" PermDevicesWrite "createGetParameterAttributes";
   routePerm "POST" "/api/v1/devices/{id}/connection-request" PermConnectionReq "createConnectionRequest";
   routePerm "POST" "/api/v1/devices/{id}/discover-parameters" PermDiagnosticsRun "createParameterDiscovery";
   route "GET" "/api/v1/devices/{id}/parameter-names" RoleReadOnly "getParameterNames";
   route "GET" "/api/v1/devices/{id}/discovery-export" RoleReadOnly "exportDiscovery";
   route "GET" "/api/v1/devices/{id}/standards-assessment" RoleReadOnly "getStandardsAssessment";
   route "GET" "/api/v1/devices/{id}/connection-diagnostics" RoleReadOnly "getConnectionDiagnostics";
   route "GET" "/api/v1/devices/{id}/wifi-topology" RoleReadOnly "getWiFiTopology";
   route "GET" "/api/v1/devices/{id}/wifi/networks" RoleReadOnly "getWiFiNetworks";
   route "POST" "/api/v1/devices/{id}/subscriber/reveal" RoleReadOnly "revealDeviceSubscriber";
   route "GET" "/api/v1/lookup" RoleReadOnly "lookupSubscribers";
   route "GET" "/api/v1/accounts/{account_id}/profile" RoleReadOnly "getAccountProfile";
   routePerm "PUT" "/api/v1/accounts/{account_id}/profile" PermSubscriberManage "putAccountProfile";
   routePerm "PUT" "/api/v1/devices/{id}/wifi/networks/{instance}" PermDevicesWrite "updateWiFiNetwork";
   route "GET" "/api/v1/standards/dictionary" RoleReadOnly "getStandardDictionary";
   routePerm "POST" "/api/v1/devices/{id}/bulk-data/configure" PermDevicesWrite "configureBulkData";
   routePerm "POST" "/api/v1/devices/{id}/discover-instances" PermDiagnosticsRun "discoverInstances";
   route "GET" "/api/v1/devices/{id}/instances" RoleReadOnly "getInstances";
   route "GET" "/api/v1/devices/{id}/compatibility" RoleReadOnly "getCompatibility";
   route "GET" "/api/v1/devices/{id}/5g-telemetry" RoleReadOnly "getFiveG";
   route "GET" "/api/v1/devices/{id}/telemetry-health" RoleReadOnly "getTelemetryHealth";
   routePerm "POST" "/api/v1/devices/{id}/bulk-data/receivers/{receiver_id}/renew" PermDevicesWrite "renewBulkData";
   route "GET" "/api/v1/devices/{id}/bulk-data/reports" RoleReadOnly "getBulkDataReports";
   routePerm "DELETE" "/api/v1/devices/{id}/bulk-data/receivers/{receiver_id}" PermDevicesWrite "revokeBulkData";
   unguarded "POST" "/api/v1/bulk-data/{id}/receive" "receiveBulkData";
   route "GET" "/api/v1/devices/{id}/cellular-capabilities" RoleReadOnly "getCellularCapabilities";
   route "GET" "/api/v1/devices/{id}/wifi/insights" RoleReadOnly "getWiFiInsights";
   route "GET" "/api/v1/devices/{id}/sim" RoleReadOnly "getSIM";
   route "POST" "/api/v1/devices/{id}/sim/reveal" RoleAdmin "revealSIM";
   route "GET" "/api/v1/devices/{id}/diagnostics-capabilities" RoleReadOnly "getDiagnosticsCapabilities";
   routePerm "POST" "/api/v1/devices/{id}/cli/credentials" PermCLIAccess "createCLICredential";
   route "GET" "/api/v1/devices/{id}/cli/credentials" RoleReadOnly "listCLICredentials";
   routePerm "DELETE" "/api/v1/devices/{id}/cli/credentials/{credential_id}" PermCLIAccess "deleteCLICredential";
   routePerm "POST" "/api/v1/devices/{id}/vpn/enroll" PermCLIAccess "enrollVPNPeer";
   routePerm "GET" "/api/v1/devices/{id}/vpn/config" PermCLIAccess "getVPNPeerConfig";
   route "GET" "/api/v1/vpn/peers" RoleReadOnly "listVPNPeers";
   routePerm "DELETE" "/api/v1/vpn/peers/{peer_id}" PermCLIAccess "revokeVPNPeer";
   route "GET" "/api/v1/vpn/concentrator" RoleReadOnly "getVPNConcentrator";
   routePerm "GET" "/api/v1/devices/{id}/cli/connect" PermCLIAccess "connectCLI";
   routePerm "PUT" "/api/v1/devices/{id}/webgui" PermCLIAccess "setWebGUIConfig";
   route "GET" "/api/v1/devices/{id}/webgui" RoleReadOnly "getWebGUIConfig";
   routePerm "DELETE" "/api/v1/devices/{id}/webgui" PermCLIAccess "deleteWebGUIConfig";
   routePerm "" "/api/v1/devices/{id}/webgui/proxy/{path...}" PermCLIAccess "proxyWebGUI";
   routePerm "POST" "/api/v1/devices/{id}/firmware" PermFirmwareManage "createFirmwareDownload";
   route "GET" "/api/v1/devices/{id}/jobs" RoleReadOnly "listDeviceJobs";
   route "GET" "/api/v1/jobs" RoleReadOnly "listJobs";
   route "GET" "/api/v1/jobs/{command_key}" RoleReadOnly "getJob";
   route "GET" "/api/v1/firmware/images" RoleReadOnly "listFirmwareImages";
   routePerm "POST" "/api/v1/firmware/images" PermFirmwareManage "uploadFirmwareImage";
   unguarded "GET" "/api/v1/firmware/images/{id}/file" "serveFirmwareFile";
   routePerm "POST" "/api/v1/devices/{id}/uploads" PermUploadRequest "createDeviceUpload";
   route "GET" "/api/v1/devices/{id}/uploads" RoleReadOnly "listDeviceUploads";
   route "GET" "/api/v1/uploads/{id}/file" RoleReadOnly "serveUploadedFile";
   unguarded "PUT" "/api/v1/uploads/{id}/receive" "receiveUpload";
   routePerm "POST" "/api/v1/devices/{id}/captures" PermDiagnosticsRun "createDeviceCapture";
   routePerm "POST" "/api/v1/captures" PermDiagnosticsRun "createCapture";
   routePerm "POST" "/api/v1/captures/{id}/stop" PermDiagnosticsRun "stopCapture";
   route "GET" "/api/v1/captures" RoleReadOnly "listCaptures";
   route "GET" "/api/v1/captures/{id}/events" RoleReadOnly "getCaptureEvents";
   route "GET" "/api/v1/captures/{id}/export" RoleReadOnly "exportCapture"].

(** ** The mux *)

(** A partly matched pattern and the route it belongs to. *)
Abbreviation Candidates := (list (list PatSeg * Route)) (only parsing).

Definition step_literal (seg : string) (cs : Candidates) : Candidates :=
  omap (λ c, match c.1 with Lit s :: p => if String.eqb s seg then Some (p, c.2) else None | _ => None end) cs.

Definition step_wild (cs : Candidates) : Candidates :=
  omap (λ c, match c.1 with Wild :: p => Some (p, c.2) | _ => None end) cs.

Definition leaf (cs : Candidates) : option Route :=
  snd <$> List.find (λ c, match c.1 with [] => true | _ => false end) cs.

Definition multi (cs : Candidates) : option Route :=
  snd <$> List.find (λ c, match c.1 with [Rest] => true | _ => false end) cs.

(** [routingNode.matchPath]; a single wildcard does not match a trailing slash. *)
Fixpoint matchPath (path : list string) (cs : Candidates) : option Route :=
  match path with
  | [] => leaf cs
  | seg :: rest =>
      match matchPath rest (step_literal seg cs) with
      | Some r => Some r
      | None =>
          match (if String.eqb seg "" then None else matchPath rest (step_wild cs)) with
          | Some r => Some r
          | None => multi cs
          end
      end
  end.

Definition candidates (method : string) (routes : list Route) : Candidates :=
  (λ r, (ro_Pattern r, r)) <$> List.filter (λ r, String.eqb (ro_Method r) method) routes.

(** [matchMethodAndPath]: the method, GET for HEAD, then the patterns without
    a method. *)
Definition find_route (routes : list Route) (r : Request) : option Route :=
  let try_ m := matchPath (rq_Segments r) (candidates m routes) in
  match try_ (rq_Method r) with
  | Some x => Some x
  | None =>
      match (if String.eqb (rq_Method r) "HEAD" then try_ "GET" else None) with
      | Some x => Some x
      | None => try_ ""
      end
  end.

(** ** Public, ticket and service routes ([auth_handlers.go]) *)

Definition isPublicRoute (r : Request) : bool :=
  let m := rq_Method r in
  let p := URL_Path r in
  (String.eqb m "GET" && (String.eqb p "/api/v1/grafana/enter" || String.eqb p "/api/v1/grafana/check"))
  || (String.eqb m "POST" && HasPrefix p "/api/v1/bulk-data/" && HasSuffix p "/receive")
  || (String.eqb m "POST" && String.eqb p "/api/v1/auth/login")
  || (String.eqb m "POST" && (String.eqb p "/api/v1/auth/password-reset/request"
                              || String.eqb p "/api/v1/auth/password-reset/confirm"))
  || (String.eqb m "GET" && HasPrefix p "/api/v1/firmware/images/" && HasSuffix p "/file")
  || (String.eqb m "PUT" && HasPrefix p "/api/v1/uploads/" && HasSuffix p "/receive")
  || (String.eqb m "GET" && (String.eqb p "/healthz" || String.eqb p "/readyz"))
  || (String.eqb m "GET" && String.eqb p "/metrics").

Definition isBrowserTicketRoute (r : Request) : bool :=
  let p := URL_Path r in
  HasPrefix p "/api/v1/devices/" && (HasSuffix p "/cli/connect" || Contains p "/webgui/proxy/").

Definition isServiceRoute (r : Request) : bool :=
  let m := rq_Method r in
  let p := URL_Path r in
  (String.eqb m "PUT" && HasPrefix p "/api/v1/devices/" && HasSuffix p "/parameters")
  || (String.eqb m "GET" && HasPrefix p "/api/v1/devices/" && (count_byte slash p =? 4))
  || (String.eqb m "GET" && HasPrefix p "/api/v1/devices/" && HasSuffix p "/parameter-names"
      && (count_byte slash p =? 5))
  || (String.eqb m "GET" && HasPrefix p "/api/v1/devices/" && HasSuffix p "/wifi/networks"
      && (count_byte slash p =? 6))
  || (String.eqb m "GET" && HasPrefix p "/api/v1/jobs/").

(** ** What a found route matches *)

(** A pattern matches a path. *)
Fixpoint matches (p : list PatSeg) (path : list string) : bool :=
  match p, path with
  | [], [] => true
  | [Rest], _ :: _ => true
  | Lit s :: p', seg :: rest => String.eqb s seg && matches p' rest
  | Wild :: p', seg :: rest => negb (String.eqb seg "") && matches p' rest
  | _, _ => false
  end.

Lemma leaf_sound cs r : leaf cs = Some r → ([], r) ∈ cs.
Proof.
  unfold leaf. destruct (List.find _ cs) as [[p r']|] eqn:E; [|done]. intros [= <-].
  apply find_some in E as [Hin%list_elem_of_In Hp]. simpl in *. by destruct p.
Qed.

Lemma multi_sound cs r : multi cs = Some r → ([Rest], r) ∈ cs.
Proof.
  unfold multi. destruct (List.find _ cs) as [[p r']|] eqn:E; [|done]. intros [= <-].
  apply find_some in E as [Hin%list_elem_of_In Hp]. simpl in *. by destruct p as [|[| |] [|]].
Qed.

Lemma elem_of_step_literal seg cs p r : (p, r) ∈ step_literal seg cs → (Lit seg :: p, r) ∈ cs.
Proof.
  unfold step_literal. rewrite list_elem_of_omap. intros ([q r'] & Hin & Hq). simpl in Hq.
  destruct q as [|[s| |] q]; try done. destruct (String.eqb_spec s seg) as [->|]; [|done]. by injection Hq as <- <-.
Qed.

Lemma elem_of_step_wild cs p r : (p, r) ∈ step_wild cs → (Wild :: p, r) ∈ cs.
Proof.
  unfold step_wild. rewrite list_elem_of_omap. intros ([q r'] & Hin & Hq). simpl in Hq.
  destruct q as [|[s| |] q]; try done. by injection Hq as <- <-.
Qed.

Lemma matchPath_sound path cs r : matchPath path cs = Some r → ∃ p, (p, r) ∈ cs ∧ matches p path = true.
Proof.
  revert cs. induction path as [|seg rest IH]; intros cs; simpl.
  - intros H%leaf_sound. by exists [].
  - destruct (matchPath rest (step_literal seg cs)) as [x|] eqn:E1.
    { intros [= <-]. apply IH in E1 as (p & Hp%elem_of_step_literal & Hm).
      exists (Lit seg :: p). simpl. by rewrite String.eqb_refl. }
    destruct (String.eqb_spec seg "") as [->|Hs].
    { intros H%multi_sound. by exists [Rest]. }
    destruct (matchPath rest (step_wild cs)) as [x|] eqn:E2.
    { intros [= <-]. apply IH in E2 as (p & Hp%elem_of_step_wild & Hm).
      exists (Wild :: p). simpl. split; [done|]. by destruct (String.eqb_spec seg ""). }
    intros H%multi_sound. by exists [Rest].
Qed.

(** The route found is one of the table, for this method, and its pattern
    matches the path. *)
Lemma find_route_sound routes r x :
  find_route routes r = Some x →
  x ∈ routes ∧ matches (ro_Pattern x) (rq_Segments r) = true ∧
  (ro_Method x = rq_Method r ∨ (rq_Method r = "HEAD" ∧ ro_Method x = "GET") ∨ ro_Method x = "").
Proof.
  assert (∀ m, matchPath (rq_Segments r) (candidates m routes) = Some x →
            x ∈ routes ∧ matches (ro_Pattern x) (rq_Segments r) = true ∧ ro_Method x = m) as Htry.
  { intros m (p & Hp & Hm)%matchPath_sound. unfold candidates in Hp.
    apply list_elem_of_fmap in Hp as (y & [= -> ->] & Hy).
    apply list_elem_of_In, filter_In in Hy as [Hy%list_elem_of_In ?%String.eqb_eq]. done. }
  unfold find_route.
  destruct (matchPath _ (candidates (rq_Method r) routes)) as [y|] eqn:E1.
  { intros [= ->]. destruct (Htry _ E1) as (? & ? & ?). auto. }
  destruct (String.eqb_spec (rq_Method r) "HEAD") as [->|].
  - destruct (matchPath _ (candidates "GET" routes)) as [y|] eqn:E2.
    { intros [= ->]. destruct (Htry _ E2) as (? & ? & ?). auto 6. }
    intros H. destruct (Htry _ H) as (? & ? & ?). auto 6.
  - intros H. destruct (Htry _ H) as (? & ? & ?). auto 6.
Qed.

(** ** What the text of a path says about its route

    The authentication middleware decides on the text of [r.URL.Path], the mux
    on its segments. These lemmas relate the two: a pattern that matches a path
    fixes how the path begins and ends and how many slashes it has at least,
    whatever the wildcards stand for (an escaped slash inside a segment
    included). *)

From S2P Require Import Prelude GoStrings Operators.

(** ** Prefixes and suffixes of one text *)

Lemma HasSuffix_spec s p : HasSuffix s p = true ↔ ∃ r, s = (r ++ p)%string.
Proof.
  unfold HasSuffix. split.
  - intros [Hl He]%andb_true_iff. apply Nat.leb_le in Hl. apply String.eqb_eq in He.
    set (n := (String.length s - String.length p)%nat) in He. clearbody n. clear Hl. rewrite <- He. clear He.
    revert n. induction s as [|c s IH]; intros n; [by exists ""; destruct n|].
    destruct n as [|n]; [by exists ""|]. simpl. destruct (IH n) as [r Hr]. exists (String c r).
    rewrite string_app_cons. by rewrite <- Hr.
  - intros (r & ->). rewrite string_length_app. apply andb_true_iff. split; [apply Nat.leb_le; lia|].
    replace (String.length r + String.length p - String.length p)%nat with (String.length r) by lia.
    rewrite drop_bytes_app. apply String.eqb_refl.
Qed.

(** Two endings of one text: the shorter ends the longer. *)
Lemma suffixes_comparable x y a b :
  (x ++ a)%string = (y ++ b)%string → HasSuffix a b || HasSuffix b a = true.
Proof.
  revert y. induction x as [|c x IH]; intros y.
  - intros H. change (a = (y ++ b)%string) in H. subst a. apply orb_true_iff. left. apply HasSuffix_spec. by exists y.
  - destruct y as [|d y].
    + intros H. change ((String c x ++ a)%string = b) in H. subst b. apply orb_true_iff. right. apply HasSuffix_spec. by exists (String c x).
    + rewrite !string_app_cons. intros [= _ H]. by apply (IH y).
Qed.

(** ** What a pattern fixes *)

Definition all_literal (p : list PatSeg) : bool :=
  forallb (λ s, match s with Lit _ => true | _ => false end) p.

Definition literal_text (s : PatSeg) : string := match s with Lit t => t | _ => "" end.

(** The text up to the first wildcard, and after the last one. *)
Fixpoint literal_prefix (p : list PatSeg) : string :=
  match p with
  | [] => ""
  | Lit s :: p' => String slash (s ++ literal_prefix p')
  | _ => String slash ""
  end.

Fixpoint literal_suffix (p : list PatSeg) : string :=
  match p with
  | [] => ""
  | Lit s :: p' => if all_literal p' then String slash (s ++ literal_suffix p') else literal_suffix p'
  | _ :: p' => literal_suffix p'
  end.

Lemma matches_literal p path :
  all_literal p = true → matches p path = true → path = literal_text <$> p.
Proof.
  revert path. induction p as [|[s| |] p IH]; intros [|seg path]; simpl; try done.
  intros Ha [->%String.eqb_eq Hm]%andb_true_iff. f_equal. by apply IH.
Qed.

Lemma matches_prefix p path :
  matches p path = true → ∃ x, path_text path = (literal_prefix p ++ x)%string.
Proof.
  revert path. induction p as [|[s| |] p IH]; intros [|seg path]; cbn [matches literal_prefix path_text]; try done.
  - by exists "".
  - intros [->%String.eqb_eq (x & ->)%IH]%andb_true_iff. exists x.
    by rewrite string_app_cons, string_app_assoc.
  - intros _. by exists (seg ++ path_text path)%string.
  - by destruct p.
  - intros _. by exists (seg ++ path_text path)%string.
Qed.

Lemma matches_suffix p path :
  matches p path = true → ∃ x, path_text path = (x ++ literal_suffix p)%string.
Proof.
  assert (∀ p path, all_literal p = true → matches p path = true → path_text path = literal_suffix p) as Hlit.
  { clear. intros p path Ha Hm. rewrite (matches_literal p path Ha Hm). clear Hm path.
    induction p as [|[s| |] p IH]; [done| |done|done].
    change (all_literal p = true) in Ha. cbn [fmap list_fmap literal_text path_text literal_suffix].
    rewrite Ha. by rewrite <- (IH Ha). }
  revert path. induction p as [|[s| |] p IH]; intros [|seg path]; cbn [matches literal_suffix path_text]; try done.
  - by exists "".
  - intros [->%String.eqb_eq Hm]%andb_true_iff. destruct (all_literal p) eqn:Ha.
    + exists "". by rewrite (Hlit _ _ Ha Hm).
    + destruct (IH _ Hm) as (x & ->). exists (String slash (seg ++ x)). by rewrite string_app_cons, string_app_assoc.
  - intros [_ (x & ->)%IH]%andb_true_iff. exists (String slash (seg ++ x)).
    by rewrite string_app_cons, string_app_assoc.
  - by destruct p.
  - destruct p; [|done]. intros _. exists (String slash (seg ++ path_text path)). simpl.
    by rewrite string_app_empty_r.
Qed.

Lemma count_byte_nonneg c s : 0 <= count_byte c s.
Proof. induction s as [|d s IH]; cbn [count_byte]; [lia|]. destruct (Ascii.eqb c d); lia. Qed.

Lemma count_byte_absent c s : byte_in c s = false → count_byte c s = 0.
Proof. induction s as [|d s IH]; simpl; [done|]. intros [-> Hs]%orb_false_iff. by rewrite IH. Qed.

Lemma path_slashes path : Z.of_nat (length path) <= count_byte slash (path_text path).
Proof.
  induction path as [|s path IH]; cbn [path_text length]; [done|].
  cbn [count_byte]. rewrite Ascii.eqb_refl, count_byte_app. pose proof (count_byte_nonneg slash s). lia.
Qed.

Lemma matches_length p path : matches p path = true → (length p <= length path)%nat.
Proof.
  revert path. induction p as [|[s| |] p IH]; intros [|seg path]; cbn [matches length]; try done; try lia.
  - intros [_ H%IH]%andb_true_iff. lia.
  - intros [_ H%IH]%andb_true_iff. lia.
  - by destruct p.
  - destruct p; [|done]. simpl. lia.
Qed.

(** ** What a route may be asked with *)

Definition agrees_prefix (p : list PatSeg) (t : string) : bool :=
  HasPrefix (literal_prefix p) t || HasPrefix t (literal_prefix p).
Definition agrees_suffix (p : list PatSeg) (t : string) : bool :=
  HasSuffix (literal_suffix p) t || HasSuffix t (literal_suffix p).
Definition agrees_slashes (p : list PatSeg) (n : Z) : bool := Z.of_nat (length p) <=? n.

Section Agrees.
Context (p : list PatSeg) (path : list string) (Hm : matches p path = true).

Lemma agrees_prefix_ok t : HasPrefix (path_text path) t = true → agrees_prefix p t = true.
Proof using Hm.
  intros (r & Hr)%HasPrefix_split. destruct (matches_prefix p path Hm) as (x & Hx).
  apply (prefixes_comparable _ _ x r). congruence.
Qed.

Lemma agrees_suffix_ok t : HasSuffix (path_text path) t = true → agrees_suffix p t = true.
Proof using Hm.
  intros (r & Hr)%HasSuffix_spec. destruct (matches_suffix p path Hm) as (x & Hx).
  apply (suffixes_comparable x r). congruence.
Qed.

Lemma agrees_slashes_ok n : (count_byte slash (path_text path) =? n) = true → agrees_slashes p n = true.
Proof using Hm.
  intros Hn%Z.eqb_eq. apply Z.leb_le. pose proof (path_slashes path). pose proof (matches_length p path Hm). lia.
Qed.
End Agrees.

(** The rules of [isServiceRoute], read off a pattern: exact for a pattern
    without wildcards, and never missing a path otherwise. *)
Definition service_possible (method : string) (p : list PatSeg) : bool :=
  if all_literal p then isServiceRoute (mkRequest method (literal_text <$> p) "" "" "")
  else
    (String.eqb method "PUT" && agrees_prefix p "/api/v1/devices/" && agrees_suffix p "/parameters")
    || (String.eqb method "GET" && agrees_prefix p "/api/v1/devices/" && agrees_slashes p 4)
    || (String.eqb method "GET" && agrees_prefix p "/api/v1/devices/" && agrees_suffix p "/parameter-names"
        && agrees_slashes p 5)
    || (String.eqb method "GET" && agrees_prefix p "/api/v1/devices/" && agrees_suffix p "/wifi/networks"
        && agrees_slashes p 6)
    || (String.eqb method "GET" && agrees_prefix p "/api/v1/jobs/").

Lemma service_possible_ok r p :
  matches p (rq_Segments r) = true → isServiceRoute r = true → service_possible (rq_Method r) p = true.
Proof.
  intros Hm Hs. unfold service_possible. destruct (all_literal p) eqn:Ha.
  { pose proof (matches_literal _ _ Ha Hm) as Hp. unfold isServiceRoute, URL_Path in *. cbn [rq_Method rq_Segments].
    by rewrite <- Hp. }
  unfold isServiceRoute, URL_Path in Hs.
  repeat (apply orb_true_iff in Hs as [Hs|Hs]);
    repeat match goal with H : andb _ _ = true |- _ => apply andb_true_iff in H as [? ?] end;
    repeat match goal with
    | H : HasPrefix _ _ = true |- _ => apply (agrees_prefix_ok p _ Hm) in H
    | H : HasSuffix _ _ = true |- _ => apply (agrees_suffix_ok p _ Hm) in H
    | H : (count_byte _ _ =? _) = true |- _ => apply (agrees_slashes_ok p _ Hm) in H
    | H : String.eqb (rq_Method r) _ = true |- _ => rewrite H
    end;
    repeat match goal with H : _ = true |- _ => rewrite H end; rewrite ?orb_true_r; done.
Qed.

(** The handlers a request on a service route can reach. *)
Definition service_handlers : list string :=
  ["putParameters"; "getDevice"; "getParameterNames"; "getWiFiNetworks"; "getJob";
   "listDevicesSummary"; "listMatchingDeviceIDs"; "updateWiFiNetwork"; "proxyWebGUI"].

Definition service_table_ok (x : Route) : bool :=
  forallb (λ m, implb ((String.eqb (ro_Method x) m || String.eqb (ro_Method x) "") && service_possible m (ro_Pattern x))
                      (existsb (String.eqb (ro_Handler x)) service_handlers)) ["PUT"; "GET"].

Lemma service_table : forallb service_table_ok registerRoutes = true.
Proof. vm_compute. reflexivity. Qed.

Lemma service_method r : isServiceRoute r = true → rq_Method r = "PUT" ∨ rq_Method r = "GET".
Proof.
  unfold isServiceRoute. intros Hs.
  repeat (apply orb_true_iff in Hs as [Hs|Hs]);
    repeat match goal with H : andb _ _ = true |- _ => apply andb_true_iff in H as [? ?] end;
    match goal with H : String.eqb _ _ = true |- _ => apply String.eqb_eq in H; auto end.
Qed.

Lemma service_route_handlers r x :
  find_route registerRoutes r = Some x → isServiceRoute r = true → ro_Handler x ∈ service_handlers.
Proof.
  intros (Hin & Hm & Hmeth)%find_route_sound Hs.
  pose proof service_table as Ht. rewrite forallb_forall in Ht. apply list_elem_of_In in Hin. apply Ht in Hin.
  unfold service_table_ok in Hin. rewrite forallb_forall in Hin.
  pose proof (service_possible_ok r _ Hm Hs) as Hp.
  destruct (service_method _ Hs) as [E|E]; rewrite E in *;
    [specialize (Hin "PUT" ltac:(simpl; auto))|specialize (Hin "GET" ltac:(simpl; auto))];
    (destruct Hmeth as [Hx|[[Hx _]|Hx]]; [|done|]); rewrite Hx, Hp in Hin;
    change (existsb (String.eqb (ro_Handler x)) service_handlers = true) in Hin;
    apply existsb_exists in Hin as (h & Hh & ->%String.eqb_eq); by apply list_elem_of_In.
Qed.
