(* ===== verification/Api.v ===== *)
(** * The operator API: who may do what

    [cmd/api]: the middleware chain of [main.go] and [auth_handlers.go], the
    gates of [routes.go], operator sessions, operator administration
    ([rbac_handlers.go], [tenancy_handlers.go]), the tenancy scope of a request
    ([device_handlers.go]) and the Grafana gate ([grafana_gate.go]). A handler
    takes its decoded body ([None] for invalid JSON) and the claims the
    middleware put in the context. HMAC, the text of JSON and bcrypt are
    arguments. *)

From S2P Require Import Prelude GoStrings Encoding Json NetGuard Ratelimit Devices Operators Jwt Routes.

Record versionEntry : Type := mkVersionEntry { ve_version : Z; ve_expires : GoTime }.

Record ApiConfig : Type := mkApiConfig {
  cf_jwtSecret : string;
  cf_internalServiceToken : string;
  cf_grafanaGate : bool;
  cf_grafanaURL : string;
  cf_mailerConfigured : bool
}.

(** The tables, and the memory of one process: the cache of token versions,
    the two rate limiters and the spent Grafana tickets. *)
Record ApiState {B : Type} : Type := mkApi {
  api_operators : gmap string Operator;
  api_permissions : gmap (string * string) bool;
  api_resets : gmap string ResetToken;
  api_tenancy : Tenancy;
  api_versionCache : gmap string versionEntry;
  api_limiter : @Limiter B;
  api_loginLimiter : @Limiter B;
  api_spent : gmap string GoTime
}.
Arguments ApiState B : clear implicits.
Arguments mkApi {B} _ _ _ _ _ _ _ _.

Section Setters.
Context {B : Type}.
Implicit Type st : ApiState B.
Definition set_operators x st := mkApi x (api_permissions st) (api_resets st) (api_tenancy st) (api_versionCache st)
  (api_limiter st) (api_loginLimiter st) (api_spent st).
Definition set_permissions x st := mkApi (api_operators st) x (api_resets st) (api_tenancy st) (api_versionCache st)
  (api_limiter st) (api_loginLimiter st) (api_spent st).
Definition set_resets x st := mkApi (api_operators st) (api_permissions st) x (api_tenancy st) (api_versionCache st)
  (api_limiter st) (api_loginLimiter st) (api_spent st).
Definition set_tenancy x st := mkApi (api_operators st) (api_permissions st) (api_resets st) x (api_versionCache st)
  (api_limiter st) (api_loginLimiter st) (api_spent st).
Definition set_cache x st := mkApi (api_operators st) (api_permissions st) (api_resets st) (api_tenancy st) x
  (api_limiter st) (api_loginLimiter st) (api_spent st).
Definition set_limiter x st := mkApi (api_operators st) (api_permissions st) (api_resets st) (api_tenancy st)
  (api_versionCache st) x (api_loginLimiter st) (api_spent st).
Definition set_loginLimiter x st := mkApi (api_operators st) (api_permissions st) (api_resets st) (api_tenancy st)
  (api_versionCache st) (api_limiter st) x (api_spent st).
Definition set_spent x st := mkApi (api_operators st) (api_permissions st) (api_resets st) (api_tenancy st)
  (api_versionCache st) (api_limiter st) (api_loginLimiter st) x.
End Setters.

Inductive Response : Type :=
| HTTPError (status : Z) (msg : string)
| NoBody (status : Z)
| TokenReply (token : string) (expires : GoTime)
| OperatorReply (o : Operator)
| Reset (token : string) (email : string).

Definition serviceSubject : string := "service:bssadapter".
Definition jwtTTL : GoDuration := 8 * Hour.
Definition browserTicketTTL : GoDuration := 60 * Second.
Definition tokenVersionCacheTTL : GoDuration := 15 * Second.
Definition grafanaTicketTTL : GoDuration := 30 * Second.
Definition grafanaSessionTTL : GoDuration := Hour.

Definition serviceClaims (now : GoTime) : Claims :=
  mkClaims serviceSubject RoleSuperAdmin now (now + Hour) "" 0 [] [] false "".

(** Claims of an operator session, ticket or Grafana token. *)
Definition sessionClaims (subject role audience : string) (now : GoTime) (ttl : GoDuration) (version : Z) : Claims :=
  mkClaims subject role now (now + ttl) audience version [] [] false "".

Definition operatorFromRequest (claims : option Claims) : string :=
  match claims with Some c => cl_Subject c | None => "operator" end.

Definition clientIP (remoteAddr : string) : string :=
  match SplitHostPort remoteAddr with Some (host, _) => host | None => remoteAddr end.

(** [bearerToken]: the credential and whether it came in the query string. *)
Definition bearerToken (r : Request) : option (string * bool) :=
  match CutPrefix (rq_Authorization r) "Bearer " with
  | Some (String c t) => Some (String c t, false)
  | _ => if String.eqb (rq_QueryToken r) "" then None else Some (rq_QueryToken r, true)
  end.

Section Api.
Context {B : Type} (NewLimiter NewLoginLimiter : B) (bucket_allow : GoTime → B → bool * B).
Context (hmac : string → string → string) (Marshal : json → string) (Unmarshal : string → option json).
Context (bcrypt_generate : string → string → result string) (bcrypt_compare : string → string → bool).
Context (cfg : ApiConfig).

Abbreviation State := (ApiState B) (only parsing).
Abbreviation verify := (VerifyJWT hmac Unmarshal) (only parsing).
Abbreviation issue := (SignJWT hmac Marshal) (only parsing).

Definition auth_disabled : bool := String.eqb (cf_jwtSecret cfg) "".

(** ** Revocation *)

(** The lookup of [tokenCurrent] and the cache it leaves. *)
Definition lookup_version (now : GoTime) (subject : string) (st : State) : option Z * State :=
  let fetch :=
    match TokenVersion (api_operators st) subject with
    | None => (None, st)
    | Some v => (Some v, set_cache (<[subject := mkVersionEntry v (now + tokenVersionCacheTTL)]> (api_versionCache st)) st)
    end in
  match api_versionCache st !! subject with
  | Some e => if ve_expires e <? now then fetch else (Some (ve_version e), st)
  | None => fetch
  end.

Definition tokenCurrent (now : GoTime) (c : Claims) (st : State) : bool * State :=
  if String.eqb (cl_Subject c) serviceSubject then (true, st)
  else match lookup_version now (cl_Subject c) st with
       | (Some v, st') => (v <=? cl_Version c, st')
       | (None, st') => (false, st')
       end.

Definition forgetTokenVersion (username : string) (st : State) : State :=
  set_cache (delete username (api_versionCache st)) st.

(** ** Middleware *)

Inductive AuthOutcome : Type :=
| Refused (status : Z) (msg : string)
| Next (claims : option Claims).

Definition withJWTAuth (now : GoTime) (r : Request) (st : State) : AuthOutcome * State :=
  if auth_disabled || isPublicRoute r then (Next None, st)
  else match bearerToken r with
  | None => (Refused 401 "missing bearer token", st)
  | Some (token, fromQuery) =>
      if fromQuery && negb (isBrowserTicketRoute r)
      then (Refused 401 "credentials in the query string are not accepted on this route", st)
      else if negb fromQuery && negb (String.eqb (cf_internalServiceToken cfg) "")
              && String.eqb token (cf_internalServiceToken cfg)
      then if negb (isServiceRoute r)
           then (Refused 403 "internal service token is not permitted on this route", st)
           else (Next (Some (serviceClaims now)), st)
      else match verify now (cf_jwtSecret cfg) token with
      | Err _ => (Refused 401 "invalid or expired token", st)
      | Ok c =>
          if (fromQuery && negb (String.eqb (cl_Audience c) AudienceBrowserTicket))
             || (negb fromQuery && negb (String.eqb (cl_Audience c) ""))
          then (Refused 401 "wrong token type for this route", st)
          else let '(current, st') := tokenCurrent now c st in
               if current then (Next (Some c), st')
               else (Refused 401 "session revoked — sign in again", st')
      end
  end.

Definition withRateLimit (now : GoTime) (r : Request) (claims : option Claims) (st : State) : bool * State :=
  if String.eqb (URL_Path r) "/metrics" then (true, st)
  else let key := match claims with Some c => cl_Subject c | None => rq_RemoteAddr r end in
       let '(ok, l) := Allow NewLimiter bucket_allow now key (api_limiter st) in
       (ok, set_limiter l st).

Definition requireRole (min : string) (claims : option Claims) : bool :=
  auth_disabled || match claims with Some c => AtLeast (cl_Role c) min | None => false end.

Definition requirePermission (perm : string) (claims : option Claims) (st : State) : bool :=
  auth_disabled
  || match claims with Some c => PermissionRepository_Has (api_permissions st) (cl_Role c) perm | None => false end.

(** The refusal of a gate, [None] when it is open. *)
Definition gate (g : Gate) (claims : option Claims) (st : State) : option string :=
  match g with
  | Unguarded => None
  | MinRole min => if requireRole min claims then None else Some "insufficient role"
  | MinRolePerm min perm =>
      if negb (requireRole min claims) then Some "insufficient role"
      else if requirePermission perm claims st then None else Some "insufficient permission"
  end.

(** What becomes of a request: a handler runs with the claims of its context,
    or the chain answers by itself. *)
Inductive Served : Type :=
| Reached (handler : string) (claims : option Claims)
| Answered (status : Z) (msg : string).

(** The handler of the server: CORS, authentication, rate limit, mux, gates. *)
Definition serve (now : GoTime) (r : Request) (st : State) : Served * State :=
  if String.eqb (rq_Method r) "OPTIONS" then (Answered 204 "", st)
  else match withJWTAuth now r st with
  | (Refused code msg, st1) => (Answered code msg, st1)
  | (Next claims, st1) =>
      match withRateLimit now r claims st1 with
      | (false, st2) => (Answered 429 "rate limit exceeded", st2)
      | (true, st2) =>
          match find_route registerRoutes r with
          | None => (Answered 404 "404 page not found", st2)
          | Some x =>
              match gate (ro_Gate x) claims st2 with
              | None => (Reached (ro_Handler x) claims, st2)
              | Some msg => (Answered 403 msg, st2)
              end
          end
      end
  end.

(** ** Sessions *)

Record loginRequest : Type := mkLoginRequest { lr_Username : string; lr_Password : string }.

Definition login (now : GoTime) (remoteAddr : string) (body : option loginRequest) (st : State) : Response * State :=
  if auth_disabled then (HTTPError 503 "operator auth is not configured on this server", st)
  else match body with
  | None => (HTTPError 400 "invalid JSON body", st)
  | Some req =>
      if String.eqb (lr_Username req) "" || String.eqb (lr_Password req) ""
      then (HTTPError 400 "username and password are required", st)
      else
        let key := (ToLower (TrimSpace (lr_Username req)) ++ "|" ++ clientIP remoteAddr)%string in
        let '(ok, l) := Allow NewLoginLimiter bucket_allow now key (api_loginLimiter st) in
        let st := set_loginLimiter l st in
        if negb ok then (HTTPError 429 "too many login attempts — try again shortly", st)
        else match ByUsername (api_operators st) (lr_Username req) with
        | None => (HTTPError 401 "invalid username or password", st)
        | Some op =>
            if negb (bcrypt_compare (op_PasswordHash op) (lr_Password req))
            then (HTTPError 401 "invalid username or password", st)
            else if is_some (op_DisabledAt op) then (HTTPError 401 "invalid username or password", st)
            else let c := sessionClaims (op_Username op) (op_Role op) "" now jwtTTL (op_TokenVersion op) in
                 (TokenReply (issue (cf_jwtSecret cfg) c) (cl_ExpiresAt c), st)
        end
  end.

Definition logout (now : GoTime) (claims : option Claims) (st : State) : Response * State :=
  match claims with
  | None => (HTTPError 400 "no operator session to revoke", st)
  | Some c =>
      if String.eqb (cl_Subject c) serviceSubject then (HTTPError 400 "no operator session to revoke", st)
      else match ByUsername (api_operators st) (cl_Subject c) with
      | None => (HTTPError 500 "internal error", st)
      | Some op =>
          let st := set_operators (RevokeSessions now (op_ID op) (api_operators st)) st in
          (NoBody 204, forgetTokenVersion (op_Username op) st)
      end
  end.

Definition issueBrowserTicket (now : GoTime) (claims : option Claims) (st : State) : Response * State :=
  match claims with
  | None => (HTTPError 401 "no authenticated operator", st)
  | Some c =>
      if String.eqb (cl_Subject c) serviceSubject
      then (HTTPError 403 "service identities cannot mint browser tickets", st)
      else let t := sessionClaims (cl_Subject c) (cl_Role c) AudienceBrowserTicket now browserTicketTTL (cl_Version c) in
           (TokenReply (issue (cf_jwtSecret cfg) t) (cl_ExpiresAt t), st)
  end.

(** ** Operator administration *)

Record createOperatorRequest : Type := mkCreateOperatorRequest {
  cor_Username : string;
  cor_Email : string;
  cor_Password : string;
  cor_Role : string;
  cor_Scopes : list Scope;
  cor_GlobalAccess : bool
}.

Definition with_tenancy {A} (f : Tenancy → result A * Tenancy) (st : State) : result A * State :=
  let '(x, t) := f (api_tenancy st) in (x, set_tenancy t st).
Definition with_operators {A} (f : gmap string Operator → result A * gmap string Operator) (st : State)
  : result A * State := let '(x, t) := f (api_operators st) in (x, set_operators t st).

(** The grants [createOperator] applies to the row it made. *)
Definition initial_scopes (op : Operator) (scopes : list Scope) (st : State) : Response * State :=
  match scopes with
  | [] => (OperatorReply op, st)
  | _ =>
      if negb (forallb (λ s, valid_scope_type (sc_Type s)) scopes)
      then (HTTPError 400 "scope type must be region or customer", st)
      else match with_tenancy (SetOperatorScopes (api_operators st) (op_ID op) scopes) st with
           | (Err _, st') => (HTTPError 500 "internal error", st')
           | (Ok _, st') => (OperatorReply op, st')
           end
  end.

Definition createOperator (uuid salt : string) (now : GoTime) (body : option createOperatorRequest) (st : State)
  : Response * State :=
  match body with
  | None => (HTTPError 400 "invalid JSON body", st)
  | Some req =>
      if String.eqb (cor_Username req) "" || String.eqb (cor_Password req) "" || negb (ValidRole (cor_Role req))
      then (HTTPError 400 "username, password, and a valid role (superadmin, manager, noc, readonly) are required", st)
      else match bcrypt_generate salt (cor_Password req) with
      | Err _ => (HTTPError 500 "internal error", st)
      | Ok hash =>
          match with_operators (Operators_Create uuid now (cor_Username req) (cor_Email req) hash (cor_Role req)) st with
          | (Err e, st1) =>
              (if String.eqb e ErrUsernameTaken then HTTPError 409 "username already exists"
               else HTTPError 500 "internal error", st1)
          | (Ok op, st1) =>
              if cor_GlobalAccess req then
                match with_operators (SetGlobalAccess now (op_ID op) true) st1 with
                | (Err _, st2) => (HTTPError 500 "internal error", st2)
                | (Ok _, st2) =>
                    initial_scopes (mkOperator (op_ID op) (op_Username op) (op_Email op) (op_PasswordHash op)
                      (op_Role op) (op_CreatedAt op) (op_UpdatedAt op) (op_TokenVersion op) true (op_DisabledAt op))
                      (cor_Scopes req) st2
                end
              else initial_scopes op (cor_Scopes req) st1
          end
      end
  end.

Definition bootstrapAdmin (uuid salt : string) (now : GoTime) (username password : string) (st : State)
  : result unit * State :=
  if String.eqb username "" || String.eqb password "" then (Ok tt, st)
  else if negb (Nat.eqb (Operators_Count (api_operators st)) 0) then (Ok tt, st)
  else match bcrypt_generate salt password with
  | Err e => (Err e, st)
  | Ok hash =>
      match with_operators (Operators_Create uuid now username "" hash RoleSuperAdmin) st with
      | (Ok _, st') => (Ok tt, st')
      | (Err e, st') => (Err e, st')
      end
  end.

Definition setOperatorDisabled (now : GoTime) (claims : option Claims) (operatorID : string) (body : option bool)
    (st : State) : Response * State :=
  match body with
  | None => (HTTPError 400 "invalid JSON body", st)
  | Some disabled =>
      match Operators_ByID (api_operators st) operatorID with
      | None => (HTTPError 404 "not found", st)
      | Some target =>
          if disabled && String.eqb (op_Username target) (operatorFromRequest claims)
          then (HTTPError 409 "you cannot disable your own account", st)
          else if disabled && String.eqb (op_Role target) RoleAdmin
                  && (CountActiveAdmins (api_operators st) <=? 1)
          then (HTTPError 409 "cannot disable the last active superadmin", st)
          else match with_operators (SetDisabled now operatorID disabled) st with
          | (Err e, st') =>
              (if String.eqb e ErrNoRows then HTTPError 404 "not found" else HTTPError 500 "internal error", st')
          | (Ok _, st') => (NoBody 204, forgetTokenVersion (op_Username target) st')
          end
      end
  end.

Definition setOperatorGlobalAccess (now : GoTime) (operatorID : string) (body : option bool) (st : State)
  : Response * State :=
  match body with
  | None => (HTTPError 400 "invalid JSON body", st)
  | Some global =>
      match with_operators (SetGlobalAccess now operatorID global) st with
      | (Err e, st') =>
          (if String.eqb e ErrNoRows then HTTPError 404 "not found" else HTTPError 500 "internal error", st')
      | (Ok _, st') => (NoBody 204, st')
      end
  end.

Definition setOperatorScopes (operatorID : string) (body : option (list Scope)) (st : State) : Response * State :=
  match body with
  | None => (HTTPError 400 "invalid JSON body", st)
  | Some scopes =>
      if negb (forallb (λ s, valid_scope_type (sc_Type s)) scopes)
      then (HTTPError 400 "scope type must be region or customer", st)
      else match with_tenancy (SetOperatorScopes (api_operators st) operatorID scopes) st with
           | (Err _, st') => (HTTPError 500 "internal error", st')
           | (Ok _, st') => (NoBody 204, st')
           end
  end.

(** Role, permission and whether it is granted. *)
Definition setRolePermission (body : option (string * string * bool)) (st : State) : Response * State :=
  match body with
  | None => (HTTPError 400 "invalid JSON body", st)
  | Some (role, permission, granted) =>
      if negb (String.eqb role RoleManager) && negb (String.eqb role RoleNOC) && negb (String.eqb role RoleReadOnly)
      then (HTTPError 400 "role must be manager, noc, or readonly (superadmin always has every permission and isn't configurable)", st)
      else if negb (existsb (λ p, String.eqb p permission) AllPermissions)
      then (HTTPError 400 "unknown permission key", st)
      else (NoBody 200, set_permissions (PermissionRepository_Set role permission granted (api_permissions st)) st)
  end.

(** ** Passwords *)

Definition short_password (p : string) : bool := (Z.of_nat (String.length p) <? 8).

Definition resetOperatorPassword (salt : string) (now : GoTime) (operatorID : string) (body : option string)
    (st : State) : Response * State :=
  match body with
  | None => (HTTPError 400 "invalid JSON body", st)
  | Some password =>
      if short_password password then (HTTPError 400 "new_password must be at least 8 characters", st)
      else match bcrypt_generate salt password with
      | Err _ => (HTTPError 500 "internal error", st)
      | Ok hash => (NoBody 204, set_operators (UpdatePassword now operatorID hash (api_operators st)) st)
      end
  end.

(** The mail goes to the address of the operator; the caller always sees 202. *)
Definition requestPasswordReset (random : string) (now : GoTime) (body : option string) (st : State)
  : Response * option Response * State :=
  match body with
  | None => (HTTPError 400 "invalid JSON body", None, st)
  | Some username =>
      match ByUsername (api_operators st) username with
      | None => (NoBody 202, None, st)
      | Some op =>
          if String.eqb (op_Email op) "" || negb (cf_mailerConfigured cfg) then (NoBody 202, None, st)
          else match CreateResetToken random now (op_ID op) (api_operators st) (api_resets st) with
               | (Err _, t) => (NoBody 202, None, set_resets t st)
               | (Ok (token, _), t) => (NoBody 202, Some (Reset token (op_Email op)), set_resets t st)
               end
      end
  end.

(** Token and new password. *)
Definition confirmPasswordReset (salt : string) (now : GoTime) (body : option (string * string)) (st : State)
  : Response * State :=
  match body with
  | None => (HTTPError 400 "invalid JSON body", st)
  | Some (token, password) =>
      if short_password password then (HTTPError 400 "new_password must be at least 8 characters", st)
      else match ConsumeResetToken now token (api_operators st) (api_resets st) with
      | (Err e, t) =>
          (if String.eqb e ErrTokenInvalid then HTTPError 400 "reset link is invalid, expired, or already used"
           else HTTPError 500 "internal error", set_resets t st)
      | (Ok op, t) =>
          let st := set_resets t st in
          match bcrypt_generate salt password with
          | Err _ => (HTTPError 500 "internal error", st)
          | Ok hash => (NoBody 204, set_operators (UpdatePassword now (op_ID op) hash (api_operators st)) st)
          end
      end
  end.

(** ** The tenancy scope of a request *)

(** The accessible customers and whether the caller is confined to them. *)
Definition deviceScope (claims : option Claims) (st : State) : result (list string * bool) :=
  if auth_disabled then Ok ([], false)
  else match claims with
  | None => Ok ([], false)
  | Some c =>
      if String.eqb (cl_Role c) RoleSuperAdmin then Ok ([], false)
      else match ByUsername (api_operators st) (cl_Subject c) with
      | None => Err "resolve operator for scoping"
      | Some op => if op_GlobalAccess op then Ok ([], false)
                   else Ok (AccessibleCustomerIDs (api_tenancy st) (op_ID op))
      end
  end.

Definition deviceInScope (deviceCustomerID : option string) (accessible : list string) : bool :=
  match deviceCustomerID with
  | None => false
  | Some c => existsb (λ id, String.eqb id c) accessible
  end.

Definition sameCustomer (a b : option string) : bool :=
  match a, b with
  | Some x, Some y => String.eqb x y
  | None, None => true
  | _, _ => false
  end.

(** A handler's early return, or what it goes on with. *)
Definition getScopedDevice (claims : option Claims) (devices : gmap string Device) (id : string) (st : State)
  : Response + Device :=
  match devices !! id with
  | None => inl (HTTPError 404 "not found")
  | Some d =>
      match deviceScope claims st with
      | Err _ => inl (HTTPError 500 "internal error")
      | Ok (ids, scoped) =>
          if scoped && negb (deviceInScope (d_CustomerID (d_ownership d)) ids)
          then inl (HTTPError 404 "not found") else inr d
      end
  end.

(** [owners]: the customers of the BSS accounts the device is mapped to
    ([MappedAccountCustomers]). *)
Definition assignDeviceCustomer (now : GoTime) (claims : option Claims) (id : string)
    (body : option (option string)) (owners : list string) (devices : gmap string Device) (st : State)
  : Response * gmap string Device :=
  match getScopedDevice claims devices id st with
  | inl resp => (resp, devices)
  | inr _ =>
      match body with
      | None => (HTTPError 400 "invalid JSON body", devices)
      | Some c =>
          let customer := match c with Some s => if String.eqb s "" then None else Some s | None => None end in
          match deviceScope claims st with
          | Err _ => (HTTPError 500 "internal error", devices)
          | Ok (ids, scoped) =>
              if scoped && negb (deviceInScope customer ids)
              then (HTTPError 400 "customer_id is required and must be within your assigned scope", devices)
              else if existsb (λ owner, negb (bool_decide (customer = Some owner))) owners
              then (HTTPError 409 "the device is mapped to a BSS account of another customer; unassign it from that account first", devices)
              else (NoBody 204, AssignDeviceCustomer now id customer devices)
          end
      end
  end.

(** ** The Grafana gate *)

Definition grafanaAllowed (c : Claims) (st : State) : result bool :=
  if String.eqb (cl_Subject c) "" || String.eqb (cl_Subject c) serviceSubject then Ok false
  else if String.eqb (cl_Role c) RoleSuperAdmin then Ok true
  else if negb (PermissionRepository_Has (api_permissions st) (cl_Role c) PermMonitoringView) then Ok false
  else match ByUsername (api_operators st) (cl_Subject c) with
  | None => Err ErrNoRows
  | Some op => if op_GlobalAccess op then Ok true
               else Ok (negb (AccessibleCustomerIDs (api_tenancy st) (op_ID op)).2)
  end.

(** [grafanaClaims]: an error counts as not allowed. *)
Definition grafanaClaims (now : GoTime) (token audience : string) (st : State) : option Claims * State :=
  if String.eqb token "" || auth_disabled then (None, st)
  else match verify now (cf_jwtSecret cfg) token with
  | Err _ => (None, st)
  | Ok c =>
      if negb (String.eqb (cl_Audience c) audience) then (None, st)
      else let '(current, st') := tokenCurrent now c st in
           if negb current then (None, st')
           else match grafanaAllowed c st' with Ok true => (Some c, st') | _ => (None, st') end
  end.

(** Spent tickets are kept by their SHA-256; [sha256] is an argument. *)
Definition spendGrafanaTicket (sha256 : string → string) (now : GoTime) (ticket : string) (expires : GoTime)
    (st : State) : bool * State :=
  let live := filter (λ kv, now <= kv.2) (api_spent st) in
  match live !! sha256 ticket with
  | Some _ => (false, set_spent live st)
  | None => (true, set_spent (<[sha256 ticket := expires]> live) st)
  end.

Definition issueGrafanaTicket (now : GoTime) (claims : option Claims) (st : State) : Response * State :=
  if negb (cf_grafanaGate cfg) || String.eqb (cf_grafanaURL cfg) ""
  then (HTTPError 404 "the Grafana gate is not configured (ACS_GRAFANA_GATE=1 and ACS_GRAFANA_URL)", st)
  else if auth_disabled then (HTTPError 503 "the Grafana gate needs operator sign-in (ACS_JWT_SIGNING_SECRET)", st)
  else match claims with
  | None => (HTTPError 401 "no authenticated operator", st)
  | Some c =>
      match grafanaAllowed c st with
      | Err _ => (HTTPError 500 "internal error", st)
      | Ok false => (HTTPError 403 "Grafana is limited to platform operators: monitoring.view and no customer scope, because its dashboards span every customer", st)
      | Ok true =>
          let t := sessionClaims (cl_Subject c) (cl_Role c) AudienceGrafanaTicket now grafanaTicketTTL (cl_Version c) in
          (TokenReply (issue (cf_jwtSecret cfg) t) (cl_ExpiresAt t), st)
      end
  end.

(** The session cookie, set on the answer. *)
Definition grafanaEnter (sha256 : string → string) (now : GoTime) (ticket : string) (st : State) : Response * State :=
  if negb (cf_grafanaGate cfg) then (HTTPError 404 "404 page not found", st)
  else match grafanaClaims now ticket AudienceGrafanaTicket st with
  | (None, st1) => (HTTPError 401 "This Grafana link has expired or is not valid. Open Grafana again from the ACS console.", st1)
  | (Some c, st1) =>
      match spendGrafanaTicket sha256 now ticket (cl_ExpiresAt c) st1 with
      | (false, st2) => (HTTPError 401 "This Grafana link has expired or is not valid. Open Grafana again from the ACS console.", st2)
      | (true, st2) =>
          let s := sessionClaims (cl_Subject c) (cl_Role c) AudienceGrafanaSession now grafanaSessionTTL (cl_Version c) in
          (TokenReply (issue (cf_jwtSecret cfg) s) (cl_ExpiresAt s), st2)
      end
  end.

Definition grafanaCheck (now : GoTime) (cookie : option string) (st : State) : Response * State :=
  if negb (cf_grafanaGate cfg) then (HTTPError 404 "404 page not found", st)
  else match cookie with
  | None => (NoBody 401, st)
  | Some v =>
      match grafanaClaims now v AudienceGrafanaSession st with
      | (Some _, st') => (NoBody 204, st')
      | (None, st') => (NoBody 401, st')
      end
  end.
End Api.
