(* ===== verification/ApiLaws.v ===== *)
(** * What the calls of the operator API do to accounts, caches and tokens

    [api_op] is one call of the API and [api_step] a step of the deployment: a
    call this process serves, or one another process serves against the same
    tables. [op_effect] is what every call keeps: accounts stay, their token
    version never falls, cached versions come from the table, and a used reset
    token stays used. *)

From S2P Require Import Prelude GoStrings Encoding Json NetGuard Ratelimit Devices Operators Jwt Routes Api.

(** ** Effects *)

(** An account keeps its name and role, and its version does not fall. *)
Definition grows (o o' : Operator) : Prop :=
  op_ID o' = op_ID o ∧ op_Username o' = op_Username o ∧ op_Role o' = op_Role o ∧
  op_TokenVersion o <= op_TokenVersion o'.

Definition accounts_grow (ops ops' : gmap string Operator) : Prop :=
  ∀ k o, ops !! k = Some o → ∃ o', ops' !! k = Some o' ∧ grows o o'.

(** A cached entry was there before or was read from the table now. *)
Definition cache_from (now : GoTime) (ops : gmap string Operator) (c c' : gmap string versionEntry) : Prop :=
  ∀ u e, c' !! u = Some e →
    c !! u = Some e ∨ ∃ v, TokenVersion ops u = Some v ∧ e = mkVersionEntry v (now + tokenVersionCacheTTL).

Definition resets_keep (r r' : gmap string ResetToken) : Prop :=
  ∀ tk t, r !! tk = Some t → ∃ t', r' !! tk = Some t' ∧ (is_some (rt_UsedAt t) = true → t' = t).

Record op_effect {B} (now : GoTime) (st st' : ApiState B) : Prop := mkEffect {
  oe_accounts : accounts_grow (api_operators st) (api_operators st');
  oe_ok : operators_ok (api_operators st) → operators_ok (api_operators st');
  oe_cache : cache_from now (api_operators st) (api_versionCache st) (api_versionCache st');
  oe_resets : resets_keep (api_resets st) (api_resets st')
}.

(** A call that touches no table. *)
Record memory_only {B} (now : GoTime) (st st' : ApiState B) : Prop := mkMemoryOnly {
  mo_operators : api_operators st' = api_operators st;
  mo_permissions : api_permissions st' = api_permissions st;
  mo_resets : api_resets st' = api_resets st;
  mo_tenancy : api_tenancy st' = api_tenancy st;
  mo_cache : cache_from now (api_operators st) (api_versionCache st) (api_versionCache st')
}.

Lemma grows_refl o : grows o o.
Proof. unfold grows. auto with lia. Qed.
Lemma grows_trans a b c : grows a b → grows b c → grows a c.
Proof. unfold grows. intros (-> & -> & -> & ?) (-> & -> & -> & ?). auto with lia. Qed.
#[export] Hint Resolve grows_refl grows_trans : acs.

Lemma accounts_grow_refl ops : accounts_grow ops ops.
Proof. intros k o H. eauto with acs. Qed.
Lemma accounts_grow_trans a b c : accounts_grow a b → accounts_grow b c → accounts_grow a c.
Proof. intros H1 H2 k o (o1 & Ho1 & ?)%H1. apply H2 in Ho1 as (o2 & ? & ?). eauto with acs. Qed.
Lemma cache_from_refl now ops c : cache_from now ops c c.
Proof. intros u e. auto. Qed.
Lemma resets_keep_refl r : resets_keep r r.
Proof. intros tk t H. eauto. Qed.
#[export] Hint Resolve accounts_grow_refl cache_from_refl resets_keep_refl : acs.

Section Effects.
Context {B : Type}.
Implicit Types st : ApiState B.

Lemma memory_refl now st : memory_only now st st.
Proof. by split; auto with acs. Qed.

Lemma memory_trans now (a b c : ApiState B) : memory_only now a b → memory_only now b c → memory_only now a c.
Proof.
  intros [H1 H2 H3 H4 H5] [G1 G2 G3 G4 G5]. split; try congruence.
  intros u e [H|H]%G5; [by apply H5|]. rewrite H1 in H. by right.
Qed.

Lemma memory_effect now st st' : memory_only now st st' → op_effect now st st'.
Proof. intros [H1 H2 H3 H4 H5]. split; rewrite ?H1, ?H3; auto with acs. Qed.

Lemma effect_refl now st : op_effect now st st.
Proof. apply memory_effect, memory_refl. Qed.

(** A statement on the accounts; cached versions may be dropped. *)
Lemma accounts_effect now st ops cache ten :
  accounts_grow (api_operators st) ops → (operators_ok (api_operators st) → operators_ok ops) →
  cache ⊆ api_versionCache st →
  op_effect now st (set_tenancy ten (set_cache cache (set_operators ops st))).
Proof.
  intros Hg Ho Hc. split; simpl; auto with acs.
  intros u e He. left. by apply (lookup_weaken _ _ _ _ He).
Qed.

Lemma update_grows id f ops :
  (∀ o, grows o (f o)) → accounts_grow ops (update_key id (λ _, true) f ops).1.
Proof.
  intros Hf k o Hk. rewrite lookup_update_key. case_decide; [|eauto with acs].
  rewrite Hk. simpl. eauto.
Qed.

Lemma update_ok id f ops :
  (∀ o, grows o (f o)) → operators_ok ops → operators_ok (update_key id (λ _, true) f ops).1.
Proof. intros Hf. apply update_operator_ok. intros o. destruct (Hf o) as (? & ? & _). auto. Qed.

Lemma create_grows uuid now u e h role ops : accounts_grow ops (Operators_Create uuid now u e h role ops).2.
Proof.
  unfold Operators_Create. destruct (negb (ValidRole role)); [auto with acs|].
  destruct (is_some (ops !! uuid)) eqn:E; simpl; [auto with acs|].
  destruct (existsb (named u) (rows ops)); [auto with acs|]. simpl.
  intros k o Hk. exists o. split; [|auto with acs].
  rewrite lookup_insert_ne; [done|]. intros <-. by rewrite Hk in E.
Qed.
End Effects.

(** ** Each call *)

Section Calls.
Context {B : Type} (NewLimiter NewLoginLimiter : B) (bucket_allow : GoTime → B → bool * B).
Context (hmac : string → string → string) (Marshal : json → string) (Unmarshal : string → option json).
Context (bcrypt_generate : string → string → result string) (bcrypt_compare : string → string → bool).
Context (sha256 : string → string) (cfg : ApiConfig).
Implicit Types st : ApiState B.

Lemma lookup_version_memory now u st : memory_only now st (lookup_version now u st).2.
Proof.
  unfold lookup_version.
  assert (memory_only now st (match TokenVersion (api_operators st) u with
            | None => (None, st)
            | Some v => (Some v, set_cache (<[u := mkVersionEntry v (now + tokenVersionCacheTTL)]> (api_versionCache st)) st)
            end).2) as Hf.
  { destruct (TokenVersion (api_operators st) u) as [v|] eqn:E; [|apply memory_refl]. split; try done.
    simpl. intros u' e [[<- <-]|[_ H]]%lookup_insert_Some; [right; eauto|by left]. }
  destruct (api_versionCache st !! u) as [e|]; [|exact Hf].
  destruct (ve_expires e <? now); [exact Hf|apply memory_refl].
Qed.

Lemma tokenCurrent_memory now c st : memory_only now st (tokenCurrent now c st).2.
Proof.
  unfold tokenCurrent. destruct (String.eqb (cl_Subject c) serviceSubject); [apply memory_refl|].
  pose proof (lookup_version_memory now (cl_Subject c) st) as H.
  by destruct (lookup_version now (cl_Subject c) st) as [[v|] st'].
Qed.

Lemma withJWTAuth_memory now r st : memory_only now st (withJWTAuth hmac Unmarshal cfg now r st).2.
Proof.
  unfold withJWTAuth. destruct (_ || isPublicRoute r); [apply memory_refl|].
  destruct (bearerToken r) as [[token q]|]; [|apply memory_refl].
  destruct (q && _); [apply memory_refl|]. destruct (negb q && _ && _).
  { destruct (negb (isServiceRoute r)); apply memory_refl. }
  destruct (VerifyJWT _ _ _ _ _) as [c|]; [|apply memory_refl].
  destruct (_ || _); [apply memory_refl|].
  pose proof (tokenCurrent_memory now c st) as H. destruct (tokenCurrent now c st) as [[] st']; done.
Qed.

Lemma withRateLimit_memory now r claims st : memory_only now st (withRateLimit NewLimiter bucket_allow now r claims st).2.
Proof.
  unfold withRateLimit. destruct (String.eqb (URL_Path r) "/metrics"); [apply memory_refl|].
  destruct (Allow _ _ _ _ _) as [ok l]. by split; auto with acs.
Qed.

Lemma serve_memory now r st : memory_only now st (serve NewLimiter bucket_allow hmac Unmarshal cfg now r st).2.
Proof.
  unfold serve. destruct (String.eqb (rq_Method r) "OPTIONS"); [apply memory_refl|].
  pose proof (withJWTAuth_memory now r st) as H. destruct (withJWTAuth _ _ _ _ _ _) as [[code msg|claims] st1]; [done|].
  apply (memory_trans _ _ _ _ H).
  pose proof (withRateLimit_memory now r claims st1) as H1. destruct (withRateLimit _ _ _ _ _ _) as [[] st2]; [|done].
  destruct (find_route registerRoutes r) as [x|]; [|done].
  by destruct (gate _ _ _ _).
Qed.

Lemma login_memory now ra body st :
  memory_only now st (login NewLoginLimiter bucket_allow hmac Marshal bcrypt_compare cfg now ra body st).2.
Proof.
  unfold login. destruct (auth_disabled cfg); [apply memory_refl|]. destruct body as [req|]; [|apply memory_refl].
  destruct (_ || _); [apply memory_refl|]. destruct (Allow _ _ _ _ _) as [ok l].
  assert (memory_only now st (set_loginLimiter l st)) as H by (split; auto with acs).
  destruct (negb ok); [done|]. destruct (ByUsername _ _) as [op|]; [|done].
  destruct (negb (bcrypt_compare _ _)); [done|]. by destruct (is_some (op_DisabledAt op)).
Qed.

Lemma grafanaClaims_memory now token aud st : memory_only now st (grafanaClaims hmac Unmarshal cfg now token aud st).2.
Proof.
  unfold grafanaClaims. destruct (_ || _); [apply memory_refl|].
  destruct (VerifyJWT _ _ _ _ _) as [c|]; [|apply memory_refl]. destruct (negb _); [apply memory_refl|].
  pose proof (tokenCurrent_memory now c st) as H. destruct (tokenCurrent now c st) as [current st'].
  destruct (negb current); [done|]. by destruct (grafanaAllowed c st') as [[]|].
Qed.

Lemma grafanaEnter_memory now ticket st : memory_only now st (grafanaEnter hmac Marshal Unmarshal cfg sha256 now ticket st).2.
Proof.
  unfold grafanaEnter. destruct (negb _); [apply memory_refl|].
  pose proof (grafanaClaims_memory now ticket AudienceGrafanaTicket st) as H.
  destruct (grafanaClaims _ _ _ _ _ _ _) as [[c|] st1]; [|done]. apply (memory_trans _ _ _ _ H).
  unfold spendGrafanaTicket. destruct (_ !! sha256 ticket); by split; auto with acs.
Qed.

Lemma grafanaCheck_memory now cookie st : memory_only now st (grafanaCheck hmac Unmarshal cfg now cookie st).2.
Proof.
  unfold grafanaCheck. destruct (negb _); [apply memory_refl|]. destruct cookie as [v|]; [|apply memory_refl].
  pose proof (grafanaClaims_memory now v AudienceGrafanaSession st) as H.
  by destruct (grafanaClaims _ _ _ _ _ _ _) as [[c|] st1].
Qed.
(** Calls that change accounts. *)

Lemma same_cache_effect now st ops :
  accounts_grow (api_operators st) ops → (operators_ok (api_operators st) → operators_ok ops) →
  op_effect now st (set_operators ops st).
Proof. intros Hg Ho. split; simpl; auto with acs. Qed.

Lemma forget_effect now st ops u :
  accounts_grow (api_operators st) ops → (operators_ok (api_operators st) → operators_ok ops) →
  op_effect now st (forgetTokenVersion u (set_operators ops st)).
Proof.
  intros Hg Ho. split; simpl; auto with acs.
  intros u' e [_ He]%lookup_delete_Some. by left.
Qed.

Lemma disable_grows now (b : bool) o : grows o (if b then disable_row now o else enable_row now o).
Proof. destruct b; unfold grows; simpl; auto with lia. Qed.

Lemma global_grows now b o : grows o (global_row now b o).
Proof. unfold grows. simpl. auto with lia. Qed.

Lemma must_update_effect now id f st :
  (∀ o, grows o (f o)) →
  op_effect now st (with_operators (must_update id f) st).2 ∧
  accounts_grow (api_operators st) (must_update id f (api_operators st)).2 ∧
  (operators_ok (api_operators st) → operators_ok (must_update id f (api_operators st)).2).
Proof.
  intros Hf. assert ((must_update id f (api_operators st)).2 = (update_key id (λ _, true) f (api_operators st)).1) as E
    by (unfold must_update; by destruct (update_key _ _ _ _)).
  assert ((with_operators (must_update id f) st).2 = set_operators (must_update id f (api_operators st)).2 st) as ->
    by (unfold with_operators; by destruct (must_update _ _ _)).
  rewrite E. split_and!; [apply same_cache_effect|..]; auto using update_grows, update_ok.
Qed.

Lemma logout_effect now claims st : op_effect now st (logout now claims st).2.
Proof.
  unfold logout. destruct claims as [c|]; [|apply effect_refl].
  destruct (String.eqb (cl_Subject c) serviceSubject); [apply effect_refl|].
  destruct (ByUsername _ _) as [op|]; [|apply effect_refl]. simpl.
  apply forget_effect; [apply update_grows|apply update_ok]; intros o; unfold grows; simpl; auto with lia.
Qed.

Lemma setOperatorDisabled_effect now claims id body st :
  op_effect now st (setOperatorDisabled now claims id body st).2.
Proof.
  unfold setOperatorDisabled. destruct body as [b|]; [|apply effect_refl].
  destruct (Operators_ByID _ _) as [target|]; [|apply effect_refl].
  destruct (_ && _); [apply effect_refl|]. destruct (_ && _ && _); [apply effect_refl|].
  unfold with_operators, SetDisabled.
  destruct (must_update_effect now id (if b then disable_row now else enable_row now) st) as (H & G & O).
  { intros o. pose proof (disable_grows now b o). by destruct b. }
  unfold with_operators in H. destruct (must_update _ _ _) as [[|] ops]; simpl in *; [|done].
  by apply forget_effect.
Qed.

Lemma setOperatorGlobalAccess_effect now id body st :
  op_effect now st (setOperatorGlobalAccess now id body st).2.
Proof.
  unfold setOperatorGlobalAccess. destruct body as [b|]; [|apply effect_refl].
  destruct (must_update_effect now id (global_row now b) st (global_grows now b)) as (H & _).
  unfold SetGlobalAccess.
  by destruct (with_operators _ _) as [[|] st'].
Qed.

Lemma tenancy_effect {A} now (f : Tenancy → result A * Tenancy) st : op_effect now st (with_tenancy f st).2.
Proof. unfold with_tenancy. destruct (f _). by split; auto with acs. Qed.

Lemma setOperatorScopes_effect now id body st : op_effect now st (setOperatorScopes id body st).2.
Proof.
  unfold setOperatorScopes. destruct body as [l|]; [|apply effect_refl]. destruct (negb _); [apply effect_refl|].
  pose proof (tenancy_effect now (SetOperatorScopes (api_operators st) id l) st) as H.
  by destruct (with_tenancy _ _) as [[|] st'].
Qed.

Lemma initial_scopes_tables op l st :
  ∃ t, (initial_scopes op l st).2 = set_tenancy t st.
Proof.
  unfold initial_scopes. destruct l as [|s l]; [exists (api_tenancy st); by destruct st|].
  destruct (negb _); [exists (api_tenancy st); by destruct st|].
  unfold with_tenancy. destruct (SetOperatorScopes _ _ _ _) as [[|] t]; by exists t.
Qed.

Lemma accounts_tenancy_effect now st ops ten :
  accounts_grow (api_operators st) ops → (operators_ok (api_operators st) → operators_ok ops) →
  op_effect now st (set_tenancy ten (set_operators ops st)).
Proof. intros Hg Ho. split; simpl; auto with acs. Qed.

Lemma createOperator_effect uuid salt now body st :
  op_effect now st (createOperator bcrypt_generate uuid salt now body st).2.
Proof.
  unfold createOperator. destruct body as [req|]; [|apply effect_refl]. destruct (_ || _ || _); [apply effect_refl|].
  destruct (bcrypt_generate _ _) as [hash|]; [|apply effect_refl].
  pose proof (create_grows uuid now (cor_Username req) (cor_Email req) hash (cor_Role req) (api_operators st)) as Hg.
  pose proof (create_operator_ok uuid now (cor_Username req) (cor_Email req) hash (cor_Role req) (api_operators st)) as Ho.
  unfold with_operators at 1. destruct (Operators_Create _ _ _ _ _ _ _) as [[op|e] ops]; simpl in Hg, Ho.
  2:{ by apply same_cache_effect. }
  destruct (cor_GlobalAccess req).
  - unfold SetGlobalAccess.
    destruct (must_update_effect now (op_ID op) (global_row now true) (set_operators ops st) (global_grows now true))
      as (_ & G & O).
    unfold with_operators. simpl in *. destruct (must_update _ _ _) as [[|] ops2]; simpl in *.
    + destruct (initial_scopes_tables
        (mkOperator (op_ID op) (op_Username op) (op_Email op) (op_PasswordHash op) (op_Role op) (op_CreatedAt op)
           (op_UpdatedAt op) (op_TokenVersion op) true (op_DisabledAt op))
        (cor_Scopes req) (set_operators ops2 (set_operators ops st))) as [t ->].
      apply (accounts_tenancy_effect now st ops2 t); [|auto].
      by apply (accounts_grow_trans _ ops).
    + apply (same_cache_effect now st ops2); [|auto]. by apply (accounts_grow_trans _ ops).
  - destruct (initial_scopes_tables op (cor_Scopes req) (set_operators ops st)) as [t ->].
    by apply accounts_tenancy_effect.
Qed.

Lemma bootstrapAdmin_effect uuid salt now u p st :
  op_effect now st (bootstrapAdmin bcrypt_generate uuid salt now u p st).2.
Proof.
  unfold bootstrapAdmin. destruct (_ || _); [apply effect_refl|]. destruct (negb _); [apply effect_refl|].
  destruct (bcrypt_generate _ _) as [hash|]; [|apply effect_refl].
  pose proof (create_grows uuid now u "" hash RoleSuperAdmin (api_operators st)) as Hg.
  pose proof (create_operator_ok uuid now u "" hash RoleSuperAdmin (api_operators st)) as Ho.
  unfold with_operators. destruct (Operators_Create _ _ _ _ _ _ _) as [[op|e] ops]; by apply same_cache_effect.
Qed.

Lemma setRolePermission_effect now body st : op_effect now st (setRolePermission body st).2.
Proof.
  unfold setRolePermission. destruct body as [[[role perm] g]|]; [|apply effect_refl].
  destruct (_ && _ && _); [apply effect_refl|]. destruct (negb _); [apply effect_refl|]. by split; auto with acs.
Qed.

Lemma password_grows now id hash st :
  accounts_grow (api_operators st) (UpdatePassword now id hash (api_operators st)) ∧
  (operators_ok (api_operators st) → operators_ok (UpdatePassword now id hash (api_operators st))).
Proof. split; [apply update_grows|apply update_ok]; intros o; unfold grows; simpl; auto with lia. Qed.

Lemma resetOperatorPassword_effect salt now id body st :
  op_effect now st (resetOperatorPassword bcrypt_generate salt now id body st).2.
Proof.
  unfold resetOperatorPassword. destruct body as [p|]; [|apply effect_refl]. destruct (short_password p); [apply effect_refl|].
  destruct (bcrypt_generate _ _) as [hash|]; [|apply effect_refl].
  destruct (password_grows now id hash st). by apply same_cache_effect.
Qed.

Lemma create_reset_keeps random now id ops r : resets_keep r (CreateResetToken random now id ops r).2.
Proof.
  unfold CreateResetToken. destruct (is_some (r !! _)) eqn:E; [auto with acs|]. destruct (negb _); [auto with acs|].
  simpl. intros tk t Ht. exists t. split; [|done]. rewrite lookup_insert_ne; [done|]. intros <-. by rewrite Ht in E.
Qed.

Lemma consume_reset_keeps now tk ops r : resets_keep r (ConsumeResetToken now tk ops r).2.
Proof.
  unfold ConsumeResetToken. destruct (r !! tk) as [t|] eqn:E; [|auto with acs].
  destruct (is_some (rt_UsedAt t)) eqn:Eu; simpl; [auto with acs|].
  destruct (_ <? now); [auto with acs|]. destruct (ops !! rt_OperatorID t); [|auto with acs]. simpl.
  intros tk' t' Ht'. destruct (decide (tk = tk')) as [<-|].
  - rewrite lookup_insert_eq. eexists. split; [done|]. rewrite E in Ht'. injection Ht' as <-. by rewrite Eu.
  - rewrite lookup_insert_ne by done. eauto.
Qed.

Lemma requestPasswordReset_effect random now body st :
  op_effect now st (requestPasswordReset cfg random now body st).2.
Proof.
  unfold requestPasswordReset. destruct body as [u|]; [|apply effect_refl].
  destruct (ByUsername _ _) as [op|]; [|apply effect_refl]. destruct (_ || _); [apply effect_refl|].
  pose proof (create_reset_keeps random now (op_ID op) (api_operators st) (api_resets st)) as H.
  destruct (CreateResetToken _ _ _ _ _) as [[[tk ?]|] t]; by split; simpl; auto with acs.
Qed.

Lemma confirmPasswordReset_effect salt now body st :
  op_effect now st (confirmPasswordReset bcrypt_generate salt now body st).2.
Proof.
  unfold confirmPasswordReset. destruct body as [[tk p]|]; [|apply effect_refl].
  destruct (short_password p); [apply effect_refl|].
  pose proof (consume_reset_keeps now tk (api_operators st) (api_resets st)) as H.
  destruct (ConsumeResetToken _ _ _ _) as [[op|e] t].
  - simpl in H. destruct (bcrypt_generate _ _) as [hash|]; [|by split; simpl; auto with acs].
    destruct (password_grows now (op_ID op) hash st). split; simpl; auto with acs.
  - by split; simpl; auto with acs.
Qed.
End Calls.

(** ** Steps of a deployment *)

Inductive api_op : Type :=
| CallServe (r : Request)
| CallLogin (remoteAddr : string) (body : option loginRequest)
| CallLogout (claims : option Claims)
| CallCreateOperator (uuid salt : string) (body : option createOperatorRequest)
| CallBootstrap (uuid salt username password : string)
| CallSetDisabled (claims : option Claims) (id : string) (body : option bool)
| CallSetGlobalAccess (id : string) (body : option bool)
| CallSetScopes (id : string) (body : option (list Scope))
| CallSetPermission (body : option (string * string * bool))
| CallResetPassword (salt id : string) (body : option string)
| CallRequestReset (random : string) (body : option string)
| CallConfirmReset (salt : string) (body : option (string * string))
| CallGrafanaEnter (ticket : string)
| CallGrafanaCheck (cookie : option string).

(** The memory of [mem] with the tables of [st]. *)
Definition with_memory {B} (mem st : ApiState B) : ApiState B :=
  mkApi (api_operators st) (api_permissions st) (api_resets st) (api_tenancy st) (api_versionCache mem)
    (api_limiter mem) (api_loginLimiter mem) (api_spent mem).

Section Steps.
Context {B : Type} (NewLimiter NewLoginLimiter : B) (bucket_allow : GoTime → B → bool * B).
Context (hmac : string → string → string) (Marshal : json → string) (Unmarshal : string → option json).
Context (bcrypt_generate : string → string → result string) (bcrypt_compare : string → string → bool).
Context (sha256 : string → string) (cfg : ApiConfig).
Implicit Types st : ApiState B.

Definition api_run (now : GoTime) (op : api_op) (st : ApiState B) : ApiState B :=
  match op with
  | CallServe r => (serve NewLimiter bucket_allow hmac Unmarshal cfg now r st).2
  | CallLogin ra body => (login NewLoginLimiter bucket_allow hmac Marshal bcrypt_compare cfg now ra body st).2
  | CallLogout claims => (logout now claims st).2
  | CallCreateOperator uuid salt body => (createOperator bcrypt_generate uuid salt now body st).2
  | CallBootstrap uuid salt u p => (bootstrapAdmin bcrypt_generate uuid salt now u p st).2
  | CallSetDisabled claims id body => (setOperatorDisabled now claims id body st).2
  | CallSetGlobalAccess id body => (setOperatorGlobalAccess now id body st).2
  | CallSetScopes id body => (setOperatorScopes id body st).2
  | CallSetPermission body => (setRolePermission body st).2
  | CallResetPassword salt id body => (resetOperatorPassword bcrypt_generate salt now id body st).2
  | CallRequestReset random body => (requestPasswordReset cfg random now body st).2
  | CallConfirmReset salt body => (confirmPasswordReset bcrypt_generate salt now body st).2
  | CallGrafanaEnter ticket => (grafanaEnter hmac Marshal Unmarshal cfg sha256 now ticket st).2
  | CallGrafanaCheck cookie => (grafanaCheck hmac Unmarshal cfg now cookie st).2
  end.

Lemma api_run_effect now op st : op_effect now st (api_run now op st).
Proof.
  destruct op; simpl;
    auto using memory_effect, serve_memory, login_memory, logout_effect, createOperator_effect, bootstrapAdmin_effect,
      setOperatorDisabled_effect, setOperatorGlobalAccess_effect, setOperatorScopes_effect, setRolePermission_effect,
      resetOperatorPassword_effect, requestPasswordReset_effect, confirmPasswordReset_effect, grafanaEnter_memory,
      grafanaCheck_memory.
Qed.

(** Instant and state: a call served here, or by another process with a memory
    of its own. *)
Inductive api_step : GoTime * ApiState B → GoTime * ApiState B → Prop :=
| step_own t now op st : t <= now → api_step (t, st) (now, api_run now op st)
| step_other t now op mem st :
    t <= now → api_step (t, st) (now, with_memory st (api_run now op (with_memory mem st))).

(** A process that has just started. *)
Definition fresh_process st : Prop := operators_ok (api_operators st) ∧ api_versionCache st = ∅.

Lemma api_step_effect t st t' st' :
  api_step (t, st) (t', st') → t <= t' ∧ op_effect t' st st'.
Proof.
  intros H. inversion_clear H as [? ? op ? Ht|? ? op mem ? Ht]; split; try done; [apply api_run_effect|].
  destruct (api_run_effect t' op (with_memory mem st)) as [H1 H2 H3 H4]. by split; simpl; auto with acs.
Qed.

(** What holds of a process that has served calls until [t]: usernames are
    unique, and a cached version expires soon and is not ahead of the table. *)
Definition process_ok (t : GoTime) st : Prop :=
  operators_ok (api_operators st) ∧
  ∀ u e, api_versionCache st !! u = Some e →
    ve_expires e <= t + tokenVersionCacheTTL ∧
    ∃ k o, api_operators st !! k = Some o ∧ op_Username o = u ∧ ve_version e <= op_TokenVersion o.

Lemma TokenVersion_Some ops u v :
  TokenVersion ops u = Some v → ∃ k o, ops !! k = Some o ∧ op_Username o = u ∧ op_TokenVersion o = v.
Proof.
  unfold TokenVersion. destruct (ByUsername ops u) as [o|] eqn:E; [|done]. intros [= <-].
  apply ByUsername_Some in E as (? & k & ?). eauto.
Qed.

Lemma process_ok_step t st t' st' : process_ok t st → api_step (t, st) (t', st') → process_ok t' st'.
Proof.
  intros [Hok Hc] [Ht [Hacc Ho Hcache _]]%api_step_effect. split; [auto|].
  intros u e [He|(v & (k & o & Hk & Hu & <-)%TokenVersion_Some & ->)]%Hcache; simpl.
  - destruct (Hc u e He) as (Hx & k & o & Hk & Hu & Hv). split; [lia|].
    destruct (Hacc _ _ Hk) as (o' & Hk' & (_ & Hu' & _ & Hv')). exists k, o'. split_and!; [done|congruence|lia].
  - split; [lia|]. destruct (Hacc _ _ Hk) as (o' & Hk' & (_ & Hu' & _ & Hv')).
    exists k, o'. split_and!; [done|congruence|lia].
Qed.

Lemma process_ok_steps t st t' st' :
  process_ok t st → rtc api_step (t, st) (t', st') → process_ok t' st'.
Proof.
  intros H Hr. remember (t, st) as a eqn:Ea. remember (t', st') as b eqn:Eb.
  revert t st Ea H. induction Hr as [a|a [t1 st1] b Hs Hr IH]; intros t st -> H; simplify_eq; [done|].
  eapply IH; eauto using process_ok_step.
Qed.

Lemma fresh_process_ok t st : fresh_process st → process_ok t st.
Proof. intros [H E]. split; [done|]. rewrite E. intros u e. by rewrite lookup_empty. Qed.

(** From the moment the version of [u] is [v] or more, no cached version below
    [v] appears; those there are gone after [deadline]. *)
Definition moved_to (u : string) (v : Z) (deadline : GoTime) st : Prop :=
  operators_ok (api_operators st) ∧
  (∃ k o, api_operators st !! k = Some o ∧ op_Username o = u ∧ v <= op_TokenVersion o) ∧
  ∀ e, api_versionCache st !! u = Some e → v <= ve_version e ∨ ve_expires e <= deadline.

Lemma TokenVersion_ok ops k o : operators_ok ops → ops !! k = Some o → TokenVersion ops (op_Username o) = Some (op_TokenVersion o).
Proof. intros Hok Hk. unfold TokenVersion. by rewrite (ByUsername_ok _ _ _ Hok Hk). Qed.

Lemma moved_to_step u v d t st t' st' : moved_to u v d st → api_step (t, st) (t', st') → moved_to u v d st'.
Proof.
  intros (Hok & (k & o & Hk & Hu & Hv) & Hc) [Ht [Hacc Ho Hcache _]]%api_step_effect.
  destruct (Hacc _ _ Hk) as (o' & Hk' & (_ & Hu' & _ & Hv')).
  split_and!; [auto|exists k, o'; split_and!; [done|congruence|lia]|].
  intros e [He|(v' & Hv'' & ->)]%Hcache; [auto|]. left. simpl.
  rewrite <- Hu, (TokenVersion_ok _ _ _ Hok Hk) in Hv''. injection Hv'' as <-. done.
Qed.

Lemma moved_to_steps u v d t st t' st' :
  moved_to u v d st → rtc api_step (t, st) (t', st') → moved_to u v d st'.
Proof.
  intros H Hr. remember (t, st) as a eqn:Ea. remember (t', st') as b eqn:Eb.
  revert t st Ea H. induction Hr as [a|a [t1 st1] b Hs Hr IH]; intros t st -> H; simplify_eq; [done|].
  eapply IH; eauto using moved_to_step.
Qed.

(** A token of an earlier version is refused once stale entries are gone. *)
Lemma moved_to_refuses u v d now c st :
  moved_to u v d st → cl_Subject c = u → u ≠ serviceSubject → cl_Version c < v →
  (d < now ∨ ∀ e, api_versionCache st !! u = Some e → v <= ve_version e) →
  (tokenCurrent now c st).1 = false.
Proof.
  intros (Hok & (k & o & Hk & Hu & Hv) & Hc) Hs Hne Hlt Hd. unfold tokenCurrent.
  destruct (String.eqb_spec (cl_Subject c) serviceSubject); [congruence|]. rewrite Hs.
  assert (∀ w st', lookup_version now u st = (Some w, st') → v <= w) as Hw.
  { pose proof (TokenVersion_ok _ _ _ Hok Hk) as Htv. rewrite Hu in Htv.
    intros w st'. unfold lookup_version. rewrite Htv.
    destruct (api_versionCache st !! u) as [e|] eqn:Ee; [|intros [= <- <-]; done].
    destruct (Z.ltb_spec (ve_expires e) now); intros [= <- <-]; [done|].
    destruct Hd as [Hd|Hd]; [|auto]. destruct (Hc e eq_refl); lia. }
  destruct (lookup_version now u st) as [[w|] st'] eqn:E; [|done]. simpl.
  apply Z.leb_gt. specialize (Hw _ _ eq_refl). lia.
Qed.
End Steps.
