(* ===== verification/ApiTheorems.v ===== *)
(** * The operator API: theorems

    Access control of the whole route table, the reach of the service token,
    revocation, sessions, reset links, tenancy, the last superadmin, the
    permission matrix and the Grafana gate. *)

From S2P Require Import Prelude GoStrings Encoding Json NetGuard Ratelimit Devices Operators Jwt Routes Api ApiLaws.

(** ** Access control *)

Section Access.
Context {B : Type} (NewLimiter NewLoginLimiter : B) (bucket_allow : GoTime → B → bool * B).
Context (hmac : string → string → string) (Unmarshal : string → option json) (cfg : ApiConfig).
Implicit Types st : ApiState B.

(** How a request came to its identity. *)
Definition admitted (now : GoTime) (r : Request) (claims : option Claims) st : Prop :=
  match claims with
  | None => isPublicRoute r = true
  | Some c => ∃ token fromQuery, bearerToken r = Some (token, fromQuery) ∧
      ((fromQuery = false ∧ token = cf_internalServiceToken cfg ∧ token ≠ "" ∧
        isServiceRoute r = true ∧ c = serviceClaims now) ∨
       (VerifyJWT hmac Unmarshal now (cf_jwtSecret cfg) token = Ok c ∧ (tokenCurrent now c st).1 = true ∧
        ((fromQuery = false ∧ cl_Audience c = "") ∨
         (fromQuery = true ∧ cl_Audience c = AudienceBrowserTicket ∧ isBrowserTicketRoute r = true))))
  end.

(** What the gate of a route asks of the claims. *)
Definition entitled (perms : gmap (string * string) bool) (g : Gate) (claims : option Claims) : Prop :=
  match g, claims with
  | Unguarded, _ => True
  | MinRole min, Some c => AtLeast (cl_Role c) min = true
  | MinRolePerm min perm, Some c =>
      AtLeast (cl_Role c) min = true ∧ PermissionRepository_Has perms (cl_Role c) perm = true
  | _, None => False
  end.

Lemma auth_enabled : cf_jwtSecret cfg ≠ "" → auth_disabled cfg = false.
Proof. intros H. by apply String.eqb_neq. Qed.

Lemma withJWTAuth_admits now r st claims st' :
  cf_jwtSecret cfg ≠ "" → withJWTAuth hmac Unmarshal cfg now r st = (Next claims, st') → admitted now r claims st.
Proof.
  intros Hs%auth_enabled. unfold withJWTAuth. rewrite Hs. simpl.
  destruct (isPublicRoute r) eqn:Ep; [by intros [= <- <-]|].
  destruct (bearerToken r) as [[token q]|] eqn:Eb; [|done].
  destruct (q && negb (isBrowserTicketRoute r)) eqn:Eq; [done|].
  destruct (negb q && negb (String.eqb (cf_internalServiceToken cfg) "") && String.eqb token (cf_internalServiceToken cfg)) eqn:Es.
  { bool_to_prop. subst. destruct (isServiceRoute r) eqn:Er; [|done]. intros [= <- <-].
    exists (cf_internalServiceToken cfg), false. split; [done|]. left. split_and!; done. }
  destruct (VerifyJWT hmac Unmarshal now (cf_jwtSecret cfg) token) as [c|] eqn:Ev; [|done].
  destruct (_ || _) eqn:Ea; [done|]. destruct (tokenCurrent now c st) as [[] st1] eqn:Ec; [|done].
  intros [= <- <-]. exists token, q. split; [done|]. right. rewrite Ec. split_and!; [done|done|].
  destruct q; simpl in *; bool_to_prop; [right|left]; split_and!; try done; [by bool_to_prop..].
Qed.

Lemma gate_entitled g claims st :
  cf_jwtSecret cfg ≠ "" → gate cfg g claims st = None → entitled (api_permissions st) g claims.
Proof.
  intros Hs%auth_enabled. unfold gate, requireRole, requirePermission. rewrite Hs. simpl.
  destruct g as [|min|min perm]; [done|..]; destruct claims as [c|]; simpl; try done.
  - by destruct (AtLeast (cl_Role c) min).
  - destruct (AtLeast (cl_Role c) min); [|done]. simpl. by destruct (PermissionRepository_Has _ _ _).
Qed.
End Access.

(** Every permission gate also asks for the rank of [noc]. *)
Definition permission_needs_noc (x : Route) : bool :=
  match ro_Gate x with MinRolePerm min _ => String.eqb min RoleOperator | _ => true end.

Lemma permissions_need_noc : forallb permission_needs_noc registerRoutes = true.
Proof. vm_compute. reflexivity. Qed.

(** C10: access control of the operator API.  With authentication configured, a
    handler runs only for a request whose identity is established: a public
    route, the service token in the header of a service route, a session token
    in the header or a browser ticket in the URL of a ticket route, the last
    two verified and not revoked; the claims satisfy the role and the
    permission the route table asks for; and a read-only session reaches no
    route that needs a permission, whatever the matrix grants. *)
Theorem api_access_control {B} (NewLimiter : B) bucket_allow hmac Unmarshal cfg now r (st : ApiState B) h claims st' :
  cf_jwtSecret cfg ≠ "" →
  serve NewLimiter bucket_allow hmac Unmarshal cfg now r st = (Reached h claims, st') →
  admitted hmac Unmarshal cfg now r claims st ∧
  ∃ x, x ∈ registerRoutes ∧ ro_Handler x = h ∧ matches (ro_Pattern x) (rq_Segments r) = true ∧
    entitled (api_permissions st) (ro_Gate x) claims ∧
    (∀ c, claims = Some c → cl_Role c = RoleReadOnly → ∀ min perm, ro_Gate x ≠ MinRolePerm min perm).
Proof.
  intros Hs. unfold serve. destruct (String.eqb (rq_Method r) "OPTIONS"); [done|].
  pose proof (withJWTAuth_memory hmac Unmarshal cfg now r st) as Hm1.
  destruct (withJWTAuth hmac Unmarshal cfg now r st) as [[code msg|cl] st1] eqn:Ea; [done|]. simpl in Hm1.
  pose proof (withRateLimit_memory NewLimiter bucket_allow now r cl st1) as Hm2.
  destruct (withRateLimit NewLimiter bucket_allow now r cl st1) as [[] st2]; [|done]. simpl in Hm2.
  destruct (find_route registerRoutes r) as [x|] eqn:Ef; [|done].
  destruct (gate cfg (ro_Gate x) cl st2) eqn:Eg; [done|]. intros [= <- <- <-].
  split; [by eapply withJWTAuth_admits|].
  apply find_route_sound in Ef as (Hin & Hmat & _). apply gate_entitled in Eg; [|done].
  rewrite (mo_permissions _ _ _ Hm2), (mo_permissions _ _ _ Hm1) in Eg.
  exists x. split_and!; try done. intros c -> Hro min perm Hg. rewrite Hg in Eg. destruct Eg as [Hmin _].
  pose proof permissions_need_noc as Ht. rewrite forallb_forall in Ht.
  apply list_elem_of_In, Ht in Hin. unfold permission_needs_noc in Hin. rewrite Hg in Hin.
  apply String.eqb_eq in Hin. subst min. by rewrite Hro in Hmin.
Qed.

(** *** A concrete deployment *)

Definition w_allow_api (t : GoTime) (b : nat) : bool * nat := (true, b).
Definition w_hmac (key msg : string) : string := (key ++ msg)%string.
Definition w_session : Claims := sessionClaims "ann" RoleNOC "" 0 jwtTTL 1.
Definition w_marshal (j : json) : string := "payload".
Definition w_unmarshal (s : string) : option json := Some (encode_claims w_session).
Definition w_cfg : ApiConfig := mkApiConfig "secret" "svc" true "https://grafana" true.
Definition w_ann : Operator := mkOperator "op1" "ann" "ann@example.org" "hash" RoleNOC 0 0 1 false None.
Definition w_root : Operator := mkOperator "op2" "root" "" "hash" RoleSuperAdmin 0 0 1 false None.
Definition w_limiter : @Limiter nat := New Hour.
Definition w_tenancy : Tenancy :=
  mkTenancy ∅ {["c1" := mkCustomer "c1" "Acme" None]} ∅ ∅ {["op1" := [mkScope ScopeCustomer "c1"]]}.
Definition w_api : ApiState nat :=
  mkApi (<["op2" := w_root]> {["op1" := w_ann]}) ∅ ∅ w_tenancy ∅ w_limiter w_limiter ∅.
Definition w_token : string := SignJWT w_hmac w_marshal "secret" w_session.
Definition w_get_device : Request :=
  mkRequest "GET" ["api"; "v1"; "devices"; "d1"] ("Bearer " ++ w_token) "" "10.0.0.9:4000".

Lemma w_api_fresh : fresh_process w_api.
Proof.
  split; [|done]. split.
  - intros k o. unfold w_api. simpl. intros [[<- <-]|[_ [<- <-]%lookup_singleton_Some]]%lookup_insert_Some; done.
  - intros k k' o o'. unfold w_api. simpl.
    intros [[<- <-]|[_ [<- <-]%lookup_singleton_Some]]%lookup_insert_Some
           [[<- <-]|[_ [<- <-]%lookup_singleton_Some]]%lookup_insert_Some; done.
Qed.

Lemma api_access_control_witness :
  admitted w_hmac w_unmarshal w_cfg Second w_get_device (Some (in_seconds w_session)) w_api ∧
  ∃ x, x ∈ registerRoutes ∧ ro_Handler x = "getDevice" ∧
    matches (ro_Pattern x) (rq_Segments w_get_device) = true ∧
    entitled (api_permissions w_api) (ro_Gate x) (Some (in_seconds w_session)) ∧
    (∀ c, Some (in_seconds w_session) = Some c → cl_Role c = RoleReadOnly → ∀ min perm, ro_Gate x ≠ MinRolePerm min perm).
Proof.
  apply (api_access_control 0%nat w_allow_api w_hmac w_unmarshal w_cfg Second w_get_device w_api "getDevice"
    (Some (in_seconds w_session)) (serve 0%nat w_allow_api w_hmac w_unmarshal w_cfg Second w_get_device w_api).2).
  - done.
  - vm_compute. reflexivity.
Defined.

Lemma service_gate {B} cfg g now (st : ApiState B) :
  match g with Unguarded => true | MinRole m => AtLeast RoleSuperAdmin m
             | MinRolePerm m _ => AtLeast RoleSuperAdmin m end = true →
  gate cfg g (Some (serviceClaims now)) st = None.
Proof.
  destruct g as [|m|m p]; intros Hg; unfold gate, requireRole, requirePermission; simpl; [done|..];
    by rewrite Hg, ?orb_true_r.
Qed.

(** A service request that reaches a handler. *)
Ltac reached_by m segs :=
  exists (mkRequest m segs "" "" ""); eexists;
  split_and!; [done|vm_compute; reflexivity|done|intros; by apply service_gate].

(** The read of cached parameters, as the BSS client asks for it. *)
Definition client_get_parameters (id : string) : Request :=
  mkRequest "GET" ["api"; "v1"; "devices"; id; "parameters"] "" "" "".

Lemma client_get_parameters_refused id : byte_in slash id = false → isServiceRoute (client_get_parameters id) = false.
Proof.
  intros Hid. apply not_true_iff_false. intros H.
  unfold isServiceRoute in H. cbn [client_get_parameters rq_Method String.eqb] in H.
  assert (URL_Path (client_get_parameters id) = ("/api/v1/devices/" ++ (id ++ "/parameters"))%string) as Hp by done.
  assert (count_byte slash (URL_Path (client_get_parameters id)) = 5) as Hc.
  { by rewrite Hp, !count_byte_app, (count_byte_absent _ _ Hid). }
  rewrite Hc in H.
  assert (HasSuffix (URL_Path (client_get_parameters id)) "/parameter-names" = false) as Hsuf.
  { apply not_true_iff_false. intros (x & Hx)%HasSuffix_spec. rewrite Hp, <- string_app_assoc in Hx.
    by apply suffixes_comparable in Hx. }
  assert (HasPrefix (URL_Path (client_get_parameters id)) "/api/v1/jobs/" = false) as Hpre.
  { apply not_true_iff_false. rewrite Hp. by intros (x & Hx)%HasPrefix_split. }
  rewrite Hsuf, Hpre in H. simpl in H. by rewrite !andb_false_r in H.
Qed.

(** The reach of the internal service token.  The requests the allowlist
    lets the service token make reach exactly nine handlers, every gate being
    open to it: the five calls of the BSS client and four more, among them the
    proxy to a device's web interface.  The client's read of cached parameters
    is not one of them. *)
Theorem service_token_reach cfg h :
  (h ∈ service_handlers ↔
   ∃ r x, isServiceRoute r = true ∧ find_route registerRoutes r = Some x ∧ ro_Handler x = h ∧
     ∀ B now (st : ApiState B), gate cfg (ro_Gate x) (Some (serviceClaims now)) st = None) ∧
  (∀ id, byte_in slash id = false → isServiceRoute (client_get_parameters id) = false).
Proof.
  split; [|exact client_get_parameters_refused].
  split; [|by intros (r & x & Hs & Hf & <- & _); eapply service_route_handlers].
  intros Hin. unfold service_handlers in Hin.
  repeat (apply elem_of_cons in Hin as [->|Hin]); [..|by apply elem_of_nil in Hin].
  - reached_by "PUT" ["api"; "v1"; "devices"; "d"; "parameters"].
  - reached_by "GET" ["api"; "v1"; "devices"; "d"].
  - reached_by "GET" ["api"; "v1"; "devices"; "d"; "parameter-names"].
  - reached_by "GET" ["api"; "v1"; "devices"; "d"; "wifi"; "networks"].
  - reached_by "GET" ["api"; "v1"; "jobs"; "k"].
  - reached_by "GET" ["api"; "v1"; "devices"; "summary"].
  - reached_by "GET" ["api"; "v1"; "devices"; "ids"].
  - reached_by "PUT" ["api"; "v1"; "devices"; "d"; "wifi"; "networks"; "parameters"].
  - reached_by "PUT" ["api"; "v1"; "devices"; "d"; "webgui"; "proxy"; "parameters"].
Qed.

(** ** Revocation *)

Section Revocation.
Context {B : Type} (NewLimiter NewLoginLimiter : B) (bucket_allow : GoTime → B → bool * B).
Context (hmac : string → string → string) (Marshal : json → string) (Unmarshal : string → option json).
Context (bcrypt_generate : string → string → result string) (bcrypt_compare : string → string → bool).
Context (sha256 : string → string) (cfg : ApiConfig).
Implicit Types st : ApiState B.

Abbreviation step := (api_step NewLimiter NewLoginLimiter bucket_allow hmac Marshal Unmarshal
  bcrypt_generate bcrypt_compare sha256 cfg) (only parsing).

(** The account of [u] has a version above [v]. *)
Definition version_above (u : string) (v : Z) st : Prop :=
  ∃ k o, api_operators st !! k = Some o ∧ op_Username o = u ∧ v < op_TokenVersion o.

Lemma revoked_later t1 st1 t2 st2 u v c now :
  process_ok t1 st1 → version_above u v st1 → rtc step (t1, st1) (t2, st2) →
  cl_Subject c = u → u ≠ serviceSubject → cl_Version c <= v →
  t1 + tokenVersionCacheTTL < now ∨ api_versionCache st1 !! u = None →
  (tokenCurrent now c st2).1 = false.
Proof.
  intros [Hok Hcache] (k & o & Hk & Hu & Hv) Hr Hs Hne Hle Hd.
  destruct Hd as [Hd|Hd].
  - assert (moved_to u (v + 1) (t1 + tokenVersionCacheTTL) st1) as Hm.
    { split_and!; [done|exists k, o; split_and!; [done..|lia]|].
      intros e He. right. by destruct (Hcache u e He). }
    eapply moved_to_refuses; [by eapply moved_to_steps|done|done|lia|by left].
  - assert (moved_to u (v + 1) (now - 1) st1) as Hm.
    { split_and!; [done|exists k, o; split_and!; [done..|lia]|]. intros e He. congruence. }
    eapply moved_to_refuses; [by eapply moved_to_steps|done|done|lia|left; lia].
Qed.

(** The calls that revoke. *)
Lemma revoke_version id f (ops : gmap string Operator) k o :
  ops !! k = Some o → k = id → op_Username (f o) = op_Username o → op_TokenVersion (f o) = op_TokenVersion o + 1 →
  ∃ k' o', (update_key id (λ _, true) f ops).1 !! k' = Some o' ∧ op_Username o' = op_Username o ∧
    op_TokenVersion o < op_TokenVersion o'.
Proof.
  intros Hk -> Hu Hv. exists id, (f o). rewrite lookup_update_key, decide_True by done. rewrite Hk. simpl.
  split_and!; [done|done|lia].
Qed.

Lemma logout_revokes now c st st1 :
  process_ok now st → logout now (Some c) st = (NoBody 204, st1) →
  ∃ o, ByUsername (api_operators st) (cl_Subject c) = Some o ∧
    version_above (cl_Subject c) (op_TokenVersion o) st1 ∧ api_versionCache st1 !! cl_Subject c = None.
Proof.
  intros [[Hid _] _]. unfold logout. destruct (String.eqb (cl_Subject c) serviceSubject); [done|].
  destruct (ByUsername (api_operators st) (cl_Subject c)) as [o|] eqn:E; [|done]. intros [= <-].
  exists o. pose proof (ByUsername_Some _ _ _ E) as (Hu & k & Hk). rewrite <- Hu. split_and!; [done| |].
  - apply (revoke_version (op_ID o) _ _ k); [done|by rewrite (Hid _ _ Hk)|done|done].
  - simpl. apply lookup_delete_eq.
Qed.

Lemma disable_revokes now claims id st st1 :
  process_ok now st → setOperatorDisabled now claims id (Some true) st = (NoBody 204, st1) →
  ∃ o, api_operators st !! id = Some o ∧
    version_above (op_Username o) (op_TokenVersion o) st1 ∧ api_versionCache st1 !! op_Username o = None.
Proof.
  intros _. unfold setOperatorDisabled, Operators_ByID. destruct (api_operators st !! id) as [o|] eqn:E; [|done].
  destruct (_ && _); [done|]. destruct (_ && _ && _); [done|].
  unfold with_operators, SetDisabled, must_update.
  pose proof (revoke_version id (disable_row now) _ id o E eq_refl eq_refl eq_refl) as Hv.
  destruct (update_key _ _ _ _) as [ops n]. destruct (n =? 0); [done|]. intros [= <-].
  exists o. split_and!; [done|exact Hv|]. simpl. apply lookup_delete_eq.
Qed.

Lemma password_revokes salt now id password st st1 :
  resetOperatorPassword bcrypt_generate salt now id (Some password) st = (NoBody 204, st1) →
  ∀ o, api_operators st !! id = Some o → version_above (op_Username o) (op_TokenVersion o) st1.
Proof.
  unfold resetOperatorPassword. destruct (short_password password); [done|].
  destruct (bcrypt_generate salt password) as [hash|]; [|done]. intros [= <-] o E.
  by apply (revoke_version id _ _ id).
Qed.
End Revocation.



(** ** Sessions *)

Section Login.
Context {B : Type} (NewLimiter NewLoginLimiter : B) (bucket_allow : GoTime → B → bool * B).
Context (hmac : string → string → string) (Marshal : json → string) (Unmarshal : string → option json).
Context (bcrypt_generate : string → string → result string) (bcrypt_compare : string → string → bool).
Context (sha256 : string → string) (cfg : ApiConfig).
Implicit Types st : ApiState B.

(** The claims [login] signs for an account. *)
Definition login_claims (now : GoTime) (o : Operator) : Claims :=
  sessionClaims (op_Username o) (op_Role o) "" now jwtTTL (op_TokenVersion o).

Lemma login_token now ra req st token exp st' :
  login NewLoginLimiter bucket_allow hmac Marshal bcrypt_compare cfg now ra (Some req) st = (TokenReply token exp, st') →
  cf_jwtSecret cfg ≠ "" ∧ ∃ o, ByUsername (api_operators st) (lr_Username req) = Some o ∧ bcrypt_compare (op_PasswordHash o) (lr_Password req) = true ∧
    op_DisabledAt o = None ∧ exp = now + jwtTTL ∧ api_operators st' = api_operators st ∧
    token = SignJWT hmac Marshal (cf_jwtSecret cfg) (login_claims now o).
Proof.
  pose proof (login_memory NewLoginLimiter bucket_allow hmac Marshal bcrypt_compare cfg now ra (Some req) st) as Hm.
  unfold login in *. destruct (auth_disabled cfg) eqn:Ed; [done|]. destruct (_ || _); [done|].
  destruct (Allow _ _ _ _ _) as [ok l]. destruct (negb ok); [done|]. simpl in *.
  destruct (ByUsername (api_operators st) (lr_Username req)) as [o|] eqn:Eo; [|done].
  destruct (bcrypt_compare _ _) eqn:Eb; [|done]. simpl in *. destruct (op_DisabledAt o) eqn:Ex; [done|].
  intros [= <- <- <-]. split; [by apply String.eqb_neq|]. exists o. split_and!; try done.
Qed.

(** A token whose version is the account's is current. *)
Lemma current_version now c k o st t :
  process_ok t st → api_operators st !! k = Some o → op_Username o = cl_Subject c → op_TokenVersion o <= cl_Version c →
  (tokenCurrent now c st).1 = true.
Proof.
  intros [Hok Hcache] Hk Hu Hv. unfold tokenCurrent. destruct (String.eqb (cl_Subject c) serviceSubject); [done|].
  assert (∃ w, (lookup_version now (cl_Subject c) st).1 = Some w ∧ w <= op_TokenVersion o) as (w & Hw & Hle).
  { unfold lookup_version. pose proof (TokenVersion_ok _ _ _ Hok Hk) as Htv. rewrite Hu in Htv. rewrite Htv.
    destruct (api_versionCache st !! cl_Subject c) as [e|] eqn:Ee; [|simpl; eauto with lia].
    destruct (ve_expires e <? now); [simpl; eauto with lia|]. simpl.
    destruct (Hcache _ _ Ee) as (_ & k' & o' & Hk' & Hu' & Hv').
    assert (k' = k) as -> by (eapply (proj2 Hok); eauto; congruence).
    rewrite Hk in Hk'. injection Hk' as <-. eauto. }
  destruct (lookup_version now (cl_Subject c) st) as [[v|] st']; simpl in Hw; simplify_eq. simpl. apply Z.leb_le. lia.
Qed.

Lemma SignJWT_nonempty secret c : ∃ a t, SignJWT hmac Marshal secret c = String a t.
Proof.
  unfold SignJWT. destruct (signing_input Marshal c) as [|a s] eqn:E; [|rewrite string_app_cons; eauto].
  unfold signing_input in E. destruct (EncodeRawURL jwtHeader) as [|x y]; [|rewrite string_app_cons in E]; discriminate E.
Qed.

Lemma bearer_header r token a t :
  rq_Authorization r = ("Bearer " ++ token)%string → token = String a t → bearerToken r = Some (token, false).
Proof. intros Hr ->. unfold bearerToken. by rewrite Hr, CutPrefix_app. Qed.

Lemma session_accepted now r token c k o t st :
  cf_jwtSecret cfg ≠ "" → process_ok t st →
  rq_Authorization r = ("Bearer " ++ token)%string → token ≠ cf_internalServiceToken cfg →
  (∃ a s, token = String a s) → isPublicRoute r = false →
  VerifyJWT hmac Unmarshal now (cf_jwtSecret cfg) token = Ok c → cl_Audience c = "" →
  api_operators st !! k = Some o → op_Username o = cl_Subject c → op_TokenVersion o <= cl_Version c →
  (withJWTAuth hmac Unmarshal cfg now r st).1 = Next (Some c).
Proof.
  intros Hs Hok Hr Hsvc (a & s & Ht) Hp Hv Ha Hk Hu Hver. unfold withJWTAuth.
  rewrite (auth_enabled _ Hs), Hp. simpl. rewrite (bearer_header r token a s Hr Ht). simpl.
  destruct (String.eqb_spec token (cf_internalServiceToken cfg)); [done|]. rewrite andb_false_r.
  rewrite Hv, Ha. simpl. pose proof (current_version now c k o st t Hok Hk Hu Hver) as Hc.
  destruct (tokenCurrent now c st) as [cur st']. simpl in Hc. by subst cur.
Qed.
End Login.

(** A login opens a session that lasts.  [login] hands out a token only to
    an existing account that is not disabled, for its password; and as long as
    no call has moved the account's version, every request that carries the
    token in its header within eight hours (to the second) is let through with
    that account's name and role, whatever calls were served in between. *)
Theorem login_opens_a_session {B} (NewLimiter NewLoginLimiter : B) bucket_allow hmac Marshal Unmarshal
    bcrypt_generate bcrypt_compare sha256 cfg st0 t0 (st : ApiState B) now ra req token exp st1 :
  let steps := rtc (api_step NewLimiter NewLoginLimiter bucket_allow hmac Marshal Unmarshal
                     bcrypt_generate bcrypt_compare sha256 cfg) in
  fresh_process st0 → steps (t0, st0) (now, st) →
  login NewLoginLimiter bucket_allow hmac Marshal bcrypt_compare cfg now ra (Some req) st = (TokenReply token exp, st1) →
  ∃ k o, api_operators st !! k = Some o ∧ op_Username o = lr_Username req ∧
    bcrypt_compare (op_PasswordHash o) (lr_Password req) = true ∧ op_DisabledAt o = None ∧
    ∀ t2 st2 k2 o2 now2 r,
      steps (now, st1) (t2, st2) → api_operators st2 !! k2 = Some o2 → op_Username o2 = op_Username o →
      op_TokenVersion o2 = op_TokenVersion o →
      claims_in_range (login_claims now o) → text_reads_back Marshal Unmarshal (login_claims now o) →
      now2 <= FromUnix (Unix exp) → token ≠ cf_internalServiceToken cfg → isPublicRoute r = false →
      rq_Authorization r = ("Bearer " ++ token)%string →
      (withJWTAuth hmac Unmarshal cfg now2 r st2).1 = Next (Some (in_seconds (login_claims now o))).
Proof.
  intros steps Hf H0 Hl.
  pose proof (process_ok_steps _ _ _ _ _ _ _ _ _ _ _ _ _ _ (fresh_process_ok t0 st0 Hf) H0) as Hok.
  destruct (login_token _ _ _ _ _ _ _ _ _ _ _ _ _ Hl) as (Hs & o & Ho & Hb & Hd & Hexp & Hops & Htok).
  destruct (ByUsername_Some _ _ _ Ho) as (Hu & k & Hk). exists k, o. split_and!; try done.
  intros t2 st2 k2 o2 now2 r H12 Hk2 Hu2 Hv2 Hr Ht Hn Hsvc Hp Ha.
  assert (process_ok now st1) as Hok1.
  { eapply process_ok_step; [exact Hok|].
    replace st1 with (api_run NewLimiter NewLoginLimiter bucket_allow hmac Marshal Unmarshal bcrypt_generate
                        bcrypt_compare sha256 cfg now (CallLogin ra (Some req)) st) by (cbn [api_run]; by rewrite Hl).
    by constructor. }
  pose proof (process_ok_steps _ _ _ _ _ _ _ _ _ _ _ _ _ _ Hok1 H12) as Hok2.
  eapply (session_accepted hmac Unmarshal cfg now2 r token _ k2 o2 t2); try done.
  - rewrite Htok. apply SignJWT_nonempty.
  - rewrite Htok. apply VerifyJWT_SignJWT; [done|done|]. by subst exp.
  - simpl. lia.
Qed.

Lemma login_opens_a_session_witness :
  (withJWTAuth w_hmac w_unmarshal w_cfg Hour w_get_device
     (login 0%nat w_allow_api w_hmac w_marshal (λ _ _, true) w_cfg 0 "10.0.0.9:4000"
        (Some (mkLoginRequest "ann" "pw")) w_api).2).1 = Next (Some (in_seconds w_session)).
Proof.
  destruct (login_opens_a_session 0%nat 0%nat w_allow_api w_hmac w_marshal w_unmarshal (λ _ p, Ok p) (λ _ _, true)
    (λ s, s) w_cfg w_api 0 w_api 0 "10.0.0.9:4000" (mkLoginRequest "ann" "pw") w_token jwtTTL
    (login 0%nat w_allow_api w_hmac w_marshal (λ _ _, true) w_cfg 0 "10.0.0.9:4000"
        (Some (mkLoginRequest "ann" "pw")) w_api).2 w_api_fresh (rtc_refl _ _))
    as (k & o & Hk & Hu & _ & _ & H); [vm_compute; reflexivity|].
  assert (o = w_ann) as ->.
  { simpl in Hu. unfold w_api in Hk. simpl in Hk.
    apply lookup_insert_Some in Hk as [[<- <-]|[_ [<- <-]%lookup_singleton_Some]]; done. }
  apply (H 0 _ "op1" w_ann Hour w_get_device (rtc_refl _ _)).
  - vm_compute. reflexivity.
  - done.
  - done.
  - by vm_compute.
  - done.
  - by vm_compute.
  - by vm_compute.
  - by vm_compute.
  - done.
Defined.
