(* ===== verification/ApiTenancyTheorems.v ===== *)
(** * Reset links, tenancy, the last superadmin, permissions, Grafana

    More theorems on the operator API, over the steps of a deployment. *)

From S2P Require Import Prelude GoStrings Encoding Json NetGuard Ratelimit Devices Operators Jwt Routes Api ApiLaws ApiTheorems.

(** ** Reset links *)

Section Resets.
Context {B : Type} (NewLimiter NewLoginLimiter : B) (bucket_allow : GoTime → B → bool * B).
Context (hmac : string → string → string) (Marshal : json → string) (Unmarshal : string → option json).
Context (bcrypt_generate : string → string → result string) (bcrypt_compare : string → string → bool).
Context (sha256 : string → string) (cfg : ApiConfig).
Implicit Types st : ApiState B.

Abbreviation step := (api_step NewLimiter NewLoginLimiter bucket_allow hmac Marshal Unmarshal
  bcrypt_generate bcrypt_compare sha256 cfg) (only parsing).

Definition spent_link (tk : string) st : Prop := ∃ t, api_resets st !! tk = Some t ∧ is_some (rt_UsedAt t) = true.

Lemma spent_link_steps tk t st t' st' : spent_link tk st → rtc step (t, st) (t', st') → spent_link tk st'.
Proof.
  intros H Hr. remember (t, st) as a eqn:Ea. remember (t', st') as b eqn:Eb.
  revert t st Ea H. induction Hr as [a|a [t1 st1] b Hs Hr IH]; intros t st -> H; simplify_eq; [done|].
  apply (IH eq_refl t1 st1 eq_refl). apply api_step_effect in Hs as [_ [_ _ _ Hk]].
  destruct H as (x & Hx & Hu). destruct (Hk _ _ Hx) as (x' & Hx' & Heq). rewrite (Heq Hu) in Hx'. by exists x.
Qed.

Lemma spent_link_refused now tk ops r t :
  r !! tk = Some t → is_some (rt_UsedAt t) = true → ConsumeResetToken now tk ops r = (Err ErrTokenInvalid, r).
Proof. intros Ht Hu. unfold ConsumeResetToken. by rewrite Ht, Hu. Qed.

Lemma consume_spends now tk ops r o r' :
  ConsumeResetToken now tk ops r = (Ok o, r') →
  ∃ t, r !! tk = Some t ∧ rt_UsedAt t = None ∧ now <= rt_ExpiresAt t ∧ ops !! rt_OperatorID t = Some o ∧
    r' = <[tk := mkResetToken (rt_OperatorID t) (rt_ExpiresAt t) (Some now)]> r.
Proof.
  unfold ConsumeResetToken. destruct (r !! tk) as [t|]; [|done].
  destruct (rt_UsedAt t) eqn:Eu; simpl; [done|]. destruct (Z.ltb_spec (rt_ExpiresAt t) now); [done|].
  destruct (ops !! rt_OperatorID t) as [o'|] eqn:Eo; [|done]. intros [= <- <-]. exists t. done.
Qed.
End Resets.

(** A reset link works once.  A confirmation that succeeds was made within
    the life of a link nobody used, sets the password of the account the link
    was made for and revokes its sessions; afterwards, whatever any process
    serves, the same link is refused.  A password bcrypt refuses spends the
    link too and leaves the account as it was. *)
Theorem reset_link_works_once {B} (NewLimiter NewLoginLimiter : B) bucket_allow hmac Marshal Unmarshal
    bcrypt_generate bcrypt_compare sha256 cfg salt now tk password (st st1 : ApiState B) resp :
  let steps := rtc (api_step NewLimiter NewLoginLimiter bucket_allow hmac Marshal Unmarshal
                     bcrypt_generate bcrypt_compare sha256 cfg) in
  operators_ok (api_operators st) →
  confirmPasswordReset bcrypt_generate salt now (Some (tk, password)) st = (resp, st1) →
  (resp = NoBody 204 ∨ api_resets st1 ≠ api_resets st) →
  ∃ t o, api_resets st !! tk = Some t ∧ rt_UsedAt t = None ∧ now <= rt_ExpiresAt t ∧
    api_operators st !! rt_OperatorID t = Some o ∧
    match bcrypt_generate salt password with
    | Ok hash => resp = NoBody 204 ∧ ∃ o', api_operators st1 !! rt_OperatorID t = Some o' ∧
                   op_PasswordHash o' = hash ∧ op_Username o' = op_Username o ∧ op_TokenVersion o < op_TokenVersion o'
    | Err _ => resp = HTTPError 500 "internal error" ∧ api_operators st1 = api_operators st
    end ∧
    ∀ t2 st2 now2 salt2 password2, steps (now, st1) (t2, st2) → short_password password2 = false →
      confirmPasswordReset bcrypt_generate salt2 now2 (Some (tk, password2)) st2 =
        (HTTPError 400 "reset link is invalid, expired, or already used", set_resets (api_resets st2) st2).
Proof.
  intros steps [Hid _]. unfold confirmPasswordReset at 1.
  destruct (short_password password). { intros [= <- <-] [?|?]; done. }
  destruct (ConsumeResetToken now tk (api_operators st) (api_resets st)) as [[o|e] r] eqn:Ec.
  2:{ assert (r = api_resets st) as ->.
      { unfold ConsumeResetToken in Ec. repeat break_match_hyp Ec; congruence. }
      destruct (String.eqb e ErrTokenInvalid); intros [= <- <-] [?|?]; done. }
  pose proof (consume_spends _ _ _ _ _ _ Ec) as (t & Ht & Hu & Hexp & Ho & Hr). intros H _.
  exists t, o. split_and!; [done..| |].
  - destruct (bcrypt_generate salt password) as [hash|e]; injection H as <- <-; [|done]. split; [done|].
    eexists. simpl. unfold UpdatePassword. rewrite (Hid _ _ Ho), lookup_update_key, decide_True by done.
    rewrite Ho. simpl. split_and!; [done..|]. simpl. lia.
  - intros t2 st2 now2 salt2 password2 Hs Hp.
    assert (spent_link tk st1) as Hsp.
    { exists (mkResetToken (rt_OperatorID t) (rt_ExpiresAt t) (Some now)). split; [|done].
      destruct (bcrypt_generate salt password) as [hash|e]; injection H as <- <-; simpl; rewrite Hr; apply lookup_insert_eq. }
    pose proof (spent_link_steps _ _ _ _ _ _ _ _ _ _ _ _ _ _ _ Hsp Hs) as (t' & Ht' & Hu').
    unfold confirmPasswordReset. rewrite Hp, (spent_link_refused _ _ _ _ _ Ht' Hu'). by rewrite String.eqb_refl.
Qed.

Definition w_reset_api : ApiState nat :=
  set_resets {["tok" := mkResetToken "op1" Hour None]} w_api.

Lemma reset_link_works_once_witness :
  ∃ st1, confirmPasswordReset (λ _ p, Ok p) "s" Second (Some ("tok", "new-password")) w_reset_api = (NoBody 204, st1) ∧
    (confirmPasswordReset (λ _ p, Ok p) "s" (2 * Second) (Some ("tok", "other-password")) st1).1 =
      HTTPError 400 "reset link is invalid, expired, or already used".
Proof.
  eexists. split; [reflexivity|].
  destruct (reset_link_works_once 0%nat 0%nat w_allow_api w_hmac w_marshal w_unmarshal (λ _ p, Ok p) String.eqb
    (λ s, s) w_cfg "s" Second "tok" "new-password" w_reset_api
    (confirmPasswordReset (λ _ p, Ok p) "s" Second (Some ("tok", "new-password")) w_reset_api).2 (NoBody 204))
    as (t & o & _ & _ & _ & _ & _ & H).
  - exact (proj1 w_api_fresh).
  - vm_compute. reflexivity.
  - by left.
  - match goal with |- (confirmPasswordReset _ _ _ _ ?s).1 = _ =>
      exact (f_equal fst (H Second s (2 * Second) "s" "other-password" (rtc_refl _ _) eq_refl)) end.
Defined.

(** ** Tenancy *)

Section Scope.
Context {B : Type} (cfg : ApiConfig).
Implicit Types st : ApiState B.

(** The caller is confined to the customers its scope rows open. *)
Definition confined (c : Claims) (op : Operator) st : Prop :=
  cf_jwtSecret cfg ≠ "" ∧ cl_Role c ≠ RoleSuperAdmin ∧
  ByUsername (api_operators st) (cl_Subject c) = Some op ∧ op_GlobalAccess op = false.

Definition in_scope (op : Operator) (customer : option string) st : Prop :=
  ∃ c s, customer = Some c ∧ s ∈ OperatorScopes (api_tenancy st) (op_ID op) ∧ scope_opens (api_tenancy st) s c.

Lemma confined_scope c op st :
  confined c op st → deviceScope cfg (Some c) st = Ok (AccessibleCustomerIDs (api_tenancy st) (op_ID op)).
Proof.
  intros (Hs & Hr & Ho & Hg). unfold deviceScope. rewrite (auth_enabled _ Hs).
  destruct (String.eqb_spec (cl_Role c) RoleSuperAdmin); [done|]. by rewrite Ho, Hg.
Qed.

Lemma deviceInScope_spec op customer st :
  deviceInScope customer (AccessibleCustomerIDs (api_tenancy st) (op_ID op)).1 = true ↔ in_scope op customer st.
Proof.
  unfold deviceInScope, in_scope. destruct customer as [c|].
  - rewrite existsb_exists. split.
    + intros (x & Hx%list_elem_of_In & ->%String.eqb_eq). apply elem_of_accessible in Hx as (s & ? & ?). eauto 6.
    + intros (c' & s & [= <-] & ? & ?). exists c. split; [|apply String.eqb_refl].
      apply list_elem_of_In, elem_of_accessible. eauto.
  - split; [done|]. by intros (? & ? & ? & _).
Qed.

Lemma scoped_device_spec c op st devices id d :
  confined c op st →
  getScopedDevice cfg (Some c) devices id st = inr d ↔
  devices !! id = Some d ∧ in_scope op (d_CustomerID (d_ownership d)) st.
Proof.
  intros Hc. unfold getScopedDevice. rewrite (confined_scope _ _ _ Hc).
  destruct (devices !! id) as [d'|]; [|split; [done|by intros [? _]]].
  pose proof (deviceInScope_spec op (d_CustomerID (d_ownership d')) st) as Hd.
  unfold AccessibleCustomerIDs in *. simpl in *. destruct (deviceInScope _ _); simpl.
  - split; [intros [= <-]; split; [done|by apply Hd]|by intros [[= <-] _]].
  - split; [done|]. intros [[= <-] H%Hd]. done.
Qed.

Lemma scoped_device_refusal c op st devices id resp :
  confined c op st → getScopedDevice cfg (Some c) devices id st = inl resp → resp = HTTPError 404 "not found".
Proof.
  intros Hc. unfold getScopedDevice. rewrite (confined_scope _ _ _ Hc).
  destruct (devices !! id) as [d'|]; [|congruence].
  unfold AccessibleCustomerIDs. destruct (_ && _); congruence.
Qed.
End Scope.

(** C12: tenancy.  An operator confined to a scope is given a device exactly
    when its customer is named by one of the operator's scope rows or lies in a
    region that is; with no scope rows there is none.  Every other device is
    answered like one that does not exist.  Assigning a customer to a device
    changes at most that device, takes it from the operator's scope and leaves
    it in the operator's scope. *)
Theorem scope_confines_the_operator {B} cfg (st : ApiState B) c op devices :
  confined cfg c op st →
  (∀ id d, getScopedDevice cfg (Some c) devices id st = inr d ↔
     devices !! id = Some d ∧ in_scope op (d_CustomerID (d_ownership d)) st) ∧
  (∀ id resp, getScopedDevice cfg (Some c) devices id st = inl resp → resp = HTTPError 404 "not found") ∧
  (OperatorScopes (api_tenancy st) (op_ID op) = [] → ∀ id d, getScopedDevice cfg (Some c) devices id st ≠ inr d) ∧
  (∀ now id body owners resp devices',
     assignDeviceCustomer cfg now (Some c) id body owners devices st = (resp, devices') →
     devices' = devices ∨
     ∃ d d', devices !! id = Some d ∧ devices' = <[id := d']> devices ∧
       in_scope op (d_CustomerID (d_ownership d)) st ∧ in_scope op (d_CustomerID (d_ownership d')) st ∧
       (∀ owner, owner ∈ owners → d_CustomerID (d_ownership d') = Some owner)).
Proof.
  intros Hc. split_and!.
  - intros id d. by apply scoped_device_spec.
  - intros id resp. by apply (scoped_device_refusal cfg c op).
  - intros Hn id d H. apply (scoped_device_spec _ _ _ _ _ _ _ Hc) in H as [_ (c' & s & _ & Hs & _)].
    rewrite Hn in Hs. by apply elem_of_nil in Hs.
  - intros now id body owners resp devices'. unfold assignDeviceCustomer.
    destruct (getScopedDevice cfg (Some c) devices id st) as [r|d] eqn:Eg; [intros [= <- <-]; by left|].
    apply (scoped_device_spec _ _ _ _ _ _ _ Hc) in Eg as [Hd Hin].
    destruct body as [cu|]; [|intros [= <- <-]; by left]. rewrite (confined_scope _ _ _ _ Hc).
    set (customer := match cu with Some s => if String.eqb s "" then None else Some s | None => None end).
    pose proof (deviceInScope_spec op customer st) as Hsc. unfold AccessibleCustomerIDs in *. simpl in *.
    destruct (deviceInScope customer _); [|intros [= <- <-]; by left]. simpl.
    destruct (existsb _ owners) eqn:Eo; intros [= <- <-]; [by left|]. right.
    eexists d, _. split; [done|]. split.
    { unfold AssignDeviceCustomer, on_device. apply map_eq. intros k.
      destruct (decide (id = k)) as [<-|Hne].
      - rewrite lookup_alter_eq, Hd, lookup_insert_eq. reflexivity.
      - rewrite lookup_alter_ne, lookup_insert_ne by done. done. }
    split; [done|]. split; [by apply Hsc|]. simpl.
    intros owner Ho%list_elem_of_In. apply not_true_iff_false in Eo. rewrite existsb_exists in Eo.
    destruct (decide (customer = Some owner)) as [|Hne]; [done|]. destruct Eo. exists owner.
    split; [done|]. by rewrite bool_decide_eq_false_2.
Qed.

Definition w_device (customer : option string) : Device :=
  mkDevice (mkIdentity "d1" "k1" "oui" "pc" "sn" 0) "Acme" (mkPresence StOnline None [] None None)
    (mkOwnership customer None [] None) no_reach RootUnknown None AuthModeNone no_profile [] 0.

Lemma scope_confines_the_operator_witness :
  confined w_cfg (in_seconds w_session) w_ann w_api ∧
  getScopedDevice w_cfg (Some (in_seconds w_session)) {["d1" := w_device (Some "c1")]} "d1" w_api = inr (w_device (Some "c1")) ∧
  in_scope w_ann (Some "c1") w_api.
Proof.
  assert (confined w_cfg (in_seconds w_session) w_ann w_api) as Hc by (split_and!; done).
  split; [done|].
  destruct (scope_confines_the_operator w_cfg w_api _ _ {["d1" := w_device (Some "c1")]} Hc) as (H & _).
  assert (getScopedDevice w_cfg (Some (in_seconds w_session)) {["d1" := w_device (Some "c1")]} "d1" w_api
          = inr (w_device (Some "c1"))) as Hg by (vm_compute; reflexivity).
  split; [done|]. by apply (H "d1") in Hg as [_ Hg].
Defined.

(** ** The last superadmin *)

Definition has_admin (ops : gmap string Operator) : Prop := ∃ k o, ops !! k = Some o ∧ active_admin o = true.

Lemma has_admin_update id f ops :
  (∀ o, active_admin o = true → active_admin (f o) = true) →
  has_admin ops → has_admin (update_key id (λ _, true) f ops).1.
Proof.
  intros Hf (k & o & Hk & Ha). destruct (decide (id = k)) as [<-|Hne].
  - exists id, (f o). rewrite lookup_update_key, decide_True by done. rewrite Hk. auto.
  - exists k, o. rewrite lookup_update_key, decide_False by done. done.
Qed.

Lemma has_admin_must_update id f ops :
  (∀ o, active_admin o = true → active_admin (f o) = true) →
  has_admin ops → has_admin (must_update id f ops).2.
Proof.
  intros Hf H. pose proof (has_admin_update id f ops Hf H) as G. unfold must_update.
  by destruct (update_key id (λ _, true) f ops).
Qed.

Lemma has_admin_create uuid now u e h role ops :
  has_admin ops → has_admin (Operators_Create uuid now u e h role ops).2.
Proof.
  intros (k & o & Hk & Ha). exists k, o. split; [|done]. unfold Operators_Create.
  destruct (negb (ValidRole role)); [done|]. destruct (is_some (ops !! uuid)) eqn:E; simpl; [done|].
  destruct (existsb (named u) (rows ops)); [done|]. simpl. rewrite lookup_insert_ne; [done|].
  intros <-. by rewrite Hk in E.
Qed.

(** Two active superadmins in the table: one is not [id]. *)
Lemma filter_snd_length (l : list (string * Operator)) :
  length (List.filter active_admin (snd <$> l)) = length (List.filter (λ p, active_admin p.2) l).
Proof.
  induction l as [|[k o] l IH]; [done|]. rewrite fmap_cons. cbn [List.filter snd]. by destruct (active_admin o); simpl; rewrite IH.
Qed.

Lemma two_admins id (l : list (string * Operator)) :
  NoDup (l.*1) → (1 < length (List.filter (λ p, active_admin p.2) l))%nat →
  ∃ k o, k ≠ id ∧ (k, o) ∈ l ∧ active_admin o = true.
Proof.
  induction l as [|[k o] l IH]; intros Hnd Hlen; [simpl in Hlen; lia|].
  rewrite fmap_cons in Hnd. apply NoDup_cons in Hnd as [Hk Hnd]. cbn [List.filter snd] in Hlen.
  destruct (decide (k = id)) as [->|Hne].
  - assert (∃ p, p ∈ List.filter (λ p, active_admin p.2) l) as ([k' o'] & Hp).
    { destruct (List.filter (λ p, active_admin p.2) l) as [|p ?]; [destruct (active_admin o); simpl in Hlen; lia|].
      exists p. apply list_elem_of_here. }
    apply list_elem_of_In, filter_In in Hp as [Hp%list_elem_of_In Ha]. exists k', o'.
    split_and!; [|by apply list_elem_of_further|done]. intros ->. apply Hk, list_elem_of_fmap. by exists (id, o').
  - destruct (active_admin o) eqn:Ea.
    + exists k, o. split_and!; [done|apply list_elem_of_here|done].
    + destruct (IH Hnd Hlen) as (k' & o' & ? & ? & ?). exists k', o'.
      split_and!; [done|by apply list_elem_of_further|done].
Qed.

Lemma other_admin id ops :
  (1 <? CountActiveAdmins ops) = true → ∃ k o, k ≠ id ∧ ops !! k = Some o ∧ active_admin o = true.
Proof.
  unfold CountActiveAdmins, rows. intros H%Z.ltb_lt. rewrite filter_snd_length in H.
  destruct (two_admins id (map_to_list ops)) as (k & o & Hne & Hin & Ha);
    [apply NoDup_fst_map_to_list|lia|]. exists k, o. split_and!; [done|by apply elem_of_map_to_list|done].
Qed.

Section LastAdmin.
Context {B : Type}.
Implicit Types st : ApiState B.

Lemma active_disable_role now o : active_admin o = false → active_admin (disable_row now o) = false.
Proof. unfold active_admin. simpl. by rewrite !andb_false_r. Qed.

Lemma disable_keeps_admin now claims id body st :
  has_admin (api_operators st) → has_admin (api_operators (setOperatorDisabled now claims id body st).2).
Proof.
  intros Hadm. unfold setOperatorDisabled. destruct body as [b|]; [|done].
  unfold Operators_ByID. destruct (api_operators st !! id) as [target|] eqn:Et; [|done].
  destruct (b && String.eqb (op_Username target) (operatorFromRequest claims)); [done|].
  destruct (b && String.eqb (op_Role target) RoleAdmin && (CountActiveAdmins (api_operators st) <=? 1)) eqn:Eg; [done|].
  assert (has_admin (SetDisabled now id b (api_operators st)).2) as H.
  { unfold SetDisabled. destruct b; simpl in Eg.
    - unfold must_update.
      assert (∃ k o, k ≠ id ∧ api_operators st !! k = Some o ∧ active_admin o = true) as (k & o & Hne & Hk & Ha).
      { destruct (String.eqb_spec (op_Role target) RoleAdmin) as [Hr|Hr]; simpl in Eg.
        - apply other_admin. apply Z.leb_gt in Eg. by apply Z.ltb_lt.
        - destruct Hadm as (k & o & Hk & Ha). exists k, o. split_and!; [|done|done]. intros ->.
          rewrite Et in Hk. injection Hk as <-. unfold active_admin in Ha.
          destruct (String.eqb_spec (op_Role target) RoleAdmin); done. }
      pose proof (lookup_update_key id (λ _, true) (disable_row now) (api_operators st) k) as Hl.
      rewrite decide_False in Hl by done. destruct (update_key _ _ _ _) as [ops n]. exists k, o. simpl in *. by rewrite Hl.
    - apply has_admin_must_update; [|done]. intros o. unfold active_admin. simpl. by intros [-> _]%andb_true_iff. }
  unfold with_operators. by destruct (SetDisabled now id b (api_operators st)) as [[|] ops].
Qed.

Context (NewLimiter NewLoginLimiter : B) (bucket_allow : GoTime → B → bool * B).
Context (hmac : string → string → string) (Marshal : json → string) (Unmarshal : string → option json).
Context (bcrypt_generate : string → string → result string) (bcrypt_compare : string → string → bool).
Context (sha256 : string → string) (cfg : ApiConfig).

Lemma with_tenancy_operators {A} (f : Tenancy → result A * Tenancy) st : api_operators (with_tenancy f st).2 = api_operators st.
Proof. unfold with_tenancy. by destruct (f _). Qed.

Lemma create_keeps_admin uuid salt now body st :
  has_admin (api_operators st) → has_admin (api_operators (createOperator bcrypt_generate uuid salt now body st).2).
Proof.
  intros Hadm. unfold createOperator. destruct body as [req|]; [|done]. destruct (_ || _ || _); [done|].
  destruct (bcrypt_generate _ _) as [hash|]; [|done].
  pose proof (has_admin_create uuid now (cor_Username req) (cor_Email req) hash (cor_Role req) _ Hadm) as H.
  unfold with_operators at 1. destruct (Operators_Create _ _ _ _ _ _ _) as [[op|] ops]; simpl in H; [|done].
  destruct (cor_GlobalAccess req).
  - unfold with_operators, SetGlobalAccess. cbn [api_operators set_operators].
    pose proof (has_admin_must_update (op_ID op) (global_row now true) ops (λ o H, H) H) as H2.
    destruct (must_update _ _ _) as [[|] ops2]; simpl in H2; [|done].
    match goal with |- context [initial_scopes ?a ?b ?c] => destruct (initial_scopes_tables a b c) as [t ->] end. done.
  - destruct (initial_scopes_tables op (cor_Scopes req) (set_operators ops st)) as [t ->]. done.
Qed.

Lemma run_keeps_admin now op st :
  has_admin (api_operators st) →
  has_admin (api_operators (api_run NewLimiter NewLoginLimiter bucket_allow hmac Marshal Unmarshal bcrypt_generate
                              bcrypt_compare sha256 cfg now op st)).
Proof.
  intros Hadm. destruct op; cbn [api_run].
  - by rewrite (mo_operators _ _ _ (serve_memory _ _ _ _ _ _ _ _)).
  - by rewrite (mo_operators _ _ _ (login_memory _ _ _ _ _ _ _ _ _ _)).
  - unfold logout. destruct claims as [c|]; [|done]. destruct (String.eqb _ _); [done|].
    destruct (ByUsername _ _); [|done]. by apply has_admin_update.
  - by apply create_keeps_admin.
  - unfold bootstrapAdmin. destruct (_ || _); [done|]. destruct (negb _); [done|].
    destruct (bcrypt_generate _ _) as [hash|]; [|done]. unfold with_operators.
    pose proof (has_admin_create uuid now username "" hash RoleSuperAdmin _ Hadm) as H.
    by destruct (Operators_Create _ _ _ _ _ _ _) as [[|] ops].
  - by apply disable_keeps_admin.
  - unfold setOperatorGlobalAccess. destruct body as [g|]; [|done]. unfold with_operators, SetGlobalAccess.
    pose proof (has_admin_must_update id (global_row now g) _ (λ o H, H) Hadm) as H.
    by destruct (must_update _ _ _) as [[|] ops].
  - unfold setOperatorScopes. destruct body as [l|]; [|done]. destruct (negb _); [done|].
    pose proof (with_tenancy_operators (SetOperatorScopes (api_operators st) id l) st) as E.
    destruct (with_tenancy _ _) as [[|] st']; simpl in *; by rewrite E.
  - unfold setRolePermission. destruct body as [[[role perm] g]|]; [|done].
    destruct (_ && _ && _); [done|]. by destruct (negb _).
  - unfold resetOperatorPassword. destruct body as [p|]; [|done]. destruct (short_password p); [done|].
    destruct (bcrypt_generate _ _); [|done]. by apply has_admin_update.
  - unfold requestPasswordReset. destruct body as [u|]; [|done]. destruct (ByUsername _ _); [|done].
    destruct (_ || _); [done|]. by destruct (CreateResetToken _ _ _ _ _) as [[[]|] ?].
  - unfold confirmPasswordReset. destruct body as [[tk p]|]; [|done]. destruct (short_password p); [done|].
    destruct (ConsumeResetToken _ _ _ _) as [[o|] r]; [|done]. destruct (bcrypt_generate _ _); [|done].
    by apply has_admin_update.
  - by rewrite (mo_operators _ _ _ (grafanaEnter_memory _ _ _ _ _ _ _ _)).
  - by rewrite (mo_operators _ _ _ (grafanaCheck_memory _ _ _ _ _ _)).
Qed.
End LastAdmin.

(** A deployment is not locked out.  Once there is a superadmin in service
    there is one after any sequence of calls served one after another by any
    processes, however operators are created, disabled, re-enabled or their
    passwords reset.  (The count and the update of [setOperatorDisabled] are
    two statements: the second part shows that two such calls that both count
    before either updates leave nobody.) *)
Theorem a_superadmin_remains {B} (NewLimiter NewLoginLimiter : B) bucket_allow hmac Marshal Unmarshal
    bcrypt_generate bcrypt_compare sha256 cfg t (st : ApiState B) t' st' :
  (has_admin (api_operators st) →
   rtc (api_step NewLimiter NewLoginLimiter bucket_allow hmac Marshal Unmarshal bcrypt_generate bcrypt_compare sha256 cfg)
     (t, st) (t', st') →
   has_admin (api_operators st')) ∧
  (∃ ops a b, (1 <? CountActiveAdmins ops) = true ∧ a ≠ b ∧
     ¬ has_admin (SetDisabled t b true (SetDisabled t a true ops).2).2).
Proof.
  split.
  - intros H Hr. remember (t, st) as x eqn:Ex. remember (t', st') as y eqn:Ey.
    revert t st Ex H. induction Hr as [x|x [t1 st1] y Hs Hr IH]; intros t st -> H; simplify_eq; [done|].
    apply (IH eq_refl t1 st1 eq_refl).
    inversion_clear Hs as [? ? op ? Ht|? ? op mem ? Ht]; [by apply run_keeps_admin|].
    apply (run_keeps_admin NewLimiter NewLoginLimiter bucket_allow hmac Marshal Unmarshal bcrypt_generate bcrypt_compare
             sha256 cfg t1 op (with_memory mem st) H).
  - exists (<["a" := mkOperator "a" "ann" "" "" RoleSuperAdmin 0 0 1 false None]>
             {["b" := mkOperator "b" "bob" "" "" RoleSuperAdmin 0 0 1 false None]}), "a", "b".
    split_and!; [done|done|]. intros (k & o & Hk & Ha).
    match type of Hk with ?m !! _ = _ =>
      assert (m = <["a" := mkOperator "a" "ann" "" "" RoleSuperAdmin 0 t 2 false (Some t)]>
                   {["b" := mkOperator "b" "bob" "" "" RoleSuperAdmin 0 t 2 false (Some t)]}) as E
        by (vm_compute; reflexivity); rewrite E in Hk end.
    by apply lookup_insert_Some in Hk as [[<- <-]|[_ [<- <-]%lookup_singleton_Some]].
Qed.

Lemma a_superadmin_remains_witness : has_admin (api_operators (api_run 0%nat 0%nat w_allow_api w_hmac w_marshal w_unmarshal
    (λ _ p, Ok p) String.eqb (λ s, s) w_cfg Second (CallSetDisabled None "op2" (Some true)) w_api)).
Proof.
  apply (proj1 (a_superadmin_remains 0%nat 0%nat w_allow_api w_hmac w_marshal w_unmarshal (λ _ p, Ok p) String.eqb
    (λ s, s) w_cfg 0 w_api Second _)).
  - exists "op2", w_root. by split.
  - apply rtc_once. by constructor.
Defined.

(** ** The permission matrix *)

Definition lookup2 (m : gmap string (gmap string bool)) (role perm : string) : option bool :=
  match m !! role with Some row => row !! perm | None => None end.

Lemma collect_row l out role : is_Some (out !! role) → is_Some (collect l out !! role).
Proof.
  revert out. induction l as [|[[r p] g] l IH]; intros out H; [done|]. apply IH. rewrite lookup_insert_is_Some.
  destruct (decide (r = role)); [by left|by right].
Qed.

Lemma collect_lookup l out role perm :
  NoDup (l.*1) →
  lookup2 (collect l out) role perm =
    match (list_to_map l : gmap (string * string) bool) !! (role, perm) with
    | Some g => Some g | None => lookup2 out role perm end.
Proof.
  revert out. induction l as [|[[r p] g] l IH]; intros out Hnd.
  { done. }
  rewrite fmap_cons in Hnd. apply NoDup_cons in Hnd as [Hn Hnd]. simpl in Hn.
  change (collect ((r, p, g) :: l) out) with (collect l (<[r := <[p := g]> (default ∅ (out !! r))]> out)).
  rewrite (IH _ Hnd), list_to_map_cons. destruct (decide ((r, p) = (role, perm))) as [E|Hne].
  - injection E as -> ->. rewrite lookup_insert_eq.
    rewrite not_elem_of_list_to_map_1 by done.
    unfold lookup2. by rewrite lookup_insert_eq, lookup_insert_eq.
  - rewrite lookup_insert_ne by done. destruct (list_to_map l !! (role, perm)); [done|].
    unfold lookup2. destruct (decide (r = role)) as [->|Hr].
    + rewrite lookup_insert_eq, lookup_insert_ne by congruence. by destruct (out !! role).
    + by rewrite lookup_insert_ne.
Qed.

Lemma fill_defaults_lookup m role perm row :
  m !! role = Some row →
  lookup2 (fill_defaults m) role perm =
    match row !! perm with Some g => Some g | None => lookup2 defaultPermissions role perm end.
Proof.
  intros Hr. unfold lookup2, fill_defaults. rewrite map_lookup_imap, Hr. simpl.
  destruct (defaultPermissions !! role) as [d|]; [|by destruct (row !! perm)].
  rewrite lookup_union. by destruct (row !! perm), (d !! perm).
Qed.

(** The matrix is what is enforced.  For every configurable role and every
    key, the matrix the superadmin is shown is the answer of the permission
    check; a change through the API shows and is enforced for exactly that role
    and key; and the check never refuses a superadmin. *)
Theorem permission_matrix_is_enforced (t : gmap (string * string) bool) role perm :
  (role ∈ [RoleManager; RoleNOC; RoleReadOnly] →
     default false (lookup2 (PermissionRepository_All t) role perm) = PermissionRepository_Has t role perm) ∧
  (∀ {B} (st st' : ApiState B) r p g, api_permissions st = t →
     setRolePermission (Some (r, p, g)) st = (NoBody 200, st') →
     PermissionRepository_Has (api_permissions st') role perm =
       (if bool_decide ((r, p) = (role, perm)) then g else PermissionRepository_Has t role perm)) ∧
  PermissionRepository_Has t RoleSuperAdmin perm = true.
Proof.
  split_and!; [| |done].
  - intros Hr.
    assert (String.eqb role RoleSuperAdmin = false) as Hns
      by (repeat (apply elem_of_cons in Hr as [->|Hr]; [done|]); by apply elem_of_nil in Hr).
    set (out := <[RoleManager := ∅]> (<[RoleNOC := ∅]> {[RoleReadOnly := ∅]}) : gmap string (gmap string bool)).
    assert (out !! role = Some ∅) as Ho
      by (repeat (apply elem_of_cons in Hr as [->|Hr]; [done|]); by apply elem_of_nil in Hr).
    destruct (collect_row (map_to_list t) out role) as [row Hrow]; [by rewrite Ho|].
    unfold PermissionRepository_All. rewrite (fill_defaults_lookup _ _ _ _ Hrow).
    pose proof (collect_lookup (map_to_list t) out role perm (NoDup_fst_map_to_list t)) as Hc.
    rewrite list_to_map_to_list in Hc. unfold lookup2 in Hc at 1. rewrite Hrow in Hc. rewrite Hc.
    unfold PermissionRepository_Has. rewrite Hns. unfold lookup2. rewrite Ho, lookup_empty.
    destruct (t !! (role, perm)); [done|]. by destruct (defaultPermissions !! role).
  - intros B st st' r p g <-. unfold setRolePermission. destruct (negb _ && negb _ && negb _) eqn:Er; [done|].
    destruct (negb (existsb _ AllPermissions)); [done|]. intros [= <-]. simpl. unfold PermissionRepository_Set, PermissionRepository_Has.
    assert (r ≠ RoleSuperAdmin) as Hrs by (intros ->; done).
    case_bool_decide as E.
    + injection E as -> ->. destruct (String.eqb_spec role RoleSuperAdmin); [done|]. by rewrite lookup_insert_eq.
    + by rewrite lookup_insert_ne.
Qed.

Lemma permission_matrix_is_enforced_witness :
  default false (lookup2 (PermissionRepository_All {[(RoleNOC, PermGroupManage) := true]}) RoleNOC PermGroupManage)
  = PermissionRepository_Has {[(RoleNOC, PermGroupManage) := true]} RoleNOC PermGroupManage ∧
  PermissionRepository_Has {[(RoleNOC, PermGroupManage) := true]} RoleNOC PermGroupManage = true.
Proof.
  split; [|by vm_compute].
  refine (proj1 (permission_matrix_is_enforced {[(RoleNOC, PermGroupManage) := true]} RoleNOC PermGroupManage) _).
  apply list_elem_of_further, list_elem_of_here.
Defined.

(** ** The Grafana gate *)

Section Grafana.
Context {B : Type} (hmac : string → string → string) (Marshal : json → string) (Unmarshal : string → option json).
Context (sha256 : string → string) (cfg : ApiConfig).
Implicit Types st : ApiState B.

Lemma with_line_break_nonempty t : String.eqb (with_line_break t) "" = false.
Proof. unfold with_line_break. by destruct t. Qed.

(** A cached version is used again at the same instant. *)
Lemma tokenCurrent_again now c st :
  (tokenCurrent now c st).1 = true → tokenCurrent now c (tokenCurrent now c st).2 = (true, (tokenCurrent now c st).2).
Proof.
  unfold tokenCurrent. destruct (String.eqb (cl_Subject c) serviceSubject) eqn:Es; [done|].
  unfold lookup_version.
  destruct (api_versionCache st !! cl_Subject c) as [e|] eqn:Ee; [destruct (ve_expires e <? now) eqn:Ex|];
    destruct (TokenVersion (api_operators st) (cl_Subject c)) as [v|] eqn:Ev; simpl; intros H;
    rewrite ?Es, ?Ee, ?Ex, ?H; simpl; rewrite ?lookup_insert_eq; simpl;
    unfold tokenVersionCacheTTL; try (replace (now + 15 * Second <? now) with false
      by (symmetry; apply Z.ltb_ge; unfold Second; lia)); rewrite ?H; done.
Qed.

Lemma tokenCurrent_spent now c x st :
  tokenCurrent now c (set_spent x st) = ((tokenCurrent now c st).1, set_spent x (tokenCurrent now c st).2).
Proof.
  unfold tokenCurrent. destruct (String.eqb (cl_Subject c) serviceSubject); [done|].
  unfold lookup_version. cbn [set_spent api_versionCache api_operators].
  destruct (api_versionCache st !! cl_Subject c) as [e|]; [destruct (ve_expires e <? now)|];
    by destruct (TokenVersion (api_operators st) (cl_Subject c)).
Qed.

Lemma grafanaClaims_ok now token aud st c st1 :
  grafanaClaims hmac Unmarshal cfg now token aud st = (Some c, st1) →
  token ≠ "" ∧ auth_disabled cfg = false ∧ VerifyJWT hmac Unmarshal now (cf_jwtSecret cfg) token = Ok c ∧
  cl_Audience c = aud ∧ tokenCurrent now c st = (true, st1) ∧ grafanaAllowed c st1 = Ok true.
Proof.
  unfold grafanaClaims. destruct (String.eqb_spec token ""); [done|]. simpl.
  destruct (auth_disabled cfg); [done|]. destruct (VerifyJWT _ _ _ _ _) as [c'|]; [|done].
  destruct (String.eqb_spec (cl_Audience c') aud); [|done]. simpl.
  destruct (tokenCurrent now c' st) as [[] st'] eqn:Et; [|done]. simpl.
  destruct (grafanaAllowed c' st') as [[]|] eqn:Ea; try done. intros [= <- <-]. done.
Qed.

Lemma grafanaEnter_ok now ticket st s e st2 :
  grafanaEnter hmac Marshal Unmarshal cfg sha256 now ticket st = (TokenReply s e, st2) →
  cf_grafanaGate cfg = true ∧ ∃ c st1, grafanaClaims hmac Unmarshal cfg now ticket AudienceGrafanaTicket st = (Some c, st1) ∧
    api_spent st1 = api_spent st ∧
    filter (λ kv, now <= kv.2) (api_spent st1) !! sha256 ticket = None ∧
    st2 = set_spent (<[sha256 ticket := cl_ExpiresAt c]> (filter (λ kv, now <= kv.2) (api_spent st1))) st1 ∧
    now <= cl_ExpiresAt c.
Proof.
  unfold grafanaEnter. destruct (cf_grafanaGate cfg); [|done]. simpl.
  destruct (grafanaClaims hmac Unmarshal cfg now ticket AudienceGrafanaTicket st) as [[c|] st1] eqn:Eg; [|done].
  unfold spendGrafanaTicket. destruct (_ !! sha256 ticket) eqn:Es; [done|]. intros [= _ _ <-]. split; [done|].
  exists c, st1. split; [done|]. apply grafanaClaims_ok in Eg as (_ & _ & Hv & _ & Ht & _). split_and!; try done.
  - unfold tokenCurrent, lookup_version in Ht. repeat break_match_hyp Ht; simplify_eq; done.
  - apply VerifyJWT_signed in Hv as (h & p & sg & _ & _ & _ & ?). done.
Qed.
End Grafana.

(** A Grafana ticket opens once, and its variants again.  A ticket that has
    opened Grafana is refused by the same process while it is valid, whatever
    it is asked in between about other tickets.  But the text of the ticket is
    what is remembered and the verifier skips line breaks: the same ticket with
    a line break appended opens Grafana again at once, unless SHA-256 collides
    or it was spent too. *)
Theorem grafana_ticket_opens_once_per_text {B} hmac Marshal Unmarshal sha256 cfg now ticket (st : ApiState B) s e st1 :
  grafanaEnter hmac Marshal Unmarshal cfg sha256 now ticket st = (TokenReply s e, st1) →
  (∀ now' s' e' st', grafanaEnter hmac Marshal Unmarshal cfg sha256 now' ticket st1 ≠ (TokenReply s' e', st')) ∧
  (sha256 (with_line_break ticket) ≠ sha256 ticket →
   filter (λ kv, now <= kv.2) (api_spent st) !! sha256 (with_line_break ticket) = None →
   ∃ s' e' st', grafanaEnter hmac Marshal Unmarshal cfg sha256 now (with_line_break ticket) st1 = (TokenReply s' e', st')).
Proof.
  intros (Hgate & c & st' & Hg & Hsp & Hnone & -> & Hexp)%grafanaEnter_ok.
  pose proof (grafanaClaims_ok _ _ _ _ _ _ _ _ _ Hg) as (Hne & Ha & Hv & Haud & Ht & Hal).
  split.
  - intros now' s' e' st2 (_ & c2 & st3 & Hg2 & Hsp2 & Hnone2 & _ & Hexp2)%grafanaEnter_ok.
    apply grafanaClaims_ok in Hg2 as (_ & _ & Hv2 & _). 
    assert (c2 = c) as ->.
    { apply VerifyJWT_signed in Hv as (h & p & sg & E1 & _ & D1 & _).
      apply VerifyJWT_signed in Hv2 as (h2 & p2 & sg2 & E2 & _ & D2 & _). congruence. }
    rewrite Hsp2 in Hnone2. cbn [api_spent set_spent] in Hnone2.
    rewrite map_lookup_filter, lookup_insert_eq in Hnone2. simpl in Hnone2.
    rewrite option_guard_True in Hnone2 by done. done.
  - intros Hcol Hfree. unfold grafanaEnter, grafanaClaims. rewrite Hgate. simpl.
    rewrite with_line_break_nonempty, Ha. simpl. rewrite VerifyJWT_line_break, Hv. rewrite Haud, String.eqb_refl. simpl.
    set (st2 := set_spent _ st').
    assert (tokenCurrent now c st2 = (true, st2)) as ->.
    { pose proof (tokenCurrent_again now c st) as Hag. rewrite Ht in Hag. cbn [fst snd] in Hag. unfold st2.
      by rewrite tokenCurrent_spent, (Hag eq_refl). }
    simpl. assert (grafanaAllowed c st2 = Ok true) as -> by exact Hal.
    assert (filter (λ kv, now <= kv.2) (api_spent st2) !! sha256 (with_line_break ticket) = None) as El.
    { subst st2. cbn [set_spent api_spent]. rewrite Hsp, map_lookup_filter, lookup_insert_ne by done. by rewrite Hfree. }
    unfold spendGrafanaTicket. rewrite El. eauto.
Qed.

Definition w_ticket_claims : Claims := sessionClaims "root" RoleSuperAdmin AudienceGrafanaTicket 0 grafanaTicketTTL 1.
Definition w_ticket : string := SignJWT w_hmac w_marshal "secret" w_ticket_claims.
Definition w_unmarshal_ticket (s : string) : option json := Some (encode_claims w_ticket_claims).

Lemma grafana_ticket_opens_once_per_text_witness :
  ∃ s e st1, grafanaEnter w_hmac w_marshal w_unmarshal_ticket w_cfg (λ s, s) Second w_ticket w_api = (TokenReply s e, st1) ∧
    ∃ s' e' st2, grafanaEnter w_hmac w_marshal w_unmarshal_ticket w_cfg (λ s, s) Second (with_line_break w_ticket) st1
                 = (TokenReply s' e', st2).
Proof.
  eexists _, _, _. split; [vm_compute; reflexivity|].
  match goal with |- ∃ s' e' st2, grafanaEnter _ _ _ _ _ _ _ ?st = _ =>
    refine (proj2 (grafana_ticket_opens_once_per_text w_hmac w_marshal w_unmarshal_ticket (λ s, s) w_cfg Second w_ticket
                     w_api _ _ st _) _ _) end.
  - vm_compute. reflexivity.
  - vm_compute. discriminate.
  - vm_compute. reflexivity.
Defined.
