(* ===== verification/ControlPlane.v ===== *)
(** * Device groups, and who may manage groups, templates and policies

    [internal/devices/groups.go] and the handlers of [cmd/api] that manage device
    groups ([group_handlers.go]), configuration templates ([template_handlers.go])
    and policies ([policy_handlers.go]).  Every such object has an owning customer
    or belongs to the platform.  [scope] is [deviceScope] of the request,
    [customers] the customers table, [body] the decoded request ([None] for
    invalid JSON). *)

From S2P Require Import Prelude GoStrings Json Protected JobModel JobStore Devices Policies ParamCache Gateway.
From S2P Require Import ApiWrites Operators Jwt Api.

Inductive Reply (A : Type) : Type :=
| Refused (status : Z) (msg : string)
| Replied (status : Z) (body : A).
Arguments Refused {A} _ _.
Arguments Replied {A} _ _.

Abbreviation Scope_ := (result (list string * bool)) (only parsing).

(** ** Scopes *)

(** The rule of [scopedGroup], [scopedTemplate], [scopedPolicy] and
    [scopedScheduledJob]: not found, also when it belongs to someone else. *)
Definition scoped {A O : Type} (scope : Scope_) (owner : O → option string) (row : option O) : Reply A + O :=
  match row with
  | None => inl (Refused 404 "not found")
  | Some o =>
      match scope with
      | Err _ => inl (Refused 500 "internal error")
      | Ok (ids, confined) => if confined && negb (deviceInScope (owner o) ids) then inl (Refused 404 "not found") else inr o
      end
  end.

(** [getScopedDevice] *)
Definition scoped_device {A} (scope : Scope_) (devices : Devices) (id : string) : Reply A + Device :=
  scoped scope (λ d, d_CustomerID (d_ownership d)) (devices !! id).

(** A confined operator must name a customer of the scope as owner. *)
Definition owner_refused {A} (scope : Scope_) (customer : option string) : option (Reply A) :=
  match scope with
  | Err _ => Some (Refused 500 "internal error")
  | Ok (ids, confined) =>
      if confined && negb (deviceInScope customer ids)
      then Some (Refused 400 "customer_id is required and must be within your assigned scope") else None
  end.

(** The foreign key on customers. *)
Definition customer_exists (customers : gset string) (c : option string) : bool :=
  match c with None => true | Some c => bool_decide (c ∈ customers) end.

(** ** Groups *)

Record DeviceGroup : Type := mkDeviceGroup {
  gr_ID : string;
  gr_Name : string;
  gr_Description : string;
  gr_CustomerID : option string;
  gr_CreatedAt : GoTime
}.

Definition ErrGroupNotFound : string := "device group not found".
Definition ErrGroupNameUsed : string := "a device group with that name already exists".

(** The tables of groups and of members (group, device). *)
Record Groups : Type := mkGroups { gs_groups : gmap string DeviceGroup; gs_members : gset (string * string) }.

Definition CreateGroup (uuid : string) (now : GoTime) (name description : string) (customer : option string)
    (customers : gset string) (t : Groups) : result DeviceGroup * Groups :=
  let g := mkDeviceGroup uuid name description customer now in
  if existsb (λ r, String.eqb (gr_Name r) name) (rows (gs_groups t)) then (Err ErrGroupNameUsed, t)
  else if is_some (gs_groups t !! uuid) || negb (customer_exists customers customer) then (Err "create device group", t)
  else (Ok g, mkGroups (<[uuid := g]> (gs_groups t)) (gs_members t)).

(** Membership rows go with the group. *)
Definition DeleteGroup (id : string) (t : Groups) : result unit * Groups :=
  if is_some (gs_groups t !! id)
  then (Ok tt, mkGroups (delete id (gs_groups t)) (filter (λ m, m.1 ≠ id) (gs_members t)))
  else (Err ErrGroupNotFound, t).

(** One transaction: a missing device or group rolls all of it back. *)
Definition AddMembers (groupID : string) (deviceIDs : list string) (devices : Devices) (t : Groups) : result unit * Groups :=
  if bool_decide (deviceIDs = []) then (Ok tt, t)
  else if is_some (gs_groups t !! groupID) && forallb (λ d, is_some (devices !! d)) deviceIDs
  then (Ok tt, mkGroups (gs_groups t) (gs_members t ∪ list_to_set ((λ d, (groupID, d)) <$> deviceIDs)))
  else (Err "add member", t).

Definition RemoveMember (groupID deviceID : string) (t : Groups) : Groups :=
  mkGroups (gs_groups t) (gs_members t ∖ {[(groupID, deviceID)]}).

(** In the order the rows come in. *)
Definition MemberDeviceIDs (order : list string → list string) (groupID : string) (t : Groups) : list string :=
  order (snd <$> elements (filter (λ m, m.1 = groupID) (gs_members t))).

(** *** Handlers *)

Definition scopedGroup {A} (scope : Scope_) (t : Groups) (id : string) : Reply A + DeviceGroup :=
  scoped scope gr_CustomerID (gs_groups t !! id).

Record createDeviceGroupRequest : Type := mkCreateGroup { cg_Name : string; cg_Description : string; cg_CustomerID : option string }.

Definition createDeviceGroup (scope : Scope_) (uuid : string) (now : GoTime) (customers : gset string)
    (body : option createDeviceGroupRequest) (t : Groups) : Reply DeviceGroup * Groups :=
  match body with
  | None => (Refused 400 "invalid JSON body", t)
  | Some req =>
      if String.eqb (cg_Name req) "" then (Refused 400 "name is required", t)
      else match owner_refused scope (cg_CustomerID req) with
           | Some r => (r, t)
           | None =>
               match CreateGroup uuid now (cg_Name req) (cg_Description req) (cg_CustomerID req) customers t with
               | (Ok g, t') => (Replied 201 g, t')
               | (Err e, t') => (if String.eqb e ErrGroupNameUsed then Refused 409 e else Refused 500 "internal error", t')
               end
           end
  end.

Definition deleteDeviceGroup (scope : Scope_) (id : string) (t : Groups) : Reply unit * Groups :=
  match scopedGroup scope t id with
  | inl r => (r, t)
  | inr _ => match DeleteGroup id t with
             | (Ok _, t') => (Replied 204 tt, t')
             | (Err _, t') => (Refused 404 "not found", t')
             end
  end.

(** The check of every device named; the first that fails ends the request. *)
Fixpoint addable {A} (scope : Scope_) (group : DeviceGroup) (devices : Devices) (ids : list string) : option (Reply A) :=
  match ids with
  | [] => None
  | id :: rest =>
      match scoped_device scope devices id with
      | inl r => Some r
      | inr d =>
          if negb (sameCustomer (d_CustomerID (d_ownership d)) (gr_CustomerID group))
          then Some (Refused 400 ("device " ++ id ++ " does not belong to this group's customer")%string)
          else addable scope group devices rest
      end
  end.

Definition addDeviceGroupMembers (scope : Scope_) (id : string) (devices : Devices) (body : option (list string)) (t : Groups)
  : Reply DeviceGroup * Groups :=
  match scopedGroup scope t id with
  | inl r => (r, t)
  | inr group =>
      match body with
      | None => (Refused 400 "invalid JSON body", t)
      | Some [] => (Refused 400 "device_ids must not be empty", t)
      | Some ids =>
          match addable scope group devices ids with
          | Some r => (r, t)
          | None => match AddMembers id ids devices t with
                    | (Ok _, t') => (Replied 200 group, t')
                    | (Err _, t') => (Refused 500 "internal error", t')
                    end
          end
      end
  end.

Definition removeDeviceGroupMember (scope : Scope_) (groupID deviceID : string) (t : Groups) : Reply unit * Groups :=
  match scopedGroup scope t groupID with
  | inl r => (r, t)
  | inr _ => (Replied 204 tt, RemoveMember groupID deviceID t)
  end.

(** [listDeviceGroups]; [order] puts the rows in the order of the statement. *)
Definition listDeviceGroups (scope : Scope_) (order : list DeviceGroup → list DeviceGroup) (t : Groups) : Reply (list DeviceGroup) :=
  match scope with
  | Err _ => Refused 500 "internal error"
  | Ok (ids, confined) =>
      Replied 200 (List.filter (λ g, negb (confined && negb (deviceInScope (gr_CustomerID g) ids))) (order (rows (gs_groups t))))
  end.

(** Tags of one device. *)
Definition updateDeviceTags (scope : Scope_) (now : GoTime) (id : string) (body : option (list string)) (devices : Devices)
  : Reply (list string) * Devices :=
  match scoped_device scope devices id with
  | inl r => (r, devices)
  | inr _ =>
      match body with
      | None => (Refused 400 "invalid JSON body", devices)
      | Some tags => (Replied 200 tags, UpdateTags now id tags devices)
      end
  end.

(** ** Templates *)

Definition scopedTemplate {A} (scope : Scope_) (t : TemplateTable) (id : string) : Reply A + Template :=
  scoped scope te_CustomerID (t !! id).

Record createTemplateRequest : Type := mkCreateTemplate {
  ct_Name : string;
  ct_Description : string;
  ct_Parameters : list ParameterWrite;
  ct_ModelFilter : option string;
  ct_AutoApply : bool;
  ct_CustomerID : option string
}.

Definition createTemplate (scope : Scope_) (uuid operator : string) (now : GoTime) (customers : gset string)
    (body : option createTemplateRequest) (t : TemplateTable) : Reply Template * TemplateTable :=
  match body with
  | None => (Refused 400 "invalid JSON body", t)
  | Some req =>
      if String.eqb (ct_Name req) "" || bool_decide (ct_Parameters req = [])
      then (Refused 400 "name and at least one parameter are required", t)
      else match refuseProtectedWrite (pw_Name <$> ct_Parameters req) with
           | Some e => (Refused 403 e, t)
           | None =>
               if ct_AutoApply req && String.eqb (default "" (ct_ModelFilter req)) ""
               then (Refused 400 "auto_apply requires a non-empty model_filter", t)
               else match owner_refused scope (ct_CustomerID req) with
                    | Some r => (r, t)
                    | None =>
                        if negb (customer_exists customers (ct_CustomerID req)) then (Refused 500 "internal error (name must be unique)", t)
                        else match CreateTemplate uuid now (ct_Name req) (ct_Description req) (ct_Parameters req)
                                     (ct_ModelFilter req) (ct_AutoApply req) (ct_CustomerID req) operator t with
                             | (Ok row, t') => (Replied 201 row, t')
                             | (Err _, t') => (Refused 500 "internal error (name must be unique)", t')
                             end
                    end
           end
  end.

Definition deleteTemplate (scope : Scope_) (id : string) (t : TemplateTable) : Reply unit * TemplateTable :=
  match scopedTemplate scope t id with
  | inl r => (r, t)
  | inr _ => match DeleteTemplate id t with
             | (Ok _, t') => (Replied 204 tt, t')
             | (Err _, t') => (Refused 404 "not found", t')
             end
  end.

(** ** Policies *)

Definition scopedPolicy {A} (scope : Scope_) (t : PolicyTable) (id : string) : Reply A + PolicyRow :=
  scoped scope po_CustomerID (t !! id).

Record createPolicyRequest : Type := mkCreatePolicy {
  cp_Name : string;
  cp_ModelFilter : option string;
  cp_ParameterName : string;
  cp_DesiredValue : string;
  cp_CustomerID : option string
}.

Definition createPolicy (scope : Scope_) (uuid operator : string) (now : GoTime) (customers : gset string)
    (body : option createPolicyRequest) (t : PolicyTable) : Reply PolicyRow * PolicyTable :=
  match body with
  | None => (Refused 400 "invalid JSON body", t)
  | Some req =>
      if String.eqb (cp_Name req) "" || String.eqb (cp_ParameterName req) "" || String.eqb (cp_DesiredValue req) ""
      then (Refused 400 "name, parameter_name, and desired_value are required", t)
      else match refuseProtectedWrite [cp_ParameterName req] with
           | Some e => (Refused 403 e, t)
           | None =>
               match owner_refused scope (cp_CustomerID req) with
               | Some r => (r, t)
               | None =>
                   if negb (customer_exists customers (cp_CustomerID req)) then (Refused 500 "internal error", t)
                   else match CreatePolicy uuid now (cp_Name req) (cp_ModelFilter req) (cp_ParameterName req)
                                (cp_DesiredValue req) (cp_CustomerID req) operator t with
                        | (Ok row, t') => (Replied 201 row, t')
                        | (Err _, t') => (Refused 500 "internal error", t')
                        end
               end
           end
  end.

Definition deletePolicy (scope : Scope_) (id : string) (t : PolicyTable) : Reply unit * PolicyTable :=
  match scopedPolicy scope t id with
  | inl r => (r, t)
  | inr _ => match DeletePolicy id t with
             | (Ok _, t') => (Replied 204 tt, t')
             | (Err _, t') => (Refused 404 "not found", t')
             end
  end.

Definition setPolicyEnabled (scope : Scope_) (now : GoTime) (id : string) (enabled : bool) (t : PolicyTable)
  : Reply PolicyRow * PolicyTable :=
  match scopedPolicy scope t id with
  | inl r => (r, t)
  | inr _ => match SetEnabled now id enabled t with
             | (Ok row, t') => (Replied 200 row, t')
             | (Err _, t') => (Refused 404 "not found", t')
             end
  end.

(** ** Laws *)

(** [scoped_device] is what [getScopedDevice] answers for the request. *)
Lemma scoped_device_is_getScopedDevice {B} (cfg : ApiConfig) (claims : option Claims) (st : ApiState B) devices id :
  scoped_device (deviceScope cfg claims st) devices id
  = match getScopedDevice cfg claims devices id st with
    | inr d => inr d
    | inl (HTTPError c m) => @inl (Reply unit) Device (Refused c m)
    | inl _ => inl (Refused 0 "")
    end.
Proof.
  unfold scoped_device, scoped, getScopedDevice. destruct (devices !! id) as [d|]; [|done].
  destruct (deviceScope cfg claims st) as [[ids []]|e]; [|done..]. simpl. by destruct (deviceInScope _ _).
Qed.

(** What a scoped handler goes on with is an existing row of a customer in scope. *)
Definition within_scope (scope : Scope_) (owner : option string) : Prop :=
  ∃ ids confined, scope = Ok (ids, confined) ∧ (confined = true → deviceInScope owner ids = true).

Lemma scoped_ok {A O} (scope : Scope_) (owner : O → option string) row o :
  scoped (A := A) scope owner row = inr o → row = Some o ∧ within_scope scope (owner o).
Proof.
  unfold scoped, within_scope. destruct row as [o'|]; [|done]. destruct scope as [[ids confined]|]; [|done].
  destruct (confined && negb (deviceInScope (owner o') ids)) eqn:E; [done|]. intros [= ->]. split; [done|].
  exists ids, confined. split; [done|]. intros ->. simpl in E. by apply negb_false_iff in E.
Qed.

Lemma owner_allowed {A} scope customer : owner_refused (A := A) scope customer = None → within_scope scope customer.
Proof.
  unfold owner_refused, within_scope. destruct scope as [[ids confined]|]; [|done].
  destruct (confined && negb (deviceInScope customer ids)) eqn:E; [done|]. intros _.
  exists ids, confined. split; [done|]. intros ->. simpl in E. by apply negb_false_iff in E.
Qed.
