(* ===== verification/Transfer.v ===== *)
(** * Transfer tokens

    [internal/transfer]: the expiring, purpose-bound tokens on the URLs a CPE
    fetches firmware from and puts files to, and the firmware catalog
    ([internal/firmware], [cmd/api/firmware_handlers.go]) that uses them. HMAC
    is an argument. *)

From S2P Require Import Prelude GoStrings Encoding Json JobModel JobStore Devices Jwt.

Definition ErrInvalid : string := "transfer token invalid".
Definition ErrExpired : string := "transfer token expired".
Definition nul : ascii := "000".

(** What is signed: purpose, resource and expiry, separated by NUL bytes. *)
Definition token_input (purpose id : string) (exp : Z) : string :=
  (purpose ++ String nul (id ++ String nul (Itoa exp)))%string.

Section Transfer.
Context (hmac : string → string → string).

Definition DeriveKey (parent : string) : string := hmac parent "acs-transfer-url-v1".

Definition digest (key purpose id : string) (exp : Z) : string := hmac key (token_input purpose id exp).

Definition Sign (key purpose id : string) (expires : GoTime) : string :=
  let exp := Unix expires in
  (Itoa exp ++ String dot (EncodeToString (digest key purpose id exp)))%string.

Definition Verify (key purpose id token : string) (now : GoTime) : result unit :=
  match Cut token dot with
  | None => Err ErrInvalid
  | Some (expStr, macHex) =>
      match Atoi expStr with
      | None => Err ErrInvalid
      | Some exp =>
          match DecodeString macHex with
          | None => Err ErrInvalid
          | Some got =>
              if negb (String.eqb got (digest key purpose id exp)) then Err ErrInvalid
              else if exp <? Unix now then Err ErrExpired else Ok tt
          end
      end
  end.

(** ** Firmware *)

Record Image : Type := mkImage {
  img_ID : string;
  img_Vendor : string;
  img_Model : string;
  img_Version : string;
  img_Channel : string;
  img_Filename : string;
  img_FileSizeBytes : Z;
  img_SHA256 : string;
  img_CreatedAt : GoTime
}.

Definition firmwareTokenTTL : GoDuration := 24 * Hour.
Definition uploadTokenTTL : GoDuration := 4 * Hour.

(** [transferKey] is empty when signing is off. *)
Definition signedFirmwareURL (firmwareBase transferKey imageID : string) (now : GoTime) : string :=
  let url := (firmwareBase ++ "/api/v1/firmware/images/" ++ imageID ++ "/file")%string in
  if String.eqb transferKey "" then url
  else (url ++ "?token=" ++ Sign transferKey "firmware" imageID (now + firmwareTokenTTL))%string.

(** The image served, or the status of the refusal. *)
Definition serveFirmwareFile (transferKey id token : string) (now : GoTime) (images : gmap string Image)
  : Z + Image :=
  if negb (String.eqb transferKey "") && negb (is_ok (Verify transferKey "firmware" id token now)) then inl 403
  else match images !! id with
       | None => inl 404
       | Some img => inr img
       end.

Definition firmwareProfileAllowsDownload (d : Device) : bool :=
  match pr_ID (d_profile d) with None => true | Some _ => pr_Qualified (d_profile d) end.

Definition ErrFirmwareProfileUnqualified : string := "device firmware profile is not qualified".

(** The JSON of [jobs.FirmwareDownloadPayload]. *)
Definition encode_FirmwareDownload (p : FirmwareDownloadPayload) : json :=
  JObj ([("firmware_image_id", JStr (fd_FirmwareImageID p)); ("file_type", JStr (fd_FileType p));
         ("url", JStr (fd_URL p))]
        ++ omit_string "username" (fd_Username p) ++ omit_string "password" (fd_Password p)
        ++ [("file_size", JNum (fd_FileSize p)); ("target_filename", JStr (fd_TargetFilename p));
            ("delay_seconds", JNum (fd_DelaySeconds p))]
        ++ omit_string "usp_instance" (fd_USPInstance p)).

Definition queueFirmwareDownload (firmwareBase transferKey : string) (images : gmap string Image)
    (devices : gmap string Device) (fr : Fresh) (now : GoTime) (deviceID firmwareImageID : string)
    (delaySeconds : Z) (operator : string) (tab : gmap string Job) : result Job * gmap string Job :=
  match devices !! deviceID with
  | None => (Err "sql: no rows in result set", tab)
  | Some d =>
      if negb (firmwareProfileAllowsDownload d) then (Err ErrFirmwareProfileUnqualified, tab)
      else match images !! firmwareImageID with
      | None => (Err "sql: no rows in result set", tab)
      | Some img =>
          Create false fr now deviceID TypeFirmwareDownload
            (encode_FirmwareDownload (mkFirmwareDownloadPayload (img_ID img) "1 Firmware Upgrade Image"
               (signedFirmwareURL firmwareBase transferKey (img_ID img) now) "" "" (img_FileSizeBytes img)
               (img_Filename img) delaySeconds ""))
            operator tab
      end
  end.
End Transfer.

(** ** Theorems *)

Lemma Cut_token a m : byte_in dot a = false → Cut (a ++ String dot m) dot = Some (a, m).
Proof. apply Cut_app. Qed.

Lemma Itoa_no_dot z : byte_in dot (Itoa z) = false.
Proof. by apply Itoa_bytes. Qed.
Lemma Itoa_no_nul z : byte_in nul (Itoa z) = false.
Proof. by apply Itoa_bytes. Qed.

(** Splitting at the first and at the last NUL. *)
Lemma cut_first (a a' b b' : string) :
  byte_in nul a = false → byte_in nul a' = false → (a ++ String nul b)%string = (a' ++ String nul b')%string → a = a' ∧ b = b'.
Proof.
  intros Ha Ha' H. pose proof (Cut_app a b nul Ha) as E. rewrite H, (Cut_app a' b' nul Ha') in E. by injection E as -> ->.
Qed.

Lemma cut_last (a a' b b' : string) :
  byte_in nul b = false → byte_in nul b' = false → (a ++ String nul b)%string = (a' ++ String nul b')%string → a = a' ∧ b = b'.
Proof.
  intros Hb Hb'.
  assert (∀ x y z, byte_in nul (x ++ String y z) = false → y ≠ nul) as Hin.
  { intros x y z. induction x as [|d x IH].
    - change (Ascii.eqb nul y || byte_in nul z = false → y ≠ nul). intros [Hy _]%orb_false_iff ->.
      by rewrite Ascii.eqb_refl in Hy.
    - rewrite string_app_cons. cbn [byte_in]. intros [_ H]%orb_false_iff. auto. }
  revert a'. induction a as [|c a IH]; intros [|c' a'].
  - intros [= H]. done.
  - change ((String nul b)%string = String c' (a' ++ String nul b') → "" = String c' a' ∧ b = b').
    intros [= <- Hx]. rewrite Hx in Hb. by apply Hin in Hb.
  - change (String c (a ++ String nul b) = String nul b' → String c a = "" ∧ b = b').
    intros [= -> Hx]. rewrite <- Hx in Hb'. by apply Hin in Hb'.
  - rewrite !string_app_cons. intros [= -> Hx]. destruct (IH _ Hx) as [-> ->]. done.
Qed.

(** Two resources never have the same text to sign. *)
Lemma token_input_inj p id e p' id' e' :
  byte_in nul p = false → byte_in nul p' = false → token_input p id e = token_input p' id' e' →
  p = p' ∧ id = id' ∧ Itoa e = Itoa e'.
Proof.
  unfold token_input. intros Hp Hp' H. apply cut_first in H as [-> H]; [|done..].
  apply cut_last in H as [-> H]; auto using Itoa_no_nul.
Qed.

Lemma Verify_Sign hmac key purpose id expires key' purpose' id' now :
  in_int64 (Unix expires) = true →
  Verify hmac key' purpose' id' (Sign hmac key purpose id expires) now =
    if String.eqb (digest hmac key purpose id (Unix expires)) (digest hmac key' purpose' id' (Unix expires))
    then (if Unix expires <? Unix now then Err ErrExpired else Ok tt) else Err ErrInvalid.
Proof.
  intros He. unfold Verify, Sign. rewrite (Cut_token _ _ (Itoa_no_dot _)), (Atoi_Itoa _ He), DecodeString_EncodeToString.
  by destruct (String.eqb _ _).
Qed.

(** A transfer token opens one resource until it expires.  A token signed
    for a purpose and a resource verifies for them until its second, and is
    reported expired after it.  It verifies for another purpose or resource
    only if HMAC collides on two different texts, whatever bytes the resource
    name holds; so a download token opens no upload slot and the token of one
    image no other image, and an image is served to nobody else. *)
Theorem transfer_token_is_bound hmac key purpose id expires now :
  in_int64 (Unix expires) = true → byte_in nul purpose = false →
  (Verify hmac key purpose id (Sign hmac key purpose id expires) now =
     if Unix expires <? Unix now then Err ErrExpired else Ok tt) ∧
  (∀ purpose' id', byte_in nul purpose' = false →
     (∀ x, hmac key x = hmac key (token_input purpose id (Unix expires)) → x = token_input purpose id (Unix expires)) →
     is_ok (Verify hmac key purpose' id' (Sign hmac key purpose id expires) now) = true → purpose' = purpose ∧ id' = id) ∧
  (∀ image img images, key ≠ "" →
     (∀ x, hmac key x = hmac key (token_input purpose id (Unix expires)) → x = token_input purpose id (Unix expires)) →
     serveFirmwareFile hmac key image (Sign hmac key purpose id expires) now images = inr img →
     purpose = "firmware" ∧ image = id ∧ images !! image = Some img ∧ Unix now <= Unix expires).
Proof.
  intros He Hp.
  assert (∀ purpose' id', byte_in nul purpose' = false →
     (∀ x, hmac key x = hmac key (token_input purpose id (Unix expires)) → x = token_input purpose id (Unix expires)) →
     is_ok (Verify hmac key purpose' id' (Sign hmac key purpose id expires) now) = true →
     purpose' = purpose ∧ id' = id ∧ Unix now <= Unix expires) as Hb.
  { intros purpose' id' Hp' Hinj. rewrite Verify_Sign by done.
    destruct (String.eqb_spec (digest hmac key purpose id (Unix expires)) (digest hmac key purpose' id' (Unix expires)))
      as [E|]; [|done].
    unfold digest in E. apply eq_sym, Hinj, token_input_inj in E as (-> & -> & _); [|done..].
    destruct (Z.ltb_spec (Unix expires) (Unix now)); [done|]. auto with lia. }
  split_and!.
  - by rewrite Verify_Sign, String.eqb_refl.
  - intros purpose' id' Hp' Hinj Hv. by destruct (Hb purpose' id' Hp' Hinj Hv) as (-> & -> & _).
  - intros image img images Hk Hinj. unfold serveFirmwareFile.
    destruct (String.eqb_spec key ""); [done|]. simpl.
    destruct (is_ok (Verify hmac key "firmware" image (Sign hmac key purpose id expires) now)) eqn:Ev; [|done]. simpl.
    destruct (Hb "firmware" image eq_refl Hinj Ev) as (<- & -> & Hx). destruct (images !! id) eqn:Ei; [|done]. intros [= <-]. done.
Qed.

Definition w_mac (key msg : string) : string := (key ++ msg)%string.

Lemma transfer_token_is_bound_witness :
  Verify w_mac "k" "firmware" "img1" (Sign w_mac "k" "firmware" "img1" Hour) 0 = Ok tt ∧
  is_ok (Verify w_mac "k" "upload" "img1" (Sign w_mac "k" "firmware" "img1" Hour) 0) = false.
Proof.
  destruct (transfer_token_is_bound w_mac "k" "firmware" "img1" Hour 0 eq_refl eq_refl) as (H1 & H2 & _).
  split; [exact H1|].
  destruct (is_ok (Verify w_mac "k" "upload" "img1" (Sign w_mac "k" "firmware" "img1" Hour) 0)) eqn:E; [|done].
  destruct (H2 "upload" "img1" eq_refl) as [Hx _]; [|exact E|discriminate Hx].
  intros x H. injection H as H. exact H.
Defined.
