(* ===== verification/ApiJobs.v ===== *)
(** * The handlers that queue jobs

    Eighteen endpoints of [cmd/api] that turn an operator's request into a job:
    [device_handlers.go] (writes and fleet actions), [object_handlers.go],
    [rpc_extra_handlers.go], [diagnostics_handlers.go], [discovery_handlers.go],
    [wifi_edit.go], [wifi_bulk.go] and the application of a template
    ([template_handlers.go]).  The endpoints that queue jobs and are not here are
    named at [JobRequest] of [ApiJobsTheorems].  Each checks the device against the
    caller's scope, then the request, then queues; nothing is sent to the device
    here.  Audit records are not modelled.  [allowed] hosts,
    URL parsing, the message authentication code and the order of rows and maps
    are arguments. *)

From S2P Require Import Prelude GoStrings Json Protected JobModel JobStore Datamodel Devices Adapters Policies ParamCache Render.
From S2P Require Import DiagPlan Gateway WifiView ApiWrites Operators Jwt Api Transfer ControlPlane.

(** What a handler that queued a job answers: the job, and the optional inputs that
    were left out; [qr_existing] when an earlier job is answered instead. *)
Record QueuedReply : Type := mkQueued { qr_job : Job; qr_skipped : list string; qr_existing : bool }.
Definition queued (j : Job) : QueuedReply := mkQueued j [] false.

(** The insert with its foreign key on devices. *)
Definition create_job (devices : Devices) (fr : Fresh) (now : GoTime) (dev : string) (t : JobType) (payload : json)
    (by_ : string) (maxAttempts : Z) (tab : gmap string Job) : result Job * gmap string Job :=
  match CreateWithMaxAttempts false fr now dev t payload by_ maxAttempts tab with
  | (Ok j, tab') => if is_some (devices !! dev) then (Ok j, tab') else (Err "violates foreign key constraint", tab)
  | r => r
  end.

(** What a request of the API sees: the tables it reads, the instant, the
    identifiers it draws, who calls. *)
Record ApiEnv : Type := mkApiEnv {
  ae_scope : result (list string * bool);
  ae_claims : option Claims;
  ae_now : GoTime;
  ae_fresh : nat → Fresh;
  ae_devices : Devices;
  ae_params : Params;
  ae_groups : Groups;
  ae_templates : TemplateTable;
  ae_catalogs : list Catalog
}.
Definition ae_operator (env : ApiEnv) : string := operatorFromRequest (ae_claims env).

Section Handlers.
Context (hash : json → string) (dict : result Dictionary).
Context (rng : string → gmap string bool → list (string * bool)) (order : list string → list string).
Context (env : ApiEnv).
Abbreviation Tab := (gmap string Job) (only parsing).

(** The common shape: the device in scope, then the decision [k] about the
    request, a refusal or a job to queue, and the insert. *)
Record Order : Type := mkOrder { or_type : JobType; or_payload : json; or_max : Z; or_skipped : list string }.
Definition plain_order (t : JobType) (payload : json) : Order := mkOrder t payload default_max_attempts [].

Definition queue_for (id : string) (k : Device → Reply QueuedReply + Order) (tab : Tab) : Reply QueuedReply * Tab :=
  match scoped_device (ae_scope env) (ae_devices env) id with
  | inl r => (r, tab)
  | inr d =>
      match k d with
      | inl r => (r, tab)
      | inr o =>
          match create_job (ae_devices env) (ae_fresh env 0) (ae_now env) id (or_type o) (or_payload o) (ae_operator env)
                  (or_max o) tab with
          | (Ok j, tab') => (Replied 202 (mkQueued j (or_skipped o) false), tab')
          | (Err _, tab') => (Refused 500 "internal error", tab')
          end
      end
  end.

Definition bad_json {A} : Reply A := Refused 400 "invalid JSON body".

(** ** Writes *)

Definition write_refused (id : string) (p : SetParameterPayload) : option (Reply QueuedReply) :=
  match refuseProtectedWrite (writeNames p) with
  | Some e => Some (Refused 403 e)
  | None => (λ e, Refused 409 e) <$> validateWritableParameters (ae_params env) (ae_now env) id p
  end.

(** A handle is for the BSS adapter only. *)
Definition handle_refused (inputs : list parameterInput) : bool :=
  hasSecretHandle inputs
  && match ae_claims env with Some c => negb (String.eqb (cl_Subject c) serviceSubject) | None => false end.

Definition putParameters (id key : string) (body : option (list parameterInput)) (tab : Tab) : Reply QueuedReply * Tab :=
  match scoped_device (ae_scope env) (ae_devices env) id with
  | inl r => (r, tab)
  | inr d =>
      match body with
      | None => (bad_json, tab)
      | Some inputs =>
          if handle_refused inputs then (Refused 400 "secret_handle is accepted only from the BSS adapter", tab)
          else match buildSetParameterPayload dict inputs with
          | Err e => (Refused 400 e, tab)
          | Ok p =>
              match write_refused id p with
              | Some r => (r, tab)
              | None =>
                  match CreateWithIdempotency hash false (ae_fresh env 0) (ae_now env) id TypeSetParameter
                          (encode_SetParameter p) (ae_operator env) key tab with
                  | (Ok j, tab') => (Replied 202 (queued j), tab')
                  | (Err e, tab') => (if String.eqb e ErrIdempotencyConflict then Refused 409 e
                                      else Refused 500 "internal error", tab')
                  end
              end
          end
      end
  end.

(** ** Objects, reboots, attributes *)

Definition object_path_ok (path : string) : bool := negb (String.eqb path "") && HasSuffix path ".".

Definition createAddObject (id : string) (body : option string) : Tab → Reply QueuedReply * Tab :=
  queue_for id (λ _, match body with
    | None => inl bad_json
    | Some path => if object_path_ok path then inr (plain_order TypeAddObject (encode_AddObject (mkAddObjectPayload path [])))
                   else inl (Refused 400 "object_path is required and must end in a dot")
    end).

Definition createDeleteObject (id : string) (body : option string) : Tab → Reply QueuedReply * Tab :=
  queue_for id (λ _, match body with
    | None => inl bad_json
    | Some path => if object_path_ok path then inr (plain_order TypeDeleteObject (encode_DeleteObject (mkDeleteObjectPayload path)))
                   else inl (Refused 400 "object_path is required and must end in a dot")
    end).

Definition createReboot (id : string) : Tab → Reply QueuedReply * Tab :=
  queue_for id (λ _, inr (plain_order TypeReboot encode_empty)).

Definition createFactoryReset (id : string) : Tab → Reply QueuedReply * Tab :=
  queue_for id (λ _, inr (plain_order TypeFactoryReset encode_empty)).

Definition createScheduleInform (id : string) (body : option Z) : Tab → Reply QueuedReply * Tab :=
  queue_for id (λ _, match body with
    | None => inl bad_json
    | Some delay => if delay <=? 0 then inl (Refused 400 "delay_seconds must be positive")
                    else inr (plain_order TypeScheduleInform (encode_ScheduleInform (mkScheduleInformPayload delay)))
    end).

Definition attribute_ok (a : AttributeWrite) : bool :=
  negb (String.eqb (aw_Name a) "" || (aw_Notification a <? 0) || (2 <? aw_Notification a)).

Definition createSetParameterAttributes (id : string) (body : option (list AttributeWrite)) : Tab → Reply QueuedReply * Tab :=
  queue_for id (λ _, match body with
    | None => inl bad_json
    | Some [] => inl (Refused 400 "at least one attribute is required")
    | Some l => if forallb attribute_ok l
                then inr (plain_order TypeSetParameterAttributes (encode_SetParameterAttributes (mkSetParameterAttributesPayload l)))
                else inl (Refused 400 "each attribute needs a name and notification in [0,2]")
    end).

Definition createGetParameterAttributes (id : string) (body : option (list string)) : Tab → Reply QueuedReply * Tab :=
  queue_for id (λ _, match body with
    | None => inl bad_json
    | Some [] => inl (Refused 400 "at least one path is required")
    | Some l => inr (plain_order TypeGetParameterAttributes (encode_GetParameterAttributes (mkGetParameterAttributesPayload l)))
    end).

(** ** Connection requests and refreshes *)

(** [body]: no body asks for the default timeout, 0. *)
Definition createConnectionRequest (id : string) (body : option Z) : Tab → Reply QueuedReply * Tab :=
  queue_for id (λ _, match body with
    | None => inl bad_json
    | Some timeout => inr (plain_order TypeConnectionRequest (encode_ConnectionRequest timeout))
    end).

Definition get_order (paths : list string) : Order :=
  plain_order TypeGetParameter (encode_GetParameter (mkGetParameterPayload "" false paths false "")).

Definition cellularDiagnosticPaths (d : Device) : string * list string * bool :=
  let '(vendor, fallback, qualified) :=
    MatchCellularDiagnosticsForDevice (ae_catalogs env) (d_Manufacturer d) (d_ProductClass (d_identity d)) in
  match GetNames (ae_params env) (d_ID (d_identity d)) with
  | None => (vendor, fallback, qualified)
  | Some (names, _) =>
      match CellularDiagnosticParamsFromNames names with
      | [] => (vendor, [], false)
      | paths => (vendor, paths, qualified)
      end
  end.

Definition refreshCellularDiagnostics (id : string) : Tab → Reply QueuedReply * Tab :=
  queue_for id (λ d, match cellularDiagnosticPaths d with
    | (_, [], _) => inl (Refused 409 "no discovered cellular metrics; run parameter discovery")
    | (_, paths, _) => inr (get_order paths)
    end).

Definition WiFiAssociatedDevicesPrefix (root : DataModelRoot) : string :=
  match root with RootIGD1 => "InternetGatewayDevice.LANDevice.1.WLANConfiguration." | _ => "Device.WiFi.AccessPoint." end.

Definition refreshWifiClients (id : string) : Tab → Reply QueuedReply * Tab :=
  queue_for id (λ d, inr (get_order [WiFiAssociatedDevicesPrefix (d_DataModelRoot d)])).

(** ** Diagnostics *)

Definition discoveredNames (id : string) : option (gmap string bool) := fst <$> GetNames (ae_params env) id.

Record createDiagnosticsPingRequest : Type := mkPingRequest {
  prq_Host : string; prq_NumberOfRepetitions : Z; prq_Timeout : Z; prq_DataBlockSize : Z; prq_DSCP : Z
}.

Definition ping_payload (root : DataModelRoot) (r : createDiagnosticsPingRequest) : DiagnosticsPingPayload :=
  ApplyPingDefaults (mkDiagnosticsPingPayload (prq_Host r) (prq_NumberOfRepetitions r) (prq_Timeout r) (prq_DataBlockSize r)
                       (prq_DSCP r) (DiagnosticsPrefix root DiagnosticPing) no_plan).

Definition createDiagnosticsPing (id : string) (body : option createDiagnosticsPingRequest) : Tab → Reply QueuedReply * Tab :=
  queue_for id (λ d, match body with
    | None => inl bad_json
    | Some req =>
        if String.eqb (prq_Host req) "" then inl (Refused 400 "host is required")
        else match PlanPing (discoveredNames id) (ping_payload (d_DataModelRoot d) req) with
             | inl e => inl (Refused 409 (PlanError_Error e))
             | inr (plan, p) => inr (mkOrder TypeDiagnosticsPing (encode_DiagnosticsPing p) DiagnosticsMaxAttempts (pl_Skipped plan))
             end
    end).

Record createDiagnosticsTracerouteRequest : Type := mkTracerouteRequest {
  trq_Host : string; trq_NumberOfTries : Z; trq_Timeout : Z; trq_DataBlockSize : Z; trq_DSCP : Z; trq_MaxHopCount : Z
}.

Definition trace_payload (root : DataModelRoot) (r : createDiagnosticsTracerouteRequest) : DiagnosticsTraceroutePayload :=
  ApplyTracerouteDefaults (mkDiagnosticsTraceroutePayload (trq_Host r) (trq_NumberOfTries r) (trq_Timeout r)
    (trq_DataBlockSize r) (trq_DSCP r) (trq_MaxHopCount r) (DiagnosticsPrefix root DiagnosticTraceroute) no_plan).

Definition createDiagnosticsTraceroute (id : string) (body : option createDiagnosticsTracerouteRequest)
  : Tab → Reply QueuedReply * Tab :=
  queue_for id (λ d, match body with
    | None => inl bad_json
    | Some req =>
        if String.eqb (trq_Host req) "" then inl (Refused 400 "host is required")
        else match PlanTraceroute (discoveredNames id) (trace_payload (d_DataModelRoot d) req) with
             | inl e => inl (Refused 409 (PlanError_Error e))
             | inr (plan, p) =>
                 inr (mkOrder TypeDiagnosticsTraceroute (encode_DiagnosticsTraceroute p) DiagnosticsMaxAttempts (pl_Skipped plan))
             end
    end).

Definition tr143_limit : Z := 100 * 1024 * 1024.

(** [body]: URL and test file length (a uint64); [allowed] is
    ACS_TR143_ALLOWED_HOSTS. *)
Definition createTR143 (parse : string → option URL) (allowed id direction : string) (body : option (string * Z))
  : Tab → Reply QueuedReply * Tab :=
  queue_for id (λ d, match body with
    | None | Some ("", _) => inl (Refused 400 "url is required")
    | Some (url, length0) =>
        match ValidateTR143Target parse url (Split allowed ",") with
        | Err e => inl (Refused 400 e)
        | Ok _ =>
            let names := discoveredNames id in
            let cap := ResolveTR143Capability (default ∅ names) in
            let upload := String.eqb direction "upload" in
            if negb upload && negb (String.eqb direction "download") then inl (Refused 400 "direction must be download or upload")
            else if tr143_limit <? length0 then inl (Refused 400 "test_file_length exceeds 100 MiB limit")
            else
              let length := if length0 =? 0 then 1048576 else length0 in
              let path := if upload then tr_UploadPath cap else tr_DownloadPath cap in
              let command := if upload then tr_UploadCommand cap else tr_DownloadCommand cap in
              let t := if upload then TypeDiagnosticsUpload else TypeDiagnosticsDownload in
              let order plan skipped :=
                inr (mkOrder t (encode_DiagnosticsTransfer upload url path command length plan) DiagnosticsMaxAttempts skipped) in
              if String.eqb path "" && String.eqb command ""
              then inl (Refused 409 "device has not advertised this TR-143 capability")
              else if negb (String.eqb command "") then order no_plan []
              else match PlanTR143 names path url upload length with
                   | inl e => inl (Refused 409 (PlanError_Error e))
                   | inr plan => order (pl_Plan plan) (pl_Skipped plan)
                   end
        end
    end).

(** ** Parameter discovery *)

(** [incremental]: true when the body is absent or does not say. *)
Definition createParameterDiscovery (id : string) (incremental : option bool) (tab : Tab) : Reply QueuedReply * Tab :=
  match scoped_device (ae_scope env) (ae_devices env) id with
  | inl r => (r, tab)
  | inr d =>
      match incremental with
      | None => (bad_json, tab)
      | Some inc =>
          match ActiveDiscovery tab id with
          | Some active => (Replied 202 (mkQueued active [] true), tab)
          | None =>
              let igd := bool_decide (d_DataModelRoot d = RootIGD1) in
              let root := if igd then "InternetGatewayDevice." else "Device." in
              let fallback := if igd then "Device." else "InternetGatewayDevice." in
              let payload := mkParameterDiscoveryPayload root fallback false inc "" [] ∅ ∅ [] ∅
                               (Firmware (GetCache (ae_params env) id)) ∅ false in
              match create_job (ae_devices env) (ae_fresh env 0) (ae_now env) id TypeParameterDiscovery
                      (encode_ParameterDiscovery payload) (ae_operator env) DiscoveryMaxObjects tab with
              | (Ok j, tab') => (Replied 202 (queued j), tab')
              | (Err _, tab') => (Refused 500 "internal error", tab')
              end
          end
      end
  end.

(** ** Wi-Fi *)

(** [resolveWiFiView]: why there is no view, or the view. *)
Definition resolveWiFiView (id : string) (d : Device) : string + WiFiNetworks :=
  if bool_decide (d_DataModelRoot d = RootIGD1)
  then inl "TR-098 (InternetGatewayDevice) Wi-Fi networks are not resolved per instance yet"
  else match discoveredNames id with
       | None => inl "run parameter discovery first"
       | Some names =>
           if (size names =? 0)%nat then inl "run parameter discovery first"
           else inr (wifi_view rng names (GetCache (ae_params env) id))
       end.

(** [instance]: [None] when the path segment is not a number. *)
Definition updateWiFiNetwork (id : string) (instance : option Z) (body : option wifiNetworkEdit) : Tab → Reply QueuedReply * Tab :=
  queue_for id (λ d,
    if negb (match instance with Some i => 1 <=? i | None => false end)
    then inl (Refused 400 "instance must be a positive SSID instance number")
    else match body with
    | None => inl bad_json
    | Some req =>
        match edit_request_refusal instance req with
        | Some (status, e) => inl (Refused status e)
        | None =>
            match resolveWiFiView id d with
            | inl reason => inl (Refused 409 reason)
            | inr view =>
                match plan_edit (default 0 instance) req view with
                | inl (status, e) => inl (Refused status e)
                | inr ws =>
                    match refuseProtectedWrite (pw_Name <$> ws) with
                    | Some e => inl (Refused 403 e)
                    | None => inr (plain_order TypeSetParameter (encode_SetParameter (verified ws)))
                    end
                end
            end
        end
    end).

(** ** Fleet actions *)

Definition maxBulkDevices : nat := 500%nat.

Record bulkActionResult : Type := mkBulkResult {
  br_DeviceID : string;
  br_CommandKey : string;
  br_Error : string;
  br_Detail : string;
  br_RefreshCommandKey : string
}.

Definition bulk_error (dev e : string) : bulkActionResult := mkBulkResult dev "" e "" "".
Definition bulk_done (dev : string) (j : Job) (detail : string) : bulkActionResult := mkBulkResult dev (CommandKey j) "" detail "".

(** One job of the fan-out: its key or its error. *)
Definition bulk_create (fr : Fresh) (dev by_ : string) (o : Order) (detail : string) (tab : Tab) : bulkActionResult * Tab :=
  match create_job (ae_devices env) fr (ae_now env) dev (or_type o) (or_payload o) by_ (or_max o) tab with
  | (Ok j, tab') => (bulk_done dev j detail, tab')
  | (Err e, tab') => (bulk_error dev e, tab')
  end.

Definition set_order (p : SetParameterPayload) : Order := plain_order TypeSetParameter (encode_SetParameter p).

(** A write to one device of the fan-out. *)
Definition bulk_write (fr : Fresh) (dev by_ : string) (p : SetParameterPayload) (tab : Tab) : bulkActionResult * Tab :=
  match validateWritableParameters (ae_params env) (ae_now env) dev p with
  | Some e => (bulk_error dev e, tab)
  | None => bulk_create fr dev by_ (set_order p) "" tab
  end.

Definition errWiFiRolesUnknown : string := "Wi-Fi roles not known yet".

Definition bulkSetWiFi (fr : Fresh) (dev by_ : string) (s : wifiSettings) (tab : Tab) : bulkActionResult * Tab :=
  match ae_devices env !! dev with
  | None => (bulk_error dev "device not found", tab)
  | Some d =>
      match planWiFiWrites dict rng (d_DataModelRoot d) (discoveredNames dev) (GetCache (ae_params env) dev) s with
      | WifiRefused e => (bulk_error dev e, tab)
      | WifiWrites p detail => bulk_create fr dev by_ (set_order p) detail tab
      | WifiRolesUnknown refresh =>
          match create_job (ae_devices env) fr (ae_now env) dev TypeGetParameter (or_payload (get_order refresh)) by_
                  default_max_attempts tab with
          | (Ok j, tab') =>
              (mkBulkResult dev "" (errWiFiRolesUnknown ++ ": queued a read of them, retry after the device's next session") ""
                 (CommandKey j), tab')
          | (Err e, tab') => (bulk_error dev (errWiFiRolesUnknown ++ "; queuing the read failed: " ++ e), tab')
          end
      end
  end.

Definition bulk_refresh_cellular (fr : Fresh) (dev by_ : string) (tab : Tab) : bulkActionResult * Tab :=
  match ae_devices env !! dev with
  | None => (bulk_error dev "device not found", tab)
  | Some d =>
      match cellularDiagnosticPaths d with
      | (_, [], _) => (bulk_error dev "no discovered cellular parameters for this device", tab)
      | (_, paths, _) => bulk_create fr dev by_ (get_order paths) "" tab
      end
  end.

Record bulkActionRequest : Type := mkBulkAction {
  ba_DeviceIDs : list string;
  ba_GroupID : string;
  ba_Action : string;
  ba_Parameters : list parameterInput;
  ba_TimeoutSeconds : Z;
  ba_WiFi : wifiSettings
}.

(** The action, once the request is validated. *)
Inductive BulkKind : Type :=
| BulkSet (p : SetParameterPayload)
| BulkWiFi (s : wifiSettings)
| BulkConnect (timeout : Z)
| BulkCellular.

Definition bulk_kind (req : bulkActionRequest) : Reply (list bulkActionResult) + BulkKind :=
  if String.eqb (ba_Action req) "SET_PARAMETER" then
    if hasSecretHandle (ba_Parameters req) then inl (Refused 400 "secret_handle is not accepted on bulk actions")
    else match buildSetParameterPayload dict (ba_Parameters req) with
         | Err e => inl (Refused 400 e)
         | Ok p => match refuseProtectedWrite (writeNames p) with
                   | Some e => inl (Refused 403 e)
                   | None => inr (BulkSet p)
                   end
         end
  else if String.eqb (ba_Action req) "SET_WIFI" then
    match wifi_validate (ba_WiFi req) with Some e => inl (Refused 400 e) | None => inr (BulkWiFi (ba_WiFi req)) end
  else if String.eqb (ba_Action req) "CONNECTION_REQUEST" then inr (BulkConnect (ba_TimeoutSeconds req))
  else if String.eqb (ba_Action req) "REFRESH_CELLULAR" then inr BulkCellular
  else inl (Refused 400 ("unsupported bulk action " ++ ba_Action req)%string).

Definition bulk_act (kind : BulkKind) (fr : Fresh) (dev : string) (tab : Tab) : bulkActionResult * Tab :=
  let by_ := ae_operator env in
  match kind with
  | BulkSet p => bulk_write fr dev by_ p tab
  | BulkWiFi s => bulkSetWiFi fr dev by_ s tab
  | BulkConnect timeout =>
      bulk_create fr dev by_ (plain_order TypeConnectionRequest (encode_ConnectionRequest timeout)) "" tab
  | BulkCellular => bulk_refresh_cellular fr dev by_ tab
  end.

(** The devices a request names: the list, or else the members of the group. *)
Definition bulk_targets (ids : list string) (group : string) : Reply (list bulkActionResult) + list string :=
  let targets := if bool_decide (ids = []) && negb (String.eqb group "") then MemberDeviceIDs order group (ae_groups env) else ids in
  if bool_decide (targets = []) then inl (Refused 400 "device_ids (or a non-empty group_id) must be provided")
  else if (maxBulkDevices <? length targets)%nat then inl (Refused 400 "device_ids exceeds the 500-device limit per request")
  else inr targets.

(** The loop: [reach] is the check of each device before [act]. *)
Fixpoint bulk_each (reach : string → bool) (act : Fresh → string → Tab → bulkActionResult * Tab) (n : nat) (ids : list string)
    (tab : Tab) : list bulkActionResult * Tab :=
  match ids with
  | [] => ([], tab)
  | dev :: rest =>
      let '(r, tab1) := if reach dev then act (ae_fresh env n) dev tab else (bulk_error dev "not found", tab) in
      let '(rs, tab2) := bulk_each reach act (S n) rest tab1 in
      (r :: rs, tab2)
  end.

Definition in_scope (confined : bool) (customers : list string) (dev : string) : bool :=
  negb confined || match ae_devices env !! dev with
                   | Some d => deviceInScope (d_CustomerID (d_ownership d)) customers
                   | None => false
                   end.

Definition bulkAction (body : option bulkActionRequest) (tab : Tab) : Reply (list bulkActionResult) * Tab :=
  match body with
  | None => (bad_json, tab)
  | Some req =>
      match bulk_targets (ba_DeviceIDs req) (ba_GroupID req) with
      | inl r => (r, tab)
      | inr targets =>
          match bulk_kind req with
          | inl r => (r, tab)
          | inr kind =>
              match ae_scope env with
              | Err _ => (Refused 500 "internal error", tab)
              | Ok (customers, confined) =>
                  let '(results, tab') := bulk_each (in_scope confined customers) (bulk_act kind) 0 targets tab in
                  (Replied 202 results, tab')
              end
          end
      end
  end.

(** ** Templates *)

Definition template_payload (t : Template) : SetParameterPayload :=
  verified ((λ p, mkParameterWrite (pw_Name p) (pw_Value p) (pw_Type p) "") <$> te_Parameters t).

Definition template_admits (confined : bool) (customers : list string) (t : Template) (dev : string) : bool :=
  match ae_devices env !! dev with
  | None => false
  | Some d => (negb confined || deviceInScope (d_CustomerID (d_ownership d)) customers)
              && sameCustomer (d_CustomerID (d_ownership d)) (te_CustomerID t)
  end.

Definition applyTemplate (id : string) (body : option (list string * string)) (tab : Tab) : Reply (list bulkActionResult) * Tab :=
  match scopedTemplate (ae_scope env) (ae_templates env) id with
  | inl r => (r, tab)
  | inr t =>
      match body with
      | None => (bad_json, tab)
      | Some (ids, group) =>
          match bulk_targets ids group with
          | inl r => (r, tab)
          | inr targets =>
              match ae_scope env with
              | Err _ => (Refused 500 "internal error", tab)
              | Ok (customers, confined) =>
                  let by_ := ("template:" ++ te_Name t ++ " (" ++ ae_operator env ++ ")")%string in
                  let '(results, tab') :=
                    bulk_each (template_admits confined customers t) (λ fr dev, bulk_write fr dev by_ (template_payload t)) 0
                      targets tab in
                  (Replied 200 results, tab')
              end
          end
      end
  end.

(** ** Reading a job *)

Definition getJob (commandKey : string) (tab : Tab) : Reply Job :=
  match ByCommandKey tab commandKey with
  | None => Refused 404 "not found"
  | Some j => match scoped_device (ae_scope env) (ae_devices env) (DeviceID j) with inl r => r | inr _ => Replied 200 j end
  end.
End Handlers.
