(* ===== verification/ApiJobsTheorems.v ===== *)
(** * What the job-queueing endpoints promise

    [JobRequest] is any request of [ApiJobs]; [serve] is its handler.  Whatever the
    request, the table of jobs only gains rows, and each is a queued job for a
    device the caller may reach, signed by the caller, with a payload the
    dispatcher can read and no write of a protected parameter. *)

From S2P Require Import Prelude GoStrings Json Protected JobModel JobStore Datamodel Devices Adapters Policies ParamCache Render.
From S2P Require Import DiagPlan JobLaws Gateway WifiView ApiWrites Operators Jwt Api Transfer ControlPlane ApiJobs.

(** ** Tables that only gain rows *)

Definition adds_only (P : Job → Prop) (tab tab' : gmap string Job) : Prop :=
  ∀ id, tab' !! id = tab !! id ∨ (tab !! id = None ∧ ∃ j, tab' !! id = Some j ∧ P j).

Lemma adds_only_refl P tab : adds_only P tab tab.
Proof. by left. Qed.

Lemma adds_only_trans P t1 t2 t3 : adds_only P t1 t2 → adds_only P t2 t3 → adds_only P t1 t3.
Proof.
  intros H1 H2 id. destruct (H2 id) as [->|(E & j & Ej & Hj)]; [apply H1|].
  destruct (H1 id) as [E'|(_ & j' & Ej' & _)]; [|congruence]. right. rewrite <- E'. eauto.
Qed.

Lemma adds_only_mono (P Q : Job → Prop) t1 t2 : (∀ j, P j → Q j) → adds_only P t1 t2 → adds_only Q t1 t2.
Proof. intros H H1 id. destruct (H1 id) as [|(? & j & ? & ?)]; eauto 6. Qed.

Lemma adds_only_insert (P : Job → Prop) tab j : tab !! ID j = None → P j → adds_only P tab (<[ID j := j]> tab).
Proof.
  intros Hn HP id. destruct (decide (id = ID j)) as [->|].
  - right. split; [done|]. exists j. by rewrite lookup_insert_eq.
  - left. by rewrite lookup_insert_ne.
Qed.

#[export] Hint Resolve adds_only_refl : acs.

(** A row as the repository inserts it: what was asked, waiting, not a protected
    write. *)
Record inserted (dev : string) (t : JobType) (payload : json) (by_ : string) (j : Job) : Prop := {
  ins_device : DeviceID j = dev;
  ins_type : Type_ j = t;
  ins_payload : Payload j = payload;
  ins_by : CreatedBy j = by_;
  ins_status : Status j = StatusQueued;
  ins_unprotected : checkProtectedWrite false t payload = None
}.

Lemma insert_job_adds (P : Job → Prop) tab j : P j → adds_only P tab (insert_job tab j).2.
Proof.
  intros HP. unfold insert_job, unique_ok. destruct (is_some (tab !! ID j)) eqn:E; cbn [negb andb snd]; [apply adds_only_refl|].
  destruct (forallb _ _); cbn [snd]; [|apply adds_only_refl]. apply adds_only_insert; [|done]. by destruct (tab !! ID j).
Qed.

Lemma CreateWithMaxAttempts_adds fr now dev t payload by_ m tab :
  adds_only (inserted dev t payload by_) tab (CreateWithMaxAttempts false fr now dev t payload by_ m tab).2.
Proof.
  unfold CreateWithMaxAttempts. destruct (checkProtectedWrite false t payload) eqn:E; [apply adds_only_refl|].
  by apply insert_job_adds.
Qed.

Lemma CreateWithIdempotency_adds hash fr now dev t payload by_ key tab :
  adds_only (inserted dev t payload by_) tab (CreateWithIdempotency hash false fr now dev t payload by_ key tab).2.
Proof.
  unfold CreateWithIdempotency. destruct (String.eqb _ _); [apply CreateWithMaxAttempts_adds|].
  destruct (checkProtectedWrite false t payload) eqn:E; [apply adds_only_refl|].
  destruct (findByIdempotency tab dev t key) as [j|]; [|by apply insert_job_adds].
  destruct (RequestHash j); [destruct (String.eqb _ _)|]; apply adds_only_refl.
Qed.

Lemma create_job_adds devices fr now dev t payload by_ m tab :
  adds_only (λ j, inserted dev t payload by_ j ∧ is_Some (devices !! dev)) tab
    (create_job devices fr now dev t payload by_ m tab).2.
Proof.
  unfold create_job. pose proof (CreateWithMaxAttempts_adds fr now dev t payload by_ m tab) as H.
  destruct (CreateWithMaxAttempts _ _ _ _ _ _ _ _ _) as [[j|e] tab'] eqn:E; cbn [snd] in *.
  - destruct (devices !! dev); cbn [is_some snd]; [|apply adds_only_refl]. eapply adds_only_mono; [|done]. eauto.
  - assert (tab' = tab) as ->; [|apply adds_only_refl].
    unfold CreateWithMaxAttempts, insert_job in E. destruct (checkProtectedWrite _ _ _); [by simplify_eq|].
    destruct (unique_ok _ _); by simplify_eq.
Qed.

(** ** Requests

    The eighteen endpoints of [ApiJobs] that queue jobs.  Not among them: the
    rotation of a credential ([credential_handlers.go], with
    [AllowProtectedWrites]), bulk data ([bulk_data_handlers.go] and the raw
    INSERT of [internal/bulkdata/health.go]), compatibility checks
    ([compatibility_handlers.go]), the console ([console_handlers.go]), uploads
    ([upload_handlers.go]), the lifecycle of a service ([lifecycle_handlers.go]),
    and firmware downloads, which [Rollout] and [Transfer] treat. *)

Inductive JobRequest : Type :=
| ReqPutParameters (id key : string) (body : option (list parameterInput))
| ReqAddObject (id : string) (body : option string)
| ReqDeleteObject (id : string) (body : option string)
| ReqReboot (id : string)
| ReqFactoryReset (id : string)
| ReqScheduleInform (id : string) (body : option Z)
| ReqSetAttributes (id : string) (body : option (list AttributeWrite))
| ReqGetAttributes (id : string) (body : option (list string))
| ReqConnectionRequest (id : string) (body : option Z)
| ReqRefreshCellular (id : string)
| ReqRefreshWifiClients (id : string)
| ReqPing (id : string) (body : option createDiagnosticsPingRequest)
| ReqTraceroute (id : string) (body : option createDiagnosticsTracerouteRequest)
| ReqTR143 (id direction : string) (body : option (string * Z))
| ReqDiscovery (id : string) (incremental : option bool)
| ReqWiFiEdit (id : string) (instance : option Z) (body : option wifiNetworkEdit)
| ReqBulk (body : option bulkActionRequest)
| ReqTemplate (template : string) (body : option (list string * string)).

(** Decoding puts a number into an int (a uint64 for the length of a test file),
    or refuses the body. *)
Definition decoded (r : JobRequest) : bool :=
  match r with
  | ReqScheduleInform _ (Some z) | ReqConnectionRequest _ (Some z) => in_int64 z
  | ReqPing _ (Some b) =>
      in_int64 (prq_NumberOfRepetitions b) && in_int64 (prq_Timeout b) && in_int64 (prq_DataBlockSize b) && in_int64 (prq_DSCP b)
  | ReqTraceroute _ (Some b) =>
      in_int64 (trq_NumberOfTries b) && in_int64 (trq_Timeout b) && in_int64 (trq_DataBlockSize b) && in_int64 (trq_DSCP b)
      && in_int64 (trq_MaxHopCount b)
  | ReqTR143 _ _ (Some (_, n)) => (0 <=? n) && (n <? 2 ^ 64)
  | ReqBulk (Some b) => in_int64 (ba_TimeoutSeconds b)
  | _ => true
  end.

Definition is_template (r : JobRequest) : bool := match r with ReqTemplate _ _ => true | _ => false end.

Section Serve.
Context (hash : json → string) (dict : result Dictionary).
Context (rng : string → gmap string bool → list (string * bool)) (order : list string → list string).
Context (parse : string → option URL) (allowed : string).
Context (env : ApiEnv).

Definition serve (r : JobRequest) (tab : gmap string Job) : gmap string Job :=
  match r with
  | ReqPutParameters id key body => (putParameters hash dict env id key body tab).2
  | ReqAddObject id body => (createAddObject env id body tab).2
  | ReqDeleteObject id body => (createDeleteObject env id body tab).2
  | ReqReboot id => (createReboot env id tab).2
  | ReqFactoryReset id => (createFactoryReset env id tab).2
  | ReqScheduleInform id body => (createScheduleInform env id body tab).2
  | ReqSetAttributes id body => (createSetParameterAttributes env id body tab).2
  | ReqGetAttributes id body => (createGetParameterAttributes env id body tab).2
  | ReqConnectionRequest id body => (createConnectionRequest env id body tab).2
  | ReqRefreshCellular id => (refreshCellularDiagnostics env id tab).2
  | ReqRefreshWifiClients id => (refreshWifiClients env id tab).2
  | ReqPing id body => (createDiagnosticsPing env id body tab).2
  | ReqTraceroute id body => (createDiagnosticsTraceroute env id body tab).2
  | ReqTR143 id direction body => (createTR143 env parse allowed id direction body tab).2
  | ReqDiscovery id incremental => (createParameterDiscovery env id incremental tab).2
  | ReqWiFiEdit id instance body => (updateWiFiNetwork rng env id instance body tab).2
  | ReqBulk body => (bulkAction dict rng order env body tab).2
  | ReqTemplate template body => (applyTemplate order env template body tab).2
  end.

(** Who the job is signed by. *)
Definition author (r : JobRequest) : string :=
  match r with
  | ReqTemplate id _ =>
      match ae_templates env !! id with
      | Some t => ("template:" ++ te_Name t ++ " (" ++ ae_operator env ++ ")")%string
      | None => ""
      end
  | _ => ae_operator env
  end.

(** A device of the caller's scope; a template's only reach its own customer. *)
Definition may_reach (r : JobRequest) (dev : string) : Prop :=
  ∃ d, ae_devices env !! dev = Some d ∧ within_scope (ae_scope env) (d_CustomerID (d_ownership d)) ∧
  match r with
  | ReqTemplate id _ =>
      ∃ t, ae_templates env !! id = Some t ∧ within_scope (ae_scope env) (te_CustomerID t) ∧
           sameCustomer (d_CustomerID (d_ownership d)) (te_CustomerID t) = true
  | _ => True
  end.

Definition permitted (r : JobRequest) (j : Job) : Prop :=
  may_reach r (DeviceID j) ∧ CreatedBy j = author r ∧ Status j = StatusQueued ∧
  checkProtectedWrite false (Type_ j) (Payload j) = None.

(** What [serve_adds] is proved for; the typing half needs a decoded body. *)
Definition queued_ok (r : JobRequest) (j : Job) : Prop :=
  permitted r j ∧ (decoded r = true → payload_typed (Type_ j) (Payload j) = true).

Definition typed (o : Order) : Prop := payload_typed (or_type o) (or_payload o) = true.

(** *** The common shape *)

Lemma inserted_ok r dev t payload by_ j :
  may_reach r dev → by_ = author r → (decoded r = true → payload_typed t payload = true) →
  inserted dev t payload by_ j → queued_ok r j.
Proof. intros Hr -> Ht [Hd Hy Hl Hb Hs Hp]. unfold queued_ok, permitted. by rewrite Hd, Hy, Hl, Hb, Hs. Qed.

Lemma scoped_reach r id d :
  is_template r = false → scoped_device (A := QueuedReply) (ae_scope env) (ae_devices env) id = inr d →
  may_reach r id.
Proof.
  intros Hn [He Hw]%scoped_ok. exists d. split; [done|]. split; [done|]. by destruct r.
Qed.

Lemma queue_for_adds r id k tab :
  is_template r = false → (∀ d o, k d = inr o → decoded r = true → typed o) →
  adds_only (queued_ok r) tab (queue_for env id k tab).2.
Proof.
  intros Hn Hk. unfold queue_for. destruct (scoped_device _ _ _) as [|d] eqn:Es; [apply adds_only_refl|].
  destruct (k d) as [|o] eqn:Ek; [apply adds_only_refl|].
  pose proof (create_job_adds (ae_devices env) (ae_fresh env 0) (ae_now env) id (or_type o) (or_payload o) (ae_operator env)
                (or_max o) tab) as H.
  assert (adds_only (queued_ok r) tab (create_job (ae_devices env) (ae_fresh env 0) (ae_now env) id (or_type o)
            (or_payload o) (ae_operator env) (or_max o) tab).2) as H'.
  { eapply adds_only_mono; [|exact H]. intros j [Hj _].
    refine (inserted_ok r _ _ _ _ j (scoped_reach r id d Hn Es) _ (Hk d o Ek) Hj). by destruct r. }
  by destruct (create_job _ _ _ _ _ _ _ _ _) as [[] ?].
Qed.

(** *** Orders are typed *)

Lemma typed_get paths : typed (get_order paths).
Proof. unfold typed, get_order, payload_typed. cbn [or_type or_payload plain_order]. by rewrite decode_encode_GetParameter. Qed.

Lemma typed_set p : typed (set_order p).
Proof. unfold typed, set_order, payload_typed. cbn [or_type or_payload plain_order]. by rewrite decode_encode_SetParameter. Qed.

Lemma typed_connection z : in_int64 z = true → typed (plain_order TypeConnectionRequest (encode_ConnectionRequest z)).
Proof. intros H. unfold typed, payload_typed, decode_ConnectionRequest. cbn -[in_int64]. by rewrite H. Qed.

Lemma or_zero_int64 z d : in_int64 z = true → in_int64 d = true → in_int64 (or_zero z d) = true.
Proof. unfold or_zero. by destruct (z =? 0). Qed.

Lemma typed_ping names p plan p' m sk :
  ping_ints p = true → PlanPing names p = inr (plan, p') →
  typed (mkOrder TypeDiagnosticsPing (encode_DiagnosticsPing p') m sk).
Proof.
  unfold PlanPing. intros Hi H. destruct (PlanCWMP _ _ _ _ _); [done|]. injection H as _ <-.
  unfold typed, payload_typed. cbn [or_type or_payload]. by rewrite decode_encode_DiagnosticsPing.
Qed.

Lemma typed_traceroute names p plan p' m sk :
  trace_ints p = true → PlanTraceroute names p = inr (plan, p') →
  typed (mkOrder TypeDiagnosticsTraceroute (encode_DiagnosticsTraceroute p') m sk).
Proof.
  unfold PlanTraceroute. intros Hi H. destruct (PlanCWMP _ _ _ _ _); [done|]. injection H as _ <-.
  unfold typed, payload_typed. cbn [or_type or_payload]. by rewrite decode_encode_DiagnosticsTraceroute.
Qed.

Lemma ping_defaults_int64 p : ping_ints p = true → ping_ints (ApplyPingDefaults p) = true.
Proof. unfold ping_ints. intros H. bool_to_prop. rewrite !andb_true_iff. repeat split; try done; by apply or_zero_int64. Qed.

Lemma trace_defaults_int64 p : trace_ints p = true → trace_ints (ApplyTracerouteDefaults p) = true.
Proof. unfold trace_ints. intros H. bool_to_prop. rewrite !andb_true_iff. repeat split; try done; by apply or_zero_int64. Qed.

Lemma typed_transfer (upload : bool) url path command n plan m sk :
  0 <= n < 2 ^ 64 →
  typed (mkOrder (if upload then TypeDiagnosticsUpload else TypeDiagnosticsDownload)
           (encode_DiagnosticsTransfer upload url path command n plan) m sk).
Proof.
  intros Hn. unfold typed, payload_typed. cbn [or_type or_payload].
  pose proof (decode_encode_DiagnosticsTransfer upload url path command n plan Hn) as E. by destruct upload; rewrite E.
Qed.

Lemma typed_attributes l :
  forallb attribute_ok l = true →
  typed (plain_order TypeSetParameterAttributes (encode_SetParameterAttributes (mkSetParameterAttributesPayload l))).
Proof.
  intros H. unfold typed, payload_typed. cbn [or_type or_payload plain_order].
  rewrite decode_encode_SetParameterAttributes; [done|]. cbn [sa_Attributes]. rewrite forallb_forall in *.
  intros a Ha. specialize (H a Ha). unfold attribute_ok in H. unfold in_int64, min_int64, max_int64. bool_to_prop. lia.
Qed.

(** *** The endpoints of one device *)

Lemma putParameters_adds id key body tab :
  adds_only (queued_ok (ReqPutParameters id key body)) tab (putParameters hash dict env id key body tab).2.
Proof.
  unfold putParameters. destruct (scoped_device _ _ _) as [|d] eqn:Es; [apply adds_only_refl|].
  destruct body as [inputs|]; [|apply adds_only_refl]. destruct (handle_refused _ _); [apply adds_only_refl|].
  destruct (buildSetParameterPayload _ _) as [p|]; [|apply adds_only_refl].
  destruct (write_refused _ _ _); [apply adds_only_refl|].
  pose proof (CreateWithIdempotency_adds hash (ae_fresh env 0) (ae_now env) id TypeSetParameter (encode_SetParameter p)
                (ae_operator env) key tab) as H.
  assert (∀ j, inserted id TypeSetParameter (encode_SetParameter p) (ae_operator env) j →
          queued_ok (ReqPutParameters id key (Some inputs)) j) as Hj.
  { intros j. apply inserted_ok; [by eapply scoped_reach|done|]. intros _. apply (typed_set p). }
  destruct (CreateWithIdempotency _ _ _ _ _ _ _ _ _ _) as [[] ?]; exact (adds_only_mono _ _ _ _ Hj H).
Qed.

Lemma createParameterDiscovery_adds id inc tab :
  adds_only (queued_ok (ReqDiscovery id inc)) tab (createParameterDiscovery env id inc tab).2.
Proof.
  unfold createParameterDiscovery. destruct (scoped_device _ _ _) as [|d] eqn:Es; [apply adds_only_refl|].
  destruct inc as [inc|]; [|apply adds_only_refl]. destruct (ActiveDiscovery tab id); [apply adds_only_refl|].
  cbv zeta. set (p := encode_ParameterDiscovery _).
  pose proof (create_job_adds (ae_devices env) (ae_fresh env 0) (ae_now env) id TypeParameterDiscovery p (ae_operator env)
                DiscoveryMaxObjects tab) as H.
  assert (∀ j, inserted id TypeParameterDiscovery p (ae_operator env) j ∧ is_Some (ae_devices env !! id) →
          queued_ok (ReqDiscovery id (Some inc)) j) as Hj.
  { intros j [Hj _]. revert Hj. apply inserted_ok; [by eapply scoped_reach|done|]. intros _.
    unfold payload_typed. subst p. by rewrite decode_encode_ParameterDiscovery. }
  destruct (create_job _ _ _ _ _ _ _ _ _) as [[] ?]; exact (adds_only_mono _ _ _ _ Hj H).
Qed.

Lemma createTR143_adds id direction body tab :
  adds_only (queued_ok (ReqTR143 id direction body)) tab (createTR143 env parse allowed id direction body tab).2.
Proof.
  apply queue_for_adds; [done|]. intros d o. destruct body as [[[|c url] n]|]; [done| |done].
  destruct (ValidateTR143Target _ _ _); [|done]. cbv zeta. intros Ho Hd. simpl in Hd.
  destruct (negb _ && negb _); [done|]. destruct (tr143_limit <? n) eqn:Hl; [done|].
  assert (0 <= (if n =? 0 then 1048576 else n) < 2 ^ 64) as Hn by (bool_to_prop; destruct (n =? 0); lia).
  destruct (String.eqb _ "" && String.eqb _ ""); [done|].
  destruct (negb (String.eqb _ "")); [injection Ho as <-; by apply typed_transfer|].
  destruct (PlanTR143 _ _ _ _ _); [done|]. injection Ho as <-. by apply typed_transfer.
Qed.

Lemma updateWiFiNetwork_adds id instance body tab :
  adds_only (queued_ok (ReqWiFiEdit id instance body)) tab (updateWiFiNetwork rng env id instance body tab).2.
Proof.
  apply queue_for_adds; [done|]. intros d o. destruct (negb _); [done|]. destruct body as [req|]; [|done].
  destruct (edit_request_refusal _ _) as [[]|]; [done|]. destruct (resolveWiFiView _ _ _ _); [done|].
  destruct (plan_edit _ _ _) as [[]|]; [done|]. destruct (refuseProtectedWrite _); [done|].
  intros [= <-] _. apply (typed_set (verified _)).
Qed.

Lemma ping_adds id body tab : adds_only (queued_ok (ReqPing id body)) tab (createDiagnosticsPing env id body tab).2.
Proof.
  apply queue_for_adds; [done|]. intros d o. destruct body as [b|]; [|done]. destruct (String.eqb _ _); [done|].
  destruct (PlanPing _ _) as [|[plan p]] eqn:E; [done|]. intros [= <-] Hd. eapply typed_ping; [|done].
  by apply ping_defaults_int64.
Qed.

Lemma traceroute_adds id body tab :
  adds_only (queued_ok (ReqTraceroute id body)) tab (createDiagnosticsTraceroute env id body tab).2.
Proof.
  apply queue_for_adds; [done|]. intros d o. destruct body as [b|]; [|done]. destruct (String.eqb _ _); [done|].
  destruct (PlanTraceroute _ _) as [|[plan p]] eqn:E; [done|]. intros [= <-] Hd. eapply typed_traceroute; [|done].
  by apply trace_defaults_int64.
Qed.

(** *** Fleet actions *)

Lemma bulk_each_adds P reach act n ids tab :
  (∀ dev fr t, reach dev = true → adds_only P t (act fr dev t).2) →
  adds_only P tab (bulk_each env reach act n ids tab).2.
Proof.
  intros Ha. revert n tab. induction ids as [|dev ids IH]; intros n tab; simpl; [apply adds_only_refl|].
  assert (adds_only P tab (if reach dev then act (ae_fresh env n) dev tab else (bulk_error dev "not found", tab)).2) as H1.
  { destruct (reach dev) eqn:E; [by apply Ha|apply adds_only_refl]. }
  destruct (if reach dev then _ else _) as [x tab1]. specialize (IH (S n) tab1).
  destruct (bulk_each _ _ _ _ _ _) as [rs tab2]. by eapply adds_only_trans.
Qed.

Lemma bulk_create_adds (P : Job → Prop) fr dev by_ o detail tab :
  (∀ j, inserted dev (or_type o) (or_payload o) by_ j → is_Some (ae_devices env !! dev) → P j) →
  adds_only P tab (bulk_create env fr dev by_ o detail tab).2.
Proof.
  intros HP. unfold bulk_create.
  pose proof (create_job_adds (ae_devices env) fr (ae_now env) dev (or_type o) (or_payload o) by_ (or_max o) tab) as H.
  assert (adds_only P tab (create_job (ae_devices env) fr (ae_now env) dev (or_type o) (or_payload o) by_ (or_max o) tab).2).
  { eapply adds_only_mono; [|done]. intros j []. by apply HP. }
  by destruct (create_job _ _ _ _ _ _ _ _ _) as [[] ?].
Qed.

Lemma bulk_write_adds (P : Job → Prop) fr dev by_ p tab :
  (∀ j, inserted dev TypeSetParameter (encode_SetParameter p) by_ j → is_Some (ae_devices env !! dev) → P j) →
  adds_only P tab (bulk_write env fr dev by_ p tab).2.
Proof. intros HP. unfold bulk_write. destruct (validateWritableParameters _ _ _ _); [apply adds_only_refl|]. by apply bulk_create_adds. Qed.

Lemma in_scope_reach r confined customers dev :
  is_template r = false → ae_scope env = Ok (customers, confined) → in_scope env confined customers dev = true →
  is_Some (ae_devices env !! dev) → may_reach r dev.
Proof.
  intros Hr Hs Hi [d Hd]. exists d. split; [done|]. unfold in_scope in Hi. rewrite Hd in Hi. split; [|by destruct r].
  exists customers, confined. split; [done|]. intros ->. done.
Qed.

Definition kind_ints (k : BulkKind) : bool := match k with BulkConnect z => in_int64 z | _ => true end.

Lemma bulkSetWiFi_adds (P : Job → Prop) fr dev s tab :
  (∀ o j, typed o → inserted dev (or_type o) (or_payload o) (ae_operator env) j → is_Some (ae_devices env !! dev) → P j) →
  adds_only P tab (bulkSetWiFi dict rng env fr dev (ae_operator env) s tab).2.
Proof.
  intros HP. unfold bulkSetWiFi. destruct (ae_devices env !! dev) as [d|] eqn:Ed; [|apply adds_only_refl].
  destruct (planWiFiWrites _ _ _ _ _ _) as [p detail|refresh|e]; [| |apply adds_only_refl].
  - apply bulk_create_adds. rewrite Ed. eauto using typed_set.
  - pose proof (create_job_adds (ae_devices env) fr (ae_now env) dev TypeGetParameter (or_payload (get_order refresh))
                  (ae_operator env) default_max_attempts tab) as H.
    assert (adds_only P tab (create_job (ae_devices env) fr (ae_now env) dev TypeGetParameter
              (or_payload (get_order refresh)) (ae_operator env) default_max_attempts tab).2).
    { eapply adds_only_mono; [|done]. intros j [Hj He]. rewrite Ed in He. by apply (HP (get_order refresh) j (typed_get refresh)). }
    by destruct (create_job _ _ _ _ _ _ _ _ _) as [[] ?].
Qed.

Lemma bulk_act_adds (P : Job → Prop) kind fr dev tab :
  (∀ o j, (kind_ints kind = true → typed o) → inserted dev (or_type o) (or_payload o) (ae_operator env) j →
          is_Some (ae_devices env !! dev) → P j) →
  adds_only P tab (bulk_act dict rng env kind fr dev tab).2.
Proof.
  intros HP. destruct kind as [p|s|z|]; simpl.
  - apply bulk_write_adds. intros j. apply (HP (set_order p)). intros _. apply typed_set.
  - apply bulkSetWiFi_adds. intros o j Ho. by apply HP.
  - apply bulk_create_adds. intros j. apply HP. apply typed_connection.
  - unfold bulk_refresh_cellular. destruct (ae_devices env !! dev) as [d|] eqn:Ed; [|apply adds_only_refl].
    destruct (cellularDiagnosticPaths _ _) as [[v [|x l]] q]; [apply adds_only_refl|].
    apply bulk_create_adds. rewrite Ed. intros j. apply HP. intros _. apply typed_get.
Qed.

Lemma bulkAction_adds body tab :
  adds_only (queued_ok (ReqBulk body)) tab (bulkAction dict rng order env body tab).2.
Proof.
  unfold bulkAction. destruct body as [req|]; [|apply adds_only_refl].
  destruct (bulk_targets _ _ _ _) as [|targets]; [apply adds_only_refl|].
  destruct (bulk_kind _ _) as [|kind] eqn:Ek; [apply adds_only_refl|].
  destruct (ae_scope env) as [[customers confined]|] eqn:Es; [|apply adds_only_refl].
  assert (decoded (ReqBulk (Some req)) = true → kind_ints kind = true) as Hi.
  { simpl. intros Hd. revert Ek. unfold bulk_kind. do 2 (destruct (String.eqb _ _); [by repeat case_match; intros; simplify_eq|]).
    destruct (String.eqb _ _); [by intros [= <-]|]. destruct (String.eqb _ _); [by intros [= <-]|done]. }
  pose proof (bulk_each_adds (queued_ok (ReqBulk (Some req))) (in_scope env confined customers) (bulk_act dict rng env kind)
                0 targets tab) as H.
  destruct (bulk_each _ _ _ _ _ _) as [rs tab']. apply H. intros dev fr t Ha. apply bulk_act_adds.
  intros o j Ho Hj He. refine (inserted_ok _ _ _ _ _ j _ _ _ Hj); [by eapply in_scope_reach|done|]. intros Hd. by apply Ho, Hi.
Qed.

Lemma applyTemplate_adds id body tab :
  adds_only (queued_ok (ReqTemplate id body)) tab (applyTemplate order env id body tab).2.
Proof.
  unfold applyTemplate. destruct (scopedTemplate _ _ _) as [|t] eqn:Et; [apply adds_only_refl|].
  apply scoped_ok in Et as [Et Ht].
  destruct body as [[ids group]|]; [|apply adds_only_refl]. destruct (bulk_targets _ _ _ _) as [|targets]; [apply adds_only_refl|].
  destruct (ae_scope env) as [[customers confined]|] eqn:Es; [|apply adds_only_refl]. cbv zeta.
  match goal with |- context [bulk_each env ?a ?f 0 targets tab] =>
    pose proof (bulk_each_adds (queued_ok (ReqTemplate id (Some (ids, group)))) a f 0 targets tab) as H;
    destruct (bulk_each env a f 0 targets tab) as [rs tab'] end.
  apply H. intros dev fr t' Ha. apply bulk_write_adds. intros j Hj [d He].
  refine (inserted_ok _ _ _ _ _ j _ _ _ Hj); [| |intros _; apply (typed_set (template_payload t))].
  - unfold template_admits in Ha. rewrite He in Ha. apply andb_true_iff in Ha as [Ha Hc]. exists d. rewrite Es.
    repeat split; [done| |by exists t]. exists customers, confined. split; [done|]. by intros ->.
  - simpl. by rewrite Et.
Qed.

Lemma serve_adds r tab : adds_only (queued_ok r) tab (serve r tab).
Proof.
  destruct r; cbn [serve];
    [apply putParameters_adds| | | | | | | | | | |apply ping_adds|apply traceroute_adds|apply createTR143_adds
    |apply createParameterDiscovery_adds|apply updateWiFiNetwork_adds|apply bulkAction_adds|apply applyTemplate_adds];
    (apply queue_for_adds; [done|]); intros d o.
  - destruct body as [p|]; [|done]. destruct (object_path_ok p); [|done]. intros [= <-] _.
    unfold typed, payload_typed. cbn [or_type or_payload plain_order]. by rewrite decode_encode_AddObject.
  - destruct body as [p|]; [|done]. by destruct (object_path_ok p); [|done]; intros [= <-].
  - by intros [= <-].
  - by intros [= <-].
  - destruct body as [z|]; [|done]. destruct (z <=? 0); [done|]. intros [= <-] Hd.
    unfold typed, payload_typed. cbn [or_type or_payload plain_order]. by rewrite decode_encode_ScheduleInform.
  - destruct body as [[|a l]|]; try done. destruct (forallb _ _) eqn:E; [|done]. intros [= <-] _. by apply typed_attributes.
  - destruct body as [[|a l]|]; try done. intros [= <-] _.
    unfold typed, payload_typed. cbn [or_type or_payload plain_order]. by rewrite decode_encode_GetParameterAttributes.
  - destruct body as [z|]; [|done]. intros [= <-] Hd. by apply typed_connection.
  - destruct (cellularDiagnosticPaths _ _) as [[v [|x l]] q]; [done|]. intros [= <-] _. apply typed_get.
  - intros [= <-] _. apply typed_get.
Qed.

(** ** Any request *)

(** C13: whatever an operator asks of one of the eighteen endpoints of [JobRequest],
    no job changes or goes away, and every job that appears is queued, for a device
    that exists and is in the caller's scope (for a template, also of the template's
    own customer), signed by the caller, and writes no protected parameter.  The
    endpoints left out are named at [JobRequest]; one of them, the rotation of a
    credential, writes protected parameters on purpose. *)
Theorem operator_jobs_stay_in_scope r tab id :
  serve r tab !! id = tab !! id ∨
  tab !! id = None ∧ ∃ j, serve r tab !! id = Some j ∧ Status j = StatusQueued ∧ may_reach r (DeviceID j) ∧
    CreatedBy j = author r ∧
    ∀ p w, Type_ j = TypeSetParameter → decode_SetParameter (Payload j) = Some p → w ∈ sp_Parameters p →
           ProtectedReason (pw_Name w) = None.
Proof.
  destruct (serve_adds r tab id) as [|(Hn & j & Hj & (Hr & Hb & Hs & Hp) & _)]; [by left|]. right. split; [done|].
  exists j. do 4 (split; [done|]). intros p w Ht Hd Hw. unfold checkProtectedWrite in Hp. rewrite Ht, Hd in Hp.
  change (CheckProtected (pw_Name <$> sp_Parameters p) = None) in Hp. rewrite CheckProtected_none in Hp. by apply Hp, list_elem_of_fmap_2.
Qed.

(** C14: every job one of the eighteen endpoints of [JobRequest] queues carries a
    payload of its type, and the gateway renders it as an RPC, except for a
    connection request, which is not an RPC and goes to another worker. *)
Theorem operator_jobs_render r tab id j :
  decoded r = true → serve r tab !! id = Some j → tab !! id = None →
  payload_typed (Type_ j) (Payload j) = true ∧
  (Type_ j ≠ TypeConnectionRequest → is_Some (renderJobRequest id j)).
Proof.
  intros Hd Hj Hn. destruct (serve_adds r tab id) as [E|(_ & j' & Hj' & _ & Ht)]; [congruence|].
  rewrite Hj in Hj'. injection Hj' as <-. split; [by apply Ht|]. apply typed_job_renders. by apply Ht.
Qed.

(** ** What a fleet action reports *)

(** The key is none, or that of a job the action queued for the device. *)
Definition reports (tab tab' : gmap string Job) (dev key : string) : Prop :=
  key = "" ∨ ∃ id j, tab !! id = None ∧ tab' !! id = Some j ∧ CommandKey j = key ∧ DeviceID j = dev.

Definition reported (tab tab' : gmap string Job) (x : bulkActionResult) : Prop :=
  reports tab tab' (br_DeviceID x) (br_CommandKey x) ∧ reports tab tab' (br_DeviceID x) (br_RefreshCommandKey x).

Lemma create_job_ok devices fr now dev t payload by_ m tab j tab' :
  create_job devices fr now dev t payload by_ m tab = (Ok j, tab') → reports tab tab' dev (CommandKey j).
Proof.
  unfold create_job, CreateWithMaxAttempts, insert_job, unique_ok. intros H. right. exists (ID j), j.
  destruct (checkProtectedWrite _ _ _); [done|]. set (new := new_job _ _ _ _ _ _ _ _ _) in H.
  destruct (tab !! ID new) eqn:E; cbn [is_some negb andb] in H; [done|].
  destruct (forallb _ _); [|done]. destruct (is_some _); [|done]. injection H as <- <-. by rewrite lookup_insert_eq.
Qed.

Lemma bulk_create_reported fr dev by_ o detail tab :
  let r := bulk_create env fr dev by_ o detail tab in br_DeviceID r.1 = dev ∧ reported tab r.2 r.1.
Proof.
  unfold bulk_create. destruct (create_job _ _ _ _ _ _ _ _ _) as [[j|e] tab'] eqn:E; cbn.
  - split; [done|]. split; [by eapply create_job_ok|by left].
  - by repeat split; left.
Qed.

Lemma bulk_error_reported tab dev e : reported tab tab (bulk_error dev e).
Proof. by split; left. Qed.

Lemma bulk_act_reported kind fr dev tab :
  let r := bulk_act dict rng env kind fr dev tab in br_DeviceID r.1 = dev ∧ reported tab r.2 r.1.
Proof.
  destruct kind as [p|s|z|]; cbn [bulk_act].
  - unfold bulk_write. destruct (validateWritableParameters _ _ _ _); [split; [done|apply bulk_error_reported]|].
    apply bulk_create_reported.
  - unfold bulkSetWiFi. destruct (ae_devices env !! dev) as [d|]; [|split; [done|apply bulk_error_reported]].
    destruct (planWiFiWrites _ _ _ _ _ _) as [p detail|refresh|e]; [apply bulk_create_reported| |split; [done|apply bulk_error_reported]].
    destruct (create_job _ _ _ _ _ _ _ _ _) as [[j|e] tab'] eqn:E; cbn; (split; [done|]); split; try by left.
    by eapply create_job_ok.
  - apply bulk_create_reported.
  - unfold bulk_refresh_cellular. destruct (ae_devices env !! dev) as [d|]; [|split; [done|apply bulk_error_reported]].
    destruct (cellularDiagnosticPaths _ _) as [[v [|x l]] q]; [split; [done|apply bulk_error_reported]|apply bulk_create_reported].
Qed.

Lemma reported_later P t0 t1 t2 t3 x :
  adds_only P t0 t1 → adds_only P t2 t3 → reported t1 t2 x → reported t0 t3 x.
Proof.
  intros H0 H3 [Ha Hb]. split; [destruct Ha as [|(id & j & Hn & Hj & Hk)]|destruct Hb as [|(id & j & Hn & Hj & Hk)]];
    try (by left); right; exists id, j;
    (split; [destruct (H0 id) as [E|(_ & ? & ? & _)]; congruence|]);
    (split; [destruct (H3 id) as [E|(E & _)]; congruence|done]).
Qed.

Lemma bulk_each_reported P reach act n ids tab :
  (∀ dev fr t, reach dev = true → adds_only P t (act fr dev t).2) →
  (∀ dev fr t, reach dev = true → br_DeviceID (act fr dev t).1 = dev ∧ reported t (act fr dev t).2 (act fr dev t).1) →
  let r := bulk_each env reach act n ids tab in br_DeviceID <$> r.1 = ids ∧ ∀ x, x ∈ r.1 → reported tab r.2 x.
Proof.
  intros Ha Hr. revert n tab. induction ids as [|dev ids IH]; intros n tab.
  { split; [done|]. by intros x ?%not_elem_of_nil. }
  pose proof (bulk_each_adds P reach act (S n) ids) as Hl. specialize (IH (S n)). cbv zeta in *. cbn [bulk_each].
  set (r := if reach dev then _ else _).
  assert (adds_only P tab r.2 ∧ br_DeviceID r.1 = dev ∧ reported tab r.2 r.1) as (H1 & H2 & H3).
  { subst r. destruct (reach dev) eqn:E; [by eauto|]. repeat split; [apply adds_only_refl|by left|by left]. }
  destruct r as [x1 t1]. cbn [fst snd] in *. specialize (IH t1). specialize (Hl t1 Ha).
  destruct (bulk_each _ _ _ _ _ _) as [xs t2]. cbn [fst snd] in *. destruct IH as [<- IH].
  rewrite fmap_cons, H2. split; [done|]. intros x [->|Hx]%elem_of_cons.
  - eapply reported_later; [apply adds_only_refl|exact Hl|exact H3].
  - eapply reported_later; [exact H1|apply adds_only_refl|]. by apply IH.
Qed.

Lemma bulk_kind_refuses req r : bulk_kind dict req = inl r → ∃ status e, r = Refused status e.
Proof. unfold bulk_kind. intros H. repeat case_match; simplify_eq; eauto. Qed.

(** A fleet action that is accepted reports on every device asked for, once and in
    order, at most 500 of them; each key it reports is that of a job it queued for
    that very device. *)
Theorem bulk_action_reports_every_device body tab status results tab' :
  bulkAction dict rng order env body tab = (Replied status results, tab') →
  ∃ req targets, body = Some req ∧
    targets = (if bool_decide (ba_DeviceIDs req = []) && negb (String.eqb (ba_GroupID req) "")
               then MemberDeviceIDs order (ba_GroupID req) (ae_groups env) else ba_DeviceIDs req) ∧
    br_DeviceID <$> results = targets ∧ (1 <= length results <= 500)%nat ∧
    ∀ x, x ∈ results → reported tab tab' x.
Proof.
  unfold bulkAction, bulk_targets. destruct body as [req|]; [|done]. cbv zeta. set (targets := if _ && _ then _ else _).
  destruct (bool_decide_reflect (targets = [])) as [|Hne]; [done|].
  destruct (Nat.ltb_spec maxBulkDevices (length targets)) as [|Hm]; [done|].
  destruct (bulk_kind _ _) as [r|kind] eqn:Ek; [by destruct (bulk_kind_refuses _ _ Ek) as (? & ? & ->)|].
  destruct (ae_scope env) as [[customers confined]|]; [|done].
  pose proof (bulk_each_reported (λ _, True) (in_scope env confined customers) (bulk_act dict rng env kind) 0 targets tab) as H.
  cbv zeta in H. destruct (bulk_each _ _ _ _ _ _) as [xs t] eqn:E. intros [= <- <- <-]. exists req, targets.
  destruct H as [H1 H2]; [intros; by apply bulk_act_adds|intros; apply bulk_act_reported|].
  cbn [fst snd] in *. do 3 (split; [done|]). split; [|exact H2]. rewrite <- (length_fmap br_DeviceID), H1. unfold maxBulkDevices in Hm.
  destruct targets; [done|]. simpl in *. lia.
Qed.

(** ** Writes *)

Lemma build_write_ok p w :
  build_write dict p = Ok w →
  pi_Name p ≠ "" ∧ pw_Name w = pi_Name p ∧ pw_Value w = pi_Value p ∧ pw_SecretHandle w = pi_SecretHandle p ∧
  (pi_SecretHandle p ≠ "" → pi_Value p = "") ∧
  (pi_SecretHandle p = "" → HasPrefix (pi_Name p) "Device." = true →
     ∃ d, dict = Ok d ∧ ValidateValue d (pi_Name p) (pi_Value p) = None).
Proof.
  unfold build_write. destruct (String.eqb_spec (pi_Name p) ""); [done|].
  destruct (String.eqb_spec (pi_SecretHandle p) "") as [Eh|Eh]; cbn [negb].
  - rewrite Eh. destruct (HasPrefix (pi_Name p) "Device."); [|by intros [= <-]].
    destruct dict as [d|]; [|done]. destruct (ValidateValue _ _ _) eqn:E; [done|]. intros [= <-].
    do 5 (split; [done|]). eauto.
  - destruct (String.eqb_spec (pi_Value p) "") as [->|]; [|done]. by intros [= <-].
Qed.

Lemma build_writes_ok inputs ws : build_writes dict inputs = Ok ws → Forall2 (λ p w, build_write dict p = Ok w) inputs ws.
Proof.
  revert ws. induction inputs as [|p inputs IH]; intros ws; simpl; [by intros [= <-]|].
  destruct (build_write dict p) as [w|] eqn:E; simpl; [|done]. destruct (build_writes dict inputs) as [ws'|]; simpl; [|done].
  intros [= <-]. constructor; auto.
Qed.

Lemma buildSetParameterPayload_ok inputs p :
  buildSetParameterPayload dict inputs = Ok p →
  inputs ≠ [] ∧ Forall2 (λ i w, build_write dict i = Ok w) inputs (sp_Parameters p) ∧ p = verified (sp_Parameters p).
Proof.
  destruct inputs as [|i l]; [done|]. unfold buildSetParameterPayload. cbv beta iota.
  destruct (build_writes dict (i :: l)) as [ws|] eqn:E; [|done]. cbn. intros [= <-]. split; [done|].
  split; [by apply build_writes_ok|done].
Qed.

(** Discovery, where it has run, found the parameter writable: itself, or its
    template together with a live proof of every instance on the path. *)
Definition discovered_writable (id name : string) : Prop :=
  ∀ names stale, GetNames (ae_params env) id = Some (names, stale) →
  names !! name = Some true ∨
  names !! name = None ∧ names !! NormalizePath name = Some true ∧
  RequireInstances name (Firmware (GetCache (ae_params env) id)) (evidence_of (ae_params env) id) (ae_now env) = None.

Lemma writable_parameters_ok id p :
  validateWritableParameters (ae_params env) (ae_now env) id p = None →
  ∀ w, w ∈ sp_Parameters p → discovered_writable id (pw_Name w).
Proof.
  unfold validateWritableParameters, validateDiscoveredWritableParameters, discovered_writable. intros H w Hw names stale E.
  rewrite E in H. destruct (first_error (undiscovered _) _) eqn:E1; [done|]. rewrite first_error_spec in E1, H.
  specialize (E1 w Hw). specialize (H w Hw). unfold undiscovered in E1. unfold unproven_instance in H.
  destruct (names !! pw_Name w) as [[]|]; [by left| |].
  - by destruct (names !! NormalizePath (pw_Name w)) as [[]|].
  - right. split; [done|]. destruct (names !! NormalizePath (pw_Name w)) as [[]|]; try done. split; [done|].
    cbn [is_some] in H. by destruct (RequireInstances _ _ _ _).
Qed.

Lemma forall2_left {A B} (P : A → B → Prop) l k x : Forall2 P l k → x ∈ l → ∃ y, y ∈ k ∧ P x y.
Proof.
  intros H Hx. apply list_elem_of_lookup in Hx as [i Hi]. destruct (Forall2_lookup_l _ _ _ _ _ H Hi) as (y & Hy & HP).
  exists y. split; [by eapply list_elem_of_lookup_2|done].
Qed.

(** C23: a parameter write that is accepted names only parameters that are not
    protected and, when a discovery of the device is on record, only ones it found
    writable; without one any other path is accepted.  The value of a name the
    dictionary knows (its names start with Device.) is inside that entry's value
    space; other values are not checked.  A secret handle comes from the BSS
    adapter and replaces the value. *)
Theorem accepted_write_is_checked id key body tab status q tab' :
  putParameters hash dict env id key body tab = (Replied status q, tab') →
  ∃ inputs, body = Some inputs ∧ inputs ≠ [] ∧ ∀ i, i ∈ inputs →
    pi_Name i ≠ "" ∧ ProtectedReason (pi_Name i) = None ∧ discovered_writable id (pi_Name i) ∧
    (pi_SecretHandle i ≠ "" →
       pi_Value i = "" ∧ ∀ c, ae_claims env = Some c → cl_Subject c = serviceSubject) ∧
    (pi_SecretHandle i = "" → HasPrefix (pi_Name i) "Device." = true →
       ∃ d, dict = Ok d ∧ ∀ e, Lookup d (pi_Name i) = Some e →
         en_Kind e = "parameter" ∧ ∀ item, item ∈ value_items e (pi_Value i) → conforms e item).
Proof.
  unfold putParameters. destruct (scoped_device _ _ _) as [r|d] eqn:Es.
  { unfold scoped_device, scoped in Es. intros [= -> ->]. by repeat case_match. }
  destruct body as [inputs|]; [|done]. destruct (handle_refused env inputs) eqn:Eh; [done|].
  destruct (buildSetParameterPayload dict inputs) as [p|] eqn:Eb; [|done].
  apply buildSetParameterPayload_ok in Eb as (Hne & Hf & _).
  destruct (write_refused env id p) as [r|] eqn:Er.
  { unfold write_refused in Er. destruct (refuseProtectedWrite _); [by simplify_eq|].
    destruct (validateWritableParameters _ _ _ _); by simplify_eq/=. }
  intros _. exists inputs. do 2 (split; [done|]). intros i Hi.
  destruct (forall2_left _ _ _ _ Hf Hi) as (w & Hw & Hb). apply build_write_ok in Hb as (Hn & En & _ & _ & Hh & Hv).
  unfold write_refused, refuseProtectedWrite in Er. destruct (CheckProtected _) eqn:Ec; [done|]. cbn [fmap option_fmap option_map] in Er.
  rewrite CheckProtected_none in Ec. destruct (validateWritableParameters _ _ _ _) eqn:Ev; [done|].
  pose proof (writable_parameters_ok _ _ Ev w Hw) as Hd. rewrite En in Hd. split; [done|]. split; [|split; [done|split]].
  - rewrite <- En. by apply Ec, list_elem_of_fmap_2.
  - intros Hs. split; [by apply Hh|]. intros c Ecl. unfold handle_refused in Eh. rewrite Ecl in Eh.
    destruct (String.eqb_spec (cl_Subject c) serviceSubject) as [|]; [done|]. cbn in Eh. rewrite andb_true_r in Eh.
    assert (hasSecretHandle inputs = true); [|congruence]. apply existsb_elem. exists i. split; [done|].
    by apply negb_true_iff, String.eqb_neq.
  - intros Hs Hp. destruct (Hv Hs Hp) as (dd & Ed & Hval). exists dd. split; [done|]. by apply accepted_values_conform.
Qed.
End Serve.

(** ** Concrete requests *)

Definition w_plane_device (id : string) (customer : option string) : Device :=
  mkDevice (mkIdentity id ("k-" ++ id) "oui" "pc" "sn" 0) "Acme" (mkPresence StOnline None [] None None)
    (mkOwnership customer None [] None) no_reach RootDevice2 None AuthModeNone no_profile [] 0.

Definition w_nth (n : nat) : Fresh := mkFresh ("id-" ++ Itoa (Z.of_nat n)) "20260101" ("r-" ++ Itoa (Z.of_nat n)).

Definition w_env : ApiEnv :=
  mkApiEnv (Ok (["c-1"], true)) None 5 w_nth
    {["d-1" := w_plane_device "d-1" (Some "c-1"); "d-2" := w_plane_device "d-2" (Some "c-2")]} no_params
    (mkGroups ∅ ∅) ∅ [].

Definition w_dict : result Dictionary :=
  Ok (mkDictionary "" "" "cwmp" "2.21"
        {["Device.A.{i}.N" := mkEntry "" "parameter" "" "" "unsignedInt" "" (mkConstraints [] [mkRange "1" "10"] [] true)]}).
Definition w_rng (_ : string) (names : gmap string bool) : list (string * bool) := map_to_list names.
Definition w_serve : JobRequest → gmap string Job → gmap string Job :=
  serve (λ _, "h") w_dict w_rng id (λ _, None) "" w_env.
Definition w_ping : JobRequest := ReqScheduleInform "d-1" (Some 60).

(** A fleet action on a device of the caller and one of another customer. *)
Definition w_bulk : option bulkActionRequest :=
  Some (mkBulkAction ["d-1"; "d-2"; "d-1"] "" "CONNECTION_REQUEST" [] 30 (mkWifiSettings "" "" None)).

Lemma operator_jobs_render_witness :
  is_Some (w_serve w_ping ∅ !! "id-0") ∧
  ∀ j, w_serve w_ping ∅ !! "id-0" = Some j → is_Some (renderJobRequest "id-0" j).
Proof.
  split; [vm_compute; eauto|]. intros j Hj.
  destruct (operator_jobs_render (λ _, "h") w_dict w_rng id (λ _, None) "" w_env w_ping ∅ "id-0" j) as [_ H];
    [reflexivity|exact Hj|reflexivity|]. apply H. revert Hj. vm_compute. intros [= <-]. discriminate.
Defined.

Lemma bulk_action_reports_every_device_witness :
  ∃ results tab', bulkAction w_dict w_rng id w_env w_bulk ∅ = (Replied 202 results, tab') ∧
    br_DeviceID <$> results = ["d-1"; "d-2"; "d-1"] ∧ br_Error <$> results = [""; "not found"; ""].
Proof.
  destruct (bulkAction w_dict w_rng id w_env w_bulk ∅) as [[status e|status results] tab'] eqn:E;
    [revert E; vm_compute; discriminate|].
  destruct (bulk_action_reports_every_device w_dict w_rng id w_env w_bulk ∅ status results tab' E)
    as (req & targets & [= <-] & -> & Hd & _).
  assert (status = 202 ∧ br_Error <$> results = [""; "not found"; ""]) as [-> He]
    by (revert E; vm_compute; by intros [= <- <- _]).
  exists results, tab'. split; [reflexivity|]. split; [|exact He]. by rewrite Hd, bool_decide_eq_false_2.
Defined.

Lemma accepted_write_is_checked_witness :
  ∃ q tab', putParameters (λ _, "h") w_dict w_env "d-1" "" (Some [mkParameterInput "Device.A.1.N" "3,10" "" ""]) ∅
            = (Replied 202 q, tab') ∧ ProtectedReason "Device.A.1.N" = None.
Proof.
  destruct (putParameters (λ _, "h") w_dict w_env "d-1" "" (Some [mkParameterInput "Device.A.1.N" "3,10" "" ""]) ∅)
    as [[status e|status q] tab'] eqn:E; [revert E; vm_compute; discriminate|].
  destruct (accepted_write_is_checked (λ _, "h") w_dict w_env "d-1" "" _ ∅ status q tab' E) as (inputs & [= <-] & _ & H).
  destruct (H _ (list_elem_of_here _ _)) as (_ & Hp & _). exists q, tab'. split; [|exact Hp].
  assert (status = 202) as ->; [|done]. revert E. vm_compute. by intros [= <- _ _].
Defined.
