(* ===== verification/Schedules.v ===== *)
(** * Recurring jobs

    [internal/scheduler], its endpoints ([cmd/api/schedule_handlers.go]) and the
    worker that turns a due schedule into jobs ([cmd/api/schedule_worker.go]).
    [next_run_at] is the only clock of a schedule: it is set to now when the row
    is created and moved one interval past now by the statement that leases the
    row.  Audit records and log lines are not modelled. *)

From S2P Require Import Prelude GoStrings Json Protected JobModel JobStore Devices Adapters Policies ParamCache Render.
From S2P Require Import DiagPlan Gateway ApiWrites Operators Jwt Api ControlPlane ApiJobs.

(** ** The table *)

Definition TargetDevice : string := "DEVICE".
Definition TargetGroup : string := "GROUP".

(** [SchedulableJobTypeList]: the set, sorted. *)
Definition SchedulableJobTypes : list string := ["CONNECTION_REQUEST"; "DIAGNOSTICS_PING"; "GET_PARAMETER"; "SET_PARAMETER"].

Definition ErrIntervalTooShort : string := "interval_seconds must be at least 60".
Definition ErrScheduleNotFound : string := "scheduled job not found".
Definition MinIntervalSeconds : Z := 60.

Record ScheduledJob : Type := mkScheduledJob {
  sc_ID : string;
  sc_Name : string;
  sc_JobType : string;
  sc_TargetType : string;
  sc_TargetID : string;
  sc_Payload : json;
  sc_IntervalSeconds : Z;
  sc_Enabled : bool;
  sc_NextRunAt : GoTime;
  sc_LastRunAt : option GoTime;
  sc_CustomerID : option string;
  sc_CreatedBy : string;
  sc_CreatedAt : GoTime;
  sc_UpdatedAt : GoTime
}.

Abbreviation Schedules := (gmap string ScheduledJob).

(** The CHECK constraints of the table, the width of [interval_seconds], the
    foreign key on customers. *)
Definition schedule_row_ok (customers : gset string) (sj : ScheduledJob) : bool :=
  existsb (String.eqb (sc_JobType sj)) SchedulableJobTypes
  && existsb (String.eqb (sc_TargetType sj)) [TargetDevice; TargetGroup]
  && (60 <=? sc_IntervalSeconds sj) && (sc_IntervalSeconds sj <? 2 ^ 31)
  && customer_exists customers (sc_CustomerID sj).

(** [Repository.Create]; a payload that is absent is marshalled as null. *)
Definition CreateSchedule (uuid : string) (now : GoTime) (customers : gset string) (name jobType targetType targetID : string)
    (payload : option json) (intervalSeconds : Z) (customerID : option string) (createdBy : string) (tab : Schedules)
  : result ScheduledJob * Schedules :=
  if intervalSeconds <? MinIntervalSeconds then (Err ErrIntervalTooShort, tab)
  else
    let sj := mkScheduledJob uuid name jobType targetType targetID (default JNull payload) intervalSeconds true now None
                customerID createdBy now now in
    if schedule_row_ok customers sj && negb (is_some (tab !! uuid)) then (Ok sj, <[uuid := sj]> tab)
    else (Err "scan scheduled job", tab).

Definition DeleteSchedule (id : string) (tab : Schedules) : result unit * Schedules :=
  if is_some (tab !! id) then (Ok tt, delete id tab) else (Err ErrScheduleNotFound, tab).

Definition enable (enabled : bool) (now : GoTime) (sj : ScheduledJob) : ScheduledJob :=
  mkScheduledJob (sc_ID sj) (sc_Name sj) (sc_JobType sj) (sc_TargetType sj) (sc_TargetID sj) (sc_Payload sj)
    (sc_IntervalSeconds sj) enabled (sc_NextRunAt sj) (sc_LastRunAt sj) (sc_CustomerID sj) (sc_CreatedBy sj)
    (sc_CreatedAt sj) now.

Definition SetScheduleEnabled (id : string) (enabled : bool) (now : GoTime) (tab : Schedules) : result ScheduledJob * Schedules :=
  let tab' := (update_key id (λ _, true) (enable enabled now) tab).1 in
  (match tab' !! id with Some sj => Ok sj | None => Err ErrScheduleNotFound end, tab').

Definition due (now : GoTime) (sj : ScheduledJob) : bool := sc_Enabled sj && (sc_NextRunAt sj <=? now).

Definition advance (now : GoTime) (sj : ScheduledJob) : ScheduledJob :=
  mkScheduledJob (sc_ID sj) (sc_Name sj) (sc_JobType sj) (sc_TargetType sj) (sc_TargetID sj) (sc_Payload sj)
    (sc_IntervalSeconds sj) (sc_Enabled sj) (now + sc_IntervalSeconds sj * Second) (Some now) (sc_CustomerID sj)
    (sc_CreatedBy sj) (sc_CreatedAt sj) now.

(** One transaction; [locked] are the rows another one holds.  The row returned is
    the one read, before it is advanced. *)
Definition LeaseDue (locked : string → bool) (now : GoTime) (tab : Schedules) : option ScheduledJob * Schedules :=
  match oldest sc_NextRunAt (List.filter (λ sj, due now sj && negb (locked (sc_ID sj))) (rows tab)) with
  | None => (None, tab)
  | Some sj => (Some sj, (update_key (sc_ID sj) (λ _, true) (advance now) tab).1)
  end.

(** ** The endpoints *)

(** What the console is shown: the row, its payload redacted. *)
Definition toScheduledJobResponse (sj : ScheduledJob) : ScheduledJob :=
  mkScheduledJob (sc_ID sj) (sc_Name sj) (sc_JobType sj) (sc_TargetType sj) (sc_TargetID sj) (redact (sc_Payload sj))
    (sc_IntervalSeconds sj) (sc_Enabled sj) (sc_NextRunAt sj) (sc_LastRunAt sj) (sc_CustomerID sj) (sc_CreatedBy sj)
    (sc_CreatedAt sj) (sc_UpdatedAt sj).

Definition scopedScheduledJob {A} (env : ApiEnv) (tab : Schedules) (id : string) : Reply A + ScheduledJob :=
  scoped (ae_scope env) sc_CustomerID (tab !! id).

(** [csr_Payload]: [None] when the request has no payload. *)
Record createScheduledJobRequest : Type := mkCreateSchedule {
  csr_Name : string;
  csr_JobType : string;
  csr_TargetType : string;
  csr_TargetID : string;
  csr_Payload : option json;
  csr_IntervalSeconds : Z;
  csr_CustomerID : option string
}.

(** The payload is read for SET_PARAMETER only. *)
Definition schedule_payload_refused (req : createScheduledJobRequest) : option (Reply ScheduledJob) :=
  if negb (String.eqb (csr_JobType req) (type_name TypeSetParameter)) then None
  else match csr_Payload req ≫= decode_SetParameter with
       | None => Some (Refused 400 "payload must be a SET_PARAMETER payload")
       | Some p => (λ e, Refused 403 e) <$> refuseProtectedWrite (writeNames p)
       end.

(** The target exists, is in scope, and belongs to the customer of the schedule. *)
Definition schedule_target_refused (env : ApiEnv) (confined : bool) (ids : list string) (req : createScheduledJobRequest)
  : option (Reply ScheduledJob) :=
  let owned (what : string) (owner : option (option string)) :=
    if match owner with
       | None => true
       | Some c => (confined && negb (deviceInScope c ids)) || negb (sameCustomer c (csr_CustomerID req))
       end
    then Some (Refused 400 ("target " ++ what ++ " not found or outside customer_id")%string) else None in
  if String.eqb (csr_TargetType req) TargetDevice
  then owned "device" ((λ d, d_CustomerID (d_ownership d)) <$> ae_devices env !! csr_TargetID req)
  else if String.eqb (csr_TargetType req) TargetGroup
  then owned "group" (gr_CustomerID <$> gs_groups (ae_groups env) !! csr_TargetID req)
  else Some (Refused 400 "target_type must be DEVICE or GROUP").

Definition createScheduledJob (env : ApiEnv) (customers : gset string) (body : option createScheduledJobRequest)
    (tab : Schedules) : Reply ScheduledJob * Schedules :=
  match body with
  | None => (bad_json, tab)
  | Some req =>
      if existsb (λ s, String.eqb s "") [csr_Name req; csr_JobType req; csr_TargetType req; csr_TargetID req]
      then (Refused 400 "name, job_type, target_type, and target_id are required", tab)
      else if negb (existsb (String.eqb (csr_JobType req)) SchedulableJobTypes)
      then (Refused 400 ("job_type " ++ csr_JobType req ++ " cannot be scheduled; supported: "
                         ++ Join SchedulableJobTypes ", ")%string, tab)
      else match schedule_payload_refused req with
      | Some r => (r, tab)
      | None =>
          match owner_refused (ae_scope env) (csr_CustomerID req) with
          | Some r => (r, tab)
          | None =>
              let '(ids, confined) := match ae_scope env with Ok s => s | Err _ => ([], true) end in
              match schedule_target_refused env confined ids req with
              | Some r => (r, tab)
              | None =>
                  match CreateSchedule (fr_uuid (ae_fresh env 0)) (ae_now env) customers (csr_Name req) (csr_JobType req)
                          (csr_TargetType req) (csr_TargetID req) (csr_Payload req) (csr_IntervalSeconds req)
                          (csr_CustomerID req) (ae_operator env) tab with
                  | (Ok sj, tab') => (Replied 201 (toScheduledJobResponse sj), tab')
                  | (Err e, tab') => (if String.eqb e ErrIntervalTooShort then Refused 400 e
                                      else Refused 500 "internal error", tab')
                  end
              end
          end
      end
  end.

(** [order] puts the rows in the order of the statement. *)
Definition listScheduledJobs (order : list ScheduledJob → list ScheduledJob) (env : ApiEnv) (tab : Schedules)
  : Reply (list ScheduledJob) :=
  match ae_scope env with
  | Err _ => Refused 500 "internal error"
  | Ok (ids, confined) =>
      Replied 200 (toScheduledJobResponse <$>
        List.filter (λ sj, negb (confined && negb (deviceInScope (sc_CustomerID sj) ids))) (order (rows tab)))
  end.

Definition deleteScheduledJob (env : ApiEnv) (id : string) (tab : Schedules) : Reply unit * Schedules :=
  match scopedScheduledJob env tab id with
  | inl r => (r, tab)
  | inr _ => match DeleteSchedule id tab with
             | (Ok _, tab') => (Replied 204 tt, tab')
             | (Err _, tab') => (Refused 404 "not found", tab')
             end
  end.

Definition setScheduledJobEnabled (enabled : bool) (env : ApiEnv) (id : string) (tab : Schedules)
  : Reply ScheduledJob * Schedules :=
  match scopedScheduledJob env tab id with
  | inl r => (r, tab)
  | inr _ => match SetScheduleEnabled id enabled (ae_now env) tab with
             | (Ok sj, tab') => (Replied 200 (toScheduledJobResponse sj), tab')
             | (Err _, tab') => (Refused 404 "not found", tab')
             end
  end.

(** ** The worker *)

Definition schedulePollInterval : GoDuration := 10 * Second.

(** The payload of the row, by the type the row names; [None] also for a type the
    switch does not know. *)
Inductive FirePayload : Type :=
| FireSet (p : SetParameterPayload)
| FireGet (p : GetParameterPayload)
| FirePing (p : DiagnosticsPingPayload)
| FireConnect (timeoutSeconds : Z).

Definition fire_payload (sj : ScheduledJob) : option FirePayload :=
  if String.eqb (sc_JobType sj) (type_name TypeSetParameter) then FireSet <$> decode_SetParameter (sc_Payload sj)
  else if String.eqb (sc_JobType sj) (type_name TypeGetParameter) then FireGet <$> decode_GetParameter (sc_Payload sj)
  else if String.eqb (sc_JobType sj) (type_name TypeDiagnosticsPing) then FirePing <$> decode_DiagnosticsPing (sc_Payload sj)
  else if String.eqb (sc_JobType sj) (type_name TypeConnectionRequest)
  then FireConnect <$> decode_ConnectionRequest (sc_Payload sj)
  else None.

Definition scheduledPingPayload (p : DiagnosticsPingPayload) (d : Device) (names : option (gmap string bool))
  : PlanError + DiagnosticsPingPayload :=
  let p := ApplyPingDefaults (mkDiagnosticsPingPayload (ping_Host p) (ping_NumberOfRepetitions p) (ping_Timeout p)
             (ping_DataBlockSize p) (ping_DSCP p) (DiagnosticsPrefix (d_DataModelRoot d) DiagnosticPing) no_plan) in
  match PlanPing names p with inl e => inl e | inr (_, p) => inr p end.

Section Worker.
Context (order : list string → list string) (env : ApiEnv).

(** The devices a schedule means now: its own customer's only, unless it has none. *)
Definition fire_targets (sj : ScheduledJob) : option (list string) :=
  let candidates :=
    if String.eqb (sc_TargetType sj) TargetDevice then Some [sc_TargetID sj]
    else if String.eqb (sc_TargetType sj) TargetGroup then Some (MemberDeviceIDs order (sc_TargetID sj) (ae_groups env))
    else None in
  match sc_CustomerID sj with
  | None => candidates
  | Some c => List.filter (λ id, match ae_devices env !! id with
                                 | Some d => sameCustomer (d_CustomerID (d_ownership d)) (Some c)
                                 | None => false
                                 end) <$> candidates
  end.

(** The job for one device; [None] skips the device. *)
Definition fire_order (payload : FirePayload) (dev : string) : option Order :=
  match payload with
  | FireSet p => Some (set_order p)
  | FireGet p => Some (plain_order TypeGetParameter (encode_GetParameter p))
  | FireConnect t => Some (plain_order TypeConnectionRequest (encode_ConnectionRequest t))
  | FirePing p =>
      match ae_devices env !! dev with
      | None => None
      | Some d =>
          match scheduledPingPayload p d (discoveredNames env dev) with
          | inl _ => None
          | inr p => Some (mkOrder TypeDiagnosticsPing (encode_DiagnosticsPing p) DiagnosticsMaxAttempts [])
          end
      end
  end.

Fixpoint fire_each (by_ : string) (payload : FirePayload) (n : nat) (ids : list string) (tab : gmap string Job)
  : nat * gmap string Job :=
  match ids with
  | [] => (0%nat, tab)
  | dev :: rest =>
      match fire_order payload dev with
      | None => fire_each by_ payload (S n) rest tab
      | Some o =>
          match create_job (ae_devices env) (ae_fresh env n) (ae_now env) dev (or_type o) (or_payload o) by_ (or_max o) tab with
          | (Ok _, tab') => let '(k, tab2) := fire_each by_ payload (S n) rest tab' in (S k, tab2)
          | (Err _, tab') => fire_each by_ payload (S n) rest tab'
          end
      end
  end.

(** How many jobs were created, and the table. *)
Definition fire (sj : ScheduledJob) (tab : gmap string Job) : nat * gmap string Job :=
  match fire_targets sj with
  | None => (0%nat, tab)
  | Some ids =>
      match fire_payload sj with
      | None => (0%nat, tab)
      | Some payload => fire_each ("scheduler:" ++ sc_Name sj) payload 0 ids tab
      end
  end.
End Worker.

(** ** Runs

    What may happen to the table, in any order: a tick of some replica's worker,
    an operator's request. *)
Inductive Op : Type :=
| OpTick (locked : string → bool)
| OpCreate (env : ApiEnv) (customers : gset string) (body : option createScheduledJobRequest)
| OpEnable (enabled : bool) (env : ApiEnv) (id : string)
| OpDelete (env : ApiEnv) (id : string).

(** The row a tick leased, and the table after. *)
Definition apply_op (now : GoTime) (op : Op) (tab : Schedules) : option ScheduledJob * Schedules :=
  match op with
  | OpTick locked => LeaseDue locked now tab
  | OpCreate env customers body => (None, (createScheduledJob env customers body tab).2)
  | OpEnable enabled env id => (None, (setScheduledJobEnabled enabled env id tab).2)
  | OpDelete env id => (None, (deleteScheduledJob env id tab).2)
  end.

(** The log of the leases, in order, with their instants, and the table. *)
Fixpoint run_ops (ops : list (GoTime * Op)) (tab : Schedules) : list (GoTime * ScheduledJob) * Schedules :=
  match ops with
  | [] => ([], tab)
  | (now, op) :: rest =>
      let '(fired, tab1) := apply_op now op tab in
      let '(log, tab2) := run_ops rest tab1 in
      (match fired with Some sj => (now, sj) :: log | None => log end, tab2)
  end.
