(* ===== verification/ScheduleTheorems.v ===== *)
(** * What schedules promise

    A schedule never fires twice within its interval, whatever replicas tick and
    whatever operators do meanwhile; one that is due fires within as many ticks
    as there are schedules; what it queues is for devices of its own customer, is
    readable by the dispatcher and writes no protected parameter. *)

From S2P Require Import Prelude GoStrings Json Protected JobModel JobStore Devices Adapters Policies ParamCache Render.
From S2P Require Import DiagPlan Gateway ApiWrites Operators Jwt Api ControlPlane ApiJobs ApiJobsTheorems Schedules.

(** ** The table *)

(** Every row is stored under its own key with an interval of a minute or more. *)
Definition schedules_ok (tab : Schedules) : Prop :=
  map_Forall (λ id sj, sc_ID sj = id ∧ MinIntervalSeconds <= sc_IntervalSeconds sj < 2 ^ 31) tab.

Lemma LeaseDue_some locked now tab sj tab' :
  schedules_ok tab → LeaseDue locked now tab = (Some sj, tab') →
  tab !! sc_ID sj = Some sj ∧ due now sj = true ∧ tab' = <[sc_ID sj := advance now sj]> tab ∧
  ∀ s, s ∈ rows tab → due now s = true → locked (sc_ID s) = false → sc_NextRunAt sj <= sc_NextRunAt s.
Proof.
  intros Hok. unfold LeaseDue. destruct (oldest _ _) as [s|] eqn:E; [|done]. intros [= -> <-].
  pose proof (oldest_le _ _ _ E) as Hle. apply oldest_elem, list_elem_of_In, filter_In in E as [Hin Hd].
  apply list_elem_of_In, elem_of_rows in Hin as [k Hk]. destruct (Hok _ _ Hk) as [<- _]. bool_to_prop.
  split; [done|]. split; [done|]. split; [unfold update_key; by rewrite Hk|].
  intros s Hs Hds Hl. apply Hle. apply list_elem_of_In, filter_In. split; [by apply list_elem_of_In|]. by rewrite Hds, Hl.
Qed.

Lemma LeaseDue_none locked now tab tab' : LeaseDue locked now tab = (None, tab') → tab' = tab.
Proof. unfold LeaseDue. destruct (oldest _ _); [done|]. by intros [= <-]. Qed.

(** ** Creating *)

Definition target_owner (env : ApiEnv) (sj : ScheduledJob) : option (option string) :=
  if String.eqb (sc_TargetType sj) TargetDevice then (λ d, d_CustomerID (d_ownership d)) <$> ae_devices env !! sc_TargetID sj
  else gr_CustomerID <$> gs_groups (ae_groups env) !! sc_TargetID sj.

Lemma sameCustomer_eq a b : sameCustomer a b = true ↔ a = b.
Proof.
  destruct a as [x|], b as [y|]; simpl; try (split; congruence).
  rewrite String.eqb_eq. split; [by intros ->|congruence].
Qed.

Lemma schedule_target_ok env confined ids req sj :
  schedule_target_refused env confined ids req = None →
  sc_TargetType sj = csr_TargetType req → sc_TargetID sj = csr_TargetID req →
  target_owner env sj = Some (csr_CustomerID req).
Proof.
  unfold schedule_target_refused, target_owner. intros H -> ->. cbv zeta in H.
  destruct (String.eqb (csr_TargetType req) TargetDevice).
  - destruct (ae_devices env !! csr_TargetID req) as [d|]; [|done]. cbn in *.
    destruct (confined && _ || negb (sameCustomer _ _)) eqn:E; [done|]. bool_to_prop. f_equal. by apply sameCustomer_eq.
  - destruct (String.eqb (csr_TargetType req) TargetGroup); [|done].
    destruct (gs_groups (ae_groups env) !! csr_TargetID req) as [g|]; [|done]. cbn in *.
    destruct (confined && _ || negb (sameCustomer _ _)) eqn:E; [done|]. bool_to_prop. f_equal. by apply sameCustomer_eq.
Qed.

Lemma CreateSchedule_ok uuid now customers name jt tt' ti payload iv c by_ tab sj tab' :
  CreateSchedule uuid now customers name jt tt' ti payload iv c by_ tab = (Ok sj, tab') →
  tab !! uuid = None ∧ tab' = <[uuid := sj]> tab ∧ MinIntervalSeconds <= iv < 2 ^ 31 ∧
  sj = mkScheduledJob uuid name jt tt' ti (default JNull payload) iv true now None c by_ now now.
Proof.
  unfold CreateSchedule, schedule_row_ok. destruct (iv <? MinIntervalSeconds) eqn:Ei; [done|].
  set (row := mkScheduledJob _ _ _ _ _ _ _ _ _ _ _ _ _ _).
  destruct (_ && negb (is_some (tab !! uuid))) eqn:E; [|done]. intros [= <- <-].
  subst row. cbn [sc_IntervalSeconds] in E. bool_to_prop. destruct (tab !! uuid); [done|]. done.
Qed.

Lemma CreateSchedule_err uuid now customers name jt tt' ti payload iv c by_ tab e tab' :
  CreateSchedule uuid now customers name jt tt' ti payload iv c by_ tab = (Err e, tab') → tab' = tab.
Proof. unfold CreateSchedule. destruct (_ <? _); [by intros [= _ <-]|]. destruct (_ && _); [done|]. by intros [= _ <-]. Qed.

(** What a schedule that is stored has been checked for. *)
Record schedule_checked (env : ApiEnv) (sj : ScheduledJob) : Prop := {
  ck_scope : within_scope (ae_scope env) (sc_CustomerID sj);
  ck_target : target_owner env sj = Some (sc_CustomerID sj);
  ck_interval : MinIntervalSeconds <= sc_IntervalSeconds sj < 2 ^ 31;
  ck_due : sc_Enabled sj = true ∧ sc_NextRunAt sj = ae_now env;
  ck_type : sc_JobType sj ∈ SchedulableJobTypes;
  ck_write : sc_JobType sj = "SET_PARAMETER" →
             ∃ p, decode_SetParameter (sc_Payload sj) = Some p ∧ CheckProtected (pw_Name <$> sp_Parameters p) = None
}.

Lemma createScheduledJob_cases env customers body tab :
  let r := createScheduledJob env customers body tab in
  (∃ status e, r = (Refused status e, tab)) ∨
  ∃ sj, r = (Replied 201 (toScheduledJobResponse sj), <[sc_ID sj := sj]> tab) ∧
        sc_ID sj = fr_uuid (ae_fresh env 0) ∧ tab !! sc_ID sj = None ∧ schedule_checked env sj.
Proof.
  cbv zeta. unfold createScheduledJob. destruct body as [req|]; [|left; eauto].
  destruct (existsb _ [_; _; _; _]); [left; eauto|].
  destruct (existsb _ SchedulableJobTypes) eqn:Et; cbn [negb]; [|left; eauto].
  destruct (schedule_payload_refused req) as [r|] eqn:Ep.
  { left. unfold schedule_payload_refused in Ep. destruct (negb _); [done|].
    destruct (_ ≫= _); [destruct (refuseProtectedWrite _)|]; simplify_eq/=; eauto. }
  destruct (owner_refused (ae_scope env) (csr_CustomerID req)) as [r|] eqn:Eo.
  { left. unfold owner_refused in Eo. destruct (ae_scope env) as [[ids c]|]; [destruct (_ && _)|]; simplify_eq; eauto. }
  apply owner_allowed in Eo. pose proof Eo as (ids & confined & -> & _).
  destruct (schedule_target_refused env confined ids req) as [r|] eqn:Er.
  { left. unfold schedule_target_refused in Er. cbv zeta in Er. repeat case_match; simplify_eq; eauto. }
  destruct (CreateSchedule _ _ _ _ _ _ _ _ _ _ _ _) as [[sj|e] tab'] eqn:Ec.
  - apply CreateSchedule_ok in Ec as (Hn & -> & Hi & Es). right. exists sj.
    assert (sc_ID sj = fr_uuid (ae_fresh env 0)) as -> by (by rewrite Es). split; [done|]. do 2 (split; [done|]).
    split; rewrite Es; try done; cbn; [by eapply schedule_target_ok|by apply existsb_eqb|].
    intros Ej. unfold schedule_payload_refused in Ep. rewrite Ej in Ep. cbn [type_name] in Ep. rewrite String.eqb_refl in Ep.
    destruct (csr_Payload req) as [j|]; [|done]. cbn [negb mbind option_bind] in Ep.
    destruct (decode_SetParameter j) as [p|] eqn:Ed; [|done]. exists p. split; [exact Ed|]. unfold refuseProtectedWrite, writeNames in Ep. by destruct (CheckProtected _).
  - apply CreateSchedule_err in Ec as ->. left. destruct (String.eqb _ _); eauto.
Qed.

(** ** Pacing *)

(** The identifiers a run draws for new schedules. *)
Definition created (ops : list (GoTime * Op)) : list string :=
  omap (λ '(_, op), match op with OpCreate env _ _ => Some (fr_uuid (ae_fresh env 0)) | _ => None end) ops.

(** What an operation does to one row. *)
Inductive row_step (now : GoTime) (fired : option ScheduledJob) : option ScheduledJob → option ScheduledJob → Prop :=
| row_same o : row_step now fired o o
| row_enabled sj enabled at_ : row_step now fired (Some sj) (Some (enable enabled at_ sj))
| row_deleted sj : row_step now fired (Some sj) None
| row_leased sj : fired = Some sj → due now sj = true → row_step now fired (Some sj) (Some (advance now sj)).

Definition op_creates (op : Op) (id : string) : Prop := ∃ env customers body, op = OpCreate env customers body ∧ fr_uuid (ae_fresh env 0) = id.

Lemma apply_op_row now op tab id :
  schedules_ok tab → ¬ op_creates op id →
  row_step now (apply_op now op tab).1 (tab !! id) ((apply_op now op tab).2 !! id).
Proof.
  intros Hok Hc. destruct op as [locked|env customers body|enabled env i|env i]; cbn [apply_op].
  - destruct (LeaseDue locked now tab) as [[sj|] tab'] eqn:E; cbn [fst snd].
    + apply LeaseDue_some in E as (Hs & Hd & -> & _); [|done].
      destruct (decide (id = sc_ID sj)) as [->|]; [rewrite lookup_insert_eq, Hs; by constructor|].
      rewrite lookup_insert_ne by done. constructor.
    + apply LeaseDue_none in E as ->. constructor.
  - destruct (createScheduledJob_cases env customers body tab) as [(st & e & ->)|(sj & -> & Hi & _)]; cbn [snd]; [constructor|].
    rewrite lookup_insert_ne; [constructor|]. intros <-. apply Hc. by exists env, customers, body.
  - unfold setScheduledJobEnabled, SetScheduleEnabled. destruct (scopedScheduledJob _ _ _); cbn [snd]; [constructor|].
    set (tab' := (update_key _ _ _ _).1). assert (row_step now None (tab !! id) (tab' !! id)) as H.
    { subst tab'. rewrite lookup_update_key. case_decide; [|constructor]. destruct (tab !! id); constructor. }
    by destruct (tab' !! i).
  - unfold deleteScheduledJob, DeleteSchedule. destruct (scopedScheduledJob _ _ _); cbn [snd]; [constructor|].
    destruct (is_some (tab !! i)) eqn:E; cbn [snd]; [|constructor].
    destruct (decide (id = i)) as [->|]; [rewrite lookup_delete_eq|rewrite lookup_delete_ne by done; constructor].
    destruct (tab !! i); [constructor|done].
Qed.

(** A lease is of a row of the table that is due. *)
Lemma apply_op_fired now op tab sj :
  schedules_ok tab → (apply_op now op tab).1 = Some sj → tab !! sc_ID sj = Some sj ∧ due now sj = true ∧
  (apply_op now op tab).2 !! sc_ID sj = Some (advance now sj).
Proof.
  intros Hok. destruct op as [locked|env customers body|enabled env i|env i]; cbn [apply_op]; [|done..].
  destruct (LeaseDue locked now tab) as [o tab'] eqn:E; cbn [fst snd]. intros ->.
  apply LeaseDue_some in E as (Hs & Hd & -> & _); [|done]. by rewrite lookup_insert_eq.
Qed.

Lemma schedules_ok_op now op tab : schedules_ok tab → schedules_ok (apply_op now op tab).2.
Proof.
  intros Hok id sj Hj.
  assert ((∃ env customers body, op = OpCreate env customers body) ∨ ¬ op_creates op id) as [(env & customers & body & ->)|Hn].
  { destruct op; [right; by intros (? & ? & ? & ? & _)|left; eauto|right; by intros (? & ? & ? & ? & _)..]. }
  - cbn [apply_op snd] in Hj. destruct (createScheduledJob_cases env customers body tab)
      as [(st & e & E)|(s & E & _ & _ & Hk)]; rewrite E in Hj; cbn [snd] in Hj; [by apply Hok|].
    apply lookup_insert_Some in Hj as [[<- <-]|[_ Hj]]; [|by apply Hok]. split; [done|apply Hk].
  - pose proof (apply_op_row now op tab id Hok) as H. rewrite Hj in H.
    specialize (H Hn). destruct (tab !! id) as [s|] eqn:E; [|by inversion H].
    specialize (Hok _ _ E). by inversion H; subst.
Qed.

(** A schedule is not leased before its [next_run_at], also after pauses and
    whatever happens to the other schedules. *)
Lemma lease_not_before ops tab id b iv :
  schedules_ok tab → id ∉ created ops →
  (∀ sj, tab !! id = Some sj → b <= sc_NextRunAt sj ∧ sc_IntervalSeconds sj = iv) →
  ∀ t s, (t, s) ∈ (run_ops ops tab).1 → sc_ID s = id → b <= t ∧ sc_IntervalSeconds s = iv.
Proof.
  revert tab. induction ops as [|[now op] ops IH]; intros tab Hok Hn Hb t s Hin Hs; [by apply not_elem_of_nil in Hin|].
  assert (¬ op_creates op id ∧ id ∉ created ops) as [Hc Hn'].
  { split.
    - intros (env & customers & body & -> & <-). apply Hn. left.
    - intros H. apply Hn. unfold created in *. destruct op; cbn; try done. by right. }
  pose proof (apply_op_row now op tab id Hok Hc) as Hrow. pose proof (apply_op_fired now op tab) as Hfire.
  pose proof (schedules_ok_op now op tab Hok) as Hok'. cbn [run_ops] in Hin.
  destruct (apply_op now op tab) as [fired tab1]. cbn [fst snd] in *.
  assert (∀ sj, tab1 !! id = Some sj → b <= sc_NextRunAt sj ∧ sc_IntervalSeconds sj = iv) as Hb'.
  { intros sj Hj. rewrite Hj in Hrow. destruct (tab !! id) as [s0|] eqn:E; [|by inversion Hrow].
    destruct (Hb _ eq_refl). destruct (Hok _ _ E) as [_ Hi]. unfold MinIntervalSeconds, due in *.
    assert (0 <= sc_IntervalSeconds s0 * Second) by (apply Z.mul_nonneg_nonneg; [lia|done]).
    inversion Hrow; subst; [done|done|]. unfold due in *. bool_to_prop. cbn. lia. }
  specialize (IH tab1 Hok' Hn' Hb' t s). destruct (run_ops ops tab1) as [log tab2]. cbn [fst] in *.
  destruct fired as [sj|]; [|by apply IH]. apply elem_of_cons in Hin as [[= -> ->]|Hin]; [|by apply IH].
  destruct (Hfire sj Hok eq_refl) as (Hsj & Hd & _). rewrite Hs in Hsj. destruct (Hb _ Hsj). unfold due in Hd. bool_to_prop. lia.
Qed.

Lemma created_cons now op ops : created ops ⊆ created ((now, op) :: ops).
Proof. unfold created. destruct op; cbn; set_solver. Qed.

(** The identifiers in the table and those still to be drawn do not meet. *)
Definition fresh_for (tab : Schedules) (ops : list (GoTime * Op)) : Prop :=
  NoDup (created ops) ∧ ∀ id, id ∈ created ops → tab !! id = None.

Lemma fresh_for_step now op ops tab :
  schedules_ok tab → fresh_for tab ((now, op) :: ops) → fresh_for (apply_op now op tab).2 ops.
Proof.
  intros Hok [Hd Hf]. split; [destruct op; cbn in Hd; [|apply NoDup_cons in Hd as [_ Hd]|..]; exact Hd|].
  intros id Hid. assert (¬ op_creates op id) as Hc.
  { intros (env & customers & body & -> & <-). by apply NoDup_cons in Hd as [Hd _]. }
  pose proof (apply_op_row now op tab id Hok Hc) as H. rewrite (Hf id) in H by (by eapply created_cons).
  by inversion H.
Qed.

(** C22: two leases of one schedule, in a run of any operations of any replicas and
    operators from a table without schedules, are at least its interval apart,
    and that is a minute or more: pausing, resuming and the other schedules do
    not make it fire sooner. *)
Theorem schedule_fires_once_per_interval ops i j t1 s1 t2 s2 :
  let log := (run_ops ops ∅).1 in
  NoDup (created ops) → (i < j)%nat → log !! i = Some (t1, s1) → log !! j = Some (t2, s2) → sc_ID s1 = sc_ID s2 →
  t1 + sc_IntervalSeconds s1 * Second <= t2 ∧ MinIntervalSeconds <= sc_IntervalSeconds s1 ∧
  sc_IntervalSeconds s2 = sc_IntervalSeconds s1.
Proof.
  intros log Hd. subst log. assert (schedules_ok ∅ ∧ fresh_for ∅ ops) as [Hok Hf] by (split; [by apply map_Forall_empty|done]).
  clear Hd. revert Hok Hf i j. generalize (∅ : Schedules).
  induction ops as [|[now op] ops IH]; intros tab Hok Hf i j Hij H1 H2 Hid; [by destruct i|].
  pose proof (schedules_ok_op now op tab Hok) as Hok'. pose proof (fresh_for_step now op ops tab Hok Hf) as Hf'.
  pose proof (apply_op_fired now op tab s1 Hok) as Hfire. specialize (IH _ Hok' Hf'). cbn [run_ops] in H1, H2.
  destruct (apply_op now op tab) as [fired tab1]. cbn [fst snd] in *.
  pose proof (lease_not_before ops tab1 (sc_ID s1)) as Hn. destruct (run_ops ops tab1) as [log tab2]. cbn [fst] in *.
  destruct fired as [sj|]; [|by apply (IH i j)]. destruct i as [|i], j as [|j]; [lia| |lia|by apply (IH i j); [lia|..]].
  injection H1 as -> ->. destruct (Hfire eq_refl) as (Hs & _ & Ha). destruct (Hok _ _ Hs) as [_ Hi].
  destruct (Hn (t1 + sc_IntervalSeconds s1 * Second) (sc_IntervalSeconds s1) Hok') with (t := t2) (s := s2); try done.
  - intros Hc. apply Hf' in Hc. congruence.
  - intros sj Hj. rewrite Ha in Hj. by injection Hj as <-.
  - by eapply list_elem_of_lookup_2.
  - by destruct Hi.
Qed.

(** ** Every due schedule gets its turn *)

(** The schedules ahead of an instant, paused ones included. *)
Definition ahead (b : GoTime) (tab : Schedules) : Schedules := filter (λ kv, sc_NextRunAt kv.2 <= b) tab.

Lemma ahead_lease b now sj tab :
  tab !! sc_ID sj = Some sj → sc_NextRunAt sj <= b → b < now + sc_IntervalSeconds sj * Second →
  S (size (ahead b (<[sc_ID sj := advance now sj]> tab))) = size (ahead b tab).
Proof.
  intros Hs Hb Hn. unfold ahead. rewrite map_filter_insert_False by (cbn; lia).
  rewrite map_filter_delete.
  assert (filter (λ kv : string * ScheduledJob, sc_NextRunAt kv.2 <= b) tab !! sc_ID sj = Some sj) as H
    by (by apply map_lookup_filter_Some).
  rewrite map_size_delete_Some by eauto. destruct (size (filter _ tab)) eqn:E; [|lia].
  apply map_size_empty_inv in E. by rewrite E in H.
Qed.

Definition free (_ : string) : bool := false.
Definition ticks (l : list GoTime) : list (GoTime * Op) := (λ t, (t, OpTick free)) <$> l.

Lemma due_in_turn sj now l tab :
  schedules_ok tab → tab !! sc_ID sj = Some sj → due now sj = true → (∀ t, t ∈ l → now <= t) →
  (size (ahead (sc_NextRunAt sj) tab) <= length l)%nat →
  ∃ t, (t, sj) ∈ (run_ops (ticks l) tab).1.
Proof.
  revert tab. induction l as [|t l IH]; intros tab Hok Hs Hd Ht Hsize.
  { exfalso. assert (size (ahead (sc_NextRunAt sj) tab) = 0%nat) as H0 by (simpl in Hsize; lia). apply map_size_empty_inv in H0.
    assert (ahead (sc_NextRunAt sj) tab !! sc_ID sj = Some sj) as H by (by apply map_lookup_filter_Some). by rewrite H0 in H. }
  assert (due t sj = true) as Hdt.
  { unfold due in *. bool_to_prop. assert (now <= t) by (apply Ht; left). apply andb_true_iff. split; [done|]. apply Z.leb_le. lia. }
  pose proof (schedules_ok_op t (OpTick free) tab Hok) as Hok'. change (ticks (t :: l)) with ((t, OpTick free) :: ticks l).
  cbn [run_ops apply_op] in *. destruct (LeaseDue free t tab) as [[s|] tab'] eqn:E; cbn [fst snd] in *.
  2: { unfold LeaseDue in E. destruct (oldest _ _) eqn:Eo; [done|]. apply oldest_none in Eo.
       assert (In sj []) as []. rewrite <- Eo. apply filter_In. split; [|by rewrite Hdt].
       apply list_elem_of_In, elem_of_rows. eauto. }
  destruct (LeaseDue_some _ _ _ _ _ Hok E) as (Hs' & Hds & -> & Hmin).
  destruct (decide (sc_ID s = sc_ID sj)) as [Es|Hne].
  { assert (s = sj) as -> by congruence. exists t. destruct (run_ops _ _). left. }
  assert (sc_NextRunAt s <= sc_NextRunAt sj) as Hle by (apply Hmin; [apply elem_of_rows; eauto|done|done]).
  destruct (IH (<[sc_ID s := advance t s]> tab)) as [t' Ht']; [done|by rewrite lookup_insert_ne|done|intros; apply Ht; by right| |].
  - assert (sc_NextRunAt sj < t + sc_IntervalSeconds s * Second) as Hlt.
    { destruct (Hok _ _ Hs') as [_ Hi]. unfold due, MinIntervalSeconds in *. bool_to_prop.
      assert (0 < sc_IntervalSeconds s * Second) by (apply Z.mul_pos_pos; [lia|done]). lia. }
    pose proof (ahead_lease _ t s tab Hs' Hle Hlt) as Hsz. simpl in Hsize. lia.
  - exists t'. destruct (run_ops _ _). by right.
Qed.

(** A schedule that is due is leased within as many ticks of the worker as there
    are schedules, in the state in which it became due: one schedule is leased a
    tick, but none is overtaken twice. *)
Theorem due_schedule_is_leased sj now l tab :
  schedules_ok tab → tab !! sc_ID sj = Some sj → due now sj = true → (∀ t, t ∈ l → now <= t) →
  (size tab <= length l)%nat → ∃ t, (t, sj) ∈ (run_ops (ticks l) tab).1.
Proof.
  intros Hok Hs Hd Ht Hl. apply (due_in_turn sj now); try done.
  assert (size (ahead (sc_NextRunAt sj) tab) ≤ size tab)%nat; [|lia].
  apply map_subseteq_size, map_filter_subseteq.
Qed.

(** ** Firing *)

Lemma decode_int_range o z : decode_int o = Some z → in_int64 z = true.
Proof.
  unfold decode_int. destruct o as [[]|]; try done; try (by intros [= <-]).
  destruct (in_int64 z0) eqn:E; [|done]. by intros [= <-].
Qed.

Lemma decode_struct_some {A} (f : list (string * json) → option A) o a : decode_struct f o = Some a → ∃ m, f m = Some a.
Proof. unfold decode_struct. destruct o as [[]|]; try done; eauto. Qed.

Lemma decode_ping_ints j p : decode_DiagnosticsPing j = Some p → ping_ints p = true.
Proof.
  unfold decode_DiagnosticsPing. intros (m & (h & _ & (n & Hn & (t & Ht & (d & Hd & (q & Hq & (x & _ & (pl & _ & [= <-])%bind_Some)%bind_Some)%bind_Some)
    %bind_Some)%bind_Some)%bind_Some)%bind_Some)%decode_struct_some.
  unfold ping_ints. cbn. apply decode_int_range in Hn, Ht, Hd, Hq. by rewrite Hn, Ht, Hd, Hq.
Qed.

Lemma fire_order_typed env sj payload dev o :
  fire_payload sj = Some payload → fire_order env payload dev = Some o → typed o ∧ type_name (or_type o) = sc_JobType sj.
Proof.
  unfold fire_payload. destruct (String.eqb_spec (sc_JobType sj) (type_name TypeSetParameter)) as [->|].
  { intros (p & _ & ->)%fmap_Some [= <-]. split; [apply typed_set|done]. }
  destruct (String.eqb_spec (sc_JobType sj) (type_name TypeGetParameter)) as [->|].
  { intros (p & _ & ->)%fmap_Some [= <-]. split; [|done]. unfold typed, payload_typed.
    cbn [or_type or_payload plain_order]. by rewrite decode_encode_GetParameter. }
  destruct (String.eqb_spec (sc_JobType sj) (type_name TypeDiagnosticsPing)) as [->|].
  { intros (p & Hp & ->)%fmap_Some. unfold fire_order, scheduledPingPayload. destruct (ae_devices env !! dev) as [d|]; [|done].
    destruct (PlanPing _ _) as [|[plan p']] eqn:E; [done|]. intros [= <-]. split; [|done]. eapply typed_ping; [|done].
    apply ping_defaults_int64. by apply decode_ping_ints in Hp. }
  destruct (String.eqb_spec (sc_JobType sj) (type_name TypeConnectionRequest)) as [->|]; [|done].
  intros (z & Hz & ->)%fmap_Some [= <-]. split; [|done]. apply typed_connection.
  unfold decode_ConnectionRequest in Hz. apply decode_struct_some in Hz as [m Hz]. by eapply decode_int_range.
Qed.

(** What a schedule may queue in the state [env] it fires in. *)
Definition schedule_may_queue (order : list string → list string) (env : ApiEnv) (sj : ScheduledJob) (j : Job) : Prop :=
  (∃ d ids, ae_devices env !! DeviceID j = Some d ∧
     (sc_CustomerID sj ≠ None → d_CustomerID (d_ownership d) = sc_CustomerID sj) ∧
     fire_targets order env sj = Some ids ∧ DeviceID j ∈ ids) ∧
  type_name (Type_ j) = sc_JobType sj ∧ CreatedBy j = ("scheduler:" ++ sc_Name sj)%string ∧ Status j = StatusQueued ∧
  payload_typed (Type_ j) (Payload j) = true ∧ checkProtectedWrite false (Type_ j) (Payload j) = None.

Lemma fire_each_adds P env by_ payload n ids tab :
  (∀ dev o j, dev ∈ ids → fire_order env payload dev = Some o → inserted dev (or_type o) (or_payload o) by_ j →
              is_Some (ae_devices env !! dev) → P j) →
  adds_only P tab (fire_each env by_ payload n ids tab).2.
Proof.
  revert n tab. induction ids as [|dev ids IH]; intros n tab HP; cbn [fire_each]; [apply adds_only_refl|].
  assert (∀ n tab, adds_only P tab (fire_each env by_ payload n ids tab).2) as IH'.
  { intros. apply IH. intros ? ? ? ?. apply HP. by right. }
  destruct (fire_order env payload dev) as [o|] eqn:Eo; [|apply IH'].
  pose proof (create_job_adds (ae_devices env) (ae_fresh env n) (ae_now env) dev (or_type o) (or_payload o) by_ (or_max o) tab) as H.
  assert (adds_only P tab (create_job (ae_devices env) (ae_fresh env n) (ae_now env) dev (or_type o) (or_payload o) by_
                             (or_max o) tab).2) as H'.
  { eapply adds_only_mono; [|done]. intros j [Hj He]. eapply HP; eauto. left. }
  destruct (create_job _ _ _ _ _ _ _ _ _) as [[j|e] t]; cbn [snd] in H'.
  - specialize (IH' (S n) t). destruct (fire_each _ _ _ _ _ _) as [k t2]. by eapply adds_only_trans.
  - by eapply adds_only_trans.
Qed.

Lemma fire_targets_customer order env sj ids dev d :
  fire_targets order env sj = Some ids → dev ∈ ids → ae_devices env !! dev = Some d → sc_CustomerID sj ≠ None →
  d_CustomerID (d_ownership d) = sc_CustomerID sj.
Proof.
  unfold fire_targets. intros H Hin Hd Hc. destruct (sc_CustomerID sj) as [c|]; [|done].
  apply fmap_Some in H as (l & _ & ->). apply list_elem_of_In, filter_In in Hin as [_ H]. rewrite Hd in H. by apply sameCustomer_eq.
Qed.

(** When a schedule fires, at whatever time and however devices and groups have
    moved since, no job changes, and every job that appears is queued for a device
    it targets, of the schedule's own customer where it has one, of the
    schedule's type, signed with its name, readable by the dispatcher, and no
    write of a protected parameter. *)
Theorem schedules_stay_with_their_customer order env sj tab id :
  (fire order env sj tab).2 !! id = tab !! id ∨
  tab !! id = None ∧ ∃ j, (fire order env sj tab).2 !! id = Some j ∧ schedule_may_queue order env sj j.
Proof.
  revert id. change (adds_only (schedule_may_queue order env sj) tab (fire order env sj tab).2). unfold fire.
  destruct (fire_targets order env sj) as [ids|] eqn:Et; [|apply adds_only_refl].
  destruct (fire_payload sj) as [payload|] eqn:Ep; [|apply adds_only_refl]. apply fire_each_adds.
  intros dev o j Hin Ho [Hdev Hty Hpl Hby Hst Hpr] [d Hd]. destruct (fire_order_typed env sj payload dev o Ep Ho) as [H1 H2].
  unfold schedule_may_queue. rewrite Hdev, Hty, Hpl, Hby, Hst. repeat split; try done.
  exists d, ids. repeat split; try done. intros Hc. by eapply fire_targets_customer.
Qed.

(** ** Concrete runs *)

Definition w_request (jobType : string) (payload : option json) : createScheduledJobRequest :=
  mkCreateSchedule "nightly" jobType TargetDevice "d-1" payload 60 (Some "c-1").
Definition w_at (uuid : string) (now : GoTime) : ApiEnv :=
  mkApiEnv (ae_scope w_env) (ae_claims w_env) now (λ _, mkFresh uuid "" "") (ae_devices w_env) (ae_params w_env) (ae_groups w_env)
    (ae_templates w_env) (ae_catalogs w_env).
Definition w_create (uuid : string) (now : GoTime) : GoTime * Op :=
  (now, OpCreate (w_at uuid now) {["c-1"]} (Some (w_request "CONNECTION_REQUEST" None))).
Definition w_tick (now : GoTime) : GoTime * Op := (now, OpTick free).

(** Created at 0, ticked every ten seconds, paused and resumed. *)
Definition w_run : list (GoTime * Op) :=
  [w_create "s-1" 0; w_tick (10 * Second); w_tick (20 * Second);
   (25 * Second, OpEnable false (w_at "" 0) "s-1"); (26 * Second, OpEnable true (w_at "" 0) "s-1");
   w_tick (60 * Second); w_tick (70 * Second); w_tick (80 * Second)].

Lemma schedule_fires_once_per_interval_witness :
  let log := (run_ops w_run ∅).1 in
  fst <$> log = [10 * Second; 70 * Second] ∧
  ∀ s1 s2, log !! 0%nat = Some (10 * Second, s1) → log !! 1%nat = Some (70 * Second, s2) →
           10 * Second + sc_IntervalSeconds s1 * Second <= 70 * Second.
Proof.
  cbv zeta. split; [vm_compute; reflexivity|]. intros s1 s2 H1 H2.
  destruct (schedule_fires_once_per_interval w_run 0 1 (10 * Second) s1 (70 * Second) s2) as [H _]; [|lia|exact H1|exact H2| |exact H].
  - change (NoDup ["s-1"]). apply NoDup_singleton.
  - revert H1 H2. vm_compute. by intros [= <-] [= <-].
Defined.

Definition w_two : Schedules := (run_ops [w_create "s-1" 0; w_create "s-2" 5] ∅).2.

Lemma schedules_ok_run ops tab : schedules_ok tab → schedules_ok (run_ops ops tab).2.
Proof.
  revert tab. induction ops as [|[now op] ops IH]; intros tab Hok; [done|]. cbn [run_ops].
  pose proof (schedules_ok_op now op tab Hok) as H. destruct (apply_op now op tab) as [f tab1]. specialize (IH tab1 H).
  by destruct (run_ops ops tab1).
Qed.

Lemma due_schedule_is_leased_witness :
  ∃ sj, w_two !! "s-2" = Some sj ∧ due 7 sj = true ∧ ∃ t, (t, sj) ∈ (run_ops (ticks [7; 8]) w_two).1.
Proof.
  destruct (w_two !! "s-2") as [sj|] eqn:E; [|revert E; vm_compute; discriminate].
  assert (sc_ID sj = "s-2" ∧ due 7 sj = true) as [Hi Hd] by (revert E; vm_compute; by intros [= <-]).
  exists sj. split; [reflexivity|]. split; [exact Hd|]. apply (due_schedule_is_leased sj 7).
  - apply schedules_ok_run, map_Forall_empty.
  - rewrite Hi. exact E.
  - exact Hd.
  - intros t [->|[->|Ht%not_elem_of_nil]%elem_of_cons]%elem_of_cons; [lia|lia|done].
  - vm_compute. lia.
Defined.

(** A payload that no job of its type can have is stored and enabled, and the
    schedule then never queues anything. *)
Lemma schedule_that_never_fires :
  ∃ sj, (createScheduledJob (w_at "s-1" 0) {["c-1"]} (Some (w_request "GET_PARAMETER" (Some (JStr "x")))) ∅).2 !! "s-1" = Some sj ∧
        sc_Enabled sj = true ∧ ∀ order env tab, fire order env sj tab = (0%nat, tab).
Proof.
  eexists. split; [vm_compute; reflexivity|]. split; [done|]. intros order env tab. unfold fire. by destruct (fire_targets _ _ _).
Qed.

(** A schedule may carry a secret handle, which the write endpoint takes only from
    the BSS adapter. *)
Definition w_handle : SetParameterPayload :=
  mkSetParameterPayload "" false [] [mkParameterWrite "Device.WiFi.AccessPoint.1.Security.KeyPassphrase" "" "xsd:string" "h-1"] false false.

Lemma schedule_takes_a_secret_handle :
  (createScheduledJob (w_at "s-1" 0) {["c-1"]} (Some (w_request "SET_PARAMETER" (Some (encode_SetParameter w_handle)))) ∅).2 !! "s-1"
    ≠ None ∧
  handle_refused (mkApiEnv (Ok ([], false)) (Some (mkClaims "ann" "operator" 0 0 "" 0 [] [] false "")) 0 w_nth ∅ no_params (mkGroups ∅ ∅) ∅ [])
    [mkParameterInput "Device.WiFi.AccessPoint.1.Security.KeyPassphrase" "" "xsd:string" "h-1"] = true.
Proof. split; vm_compute; congruence. Qed.
