(* ===== verification/Bss.v ===== *)
(** * The tables of the BSS adapter

    [internal/bss]: orders with their dispatch outbox ([order.go]), which device
    serves which account in which role ([mapping.go], [preprovision.go]), which
    customer owns an account ([accounts.go]), the stored answers of retried
    requests ([idempotency.go]), OAuth clients ([oauth.go]), and the translation of
    a business action into parameter writes ([template.go], [wifi_networks.go]).
    Parameters are kept as the list their JSON column decodes to. *)

From S2P Require Import Prelude GoStrings Devices Adapters WifiView.

(** ** Writes *)

(** [bss.ParameterWrite], a type of its own on this side of the process boundary. *)
Record BssWrite : Type := mkBssWrite { bw_Name : string; bw_Value : string; bw_Type : string; bw_SecretHandle : string }.
#[global] Instance BssWrite_eq_dec : EqDecision BssWrite.
Proof. solve_decision. Defined.

(** The distinct handles, in order of first use. *)
Definition SecretHandles (writes : list BssWrite) : list string :=
  foldl (λ out w, if String.eqb (bw_SecretHandle w) "" || existsb (String.eqb (bw_SecretHandle w)) out then out
                  else out ++ [bw_SecretHandle w]) [] writes.

Definition secretLeafMarkers : list string := ["password"; "passphrase"; "presharedkey"; "secret"].
Definition isSecretPath (path : string) : bool := existsb (Contains (ToLower path)) secretLeafMarkers.
Definition SecretValueRedacted : string := "***REDACTED***".

Definition RedactSecretWrites (writes : list BssWrite) : list BssWrite :=
  (λ w, if isSecretPath (bw_Name w) && negb (String.eqb (bw_Value w) "")
        then mkBssWrite (bw_Name w) SecretValueRedacted (bw_Type w) (bw_SecretHandle w) else w) <$> writes.

(** ** Orders *)

Inductive OrderStatus : Type := OrderPendingDispatch | OrderDispatched | OrderDeadLettered.
#[global] Instance OrderStatus_eq_dec : EqDecision OrderStatus.
Proof. solve_decision. Defined.

Definition maxDispatchAttempts : Z := 8.

Record OrderRecord : Type := mkOrderRecord {
  bo_ExternalOrderID : string;
  bo_AccountID : string;
  bo_Action : string;
  bo_DeviceID : string;
  bo_Parameters : list BssWrite;
  bo_CommandKey : option string;
  bo_Status : OrderStatus;
  bo_Attempts : Z;
  bo_LastError : option string;
  bo_LastAttemptAt : option GoTime;
  bo_NotifiedAt : option GoTime;
  bo_CreatedAt : GoTime
}.

Abbreviation Orders := (gmap string OrderRecord).

Definition ErrOrderAlreadyExists : string := "an order with this external_order_id already exists".

Definition FindOrder (tab : Orders) (id : string) : option OrderRecord := tab !! id.

Definition FindOrderByCommandKey (tab : Orders) (key : string) : option OrderRecord :=
  List.find (λ o, match bo_CommandKey o with Some k => String.eqb k key | None => false end) (rows tab).

(** The row is written before anything is sent; [devices] is the target of the
    foreign key. *)
Definition InsertPending (devices : Devices) (now : GoTime) (id account action device : string) (params : list BssWrite)
    (tab : Orders) : result unit * Orders :=
  if is_some (tab !! id) then (Err ErrOrderAlreadyExists, tab)
  else if negb (is_some (devices !! device)) then (Err "insert pending order: violates foreign key constraint", tab)
  else (Ok tt, <[id := mkOrderRecord id account action device params None OrderPendingDispatch 0 None (Some now) None now]> tab).

Definition pending (o : OrderRecord) : bool := bool_decide (bo_Status o = OrderPendingDispatch).

Definition dispatched (now : GoTime) (key : string) (o : OrderRecord) : OrderRecord :=
  mkOrderRecord (bo_ExternalOrderID o) (bo_AccountID o) (bo_Action o) (bo_DeviceID o) (bo_Parameters o) (Some key)
    OrderDispatched (bo_Attempts o) (bo_LastError o) (Some now) (bo_NotifiedAt o) (bo_CreatedAt o).

Definition MarkDispatched (now : GoTime) (id key : string) (tab : Orders) : Orders :=
  (update_key id pending (dispatched now key) tab).1.

Definition attempt_failed (now : GoTime) (msg : string) (o : OrderRecord) : OrderRecord :=
  mkOrderRecord (bo_ExternalOrderID o) (bo_AccountID o) (bo_Action o) (bo_DeviceID o) (bo_Parameters o) (bo_CommandKey o)
    (if maxDispatchAttempts <=? bo_Attempts o + 1 then OrderDeadLettered else bo_Status o) (bo_Attempts o + 1) (Some msg)
    (Some now) (bo_NotifiedAt o) (bo_CreatedAt o).

Definition MarkDispatchFailed (now : GoTime) (id msg : string) (tab : Orders) : Orders :=
  (update_key id pending (attempt_failed now msg) tab).1.

(** The wait before the next attempt: [power(2, attempts)] minutes. *)
Definition backoff (attempts : Z) : GoDuration := 2 ^ attempts * Minute.

Definition due_order (now : GoTime) (o : OrderRecord) : bool :=
  pending o && (bo_Attempts o <? maxDispatchAttempts)
  && match bo_LastAttemptAt o with None => true | Some t => t <? now - backoff (bo_Attempts o) end.

Definition older_order (a b : OrderRecord) : Prop := bo_CreatedAt a <= bo_CreatedAt b.
#[global] Instance older_order_dec : RelDecision older_order.
Proof. intros a b. unfold Decision, older_order. apply Z_le_dec. Defined.

Definition stamp (now : GoTime) (o : OrderRecord) : OrderRecord :=
  mkOrderRecord (bo_ExternalOrderID o) (bo_AccountID o) (bo_Action o) (bo_DeviceID o) (bo_Parameters o) (bo_CommandKey o)
    (bo_Status o) (bo_Attempts o) (bo_LastError o) (Some now) (bo_NotifiedAt o) (bo_CreatedAt o).

(** One statement: the oldest due rows that no other transaction holds ([locked]),
    stamped as they are taken. *)
Definition claimed_orders (locked : string → bool) (now : GoTime) (limit : nat) (tab : Orders) : list OrderRecord :=
  take limit (merge_sort older_order (List.filter (λ o, due_order now o && negb (locked (bo_ExternalOrderID o))) (rows tab))).

Definition ClaimDuePendingOrders (locked : string → bool) (now : GoTime) (limit : nat) (tab : Orders)
  : list OrderRecord * Orders :=
  let ids := bo_ExternalOrderID <$> claimed_orders locked now limit tab in
  (stamp now <$> claimed_orders locked now limit tab,
   (update_where (λ o, existsb (String.eqb (bo_ExternalOrderID o)) ids) (stamp now) tab).1).

Definition newer_order (a b : OrderRecord) : Prop := bo_CreatedAt b <= bo_CreatedAt a.
#[global] Instance newer_order_dec : RelDecision newer_order.
Proof. intros a b. unfold Decision, newer_order. apply Z_le_dec. Defined.

(** [account]: [""] for any. *)
Definition OrdersForDevice (device : string) (limit : Z) (account : string) (tab : Orders) : list OrderRecord :=
  let limit := if (limit <=? 0) || (200 <? limit) then 50 else limit in
  take (Z.to_nat limit) (merge_sort newer_order
    (List.filter (λ o, String.eqb (bo_DeviceID o) device && bool_decide (bo_Status o = OrderDispatched)
                       && (String.eqb account "" || String.eqb (bo_AccountID o) account)) (rows tab))).

Definition UnnotifiedOrders (limit : nat) (tab : Orders) : list OrderRecord :=
  take limit (merge_sort older_order
    (List.filter (λ o, negb (is_some (bo_NotifiedAt o)) && bool_decide (bo_Status o = OrderDispatched)) (rows tab))).

Definition notified (now : GoTime) (o : OrderRecord) : OrderRecord :=
  mkOrderRecord (bo_ExternalOrderID o) (bo_AccountID o) (bo_Action o) (bo_DeviceID o) (bo_Parameters o) (bo_CommandKey o)
    (bo_Status o) (bo_Attempts o) (bo_LastError o) (bo_LastAttemptAt o) (Some now) (bo_CreatedAt o).

Definition MarkOrderNotified (now : GoTime) (id : string) (tab : Orders) : Orders :=
  (update_key id (λ _, true) (notified now) tab).1.

(** ** Accounts and their customers *)

Record AccountRow : Type := mkAccountRow { ac_CustomerID : string; ac_ClaimedBy : string }.
Abbreviation Accounts := (gmap string AccountRow).

(** [""]: nobody. *)
Definition AccountOwner (tab : Accounts) (account : string) : string :=
  match tab !! TrimSpace account with Some r => ac_CustomerID r | None => "" end.

Definition ErrAccountHasHistory : string :=
  "account has data from before customer binding; an operator must assign its customer".

(** [history]: a mapping, order, service order or webhook names the account. *)
Definition ClaimAccount (history : string → bool) (account customer by_ : string) (tab : Accounts) : result string * Accounts :=
  let account := TrimSpace account in
  let tab' := if history account || is_some (tab !! account) then tab else <[account := mkAccountRow customer by_]> tab in
  (if String.eqb (AccountOwner tab' account) "" then Err ErrAccountHasHistory else Ok (AccountOwner tab' account), tab').

Definition AssignAccountOwner (customers : gset string) (account customer by_ : string) (tab : Accounts) : result unit * Accounts :=
  let account := TrimSpace account in
  if String.eqb account "" then (Err "account_id is required", tab)
  else if negb (bool_decide (customer ∈ customers)) then (Err "assign account owner: violates foreign key constraint", tab)
  else (Ok tt, <[account := mkAccountRow customer by_]> tab).

Definition OwnedAccounts (tab : Accounts) (customer : string) : list string :=
  fst <$> List.filter (λ kr : string * AccountRow, String.eqb (ac_CustomerID kr.2) customer) (map_to_list tab).

(** ** Which device serves which account *)

Definition validRoles : list string := ["gateway"; "ont"; "extender"; "stb"; "ata"; "other"].
Definition validReasons : list string := ["rma"; "upgrade"; "return"; "moved"; "corrected"].
Definition ValidRole (r : string) : bool := existsb (String.eqb r) validRoles.
Definition ValidUnassignReason (r : string) : bool := existsb (String.eqb r) validReasons.
Definition MappingActive : string := "ACTIVE".
Definition MappingPendingActive : string := "PENDING_ACTIVE".
Definition mapping_statuses : list string := ["PENDING_ACTIVE"; "ACTIVE"; "SUSPENDED"; "TERMINATED"].

Record AccountDeviceMapping : Type := mkMapping {
  am_ID : string;
  am_AccountID : string;
  am_DeviceID : string;
  am_OUISerial : string;
  am_ServicePlan : option string;
  am_Status : string;
  am_Role : string;
  am_AssignedAt : GoTime;
  am_UnassignedAt : option GoTime;
  am_UnassignReason : option string
}.
Abbreviation Mappings := (gmap string AccountDeviceMapping).

Inductive MappingError : Type :=
| ErrDeviceNotFound | ErrNoDeviceForRole | ErrRoleAlreadyAssigned | ErrDeviceAlreadyAssigned
| ErrInvalidRole | ErrInvalidUnassignReason | ErrMappingNotFound | MappingDBError (e : string).

Definition current (m : AccountDeviceMapping) : bool := negb (is_some (am_UnassignedAt m)).

Definition in_role (account role : string) (m : AccountDeviceMapping) : bool :=
  current m && String.eqb (am_AccountID m) account && String.eqb (am_Role m) role.
Definition of_device (account device : string) (m : AccountDeviceMapping) : bool :=
  current m && String.eqb (am_AccountID m) account && String.eqb (am_DeviceID m) device.

(** The row as an INSERT leaves it, the two partial unique indexes checked in the
    order they were created. *)
Definition insertAssignment (devices : Devices) (now : GoTime) (id account device serial role : string) (plan : option string)
    (status : string) (tab : Mappings) : MappingError + (AccountDeviceMapping * Mappings) :=
  let m := mkMapping id account device serial plan status role now None None in
  if negb (existsb (String.eqb status) mapping_statuses && ValidRole role) then inl (MappingDBError "check constraint violation")
  else if is_some (tab !! id) then inl (MappingDBError "duplicate key value violates unique constraint")
  else if existsb (of_device account device) (rows tab) then inl ErrDeviceAlreadyAssigned
  else if existsb (in_role account role) (rows tab) then inl ErrRoleAlreadyAssigned
  else if negb (is_some (devices !! device)) then inl (MappingDBError "violates foreign key constraint")
  else inr (m, <[id := m]> tab).

Definition DeviceIDForSerial (devices : Devices) (serial : string) : option string :=
  (λ d, d_ID (d_identity d)) <$> GetByOUIserial devices serial.

Definition set_customer (now : GoTime) (customer : string) (d : Device) : Device :=
  let o := d_ownership d in
  set_ownership now (mkOwnership (Some customer) (d_SiteID o) (d_Tags o) (d_ReenrollUntil o)) d.

(** [deviceForAccount]: the account as given, not trimmed. *)
Definition deviceForAccount (now : GoTime) (accounts : Accounts) (serial account : string) (devices : Devices)
  : MappingError + (string * Devices) :=
  match GetByOUIserial devices serial with
  | None => inl ErrDeviceNotFound
  | Some d =>
      let id := d_ID (d_identity d) in
      match accounts !! account, d_CustomerID (d_ownership d) with
      | None, _ => inr (id, devices)
      | Some owner, None => inr (id, on_device id (set_customer now (ac_CustomerID owner)) devices)
      | Some owner, Some c => if String.eqb c (ac_CustomerID owner) then inr (id, devices) else inl ErrDeviceNotFound
      end
  end.

Definition nullIfEmpty (s : string) : option string := if String.eqb s "" then None else Some s.

(** One transaction over both tables. *)
Definition AssignDeviceStatus (uuid : string) (now : GoTime) (accounts : Accounts) (account serial role plan status : string)
    (tabs : Mappings * Devices) : (MappingError + AccountDeviceMapping) * (Mappings * Devices) :=
  if negb (ValidRole role) then (inl ErrInvalidRole, tabs)
  else match deviceForAccount now accounts serial account tabs.2 with
  | inl e => (inl e, tabs)
  | inr (device, devices') =>
      match insertAssignment devices' now uuid account device serial role (nullIfEmpty plan) status tabs.1 with
      | inl e => (inl e, tabs)
      | inr (m, tab') => (inr m, (tab', devices'))
      end
  end.

Definition AssignDevice (uuid : string) (now : GoTime) (accounts : Accounts) (account serial role plan : string)
  : Mappings * Devices → (MappingError + AccountDeviceMapping) * (Mappings * Devices) :=
  AssignDeviceStatus uuid now accounts account serial role plan MappingActive.

Definition close (now : GoTime) (reason : string) (m : AccountDeviceMapping) : AccountDeviceMapping :=
  mkMapping (am_ID m) (am_AccountID m) (am_DeviceID m) (am_OUISerial m) (am_ServicePlan m) (am_Status m) (am_Role m)
    (am_AssignedAt m) (Some now) (Some reason).

Definition UnassignDevice (now : GoTime) (account role reason : string) (tab : Mappings) : option MappingError * Mappings :=
  if negb (ValidRole role) then (Some ErrInvalidRole, tab)
  else if negb (ValidUnassignReason reason) then (Some ErrInvalidUnassignReason, tab)
  else let '(tab', n) := update_where (in_role account role) (close now reason) tab in
       (if n =? 0 then Some ErrNoDeviceForRole else None, tab').

Definition ActiveDeviceForAccount (tab : Mappings) (account role : string) : option AccountDeviceMapping :=
  List.find (in_role account role) (rows tab).

(** Close, then open, in one transaction. *)
Definition SwapDevice (uuid : string) (now : GoTime) (accounts : Accounts) (account role serial reason : string)
    (tabs : Mappings * Devices) : (MappingError + AccountDeviceMapping) * (Mappings * Devices) :=
  if negb (ValidRole role) then (inl ErrInvalidRole, tabs)
  else if negb (ValidUnassignReason reason) then (inl ErrInvalidUnassignReason, tabs)
  else match ActiveDeviceForAccount tabs.1 account role with
  | None => (inl ErrNoDeviceForRole, tabs)
  | Some old =>
      let closed := (update_where (in_role account role) (close now reason) tabs.1).1 in
      match deviceForAccount now accounts serial account tabs.2 with
      | inl e => (inl e, tabs)
      | inr (device, devices') =>
          match insertAssignment devices' now uuid account device serial role (am_ServicePlan old) MappingActive closed with
          | inl e => (inl e, tabs)
          | inr (m, tab') => (inr m, (tab', devices'))
          end
      end
  end.

Definition CurrentMapping (tab : Mappings) (account device : string) : option AccountDeviceMapping :=
  List.find (of_device account device) (rows tab).

Definition with_status (status : string) (m : AccountDeviceMapping) : AccountDeviceMapping :=
  mkMapping (am_ID m) (am_AccountID m) (am_DeviceID m) (am_OUISerial m) (am_ServicePlan m) status (am_Role m)
    (am_AssignedAt m) (am_UnassignedAt m) (am_UnassignReason m).

Definition SetMappingStatus (id status : string) (tab : Mappings) : result unit * Mappings :=
  if negb (existsb (String.eqb status) mapping_statuses) then (Err "set mapping status: check constraint violation", tab)
  else (Ok tt, (update_key id current (with_status status) tab).1).

Definition EndMapping (now : GoTime) (id reason : string) (tab : Mappings) : option MappingError * Mappings :=
  if negb (ValidUnassignReason reason) then (Some ErrInvalidUnassignReason, tab)
  else (None, (update_key id current (close now reason) tab).1).

Definition older_mapping (a b : AccountDeviceMapping) : Prop := am_AssignedAt a <= am_AssignedAt b.
#[global] Instance older_mapping_dec : RelDecision older_mapping.
Proof. intros a b. unfold Decision, older_mapping. apply Z_le_dec. Defined.

Definition ListByAccount (tab : Mappings) (account : string) : list AccountDeviceMapping :=
  merge_sort older_mapping (List.filter (λ m, current m && String.eqb (am_AccountID m) account) (rows tab)).

Definition AssignmentHistory (tab : Mappings) (account : string) : list AccountDeviceMapping :=
  merge_sort older_mapping (List.filter (λ m, String.eqb (am_AccountID m) account) (rows tab)).

(** [""]: none. *)
Definition CurrentAccountForDevice (tab : Mappings) (device : string) : string :=
  match List.find (λ m, current m && String.eqb (am_DeviceID m) device) (rows tab) with Some m => am_AccountID m | None => "" end.

Definition GetMappingByID (tab : Mappings) (id : string) : MappingError + AccountDeviceMapping :=
  match tab !! id with Some m => inr m | None => inl ErrMappingNotFound end.

(** ** Stored answers of retried requests *)

Definition IdempotencyTTL : GoDuration := 24 * Hour.

Record IdempotentResponse (B : Type) : Type := mkIdemResponse { ir_Status : Z; ir_Body : B; ir_Location : string }.
Arguments mkIdemResponse {B} _ _ _.
Arguments ir_Status {B} _.
Arguments ir_Body {B} _.
Arguments ir_Location {B} _.

Record IdempotencyRow (B : Type) : Type := mkIdemRow {
  ik_operation : string;
  ik_hash : string;
  ik_response : option (IdempotentResponse B);
  ik_created : GoTime
}.
Arguments mkIdemRow {B} _ _ _ _.
Arguments ik_operation {B} _.
Arguments ik_hash {B} _.
Arguments ik_response {B} _.
Arguments ik_created {B} _.

(** Keyed by account and key. *)
Abbreviation IdemKeys B := (gmap (string * string) (IdempotencyRow B)).

Inductive Begin (B : Type) : Type :=
| BeginRun
| BeginReplay (r : IdempotentResponse B)
| BeginInFlight
| BeginMismatch.
Arguments BeginRun {B}.
Arguments BeginReplay {B} _.
Arguments BeginInFlight {B}.
Arguments BeginMismatch {B}.

Section Idempotency.
Context {B : Type}.

Definition expire_key (now : GoTime) (k : string * string) (tab : IdemKeys B) : IdemKeys B :=
  match tab !! k with
  | Some r => if ik_created r <? now - IdempotencyTTL then delete k tab else tab
  | None => tab
  end.

Definition BeginIdempotent (now : GoTime) (account key operation hash : string) (tab : IdemKeys B) : Begin B * IdemKeys B :=
  let tab := expire_key now (account, key) tab in
  match tab !! (account, key) with
  | None => (BeginRun, <[(account, key) := mkIdemRow operation hash None now]> tab)
  | Some r =>
      if negb (String.eqb (ik_operation r) operation && String.eqb (ik_hash r) hash) then (BeginMismatch, tab)
      else match ik_response r with None => (BeginInFlight, tab) | Some resp => (BeginReplay resp, tab) end
  end.

Definition CompleteIdempotent (account key : string) (resp : IdempotentResponse B) (tab : IdemKeys B) : IdemKeys B :=
  alter (λ r, mkIdemRow (ik_operation r) (ik_hash r) (Some resp) (ik_created r)) (account, key) tab.

Definition ReleaseIdempotent (account key : string) (tab : IdemKeys B) : IdemKeys B :=
  match tab !! (account, key) with
  | Some r => if is_some (ik_response r) then tab else delete (account, key) tab
  | None => tab
  end.
End Idempotency.

(** ** OAuth clients *)

Definition ScopeTMFRead : string := "tmf:read".
Definition ScopeTMFWrite : string := "tmf:write".
Definition ScopeTMFExecute : string := "tmf:execute".
Definition ScopeTMFAcknowledge : string := "tmf:acknowledge".
Definition AllTMFScopes : list string := [ScopeTMFRead; ScopeTMFWrite; ScopeTMFExecute; ScopeTMFAcknowledge].

Record OAuthPolicy : Type := mkPolicy_ {
  op_Scopes : list string;
  op_AccountIDs : list string;
  op_GlobalAccess : bool;
  op_CustomerID : option string
}.

Definition uniqueTrimmed (values : list string) : list string :=
  SortStrings (remove_dups (List.filter (λ v, negb (String.eqb v "")) (TrimSpace <$> values))).

Definition ErrInvalidOAuthPolicy : string := "invalid oauth client policy".

Definition NormalizeOAuthPolicy (p : OAuthPolicy) : result OAuthPolicy :=
  let scopes := uniqueTrimmed (op_Scopes p) in
  let accounts := uniqueTrimmed (op_AccountIDs p) in
  let customer := match op_CustomerID p with
                  | Some c => if String.eqb (TrimSpace c) "" then None else Some (TrimSpace c)
                  | None => None
                  end in
  if negb (forallb (λ s, existsb (String.eqb s) AllTMFScopes) scopes) then Err ErrInvalidOAuthPolicy
  else if op_GlobalAccess p && negb (bool_decide (accounts = [])) then Err ErrInvalidOAuthPolicy
  else if op_GlobalAccess p && is_some customer then Err ErrInvalidOAuthPolicy
  else if negb (bool_decide (scopes = [])) && negb (op_GlobalAccess p) && bool_decide (accounts = []) && negb (is_some customer)
  then Err ErrInvalidOAuthPolicy
  else Ok (mkPolicy_ scopes accounts (op_GlobalAccess p) customer).

Record OAuthClient : Type := mkOAuthClient {
  oc_ID : string;
  oc_Name : string;
  oc_ClientID : string;
  oc_SecretHash : string;
  oc_Policy : OAuthPolicy;
  oc_CreatedAt : GoTime;
  oc_RevokedAt : option GoTime
}.
Abbreviation OAuthClients := (gmap string OAuthClient).

Definition with_client_id (clientID : string) (c : OAuthClient) : bool := String.eqb (oc_ClientID c) clientID.

(** [uuid], [clientID] and the bcrypt hash are drawn; customers is the target of
    the foreign key. *)
Definition CreateClientWithPolicy (uuid clientID hash name : string) (now : GoTime) (customers : gset string) (policy : OAuthPolicy)
    (tab : OAuthClients) : result OAuthClient * OAuthClients :=
  match NormalizeOAuthPolicy policy with
  | Err e => (Err e, tab)
  | Ok p =>
      let c := mkOAuthClient uuid name clientID hash p now None in
      if is_some (tab !! uuid) || existsb (with_client_id clientID) (rows tab)
         || negb (match op_CustomerID p with None => true | Some cu => bool_decide (cu ∈ customers) end)
      then (Err "scan oauth client", tab)
      else (Ok c, <[uuid := c]> tab)
  end.

Definition RevokeClient (now : GoTime) (id : string) (tab : OAuthClients) : result unit * OAuthClients :=
  let '(tab', n) := update_key id (λ c, negb (is_some (oc_RevokedAt c)))
    (λ c, mkOAuthClient (oc_ID c) (oc_Name c) (oc_ClientID c) (oc_SecretHash c) (oc_Policy c) (oc_CreatedAt c) (Some now)) tab in
  (if n =? 0 then Err "oauth client not found or already revoked" else Ok tt, tab').

Definition IsRevoked (tab : OAuthClients) (clientID : string) : bool :=
  match List.find (with_client_id clientID) (rows tab) with Some c => is_some (oc_RevokedAt c) | None => true end.

(** [compare] is bcrypt. *)
Definition AuthenticateClient (compare : string → string → bool) (tab : OAuthClients) (clientID secret : string) : option OAuthClient :=
  match List.find (with_client_id clientID) (rows tab) with
  | Some c => if is_some (oc_RevokedAt c) || negb (compare (oc_SecretHash c) secret) then None else Some c
  | None => None
  end.

(** ** From a business action to writes *)

(** What a call behind an order can fail with; the texts are what an error adds to
    its kind. *)
Inductive BssError : Type :=
| ErrUnsupportedAction (detail : string)
| ErrInvalidParameters (detail : string)
| ErrACSUnreachable
| ErrDeviceLookupNotFound
| ErrJobNotFound
| ErrUnexpectedStatus (status : Z).

Definition bind_err {E A B} (r : E + A) (k : A → E + B) : E + B := match r with inl e => inl e | inr a => k a end.
Notation "'attempt' x '<-' r ';' k" := (bind_err r (fun x => k))
  (at level 100, x pattern, r at next level, k at level 200, right associativity) : acs_scope.

Record WalledGardenConfig : Type := mkWalledGarden { wg_Parameter : string; wg_SuspendValue : string; wg_ActiveValue : string }.

Definition wg_configured (c : WalledGardenConfig) : bool :=
  negb (String.eqb (wg_Parameter c) "") && negb (String.eqb (wg_SuspendValue c) "") && negb (String.eqb (wg_ActiveValue c) "").

(** A missing key of the map reads as the empty string. *)
Definition param (params : gmap string string) (k : string) : string := default "" (params !! k).

Definition passphraseInput (params : gmap string string) : BssError + (string * string) :=
  let value := param params "wifi_password" in
  let handle := param params "wifi_password_handle" in
  if negb (String.eqb value "") && negb (String.eqb handle "")
  then inl (ErrInvalidParameters "send wifi_password or wifi_password_handle, not both")
  else inr (value, handle).

Definition cwmpBoolean (raw : string) : option string :=
  let s := ToLower (TrimSpace raw) in
  if String.eqb s "1" || String.eqb s "true" then Some "1"
  else if String.eqb s "0" || String.eqb s "false" then Some "0" else None.

Definition modify_wifi_requires : BssError :=
  ErrInvalidParameters "MODIFY_WIFI requires at least one of wifi_ssid, wifi_password (or wifi_password_handle), wifi_enabled".

(** One setting: nothing when it is not set, else one write at the path found. *)
Definition set_write (wanted : bool) (path : BssError + string) (value type handle : string) : BssError + list BssWrite :=
  if wanted then attempt p <- path; inr [mkBssWrite p value type handle] else inr [].

Definition enabled_value (raw : string) : BssError + string :=
  match cwmpBoolean raw with
  | Some v => inr v
  | None => inl (ErrInvalidParameters "wifi_enabled: must be true/false or 1/0")
  end.

Definition translateModifyWifiWithCapabilities (params : gmap string string) (root : DataModelRoot)
    (discovered : option (gmap string bool)) : BssError + list BssWrite :=
  let resolve what p := match ResolveWritablePath root p discovered with
                        | Ok path => inr path
                        | Err e => inl (ErrUnsupportedAction (what ++ e)%string)
                        end in
  let set k := negb (String.eqb (param params k) "") in
  attempt a <- set_write (set "wifi_ssid") (resolve "Wi-Fi SSID: " WiFiSSID) (param params "wifi_ssid") "string" "";
  attempt (pass, handle) <- passphraseInput params;
  attempt b <- set_write (negb (String.eqb pass "") || negb (String.eqb handle ""))
                 (resolve "Wi-Fi passphrase: " WiFiKeyPassphrase) pass "string" handle;
  attempt c <- (if set "wifi_enabled"
                then attempt v <- enabled_value (param params "wifi_enabled");
                     set_write true (resolve "Wi-Fi enable: " WiFiEnable) v "boolean" ""
                else inr []);
  if bool_decide (a ++ b ++ c = []) then inl modify_wifi_requires else inr (a ++ b ++ c).

Definition translateWalledGarden (wg : WalledGardenConfig) (value : string) : BssError + list BssWrite :=
  if wg_configured wg then inr [mkBssWrite (wg_Parameter wg) value "string" ""]
  else inl (ErrUnsupportedAction "SUSPEND/ACTIVATE need ACS_WALLED_GARDEN_PARAMETER").

Definition TranslateWithCapabilities (action : string) (params : gmap string string) (wg : WalledGardenConfig) (root : DataModelRoot)
    (discovered : option (gmap string bool)) : BssError + list BssWrite :=
  if String.eqb action "MODIFY_WIFI" then translateModifyWifiWithCapabilities params root discovered
  else
    attempt writes <- (if String.eqb action "SUSPEND" then translateWalledGarden wg (wg_SuspendValue wg)
                       else if String.eqb action "ACTIVATE" then translateWalledGarden wg (wg_ActiveValue wg)
                       else inl (ErrUnsupportedAction action));
    match discovered with
    | None => inr writes
    | Some names =>
        match first_error (λ w, match names !! bw_Name w with
                                | None => Some (ErrUnsupportedAction "not supported by the discovered device model")
                                | Some false => Some (ErrUnsupportedAction "read-only on the discovered device model")
                                | Some true => None
                                end) writes with
        | Some e => inl e
        | None => inr writes
        end
    end.

Definition Translate (action : string) (params : gmap string string) (wg : WalledGardenConfig) (root : DataModelRoot)
  : BssError + list BssWrite := TranslateWithCapabilities action params wg root None.

(** [WiFiNetworksView]; [nv_Supported] false carries the reason. *)
Record WiFiNetworksView : Type := mkNetworksView {
  nv_Supported : bool;
  nv_Reason : string;
  nv_Complete : bool;
  nv_Primary : list WiFiNetwork
}.

(** A network's path when it can be written. *)
Definition network_path (what : string) (slot : option (string * bool)) : BssError + string :=
  match slot with
  | Some (path, true) => if String.eqb path "" then inl (ErrUnsupportedAction what) else inr path
  | _ => inl (ErrUnsupportedAction what)
  end.

Definition network_order_writes (params : gmap string string) (pass handle : string) (n : WiFiNetwork)
  : BssError + list BssWrite :=
  let set k := negb (String.eqb (param params k) "") in
  attempt a <- set_write (set "wifi_ssid") (network_path "SSID name is not writable" (wn_NamePath n))
                 (param params "wifi_ssid") "xsd:string" "";
  attempt b <- set_write (negb (String.eqb pass "") || negb (String.eqb handle ""))
                 (network_path "passphrase is not writable" (wn_PassphrasePath n)) pass "xsd:string" handle;
  attempt c <- (if set "wifi_enabled"
                then attempt v <- enabled_value (param params "wifi_enabled");
                     set_write true (network_path "enable flag is not writable" (wn_EnablePath n)) v "xsd:boolean" ""
                else inr []);
  inr (a ++ b ++ c).

Fixpoint networks_order_writes (params : gmap string string) (pass handle : string) (l : list WiFiNetwork)
  : BssError + list BssWrite :=
  match l with
  | [] => inr []
  | n :: rest =>
      attempt a <- network_order_writes params pass handle n;
      attempt b <- networks_order_writes params pass handle rest;
      inr (a ++ b)
  end.

Definition TranslateModifyWifiNetworks (params : gmap string string) (view : WiFiNetworksView) : BssError + list BssWrite :=
  if negb (nv_Supported view)
  then inl (ErrUnsupportedAction (if String.eqb (nv_Reason view) "" then "no Wi-Fi networks resolved" else nv_Reason view))
  else if negb (nv_Complete view) then inl (ErrUnsupportedAction "the device's Wi-Fi roles are not known yet")
  else if bool_decide (nv_Primary view = []) then inl (ErrUnsupportedAction "the device has no primary (non-guest) Wi-Fi network")
  else
    attempt (pass, handle) <- passphraseInput params;
    attempt ws <- networks_order_writes params pass handle (nv_Primary view);
    if bool_decide (ws = []) then inl modify_wifi_requires else inr ws.
