(* ===== verification/BssAuth.v ===== *)
(** * Who may call the BSS adapter

    [cmd/bssadapter]: the authentication of a request ([withAuth], [clientRevoked]
    of [main.go]), the tokens of OAuth clients ([oauth_handlers.go]), and the
    account a caller may act on ([tmf_authz.go], [secrets.go]).  Bodies of refusals
    are their codes.  HMAC, the text of JSON and bcrypt are arguments. *)

From S2P Require Import Prelude GoStrings Encoding Json Operators Jwt Routes Api ControlPlane Bss.

Definition bssClientRole : string := "bss_client".
Definition oauthTokenTTL : GoDuration := Hour.
Definition revocationCacheTTL : GoDuration := 15 * Second.

Record BssConfig : Type := mkBssConfig {
  bc_token : string;
  bc_oauthSecret : string;
  bc_requireCustomerBound : bool;
  bc_requireSecretHandles : bool;
  bc_walledGarden : WalledGardenConfig;
  bc_secretKey : option string;
  bc_onboarding : bool
}.

(** [strings.Fields] *)
Definition flush_field (cur : string) : list string := if String.eqb cur "" then [] else [cur].
Fixpoint fields_go (cur s : string) : list string :=
  match s with
  | EmptyString => flush_field cur
  | String c s' => if is_space_byte c then flush_field cur ++ fields_go "" s' else fields_go (cur ++ String c "") s'
  end.
Definition Fields : string → list string := fields_go "".

Section Auth.
Context (hmac : string → string → string) (Marshal : json → string) (Unmarshal : string → option json).
Context (compare : string → string → bool) (cfg : BssConfig).

(** ** Tokens *)

Record tokenRequest : Type := mkTokenRequest {
  tq_GrantType : string;
  tq_ClientID : string;
  tq_ClientSecret : string;
  tq_Scope : string
}.

(** The credentials are those of Basic authentication when it is used. *)
Definition issueOAuthToken (now : GoTime) (req : tokenRequest) (tab : OAuthClients) : Reply (string * Claims) :=
  if negb (String.eqb (tq_GrantType req) "client_credentials") then Refused 400 "unsupported_grant_type"
  else if String.eqb (tq_ClientID req) "" || String.eqb (tq_ClientSecret req) "" then Refused 400 "invalid_request"
  else match AuthenticateClient compare tab (tq_ClientID req) (tq_ClientSecret req) with
  | None => Refused 401 "invalid_client"
  | Some c =>
      let p := oc_Policy c in
      let requested := Fields (tq_Scope req) in
      if negb (forallb (λ s, existsb (String.eqb s) (op_Scopes p)) requested) then Refused 400 "invalid_scope"
      else
        let scopes := if bool_decide (requested = []) then op_Scopes p else requested in
        let claims := mkClaims ("bss-client:" ++ tq_ClientID req)%string bssClientRole now (now + oauthTokenTTL) "" 0 scopes
                        (op_AccountIDs p) (op_GlobalAccess p) (default "" (op_CustomerID p)) in
        Replied 200 (SignJWT hmac Marshal (bc_oauthSecret cfg) claims, claims)
  end.

(** ** The authentication gate *)

Record revocationEntry : Type := mkRevocationEntry { re_revoked : bool; re_expires : GoTime }.
Abbreviation RevocationCache := (gmap string revocationEntry).

Definition clientRevoked (now : GoTime) (tab : OAuthClients) (clientID : string) (cache : RevocationCache)
  : bool * RevocationCache :=
  let fetch := (IsRevoked tab clientID,
                <[clientID := mkRevocationEntry (IsRevoked tab clientID) (now + revocationCacheTTL)]> cache) in
  match cache !! clientID with
  | Some e => if now <? re_expires e then (re_revoked e, cache) else fetch
  | None => fetch
  end.

Definition shared_token (auth : string) : bool :=
  negb (String.eqb (bc_token cfg) "") && String.eqb auth ("Bearer " ++ bc_token cfg)%string.

(** The claims of a token of the adapter's own. *)
Definition oauth_claims (now : GoTime) (auth : string) : option Claims :=
  match CutPrefix auth "Bearer " with
  | None => None
  | Some bearer =>
      if String.eqb (bc_oauthSecret cfg) "" then None
      else match VerifyJWT hmac Unmarshal now (bc_oauthSecret cfg) bearer with
           | Ok c => if String.eqb (cl_Role c) bssClientRole then Some c else None
           | Err _ => None
           end
  end.

Definition lab_mode : bool := String.eqb (bc_token cfg) "" && String.eqb (bc_oauthSecret cfg) "".

Definition open_path (r : Request) : bool :=
  (String.eqb (rq_Method r) "GET" && existsb (String.eqb (path_text (rq_Segments r))) ["/metrics"; "/healthz"; "/readyz"])
  || (String.eqb (rq_Method r) "POST" && String.eqb (path_text (rq_Segments r)) "/bss/v1/oauth/token").

(** [None]: the next handler runs. *)
Definition withAuth (now : GoTime) (tab : OAuthClients) (r : Request) (cache : RevocationCache)
  : option (Reply unit) * RevocationCache :=
  let unauthorized := Some (Refused 401 "ErrUnauthorized") in
  let legacy := if shared_token (rq_Authorization r) then None else unauthorized in
  if lab_mode || open_path r then (None, cache)
  else match oauth_claims now (rq_Authorization r) with
  | Some c =>
      let '(revoked, cache') := clientRevoked now tab (TrimPrefix (cl_Subject c) "bss-client:") cache in
      (if revoked then unauthorized else None, cache')
  | None => (legacy, cache)
  end.

(** ** Scopes and accounts *)

Definition global_claims : Claims := mkClaims "" bssClientRole 0 0 "" 0 AllTMFScopes [] true "".

Definition boundPrincipal {A} (now : GoTime) (auth : string) : Reply A + Claims :=
  match oauth_claims now auth with
  | None => inl (Refused 401 "invalid_token")
  | Some c => if String.eqb (cl_CustomerID c) "" then inl (Refused 403 "ErrClientNotCustomerBound") else inr c
  end.

Definition has_scope (scope : string) (c : Claims) : bool := existsb (String.eqb scope) (cl_Scopes c).

Definition tmfPrincipal {A} (now : GoTime) (auth scope : string) : Reply A + Claims :=
  let scoped_ c := if has_scope scope c then inr c else inl (Refused 403 "insufficient_scope") in
  if bc_requireCustomerBound cfg
  then match boundPrincipal now auth with inl r => inl r | inr c => scoped_ c end
  else if lab_mode || shared_token auth then inr global_claims
  else match oauth_claims now auth with None => inl (Refused 401 "invalid_token") | Some c => scoped_ c end.

Definition tmfAccountAllowed (c : Claims) (account : string) : bool :=
  let account := TrimSpace account in
  cl_GlobalAccess c || (negb (String.eqb account "") && existsb (String.eqb account) (cl_AccountIDs c)).

Definition not_found {A} : Reply A := Refused 404 "ErrNotFound".

Definition reads (method : string) : bool := String.eqb method "GET" || String.eqb method "HEAD".

(** [accountAllowed]: [None] when the account is allowed; a write of a bound client
    claims an account nobody owns. *)
Definition accountAllowed {A} (history : string → bool) (method : string) (c : Claims) (account0 : string) (tab : Accounts)
  : option (Reply A) * Accounts :=
  if String.eqb (cl_CustomerID c) "" then ((if tmfAccountAllowed c account0 then None else Some not_found), tab)
  else
    let account := TrimSpace account0 in
    if String.eqb account "" || (negb (bool_decide (cl_AccountIDs c = [])) && negb (tmfAccountAllowed c account))
    then (Some not_found, tab)
    else
      let '(owner, tab') :=
        if String.eqb (AccountOwner tab account) "" && negb (reads method)
        then match ClaimAccount history account (cl_CustomerID c) (cl_Subject c) tab with
             | (Ok o, tab') => (o, tab')
             | (Err _, tab') => ("", tab')
             end
        else (AccountOwner tab account, tab) in
      ((if String.eqb owner (cl_CustomerID c) then None else Some not_found), tab').

Definition authorizeTMF {A} (history : string → bool) (now : GoTime) (method auth scope account : string) (tab : Accounts)
  : option (Reply A) * Accounts :=
  match tmfPrincipal now auth scope with
  | inl r => (Some r, tab)
  | inr c => accountAllowed history method c account tab
  end.

(** Scopes bind customer-bound clients only on the older routes. *)
Definition bssScopeAllowed (scope : string) (c : Claims) : bool := String.eqb (cl_CustomerID c) "" || has_scope scope c.

Definition authorize_claims {A} (history : string → bool) (method scope account : string) (c : Claims) (tab : Accounts)
  : option (Reply A) * Accounts :=
  if bssScopeAllowed scope c then accountAllowed history method c account tab
  else (Some (Refused 403 "insufficient_scope"), tab).

Definition authorizeBSSAccount {A} (history : string → bool) (now : GoTime) (method auth scope account : string) (tab : Accounts)
  : option (Reply A) * Accounts :=
  if bc_requireCustomerBound cfg
  then match boundPrincipal now auth with
       | inl r => (Some r, tab)
       | inr c => authorize_claims history method scope account c tab
       end
  else if lab_mode || shared_token auth then (None, tab)
  else match oauth_claims now auth with
       | None => (Some (Refused 401 "invalid_token"), tab)
       | Some c => authorize_claims history method scope account c tab
       end.

Definition authorizeBSSFleet {A} (now : GoTime) (auth : string) : option (Reply A) :=
  if bc_requireCustomerBound cfg then Some (Refused 403 "ErrGlobalClientsDisabled")
  else if lab_mode || shared_token auth then None
  else match oauth_claims now auth with
       | None => Some (Refused 401 "invalid_token")
       | Some c => if cl_GlobalAccess c then None else Some not_found
       end.

(** ** Whose secrets a caller may use *)

Definition secretOwnerOf (c : Claims) : option string :=
  if negb (String.eqb (cl_CustomerID c) "") then Some (cl_CustomerID c)
  else if cl_GlobalAccess c then Some "" else None.

Definition secretOwner (now : GoTime) (auth : string) : option string :=
  if negb (bc_requireCustomerBound cfg) && (lab_mode || shared_token auth) then Some ""
  else oauth_claims now auth ≫= secretOwnerOf.
End Auth.
