(* ===== verification/BssAdapter.v ===== *)
(** * The handlers of the BSS adapter

    [cmd/bssadapter]: orders ([main.go], [order_reconciler.go]), the secrets they
    use ([secrets.go]), mappings with their pre-provisioned sales ([main.go],
    [preprovision.go], [subscriber.go], [idempotency.go]); with the calls it makes
    into the operator API ([internal/bss/acsclient.go]) served by the handlers of
    [cmd/api] over the same tables.  An answer may be lost on the way back
    ([Delivery]).  Audit records are not modelled. *)

From S2P Require Import Prelude GoStrings Json Protected JobModel JobStore Datamodel Devices Adapters ParamCache Onboarding Sessions.
From S2P Require Import Gateway WifiView ApiWrites Operators Jwt Routes Api ControlPlane ApiJobs Bss BssAuth.

(** ** State *)

Record Site : Type := mkSite {
  si_ID : string;
  si_CustomerID : option string;
  si_ExternalRef : option string;
  si_Name : string;
  si_Street : string;
  si_City : string;
  si_PostalCode : string;
  si_Country : string
}.

(** [account_profiles] *)
Record Profile : Type := mkAccountProfile {
  pf_DisplayName : option string;
  pf_NameSource : option string;
  pf_VIP : bool;
  pf_VIPSource : option string;
  pf_UpdatedBy : option string
}.
Definition new_profile : Profile := mkAccountProfile None None false None None.

Inductive MappingBody : Type :=
| MappingCreated (m : AccountDeviceMapping) (planMatched : option bool)
| SaleAccepted (o : Onboarding) (planMatched : bool).

Record BssState : Type := mkBss {
  bs_orders : Orders;
  bs_mappings : Mappings;
  bs_accounts : Accounts;
  bs_devices : Devices;
  bs_secrets : Secrets;
  bs_jobs : gmap string Job;
  bs_sales : Sales;
  bs_sites : gmap string Site;
  bs_profiles : gmap string Profile;
  bs_keys : IdemKeys (Reply MappingBody);
  bs_serviceAccounts : gset string;
  bs_webhookAccounts : gset string
}.

Definition set_orders x st := mkBss x (bs_mappings st) (bs_accounts st) (bs_devices st) (bs_secrets st) (bs_jobs st) (bs_sales st)
  (bs_sites st) (bs_profiles st) (bs_keys st) (bs_serviceAccounts st) (bs_webhookAccounts st).
Definition set_mappings (x : Mappings * Devices) st := mkBss (bs_orders st) x.1 (bs_accounts st) x.2 (bs_secrets st) (bs_jobs st)
  (bs_sales st) (bs_sites st) (bs_profiles st) (bs_keys st) (bs_serviceAccounts st) (bs_webhookAccounts st).
Definition set_accounts x st := mkBss (bs_orders st) (bs_mappings st) x (bs_devices st) (bs_secrets st) (bs_jobs st) (bs_sales st)
  (bs_sites st) (bs_profiles st) (bs_keys st) (bs_serviceAccounts st) (bs_webhookAccounts st).
Definition set_secrets x st := mkBss (bs_orders st) (bs_mappings st) (bs_accounts st) (bs_devices st) x (bs_jobs st) (bs_sales st)
  (bs_sites st) (bs_profiles st) (bs_keys st) (bs_serviceAccounts st) (bs_webhookAccounts st).
Definition set_bss_jobs x st := mkBss (bs_orders st) (bs_mappings st) (bs_accounts st) (bs_devices st) (bs_secrets st) x
  (bs_sales st) (bs_sites st) (bs_profiles st) (bs_keys st) (bs_serviceAccounts st) (bs_webhookAccounts st).
Definition set_sales sales sites st := mkBss (bs_orders st) (bs_mappings st) (bs_accounts st) (bs_devices st) (bs_secrets st)
  (bs_jobs st) sales sites (bs_profiles st) (bs_keys st) (bs_serviceAccounts st) (bs_webhookAccounts st).
Definition set_profiles x st := mkBss (bs_orders st) (bs_mappings st) (bs_accounts st) (bs_devices st) (bs_secrets st) (bs_jobs st)
  (bs_sales st) (bs_sites st) x (bs_keys st) (bs_serviceAccounts st) (bs_webhookAccounts st).
Definition set_keys x st := mkBss (bs_orders st) (bs_mappings st) (bs_accounts st) (bs_devices st) (bs_secrets st) (bs_jobs st)
  (bs_sales st) (bs_sites st) (bs_profiles st) x (bs_serviceAccounts st) (bs_webhookAccounts st).

(** What keeps an account from being claimed. *)
Definition account_history (st : BssState) (account : string) : bool :=
  existsb (λ m, String.eqb (am_AccountID m) account) (rows (bs_mappings st))
  || existsb (λ o, String.eqb (bo_AccountID o) account) (rows (bs_orders st))
  || bool_decide (account ∈ bs_serviceAccounts st) || bool_decide (account ∈ bs_webhookAccounts st).

(** ** Calls into the operator API *)

Inductive Delivery : Type := Served | AnswerLost | NotServed.

(** The API as a request of the adapter finds it, and what becomes of each call. *)
Record Acs : Type := mkAcs { acs_env : ApiEnv; acs_net : string → Delivery }.

Definition with_devices (devices : Devices) (e : ApiEnv) : ApiEnv :=
  mkApiEnv (ae_scope e) (ae_claims e) (ae_now e) (ae_fresh e) devices (ae_params e) (ae_groups e) (ae_templates e) (ae_catalogs e).

Definition wire (w : BssWrite) : parameterInput := mkParameterInput (bw_Name w) (bw_Value w) (bw_Type w) (bw_SecretHandle w).

(** [httpguts.ValidHeaderFieldValue]: no control byte but the tab. *)
Definition header_byte (c : ascii) : bool :=
  let n := nat_of_ascii c in ((32 <=? n)%nat || (n =? 9)%nat) && negb (n =? 127)%nat.
Definition ValidHeaderFieldValue (s : string) : bool := forall_bytes header_byte s.

Section Acs.
Context (hash : json → string) (dict : result Dictionary) (rng : string → gmap string bool → list (string * bool)).
Context (acs : Acs).

Definition api_of (st : BssState) : ApiEnv := with_devices (bs_devices st) (acs_env acs).

Definition for_device {A} (st : BssState) (id : string) (k : Device → A) : Reply A :=
  match scoped_device (ae_scope (api_of st)) (bs_devices st) id with inl r => r | inr d => Replied 200 (k d) end.

(** [getDevice], [getParameterNames] and [getWiFiNetworks] of [cmd/api]. *)
Definition getDevice (st : BssState) (id : string) : Reply DataModelRoot := for_device st id d_DataModelRoot.

Definition getParameterNames (st : BssState) (id : string) : Reply (option (gmap string bool)) :=
  for_device st id (λ _, fst <$> GetNames (ae_params (api_of st)) id).

Definition getWiFiNetworks (st : BssState) (id : string) : Reply WiFiNetworksView :=
  for_device st id (λ d, match resolveWiFiView rng (api_of st) id d with
    | inl reason => mkNetworksView false reason false []
    | inr v => mkNetworksView (negb (bool_decide (wv_Networks v = []))) "" (wv_Complete v) (PrimaryWiFiNetworks v)
    end).

(** What the client makes of the answer to a GET. *)
Definition acs_read {A} (call : string) (missing : BssError) (r : Reply A) : BssError + A :=
  match acs_net acs call with
  | Served =>
      match r with
      | Replied s a => if s =? 200 then inr a else inl (ErrUnexpectedStatus s)
      | Refused s _ => inl (if s =? 404 then missing else ErrUnexpectedStatus s)
      end
  | _ => inl ErrACSUnreachable
  end.

Definition GetDevice (st : BssState) (id : string) : BssError + DataModelRoot :=
  acs_read "GetDevice" ErrDeviceLookupNotFound (getDevice st id).
Definition GetParameterNames (st : BssState) (id : string) : BssError + option (gmap string bool) :=
  acs_read "GetParameterNames" ErrDeviceLookupNotFound (getParameterNames st id).
Definition GetWiFiNetworks (st : BssState) (id : string) : BssError + WiFiNetworksView :=
  acs_read "GetWiFiNetworks" ErrDeviceLookupNotFound (getWiFiNetworks st id).
Definition GetJobStatus (st : BssState) (key : string) : BssError + Job :=
  acs_read "GetJobStatus" ErrJobNotFound (getJob (api_of st) key (bs_jobs st)).

(** The answer of the write, and the job table it leaves. *)
Definition SetParametersWithIdempotency (st : BssState) (device : string) (params : list BssWrite) (key : string)
  : (BssError + string) * gmap string Job :=
  if negb (ValidHeaderFieldValue key) then (inl ErrACSUnreachable, bs_jobs st)
  else
    let '(reply, jobs') := putParameters hash dict (api_of st) device key (Some (wire <$> params)) (bs_jobs st) in
    match acs_net acs "SetParameters" with
    | NotServed => (inl ErrACSUnreachable, bs_jobs st)
    | AnswerLost => (inl ErrACSUnreachable, jobs')
    | Served =>
        (match reply with
         | Replied s q => if s =? 202 then inr (CommandKey (qr_job q)) else inl (ErrUnexpectedStatus s)
         | Refused s _ => inl (ErrUnexpectedStatus s)
         end, jobs')
    end.

Definition translateActionForDevice (wg : WalledGardenConfig) (st : BssState) (action : string) (input : gmap string string)
    (device : string) : BssError + list BssWrite :=
  if negb (String.eqb action "MODIFY_WIFI") then Translate action input wg RootUnknown
  else
    attempt root <- GetDevice st device;
    if bool_decide (root = RootDevice2)
    then attempt view <- GetWiFiNetworks st device; TranslateModifyWifiNetworks input view
    else attempt names <- GetParameterNames st device; TranslateWithCapabilities action input wg root names.

(** ** The outbox *)

(** The key every attempt at an order uses. *)
Definition dispatch_key (id : string) : string := ("bss:" ++ id ++ ":set-parameters")%string.

Definition bss_error_text (e : BssError) : string :=
  match e with
  | ErrUnsupportedAction d => "unsupported or not-yet-implemented BSS action: " ++ d
  | ErrInvalidParameters d => "order parameters do not satisfy the requested action: " ++ d
  | ErrACSUnreachable => "internal ACS REST engine unreachable"
  | ErrDeviceLookupNotFound => "device not found"
  | ErrJobNotFound => "job not found"
  | ErrUnexpectedStatus s => "unexpected status from ACS: " ++ Itoa s
  end%string.

Definition record_outcome (now : GoTime) (id : string) (outcome : BssError + string) (tab : Orders) : Orders :=
  match outcome with
  | inr key => MarkDispatched now id key tab
  | inl e => MarkDispatchFailed now id (bss_error_text e) tab
  end.

(** An attempt at an order: the call, then its outcome on the row. *)
Definition attempt_order (now : GoTime) (id device : string) (params : list BssWrite) (st : BssState)
  : (BssError + string) * BssState :=
  let '(outcome, jobs') := SetParametersWithIdempotency st device params (dispatch_key id) in
  (outcome, set_orders (record_outcome now id outcome (bs_orders st)) (set_bss_jobs jobs' st)).

Inductive DispatchError : Type := OrderExists | InsertFailed (e : string) | AttemptFailed (e : BssError).

Definition dispatchOrder (now : GoTime) (id account action device : string) (params : list BssWrite) (st : BssState)
  : (DispatchError + string) * BssState :=
  match InsertPending (bs_devices st) now id account action device params (bs_orders st) with
  | (Err e, _) => (inl (if String.eqb e ErrOrderAlreadyExists then OrderExists else InsertFailed e), st)
  | (Ok _, orders') =>
      match attempt_order now id device params (set_orders orders' st) with
      | (inr key, st') => (inr key, st')
      | (inl e, st') => (inl (AttemptFailed e), st')
      end
  end.
End Acs.

(** [reconcilePendingOrders]: the orders claimed, one attempt each; [acs] is the API
    as each attempt finds it. *)
Definition orderReconcileBatch : nat := 50%nat.

Section Reconcile.
Context (hash : json → string) (dict : result Dictionary).

Definition attempt_claimed (acs : string → Acs) (now : GoTime) (orders : list OrderRecord) (st : BssState) : BssState :=
  foldl (λ st o, (attempt_order hash dict (acs (bo_ExternalOrderID o)) now (bo_ExternalOrderID o) (bo_DeviceID o)
                    (bo_Parameters o) st).2) st orders.

Definition reconcilePendingOrders (arrange : list OrderRecord → list OrderRecord) (locked : string → bool) (acs : string → Acs)
    (now : GoTime) (st : BssState) : BssState :=
  let '(claimed, orders') := ClaimDuePendingOrders locked now orderReconcileBatch (bs_orders st) in
  attempt_claimed acs now (arrange claimed) (set_orders orders' st).
End Reconcile.

(** ** Requests *)

(** What a handler of the adapter sees besides its body. *)
Record BssCall : Type := mkBssCall {
  cx_now : GoTime;
  cx_method : string;
  cx_auth : string;
  cx_key : string;
  cx_uuid : string;
  cx_uuid2 : string
}.

Definition roleOrDefault (role : string) : string := if String.eqb role "" then "gateway" else role.

Inductive SecretError : Type := SecretPlain | SecretInvalid | SecretOther (e : string).

Definition secret_refusal {A} (e : SecretError) : Reply A :=
  match e with
  | SecretPlain => Refused 400 "ErrInvalidRequest"
  | SecretInvalid => Refused 400 "ErrSecretHandleInvalid"
  | SecretOther _ => Refused 500 "ErrInternal"
  end.

Record createOrderRequest : Type := mkOrderRequest {
  oq_ExternalOrderID : string;
  oq_AccountID : string;
  oq_Action : string;
  oq_Role : string;
  oq_Parameters : gmap string string
}.

(** The status is the order's own while no job exists, else the job's. *)
Record orderResponse : Type := mkOrderResponse {
  rs_OrderTrackingID : string; rs_CommandKey : string; rs_Status : OrderStatus + JobStatus
}.

Section Handlers.
Context (hmac : string → string → string) (Unmarshal : string → option json).
Context (hash : json → string) (dict : result Dictionary) (rng : string → gmap string bool → list (string * bool)).
Context (cfg : BssConfig) (acs : Acs).

Definition authorized {A} (scope account : string) (cx : BssCall) (st : BssState) : option (Reply A) * BssState :=
  let '(r, tab) := authorizeBSSAccount hmac Unmarshal cfg (account_history st) (cx_now cx) (cx_method cx) (cx_auth cx) scope account
                     (bs_accounts st) in (r, set_accounts tab st).

(** ** Secrets *)

(** Each handle in turn; the claims before a refusal stay. *)
Fixpoint claim_each (cx : BssCall) (owner device : string) (handles : list string) (tab : Secrets) : option SecretError * Secrets :=
  match handles with
  | [] => (None, tab)
  | h :: rest =>
      match ClaimSecret (bc_secretKey cfg) (cx_now cx) h owner device tab with
      | (Ok _, tab') => claim_each cx owner device rest tab'
      | (Err e, tab') =>
          (Some (if String.eqb e ErrInvalidHandle || String.eqb e ErrDisabled then SecretInvalid else SecretOther e), tab')
      end
  end.

Definition check_each (cx : BssCall) (owner : string) (handles : list string) (tab : Secrets) : option SecretError :=
  first_error (λ h, match CheckSecret (bc_secretKey cfg) (cx_now cx) h owner tab with
                    | Ok _ => None
                    | Err e => Some (if String.eqb e ErrInvalidHandle || String.eqb e ErrDisabled then SecretInvalid else SecretOther e)
                    end) handles.

(** [claim]: false for a preflight, which only checks. *)
Definition claimSecrets (cx : BssCall) (input : gmap string string) (writes : list BssWrite) (device : string) (claim : bool)
    (tab : Secrets) : option SecretError * Secrets :=
  if bc_requireSecretHandles cfg && negb (String.eqb (param input "wifi_password") "") then (Some SecretPlain, tab)
  else match SecretHandles writes with
  | [] => (None, tab)
  | handles =>
      match secretOwner hmac Unmarshal cfg (cx_now cx) (cx_auth cx) with
      | None => (Some SecretInvalid, tab)
      | Some owner => if claim then claim_each cx owner device handles tab else (check_each cx owner handles tab, tab)
      end
  end.

(** ** Orders *)

Definition respondWithExistingOrder (id : string) (o : OrderRecord) (st : BssState) : Reply orderResponse :=
  if negb (bool_decide (bo_Status o = OrderDispatched))
  then Replied 202 (mkOrderResponse id "" (inl (bo_Status o)))
  else
    let key := default "" (bo_CommandKey o) in
    match GetJobStatus acs st key with
    | inl _ => Refused 502 "ErrACSUnreachable"
    | inr j => Replied 202 (mkOrderResponse id key (inr (Status j)))
    end.

(** How an order answers an action that has no translation; [code] is what the
    endpoint answers a request it cannot translate. *)
Definition translation_refusal {A} (code : string) (e : BssError) : Reply A :=
  match e with
  | ErrACSUnreachable => Refused 502 "ErrACSUnreachable"
  | ErrDeviceLookupNotFound => Refused 404 "ErrDeviceNotFound"
  | _ => Refused 400 code
  end.

Definition createOrder (cx : BssCall) (body : option createOrderRequest) (st : BssState) : Reply orderResponse * BssState :=
  match body with
  | None => (Refused 400 "ErrInvalidRequest", st)
  | Some req =>
      if existsb (λ s, String.eqb s "") [oq_ExternalOrderID req; oq_AccountID req; oq_Action req]
      then (Refused 400 "ErrInvalidRequest", st)
      else match authorized ScopeTMFExecute (oq_AccountID req) cx st with
      | (Some r, st) => (r, st)
      | (None, st) =>
          match FindOrder (bs_orders st) (oq_ExternalOrderID req) with
          | Some o => (respondWithExistingOrder (oq_ExternalOrderID req) o st, st)
          | None =>
              match ActiveDeviceForAccount (bs_mappings st) (oq_AccountID req) (roleOrDefault (oq_Role req)) with
              | None => (Refused 404 "ErrDeviceNotMapped", st)
              | Some m =>
                  match translateActionForDevice rng acs (bc_walledGarden cfg) st (oq_Action req) (oq_Parameters req) (am_DeviceID m) with
                  | inl e => (translation_refusal "ErrInvalidRequest" e, st)
                  | inr params =>
                      match claimSecrets cx (oq_Parameters req) params (am_DeviceID m) true (bs_secrets st) with
                      | (Some e, secrets') => (secret_refusal e, set_secrets secrets' st)
                      | (None, secrets') =>
                          match dispatchOrder hash dict acs (cx_now cx) (oq_ExternalOrderID req) (oq_AccountID req) (oq_Action req)
                                  (am_DeviceID m) params (set_secrets secrets' st) with
                          | (inr key, st') => (Replied 202 (mkOrderResponse (oq_ExternalOrderID req) key (inr StatusQueued)), st')
                          | (inl OrderExists, st') =>
                              (match FindOrder (bs_orders st') (oq_ExternalOrderID req) with
                               | Some o => respondWithExistingOrder (oq_ExternalOrderID req) o st'
                               | None => Refused 500 "ErrInternal"
                               end, st')
                          | (inl (AttemptFailed ErrACSUnreachable), st') => (Refused 502 "ErrACSUnreachable", st')
                          | (inl _, st') => (Refused 500 "ErrInternal", st')
                          end
                      end
                  end
              end
          end
      end
  end.

(** A preflight answers the writes, redacted, and queues nothing.  An account that
    nobody owns is claimed, as by any POST. *)
Definition preflightAction (cx : BssCall) (body : option createOrderRequest) (st : BssState)
  : Reply (string * list BssWrite) * BssState :=
  match body with
  | None => (Refused 400 "ErrInvalidRequest", st)
  | Some req =>
      if existsb (λ s, String.eqb s "") [oq_AccountID req; oq_Action req] then (Refused 400 "ErrInvalidRequest", st)
      else match authorized ScopeTMFRead (oq_AccountID req) cx st with
      | (Some r, st) => (r, st)
      | (None, st) =>
          (match ActiveDeviceForAccount (bs_mappings st) (oq_AccountID req) (roleOrDefault (oq_Role req)) with
           | None => Refused 404 "ErrDeviceNotMapped"
           | Some m =>
               match translateActionForDevice rng acs (bc_walledGarden cfg) st (oq_Action req) (oq_Parameters req) (am_DeviceID m) with
               | inl e => translation_refusal "ErrUnsupportedAction" e
               | inr params =>
                   match (claimSecrets cx (oq_Parameters req) params (am_DeviceID m) false (bs_secrets st)).1 with
                   | Some e => secret_refusal e
                   | None => Replied 200 (am_DeviceID m, RedactSecretWrites params)
                   end
               end
           end, st)
      end
  end.

(** The status of a job that an order of the caller's account queued. *)
Definition getOrderJob (cx : BssCall) (key : string) (st : BssState) : Reply Job * BssState :=
  match FindOrderByCommandKey (bs_orders st) key with
  | None => (Refused 404 "ErrJobNotFound", st)
  | Some o =>
      match authorized ScopeTMFRead (bo_AccountID o) cx st with
      | (Some r, st) => (r, st)
      | (None, st) =>
          (match GetJobStatus acs st key with
           | inr j => Replied 200 j
           | inl ErrJobNotFound => Refused 404 "ErrJobNotFound"
           | inl ErrACSUnreachable => Refused 502 "ErrACSUnreachable"
           | inl _ => Refused 500 "ErrInternal"
           end, st)
      end
  end.

(** ** Mappings *)

Definition listMappings (cx : BssCall) (account : string) (st : BssState) : Reply (list AccountDeviceMapping) * BssState :=
  match authorized ScopeTMFRead account cx st with
  | (Some r, st) => (r, st)
  | (None, st) => (Replied 200 (ListByAccount (bs_mappings st) account), st)
  end.

(** Root, whether discovery is complete, and the writable names. *)
Definition getMappedDeviceCapabilities (cx : BssCall) (account role : string) (st : BssState)
  : Reply (DataModelRoot * bool * list string) * BssState :=
  match authorized ScopeTMFRead account cx st with
  | (Some r, st) => (r, st)
  | (None, st) =>
      (match ActiveDeviceForAccount (bs_mappings st) account (roleOrDefault role) with
       | None => Refused 404 "ErrDeviceNotMapped"
       | Some m =>
           match GetDevice acs st (am_DeviceID m) with
           | inl ErrACSUnreachable => Refused 502 "ErrACSUnreachable"
           | inl ErrDeviceLookupNotFound => Refused 404 "ErrDeviceNotFound"
           | inl _ => Refused 500 "ErrInternal"
           | inr root =>
               match GetParameterNames acs st (am_DeviceID m) with
               | inl ErrACSUnreachable => Refused 502 "ErrACSUnreachable"
               | inl _ => Refused 500 "ErrInternal"
               | inr names =>
                   Replied 200 (root, is_some names,
                     SortStrings (fst <$> List.filter (λ kv : string * bool, kv.2) (map_to_list (default ∅ names))))
               end
           end
       end, st)
  end.

(** *** Sales before installation *)

Record Place : Type := mkPlace {
  pc_ID : string; pc_Name : string; pc_Street : string; pc_City : string; pc_PostalCode : string; pc_Country : string
}.

Record createMappingRequest : Type := mkMappingRequest {
  mq_AccountID : string;
  mq_OUISerial : string;
  mq_DeviceUUID : string;
  mq_ServicePlan : string;
  mq_Role : string;
  mq_PreProvision : bool;
  mq_CustomerID : string;
  mq_SubscriberName : option string;
  mq_VIP : option bool;
  mq_ICCID : string;
  mq_IMSI : string;
  mq_Place : option Place
}.

(** [splitEscaped]: the field being read and the rest; a backslash takes the next
    byte, and is itself a byte at the end. *)
Fixpoint splitEscaped (cur s : string) : list string :=
  match s with
  | EmptyString => [cur]
  | String c s' =>
      if Ascii.eqb c "\" then
        match s' with
        | String c2 s'' => splitEscaped (cur ++ String c2 "") s''
        | EmptyString => [(cur ++ String c "")%string]
        end
      else if Ascii.eqb c "+" then cur :: splitEscaped "" s'
      else splitEscaped (cur ++ String c "") s'
  end.

(** The OUI and the serial number of a device identity. *)
Definition ParseOUISerial (s0 : string) : string * string :=
  let s := TrimSpace s0 in
  let parts := if Contains s "+" then splitEscaped "" s else Split s "-" in
  match parts with
  | oui :: _ :: _ => (ToUpper oui, List.last parts "")
  | _ => ("", s)
  end.

Definition onboardingRole (role : string) : string :=
  if existsb (String.eqb role) ["gateway"; "extender"; "ont"] then role else "other".

Context (plans : gmap string ServicePlan).

(** A shared plan first, else the one customer plan; [Err] when two customers have
    the code. *)
Definition PlanByCode (code : string) : result (option ServicePlan) :=
  match List.filter (λ p, String.eqb (pl_Code p) (TrimSpace code)) (rows plans) with
  | [] => Ok None
  | found =>
      match List.find (λ p, negb (is_some (pl_CustomerID p))) found, found with
      | Some p, _ | None, [p] => Ok (Some p)
      | None, _ => Err "ambiguous plan"
      end
  end.

Definition PlanForCustomer (code customer : string) : option ServicePlan :=
  let mine := List.filter (λ p, String.eqb (pl_Code p) (TrimSpace code)) (rows plans) in
  match List.find (λ p, bool_decide (pl_CustomerID p = Some customer)) mine with
  | Some p => Some p
  | None => List.find (λ p, negb (is_some (pl_CustomerID p))) mine
  end.

Definition resolvePlan (code owner : string) : result (option ServicePlan) :=
  if String.eqb (TrimSpace code) "" || negb (bc_onboarding cfg) then Ok None
  else if String.eqb owner "" then PlanByCode code else Ok (PlanForCustomer code owner).

Definition DeviceOwners (devices : Devices) (oui serial : string) : list (option string) :=
  (λ d, d_CustomerID (d_ownership d)) <$>
    List.filter (λ d, String.eqb (d_SerialNumber (d_identity d)) (TrimSpace serial)
                      && (String.eqb (TrimSpace oui) "" || String.eqb (ToUpper (d_OUI (d_identity d))) (ToUpper (TrimSpace oui))))
      (rows devices).

(** A device of another customer is never moved by a sale. *)
Definition another_owner (customer owner : option string) : bool :=
  match owner, customer with Some a, Some b => negb (String.eqb a b) | _, _ => false end.

Definition SiteByRef (sites : gmap string Site) (customer : option string) (ref : string) : option Site :=
  List.find (λ s, bool_decide (si_ExternalRef s = Some (TrimSpace ref))
                  && String.eqb (default "" (si_CustomerID s)) (default "" customer)) (rows sites).

Definition place_site (uuid : string) (customer : option string) (p : Place) (sites : gmap string Site)
  : result (string * gmap string Site) :=
  match SiteByRef sites customer (pc_ID p) with
  | Some s => Ok (si_ID s, sites)
  | None =>
      let name := if String.eqb (TrimSpace (pc_Name p)) "" then pc_ID p else TrimSpace (pc_Name p) in
      if String.eqb (TrimSpace name) "" then Err "site name is required"
      else if is_some (sites !! uuid) then Err "duplicate key value violates unique constraint"
      else Ok (uuid, <[uuid := mkSite uuid customer (Some (TrimSpace (pc_ID p))) (TrimSpace name) (pc_Street p) (pc_City p)
                               (pc_PostalCode p) (pc_Country p)]> sites)
  end.

Definition sale_site (uuid : string) (customer : option string) (place : option Place) (sites : gmap string Site)
  : result (option string * gmap string Site) :=
  match place with
  | Some p => if String.eqb (TrimSpace (pc_ID p)) "" then Ok (None, sites)
              else try (id, sites) <- place_site uuid customer p sites; Ok (Some id, sites)
  | None => Ok (None, sites)
  end.

Inductive PreProvisionError : Type := PPUnavailable | PPInvalid | PPRefused (e : string).

(** The open sale of the serial, or a new one; [refs_ok] as in [CreateSale]. *)
Definition preProvision (refs_ok : bool) (cx : BssCall) (req : createMappingRequest) (st : BssState)
  : (PreProvisionError + Onboarding) * BssState :=
  let role := roleOrDefault (mq_Role req) in
  let '(oui, serial) := ParseOUISerial (mq_OUISerial req) in
  let owner := AccountOwner (bs_accounts st) (mq_AccountID req) in
  if negb (bc_onboarding cfg) then (inl PPUnavailable, st)
  else if negb (ValidRole role) then (inl PPInvalid, st)
  else if String.eqb serial "" then (inl (PPRefused "ouiSerial has no serial number"), st)
  else match OpenBySerial (bs_sales st) serial with
  | Some o => (if String.eqb (s_AccountRef (o_sale o)) (mq_AccountID req) then inr o
               else inl (PPRefused "this serial already has an open sale for another account"), st)
  | None =>
      if negb (String.eqb (mq_CustomerID req) "") && negb (String.eqb (mq_CustomerID req) owner)
      then (inl (PPRefused "customer_id does not match the account's customer"), st)
      else match resolvePlan (mq_ServicePlan req) owner with
      | Err e => (inl (PPRefused e), st)
      | Ok plan =>
          let customer := if String.eqb owner "" then plan ≫= pl_CustomerID else Some owner in
          if existsb (another_owner customer) (DeviceOwners (bs_devices st) oui serial)
          then (inl (PPRefused "a device with this serial belongs to another customer"), st)
          else
            match sale_site (cx_uuid2 cx) customer (mq_Place req) (bs_sites st) with
            | Err e => (inl (if String.eqb e "site name is required" then PPInvalid else PPRefused e), st)
            | Ok (siteID, sites) =>
                let sale := mkSale "" customer oui serial "" (mq_ICCID req) (mq_IMSI req) (mq_AccountID req) (onboardingRole role)
                              "" "bss" "" ("bss:" ++ mq_AccountID req)%string role 0 in
                let o := mkOnboarding sale None siteID (pl_ID <$> plan) (TrimSpace (mq_ServicePlan req)) StatePlanned "" "" [] 0
                           None None None in
                match CreateSale refs_ok (cx_uuid cx) (cx_now cx) o (bs_sales st) with
                | (Ok o, sales') => (inr o, set_sales sales' sites st)
                | (Err e, sales') =>
                    (inl (if String.eqb e "expected_serial is required" then PPInvalid else PPRefused e), set_sales sales' sites st)
                end
            end
      end
  end.

(** *** Subscribers *)

Definition maxSubscriberName : nat := 120%nat.
Definition SourceBSS : string := "bss".
Definition SourceOperator : string := "operator".

(** [subscribers.Repository.Set]; [Err] is [ErrNameFromBSS]. *)
Definition SetSubscriber (account source actor : string) (name : option string) (vip : option bool) (tab : gmap string Profile)
  : result unit * gmap string Profile :=
  if negb (is_some name) && negb (is_some vip) then (Ok tt, tab)
  else
    let p := default new_profile (tab !! account) in
    if is_some name && String.eqb source SourceOperator && bool_decide (pf_NameSource p = Some SourceBSS)
    then (Err "the subscriber name comes from the BSS and cannot be changed here", tab)
    else
      let p := match name with
               | None => p
               | Some n => let n := TrimSpace n in
                           mkAccountProfile (nullIfEmpty n) (if String.eqb n "" then None else Some source) (pf_VIP p) (pf_VIPSource p)
                             (Some actor)
               end in
      let p := match vip with
               | None => p
               | Some v => mkAccountProfile (pf_DisplayName p) (pf_NameSource p) v (Some source) (Some actor)
               end in
      (Ok tt, <[account := p]> tab).

Definition applySubscriber {A} (account : string) (name : option string) (vip : option bool) (st : BssState)
  : option (Reply A) * BssState :=
  if match name with Some n => (maxSubscriberName <? String.length (TrimSpace n))%nat | None => false end
  then (Some (Refused 400 "ErrInvalidRequest"), st)
  else match SetSubscriber account SourceBSS ("bss:" ++ account)%string name vip (bs_profiles st) with
       | (Ok _, tab) => (None, set_profiles tab st)
       | (Err _, _) => (Some (Refused 500 "ErrInternal"), st)
       end.

Definition putAccountSubscriber (cx : BssCall) (account : string) (body : option (option string * option bool)) (st : BssState)
  : Reply (option string * bool) * BssState :=
  match body with
  | None | Some (None, None) => (Refused 400 "ErrInvalidRequest", st)
  | Some (name, vip) =>
      match authorized ScopeTMFWrite account cx st with
      | (Some r, st) => (r, st)
      | (None, st) =>
          match applySubscriber account name vip st with
          | (Some r, st) => (r, st)
          | (None, st) =>
              (match bs_profiles st !! account with
               | Some p => Replied 200 (pf_DisplayName p, pf_VIP p)
               | None => Refused 500 "ErrInternal"
               end, st)
          end
      end
  end.

(** *** POST /bss/v1/mappings *)

Definition mapping_refusal (e : MappingError) : Reply MappingBody :=
  match e with
  | ErrDeviceNotFound => Refused 404 "ErrDeviceNotMapped"
  | ErrInvalidRole | ErrInvalidUnassignReason => Refused 400 "ErrInvalidRequest"
  | ErrDeviceAlreadyAssigned => Refused 409 "ErrDeviceAlreadyAssigned"
  | ErrRoleAlreadyAssigned => Refused 409 "ErrRoleAlreadyAssigned"
  | _ => Refused 500 "ErrInternal"
  end.

Definition plan_matched (m : AccountDeviceMapping) (st : BssState) : option bool :=
  let code := default "" (am_ServicePlan m) in
  if String.eqb (TrimSpace code) "" || negb (bc_onboarding cfg) then None
  else match resolvePlan code (AccountOwner (bs_accounts st) (am_AccountID m)) with Ok p => Some (is_some p) | Err _ => None end.

(** The device the request names must be the one its serial resolves to. *)
Definition uuid_refusal (req : createMappingRequest) (st : BssState) : option (Reply MappingBody) :=
  if String.eqb (mq_DeviceUUID req) "" then None
  else match DeviceIDForSerial (bs_devices st) (mq_OUISerial req) with
       | None => Some (Refused 404 "ErrDeviceNotMapped")
       | Some id => if String.eqb (mq_DeviceUUID req) id then None else Some (Refused 400 "ErrInvalidRequest")
       end.

Definition createMappingAuthorized (refs_ok : bool) (cx : BssCall) (req : createMappingRequest) (st : BssState)
  : Reply MappingBody * BssState :=
  match uuid_refusal req st with
  | Some r => (r, st)
  | None =>
      match applySubscriber (mq_AccountID req) (mq_SubscriberName req) (mq_VIP req) st with
      | (Some r, st) => (r, st)
      | (None, st) =>
          match AssignDevice (cx_uuid cx) (cx_now cx) (bs_accounts st) (mq_AccountID req) (mq_OUISerial req)
                  (roleOrDefault (mq_Role req)) (mq_ServicePlan req) (bs_mappings st, bs_devices st) with
          | (inr m, tabs) => let st := set_mappings tabs st in (Replied 200 (MappingCreated m (plan_matched m st)), st)
          | (inl ErrDeviceNotFound, _) =>
              if mq_PreProvision req then
                match preProvision refs_ok cx req st with
                | (inr o, st) => (Replied 202 (SaleAccepted o (is_some (o_ServicePlanID o))), st)
                | (inl PPInvalid, st) => (Refused 400 "ErrInvalidRequest", st)
                | (inl (PPRefused _), st) => (Refused 409 "ErrPreProvisionRefused", st)
                | (inl PPUnavailable, st) => (mapping_refusal ErrDeviceNotFound, st)
                end
              else (mapping_refusal ErrDeviceNotFound, st)
          | (inl e, _) => (mapping_refusal e, st)
          end
      end
  end.

Definition reply_status {A} (r : Reply A) : Z := match r with Refused s _ => s | Replied s _ => s end.
Definition maxIdempotencyKeyLen : nat := 255%nat.
Definition sale_location (r : Reply MappingBody) : string :=
  match r with Replied _ (SaleAccepted o _) => ("/bss/v1/onboardings/" ++ s_ID (o_sale o))%string | _ => "" end.

(** [idempotent] around one write; [reqhash] is the hash of the request.  The flag
    says that the answer is a replay. *)
Definition idempotent (cx : BssCall) (account operation reqhash : string) (run : BssState → Reply MappingBody * BssState)
    (st : BssState) : (Reply MappingBody * bool) * BssState :=
  let key := TrimSpace (cx_key cx) in
  if String.eqb key "" then let '(r, st) := run st in ((r, false), st)
  else if (maxIdempotencyKeyLen <? String.length key)%nat then ((Refused 400 "ErrInvalidRequest", false), st)
  else
    let '(b, keys) := BeginIdempotent (cx_now cx) account key operation reqhash (bs_keys st) in
    let st := set_keys keys st in
    match b with
    | BeginMismatch => ((Refused 409 "ErrIdempotencyKeyReused", false), st)
    | BeginInFlight => ((Refused 409 "ErrIdempotencyKeyInFlight", false), st)
    | BeginReplay resp => ((ir_Body resp, true), st)
    | BeginRun =>
        let '(r, st) := run st in
        ((r, false),
         set_keys (if 500 <=? reply_status r then ReleaseIdempotent account key (bs_keys st)
                   else CompleteIdempotent account key (mkIdemResponse (reply_status r) r (sale_location r)) (bs_keys st)) st)
    end.

Definition createMapping (refs_ok : bool) (reqhash : createMappingRequest → string) (cx : BssCall)
    (body : option createMappingRequest) (st : BssState) : (Reply MappingBody * bool) * BssState :=
  match body with
  | None => ((Refused 400 "ErrInvalidRequest", false), st)
  | Some req =>
      if String.eqb (mq_AccountID req) "" || String.eqb (mq_OUISerial req) "" then ((Refused 400 "ErrInvalidRequest", false), st)
      else match authorized ScopeTMFWrite (mq_AccountID req) cx st with
      | (Some r, st) => ((r, false), st)
      | (None, st) => idempotent cx (mq_AccountID req) "mapping.create" (reqhash req) (createMappingAuthorized refs_ok cx req) st
      end
  end.
End Handlers.
