(* ===== verification/BssTheorems.v ===== *)
(** * The outbox of BSS orders

    An order is written down before it is sent, sent by whoever holds it, and the
    outcome written down after.  Between those points a process can stop, an answer
    can get lost, another replica can claim the order, and the rest of the system
    works on the job table.  [adapter_event] is one thing a request or a pass of
    the reconciler does; [outbox_step] is such an event, a crash, or something the
    rest of the system does in between. *)

From S2P Require Import Prelude GoStrings Json Protected JobModel JobStore Datamodel Devices Adapters ParamCache Onboarding Sessions.
From S2P Require Import JobLaws Gateway WifiView ApiWrites Operators Jwt Routes Api ControlPlane ApiJobs ApiJobsTheorems Bss BssAuth BssAdapter.

(** ** Worlds *)

(** What a process is doing: about to call, or about to record what the call said. *)
Inductive Flight : Type :=
| Calling (id device : string) (params : list BssWrite)
| Called (id : string) (outcome : BssError + string).

Definition calling (o : OrderRecord) : Flight := Calling (bo_ExternalOrderID o) (bo_DeviceID o) (bo_Parameters o).

(** [ow_log] remembers which job each answered call named. *)
Record World : Type := mkWorld_ { ow_state : BssState; ow_flight : list Flight; ow_clock : GoTime; ow_log : list (string * Job) }.

Definition answered (id : string) (outcome : BssError + string) (jobs : gmap string Job) : list (string * Job) :=
  match outcome with
  | inr key => match ByCommandKey jobs key with Some j => [(id, j)] | None => [] end
  | inl _ => []
  end.

Section Outbox.
Context (hash : json → string) (dict : result Dictionary).

(** What the adapter itself does to orders and jobs: record an order, claim the
    orders that are due, send an order it holds, note what came of it.  Nothing
    else of it touches them. *)
Inductive adapter_event : World → World → Prop :=
| step_accept st fl clock log now id account action device params orders' :
    clock <= now →
    InsertPending (bs_devices st) now id account action device params (bs_orders st) = (Ok tt, orders') →
    adapter_event (mkWorld_ st fl clock log) (mkWorld_ (set_orders orders' st) (Calling id device params :: fl) now log)
| step_claim st fl clock log now locked limit claimed :
    clock <= now →
    claimed ≡ₚ (ClaimDuePendingOrders locked now limit (bs_orders st)).1 →
    adapter_event (mkWorld_ st fl clock log)
      (mkWorld_ (set_orders (ClaimDuePendingOrders locked now limit (bs_orders st)).2 st) ((calling <$> claimed) ++ fl) now log)
| step_call st fl1 fl2 clock log acs id device params outcome jobs' :
    SetParametersWithIdempotency hash dict acs st device params (dispatch_key id) = (outcome, jobs') →
    adapter_event (mkWorld_ st (fl1 ++ Calling id device params :: fl2) clock log)
      (mkWorld_ (set_bss_jobs jobs' st) (fl1 ++ Called id outcome :: fl2) clock (answered id outcome jobs' ++ log))
| step_record st fl1 fl2 clock log now id outcome :
    clock <= now →
    adapter_event (mkWorld_ st (fl1 ++ Called id outcome :: fl2) clock log)
      (mkWorld_ (set_orders (record_outcome now id outcome (bs_orders st)) st) (fl1 ++ fl2) now log)
| step_elsewhere st st' fl clock log :
    bs_orders st' = bs_orders st → bs_jobs st' = bs_jobs st →
    adapter_event (mkWorld_ st fl clock log) (mkWorld_ st' fl clock log).

Inductive outbox_step : World → World → Prop :=
| step_adapter w w' : adapter_event w w' → outbox_step w w'
| step_crash st fl1 x fl2 clock log :
    outbox_step (mkWorld_ st (fl1 ++ x :: fl2) clock log) (mkWorld_ st (fl1 ++ fl2) clock log)
| step_notified st fl clock log now id :
    clock <= now →
    outbox_step (mkWorld_ st fl clock log) (mkWorld_ (set_orders (MarkOrderNotified now id (bs_orders st)) st) fl now log)
| step_queue st fl clock log jobs' :
    job_step hash (bs_jobs st) jobs' → outbox_step (mkWorld_ st fl clock log) (mkWorld_ (set_bss_jobs jobs' st) fl clock log)
| step_forget st fl clock log k :
    outbox_step (mkWorld_ st fl clock log) (mkWorld_ (set_bss_jobs (delete k (bs_jobs st)) st) fl clock log).

Definition initial_world (w : World) : Prop :=
  bs_orders (ow_state w) = ∅ ∧ reachable hash (bs_jobs (ow_state w)) ∧ ow_flight w = [] ∧ ow_log w = [].

Definition reached (w : World) : Prop := ∃ w0, initial_world w0 ∧ rtc outbox_step w0 w.

(** ** One call *)

Lemma dispatch_key_text id : String.eqb (TrimSpace (dispatch_key id)) "" = false.
Proof.
  unfold dispatch_key. change ("bss:" ++ id ++ ":set-parameters")%string with (String "b" ("ss:" ++ id ++ ":set-parameters")).
  unfold TrimSpace. simpl. by destruct (TrimRightSpace _).
Qed.

(** The job a create under a key gives back. *)
Lemma created_under_key al fr now dev t p by_ key tab j tab' :
  String.eqb (TrimSpace key) "" = false →
  CreateWithIdempotency hash al fr now dev t p by_ key tab = (Ok j, tab') →
  (∃ k, tab' !! k = Some j) ∧ DeviceID j = dev ∧ Type_ j = t ∧ IdempotencyKey j = Some key ∧ RequestHash j = Some (hash p).
Proof.
  intros Hk. unfold CreateWithIdempotency. rewrite Hk. destruct (checkProtectedWrite _ _ _); [done|].
  destruct (findByIdempotency tab dev t key) as [i|] eqn:Ef.
  - apply findByIdempotency_some in Ef as (Hin & Hd & Ht & Hi). destruct (RequestHash i) as [h|] eqn:Eh; [|done].
    destruct (String.eqb_spec h (hash p)) as [->|]; [|done]. intros [= <- <-]. done.
  - unfold insert_job. destruct (unique_ok _ _); [|done]. intros [= <- <-]. split; [|done].
    eexists. apply lookup_insert_eq.
Qed.

(** While a job stands under the key, a create under it writes nothing. *)
Lemma create_under_taken_key al fr now dev t p by_ key tab k j :
  table_ok tab → String.eqb (TrimSpace key) "" = false →
  tab !! k = Some j → DeviceID j = dev → Type_ j = t → IdempotencyKey j = Some key →
  (CreateWithIdempotency hash al fr now dev t p by_ key tab).2 = tab ∧
  ∀ i, (CreateWithIdempotency hash al fr now dev t p by_ key tab).1 = Ok i → i = j.
Proof.
  intros Hok Hk Hj Hd Ht Hi. unfold CreateWithIdempotency. rewrite Hk.
  rewrite (findByIdempotency_unique tab k j dev t key Hok Hj Hd Ht Hi).
  destruct (checkProtectedWrite _ _ _); [by cbn|]. destruct (RequestHash j) as [h|]; [|by cbn].
  destruct (String.eqb h _); cbn; [|done]. split; [done|]. by intros i [= ->].
Qed.

(** A write the API answers came from one create, or left the table alone. *)
Lemma putParameters_shape env dev key body tab :
  (putParameters hash dict env dev key body tab).2 = tab ∧
    (∀ s q, (putParameters hash dict env dev key body tab).1 ≠ Replied s q)
  ∨ ∃ inputs p, body = Some inputs ∧ buildSetParameterPayload dict inputs = Ok p ∧
      let r := CreateWithIdempotency hash false (ae_fresh env 0) (ae_now env) dev TypeSetParameter (encode_SetParameter p)
                 (ae_operator env) key tab in
      (putParameters hash dict env dev key body tab).2 = r.2 ∧
      ∀ s q, (putParameters hash dict env dev key body tab).1 = Replied s q → r.1 = Ok (qr_job q).
Proof.
  unfold putParameters. destruct (scoped_device _ _ _) as [r|d] eqn:Es.
  { left. split; [done|]. unfold scoped_device, scoped in Es. by repeat case_match; simplify_eq. }
  destruct body as [inputs|]; [|by left]. destruct (handle_refused _ _); [by left|].
  destruct (buildSetParameterPayload dict inputs) as [p|] eqn:Ep; [|by left].
  destruct (write_refused env dev p) as [r|] eqn:Ew.
  { left. split; [done|]. unfold write_refused in Ew. destruct (refuseProtectedWrite _); [by simplify_eq|].
    by destruct (validateWritableParameters _ _ _ _); simplify_eq/=. }
  right. exists inputs, p. split; [done|]. split; [done|]. cbv zeta.
  destruct (CreateWithIdempotency _ _ _ _ _ _ _ _ _ _) as [[j|e] tab'].
  - split; [done|]. by intros s q [= <- <-].
  - split; [done|]. intros s q. by destruct (String.eqb e ErrIdempotencyConflict).
Qed.

Lemma putParameters_job_step env dev key body tab :
  (putParameters hash dict env dev key body tab).2 = tab ∨ job_step hash tab (putParameters hash dict env dev key body tab).2.
Proof.
  destruct (putParameters_shape env dev key body tab) as [[-> _]|(inputs & p & _ & _ & Hr & _)]; [by left|right].
  rewrite Hr. apply step_create_idempotent.
Qed.

(** What a call does to the queue. *)
Lemma call_job_step acs st device params key :
  (SetParametersWithIdempotency hash dict acs st device params key).2 = bs_jobs st ∨
  job_step hash (bs_jobs st) (SetParametersWithIdempotency hash dict acs st device params key).2.
Proof.
  unfold SetParametersWithIdempotency. destruct (negb _); [by left|].
  pose proof (putParameters_job_step (api_of acs st) device key (Some (wire <$> params)) (bs_jobs st)) as H.
  destruct (putParameters _ _ _ _ _ _ _) as [reply jobs']. cbn in H. destruct (acs_net acs "SetParameters"); auto.
Qed.

(** The job an answered call names. *)
Definition sent_for (id device : string) (params : list BssWrite) (j : Job) : Prop :=
  DeviceID j = device ∧ Type_ j = TypeSetParameter ∧ IdempotencyKey j = Some (dispatch_key id) ∧
  ∃ p, buildSetParameterPayload dict (wire <$> params) = Ok p ∧ RequestHash j = Some (hash (encode_SetParameter p)).

Lemma call_answer acs st id device params key jobs' :
  SetParametersWithIdempotency hash dict acs st device params (dispatch_key id) = (inr key, jobs') →
  ∃ k j, jobs' !! k = Some j ∧ CommandKey j = key ∧ sent_for id device params j.
Proof.
  unfold SetParametersWithIdempotency. destruct (negb _); [done|].
  pose proof (putParameters_shape (api_of acs st) device (dispatch_key id) (Some (wire <$> params)) (bs_jobs st)) as H.
  destruct (putParameters _ _ _ _ _ _ _) as [reply tab']. cbn in H. destruct (acs_net acs "SetParameters"); [|done..].
  destruct reply as [s m|s q]; [done|]. destruct (s =? 202); [|done]. intros [= <- <-].
  destruct H as [[_ H]|(inputs & p & [= <-] & Hp & Ht & Hr)]; [by destruct (H s q)|].
  specialize (Hr s q eq_refl). destruct (CreateWithIdempotency _ _ _ _ _ _ _ _ _ _) as [r tab2] eqn:Ec.
  cbn in Ht, Hr. subst r tab2.
  destruct (created_under_key _ _ _ _ _ _ _ _ _ _ _ (dispatch_key_text id) Ec) as ((k & Hk) & Hd & Hty & Hi & Hh).
  exists k, (qr_job q). unfold sent_for. eauto 10.
Qed.

(** ** Orders *)

Record order_ok (clock : GoTime) (id : string) (o : OrderRecord) : Prop := mk_order_ok {
  ord_id : bo_ExternalOrderID o = id;
  ord_attempts : 0 <= bo_Attempts o <= maxDispatchAttempts;
  ord_dead : bo_Status o = OrderDeadLettered ↔ bo_Attempts o = maxDispatchAttempts;
  ord_key : is_Some (bo_CommandKey o) ↔ bo_Status o = OrderDispatched;
  ord_last : ∃ t, bo_LastAttemptAt o = Some t ∧ t <= clock
}.

(** How an order may move on. *)
Record order_le (o o' : OrderRecord) : Prop := mk_order_le {
  ole_fixed : (bo_ExternalOrderID o', bo_AccountID o', bo_Action o', bo_DeviceID o', bo_Parameters o', bo_CreatedAt o') =
              (bo_ExternalOrderID o, bo_AccountID o, bo_Action o, bo_DeviceID o, bo_Parameters o, bo_CreatedAt o);
  ole_attempts : bo_Attempts o <= bo_Attempts o';
  ole_last : ∀ t, bo_LastAttemptAt o = Some t → ∃ t', bo_LastAttemptAt o' = Some t' ∧ t <= t';
  ole_settled : bo_Status o ≠ OrderPendingDispatch →
    (bo_Status o', bo_CommandKey o', bo_Attempts o', bo_LastAttemptAt o') =
    (bo_Status o, bo_CommandKey o, bo_Attempts o, bo_LastAttemptAt o)
}.

Definition orders_ok (clock : GoTime) (tab : Orders) : Prop := map_Forall (order_ok clock) tab.
Definition orders_le (tab tab' : Orders) : Prop := ∀ id o, tab !! id = Some o → ∃ o', tab' !! id = Some o' ∧ order_le o o'.

#[global] Instance order_le_preorder : PreOrder order_le.
Proof.
  split.
  - intros o. split; [done|lia|intros t ->; eauto with lia|done].
  - intros a b c [F1 A1 L1 S1] [F2 A2 L2 S2]. split; [congruence|lia| |].
    + intros t (t1 & H1 & ?)%L1. apply L2 in H1 as (t2 & ? & ?). exists t2. eauto with lia.
    + intros Ha. pose proof (S1 Ha) as [= E1 E2 E3 E4]. rewrite E1 in S2. pose proof (S2 Ha). congruence.
Qed.

#[global] Instance orders_le_preorder : PreOrder orders_le.
Proof.
  split; [intros tab id o ?; by exists o|]. intros a b c H1 H2 id o (o1 & Ho1 & ?)%H1. apply H2 in Ho1 as (o2 & ? & ?).
  exists o2. split; [done|by etrans].
Qed.

Lemma order_ok_later clock now id o : clock <= now → order_ok clock id o → order_ok now id o.
Proof. intros ? [? ? ? ? (t & ? & ?)]. split; try done. exists t. eauto with lia. Qed.

(** A statement that rewrites rows in place. *)
Lemma rowwise clock now (f : string → OrderRecord → OrderRecord) (tab tab' : Orders) :
  clock <= now → orders_ok clock tab → (∀ id, tab' !! id = f id <$> tab !! id) →
  (∀ id o, tab !! id = Some o → order_ok clock id o → order_ok now id (f id o) ∧ order_le o (f id o)) →
  orders_ok now tab' ∧ orders_le tab tab'.
Proof.
  intros Hc Hok Hf H. split.
  - intros id o'. rewrite Hf. destruct (tab !! id) as [o|] eqn:E; [|done]. intros [= <-]. by apply H; [|apply Hok].
  - intros id o E. exists (f id o). rewrite Hf, E. split; [done|]. by apply H; [|apply Hok].
Qed.

Lemma dispatched_le clock now key id o : clock <= now → order_ok clock id o → pending o = true →
  order_ok now id (dispatched now key o) ∧ order_le o (dispatched now key o).
Proof.
  intros Hc [Hi Ha Hd Hk (t & Ht & ?)] Hp. unfold pending in Hp. bool_to_prop. split; split; cbn; try done; eauto with lia.
  - split; [done|]. intros H8. apply Hd in H8. congruence.
  - intros t' [= <-]%(eq_trans (eq_sym Ht)). eauto with lia.
Qed.

Lemma attempt_failed_le clock now msg id o : clock <= now → order_ok clock id o → pending o = true →
  order_ok now id (attempt_failed now msg o) ∧ order_le o (attempt_failed now msg o).
Proof.
  intros Hc [Hi Ha Hd Hk (t & Ht & ?)] Hp. unfold pending in Hp. bool_to_prop.
  assert (bo_Attempts o ≠ maxDispatchAttempts) as Hne by (intros H8%Hd; congruence).
  unfold attempt_failed. destruct (Z.leb_spec maxDispatchAttempts (bo_Attempts o + 1));
    (split; split; cbn; try done; eauto with lia; try (intros t' [= <-]%(eq_trans (eq_sym Ht)); eauto with lia)).
  - split; [lia|done].
  - rewrite Hk, Hp. done.
  - split; [congruence|lia].
Qed.

Lemma stamp_le clock now id o : clock <= now → order_ok clock id o → pending o = true →
  order_ok now id (stamp now o) ∧ order_le o (stamp now o).
Proof.
  intros Hc [Hi Ha Hd Hk (t & Ht & ?)] Hp. unfold pending in Hp. bool_to_prop.
  split; split; cbn; try done; eauto with lia. intros t' [= <-]%(eq_trans (eq_sym Ht)). eauto with lia.
Qed.

Lemma unchanged_le clock now id o : clock <= now → order_ok clock id o → order_ok now id o ∧ order_le o o.
Proof. intros Hc H. split; [by eapply order_ok_later|done]. Qed.

Lemma record_outcome_le clock now id outcome tab :
  clock <= now → orders_ok clock tab → orders_ok now (record_outcome now id outcome tab) ∧ orders_le tab (record_outcome now id outcome tab).
Proof.
  intros Hc Hok.
  set (g o := match outcome with inr key => dispatched now key o | inl e => attempt_failed now (bss_error_text e) o end).
  apply (rowwise clock now (λ id' o, if decide (id = id') then if pending o then g o else o else o)); [done|done| |].
  - intros id'. unfold record_outcome, MarkDispatched, MarkDispatchFailed.
    destruct outcome; rewrite lookup_update_key; destruct (decide (id = id')) as [->|]; try done;
      by destruct (tab !! id').
  - intros id' o _ Ho. destruct (decide (id = id')); [|by eapply unchanged_le].
    destruct (pending o) eqn:Ep; [|by eapply unchanged_le]. unfold g.
    destruct outcome; [by eapply attempt_failed_le|by eapply dispatched_le].
Qed.

Lemma claim_lookup locked now limit (tab : Orders) id :
  (ClaimDuePendingOrders locked now limit tab).2 !! id =
  (λ o, if existsb (String.eqb (bo_ExternalOrderID o)) (bo_ExternalOrderID <$> claimed_orders locked now limit tab)
        then stamp now o else o) <$> tab !! id.
Proof. apply lookup_update_where. Qed.

Lemma claimed_due locked now limit tab o : o ∈ claimed_orders locked now limit tab →
  (∃ k, tab !! k = Some o) ∧ due_order now o = true ∧ locked (bo_ExternalOrderID o) = false.
Proof.
  unfold claimed_orders. intros H%subseteq_take. rewrite merge_sort_Permutation in H.
  apply list_elem_of_In, filter_In in H as [H%list_elem_of_In [Hd Hl]%andb_true_iff].
  apply elem_of_rows in H as [k Hk]. apply negb_true_iff in Hl. eauto.
Qed.

(** The rows a claim stamps are the ones it returns. *)
Lemma claimed_row clock locked now limit tab id o :
  orders_ok clock tab → tab !! id = Some o →
  existsb (String.eqb (bo_ExternalOrderID o)) (bo_ExternalOrderID <$> claimed_orders locked now limit tab) = true ↔
  o ∈ claimed_orders locked now limit tab.
Proof.
  intros Hok Ho. rewrite existsb_eqb, list_elem_of_fmap. split.
  - intros (o' & He & Hin). destruct (claimed_due _ _ _ _ _ Hin) as ((k & Hk) & _).
    pose proof (ord_id _ _ _ (Hok _ _ Ho)) as Hi. pose proof (ord_id _ _ _ (Hok _ _ Hk)) as Hi'.
    assert (k = id) as -> by congruence. by simplify_eq.
  - eauto.
Qed.

Lemma claim_le clock locked now limit tab :
  clock <= now → orders_ok clock tab →
  orders_ok now (ClaimDuePendingOrders locked now limit tab).2 ∧ orders_le tab (ClaimDuePendingOrders locked now limit tab).2.
Proof.
  intros Hc Hok. eapply (rowwise clock now (λ _ o, _)); [done|done|intros id; apply claim_lookup|]. intros id o Ho Hk. cbn.
  destruct (existsb _ _) eqn:E; [|by eapply unchanged_le]. apply (claimed_row clock) with (id := id) in E; [|done|done].
  apply claimed_due in E as (_ & Hd & _). unfold due_order in Hd. bool_to_prop. by eapply stamp_le.
Qed.

Lemma insert_le clock devices now id account action device params tab tab' :
  clock <= now → orders_ok clock tab → InsertPending devices now id account action device params tab = (Ok tt, tab') →
  orders_ok now tab' ∧ orders_le tab tab' ∧
  tab' !! id = Some (mkOrderRecord id account action device params None OrderPendingDispatch 0 None (Some now) None now).
Proof.
  intros Hc Hok. unfold InsertPending. destruct (tab !! id) eqn:E; [done|]. cbn. destruct (is_some _); [|done]. intros [= <-].
  split_and!; [| |apply lookup_insert_eq].
  - apply map_Forall_insert_2; [|intros k o Ho; by eapply order_ok_later, Hok].
    split; cbn; [done|unfold maxDispatchAttempts; lia|done|split; [by intros [? ?]|done]|eauto with lia].
  - intros k o Ho. exists o. split; [|done]. rewrite lookup_insert_ne; congruence.
Qed.

Lemma notified_le clock now id tab :
  clock <= now → orders_ok clock tab → orders_ok now (MarkOrderNotified now id tab) ∧ orders_le tab (MarkOrderNotified now id tab).
Proof.
  intros Hc Hok. eapply (rowwise clock now (λ id' o, if decide (id = id') then notified now o else o)); [done|done| |].
  - intros id'. unfold MarkOrderNotified. rewrite lookup_update_key. by destruct (decide (id = id')), (tab !! id').
  - intros id' o _ Ho. destruct (decide (id = id')); [|by eapply unchanged_le].
    destruct Ho as [Hi Ha Hd Hk (t & Ht & ?)]. split; split; cbn; try done; eauto with lia.
Qed.

(** ** The invariant *)

Record world_ok (w : World) : Prop := mk_world_ok {
  wo_jobs : table_ok (bs_jobs (ow_state w));
  wo_orders : orders_ok (ow_clock w) (bs_orders (ow_state w));
  wo_calling : ∀ id device params, Calling id device params ∈ ow_flight w →
    ∃ o, bs_orders (ow_state w) !! id = Some o ∧ bo_DeviceID o = device ∧ bo_Parameters o = params;
  wo_called : ∀ id outcome, Called id outcome ∈ ow_flight w →
    ∀ key, outcome = inr key → ∃ j, (id, j) ∈ ow_log w ∧ CommandKey j = key;
  wo_log : ∀ id j, (id, j) ∈ ow_log w →
    ∃ o, bs_orders (ow_state w) !! id = Some o ∧ sent_for id (bo_DeviceID o) (bo_Parameters o) j;
  wo_keys : ∀ id o key, bs_orders (ow_state w) !! id = Some o → bo_CommandKey o = Some key →
    ∃ j, (id, j) ∈ ow_log w ∧ CommandKey j = key
}.

Lemma initial_ok w : initial_world w → world_ok w.
Proof.
  destruct w as [st fl clock log]. intros (Ho & Hj & Hf & Hl). cbn in *. subst.
  split; cbn; rewrite ?Ho; try (intros *; rewrite ?lookup_empty; by intros ?%not_elem_of_nil || done).
  by eapply reachable_ok.
Qed.

(** A statement on orders keeps the invariant when it moves orders on, when what is
    newly in flight is in the table, and when a new command key was answered. *)
Lemma world_ok_orders st fl fl' clock now log orders' :
  world_ok (mkWorld_ st fl clock log) →
  orders_ok now orders' ∧ orders_le (bs_orders st) orders' →
  (∀ x, x ∈ fl' → x ∈ fl ∨ ∃ id o, orders' !! id = Some o ∧ x = Calling id (bo_DeviceID o) (bo_Parameters o)) →
  (∀ id o' key, orders' !! id = Some o' → bo_CommandKey o' = Some key →
     (∃ o, bs_orders st !! id = Some o ∧ bo_CommandKey o = Some key) ∨ ∃ j, (id, j) ∈ log ∧ CommandKey j = key) →
  world_ok (mkWorld_ (set_orders orders' st) fl' now log).
Proof.
  intros [Hj Ho Hca Hcd Hl Hk] [Hok Hle] Hf Hkey. cbn in *. split; cbn; try done.
  - intros id device params [Hin|(id' & o & Ho' & [= <- -> ->])]%Hf; [|eauto].
    apply Hca in Hin as (o & Ho1 & <- & <-). apply Hle in Ho1 as (o' & Ho' & [[= _ _ _ <- <- _] _ _ _]). eauto.
  - intros id outcome [Hin|(id' & o & _ & [=])]%Hf. eauto.
  - intros id j (o & Ho1 & Hs)%Hl. apply Hle in Ho1 as (o' & Ho' & [[= _ _ _ E1 E2 _] _ _ _]). exists o'.
    by rewrite E1, E2.
  - intros id o' key Ho' Hk'. destruct (Hkey id o' key Ho' Hk') as [(o & Ho1 & Hk1)|]; eauto.
Qed.

Lemma job_table_ok st fl clock log jobs' :
  world_ok (mkWorld_ st fl clock log) → table_ok jobs' → world_ok (mkWorld_ (set_bss_jobs jobs' st) fl clock log).
Proof. intros [Hj Ho Hca Hcd Hl Hk] H. by split. Qed.

Lemma table_ok_delete (jobs : gmap string Job) k : table_ok jobs → table_ok (delete k jobs).
Proof.
  intros [Hr Hk Hi]. split.
  - by apply map_Forall_delete.
  - intros k1 k2 j1 j2 [_ H1]%lookup_delete_Some [_ H2]%lookup_delete_Some. by apply Hk.
  - intros k1 k2 j1 j2 key [_ H1]%lookup_delete_Some [_ H2]%lookup_delete_Some. by eapply Hi.
Qed.

Lemma ByCommandKey_elem (jobs : gmap string Job) k j :
  table_ok jobs → jobs !! k = Some j → ByCommandKey jobs (CommandKey j) = Some j.
Proof.
  intros Hok Hj. unfold ByCommandKey. destruct (List.find _ _) as [i|] eqn:E.
  - apply find_some in E as [Hin He%String.eqb_eq]. apply list_elem_of_In, elem_of_rows in Hin as [k' Hk'].
    pose proof (tab_keys _ Hok _ _ _ _ Hk' Hj He) as ->. congruence.
  - assert (In j (rows jobs)) as Hin by (apply list_elem_of_In, elem_of_rows; eauto).
    pose proof (find_none _ _ E j Hin) as Hf. cbn in Hf. by rewrite String.eqb_refl in Hf.
Qed.

Lemma call_world_ok st fl1 fl2 clock log acs id device params outcome jobs' :
  world_ok (mkWorld_ st (fl1 ++ Calling id device params :: fl2) clock log) →
  SetParametersWithIdempotency hash dict acs st device params (dispatch_key id) = (outcome, jobs') →
  world_ok (mkWorld_ (set_bss_jobs jobs' st) (fl1 ++ Called id outcome :: fl2) clock (answered id outcome jobs' ++ log)).
Proof.
  intros [Hj Ho Hca Hcd Hl Hk] Hcall. cbn in *.
  assert (table_ok jobs') as Hj'.
  { pose proof (call_job_step acs st device params (dispatch_key id)) as H. rewrite Hcall in H. cbn in H.
    destruct H as [->|H]; [done|by eapply job_step_ok]. }
  destruct (Hca id device params) as (o & Ho1 & <- & <-); [set_solver|].
  assert (∀ key, outcome = inr key → ∃ j, (id, j) ∈ answered id outcome jobs' ∧ CommandKey j = key ∧
            sent_for id (bo_DeviceID o) (bo_Parameters o) j) as Ha.
  { intros key ->. destruct (call_answer _ _ _ _ _ _ _ Hcall) as (k & j & Hkj & <- & Hs).
    exists j. unfold answered. rewrite (ByCommandKey_elem _ _ _ Hj' Hkj). split_and!; [by left|done|done]. }
  split; cbn; try done.
  - intros id' d' p' Hin. apply Hca. set_solver.
  - intros id' out' Hin key ->. apply elem_of_app in Hin as [Hin|[Heq|Hin]%elem_of_cons].
    + destruct (Hcd id' (inr key)) with key as (j & ? & ?); [set_solver|done|]. exists j. set_solver.
    + injection Heq as -> <-. destruct (Ha key eq_refl) as (j & ? & ? & _). exists j. set_solver.
    + destruct (Hcd id' (inr key)) with key as (j & ? & ?); [set_solver|done|]. exists j. set_solver.
  - intros id' j [Hin|Hin]%elem_of_app; [|by apply Hl]. unfold answered in Hin. destruct outcome as [|key]; [by apply not_elem_of_nil in Hin|].
    destruct (Ha key eq_refl) as (j' & Hin' & _ & Hs). unfold answered in Hin'.
    destruct (ByCommandKey jobs' key) as [i|]; [|by apply not_elem_of_nil in Hin].
    apply list_elem_of_singleton in Hin as [= -> ->]. apply list_elem_of_singleton in Hin' as [= ->]. eauto.
  - intros id' o' key Ho' Hkey. destruct (Hk id' o' key Ho' Hkey) as (j & ? & ?). exists j. set_solver.
Qed.

Lemma record_world_ok st fl1 fl2 clock log now id outcome :
  clock <= now → world_ok (mkWorld_ st (fl1 ++ Called id outcome :: fl2) clock log) →
  world_ok (mkWorld_ (set_orders (record_outcome now id outcome (bs_orders st)) st) (fl1 ++ fl2) now log).
Proof.
  intros Hc Hw. eapply world_ok_orders; [exact Hw| | |].
  - apply record_outcome_le with clock; [done|]. apply (wo_orders _ Hw).
  - intros x Hx. left. set_solver.
  - intros id' o' key Ho' Hkey. pose proof (wo_called _ Hw id outcome) as Hcd. cbn in Hcd.
    unfold record_outcome, MarkDispatched, MarkDispatchFailed in Ho'.
    destruct outcome as [e|k]; rewrite lookup_update_key in Ho'; destruct (decide (id = id')) as [->|]; try (left; by eauto);
      destruct (bs_orders st !! id') as [o|] eqn:Eo; try done; cbn in Ho'; injection Ho' as <-;
      destruct (pending o); try (left; by eauto).
    injection Hkey as <-. right. apply (Hcd ltac:(set_solver) k eq_refl).
Qed.

Lemma outbox_step_ok w w' : world_ok w → outbox_step w w' → world_ok w'.
Proof.
  intros Hw Hs. destruct Hs as
    [w w' [st fl clock log now id account action device params orders' Hc Hi|st fl clock log now locked limit claimed Hc Hp
      |st fl1 fl2 clock log acs id device params outcome jobs' Hcall|st fl1 fl2 clock log now id outcome Hc
      |st st' fl clock log Ho Hj]
    |st fl1 x fl2 clock log|st fl clock log now id Hc|st fl clock log jobs' Hj|st fl clock log k].
  - destruct (insert_le clock _ _ _ _ _ _ _ _ _ Hc (wo_orders _ Hw) Hi) as (Hok & Hle & Hnew).
    eapply world_ok_orders; [exact Hw|done| |].
    + intros x [->|Hx]%elem_of_cons; [|by left]. right. eexists _, _. by split; [exact Hnew|].
    + intros id' o' key Ho' Hkey. unfold InsertPending in Hi. destruct (bs_orders st !! id) eqn:E; [done|]. cbn in Hi.
      destruct (is_some _); [|done]. injection Hi as <-. apply lookup_insert_Some in Ho' as [[_ <-]|[_ Ho']]; [done|eauto].
  - eapply world_ok_orders; [exact Hw|apply claim_le with clock; [done|apply (wo_orders _ Hw)]| |].
    + intros x [Hx|Hx]%elem_of_app; [right|by left]. apply list_elem_of_fmap in Hx as (o & -> & Ho). rewrite Hp in Ho. cbn in Ho.
      apply list_elem_of_fmap in Ho as (o0 & -> & Ho). pose proof (claimed_due _ _ _ _ _ Ho) as ((k & Hk) & _).
      pose proof (ord_id _ _ _ (wo_orders _ Hw k o0 Hk)) as Hid. exists k, (stamp now o0). split.
      * rewrite claim_lookup, Hk. cbn. f_equal.
        by rewrite (proj2 (claimed_row clock locked now limit (bs_orders st) k o0 (wo_orders _ Hw) Hk) Ho).
      * unfold calling. cbn. by rewrite Hid.
    + intros id o' key Ho' Hkey. rewrite claim_lookup in Ho'. destruct (bs_orders st !! id) as [o|] eqn:E; [|done].
      cbn in Ho'. injection Ho' as <-. left. exists o. split; [done|]. by destruct (existsb _ _).
  - by eapply call_world_ok.
  - by apply record_world_ok with clock.
  - destruct Hw as [H1 H2 H3 H4 H5 H6]. split; cbn in *; by rewrite ?Ho, ?Hj.
  - destruct Hw as [Hj Ho Hca Hcd Hl Hk]. split; cbn in *; try done; intros *; intros Hin; [apply Hca|apply Hcd]; set_solver.
  - eapply world_ok_orders; [exact Hw|apply notified_le with clock; [done|apply (wo_orders _ Hw)]|by left|].
    intros id' o' key Ho' Hkey. left. unfold MarkOrderNotified in Ho'. rewrite lookup_update_key in Ho'.
    destruct (decide (id = id')); [|eauto]. destruct (bs_orders st !! id') as [o|]; [|done]. cbn in Ho'. injection Ho' as <-. eauto.
  - apply job_table_ok; [done|]. eapply job_step_ok; [apply (wo_jobs _ Hw)|done].
  - apply job_table_ok; [done|]. apply table_ok_delete, (wo_jobs _ Hw).
Qed.

Lemma reached_ok w : reached w → world_ok w.
Proof.
  intros (w0 & Hi & Hr). apply initial_ok in Hi. apply rtc_nsteps in Hr as [n Hr]. induction Hr; eauto using outbox_step_ok.
Qed.

(** ** Orders only move on *)

Lemma outbox_step_le w w' : world_ok w → outbox_step w w' → orders_le (bs_orders (ow_state w)) (bs_orders (ow_state w')).
Proof.
  intros Hw Hs. destruct Hs as
    [w w' [st fl clock log now id account action device params orders' Hc Hi|st fl clock log now locked limit claimed Hc Hp
      | |st fl1 fl2 clock log now id outcome Hc|st st' fl clock log Ho Hj]
    | |st fl clock log now id Hc| |]; cbn; try reflexivity.
  - by apply (insert_le clock _ _ _ _ _ _ _ _ _ Hc (wo_orders _ Hw) Hi).
  - by apply claim_le with clock; [|apply (wo_orders _ Hw)].
  - by apply record_outcome_le with clock; [|apply (wo_orders _ Hw)].
  - by rewrite Ho.
  - by apply notified_le with clock; [|apply (wo_orders _ Hw)].
Qed.

Lemma outbox_steps_le w w' :
  world_ok w → rtc outbox_step w w' → world_ok w' ∧ orders_le (bs_orders (ow_state w)) (bs_orders (ow_state w')).
Proof.
  intros Hw Hr. revert Hw. induction Hr as [w|w w1 w' Hs Hr IH]; intros Hw; [done|].
  destruct IH as [Hw' Hle]; [by eapply outbox_step_ok|]. split; [done|]. etrans; [by eapply outbox_step_le|done].
Qed.

Lemma backoff_mono a b : 0 <= a → a <= b → backoff a <= backoff b.
Proof.
  intros Ha Hb. unfold backoff. apply Z.mul_le_mono_nonneg_r; [unfold Minute, Second; lia|].
  by apply Z.pow_le_mono_r.
Qed.

(** An order the world shows, and a job of the queue that stands for it. *)
Definition queued_for (id : string) (o : OrderRecord) (j : Job) : Prop :=
  DeviceID j = bo_DeviceID o ∧ Type_ j = TypeSetParameter ∧ IdempotencyKey j = Some (dispatch_key id).

Lemma call_under_taken_key acs st id device params k j :
  table_ok (bs_jobs st) → bs_jobs st !! k = Some j → DeviceID j = device → Type_ j = TypeSetParameter →
  IdempotencyKey j = Some (dispatch_key id) →
  (SetParametersWithIdempotency hash dict acs st device params (dispatch_key id)).2 = bs_jobs st ∧
  ∀ key, (SetParametersWithIdempotency hash dict acs st device params (dispatch_key id)).1 = inr key → key = CommandKey j.
Proof.
  intros Hok Hj Hd Ht Hi. unfold SetParametersWithIdempotency. destruct (negb _); [by cbn|].
  pose proof (putParameters_shape (api_of acs st) device (dispatch_key id) (Some (wire <$> params)) (bs_jobs st)) as H.
  destruct (putParameters _ _ _ _ _ _ _) as [reply tab']. cbn [fst snd] in H.
  assert (tab' = bs_jobs st ∧ ∀ s q, reply = Replied s q → qr_job q = j) as [-> Hq].
  { destruct H as [[-> H]|(inputs & p & _ & _ & Htab & Hr)]; [split; [done|]; intros s q ->; by destruct (H s q)|].
    destruct (create_under_taken_key false (ae_fresh (api_of acs st) 0) (ae_now (api_of acs st)) device TypeSetParameter
                (encode_SetParameter p) (ae_operator (api_of acs st)) (dispatch_key id) (bs_jobs st) k j Hok
                (dispatch_key_text id) Hj Hd Ht Hi) as [E1 E2].
    split; [congruence|]. intros s q Hs. symmetry. by rewrite (E2 _ (Hr s q Hs)). }
  destruct (acs_net acs "SetParameters"); [|by cbn..]. split; [done|]. intros key. cbn.
  destruct reply as [|s q]; [done|]. rewrite (Hq s q eq_refl). destruct (s =? 202); [|done]. by intros [= <-].
Qed.

(** ** The handlers in steps *)

Lemma attempt_steps acs now id device params st fl clock log :
  clock <= now → ∃ log', rtc adapter_event (mkWorld_ st (Calling id device params :: fl) clock log)
    (mkWorld_ (attempt_order hash dict acs now id device params st).2 fl now log').
Proof.
  intros Hc. unfold attempt_order. destruct (SetParametersWithIdempotency _ _ _ _ _ _ _) as [outcome jobs'] eqn:E. cbn.
  eexists. eapply rtc_l; [exact (step_call st [] fl clock log acs id device params outcome jobs' E)|].
  eapply rtc_once. exact (step_record _ [] fl clock _ now id outcome Hc).
Qed.

Lemma dispatch_steps acs now id account action device params st fl clock log :
  clock <= now → ∃ clock' log', clock <= clock' <= now ∧ rtc adapter_event (mkWorld_ st fl clock log)
    (mkWorld_ (dispatchOrder hash dict acs now id account action device params st).2 fl clock' log').
Proof.
  intros Hc. unfold dispatchOrder. destruct (InsertPending _ _ _ _ _ _ _ _) as [[[]|e] orders'] eqn:E; [|exists clock, log; split; [lia|constructor]].
  destruct (attempt_steps acs now id device params (set_orders orders' st) fl now log) as [log' Hr]; [lia|].
  exists now, log'. split; [lia|]. destruct (attempt_order _ _ _ _ _ _ _ _) as [[e|key] st']; cbn in *;
    (eapply rtc_l; [by eapply step_accept|exact Hr]).
Qed.

Lemma claimed_steps acs now orders st fl clock log :
  clock <= now → ∃ log', rtc adapter_event (mkWorld_ st ((calling <$> orders) ++ fl) now log)
    (mkWorld_ (attempt_claimed hash dict acs now orders st) fl now log').
Proof.
  intros Hc. revert st log. induction orders as [|o orders IH]; intros st log; [exists log; constructor|].
  destruct (attempt_steps (acs (bo_ExternalOrderID o)) now (bo_ExternalOrderID o) (bo_DeviceID o) (bo_Parameters o) st
              ((calling <$> orders) ++ fl) now log) as [log1 H1]; [lia|].
  destruct (IH (attempt_order hash dict (acs (bo_ExternalOrderID o)) now (bo_ExternalOrderID o) (bo_DeviceID o)
                  (bo_Parameters o) st).2 log1) as [log2 H2].
  exists log2. etrans; [exact H1|exact H2].
Qed.
(** ** What the adapter may do to the queue *)

Lemma call_jobs acs st id device params outcome jobs' :
  SetParametersWithIdempotency hash dict acs st device params (dispatch_key id) = (outcome, jobs') →
  bs_jobs st ⊆ jobs' ∧ ∀ k j, jobs' !! k = Some j → bs_jobs st !! k = Some j ∨ sent_for id device params j.
Proof.
  assert (bs_jobs st ⊆ bs_jobs st ∧ ∀ k j, bs_jobs st !! k = Some j → bs_jobs st !! k = Some j ∨ sent_for id device params j)
    as Hid by (split; [done|by left]).
  unfold SetParametersWithIdempotency. destruct (negb _); [by intros [= _ <-]|].
  pose proof (putParameters_shape (api_of acs st) device (dispatch_key id) (Some (wire <$> params)) (bs_jobs st)) as H.
  destruct (putParameters _ _ _ _ _ _ _) as [reply tab']. cbn [fst snd] in H.
  assert (bs_jobs st ⊆ tab' ∧ ∀ k j, tab' !! k = Some j → bs_jobs st !! k = Some j ∨ sent_for id device params j) as Ht.
  { destruct H as [[-> _]|(inputs & p & [= <-] & Hp & -> & _)]; [done|]. unfold CreateWithIdempotency.
    rewrite dispatch_key_text. destruct (checkProtectedWrite _ _ _); [done|].
    destruct (findByIdempotency _ _ _ _) as [e|]; [by destruct (RequestHash e) as [h|]; [destruct (String.eqb h _)|]|].
    unfold insert_job. destruct (unique_ok _ _) eqn:Hu; [|done]. cbn [snd]. unfold unique_ok in Hu. bool_to_prop. split.
    - apply insert_subseteq. by destruct (bs_jobs st !! _).
    - intros k j [[_ <-]|[_ Hj]]%lookup_insert_Some; [right|by left]. repeat split; eauto. }
  by destruct (acs_net acs "SetParameters"); intros [= _ <-].
Qed.

(** No job is changed or deleted, and a new one is the job of an order on record. *)
Definition queue_grows (w w' : World) : Prop :=
  bs_jobs (ow_state w) ⊆ bs_jobs (ow_state w') ∧
  ∀ k j, bs_jobs (ow_state w') !! k = Some j → bs_jobs (ow_state w) !! k = Some j ∨
    ∃ id o, bs_orders (ow_state w') !! id = Some o ∧ sent_for id (bo_DeviceID o) (bo_Parameters o) j.

Lemma event_grows w w' : world_ok w → adapter_event w w' → queue_grows w w'.
Proof.
  intros Hw He. assert (bs_jobs (ow_state w') = bs_jobs (ow_state w) → queue_grows w w') as Hsame
    by (intros E; split; [by rewrite E|intros k j; rewrite E; by left]).
  destruct He as [| |st fl1 fl2 clock log acs id device params outcome jobs' Hcall| |st st' fl clock log Ho Hj];
    [by apply Hsame..| |by apply Hsame|by apply Hsame].
  destruct (call_jobs _ _ _ _ _ _ _ Hcall) as [H1 H2]. split; [done|]. intros k j [H|H]%H2; [by left|right].
  destruct (wo_calling _ Hw id device params) as (o & Ho & <- & <-); [cbn; set_solver|]. exists id, o. done.
Qed.

Lemma events_outbox w w' : rtc adapter_event w w' → rtc outbox_step w w'.
Proof. induction 1 as [|a b c H _ IH]; [apply rtc_refl|]. eapply rtc_l; [by apply step_adapter|exact IH]. Qed.

Lemma events_grow w w' : world_ok w → rtc adapter_event w w' → queue_grows w w'.
Proof.
  intros Hw Hr. revert Hw. induction Hr as [w|w w1 w' He Hr IH]; intros Hw; [split; [done|by left]|].
  assert (world_ok w1) as Hw1 by (by eapply outbox_step_ok, step_adapter). destruct (IH Hw1) as [S2 N2].
  destruct (event_grows _ _ Hw He) as [S1 N1]. split; [by etrans|]. intros k j [[H|(id & o & Ho & Hs)]%N1|H]%N2; [by left| |by right].
  right. apply events_outbox in Hr as Hr'.
  destruct (outbox_steps_le _ _ Hw1 Hr') as [_ Hle]. destruct (Hle _ _ Ho) as (o' & Ho' & [[= _ _ _ E1 E2 _] _ _ _]).
  exists id, o'. by rewrite E1, E2.
Qed.
End Outbox.

(** ** Requests *)

(** Everything that reaches the tables of the adapter, its reconciler included. *)
Inductive BssRequest : Type :=
| RqOrder (cx : BssCall) (body : option createOrderRequest)
| RqPreflight (cx : BssCall) (body : option createOrderRequest)
| RqJob (cx : BssCall) (key : string)
| RqMappings (cx : BssCall) (account : string)
| RqCapabilities (cx : BssCall) (account role : string)
| RqMapping (refs_ok : bool) (cx : BssCall) (body : option createMappingRequest)
| RqSubscriber (cx : BssCall) (account : string) (body : option (option string * option bool))
| RqReconcile (arrange : list OrderRecord → list OrderRecord) (locked : string → bool) (acs : string → Acs) (now : GoTime).

Definition request_now (rq : BssRequest) : GoTime :=
  match rq with
  | RqOrder cx _ | RqPreflight cx _ | RqJob cx _ | RqMappings cx _ | RqCapabilities cx _ _ | RqMapping _ cx _
  | RqSubscriber cx _ _ => cx_now cx
  | RqReconcile _ _ _ now => now
  end.

(** The rows an UPDATE returns come in any order. *)
Definition arranges (rq : BssRequest) : Prop :=
  match rq with RqReconcile arrange _ _ _ => ∀ l, arrange l ≡ₚ l | _ => True end.

Section Requests.
Context (hmac : string → string → string) (Unmarshal : string → option json).
Context (hash : json → string) (dict : result Dictionary) (rng : string → gmap string bool → list (string * bool)).
Context (cfg : BssConfig) (acs : Acs) (plans : gmap string ServicePlan) (reqhash : createMappingRequest → string).

Definition bss_serve (rq : BssRequest) (st : BssState) : BssState :=
  match rq with
  | RqOrder cx body => (createOrder hmac Unmarshal hash dict rng cfg acs cx body st).2
  | RqPreflight cx body => (preflightAction hmac Unmarshal rng cfg acs cx body st).2
  | RqJob cx key => (getOrderJob hmac Unmarshal cfg acs cx key st).2
  | RqMappings cx account => (listMappings hmac Unmarshal cfg cx account st).2
  | RqCapabilities cx account role => (getMappedDeviceCapabilities hmac Unmarshal cfg acs cx account role st).2
  | RqMapping refs_ok cx body => (createMapping hmac Unmarshal cfg plans refs_ok reqhash cx body st).2
  | RqSubscriber cx account body => (putAccountSubscriber hmac Unmarshal cfg cx account body st).2
  | RqReconcile arrange locked acs now => reconcilePendingOrders hash dict arrange locked acs now st
  end.

(** Orders and jobs are left alone. *)
Definition elsewhere (st st' : BssState) : Prop := bs_orders st' = bs_orders st ∧ bs_jobs st' = bs_jobs st.

Lemma authorized_elsewhere {A} scope account cx st : elsewhere st (authorized (A:=A) hmac Unmarshal cfg scope account cx st).2.
Proof. unfold authorized. by destruct (authorizeBSSAccount _ _ _ _ _ _ _ _ _ _). Qed.

Lemma elsewhere_trans a b c : elsewhere a b → elsewhere b c → elsewhere a c.
Proof. intros [? ?] [? ?]. split; congruence. Qed.

(** A handler that authorizes and then only reads. *)
Lemma reader_elsewhere {A} scope account cx st (k : BssState → Reply A) :
  elsewhere st (match authorized hmac Unmarshal cfg scope account cx st with
                | (Some r, st) => (r, st)
                | (None, st) => (k st, st)
                end).2.
Proof. pose proof (@authorized_elsewhere A scope account cx st) as H. by destruct (authorized _ _ _ _ _ _ _) as [[r|] st']. Qed.

Lemma subscriber_elsewhere {A} account name vip st : elsewhere st (applySubscriber (A:=A) account name vip st).2.
Proof. unfold applySubscriber. destruct (match name with Some n => _ | None => _ end); [done|]. by destruct (SetSubscriber _ _ _ _ _ _) as [[]]. Qed.

Lemma preProvision_elsewhere refs_ok cx req st : elsewhere st (preProvision cfg plans refs_ok cx req st).2.
Proof. unfold preProvision. repeat break_match_goal; by split. Qed.

Lemma mapping_elsewhere refs_ok cx req st : elsewhere st (createMappingAuthorized cfg plans refs_ok cx req st).2.
Proof.
  unfold createMappingAuthorized. destruct (uuid_refusal _ _); [done|].
  pose proof (@subscriber_elsewhere MappingBody (mq_AccountID req) (mq_SubscriberName req) (mq_VIP req) st) as H1.
  destruct (applySubscriber _ _ _ _) as [[r|] st1]; [done|]. cbn in H1. eapply elsewhere_trans; [exact H1|].
  destruct (AssignDevice _ _ _ _ _ _ _ _) as [[e|m] tabs]; [|done].
  destruct e; try done. destruct (mq_PreProvision req); [|done].
  pose proof (preProvision_elsewhere refs_ok cx req st1) as H2.
  by destruct (preProvision _ _ _ _ _ _) as [[[| |]|o] st2].
Qed.

Lemma createMapping_elsewhere refs_ok cx body st : elsewhere st (createMapping hmac Unmarshal cfg plans refs_ok reqhash cx body st).2.
Proof.
  unfold createMapping. destruct body as [req|]; [|done]. destruct (String.eqb _ _ || _); [done|].
  pose proof (@authorized_elsewhere MappingBody ScopeTMFWrite (mq_AccountID req) cx st) as H1.
  destruct (authorized _ _ _ _ _ _ _) as [[r|] st1]; [done|]. cbn in H1. eapply elsewhere_trans; [exact H1|].
  unfold idempotent. destruct (String.eqb _ "").
  { pose proof (mapping_elsewhere refs_ok cx req st1) as H2. by destruct (createMappingAuthorized _ _ _ _ _ _). }
  destruct (_ <? _)%nat; [done|]. destruct (BeginIdempotent _ _ _ _ _ _) as [b keys]. destruct b; try done.
  pose proof (mapping_elsewhere refs_ok cx req (set_keys keys st1)) as H2. by destruct (createMappingAuthorized _ _ _ _ _ _).
Qed.

Lemma elsewhere_steps now st st' fl clock log :
  clock <= now → elsewhere st st' → ∃ clock' log', clock <= clock' <= now ∧ rtc (adapter_event hash dict) (mkWorld_ st fl clock log) (mkWorld_ st' fl clock' log').
Proof. intros Hc [? ?]. exists clock, log. split; [lia|]. by apply rtc_once, step_elsewhere. Qed.

Lemma createOrder_steps cx body st fl clock log :
  clock <= cx_now cx → ∃ clock' log', clock <= clock' <= cx_now cx ∧ rtc (adapter_event hash dict) (mkWorld_ st fl clock log)
    (mkWorld_ (createOrder hmac Unmarshal hash dict rng cfg acs cx body st).2 fl clock' log').
Proof.
  intros Hc. unfold createOrder. destruct body as [req|]; [|by apply elsewhere_steps].
  destruct (existsb _ _); [by apply elsewhere_steps|].
  pose proof (@authorized_elsewhere orderResponse ScopeTMFExecute (oq_AccountID req) cx st) as H1.
  destruct (authorized _ _ _ _ _ _ _) as [[r|] st1]; [by apply elsewhere_steps|]. cbn in H1.
  destruct (FindOrder _ _); [by apply elsewhere_steps|].
  destruct (ActiveDeviceForAccount _ _ _) as [m|]; [|by apply elsewhere_steps].
  destruct (translateActionForDevice _ _ _ _ _ _ _) as [e|params]; [by apply elsewhere_steps|].
  destruct (claimSecrets _ _ _ _ _ _ _ _ _) as [[e|] secrets']; [by apply elsewhere_steps|].
  destruct (dispatch_steps hash dict acs (cx_now cx) (oq_ExternalOrderID req) (oq_AccountID req) (oq_Action req) (am_DeviceID m)
              params (set_secrets secrets' st1) fl clock log Hc) as (clock' & log' & Hc' & Hr).
  assert (elsewhere st (set_secrets secrets' st1)) as [He1 He2] by done.
  exists clock', log'. split; [lia|]. eapply rtc_l; [by apply step_elsewhere|].
  destruct (dispatchOrder _ _ _ _ _ _ _ _ _ _) as [[[|e|[]]|key] st2]; exact Hr.
Qed.

Lemma reconcile_steps arrange locked acs' now st fl clock log :
  clock <= now → (∀ l, arrange l ≡ₚ l) → ∃ clock' log', clock <= clock' <= now ∧ rtc (adapter_event hash dict) (mkWorld_ st fl clock log)
    (mkWorld_ (reconcilePendingOrders hash dict arrange locked acs' now st) fl clock' log').
Proof.
  intros Hc Ha. unfold reconcilePendingOrders. destruct (ClaimDuePendingOrders _ _ _ _) as [claimed orders'] eqn:E.
  destruct (claimed_steps hash dict acs' now (arrange claimed) (set_orders orders' st) fl clock log Hc) as [log' Hr].
  exists now, log'. split; [lia|]. eapply rtc_l; [|exact Hr].
  pose proof (step_claim hash dict st fl clock log now locked orderReconcileBatch (arrange claimed) Hc) as Hs.
  rewrite E in Hs. by apply Hs.
Qed.

(** Every request in events of the adapter. *)
Lemma serve_steps rq st fl clock log :
  clock <= request_now rq → arranges rq →
  ∃ clock' log', clock <= clock' <= request_now rq ∧
    rtc (adapter_event hash dict) (mkWorld_ st fl clock log) (mkWorld_ (bss_serve rq st) fl clock' log').
Proof.
  intros Hc Ha. destruct rq as [cx body|cx body|cx key|cx account|cx account role|refs_ok cx body|cx account body|arrange locked acs' now];
    cbn in *; [by apply createOrder_steps|apply elsewhere_steps; [done|]..|by apply reconcile_steps].
  - unfold preflightAction. destruct body as [req|]; [|done]. destruct (existsb _ _); [done|]. apply reader_elsewhere.
  - unfold getOrderJob. destruct (FindOrderByCommandKey _ _) as [o|]; [|done]. apply reader_elsewhere.
  - apply reader_elsewhere.
  - apply reader_elsewhere.
  - apply createMapping_elsewhere.
  - unfold putAccountSubscriber. destruct body as [[name vip]|]; [|done].
    assert (elsewhere st (match authorized hmac Unmarshal cfg ScopeTMFWrite account cx st with
      | (Some r, st) => (r, st)
      | (None, st) => match applySubscriber account name vip st with
                      | (Some r, st) => (r, st)
                      | (None, st) => (match bs_profiles st !! account with
                                       | Some p => Replied 200 (pf_DisplayName p, pf_VIP p)
                                       | None => Refused 500 "ErrInternal" end, st)
                      end
      end).2) as H; [|by destruct name, vip].
    pose proof (@authorized_elsewhere (option string * bool) ScopeTMFWrite account cx st) as H1.
    destruct (authorized _ _ _ _ _ _ _) as [[r|] st1]; [done|]. cbn in H1. eapply elsewhere_trans; [exact H1|].
    pose proof (@subscriber_elsewhere (option string * bool) account name vip st1) as H2.
    by destruct (applySubscriber _ _ _ _) as [[r|] st2].
Qed.
Lemma reached_alone st fl clock log :
  reached hash dict (mkWorld_ st fl clock log) → reached hash dict (mkWorld_ st [] clock log).
Proof.
  intros (w0 & Hi & Hr). exists w0. split; [done|]. etrans; [exact Hr|]. clear.
  induction fl as [|x fl IH]; [done|]. eapply rtc_l; [exact (step_crash hash dict st [] x fl clock log)|exact IH].
Qed.

(** C15: what the adapter does to orders and jobs.  The effect of any of the eight
    modelled requests, the reconciler's pass included, is that of a sequence of the
    adapter's own events (record an order, claim the orders that are due, send an
    order so recorded or claimed, note the outcome), begun and ended with nothing
    held; and of the job queue no row is changed or deleted, and every row that is
    new is the job of an order on record: for the order's device, under the order's
    idempotency key, with the writes recorded with it. *)
Theorem adapter_refines_the_outbox rq st fl clock log :
  reached hash dict (mkWorld_ st fl clock log) → clock <= request_now rq → arranges rq →
  (∃ clock' log', clock <= clock' <= request_now rq ∧
     rtc (adapter_event hash dict) (mkWorld_ st [] clock log) (mkWorld_ (bss_serve rq st) [] clock' log')) ∧
  bs_jobs st ⊆ bs_jobs (bss_serve rq st) ∧
  ∀ k j, bs_jobs (bss_serve rq st) !! k = Some j → bs_jobs st !! k = Some j ∨
    ∃ id o, bs_orders (bss_serve rq st) !! id = Some o ∧ sent_for hash dict id (bo_DeviceID o) (bo_Parameters o) j.
Proof.
  intros Hw%reached_alone%reached_ok Hc Ha. destruct (serve_steps rq st [] clock log Hc Ha) as (clock' & log' & Hc' & Hr).
  split; [by exists clock', log'|]. exact (events_grow _ _ _ _ Hw Hr).
Qed.
End Requests.

(** ** Results *)

Section Results.
Context (hash : json → string) (dict : result Dictionary).

(** C16: an order is queued once.  However calls, lost answers, crashes, retries of
    several replicas and the rest of the system interleave: while the job that
    stands for an order is in the queue it is the only one; everything in flight
    for the order carries the device and the writes recorded with it; and one more
    call, whatever the API and the network make of it, leaves the queue as it is and
    can only answer that job. *)
Theorem order_is_queued_once w id o k j :
  reached hash dict w → bs_orders (ow_state w) !! id = Some o → bs_jobs (ow_state w) !! k = Some j → queued_for id o j →
  (∀ k' j', bs_jobs (ow_state w) !! k' = Some j' → queued_for id o j' → k' = k) ∧
  (∀ device params, Calling id device params ∈ ow_flight w → device = bo_DeviceID o ∧ params = bo_Parameters o) ∧
  ∀ acs,
    let r := SetParametersWithIdempotency hash dict acs (ow_state w) (bo_DeviceID o) (bo_Parameters o) (dispatch_key id) in
    r.2 = bs_jobs (ow_state w) ∧ ∀ key, r.1 = inr key → key = CommandKey j.
Proof.
  intros Hw%reached_ok Ho Hj (Hd & Ht & Hi). split_and!.
  - intros k' j' Hj' (Hd' & Ht' & Hi'). eapply (tab_idem _ (wo_jobs _ _ _ Hw)); eauto; congruence.
  - intros device params (o' & Ho' & <- & <-)%(wo_calling _ _ _ Hw). by simplify_eq.
  - intros acs. by eapply call_under_taken_key; [apply (wo_jobs _ _ _ Hw)|..].
Qed.

(** C17: the life of an order.  In every state the system can reach an order has made
    at most eight attempts, is given up exactly at the eighth, and has a command key
    exactly when it is dispatched; that key is the one of a job for the order's own
    device, created under the order's own idempotency key for the writes recorded
    with the order. *)
Theorem order_record_is_truthful w id o :
  reached hash dict w → bs_orders (ow_state w) !! id = Some o →
  bo_ExternalOrderID o = id ∧ 0 <= bo_Attempts o <= maxDispatchAttempts ∧
  (bo_Status o = OrderDeadLettered ↔ bo_Attempts o = maxDispatchAttempts) ∧
  (is_Some (bo_CommandKey o) ↔ bo_Status o = OrderDispatched) ∧
  ∀ key, bo_CommandKey o = Some key →
    ∃ j, (id, j) ∈ ow_log w ∧ CommandKey j = key ∧ sent_for hash dict id (bo_DeviceID o) (bo_Parameters o) j.
Proof.
  intros Hw%reached_ok Ho. destruct (wo_orders _ _ _ Hw id o Ho) as [Hi Ha Hd Hk _]. split_and!; try done; try tauto.
  intros key Hkey. destruct (wo_keys _ _ _ Hw id o key Ho Hkey) as (j & Hin & <-). exists j. split; [done|]. split; [done|].
  destruct (wo_log _ _ _ Hw id j Hin) as (o' & Ho' & Hs). by simplify_eq.
Qed.

(** An order only moves on.  It is never deleted, its account, device and writes
    never change, a dispatched or given-up order stays as it is, attempts do not go
    down; and after the attempt made (or started) at [t] nobody claims the order
    again before 2^attempts minutes have passed. *)
Theorem order_only_moves_on w w' id o :
  reached hash dict w → rtc (outbox_step hash dict) w w' → bs_orders (ow_state w) !! id = Some o →
  ∃ o', bs_orders (ow_state w') !! id = Some o' ∧ order_le o o' ∧
    ∀ t now, bo_LastAttemptAt o = Some t → due_order now o' = true → t + backoff (bo_Attempts o) < now.
Proof.
  intros Hw%reached_ok Hr Ho. destruct (outbox_steps_le _ _ _ _ Hw Hr) as [Hw' Hle].
  destruct (Hle id o Ho) as (o' & Ho' & Hm). exists o'. split; [done|]. split; [done|]. intros t now Ht Hd.
  destruct (ole_last _ _ Hm t Ht) as (t' & Ht' & ?). unfold due_order in Hd. rewrite Ht' in Hd. bool_to_prop.
  destruct (wo_orders _ _ _ Hw id o Ho) as [_ Ha _ _ _].
  pose proof (backoff_mono (bo_Attempts o) (bo_Attempts o') ltac:(lia) (ole_attempts _ _ Hm)). lia.
Qed.

(** ** A pass of the reconciler *)

Definition progressed (o o' : OrderRecord) : Prop :=
  (bo_Status o' = OrderDispatched ∨ bo_Status o' = OrderDeadLettered) ∨ bo_Attempts o < bo_Attempts o'.

Lemma progressed_le o a b : progressed o a → order_le a b → progressed o b.
Proof.
  intros [Hs|Ha] [_ Hm _ Hst]; [|right; lia]. left.
  assert (bo_Status a ≠ OrderPendingDispatch) as Hne by (destruct Hs; congruence). pose proof (Hst Hne). destruct Hs; intuition congruence.
Qed.

Lemma attempt_order_le acs now id device params st :
  orders_ok now (bs_orders st) →
  let st' := (attempt_order hash dict acs now id device params st).2 in
  orders_ok now (bs_orders st') ∧ orders_le (bs_orders st) (bs_orders st') ∧
  ∀ o, bs_orders st !! id = Some o → ∃ o', bs_orders st' !! id = Some o' ∧ progressed o o'.
Proof.
  intros Hok. unfold attempt_order. destruct (SetParametersWithIdempotency _ _ _ _ _ _ _) as [outcome jobs']. cbn.
  destruct (record_outcome_le now now id outcome (bs_orders st)) as [H1 H2]; [lia|done|]. split_and!; [done|done|].
  intros o Ho. unfold record_outcome, MarkDispatched, MarkDispatchFailed, progressed.
  assert (∀ f, (update_key id pending f (bs_orders st)).1 !! id = Some (if pending o then f o else o)) as Hl.
  { intros f. rewrite lookup_update_key, decide_True by done. by rewrite Ho. }
  destruct (pending o) eqn:Hp; destruct outcome as [e|key]; rewrite Hl; eexists; (split; [done|]); cbn; auto with lia.
  all: unfold pending in Hp; bool_to_prop; destruct (bo_Status o); [done|..]; tauto.
Qed.

Lemma attempt_claimed_le acs now orders st :
  orders_ok now (bs_orders st) →
  let st' := attempt_claimed hash dict acs now orders st in
  orders_ok now (bs_orders st') ∧ orders_le (bs_orders st) (bs_orders st') ∧
  ∀ c o, c ∈ orders → bs_orders st !! bo_ExternalOrderID c = Some o →
    ∃ o', bs_orders st' !! bo_ExternalOrderID c = Some o' ∧ progressed o o'.
Proof.
  revert st. induction orders as [|c0 orders IH]; intros st Hok; cbn.
  { split_and!; [done|reflexivity|]. by intros c o ?%not_elem_of_nil. }
  destruct (attempt_order_le (acs (bo_ExternalOrderID c0)) now (bo_ExternalOrderID c0) (bo_DeviceID c0) (bo_Parameters c0) st Hok)
    as (H1 & H2 & H3).
  destruct (IH _ H1) as (I1 & I2 & I3). split_and!; [done|by etrans|].
  intros c o [->|Hin']%elem_of_cons Ho.
  - destruct (H3 o Ho) as (o1 & Ho1 & Hp). destruct (I2 _ _ Ho1) as (o2 & Ho2 & Hm). exists o2. split; [done|].
    by eapply progressed_le.
  - destruct (H2 _ _ Ho) as (o1 & Ho1 & Hm). destruct (I3 _ _ Hin' Ho1) as (o2 & Ho2 & Hp). exists o2. split; [done|].
    destruct Hp as [Hp|Hp]; [by left|right]. pose proof (ole_attempts _ _ Hm). lia.
Qed.

Lemma due_claimed locked now limit tab id o :
  tab !! id = Some o → due_order now o = true → locked (bo_ExternalOrderID o) = false →
  (length (List.filter (due_order now) (rows tab)) <= limit)%nat → o ∈ claimed_orders locked now limit tab.
Proof.
  intros Ho Hd Hl Hn. unfold claimed_orders. rewrite take_ge.
  - rewrite merge_sort_Permutation. apply list_elem_of_In, filter_In. rewrite Hd, Hl. split; [|done].
    apply list_elem_of_In, elem_of_rows. eauto.
  - rewrite (Permutation_length (merge_sort_Permutation older_order _)). etrans; [|exact Hn]. clear.
    induction (rows tab) as [|x l IH]; cbn; [done|]. destruct (due_order now x); cbn; [|done].
    destruct (negb _); cbn; lia.
Qed.

(** C21: a pass of the reconciler attempts every order that is due, when no more than
    a batch (50) is due and no other claimer has the order locked: afterwards the
    order is settled or has used up one of its eight attempts.  Of a larger backlog
    a pass takes the 50 oldest. *)
Theorem due_order_is_attempted w arrange locked acs now id o :
  reached hash dict w → ow_clock w <= now → (∀ l, arrange l ≡ₚ l) →
  bs_orders (ow_state w) !! id = Some o → due_order now o = true → locked id = false →
  (length (List.filter (due_order now) (rows (bs_orders (ow_state w)))) <= orderReconcileBatch)%nat →
  ∃ o', bs_orders (reconcilePendingOrders hash dict arrange locked acs now (ow_state w)) !! id = Some o' ∧
    (bo_Status o' = OrderDispatched ∨ bo_Status o' = OrderDeadLettered ∨ bo_Attempts o < bo_Attempts o').
Proof.
  intros Hw%reached_ok Hc Ha Ho Hd Hl Hn. pose proof (wo_orders _ _ _ Hw) as Hok.
  pose proof (ord_id _ _ _ (Hok id o Ho)) as Hid. rewrite <- Hid in Hl.
  pose proof (due_claimed _ _ _ _ _ _ Ho Hd Hl Hn) as Hin.
  destruct (claim_le (ow_clock w) locked now orderReconcileBatch _ Hc Hok) as [Hok1 _].
  pose proof (claim_lookup locked now orderReconcileBatch (bs_orders (ow_state w)) id) as Hrow.
  rewrite Ho in Hrow. cbn [fmap option_fmap option_map] in Hrow. rewrite (proj2 (claimed_row _ _ _ _ _ _ _ Hok Ho) Hin) in Hrow.
  unfold reconcilePendingOrders. destruct (ClaimDuePendingOrders _ _ _ _) as [claimed orders'] eqn:E.
  assert (stamp now o ∈ arrange claimed) as Hst.
  { rewrite Ha. unfold ClaimDuePendingOrders in E. injection E as <- _. apply list_elem_of_fmap. eauto. }
  destruct (attempt_claimed_le acs now (arrange claimed) (set_orders orders' (ow_state w)) Hok1) as (_ & _ & Hp).
  destruct (Hp (stamp now o) (stamp now o) Hst) as (o' & Ho' & Hpr); cbn in *; [by rewrite Hid|].
  rewrite Hid in Ho'. exists o'. split; [done|]. unfold progressed in Hpr. cbn in Hpr. tauto.
Qed.
End Results.

(** ** Concrete orders *)

Definition w_cfg_lab : BssConfig := mkBssConfig "" "" false false (mkWalledGarden "X_WALLED" "1" "0") None false.

Definition w_bss : BssState :=
  mkBss ∅ {["m-1" := mkMapping "m-1" "acct-1" "d-1" "k-d-1" None "ACTIVE" "gateway" 0 None None]} ∅
    {["d-1" := w_plane_device "d-1" (Some "c-1")]} ∅ ∅ ∅ ∅ ∅ ∅ ∅ ∅.

Definition w_acs (net : Delivery) : Acs :=
  mkAcs (mkApiEnv (Ok ([], false)) None 5 w_nth ∅ no_params (mkGroups ∅ ∅) ∅ []) (λ _, net).

Definition w_cx : BssCall := mkBssCall 10 "POST" "" "" "m-2" "s-1".
Definition w_suspend : createOrderRequest := mkOrderRequest "ord-1" "acct-1" "SUSPEND" "" ∅.

(** The order whose answer got lost. *)
Definition w_order (net : Delivery) : Reply orderResponse * BssState :=
  createOrder (λ _ _, "") (λ _, None) (λ _, "h") w_dict w_rng w_cfg_lab (w_acs net) w_cx (Some w_suspend) w_bss.

Lemma w_order_reached net : ∃ w, reached (λ _, "h") w_dict w ∧ ow_state w = (w_order net).2 ∧ ow_flight w = [] ∧ ow_clock w <= 10.
Proof.
  destruct (createOrder_steps (λ _ _, "") (λ _, None) (λ _, "h") w_dict w_rng w_cfg_lab (w_acs net) w_cx (Some w_suspend) w_bss
              [] 0 []) as (clock & log & Hc & Hr); [cbn; lia|].
  exists (mkWorld_ (w_order net).2 [] clock log). split; [|cbn in *; repeat split; lia].
  exists (mkWorld_ w_bss [] 0 []). split; [repeat split; apply rtc_refl|].
  apply events_outbox. exact Hr.
Qed.

Example order_with_a_lost_answer :
  (w_order AnswerLost).1 = Refused 502 "ErrACSUnreachable" ∧
  (λ o, (bo_Status o, bo_Attempts o)) <$> bs_orders (w_order AnswerLost).2 !! "ord-1" = Some (OrderPendingDispatch, 1) ∧
  (λ j, (DeviceID j, IdempotencyKey j)) <$> bs_jobs (w_order AnswerLost).2 !! "id-0" = Some ("d-1", Some "bss:ord-1:set-parameters").
Proof. vm_compute. done. Qed.

Lemma order_is_queued_once_witness :
  ∃ o, bs_orders (w_order AnswerLost).2 !! "ord-1" = Some o ∧
    (SetParametersWithIdempotency (λ _, "h") w_dict (w_acs Served) (w_order AnswerLost).2 (bo_DeviceID o) (bo_Parameters o)
       (dispatch_key "ord-1")).2 = bs_jobs (w_order AnswerLost).2.
Proof.
  destruct (w_order_reached AnswerLost) as (w & Hr & Hst & _ & _).
  destruct (bs_orders (w_order AnswerLost).2 !! "ord-1") as [o|] eqn:Eo; [|vm_compute in Eo; discriminate].
  destruct (bs_jobs (w_order AnswerLost).2 !! "id-0") as [j|] eqn:Ej; [|vm_compute in Ej; discriminate].
  exists o. split; [done|].
  destruct (order_is_queued_once (λ _, "h") w_dict w "ord-1" o "id-0" j Hr) as (_ & _ & H).
  - by rewrite Hst.
  - by rewrite Hst.
  - vm_compute in Eo, Ej. injection Eo as <-. injection Ej as <-. repeat split.
  - rewrite Hst in H. apply (H (w_acs Served)).
Defined.

Lemma order_record_is_truthful_witness :
  ∃ o, bs_orders (w_order Served).2 !! "ord-1" = Some o ∧ bo_Status o = OrderDispatched ∧ is_Some (bo_CommandKey o).
Proof.
  destruct (w_order_reached Served) as (w & Hr & Hst & _ & _).
  destruct (bs_orders (w_order Served).2 !! "ord-1") as [o|] eqn:Eo; [|vm_compute in Eo; discriminate].
  exists o. split; [done|].
  destruct (order_record_is_truthful (λ _, "h") w_dict w "ord-1" o Hr) as (_ & _ & _ & Hk & _); [by rewrite Hst|].
  assert (bo_Status o = OrderDispatched) as Hs by (vm_compute in Eo; injection Eo as <-; done). split; [done|]. by apply Hk.
Defined.

Lemma order_only_moves_on_witness :
  ∃ w w' o', reached (λ _, "h") w_dict w ∧ rtc (outbox_step (λ _, "h") w_dict) w w' ∧
    bs_orders (ow_state w') !! "ord-1" = Some o' ∧ bo_NotifiedAt o' = Some 20 ∧ bo_Status o' = OrderDispatched.
Proof.
  destruct (w_order_reached Served) as ([st fl clock log] & Hr & Hst & Hf & Hc). cbn in Hst, Hf, Hc. subst fl.
  destruct (bs_orders st !! "ord-1") as [o|] eqn:Eo; [|subst st; vm_compute in Eo; discriminate].
  pose proof (step_notified (λ _, "h") w_dict st [] clock log 20 "ord-1" ltac:(lia)) as Hs. apply rtc_once in Hs.
  destruct (order_only_moves_on (λ _, "h") w_dict _ _ "ord-1" o Hr Hs Eo) as (o' & Ho' & _ & _).
  eexists _, _, o'. split; [exact Hr|]. split; [exact Hs|]. split; [exact Ho'|].
  subst st. vm_compute in Ho'. injection Ho' as <-. split; reflexivity.
Defined.

(** A minute later the reconciler takes up the order whose answer got lost. *)
Lemma due_order_is_attempted_witness :
  ∃ o', bs_orders (reconcilePendingOrders (λ _, "h") w_dict id (λ _, false) (λ _, w_acs Served) (10 + 3 * Minute)
                     (w_order AnswerLost).2) !! "ord-1" = Some o' ∧ bo_Status o' ≠ OrderPendingDispatch.
Proof.
  destruct (w_order_reached AnswerLost) as (w & Hr & Hst & _ & Hc).
  destruct (bs_orders (w_order AnswerLost).2 !! "ord-1") as [o|] eqn:Eo; [|vm_compute in Eo; discriminate].
  destruct (due_order_is_attempted (λ _, "h") w_dict w id (λ _, false) (λ _, w_acs Served) (10 + 3 * Minute) "ord-1" o Hr)
    as (o' & Ho' & _).
  - unfold Minute, Second. lia.
  - done.
  - by rewrite Hst.
  - vm_compute in Eo. injection Eo as <-. by vm_compute.
  - done.
  - rewrite Hst. apply Nat.leb_le. by vm_compute.
  - rewrite Hst in Ho'. exists o'. split; [exact Ho'|]. vm_compute in Ho'. injection Ho' as <-. done.
Defined.

Lemma adapter_refines_the_outbox_witness :
  (∃ clock log, rtc (adapter_event (λ _, "h") w_dict) (mkWorld_ w_bss [] 0 []) (mkWorld_ (w_order Served).2 [] clock log)) ∧
  ∃ id o j, bs_jobs (w_order Served).2 !! "id-0" = Some j ∧ bs_orders (w_order Served).2 !! id = Some o ∧
    sent_for (λ _, "h") w_dict id (bo_DeviceID o) (bo_Parameters o) j.
Proof.
  destruct (adapter_refines_the_outbox (λ _ _, "") (λ _, None) (λ _, "h") w_dict w_rng w_cfg_lab (w_acs Served) ∅ (λ _, "")
              (RqOrder w_cx (Some w_suspend)) w_bss [] 0 []) as ((clock & log & _ & H) & _ & Hnew); [|cbn; lia|exact I|].
  { exists (mkWorld_ w_bss [] 0 []). split; [repeat split|]; apply rtc_refl. }
  split; [exists clock, log; exact H|].
  destruct (bs_jobs (w_order Served).2 !! "id-0") as [j|] eqn:Ej; [|vm_compute in Ej; discriminate].
  destruct (Hnew "id-0" j Ej) as [Hn|(id & o & Ho & Hs)]; [vm_compute in Hn; discriminate|].
  exists id, o, j. split_and!; [reflexivity|exact Ho|exact Hs].
Defined.
