(* ===== verification/BssTenancyTheorems.v ===== *)
(** * Accounts, devices and customers of the BSS

    Which device an account means, and that a client bound to a customer stays with
    the devices of that customer. *)

From S2P Require Import Prelude GoStrings Json Protected JobModel JobStore Datamodel Devices Adapters ParamCache Onboarding Sessions.
From S2P Require Import JobLaws Gateway WifiView ApiWrites Operators Jwt Routes Api ControlPlane ApiJobs ApiJobsTheorems Bss BssAuth BssAdapter BssTheorems.

(** ** The table of mappings *)

Record mappings_ok (tab : Mappings) : Prop := mk_mappings_ok {
  mp_ids : map_Forall (λ k m, am_ID m = k) tab;
  mp_role : ∀ k1 k2 m1 m2, tab !! k1 = Some m1 → tab !! k2 = Some m2 → current m1 = true → current m2 = true →
    am_AccountID m1 = am_AccountID m2 → am_Role m1 = am_Role m2 → k1 = k2;
  mp_device : ∀ k1 k2 m1 m2, tab !! k1 = Some m1 → tab !! k2 = Some m2 → current m1 = true → current m2 = true →
    am_AccountID m1 = am_AccountID m2 → am_DeviceID m1 = am_DeviceID m2 → k1 = k2
}.

(** One statement of the repository, on behalf of any account. *)
Inductive mapping_step : Mappings * Devices → Mappings * Devices → Prop :=
| step_assign uuid now accounts account serial role plan status tabs :
    mapping_step tabs (AssignDeviceStatus uuid now accounts account serial role plan status tabs).2
| step_unassign now account role reason tabs :
    mapping_step tabs ((UnassignDevice now account role reason tabs.1).2, tabs.2)
| step_swap uuid now accounts account role serial reason tabs :
    mapping_step tabs (SwapDevice uuid now accounts account role serial reason tabs).2
| step_status id status tabs : mapping_step tabs ((SetMappingStatus id status tabs.1).2, tabs.2)
| step_end now id reason tabs : mapping_step tabs ((EndMapping now id reason tabs.1).2, tabs.2)
| step_registry tab devices devices' : mapping_step (tab, devices) (tab, devices').

Lemma in_role_spec account role m :
  in_role account role m = true ↔ current m = true ∧ am_AccountID m = account ∧ am_Role m = role.
Proof. unfold in_role. rewrite !andb_true_iff, !String.eqb_eq. tauto. Qed.

Lemma of_device_spec account device m :
  of_device account device m = true ↔ current m = true ∧ am_AccountID m = account ∧ am_DeviceID m = device.
Proof. unfold of_device. rewrite !andb_true_iff, !String.eqb_eq. tauto. Qed.

Lemma no_row (p : AccountDeviceMapping → bool) (tab : Mappings) k m :
  existsb p (rows tab) = false → tab !! k = Some m → p m = false.
Proof.
  intros H Hm. destruct (p m) eqn:E; [|done]. assert (existsb p (rows tab) = true); [|congruence].
  apply existsb_elem. exists m. split; [apply elem_of_rows; eauto|done].
Qed.

(** A row is rewritten in place, its identity kept, and never made current again. *)
Lemma mappings_ok_rewrite (f : string → AccountDeviceMapping → AccountDeviceMapping) tab tab' :
  mappings_ok tab → (∀ k, tab' !! k = f k <$> tab !! k) →
  (∀ k m, (am_ID (f k m), am_AccountID (f k m), am_Role (f k m), am_DeviceID (f k m)) = (am_ID m, am_AccountID m, am_Role m, am_DeviceID m)) →
  (∀ k m, current (f k m) = true → current m = true) → mappings_ok tab'.
Proof.
  intros [Hi Hr Hd] Hf Hid Hc. split.
  - intros k m. rewrite Hf. destruct (tab !! k) as [m0|] eqn:E; [|done]. intros [= <-]. pose proof (Hid k m0) as [= -> _ _ _].
    by apply Hi.
  - intros k1 k2 m1 m2. rewrite !Hf. destruct (tab !! k1) as [n1|] eqn:E1, (tab !! k2) as [n2|] eqn:E2; try done.
    intros [= <-] [= <-]. pose proof (Hid k1 n1) as [= _ -> -> _]. pose proof (Hid k2 n2) as [= _ -> -> _]. eauto.
  - intros k1 k2 m1 m2. rewrite !Hf. destruct (tab !! k1) as [n1|] eqn:E1, (tab !! k2) as [n2|] eqn:E2; try done.
    intros [= <-] [= <-]. pose proof (Hid k1 n1) as [= _ -> _ ->]. pose proof (Hid k2 n2) as [= _ -> _ ->]. eauto.
Qed.

Lemma insertAssignment_spec devices now id account device serial role plan status tab m tab' :
  insertAssignment devices now id account device serial role plan status tab = inr (m, tab') →
  m = mkMapping id account device serial plan status role now None None ∧ tab' = <[id := m]> tab ∧ tab !! id = None ∧
  existsb (of_device account device) (rows tab) = false ∧ existsb (in_role account role) (rows tab) = false ∧
  is_Some (devices !! device).
Proof.
  unfold insertAssignment. destruct (negb (existsb _ _ && _)); [done|]. destruct (tab !! id) eqn:E; [done|]. cbn [is_some].
  destruct (existsb (of_device _ _) _) eqn:Ed; [done|]. destruct (existsb (in_role _ _) _) eqn:Er; [done|].
  destruct (devices !! device) eqn:Ev; [|done]. cbn. intros [= <- <-]. split_and!; eauto.
Qed.

Lemma insert_ok devices now id account device serial role plan status tab m tab' :
  mappings_ok tab → insertAssignment devices now id account device serial role plan status tab = inr (m, tab') → mappings_ok tab'.
Proof.
  intros [Hi Hr Hd] (-> & -> & Hn & Hnd & Hnr & _)%insertAssignment_spec. split.
  - by apply map_Forall_insert_2.
  - intros k1 k2 m1 m2. rewrite !lookup_insert_Some. intros [[<- <-]|[N1 H1]] [[<- <-]|[N2 H2]]; cbn; try done; [| |by eauto];
      intros C1 C2 Ha Hro; exfalso.
    + pose proof (no_row _ _ _ _ Hnr H2) as F. apply not_true_iff_false in F. apply F, in_role_spec. auto.
    + pose proof (no_row _ _ _ _ Hnr H1) as F. apply not_true_iff_false in F. apply F, in_role_spec. auto.
  - intros k1 k2 m1 m2. rewrite !lookup_insert_Some. intros [[<- <-]|[N1 H1]] [[<- <-]|[N2 H2]]; cbn; try done; [| |by eauto];
      intros C1 C2 Ha Hro; exfalso.
    + pose proof (no_row _ _ _ _ Hnd H2) as F. apply not_true_iff_false in F. apply F, of_device_spec. auto.
    + pose proof (no_row _ _ _ _ Hnd H1) as F. apply not_true_iff_false in F. apply F, of_device_spec. auto.
Qed.

Lemma close_ok now reason p tab : mappings_ok tab → mappings_ok (update_where p (close now reason) tab).1.
Proof.
  intros H. eapply (mappings_ok_rewrite (λ _ m, if p m then close now reason m else m)); [exact H|intros k; apply lookup_update_where| |].
  - intros _ m. by destruct (p m).
  - intros _ m. by destruct (p m).
Qed.

Lemma update_current_ok id f tab :
  (∀ m, (am_ID (f m), am_AccountID (f m), am_Role (f m), am_DeviceID (f m)) = (am_ID m, am_AccountID m, am_Role m, am_DeviceID m)) →
  mappings_ok tab → mappings_ok (update_key id current f tab).1.
Proof.
  intros Hf H. eapply (mappings_ok_rewrite (λ k m, if decide (id = k) then if current m then f m else m else m)); [exact H| | |].
  - intros k. rewrite lookup_update_key. by destruct (decide (id = k)), (tab !! k).
  - intros k m. destruct (decide (id = k)); [|done]. destruct (current m); [apply Hf|done].
  - intros k m. destruct (decide (id = k)); [|done]. destruct (current m) eqn:E; congruence.
Qed.

Lemma mapping_step_ok tabs tabs' : mappings_ok tabs.1 → mapping_step tabs tabs' → mappings_ok tabs'.1.
Proof.
  intros H Hs. destruct Hs as
    [uuid now accounts account serial role plan status tabs|now account role reason tabs|uuid now accounts account role serial reason tabs
    |id status tabs|now id reason tabs|tab devices devices']; cbn.
  - unfold AssignDeviceStatus. destruct (negb _); [done|]. destruct (deviceForAccount _ _ _ _ _) as [|[device devices']]; [done|].
    destruct (insertAssignment _ _ _ _ _ _ _ _ _ _) as [|[m tab']] eqn:E; [done|]. by eapply insert_ok.
  - unfold UnassignDevice. destruct (negb _); [done|]. destruct (negb _); [done|].
    pose proof (close_ok now reason (in_role account role) _ H) as Hc. by destruct (update_where _ _ _).
  - unfold SwapDevice. destruct (negb _); [done|]. destruct (negb _); [done|].
    destruct (ActiveDeviceForAccount _ _ _) as [old|]; [|done]. destruct (deviceForAccount _ _ _ _ _) as [|[device devices']]; [done|].
    destruct (insertAssignment _ _ _ _ _ _ _ _ _ _) as [|[m tab']] eqn:E; [done|]. eapply insert_ok; [|exact E]. by apply close_ok.
  - unfold SetMappingStatus. destruct (negb _); [done|]. by apply (update_current_ok _ (with_status status)).
  - unfold EndMapping. destruct (negb _); [done|]. by apply (update_current_ok _ (close now reason)).
  - done.
Qed.

Definition mapping_reached (tabs : Mappings * Devices) : Prop := ∃ devices, rtc mapping_step (∅, devices) tabs.

Lemma mapping_reached_ok tabs : mapping_reached tabs → mappings_ok tabs.1.
Proof.
  intros [devices Hr]. apply rtc_nsteps in Hr as [n Hr]. remember (∅ : Mappings, devices) as t0 eqn:E0.
  assert (mappings_ok t0.1) as H0 by (subst; cbn; split; [apply map_Forall_empty|intros ?; set_solver|intros ?; set_solver]).
  clear E0. induction Hr; eauto using mapping_step_ok.
Qed.

(** The one row of a role. *)
Lemma active_unique tab k m account role :
  mappings_ok tab → tab !! k = Some m → in_role account role m = true → ActiveDeviceForAccount tab account role = Some m.
Proof.
  intros Hok Hm Hin. unfold ActiveDeviceForAccount. destruct (List.find _ _) as [m'|] eqn:E.
  - apply find_some in E as [Hr Hp]. apply list_elem_of_In, elem_of_rows in Hr as [k' Hk'].
    apply in_role_spec in Hin as (? & ? & ?), Hp as (? & ? & ?).
    assert (k' = k) as -> by (eapply (mp_role _ Hok); eauto; congruence). congruence.
  - pose proof (find_none _ _ E m) as F. rewrite Hin in F. exfalso. assert (true = false); [|done]. apply F.
    apply list_elem_of_In, elem_of_rows. eauto.
Qed.

Lemma active_none tab account role :
  ActiveDeviceForAccount tab account role = None ↔ ∀ k m, tab !! k = Some m → in_role account role m = false.
Proof.
  unfold ActiveDeviceForAccount. split.
  - intros H k m Hm. apply (find_none _ _ H). apply list_elem_of_In, elem_of_rows. eauto.
  - intros H. destruct (List.find _ _) as [m|] eqn:E; [|done]. apply find_some in E as [Hin Hp].
    apply list_elem_of_In, elem_of_rows in Hin as [k Hk]. rewrite (H k m Hk) in Hp. done.
Qed.

Lemma active_some tab account role m :
  ActiveDeviceForAccount tab account role = Some m → (∃ k, tab !! k = Some m) ∧ in_role account role m = true.
Proof.
  intros [Hin Hp]%find_some. split; [|done]. by apply list_elem_of_In, elem_of_rows in Hin.
Qed.

(** C19: a role means one device.  Whatever mappings have been made, ended, swapped or
    corrected, an account has at most one current device in a role, and that is the
    one an order, a preflight or a capability request finds: the lookup needs no
    tie-break. *)
Theorem role_means_one_device tabs k m :
  mapping_reached tabs → tabs.1 !! k = Some m → current m = true →
  ActiveDeviceForAccount tabs.1 (am_AccountID m) (am_Role m) = Some m ∧
  CurrentMapping tabs.1 (am_AccountID m) (am_DeviceID m) = Some m.
Proof.
  intros Hok%mapping_reached_ok Hm Hc. split.
  - eapply active_unique; [done|done|]. by apply in_role_spec.
  - unfold CurrentMapping. destruct (List.find _ _) as [m'|] eqn:E.
    + apply find_some in E as [Hr Hp]. apply list_elem_of_In, elem_of_rows in Hr as [k' Hk'].
      apply of_device_spec in Hp as (? & ? & ?). assert (k' = k) as -> by (eapply (mp_device _ Hok); eauto; congruence). congruence.
    + pose proof (find_none _ _ E m) as F. rewrite (proj2 (of_device_spec _ _ m)) in F by done. exfalso.
      assert (true = false); [|done]. apply F, list_elem_of_In, elem_of_rows. eauto.
Qed.

Lemma swap_elsewhere uuid now account role reason tab m :
  mappings_ok tab → tab !! uuid = None → am_AccountID m = account → am_Role m = role →
  mappings_ok (<[uuid := m]> (update_where (in_role account role) (close now reason) tab).1) →
  ∀ account' role', (account', role') ≠ (account, role) →
  ActiveDeviceForAccount (<[uuid := m]> (update_where (in_role account role) (close now reason) tab).1) account' role' =
  ActiveDeviceForAccount tab account' role'.
Proof.
  intros Hok Hn Ha Hr Hok' account' role' Hne. destruct (ActiveDeviceForAccount tab account' role') as [n|] eqn:E.
  - apply active_some in E as ((k & Hk) & Hin). apply active_unique with k; [done| |done].
    rewrite lookup_insert_ne by congruence. rewrite lookup_update_where, Hk. cbn. f_equal.
    destruct (in_role account role n) eqn:En; [|done]. apply in_role_spec in Hin as (_ & ? & ?), En as (_ & ? & ?). congruence.
  - rewrite active_none in E. apply active_none. intros k n. rewrite lookup_insert_Some, lookup_update_where.
    intros [[_ <-]|[_ Hk]].
    + apply not_true_iff_false. intros (_ & ? & ?)%in_role_spec. congruence.
    + destruct (tab !! k) as [n0|] eqn:Ek; [|done]. cbn in Hk. injection Hk as <-.
      destruct (in_role account role n0); [|by eapply E]. done.
Qed.

(** C20: a swap is all or nothing.  A refused swap leaves both tables as they were, so
    the account keeps its device; an accepted one leaves the account with the new
    device in the role and its service plan, the old assignment closed but kept, and
    every other role of every account as it was. *)
Theorem swap_is_atomic uuid now accounts account role serial reason tabs :
  mapping_reached tabs →
  match SwapDevice uuid now accounts account role serial reason tabs with
  | (inl _, tabs') => tabs' = tabs
  | (inr m, tabs') =>
      ActiveDeviceForAccount tabs'.1 account role = Some m ∧ am_OUISerial m = serial ∧
      (∃ k old, tabs.1 !! k = Some old ∧ ActiveDeviceForAccount tabs.1 account role = Some old ∧
         tabs'.1 !! k = Some (close now reason old) ∧ am_ServicePlan m = am_ServicePlan old) ∧
      ∀ account' role', (account', role') ≠ (account, role) →
        ActiveDeviceForAccount tabs'.1 account' role' = ActiveDeviceForAccount tabs.1 account' role'
  end.
Proof.
  intros Hok%mapping_reached_ok. pose proof (step_swap uuid now accounts account role serial reason tabs) as Hstep.
  apply (mapping_step_ok _ _ Hok) in Hstep. revert Hstep. unfold SwapDevice. destruct (negb _); [done|]. destruct (negb _); [done|].
  destruct (ActiveDeviceForAccount tabs.1 account role) as [old|] eqn:Eo; [|done].
  destruct (deviceForAccount _ _ _ _ _) as [|[device devices']]; [done|].
  destruct (insertAssignment _ _ _ _ _ _ _ _ _ _) as [|[m tab']] eqn:E; [done|]. cbn [fst snd]. intros Hok'.
  apply insertAssignment_spec in E as (-> & -> & Hn & _ & _ & _). set (m := mkMapping _ _ _ _ _ _ _ _ _ _) in *.
  assert (tabs.1 !! uuid = None) as Hn'.
  { rewrite lookup_update_where in Hn. by destruct (tabs.1 !! uuid). }
  apply active_some in Eo as ((k & Hk) & Hin). assert (k ≠ uuid) as Hne by congruence. split_and!.
  - apply active_unique with uuid; [done|apply lookup_insert_eq|]. by apply in_role_spec.
  - done.
  - exists k, old. split_and!; [done|done| |done].
    rewrite lookup_insert_ne by done. rewrite lookup_update_where, Hk. cbn. by rewrite Hin.
  - by apply swap_elsewhere.
Qed.

(** ** Customers *)

Definition customer_of (devices : Devices) (id : string) : option string := d ← devices !! id; d_CustomerID (d_ownership d).

(** A device that serves an account of a customer is that customer's. *)
Record owned_ok (mappings : Mappings) (accounts : Accounts) (devices : Devices) : Prop := mk_owned_ok {
  own_ids : map_Forall (λ k d, d_ID (d_identity d) = k) devices;
  own_devices : ∀ k m r, mappings !! k = Some m → current m = true → accounts !! am_AccountID m = Some r →
    customer_of devices (am_DeviceID m) = Some (ac_CustomerID r)
}.

Definition state_owned (st : BssState) : Prop := owned_ok (bs_mappings st) (bs_accounts st) (bs_devices st).

Section Tenancy.
Context (hmac : string → string → string) (Unmarshal : string → option json).
Context (hash : json → string) (dict : result Dictionary) (rng : string → gmap string bool → list (string * bool)).
Context (cfg : BssConfig) (acs : Acs) (plans : gmap string ServicePlan) (reqhash : createMappingRequest → string).

(** An account is claimed only when no mapping names it. *)
Lemma claim_owned st account customer by_ :
  state_owned st →
  owned_ok (bs_mappings st) (ClaimAccount (account_history st) account customer by_ (bs_accounts st)).2 (bs_devices st).
Proof.
  intros [Hi Hd]. split; [done|]. intros k m r Hm Hc. unfold ClaimAccount. cbn.
  destruct (account_history st (TrimSpace account) || _) eqn:Eh; [by apply (Hd k m r)|]. apply orb_false_iff in Eh as [Eh _].
  rewrite lookup_insert_Some. intros [[Ha <-]|[_ Hr]]; [|by eapply Hd].
  unfold account_history in Eh. repeat apply orb_false_iff in Eh as [Eh _].
  pose proof (no_row _ _ _ _ Eh Hm) as F. cbn in F. by rewrite Ha, String.eqb_refl in F.
Qed.

Lemma accountAllowed_owned {A} st method c account :
  state_owned st →
  owned_ok (bs_mappings st) (accountAllowed (A:=A) (account_history st) method c account (bs_accounts st)).2 (bs_devices st).
Proof.
  intros H. unfold accountAllowed. destruct (String.eqb _ _); [done|]. destruct (_ || _); [done|].
  destruct (String.eqb _ "" && _); [|done].
  pose proof (claim_owned st (TrimSpace account) (cl_CustomerID c) (cl_Subject c) H) as H'.
  by destruct (ClaimAccount _ _ _ _ _) as [[]].
Qed.

Lemma authorized_owned {A} scope account cx st :
  state_owned st → state_owned (authorized (A:=A) hmac Unmarshal cfg scope account cx st).2.
Proof.
  intros H. unfold authorized, authorizeBSSAccount, authorize_claims.
  pose proof (λ c, @accountAllowed_owned A st (cx_method cx) c account H) as Hc.
  assert (∀ c (b : bool), owned_ok (bs_mappings st)
    (if b then accountAllowed (A:=A) (account_history st) (cx_method cx) c account (bs_accounts st)
     else (Some (Refused 403 "insufficient_scope"), bs_accounts st)).2 (bs_devices st)) as Hb by (intros c []; [apply Hc|exact H]).
  assert (∀ r : option (Reply A) * Accounts, owned_ok (bs_mappings st) r.2 (bs_devices st) →
    state_owned (let '(x, tab) := r in (x, set_accounts tab st)).2) as Hs by (by intros [x tab]).
  apply Hs. destruct (bc_requireCustomerBound cfg).
  - destruct (boundPrincipal _ _ _ _ _); [exact H|apply Hb].
  - destruct (lab_mode cfg || _); [exact H|]. destruct (oauth_claims _ _ _ _ _); [apply Hb|exact H].
Qed.

Lemma lookup_on_device id f (devices : Devices) id' :
  on_device id f devices !! id' = if decide (id = id') then f <$> devices !! id' else devices !! id'.
Proof. unfold on_device. destruct (decide (id = id')) as [->|]; [apply lookup_alter_eq|by apply lookup_alter_ne]. Qed.

(** The device a mapping is made for. *)
Lemma deviceForAccount_owned now accounts serial account mappings devices id devices' :
  owned_ok mappings accounts devices → deviceForAccount now accounts serial account devices = inr (id, devices') →
  owned_ok mappings accounts devices' ∧
  ∀ r, accounts !! account = Some r → customer_of devices' id = Some (ac_CustomerID r).
Proof.
  intros [Hi Hd]. unfold deviceForAccount. destruct (GetByOUIserial devices serial) as [d|] eqn:Eg; [|done].
  assert (devices !! d_ID (d_identity d) = Some d) as Hg.
  { unfold GetByOUIserial, devices_where in Eg. assert (d ∈ rows devices) as Hin.
    { destruct (List.filter _ _) as [|x l] eqn:Ef; [done|]. injection Eg as ->.
      assert (In d (List.filter (has_key serial) (rows devices))) as Hin by (rewrite Ef; by left).
      apply filter_In in Hin as [Hin _]. by apply list_elem_of_In. }
    apply elem_of_rows in Hin as [k Hk]. by rewrite (Hi _ _ Hk). }
  destruct (accounts !! account) as [r|] eqn:Ea; [destruct (d_CustomerID (d_ownership d)) as [c|] eqn:Ec|].
  - destruct (String.eqb_spec c (ac_CustomerID r)) as [->|]; [|done]. intros [= <- <-]. split; [done|].
    intros r' [= <-]. unfold customer_of. by rewrite Hg.
  - intros [= <- <-]. split; [split|].
    + intros k d'. rewrite lookup_on_device. destruct (decide _) as [<-|]; [|apply Hi]. rewrite Hg. by intros [= <-].
    + intros k m r' Hm Hc Hr. pose proof (Hd k m r' Hm Hc Hr) as Hcu. unfold customer_of in *. rewrite lookup_on_device.
      destruct (decide _) as [E|]; [|done]. rewrite <- E, Hg in Hcu. cbn in Hcu. congruence.
    + intros r' [= <-]. unfold customer_of. rewrite lookup_on_device, decide_True by done. by rewrite Hg.
  - intros [= <- <-]. by split.
Qed.

Lemma AssignDevice_owned uuid now accounts account serial role plan tabs :
  owned_ok tabs.1 accounts tabs.2 →
  let r := AssignDevice uuid now accounts account serial role plan tabs in owned_ok r.2.1 accounts r.2.2.
Proof.
  intros H. unfold AssignDevice, AssignDeviceStatus. destruct (negb _); [done|].
  destruct (deviceForAccount _ _ _ _ _) as [|[id devices']] eqn:Ed; [done|].
  destruct (insertAssignment _ _ _ _ _ _ _ _ _ _) as [|[m tab']] eqn:E; [done|]. cbn.
  destruct (deviceForAccount_owned _ _ _ _ tabs.1 _ _ _ H Ed) as [[Hi Hd] Hnew].
  apply insertAssignment_spec in E as (-> & -> & _). split; [done|]. intros k m r.
  rewrite lookup_insert_Some. intros [[_ <-]|[_ Hm]] Hc Hr; [by apply Hnew|by eapply Hd].
Qed.

Definition same_tenancy (st st' : BssState) : Prop :=
  bs_mappings st' = bs_mappings st ∧ bs_accounts st' = bs_accounts st ∧ bs_devices st' = bs_devices st.

Lemma same_tenancy_owned st st' : same_tenancy st st' → state_owned st → state_owned st'.
Proof. unfold state_owned. by intros (-> & -> & ->). Qed.

Lemma same_tenancy_trans a b c : same_tenancy a b → same_tenancy b c → same_tenancy a c.
Proof. intros (?&?&?) (?&?&?). repeat split; congruence. Qed.

Lemma attempt_tenancy acs' now id device params st : same_tenancy st (attempt_order hash dict acs' now id device params st).2.
Proof. unfold attempt_order. by destruct (SetParametersWithIdempotency _ _ _ _ _ _ _). Qed.

Lemma dispatch_tenancy now id account action device params st :
  same_tenancy st (dispatchOrder hash dict acs now id account action device params st).2.
Proof.
  unfold dispatchOrder. destruct (InsertPending _ _ _ _ _ _ _ _) as [[u|e] o]; [|done].
  pose proof (attempt_tenancy acs now id device params (set_orders o st)) as H.
  by destruct (attempt_order _ _ _ _ _ _ _ _) as [[]].
Qed.

Lemma createOrder_owned cx body st : state_owned st → state_owned (createOrder hmac Unmarshal hash dict rng cfg acs cx body st).2.
Proof.
  intros H. unfold createOrder. destruct body as [req|]; [|done]. destruct (existsb _ _); [done|].
  pose proof (@authorized_owned orderResponse ScopeTMFExecute (oq_AccountID req) cx st H) as H1.
  destruct (authorized _ _ _ _ _ _ _) as [[r|] st1]; [done|]. cbn in H1.
  destruct (FindOrder _ _); [done|]. destruct (ActiveDeviceForAccount _ _ _) as [m|]; [|done].
  destruct (translateActionForDevice _ _ _ _ _ _ _) as [e|params]; [done|].
  destruct (claimSecrets _ _ _ _ _ _ _ _ _) as [[e|] secrets']; [done|].
  pose proof (dispatch_tenancy (cx_now cx) (oq_ExternalOrderID req) (oq_AccountID req) (oq_Action req) (am_DeviceID m)
                params (set_secrets secrets' st1)) as Hd.
  destruct (dispatchOrder _ _ _ _ _ _ _ _ _ _) as [[[|e|[]]|key] st2]; cbn in Hd |- *; by eapply same_tenancy_owned.
Qed.

Lemma reader_owned {A} scope account cx st (k : BssState → Reply A) :
  state_owned st →
  state_owned (match authorized hmac Unmarshal cfg scope account cx st with
               | (Some r, st) => (r, st)
               | (None, st) => (k st, st)
               end).2.
Proof.
  intros H. pose proof (@authorized_owned A scope account cx st H) as H1. by destruct (authorized _ _ _ _ _ _ _) as [[r|] st'].
Qed.

Lemma subscriber_tenancy {A} account name vip st : same_tenancy st (applySubscriber (A:=A) account name vip st).2.
Proof. unfold applySubscriber. destruct (match name with Some n => _ | None => _ end); [done|]. by destruct (SetSubscriber _ _ _ _ _ _) as [[]]. Qed.

Lemma preProvision_tenancy refs_ok cx req st : same_tenancy st (preProvision cfg plans refs_ok cx req st).2.
Proof. unfold preProvision. repeat break_match_goal; by split. Qed.

Lemma mapping_owned refs_ok cx req st :
  state_owned st → state_owned (createMappingAuthorized cfg plans refs_ok cx req st).2.
Proof.
  intros H. unfold createMappingAuthorized. destruct (uuid_refusal _ _); [done|].
  pose proof (@subscriber_tenancy MappingBody (mq_AccountID req) (mq_SubscriberName req) (mq_VIP req) st) as H1.
  destruct (applySubscriber _ _ _ _) as [[r|] st1]; cbn in H1; [by eapply same_tenancy_owned|].
  apply (same_tenancy_owned _ _ H1) in H.
  pose proof (AssignDevice_owned (cx_uuid cx) (cx_now cx) (bs_accounts st1) (mq_AccountID req) (mq_OUISerial req)
                (roleOrDefault (mq_Role req)) (mq_ServicePlan req) (bs_mappings st1, bs_devices st1) H) as Ha.
  destruct (AssignDevice _ _ _ _ _ _ _ _) as [[e|m] tabs]; [|exact Ha].
  destruct e; try done. destruct (mq_PreProvision req); [|done].
  pose proof (preProvision_tenancy refs_ok cx req st1) as H2.
  destruct (preProvision _ _ _ _ _ _) as [[[| |]|o] st2]; by eapply same_tenancy_owned.
Qed.

Lemma createMapping_owned refs_ok cx body st :
  state_owned st → state_owned (createMapping hmac Unmarshal cfg plans refs_ok reqhash cx body st).2.
Proof.
  intros H. unfold createMapping. destruct body as [req|]; [|done]. destruct (String.eqb _ _ || _); [done|].
  pose proof (@authorized_owned MappingBody ScopeTMFWrite (mq_AccountID req) cx st H) as H1.
  destruct (authorized _ _ _ _ _ _ _) as [[r|] st1]; [done|]. cbn in H1.
  unfold idempotent. destruct (String.eqb _ "").
  { pose proof (mapping_owned refs_ok cx req st1 H1) as H2. by destruct (createMappingAuthorized _ _ _ _ _ _). }
  destruct (_ <? _)%nat; [done|]. destruct (BeginIdempotent _ _ _ _ _ _) as [b keys]. destruct b; try done.
  pose proof (mapping_owned refs_ok cx req (set_keys keys st1) H1) as H2. by destruct (createMappingAuthorized _ _ _ _ _ _).
Qed.

Lemma attempt_claimed_tenancy acs' now orders st : same_tenancy st (attempt_claimed hash dict acs' now orders st).
Proof.
  revert st. induction orders as [|o orders IH]; intros st; [done|]. cbn. eapply same_tenancy_trans; [|apply IH].
  apply attempt_tenancy.
Qed.

(** Whatever is asked of the adapter. *)
Lemma bss_serve_owned rq st :
  state_owned st → state_owned (bss_serve hmac Unmarshal hash dict rng cfg acs plans reqhash rq st).
Proof.
  intros H. destruct rq as [cx body|cx body|cx key|cx account|cx account role|refs_ok cx body|cx account body|arrange locked acs' now]; cbn [bss_serve].
  - by apply createOrder_owned.
  - unfold preflightAction. destruct body as [req|]; [|done]. destruct (existsb _ _); [done|]. by apply reader_owned.
  - unfold getOrderJob. destruct (FindOrderByCommandKey _ _) as [o|]; [|done]. by apply reader_owned.
  - by apply reader_owned.
  - by apply reader_owned.
  - by apply createMapping_owned.
  - unfold putAccountSubscriber. destruct body as [[name vip]|]; [|done].
    pose proof (@authorized_owned (option string * bool) ScopeTMFWrite account cx st H) as H1.
    pose proof (λ st1, @subscriber_tenancy (option string * bool) account name vip st1) as H2.
    destruct name, vip; try done; (destruct (authorized _ _ _ _ _ _ _) as [[r|] st1]; [done|]; cbn in H1; specialize (H2 st1);
      destruct (applySubscriber _ _ _ _) as [[r|] st2]; cbn in H2 |- *; by eapply same_tenancy_owned).
  - unfold reconcilePendingOrders. destruct (ClaimDuePendingOrders _ _ _ _) as [claimed orders'].
    eapply same_tenancy_owned; [apply attempt_claimed_tenancy|]. exact H.
Qed.

(** ** A client bound to a customer *)

(** The request carries a token of a client of a customer, and is judged by it. *)
Definition bound_caller (cx : BssCall) (c : Claims) : Prop :=
  oauth_claims hmac Unmarshal cfg (cx_now cx) (cx_auth cx) = Some c ∧ cl_CustomerID c ≠ "" ∧
  (bc_requireCustomerBound cfg = true ∨ (lab_mode cfg = false ∧ shared_token cfg (cx_auth cx) = false)).

Lemma authorized_bound {A} scope account cx c st :
  bound_caller cx c →
  authorized (A:=A) hmac Unmarshal cfg scope account cx st =
  (let '(r, tab) := authorize_claims (account_history st) (cx_method cx) scope account c (bs_accounts st) in (r, set_accounts tab st)).
Proof.
  intros (Hc & Hne & Hm). unfold authorized, authorizeBSSAccount, boundPrincipal. rewrite Hc.
  destruct (String.eqb_spec (cl_CustomerID c) "") as [|_]; [done|].
  destruct Hm as [->|[Hl Hs]]; [done|]. destruct (bc_requireCustomerBound cfg); [done|]. by rewrite Hl, Hs.
Qed.

Lemma ClaimAccount_owner history account customer by_ tab r tab' :
  ClaimAccount history account customer by_ tab = (r, tab') →
  match r with Ok o => o | Err _ => "" end = AccountOwner tab' (TrimSpace account).
Proof.
  unfold ClaimAccount. cbv zeta. intros [= Hr Ht]. rewrite Ht in Hr.
  destruct (String.eqb_spec (AccountOwner tab' (TrimSpace account)) "") as [E|E]; subst r; congruence.
Qed.

(** An account that is allowed is the customer's. *)
Lemma accountAllowed_owner {A} history method c account tab tab' :
  cl_CustomerID c ≠ "" → TrimSpace account = account →
  accountAllowed (A:=A) history method c account tab = (None, tab') →
  ∃ r, tab' !! account = Some r ∧ ac_CustomerID r = cl_CustomerID c.
Proof.
  intros Hne Ht. unfold accountAllowed. destruct (String.eqb_spec (cl_CustomerID c) "") as [|_]; [done|]. rewrite Ht.
  destruct (_ || _); [done|].
  assert (∀ owner t, owner = AccountOwner t account →
    ((if String.eqb owner (cl_CustomerID c) then None else Some (@not_found A)), t) = (None, tab') →
    ∃ r, tab' !! account = Some r ∧ ac_CustomerID r = cl_CustomerID c) as Hfin.
  { intros owner t ->. unfold AccountOwner. rewrite Ht. case_match eqn:E1; [|done]. intros [= <-].
    apply String.eqb_eq in E1. destruct (t !! account) as [r|]; [by exists r|congruence]. }
  destruct (String.eqb _ "" && _); [|by apply Hfin].
  destruct (ClaimAccount _ _ _ _ _) as [[o|e] t] eqn:Ec; apply ClaimAccount_owner in Ec; rewrite Ht in Ec; by apply Hfin.
Qed.

Lemma authorized_owner {A} scope account cx c st st' :
  bound_caller cx c → TrimSpace account = account →
  authorized (A:=A) hmac Unmarshal cfg scope account cx st = (None, st') →
  ∃ r, bs_accounts st' !! account = Some r ∧ ac_CustomerID r = cl_CustomerID c.
Proof.
  intros Hb Ht. rewrite (authorized_bound _ _ _ _ _ Hb). unfold authorize_claims. destruct (bssScopeAllowed _ _); [|done].
  destruct (accountAllowed _ _ _ _ _) as [[r|] tab'] eqn:E; [done|]. intros [= <-].
  destruct Hb as (_ & Hne & _). by eapply accountAllowed_owner.
Qed.

Lemma record_outcome_lookup now id outcome (tab : Orders) id' o' :
  record_outcome now id outcome tab !! id' = Some o' →
  ∃ o, tab !! id' = Some o ∧ bo_DeviceID o' = bo_DeviceID o ∧ bo_AccountID o' = bo_AccountID o.
Proof.
  unfold record_outcome, MarkDispatched, MarkDispatchFailed.
  destruct outcome; rewrite lookup_update_key; destruct (tab !! id') as [o|]; destruct (decide _); try done; cbn;
    intros [= <-]; exists o; (split; [done|]); by destruct (pending o).
Qed.

(** What a dispatch adds to the orders. *)
Lemma dispatch_new now ext account action device params st id o :
  bs_orders (dispatchOrder hash dict acs now ext account action device params st).2 !! id = Some o → bs_orders st !! id = None →
  bo_DeviceID o = device ∧ bo_AccountID o = account.
Proof.
  unfold dispatchOrder, InsertPending. destruct (bs_orders st !! ext) eqn:E; [cbn; intros; congruence|]. cbn [is_some].
  destruct (is_some _); cbn [negb]; [|cbn; intros; congruence].
  unfold attempt_order. destruct (SetParametersWithIdempotency _ _ _ _ _ _ _) as [outcome jobs'].
  intros Ho Hn. assert (bs_orders (set_orders (record_outcome now ext outcome (<[ext := mkOrderRecord ext account action device params None
    OrderPendingDispatch 0 None (Some now) None now]> (bs_orders st))) st) !! id = Some o) as Ho' by (by destruct outcome).
  apply record_outcome_lookup in Ho' as (o0 & Ho0 & -> & ->). apply lookup_insert_Some in Ho0 as [[_ <-]|[_ ?]]; [done|congruence].
Qed.

(** States that requests have made, of any caller, from tables without mappings. *)
Definition served (st st' : BssState) : Prop := ∃ acs' rq, st' = bss_serve hmac Unmarshal hash dict rng cfg acs' plans reqhash rq st.
End Tenancy.

Section Confined.
Context (hmac : string → string → string) (Unmarshal : string → option json).
Context (hash : json → string) (dict : result Dictionary) (rng : string → gmap string bool → list (string * bool)).
Context (cfg : BssConfig) (acs : Acs) (plans : gmap string ServicePlan) (reqhash : createMappingRequest → string).

Lemma served_owned st0 st :
  bs_mappings st0 = ∅ → map_Forall (λ k d, d_ID (d_identity d) = k) (bs_devices st0) →
  rtc (served hmac Unmarshal hash dict rng cfg plans reqhash) st0 st → state_owned st.
Proof.
  intros Hm Hi Hr. assert (state_owned st0) as H0.
  { split; [done|]. rewrite Hm. intros k m r. by rewrite lookup_empty. }
  clear Hm Hi. apply rtc_nsteps in Hr as [n Hr]. induction Hr as [st|n st st1 st2 (acs' & rq & ->) Hr IH]; [done|].
  by apply IH, bss_serve_owned.
Qed.

(** C18: a client bound to a customer stays with that customer.  Start from any devices
    and accounts without mappings, and let any callers map devices, send orders,
    claim accounts and so on.  An order that a bound client then gets recorded is for
    an account its customer owns and goes to a device of that customer, provided the
    account id it sends has no surrounding space
    ([padded_account_reaches_another_customer]).  The calls are those of the adapter:
    no operator moves a device or an account to another customer meanwhile. *)
Theorem bound_client_stays_with_its_customer st0 st cx c req id o :
  bs_mappings st0 = ∅ → map_Forall (λ k d, d_ID (d_identity d) = k) (bs_devices st0) →
  rtc (served hmac Unmarshal hash dict rng cfg plans reqhash) st0 st →
  bound_caller hmac Unmarshal cfg cx c → TrimSpace (oq_AccountID req) = oq_AccountID req →
  let st' := (createOrder hmac Unmarshal hash dict rng cfg acs cx (Some req) st).2 in
  bs_orders st !! id = None → bs_orders st' !! id = Some o →
  bo_AccountID o = oq_AccountID req ∧ AccountOwner (bs_accounts st') (oq_AccountID req) = cl_CustomerID c ∧
  customer_of (bs_devices st') (bo_DeviceID o) = Some (cl_CustomerID c).
Proof.
  intros Hm Hi Hr Hb Ht st'. pose proof (served_owned _ _ Hm Hi Hr) as Hown. subst st'. intros Hn. unfold createOrder.
  destruct (existsb _ _); [cbn; intros; congruence|].
  pose proof (@authorized_owned hmac Unmarshal cfg orderResponse ScopeTMFExecute (oq_AccountID req) cx st Hown) as H1.
  pose proof (@authorized_elsewhere hmac Unmarshal cfg orderResponse ScopeTMFExecute (oq_AccountID req) cx st) as [He _].
  destruct (authorized _ _ _ _ _ _ _) as [[r|] st1] eqn:Ea; cbn [fst snd] in *; [intros; congruence|].
  destruct (authorized_owner _ _ _ _ _ _ _ _ _ Hb Ht Ea) as (row & Hrow & Hcu).
  destruct (FindOrder _ _); [cbn; intros; congruence|].
  destruct (ActiveDeviceForAccount _ _ _) as [m|] eqn:Em; [|cbn; intros; congruence].
  destruct (translateActionForDevice _ _ _ _ _ _ _) as [e|params]; [cbn; intros; congruence|].
  destruct (claimSecrets _ _ _ _ _ _ _ _ _) as [[e|] secrets']; [cbn; intros; congruence|].
  pose proof (dispatch_tenancy hash dict acs (cx_now cx) (oq_ExternalOrderID req) (oq_AccountID req) (oq_Action req) (am_DeviceID m)
                params (set_secrets secrets' st1)) as (_ & Ta & Td).
  pose proof (dispatch_new hash dict acs (cx_now cx) (oq_ExternalOrderID req) (oq_AccountID req) (oq_Action req) (am_DeviceID m)
                params (set_secrets secrets' st1) id o) as Hnew.
  destruct (dispatchOrder _ _ _ _ _ _ _ _ _ _) as [outcome st2]. cbn [fst snd] in *. intros Ho.
  assert (bs_orders st2 !! id = Some o) as Ho2 by (by destruct outcome as [[|e|[]]|key]).
  destruct (Hnew Ho2) as [-> ->]; [cbn; congruence|].
  apply active_some in Em as ((k & Hk) & (Hc & Hacc & _)%in_role_spec).
  assert (AccountOwner (bs_accounts st2) (oq_AccountID req) = cl_CustomerID c ∧
          customer_of (bs_devices st2) (am_DeviceID m) = Some (cl_CustomerID c)) as [G1 G2].
  { rewrite Ta, Td. cbn. split; [unfold AccountOwner; by rewrite Ht, Hrow|]. rewrite <- Hcu. eapply (own_devices _ _ _ H1); eauto.
    by rewrite Hacc. }
  by destruct outcome as [[|e|[]]|key].
Qed.
End Confined.

(** ** Concrete clients *)

(** Two clients, of customers c-1 and c-2; their tokens differ in the payload. *)
Definition w_client (customer : string) : Claims :=
  mkClaims ("bss-client:of-" ++ customer) bssClientRole 0 (10 * Second) "" 0 AllTMFScopes [] false customer.
Definition w_tokens (raw : string) : option json :=
  Some (encode_claims (w_client (if String.eqb raw "" then "c-1" else "c-2"))).
Definition w_call (customer uuid : string) : BssCall :=
  mkBssCall 10 "POST" (if String.eqb customer "c-1" then "Bearer .." else "Bearer .YQ.") "" uuid "s-1".
Definition w_cfg_bound : BssConfig := mkBssConfig "" "secret" true false (mkWalledGarden "X_WALLED" "1" "0") None false.

(** An account and a device of each customer, nothing mapped. *)
Definition w_isps : BssState :=
  mkBss ∅ ∅ {["acct-1" := mkAccountRow "c-1" "x"; "acct-2" := mkAccountRow "c-2" "y"]}
    {["d-1" := w_plane_device "d-1" (Some "c-1"); "d-2" := w_plane_device "d-2" (Some "c-2")]} ∅ ∅ ∅ ∅ ∅ ∅ ∅ ∅.

Definition w_map (customer uuid account serial : string) : BssState → (Reply MappingBody * bool) * BssState :=
  createMapping (λ _ _, "") w_tokens w_cfg_bound ∅ true (λ _, "") (w_call customer uuid)
    (Some (mkMappingRequest account serial "" "" "" false "" None None "" "" None)).
Definition w_send (customer account order : string) : BssState → Reply orderResponse * BssState :=
  createOrder (λ _ _, "") w_tokens (λ _, "h") w_dict w_rng w_cfg_bound (w_acs Served) (w_call customer "u-9")
    (Some (mkOrderRequest order account "SUSPEND" "" ∅)).

Lemma w_client_bound customer uuid :
  customer = "c-1" ∨ customer = "c-2" → bound_caller (λ _ _, "") w_tokens w_cfg_bound (w_call customer uuid) (w_client customer).
Proof. intros [->| ->]; (split; [by vm_compute|]; split; [by vm_compute|by left]). Qed.

Lemma w_map_served customer uuid account serial st :
  served (λ _ _, "") w_tokens (λ _, "h") w_dict w_rng w_cfg_bound ∅ (λ _, "") st (w_map customer uuid account serial st).2.
Proof. by eexists (w_acs Served), (RqMapping true (w_call customer uuid) _). Qed.

Lemma bound_client_stays_with_its_customer_witness :
  ∃ o, bs_orders (w_send "c-1" "acct-1" "ord-1" (w_map "c-1" "m-1" "acct-1" "k-d-1" w_isps).2).2 !! "ord-1" = Some o ∧
    customer_of (bs_devices (w_send "c-1" "acct-1" "ord-1" (w_map "c-1" "m-1" "acct-1" "k-d-1" w_isps).2).2) (bo_DeviceID o) = Some "c-1".
Proof.
  set (st := (w_map "c-1" "m-1" "acct-1" "k-d-1" w_isps).2).
  destruct (bs_orders (w_send "c-1" "acct-1" "ord-1" st).2 !! "ord-1") as [o|] eqn:Eo; [|vm_compute in Eo; discriminate].
  exists o. split; [done|].
  eapply (bound_client_stays_with_its_customer (λ _ _, "") w_tokens (λ _, "h") w_dict w_rng w_cfg_bound (w_acs Served) ∅ (λ _, "")
            w_isps st (w_call "c-1" "u-9") (w_client "c-1") (mkOrderRequest "ord-1" "acct-1" "SUSPEND" "" ∅) "ord-1" o).
  - reflexivity.
  - intros k d. cbn. rewrite lookup_insert_Some, lookup_singleton_Some. by intros [[<- <-]|(_ & <- & <-)].
  - apply rtc_once, w_map_served.
  - apply w_client_bound. by left.
  - reflexivity.
  - by vm_compute.
  - exact Eo.
Defined.

(** An account id with a space around it is judged as one account and used as
    another.  A client bound to customer c-1 is refused the device of customer c-2
    under its own account; with a space before that account's id the same request
    maps the device, and the order that follows queues a job for the device of c-2. *)
Theorem padded_account_reaches_another_customer :
  customer_of (bs_devices w_isps) "d-2" = Some "c-2" ∧
  (w_map "c-1" "m-1" "acct-1" "k-d-2" w_isps).1.1 = Refused 404 "ErrDeviceNotMapped" ∧
  reply_status (w_map "c-1" "m-1" " acct-1" "k-d-2" w_isps).1.1 = 200 ∧
  reply_status (w_send "c-1" " acct-1" "ord-1" (w_map "c-1" "m-1" " acct-1" "k-d-2" w_isps).2).1 = 202 ∧
  DeviceID <$> bs_jobs (w_send "c-1" " acct-1" "ord-1" (w_map "c-1" "m-1" " acct-1" "k-d-2" w_isps).2).2 !! "id-0" = Some "d-2".
Proof. vm_compute. repeat split. Qed.

(** The order of another account is answered to whoever names it: the client of c-2
    learns the command key of the order of c-1. *)
Theorem existing_order_is_answered_to_any_account :
  let st := (w_send "c-1" "acct-1" "ord-1" (w_map "c-1" "m-1" "acct-1" "k-d-1" w_isps).2).2 in
  ∃ o key, bs_orders st !! "ord-1" = Some o ∧ bo_AccountID o = "acct-1" ∧ bo_CommandKey o = Some key ∧
    (w_send "c-2" "acct-2" "ord-1" st).1 = Replied 202 (mkOrderResponse "ord-1" key (inr StatusQueued)).
Proof. eexists _, _. vm_compute. repeat split. Qed.

(** One device mapped, then swapped for another. *)
Definition w_assigned : Mappings * Devices :=
  (AssignDevice "m-1" 10 ∅ "acct-1" "k-d-1" "gateway" "gold" (∅, bs_devices w_isps)).2.

Lemma w_assigned_reached : mapping_reached w_assigned.
Proof. exists (bs_devices w_isps). apply rtc_once, step_assign. Qed.

Lemma role_means_one_device_witness :
  ∃ m, w_assigned.1 !! "m-1" = Some m ∧ ActiveDeviceForAccount w_assigned.1 "acct-1" "gateway" = Some m.
Proof.
  destruct (w_assigned.1 !! "m-1") as [m|] eqn:E; [|vm_compute in E; discriminate]. exists m. split; [done|].
  destruct (role_means_one_device w_assigned "m-1" m w_assigned_reached E) as [H _];
    vm_compute in E; injection E as <-; [reflexivity|exact H].
Defined.

Definition w_swapped : (MappingError + AccountDeviceMapping) * (Mappings * Devices) :=
  SwapDevice "m-2" 20 ∅ "acct-1" "gateway" "k-d-2" "rma" w_assigned.

Lemma swap_is_atomic_witness :
  ∃ m, w_swapped.1 = inr m ∧ ActiveDeviceForAccount w_swapped.2.1 "acct-1" "gateway" = Some m.
Proof.
  assert (if w_swapped.1 then False else True) as Hr by (vm_compute; exact I).
  pose proof (swap_is_atomic "m-2" 20 ∅ "acct-1" "gateway" "k-d-2" "rma" w_assigned w_assigned_reached) as H.
  change (SwapDevice _ _ _ _ _ _ _ _) with w_swapped in H. revert Hr H. generalize w_swapped.
  intros [[e|m] tabs] Hr H; [destruct Hr|]. exists m. split; [reflexivity|apply H].
Defined.
