(* ===== verification/ConnReq.v ===== *)
(** * Connection requests

    How the server asks a device to call: [internal/connreq] (the HTTP request with
    its Digest answer, the Annex G datagram), the address check of
    [internal/xmpp/stanza.go], and the worker of [cmd/api] that serves
    CONNECTION_REQUEST jobs ([connreq_worker.go], [connreq_xmpp.go]).  A run of the
    worker is the trace of what it sends and of the statements it executes.  The
    peers, the clock and the random bytes are arguments; audit records are not
    modelled. *)

From S2P Require Import Prelude GoStrings Encoding Json NetGuard Credentials DigestAuth JobModel JobStore Devices ParamCache DiagPlan.

(** ** Outcomes *)

Definition OutcomeHTTP200 : string := "HTTP_200".
Definition OutcomeHTTP401 : string := "HTTP_401".
Definition OutcomeHTTP404 : string := "HTTP_404".
Definition OutcomeHTTPOther : string := "HTTP_OTHER".
Definition OutcomeTimeout : string := "TIMEOUT".
Definition OutcomeDNSFailure : string := "DNS_FAILURE".
Definition OutcomeTCPFailure : string := "TCP_FAILURE".
Definition OutcomeTLSFailure : string := "TLS_FAILURE".
Definition OutcomeUnavailable : string := "UNAVAILABLE".
Definition OutcomeBlockedByPolicy : string := "BLOCKED_BY_POLICY".
Definition OutcomeBehindNAT : string := "BEHIND_NAT".
Definition OutcomeUDPSendFailed : string := "UDP_SEND_FAILED".
Definition OutcomeUDPInformReceived : string := "UDP_SENT_INFORM_RECEIVED".
Definition OutcomeUDPNoInform : string := "UDP_SENT_NO_INFORM".
Definition OutcomeXMPPInformReceived : string := "XMPP_SENT_INFORM_RECEIVED".
Definition OutcomeXMPPNoInform : string := "XMPP_SENT_NO_INFORM".

(** What [errors.As] and the text of a transport error show. *)
Record NetError : Type := mkNetError {
  ne_Timeout : bool;
  ne_DNS : bool;
  ne_Op : option string;
  ne_Text : string
}.

Definition categorizeStatus (code : Z) : string :=
  if (200 <=? code) && (code <? 300) then OutcomeHTTP200
  else if code =? 401 then OutcomeHTTP401
  else if code =? 404 then OutcomeHTTP404
  else OutcomeHTTPOther.

Definition categorizeError (e : NetError) : string :=
  if ne_Timeout e then OutcomeTimeout
  else if ne_DNS e then OutcomeDNSFailure
  else if bool_decide (ne_Op e = Some "dial") then OutcomeTCPFailure
  else
    let lower := ToLower (ne_Text e) in
    if Contains lower "tls" || Contains lower "certificate" || Contains lower "x509" then OutcomeTLSFailure
    else OutcomeTCPFailure.

(** ** The answer to a challenge *)

(** [challengeParamRE]: an unquoted value ends at a comma or at white space ([\s]). *)
Definition re_space (c : ascii) : bool :=
  let n := nat_of_ascii c in (n =? 32)%nat || (n =? 9)%nat || (n =? 10)%nat || (n =? 12)%nat || (n =? 13)%nat.
Definition challenge_bare (c : ascii) : bool := negb (Ascii.eqb c ",") && negb (re_space c).

Definition parseChallengeParams (s : string) : gmap string string :=
  scan_params challenge_bare ToLower (String.length s) s ∅.

Definition authSchemeAndRest (challenge : string) : option (string * string) :=
  match Cut (TrimSpace challenge) " " with
  | Some (scheme, rest) => if String.eqb scheme "" then None else Some (ToLower scheme, TrimSpace rest)
  | None => None
  end.

Definition TrimSess (s : string) : string :=
  if HasSuffix s "-sess" then String.substring 0 (String.length s - 5) s else s.

Definition algorithmFamily (algorithm : string) : string :=
  let normalized := ToLower (TrimSpace algorithm) in
  if String.eqb normalized "" then "md5" else TrimSess normalized.

(** [strings.ReplaceAll] of one byte. *)
Fixpoint replace_byte (c : ascii) (by_ s : string) : string :=
  match s with
  | EmptyString => EmptyString
  | String x r => if Ascii.eqb x c then (by_ ++ replace_byte c by_ r)%string else String x (replace_byte c by_ r)
  end.

Definition backslash : ascii := "\".
Definition escapeDigestValue (s : string) : string :=
  replace_byte dquote (String backslash (String dquote "")) (replace_byte backslash (String backslash (String backslash "")) s).

(** [base64.StdEncoding.EncodeToString] *)
Definition b64 (d : Z) : string := String (std_digit d) "".
Fixpoint EncodeStd (s : string) : string :=
  match s with
  | EmptyString => ""
  | String a EmptyString =>
      let x := byte_value a in (b64 (x / 4) ++ b64 (x mod 4 * 16) ++ "==")%string
  | String a (String b EmptyString) =>
      let x := byte_value a in let y := byte_value b in
      (b64 (x / 4) ++ b64 (x mod 4 * 16 + y / 16) ++ b64 (y mod 16 * 4) ++ "=")%string
  | String a (String b (String c r)) =>
      let x := byte_value a in let y := byte_value b in let z := byte_value c in
      (b64 (x / 4) ++ b64 (x mod 4 * 16 + y / 16) ++ b64 (y mod 16 * 4 + z / 64) ++ b64 (z mod 64) ++ EncodeStd r)%string
  end.

(** [url.Parse]: the host name and the request URI. *)
Record Target : Type := mkTarget { tg_Hostname : string; tg_RequestURI : string }.

Section Client.
Context (md5 sha256 : string → string) (parse : string → option Target).

Definition hashForAlgorithm (algorithm : string) : option ((string → string) * bool) :=
  let normalized := ToLower (TrimSpace algorithm) in
  let sess := HasSuffix normalized "-sess" in
  let family := algorithmFamily normalized in
  if String.eqb family "md5" then Some (md5Hex md5, sess)
  else if String.eqb family "sha-256" then Some (sha256Hex sha256, sess)
  else None.

(** The quality of protection to answer with: none when none is offered, [None]
    when [auth] is not among those offered. *)
Definition choose_qop (offered : string) : option string :=
  if String.eqb offered "" then Some ""
  else if existsb (λ c, EqualFold (TrimSpace c) "auth") (Split offered ",") then Some "auth" else None.

(** [random] are the eight bytes of the client nonce. *)
Definition buildDigestAuthorization (random challenge username password method targetURL : string) : option string :=
  match authSchemeAndRest challenge with
  | Some (scheme, rest) =>
      if negb (String.eqb scheme "digest") then None
      else
        let params := parseChallengeParams rest in
        let '(realm, nonce) := (param params "realm", param params "nonce") in
        if String.eqb realm "" || String.eqb nonce "" then None
        else match parse targetURL with
        | None => None
        | Some u =>
            let uri := tg_RequestURI u in
            match choose_qop (param params "qop"), hashForAlgorithm (param params "algorithm") with
            | Some qop, Some (hashHex, sess) =>
                let nc := "00000001" in
                let cnonce := EncodeToString random in
                let ha1 := hashHex (username ++ ":" ++ realm ++ ":" ++ password)%string in
                let ha1 := if sess then hashHex (ha1 ++ ":" ++ nonce ++ ":" ++ cnonce)%string else ha1 in
                let ha2 := hashHex (method ++ ":" ++ uri)%string in
                let response := if negb (String.eqb qop "")
                                then hashHex (Join [ha1; nonce; nc; cnonce; qop; ha2] ":")
                                else hashHex (ha1 ++ ":" ++ nonce ++ ":" ++ ha2)%string in
                Some ("Digest " ++ quoted "username" (escapeDigestValue username)
                      ++ ", " ++ quoted "realm" (escapeDigestValue realm)
                      ++ ", " ++ quoted "nonce" (escapeDigestValue nonce)
                      ++ ", " ++ quoted "uri" (escapeDigestValue uri)
                      ++ ", " ++ quoted "response" response
                      ++ (if negb (String.eqb qop "")
                          then ", qop=" ++ qop ++ ", nc=" ++ nc ++ ", " ++ quoted "cnonce" cnonce
                          else if sess then ", " ++ quoted "cnonce" cnonce else "")
                      ++ (let alg := param params "algorithm" in if String.eqb alg "" then "" else ", algorithm=" ++ alg)
                      ++ (let opaque := param params "opaque" in
                          if String.eqb opaque "" then "" else ", " ++ quoted "opaque" (escapeDigestValue opaque)))%string
            | _, _ => None
            end
        end
  | None => None
  end.

(** The first challenge of the list that is a Digest of the family and can be
    answered. *)
Fixpoint answer_family (random family : string) (challenges : list string) (username password method targetURL : string)
  : option string :=
  match challenges with
  | [] => None
  | c :: rest =>
      let next := answer_family random family rest username password method targetURL in
      match authSchemeAndRest c with
      | Some (scheme, params) =>
          if negb (String.eqb scheme "digest") then next
          else if negb (String.eqb (algorithmFamily (param (parseChallengeParams params) "algorithm")) family) then next
          else match buildDigestAuthorization random c username password method targetURL with Some h => Some h | None => next end
      | None => next
      end
  end.

Definition offers_basic (challenge : string) : bool :=
  match authSchemeAndRest challenge with Some (scheme, _) => String.eqb scheme "basic" | None => false end.

Definition buildAuthorization (random : string) (challenges : list string) (username password method targetURL : string) : option string :=
  match answer_family random "sha-256" challenges username password method targetURL with
  | Some h => Some h
  | None =>
      match answer_family random "md5" challenges username password method targetURL with
      | Some h => Some h
      | None => if existsb offers_basic challenges
                then Some ("Basic " ++ EncodeStd (username ++ ":" ++ password))%string else None
      end
  end.

(** ** The HTTP request *)

(** What leaves the server: the address dialled and the Authorization header. *)
Record Sent : Type := mkSent { st_Address : string; st_Authorization : string }.

(** The two requests of an attempt: the address each dials and the answer of the
    peer there, a status with its challenges. *)
Record Peer : Type := mkPeer {
  pe_Address : nat → string;
  pe_Reply : nat → string → NetError + (Z * list string)
}.

(** [doGet] with the client of [attemptGET]: the dialler asks the policy about the
    address it is about to connect to, and redirects are not followed. *)
Definition doGet (policy : Policy) (peer : Peer) (n : nat) (auth : string) : (NetError + (Z * list string)) * list Sent :=
  match DialControl policy (pe_Address peer n) with
  | Err e => (inl (mkNetError false false (Some "dial") e), [])
  | Ok _ => (pe_Reply peer n auth, [mkSent (pe_Address peer n) auth])
  end.

Definition Attempt (policy : Policy) (peer : Peer) (random targetURL username password : string) : string * list Sent :=
  if String.eqb targetURL "" then (OutcomeUnavailable, [])
  else match doGet policy peer 0 "" with
  | (inl e, log) => (categorizeError e, log)
  | (inr (code, challenges), log) =>
      let outcome := categorizeStatus code in
      if negb (String.eqb outcome OutcomeHTTP401) || String.eqb username "" then (outcome, log)
      else match buildAuthorization random challenges username password "GET" targetURL with
      | None => (OutcomeHTTP401, log)
      | Some header =>
          match doGet policy peer 1 header with
          | (inl e, log') => (categorizeError e, log ++ log')
          | (inr (code, _), log') => (categorizeStatus code, log ++ log')
          end
      end
  end.

Definition attemptGET (resolve : string → result (list (option Z))) (policy : Policy) (peer : Peer)
    (random targetURL username password : string) : string * list Sent :=
  match parse targetURL with
  | None => (OutcomeBlockedByPolicy, [])
  | Some u => match CheckHost resolve policy (tg_Hostname u) with
              | Err _ => (OutcomeBlockedByPolicy, [])
              | Ok _ => Attempt policy peer random targetURL username password
              end
  end.
End Client.

(** ** The Annex G datagram *)

Definition udpSendCount : nat := 3%nat.
Definition crlf : string := String "013" (String "010" "").

Definition SignAnnexG (hmac_sha1 : string → string → string) (password ts id un cn : string) : string :=
  EncodeToString (hmac_sha1 password (ts ++ id ++ un ++ cn)%string).

(** The four random bytes of the message id as a number. *)
Fixpoint big_endian (acc : Z) (s : string) : Z :=
  match s with EmptyString => acc | String c r => big_endian (acc * 256 + byte_value c) r end.

Definition BuildAnnexGDatagram (hmac_sha1 : string → string → string) (idb cnb addr username password : string) (now : GoTime) : string :=
  let ts := Itoa (now / Second) in
  let id := Itoa (big_endian 0 idb) in
  let cn := EncodeToString cnb in
  ("GET http://" ++ addr ++ "?ts=" ++ ts ++ "&id=" ++ id ++ "&un=" ++ username ++ "&cn=" ++ cn
   ++ "&sig=" ++ SignAnnexG hmac_sha1 password ts id username cn ++ " HTTP/1.1" ++ crlf ++ "Host: " ++ addr ++ crlf ++ crlf)%string.

(** What the network makes of the datagrams: the dial, each write, and whether the
    context ends in the pause after a write. *)
Record Udp : Type := mkUdp { up_Dial : bool; up_Write : nat → bool; up_Cancelled : nat → bool }.

(** The writes from the [n]-th on: whether all succeeded, and how many datagrams left. *)
Fixpoint udp_writes (u : Udp) (left n : nat) : bool * nat :=
  match left with
  | O => (true, 0%nat)
  | S left' =>
      if negb (up_Write u n) then (false, 0%nat)
      else if negb (Nat.eqb left' 0) && up_Cancelled u n then (false, 1%nat)
      else let '(ok, sent) := udp_writes u left' (S n) in (ok, S sent)
  end.

Definition SendUDP (u : Udp) (payload addr : string) : bool * list string :=
  if String.eqb addr "" then (false, [])
  else match SplitHostPort addr with
  | None => (false, [])
  | Some _ => if negb (up_Dial u) then (false, [])
              else let '(ok, sent) := udp_writes u udpSendCount 0 in (ok, repeat payload sent)
  end.

(** ** XMPP addresses *)

Definition jid_forbidden : string :=
  String " " (String "009" (String "013" (String "010" (String dquote "'<>&")))).

(** [ValidateFullJID]: local part, domain and resource. *)
Definition ValidateFullJID (jid : string) : bool :=
  if (String.length jid =? 0)%nat || (3071 <? String.length jid)%nat then false
  else if ContainsAny jid jid_forbidden then false
  else match Cut jid "/" with
  | None => false
  | Some (bare, resource) =>
      if String.eqb bare "" || String.eqb resource "" then false
      else match Cut bare "@" with
      | None => false
      | Some (local, domain) => negb (String.eqb local "") && negb (String.eqb domain "")
      end
  end.

(** ** The worker *)

Definition connReqWaitPoll : GoDuration := Second / 2.
Definition connReqGETTimeout : GoDuration := 10 * Second.
Definition connReqXMPPTimeout : GoDuration := 10 * Second.
Definition connReqDefaultWait : GoDuration := 30 * Second.
Definition connReqMaxWait : GoDuration := 120 * Second.
Definition cgnatPeriodicInformTarget : Z := 300.

Record Worker : Type := mkWorker {
  wk_username : string;
  wk_password : string;
  wk_policy : Policy;
  wk_credentials : bool;
  wk_params : bool;
  wk_xmpp : bool
}.

(** What the worker sends, and the statements it executes, in order. *)
Inductive Action : Type :=
| AGet (s : Sent)
| ADatagram (addr payload : string)
| AXmpp (jid : string)
| ARecord (status : string) (mode : option ReachMode)
| ASucceed
| AFail (code msg : string)
| ATimeOut (msg : string)
| ATighten.

Inductive ConnReqPath : Type := PathXMPP | PathAnnexG | PathUnavailable | PathBehindNAT | PathHTTP.

Record connReqInputs : Type := mkInputs {
  in_HasURL : bool;
  in_UDPAddr : string;
  in_Mode : ReachMode;
  in_BehindNAT : bool;
  in_JabberID : string;
  in_XMPPConfigured : bool
}.

Definition without_xmpp (i : connReqInputs) : connReqInputs :=
  mkInputs (in_HasURL i) (in_UDPAddr i) (in_Mode i) (in_BehindNAT i) (in_JabberID i) false.

Definition selectConnReqPath (i : connReqInputs) : ConnReqPath :=
  if in_XMPPConfigured i && negb (String.eqb (in_JabberID i) "") then PathXMPP
  else if negb (in_HasURL i) then (if negb (String.eqb (in_UDPAddr i) "") then PathAnnexG else PathUnavailable)
  else if String.eqb (in_UDPAddr i) ""
          && (bool_decide (in_Mode i = ModePeriodicFallback) || (bool_decide (in_Mode i = ModeXMPP) && in_BehindNAT i))
  then PathBehindNAT
  else PathHTTP.

Definition under_root (root : DataModelRoot) (leaf : string) : string :=
  ((if bool_decide (root = RootIGD1) then "InternetGatewayDevice.ManagementServer." else "Device.ManagementServer.") ++ leaf)%string.

Definition connReqJabberIDParam (root : DataModelRoot) : string := under_root root "ConnReqJabberID".

Definition connReqInputsFor (w : Worker) (params : Params) (devices : Devices) (d : Device) (udpAddr : string) : connReqInputs :=
  let id := d_ID (d_identity d) in
  let r := d_reach d in
  let jid := value_of (GetCache params id) (connReqJabberIDParam (d_DataModelRoot d)) in
  mkInputs (negb (String.eqb (default "" (d_ConnectionRequestURL r)) "")) udpAddr (d_ConnectionRequestMode r)
    (bool_decide (d_ConnectionRequestMode r = ModeXMPP) && bool_decide ((devices !! id) ≫= (λ d, d_behind_nat (d_reach d)) = Some true))
    (if wk_xmpp w && wk_params w && negb (String.eqb jid "") && ValidateFullJID jid then jid else "")
    (wk_xmpp w).

Definition credentialFor (w : Worker) (creds : Credentials) (device : string) : string * string :=
  if negb (wk_credentials w) then (wk_username w, wk_password w)
  else match ActiveForDevice creds device TypeConnectionRequestCredential with
       | Some c => (cr_Username c, cr_Password c)
       | None => (wk_username w, wk_password w)
       end.

(** The wait asked for, in a [time.Duration]. *)
Definition wait_of (payload : json) : GoDuration :=
  let wait := wrap64 (default 0 (decode_ConnectionRequest payload) * Second) in
  let wait := if wait <=? 0 then connReqDefaultWait else wait in
  if connReqMaxWait <? wait then connReqMaxWait else wait.

(** *** Waiting for the Inform *)

(** One turn of the wait: the clock, the devices the query sees ([None] when it
    fails), and whether the context ends before the next turn. *)
Record Observation : Type := mkObservation { ob_now : GoTime; ob_devices : option Devices; ob_cancelled : bool }.

Inductive Waited : Type := Informed (turn : nat) | Expired (cancelled : bool) | Cancelled | OutOfFuel.

Definition informed_at (o : Observation) (device : string) (since : GoTime) : bool :=
  match ob_devices o with
  | Some tab => bool_decide (InformedWithEventSince tab device since "6" = Some true)
  | None => false
  end.

Fixpoint wait_loop (fuel : nat) (obs : nat → Observation) (turn : nat) (device : string) (since deadline : GoTime) : Waited :=
  match fuel with
  | O => OutOfFuel
  | S f =>
      let o := obs turn in
      if negb (ob_now o <? deadline) then Expired (ob_cancelled o)
      else if informed_at o device since then Informed turn
      else if ob_cancelled o then Cancelled
      else wait_loop f obs (S turn) device since deadline
  end.

(** Two turns a second for the longest wait, and the one that sees the deadline. *)
Definition wait_fuel : nat := 241%nat.
Definition waitForConnReqInform (obs : nat → Observation) (device : string) (since deadline : GoTime) : Waited :=
  wait_loop wait_fuel obs 0 device since deadline.

(** *** The three ways *)

(** What becomes of the calls of one run: when each starts and ends, its peer, and
    what the wait after it sees. *)
Record Calls : Type := mkCalls {
  k_connected : bool;
  k_acknowledged : bool;
  k_xmppAt : GoTime; k_xmppDone : GoTime; k_xmppWait : nat → Observation;
  k_resolve : string → result (list (option Z));
  k_peer : Peer; k_random : string;
  k_getAt : GoTime; k_getDone : GoTime; k_getWait : nat → Observation;
  k_udp : Udp; k_idb : string; k_cnb : string;
  k_udpAt : GoTime; k_udpSent : GoTime; k_udpDone : GoTime; k_udpWait : nat → Observation
}.

Section Worker.
Context (md5 sha256 : string → string) (hmac_sha1 : string → string → string) (parse : string → option Target).
Context (w : Worker) (k : Calls).

(** The actions that follow a wait. *)
Definition after_wait (r : Waited) (informed expired : list Action) : list Action :=
  match r with Informed _ => informed | Expired _ => expired | Cancelled | OutOfFuel => [] end.

Definition attemptAnnexG (device udpAddr username password : string) (wait : GoDuration) : list Action :=
  let payload := BuildAnnexGDatagram hmac_sha1 (k_idb k) (k_cnb k) udpAddr username password (k_udpSent k) in
  let '(ok, sent) := SendUDP (k_udp k) payload udpAddr in
  (ADatagram udpAddr <$> sent) ++
  (if negb ok then [ARecord OutcomeUDPSendFailed None; AFail "" OutcomeUDPSendFailed]
   else after_wait (waitForConnReqInform (k_udpWait k) device (k_udpAt k) (k_udpDone k + wait))
          [ARecord OutcomeUDPInformReceived (Some ModeSTUNAnnexG); ASucceed]
          [ARecord OutcomeUDPNoInform (Some ModePeriodicFallback);
           ATimeOut (OutcomeUDPNoInform ++ ": no Inform with EventCode 6 within the wait window after the UDP wake-up")%string;
           ATighten]).

(** Whether the request has been dealt with, and the actions. *)
Definition attemptXMPP (device jid : string) (wait : GoDuration) : bool * list Action :=
  if negb (k_connected k) then (false, [])
  else if negb (k_acknowledged k) then (false, [AXmpp jid])
  else
    (true, AXmpp jid ::
      match waitForConnReqInform (k_xmppWait k) device (k_xmppAt k) (k_xmppDone k + wait) with
      | Informed _ => [ARecord OutcomeXMPPInformReceived (Some ModeXMPP); ASucceed]
      | Expired false =>
          [ARecord OutcomeXMPPNoInform None;
           ATimeOut (OutcomeXMPPNoInform ++ ": no Inform with EventCode 6 within the wait window after the XMPP connection request")%string]
      | Expired true | Cancelled | OutOfFuel => []
      end).

Definition attemptHTTP (device url udpAddr username password : string) (wait : GoDuration) : list Action :=
  let '(outcome, sent) := attemptGET md5 sha256 parse (k_resolve k) (wk_policy w) (k_peer k) (k_random k) url username password in
  (AGet <$> sent) ++
  (if negb (String.eqb outcome OutcomeHTTP200) then
     if negb (String.eqb udpAddr "") then attemptAnnexG device udpAddr username password wait
     else [ARecord outcome None; AFail "" outcome]
   else after_wait (waitForConnReqInform (k_getWait k) device (k_getAt k) (k_getDone k + wait))
          [ARecord "HTTP_200_INFORM_RECEIVED" (Some ModeDirectIPv4); ASucceed]
          [ARecord "HTTP_200_NO_INFORM" (Some ModePeriodicFallback);
           ATimeOut "HTTP_200_NO_INFORM: no Inform with EventCode 6 within the wait window"; ATighten]).

Definition behind_nat_message : string :=
  "device is behind NAT and has no STUN/Annex G address; queued work runs at its next periodic Inform".

(** After XMPP, or without it; the order of the tests is the code's. *)
Definition process_direct (i : connReqInputs) (d : Device) (username password : string) (wait : GoDuration) : list Action :=
  let id := d_ID (d_identity d) in
  let url := default "" (d_ConnectionRequestURL (d_reach d)) in
  if String.eqb url "" then
    if negb (String.eqb (in_UDPAddr i) "") then attemptAnnexG id (in_UDPAddr i) username password wait
    else [AFail "" OutcomeUnavailable; ARecord OutcomeUnavailable None]
  else match selectConnReqPath i with
  | PathBehindNAT => [ARecord OutcomeBehindNAT None; AFail OutcomeBehindNAT behind_nat_message]
  | _ => attemptHTTP id url (in_UDPAddr i) username password wait
  end.

Definition process (job : Job) (devices : Devices) (creds : Credentials) (params : Params) : list Action :=
  let wait := wait_of (Payload job) in
  match Get devices (DeviceID job) with
  | None => [AFail "" "failed to load device"]
  | Some d =>
      let id := d_ID (d_identity d) in
      let '(username, password) := credentialFor w creds id in
      let udpAddr := default "" (d_UDPConnectionRequestAddress (d_reach d)) in
      let i := connReqInputsFor w params devices d udpAddr in
      match selectConnReqPath i with
      | PathXMPP =>
          match attemptXMPP id (in_JabberID i) wait with
          | (true, acts) => acts
          | (false, acts) => acts ++ process_direct (without_xmpp i) d username password wait
          end
      | _ => process_direct i d username password wait
      end
  end.

(** *** The statements *)

Context (hash : json → string).

Definition tighten_payload (root : DataModelRoot) : json :=
  encode_SetParameter (mkSetParameterPayload "" false []
    [mkParameterWrite (under_root root "PeriodicInformInterval") (Itoa cgnatPeriodicInformTarget) "xsd:unsignedInt" ""] false false).

Definition tight_enough (params : Params) (d : Device) : bool :=
  wk_params w &&
  match Atoi (TrimSpace (value_of (GetCache params (d_ID (d_identity d))) (under_root (d_DataModelRoot d) "PeriodicInformInterval"))) with
  | Some current => (0 <? current) && (current <=? cgnatPeriodicInformTarget)
  | None => false
  end.

Definition tightenPeriodicInform (fr : Fresh) (now : GoTime) (params : Params) (d : Device) (jobs : gmap string Job) : gmap string Job :=
  if tight_enough params d then jobs
  else (CreateWithIdempotency hash false fr now (d_ID (d_identity d)) TypeSetParameter (tighten_payload (d_DataModelRoot d))
          "system:cgnat-fallback" "cgnat-periodic-inform-tighten" jobs).2.

(** One action on the tables as they are then; [d] is the row read at the start. *)
Definition perform (now : GoTime) (fr : Fresh) (params : Params) (job d : string) (row : Device) (a : Action)
    (tabs : Devices * gmap string Job) : Devices * gmap string Job :=
  match a with
  | AGet _ | ADatagram _ _ | AXmpp _ => tabs
  | ARecord status mode => (RecordConnectionRequestAttempt now d status mode tabs.1, tabs.2)
  | ASucceed => (tabs.1, MarkSuccess now job tabs.2)
  | AFail code msg => (tabs.1, MarkFailed now job code msg tabs.2)
  | ATimeOut msg => (tabs.1, MarkTimeout now job msg tabs.2)
  | ATighten => (tabs.1, tightenPeriodicInform fr now params row tabs.2)
  end.
End Worker.
