(* ===== verification/ConnReqTheorems.v ===== *)
(** * What connection requests promise

    The client's answer to a challenge is one the server's own authenticator
    accepts, and sends a password in clear only when no Digest can be answered; the
    worker dials only addresses of the network policy, settles every job it takes
    within its lease, and reports success only when the device has called. *)

From S2P Require Import Prelude GoStrings Encoding Json NetGuard Credentials DigestAuth JobModel JobStore JobLaws Devices ParamCache.
From S2P Require Import Protected Adapters Operators Jwt Api ControlPlane ApiJobs ApiJobsTheorems DiagPlan ConnReq.

(** ** Text *)

Lemma TrimRightSpace_app a b : TrimRightSpace b = b → b ≠ "" → TrimRightSpace (a ++ b) = (a ++ b)%string.
Proof.
  intros Hb Hn. induction a as [|c a IH]; [done|]. rewrite string_app_cons. cbn [TrimRightSpace]. rewrite IH.
  by destruct a, b.
Qed.

(** A text that begins and ends with something else than space. *)
Lemma TrimSpace_framed c a b :
  is_space_byte c = false → forall_bytes is_plain b = true → b ≠ "" → TrimSpace (String c (a ++ b)) = String c (a ++ b).
Proof.
  intros Hc Hb Hn. unfold TrimSpace. cbn [TrimLeftSpace]. rewrite Hc. rewrite <- string_app_cons.
  by apply TrimRightSpace_app; [apply TrimRightSpace_plain|].
Qed.

Lemma forall_bytes_map p f s : forall_bytes p (string_map f s) = forall_bytes (λ c, p (f c)) s.
Proof. induction s as [|c s IH]; [done|]. cbn. by rewrite IH. Qed.

Lemma forall_bytes_ext (p q : ascii → bool) s : (∀ c, p c = q c) → forall_bytes p s = forall_bytes q s.
Proof. intros H. induction s as [|c s IH]; [done|]. cbn. by rewrite H, IH. Qed.

Lemma string_map_map f g s : string_map f (string_map g s) = string_map (λ c, f (g c)) s.
Proof. induction s as [|c s IH]; [done|]. cbn. by rewrite IH. Qed.

Lemma string_map_ext (f g : ascii → ascii) s : (∀ c, f c = g c) → string_map f s = string_map g s.
Proof. intros H. induction s as [|c s IH]; [done|]. cbn. by rewrite H, IH. Qed.

Ltac by_bytes := intros [[] [] [] [] [] [] [] []]; vm_compute; first [reflexivity|discriminate|intros _; reflexivity].

Lemma ToLower_ToUpper s : ToLower (ToUpper s) = ToLower s.
Proof. unfold ToLower, ToUpper. rewrite string_map_map. apply string_map_ext. by_bytes. Qed.

(** Case makes no difference to these classes. *)
Lemma bare_upper s : forall_bytes challenge_bare s = forall_bytes challenge_bare (ToUpper s).
Proof. unfold ToUpper. rewrite forall_bytes_map. apply forall_bytes_ext. by_bytes. Qed.

Lemma plain_upper s : forall_bytes is_plain s = forall_bytes is_plain (ToUpper s).
Proof. unfold ToUpper. rewrite forall_bytes_map. apply forall_bytes_ext. by_bytes. Qed.

Lemma digest_bare_upper s : forall_bytes digest_bare s = forall_bytes digest_bare (ToUpper s).
Proof. unfold ToUpper. rewrite forall_bytes_map. apply forall_bytes_ext. by_bytes. Qed.

Lemma replace_byte_none c r s : byte_in c s = false → replace_byte c r s = s.
Proof.
  induction s as [|x s IH]; [done|]. cbn. rewrite orb_false_iff. intros [Hx Hs]. rewrite Ascii.eqb_sym, Hx. by rewrite IH.
Qed.

Lemma escape_clean s : byte_in dquote s = false → byte_in backslash s = false → escapeDigestValue s = s.
Proof. intros Hq Hb. unfold escapeDigestValue. by rewrite (replace_byte_none backslash), replace_byte_none. Qed.

(** ** A challenge of the server, read by the client *)

(** The algorithms a challenge may name. *)
Definition known_algorithm (a : string) : Prop := ToUpper a = "MD5" ∨ ToUpper a = "SHA-256".

Lemma known_facts a : known_algorithm a →
  a ≠ "" ∧ forall_bytes is_plain a = true ∧ forall_bytes challenge_bare a = true ∧ forall_bytes digest_bare a = true ∧
  TrimSpace a = a ∧ HasPrefix a (String dquote "") = false.
Proof.
  intros Ha. assert (forall_bytes is_plain a = true) as Hp by (rewrite plain_upper; by destruct Ha as [->| ->]).
  split_and!; [by intros ->; destruct Ha|done|rewrite bare_upper; by destruct Ha as [->| ->]|
    rewrite digest_bare_upper; by destruct Ha as [->| ->]|by apply TrimSpace_plain|].
  destruct a as [|c a]; [done|]. rewrite HasPrefix_cons, HasPrefix_empty, andb_true_r. cbn in Hp.
  destruct (Ascii.eqb_spec dquote c) as [<-|]; [done|done].
Qed.

Section Scan.
Context (bare : ascii → bool) (fold_key : string → string).

Lemma scan_sep s acc : scan_with bare fold_key (", " ++ s) acc = scan_with bare fold_key s acc.
Proof. change (", " ++ s)%string with (String "," (String " " s)). by rewrite !scan_skip. Qed.

Lemma scan_quoted_app k v s acc :
  is_name k = true → byte_in dquote v = false →
  scan_with bare fold_key (quoted k v ++ s) acc = scan_with bare fold_key s (<[fold_key k := TrimSpace v]> acc).
Proof.
  intros Hk Hv. unfold quoted. rewrite string_app_assoc, !string_app_cons, string_app_assoc, string_app_cons. by apply scan_quoted.
Qed.

(** An unquoted value before a separator, or last. *)
Lemma scan_word k v s acc :
  is_name k = true → forall_bytes bare v = true → bare "," = false → HasPrefix v (String dquote "") = false →
  scan_with bare fold_key (k ++ "=" ++ v ++ ", " ++ s) acc = scan_with bare fold_key s (<[fold_key k := TrimSpace v]> acc).
Proof.
  intros Hk Hv Hc Hq. change (k ++ "=" ++ v ++ ", " ++ s)%string with (k ++ String "=" (v ++ String "," (String " " s)))%string.
  rewrite scan_bare by done. by rewrite !scan_skip.
Qed.
End Scan.

(** What follows the scheme in a challenge. *)
Definition challenge_rest (nonce : string) (stale : bool) (a : string) : string :=
  (quoted "realm" realm ++ ", " ++ quoted "qop" "auth" ++ ", " ++ quoted "nonce" nonce ++ ", " ++ "algorithm" ++ "=" ++ a
   ++ (if stale then ", " ++ "stale" ++ "=" ++ "true" else ""))%string.

(** Text that ends in the algorithm or in the stale flag has no space to trim. *)
Lemma TrimSpace_challenge c text (stale : bool) a :
  known_algorithm a → is_space_byte c = false →
  TrimSpace (String c (text ++ a ++ (if stale then ", stale=true" else "")))
  = String c (text ++ a ++ (if stale then ", stale=true" else "")).
Proof.
  intros (Hn & Hp & _)%known_facts Hc. destruct stale.
  - change ", stale=true" with (", stale=" ++ "true")%string. rewrite <- !string_app_assoc. by apply TrimSpace_framed.
  - rewrite string_app_empty_r. by apply TrimSpace_framed.
Qed.

Lemma challenge_scheme nonce stale a :
  known_algorithm a → authSchemeAndRest (digest_challenge nonce stale a) = Some ("digest", challenge_rest nonce stale a).
Proof.
  intros Ha. unfold authSchemeAndRest, digest_challenge.
  set (text := (quoted "realm" realm ++ ", " ++ quoted "qop" "auth" ++ ", " ++ quoted "nonce" nonce ++ ", algorithm=")%string).
  assert (∀ s, ("Digest " ++ quoted "realm" realm ++ ", " ++ quoted "qop" "auth" ++ ", " ++ quoted "nonce" nonce ++ ", algorithm=" ++ s)%string
          = String "D" (("igest " ++ text) ++ s)) as Et.
  { intros s. unfold text. by rewrite !string_app_assoc. }
  rewrite Et, TrimSpace_challenge by done. rewrite !string_app_assoc.
  change (String "D" ("igest " ++ ?x))%string with ("Digest" ++ String " " x)%string.
  rewrite Cut_app by done. cbn [String.eqb]. change (ToLower "Digest") with "digest".
  assert (∃ t, text = String "r" t) as [t Et2] by (unfold text; by eexists).
  rewrite Et2, string_app_cons, TrimSpace_challenge by done. rewrite <- string_app_cons, <- Et2. f_equal. f_equal.
  unfold text, challenge_rest. rewrite !string_app_assoc. destruct stale; reflexivity.
Qed.

(** The parameters of a challenge as the client reads them. *)
Definition challenge_map (nonce : string) (stale : bool) (a : string) : gmap string string :=
  let m := <["algorithm" := a]> (<["nonce" := nonce]> (<["qop" := "auth"]> (<["realm" := realm]> ∅))) in
  if stale then <["stale" := "true"]> m else m.

Lemma parseChallengeParams_scan s : parseChallengeParams s = scan_with challenge_bare ToLower s ∅.
Proof. done. Qed.

Lemma challenge_parsed nonce stale a :
  known_algorithm a → forall_bytes is_plain nonce = true →
  parseChallengeParams (challenge_rest nonce stale a) = challenge_map nonce stale a.
Proof.
  intros Ha Hn. destruct (known_facts a Ha) as (Hne & Hp & Hb & _ & Ht & Hq).
  rewrite parseChallengeParams_scan. unfold challenge_rest, challenge_map.
  rewrite scan_quoted_app, scan_sep, scan_quoted_app, scan_sep, scan_quoted_app, scan_sep by auto using plain_no_quote.
  rewrite (TrimSpace_plain nonce Hn). destruct stale.
  - rewrite scan_word, Ht by done. change ("stale" ++ "=" ++ "true")%string with ("stale" ++ String "=" "true")%string.
    by rewrite scan_bare_end.
  - rewrite string_app_empty_r. change ("algorithm" ++ "=" ++ a)%string with ("algorithm" ++ String "=" a)%string.
    rewrite scan_bare_end, Ht by done. done.
Qed.

(** ** The answer, read by the server *)

(** Text that a header carries as it is. *)
Definition is_clean (c : ascii) : bool := is_plain c && negb (Ascii.eqb c backslash).

Lemma clean_plain s : forall_bytes is_clean s = true → forall_bytes is_plain s = true.
Proof. apply forall_bytes_impl. intros c. unfold is_clean. by intros [H _]%andb_true_iff. Qed.

Lemma clean_escape s : forall_bytes is_clean s = true → escapeDigestValue s = s.
Proof. intros H. apply escape_clean; by eapply byte_in_forall; [|exact H]. Qed.

Lemma hex_clean s : forall_bytes is_hex s = true → forall_bytes is_clean s = true.
Proof. apply forall_bytes_impl. by_bytes. Qed.

Section Answer.
Context (md5 sha256 : string → string) (hmac_sha256 : string → string → string) (parse : string → option Target).

Lemma newNonce_clean d rnd now : 0 <= now / Second → forall_bytes is_clean (newNonce hmac_sha256 d rnd now) = true.
Proof.
  intros Hn. unfold newNonce, nonceMAC. rewrite !forall_bytes_app.
  rewrite !(hex_clean (EncodeToString _)) by apply EncodeToString_hex. by rewrite (hex_clean (FormatHex _)) by (by apply FormatHex_hex).
Qed.

Lemma newNonce_nonempty d rnd now : newNonce hmac_sha256 d rnd now ≠ "".
Proof. unfold newNonce. by destruct (FormatHex _). Qed.

(** The family of an algorithm, and its hash on both sides. *)
Definition family_of (a : string) : string := if String.eqb (ToUpper a) "MD5" then "md5" else "sha-256".

Lemma known_hash a : known_algorithm a →
  ∃ hashHex, hashFuncFor md5 sha256 a = Some hashHex ∧ hashForAlgorithm md5 sha256 a = Some (hashHex, false) ∧
    algorithmFamily a = family_of a.
Proof.
  intros Ha. destruct (known_facts a Ha) as (_ & _ & _ & _ & Ht & _).
  unfold hashForAlgorithm, hashFuncFor, algorithmFamily, family_of. rewrite Ht, <- (ToLower_ToUpper a).
  destruct Ha as [->| ->]; [exists (md5Hex md5)|exists (sha256Hex sha256)]; by vm_compute.
Qed.

Definition answer_response (hashHex : string → string) (username password method uri nonce cnonce : string) : string :=
  hashHex (Join [hashHex (username ++ ":" ++ realm ++ ":" ++ password)%string; nonce; "00000001"; cnonce; "auth";
                 hashHex (method ++ ":" ++ uri)%string] ":").

Definition answer_params (username uri nonce cnonce response a : string) : string :=
  (quoted "username" username ++ ", " ++ quoted "realm" realm ++ ", " ++ quoted "nonce" nonce ++ ", " ++ quoted "uri" uri ++ ", "
   ++ quoted "response" response ++ ", " ++ "qop" ++ "=" ++ "auth" ++ ", " ++ "nc" ++ "=" ++ "00000001" ++ ", "
   ++ quoted "cnonce" cnonce ++ ", " ++ "algorithm" ++ "=" ++ a)%string.

Lemma answer_text random nonce stale a hashHex username password method url host uri :
  known_algorithm a → hashForAlgorithm md5 sha256 a = Some (hashHex, false) →
  forall_bytes is_clean nonce = true → nonce ≠ "" → forall_bytes is_clean username = true → forall_bytes is_clean uri = true →
  parse url = Some (mkTarget host uri) →
  buildDigestAuthorization md5 sha256 parse random (digest_challenge nonce stale a) username password method url
  = Some ("Digest " ++ answer_params username uri nonce (EncodeToString random)
            (answer_response hashHex username password method uri nonce (EncodeToString random)) a)%string.
Proof.
  intros Ha Hh Hn Hne Hu Hi Hp. destruct (known_facts a Ha) as (Hna & _).
  unfold buildDigestAuthorization. rewrite challenge_scheme, challenge_parsed by auto using clean_plain.
  assert (∀ k v, (challenge_map nonce stale a) !! k = Some v → param (challenge_map nonce stale a) k = v) as Hparam
    by (intros k v E; unfold param; by rewrite E).
  rewrite (Hparam "realm" realm), (Hparam "nonce" nonce), (Hparam "qop" "auth"), (Hparam "algorithm" a) by (by destruct stale).
  assert (param (challenge_map nonce stale a) "opaque" = "") as -> by (by destruct stale).
  rewrite Hp, Hh. apply String.eqb_neq in Hne, Hna. rewrite Hne, Hna. cbn [String.eqb negb orb tg_RequestURI].
  change (choose_qop "auth") with (Some "auth"). cbv iota. rewrite !clean_escape by done. f_equal.
  unfold answer_params, answer_response. cbv zeta. rewrite !string_app_assoc. by rewrite string_app_empty_r.
Qed.

Lemma answer_reads username uri nonce cnonce response a :
  known_algorithm a → Forall (λ s, forall_bytes is_clean s = true) [username; uri; nonce; cnonce; response] →
  reads_as (parseDigestParams (answer_params username uri nonce cnonce response a))
    [("username", username); ("realm", realm); ("nonce", nonce); ("uri", uri); ("algorithm", a); ("qop", "auth");
     ("nc", "00000001"); ("cnonce", cnonce); ("response", response)].
Proof.
  rewrite !Forall_cons. intros Ha (Hu & Hi & Hn & Hc & Hr & _). destruct (known_facts a Ha) as (_ & _ & _ & Hb & Ht & Hq).
  apply clean_plain in Hu, Hi, Hn, Hc, Hr.
  rewrite parseDigestParams_scan. unfold answer_params.
  do 5 rewrite scan_quoted_app, scan_sep by auto using plain_no_quote.
  do 2 rewrite scan_word by done. rewrite scan_quoted_app, scan_sep by auto using plain_no_quote.
  change ("algorithm" ++ "=" ++ a)%string with ("algorithm" ++ String "=" a)%string. rewrite scan_bare_end by done.
  rewrite Ht, !TrimSpace_plain by done. by repeat constructor.
Qed.

(** Which of the offered algorithms is answered. *)
Lemma answer_family_find random family nonce stale algs tail username password method url host uri :
  Forall known_algorithm algs → forall_bytes is_clean nonce = true → nonce ≠ "" → forall_bytes is_clean username = true →
  forall_bytes is_clean uri = true → parse url = Some (mkTarget host uri) →
  answer_family md5 sha256 parse random family tail username password method url = None →
  answer_family md5 sha256 parse random family ((digest_challenge nonce stale <$> algs) ++ tail) username password method url
  = a ← List.find (λ a, String.eqb (family_of a) family) algs;
    buildDigestAuthorization md5 sha256 parse random (digest_challenge nonce stale a) username password method url.
Proof.
  intros Hk Hn Hne Hu Hi Hp Ht. induction Hk as [|a algs Ha Hk IH]; [done|]. cbn [fmap list_fmap app].
  cbn [answer_family List.find]. rewrite IH, challenge_scheme, challenge_parsed by auto using clean_plain.
  destruct (known_hash a Ha) as (hashHex & _ & Hh & Hf).
  assert (param (challenge_map nonce stale a) "algorithm" = a) as -> by (by destruct stale). rewrite Hf. cbn [String.eqb negb].
  change (String.eqb "digest" "digest") with true. cbn [negb].
  destruct (String.eqb (family_of a) family); [|done]. cbn [negb].
  erewrite answer_text by eauto. cbn [mbind option_bind]. by erewrite answer_text by eauto.
Qed.

Lemma challengeAlgorithms_known algorithms :
  Forall known_algorithm (challengeAlgorithms md5 sha256 algorithms) ∧ challengeAlgorithms md5 sha256 algorithms ≠ [].
Proof.
  unfold challengeAlgorithms. destruct (List.filter _ algorithms) as [|a l] eqn:E.
  - split; [|done]. unfold defaultChallengeAlgorithms. rewrite !Forall_cons. split; [by left|]. split; [by right|done].
  - split; [|done]. rewrite <- E. apply Forall_forall. intros b Hb. apply list_elem_of_In, filter_In in Hb as [_ Hb].
    apply andb_true_iff in Hb as [Hb Hne]. unfold hashFuncFor in Hb.
    destruct (String.eqb_spec (ToUpper b) "") as [H0|_]; [by destruct b|]. cbn [orb] in Hb.
    destruct (String.eqb_spec (ToUpper b) "MD5") as [?|_]; [by left|]. destruct (String.eqb_spec (ToUpper b) "SHA-256"); [by right|done].
Qed.

(** One of the offered algorithms is answered, the stronger one when it is offered. *)
Lemma own_challenge_answer random d algorithms nonce stale username password method url host uri :
  forall_bytes is_clean nonce = true → nonce ≠ "" → forall_bytes is_clean username = true → forall_bytes is_clean uri = true →
  parse url = Some (mkTarget host uri) →
  ∃ a hashHex, known_algorithm a ∧ hashFuncFor md5 sha256 a = Some hashHex ∧
    buildAuthorization md5 sha256 parse random (challenge md5 sha256 d algorithms nonce stale) username password method url
    = Some ("Digest " ++ answer_params username uri nonce (EncodeToString random)
              (answer_response hashHex username password method uri nonce (EncodeToString random)) a)%string.
Proof.
  intros Hn Hne Hu Hi Hp. destruct (challengeAlgorithms_known algorithms) as [Hk Hnil].
  unfold buildAuthorization, challenge.
  assert (∀ family, answer_family md5 sha256 parse random family
    (if da_AllowBasic d then ["Basic " ++ quoted "realm" realm]%string else []) username password method url = None) as Ht
    by (intros family; by destruct (da_AllowBasic d)).
  rewrite !(answer_family_find _ _ _ _ _ _ _ _ _ _ host uri) by auto. revert Hk Hnil.
  generalize (challengeAlgorithms md5 sha256 algorithms). intros algs Hk Hnil.
  assert (∀ family a, List.find (λ a, String.eqb (family_of a) family) algs = Some a → known_algorithm a) as Hfound.
  { intros family a [Hin _]%find_some. by eapply Forall_forall in Hk; [|by apply list_elem_of_In]. }
  destruct (List.find _ algs) as [a|] eqn:E1; cbn [mbind option_bind].
  - pose proof (Hfound _ _ E1) as Ha. destruct (known_hash a Ha) as (hashHex & H1 & H2 & _).
    exists a, hashHex. by erewrite answer_text by eauto.
  - destruct algs as [|b algs]; [done|]. cbn [List.find] in E1 |- *. apply Forall_cons in Hk as [Hb _].
    unfold family_of in E1 |- *. destruct (String.eqb_spec (ToUpper b) "MD5") as [Hm|Hm]; [|by destruct Hb].
    change (String.eqb "md5" "md5") with true. cbn [mbind option_bind]. destruct (known_hash b Hb) as (hashHex & H1 & H2 & _).
    exists b, hashHex. by erewrite answer_text by eauto.
Qed.

(** The two sides of Digest agree.  Whatever algorithms the authenticator is
    configured to offer, with or without Basic, stale or not: the client answers its
    challenge, and the authenticator accepts the answer as the credential whose
    password was used, as long as the nonce is fresh and unused. *)
Theorem own_challenge_is_answered d algorithms stale username password dev perDevice method url host uri random rnd issued now tls ip
    (tab : NonceTable) :
  let nonce := newNonce hmac_sha256 d rnd issued in
  parse url = Some (mkTarget host uri) → passwordFor d username = Some (password, dev, perDevice) →
  forall_bytes is_clean username = true → forall_bytes is_clean uri = true →
  0 <= issued / Second <= max_int64 → now <= issued / Second * Second + nonceTTL → tab !! nonce = None →
  ∃ header,
    buildAuthorization md5 sha256 parse random (challenge md5 sha256 d algorithms nonce stale) username password method url = Some header ∧
    (Verify md5 sha256 hmac_sha256 d (mkRequest method uri header tls ip) now tab).1
    = AuthOk (mkAuthIdentity username dev (negb perDevice)).
Proof.
  intros nonce Hp Hpw Hu Hi Hs Hnow Hnew. assert (forall_bytes is_clean nonce = true) as Hn by (apply newNonce_clean; lia).
  destruct (own_challenge_answer random d algorithms nonce stale username password method url host uri Hn
              (newNonce_nonempty _ _ _) Hu Hi Hp) as (a & hashHex & Ha & Hh & ->).
  eexists. split; [done|]. unfold Verify. cbn [rq_Authorization]. rewrite CutPrefix_app.
  eapply answer_accepted; eauto. apply answer_reads; [done|]. repeat constructor; auto; try apply hex_clean, EncodeToString_hex.
  destruct Ha as [Ha|Ha]; unfold hashFuncFor in Hh; rewrite Ha in Hh; injection Hh as <-; apply hex_clean, EncodeToString_hex.
Qed.

(** ** Passwords in clear *)

Lemma answer_family_none random family challenges username password method url c :
  answer_family md5 sha256 parse random family challenges username password method url = None → c ∈ challenges →
  (∃ rest, authSchemeAndRest c = Some ("digest", rest) ∧ algorithmFamily (param (parseChallengeParams rest) "algorithm") = family) →
  buildDigestAuthorization md5 sha256 parse random c username password method url = None.
Proof.
  intros Hnone Hin (rest & Hs & Hf). induction Hin as [c l|c b l Hin IH]; cbn [answer_family] in Hnone.
  - rewrite Hs, Hf, !String.eqb_refl in Hnone. cbn [negb] in Hnone. by destruct (buildDigestAuthorization _ _ _ _ _ _ _ _ _).
  - destruct (authSchemeAndRest b) as [[scheme params]|]; [|by apply IH].
    destruct (negb _); [by apply IH|]. destruct (negb _); [by apply IH|].
    destruct (buildDigestAuthorization _ _ _ _ b _ _ _ _); [done|by apply IH].
Qed.

Lemma answer_is_digest random family challenges username password method url h :
  answer_family md5 sha256 parse random family challenges username password method url = Some h → HasPrefix h "Digest " = true.
Proof.
  induction challenges as [|c l IH]; cbn [answer_family]; [done|].
  destruct (authSchemeAndRest c) as [[scheme params]|]; [|done]. destruct (negb _); [done|]. destruct (negb _); [done|].
  destruct (buildDigestAuthorization _ _ _ _ c _ _ _ _) as [h'|] eqn:E; [|done]. intros [= <-]. revert E.
  unfold buildDigestAuthorization. repeat case_match; intros [= <-]; by rewrite HasPrefix_app.
Qed.

(** The password leaves in clear only as a last resort: the client answers with
    Basic only when the device offers Basic and no Digest challenge of it, of a
    known algorithm, can be answered; and a SHA-256 challenge that can be answered
    is, whatever else is offered and in whatever order. *)
Theorem password_in_clear_is_the_last_resort random challenges username password method url h :
  buildAuthorization md5 sha256 parse random challenges username password method url = Some h →
  (HasPrefix h "Digest " = true ∧
   (∀ c rest, c ∈ challenges → authSchemeAndRest c = Some ("digest", rest) →
      algorithmFamily (param (parseChallengeParams rest) "algorithm") = "sha-256" →
      is_some (buildDigestAuthorization md5 sha256 parse random c username password method url) = true →
      answer_family md5 sha256 parse random "sha-256" challenges username password method url = Some h)) ∨
  (h = ("Basic " ++ EncodeStd (username ++ ":" ++ password))%string ∧ (∃ c, c ∈ challenges ∧ offers_basic c = true) ∧
   ∀ c rest, c ∈ challenges → authSchemeAndRest c = Some ("digest", rest) →
     algorithmFamily (param (parseChallengeParams rest) "algorithm") ∈ ["sha-256"; "md5"] →
     buildDigestAuthorization md5 sha256 parse random c username password method url = None).
Proof.
  unfold buildAuthorization. destruct (answer_family _ _ _ _ "sha-256" _ _ _ _ _) as [h1|] eqn:E1.
  { intros [= ->]. left. split; [by eapply answer_is_digest|done]. }
  destruct (answer_family _ _ _ _ "md5" _ _ _ _ _) as [h2|] eqn:E2.
  { intros [= ->]. left. split; [by eapply answer_is_digest|]. intros c rest Hin Hs Hf Hb.
    rewrite (answer_family_none _ _ _ _ _ _ _ c E1 Hin) in Hb; [done|by exists rest]. }
  destruct (existsb offers_basic challenges) eqn:E3; [|done]. intros [= <-]. right. split; [done|]. split.
  { apply existsb_exists in E3 as (c & Hin & Hb). exists c. by rewrite list_elem_of_In. }
  intros c rest Hin Hs Hf. apply elem_of_cons in Hf as [Hf|Hf%list_elem_of_singleton];
    [apply (answer_family_none _ _ _ _ _ _ _ c E1 Hin)|apply (answer_family_none _ _ _ _ _ _ _ c E2 Hin)]; by exists rest.
Qed.
End Answer.

(** ** The addresses that are dialled *)

Section Requests.
Context (md5 sha256 : string → string) (hmac_sha1 : string → string → string) (parse : string → option Target).

Lemma doGet_sent policy peer n auth s :
  s ∈ (doGet policy peer n auth).2 → DialControl policy (st_Address s) = Ok tt ∧ s = mkSent (pe_Address peer n) auth.
Proof.
  unfold doGet. destruct (DialControl policy (pe_Address peer n)) as [[]|] eqn:E; cbn; [|by intros ?%elem_of_nil].
  by intros ->%list_elem_of_singleton.
Qed.

Lemma categorize_401 code : categorizeStatus code = OutcomeHTTP401 → code = 401.
Proof. unfold categorizeStatus. destruct (_ && _); [done|]. destruct (code =? 401) eqn:E; [lia|]. by destruct (code =? 404). Qed.

Lemma Attempt_sent policy peer random url username password s :
  s ∈ (Attempt md5 sha256 parse policy peer random url username password).2 →
  DialControl policy (st_Address s) = Ok tt ∧
  (st_Authorization s = "" ∨ ∃ challenges, pe_Reply peer 0 "" = inr (401, challenges) ∧
     buildAuthorization md5 sha256 parse random challenges username password "GET" url = Some (st_Authorization s)).
Proof.
  unfold Attempt. destruct (String.eqb url ""); [by intros ?%elem_of_nil|].
  assert (∀ r log, doGet policy peer 0 "" = (r, log) → s ∈ log → DialControl policy (st_Address s) = Ok tt ∧ st_Authorization s = "") as H0.
  { intros r log E Hin. destruct (doGet_sent policy peer 0 "" s) as [? ->]; [by rewrite E|done]. }
  destruct (doGet policy peer 0 "") as [[e|[code challenges]] log] eqn:E; cbn [snd].
  { intros Hin. destruct (H0 _ _ eq_refl Hin). auto. }
  destruct (negb _ || _) eqn:E1; cbn [snd]; [intros Hin; destruct (H0 _ _ eq_refl Hin); auto|].
  destruct (buildAuthorization _ _ _ _ _ _ _ _ _) as [h|] eqn:E2; cbn [snd]; [|intros Hin; destruct (H0 _ _ eq_refl Hin); auto].
  assert (pe_Reply peer 0 "" = inr (401, challenges)) as Hr.
  { apply orb_false_iff in E1 as [E1 _]. apply negb_false_iff, String.eqb_eq, categorize_401 in E1 as ->.
    unfold doGet in E. destruct (DialControl policy (pe_Address peer 0)); congruence. }
  assert (∀ r log', doGet policy peer 1 h = (r, log') → s ∈ log ++ log' → DialControl policy (st_Address s) = Ok tt ∧
    (st_Authorization s = "" ∨ ∃ challenges, pe_Reply peer 0 "" = inr (401, challenges) ∧
     buildAuthorization md5 sha256 parse random challenges username password "GET" url = Some (st_Authorization s))) as H1.
  { intros r log' E3 [Hin|Hin]%elem_of_app; [destruct (H0 _ _ eq_refl Hin); auto|].
    destruct (doGet_sent policy peer 1 h s) as [? ->]; [by rewrite E3|]. cbn. eauto. }
  destruct (doGet policy peer 1 h) as [[e|[code' ch']] log']; cbn [snd]; by apply (H1 _ _ eq_refl).
Qed.

(** ** The shape of a run *)

Context (w : Worker) (k : Calls).

(** What is sent, as opposed to a statement. *)
Definition sends (a : Action) : bool := match a with AGet _ | ADatagram _ _ | AXmpp _ => true | _ => false end.

Definition Wait : Type := (nat → Observation) * GoTime * GoTime.

(** The waits a run may make: what it sees, since when, until when. *)
Definition waits (wait : GoDuration) : list Wait :=
  [(k_xmppWait k, k_xmppAt k, k_xmppDone k + wait); (k_getWait k, k_getAt k, k_getDone k + wait);
   (k_udpWait k, k_udpAt k, k_udpDone k + wait)].

Definition waited (device : string) (x : Wait) : Waited := waitForConnReqInform x.1.1 device x.1.2 x.2.

(** The statements that end a run. *)
Inductive ending (device : string) (wait : GoDuration) : list Action → Prop :=
| end_no_device msg : ending device wait [AFail "" msg]
| end_failed status code msg : ending device wait [ARecord status None; AFail code msg]
| end_unavailable status msg : ending device wait [AFail "" msg; ARecord status None]
| end_informed x turn status mode :
    x ∈ waits wait → waited device x = Informed turn → ending device wait [ARecord status (Some mode); ASucceed]
| end_expired x c status mode msg tail :
    x ∈ waits wait → waited device x = Expired c → tail = [] ∨ tail = [ATighten] →
    ending device wait ([ARecord status mode; ATimeOut msg] ++ tail)
| end_stopped x r :
    x ∈ waits wait → waited device x = r → r = Cancelled ∨ r = OutOfFuel ∨ r = Expired true → ending device wait [].

Definition shaped (device : string) (wait : GoDuration) (acts : list Action) : Prop :=
  ∃ pre fin, acts = pre ++ fin ∧ Forall (λ a, sends a = true) pre ∧ ending device wait fin.

Lemma shaped_app device wait pre acts : Forall (λ a, sends a = true) pre → shaped device wait acts → shaped device wait (pre ++ acts).
Proof. intros Hp (p & f & -> & Hp' & Hf). exists (pre ++ p), f. rewrite app_assoc. split_and!; [done|by apply Forall_app|done]. Qed.

Lemma shaped_end device wait acts : ending device wait acts → shaped device wait acts.
Proof. by exists [], acts. Qed.

Lemma after_wait_shaped device wait x status mode status' mode' msg :
  x ∈ waits wait →
  shaped device wait (after_wait (waited device x) [ARecord status (Some mode); ASucceed] [ARecord status' mode'; ATimeOut msg; ATighten]).
Proof.
  intros Hx. apply shaped_end. destruct (waited device x) eqn:E; cbn [after_wait].
  - by eapply end_informed. - eapply (end_expired device wait x _ status' mode' msg [ATighten]); eauto.
  - eapply end_stopped; eauto. - eapply end_stopped; eauto.
Qed.

Lemma fmap_sends {A} (f : A → Action) l : (∀ a, sends (f a) = true) → Forall (λ a, sends a = true) (f <$> l).
Proof. intros H. apply Forall_forall. intros a (b & -> & _)%list_elem_of_fmap. apply H. Qed.

Lemma attemptAnnexG_shaped device udpAddr username password wait :
  shaped device wait (attemptAnnexG hmac_sha1 k device udpAddr username password wait).
Proof.
  unfold attemptAnnexG. destruct (SendUDP _ _ _) as [ok sent]. apply shaped_app; [by apply fmap_sends|].
  destruct (negb ok); [apply shaped_end, end_failed|].
  apply (after_wait_shaped device wait (k_udpWait k, k_udpAt k, k_udpDone k + wait)). set_solver.
Qed.

Lemma attemptHTTP_shaped device url udpAddr username password wait :
  shaped device wait (attemptHTTP md5 sha256 hmac_sha1 parse w k device url udpAddr username password wait).
Proof.
  unfold attemptHTTP. destruct (attemptGET _ _ _ _ _ _ _ _ _ _) as [outcome sent]. apply shaped_app; [by apply fmap_sends|].
  destruct (negb _).
  - destruct (negb _); [apply attemptAnnexG_shaped|apply shaped_end, end_failed].
  - apply (after_wait_shaped device wait (k_getWait k, k_getAt k, k_getDone k + wait)). set_solver.
Qed.

Lemma process_direct_shaped i d username password wait :
  shaped (d_ID (d_identity d)) wait (process_direct md5 sha256 hmac_sha1 parse w k i d username password wait).
Proof.
  unfold process_direct. destruct (String.eqb _ _).
  - destruct (negb _); [apply attemptAnnexG_shaped|apply shaped_end, end_unavailable].
  - destruct (selectConnReqPath i); try apply attemptHTTP_shaped. apply shaped_end, end_failed.
Qed.

Lemma attemptXMPP_shaped device jid wait :
  match attemptXMPP k device jid wait with
  | (true, acts) => shaped device wait acts
  | (false, acts) => Forall (λ a, sends a = true) acts
  end.
Proof.
  unfold attemptXMPP. destruct (negb _); [done|]. destruct (negb _); [by repeat constructor|].
  apply (shaped_app device wait [AXmpp jid]); [by repeat constructor|]. apply shaped_end.
  set (x := (k_xmppWait k, k_xmppAt k, k_xmppDone k + wait) : Wait). change (waitForConnReqInform _ _ _ _) with (waited device x).
  assert (x ∈ waits wait) as Hx by set_solver. destruct (waited device x) as [turn|[]| |] eqn:E.
  - by eapply end_informed. - eapply end_stopped; eauto.
  - eapply (end_expired device wait x false OutcomeXMPPNoInform None _ []); eauto.
  - eapply end_stopped; eauto. - eapply end_stopped; eauto.
Qed.

Lemma process_shaped job devices creds params :
  map_Forall (λ id d, d_ID (d_identity d) = id) devices →
  shaped (DeviceID job) (wait_of (Payload job)) (process md5 sha256 hmac_sha1 parse w k job devices creds params).
Proof.
  intros Hids. unfold process, Get. destruct (devices !! DeviceID job) as [d|] eqn:Ed; [|apply shaped_end, end_no_device].
  pose proof (Hids _ _ Ed) as Hid. cbn beta in Hid. destruct (credentialFor _ _ _) as [username password].
  rewrite <- Hid. destruct (selectConnReqPath _); try apply process_direct_shaped.
  pose proof (attemptXMPP_shaped (d_ID (d_identity d))
    (in_JabberID (connReqInputsFor w params devices d (default "" (d_UDPConnectionRequestAddress (d_reach d))))) (wait_of (Payload job))) as Hx.
  destruct (attemptXMPP _ _ _ _) as [[] acts]; [done|]. apply shaped_app; [done|apply process_direct_shaped].
Qed.
End Requests.

(** ** Results *)

Section Runs.
Context (md5 sha256 : string → string) (hmac_sha1 : string → string → string) (parse : string → option Target).
Context (w : Worker) (k : Calls) (job : Job) (devices : Devices) (creds : Credentials) (params : Params).

Definition run : list Action := process md5 sha256 hmac_sha1 parse w k job devices creds params.

Lemma attemptAnnexG_no_get device udpAddr username password wait s :
  AGet s ∉ attemptAnnexG hmac_sha1 k device udpAddr username password wait.
Proof.
  unfold attemptAnnexG. destruct (SendUDP _ _ _) as [ok sent]. intros [(? & ? & _)%list_elem_of_fmap|Hin]%elem_of_app; [done|].
  destruct (negb ok); [set_solver|]. destruct (waitForConnReqInform _ _ _ _); cbn in Hin; set_solver.
Qed.

Lemma attemptHTTP_get device url udpAddr username password wait s :
  AGet s ∈ attemptHTTP md5 sha256 hmac_sha1 parse w k device url udpAddr username password wait →
  s ∈ (attemptGET md5 sha256 parse (k_resolve k) (wk_policy w) (k_peer k) (k_random k) url username password).2.
Proof.
  unfold attemptHTTP. destruct (attemptGET _ _ _ _ _ _ _ _ _ _) as [outcome sent]. cbn [snd].
  intros [(? & [= <-] & ?)%list_elem_of_fmap|Hin]%elem_of_app; [done|exfalso].
  destruct (negb _); [destruct (negb _); [by eapply attemptAnnexG_no_get|set_solver]|].
  destruct (waitForConnReqInform _ _ _ _); cbn in Hin; set_solver.
Qed.

Lemma process_direct_get i d username password wait s :
  AGet s ∈ process_direct md5 sha256 hmac_sha1 parse w k i d username password wait →
  let url := default "" (d_ConnectionRequestURL (d_reach d)) in
  s ∈ (attemptGET md5 sha256 parse (k_resolve k) (wk_policy w) (k_peer k) (k_random k) url username password).2.
Proof.
  unfold process_direct. destruct (String.eqb _ _).
  - destruct (negb _); [by intros ?%attemptAnnexG_no_get|set_solver].
  - destruct (selectConnReqPath i); try apply attemptHTTP_get. set_solver.
Qed.

(** The request line of a run is that of an attempt at the device's own URL. *)
Lemma run_get s :
  AGet s ∈ run → ∃ d username password, devices !! DeviceID job = Some d ∧
  s ∈ (attemptGET md5 sha256 parse (k_resolve k) (wk_policy w) (k_peer k) (k_random k)
         (default "" (d_ConnectionRequestURL (d_reach d))) username password).2.
Proof.
  unfold run, process, Get. destruct (devices !! DeviceID job) as [d|]; [|set_solver].
  destruct (credentialFor _ _ _) as [username password]. intros Hin. exists d, username, password. split; [done|].
  destruct (selectConnReqPath _); try (by apply process_direct_get in Hin).
  unfold attemptXMPP in Hin. destruct (negb _); [by apply process_direct_get in Hin|].
  destruct (negb _); [apply elem_of_app in Hin as [?|Hin]; [set_solver|by apply process_direct_get in Hin]|].
  exfalso. apply elem_of_cons in Hin as [?|Hin]; [done|]. destruct (waitForConnReqInform _ _ _ _) as [|[]| |]; set_solver.
Qed.

(** The worker's HTTP requests stay within the network policy.  Whatever URL a
    device advertises, whatever its name resolves to when it is checked and when it
    is dialled, and whatever the peer answers: every request goes to an address of
    the policy, for a host the policy admits, and carries credentials only in answer
    to a 401 of the peer. *)
Theorem requests_stay_within_the_policy s :
  AGet s ∈ run →
  (∃ host port ip, SplitHostPort (st_Address s) = Some (host, port) ∧ ParseIP host = Some ip ∧ in_policy (wk_policy w) ip) ∧
  (∃ d u, devices !! DeviceID job = Some d ∧ parse (default "" (d_ConnectionRequestURL (d_reach d))) = Some u ∧
     CheckHost (k_resolve k) (wk_policy w) (tg_Hostname u) = Ok tt) ∧
  (st_Authorization s = "" ∨ ∃ challenges, pe_Reply (k_peer k) 0 "" = inr (401, challenges)).
Proof.
  intros (d & username & password & Hd & Hs)%run_get. unfold attemptGET in Hs.
  destruct (parse _) as [u|] eqn:Eu; [|by apply elem_of_nil in Hs].
  destruct (CheckHost _ _ _) as [[]|] eqn:Eh; [|by apply elem_of_nil in Hs].
  apply Attempt_sent in Hs as [Hdial Hauth]. split; [|split; [by exists d, u|]].
  - unfold DialControl in Hdial. destruct (SplitHostPort _) as [[host port]|] eqn:E; [|done].
    apply CheckIP_ok in Hdial as (ip & Hip & Hpol). by exists host, port, ip.
  - destruct Hauth as [|(challenges & ? & _)]; eauto.
Qed.

(** ** Waiting ends *)

(** The clock of a wait that starts at [from]: half a second a turn, never stopped. *)
Definition paced (from : GoTime) (obs : nat → Observation) : Prop :=
  from <= ob_now (obs 0%nat) ∧ (∀ i, ob_now (obs i) + connReqWaitPoll <= ob_now (obs (S i))) ∧ ∀ i, ob_cancelled (obs i) = false.

Lemma wait_loop_ends fuel obs turn device since deadline :
  (∀ i, ob_now (obs i) + connReqWaitPoll <= ob_now (obs (S i))) → (∀ i, ob_cancelled (obs i) = false) →
  deadline <= ob_now (obs turn) + (Z.of_nat fuel - 1) * connReqWaitPoll → fuel ≠ 0%nat →
  (∃ t, wait_loop fuel obs turn device since deadline = Informed t) ∨ wait_loop fuel obs turn device since deadline = Expired false.
Proof.
  change connReqWaitPoll with 500000000. intros Hstep Hc. revert turn. induction fuel as [|f IH]; intros turn Hd Hf; [done|]. cbn [wait_loop]. rewrite Hc.
  destruct (Z.ltb_spec (ob_now (obs turn)) deadline); cbn [negb]; [|by right].
  destruct (informed_at _ _ _); [left; eauto|]. pose proof (Hstep turn).
  apply IH; [|intros ->]; lia.
Qed.

Lemma wait_loop_informed fuel obs turn device since deadline t :
  wait_loop fuel obs turn device since deadline = Informed t → ob_now (obs t) < deadline ∧ informed_at (obs t) device since = true.
Proof.
  revert turn. induction fuel as [|f IH]; intros turn; cbn [wait_loop]; [done|].
  destruct (Z.ltb_spec (ob_now (obs turn)) deadline); cbn [negb]; [|done].
  destruct (informed_at (obs turn) device since) eqn:E; [by intros [= <-]|]. destruct (ob_cancelled _); [done|apply IH].
Qed.

Lemma wait_of_bounds payload : 0 < wait_of payload <= connReqMaxWait.
Proof.
  unfold wait_of. set (z := wrap64 _). change connReqMaxWait with 120000000000. change connReqDefaultWait with 30000000000.
  destruct (Z.leb_spec z 0); case_match eqn:E; [lia| |lia|]; apply Z.ltb_ge in E; lia.
Qed.

(** The actions of a run on the tables; [env] has the instant, the identifiers and
    the parameter cache each of them meets. *)
Fixpoint run_actions (hash : json → string) (env : nat → GoTime * Fresh * Params) (row : Device) (n : nat) (acts : list Action)
    (tabs : Devices * gmap string Job) : Devices * gmap string Job :=
  match acts with
  | [] => tabs
  | a :: rest =>
      run_actions hash env row (S n) rest
        (perform w hash (env n).1.1 (env n).1.2 (env n).2 (ID job) (DeviceID job) row a tabs)
  end.

Lemma run_actions_sends hash env row n pre acts tabs :
  Forall (λ a, sends a = true) pre →
  run_actions hash env row n (pre ++ acts) tabs = run_actions hash env row (n + length pre) acts tabs.
Proof.
  intros Hp. revert n tabs. induction Hp as [|a pre Ha Hp IH]; intros n tabs; [by rewrite Nat.add_0_r|]. cbn.
  rewrite IH, <- Nat.add_succ_comm. destruct a; done.
Qed.

Lemma tighten_keeps hash fr now p row jobs id j :
  jobs !! id = Some j → tightenPeriodicInform w hash fr now p row jobs !! id = Some j.
Proof.
  intros Hj. unfold tightenPeriodicInform. destruct (tight_enough _ _ _); [done|].
  match goal with |- (CreateWithIdempotency ?h _ ?f ?n ?d ?t ?pl ?b ?key ?tab).2 !! _ = _ =>
    destruct (CreateWithIdempotency_adds h f n d t pl b key tab id) as [->|(? & _)]; [done|congruence] end.
Qed.

Definition wait : GoDuration := wait_of (Payload job).

(** No wait of the run is cut short, and its clock runs. *)
Definition undisturbed : Prop := ∀ x, x ∈ waits k wait → paced (x.2 - wait) x.1.1.

Lemma undisturbed_ends x : undisturbed → x ∈ waits k wait →
  (∃ t, waited (DeviceID job) x = Informed t) ∨ waited (DeviceID job) x = Expired false.
Proof.
  intros Hu Hx. destruct (Hu x Hx) as (Hfrom & Hstep & Hc). apply wait_loop_ends; [done|done| |done].
  pose proof (wait_of_bounds (Payload job)) as Hb. fold wait in Hb. change connReqMaxWait with 120000000000 in Hb.
  change connReqWaitPoll with 500000000. unfold wait_fuel. lia.
Qed.

(** The worker settles every job it takes.  Unless it is shut down, whatever the
    device, the network and the peers do, its run ends: the wait is over after 241
    turns at most, and the statements it executes leave the job finished, as a
    success exactly when the run saw the device call. *)
Theorem worker_settles_its_job hash env row tabs j :
  map_Forall (λ id d, d_ID (d_identity d) = id) devices → undisturbed → tabs.2 !! ID job = Some j →
  ∃ j', (run_actions hash env row 0 run tabs).2 !! ID job = Some j' ∧ finished (Status j') = true ∧
    (Status j' = StatusSuccess ↔ ASucceed ∈ run).
Proof.
  intros Hids Hu Hj. destruct (process_shaped md5 sha256 hmac_sha1 parse w k job devices creds params Hids) as (pre & fin & E & Hp & Hf).
  unfold run. rewrite E, run_actions_sends by done.
  assert (ASucceed ∈ pre ++ fin ↔ ASucceed ∈ fin) as Hs.
  { rewrite elem_of_app. split; [|by right]. intros [Hin|]; [|done]. by eapply Forall_forall in Hp; [|exact Hin]. }
  setoid_rewrite Hs. clear Hs. generalize (0 + length pre)%nat. intros n. destruct tabs as [devs jobs]. cbn [snd] in Hj.
  destruct Hf as [msg|status code msg|status msg|x turn status mode Hx Hw|x c status mode msg tail Hx Hw Htail|x r Hx Hw Hr].
  1-5: cbn [run_actions perform app fst snd].
  1-3: unfold MarkFailed; rewrite lookup_by_id, decide_True, Hj by done; eexists; split; [done|]; split; [done|]; split; [done|set_solver].
  - unfold MarkSuccess. rewrite lookup_by_id, decide_True, Hj by done. eexists. split; [done|]. split; [done|].
    split; [intros _; rewrite !elem_of_cons; auto|done].
  - assert (MarkTimeout (env (S n)).1.1 (ID job) msg jobs !! ID job = Some (set_fault_string msg (finish StatusTimeout (env (S n)).1.1 j))) as Ht
      by (unfold MarkTimeout; by rewrite lookup_by_id, decide_True, Hj by done).
    exists (set_fault_string msg (finish StatusTimeout (env (S n)).1.1 j)). split; [|split; [done|split; [done|by destruct Htail as [->| ->]; set_solver]]].
    destruct Htail as [->| ->]; cbn [run_actions perform fst snd]; [done|by apply tighten_keeps].
  - exfalso. destruct (undisturbed_ends x Hu Hx) as [[t Ht]|Ht]; destruct Hr as [?|[?|?]]; congruence.
Qed.

(** Success means that the device has called: a run marks its job successful only
    when, before the end of its wait, the registry showed an Inform of that device
    with event code 6 that is not older than the attempt. *)
Theorem success_means_the_device_called :
  map_Forall (λ id d, d_ID (d_identity d) = id) devices → ASucceed ∈ run →
  ∃ x turn tab, x ∈ waits k wait ∧ ob_now (x.1.1 turn) < x.2 ∧ ob_devices (x.1.1 turn) = Some tab ∧
    InformedWithEventSince tab (DeviceID job) x.1.2 "6" = Some true.
Proof.
  intros Hids. destruct (process_shaped md5 sha256 hmac_sha1 parse w k job devices creds params Hids) as (pre & fin & E & Hp & Hf).
  unfold run. rewrite E. intros [Hin|Hin]%elem_of_app; [by eapply Forall_forall in Hp; [|exact Hin]|].
  destruct Hf as [msg|status code msg|status msg|x turn status mode Hx Hw|x c status mode msg tail Hx Hw Htail|x r Hx Hw Hr];
    [exfalso; set_solver..| |exfalso; destruct Htail as [->| ->]; set_solver|by apply elem_of_nil in Hin].
  exists x, turn. apply wait_loop_informed in Hw as [Hd Hi]. unfold informed_at in Hi.
  destruct (ob_devices _) as [tab|] eqn:Et; [|done]. exists tab. by apply bool_decide_eq_true in Hi.
Qed.

(** A run ends while its lease is alive.  When the calls keep their timeouts, ten
    seconds each, every wait of a run ends two and a half minutes after the lease
    at the latest, whatever wait the job asked for and however the product of that
    number overflows; until two minutes after that the reaper does not take the job. *)
Theorem lease_outlives_the_run locked owner now jobs jobs' x t j :
  keyed jobs → LeaseNextByType locked owner now TypeConnectionRequest jobs = (Some job, jobs') →
  k_xmppDone k <= now + connReqXMPPTimeout → k_getDone k <= now + connReqXMPPTimeout + connReqGETTimeout →
  k_udpDone k <= now + connReqXMPPTimeout + connReqGETTimeout + connReqGETTimeout →
  x ∈ waits k wait → t <= x.2 + 2 * Minute → jobs' !! ID job = Some j →
  Status j = StatusInProgress ∧ stale t j = false.
Proof.
  intros Hk Hl H1 H2 H3 Hx Ht Hj. unfold LeaseNextByType, lease_with in Hl. destruct (pick _ _ _) as [j0|] eqn:E; [|done].
  injection Hl as Hjob <-. apply pick_spec in E as ((key & Hkey) & _). pose proof (Hk _ _ Hkey) as Hid. cbn beta in Hid.
  subst key. rewrite <- Hjob in Hj. change (ID (leased_job StatusInProgress j0)) with (ID j0) in Hj.
  rewrite lookup_by_id, decide_True, Hkey in Hj by done. injection Hj as <-. split; [done|].
  unfold stale, lease_expired. cbn [leased_until lease_row set_lease]. apply andb_false_iff. right. apply Z.ltb_ge.
  pose proof (wait_of_bounds (Payload job)) as Hb. fold wait in Hb.
  change connReqMaxWait with 120000000000 in Hb. change connReqXMPPTimeout with 10000000000 in *.
  change connReqGETTimeout with 10000000000 in *. change workerLease with 300000000000. change (2 * Minute) with 120000000000 in Ht.
  unfold waits in Hx. rewrite !elem_of_cons in Hx. destruct Hx as [->|[->|[->|Hx%elem_of_nil]]]; [..|done]; cbn in Ht; lia.
Qed.
End Runs.

(** ** The paths *)

Section Paths.
Context (md5 sha256 : string → string) (hmac_sha1 : string → string → string) (parse : string → option Target).

(** The tests the worker makes one after the other are the selection: without XMPP
    every device takes the path [selectConnReqPath] names. *)
Theorem worker_follows_the_selection w k params devices d username password wait :
  let udpAddr := default "" (d_UDPConnectionRequestAddress (d_reach d)) in
  let i := without_xmpp (connReqInputsFor w params devices d udpAddr) in
  let id := d_ID (d_identity d) in
  process_direct md5 sha256 hmac_sha1 parse w k i d username password wait =
  match selectConnReqPath i with
  | PathXMPP => []
  | PathAnnexG => attemptAnnexG hmac_sha1 k id udpAddr username password wait
  | PathUnavailable => [AFail "" OutcomeUnavailable; ARecord OutcomeUnavailable None]
  | PathBehindNAT => [ARecord OutcomeBehindNAT None; AFail OutcomeBehindNAT behind_nat_message]
  | PathHTTP => attemptHTTP md5 sha256 hmac_sha1 parse w k id (default "" (d_ConnectionRequestURL (d_reach d))) udpAddr username password wait
  end.
Proof.
  cbv zeta. unfold process_direct, selectConnReqPath, connReqInputsFor, without_xmpp.
  cbn [in_HasURL in_UDPAddr in_Mode in_BehindNAT in_JabberID in_XMPPConfigured andb].
  destruct (String.eqb (default "" (d_ConnectionRequestURL _)) ""); cbn [negb].
  - by destruct (String.eqb (default "" (d_UDPConnectionRequestAddress _)) "").
  - by destruct (String.eqb (default "" (d_UDPConnectionRequestAddress _)) "" && _).
Qed.

Lemma direct_behind_nat w k i d username password wait s :
  in_UDPAddr i = "" → in_HasURL i = negb (String.eqb (default "" (d_ConnectionRequestURL (d_reach d))) "") →
  in_Mode i = ModePeriodicFallback ∨ (in_Mode i = ModeXMPP ∧ in_BehindNAT i = true) → selectConnReqPath i ≠ PathXMPP →
  AGet s ∉ process_direct md5 sha256 hmac_sha1 parse w k i d username password wait.
Proof.
  intros Hudp Hurl Hmode Hx. unfold process_direct, selectConnReqPath in *. rewrite Hudp, Hurl in *.
  destruct (String.eqb (default "" _) ""); cbn [negb String.eqb] in *; [set_solver|].
  destruct (in_XMPPConfigured i && negb (String.eqb (in_JabberID i) "")); [done|].
  assert (bool_decide (in_Mode i = ModePeriodicFallback) || (bool_decide (in_Mode i = ModeXMPP) && in_BehindNAT i) = true) as ->
    by (destruct Hmode as [->|[-> ->]]; done).
  cbn. set_solver.
Qed.

(** A device behind NAT without a STUN address is never dialled, with XMPP or not. *)
Theorem device_behind_nat_is_not_dialled w k job devices creds params d s :
  devices !! DeviceID job = Some d → d_ID (d_identity d) = DeviceID job →
  default "" (d_UDPConnectionRequestAddress (d_reach d)) = "" →
  d_ConnectionRequestMode (d_reach d) = ModePeriodicFallback ∨
  (d_ConnectionRequestMode (d_reach d) = ModeXMPP ∧ d_behind_nat (d_reach d) = Some true) →
  AGet s ∉ process md5 sha256 hmac_sha1 parse w k job devices creds params.
Proof.
  intros Hd Hid Hudp Hmode Hin. unfold process, Get in Hin. rewrite Hd, Hudp in Hin.
  destruct (credentialFor _ _ _) as [username password]. set (i := connReqInputsFor w params devices d "") in *.
  assert (in_Mode i = ModePeriodicFallback ∨ (in_Mode i = ModeXMPP ∧ in_BehindNAT i = true)) as Hm.
  { unfold i, connReqInputsFor. cbn [in_Mode in_BehindNAT]. rewrite Hid, Hd. cbn. destruct Hmode as [->|[-> ->]]; [by left|by right]. }
  destruct (selectConnReqPath i) eqn:Ep; try by (eapply direct_behind_nat in Hin; [..|rewrite Ep]).
  assert (AGet s ∉ process_direct md5 sha256 hmac_sha1 parse w k (without_xmpp i) d username password (wait_of (Payload job))) as Hno.
  { apply direct_behind_nat; [done..|]. unfold selectConnReqPath. cbn [without_xmpp in_XMPPConfigured andb]. repeat case_match; done. }
  unfold attemptXMPP in Hin. destruct (negb _); [by apply Hno|]. destruct (negb _); [set_solver|].
  apply elem_of_cons in Hin as [?|Hin]; [done|]. destruct (waitForConnReqInform _ _ _ _) as [|[]| |]; set_solver.
Qed.
End Paths.

(** ** The statements *)

(** Every action of a run is at most one call of each repository, so the invariants
    of the queue and of the registry hold under the worker. *)
Lemma perform_steps w hash now fr params job dev row a tabs :
  (perform w hash now fr params job dev row a tabs).1 = tabs.1 ∨ device_step tabs.1 (perform w hash now fr params job dev row a tabs).1.
Proof. destruct a; try by left. right. constructor. Qed.

Lemma perform_job_steps w hash now fr params job dev row a tabs :
  (perform w hash now fr params job dev row a tabs).2 = tabs.2 ∨ job_step hash tabs.2 (perform w hash now fr params job dev row a tabs).2.
Proof.
  destruct a; cbn [perform snd]; try by left. - right; constructor. - right; constructor. - right; constructor.
  - unfold tightenPeriodicInform. destruct (tight_enough _ _ _); [by left|]. right. constructor.
Qed.

(** Tightening only ever adds one write of the interval, for a device that is not
    known to inform often enough, and only when none was ever queued for it: also
    when that one went to the wrong tree. *)
Theorem interval_is_tightened_once w hash fr now params d jobs :
  let id := d_ID (d_identity d) in
  let jobs' := tightenPeriodicInform w hash fr now params d jobs in
  adds_only (inserted id TypeSetParameter (tighten_payload (d_DataModelRoot d)) "system:cgnat-fallback") jobs jobs' ∧
  (jobs' ≠ jobs → tight_enough w params d = false ∧ findByIdempotency jobs id TypeSetParameter "cgnat-periodic-inform-tighten" = None).
Proof.
  cbv zeta. unfold tightenPeriodicInform. destruct (tight_enough w params d); [by split; [apply adds_only_refl|]|].
  split; [apply CreateWithIdempotency_adds|]. intros Hne. split; [done|].
  unfold CreateWithIdempotency in Hne. change (String.eqb (TrimSpace "cgnat-periodic-inform-tighten") "") with false in Hne.
  destruct (checkProtectedWrite _ _ _); [done|]. destruct (findByIdempotency _ _ _ _) as [j|]; [|done]. exfalso. apply Hne.
  destruct (RequestHash j); [by destruct (String.eqb _ _)|done].
Qed.
