(* ===== verification/Rollout.v ===== *)
(** * Firmware rollouts

    [internal/rollout], [cmd/api/rollout_handlers.go] and the retention rule
    for finished jobs ([internal/retention]). A rollout's devices are fixed when
    it is created; a row without a job is eligible, otherwise its state is its
    job's. Rates are binary64 numbers. The rows a SELECT returns without ORDER
    BY come in an order that is an argument, as is the server's reading of a
    TIME text. *)

From Stdlib Require Import Floats.SpecFloat.
From S2P Require Import Prelude GoStrings Json JobModel JobStore Devices Policies ParamCache Api Transfer.

(** ** Floating point *)

Definition float64 : Type := spec_float.
Definition float_of_int (z : Z) : float64 := binary_normalize 53 1024 z 0 false.
Definition float_div : float64 → float64 → float64 := SFdiv 53 1024.
Definition float_gt (a b : float64) : bool := SFltb b a.

(** ** Data *)

Inductive RolloutStatus : Type :=
| StatusDraft
| StatusActive
| StatusBlocked
| StatusCompleted
| StatusAborted.
#[global] Instance RolloutStatus_eq_dec : EqDecision RolloutStatus.
Proof. solve_decision. Defined.
Definition rstatus_eqb (a b : RolloutStatus) : bool := bool_decide (a = b).

Inductive DeviceState : Type :=
| DeviceStateEligible
| DeviceStateQueued
| DeviceStateDownloading
| DeviceStateSuccess
| DeviceStateFailed.

Record RolloutRow : Type := mkRollout {
  ro_ID : string;
  ro_Name : string;
  ro_FirmwareImageID : string;
  ro_RollbackFirmwareImageID : option string;
  ro_ModelFilter : option string;
  ro_CurrentVersionFilter : option string;
  ro_CanaryPercentage : Z;
  ro_MaximumFailureRate : float64;
  ro_WindowStartUTC : option string;
  ro_WindowEndUTC : option string;
  ro_Status : RolloutStatus;
  ro_CustomerID : option string;
  ro_CreatedBy : string;
  ro_RollbackDispatchedAt : option GoTime
}.

Record RolloutDevice : Type := mkRolloutDevice { rd_JobID : option string; rd_DispatchedAt : option GoTime }.

(** [firmware_rollout], and [firmware_rollout_device] by its primary key. *)
Record Rollouts : Type := mkRollouts {
  rs_rollouts : gmap string RolloutRow;
  rs_devices : gmap (string * string) RolloutDevice
}.

Definition set_ro_status (st : RolloutStatus) (r : RolloutRow) : RolloutRow :=
  mkRollout (ro_ID r) (ro_Name r) (ro_FirmwareImageID r) (ro_RollbackFirmwareImageID r) (ro_ModelFilter r)
    (ro_CurrentVersionFilter r) (ro_CanaryPercentage r) (ro_MaximumFailureRate r) (ro_WindowStartUTC r)
    (ro_WindowEndUTC r) st (ro_CustomerID r) (ro_CreatedBy r) (ro_RollbackDispatchedAt r).

Definition set_ro_rollback (now : GoTime) (r : RolloutRow) : RolloutRow :=
  mkRollout (ro_ID r) (ro_Name r) (ro_FirmwareImageID r) (ro_RollbackFirmwareImageID r) (ro_ModelFilter r)
    (ro_CurrentVersionFilter r) (ro_CanaryPercentage r) (ro_MaximumFailureRate r) (ro_WindowStartUTC r)
    (ro_WindowEndUTC r) (ro_Status r) (ro_CustomerID r) (ro_CreatedBy r) (Some now).

(** ** The maintenance window *)

Definition skip_colon (s : string) : option string :=
  match s with String c r => if Ascii.eqb c ":" then Some r else None | _ => None end.

(** A fraction of a second may follow, whatever the layout says. *)
Definition fraction_only (s : string) : bool :=
  match s with
  | EmptyString => true
  | String c (String d r) => (Ascii.eqb c "." || Ascii.eqb c ",") && is_digit d && forall_bytes is_digit r
  | _ => false
  end.

(** [time.Parse(15:04:05)]: hour and minute. *)
Definition parse_clock (s : string) : option (Z * Z) :=
  '(h, r1) ← getnum s false;
  r2 ← skip_colon r1;
  '(m, r3) ← getnum r2 true;
  r4 ← skip_colon r3;
  '(sec, r5) ← getnum r4 true;
  if (h <? 24) && (m <? 60) && (sec <? 60) && fraction_only r5 then Some (h, m) else None.

(** [t.UTC().Hour()] and [t.UTC().Minute()] *)
Definition clock_hour (t : GoTime) : Z := (t / Hour) mod 24.
Definition clock_minute (t : GoTime) : Z := (t / Minute) mod 60.

Definition InMaintenanceWindow (t : GoTime) (start end_ : option string) : bool :=
  match start, end_ with
  | Some s, Some e =>
      match parse_clock s, parse_clock e with
      | Some (sh, sm), Some (eh, em) =>
          let nowMin := clock_hour t * 60 + clock_minute t in
          let startMin := sh * 60 + sm in
          let endMin := eh * 60 + em in
          if startMin <=? endMin then (startMin <=? nowMin) && (nowMin <? endMin)
          else (startMin <=? nowMin) || (nowMin <? endMin)
      | _, _ => true
      end
  | _, _ => true
  end.

(** ** Repository *)

Section Repository.
Context (pg_time : string → option string).

(** [parameters->'Device.DeviceInfo.SoftwareVersion'->>'value'] *)
Definition cached_version (params : Params) (dev : string) : option string :=
  cv_Value <$> (p_cache params !! dev ≫= λ c, c !! "Device.DeviceInfo.SoftwareVersion").

(** The WHERE of the snapshot, [None] for a model filter [ILIKE] refuses. *)
Definition eligible_device (model version customer : option string) (params : Params) (d : Device) : option bool :=
  match (match model with
         | None => Some true
         | Some m => filter_matches (d_Manufacturer d) (d_ProductClass (d_identity d)) m
         end) with
  | None => None
  | Some matched =>
      Some (matched
        && (match version with
            | None => true
            | Some v => bool_decide (cached_version params (d_ID (d_identity d)) = Some v)
            end)
        && (match customer with
            | None => true
            | Some c => bool_decide (d_CustomerID (d_ownership d) = Some c)
            end))
  end.

Definition reads_time (o : option string) : bool :=
  match o with Some s => is_some (pg_time s) | None => true end.

(** One transaction. The INSERT fails on a broken constraint: the images exist,
    the percentage and the rate are in range and the window's texts are times. *)
Definition Rollout_Create (uuid name firmwareImageID : string) (rollbackImageID model version : option string)
    (canary : Z) (maxRate : float64) (windowStart windowEnd customer : option string) (createdBy : string)
    (images : gmap string Image) (customers : gset string) (params : Params) (devices : gmap string Device)
    (t : Rollouts) : result RolloutRow * Rollouts :=
  if is_some (rs_rollouts t !! uuid) || negb (is_some (images !! firmwareImageID))
     || match rollbackImageID with Some i => negb (is_some (images !! i)) | None => false end
     || negb ((1 <=? canary) && (canary <=? 100))
     || negb (SFleb (float_of_int 0) maxRate && SFleb maxRate (float_of_int 1))
     || negb (reads_time windowStart) || negb (reads_time windowEnd)
     || match customer with Some c => negb (bool_decide (c ∈ customers)) | None => false end
  then (Err "scan rollout: violates constraint", t)
  else
    match select_rows (eligible_device model version customer params) (rows devices) with
    | Err e => (Err e, t)
    | Ok eligible =>
        let r := mkRollout uuid name firmwareImageID rollbackImageID model version canary maxRate
                   (windowStart ≫= pg_time) (windowEnd ≫= pg_time) StatusDraft customer createdBy None in
        (Ok r, mkRollouts (<[uuid := r]> (rs_rollouts t))
                 (list_to_map ((λ d, ((uuid, d_ID (d_identity d)), mkRolloutDevice None None)) <$> eligible)
                  ∪ rs_devices t))
    end.
End Repository.

Definition Rollout_ByID (t : Rollouts) (id : string) : option RolloutRow := rs_rollouts t !! id.

Definition SetStatus (id : string) (st : RolloutStatus) (t : Rollouts) : Rollouts :=
  mkRollouts (alter (set_ro_status st) id (rs_rollouts t)) (rs_devices t).

Definition SetRollbackDispatched (now : GoTime) (id : string) (t : Rollouts) : Rollouts :=
  mkRollouts (alter (set_ro_rollback now) id (rs_rollouts t)) (rs_devices t).

(** The devices of a rollout with their rows. *)
Definition members (t : Rollouts) (rolloutID : string) : list (string * RolloutDevice) :=
  (λ kv, (kv.1.2, kv.2)) <$> List.filter (λ kv, String.eqb kv.1.1 rolloutID) (map_to_list (rs_devices t)).

Definition TotalDevices (t : Rollouts) (rolloutID : string) : Z := Z.of_nat (length (members t rolloutID)).

Definition undispatched (m : string * RolloutDevice) : bool := negb (is_some (rd_JobID m.2)).

Definition eligible_ids (t : Rollouts) (rolloutID : string) : list string :=
  fst <$> List.filter undispatched (members t rolloutID).

(** The status of the row's job; [None] without a job. *)
Definition job_status (jobs : gmap string Job) (rd : RolloutDevice) : option JobStatus :=
  Status <$> (rd_JobID rd ≫= λ j, jobs !! j).

Definition job_has_status (jobs : gmap string Job) (l : list JobStatus) (m : string * RolloutDevice) : bool :=
  match job_status jobs m.2 with Some s => existsb (status_eqb s) l | None => false end.

Definition successful_ids (jobs : gmap string Job) (t : Rollouts) (rolloutID : string) : list string :=
  fst <$> List.filter (job_has_status jobs [StatusSuccess]) (members t rolloutID).

Definition MarkDispatched (now : GoTime) (rolloutID deviceID jobID : string) (t : Rollouts) : Rollouts :=
  mkRollouts (rs_rollouts t)
    (alter (λ _, mkRolloutDevice (Some jobID) (Some now)) (rolloutID, deviceID) (rs_devices t)).

Definition deriveState (s : option JobStatus) : DeviceState :=
  match s with
  | None => DeviceStateEligible
  | Some StatusQueued | Some StatusRPCSent => DeviceStateQueued
  | Some StatusAwaitingTransferComplete => DeviceStateDownloading
  | Some StatusSuccess => DeviceStateSuccess
  | Some StatusFailed | Some StatusTimeout => DeviceStateFailed
  | Some _ => DeviceStateQueued
  end.

(** The rate and the number of jobs it is over. *)
Definition FailureRate (jobs : gmap string Job) (t : Rollouts) (rolloutID : string) : float64 * Z :=
  let count l := Z.of_nat (length (List.filter (job_has_status jobs l) (members t rolloutID))) in
  let succeeded := count [StatusSuccess] in
  let failed := count [StatusFailed; StatusTimeout] in
  let terminal := succeeded + failed in
  if terminal =? 0 then (float_of_int 0, 0)
  else (float_div (float_of_int failed) (float_of_int terminal), terminal).

(** ** Retention

    [DELETE FROM jobs] of old finished jobs; the foreign key of a rollout's row
    is ON DELETE SET NULL. *)

Definition prunable (cutoff : GoTime) (j : Job) : bool :=
  existsb (status_eqb (Status j)) [StatusSuccess; StatusFailed; StatusTimeout]
  && match CompletedAt j with Some c => c <? cutoff | None => false end.

Definition prune_jobs (cutoff : GoTime) (jobs : gmap string Job) (t : Rollouts) : gmap string Job * Rollouts :=
  let kept := filter (λ kj, prunable cutoff kj.2 = false) jobs in
  (kept, mkRollouts (rs_rollouts t)
     ((λ rd, match rd_JobID rd with
             | Some j => if is_some (jobs !! j) && negb (is_some (kept !! j))
                         then mkRolloutDevice None (rd_DispatchedAt rd) else rd
             | None => rd
             end) <$> rs_devices t)).

(** ** Handlers ([rollout_handlers.go]) *)

Inductive RolloutReply : Type :=
| RolloutRefused (status : Z) (msg : string)
| RolloutCreated (r : RolloutRow) (eligible : Z)
| RolloutCompleted
| WaveDispatched (dispatched batch : Z) (status : RolloutStatus) (final : bool).

Definition ErrNotDraft : string := "rollout is not in DRAFT status".
Definition ErrNotActive : string := "rollout is not ACTIVE".
Definition ErrOutsideMaintenance : string := "current time is outside the configured maintenance window".
Definition ErrFailureRateExceeded : string := "failure rate exceeds maximum_failure_rate; rollout blocked".
Definition ErrNoEligibleDevices : string := "no eligible devices to dispatch".

(** [scope] is [deviceScope] of the request. *)
Definition scopedRollout (scope : result (list string * bool)) (t : Rollouts) (id : string)
  : RolloutReply + RolloutRow :=
  match Rollout_ByID t id with
  | None => inl (RolloutRefused 404 "not found")
  | Some r =>
      match scope with
      | Err _ => inl (RolloutRefused 500 "internal error")
      | Ok (ids, scoped) =>
          if scoped && negb (deviceInScope (ro_CustomerID r) ids) then inl (RolloutRefused 404 "not found") else inr r
      end
  end.

Record createRolloutRequest : Type := mkCreateRollout {
  crr_Name : string;
  crr_FirmwareImageID : string;
  crr_RollbackFirmwareImageID : option string;
  crr_ModelFilter : option string;
  crr_CurrentVersionFilter : option string;
  crr_CanaryPercentage : Z;
  crr_MaximumFailureRate : float64;
  crr_WindowStart : option string;
  crr_WindowEnd : option string;
  crr_CustomerID : option string
}.

(** 0.2 in binary64 *)
Definition default_failure_rate : float64 := S754_finite false 7205759403792794 (-55).

Definition createRollout (pg_time : string → option string) (scope : result (list string * bool)) (uuid operator : string)
    (body : option createRolloutRequest) (images : gmap string Image) (customers : gset string) (params : Params)
    (devices : gmap string Device) (t : Rollouts) : RolloutReply * Rollouts :=
  match body with
  | None => (RolloutRefused 400 "invalid JSON body", t)
  | Some req =>
      if String.eqb (crr_Name req) "" || String.eqb (crr_FirmwareImageID req) ""
      then (RolloutRefused 400 "name and firmware_image_id are required", t)
      else
        let canary := if crr_CanaryPercentage req =? 0 then 10 else crr_CanaryPercentage req in
        let rate := if SFeqb (crr_MaximumFailureRate req) (float_of_int 0) then default_failure_rate
                    else crr_MaximumFailureRate req in
        match scope with
        | Err _ => (RolloutRefused 500 "internal error", t)
        | Ok (ids, scoped) =>
            if scoped && negb (deviceInScope (crr_CustomerID req) ids)
            then (RolloutRefused 400 "customer_id is required and must be within your assigned scope", t)
            else match Rollout_Create pg_time uuid (crr_Name req) (crr_FirmwareImageID req)
                         (crr_RollbackFirmwareImageID req) (crr_ModelFilter req) (crr_CurrentVersionFilter req)
                         canary rate (crr_WindowStart req) (crr_WindowEnd req) (crr_CustomerID req) operator
                         images customers params devices t with
                 | (Err _, t') => (RolloutRefused 500 "internal error", t')
                 | (Ok r, t') => (RolloutCreated r (Z.of_nat (length (eligible_ids t' (ro_ID r)))), t')
                 end
        end
  end.

(** The two tables a call works on. *)
Abbreviation Shared := (Rollouts * gmap string Job)%type.

Section Dispatch.
Context (hmac : string → string → string) (order : list string → list string).
Context (firmwareBase transferKey : string) (images : gmap string Image) (devices : gmap string Device).
Context (now : GoTime) (operator : string).

(** No lock or transaction spans a call: [rest n] is what the other requests
    and the devices do to the tables before its statement [n].  The errors of
    its UPDATEs are logged or dropped: [lost n] says that statement failed. *)
Context (rest : nat → Shared → Shared) (lost : nat → bool).

Definition update (n : nat) (f : Rollouts → Rollouts) (s : Shared) : Shared :=
  let s' := rest n s in if lost n then s' else (f s'.1, s'.2).

(** [fresh] are the identifiers drawn for each device. *)
Definition queue_download (fresh : string → Fresh) (n : nat) (dev imageID : string) (s : Shared) : result Job * Shared :=
  let s' := rest n s in
  let '(r, jobs) :=
    queueFirmwareDownload hmac firmwareBase transferKey images devices (fresh dev) now dev imageID 0 operator s'.2 in
  (r, (s'.1, jobs)).

(** The loop over a batch: the jobs queued with their devices, how many of them
    were linked to their row, and the tables. *)
Fixpoint dispatch_devices (fresh : string → Fresh) (rolloutID imageID : string) (n : nat) (batch : list string) (s : Shared)
  : list (string * Job) * Z * Shared :=
  match batch with
  | [] => ([], 0, s)
  | dev :: devs =>
      match queue_download fresh n dev imageID s with
      | (Err _, s1) => dispatch_devices fresh rolloutID imageID (2 + n) devs s1
      | (Ok job, s1) =>
          let '(queued, dispatched, s2) :=
            dispatch_devices fresh rolloutID imageID (2 + n) devs
              (update (1 + n) (MarkDispatched now rolloutID dev (ID job)) s1) in
          ((dev, job) :: queued, if lost (1 + n) then dispatched else dispatched + 1, s2)
      end
  end.

Fixpoint rollback_devices (fresh : string → Fresh) (imageID : string) (n : nat) (targets : list string) (s : Shared)
  : list (string * Job) * Shared :=
  match targets with
  | [] => ([], s)
  | dev :: devs =>
      let '(r, s1) := queue_download fresh n dev imageID s in
      let '(queued, s2) := rollback_devices fresh imageID (1 + n) devs s1 in
      (match r with Ok job => (dev, job) :: queued | Err _ => queued end, s2)
  end.

(** [r] is the row as it was when the request read it. *)
Definition dispatchRollback (fresh : string → Fresh) (n : nat) (r : RolloutRow) (s : Shared) : list (string * Job) * Shared :=
  match ro_RollbackFirmwareImageID r, ro_RollbackDispatchedAt r with
  | Some imageID, None =>
      let s1 := rest n s in
      let targets := order (successful_ids s1.2 s1.1 (ro_ID r)) in
      let '(queued, s2) := rollback_devices fresh imageID (1 + n) targets s1 in
      (queued, update (1 + n + length targets) (SetRollbackDispatched now (ro_ID r)) s2)
  | _, _ => ([], s)
  end.

Definition wave_size (total canary : Z) : Z :=
  let w := Z.quot (wrap64 (total * canary)) 100 in if w <? 1 then 1 else w.

(** The reply, the jobs the call queued, and the tables. *)
Definition dispatchRolloutBatch (fresh : string → Fresh) (scope : result (list string * bool)) (isCanaryStart : bool)
    (id : string) (s : Shared) : RolloutReply * list (string * Job) * Shared :=
  match scopedRollout scope s.1 id with
  | inl reply => (reply, [], s)
  | inr r =>
      if isCanaryStart && negb (rstatus_eqb (ro_Status r) StatusDraft) then (RolloutRefused 409 ErrNotDraft, [], s)
      else if negb isCanaryStart && negb (rstatus_eqb (ro_Status r) StatusActive)
      then (RolloutRefused 409 ErrNotActive, [], s)
      else if negb (InMaintenanceWindow now (ro_WindowStartUTC r) (ro_WindowEndUTC r))
      then (RolloutRefused 409 ErrOutsideMaintenance, [], s)
      else
        let s0 := if isCanaryStart then s else rest 0 s in
        let '(rate, terminal) := FailureRate s0.2 s0.1 id in
        if negb isCanaryStart && (0 <? terminal) && float_gt rate (ro_MaximumFailureRate r)
        then let '(queued, s') := dispatchRollback fresh 2 r (update 1 (SetStatus id StatusBlocked) s0) in
             (RolloutRefused 409 ErrFailureRateExceeded, queued, s')
        else
          let s1 := rest 1 s0 in
          let eligible := order (eligible_ids s1.1 id) in
          match eligible with
          | [] => if isCanaryStart then (RolloutRefused 400 ErrNoEligibleDevices, [], s1)
                  else (RolloutCompleted, [], update 2 (SetStatus id StatusCompleted) s1)
          | _ =>
              let s2 := rest 2 s1 in
              let size := wave_size (TotalDevices s2.1 id) (ro_CanaryPercentage r) in
              let batch := if size <? Z.of_nat (length eligible) then take (Z.to_nat size) eligible else eligible in
              let final := Nat.eqb (length batch) (length eligible) in
              let '(queued, dispatched, s3) := dispatch_devices fresh id (ro_FirmwareImageID r) 3 batch s2 in
              let b := Z.of_nat (length batch) in
              let last := (3 + 2 * length batch)%nat in
              if isCanaryStart
              then (WaveDispatched dispatched b StatusActive final, queued, update last (SetStatus id StatusActive) s3)
              else if final
              then (WaveDispatched dispatched b StatusCompleted final, queued, update last (SetStatus id StatusCompleted) s3)
              else (WaveDispatched dispatched b StatusActive final, queued, s3)
          end
  end.
End Dispatch.
