(* ===== verification/RolloutLaws.v ===== *)
(** * Laws of rollouts

    What the job repository never takes from a rollout (a row of the job table
    and the columns that name it stay); the statements other requests run
    between two statements of a call; what one wave and one rollback do under
    that interference; and the history of one rollout, with the invariant that
    ties its rows to the downloads sent for it. *)

From S2P Require Import Prelude GoStrings JobModel JobStore JobLaws Devices Policies ParamCache Api Transfer Rollout.

(** ** Jobs stay

    No call of the job repository removes a row or changes the columns that
    identify it. *)

Definition jobs_kept (tab tab' : gmap string Job) : Prop :=
  ∀ k j, tab !! k = Some j → ∃ j', tab' !! k = Some j' ∧ identity j' = identity j.

#[global] Instance jobs_kept_preorder : PreOrder jobs_kept.
Proof.
  split; [intros tab k j; eauto|]. intros a b c Hab Hbc k j Hj.
  destruct (Hab _ _ Hj) as (j1 & H1 & E1), (Hbc _ _ H1) as (j2 & H2 & E2). exists j2. split; [done|congruence].
Qed.

Lemma jobs_kept_subseteq tab tab' : tab ⊆ tab' → jobs_kept tab tab'.
Proof. intros H k j Hj. exists j. split; [by eapply lookup_weaken|done]. Qed.

Lemma jobs_kept_update_where p f tab : (∀ j, identity (f j) = identity j) → jobs_kept tab (update_where p f tab).1.
Proof.
  intros Hf k j Hj. rewrite lookup_update_where, Hj. simpl. eexists; split; [done|]. by destruct (p j).
Qed.

Lemma jobs_kept_update_key id p f tab : (∀ j, identity (f j) = identity j) → jobs_kept tab (update_key id p f tab).1.
Proof.
  intros Hf k j Hj. rewrite lookup_update_key, Hj. case_decide; simpl; eexists; (split; [done|]); [|done].
  by destruct (p j).
Qed.

Lemma jobs_kept_by_id id f tab : (∀ j, identity (f j) = identity j) → jobs_kept tab (by_id id f tab).
Proof. apply jobs_kept_update_key. Qed.

Lemma jobs_kept_guarded job f tab : (∀ j, identity (f j) = identity j) → jobs_kept tab (guarded job f tab).2.
Proof.
  intros Hf. unfold guarded. pose proof (jobs_kept_update_key (ID job) (current_attempt job) f tab Hf).
  by destruct (update_key _ _ _ _).
Qed.

Lemma jobs_kept_guarded_or job f msg tab : (∀ j, identity (f j) = identity j) → jobs_kept tab (guarded_or job f msg tab).2.
Proof. intros Hf. unfold guarded_or. pose proof (jobs_kept_guarded job f tab Hf). by destruct (guarded job f tab). Qed.

Lemma jobs_kept_insert tab j : jobs_kept tab (insert_job tab j).2.
Proof.
  apply jobs_kept_subseteq. unfold insert_job. destruct (unique_ok tab j) eqn:Hu; [|done]. unfold unique_ok in Hu.
  bool_to_prop. apply insert_subseteq. by destruct (tab !! ID j).
Qed.

#[export] Hint Resolve jobs_kept_update_where jobs_kept_update_key jobs_kept_by_id jobs_kept_guarded
  jobs_kept_guarded_or jobs_kept_insert : acs.

Lemma jobs_kept_lease_with st d p locked owner now tab : jobs_kept tab (lease_with st d p locked owner now tab).2.
Proof. unfold lease_with. destruct (pick p locked tab); [|done]. by apply jobs_kept_by_id. Qed.

Lemma jobs_kept_recover now tab : jobs_kept tab (RecoverExpiredLeases now tab).1.
Proof.
  rewrite RecoverExpiredLeases_fst. repeat (etrans; [|by apply jobs_kept_update_where]). done.
Qed.

Lemma job_step_kept hash tab tab' : job_step hash tab tab' → jobs_kept tab tab'.
Proof.
  intros Hstep. destruct Hstep; eauto using jobs_kept_lease_with, jobs_kept_recover with acs;
    try (by apply jobs_kept_by_id); try (by apply jobs_kept_guarded_or); try (by apply jobs_kept_update_where);
    try (by apply jobs_kept_update_key); try (by apply jobs_kept_guarded).
  - unfold CreateWithMaxAttempts. destruct (checkProtectedWrite al t p); auto with acs; done.
  - unfold CreateWithIdempotency, Create, CreateWithMaxAttempts. destruct (String.eqb _ _), (checkProtectedWrite al t p);
      auto with acs; try done. destruct (findByIdempotency tab dev t key) as [e|]; [|auto with acs].
    destruct (RequestHash e) as [h|]; [|done]. by destruct (String.eqb h (hash p)).
  - unfold QueueDiscoveryIfNeeded. destruct (existsb _ _); [done|]. set (j := new_job _ _ _ _ _ _ _ _ _).
    pose proof (jobs_kept_insert tab j). by destruct (insert_job tab j) as [[] ?].
  - unfold queue_firmware_discovery. destruct (existsb _ _); [done|]. set (j := firmware_discovery_job _ _ _ _ _ _ _).
    pose proof (jobs_kept_insert tab j). by destruct (insert_job tab j) as [[] ?].
  - unfold usp_lease_or_requeue, LeaseForUSPTypes, leaseForTypes.
    pose proof (jobs_kept_lease_with StatusRPCSent sessionLease (leasable dev uspDispatchableTypes true) locked owner now tab) as Hl.
    destruct (lease_with _ _ _ _ _ _ _) as [[j|] tab1]; [|done]. simpl in *. destruct (usp_unsupported j); [|done].
    etrans; [exact Hl|]. by apply jobs_kept_by_id.
  - unfold BindFirmware. case_match; [done|]. destruct (bind_payload fw caps job) as [[next|]|]; try done.
    assert (jobs_kept tab (guarded job (set_payload next) tab).2) by (by apply jobs_kept_guarded).
    by destruct (guarded job (set_payload next) tab) as [[] ?].
  - apply jobs_kept_guarded. intros j. by destruct (ClassifyDroppedSessionJob job mk dc).
Qed.

(** ** Members of a rollout *)

Lemma elem_of_members t id dev rd : (dev, rd) ∈ members t id ↔ rs_devices t !! (id, dev) = Some rd.
Proof.
  unfold members. rewrite list_elem_of_fmap. split.
  - intros ([[i d] r] & [= -> ->] & H). apply filter_elem in H as [H Hi]. simpl in Hi. apply String.eqb_eq in Hi as ->.
    by apply elem_of_map_to_list.
  - intros H. exists ((id, dev), rd). split; [done|]. apply filter_elem. split; [by apply elem_of_map_to_list|].
    simpl. apply String.eqb_refl.
Qed.

Lemma NoDup_fmap_filter {A B} (f : A → B) (p : A → bool) (l : list A) : NoDup (f <$> l) → NoDup (f <$> List.filter p l).
Proof.
  induction l as [|a l IH]; [done|]. rewrite fmap_cons. intros [Hn H]%NoDup_cons. simpl.
  destruct (p a); [|auto]. rewrite fmap_cons. apply NoDup_cons. split; [|auto].
  rewrite list_elem_of_fmap in *. intros (x & Ex & [Hx _]%filter_elem). apply Hn. eauto.
Qed.

Lemma NoDup_members t id : NoDup (fst <$> members t id).
Proof.
  unfold members. rewrite <- list_fmap_compose.
  assert (∀ l : list (string * string * RolloutDevice), NoDup (fst <$> l) →
    NoDup ((λ kv, kv.1.2) <$> List.filter (λ kv, String.eqb kv.1.1 id) l)) as H; [|apply H, NoDup_fst_map_to_list].
  induction l as [|[[i d] r] l IH]; [intros _; constructor|]. rewrite fmap_cons. intros [Hn Hl]%NoDup_cons. simpl.
  destruct (String.eqb_spec i id) as [->|]; [|auto]. rewrite fmap_cons. apply NoDup_cons. split; [|auto].
  rewrite list_elem_of_fmap. intros ([[i' d'] r'] & Hd & Hin). simpl in Hd. subst d'.
  apply filter_elem in Hin as [Hin Hi]. simpl in Hi. apply String.eqb_eq in Hi as ->.
  apply Hn, list_elem_of_fmap. by exists ((id, d), r').
Qed.

Lemma elem_of_eligible_ids t id dev :
  dev ∈ eligible_ids t id ↔ ∃ rd, rs_devices t !! (id, dev) = Some rd ∧ rd_JobID rd = None.
Proof.
  unfold eligible_ids. rewrite list_elem_of_fmap. split.
  - intros ([d rd] & -> & [H%elem_of_members Hu]%filter_elem). exists rd. split; [done|]. unfold undispatched in Hu.
    simpl in Hu. by destruct (rd_JobID rd).
  - intros (rd & H & Hj). exists (dev, rd). split; [done|]. apply filter_elem. rewrite elem_of_members. split; [done|].
    unfold undispatched. simpl. by rewrite Hj.
Qed.

Lemma elem_of_successful_ids jobs t id dev :
  dev ∈ successful_ids jobs t id ↔
  ∃ rd j, rs_devices t !! (id, dev) = Some rd ∧ (rd_JobID rd ≫= λ k, jobs !! k) = Some j ∧ Status j = StatusSuccess.
Proof.
  unfold successful_ids. rewrite list_elem_of_fmap. unfold job_has_status, job_status. split.
  - intros ([d rd] & -> & [H%elem_of_members Hu]%filter_elem). simpl in Hu.
    destruct (rd_JobID rd ≫= λ k, jobs !! k) as [j|] eqn:E; [|done]. simpl in Hu. exists rd, j. split_and!; try done.
    unfold status_eqb in Hu. rewrite orb_false_r in Hu. by bool_to_prop.
  - intros (rd & j & H & E & Hs). exists (dev, rd). split; [done|]. apply filter_elem. rewrite elem_of_members.
    split; [done|]. simpl. rewrite E. simpl. rewrite Hs. by unfold status_eqb.
Qed.

Lemma NoDup_eligible_ids t id : NoDup (eligible_ids t id).
Proof. apply NoDup_fmap_filter, NoDup_members. Qed.

(** ** Queueing downloads *)

(** A job just queued: a firmware download for the device, of the image. *)
Record download_job (images : gmap string Image) (imageID dev : string) (j : Job) : Prop := mk_download_job {
  dj_device : DeviceID j = dev;
  dj_type : Type_ j = TypeFirmwareDownload;
  dj_status : Status j = StatusQueued;
  dj_image : ∃ img rest, images !! imageID = Some img ∧
    Payload j = Json.JObj (("firmware_image_id", Json.JStr (img_ID img)) :: rest)
}.

(** ** The other requests

    The statements that touch the two tables and belong to no call for the
    rollout [id]: those of the job repository, the creation of rollouts, and the
    UPDATEs of the calls for other rollouts. *)

Inductive other_statement (hash : Json.json → string) (id : string) : Shared → Shared → Prop :=
| other_job t jobs jobs' : job_step hash jobs jobs' → other_statement hash id (t, jobs) (t, jobs')
| other_create pg_time scope uuid operator body images customers params devices t jobs :
    other_statement hash id (t, jobs)
      ((createRollout pg_time scope uuid operator body images customers params devices t).2, jobs)
| other_status i st t jobs : i ≠ id → other_statement hash id (t, jobs) (SetStatus i st t, jobs)
| other_rollback now i t jobs : i ≠ id → other_statement hash id (t, jobs) (SetRollbackDispatched now i t, jobs)
| other_marked now i dev k t jobs : i ≠ id → other_statement hash id (t, jobs) (MarkDispatched now i dev k t, jobs).

(** The rows a new rollout gets. *)
Definition new_rows (uuid : string) (l : list Device) : gmap (string * string) RolloutDevice :=
  list_to_map ((λ d, ((uuid, d_ID (d_identity d)), mkRolloutDevice None None)) <$> l).

Lemma lookup_new_rows uuid l i d rd :
  new_rows uuid l !! (i, d) = Some rd ↔
  i = uuid ∧ rd = mkRolloutDevice None None ∧ ∃ dv, dv ∈ l ∧ d_ID (d_identity dv) = d.
Proof.
  unfold new_rows. induction l as [|a l IH]; simpl.
  { rewrite lookup_empty. split; [done|]. intros (_ & _ & dv & []%not_elem_of_nil & _). }
  destruct (decide ((uuid, d_ID (d_identity a)) = (i, d))) as [[= -> <-]|Hne].
  - rewrite lookup_insert_eq. split.
    + intros [= <-]. split_and!; [done..|]. exists a. split; [by apply list_elem_of_here|done].
    + intros (_ & -> & _). done.
  - rewrite lookup_insert_ne by done. rewrite IH. split.
    + intros (-> & -> & dv & Hin & Hd). split_and!; [done..|]. exists dv. split; [by apply list_elem_of_further|done].
    + intros (-> & -> & dv & [->|Hin]%elem_of_cons & Hd); [by destruct Hne; subst|]. eauto 6.
Qed.

Lemma createRollout_cases pg_time scope uuid operator body images customers params devices t :
  (∃ code msg, createRollout pg_time scope uuid operator body images customers params devices t = (RolloutRefused code msg, t)) ∨
  ∃ r l, createRollout pg_time scope uuid operator body images customers params devices t =
           (RolloutCreated r (Z.of_nat (length (eligible_ids (mkRollouts (<[uuid := r]> (rs_rollouts t))
                (new_rows uuid l ∪ rs_devices t)) uuid))),
            mkRollouts (<[uuid := r]> (rs_rollouts t)) (new_rows uuid l ∪ rs_devices t)) ∧
    rs_rollouts t !! uuid = None ∧ ro_ID r = uuid ∧ ro_RollbackDispatchedAt r = None ∧
    l = List.filter (λ d, default false (eligible_device (ro_ModelFilter r) (ro_CurrentVersionFilter r) (ro_CustomerID r) params d))
          (rows devices) ∧
    1 <= ro_CanaryPercentage r <= 100 ∧
    ∃ ids scoped, scope = Ok (ids, scoped) ∧ (scoped = true → deviceInScope (ro_CustomerID r) ids = true).
Proof.
  unfold createRollout. destruct body as [req|]; [|by left; eexists _, _].
  destruct (String.eqb (crr_Name req) "" || String.eqb (crr_FirmwareImageID req) ""); [by left; eexists _, _|].
  destruct scope as [[ids scoped]|]; [|by left; eexists _, _].
  destruct (scoped && negb (deviceInScope (crr_CustomerID req) ids)) eqn:Es; [by left; eexists _, _|].
  unfold Rollout_Create.
  match goal with |- context [if ?b then (Err _, _) else _] => destruct b eqn:E end; [by left; eexists _, _|].
  destruct (select_rows _ _) as [l|e] eqn:El; [|by left; eexists _, _]. right. apply select_rows_ok in El as ->.
  repeat (apply orb_false_iff in E as [E ?]). bool_to_prop. eexists _, _. split; [reflexivity|]. simpl.
  split_and!; try done; [by destruct (rs_rollouts t !! uuid)|]. exists ids, scoped. split; [done|].
  intros ->. destruct Es as [|Es]; [done|]. by apply negb_false_iff in Es.
Qed.

(** What the others leave of an existing rollout: all of it. *)
Record spared (id : string) (s s' : Shared) : Prop := mk_spared {
  sp_jobs : jobs_kept s.2 s'.2;
  sp_rollout : ∀ r, rs_rollouts s.1 !! id = Some r → rs_rollouts s'.1 !! id = Some r;
  sp_devices : is_Some (rs_rollouts s.1 !! id) → ∀ d, rs_devices s'.1 !! (id, d) = rs_devices s.1 !! (id, d)
}.

#[global] Instance spared_preorder id : PreOrder (spared id).
Proof.
  split; [done|]. intros a b c [A1 A2 A3] [B1 B2 B3]. split; [by etrans|auto|].
  intros Hi d. rewrite B3; [auto|]. destruct Hi as [r Hr]. eauto.
Qed.

Lemma new_rows_other (uuid : string) (l : list Device) (m : gmap (string * string) RolloutDevice) (i d : string) :
  i ≠ uuid → (new_rows uuid l ∪ m) !! (i, d) = m !! (i, d).
Proof. intros Hne. apply lookup_union_r, eq_None_not_Some. intros [rd (? & _)%lookup_new_rows]. done. Qed.

Lemma other_spared hash id s s' : other_statement hash id s s' → spared id s s'.
Proof.
  intros Hs. destruct Hs as [t jobs jobs' Hj|pg_time scope uuid operator body images customers params devices t jobs
    |i st t jobs Hi|now i t jobs Hi|now i dev k t jobs Hi]; split; simpl; try done.
  - by eapply job_step_kept.
  - destruct (createRollout_cases pg_time scope uuid operator body images customers params devices t)
      as [(code & msg & ->)|(r & l & -> & Hu & _)]; [done|]. simpl. intros r' Hr'. rewrite lookup_insert_ne; congruence.
  - destruct (createRollout_cases pg_time scope uuid operator body images customers params devices t)
      as [(code & msg & ->)|(r & l & -> & Hu & _)]; [done|]. simpl. intros [r' Hr'] d. apply new_rows_other. congruence.
  - intros r Hr. by rewrite lookup_alter_ne.
  - intros r Hr. by rewrite lookup_alter_ne.
  - intros _ d. by rewrite lookup_alter_ne by congruence.
Qed.

Lemma others_spared hash id s s' : rtc (other_statement hash id) s s' → spared id s s'.
Proof. induction 1 as [|s s1 s' H _ IH]; [done|]. etrans; [by eapply other_spared|done]. Qed.

(** ** A wave and a rollback *)

(** The conditions every effect of a call has met. *)
Definition dispatch_admitted (now : GoTime) (scope : result (list string * bool)) (start : bool) (r : RolloutRow) : Prop :=
  (∃ ids scoped, scope = Ok (ids, scoped) ∧ (scoped = true → deviceInScope (ro_CustomerID r) ids = true)) ∧
  ro_Status r = (if start then StatusDraft else StatusActive) ∧
  InMaintenanceWindow now (ro_WindowStartUTC r) (ro_WindowEndUTC r) = true.

Definition over_the_rate (s : Shared) (r : RolloutRow) (id : string) : bool :=
  (0 <? (FailureRate s.2 s.1 id).2) && float_gt (FailureRate s.2 s.1 id).1 (ro_MaximumFailureRate r).

Lemma scopedRollout_inr scope t id r :
  scopedRollout scope t id = inr r →
  rs_rollouts t !! id = Some r ∧
  ∃ ids scoped, scope = Ok (ids, scoped) ∧ (scoped = true → deviceInScope (ro_CustomerID r) ids = true).
Proof.
  unfold scopedRollout, Rollout_ByID. destruct (rs_rollouts t !! id) as [r'|]; [|done].
  destruct scope as [[ids scoped]|]; [|done]. destruct scoped; simpl; [|intros [= ->]; split; [done|by eexists _, _]].
  destruct (deviceInScope (ro_CustomerID r') ids) eqn:E; simpl; [|done]. intros [= ->]. split; [done|by eexists _, _].
Qed.

Lemma scopedRollout_inl scope t id reply :
  scopedRollout scope t id = inl reply → ∃ code msg, reply = RolloutRefused code msg ∧ (code, msg) ≠ (409, ErrFailureRateExceeded).
Proof.
  assert (∀ code msg, code ≠ 409 → inl (RolloutRefused code msg) = inl reply (B := RolloutRow) →
    ∃ code msg, reply = RolloutRefused code msg ∧ (code, msg) ≠ (409, ErrFailureRateExceeded)) as H.
  { intros code msg Hc [= <-]. exists code, msg. split; [done|congruence]. }
  unfold scopedRollout. destruct (Rollout_ByID t id); [|by apply H]. destruct scope as [[ids scoped]|]; [|by apply H].
  destruct (scoped && _); [by apply H|done].
Qed.

Lemma wave_size_pos total canary : 1 <= wave_size total canary.
Proof. unfold wave_size. destruct (Z.ltb_spec (Z.quot (wrap64 (total * canary)) 100) 1); lia. Qed.

(** What no statement changes of a rollout. *)
Definition same_plan (r r' : RolloutRow) : Prop :=
  ro_ID r' = ro_ID r ∧ ro_FirmwareImageID r' = ro_FirmwareImageID r ∧
  ro_RollbackFirmwareImageID r' = ro_RollbackFirmwareImageID r ∧ ro_CustomerID r' = ro_CustomerID r.

(** A log entry: the job is a download of the image for the device, and the
    job table has it. *)
Definition logged (images : gmap string Image) (imageID : string) (jobs : gmap string Job) (e : string * Job) : Prop :=
  download_job images imageID e.1 e.2 ∧ ∃ j, jobs !! ID e.2 = Some j ∧ identity j = identity e.2.

Lemma logged_kept images imageID jobs jobs' e : jobs_kept jobs jobs' → logged images imageID jobs e → logged images imageID jobs' e.
Proof.
  intros Hk [Hd (j & Hj & Ej)]. split; [done|]. destruct (Hk _ _ Hj) as (j' & Hj' & E'). exists j'. split; [done|congruence].
Qed.

Section Wave.
Context (hmac : string → string → string) (order : list string → list string).
Context (firmwareBase transferKey : string) (images : gmap string Image) (devices : gmap string Device).
Context (now : GoTime) (operator : string) (rest : nat → Shared → Shared) (lost : nat → bool) (id : string).
Context (rest_spares : ∀ n s, spared id s (rest n s)) (no_loss : ∀ n, lost n = false) (order_ok : ∀ l, order l ≡ₚ l).

Abbreviation queue := (queueFirmwareDownload hmac firmwareBase transferKey images devices).
Abbreviation queue_one := (queue_download hmac firmwareBase transferKey images devices now operator rest).

Lemma queue_cases fr dev imageID jobs :
  (∃ e, queue fr now dev imageID 0 operator jobs = (Err e, jobs)) ∨
  (∃ j, queue fr now dev imageID 0 operator jobs = (Ok j, <[ID j := j]> jobs) ∧
     jobs !! ID j = None ∧ download_job images imageID dev j).
Proof.
  unfold queueFirmwareDownload. destruct (devices !! dev) as [d|]; [|by left; eexists].
  destruct (firmwareProfileAllowsDownload d); simpl; [|by left; eexists].
  destruct (images !! imageID) as [img|] eqn:Ei; [|by left; eexists].
  unfold Create, CreateWithMaxAttempts, insert_job. set (j := new_job _ _ _ _ _ _ _ _ _). simpl.
  destruct (unique_ok jobs j) eqn:Hu; [|by left; eexists]. right. exists j. split; [done|].
  unfold unique_ok in Hu. bool_to_prop. split; [by destruct (jobs !! ID j)|]. split; try done. simpl. eauto.
Qed.

Lemma queue_one_cases fresh n dev imageID s :
  (∃ e s', queue_one fresh n dev imageID s = (Err e, s') ∧ spared id s s') ∨
  (∃ j s', queue_one fresh n dev imageID s = (Ok j, s') ∧ spared id s s' ∧ logged images imageID s'.2 (dev, j)).
Proof.
  unfold queue_download. pose proof (rest_spares n s) as Hs. destruct (rest n s) as [t jobs]. simpl.
  destruct (queue_cases (fresh dev) dev imageID jobs) as [(e & ->)|(j & -> & Hn & Hd)]; [left; eauto|].
  right. exists j, (t, <[ID j := j]> jobs). split_and!; [done| |].
  - etrans; [exact Hs|]. split; [|done|done]. by apply jobs_kept_subseteq, insert_subseteq.
  - split; [done|]. simpl. rewrite lookup_insert_eq. eauto.
Qed.

(** A wave: every job queued is a download for a device of the batch and is in
    its row; the rows of the devices without one are as they were. *)
Record wave_effect (imageID : string) (batch : list string) (s s' : Shared) (queued : list (string * Job)) : Prop := mk_wave_effect {
  we_jobs : jobs_kept s.2 s'.2;
  we_rollout : ∀ r, rs_rollouts s.1 !! id = Some r → rs_rollouts s'.1 !! id = Some r;
  we_batch : fst <$> queued ⊆ batch;
  we_once : NoDup (fst <$> queued);
  we_logged : ∀ e, e ∈ queued → logged images imageID s'.2 e;
  we_linked : ∀ d j, (d, j) ∈ queued → rs_devices s'.1 !! (id, d) = Some (mkRolloutDevice (Some (ID j)) (Some now));
  we_others : ∀ d, d ∉ fst <$> queued → rs_devices s'.1 !! (id, d) = rs_devices s.1 !! (id, d)
}.

Lemma update_mark n dev k s :
  is_Some (rs_rollouts s.1 !! id) → is_Some (rs_devices s.1 !! (id, dev)) →
  let s' := update rest lost n (MarkDispatched now id dev k) s in
  jobs_kept s.2 s'.2 ∧ (∀ r, rs_rollouts s.1 !! id = Some r → rs_rollouts s'.1 !! id = Some r) ∧
  rs_devices s'.1 !! (id, dev) = Some (mkRolloutDevice (Some k) (Some now)) ∧
  ∀ d, d ≠ dev → rs_devices s'.1 !! (id, d) = rs_devices s.1 !! (id, d).
Proof.
  intros Hr [rd Hd]. destruct (rest_spares n s) as [S1 S2 S3]. unfold update. rewrite no_loss. simpl. split_and!; [done..| |].
  - rewrite lookup_alter_eq, S3, Hd by done. done.
  - intros d Hne. rewrite lookup_alter_ne by congruence. by apply S3.
Qed.

Lemma dispatch_devices_effect fresh imageID n batch s queued m s' :
  is_Some (rs_rollouts s.1 !! id) → NoDup batch → (∀ dev, dev ∈ batch → is_Some (rs_devices s.1 !! (id, dev))) →
  dispatch_devices hmac firmwareBase transferKey images devices now operator rest lost fresh id imageID n batch s = (queued, m, s') →
  wave_effect imageID batch s s' queued ∧ m = Z.of_nat (length queued).
Proof.
  revert n s queued m s'. induction batch as [|dev devs IH]; intros n s queued m s' Hr Hnd Hrows.
  { intros [= <- <- <-]. split; [|done]. split; simpl; try done; [by intros ? ?%not_elem_of_nil|by intros ? ? ?%not_elem_of_nil]. }
  apply NoDup_cons in Hnd as [Hdev Hnd]. cbn [dispatch_devices].
  assert (∀ s1, spared id s s1 → is_Some (rs_rollouts s1.1 !! id) ∧ ∀ d, d ∈ dev :: devs → is_Some (rs_devices s1.1 !! (id, d))) as Hsp.
  { intros s1 [S1 S2 S3]. split; [destruct Hr; eauto|]. intros d Hd. rewrite S3 by done. auto. }
  destruct (queue_one_cases fresh n dev imageID s) as [(e & s1 & -> & Hs1)|(j & s1 & -> & Hs1 & Hlog)];
    destruct (Hsp s1 Hs1) as [Hr1 Hrow1]; destruct Hs1 as [S1 S2 S3].
  - intros E. apply IH in E as [[W1 W2 W3 W4 W5 W6 W7] Hm]; [|done|done|intros; apply Hrow1; by apply list_elem_of_further].
    split; [|done]. split; try done; [by etrans|auto|set_solver|]. intros d Hd. rewrite W7, S3; done.
  - destruct (update_mark (1 + n) dev (ID j) s1 Hr1 (Hrow1 dev (list_elem_of_here _ _))) as (U1 & U2 & U3 & U4).
    set (s2 := update _ _ _ _ _) in *.
    destruct (dispatch_devices _ _ _ _ _ _ _ _ _ _ _ _ _ devs s2) as [[q m'] s3] eqn:E. intros [= <- <- <-].
    apply IH in E as [[W1 W2 W3 W4 W5 W6 W7] ->]; [|destruct Hr1; eauto|done|].
    2: { intros d Hd. rewrite U4 by congruence. apply Hrow1. by apply list_elem_of_further. }
    assert (dev ∉ fst <$> q) as Hq by set_solver.
    split; [|rewrite no_loss; simpl; lia]. split; simpl.
    + etrans; [exact S1|]. by etrans.
    + auto.
    + set_solver.
    + by apply NoDup_cons.
    + intros e [->|He]%elem_of_cons; [|auto]. eapply logged_kept; [|exact Hlog]. by etrans.
    + intros d j' [[= -> ->]|He]%elem_of_cons; [|auto]. rewrite W7 by done. done.
    + intros d [Hd1 Hd2]%not_elem_of_cons. rewrite W7, U4, S3; done.
Qed.

(** A rollback: every job queued is a download for one of the targets. *)
Lemma rollback_devices_effect fresh imageID n targets s queued s' :
  NoDup targets →
  rollback_devices hmac firmwareBase transferKey images devices now operator rest fresh imageID n targets s = (queued, s') →
  spared id s s' ∧ fst <$> queued ⊆ targets ∧ NoDup (fst <$> queued) ∧ ∀ e, e ∈ queued → logged images imageID s'.2 e.
Proof.
  revert n s queued s'. induction targets as [|dev devs IH]; intros n s queued s' Hnd.
  { intros [= <- <-]. split_and!; [done..|constructor|by intros ? ?%not_elem_of_nil]. }
  apply NoDup_cons in Hnd as [Hdev Hnd]. cbn [rollback_devices].
  destruct (queue_one_cases fresh n dev imageID s) as [(e & s1 & -> & Hs1)|(j & s1 & -> & Hs1 & Hlog)];
    destruct (rollback_devices _ _ _ _ _ _ _ _ _ _ _ devs s1) as [q s2] eqn:E; intros [= <- <-];
    apply IH in E as (H1 & H2 & H3 & H4); try done.
  - split_and!; [by etrans|set_solver|done..].
  - split_and!; [by etrans|set_solver|apply NoDup_cons; split; [set_solver|done]|].
    intros e [->|He]%elem_of_cons; [|auto]. eapply logged_kept; [|exact Hlog]. apply H1.
Qed.

Lemma NoDup_successful_ids jobs t : NoDup (successful_ids jobs t id).
Proof. apply NoDup_fmap_filter, NoDup_members. Qed.

(** The tables when a rollback chooses its targets. *)
Definition at_rollback (s : Shared) : Shared := rest 2 (update rest lost 1 (SetStatus id StatusBlocked) s).

(** What a blocked call leaves: the rollout's row but for the status and the
    stamp, its devices' rows, the jobs; and the downloads it queued. *)
Record blocked_effect (r : RolloutRow) (s s' : Shared) (queued : list (string * Job)) : Prop := mk_blocked_effect {
  be_jobs : jobs_kept s.2 s'.2;
  be_rollout : ∃ r', rs_rollouts s'.1 !! id = Some r' ∧ same_plan r r' ∧ ro_Status r' = StatusBlocked;
  be_devices : ∀ d, rs_devices s'.1 !! (id, d) = rs_devices s.1 !! (id, d);
  be_once : NoDup (fst <$> queued);
  be_queued : ∀ e, e ∈ queued → ∃ imageID, ro_RollbackFirmwareImageID r = Some imageID ∧ ro_RollbackDispatchedAt r = None ∧
    e.1 ∈ successful_ids (at_rollback s).2 (at_rollback s).1 id ∧ logged images imageID s'.2 e
}.

Lemma dispatchRollback_effect fresh r s queued s' :
  ro_ID r = id → rs_rollouts s.1 !! id = Some r →
  dispatchRollback hmac order firmwareBase transferKey images devices now operator rest lost fresh 2 r
    (update rest lost 1 (SetStatus id StatusBlocked) s) = (queued, s') →
  blocked_effect r s s' queued.
Proof.
  intros Hid Hr. pose proof (rest_spares 1 s) as [S1 S2 S3]. set (s1 := update _ _ _ _ _).
  assert (rs_rollouts s1.1 !! id = Some (set_ro_status StatusBlocked r)) as Hr1.
  { unfold s1, update. rewrite no_loss. simpl. rewrite lookup_alter_eq, (S2 r Hr). done. }
  assert (jobs_kept s.2 s1.2) as J1 by (unfold s1, update; by rewrite no_loss).
  assert (∀ d, rs_devices s1.1 !! (id, d) = rs_devices s.1 !! (id, d)) as D1.
  { intros d. unfold s1, update. rewrite no_loss. simpl. apply S3. eauto. }
  unfold dispatchRollback.
  destruct (ro_RollbackFirmwareImageID r) as [imageID|] eqn:Ei;
    [destruct (ro_RollbackDispatchedAt r) eqn:Ea|]; intros E.
  1, 3: injection E as <- <-; split; [done|by eexists|done|constructor|by intros ? ?%not_elem_of_nil].
  cbv zeta in E. change (rest 2 s1) with (at_rollback s) in E. rewrite Hid in E. assert (spared id s1 (at_rollback s)) as Ht by apply rest_spares.
  destruct (rollback_devices _ _ _ _ _ _ _ _ _ _ _ _ _) as [q s2] eqn:Er. injection E as <- <-.
  apply rollback_devices_effect in Er as (R1 & R2 & R3 & R4).
  2: { rewrite order_ok. apply NoDup_successful_ids. }
  match goal with |- context [update rest lost ?n _ s2] => generalize n; intros k end.
  assert (spared id s1 (rest k s2)) as [T1 T2 T3].
  { etrans; [exact Ht|]. etrans; [exact R1|]. apply rest_spares. }
  unfold update. rewrite no_loss. split; simpl.
  - etrans; [exact J1|exact T1].
  - rewrite lookup_alter_eq, (T2 _ Hr1). by eexists.
  - intros d. rewrite T3; [done|eauto].
  - done.
  - intros e He. exists imageID. split_and!; [done..| |].
    + rewrite <- order_ok. apply R2, list_elem_of_fmap. eauto.
    + eapply logged_kept; [|by apply R4]. apply rest_spares.
Qed.

(** *** The outcomes of a call *)

(** The devices of a wave, chosen in [s1]; the pool is counted in [s2]. *)
Definition batch_of (s1 s2 : Shared) (r : RolloutRow) (batch : list string) : Prop :=
  NoDup batch ∧ batch ≠ [] ∧ batch ⊆ eligible_ids s1.1 id ∧
  Z.of_nat (length batch) =
    Z.min (wave_size (TotalDevices s2.1 id) (ro_CanaryPercentage r)) (Z.of_nat (length (eligible_ids s1.1 id))).

Lemma batch_of_take s1 s2 r :
  order (eligible_ids s1.1 id) ≠ [] →
  let eligible := order (eligible_ids s1.1 id) in
  let size := wave_size (TotalDevices s2.1 id) (ro_CanaryPercentage r) in
  batch_of s1 s2 r (if size <? Z.of_nat (length eligible) then take (Z.to_nat size) eligible else eligible).
Proof.
  intros He. pose proof (order_ok (eligible_ids s1.1 id)) as Hp. pose proof (Permutation_length Hp) as Hl.
  pose proof (wave_size_pos (TotalDevices s2.1 id) (ro_CanaryPercentage r)) as Hw. cbv zeta.
  assert (NoDup (order (eligible_ids s1.1 id))) as Hnd by (rewrite Hp; apply NoDup_eligible_ids).
  destruct (Z.ltb_spec (wave_size (TotalDevices s2.1 id) (ro_CanaryPercentage r)) (Z.of_nat (length (order (eligible_ids s1.1 id)))))
    as [Hlt|Hge]; split_and!.
  - eapply sublist_NoDup; [exact Hnd|apply sublist_take].
  - destruct (order (eligible_ids s1.1 id)); [done|]. destruct (Z.to_nat _) eqn:E; [lia|done].
  - intros d Hd. rewrite <- Hp. by eapply elem_of_take in Hd as (? & Hd%list_elem_of_lookup_2 & _).
  - rewrite length_take. lia.
  - done.
  - done.
  - intros d Hd. by rewrite <- Hp.
  - lia.
Qed.

Definition status_after (start final : bool) : RolloutStatus :=
  if start then StatusActive else if final then StatusCompleted else StatusActive.

(** The tables when the failure rate is read, when the devices are chosen and
    when the pool is counted. *)
Definition at_rate (start : bool) (s : Shared) : Shared := if start then s else rest 0 s.
Definition at_choice (start : bool) (s : Shared) : Shared := rest 1 (at_rate start s).
Definition at_count (start : bool) (s : Shared) : Shared := rest 2 (at_choice start s).

Inductive dispatch_outcome (fresh : string → Fresh) (scope : result (list string * bool)) (start : bool) (s : Shared)
  : RolloutReply → list (string * Job) → Shared → Prop :=
| out_refused code msg s' :
    (code, msg) ≠ (409, ErrFailureRateExceeded) → s' = s ∨ is_Some (rs_rollouts s.1 !! id) ∧ spared id s s' →
    dispatch_outcome fresh scope start s (RolloutRefused code msg) [] s'
| out_blocked r queued s' :
    rs_rollouts s.1 !! id = Some r → dispatch_admitted now scope start r → start = false →
    over_the_rate (at_rate start s) r id = true →
    dispatchRollback hmac order firmwareBase transferKey images devices now operator rest lost fresh 2 r
      (update rest lost 1 (SetStatus id StatusBlocked) (at_rate start s)) = (queued, s') →
    dispatch_outcome fresh scope start s (RolloutRefused 409 ErrFailureRateExceeded) queued s'
| out_completed r :
    rs_rollouts s.1 !! id = Some r → dispatch_admitted now scope start r → start = false →
    dispatch_outcome fresh scope start s RolloutCompleted [] (update rest lost 2 (SetStatus id StatusCompleted) (at_choice start s))
| out_wave r batch queued s3 :
    rs_rollouts s.1 !! id = Some r → dispatch_admitted now scope start r →
    (start = true ∨ over_the_rate (at_rate start s) r id = false) →
    batch_of (at_choice start s) (at_count start s) r batch →
    dispatch_devices hmac firmwareBase transferKey images devices now operator rest lost fresh id (ro_FirmwareImageID r) 3 batch
      (at_count start s) = (queued, Z.of_nat (length queued), s3) →
    wave_effect (ro_FirmwareImageID r) batch (at_count start s) s3 queued →
    let final := Nat.eqb (length batch) (length (eligible_ids (at_choice start s).1 id)) in
    let st := status_after start final in
    dispatch_outcome fresh scope start s
      (WaveDispatched (Z.of_nat (length queued)) (Z.of_nat (length batch)) st final) queued
      (if start || final then update rest lost (3 + 2 * length batch)%nat (SetStatus id st) s3 else s3).

Lemma spared_at start s : spared id s (at_rate start s) ∧ spared id s (at_choice start s) ∧ spared id s (at_count start s).
Proof.
  assert (spared id s (at_rate start s)) as H by (unfold at_rate; by destruct start).
  assert (spared id s (at_choice start s)) as H1 by (etrans; [exact H|apply rest_spares]).
  split_and!; [done..|]. etrans; [exact H1|apply rest_spares].
Qed.

(** Every call has one of the four outcomes. *)
Lemma dispatch_has_outcome fresh scope start s :
  let '(reply, queued, s') := dispatchRolloutBatch hmac order firmwareBase transferKey images devices now operator rest lost
                               fresh scope start id s in
  dispatch_outcome fresh scope start s reply queued s'.
Proof.
  destruct (spared_at start s) as (P0 & P1 & P2).
  unfold dispatchRolloutBatch. destruct (scopedRollout scope s.1 id) as [reply|r] eqn:Er.
  { apply scopedRollout_inl in Er as (code & msg & -> & ?). apply out_refused; [done|eauto]. }
  apply scopedRollout_inr in Er as [Hr Hscope].
  destruct (start && negb (rstatus_eqb (ro_Status r) StatusDraft)) eqn:E1; [apply out_refused; [done|eauto]|].
  destruct (negb start && negb (rstatus_eqb (ro_Status r) StatusActive)) eqn:E2; [apply out_refused; [done|eauto]|].
  destruct (InMaintenanceWindow now (ro_WindowStartUTC r) (ro_WindowEndUTC r)) eqn:Hw; simpl; [|apply out_refused; [done|eauto]].
  assert (dispatch_admitted now scope start r) as Ha.
  { split_and!; [done| |done]. unfold rstatus_eqb in *. destruct start; simpl in *; bool_to_prop; done. }
  fold (at_rate start s). destruct (FailureRate (at_rate start s).2 (at_rate start s).1 id) as [rate terminal] eqn:Ef.
  destruct (negb start && (0 <? terminal) && float_gt rate (ro_MaximumFailureRate r)) eqn:Eg.
  { destruct (dispatchRollback _ _ _ _ _ _ _ _ _ _ _ _ _ _) as [queued s'] eqn:Eb. apply out_blocked with r; [done..| | |done].
    - by destruct start.
    - unfold over_the_rate. rewrite Ef. simpl. by destruct start. }
  assert (start = true ∨ over_the_rate (at_rate start s) r id = false) as Hrate.
  { destruct start; [by left|right]. unfold over_the_rate. by rewrite Ef. }
  fold (at_choice start s). pose proof (batch_of_take (at_choice start s) (at_count start s) r) as Hb.
  pose proof (order_ok (eligible_ids (at_choice start s).1 id)) as Hp. cbv zeta in *.
  destruct (order (eligible_ids (at_choice start s).1 id)) as [|d0 ds] eqn:Eo.
  { destruct start; [apply out_refused; [done|eauto]|by apply out_completed with r]. }
  specialize (Hb ltac:(done)). fold (at_count start s). set (batch := if _ <? _ then _ else _) in *.
  destruct (dispatch_devices _ _ _ _ _ _ _ _ _ _ _ _ _ batch _) as [[queued m] s3] eqn:Ed.
  pose proof Ed as Ed'. apply dispatch_devices_effect in Ed as [He ->]; [| |apply Hb|].
  2: { exists r. by apply P2. }
  2: { intros d Hd%Hb. apply elem_of_eligible_ids in Hd as (rd & Hd & _).
       pose proof (rest_spares 2 (at_choice start s)) as [_ _ S3]. unfold at_count. rewrite S3; [eauto|]. exists r. by apply P1. }
  pose proof (out_wave fresh scope start s r batch queued s3 Hr Ha Hrate Hb Ed' He) as Hout. cbv zeta in Hout.
  rewrite (Permutation_length Hp). unfold status_after in Hout. destruct start; [done|].
  by destruct (Nat.eqb (length batch) (length (eligible_ids (at_choice false s).1 id))).
Qed.

(** An advance over the rate. *)
Lemma call_over_the_rate fresh scope s r :
  rs_rollouts s.1 !! id = Some r → dispatch_admitted now scope false r → over_the_rate (rest 0%nat s) r id = true →
  dispatchRolloutBatch hmac order firmwareBase transferKey images devices now operator rest lost fresh scope false id s =
  let back := dispatchRollback hmac order firmwareBase transferKey images devices now operator rest lost fresh 2 r
                (update rest lost 1 (SetStatus id StatusBlocked) (rest 0%nat s)) in
  (RolloutRefused 409 ErrFailureRateExceeded, back.1, back.2).
Proof.
  intros Hr ((ids & scoped & -> & Hsc) & Hst & Hw) Hover. unfold dispatchRolloutBatch, scopedRollout, Rollout_ByID. rewrite Hr.
  assert (scoped && negb (deviceInScope (ro_CustomerID r) ids) = false) as -> by (destruct scoped; [by rewrite Hsc|done]).
  rewrite Hst, Hw. simpl. unfold over_the_rate in Hover. destruct (FailureRate (rest 0%nat s).2 (rest 0%nat s).1 id) as [rate terminal].
  simpl in Hover. rewrite Hover. by destruct (dispatchRollback _ _ _ _ _ _ _ _ _ _ _ _ _ _).
Qed.
End Wave.

(** ** The history of a rollout

    The tables, the downloads its waves queued and those of its rollbacks.  A
    call for the rollout runs with the statements of other requests between its
    own; two calls for it do not overlap, and no UPDATE of theirs is lost. *)

Record History : Type := mkHistory {
  hi_tables : Shared;
  hi_sent : list (string * Job);
  hi_rolled_back : list (string * Job)
}.

Definition blocked_reply (reply : RolloutReply) : bool :=
  match reply with RolloutRefused code msg => bool_decide ((code, msg) = (409, ErrFailureRateExceeded)) | _ => false end.

Inductive rollout_step (hash : Json.json → string) (id : string) : History → History → Prop :=
| rstep_other s s' sent back :
    other_statement hash id s s' → rollout_step hash id (mkHistory s sent back) (mkHistory s' sent back)
| rstep_call hmac order base key images devices now operator rest fresh scope start s sent back reply queued s' :
    (∀ l, order l ≡ₚ l) → (∀ n s, rtc (other_statement hash id) s (rest n s)) →
    dispatchRolloutBatch hmac order base key images devices now operator rest (λ _, false) fresh scope start id s
      = (reply, queued, s') →
    rollout_step hash id (mkHistory s sent back)
      (if blocked_reply reply then mkHistory s' sent (queued ++ back) else mkHistory s' (queued ++ sent) back).

Record history_ok (id : string) (h : History) : Prop := mk_history_ok {
  ho_key : ∀ r, rs_rollouts (hi_tables h).1 !! id = Some r → ro_ID r = id;
  ho_stamp : ∀ r, rs_rollouts (hi_tables h).1 !! id = Some r → ro_RollbackDispatchedAt r = None ∨ ro_Status r = StatusBlocked;
  ho_owner : ∀ d, is_Some (rs_devices (hi_tables h).1 !! (id, d)) → is_Some (rs_rollouts (hi_tables h).1 !! id);
  ho_once : NoDup (fst <$> hi_sent h);
  (** the rows with a job are the devices sent a download, and name it *)
  ho_rows : ∀ d k, (∃ j, (d, j) ∈ hi_sent h ∧ ID j = k) ↔
    ∃ rd, rs_devices (hi_tables h).1 !! (id, d) = Some rd ∧ rd_JobID rd = Some k;
  ho_sent : ∀ e, e ∈ hi_sent h → ∃ r images, rs_rollouts (hi_tables h).1 !! id = Some r ∧
    logged images (ro_FirmwareImageID r) (hi_tables h).2 e;
  ho_back_once : NoDup (fst <$> hi_rolled_back h);
  ho_back : ∀ e, e ∈ hi_rolled_back h → e.1 ∈ fst <$> hi_sent h ∧ ∃ r images imageID,
    rs_rollouts (hi_tables h).1 !! id = Some r ∧ ro_Status r = StatusBlocked ∧
    ro_RollbackFirmwareImageID r = Some imageID ∧ logged images imageID (hi_tables h).2 e
}.

(** The tables move on and leave the rollout's rows. *)
Record continues (id : string) (s s' : Shared) : Prop := mk_continues {
  ct_jobs : jobs_kept s.2 s'.2;
  ct_rollout : ∃ r r', rs_rollouts s.1 !! id = Some r ∧ rs_rollouts s'.1 !! id = Some r' ∧ same_plan r r' ∧
    (ro_Status r = StatusBlocked → ro_Status r' = StatusBlocked) ∧
    (ro_RollbackDispatchedAt r' = ro_RollbackDispatchedAt r ∨ ro_Status r' = StatusBlocked);
  ct_devices : ∀ d, rs_devices s'.1 !! (id, d) = rs_devices s.1 !! (id, d)
}.

Lemma spared_continues id s s' : is_Some (rs_rollouts s.1 !! id) → spared id s s' → continues id s s'.
Proof. intros [r Hr] [S1 S2 S3]. split; [done| |apply S3; eauto]. exists r, r. split_and!; eauto; done. Qed.

Lemma continues_trans id a b c : continues id a b → continues id b c → continues id a c.
Proof.
  intros [A1 (r & r1 & Ha & Hb & (P1 & P2 & P3 & P4) & Q & Z) A3] [B1 (r1' & r2 & Hb' & Hc & (P1' & P2' & P3' & P4') & Q' & Z') B3].
  rewrite Hb in Hb'. injection Hb' as <-. split; [by etrans| |intros d; by rewrite B3].
  exists r, r2. unfold same_plan. split_and!; auto; try congruence.
  destruct Z' as [->|]; [|auto]. destruct Z; auto.
Qed.

Lemma history_ok_continues id s s' sent back :
  continues id s s' → history_ok id (mkHistory s sent back) → history_ok id (mkHistory s' sent back).
Proof.
  intros [J (r & r' & Hr & Hr' & (P1 & P2 & P3 & P4) & Q & Z) D] [K X O N W S BN B]. simpl in *.
  split; simpl; [| |eauto|done| | |done|].
  - intros r0 H0. rewrite Hr' in H0. injection H0 as <-. rewrite P1. auto.
  - intros r0 H0. rewrite Hr' in H0. injection H0 as <-. destruct Z as [->|]; [|auto]. destruct (X r Hr); auto.
  - intros d k. rewrite D. apply W.
  - intros e He. destruct (S e He) as (r0 & images & H0 & Hl). rewrite Hr in H0. injection H0 as <-. exists r', images.
    split; [done|]. rewrite P2. by eapply logged_kept.
  - intros e He. destruct (B e He) as (Hin & r0 & images & imageID & H0 & Hs & Hi & Hl). rewrite Hr in H0. injection H0 as <-.
    split; [done|]. exists r', images, imageID. split_and!; [done|auto|congruence|]. by eapply logged_kept.
Qed.

(** The statements of the others, the creation of the rollout among them. *)
Lemma history_ok_other hash id s s' sent back :
  other_statement hash id s s' → history_ok id (mkHistory s sent back) → history_ok id (mkHistory s' sent back).
Proof.
  intros Hs Hok. destruct (rs_rollouts s.1 !! id) as [r|] eqn:Hr.
  { eapply history_ok_continues; [|exact Hok]. apply spared_continues; [by rewrite Hr|]. by eapply other_spared. }
  assert (sent = [] ∧ back = []) as [-> ->].
  { split.
    - destruct sent as [|e sent]; [done|]. destruct (ho_sent _ _ Hok e) as (? & ? & H & _); [by apply list_elem_of_here|].
      simpl in H. congruence.
    - destruct back as [|e back]; [done|]. destruct (ho_back _ _ Hok e) as (_ & ? & ? & ? & H & _); [by apply list_elem_of_here|].
      simpl in H. congruence. }
  assert (∀ d, rs_devices s.1 !! (id, d) = None) as Hno.
  { intros d. apply eq_None_not_Some. intros [? H]%(ho_owner _ _ Hok). simpl in H. congruence. }
  assert ((∀ r, rs_rollouts s'.1 !! id = Some r → ro_ID r = id ∧ ro_RollbackDispatchedAt r = None) ∧
    (∀ d rd, rs_devices s'.1 !! (id, d) = Some rd → is_Some (rs_rollouts s'.1 !! id) ∧ rd_JobID rd = None)) as [Hk Hd].
  { destruct Hs as [t jobs jobs' Hj|pg_time scope uuid operator body images customers params devices t jobs
      |i st t jobs Hi|now i t jobs Hi|now i dev k t jobs Hi]; simpl in *; rewrite ?lookup_alter_ne by done;
      try (split; [|intros d rd; rewrite ?lookup_alter_ne by congruence]; by rewrite ?Hr, ?Hno).
    destruct (createRollout_cases pg_time scope uuid operator body images customers params devices t)
      as [(code & msg & ->)|(r & l & -> & Hu & Hid & Hz & _)]; simpl.
    - split; [|intros d rd]; by rewrite ?Hr, ?Hno.
    - split; [intros r'; rewrite lookup_insert_Some; intros [[-> <-]|[_ ?]]; [done|congruence]|].
      intros d rd. rewrite lookup_union_Some_raw, Hno. intros [(-> & -> & _)%lookup_new_rows|[_ [=]]].
      rewrite lookup_insert_eq. split; [eauto|done]. }
  split; simpl; [by intros ? []%Hk|by intros ? []%Hk; left| |constructor| |by intros ? ?%not_elem_of_nil|constructor|
    by intros ? ?%not_elem_of_nil].
  - intros d [rd Hrd]. by apply (Hd d rd).
  - intros d k. split; [by intros (j & ?%not_elem_of_nil & _)|]. intros (rd & Hrd & Hj). destruct (Hd d rd Hrd). congruence.
Qed.

(** *** A call *)

Section Call.
Context (hmac : string → string → string) (order : list string → list string).
Context (firmwareBase transferKey : string) (images : gmap string Image) (devices : gmap string Device).
Context (now : GoTime) (operator : string) (rest : nat → Shared → Shared) (id : string).
Context (rest_spares : ∀ n s, spared id s (rest n s)) (order_ok : ∀ l, order l ≡ₚ l).

Abbreviation lost := (λ _ : nat, false).

Lemma at_rollback_devices s d :
  is_Some (rs_rollouts s.1 !! id) → rs_devices (at_rollback rest lost id s).1 !! (id, d) = rs_devices s.1 !! (id, d).
Proof.
  intros [r Hr]. unfold at_rollback. destruct (rest_spares 1 s) as [S1 S2 S3].
  set (s1 := update _ _ _ _ s). destruct (rest_spares 2 s1) as [_ _ T3]. rewrite T3; simpl; [apply S3; eauto|].
  rewrite lookup_alter_eq, (S2 _ Hr). eauto.
Qed.

Lemma update_status_continues n st s r :
  rs_rollouts s.1 !! id = Some r → ro_Status r ≠ StatusBlocked → continues id s (update rest lost n (SetStatus id st) s).
Proof.
  intros Hr Hst. destruct (rest_spares n s) as [S1 S2 S3]. split; simpl; [done| |apply S3; eauto].
  exists r, (set_ro_status st r). rewrite lookup_alter_eq, (S2 _ Hr). split_and!; try done. by left.
Qed.

Lemma not_blocked_yet h r :
  history_ok id h → rs_rollouts (hi_tables h).1 !! id = Some r → ro_Status r ≠ StatusBlocked → hi_rolled_back h = [].
Proof.
  intros Hok Hr Hst. destruct (hi_rolled_back h) as [|e back] eqn:E; [done|].
  destruct (ho_back _ _ Hok e) as (_ & r' & _ & _ & Hr' & Hb & _); [rewrite E; apply list_elem_of_here|]. congruence.
Qed.

Lemma history_ok_blocked r s s' sent queued :
  rs_rollouts s.1 !! id = Some r → ro_Status r = StatusActive →
  blocked_effect images rest lost id r s s' queued →
  history_ok id (mkHistory s sent []) → history_ok id (mkHistory s' sent queued).
Proof.
  intros Hr Hst [B1 (r' & Hr' & Hp & Hs') B3 B4 B5] Hok.
  assert (continues id s s') as Hc by (split; [done| |done]; exists r, r'; split_and!; auto).
  pose proof (history_ok_continues id s s' sent [] Hc Hok) as [K X O N W S BN B]. split; try done. simpl.
  intros e He. destruct (B5 e He) as (imageID & Hi & _ & Hsucc & Hl). split.
  - apply elem_of_successful_ids in Hsucc as (rd & j & Hrd & Hj & _). rewrite at_rollback_devices in Hrd by eauto.
    destruct (rd_JobID rd) as [k|] eqn:Ek; [|done].
    destruct (proj2 (ho_rows _ _ Hok e.1 k)) as (j' & Hin & _); [by exists rd|]. apply list_elem_of_fmap. by exists (e.1, j').
  - exists r', images, imageID. split_and!; [done..| |done]. destruct Hp as (_ & _ & -> & _). done.
Qed.

Lemma history_ok_wave r batch s s' sent back queued :
  rs_rollouts s.1 !! id = Some r → batch ⊆ eligible_ids s.1 id →
  wave_effect images now id (ro_FirmwareImageID r) batch s s' queued →
  history_ok id (mkHistory s sent back) → history_ok id (mkHistory s' (queued ++ sent) back).
Proof.
  intros Hr Hb [W1 W2 W3 W4 W5 W6 W7] [K X O N W S BN B]. simpl in *.
  assert (∀ d, d ∈ fst <$> queued → ∃ rd, rs_devices s.1 !! (id, d) = Some rd ∧ rd_JobID rd = None) as Hel.
  { intros d Hd%W3%Hb. by apply elem_of_eligible_ids. }
  assert (∀ e, e ∈ sent → e.1 ∉ fst <$> queued) as Hfresh.
  { intros [d j] He (rd & Hrd & Hn)%Hel. destruct (proj1 (W d (ID j))) as (rd' & Hrd' & Hj); [by exists j|]. simpl in *. congruence. }
  pose proof (W2 r Hr) as Hr'. split; simpl.
  - intros r0 H0. rewrite Hr' in H0. injection H0 as <-. auto.
  - intros r0 H0. rewrite Hr' in H0. injection H0 as <-. auto.
  - intros d _. eauto.
  - rewrite fmap_app. apply NoDup_app. split_and!; [done| |done]. intros d Hd Hs. apply list_elem_of_fmap in Hs as (e & -> & He).
    by eapply Hfresh.
  - intros d k. destruct (decide (d ∈ fst <$> queued)) as [Hd|Hd].
    + pose proof Hd as Hd'. apply list_elem_of_fmap in Hd' as ([d0 j0] & -> & Hin0). simpl in *. rewrite (W6 _ _ Hin0). split.
      * intros (j & [Hin|Hin]%elem_of_app & <-); [|by destruct (Hfresh _ Hin)]. eexists. split; [done|].
        pose proof (W6 _ _ Hin) as E. rewrite (W6 _ _ Hin0) in E. by injection E as ->.
      * intros (rd & [= <-] & [= <-]). exists j0. split; [apply elem_of_app; by left|done].
    + rewrite W7, <- W by done. split; intros (j & Hin & Hk); exists j; (split; [|done]).
      * apply elem_of_app in Hin as [Hin|]; [|done]. destruct Hd. apply list_elem_of_fmap. by exists (d, j).
      * apply elem_of_app. by right.
  - intros e [He|He]%elem_of_app; [by exists r, images; auto|].
    destruct (S e He) as (r0 & images0 & H0 & Hl). rewrite Hr in H0. injection H0 as <-. exists r, images0. split; [done|].
    by eapply logged_kept.
  - done.
  - intros e He. destruct (B e He) as (Hin & r0 & images0 & imageID & H0 & Hs & Hi & Hl). rewrite Hr in H0. injection H0 as <-.
    split; [rewrite fmap_app; apply elem_of_app; by right|]. exists r, images0, imageID. split_and!; try done. by eapply logged_kept.
Qed.

Lemma history_ok_outcome fresh scope start s sent back reply queued s' :
  dispatch_outcome hmac order firmwareBase transferKey images devices now operator rest lost id fresh scope start s reply queued s' →
  history_ok id (mkHistory s sent back) →
  history_ok id (if blocked_reply reply then mkHistory s' sent (queued ++ back) else mkHistory s' (queued ++ sent) back).
Proof.
  intros Hout Hok. destruct (spared_at rest id rest_spares start s) as (P0 & P1 & P2).
  destruct Hout as [code msg s' Hne Hs|r queued s' Hr Ha -> Hover E|r Hr Ha ->|r batch queued s3 Hr Ha Hrate Hb Ed He final st].
  - simpl. rewrite bool_decide_eq_false_2 by done. destruct Hs as [->|[Hi Hs]]; [done|].
    eapply history_ok_continues; [|exact Hok]. by apply spared_continues.
  - simpl. destruct Ha as (_ & Hst & _).
    pose proof (not_blocked_yet _ _ Hok Hr ltac:(by rewrite Hst)) as Hback. simpl in Hback. subst back. rewrite app_nil_r.
    apply dispatchRollback_effect with (id := id) in E; [|done|done|done|by apply (ho_key _ _ Hok)|by apply P0].
    eapply history_ok_blocked; [by apply P0|done|exact E|]. eapply history_ok_continues; [|exact Hok].
    apply spared_continues; [eauto|done].
  - simpl. destruct Ha as (_ & Hst & _). eapply history_ok_continues; [|exact Hok].
    eapply continues_trans; [apply spared_continues; [eauto|exact P1]|].
    eapply update_status_continues; [by apply P1|by rewrite Hst].
  - simpl. destruct Ha as (_ & Hst & _). assert (history_ok id (mkHistory s3 (queued ++ sent) back)) as H3.
    { eapply history_ok_wave; [by apply P2| |exact He|].
      - intros d Hd. destruct Hb as (_ & _ & Hb & _). apply Hb in Hd. apply elem_of_eligible_ids in Hd as (rd & Hrd & Hn).
        apply elem_of_eligible_ids. exists rd. split; [|done]. destruct P1 as [_ _ S1], P2 as [_ _ S2].
        rewrite S2, <- S1 by eauto. done.
      - eapply history_ok_continues; [|exact Hok]. apply spared_continues; [eauto|done]. }
    destruct (start || final); [|done]. eapply history_ok_continues; [|exact H3].
    eapply update_status_continues; [apply (we_rollout _ _ _ _ _ _ _ _ He); by apply P2|]. rewrite Hst. by destruct start.
Qed.
End Call.

Lemma rollout_step_ok hash id h h' : rollout_step hash id h h' → history_ok id h → history_ok id h'.
Proof.
  intros Hs Hok. destruct Hs as [s s' sent back Ho
    |hmac order base key images devices now operator rest fresh scope start s sent back reply queued s' Ho Hrest E].
  - by eapply history_ok_other.
  - assert (∀ n s, spared id s (rest n s)) as Hsp by (intros; by eapply others_spared).
    pose proof (dispatch_has_outcome hmac order base key images devices now operator rest (λ _, false) id Hsp (λ _, eq_refl) Ho
      fresh scope start s) as Hout. rewrite E in Hout. by eapply history_ok_outcome.
Qed.

(** The tables before the rollout, and the histories from there. *)
Definition before_rollout (id : string) (h : History) : Prop :=
  rs_rollouts (hi_tables h).1 !! id = None ∧ (∀ d, rs_devices (hi_tables h).1 !! (id, d) = None) ∧
  hi_sent h = [] ∧ hi_rolled_back h = [].

Definition rollout_history (hash : Json.json → string) (id : string) (h : History) : Prop :=
  ∃ h0, before_rollout id h0 ∧ rtc (rollout_step hash id) h0 h.

Lemma rollout_run_ok hash id h h' : rtc (rollout_step hash id) h h' → history_ok id h → history_ok id h'.
Proof. induction 1; [done|]. eauto using rollout_step_ok. Qed.

Lemma rollout_history_ok hash id h : rollout_history hash id h → history_ok id h.
Proof.
  intros ([s sent back] & (H1 & H2 & H3 & H4) & Hr). simpl in *. subst. eapply rollout_run_ok; [exact Hr|].
  split; simpl; [by rewrite H1..|intros d; by rewrite H2; intros []|constructor| |by intros ? ?%not_elem_of_nil|constructor|by intros ? ?%not_elem_of_nil].
  intros d k. split; [by intros (j & ?%not_elem_of_nil & _)|]. intros (rd & Hrd & _). by rewrite H2 in Hrd.
Qed.

(** Blocked or completed, a rollout stays so and nothing more is sent for it. *)
Lemma terminal_step hash id h h' r :
  rollout_step hash id h h' → rs_rollouts (hi_tables h).1 !! id = Some r →
  ro_Status r = StatusBlocked ∨ ro_Status r = StatusCompleted →
  rs_rollouts (hi_tables h').1 !! id = Some r ∧ hi_sent h' = hi_sent h ∧ hi_rolled_back h' = hi_rolled_back h.
Proof.
  intros Hs Hr Hst. destruct Hs as [s s' sent back Ho
    |hmac order base key images devices now operator rest fresh scope start s sent back reply queued s' Ho Hrest E]; simpl in *.
  { split; [|done]. by eapply sp_rollout; [eapply other_spared|]. }
  assert (∀ n s, spared id s (rest n s)) as Hsp by (intros; by eapply others_spared).
  pose proof (dispatch_has_outcome hmac order base key images devices now operator rest (λ _, false) id Hsp (λ _, eq_refl) Ho
    fresh scope start s) as Hout. rewrite E in Hout.
  assert (∀ r0, rs_rollouts s.1 !! id = Some r0 → ¬ dispatch_admitted now scope start r0) as Hno.
  { intros r0 H0 (_ & Ha & _). rewrite Hr in H0. injection H0 as <-. rewrite Ha in Hst. by destruct start, Hst. }
  destruct Hout as [code msg s' Hne Hs|r0 queued s' Hr0 Ha|r0 Hr0 Ha|r0 batch queued s3 Hr0 Ha];
    [|by destruct (Hno _ Hr0 Ha)..].
  simpl. rewrite bool_decide_eq_false_2 by done. simpl. split; [|done].
  destruct Hs as [->|[_ Hs]]; [done|]. by apply (sp_rollout _ _ _ Hs).
Qed.

Lemma terminal_run hash id h h' r :
  rtc (rollout_step hash id) h h' → rs_rollouts (hi_tables h).1 !! id = Some r →
  ro_Status r = StatusBlocked ∨ ro_Status r = StatusCompleted →
  rs_rollouts (hi_tables h').1 !! id = Some r ∧ hi_sent h' = hi_sent h ∧ hi_rolled_back h' = hi_rolled_back h.
Proof.
  induction 1 as [h|h h1 h' Hs _ IH]; intros Hr Hst; [done|].
  destruct (terminal_step _ _ _ _ _ Hs Hr Hst) as (H1 & <- & <-). by apply IH.
Qed.

(** Once the rollout exists no device joins or leaves it. *)
Lemma call_targets hmac order base key images devices now operator rest fresh scope start id s reply queued s' :
  (∀ n s, spared id s (rest n s)) → (∀ l, order l ≡ₚ l) → (∀ r, rs_rollouts s.1 !! id = Some r → ro_ID r = id) →
  is_Some (rs_rollouts s.1 !! id) →
  dispatch_outcome hmac order base key images devices now operator rest (λ _, false) id fresh scope start s reply queued s' →
  is_Some (rs_rollouts s'.1 !! id) ∧
  ∀ d, is_Some (rs_devices s'.1 !! (id, d)) ↔ is_Some (rs_devices s.1 !! (id, d)).
Proof.
  intros Hsp Ho Hkey Hi Hout. destruct (spared_at rest id Hsp start s) as (P0 & P1 & P2).
  destruct Hout as [code msg s' _ Hs|r queued s' Hr Ha -> Hover E|r Hr Ha ->|r batch queued s3 Hr Ha Hrate Hb Ed He final st].
  - destruct Hs as [->|[_ [_ S2 S3]]]; [done|]. split; [destruct Hi; eauto|]. intros d. by rewrite S3.
  - assert (spared id s (rest 0%nat s)) as [S1 S2 S3] by done.
    apply dispatchRollback_effect with (id := id) in E as [_ (r' & Hr' & _) B3 _ _]; [|done..|by auto|by apply S2].
    split; [eauto|]. intros d. rewrite B3. simpl. by rewrite S3.
  - destruct (Hsp 2%nat (at_choice rest false s)) as [_ S2 S3], P1 as [_ P12 P13]. simpl. split.
    + rewrite lookup_alter_eq, (S2 r) by auto. eauto.
    + intros d. rewrite S3, P13; eauto.
  - destruct He as [W1 W2 W3 W4 W5 W6 W7], P2 as [_ P22 P23].
    assert (∀ d, is_Some (rs_devices s3.1 !! (id, d)) ↔ is_Some (rs_devices s.1 !! (id, d))) as Hd.
    { intros d. rewrite <- P23 by done. destruct (decide (d ∈ fst <$> queued)) as [Hq|Hq]; [|by rewrite W7].
      destruct Hb as (_ & _ & Hb & _). pose proof (Hb _ (W3 _ Hq)) as (rd & Hrd & _)%elem_of_eligible_ids.
      apply list_elem_of_fmap in Hq as ([d' j] & -> & Hq). simpl in *. rewrite (W6 _ _ Hq). split; [intros _|eauto].
      rewrite P23 by done. destruct P1 as [_ _ P13]. rewrite <- P13, Hrd by done. eauto. }
    pose proof (W2 r (P22 r Hr)) as Hr3. destruct (start || final); [|split; [eauto|done]].
    generalize (3 + 2 * length batch)%nat. intros k. destruct (Hsp k s3) as [_ S2 S3]. simpl. rewrite lookup_alter_eq, (S2 r Hr3). split; [eauto|].
    intros d. rewrite S3 by eauto. apply Hd.
Qed.

Lemma targets_stay hash id h h' d :
  rtc (rollout_step hash id) h h' → history_ok id h → is_Some (rs_rollouts (hi_tables h).1 !! id) →
  is_Some (rs_devices (hi_tables h').1 !! (id, d)) ↔ is_Some (rs_devices (hi_tables h).1 !! (id, d)).
Proof.
  induction 1 as [h|h h1 h' Hs _ IH]; intros Hok Hi; [done|]. pose proof (rollout_step_ok _ _ _ _ Hs Hok) as Hok1.
  assert (is_Some (rs_rollouts (hi_tables h1).1 !! id) ∧
    (is_Some (rs_devices (hi_tables h1).1 !! (id, d)) ↔ is_Some (rs_devices (hi_tables h).1 !! (id, d)))) as [Hi1 H1].
  { destruct Hs as [s s' sent back Ho
      |hmac order base key images devices now operator rest fresh scope start s sent back reply queued s' Ho Hrest E]; simpl in *.
    - destruct (other_spared _ _ _ _ Ho) as [_ S2 S3]. split; [destruct Hi; eauto|by rewrite S3].
    - assert (∀ n s, spared id s (rest n s)) as Hsp by (intros; by eapply others_spared).
      pose proof (dispatch_has_outcome hmac order base key images devices now operator rest (λ _, false) id Hsp (λ _, eq_refl) Ho
        fresh scope start s) as Hout. rewrite E in Hout.
      destruct (call_targets _ _ _ _ _ _ _ _ _ _ _ _ _ _ _ _ _ Hsp Ho (ho_key _ _ Hok) Hi Hout) as [? ?]. by destruct (blocked_reply reply). }
  rewrite IH by done. exact H1.
Qed.

(** ** No device is left out

    With identifiers no job has yet, and that nobody else draws meanwhile, a
    device that may download the image gets its job. *)

Section Complete.
Context (hmac : string → string → string).
Context (firmwareBase transferKey : string) (images : gmap string Image) (devices : gmap string Device).
Context (now : GoTime) (operator : string) (fresh : string → Fresh) (imageID : string).

Definition can_queue (dev : string) : bool :=
  match devices !! dev with
  | Some d => firmwareProfileAllowsDownload d && is_some (images !! imageID)
  | None => false
  end.

Definition drawn_key (dev : string) : string :=
  newCommandKey TypeFirmwareDownload (fr_date (fresh dev)) (fr_random (fresh dev)).

Definition drawn_fresh (batch : list string) (jobs : gmap string Job) : Prop :=
  NoDup (fr_uuid ∘ fresh <$> batch) ∧ NoDup (drawn_key <$> batch) ∧
  ∀ dev, dev ∈ batch → jobs !! fr_uuid (fresh dev) = None ∧ ∀ k j, jobs !! k = Some j → CommandKey j ≠ drawn_key dev.

Abbreviation queued dev jobs :=
  (queueFirmwareDownload hmac firmwareBase transferKey images devices (fresh dev) now dev imageID 0 operator jobs).

Lemma queue_succeeds dev jobs :
  can_queue dev = true → drawn_fresh [dev] jobs →
  ∃ j, queued dev jobs = (Ok j, <[ID j := j]> jobs) ∧ ID j = fr_uuid (fresh dev) ∧ CommandKey j = drawn_key dev ∧
       download_job images imageID dev j.
Proof.
  unfold can_queue, queueFirmwareDownload. intros Hc (_ & _ & Hf).
  destruct (Hf dev) as [Hu Hkey]; [by apply list_elem_of_here|].
  destruct (devices !! dev) as [d|]; [|done]. destruct (firmwareProfileAllowsDownload d); [|done]. simpl in *.
  destruct (images !! imageID) as [img|] eqn:Ei; [|done].
  unfold Create, CreateWithMaxAttempts, insert_job. set (j := new_job _ _ _ _ _ _ _ _ _). simpl.
  assert (unique_ok jobs j = true) as ->.
  { unfold unique_ok. simpl. rewrite Hu. simpl. apply forallb_forall. intros x Hx%list_elem_of_In%elem_of_rows.
    destruct Hx as [k Hk]. apply negb_true_iff, String.eqb_neq. by eapply Hkey. }
  exists j. split_and!; [done..|]. split; try done. simpl. eauto.
Qed.

Lemma drawn_fresh_head dev rest jobs : drawn_fresh (dev :: rest) jobs → drawn_fresh [dev] jobs.
Proof.
  intros (_ & _ & Hf). split_and!; [apply NoDup_singleton..|].
  intros d ->%list_elem_of_singleton. apply Hf, list_elem_of_here.
Qed.

Lemma drawn_fresh_tail dev rest jobs : drawn_fresh (dev :: rest) jobs → drawn_fresh rest jobs.
Proof.
  intros (Hu & Hk & Hf). rewrite fmap_cons in Hu, Hk. apply NoDup_cons in Hu as [_ Hu]. apply NoDup_cons in Hk as [_ Hk].
  split_and!; [done..|]. intros d Hd. apply Hf. by apply list_elem_of_further.
Qed.

Lemma drawn_fresh_insert dev rest jobs j :
  drawn_fresh (dev :: rest) jobs → ID j = fr_uuid (fresh dev) → CommandKey j = drawn_key dev →
  drawn_fresh rest (<[ID j := j]> jobs).
Proof.
  intros Hd Hid Hck. pose proof (drawn_fresh_tail _ _ _ Hd) as (Hu & Hk & Hf). destruct Hd as (Hu' & Hk' & _).
  split_and!; [done..|]. rewrite fmap_cons in Hu', Hk'. apply NoDup_cons in Hu' as [Hu' _]. apply NoDup_cons in Hk' as [Hk' _].
  intros d Hd. destruct (Hf d Hd) as [Hd1 Hd2]. split.
  - rewrite lookup_insert_ne; [done|]. rewrite Hid. intros E. apply Hu', list_elem_of_fmap. by exists d.
  - intros k j'. rewrite lookup_insert_Some. intros [[_ <-]|[_ Hj]]; [|by eapply Hd2].
    rewrite Hck. intros E. apply Hk', list_elem_of_fmap. by exists d.
Qed.

(** A device that may not download changes nothing. *)
Lemma queue_refused dev jobs : can_queue dev = false → ∃ e, queued dev jobs = (Err e, jobs).
Proof.
  unfold can_queue, queueFirmwareDownload. destruct (devices !! dev) as [d|]; [|eauto].
  destruct (firmwareProfileAllowsDownload d); simpl; [|eauto]. destruct (images !! imageID); simpl; [done|eauto].
Qed.


Context (rest : nat → Shared → Shared) (lost : nat → bool).

Definition draws_apart : Prop := ∀ n s l, drawn_fresh l s.2 → drawn_fresh l (rest n s).2.

Abbreviation queue_one := (queue_download hmac firmwareBase transferKey images devices now operator rest fresh).

Lemma queue_one_complete n dev devs s :
  draws_apart → drawn_fresh (dev :: devs) s.2 →
  if can_queue dev then ∃ j s', queue_one n dev imageID s = (Ok j, s') ∧ drawn_fresh devs s'.2
  else ∃ e s', queue_one n dev imageID s = (Err e, s') ∧ drawn_fresh devs s'.2.
Proof.
  intros Hrest Hf. apply (Hrest n) in Hf. unfold queue_download. destruct (rest n s) as [t jobs]. simpl in *.
  destruct (can_queue dev) eqn:Hc.
  - destruct (queue_succeeds dev jobs Hc (drawn_fresh_head _ _ _ Hf)) as (j & -> & Hid & Hck & _).
    eexists _, _. split; [done|]. simpl. by eapply drawn_fresh_insert.
  - destruct (queue_refused dev jobs Hc) as [e ->]. eexists _, _. split; [done|]. simpl. by eapply drawn_fresh_tail.
Qed.

Lemma rollback_devices_complete n targets s :
  draws_apart → drawn_fresh targets s.2 →
  fst <$> (rollback_devices hmac firmwareBase transferKey images devices now operator rest fresh imageID n targets s).1
    = List.filter can_queue targets.
Proof.
  intros Hrest. revert n s. induction targets as [|dev devs IH]; intros n s Hf; [done|]. cbn [rollback_devices List.filter].
  pose proof (queue_one_complete n dev devs s Hrest Hf) as Hq. destruct (can_queue dev).
  - destruct Hq as (j & s1 & -> & Hf1). specialize (IH (1 + n)%nat s1 Hf1).
    destruct (rollback_devices _ _ _ _ _ _ _ _ _ _ _ devs s1) as [q s2]. cbn [fst] in *. rewrite fmap_cons. by f_equal.
  - destruct Hq as (e & s1 & -> & Hf1). specialize (IH (1 + n)%nat s1 Hf1).
    by destruct (rollback_devices _ _ _ _ _ _ _ _ _ _ _ devs s1) as [q s2].
Qed.

Lemma dispatch_devices_complete rid n batch s :
  draws_apart → drawn_fresh batch s.2 →
  fst <$> (dispatch_devices hmac firmwareBase transferKey images devices now operator rest lost fresh rid imageID n batch s).1.1
    = List.filter can_queue batch.
Proof.
  intros Hrest. revert n s. induction batch as [|dev devs IH]; intros n s Hf; [done|]. cbn [dispatch_devices List.filter].
  pose proof (queue_one_complete n dev devs s Hrest Hf) as Hq. destruct (can_queue dev).
  - destruct Hq as (j & s1 & -> & Hf1). set (s2 := update _ _ _ _ s1).
    assert (drawn_fresh devs s2.2) as Hf2.
    { apply (Hrest (1 + n)%nat) in Hf1. unfold s2, update. by destruct (lost _). }
    specialize (IH (2 + n)%nat s2 Hf2).
    destruct (dispatch_devices _ _ _ _ _ _ _ _ _ _ _ _ _ devs s2) as [[q m] s3]. cbn [fst] in *. rewrite fmap_cons. by f_equal.
  - destruct Hq as (e & s1 & -> & Hf1). by apply IH.
Qed.
End Complete.
