(* ===== verification/RolloutTheorems.v ===== *)
(** * Theorems about firmware rollouts

    The maintenance window as a stretch of the day's circle; one download per
    device in every history of a rollout; what a call dispatches; the gate that
    stops a failing rollout and rolls it back; and what overlapping calls and a
    lost UPDATE do to both. *)

From S2P Require Import Prelude GoStrings Json JobModel JobStore JobLaws Devices Policies ParamCache Api Transfer Rollout RolloutLaws.

(** ** The window *)

Definition minute_of_day (t : GoTime) : Z := (t / Minute) mod 1440.
Definition day : GoDuration := 24 * Hour.

Lemma minute_of_day_clock t : clock_hour t * 60 + clock_minute t = minute_of_day t.
Proof.
  unfold clock_hour, clock_minute, minute_of_day, Hour. rewrite (Z.mul_comm 60 Minute), <- Z.div_div by (unfold Minute, Second; lia).
  generalize (t / Minute). intros m. Z.to_euclidean_division_equations. lia.
Qed.

Lemma minute_of_day_shift t : minute_of_day (t + day) = minute_of_day t.
Proof.
  unfold minute_of_day, day. replace (t + 24 * Hour) with (t + 1440 * Minute) by (unfold Hour; lia).
  rewrite Z.div_add by (unfold Minute, Second; lia). replace (t / Minute + 1440) with (t / Minute + 1 * 1440) by lia.
  by rewrite Z.mod_add.
Qed.

Definition two_digits (n : Z) (s : string) : string := String (digit_byte (n / 10)) (String (digit_byte (n mod 10)) s).
Definition clock_text (h m s : Z) : string :=
  two_digits h (String ":" (two_digits m (String ":" (two_digits s "")))).

Lemma getnum_two_digits n s fixed : 0 <= n < 100 → getnum (two_digits n s) fixed = Some (n, s).
Proof.
  intros Hn. unfold getnum, two_digits, digit_at.
  destruct (digit_byte_ok (n / 10)) as [-> ->]; [Z.to_euclidean_division_equations; lia|].
  destruct (digit_byte_ok (n mod 10)) as [-> ->]; [Z.to_euclidean_division_equations; lia|].
  f_equal. f_equal. Z.to_euclidean_division_equations; lia.
Qed.

Lemma parse_clock_text h m s : 0 <= h < 24 → 0 <= m < 60 → 0 <= s < 60 → parse_clock (clock_text h m s) = Some (h, m).
Proof.
  intros Hh Hm Hs. unfold parse_clock, clock_text. rewrite getnum_two_digits by lia. cbn [mbind option_bind skip_colon Ascii.eqb Bool.eqb].
  rewrite getnum_two_digits by lia. cbn [mbind option_bind skip_colon Ascii.eqb Bool.eqb].
  rewrite getnum_two_digits by lia. cbn [mbind option_bind fraction_only].
  assert ((h <? 24) = true) as -> by lia. assert ((m <? 60) = true) as -> by lia. by assert ((s <? 60) = true) as -> by lia.
Qed.

(** A maintenance window is a stretch of the day's circle, overnight ones
    included.  With both bounds stored as HH:MM:SS, the window is open exactly
    when the minutes since its start, around the clock, are fewer than its
    length; so it is open the same minutes every day, the window from end to
    start is its complement, and equal bounds are a window that never opens.
    A bound the server stores but Go cannot read, such as 24:00:00, leaves the
    rollout without any window. *)
Theorem maintenance_window_is_cyclic t h m s h' m' s' :
  0 <= h < 24 → 0 <= m < 60 → 0 <= s < 60 → 0 <= h' < 24 → 0 <= m' < 60 → 0 <= s' < 60 →
  let a := h * 60 + m in
  let b := h' * 60 + m' in
  let start := clock_text h m s in
  let end_ := clock_text h' m' s' in
  (InMaintenanceWindow t (Some start) (Some end_) = true ↔ (minute_of_day t - a) mod 1440 < (b - a) mod 1440) ∧
  (a ≠ b → InMaintenanceWindow t (Some end_) (Some start) = negb (InMaintenanceWindow t (Some start) (Some end_))) ∧
  (a = b → InMaintenanceWindow t (Some start) (Some end_) = false) ∧
  InMaintenanceWindow (t + day) (Some start) (Some end_) = InMaintenanceWindow t (Some start) (Some end_) ∧
  InMaintenanceWindow t (Some start) (Some "24:00:00") = true.
Proof.
  intros Hh Hm Hs Hh' Hm' Hs'. cbv zeta. unfold InMaintenanceWindow.
  rewrite !parse_clock_text by done. rewrite !minute_of_day_clock, minute_of_day_shift.
  assert (0 <= minute_of_day t < 1440) as Hn by (apply Z.mod_pos_bound; lia).
  generalize dependent (minute_of_day t). intros n Hn. split_and!; [|intros|intros|done|done].
  - destruct (Z.leb_spec (h * 60 + m) (h' * 60 + m')); rewrite ?andb_true_iff, ?orb_true_iff;
      Z.to_euclidean_division_equations; lia.
  - destruct (Z.leb_spec (h * 60 + m) (h' * 60 + m')), (Z.leb_spec (h' * 60 + m') (h * 60 + m)); lia.
  - destruct (Z.leb_spec (h * 60 + m) (h' * 60 + m')); lia.
Qed.

Lemma maintenance_window_is_cyclic_witness :
  InMaintenanceWindow (23 * Hour) (Some (clock_text 22 0 0)) (Some (clock_text 6 0 0)) = true ∧
  InMaintenanceWindow (12 * Hour) (Some (clock_text 22 0 0)) (Some (clock_text 6 0 0)) = false.
Proof.
  split.
  - apply (maintenance_window_is_cyclic (23 * Hour) 22 0 0 6 0 0); vm_compute; try reflexivity; split; discriminate || reflexivity.
  - destruct (maintenance_window_is_cyclic (12 * Hour) 22 0 0 6 0 0) as [H _]; try lia.
    destruct (InMaintenanceWindow (12 * Hour) (Some (clock_text 22 0 0)) (Some (clock_text 6 0 0))) eqn:E; [|reflexivity].
    pose proof (proj1 H eq_refl) as Ht. vm_compute in Ht. discriminate Ht.
Defined.

(** ** One download per device *)

(** A system before its first rollout. *)
Definition no_rollouts : Rollouts := mkRollouts ∅ ∅.

Definition w_image (id : string) : Image := mkImage id "Acme" "pc" "2.0" "stable" "fw.bin" 1024 "" 0.
Definition w_fresh (prefix dev : string) : Fresh := mkFresh (prefix ++ dev) "20260101" (prefix ++ dev).
Definition w_cpe (id : string) (customer : option string) : Device :=
  mkDevice (mkIdentity id id "oui" "pc" "sn" 0) "Acme" (mkPresence StOnline None [] None None)
    (mkOwnership customer None [] None) no_reach RootUnknown None AuthModeNone no_profile ["CWMP"] 0.
Definition w_fleet (customer : option string) : gmap string Device :=
  {["d1" := w_cpe "d1" customer; "d2" := w_cpe "d2" customer; "d4" := w_cpe "d4" customer]}.
Definition w_images : gmap string Image := {["new" := w_image "new"; "old" := w_image "old"]}.
Definition w_request : createRolloutRequest :=
  mkCreateRollout "r" "new" (Some "old") None None 34 (float_of_int 0) None None (Some "c1").
Definition w_created : Rollouts :=
  (createRollout (λ s, Some s) (Ok (["c1"], true)) "r1" "op" (Some w_request) w_images {["c1"]} no_params
     (w_fleet (Some "c1")) no_rollouts).2.
Definition w_hash (_ : json) : string := "".

(** A call for the rollout, with what happens before each of its statements. *)
Definition w_call_among (rest : nat → Shared → Shared) (lost : nat → bool) (prefix : string) (start : bool) (s : Shared)
  : RolloutReply * list (string * Job) * Shared :=
  dispatchRolloutBatch w_mac (λ l, l) "http://fw" "k" w_images (w_fleet (Some "c1")) 0 "op" rest lost (w_fresh prefix)
    (Ok (["c1"], true)) start "r1" s.
Definition w_alone (_ : nat) (s : Shared) : Shared := s.
Definition w_call (prefix : string) (start : bool) (s : Shared) : RolloutReply * list (string * Job) * Shared :=
  w_call_among w_alone (λ _, false) prefix start s.

Definition w_started : RolloutReply * list (string * Job) * Shared := w_call "a" true (w_created, ∅).

(** C25: a rollout sends each of its devices one download.  In every history of
    a rollout from before its creation, whatever the job repository, the
    devices and the calls for other rollouts do in between and between the
    statements of its own calls: no device appears twice among the downloads
    its waves queued; the devices whose row has a job are exactly those sent
    one, and the row names it; and it is a firmware download of the rollout's
    image for that device.  The calls for this rollout do not overlap each
    other and their UPDATEs succeed.  The job table's retention is outside:
    pruning an old successful job empties its row, and the next wave sends the
    firmware to that device again. *)
Theorem rollout_sends_one_download_per_device hash id h :
  rollout_history hash id h →
  NoDup (fst <$> hi_sent h) ∧
  (∀ d k, (∃ j, (d, j) ∈ hi_sent h ∧ ID j = k) ↔
     ∃ rd, rs_devices (hi_tables h).1 !! (id, d) = Some rd ∧ rd_JobID rd = Some k) ∧
  (∀ d j, (d, j) ∈ hi_sent h → ∃ r images j', rs_rollouts (hi_tables h).1 !! id = Some r ∧
     download_job images (ro_FirmwareImageID r) d j ∧
     (hi_tables h).2 !! ID j = Some j' ∧ DeviceID j' = d ∧ Type_ j' = TypeFirmwareDownload) ∧
  (let '(_, _, (t, jobs)) := w_started in
   let '(kept, t1) := prune_jobs 10 (MarkSuccess 5 "ad1" jobs) t in
   let '(_, sent, _) := w_call "b" false (t1, kept) in
   fst <$> w_started.1.2 = ["d1"] ∧ fst <$> sent = ["d1"]).
Proof.
  intros Hh. pose proof (rollout_history_ok _ _ _ Hh) as Hok. split_and!.
  - apply (ho_once _ _ Hok).
  - apply (ho_rows _ _ Hok).
  - intros d j Hin. destruct (ho_sent _ _ Hok _ Hin) as (r & images & Hr & Hdl & j' & Hj' & E). simpl in *.
    exists r, images, j'. unfold identity in E. simplify_eq. split_and!; [done..| |].
    + by rewrite <- (dj_device _ _ _ _ Hdl).
    + by rewrite <- (dj_type _ _ _ _ Hdl).
  - vm_compute. split; reflexivity.
Qed.

Lemma w_alone_others id n s : rtc (other_statement w_hash id) s (w_alone n s).
Proof. apply rtc_refl. Qed.

(** A call of the example is a step. *)
Lemma w_call_step rest prefix start s sent back reply queued s' :
  (∀ n s, rtc (other_statement w_hash "r1") s (rest n s)) → w_call_among rest (λ _, false) prefix start s = (reply, queued, s') →
  rollout_step w_hash "r1" (mkHistory s sent back)
    (if blocked_reply reply then mkHistory s' sent (queued ++ back) else mkHistory s' (queued ++ sent) back).
Proof. intros Hrest E. by eapply rstep_call, E. Qed.

Lemma w_created_history : rollout_history w_hash "r1" (mkHistory (w_created, ∅) [] []).
Proof.
  exists (mkHistory (no_rollouts, ∅) [] []). split; [by split_and!|]. apply rtc_once, rstep_other.
  apply (other_create w_hash "r1" (λ s, Some s) (Ok (["c1"], true)) "r1" "op" (Some w_request) w_images {["c1"]}
    no_params (w_fleet (Some "c1")) no_rollouts ∅).
Qed.

Lemma history_extended hash id h h' : rollout_history hash id h → rollout_step hash id h h' → rollout_history hash id h'.
Proof. intros (h0 & Hb & Hr) Hs. exists h0. split; [done|]. by eapply rtc_r. Qed.

Lemma w_started_history : rollout_history w_hash "r1" (mkHistory w_started.2 w_started.1.2 []).
Proof.
  eapply history_extended; [exact w_created_history|].
  pose proof (w_call_step w_alone "a" true (w_created, ∅) [] [] w_started.1.1 w_started.1.2 w_started.2 (w_alone_others _)) as H.
  assert (blocked_reply w_started.1.1 = false) as E by (vm_compute; reflexivity). rewrite E, app_nil_r in H. apply H.
  unfold w_started, w_call. by destruct (w_call_among _ _ _ _ _) as [[]].
Qed.

(** The first device takes the image; then a second wave, during which it is
    reported, goes out. *)
Definition w_report (n : nat) (s : Shared) : Shared :=
  if Nat.eqb n 1 then (s.1, MarkSuccess 5 "ad1" s.2) else s.
Definition w_advanced : RolloutReply * list (string * Job) * Shared :=
  w_call_among w_report (λ _, false) "b" false w_started.2.

Lemma w_report_others n s : rtc (other_statement w_hash "r1") s (w_report n s).
Proof.
  unfold w_report. destruct (Nat.eqb n 1); [|apply rtc_refl]. destruct s as [t jobs]. apply rtc_once, other_job, step_success.
Qed.

Lemma w_advanced_history : rollout_history w_hash "r1" (mkHistory w_advanced.2 (w_advanced.1.2 ++ w_started.1.2) []).
Proof.
  eapply history_extended; [exact w_started_history|].
  pose proof (w_call_step w_report "b" false w_started.2 w_started.1.2 [] w_advanced.1.1 w_advanced.1.2 w_advanced.2 w_report_others) as H.
  assert (blocked_reply w_advanced.1.1 = false) as E by (vm_compute; reflexivity). rewrite E in H. apply H.
  unfold w_advanced. by destruct (w_call_among _ _ _ _ _) as [[]].
Qed.

Lemma rollout_sends_one_download_per_device_witness :
  fst <$> w_advanced.1.2 ++ w_started.1.2 = ["d2"; "d1"] ∧ NoDup (fst <$> w_advanced.1.2 ++ w_started.1.2) ∧
  ∃ rd, rs_devices w_advanced.2.1 !! ("r1", "d1") = Some rd ∧ rd_JobID rd = Some "ad1".
Proof.
  destruct (rollout_sends_one_download_per_device _ _ _ w_advanced_history) as (Hnd & Hrows & _ & _).
  split_and!; [vm_compute; reflexivity|exact Hnd|]. apply (Hrows "d1" "ad1").
  assert (∃ j, w_started.1.2 = [("d1", j)] ∧ ID j = "ad1") as (j & Hj & Hid) by (eexists; split; vm_compute; reflexivity).
  exists j. split; [|exact Hid]. rewrite Hj. apply elem_of_app. right. left.
Defined.

(** Two advances that overlap send the same device the firmware twice: the
    second reads the eligible devices before the first has marked them.  The
    row keeps the later link and the other download is in no row. *)
Theorem overlapping_advances_send_twice :
  let s := (w_started.2.1, MarkSuccess 5 "ad1" w_started.2.2) in
  let other n s := if Nat.eqb n 2 then (w_call "c" false s).2 else s in
  let '(reply, sent, s') := w_call_among other (λ _, false) "b" false s in
  reply = WaveDispatched 1 1 StatusActive false ∧ fst <$> sent = ["d2"] ∧
  (DeviceID <$> s'.2 !! "bd2") = Some "d2" ∧ (DeviceID <$> s'.2 !! "cd2") = Some "d2" ∧
  rs_devices s'.1 !! ("r1", "d2") = Some (mkRolloutDevice (Some "bd2") (Some 0)).
Proof. vm_compute. split_and!; reflexivity. Qed.

(** When the UPDATE that links a queued download fails, the device stays
    eligible and the next advance sends it the firmware again. *)
Theorem lost_link_sends_twice :
  let '(_, sent, s) := w_call_among w_alone (λ n, Nat.eqb n 4) "a" true (w_created, ∅) in
  let '(_, sent', _) := w_call "b" false s in
  fst <$> sent = ["d1"] ∧ fst <$> sent' = ["d1"] ∧ (DeviceID <$> s.2 !! "ad1") = Some "d1".
Proof. vm_compute. split_and!; reflexivity. Qed.

(** ** What a call dispatches *)



(** ** The failure gate *)

Lemma float_gate_exact f n :
  0 <= f <= n → 0 < n <= 100 →
  float_gt (float_div (float_of_int f) (float_of_int n)) default_failure_rate = (n <? 5 * f).
Proof.
  intros Hf Hn.
  assert (forallb (λ n, forallb (λ f, Bool.eqb
      (float_gt (float_div (float_of_int (Z.of_nat f)) (float_of_int (Z.of_nat n))) default_failure_rate)
      (Z.of_nat n <? 5 * Z.of_nat f)) (seq 0 (S n))) (seq 1 100) = true) as H by (vm_compute; reflexivity).
  rewrite forallb_forall in H. specialize (H (Z.to_nat n) ltac:(apply in_seq; lia)). rewrite forallb_forall in H.
  specialize (H (Z.to_nat f) ltac:(apply in_seq; lia)). apply Bool.eqb_prop in H. by rewrite !Z2Nat.id in H by lia.
Qed.


(** The second device's download fails; the next advance rolls the first back. *)
Definition w_failing : Shared := (w_advanced.2.1, MarkFailed 6 "bd2" "9010" "download failure" w_advanced.2.2).
Definition w_blocked : RolloutReply * list (string * Job) * Shared := w_call "c" false w_failing.

Lemma w_failing_history : rollout_history w_hash "r1" (mkHistory w_failing (w_advanced.1.2 ++ w_started.1.2) []).
Proof.
  eapply history_extended; [exact w_advanced_history|]. unfold w_failing. destruct w_advanced.2 as [t jobs].
  apply rstep_other, other_job, step_failed.
Qed.


(** Two overlapping advances that both find the rate exceeded roll the same
    device back twice: the stamp is tested on the row read at the start of the
    request and set after the downloads are queued. *)
Theorem overlapping_advances_roll_back_twice :
  let other n s := if Nat.eqb n 0 then (w_call "d" false s).2 else s in
  let '(reply, back, s') := w_call_among other (λ _, false) "c" false w_failing in
  reply = RolloutRefused 409 ErrFailureRateExceeded ∧ fst <$> back = ["d1"] ∧
  (DeviceID <$> s'.2 !! "cd1") = Some "d1" ∧ (DeviceID <$> s'.2 !! "dd1") = Some "d1".
Proof. vm_compute. split_and!; reflexivity. Qed.

(** ** Targets *)

(** A rollout's devices are chosen once, inside the creator's scope.  When
    an operator creates a rollout, its devices are exactly the registered ones
    the model, version and customer filters select; for a scoped operator all
    of them belong then to one customer of the scope; and whatever the system
    does later, no device joins or leaves.  The owner is not looked at again:
    a device sold to another customer after the creation is still sent the
    firmware. *)
Theorem rollout_targets_are_fixed_at_creation hash pg_time scope uuid operator body images customers params devices
    t jobs sent back r n t' :
  rollout_history hash uuid (mkHistory (t, jobs) sent back) → (∀ k d, devices !! k = Some d → d_ID (d_identity d) = k) →
  createRollout pg_time scope uuid operator body images customers params devices t = (RolloutCreated r n, t') →
  (∀ d, is_Some (rs_devices t' !! (uuid, d)) ↔
     ∃ dv, devices !! d = Some dv ∧
       eligible_device (ro_ModelFilter r) (ro_CurrentVersionFilter r) (ro_CustomerID r) params dv = Some true) ∧
  (∀ ids, scope = Ok (ids, true) → ∃ c, ro_CustomerID r = Some c ∧ c ∈ ids ∧
     ∀ d dv, is_Some (rs_devices t' !! (uuid, d)) → devices !! d = Some dv → d_CustomerID (d_ownership dv) = Some c) ∧
  (∀ h d, rtc (rollout_step hash uuid) (mkHistory (t', jobs) sent back) h →
     is_Some (rs_devices (hi_tables h).1 !! (uuid, d)) ↔ is_Some (rs_devices t' !! (uuid, d))) ∧
  (let '(reply, sent, _) := dispatchRolloutBatch w_mac (λ l, l) "http://fw" "k" w_images (w_fleet (Some "c2")) 0 "op" w_alone
       (λ _, false) (w_fresh "a") (Ok (["c1"], true)) true "r1" (w_created, ∅) in
   reply = WaveDispatched 1 1 StatusActive false ∧ fst <$> sent = ["d1"]).
Proof.
  intros Hreach Hkeyed E. pose proof (rollout_history_ok _ _ _ Hreach) as Hok.
  destruct (createRollout_cases pg_time scope uuid operator body images customers params devices t)
    as [(code & msg & Hx)|(r' & l & E' & Hu & Hid & _ & -> & _ & ids & scoped & Hscope & Hin)]; [congruence|].
  rewrite E in E'. injection E' as -> _ ->.
  set (l := List.filter _ _). assert (∀ d, is_Some ((new_rows uuid l ∪ rs_devices t) !! (uuid, d)) ↔
    ∃ dv, devices !! d = Some dv ∧
      eligible_device (ro_ModelFilter r') (ro_CurrentVersionFilter r') (ro_CustomerID r') params dv = Some true) as Htargets.
  { intros d. split.
    - intros [rd H]. rewrite lookup_union_Some_raw in H. destruct H as [(_ & _ & dv & Hdv & Hd)%lookup_new_rows|[_ Ho]].
      + apply filter_elem in Hdv as [[k Hk]%elem_of_rows He]. exists dv. rewrite <- Hd, (Hkeyed _ _ Hk).
        split; [done|]. by destruct (eligible_device _ _ _ _ dv) as [[]|].
      + destruct (ho_owner _ _ Hok d) as [? Hx]; [by eexists|]. simpl in Hx. congruence.
    - intros (dv & Hdv & He). eexists. apply lookup_union_Some_l, lookup_new_rows. split_and!; [done..|]. exists dv.
      split; [|by apply Hkeyed]. apply filter_elem. split; [apply elem_of_rows; eauto|by rewrite He]. }
  split_and!; simpl.
  - exact Htargets.
  - intros ids' Hs. rewrite Hs in Hscope. injection Hscope as <- <-. specialize (Hin eq_refl). unfold deviceInScope in Hin.
    destruct (ro_CustomerID r') as [c|] eqn:Ec; [|done]. exists c. split_and!; [done| |].
    + apply existsb_exists in Hin as (x & Hx%list_elem_of_In & ->%String.eqb_eq). done.
    + intros d dv Hd%Htargets Hdv. destruct Hd as (dv' & Hdv' & He). rewrite Hdv in Hdv'. injection Hdv' as <-.
      unfold eligible_device in He. destruct (match ro_ModelFilter r' with Some _ => _ | None => _ end); [|done].
      injection He as He. bool_to_prop. done.
  - intros h d Hrun. eapply (targets_stay hash uuid _ _ d Hrun).
    + eapply history_ok_other; [|exact Hok]. pose proof (other_create hash uuid pg_time scope uuid operator body images customers
        params devices t jobs) as Hc. by rewrite E in Hc.
    + simpl. rewrite lookup_insert_eq. eauto.
  - vm_compute. split; reflexivity.
Qed.

Lemma rollout_targets_are_fixed_at_creation_witness :
  is_Some (rs_devices w_created !! ("r1", "d1")) ∧
  ∃ c, c ∈ ["c1"] ∧ d_CustomerID (d_ownership (w_cpe "d1" (Some "c1"))) = Some c.
Proof.
  assert (∃ r n, createRollout (λ s, Some s) (Ok (["c1"], true)) "r1" "op" (Some w_request) w_images {["c1"]} no_params
     (w_fleet (Some "c1")) no_rollouts = (RolloutCreated r n, w_created)) as (r & n & E)
    by (eexists _, _; vm_compute; reflexivity).
  assert (∀ k d, w_fleet (Some "c1") !! k = Some d → d_ID (d_identity d) = k) as Hk.
  { intros k d. unfold w_fleet. rewrite !lookup_insert_Some, lookup_singleton_Some.
    intros [[<- <-]|[_ [[<- <-]|[_ [<- <-]]]]]; reflexivity. }
  assert (rollout_history w_hash "r1" (mkHistory (no_rollouts, ∅) [] [])) as Hh.
  { exists (mkHistory (no_rollouts, ∅) [] []). split; [split_and!; reflexivity|apply rtc_refl]. }
  destruct (rollout_targets_are_fixed_at_creation w_hash _ _ _ _ _ _ _ _ _ no_rollouts ∅ [] [] r n w_created Hh Hk E)
    as (_ & Hs & _ & _).
  assert (is_Some (rs_devices w_created !! ("r1", "d1"))) as Hd by (vm_compute; eauto).
  split; [exact Hd|]. destruct (Hs ["c1"] eq_refl) as (c & _ & Hc & Hall). exists c. split; [exact Hc|].
  apply (Hall "d1" _ Hd). reflexivity.
Defined.
